(* ===== verification/_CoqProject ===== *)
-Q . S2P
Prelude.v
Slab.v
Queue.v
Shm.v
Objects.v
SideTables.v
SentMessages.v
Intel.v
Dispatch.v
Text.v
Display.v
Registry.v
RegFile.v
RegInit.v
RegHandlers.v
Csp.v
Atoms.v
Loop.v
Completion.v
Handles.v
Session.v
Client.v
Sync.v
Pipes.v
Threads.v
Processes.v
Build.v
Pe.v
WinTree.v
Windows.v
Desktop.v
Messages.v
Image.v
Mappings.v
Files.v
Daemon.v
Fs.v
Saves.v
Environ.v
Deploy.v
Launcher.v
Profile.v
Startup.v
ComClasses.v
Parallax.v
Packager.v
