(* ===== verification/Prelude.v ===== *)
(** * A verification library for quark, triskelion and PARALLAX

    ** The program

    triskelion ([src/rust/src/triskelion]) is a daemon that takes the place of
    the wineserver.  Wine processes connect over a Unix socket and send requests
    on a pipe; an I/O thread reassembles them, collects the descriptors sent
    alongside and passes them to the authority thread, which owns all state and
    answers each request through a table of handlers.  Window messages bypass
    the daemon: every thread has a queue in shared memory.  PARALLAX
    ([src/rust/src/parallax]) enumerates the display hardware and publishes it
    in a shared segment that the daemon reads at start.  quark
    ([src/rust/src/quark]) prepares and launches a Wine prefix.

    ** The files, in order

    - [Prelude]: machine integers with their wrap-around, panics ([outcome]),
      byte buffers with their read and write lemmas, tables written entry by
      entry.
    - [Slab] ([slab.rs]): the allocators of handles ([HeapSlab]) and of thread
      slots ([MmapSlab]), with free lists threaded through the slots.
    - [Queue] ([queue.rs]): the message ring and thread queue, sequentially and
      as interleaved atomic steps.
    - [Shm] ([shm.rs]): assignment of queue slots to threads and the addresses
      of the slots.
    - [Objects] ([objects.rs]): handle tables with descriptor reference counts;
      process and thread creation.
    - [SideTables] ([event_loop/side_tables.rs]): state kept per handle and its
      removal.
    - [SentMessages] ([sent_messages.rs]): synchronous messages in flight and
      the adaptive reply profiles.
    - [Intel] ([intel.rs]): counts per opcode, the auto-stub policy and the cache
      file.
    - [Dispatch] ([event_loop/dispatch.rs], reply helpers of [event_loop/mod.rs],
      [protocol_remap.rs]): one request from opcode to reply.
    - [Text]: the string conversions of the standard library that the code uses.
    - [Display] ([parallax/display_info.rs], [display.rs]): writer and reader of
      the display segment.
    - [Registry], [RegFile], [RegInit] ([registry.rs]): the key tree and its
      operations; the text files it is loaded from and saved to; the keys the
      daemon creates itself.
    - [RegHandlers] ([event_loop/registry_handlers.rs]): the requests on the
      registry, from buffer to reply and signalled events.
    - [Csp] ([csp_loop.rs]): request reassembly and the tables of the I/O thread.
    - [Atoms] ([event_loop/registry_handlers.rs]): the global atom table.
    - [Loop] ([ntsync.rs], [ipc.rs], [event_loop/mod.rs]): the interface to the
      kernel with a concrete instance, the record of a client, the state of the
      event loop and the helpers all handlers share.
    - [Completion] ([event_loop/completion.rs]): completion ports, jobs, timers and
      debug objects.
    - [Handles] ([event_loop/handles.rs]): closing, duplicating and describing
      handles.
    - [Session] ([event_loop/mod.rs]): the memory shared with all clients, its
      sequence locks, user handles and queue bits.
    - [Client] ([event_loop/client.rs]): the end of a thread and of a process.
    - [Sync] ([event_loop/sync.rs]): waits, events, mutexes, semaphores, names and
      asynchronous results.
    - [Pipes] ([event_loop/pipes.rs]): named pipes.
    - [Threads] ([event_loop/thread.rs]): creation, start, suspension and
      enumeration of threads.
    - [Processes] ([event_loop/process.rs]): creation of processes, their startup
      information, inheritance, memory access and enumeration.
    - [WinTree] ([event_loop/window.rs]): the window tree and the walks over it.
    - [Windows] ([event_loop/window.rs], [event_loop/mod.rs]): windows, classes,
      properties, painting, and the desktop windows of the start.
    - [Desktop] ([event_loop/window.rs], [event_loop/token.rs]): desktops, window
      stations, monitors, focus, cursor, caret, keyboard, hooks and tokens.
    - [Messages] ([event_loop/window.rs]): taking, posting and sending messages,
      replies, queue objects, window timers and hardware input.
    - [Build] ([build.rs]): the generator of the protocol structs and opcodes.
    - [Pe] ([quark/pe_scanner.rs], [quark/pe_patch.rs]): imports of executables and
      the patch of their import section.
    - [Image] ([event_loop/file_io.rs]): the headers of an executable that becomes a
      section.
    - [Mappings] ([event_loop/file_io.rs]): sections, their names, views and the
      copies of writable shared sections.
    - [Files] ([event_loop/file_io.rs]): opening, reading, writing and describing
      files, directories and devices.
    - [Daemon] ([csp_loop.rs], [event_loop/mod.rs]): both threads together, with the
      channels between them and the housekeeping between two requests.
    - [Fs]: the calls of [std::fs] and [std::path] the launcher uses, on a tree with
      inodes and links.
    - [Saves], [Environ], [Deploy], [Launcher] ([quark/launcher.rs]): saved games, the
      environment and command line of Wine, the files put into a prefix, and the
      launcher as a whole.
    - [Profile] ([quark/profile.rs]): the counts of system calls and opcodes.
    - [Startup] ([main.rs], [event_loop/mod.rs]): names and identity of a prefix, the
      event loop at its start, the display data applied to it, its end.
    - [ComClasses] ([com_classes.rs]): the table of COM classes.
    - [Parallax] ([parallax/output.rs], [config.rs], [main.rs], [display.rs]): the
      enumeration of cards and screens, and the segment from writer to reader.
    - [Packager] ([quark/packager.rs]): the package for Steam.

    ** How the code is represented

    A Rust struct is a record with the same field names, an enum an inductive
    type, a HashMap a [gmap], a Vec a list.  Integers of width w are kept in [Z]
    and reduced where an operation can leave the width; the daemon is built in
    release mode, so [+] and [-] wrap.  A mutable receiver is an argument and a
    result; the event loop is one record, updated field by field.  An index out of
    range, a slice that cuts a character and the like are the outcome [Panic]; a
    panic keeps the state where the dispatcher catches it.

    The operating system is an interface: [Ntsync] has the calls on descriptors
    and synchronisation objects, [Sockets] and [Channels] those on sockets and
    pipes, [Files] those on open files, [PipeView] and [Drm] those on the ends of a
    pipe and on a graphics card; [NtsyncLaws], [ObjectLaws], [Reliable], [FileLaws],
    [PipeLaws], [SendLaws] and [DrmLaws] state the documented behaviour that theorems
    use; by [FileLaws] a read or write may fail or be short.  Each has a concrete instance ([ModelKernel], [ModelDrm] and others), so
    every theorem against an interface applies to one, and the examples evaluate.
    Clock readings, files in /proc and the memory of other processes are
    arguments.  The structs generated from Wine's protocol.def are a class per
    handler file: a parser for each request and the layout of each reply.  [Build]
    models the generator of those structs and of the opcode table, and shows that
    what it generates satisfies what [Dispatch] assumes.  The Unicode lowercase
    table is an interface with the law for ASCII ([Lowercase]).  Where the code
    takes the first match in the order of a hash map, the model takes the first in
    the order of [map_to_list].

    ** What is proved

    - Allocation: the heap slab refines a finite map, the mmap slab hands out
      free indices until it is full; handle values are never reused and the
      last reference closes a descriptor; thread slots are disjoint and inside
      the mapping; process and thread ids are unique; user handles name fresh
      shared objects.
    - Messages: the thread queue is a bounded FIFO, and under every interleaving
      of one producer and one consumer it delivers a prefix of what was accepted;
      through the handlers posted messages keep their order and arrive once; a
      blocked sender is released at once or by the receiver's reply, and when its
      receiver goes away; a tick fires exactly the window timers that are due.
    - Windows: under the requests the protocol intends the windows stay a forest
      and every walk over them ends; the list of children is exactly the
      descendants and agrees with the walk up; fields and properties are read
      back as stored; every paint request makes progress; focus, active and
      capture window behave as independent variables.
    - Requests: reassembly does not depend on how reads cut the stream and loses
      no descriptor; the tables of the I/O thread agree in every reachable state;
      dispatch always replies, contains panics and stubs only where the policy
      allows it; the generated opcode table discharges what dispatch assumes, and
      the generated structs are laid out as they were computed.
    - Waiting: a select is answered at once, by one wait thread, or by one timer
      entry when that is due, or is parked for a resume; the loops over timers and
      timed waits terminate and fire exactly what is due; completion messages are
      neither lost nor duplicated; a suspended thread runs again after one resume;
      connecting to a pipe completes the listen of its server, whose event is
      signalled by the acknowledgement and not before.
    - Handles and names: closing, duplicating and comparing handles; events and
      sections shared by name between two processes.
    - Files: the headers of an image are read back as a linker wrote them; the
      shared writable sections are copied whole as long as no write fails, which the
      code does not check; a write reaches the read that waits for it and wakes it.
    - The daemon as a whole: the tables of the two threads agree in every state
      that is reachable without a client forging the threads' own codes; a reply reaches the client it is for, unless the client is gone; the
      housekeeping does everything that is due.
    - Display: the screens a card reports reach the daemon through the segment both
      sides name; the desktop names the driver the registry has for the card.
    - The launcher: the save directories it copies survive a run; libraries are deployed and nothing
      else is touched; the environment of the game is the one that was meant; the
      executables of a Wine tree are packaged.
    - Profiles and identifiers: counts are read back as written, phases divide the
      calls of a trace, and a security identifier is read as it is printed; every
      class of the table is registered.
    - Life cycle: startup information reaches a new process unchanged and
      consistent; the end of a thread signals the handle its creator holds;
      enumeration visits each thread once; after the last thread of a process
      the tables have nothing of the process, the window timers excepted, and
      nothing of other processes is touched.
    - Shared memory: a reader that sees an even and unchanged sequence number saw
      no write in between, where the odd number becomes visible before the data;
      the stores of the code do not enforce that order, and without it a write can
      be missed.
    - Persistence: the cache file, the display segment and a registry key's text
      section are read back as written; the imports of an executable are read
      back as a linker wrote them.
    - Registry: on every framed request the handlers terminate and reply, and a
      value set by one request is read by the next and signalled to its waiters;
      operations keep the tree well formed and terminate whatever links
      it contains; setting, enumerating, creating, deleting and notifying do what
      they promise and nothing else; the initial tree is well formed and its
      control-set link resolves.
    - Atoms: the two indexes implement one reference-counted dictionary.
    - Defects, as theorems about the code as it is, beside the component they are
      about: slots handed out twice, lost wake-ups and messages, descriptors
      leaked or closed twice, tables keyed by a handle alone and so shared between
      processes, panics on input, an unclaimed process that outlives its end,
      replies longer than the client accepts, and others.

    ** Fuel

    [WALK_FUEL] is 5: [walk] recurses only while its counter is below 4, and
    [walk_from_total] shows that 5 suffices.  [follow_links] has the 8 rounds of
    the source.  The writer of registry files recurses on the depth of the tree;
    [save_to_prefix_settles] shows that its result is fixed from some fuel on.
    [process_complete] gets the length of the buffer, and every round removes
    at least 64 bytes.  [check_loop] and [wake_loop] get the length of the list
    they work on; their theorems show that they end.  The import loop of the
    executable scanner gets 1001 rounds, one more than its limit, and
    [scan_pe_terminates] shows that they suffice.  [dec_digits] and [hex_width] get
    more digits than a 32-bit number has.  The walks down the window tree get
    [enough], one more than the number of windows; on a forest that suffices
    ([collect_enough], [top_enough], [point_enough]), and on a cycle no fuel does
    ([cycle_hangs]).  [expire_loop] gets one more than the number of timers.
    [copy_section] gets one more than the bytes that remain, [write_reply] one more
    than the data.  The fuel of [write_loop] is an argument: one for each byte and one
    more suffice when there is room, and none does on a full pipe.  The recursions
    over directories take their depth, the reader of directory entries the number of
    bytes.  Paths follow 40 links, as the kernel does.

    ** What is not modelled

    The system calls themselves: epoll, sockets, mappings, the ntsync device, DRM,
    fork and signals; they are interfaces or arguments.  The command line of quark,
    the programs it clones, configures and runs, its report on the libraries of a
    Wine checkout, the capture and comparison of profiles, and all messages on the
    terminal and in the log.  [src/c23/launcher.rs] is an older copy of the launcher
    that no build uses. *)

From stdpp Require Import base list list_numbers gmap numbers.

(** ** Machine integers

    The daemon is built in release mode, where [+], [-] and [<<] on the fixed
    width types wrap around and [as] casts truncate.  A value of width [w] is a
    [Z]; [wrap w] is the reduction every such operation ends with. *)

Declare Scope word_scope.
Delimit Scope word_scope with word.
Local Open Scope Z_scope.

Definition wrap (w z : Z) : Z := z mod 2 ^ w.
Definition u8 (z : Z) : Z := wrap 8 z.
Definition u16 (z : Z) : Z := wrap 16 z.
Definition u32 (z : Z) : Z := wrap 32 z.
Definition u64 (z : Z) : Z := wrap 64 z.

(** Signed reinterpretation ([as i32]). *)
Definition i32 (z : Z) : Z :=
  let u := u32 z in if Z.ltb u (2 ^ 31) then u else u - 2 ^ 32.

Definition U32_MAX : Z := 4294967295.

Notation "a +₃₂ b" := (u32 (a + b)) (at level 50, left associativity) : word_scope.
Notation "a -₃₂ b" := (u32 (a - b)) (at level 50, left associativity) : word_scope.

Definition in_u8 (z : Z) : Prop := 0 <= z < 2 ^ 8.
Definition in_u16 (z : Z) : Prop := 0 <= z < 2 ^ 16.
Definition in_u32 (z : Z) : Prop := 0 <= z < 2 ^ 32.
Definition in_u64 (z : Z) : Prop := 0 <= z < 2 ^ 64.

#[export] Instance in_u8_dec z : Decision (in_u8 z).
Proof. unfold in_u8. apply _. Defined.
#[export] Instance in_u16_dec z : Decision (in_u16 z).
Proof. unfold in_u16. apply _. Defined.
#[export] Instance in_u32_dec z : Decision (in_u32 z).
Proof. unfold in_u32. apply _. Defined.
#[export] Instance in_u64_dec z : Decision (in_u64 z).
Proof. unfold in_u64. apply _. Defined.

Create HintDb words.

Lemma wrap_small w z : 0 <= z < 2 ^ w -> wrap w z = z.
Proof. intros. by apply Z.mod_small. Qed.

Lemma wrap_range w z : 0 <= w -> 0 <= wrap w z < 2 ^ w.
Proof. intros. apply Z.mod_pos_bound, Z.pow_pos_nonneg; lia. Qed.

Lemma u8_small z : in_u8 z -> u8 z = z.
Proof. apply wrap_small. Qed.
Lemma u16_small z : in_u16 z -> u16 z = z.
Proof. apply wrap_small. Qed.
Lemma u32_small z : in_u32 z -> u32 z = z.
Proof. apply wrap_small. Qed.
Lemma u64_small z : in_u64 z -> u64 z = z.
Proof. apply wrap_small. Qed.

Lemma u8_in z : in_u8 (u8 z).
Proof. by apply wrap_range. Qed.
Lemma u16_in z : in_u16 (u16 z).
Proof. by apply wrap_range. Qed.
Lemma u32_in z : in_u32 (u32 z).
Proof. by apply wrap_range. Qed.
Lemma u64_in z : in_u64 (u64 z).
Proof. by apply wrap_range. Qed.
#[export] Hint Resolve u8_in u16_in u32_in u64_in : words.

(** [word_lia] exposes the bounds behind [in_uN] and calls [lia]. *)
Ltac word_unfold :=
  unfold in_u8, in_u16, in_u32, in_u64, U32_MAX in *;
  change (2 ^ 8) with 256 in *; change (2 ^ 16) with 65536 in *;
  change (2 ^ 31) with 2147483648 in *;
  change (2 ^ 32) with 4294967296 in *;
  change (2 ^ 64) with 18446744073709551616 in *.
Ltac word_lia := word_unfold; lia.

(** ** Outcomes of a Rust computation

    [Ret a] is a normal return, [Panic] an unwinding panic (index out of bounds,
    [unreachable!], explicit [panic!]), and [OutOfFuel] marks a [while] loop that
    was cut short by the model's fuel; theorems state that the latter two do not
    occur. *)
Inductive outcome (A : Type) : Type :=
| Ret (a : A)
| Panic
| OutOfFuel.
Arguments Ret {A} a.
Arguments Panic {A}.
Arguments OutOfFuel {A}.

Definition obind {A B} (m : outcome A) (k : A -> outcome B) : outcome B :=
  match m with
  | Ret a => k a
  | Panic => Panic
  | OutOfFuel => OutOfFuel
  end.

Declare Scope outcome_scope.
Delimit Scope outcome_scope with outcome.
Notation "x <-! m ;; k" := (obind m (fun x => k))
  (at level 100, m at next level, right associativity) : outcome_scope.
(** [v[i]] on a slice: a panic when out of range. *)
Definition index {A} (l : list A) (i : Z) : outcome A :=
  match l !! Z.to_nat i with
  | Some a => Ret a
  | None => Panic
  end.

Lemma index_lookup {A} (l : list A) i a : l !! Z.to_nat i = Some a -> index l i = Ret a.
Proof. unfold index. by intros ->. Qed.

(** ** Bytes

    A byte buffer is a [list Z] of values below 256. *)
Fixpoint le_bytes (n : nat) (z : Z) : list Z :=
  match n with
  | O => []
  | S n' => z mod 256 :: le_bytes n' (z / 256)
  end.

Fixpoint from_le (l : list Z) : Z :=
  match l with
  | [] => 0
  | b :: l' => b + 256 * from_le l'
  end.

Lemma length_le_bytes n z : length (le_bytes n z) = n.
Proof. revert z; induction n; intros; simpl; [done|]. by rewrite IHn. Qed.

Lemma from_le_bytes n z : from_le (le_bytes n z) = z mod 256 ^ Z.of_nat n.
Proof.
  revert z; induction n as [|n IH]; intros z.
  - simpl. change (256 ^ Z.of_nat 0) with 1. by rewrite Z.mod_1_r.
  - cbn [le_bytes from_le]. rewrite IH.
    rewrite Nat2Z.inj_succ, Z.pow_succ_r by lia.
    rewrite Z.rem_mul_r by (try lia; apply Z.pow_nonzero; lia). lia.
Qed.

Lemma from_le_u32 z : in_u32 z -> from_le (le_bytes 4 z) = z.
Proof. intros. rewrite from_le_bytes. apply Z.mod_small. by change (256 ^ Z.of_nat 4) with (2 ^ 32). Qed.

Lemma from_le_u64 z : in_u64 z -> from_le (le_bytes 8 z) = z.
Proof. intros. rewrite from_le_bytes. apply Z.mod_small. by change (256 ^ Z.of_nat 8) with (2 ^ 64). Qed.

Lemma from_le_u16 z : in_u16 z -> from_le (le_bytes 2 z) = z.
Proof. intros. rewrite from_le_bytes. apply Z.mod_small. by change (256 ^ Z.of_nat 2) with (2 ^ 16). Qed.

Lemma le_bytes_u8 n z : Forall in_u8 (le_bytes n z).
Proof.
  revert z; induction n; intros; simpl; constructor; [|done].
  apply Z.mod_pos_bound. lia.
Qed.

Lemma from_le_range l : Forall in_u8 l -> 0 <= from_le l < 256 ^ Z.of_nat (length l).
Proof.
  induction 1 as [|b l Hb _ IH]; [simpl; lia|].
  cbn [from_le length]. rewrite Nat2Z.inj_succ, Z.pow_succ_r by lia. word_lia.
Qed.

Lemma le_bytes_from_le l : Forall in_u8 l -> le_bytes (length l) (from_le l) = l.
Proof.
  induction 1 as [|b l Hb _ IH]; [done|].
  cbn [from_le length le_bytes].
  rewrite (Z.mul_comm 256), Z.mod_add, Z.div_add by lia.
  rewrite Z.mod_small, Z.div_small by word_lia. by rewrite Z.add_0_l, IH.
Qed.
#[export] Hint Resolve le_bytes_u8 : words.

(** ** Buffers written by range: [buf[off..off+n].copy_from_slice(bs)] *)
Definition slice {A} (off n : nat) (buf : list A) : list A := take n (drop off buf).
Definition write {A} (off : nat) (bs buf : list A) : list A := list_inserts off bs buf.

Definition get_u32 (buf : list Z) (off : nat) : Z := from_le (slice off 4 buf).
Definition put_u32 (off : nat) (v : Z) (buf : list Z) : list Z := write off (le_bytes 4 v) buf.

Lemma length_write {A} off (bs buf : list A) : length (write off bs buf) = length buf.
Proof. apply length_inserts. Qed.

Lemma slice_lookup {A} off n (buf : list A) i :
  slice off n buf !! i = if decide (i < n)%nat then buf !! (off + i)%nat else None.
Proof.
  unfold slice. case_decide.
  - by rewrite lookup_take_lt, lookup_drop.
  - rewrite lookup_take_ge; [done|lia].
Qed.

Lemma write_lookup {A} off (bs buf : list A) i :
  (off + length bs <= length buf)%nat ->
  write off bs buf !! i =
    if decide (off <= i < off + length bs)%nat then bs !! (i - off)%nat else buf !! i.
Proof.
  intros Hle. unfold write. case_decide as Hd.
  - rewrite list_lookup_inserts by lia. done.
  - destruct (decide (i < off)%nat).
    + by rewrite list_lookup_inserts_lt.
    + by rewrite list_lookup_inserts_ge by lia.
Qed.

Lemma slice_write_same {A} off (bs buf : list A) :
  (off + length bs <= length buf)%nat -> slice off (length bs) (write off bs buf) = bs.
Proof.
  intros Hle. apply list_eq; intros i. rewrite slice_lookup.
  case_decide.
  - rewrite write_lookup by done. rewrite decide_True by lia. f_equal; lia.
  - symmetry. apply lookup_ge_None. lia.
Qed.

Lemma slice_write_disjoint {A} off n off' (bs buf : list A) :
  (off' + length bs <= length buf)%nat ->
  (off + n <= off' \/ off' + length bs <= off)%nat ->
  slice off n (write off' bs buf) = slice off n buf.
Proof.
  intros Hle Hd. apply list_eq; intros i. rewrite !slice_lookup.
  case_decide; [|done]. rewrite write_lookup by done. by rewrite decide_False by lia.
Qed.

Lemma length_slice {A} off n (buf : list A) :
  (off + n <= length buf)%nat -> length (slice off n buf) = n.
Proof. intros. unfold slice. rewrite length_take, length_drop. lia. Qed.

Lemma get_put_u32_same off v buf :
  in_u32 v -> (off + 4 <= length buf)%nat -> get_u32 (put_u32 off v buf) off = v.
Proof.
  intros Hv Hle. unfold get_u32, put_u32.
  rewrite <- (length_le_bytes 4 v) at 1.
  rewrite slice_write_same by (rewrite length_le_bytes; lia). by apply from_le_u32.
Qed.

Lemma get_put_u32_other off off' v buf :
  (off' + 4 <= length buf)%nat -> (off + 4 <= off' \/ off' + 4 <= off)%nat ->
  get_u32 (put_u32 off' v buf) off = get_u32 buf off.
Proof.
  intros. unfold get_u32, put_u32.
  by rewrite slice_write_disjoint by (rewrite length_le_bytes; lia).
Qed.

Lemma length_put_u32 off v buf : length (put_u32 off v buf) = length buf.
Proof. apply length_write. Qed.

Lemma get_u32_range buf off :
  Forall in_u8 buf -> (off + 4 <= length buf)%nat -> in_u32 (get_u32 buf off).
Proof.
  intros Hb Hle. unfold get_u32.
  pose proof (from_le_range (slice off 4 buf)) as Hr.
  rewrite length_slice in Hr by done. change (256 ^ Z.of_nat 4) with (2 ^ 32) in Hr.
  apply Hr. by apply Forall_take, Forall_drop.
Qed.

Create Rewrite HintDb buffers.
#[export] Hint Rewrite @length_write length_put_u32 length_le_bytes : buffers.

(** ** Lists *)
Lemma filter_all {A} (P : A -> Prop) `{forall x, Decision (P x)} (l : list A) :
  (forall x, x ∈ l -> P x) -> filter P l = l.
Proof.
  induction l as [|x l IH]; intros Hall; [done|].
  rewrite filter_cons_True by (apply Hall; set_solver). rewrite IH; set_solver.
Qed.

Lemma filter_none {A} (P : A -> Prop) `{forall x, Decision (P x)} (l : list A) : (forall x, x ∈ l -> ~ P x) -> filter P l = [].
Proof.
  induction l as [|x l IH]; intros Hn; [done|]. rewrite filter_cons_False by (apply Hn; set_solver). apply IH. set_solver.
Qed.

(** ** Fixed layouts with integer offsets

    [get32]/[put32]/[get8]/[put8] are the field accesses of the file and
    shared-memory formats; offsets are integers, buffers keep their length. *)
Definition get32 (buf : list Z) (off : Z) : Z := get_u32 buf (Z.to_nat off).
Definition put32 (off v : Z) (buf : list Z) : list Z := put_u32 (Z.to_nat off) v buf.
Definition get8 (buf : list Z) (off : Z) : Z := default 0 (buf !! Z.to_nat off).
Definition put8 (off v : Z) (buf : list Z) : list Z := write (Z.to_nat off) [v] buf.
Definition put_bytes (off : Z) (bs buf : list Z) : list Z := write (Z.to_nat off) bs buf.
Definition get_bytes (off n : Z) (buf : list Z) : list Z := slice (Z.to_nat off) (Z.to_nat n) buf.
Definition blen (buf : list Z) : Z := Z.of_nat (length buf).

Lemma blen_put32 off v buf : blen (put32 off v buf) = blen buf.
Proof. unfold blen, put32. by rewrite length_put_u32. Qed.
Lemma blen_put8 off v buf : blen (put8 off v buf) = blen buf.
Proof. unfold blen, put8. by rewrite length_write. Qed.
Lemma blen_put_bytes off v buf : blen (put_bytes off v buf) = blen buf.
Proof. unfold blen, put_bytes. by rewrite length_write. Qed.
#[export] Hint Rewrite blen_put32 blen_put8 blen_put_bytes : buffers.

(** A write changes no range that does not meet it. *)
Lemma get_bytes_put_bytes_other off n off' bs buf :
  0 <= off -> 0 <= n -> 0 <= off' -> off' + Z.of_nat (length bs) <= blen buf ->
  off + n <= off' \/ off' + Z.of_nat (length bs) <= off ->
  get_bytes off n (put_bytes off' bs buf) = get_bytes off n buf.
Proof. unfold blen. intros. apply slice_write_disjoint; lia. Qed.

Lemma get_bytes_put_bytes_same off n bs buf :
  n = Z.of_nat (length bs) -> 0 <= off -> off + n <= blen buf ->
  get_bytes off n (put_bytes off bs buf) = bs.
Proof.
  unfold blen. intros -> ? ?. unfold get_bytes, put_bytes. rewrite Nat2Z.id.
  apply slice_write_same. lia.
Qed.

Lemma get32_bytes buf off : get32 buf off = from_le (get_bytes off 4 buf).
Proof. done. Qed.
Lemma put32_bytes off v buf : put32 off v buf = put_bytes off (le_bytes 4 v) buf.
Proof. done. Qed.
Lemma put8_bytes off v buf : put8 off v buf = put_bytes off [v] buf.
Proof. done. Qed.

Lemma get8_bytes buf off : 0 <= off -> get8 buf off = default 0 (head (get_bytes off 1 buf)).
Proof.
  intros. unfold get8, get_bytes. change (Z.to_nat 1) with 1%nat.
  rewrite head_lookup, slice_lookup, decide_True, Nat.add_0_r by lia. done.
Qed.

Lemma get32_put32_same off v buf :
  in_u32 v -> 0 <= off -> off + 4 <= blen buf -> get32 (put32 off v buf) off = v.
Proof. unfold blen. intros. apply get_put_u32_same; [done|lia]. Qed.

Lemma get32_put_bytes_other off off' bs buf :
  0 <= off -> 0 <= off' -> off' + Z.of_nat (length bs) <= blen buf ->
  off + 4 <= off' \/ off' + Z.of_nat (length bs) <= off ->
  get32 (put_bytes off' bs buf) off = get32 buf off.
Proof. intros. rewrite !get32_bytes. by rewrite get_bytes_put_bytes_other by lia. Qed.

Lemma get32_put32_other off off' v buf :
  0 <= off -> 0 <= off' -> off' + 4 <= blen buf -> off + 4 <= off' \/ off' + 4 <= off ->
  get32 (put32 off' v buf) off = get32 buf off.
Proof. intros. rewrite put32_bytes. by apply get32_put_bytes_other; rewrite ?length_le_bytes. Qed.

Lemma get32_put8_other off off' v buf :
  0 <= off -> 0 <= off' -> off' + 1 <= blen buf -> off + 4 <= off' \/ off' + 1 <= off ->
  get32 (put8 off' v buf) off = get32 buf off.
Proof. intros. rewrite put8_bytes. by apply get32_put_bytes_other. Qed.

Lemma get8_put_bytes_other off off' bs buf :
  0 <= off -> 0 <= off' -> off' + Z.of_nat (length bs) <= blen buf ->
  off + 1 <= off' \/ off' + Z.of_nat (length bs) <= off ->
  get8 (put_bytes off' bs buf) off = get8 buf off.
Proof. intros. rewrite !get8_bytes by done. by rewrite get_bytes_put_bytes_other by lia. Qed.

Lemma get8_put32_other off off' v buf :
  0 <= off -> 0 <= off' -> off' + 4 <= blen buf -> off + 1 <= off' \/ off' + 4 <= off ->
  get8 (put32 off' v buf) off = get8 buf off.
Proof. intros. rewrite put32_bytes. by apply get8_put_bytes_other; rewrite ?length_le_bytes. Qed.

Lemma get8_put8_other off off' v buf :
  0 <= off -> 0 <= off' -> off' + 1 <= blen buf -> off + 1 <= off' \/ off' + 1 <= off ->
  get8 (put8 off' v buf) off = get8 buf off.
Proof. intros. rewrite put8_bytes. by apply get8_put_bytes_other. Qed.

Lemma get8_put8_same off v buf :
  0 <= off -> off + 1 <= blen buf -> get8 (put8 off v buf) off = v.
Proof.
  intros. rewrite get8_bytes, put8_bytes, get_bytes_put_bytes_same by (simpl; lia). done.
Qed.

(** Sub-ranges of a range. *)
Lemma get_bytes_get_bytes off n off' n' buf :
  0 <= off' -> 0 <= n' -> off' + n' <= n -> 0 <= off ->
  get_bytes off' n' (get_bytes off n buf) = get_bytes (off + off') n' buf.
Proof.
  intros. unfold get_bytes. apply list_eq; intros i. rewrite !slice_lookup.
  case_decide; [|done]. rewrite decide_True by lia. f_equal. lia.
Qed.

Lemma get_bytes_length off n buf : 0 <= off -> 0 <= n -> off + n <= blen buf -> blen (get_bytes off n buf) = n.
Proof. unfold blen, get_bytes. intros. rewrite length_slice; lia. Qed.

(** 64-bit fields *)
Definition get64 (buf : list Z) (off : Z) : Z := from_le (get_bytes off 8 buf).
Definition put64 (off v : Z) (buf : list Z) : list Z := put_bytes off (le_bytes 8 v) buf.

Lemma get64_put64_same off v buf :
  in_u64 v -> 0 <= off -> off + 8 <= blen buf -> get64 (put64 off v buf) off = v.
Proof.
  intros. unfold get64, put64. rewrite get_bytes_put_bytes_same by (rewrite ?length_le_bytes; lia).
  by apply from_le_u64.
Qed.

(** Side conditions of the layout lemmas: lengths are normalised, then [lia]. *)
Ltac layout_side := autorewrite with buffers; first [done | lia | word_lia].
Ltac layout :=
  repeat first
    [ rewrite get32_put32_same by layout_side
    | rewrite get8_put8_same by layout_side
    | rewrite get32_put32_other by layout_side
    | rewrite get32_put8_other by layout_side
    | rewrite get8_put32_other by layout_side
    | rewrite get8_put8_other by layout_side ].

(** ** Tables written entry by entry: [for i in 0..n { write entry i }] *)
Definition write_table (n : nat) (w : nat -> list Z -> list Z) (buf : list Z) : list Z :=
  fold_left (fun b i => w i b) (seq 0 n) buf.

Section write_table.
Context (w : nat -> list Z -> list Z) (L : Z).

Lemma write_table_S n buf : write_table (S n) w buf = w n (write_table n w buf).
Proof. unfold write_table. by rewrite seq_S, fold_left_app. Qed.

Lemma write_table_len n buf :
  (forall i b, (i < n)%nat -> blen b = L -> blen (w i b) = L) ->
  blen buf = L -> blen (write_table n w buf) = L.
Proof.
  induction n as [|n IH]; intros Hw Hb; [done|]. rewrite write_table_S. apply Hw; [lia|].
  apply IH; [|done]. intros i b Hi. apply Hw. lia.
Qed.

(** What no entry touches keeps its value. *)
Lemma write_table_frame {A} (g : list Z -> A) n buf :
  (forall i b, (i < n)%nat -> blen b = L -> blen (w i b) = L /\ g (w i b) = g b) ->
  blen buf = L -> g (write_table n w buf) = g buf.
Proof.
  induction n as [|n IH]; intros Hw Hb; [done|]. rewrite write_table_S.
  destruct (Hw n (write_table n w buf)) as [_ ->]; [lia| |].
  - apply write_table_len; [|done]. intros i b Hi Hbb. apply Hw; [lia|done].
  - apply IH; [|done]. intros i b Hi. apply Hw. lia.
Qed.

(** What entry [i] writes, and no later entry touches, is what is read back. *)
Lemma write_table_entry {A} (g : list Z -> A) (v : A) n i buf :
  (i < n)%nat ->
  (forall j b, (j < n)%nat -> blen b = L -> blen (w j b) = L) ->
  (forall b, blen b = L -> g (w i b) = v) ->
  (forall j b, (j < n)%nat -> j <> i -> blen b = L -> g (w j b) = g b) ->
  blen buf = L -> g (write_table n w buf) = v.
Proof.
  induction n as [|n IH]; intros Hi Hlen Hv Hother Hb; [lia|]. rewrite write_table_S.
  assert (blen (write_table n w buf) = L) as Hl.
  { apply write_table_len; [|done]. intros j b Hj. apply Hlen. lia. }
  destruct (decide (i = n)) as [->|Hne]; [by apply Hv|].
  rewrite Hother by (done || lia). apply IH; [lia|..|done].
  - intros j b Hj. apply Hlen. lia.
  - done.
  - intros j b Hj. apply Hother. lia.
Qed.

(** The range [h] that only entry [i] touches ends up as entry [i] leaves it. *)
Lemma write_table_window {B} (h : list Z -> B) n i buf :
  (i < n)%nat ->
  (forall j b, (j < n)%nat -> blen b = L -> blen (w j b) = L) ->
  (forall j b, (j < n)%nat -> j <> i -> blen b = L -> h (w j b) = h b) ->
  blen buf = L ->
  exists b0, blen b0 = L /\ h b0 = h buf /\ h (write_table n w buf) = h (w i b0).
Proof.
  intros Hi Hlen Hother Hb. induction n as [|n IH]; [lia|]. rewrite write_table_S.
  assert (blen (write_table n w buf) = L) as Hl.
  { apply write_table_len; [|done]. intros j b Hj. apply Hlen. lia. }
  destruct (decide (i = n)) as [->|Hne].
  - exists (write_table n w buf). split_and!; [done| |done]. apply write_table_frame; [|done].
    intros j b Hj Hbb. split; [apply Hlen; lia || done|]. apply Hother; lia || done.
  - rewrite Hother by (lia || done). apply IH; [lia|..].
    + intros j b Hj. apply Hlen. lia.
    + intros j b Hj. apply Hother. lia.
Qed.

End write_table.

Lemma lor_range a b n : 0 <= n -> 0 <= a < 2 ^ n -> 0 <= b < 2 ^ n -> 0 <= Z.lor a b < 2 ^ n.
Proof.
  intros Hn [Ha0 Ha] [Hb0 Hb]. split; [by apply Z.lor_nonneg|].
  destruct (Z.eq_dec a 0) as [->|Hna]; [by rewrite Z.lor_0_l|].
  destruct (Z.eq_dec b 0) as [->|Hnb]; [by rewrite Z.lor_0_r|].
  destruct (Z.eq_dec (Z.lor a b) 0) as [->|Hnl]; [lia|].
  pose proof (proj2 (Z.lor_nonneg a b) (conj Ha0 Hb0)).
  apply Z.log2_lt_pow2; [lia|]. rewrite Z.log2_lor by done.
  apply Z.max_lub_lt; (apply Z.log2_lt_pow2; [lia|done]).
Qed.
