(* ===== verification/Slab.v ===== *)
(** * Slab allocators ([src/rust/src/triskelion/slab.rs])

    [HeapSlab] backs the handle tables, [MmapSlab] the shared-memory thread
    slots.  Both keep a LIFO free list threaded through their slots, with
    [FREE_END] as the terminator.  Each has a well-formedness invariant, is
    refined by a finite map (HeapSlab) or a finite set (MmapSlab), and its
    operations are shown total (no panic, no endless list walk). *)

From stdpp Require Import base list gmap.
From S2P Require Import Prelude.
Local Open Scope Z_scope.
Local Open Scope word_scope.
Local Open Scope outcome_scope.

Definition FREE_END : Z := U32_MAX.

(** ** Free lists threaded through an array

    [chain nxt sl h l]: starting at index [h] and following the link [nxt]
    stored in each slot visits exactly the indices [l], ending at [FREE_END]. *)
Section chain.
Context {A : Type} (nxt : A -> option Z).
Implicit Types (sl : list A) (l : list Z).

Fixpoint chain sl (h : Z) l : Prop :=
  match l with
  | [] => h = FREE_END
  | i :: l' => h = i /\ 0 <= i /\
      exists x n, sl !! Z.to_nat i = Some x /\ nxt x = Some n /\ chain sl n l'
  end.

Lemma chain_agree sl sl' h l :
  chain sl h l -> (forall i, i ∈ l -> sl' !! Z.to_nat i = sl !! Z.to_nat i) -> chain sl' h l.
Proof.
  revert h; induction l as [|i l IH]; intros h; simpl; [done|].
  intros (-> & Hi & x & n & Hl & Hn & Hc) Hag. split_and!; [done..|].
  exists x, n. rewrite Hag by set_solver. split_and!; [done..|]. apply IH; [done|]. set_solver.
Qed.

Lemma chain_range sl h l i : chain sl h l -> i ∈ l -> 0 <= i < Z.of_nat (length sl).
Proof.
  revert h; induction l as [|j l IH]; intros h; simpl; [set_solver|].
  intros (-> & Hj & x & n & Hl & _ & Hc) [->|Hin]%elem_of_cons; [|by eapply IH].
  apply lookup_lt_Some in Hl. lia.
Qed.

Lemma chain_app sl sl' h l : chain sl h l -> chain (sl ++ sl') h l.
Proof.
  intros Hc. eapply chain_agree; [done|]. intros i Hi.
  pose proof (chain_range _ _ _ _ Hc Hi). apply lookup_app_l. lia.
Qed.

Lemma chain_insert_notin sl h l i x :
  0 <= i -> chain sl h l -> i ∉ l -> chain (<[Z.to_nat i := x]> sl) h l.
Proof.
  intros Hi Hc Hn. eapply chain_agree; [done|]. intros j Hj.
  pose proof (chain_range _ _ _ _ Hc Hj).
  apply list_lookup_insert_ne. intros ->%Z2Nat.inj; [done|lia..].
Qed.

Lemma chain_linked sl h l i :
  chain sl h l -> i ∈ l -> exists x n, sl !! Z.to_nat i = Some x /\ nxt x = Some n.
Proof.
  revert h; induction l as [|j l IH]; intros h; simpl; [set_solver|].
  intros (-> & _ & x & n & Hl & Hn & Hc) [->|Hin]%elem_of_cons; [eauto|by eapply IH].
Qed.

Lemma chain_length sl h l : chain sl h l -> NoDup l -> (length l <= length sl)%nat.
Proof.
  intros Hc Hnd.
  rewrite <- (length_fmap Z.to_nat l), <- (length_seq (length sl) 0).
  apply submseteq_length, NoDup_submseteq.
  - apply NoDup_fmap_2_strong; [|done].
    intros x y Hx Hy Heq.
    pose proof (chain_range _ _ _ _ Hc Hx). pose proof (chain_range _ _ _ _ Hc Hy). lia.
  - intros i (j & -> & Hj)%list_elem_of_fmap. apply elem_of_seq.
    pose proof (chain_range _ _ _ _ Hc Hj). lia.
Qed.

End chain.

Module HeapSlab.

Inductive HeapSlot (T : Type) : Type :=
| Occupied (generation : Z) (value : T)
| Vacant (generation : Z) (next_free : Z).
Arguments Occupied {T} generation value.
Arguments Vacant {T} generation next_free.

Record HeapSlab (T : Type) : Type := mkHeapSlab {
  slots : list (HeapSlot T);
  free_head : Z;
  len : Z;
  bump : Z;
}.
Arguments mkHeapSlab {T} _ _ _ _.
Arguments slots {T} _.
Arguments free_head {T} _.
Arguments len {T} _.
Arguments bump {T} _.

Section ops.
Context {T : Type}.
Implicit Types (s : HeapSlab T) (v : T).

Definition with_capacity : HeapSlab T := mkHeapSlab [] FREE_END 0 0.

Definition skip_index_zero s : HeapSlab T :=
  if decide (bump s = 0)
  then mkHeapSlab (slots s ++ [Vacant 0 FREE_END]) (free_head s) (len s) 1
  else s.

Definition insert_bump s v : HeapSlab T * (Z * Z) :=
  let idx := bump s in
  (mkHeapSlab (slots s ++ [Occupied 0 v]) (free_head s) (len s +₃₂ 1) (bump s +₃₂ 1), (idx, 0)).

(** [remove_inner]: the slot is replaced by a vacant one linked in front of the
    free list, its generation bumped; [unreachable!] on a vacant slot. *)
Definition remove_inner s (index : Z) : outcome (HeapSlab T * option T) :=
  old <-! Prelude.index (slots s) index ;;
  match old with
  | Occupied generation value =>
      Ret (mkHeapSlab (<[Z.to_nat index := Vacant (generation +₃₂ 1) (free_head s)]> (slots s))
             index (len s -₃₂ 1) (bump s), Some value)
  | Vacant _ _ => Panic
  end.

Definition remove_unchecked s (index : Z) : outcome (HeapSlab T * option T) :=
  if decide (Z.of_nat (length (slots s)) <= index) then Ret (s, None)
  else
    slot <-! Prelude.index (slots s) index ;;
    match slot with
    | Occupied _ _ => remove_inner s index
    | Vacant _ _ => Ret (s, None)
    end.

(** First [while] of [insert_at]: push vacant slots until [idx] exists. *)
Fixpoint grow (fuel : nat) (idx : nat) s : outcome (HeapSlab T) :=
  if decide (length (slots s) <= idx)%nat then
    match fuel with
    | O => OutOfFuel
    | S fuel' =>
        let i := u32 (Z.of_nat (length (slots s))) in
        grow fuel' idx
          (mkHeapSlab (slots s ++ [Vacant 0 FREE_END]) (free_head s) (len s)
             (if decide (bump s <= i) then i +₃₂ 1 else bump s))
    end
  else Ret s.

(** Second [while] of [insert_at]: find the predecessor of [index] in the free
    list and splice [index] out. *)
Fixpoint unlink_from (fuel : nat) (index prev : Z) s : outcome (HeapSlab T) :=
  if decide (prev = FREE_END) then Ret s
  else
    match fuel with
    | O => OutOfFuel
    | S fuel' =>
        slot <-! Prelude.index (slots s) prev ;;
        match slot with
        | Vacant gp next_free =>
            if decide (next_free = index) then
              target <-! Prelude.index (slots s) index ;;
              let target_next :=
                match target with Vacant _ n => n | Occupied _ _ => FREE_END end in
              Ret (mkHeapSlab (<[Z.to_nat prev := Vacant gp target_next]> (slots s))
                     (free_head s) (len s) (bump s))
            else unlink_from fuel' index next_free s
        | Occupied _ _ => Ret s
        end
    end.

Definition unlink s (index : Z) : outcome (HeapSlab T) :=
  if decide (free_head s = index) then
    slot <-! Prelude.index (slots s) index ;;
    match slot with
    | Vacant _ next_free => Ret (mkHeapSlab (slots s) next_free (len s) (bump s))
    | Occupied _ _ => Ret s
    end
  else unlink_from (S (length (slots s))) index (free_head s) s.

Definition slot_generation (x : HeapSlot T) : Z :=
  match x with Vacant g _ => g | Occupied g _ => g end.

Definition insert_at s (index : Z) v : outcome (HeapSlab T * Z) :=
  let idx := Z.to_nat index in
  s1 <-! grow (S idx) idx s ;;
  cur <-! Prelude.index (slots s1) index ;;
  s2 <-! (match cur with
          | Occupied _ _ => r <-! remove_unchecked s1 index ;; Ret (fst r)
          | Vacant _ _ => Ret s1
          end) ;;
  s3 <-! unlink s2 index ;;
  slot <-! Prelude.index (slots s3) index ;;
  let g := slot_generation slot in
  Ret (mkHeapSlab (<[idx := Occupied g v]> (slots s3)) (free_head s3) (len s3 +₃₂ 1)
         (if decide (bump s3 <= index) then index +₃₂ 1 else bump s3), g).

Definition slot_value (x : HeapSlot T) : option T :=
  match x with Occupied _ v => Some v | Vacant _ _ => None end.

Definition get_unchecked s (index : Z) : option T :=
  slots s !! Z.to_nat index ≫= slot_value.

(** [get_mut_unchecked] hands out a mutable borrow; [f] is what the caller does
    through it. *)
Definition get_mut_unchecked s (index : Z) (f : T -> T) : HeapSlab T :=
  match slots s !! Z.to_nat index with
  | Some (Occupied g v) =>
      mkHeapSlab (<[Z.to_nat index := Occupied g (f v)]> (slots s)) (free_head s) (len s) (bump s)
  | _ => s
  end.

Definition capacity s : nat := length (slots s).

Definition iter s : list T := omap slot_value (slots s).

End ops.

(** ** Abstraction: the live entries as a finite map from index to value *)
Section spec.
Context {T : Type}.
Implicit Types (s : HeapSlab T) (v : T) (sl : list (HeapSlot T)).

Definition abs_slots sl : gmap nat T := omap slot_value (map_seq 0 sl).
Definition abs s : gmap nat T := abs_slots (slots s).

(** Link of a slot: only vacant slots are on the free list. *)
Definition slot_next (x : HeapSlot T) : option Z :=
  match x with Vacant _ n => Some n | Occupied _ _ => None end.
Abbreviation chain := (chain slot_next).

Record wf s : Prop := {
  wf_bump : bump s = Z.of_nat (length (slots s));
  wf_bound : Z.of_nat (length (slots s)) <= FREE_END;
  wf_len : len s = Z.of_nat (size (abs s));
  wf_free : exists l, chain (slots s) (free_head s) l /\ NoDup l;
}.

Lemma abs_slots_lookup sl i : abs_slots sl !! i = sl !! i ≫= slot_value.
Proof. unfold abs_slots. by rewrite lookup_omap, lookup_map_seq_0. Qed.

Lemma abs_slots_snoc sl x :
  abs_slots (sl ++ [x]) =
    match slot_value x with Some v => <[length sl := v]> (abs_slots sl) | None => abs_slots sl end.
Proof.
  apply map_eq; intros i. rewrite abs_slots_lookup.
  destruct (decide (i < length sl)%nat).
  - rewrite lookup_app_l by done.
    destruct (slot_value x); rewrite ?lookup_insert_ne, abs_slots_lookup by lia; done.
  - rewrite lookup_app_r by lia.
    destruct (decide (i = length sl)) as [->|].
    + rewrite Nat.sub_diag. simpl. destruct (slot_value x); simpl.
      * by rewrite lookup_insert_eq.
      * by rewrite abs_slots_lookup, lookup_ge_None_2 by lia.
    + rewrite (lookup_ge_None_2 [x]) by (simpl; lia).
      destruct (slot_value x); rewrite ?lookup_insert_ne, abs_slots_lookup by lia;
        by rewrite lookup_ge_None_2 by lia.
Qed.

Lemma abs_slots_insert sl i x :
  (i < length sl)%nat ->
  abs_slots (<[i := x]> sl) =
    match slot_value x with Some v => <[i := v]> (abs_slots sl) | None => delete i (abs_slots sl) end.
Proof.
  intros Hi. apply map_eq; intros j. rewrite abs_slots_lookup.
  destruct (decide (i = j)) as [<-|Hne].
  - rewrite list_lookup_insert_eq by done. simpl.
    destruct (slot_value x); by rewrite ?lookup_insert_eq, ?lookup_delete_eq.
  - rewrite list_lookup_insert_ne by done.
    destruct (slot_value x);
      rewrite ?lookup_insert_ne, ?lookup_delete_ne, abs_slots_lookup by done; done.
Qed.

Lemma abs_slots_insert_vacant sl i g n g' n' :
  sl !! i = Some (Vacant g n) -> abs_slots (<[i := Vacant g' n']> sl) = abs_slots sl.
Proof.
  intros Hi. rewrite abs_slots_insert by by apply lookup_lt_Some in Hi. simpl.
  apply delete_id. by rewrite abs_slots_lookup, Hi.
Qed.

(** Outcome of a removal from the free list of a slot that is vacant. *)
Lemma unlink_from_spec fuel index prev s gi ni l :
  chain (slots s) prev l -> NoDup l -> (length l <= fuel)%nat ->
  Z.of_nat (length (slots s)) <= FREE_END ->
  prev <> index -> 0 <= index -> slots s !! Z.to_nat index = Some (Vacant gi ni) ->
  exists sl',
    unlink_from fuel index prev s = Ret (mkHeapSlab sl' (free_head s) (len s) (bump s)) /\
    length sl' = length (slots s) /\
    abs_slots sl' = abs_slots (slots s) /\
    (forall k, 0 <= k -> k ∉ l -> sl' !! Z.to_nat k = slots s !! Z.to_nat k) /\
    sl' !! Z.to_nat index = slots s !! Z.to_nat index /\
    chain sl' prev (filter (.≠ index) l).
Proof.
  revert prev fuel; induction l as [|i l IH]; intros prev fuel Hc Hnd Hf Hb Hne Hi0 Hi.
  - simpl in Hc. subst. exists (slots s).
    destruct fuel; simpl; rewrite ?decide_True by done; by destruct s.
  - destruct Hc as (-> & Hii & [|g n'] & n & Hl & Hnx & Hc); [done|]; simpl in Hnx; simplify_eq. apply NoDup_cons in Hnd as [Hnin Hnd].
    destruct fuel as [|fuel]; [simpl in Hf; lia|]. simpl in Hf.
    pose proof (lookup_lt_Some _ _ _ Hl) as Hlt. pose proof (lookup_lt_Some _ _ _ Hi) as Hlti.
    cbn [unlink_from]. rewrite decide_False by lia.
    rewrite (index_lookup _ _ _ Hl). cbn [obind].
    rewrite filter_cons_True by done.
    case_decide as Hn.
    + subst n. destruct l as [|j l]; [simpl in Hc; lia|].
      destruct Hc as (<- & _ & x & n' & Hl' & Hnx' & Hc). simplify_eq.
      apply NoDup_cons in Hnd as [Hnin' Hnd].
      rewrite (index_lookup _ _ _ Hl'). cbn [obind].
      eexists; split; [done|]. split_and!.
      * by rewrite length_insert.
      * by eapply abs_slots_insert_vacant.
      * intros k Hk Hkn. apply list_lookup_insert_ne. intros ->%Z2Nat.inj; [set_solver|lia..].
      * apply list_lookup_insert_ne. intros ?%Z2Nat.inj; [done|lia..].
      * rewrite filter_cons_False by (by intros ?).
        rewrite filter_all by (intros x Hx ->; done).
        split_and!; [done..|]. eexists _, _.
        rewrite list_lookup_insert_eq by done. split; [done|]. split; [done|].
        simpl in Hnx'. simplify_eq. apply chain_insert_notin; [done..|set_solver].
    + destruct (IH n fuel) as (sl' & -> & Hlen & Habs & Hk & Hidx & Hc'); [done|done|lia|done..|].
      exists sl'. split; [done|]. split; [done|]. split; [done|]. split; [|split; [done|]].
      * intros k Hk0 Hkn. apply Hk; [done|set_solver].
      * simpl. split_and!; [done..|]. eexists _, _. by rewrite Hk.
Qed.

Lemma unlink_spec s index gi ni l :
  chain (slots s) (free_head s) l -> NoDup l ->
  Z.of_nat (length (slots s)) <= FREE_END -> 0 <= index ->
  slots s !! Z.to_nat index = Some (Vacant gi ni) ->
  exists sl' fh',
    unlink s index = Ret (mkHeapSlab sl' fh' (len s) (bump s)) /\
    length sl' = length (slots s) /\ abs_slots sl' = abs_slots (slots s) /\
    sl' !! Z.to_nat index = Some (Vacant gi ni) /\
    chain sl' fh' (filter (.≠ index) l).
Proof.
  intros Hc Hnd Hb Hi0 Hi. unfold unlink. case_decide as Hh.
  - rewrite (index_lookup _ _ _ Hi). cbn [obind].
    exists (slots s), ni. split_and!; [done..|].
    destruct l as [|i l]; simpl in Hc.
    { apply lookup_lt_Some in Hi. lia. }
    destruct Hc as (Hfh & _ & x & n & Hl & Hnx & Hc). rewrite Hfh in Hh. subst i. simplify_eq.
    simpl in Hnx. simplify_eq.
    apply NoDup_cons in Hnd as [Hnin _].
    rewrite filter_cons_False by (by intros ?).
    rewrite filter_all by (intros x Hx ->; done). done.
  - pose proof (chain_length _ _ _ _ Hc Hnd).
    destruct (unlink_from_spec (S (length (slots s))) index (free_head s) s gi ni l)
      as (sl' & -> & ? & ? & _ & Hidx & ?); [done|done|lia|done..|].
    exists sl', (free_head s). rewrite Hidx. done.
Qed.

Lemma grow_spec fuel idx s :
  (S idx - length (slots s) <= fuel)%nat -> Z.of_nat idx < FREE_END -> wf s ->
  exists k,
    grow fuel idx s = Ret (mkHeapSlab (slots s ++ replicate k (Vacant 0 FREE_END))
                             (free_head s) (len s) (Z.of_nat (length (slots s) + k))) /\
    (length (slots s) + k = length (slots s) `max` S idx)%nat.
Proof.
  revert s; induction fuel as [|fuel IH]; intros s Hf Hi Hwf.
  - exists 0%nat. simpl. rewrite decide_False by lia.
    rewrite app_nil_r, Nat.add_0_r, <- wf_bump by done. split; [by destruct s|lia].
  - cbn [grow]. case_decide as Hle.
    + set (s1 := mkHeapSlab _ _ _ _).
      destruct (IH s1) as (k & -> & Hk).
      * subst s1; simpl. rewrite length_app; simpl. lia.
      * done.
      * subst s1. destruct Hwf as [Hb Hbd Hl (l & Hc & Hnd)].
        unfold FREE_END in *.
        assert (u32 (Z.of_nat (length (slots s))) = Z.of_nat (length (slots s))) as Hu
          by (apply u32_small; word_lia).
        rewrite Hu, decide_True by lia.
        rewrite u32_small by word_lia.
        constructor; simpl.
        -- rewrite length_app; simpl; lia.
        -- rewrite length_app; simpl; unfold FREE_END; lia.
        -- unfold abs; simpl. by rewrite abs_slots_snoc.
        -- exists l. split; [by apply chain_app|done].
      * exists (S k). subst s1; simpl in *. rewrite length_app in *; simpl in *.
        rewrite <- app_assoc. split; [|lia].
        f_equal. f_equal; lia.
    + exists 0%nat. rewrite app_nil_r, Nat.add_0_r, <- wf_bump by done.
      split; [by destruct s|lia].
Qed.

Lemma abs_size_le s : (size (abs s) <= length (slots s))%nat.
Proof.
  rewrite <- size_dom. rewrite <- (size_set_seq (C:=gset nat) 0 (length (slots s))).
  apply subseteq_size. intros i [x Hi]%elem_of_dom. apply elem_of_set_seq.
  unfold abs in Hi. rewrite abs_slots_lookup in Hi.
  destruct (slots s !! i) eqn:E; [|done]. apply lookup_lt_Some in E. lia.
Qed.

Lemma abs_fresh s i : (length (slots s) <= i)%nat -> abs s !! i = None.
Proof. intros. unfold abs. by rewrite abs_slots_lookup, lookup_ge_None_2. Qed.

Lemma get_unchecked_abs s (index : Z) : get_unchecked s index = abs s !! Z.to_nat index.
Proof. unfold abs. by rewrite abs_slots_lookup. Qed.

Lemma iter_elem s v : v ∈ iter s <-> exists i, abs s !! i = Some v.
Proof.
  unfold iter, abs. rewrite list_elem_of_omap. split.
  - intros (x & [i Hi]%list_elem_of_lookup & Hv). exists i. by rewrite abs_slots_lookup, Hi.
  - intros [i Hi]. rewrite abs_slots_lookup in Hi.
    destruct (slots s !! i) as [x|] eqn:E; [|done]. exists x. split; [|done].
    by eapply list_elem_of_lookup_2.
Qed.

Lemma with_capacity_wf : wf (with_capacity (T:=T)).
Proof. constructor; try done. exists []. split; [done|constructor]. Qed.

Lemma skip_index_zero_wf s : wf s -> wf (skip_index_zero s).
Proof.
  intros Hwf. unfold skip_index_zero. case_decide as H0; [|done].
  destruct Hwf as [Hb Hbd Hl (l & Hc & Hnd)].
  constructor; simpl; rewrite ?length_app; simpl.
  - lia.
  - unfold FREE_END in *. word_lia.
  - unfold abs; simpl. by rewrite abs_slots_snoc.
  - exists l. split; [by apply chain_app|done].
Qed.

Lemma insert_bump_spec s v :
  wf s -> Z.of_nat (length (slots s)) < FREE_END ->
  let '(s', (idx, g)) := insert_bump s v in
  wf s' /\ idx = Z.of_nat (length (slots s)) /\ g = 0 /\
  length (slots s') = S (length (slots s)) /\
  abs s' = <[Z.to_nat idx := v]> (abs s).
Proof.
  intros [Hb Hbd Hl (l & Hc & Hnd)] Hlt. unfold insert_bump.
  pose proof (abs_size_le s). pose proof (abs_fresh s (length (slots s)) ltac:(lia)) as Hfr.
  unfold FREE_END in *.
  assert (abs_slots (slots s ++ [Occupied 0 v]) = <[length (slots s) := v]> (abs s)) as Ha.
  { by rewrite abs_slots_snoc. }
  rewrite Hb, Nat2Z.id. split_and!; try done; [|by simpl; rewrite length_app; simpl; lia].
  constructor; simpl; rewrite ?length_app; simpl; unfold FREE_END.
  - rewrite u32_small by word_lia. lia.
  - word_lia.
  - rewrite u32_small by word_lia. unfold abs; simpl. rewrite Ha.
    rewrite map_size_insert_None by done. lia.
  - exists l. split; [by apply chain_app|done].
Qed.

Lemma remove_unchecked_spec s (index : Z) :
  wf s -> 0 <= index ->
  exists s',
    remove_unchecked s index = Ret (s', abs s !! Z.to_nat index) /\
    wf s' /\ abs s' = delete (Z.to_nat index) (abs s) /\
    length (slots s') = length (slots s) /\
    (forall v g, slots s !! Z.to_nat index = Some (Occupied g v) ->
       slots s' !! Z.to_nat index = Some (Vacant (g +₃₂ 1) (free_head s)) /\ free_head s' = index).
Proof.
  intros Hwf Hi0. pose proof Hwf as [Hb Hbd Hl (l & Hc & Hnd)].
  unfold remove_unchecked. case_decide as Hge.
  { exists s. rewrite abs_fresh, delete_id by (rewrite ?abs_fresh; lia || done).
    split_and!; try done. intros v g Hlk%lookup_lt_Some. lia. }
  destruct (slots s !! Z.to_nat index) as [x|] eqn:Hx.
  2: { apply lookup_ge_None in Hx. lia. }
  rewrite (index_lookup _ _ _ Hx). cbn [obind]. destruct x as [g v|g n].
  - unfold remove_inner. rewrite (index_lookup _ _ _ Hx). cbn [obind].
    assert (abs s !! Z.to_nat index = Some v) as Habs
      by (unfold abs; by rewrite abs_slots_lookup, Hx).
    rewrite Habs. eexists; split; [done|].
    pose proof (abs_size_le s). pose proof (lookup_lt_Some _ _ _ Hx).
    assert (size (abs s) <> 0%nat) as Hsz.
    { intros Hemp%map_size_empty_iff. by rewrite Hemp, lookup_empty in Habs. }
    assert (index ∉ l) as Hnin.
    { intros (? & ? & Hv & Hnx)%(chain_linked _ _ _ _ _ Hc). by simplify_eq/=. }
    assert (abs_slots (<[Z.to_nat index := Vacant (g +₃₂ 1) (free_head s)]> (slots s))
            = delete (Z.to_nat index) (abs s)) as Ha by (by rewrite abs_slots_insert).
    unfold FREE_END in *.
    split_and!; [constructor|..]; simpl; rewrite ?length_insert; try done.
    + rewrite u32_small by word_lia. unfold abs; simpl. rewrite Ha.
      rewrite map_size_delete_Some by eauto. lia.
    + exists (index :: l). split; [|by constructor]. simpl. split_and!; [done..|].
      eexists _, _. rewrite list_lookup_insert_eq by done. split; [done|]. split; [done|].
      by apply chain_insert_notin.
    + intros v' g' Heq. simplify_eq. by rewrite list_lookup_insert_eq.
  - exists s. assert (abs s !! Z.to_nat index = None) as Habs
      by (unfold abs; by rewrite abs_slots_lookup, Hx).
    rewrite Habs, delete_id by done. by split_and!.
Qed.

Lemma grow_wf s k :
  wf s -> Z.of_nat (length (slots s) + k) <= FREE_END ->
  let s1 := mkHeapSlab (slots s ++ replicate k (Vacant 0 FREE_END))
              (free_head s) (len s) (Z.of_nat (length (slots s) + k)) in
  wf s1 /\ abs s1 = abs s /\ length (slots s1) = (length (slots s) + k)%nat.
Proof.
  intros [Hb Hbd Hl (l & Hc & Hnd)] Hk s1. subst s1; simpl.
  assert (abs_slots (slots s ++ replicate k (Vacant 0 FREE_END)) = abs s) as Ha.
  { clear Hk. induction k as [|k IH]; simpl; [by rewrite app_nil_r|].
    by rewrite replicate_cons_app, app_assoc, abs_slots_snoc, IH. }
  split_and!; [constructor|..]; simpl; rewrite ?length_app, ?length_replicate; try done.
  - unfold abs; simpl. by rewrite Ha.
  - exists l. split; [by apply chain_app|done].
Qed.

(** The eviction step of [insert_at]: afterwards [index] is vacant. *)
Lemma evict_spec s index x :
  wf s -> 0 <= index -> slots s !! Z.to_nat index = Some x ->
  exists s' g n,
    (match x with
     | Occupied _ _ => r <-! remove_unchecked s index ;; Ret (fst r)
     | Vacant _ _ => Ret s
     end) = Ret s' /\ wf s' /\ abs s' = delete (Z.to_nat index) (abs s) /\
    length (slots s') = length (slots s) /\
    slots s' !! Z.to_nat index = Some (Vacant g n).
Proof.
  intros Hwf Hi0 Hx. destruct x as [g v|g n].
  - destruct (remove_unchecked_spec s index) as (s' & -> & Hwf' & Ha & Hl & Hs); [done..|].
    destruct (Hs _ _ Hx) as [Hs' _]. exists s', (g +₃₂ 1), (free_head s). done.
  - exists s, g, n. split_and!; try done. symmetry. apply delete_id.
    unfold abs. by rewrite abs_slots_lookup, Hx.
Qed.

Lemma heap_insert_at_spec s (index : Z) v :
  wf s -> 0 <= index < FREE_END ->
  exists s' g,
    insert_at s index v = Ret (s', g) /\ wf s' /\
    abs s' = <[Z.to_nat index := v]> (abs s) /\
    length (slots s') = (length (slots s) `max` S (Z.to_nat index))%nat.
Proof.
  intros Hwf [Hi0 Hilt]. unfold insert_at.
  destruct (grow_spec (S (Z.to_nat index)) (Z.to_nat index) s) as (k & -> & Hk); [lia..|done|].
  cbn [obind]. set (s1 := mkHeapSlab _ _ _ _).
  assert (wf s1 /\ abs s1 = abs s /\ length (slots s1) = (length (slots s) + k)%nat)
    as (Hwf1 & Ha1 & Hl1) by (subst s1; apply grow_wf; [done|unfold FREE_END, U32_MAX in *; pose proof (wf_bound _ Hwf); unfold FREE_END, U32_MAX in *; lia]).
  destruct (slots s1 !! Z.to_nat index) as [x|] eqn:Hx.
  2: { apply lookup_ge_None in Hx. lia. }
  rewrite (index_lookup _ _ _ Hx). cbn [obind].
  destruct (evict_spec s1 index x) as (s2 & gv & nv & -> & Hwf2 & Ha2 & Hl2 & Hx2); [done..|].
  cbn [obind]. pose proof Hwf2 as [Hb Hbd Hlen (l & Hc & Hnd)].
  destruct (unlink_spec s2 index gv nv l) as (sl' & fh' & -> & Hl' & Ha' & Hx' & Hc'); [done..|].
  cbn [obind slots]. rewrite (index_lookup _ _ _ Hx'). cbn [obind slot_generation free_head len bump].
  eexists _, _; split; [done|].
  pose proof (lookup_lt_Some _ _ _ Hx') as Hlt.
  assert (abs_slots (<[Z.to_nat index := Occupied gv v]> sl')
          = <[Z.to_nat index := v]> (delete (Z.to_nat index) (abs s))) as Ha.
  { rewrite abs_slots_insert by done. simpl. rewrite Ha'. unfold abs in Ha2.
    rewrite Ha2. unfold abs in Ha1. by rewrite Ha1. }
  rewrite insert_delete_eq in Ha.
  set (s4 := mkHeapSlab _ _ _ _). pose proof (abs_size_le s4) as Hsz4.
  assert (size (abs s4) = S (size (abs s2))) as Hsz.
  { unfold abs at 1; subst s4; simpl. rewrite abs_slots_insert by done. simpl. rewrite Ha'.
    change (abs_slots (slots s2)) with (abs s2).
    rewrite map_size_insert_None; [done|]. rewrite Ha2. apply lookup_delete_eq. }
  subst s4; simpl in Hsz4; rewrite length_insert in Hsz4. unfold FREE_END in *.
  split_and!; [constructor|..]; simpl; rewrite ?length_insert.
  - rewrite decide_False; lia.
  - unfold FREE_END. lia.
  - rewrite Hsz, Hlen, u32_small by word_lia. lia.
  - exists (filter (.≠ index) l). split; [|by apply NoDup_filter].
    apply chain_insert_notin; [done..|]. rewrite list_elem_of_filter. by intros [? _].
  - exact Ha.
  - lia.
Qed.

Lemma get_mut_unchecked_spec s (index : Z) f :
  wf s -> wf (get_mut_unchecked s index f) /\
  abs (get_mut_unchecked s index f) = alter f (Z.to_nat index) (abs s) /\
  length (slots (get_mut_unchecked s index f)) = length (slots s).
Proof.
  intros Hwf. pose proof Hwf as [Hb Hbd Hl (l & Hc & Hnd)]. unfold get_mut_unchecked.
  assert (abs s !! Z.to_nat index = slots s !! Z.to_nat index ≫= slot_value) as Habs
    by (unfold abs; by rewrite abs_slots_lookup).
  destruct (slots s !! Z.to_nat index) as [[g v|g n]|] eqn:Hx; simpl in Habs;
    [|by rewrite alter_id by (by rewrite Habs)..].
  pose proof (lookup_lt_Some _ _ _ Hx).
  assert (abs_slots (<[Z.to_nat index := Occupied g (f v)]> (slots s))
          = <[Z.to_nat index := f v]> (abs s)) as Ha by (by rewrite abs_slots_insert).
  split_and!; [constructor|..]; simpl; rewrite ?length_insert; try done.
  - unfold abs; simpl. rewrite Ha, map_size_insert_Some by eauto. done.
  - exists l. split; [|done]. eapply chain_agree; [done|]. intros j Hj.
    apply list_lookup_insert_ne. intros Heq.
    destruct (chain_linked _ _ _ _ _ Hc Hj) as (? & ? & Hv & Hnx).
    rewrite <- Heq, Hx in Hv. by simplify_eq/=.
  - unfold abs at 1; simpl. rewrite Ha. apply map_eq; intros j.
    rewrite lookup_alter, lookup_insert. case_decide; subst; [by rewrite Habs|done].
Qed.

(** ** Refinement: the slab implements a finite map with a bump counter

    [Bump] and [At] are the two insertions, [Remove] the removal; the abstract
    machine keeps the live map and the next fresh index. *)
Inductive slab_op : Type :=
| Bump (v : T)
| At (index : Z) (v : T)
| Remove (index : Z).

Definition run_op s (o : slab_op) : outcome (HeapSlab T * (option Z * option T)) :=
  match o with
  | Bump v => let '(s', (idx, _)) := insert_bump s v in Ret (s', (Some idx, None))
  | At i v => r <-! insert_at s i v ;; Ret (fst r, (None, None))
  | Remove i => r <-! remove_unchecked s i ;; Ret (fst r, (None, snd r))
  end.

Fixpoint run_ops s (os : list slab_op) : outcome (HeapSlab T * list (option Z * option T)) :=
  match os with
  | [] => Ret (s, [])
  | o :: os' =>
      r <-! run_op s o ;;
      rs <-! run_ops (fst r) os' ;;
      Ret (fst rs, snd r :: snd rs)
  end.

Definition spec_op (m : gmap nat T) (next : nat) (o : slab_op)
    : gmap nat T * nat * (option Z * option T) :=
  match o with
  | Bump v => (<[next := v]> m, S next, (Some (Z.of_nat next), None))
  | At i v => (<[Z.to_nat i := v]> m, (next `max` S (Z.to_nat i))%nat, (None, None))
  | Remove i => (delete (Z.to_nat i) m, next, (None, m !! Z.to_nat i))
  end.

Fixpoint spec_ops (m : gmap nat T) (next : nat) (os : list slab_op)
    : gmap nat T * nat * list (option Z * option T) :=
  match os with
  | [] => (m, next, [])
  | o :: os' =>
      let '(m1, n1, r) := spec_op m next o in
      let '(m2, n2, rs) := spec_ops m1 n1 os' in (m2, n2, r :: rs)
  end.

Definition op_valid (o : slab_op) : Prop :=
  match o with
  | Bump _ => True
  | At i _ | Remove i => 0 <= i < FREE_END
  end.

Lemma spec_ops_next_mono m next os :
  (next <= (spec_ops m next os).1.2)%nat.
Proof.
  revert m next; induction os as [|o os IH]; intros m next; simpl; [done|].
  destruct (spec_op m next o) as [[m1 n1] r] eqn:Ho.
  specialize (IH m1 n1). destruct (spec_ops m1 n1 os) as [[m2 n2] rs]. simpl in *.
  destruct o; simpl in Ho; simplify_eq; lia.
Qed.

Lemma run_op_sim s o :
  wf s -> op_valid o ->
  Z.of_nat (spec_op (abs s) (length (slots s)) o).1.2 <= FREE_END ->
  exists s', run_op s o = Ret (s', (spec_op (abs s) (length (slots s)) o).2) /\ wf s' /\
    abs s' = (spec_op (abs s) (length (slots s)) o).1.1 /\
    length (slots s') = (spec_op (abs s) (length (slots s)) o).1.2.
Proof.
  intros Hwf Hv Hn. destruct o as [v|i v|i]; cbn [run_op spec_op op_valid fst snd] in *.
  - pose proof (insert_bump_spec s v Hwf ltac:(lia)) as Hs.
    destruct (insert_bump s v) as [s' [idx g]].
    destruct Hs as (Hwf' & Hidx & _ & Hlen & Ha). exists s'. split; [by rewrite Hidx|].
    split; [done|]. split; [|done]. rewrite Ha, Hidx. by rewrite Nat2Z.id.
  - destruct (heap_insert_at_spec s i v) as (s' & g & -> & Hwf' & Ha & Hl); [done..|].
    by exists s'.
  - destruct (remove_unchecked_spec s i) as (s' & -> & Hwf' & Ha & Hl & _); [done|lia|].
    by exists s'.
Qed.

Lemma heap_run_ops_sim os s :
  wf s -> Forall op_valid os ->
  Z.of_nat (spec_ops (abs s) (length (slots s)) os).1.2 <= FREE_END ->
  exists s', run_ops s os = Ret (s', (spec_ops (abs s) (length (slots s)) os).2) /\ wf s' /\
    abs s' = (spec_ops (abs s) (length (slots s)) os).1.1.
Proof.
  revert s; induction os as [|o os IH]; intros s Hwf Hv Hn; simpl in *; [by exists s|].
  apply Forall_cons in Hv as [Ho Hos].
  destruct (spec_op (abs s) (length (slots s)) o) as [[m1 n1] r] eqn:Hso.
  pose proof (spec_ops_next_mono m1 n1 os) as Hmono.
  destruct (spec_ops m1 n1 os) as [[m2 n2] rs] eqn:Hsos. simpl in *.
  destruct (run_op_sim s o) as (s1 & Hr & Hwf1 & Ha1 & Hl1); [done..|rewrite Hso; simpl; lia|].
  rewrite Hso in *. simpl in *. rewrite Hr. cbn [obind fst snd].
  destruct (IH s1) as (s2 & Hr2 & Hwf2 & Ha2); [done..|by rewrite Ha1, Hl1, Hsos|].
  rewrite Ha1, Hl1, Hsos in *. simpl in *. rewrite Hr2. cbn. by exists s2.
Qed.

(** C1: a slab started by [with_capacity] and [skip_index_zero] implements a
    finite map with a bump counter: for every sequence of [insert_bump],
    [insert_at] and [remove_unchecked] calls (indices below [FREE_END], table
    size below 2^32), every call returns, none panics or loops in the free list,
    each result is the one of the abstract map, and [len] counts the live
    entries. *)
Theorem heap_slab_refines_map (os : list slab_op) :
  Forall op_valid os ->
  Z.of_nat (spec_ops ∅ 1 os).1.2 <= FREE_END ->
  exists s',
    run_ops (skip_index_zero (with_capacity (T:=T))) os = Ret (s', (spec_ops ∅ 1 os).2) /\
    (forall i, get_unchecked s' i = (spec_ops ∅ 1 os).1.1 !! Z.to_nat i) /\
    len s' = Z.of_nat (size (spec_ops ∅ 1 os).1.1).
Proof.
  intros Hv Hn.
  destruct (heap_run_ops_sim os (skip_index_zero with_capacity)) as (s' & Hr & Hwf & Ha);
    [apply skip_index_zero_wf, with_capacity_wf|done|done|].
  exists s'. split; [done|]. split.
  - intros i. by rewrite get_unchecked_abs, Ha.
  - by rewrite wf_len, Ha.
Qed.

End spec.

Lemma heap_slab_refines_map_witness :
  exists s', run_ops (skip_index_zero (with_capacity (T:=Z))) [Bump 7; At 4 9; Remove 1; Bump 5; At 1 6]
    = Ret (s', [(Some 1, None); (None, None); (None, Some 7); (Some 5, None); (None, None)])
    /\ len s' = 3.
Proof.
  destruct (heap_slab_refines_map [Bump 7; At 4 9; Remove 1; Bump 5; At 1 6]) as (s' & Hr & _ & Hl).
  - repeat constructor; vm_compute; congruence.
  - vm_compute. congruence.
  - exists s'. split; [exact Hr|]. rewrite Hl. reflexivity.
Defined.

End HeapSlab.

(** ** MmapSlab: slot numbers for the shared-memory thread queues *)
Module MmapSlab.

Record SlotMeta : Type := mkSlotMeta { generation : Z; next_free : Z }.

Record MmapSlab : Type := mkMmapSlab {
  meta : list SlotMeta;
  free_head : Z;
  len : Z;
  bump : Z;
  cap : Z;
}.

Implicit Types (s : MmapSlab).

Definition new (cap : Z) : MmapSlab := mkMmapSlab [] FREE_END 0 0 cap.

Definition insert s : outcome (MmapSlab * option Z) :=
  if decide (free_head s <> FREE_END) then
    let idx := free_head s in
    m <-! Prelude.index (meta s) idx ;;
    Ret (mkMmapSlab (<[Z.to_nat idx := mkSlotMeta (generation m) FREE_END]> (meta s))
           (next_free m) (len s +₃₂ 1) (bump s) (cap s), Some idx)
  else if decide (bump s < cap s) then
    let idx := bump s in
    Ret (mkMmapSlab (meta s ++ [mkSlotMeta 0 FREE_END]) (free_head s) (len s +₃₂ 1)
           (bump s +₃₂ 1) (cap s), Some idx)
  else Ret (s, None).

Definition remove s (index : Z) : outcome (MmapSlab * bool) :=
  if decide (Z.of_nat (length (meta s)) <= index) then Ret (s, false)
  else
    m <-! Prelude.index (meta s) index ;;
    if decide (next_free m <> FREE_END) then Ret (s, false)
    else
      Ret (mkMmapSlab (<[Z.to_nat index := mkSlotMeta (generation m +₃₂ 1) (free_head s)]> (meta s))
             index (len s -₃₂ 1) (bump s) (cap s), true).

Definition high_water s : Z := bump s.

Abbreviation chain := (chain (fun m => Some (next_free m))).

Record wf s (l : list Z) : Prop := {
  wf_bump : bump s = Z.of_nat (length (meta s));
  wf_cap : bump s <= cap s < FREE_END;
  wf_chain : chain (meta s) (free_head s) l;
  wf_nodup : NoDup l;
  wf_live : forall i m, 0 <= i -> i ∉ l -> meta s !! Z.to_nat i = Some m -> next_free m = FREE_END;
  wf_len : len s = bump s - Z.of_nat (length l);
}.

(** Slot [i] is handed out. *)
Definition live s (l : list Z) (i : Z) : Prop := 0 <= i < bump s /\ i ∉ l.

Lemma mmap_new_wf c : 0 <= c < FREE_END -> wf (new c) [].
Proof.
  intros Hc. constructor; simpl; try done.
  constructor.
Qed.

(** Popping the free list: the slot at its head is reissued. *)
Lemma insert_pop s i l :
  wf s (i :: l) ->
  exists s', insert s = Ret (s', Some i) /\ wf s' l /\ bump s' = bump s /\ cap s' = cap s.
Proof.
  intros [Hb Hcap (Hh & Hi & m & n & Hm & Hnx & Hc) Hnd Hlv Hlen]. unfold insert.
  pose proof (lookup_lt_Some _ _ _ Hm) as Hlt. injection Hnx as <-. simpl in Hlen.
  apply NoDup_cons in Hnd as [Hnin Hnd].
  pose proof (chain_length _ _ _ _ Hc Hnd).
  rewrite decide_True by lia. rewrite Hh, (index_lookup _ _ _ Hm). cbn [obind].
  eexists; split; [done|]. split; [|done].
  unfold FREE_END in *. constructor; simpl; rewrite ?length_insert; try done.
  - by apply chain_insert_notin.
  - intros j m' Hj Hjn Hm'. destruct (decide (j = i)) as [->|Hne].
    + rewrite list_lookup_insert_eq in Hm' by done. by simplify_eq.
    + rewrite list_lookup_insert_ne in Hm' by (intros ?%Z2Nat.inj; lia).
      eapply (Hlv j); [done| |done]. by apply not_elem_of_cons.
  - rewrite u32_small; word_lia.
Qed.

(** Bumping: a slot never issued before. *)
Lemma insert_fresh s :
  wf s [] -> bump s < cap s ->
  exists s', insert s = Ret (s', Some (bump s)) /\ wf s' [] /\
    bump s' = bump s + 1 /\ cap s' = cap s.
Proof.
  intros [Hb Hcap Hc Hnd Hlv Hlen] Hlt. unfold insert. simpl in Hc, Hlen.
  rewrite decide_False by (intros Hn; by apply Hn). rewrite decide_True by done.
  unfold FREE_END in *.
  assert (bump s +₃₂ 1 = bump s + 1) as Hu by (apply u32_small; word_lia).
  eexists; split; [done|]. split; [|done].
  constructor; simpl; rewrite ?length_app; simpl; try done; try lia.
  - rewrite Hu. unfold FREE_END. lia.
  - intros j m Hj _ Hm. destruct (decide (Z.to_nat j < length (meta s))%nat).
    + rewrite lookup_app_l in Hm by done. eapply (Hlv j); [done| |done]. apply not_elem_of_nil.
    + apply lookup_app_Some in Hm as [Hm|[Hge Hm]]; [apply lookup_lt_Some in Hm; lia|].
      apply list_lookup_singleton_Some in Hm as [_ <-]. done.
  - rewrite u32_small; word_lia.
Qed.

Lemma insert_full s : wf s [] -> bump s = cap s -> insert s = Ret (s, None).
Proof.
  intros [Hb Hcap Hc Hnd Hlv Hlen] Hlt. unfold insert. simpl in Hc.
  rewrite decide_False by (intros Hn; by apply Hn). by rewrite decide_False by lia.
Qed.

Lemma remove_live s l i :
  wf s l -> live s l i ->
  exists s', remove s i = Ret (s', true) /\ wf s' (i :: l) /\ bump s' = bump s /\ cap s' = cap s.
Proof.
  intros [Hb Hcap Hc Hnd Hlv Hlen] [Hi Hn]. unfold remove. rewrite decide_False by lia.
  destruct (meta s !! Z.to_nat i) as [m|] eqn:Hm; [|apply lookup_ge_None in Hm; lia].
  rewrite (index_lookup _ _ _ Hm). cbn [obind].
  rewrite (Hlv i m) by (done || lia). rewrite decide_False by (intros Hx; by apply Hx).
  assert (length l < length (meta s))%nat as Hll.
  { pose proof (lookup_lt_Some _ _ _ Hm).
    assert (NoDup (i :: l)) as Hnd2 by (by constructor).
    set (ms := <[Z.to_nat i := mkSlotMeta 0 (free_head s)]> (meta s)).
    assert (chain ms i (i :: l)) as Hc2.
    { simpl. split_and!; [done|lia|]. eexists _, _. subst ms.
      rewrite list_lookup_insert_eq by done. split_and!; [done..|].
      apply chain_insert_notin; [lia|done..]. }
    pose proof (chain_length _ _ _ _ Hc2 Hnd2) as Hcl. subst ms.
    rewrite length_insert in Hcl. simpl in Hcl. lia. }
  eexists; split; [done|]. split; [|done].
  unfold FREE_END in *. constructor; simpl; rewrite ?length_insert; try done.
  - split_and!; [done|lia|]. eexists _, _. rewrite list_lookup_insert_eq by lia.
    split_and!; [done..|]. apply chain_insert_notin; [lia|done..].
  - by constructor.
  - intros j m' Hj Hjn Hm'. apply not_elem_of_cons in Hjn as [Hne Hjn].
    rewrite list_lookup_insert_ne in Hm' by (intros ?%Z2Nat.inj; lia). by eapply (Hlv j).
  - rewrite u32_small; word_lia.
Qed.

Lemma remove_out_of_range s i : Z.of_nat (length (meta s)) <= i -> remove s i = Ret (s, false).
Proof. intros. unfold remove. by rewrite decide_True. Qed.

(** The index allocated by [insert] was not live; after [remove] it is free. *)
Lemma insert_spec s l :
  wf s l ->
  (exists s' l' i, insert s = Ret (s', Some i) /\ wf s' l' /\ cap s' = cap s /\
     ~ live s l i /\ 0 <= i < cap s /\ i < bump s' /\
     forall j, live s' l' j <-> j = i \/ live s l j) \/
  (insert s = Ret (s, None) /\ l = [] /\ bump s = cap s).
Proof.
  intros Hwf. destruct l as [|i l].
  - pose proof (wf_cap _ _ Hwf). pose proof (wf_bump _ _ Hwf).
    destruct (decide (bump s < cap s)).
    + left. destruct (insert_fresh s) as (s' & -> & Hwf' & Hb & Hc); [done..|].
      exists s', [], (bump s). unfold live. rewrite Hb.
      split_and!; try done; try lia. intros j.
      pose proof (not_elem_of_nil j).
      destruct (decide (j = bump s)) as [->|]; intuition lia.
    + right. split_and!; [|done|lia]. apply insert_full; [done|lia].
  - left. destruct (insert_pop s i l) as (s' & -> & Hwf' & Hb & Hc); [done..|].
    pose proof (chain_range _ _ _ _ i (wf_chain _ _ Hwf) ltac:(set_solver)) as Hr.
    rewrite <- (wf_bump _ _ Hwf) in Hr. pose proof (wf_cap _ _ Hwf).
    pose proof (wf_nodup _ _ Hwf) as [Hnin _]%NoDup_cons.
    exists s', l, i. unfold live. rewrite Hb. split_and!; try done; try lia.
    + intros [_ Hn]. apply Hn. apply elem_of_cons; by left.
    + intros j. rewrite not_elem_of_cons.
      destruct (decide (j = i)) as [->|]; intuition (lia || done).
Qed.

(** In a well-formed slab [insert] hands out an index below the capacity
    that was not live and makes exactly that index live, or returns [None] and
    changes nothing, which happens only when all [cap] slots are live; it never
    panics. *)
Theorem mmap_insert_fresh_or_full s l :
  wf s l ->
  (exists s' l' i, insert s = Ret (s', Some i) /\ wf s' l' /\ ~ live s l i /\ 0 <= i < cap s /\
     forall j, live s' l' j <-> j = i \/ live s l j) \/
  (insert s = Ret (s, None) /\ forall j, 0 <= j < cap s -> live s l j).
Proof.
  intros Hwf. destruct (insert_spec s l Hwf) as [(s' & l' & i & ? & ? & ? & ? & ? & ? & ?)|(? & -> & Hb)].
  - left. by exists s', l', i.
  - right. split; [done|]. intros j Hj. split; [lia|apply not_elem_of_nil].
Qed.

Lemma mmap_insert_fresh_or_full_witness :
  wf (new 2) [] /\
  ((exists s' l' i, insert (new 2) = Ret (s', Some i) /\ wf s' l' /\ ~ live (new 2) [] i /\ 0 <= i < 2 /\
     forall j, live s' l' j <-> j = i \/ live (new 2) [] j) \/
  (insert (new 2) = Ret (new 2, None) /\ forall j, 0 <= j < 2 -> live (new 2) [] j)).
Proof.
  assert (wf (new 2) []) as Hwf by (apply mmap_new_wf; unfold FREE_END, U32_MAX; lia).
  split; [exact Hwf|]. apply (mmap_insert_fresh_or_full (new 2) []). exact Hwf.
Defined.

(** Applying a list of calls, for concrete runs. *)
Inductive call : Type := CInsert | CRemove (i : Z).
Fixpoint run s (cs : list call) : outcome (MmapSlab * list (option Z)) :=
  match cs with
  | [] => Ret (s, [])
  | CInsert :: cs' => r <-! insert s ;; rs <-! run (fst r) cs' ;; Ret (fst rs, snd r :: snd rs)
  | CRemove i :: cs' => r <-! remove s i ;; rs <-! run (fst r) cs' ;; Ret (fst rs, snd rs)
  end.

(** The [next_free != FREE_END] guard of [remove] does not recognise the
    last element of the free list as free.  Removing the same index twice when it
    is alone on the free list succeeds both times and makes the list circular,
    and the two following [insert] calls hand out one slot twice. *)
Theorem mmap_double_remove_aliases :
  exists s', run (new 8192) [CInsert; CRemove 0; CRemove 0; CInsert; CInsert]
             = Ret (s', [Some 0; Some 0; Some 0]).
Proof. eexists. vm_compute. reflexivity. Qed.

End MmapSlab.
