(* ===== verification/Queue.v ===== *)
(** * Per-thread message queues ([src/rust/src/triskelion/queue.rs])

    [MessageRing] is a single-producer single-consumer ring of 256 messages in
    shared memory; [ThreadQueue] adds the wake bits.  The sequential operations
    are functions; the concurrent behaviour is a step relation in which every
    load, store and read-modify-write of the source is one step and producer and
    consumer interleave freely.  Acquire/Release pairs on the two positions are
    what makes the interleaving semantics of the buffer accesses adequate. *)

From stdpp Require Import base list gmap.
From S2P Require Import Prelude.
Local Open Scope Z_scope.

Record QueuedMessage : Type := mkQueuedMessage {
  win : Z; msg : Z; wparam : Z; lparam : Z;
  msg_type : Z; x : Z; y : Z; time : Z;
  pad : Z * Z;
}.

Definition zero_msg : QueuedMessage := mkQueuedMessage 0 0 0 0 0 0 0 0 (0, 0).

Definition RING_CAPACITY : Z := 256.
Definition RING_MASK : Z := RING_CAPACITY - 1.
Definition QS_POSTMESSAGE : Z := 8.

Record MessageRing : Type := mkMessageRing {
  write_pos : Z;
  read_pos : Z;
  buf : list QueuedMessage;
}.

Record ThreadQueue : Type := mkThreadQueue {
  posted : MessageRing;
  wake_bits : Z;
  post_lock : Z;
  thread_id : Z;
}.

Implicit Types (r : MessageRing) (q : ThreadQueue) (m : QueuedMessage).

(** [(pos as usize) & RING_MASK] *)
Definition slot_of (pos : Z) : nat := Z.to_nat (Z.land pos RING_MASK).

Definition push r m : MessageRing * bool :=
  let wp := write_pos r in
  let rp := read_pos r in
  if decide (RING_CAPACITY <= u64 (wp - rp)) then (r, false)
  else (mkMessageRing (u64 (wp + 1)) rp (<[slot_of wp := m]> (buf r)), true).

(** [ptr::read(&buf[idx])]; the index is always below 256. *)
Definition pop r : MessageRing * option QueuedMessage :=
  let rp := read_pos r in
  let wp := write_pos r in
  if decide (rp = wp) then (r, None)
  else (mkMessageRing wp (u64 (rp + 1)) (buf r), Some (default zero_msg (buf r !! slot_of rp))).

Definition is_empty r : bool := bool_decide (read_pos r = write_pos r).

(** [init_at]: the slot is zeroed, then the owner is stored. *)
Definition init_at (tid : Z) : ThreadQueue :=
  mkThreadQueue (mkMessageRing 0 0 (replicate 256 zero_msg)) 0 0 tid.

Definition post q m : ThreadQueue * bool :=
  let '(r', ok) := push (posted q) m in
  (mkThreadQueue r' (if ok then Z.lor (wake_bits q) QS_POSTMESSAGE else wake_bits q)
     (post_lock q) (thread_id q), ok).

Definition get q : ThreadQueue * option QueuedMessage :=
  match pop (posted q) with
  | (r', None) => (mkThreadQueue r' (wake_bits q) (post_lock q) (thread_id q), None)
  | (r', Some m) =>
      (mkThreadQueue r'
         (if is_empty r' then Z.ldiff (wake_bits q) QS_POSTMESSAGE else wake_bits q)
         (post_lock q) (thread_id q), Some m)
  end.

(** ** Abstraction: the messages between the two positions

    [repr r R W ms]: [R] messages have been consumed and [W] produced over the
    life of the ring ([R], [W] unbounded, the stored positions are their 64-bit
    truncations) and [ms] is what is in flight. *)
Record repr r (R W : Z) (ms : list QueuedMessage) : Prop := {
  repr_wp : write_pos r = u64 W;
  repr_rp : read_pos r = u64 R;
  repr_nonneg : 0 <= R;
  repr_len : W = R + Z.of_nat (length ms);
  repr_cap : Z.of_nat (length ms) <= RING_CAPACITY;
  repr_buf : length (buf r) = 256%nat;
  repr_data : forall k m, ms !! k = Some m ->
                buf r !! Z.to_nat ((R + Z.of_nat k) mod 256) = Some m;
}.

Lemma slot_of_u64 n : 0 <= n -> slot_of (u64 n) = Z.to_nat (n mod 256).
Proof.
  intros Hn. unfold slot_of, RING_MASK, RING_CAPACITY. f_equal.
  change (256 - 1) with (Z.ones 8). rewrite Z.land_ones by lia.
  unfold u64, wrap. change (2 ^ 64) with (2 ^ 8 * 2 ^ 56).
  rewrite Z.rem_mul_r by lia. rewrite (Z.mul_comm (2 ^ 8)), Z.mod_add by lia.
  by rewrite Z.mod_mod by lia.
Qed.

Lemma slot_of_lt n : 0 <= n -> (Z.to_nat (n mod 256) < 256)%nat.
Proof. intros. pose proof (Z.mod_pos_bound n 256). lia. Qed.

Lemma u64_sub R W : 0 <= W - R < 2 ^ 64 -> u64 (u64 W - u64 R) = W - R.
Proof.
  intros H. unfold u64, wrap. rewrite <- Zminus_mod. by apply Z.mod_small.
Qed.

Lemma u64_eq R W : 0 <= W - R < 2 ^ 64 -> u64 R = u64 W -> R = W.
Proof.
  intros H Heq. pose proof (u64_sub R W H) as Hs. rewrite Heq, Z.sub_diag in Hs.
  unfold u64, wrap in Hs. rewrite Z.mod_0_l in Hs by lia. lia.
Qed.

Lemma u64_succ n : u64 (u64 n + 1) = u64 (n + 1).
Proof. unfold u64, wrap. by rewrite Z.add_mod_idemp_l by lia. Qed.

Lemma mod_256_inj a b : 0 <= a - b < 256 -> a mod 256 = b mod 256 -> a = b.
Proof.
  intros H Heq.
  assert ((a - b) mod 256 = 0) as H0 by (by rewrite Zminus_mod, Heq, Z.sub_diag).
  rewrite Z.mod_small in H0 by lia. lia.
Qed.

(** The three effects on the ring, shared by the sequential and the concurrent
    views: writing the free slot, publishing it, and consuming the oldest. *)
Lemma repr_write r R W ms m :
  repr r R W ms -> Z.of_nat (length ms) < RING_CAPACITY ->
  let r' := mkMessageRing (write_pos r) (read_pos r) (<[slot_of (u64 W) := m]> (buf r)) in
  repr r' R W ms /\ buf r' !! Z.to_nat (W mod 256) = Some m.
Proof.
  intros [Hw Hr Hn Hl Hc Hb Hd] Hlt r'. unfold RING_CAPACITY in *. subst r'; simpl.
  rewrite slot_of_u64 by lia. pose proof (slot_of_lt W ltac:(lia)). split.
  - constructor; simpl; try done; [by rewrite length_insert|].
    intros k m' Hk. pose proof (lookup_lt_Some _ _ _ Hk).
    rewrite list_lookup_insert_ne; [by apply Hd|].
    intros Heq%Z2Nat.inj; [|apply Z.mod_pos_bound; lia..].
    apply mod_256_inj in Heq; lia.
  - apply list_lookup_insert_eq. lia.
Qed.

Lemma repr_publish r R W ms m :
  repr r R W ms -> Z.of_nat (length ms) < RING_CAPACITY ->
  buf r !! Z.to_nat (W mod 256) = Some m ->
  repr (mkMessageRing (u64 (u64 W + 1)) (read_pos r) (buf r)) R (W + 1) (ms ++ [m]).
Proof.
  intros [Hw Hr Hn Hl Hc Hb Hd] Hlt Hm. unfold RING_CAPACITY in *.
  constructor; simpl; rewrite ?length_app; simpl; unfold RING_CAPACITY; try done; try lia.
  - apply u64_succ.
  - intros k m' [Hk|[Hk Hm']]%lookup_app_Some; [by apply Hd|].
    apply list_lookup_singleton_Some in Hm' as [Hk' <-].
    by replace (R + Z.of_nat k) with W by lia.
Qed.

Lemma repr_consume r R W m ms :
  repr r R W (m :: ms) ->
  buf r !! slot_of (u64 R) = Some m /\
  repr (mkMessageRing (write_pos r) (u64 (u64 R + 1)) (buf r)) (R + 1) W ms.
Proof.
  intros [Hw Hr Hn Hl Hc Hb Hd]. unfold RING_CAPACITY in *. simpl in *.
  rewrite slot_of_u64 by lia. split.
  - pose proof (Hd 0%nat m eq_refl) as H0. by rewrite Z.add_0_r in H0.
  - constructor; simpl; try done; try (unfold RING_CAPACITY; lia); [apply u64_succ|].
    intros k m' Hk. replace (R + 1 + Z.of_nat k) with (R + Z.of_nat (S k)) by lia. by apply Hd.
Qed.

(** The full test and the empty test read the number of pending messages. *)
Lemma repr_full r R W ms :
  repr r R W ms -> u64 (u64 W - read_pos r) = Z.of_nat (length ms).
Proof.
  intros [Hw Hr Hn Hl Hc Hb Hd]. unfold RING_CAPACITY in *.
  rewrite Hr, u64_sub by word_lia. lia.
Qed.

Lemma repr_empty r R W ms : repr r R W ms -> u64 R = write_pos r <-> ms = [].
Proof.
  intros [Hw Hr Hn Hl Hc Hb Hd]. unfold RING_CAPACITY in *. rewrite Hw. split.
  - intros Heq%u64_eq; [|word_lia]. destruct ms; [done|simpl in *; lia].
  - intros ->. simpl in *. f_equal. lia.
Qed.

Lemma push_spec r R W ms m :
  repr r R W ms ->
  (Z.of_nat (length ms) < RING_CAPACITY /\ exists r', push r m = (r', true) /\ repr r' R (W + 1) (ms ++ [m])) \/
  (Z.of_nat (length ms) = RING_CAPACITY /\ push r m = (r, false)).
Proof.
  intros Hr. pose proof (repr_cap _ _ _ _ Hr). unfold push. rewrite (repr_wp _ _ _ _ Hr).
  rewrite (repr_full _ _ _ _ Hr). case_decide; [right; split; [lia|done]|].
  left. split; [lia|]. eexists; split; [done|].
  destruct (repr_write _ _ _ _ m Hr) as [Hr1 Hm]; [lia|].
  by apply (repr_publish _ _ _ _ m) in Hr1; [|lia|done].
Qed.

Lemma pop_spec r R W ms :
  repr r R W ms ->
  match ms with
  | [] => pop r = (r, None)
  | m :: ms' => exists r', pop r = (r', Some m) /\ repr r' (R + 1) W ms'
  end.
Proof.
  intros Hr. pose proof (repr_empty _ _ _ _ Hr) as He. unfold pop.
  rewrite (repr_rp _ _ _ _ Hr). destruct ms as [|m ms].
  - rewrite decide_True by by apply He. done.
  - rewrite decide_False by (intros Heq%He; done).
    destruct (repr_consume _ _ _ _ _ Hr) as [-> Hr']. by eexists.
Qed.

Lemma is_empty_spec r R W ms : repr r R W ms -> is_empty r = bool_decide (ms = []).
Proof.
  intros Hr. unfold is_empty. rewrite (repr_rp _ _ _ _ Hr).
  apply bool_decide_ext. by eapply repr_empty.
Qed.

(** ** The queue as a bounded FIFO with a wake flag *)
Definition wake_flag q : bool := Z.testbit (wake_bits q) 3.

Record qrepr q (ms : list QueuedMessage) : Prop := {
  qrepr_ring : exists R W, repr (posted q) R W ms;
  qrepr_wake : wake_flag q = bool_decide (ms <> []);
}.

Inductive queue_op : Type := Post (m : QueuedMessage) | Get.

Definition run_op q (o : queue_op) : ThreadQueue * (bool + option QueuedMessage) :=
  match o with
  | Post m => let '(q', ok) := post q m in (q', inl ok)
  | Get => let '(q', om) := get q in (q', inr om)
  end.

Fixpoint run_ops q (os : list queue_op) : ThreadQueue * list (bool + option QueuedMessage) :=
  match os with
  | [] => (q, [])
  | o :: os' => let '(q1, res) := run_op q o in let '(q2, rs) := run_ops q1 os' in (q2, res :: rs)
  end.

(** The specification: a list of at most 256 messages. *)
Definition fifo_op (ms : list QueuedMessage) (o : queue_op)
    : list QueuedMessage * (bool + option QueuedMessage) :=
  match o with
  | Post m => if decide (length ms < 256)%nat then (ms ++ [m], inl true) else (ms, inl false)
  | Get => match ms with [] => ([], inr None) | m :: ms' => (ms', inr (Some m)) end
  end.

Fixpoint fifo_ops (ms : list QueuedMessage) (os : list queue_op)
    : list QueuedMessage * list (bool + option QueuedMessage) :=
  match os with
  | [] => (ms, [])
  | o :: os' => let '(ms1, res) := fifo_op ms o in let '(ms2, rs) := fifo_ops ms1 os' in (ms2, res :: rs)
  end.

Lemma init_at_repr tid : qrepr (init_at tid) [].
Proof.
  constructor; [|done]. exists 0, 0. constructor; simpl; try done.
Qed.

Lemma testbit_set z : Z.testbit (Z.lor z QS_POSTMESSAGE) 3 = true.
Proof. rewrite Z.lor_spec. apply orb_true_r. Qed.
Lemma testbit_clear z : Z.testbit (Z.ldiff z QS_POSTMESSAGE) 3 = false.
Proof. rewrite Z.ldiff_spec. apply andb_false_r. Qed.

Lemma post_spec q ms m :
  qrepr q ms ->
  exists q', post q m = (q', bool_decide (length ms < 256)%nat) /\
    qrepr q' (if decide (length ms < 256)%nat then ms ++ [m] else ms).
Proof.
  intros [(R & W & Hr) Hw]. unfold post.
  destruct (push_spec _ _ _ _ m Hr) as [(Hlt & r' & -> & Hr')|(Hfull & ->)];
    unfold RING_CAPACITY in *; eexists.
  - rewrite bool_decide_true, decide_True by lia. split; [done|]. constructor; cbn [posted]; [eauto|].
    unfold wake_flag; cbn [wake_bits]. rewrite testbit_set. symmetry. apply bool_decide_true. by destruct ms.
  - rewrite bool_decide_false, decide_False by lia. split; [done|]. constructor; simpl; eauto.
Qed.

Lemma get_spec q ms :
  qrepr q ms ->
  exists q', get q = (q', head ms) /\ qrepr q' (tail ms).
Proof.
  intros [(R & W & Hr) Hw]. unfold get.
  pose proof (pop_spec _ _ _ _ Hr) as Hp. destruct ms as [|m ms].
  - rewrite Hp. eexists; split; [done|]. constructor; simpl; eauto.
  - destruct Hp as (r' & -> & Hr'). eexists; split; [done|].
    constructor; cbn [posted]; [eauto|]. unfold wake_flag; cbn [wake_bits].
    rewrite (is_empty_spec _ _ _ _ Hr'). destruct (decide (ms = [])) as [->|Hms].
    + rewrite bool_decide_true, testbit_clear by done. done.
    + rewrite bool_decide_false by done. unfold wake_flag in Hw.
      rewrite Hw, !bool_decide_true; done.
Qed.

Lemma run_ops_sim (os : list queue_op) q ms :
  qrepr q ms ->
  (run_ops q os).2 = (fifo_ops ms os).2 /\ qrepr (run_ops q os).1 (fifo_ops ms os).1.
Proof.
  revert q ms; induction os as [|o os IH]; intros q ms Hq; simpl; [done|].
  destruct o as [m|]; simpl.
  - destruct (post_spec q ms m Hq) as (q' & -> & Hq'). destruct (IH q' _ Hq') as [IHr IHq].
    destruct (run_ops q' os). case_decide as Hd; destruct (fifo_ops _ os); simpl in *;
      [rewrite bool_decide_true by done|rewrite bool_decide_false by done]; by rewrite IHr.
  - destruct (get_spec q ms Hq) as (q' & -> & Hq'). destruct (IH q' _ Hq') as [IHr IHq].
    destruct (run_ops q' os). destruct ms as [|m ms]; simpl in *;
      destruct (fifo_ops _ os); simpl in *; by rewrite IHr.
Qed.

(** C27: used sequentially, a queue initialised by [init_at] behaves as a FIFO of
    capacity 256: every [post] and [get] of any call sequence returns what the
    list specification returns, and after every sequence the QS_POSTMESSAGE wake
    bit is set exactly when messages are pending. *)
Theorem thread_queue_refines_fifo tid (os : list queue_op) :
  let '(q, rs) := run_ops (init_at tid) os in
  let '(ms, rs') := fifo_ops [] os in
  rs = rs' /\ wake_flag q = bool_decide (ms <> []) /\ is_empty (posted q) = bool_decide (ms = []).
Proof.
  destruct (run_ops_sim os _ _ (init_at_repr tid)) as [Hrs [(R & W & Hr) Hw]].
  destruct (run_ops (init_at tid) os) as [q rs], (fifo_ops [] os) as [ms rs'].
  split_and!; [done..|by eapply is_empty_spec].
Qed.

(** ** Concurrent executions

    One producer runs [post] and one consumer runs [get], each access a step. *)
Inductive producer : Type :=
| PIdle
| PLoadRp (m : QueuedMessage) (wp : Z)   (* write_pos loaded *)
| PWrite (m : QueuedMessage) (wp : Z)    (* fullness check passed *)
| PStore (m : QueuedMessage) (wp : Z)    (* message written to the buffer *)
| PFetchOr.                              (* write_pos stored *)

Inductive consumer : Type :=
| CIdle
| CLoadWp (rp : Z)                       (* read_pos loaded *)
| CRead (rp : Z)                         (* emptiness check passed *)
| CStore (rp : Z) (m : QueuedMessage)    (* message read from the buffer *)
| CEmptyRp                               (* read_pos stored; is_empty starts *)
| CEmptyWp (rp : Z)
| CClear.                                (* is_empty returned true *)

Record cstate : Type := mkCstate {
  ring : MessageRing; bits : Z; prod : producer; cons : consumer;
  produced : list QueuedMessage; consumed : list QueuedMessage;
}.

Definition cinit : cstate :=
  mkCstate (posted (init_at 0)) 0 PIdle CIdle [] [].

(** One step of the producer ([m] is the message of a newly started [post]). *)
Definition pstep (m : QueuedMessage) (s : cstate) : cstate :=
  let 'mkCstate r b p c pr co := s in
  match p with
  | PIdle => mkCstate r b (PLoadRp m (write_pos r)) c pr co
  | PLoadRp m wp =>
      if decide (RING_CAPACITY <= u64 (wp - read_pos r))
      then mkCstate r b PIdle c pr co
      else mkCstate r b (PWrite m wp) c pr co
  | PWrite m wp =>
      mkCstate (mkMessageRing (write_pos r) (read_pos r) (<[slot_of wp := m]> (buf r)))
        b (PStore m wp) c pr co
  | PStore m wp =>
      mkCstate (mkMessageRing (u64 (wp + 1)) (read_pos r) (buf r)) b PFetchOr c (pr ++ [m]) co
  | PFetchOr => mkCstate r (Z.lor b QS_POSTMESSAGE) PIdle c pr co
  end.

(** One step of the consumer. *)
Definition cstep (s : cstate) : cstate :=
  let 'mkCstate r b p c pr co := s in
  match c with
  | CIdle => mkCstate r b p (CLoadWp (read_pos r)) pr co
  | CLoadWp rp =>
      if decide (rp = write_pos r) then mkCstate r b p CIdle pr co else mkCstate r b p (CRead rp) pr co
  | CRead rp => mkCstate r b p (CStore rp (default zero_msg (buf r !! slot_of rp))) pr co
  | CStore rp m =>
      mkCstate (mkMessageRing (write_pos r) (u64 (rp + 1)) (buf r)) b p CEmptyRp pr (co ++ [m])
  | CEmptyRp => mkCstate r b p (CEmptyWp (read_pos r)) pr co
  | CEmptyWp rp =>
      if decide (rp = write_pos r) then mkCstate r b p CClear pr co else mkCstate r b p CIdle pr co
  | CClear => mkCstate r (Z.ldiff b QS_POSTMESSAGE) p CIdle pr co
  end.

Inductive step : cstate -> cstate -> Prop :=
| step_producer m s : step s (pstep m s)
| step_consumer s : step s (cstep s).

(** Running a schedule: [Some m] lets the producer move, [None] the consumer. *)
Fixpoint run_schedule (sch : list (option QueuedMessage)) (s : cstate) : cstate :=
  match sch with
  | [] => s
  | Some m :: sch' => run_schedule sch' (pstep m s)
  | None :: sch' => run_schedule sch' (cstep s)
  end.

Lemma run_schedule_reachable sch s : rtc step s (run_schedule sch s).
Proof.
  revert s; induction sch as [|[m|] sch IH]; intros s; simpl; [done|..];
    (eapply rtc_l; [constructor|apply IH]).
Qed.

(** The invariant: the ring holds what was produced and not yet consumed, and
    each side's local copies agree with it. *)
Record cinv (s : cstate) : Prop := {
  cinv_repr : repr (ring s) (Z.of_nat (length (consumed s))) (Z.of_nat (length (produced s)))
                (drop (length (consumed s)) (produced s));
  cinv_fifo : consumed s = take (length (consumed s)) (produced s);
  cinv_prod :
    match prod s with
    | PIdle | PFetchOr => True
    | PLoadRp m wp => wp = u64 (Z.of_nat (length (produced s)))
    | PWrite m wp => wp = u64 (Z.of_nat (length (produced s))) /\
        Z.of_nat (length (produced s)) - Z.of_nat (length (consumed s)) < RING_CAPACITY
    | PStore m wp => wp = u64 (Z.of_nat (length (produced s))) /\
        Z.of_nat (length (produced s)) - Z.of_nat (length (consumed s)) < RING_CAPACITY /\
        buf (ring s) !! Z.to_nat (Z.of_nat (length (produced s)) mod 256) = Some m
    end;
  cinv_cons :
    match cons s with
    | CIdle | CEmptyRp | CEmptyWp _ | CClear => True
    | CLoadWp rp => rp = u64 (Z.of_nat (length (consumed s)))
    | CRead rp => rp = u64 (Z.of_nat (length (consumed s))) /\
        (length (consumed s) < length (produced s))%nat
    | CStore rp m => rp = u64 (Z.of_nat (length (consumed s))) /\
        produced s !! length (consumed s) = Some m
    end;
}.

Lemma drop_snoc_le {A} n (l : list A) a : (n <= length l)%nat -> drop n (l ++ [a]) = drop n l ++ [a].
Proof. intros. by rewrite drop_app_le. Qed.

Lemma cinv_le s : cinv s -> (length (consumed s) <= length (produced s))%nat.
Proof.
  intros [_ Hf _ _]. rewrite Hf at 1. rewrite length_take. lia.
Qed.

Lemma cinv_init : cinv cinit.
Proof.
  by constructor.
Qed.

Lemma pstep_inv m s : cinv s -> cinv (pstep m s).
Proof.
  intros Hinv. pose proof (cinv_le s Hinv) as Hle. destruct Hinv as [Hr Hf Hp Hc].
  destruct s as [r b p c pr co]. cbn [ring bits prod cons produced consumed] in *.
  pose proof (repr_wp _ _ _ _ Hr) as Hwp. pose proof (repr_full _ _ _ _ Hr) as Hfull.
  rewrite length_drop in Hfull.
  destruct p as [|m0 wp|m0 wp|m0 wp|]; cbn [pstep].
  - by constructor.
  - subst wp. rewrite Hfull. case_decide; constructor; try done.
    cbn. split; [done|]. lia.
  - destruct Hp as [-> Hlt].
    destruct (repr_write _ _ _ _ m0 Hr) as [Hr1 Hm]; [rewrite length_drop; lia|].
    constructor; cbn [ring bits prod cons produced consumed]; try done.
  - destruct Hp as (-> & Hlt & Hm).
    constructor; cbn [ring bits prod cons produced consumed]; rewrite ?length_app; simpl; try done.
    + rewrite drop_snoc_le by done. rewrite Nat2Z.inj_add.
      apply repr_publish; [done|rewrite length_drop; lia|done].
    + by rewrite take_app_le by done.
    + destruct c; try done; [destruct Hc; split; [done|lia]|].
      destruct Hc as [Hc Hlk]. split; [done|]. by apply lookup_app_l_Some.
  - by constructor.
Qed.

Lemma cstep_inv s : cinv s -> cinv (cstep s).
Proof.
  intros Hinv. pose proof (cinv_le s Hinv) as Hle. destruct Hinv as [Hr Hf Hp Hc].
  destruct s as [r b p c pr co]. cbn [ring bits prod cons produced consumed] in *.
  pose proof (repr_rp _ _ _ _ Hr) as Hrp. pose proof (repr_empty _ _ _ _ Hr) as He.
  assert (forall x, pr !! length co = Some x -> drop (length co) pr = x :: drop (S (length co)) pr) as Hdrop
    by (intros; by apply drop_S).
  destruct c as [|rp|rp|rp m| |rp|]; cbn [cstep]; try case_decide as Hd; try by constructor.
  - subst rp. constructor; try done. cbn. split; [done|].
    destruct (decide (length co < length pr)%nat); [done|].
    exfalso. apply Hd, He. apply drop_ge. lia.
  - destruct Hc as [-> Hlt].
    destruct (lookup_lt_is_Some_2 pr (length co) Hlt) as [x Hx].
    rewrite (Hdrop x Hx) in Hr. destruct (repr_consume _ _ _ _ _ Hr) as [-> _].
    rewrite <- (Hdrop x Hx) in Hr. by constructor.
  - destruct Hc as [-> Hx]. rewrite (Hdrop m Hx) in Hr.
    destruct (repr_consume _ _ _ _ _ Hr) as [_ Hr'].
    constructor; cbn [ring bits prod cons produced consumed]; rewrite ?length_app, ?Nat.add_1_r; try done.
    + by rewrite Nat2Z.inj_succ, <- Z.add_1_r.
    + rewrite (take_S_r _ _ m) by done. by rewrite <- Hf.
    + destruct p; try done.
      * destruct Hp as [? ?]. split; [done|lia].
      * destruct Hp as (? & ? & ?). split_and!; [done|lia|done].
Qed.

Lemma reachable_inv s : rtc step cinit s -> cinv s.
Proof.
  assert (forall s1 s2, rtc step s1 s2 -> cinv s1 -> cinv s2) as H.
  { induction 1 as [|s1 s2 s3 [m s0|s0] _ IH]; intros Hi; [done|..]; apply IH.
    - by apply pstep_inv.
    - by apply cstep_inv. }
  intros Hr. by apply (H cinit).
Qed.

(** C2: under every interleaving of the producer's and the consumer's atomic
    accesses, the messages consumed are a prefix of the messages produced, in
    order and without loss, duplication or torn reads, and at most 256 are in
    flight; this holds across the 64-bit wrap-around of the positions. *)
Theorem ring_concurrent_fifo s :
  rtc step cinit s ->
  consumed s `prefix_of` produced s /\
  (length (produced s) - length (consumed s) <= 256)%nat.
Proof.
  intros Hs%reachable_inv. split.
  - rewrite (cinv_fifo _ Hs). apply prefix_take.
  - pose proof (repr_cap _ _ _ _ (cinv_repr _ Hs)) as Hc. rewrite length_drop in Hc.
    unfold RING_CAPACITY in Hc. lia.
Qed.

Definition demo_msg (n : Z) : QueuedMessage := mkQueuedMessage 1 n 0 0 0 0 0 0 (0, 0).

Lemma ring_concurrent_fifo_witness :
  let s := run_schedule [Some (demo_msg 5); Some (demo_msg 5); None; Some (demo_msg 5);
                         Some (demo_msg 5); None; None; None] cinit in
  consumed s `prefix_of` produced s /\ (length (produced s) - length (consumed s) <= 256)%nat.
Proof. apply ring_concurrent_fifo, run_schedule_reachable. Defined.

(** The wake bit can be lost.  [get] clears QS_POSTMESSAGE after a separate
    [is_empty] test; a [post] that runs entirely between the test and the clear
    leaves a pending message, both threads idle, and the wake bit off. *)
Theorem get_can_lose_wakeup :
  exists s, rtc step cinit s /\ prod s = PIdle /\ cons s = CIdle /\
    consumed s <> produced s /\ Z.testbit (bits s) 3 = false.
Proof.
  pose (p := Some (demo_msg 1)).
  exists (run_schedule ([p; p; p; p; p] ++ [None; None; None; None; None; None]
                        ++ [p; p; p; p; p] ++ [None]) cinit).
  split; [apply run_schedule_reachable|]. vm_compute. split_and!; [done..| |done].
  intros Heq. discriminate Heq.
Qed.

(** The steps of one side, run without interruption, are the sequential
    operations: five producer steps are [post] on a ring with room. *)
Lemma solo_post r b m pr co :
  (push r m).2 = true ->
  run_schedule (replicate 5 (Some m)) (mkCstate r b PIdle CIdle pr co) =
  mkCstate (push r m).1 (Z.lor b QS_POSTMESSAGE) PIdle CIdle (pr ++ [m]) co.
Proof.
  unfold push. intros Hok. simpl. case_decide; [done|]. reflexivity.
Qed.
