(* ===== verification/Shm.v ===== *)
(** * Shared-memory slots for thread queues ([src/rust/src/triskelion/shm.rs])

    [ShmManager] maps one region holding a 64-byte header and 8192 queue slots,
    and assigns slots to threads through a [MmapSlab].  The region is modelled by
    its header fields and a map from slot number to queue contents; the byte
    offsets of [slot_ptr] are modelled separately and shown in bounds and
    pairwise disjoint.  The system calls of [create] are inputs. *)

From stdpp Require Import base list gmap.
From S2P Require Import Prelude Slab Queue.
Local Open Scope Z_scope.
Local Open Scope outcome_scope.

Module Shm.
Import MmapSlab.

Definition SHM_MAGIC : Z := 0x54524953.
Definition SHM_VERSION : Z := 1.
Definition MAX_THREADS : Z := 8192.
Definition HEADER_SIZE : Z := 64.
Definition THREAD_QUEUE_SIZE : Z := 12480.

Record ShmHeader : Type := mkShmHeader {
  magic : Z; version : Z; max_threads : Z; queue_size : Z; next_slot : Z; desktop_ready : Z;
}.

Record ShmManager : Type := mkShmManager {
  fd : Z;
  total_size : Z;
  header : ShmHeader;
  queues : gmap Z ThreadQueue;      (* contents of the slots written so far *)
  slot_map : gmap Z Z;              (* thread id -> slot *)
  slab : MmapSlab;
}.
Implicit Types (s : ShmManager).

(** Results of the three system calls made by [create]. *)
Record ShmSyscalls : Type := { sys_shm_open : Z; sys_ftruncate : Z; sys_mmap_ok : bool }.

Inductive ShmError : Type := EShmOpen | EFtruncate | EMmap.

(** [Err] carries the descriptors closed before returning. *)
Definition create (sys : ShmSyscalls) : ShmManager + ShmError * list Z :=
  let total := HEADER_SIZE + MAX_THREADS * THREAD_QUEUE_SIZE in
  let fd := sys_shm_open sys in
  if decide (fd < 0) then inr (EShmOpen, [])
  else if decide (sys_ftruncate sys <> 0) then inr (EFtruncate, [fd])
  else if negb (sys_mmap_ok sys) then inr (EMmap, [fd])
  else inl (mkShmManager fd total
              (mkShmHeader SHM_MAGIC SHM_VERSION MAX_THREADS (u32 THREAD_QUEUE_SIZE) 0 0)
              ∅ ∅ (new MAX_THREADS)).

(** Byte offset of a slot in the region. *)
Definition slot_offset (slot : Z) : Z := HEADER_SIZE + slot * THREAD_QUEUE_SIZE.

(** All-zero queue: what [write_bytes(ptr, 0, _)] leaves behind. *)
Definition zero_queue : ThreadQueue := init_at 0.

Definition read_slot s (slot : Z) : ThreadQueue := default zero_queue (queues s !! slot).

Definition write_slot s (slot : Z) (q : ThreadQueue) : ShmManager :=
  mkShmManager (fd s) (total_size s) (header s) (<[slot := q]> (queues s)) (slot_map s) (slab s).

Definition set_next_slot (h : ShmHeader) (n : Z) : ShmHeader :=
  mkShmHeader (magic h) (version h) (max_threads h) (queue_size h) n (desktop_ready h).

Definition alloc_slot s (tid : Z) : outcome (ShmManager * option Z) :=
  match slot_map s !! tid with
  | Some existing => Ret (write_slot s existing (init_at tid), Some existing)
  | None =>
      r <-! insert (slab s) ;;
      match r with
      | (sl, None) => Ret (mkShmManager (fd s) (total_size s) (header s) (queues s) (slot_map s) sl, None)
      | (sl, Some slot) =>
          let h := set_next_slot (header s) (high_water sl) in
          Ret (mkShmManager (fd s) (total_size s) h (<[slot := init_at tid]> (queues s))
                 (<[tid := slot]> (slot_map s)) sl, Some slot)
      end
  end.

Definition free_slot s (tid : Z) : outcome ShmManager :=
  match slot_map s !! tid with
  | Some slot =>
      r <-! remove (slab s) slot ;;
      Ret (mkShmManager (fd s) (total_size s) (header s) (<[slot := zero_queue]> (queues s))
             (delete tid (slot_map s)) (fst r))
  | None => Ret s
  end.

Definition get_queue s (tid : Z) : option ThreadQueue :=
  read_slot s <$> slot_map s !! tid.

Definition set_desktop_ready s : ShmManager :=
  let h := header s in
  mkShmManager (fd s) (total_size s)
    (mkShmHeader (magic h) (version h) (max_threads h) (queue_size h) (next_slot h) 1)
    (queues s) (slot_map s) (slab s).

(** ** Invariant: the slot map is a bijection onto the live slots *)
Record wf s : Prop := {
  wf_slab : exists l, MmapSlab.wf (slab s) l /\
    (forall slot, live (slab s) l slot <-> exists tid, slot_map s !! tid = Some slot);
  wf_inj : forall t1 t2 slot, slot_map s !! t1 = Some slot -> slot_map s !! t2 = Some slot -> t1 = t2;
  wf_cap : cap (slab s) = MAX_THREADS;
  wf_owner : forall tid slot, slot_map s !! tid = Some slot -> thread_id (read_slot s slot) = tid;
  wf_hw : forall tid slot, slot_map s !! tid = Some slot -> slot < next_slot (header s);
}.

Lemma create_wf sys s : create sys = inl s -> wf s.
Proof.
  unfold create. repeat case_decide; try done. destruct (sys_mmap_ok sys); [|done].
  intros [= <-]. constructor; simpl; try done.
  - exists []. split; [by apply mmap_new_wf|]. intros slot. split.
    + intros [[? Hb] _]. simpl in Hb. lia.
    + by intros [tid Ht].
Qed.

Lemma alloc_existing_wf s tid slot :
  wf s -> slot_map s !! tid = Some slot -> wf (write_slot s slot (init_at tid)).
Proof.
  intros [Hs Hi Hc Ho Hh] Ht. constructor; simpl; try done.
  intros t sl Hl. unfold read_slot; simpl. destruct (decide (sl = slot)) as [->|].
  - rewrite lookup_insert_eq. simpl. by eapply Hi.
  - rewrite lookup_insert_ne by done. by apply Ho.
Qed.

Lemma alloc_new_spec s tid :
  wf s -> slot_map s !! tid = None ->
  (exists s' slot, alloc_slot s tid = Ret (s', Some slot) /\ wf s' /\
     slot_map s' = <[tid := slot]> (slot_map s) /\ queues s' = <[slot := init_at tid]> (queues s) /\
     (forall t, slot_map s !! t <> Some slot) /\ 0 <= slot < MAX_THREADS) \/
  (alloc_slot s tid = Ret (s, None) /\
   forall slot, 0 <= slot < MAX_THREADS -> exists t, slot_map s !! t = Some slot).
Proof.
  intros Hwf Ht. pose proof Hwf as [(l & Hsl & Hlive) Hi Hc Ho Hh].
  unfold alloc_slot. rewrite Ht.
  destruct (insert_spec (slab s) l Hsl)
    as [(sl & l' & slot & -> & Hsl' & Hcap & Hnl & Hr & Hb & Hlv)|(-> & Hl & Hb)]; cbn [obind].
  - left. eexists _, slot. split; [done|].
    assert (forall t, slot_map s !! t <> Some slot) as Hfresh.
    { intros t Hts. apply Hnl, Hlive. by exists t. }
    rewrite Hc in Hr. split_and!; try done; try lia.
    unfold high_water. constructor; simpl; rewrite ?Hcap; try done.
    + exists l'. split; [done|]. intros sl0. rewrite Hlv, Hlive. split.
      * intros [->|[t Hts]]; [exists tid; by rewrite lookup_insert_eq|].
        exists t. rewrite lookup_insert_ne; [done|]. intros ->. congruence.
      * intros [t Hts]. destruct (decide (t = tid)) as [->|].
        -- rewrite lookup_insert_eq in Hts. left. congruence.
        -- rewrite lookup_insert_ne in Hts by done. right. by exists t.
    + intros t1 t2 sl0. rewrite !lookup_insert.
      repeat case_decide; intros; simplify_eq; try done; [by destruct (Hfresh t2)|by destruct (Hfresh t1)|by eapply Hi].
    + intros t sl0. unfold read_slot; simpl. rewrite !lookup_insert.
      repeat case_decide; intros; simplify_eq; try done.
      * by destruct (Hfresh t).
      * by apply Ho.
    + intros t sl0 Hts.
      assert (live sl l' sl0) as Hl0.
      { apply Hlv. rewrite Hlive. rewrite lookup_insert in Hts.
        case_decide; simplify_eq; [by left|right; by exists t]. }
      destruct Hl0; lia.
  - right. split; [by destruct s|]. intros slot Hslot. apply Hlive. subst l.
    split; [rewrite Hb, Hc; lia|apply not_elem_of_nil].
Qed.

Lemma free_slot_spec s tid :
  wf s ->
  exists s', free_slot s tid = Ret s' /\ wf s' /\ slot_map s' = delete tid (slot_map s) /\
    forall t, t <> tid -> get_queue s' t = get_queue s t.
Proof.
  intros Hwf. pose proof Hwf as [(l & Hsl & Hlive) Hi Hc Ho Hh]. unfold free_slot.
  destruct (slot_map s !! tid) as [slot|] eqn:Ht.
  2: { exists s. by rewrite delete_id. }
  destruct (remove_live (slab s) l slot) as (sl & -> & Hsl' & Hb & Hcap);
    [done|apply Hlive; by exists tid|]. cbn [obind fst].
  eexists; split; [done|]. split; [|split; [done|]].
  - constructor; simpl; rewrite ?Hcap; try done.
    + exists (slot :: l). split; [done|]. intros sl0. unfold live in *.
      rewrite Hb, not_elem_of_cons. specialize (Hlive sl0). split.
      * intros (Hr & Hne & Hnl). destruct (proj1 Hlive) as [t Hts]; [done|].
        exists t. rewrite lookup_delete_ne; [done|]. intros ->. congruence.
      * intros [t Hts]. rewrite lookup_delete in Hts. case_decide; [done|].
        destruct (proj2 Hlive) as [? ?]; [by exists t|]. split_and!; try done; try lia.
        intros ->. by eapply (Hi tid t) in Hts.
    + intros t1 t2 sl0. rewrite !lookup_delete. repeat case_decide; try done. apply Hi.
    + intros t sl0. rewrite lookup_delete. case_decide; [done|]. intros Hts.
      unfold read_slot; simpl. rewrite lookup_insert_ne; [by apply Ho|].
      intros ->. by eapply (Hi tid t) in Hts.
    + intros t sl0. rewrite lookup_delete. case_decide; [done|]. apply Hh.
  - intros t Hne. unfold get_queue; simpl. rewrite lookup_delete_ne by done.
    destruct (slot_map s !! t) as [sl0|] eqn:Hts; [|done]. simpl. f_equal.
    unfold read_slot; simpl. rewrite lookup_insert_ne; [done|].
    intros ->. by eapply (Hi tid t) in Hts.
Qed.

(** [alloc_slot] never panics.  A thread that already has a slot keeps it; a
    new thread gets a slot below 8192 owned by no other thread, or [None] exactly
    when all 8192 slots are owned.  On success the thread's queue is freshly
    initialised and every other thread's queue is untouched. *)
Theorem alloc_slot_correct s tid :
  wf s ->
  exists s' o, alloc_slot s tid = Ret (s', o) /\ wf s' /\
    (forall t, t <> tid -> get_queue s' t = get_queue s t) /\
    match o with
    | Some slot =>
        get_queue s' tid = Some (init_at tid) /\ slot_map s' !! tid = Some slot /\
        (forall t, slot_map s' !! t = Some slot -> t = tid) /\
        (forall old, slot_map s !! tid = Some old -> slot = old)
    | None => s' = s /\ slot_map s !! tid = None /\
        forall slot, 0 <= slot < MAX_THREADS -> exists t, slot_map s !! t = Some slot
    end.
Proof.
  intros Hwf. destruct (slot_map s !! tid) as [slot|] eqn:Ht.
  - unfold alloc_slot. rewrite Ht. eexists _, _. split; [done|].
    split; [by apply alloc_existing_wf|]. split; [|split_and!].
    + intros t Hne. unfold get_queue; simpl. destruct (slot_map s !! t) as [sl|] eqn:Hts; [|done].
      simpl. f_equal. unfold read_slot; simpl. rewrite lookup_insert_ne; [done|].
      intros ->. by eapply (wf_inj _ Hwf tid t) in Hts.
    + unfold get_queue; simpl. rewrite Ht. simpl. unfold read_slot; simpl. by rewrite lookup_insert_eq.
    + done.
    + intros t Hts. by eapply (wf_inj _ Hwf).
    + congruence.
  - destruct (alloc_new_spec s tid Hwf Ht)
      as [(s' & slot & -> & Hwf' & Hm & Hq & Hfresh & Hr)|[-> Hall]]; eexists _, _; (split; [done|]).
    + split; [done|]. split; [|split_and!]; try done.
      * intros t Hne. unfold get_queue. rewrite Hm, lookup_insert_ne by done.
        destruct (slot_map s !! t) as [sl|] eqn:Hts; [|done]. simpl. f_equal.
        unfold read_slot. rewrite Hq, lookup_insert_ne; [done|]. intros ->. by destruct (Hfresh t).
      * unfold get_queue. rewrite Hm, lookup_insert_eq. simpl. unfold read_slot.
        by rewrite Hq, lookup_insert_eq.
      * by rewrite Hm, lookup_insert_eq.
      * intros t. rewrite Hm, lookup_insert. case_decide; [done|]. intros Hts. by destruct (Hfresh t).
    + done.
Qed.

Definition demo_sys : ShmSyscalls := {| sys_shm_open := 5; sys_ftruncate := 0; sys_mmap_ok := true |}.
Definition demo_shm : ShmManager :=
  match create demo_sys with inl s => s | inr _ => mkShmManager 0 0 (mkShmHeader 0 0 0 0 0 0) ∅ ∅ (new 0) end.

Lemma alloc_slot_correct_witness :
  exists s' o, alloc_slot demo_shm 36 = Ret (s', o) /\ wf s' /\
    (forall t, t <> 36 -> get_queue s' t = get_queue demo_shm t) /\
    match o with
    | Some slot =>
        get_queue s' 36 = Some (init_at 36) /\ slot_map s' !! 36 = Some slot /\
        (forall t, slot_map s' !! t = Some slot -> t = 36) /\
        (forall old, slot_map demo_shm !! 36 = Some old -> slot = old)
    | None => s' = demo_shm /\ slot_map demo_shm !! 36 = None /\
        forall slot, 0 <= slot < MAX_THREADS -> exists t, slot_map demo_shm !! t = Some slot
    end.
Proof. apply (alloc_slot_correct demo_shm 36). apply (create_wf demo_sys). reflexivity. Defined.

(** [free_slot] never panics, makes the thread's slot available again, keeps
    the other threads' queues, and never triggers the double-remove hazard of the
    slab: the invariant, under which only live slots are removed, is preserved. *)
Theorem free_slot_correct s tid :
  wf s ->
  exists s', free_slot s tid = Ret s' /\ wf s' /\ get_queue s' tid = None /\
    forall t, t <> tid -> get_queue s' t = get_queue s t.
Proof.
  intros Hwf. destruct (free_slot_spec s tid Hwf) as (s' & Hf & Hwf' & Hm & Hq).
  exists s'. split_and!; try done. unfold get_queue. by rewrite Hm, lookup_delete_eq.
Qed.

Lemma free_slot_correct_witness :
  exists s', free_slot demo_shm 36 = Ret s' /\ wf s' /\ get_queue s' 36 = None /\
    forall t, t <> 36 -> get_queue s' t = get_queue demo_shm t.
Proof. apply (free_slot_correct demo_shm 36). apply (create_wf demo_sys). reflexivity. Defined.

(** The bytes [slot_ptr] hands out for a slot below 8192 lie inside the
    mapping and after the header, and two different slots never overlap, so the
    [debug_assert] of [slot_ptr] holds for every slot [alloc_slot] returns. *)
Theorem slot_ptr_in_bounds_disjoint sys s slot1 slot2 :
  create sys = inl s -> 0 <= slot1 < MAX_THREADS -> 0 <= slot2 < MAX_THREADS ->
  HEADER_SIZE <= slot_offset slot1 /\ slot_offset slot1 + THREAD_QUEUE_SIZE <= total_size s /\
  (slot1 <> slot2 ->
   slot_offset slot1 + THREAD_QUEUE_SIZE <= slot_offset slot2 \/
   slot_offset slot2 + THREAD_QUEUE_SIZE <= slot_offset slot1).
Proof.
  unfold create. repeat case_decide; try done. destruct (sys_mmap_ok sys); [|done].
  intros [= <-]. simpl. unfold slot_offset, HEADER_SIZE, MAX_THREADS, THREAD_QUEUE_SIZE.
  intros. split_and!; lia.
Qed.

Lemma slot_ptr_in_bounds_disjoint_witness :
  HEADER_SIZE <= slot_offset 0 /\ slot_offset 0 + THREAD_QUEUE_SIZE <= total_size demo_shm /\
  (0 <> 8191 ->
   slot_offset 0 + THREAD_QUEUE_SIZE <= slot_offset 8191 \/
   slot_offset 8191 + THREAD_QUEUE_SIZE <= slot_offset 0).
Proof.
  apply (slot_ptr_in_bounds_disjoint demo_sys demo_shm 0 8191);
    [reflexivity|unfold MAX_THREADS; lia|unfold MAX_THREADS; lia].
Defined.

End Shm.
