(* ===== verification/Objects.v ===== *)
(** * Handle tables and server state ([src/rust/src/triskelion/objects.rs])

    A process's handle table is a [HeapSlab] of entries plus a reference count
    per Unix descriptor.  [libc::close] is an effect: every operation that may
    call it returns the descriptors it closed, in order. *)

From stdpp Require Import base list gmap.
From S2P Require Import Prelude Slab.
Local Open Scope Z_scope.
Local Open Scope word_scope.
Local Open Scope outcome_scope.

Module HandleTable.
Import HeapSlab.

Record HandleEntry : Type := mkHandleEntry {
  object_id : Z;
  fd : option Z;
  obj_type : Z;
  access : Z;
  options : Z;
}.

Definition entry_new (object_id : Z) : HandleEntry := mkHandleEntry object_id None 0 0 0.
Definition with_fd (object_id fd obj_type access options : Z) : HandleEntry :=
  mkHandleEntry object_id (Some fd) obj_type access options.

Record HandleTable : Type := mkHandleTable {
  slab : HeapSlab HandleEntry;
  fd_refcounts : gmap Z Z;
}.
Implicit Types (t : HandleTable) (e : HandleEntry).

Definition new : HandleTable := mkHandleTable (skip_index_zero with_capacity) ∅.

(** [idx << 2] and [handle >> 2] on [u32]. *)
Definition handle_of (idx : Z) : Z := u32 (Z.shiftl idx 2).
Definition index_of (handle : Z) : Z := Z.shiftr handle 2.

Definition allocate t (object_id : Z) : HandleTable * Z :=
  let '(s, (idx, _)) := insert_bump (slab t) (entry_new object_id) in
  (mkHandleTable s (fd_refcounts t), handle_of idx).

(** [*fd_refcounts.entry(fd).or_insert(0) += 1] *)
Definition incr (m : gmap Z Z) (f : Z) : gmap Z Z := <[f := default 0 (m !! f) +₃₂ 1]> m.
Definition track (m : gmap Z Z) (ofd : option Z) : gmap Z Z :=
  match ofd with Some f => incr m f | None => m end.

Definition allocate_full t e : HandleTable * Z :=
  let refs := track (fd_refcounts t) (fd e) in
  let '(s, (idx, _)) := insert_bump (slab t) e in
  (mkHandleTable s refs, handle_of idx).

Definition any_fd (s : HeapSlab HandleEntry) (f : Z) : bool :=
  existsb (fun e => bool_decide (fd e = Some f)) (iter s).

(** Dropping one reference to [f]; [s] is the slab scanned when [f] is not
    tracked.  Returns the new counts and the descriptors closed. *)
Definition release (s : HeapSlab HandleEntry) (m : gmap Z Z) (f : Z) : gmap Z Z * list Z :=
  match m !! f with
  | Some count =>
      let count' := count -₃₂ 1 in
      if decide (count' = 0) then (delete f m, [f]) else (<[f := count']> m, [])
  | None => (m, if any_fd s f then [] else [f])
  end.

Definition release_opt (s : HeapSlab HandleEntry) (m : gmap Z Z) (ofd : option Z)
    : gmap Z Z * list Z :=
  match ofd with Some f => release s m f | None => (m, []) end.

Definition close t (handle : Z) : outcome (HandleTable * option HandleEntry * list Z) :=
  let idx := index_of handle in
  r <-! remove_unchecked (slab t) idx ;;
  let '(s, oe) := r in
  match oe with
  | None => Ret (mkHandleTable s (fd_refcounts t), None, [])
  | Some e =>
      let '(refs, closed) := release_opt s (fd_refcounts t) (fd e) in
      Ret (mkHandleTable s refs, Some e, closed)
  end.

Definition get t (handle : Z) : option HandleEntry := get_unchecked (slab t) (index_of handle).

Definition slot_count t : nat := capacity (slab t).

Definition get_mut t (handle : Z) (f : HandleEntry -> HandleEntry) : HandleTable :=
  mkHandleTable (get_mut_unchecked (slab t) (index_of handle) f) (fd_refcounts t).

(** [insert_at]: the old entry's reference is dropped while the old entry is
    still in the slab, then the new entry's descriptor is counted. *)
Definition insert_at t (handle : Z) e : outcome (HandleTable * list Z) :=
  let idx := index_of handle in
  let '(refs, closed) :=
    match get_unchecked (slab t) idx with
    | Some old => release_opt (slab t) (fd_refcounts t) (fd old)
    | None => (fd_refcounts t, [])
    end in
  r <-! HeapSlab.insert_at (slab t) idx e ;;
  Ret (mkHandleTable (fst r) (track refs (fd e)), closed).

(** ** Invariant: the counts are the numbers of live entries per descriptor *)
Definition live_map t : gmap nat HandleEntry := abs (slab t).

Definition has_fd (f : Z) (p : nat * HandleEntry) : Prop := fd p.2 = Some f.
#[export] Instance has_fd_dec f p : Decision (has_fd f p).
Proof. unfold has_fd. apply _. Defined.

Definition cnt (m : gmap nat HandleEntry) (f : Z) : nat := size (filter (has_fd f) m).
Definition refs_of (m : gmap nat HandleEntry) (f : Z) : option Z :=
  if decide (cnt m f = 0%nat) then None else Some (Z.of_nat (cnt m f)).

(** Handles stay below 2^32, i.e. indices below 2^30. *)
Definition MAX_HANDLES : Z := 2 ^ 30.

Record wf t : Prop := {
  wf_slab : HeapSlab.wf (slab t);
  wf_refs : forall f, fd_refcounts t !! f = refs_of (live_map t) f;
  wf_small : Z.of_nat (length (slots (slab t))) <= MAX_HANDLES;
  wf_zero : (0 < length (slots (slab t)))%nat;
}.

Lemma index_of_handle idx : 0 <= idx < MAX_HANDLES -> index_of (handle_of idx) = idx.
Proof.
  unfold MAX_HANDLES. intros Hi. unfold index_of, handle_of.
  rewrite Z.shiftl_mul_pow2, Z.shiftr_div_pow2 by lia.
  rewrite u32_small by word_lia. change (2 ^ 2) with 4. by rewrite Z.div_mul by lia.
Qed.

Lemma handle_of_inj i j :
  0 <= i < MAX_HANDLES -> 0 <= j < MAX_HANDLES -> handle_of i = handle_of j -> i = j.
Proof. intros Hi Hj Heq. by rewrite <- (index_of_handle i), <- (index_of_handle j), Heq. Qed.

Lemma index_of_range h : in_u32 h -> 0 <= index_of h < MAX_HANDLES.
Proof.
  intros Hh. unfold index_of, MAX_HANDLES. rewrite Z.shiftr_div_pow2 by lia.
  split; [apply Z.div_pos; word_lia|]. apply Z.div_lt_upper_bound; word_lia.
Qed.

Lemma cnt_insert m i e f :
  m !! i = None -> cnt (<[i := e]> m) f = (cnt m f + if decide (fd e = Some f) then 1 else 0)%nat.
Proof.
  intros Hi. unfold cnt. case_decide as Hd.
  - rewrite map_filter_insert_True by done.
    rewrite map_size_insert_None; [lia|]. by apply map_lookup_filter_None_2; left.
  - rewrite map_filter_insert_False by done. rewrite delete_id by done. lia.
Qed.

Lemma cnt_delete m i e f :
  m !! i = Some e -> cnt m f = (cnt (delete i m) f + if decide (fd e = Some f) then 1 else 0)%nat.
Proof.
  intros Hi. rewrite <- (cnt_insert (delete i m) i e f) by apply lookup_delete_eq.
  by rewrite insert_delete_id.
Qed.

Lemma cnt_le m f : (cnt m f <= size m)%nat.
Proof. unfold cnt. apply map_subseteq_size, map_filter_subseteq. Qed.

Lemma cnt_zero m f : cnt m f = 0%nat <-> forall i e, m !! i = Some e -> fd e <> Some f.
Proof.
  unfold cnt. rewrite map_size_empty_iff. split.
  - intros Hemp i e Hi Hf.
    assert (filter (has_fd f) m !! i = Some e) as Hx by (by apply map_lookup_filter_Some).
    by rewrite Hemp, lookup_empty in Hx.
  - intros Hall. apply map_eq; intros i. rewrite lookup_empty.
    apply eq_None_ne_Some_2. intros e [Hi Hf]%map_lookup_filter_Some. by eapply Hall.
Qed.

Definition refs_ok (refs : gmap Z Z) (m : gmap nat HandleEntry) : Prop :=
  forall f, refs !! f = refs_of m f.

Lemma track_refs_ok refs m i e :
  refs_ok refs m -> m !! i = None -> Z.of_nat (size m) <= MAX_HANDLES ->
  refs_ok (track refs (fd e)) (<[i := e]> m).
Proof.
  intros Hok Hi Hsz f. unfold refs_of. rewrite cnt_insert by done.
  pose proof (cnt_le m f). unfold MAX_HANDLES in Hsz.
  unfold track. destruct (fd e) as [f0|] eqn:Hfd.
  - unfold incr. rewrite lookup_insert. case_decide as Hf.
    + subst f0. rewrite !(decide_True (P := Some f = Some f)) by done. rewrite Hok. unfold refs_of.
      rewrite (decide_False (P := (cnt m f + 1)%nat = 0%nat)) by lia.
      f_equal. case_decide; simpl; rewrite u32_small by word_lia; lia.
    + rewrite !(decide_False (P := Some f0 = Some f)) by congruence.
      rewrite Nat.add_0_r. apply Hok.
  - rewrite !(decide_False (P := None = Some f)) by done. rewrite Nat.add_0_r. apply Hok.
Qed.

(** Dropping the reference of a removed entry closes its descriptor exactly when
    no other live entry has it. *)
Lemma release_ok s refs m i e :
  refs_ok refs m -> m !! i = Some e -> Z.of_nat (size m) <= MAX_HANDLES ->
  exists refs', release_opt s refs (fd e) =
      (refs', match fd e with
              | Some f => if decide (cnt (delete i m) f = 0%nat) then [f] else []
              | None => []
              end) /\ refs_ok refs' (delete i m).
Proof.
  intros Hok Hi Hsz. unfold MAX_HANDLES in Hsz. unfold release_opt.
  assert (forall f, fd e <> Some f -> refs_of m f = refs_of (delete i m) f) as Hother.
  { intros f Hf. unfold refs_of. rewrite (cnt_delete m i e f) by done.
    rewrite (decide_False (P := fd e = Some f)) by done. by rewrite Nat.add_0_r. }
  destruct (fd e) as [f0|] eqn:Hfd.
  2: { exists refs. split; [done|]. intros f. rewrite Hok. by apply Hother. }
  pose proof (cnt_delete m i e f0 Hi) as Hc. rewrite decide_True in Hc by done.
  pose proof (cnt_le m f0).
  unfold release. rewrite (Hok f0). unfold refs_of at 1. rewrite decide_False by lia.
  rewrite u32_small by word_lia.
  case_decide as Hz; rewrite ?decide_True, ?decide_False by lia; eexists; (split; [done|]);
    intros f; destruct (decide (f0 = f)) as [<-|Hne].
  - rewrite lookup_delete_eq. unfold refs_of. by rewrite decide_True by lia.
  - rewrite lookup_delete_ne, Hok by done. apply Hother. congruence.
  - rewrite lookup_insert_eq. unfold refs_of. rewrite decide_False by lia. f_equal. lia.
  - rewrite lookup_insert_ne, Hok by done. apply Hother. congruence.
Qed.

Lemma table_new_wf : wf new.
Proof.
  constructor; [apply skip_index_zero_wf, with_capacity_wf|intros f; reflexivity|..];
    simpl; unfold MAX_HANDLES; lia.
Qed.

Lemma live_size t : HeapSlab.wf (slab t) -> (size (live_map t) <= length (slots (slab t)))%nat.
Proof. intros. apply abs_size_le. Qed.

Lemma allocate_full_spec t e :
  wf t -> Z.of_nat (length (slots (slab t))) < MAX_HANDLES ->
  exists t', allocate_full t e = (t', handle_of (Z.of_nat (length (slots (slab t))))) /\
    wf t' /\ live_map t' = <[length (slots (slab t)) := e]> (live_map t) /\
    length (slots (slab t')) = S (length (slots (slab t))).
Proof.
  intros [Hs Hr Hsm Hz] Hlt. unfold allocate_full.
  pose proof (insert_bump_spec (slab t) e Hs) as Hb.
  destruct (insert_bump (slab t) e) as [s' [idx g]].
  destruct Hb as (Hs' & -> & _ & Hl & Ha); [unfold FREE_END, MAX_HANDLES in *; word_lia|].
  rewrite Nat2Z.id in Ha.
  eexists; split; [done|]. split; [|done].
  constructor; simpl; rewrite ?Hl; try done; try lia.
  unfold live_map; simpl. rewrite Ha. apply track_refs_ok; [done| |].
  - apply abs_fresh. lia.
  - pose proof (abs_size_le (slab t)). unfold live_map. lia.
Qed.

Lemma allocate_is_full t oid : allocate t oid = allocate_full t (entry_new oid).
Proof. done. Qed.

Lemma close_spec t h :
  wf t -> in_u32 h ->
  exists t', wf t' /\ live_map t' = delete (Z.to_nat (index_of h)) (live_map t) /\
    length (slots (slab t')) = length (slots (slab t)) /\
    close t h = Ret (t', get t h,
      match get t h ≫= fd with
      | Some f => if decide (cnt (live_map t') f = 0%nat) then [f] else []
      | None => []
      end).
Proof.
  intros [Hs Hr Hsm Hz] Hh. pose proof (index_of_range h Hh) as Hi.
  unfold close, get. rewrite get_unchecked_abs.
  destruct (remove_unchecked_spec (slab t) (index_of h)) as (s' & -> & Hs' & Ha & Hl & _); [done|lia|].
  cbn [obind]. destruct (abs (slab t) !! Z.to_nat (index_of h)) as [e|] eqn:He; simpl.
  - destruct (release_ok s' (fd_refcounts t) (live_map t) _ e Hr He) as (refs' & -> & Hok).
    { pose proof (live_size t Hs). lia. }
    eexists (mkHandleTable s' refs'). split; [constructor; simpl; rewrite ?Hl; try done|].
    + unfold live_map; simpl. by rewrite Ha.
    + unfold live_map; simpl. split_and!; try done. rewrite Ha. done.
  - exists (mkHandleTable s' (fd_refcounts t)). rewrite delete_id in Ha by done.
    split; [constructor; simpl; rewrite ?Hl; try done|].
    + unfold live_map; simpl. by rewrite Ha.
    + unfold live_map; simpl. by rewrite Ha, delete_id.
Qed.

Lemma table_insert_at_spec t h e :
  wf t -> in_u32 h ->
  exists t', wf t' /\ live_map t' = <[Z.to_nat (index_of h) := e]> (live_map t) /\
    length (slots (slab t')) = (length (slots (slab t)) `max` S (Z.to_nat (index_of h)))%nat /\
    insert_at t h e = Ret (t',
      match get t h ≫= fd with
      | Some f => if decide (cnt (delete (Z.to_nat (index_of h)) (live_map t)) f = 0%nat)
                  then [f] else []
      | None => []
      end).
Proof.
  intros [Hs Hr Hsm Hz] Hh. pose proof (index_of_range h Hh) as Hi.
  pose proof (live_size t Hs) as Hsz. unfold MAX_HANDLES in Hi.
  assert (exists refs', (match get t h with
            | Some old => release_opt (slab t) (fd_refcounts t) (fd old)
            | None => (fd_refcounts t, [])
            end) = (refs', match get t h ≫= fd with
                           | Some f => if decide (cnt (delete (Z.to_nat (index_of h)) (live_map t)) f = 0%nat)
                                       then [f] else []
                           | None => []
                           end) /\
          refs_ok refs' (delete (Z.to_nat (index_of h)) (live_map t))) as (refs' & Hrel & Hok).
  { unfold get. rewrite get_unchecked_abs. fold (live_map t).
    destruct (live_map t !! Z.to_nat (index_of h)) as [old|] eqn:Hold; simpl.
    - destruct (release_ok (slab t) (fd_refcounts t) (live_map t) _ old Hr Hold) as (refs' & -> & Hok);
        [lia|]. by exists refs'.
    - exists (fd_refcounts t). by rewrite delete_id. }
  unfold insert_at. fold (get t h). rewrite Hrel.
  destruct (HeapSlab.heap_insert_at_spec (slab t) (index_of h) e) as (s' & g & -> & Hs' & Ha & Hl);
    [done|unfold FREE_END; word_lia|].
  cbn [obind fst]. eexists (mkHandleTable s' _).
  split; [constructor; simpl; rewrite ?Hl; try done; try (unfold MAX_HANDLES in *; lia)|].
  - unfold live_map; simpl. rewrite Ha, <- insert_delete_eq.
    apply track_refs_ok; [done|apply lookup_delete_eq|].
    pose proof (map_subseteq_size _ _ (delete_subseteq (live_map t) (Z.to_nat (index_of h)))).
    unfold live_map in *. lia.
  - done.
Qed.

(** ** Traces of table operations *)
Inductive table_op : Type :=
| Allocate (oid : Z)
| AllocateFull (e : HandleEntry)
| Close (h : Z)
| InsertAt (h : Z) (e : HandleEntry).

(** The table after the operation, the handle issued (if any), the descriptors
    closed. *)
Definition run_op t (o : table_op) : outcome (HandleTable * list Z * list Z) :=
  match o with
  | Allocate oid => let '(t', h) := allocate t oid in Ret (t', [h], [])
  | AllocateFull e => let '(t', h) := allocate_full t e in Ret (t', [h], [])
  | Close h => r <-! close t h ;; Ret (fst (fst r), [], snd r)
  | InsertAt h e => r <-! insert_at t h e ;; Ret (fst r, [], snd r)
  end.

Fixpoint run_ops t (os : list table_op) : outcome (HandleTable * list Z) :=
  match os with
  | [] => Ret (t, [])
  | o :: os' =>
      r <-! run_op t o ;;
      rs <-! run_ops (fst (fst r)) os' ;;
      Ret (fst rs, snd (fst r) ++ snd rs)
  end.

(** Table size after the operations. *)
Definition slots_after (n : nat) (o : table_op) : nat :=
  match o with
  | Allocate _ | AllocateFull _ => S n
  | Close _ => n
  | InsertAt h _ => (n `max` S (Z.to_nat (index_of h)))%nat
  end.

(** The entries by slot, as a reference: what was last stored and not closed. *)
Definition entries_after (nm : nat * gmap nat HandleEntry) (o : table_op) : nat * gmap nat HandleEntry :=
  (slots_after nm.1 o,
   match o with
   | Allocate oid => <[nm.1 := entry_new oid]> nm.2
   | AllocateFull e => <[nm.1 := e]> nm.2
   | Close h => delete (Z.to_nat (index_of h)) nm.2
   | InsertAt h e => <[Z.to_nat (index_of h) := e]> nm.2
   end).

Definition op_ok (o : table_op) : Prop :=
  match o with
  | Close h | InsertAt h _ => in_u32 h
  | _ => True
  end.

Lemma slots_after_mono n os : (n <= fold_left slots_after os n)%nat.
Proof.
  revert n; induction os as [|o os IH]; intros n; simpl; [done|].
  specialize (IH (slots_after n o)). destruct o; simpl in *; lia.
Qed.

Lemma run_op_spec t o :
  wf t -> op_ok o -> Z.of_nat (slots_after (length (slots (slab t))) o) <= MAX_HANDLES ->
  exists t' hs closed, run_op t o = Ret (t', hs, closed) /\ wf t' /\
    (length (slots (slab t')), live_map t') = entries_after (length (slots (slab t)), live_map t) o /\
    hs = match o with
         | Allocate _ | AllocateFull _ => [handle_of (Z.of_nat (length (slots (slab t))))]
         | _ => []
         end.
Proof.
  intros Hwf Hok Hn. destruct o as [oid|e|h|h e]; cbn [run_op slots_after op_ok] in *.
  - rewrite allocate_is_full.
    destruct (allocate_full_spec t (entry_new oid) Hwf) as (t' & -> & Hwf' & Hm & Hl); [lia|].
    eexists t', _, _. split_and!; [done|done|unfold entries_after; cbn [fst snd slots_after]; by rewrite Hl, Hm|done].
  - destruct (allocate_full_spec t e Hwf) as (t' & -> & Hwf' & Hm & Hl); [lia|].
    eexists t', _, _. split_and!; [done|done|unfold entries_after; cbn [fst snd slots_after]; by rewrite Hl, Hm|done].
  - destruct (close_spec t h Hwf Hok) as (t' & Hwf' & Hm & Hl & ->). eexists t', _, _. split_and!; [done|done|unfold entries_after; cbn [fst snd slots_after]; by rewrite Hl, Hm|done].
  - destruct (table_insert_at_spec t h e Hwf Hok) as (t' & Hwf' & Hm & Hl & ->). eexists t', _, _. split_and!; [done|done|unfold entries_after; cbn [fst snd slots_after]; by rewrite Hl, Hm|done].
Qed.

Definition issued_ok (n : nat) (h : Z) : Prop :=
  exists i, Z.of_nat n <= i < MAX_HANDLES /\ h = handle_of i.

Lemma run_ops_spec t os :
  wf t -> Forall op_ok os ->
  Z.of_nat (fold_left slots_after os (length (slots (slab t)))) <= MAX_HANDLES ->
  exists t' hs, run_ops t os = Ret (t', hs) /\ wf t' /\ NoDup hs /\
    Forall (issued_ok (length (slots (slab t)))) hs /\
    live_map t' = (fold_left entries_after os (length (slots (slab t)), live_map t)).2.
Proof.
  revert t; induction os as [|o os IH]; intros t Hwf Hok Hn; simpl in *.
  { exists t, []. split_and!; try done; constructor. }
  apply Forall_cons in Hok as [Ho Hos].
  pose proof (slots_after_mono (slots_after (length (slots (slab t))) o) os) as Hmono.
  destruct (run_op_spec t o Hwf Ho) as (t1 & hs1 & cl & -> & Hwf1 & He1 & Hh1); [lia|].
  assert (length (slots (slab t1)) = slots_after (length (slots (slab t))) o) as Hl1 by (by injection He1).
  cbn [obind fst snd]. destruct (IH t1) as (t2 & hs2 & -> & Hwf2 & Hnd & Hall & Hm2); [done..|by rewrite Hl1|]. rewrite He1 in Hm2.
  cbn [obind fst snd]. eexists _, _. split; [done|]. split; [done|]. rewrite Hl1 in Hall.
  enough (NoDup (hs1 ++ hs2) /\ Forall (issued_ok (length (slots (slab t)))) (hs1 ++ hs2)) as [? ?] by done. clear Hm2 He1.
  assert (forall n n' h, (n <= n')%nat -> issued_ok n' h -> issued_ok n h) as Hweak.
  { intros n n' h Hle (i & Hi & ->). exists i. split; [lia|done]. }
  assert (Forall (issued_ok (length (slots (slab t)))) hs2) as Hall'.
  { eapply Forall_impl; [exact Hall|]. intros h. apply Hweak. destruct o; simpl; lia. }
  destruct o; subst hs1; simpl in *; (split; [|by try (constructor; [eexists; split; [|done]; lia|])]); try done.
  all: constructor; [|done]; intros Hin;
    destruct (proj1 (Forall_forall _ _) Hall _ Hin) as (i & Hi & Heq);
    apply handle_of_inj in Heq; lia.
Qed.

(** C28: a handle value is issued once, and a lookup finds what was stored.  Along
    every sequence of allocations, closes and [insert_at] calls on a new table, as
    long as it stays below 2^30 slots, no call panics, no handle value is issued
    twice, whatever was closed in between, and every issued handle is a non-zero
    multiple of four; afterwards [get] finds, under every handle value, the entry
    that was last stored there and not closed since, and nothing elsewhere. *)
Theorem handles_never_reused (os : list table_op) :
  Forall op_ok os -> Z.of_nat (fold_left slots_after os 1%nat) <= MAX_HANDLES ->
  exists t hs, run_ops new os = Ret (t, hs) /\ wf t /\ NoDup hs /\
    Forall (fun h => 4 <= h < 2 ^ 32 /\ h mod 4 = 0) hs /\
    forall h, get t h = (fold_left entries_after os (1%nat, ∅)).2 !! Z.to_nat (index_of h).
Proof.
  intros Hok Hn. destruct (run_ops_spec new os) as (t & hs & Hr & Hwf & Hnd & Hall & Hm);
    [apply table_new_wf|done|done|].
  exists t, hs. split_and!; try done.
  - eapply Forall_impl; [exact Hall|].
    intros h (i & Hi & ->). simpl in Hi. unfold handle_of, MAX_HANDLES in *.
    rewrite Z.shiftl_mul_pow2 by lia. rewrite u32_small by word_lia.
    split; [word_lia|]. change (2 ^ 2) with 4. by rewrite Z.mod_mul by lia.
  - intros h. unfold get. rewrite get_unchecked_abs. fold (live_map t). by rewrite Hm.
Qed.

Definition demo_ops : list table_op :=
  [Allocate 4096; AllocateFull (with_fd 4097 9 1 0 0); Close 4; Allocate 4098;
   InsertAt 40 (with_fd 4099 9 1 0 0); Close 8; Allocate 4100].

Lemma handles_never_reused_witness :
  exists t hs, run_ops new demo_ops = Ret (t, hs) /\ wf t /\ NoDup hs /\
    Forall (fun h => 4 <= h < 2 ^ 32 /\ h mod 4 = 0) hs /\
    forall h, get t h = (fold_left entries_after demo_ops (1%nat, ∅)).2 !! Z.to_nat (index_of h).
Proof.
  apply (handles_never_reused demo_ops).
  - repeat constructor; vm_compute; congruence.
  - vm_compute. congruence.
Defined.

Example demo_run : exists t, run_ops new demo_ops = Ret (t, [4; 8; 12; 44]).
Proof. eexists. vm_compute. reflexivity. Qed.

(** The descriptor list of a close, read as a set. *)
Lemma closed_elem (o : option HandleEntry) (m : gmap nat HandleEntry) f :
  f ∈ match o ≫= fd with Some f0 => if decide (cnt m f0 = 0%nat) then [f0] else [] | None => [] end <->
  (exists e, o = Some e /\ fd e = Some f) /\ (forall i e, m !! i = Some e -> fd e <> Some f).
Proof.
  destruct o as [e|]; simpl; [|split; [set_solver|intros [(? & ? & _) _]; done]].
  destruct (fd e) as [f0|] eqn:Hf0; [case_decide as Hz|].
  - rewrite list_elem_of_singleton. split.
    + intros ->. split; [eauto|]. by apply cnt_zero.
    + intros [(e' & [= <-] & Hf) _]. congruence.
  - split; [set_solver|]. intros [(e' & [= <-] & Hf) Hno]. exfalso. apply Hz, cnt_zero. by simplify_eq.
  - split; [set_solver|]. intros [(e' & [= <-] & Hf) _]. congruence.
Qed.

(** In a well-formed table [close] removes exactly the named entry, returns
    it, and calls [libc::close] on its descriptor exactly when no other live
    entry refers to that descriptor; the counts stay exact. *)
Theorem close_closes_last_reference t h :
  wf t -> in_u32 h ->
  exists t' closed, close t h = Ret (t', get t h, closed) /\ wf t' /\
    live_map t' = delete (Z.to_nat (index_of h)) (live_map t) /\
    forall f, f ∈ closed <->
      (exists e, get t h = Some e /\ fd e = Some f) /\
      (forall i e, live_map t' !! i = Some e -> fd e <> Some f).
Proof.
  intros Hwf Hh. destruct (close_spec t h Hwf Hh) as (t' & Hwf' & Hl & _ & Hc).
  eexists t', _. split; [exact Hc|]. split_and!; [done..|]. intros f. apply closed_elem.
Qed.

Lemma close_closes_last_reference_witness :
  exists t' closed, close new 4 = Ret (t', get new 4, closed) /\ wf t' /\
    live_map t' = delete (Z.to_nat (index_of 4)) (live_map new) /\
    forall f, f ∈ closed <->
      (exists e, get new 4 = Some e /\ fd e = Some f) /\
      (forall i e, live_map t' !! i = Some e -> fd e <> Some f).
Proof. apply (close_closes_last_reference new 4); [apply table_new_wf|vm_compute; split; congruence]. Defined.

(** The disconnect path of the named-pipe ioctl: the server end of the pipe is
    replaced through [get_mut], closing the old descriptor without touching
    [fd_refcounts]. *)
Definition replace_pipe_fd t (handle new_fd : Z) : HandleTable * list Z :=
  match get t handle with
  | Some entry =>
      (get_mut t handle (fun e => mkHandleEntry (object_id e) (Some new_fd) (obj_type e)
                                    (access e) (options e)),
       match fd entry with Some old_fd => [old_fd] | None => [] end)
  | None => (t, [])
  end.

(** Replacing a descriptor through [get_mut] leaves a stale count for the
    old one.  When the kernel hands the old number out again, closing the only
    handle that owns it does not close it: the descriptor leaks. *)
Theorem pipe_replace_leaks_reused_fd :
  let '(t1, hp) := allocate_full new (with_fd 4096 7 5 0 0) in
  let '(t2, closed) := replace_pipe_fd t1 hp 9 in
  let '(t3, h) := allocate_full t2 (with_fd 4097 7 1 0 0) in
  closed = [7] /\
  exists t4 e, close t3 h = Ret (t4, Some e, []) /\ fd e = Some 7 /\ cnt (live_map t4) 7 = 0%nat.
Proof.
  vm_compute. split; [reflexivity|]. eexists _, _. split; [reflexivity|]. split; reflexivity.
Qed.

(** [insert_at] drops the overwritten entry's reference before counting the
    new entry's, so overwriting the only holder of a descriptor with an entry for
    the same descriptor closes it and then stores it as live. *)
Theorem insert_at_same_fd_closes_stored_fd :
  let e := with_fd 4096 7 1 0 0 in
  let '(t1, h) := allocate_full new e in
  exists t2, insert_at t1 h e = Ret (t2, [7]) /\ get t2 h = Some e.
Proof. vm_compute. eexists. split; reflexivity. Qed.

End HandleTable.

(** ** Global server state *)
Module ServerState.

Record MappingInfo : Type := mkMappingInfo {
  map_fd : Z; map_size : Z; map_flags : Z;
  pe_image_info : option (list Z); nt_name : option (list Z); shared_fd : option Z;
}.

(** [Drop for MappingInfo]: the descriptors closed. *)
Definition drop_mapping (mi : MappingInfo) : list Z :=
  (if decide (0 <= map_fd mi) then [map_fd mi] else []) ++
  match shared_fd mi with
  | Some sfd => if decide (0 <= sfd) then [sfd] else []
  | None => []
  end.

Record Process : Type := mkProcess {
  handles : HandleTable.HandleTable;
  threads : list Z;
  startup_info : option (list Z);
  startup_env : option (list Z);
  info_size : Z;
  machine : Z;
  startup_done : bool;
  claimed : bool;
  exit_code : Z;
  socket_fd : option Z;
  peb : Z;
  exe_image_info : option (list Z);
  idle_signaled : bool;
  parent_pid : Z;
  session_id : Z;
}.

Definition process_new : Process :=
  mkProcess HandleTable.new [] None None 0 0x8664 false false 259 None 0 None false 0 1.

Definition push_thread (p : Process) (tid : Z) : Process :=
  mkProcess (handles p) (threads p ++ [tid]) (startup_info p) (startup_env p) (info_size p)
    (machine p) (startup_done p) (claimed p) (exit_code p) (socket_fd p) (peb p)
    (exe_image_info p) (idle_signaled p) (parent_pid p) (session_id p).

Record Thread : Type := mkThread { pid : Z; suspend_count : Z }.
Definition thread_new (pid : Z) : Thread := mkThread pid 0.

(** The id-allocating part of [ServerState]; the atom table is in [Atoms]. *)
Record ServerState : Type := mkServerState {
  processes : gmap Z Process;
  all_threads : gmap Z Thread;
  next_ptid : Z;
  next_object_id : Z;
}.
Implicit Types (st : ServerState).

Definition new : ServerState := mkServerState ∅ ∅ 0 0x1000.

Definition alloc_object_id st : ServerState * Z :=
  (mkServerState (processes st) (all_threads st) (next_ptid st) (u64 (next_object_id st + 1)),
   next_object_id st).

Definition PTID_OFFSET : Z := 8.

(** [alloc_ptid]: the counter after the call and the id. *)
Definition alloc_ptid (index : Z) : Z * Z := (index +₃₂ 1, u32 (u32 (index + PTID_OFFSET) * 4)).

Definition create_process st : ServerState * Z :=
  let '(n, pid) := alloc_ptid (next_ptid st) in
  (mkServerState (<[pid := process_new]> (processes st)) (all_threads st) n (next_object_id st), pid).

Definition create_thread st (pid : Z) : ServerState * Z :=
  let '(n, tid) := alloc_ptid (next_ptid st) in
  let procs := alter (fun p => push_thread p tid) pid (processes st) in
  (mkServerState procs (<[tid := thread_new pid]> (all_threads st)) n (next_object_id st), tid).

(** ids are allocated from one counter *)
Definition ptid_of (i : Z) : Z := (i + PTID_OFFSET) * 4.
Definition PTID_LIMIT : Z := 2 ^ 30 - PTID_OFFSET.

Definition is_ptid (n id : Z) : Prop := exists i, 0 <= i < n /\ id = ptid_of i.

Record wf st : Prop := {
  wf_next : 0 <= next_ptid st <= PTID_LIMIT;
  wf_procs : forall p x, processes st !! p = Some x -> is_ptid (next_ptid st) p;
  wf_threads : forall t x, all_threads st !! t = Some x -> is_ptid (next_ptid st) t;
  wf_disj : forall i x y, processes st !! i = Some x -> all_threads st !! i = Some y -> False;
  wf_member : forall p x t, processes st !! p = Some x -> t ∈ threads x ->
                exists th, all_threads st !! t = Some th /\ pid th = p;
}.

Lemma alloc_ptid_spec n :
  0 <= n < PTID_LIMIT -> alloc_ptid n = (n + 1, ptid_of n).
Proof.
  unfold PTID_LIMIT, alloc_ptid, ptid_of, PTID_OFFSET. intros Hn.
  rewrite (u32_small (n + 8)), (u32_small (n + 1)), u32_small by word_lia. done.
Qed.

Lemma is_ptid_mono n n' id : n <= n' -> is_ptid n id -> is_ptid n' id.
Proof. intros Hle (i & Hi & ->). exists i. split; [lia|done]. Qed.

Lemma is_ptid_fresh n : ~ is_ptid n (ptid_of n).
Proof. intros (i & Hi & Heq). unfold ptid_of in Heq. lia. Qed.

Lemma state_new_wf : wf new.
Proof. constructor; simpl; done. Qed.

Lemma create_process_wf st :
  wf st -> next_ptid st < PTID_LIMIT -> wf (create_process st).1.
Proof.
  intros [Hn Hp Ht Hd Hm] Hlt. unfold create_process. rewrite alloc_ptid_spec by lia.
  assert (processes st !! ptid_of (next_ptid st) = None) as Hfp.
  { apply eq_None_ne_Some_2. intros x Hx%Hp. by apply is_ptid_fresh in Hx. }
  assert (all_threads st !! ptid_of (next_ptid st) = None) as Hft.
  { apply eq_None_ne_Some_2. intros x Hx%Ht. by apply is_ptid_fresh in Hx. }
  constructor; simpl.
  - lia.
  - intros p x. rewrite lookup_insert. case_decide as He.
    + intros _. subst. exists (next_ptid st). split; [lia|done].
    + intros Hx%Hp. eapply is_ptid_mono; [|done]. lia.
  - intros t x Hx%Ht. eapply is_ptid_mono; [|done]. lia.
  - intros i x y. rewrite lookup_insert. case_decide as He; [|by apply Hd]. subst. congruence.
  - intros p x t. rewrite lookup_insert. case_decide as He; [|by apply Hm].
    intros [= <-]. simpl. set_solver.
Qed.

Lemma create_thread_wf st p :
  wf st -> next_ptid st < PTID_LIMIT -> wf (create_thread st p).1.
Proof.
  intros [Hn Hp Ht Hd Hm] Hlt. unfold create_thread. rewrite alloc_ptid_spec by lia.
  assert (all_threads st !! ptid_of (next_ptid st) = None) as Hft.
  { apply eq_None_ne_Some_2. intros x Hx%Ht. by apply is_ptid_fresh in Hx. }
  constructor; simpl.
  - lia.
  - intros q x [Heq|[Hne Hx]]%lookup_alter_Some.
    + destruct Heq as (-> & y & Hy%Hp & _). eapply is_ptid_mono; [|done]. lia.
    + apply Hp in Hx. eapply is_ptid_mono; [|done]. lia.
  - intros t x. rewrite lookup_insert. case_decide as He.
    + intros _. subst. exists (next_ptid st). split; [lia|done].
    + intros Hx%Ht. eapply is_ptid_mono; [|done]. lia.
  - intros i x y Hx. rewrite lookup_insert.
    assert (exists x', processes st !! i = Some x') as [x' Hx'].
    { apply lookup_alter_Some in Hx as [(-> & y' & Hy & _)|[_ Hx]]; eauto. }
    case_decide as He; [|by apply (Hd i x')]. intros _. subst i.
    apply Hp in Hx'. by apply is_ptid_fresh in Hx'.
  - intros q x t Hx Hin. rewrite lookup_insert.
    apply lookup_alter_Some in Hx as [(-> & y & Hy & ->)|[Hne Hx]]; simpl in *.
    + apply elem_of_app in Hin as [Hin|Hin]; [|apply list_elem_of_singleton in Hin as ->].
      * destruct (Hm _ _ _ Hy Hin) as (th & Hth & Hpid). case_decide; [congruence|eauto].
      * rewrite decide_True by done. by eexists.
    + destruct (Hm _ _ _ Hx Hin) as (th & Hth & Hpid). case_decide; [congruence|eauto].
Qed.

(** Process and thread ids come from one space and are never confused: for
    any sequence of process and thread creations below 2^30 ids, each new id is a
    multiple of four of at least 32 (so Wine's [(id >> 2) - 1] cannot underflow),
    is not the id of any existing process or thread, and every thread listed in a
    process is registered with that process as its owner. *)
Theorem ptids_unique_and_aligned st p :
  wf st -> next_ptid st < PTID_LIMIT ->
  (let '(st', id) := create_process st in
   wf st' /\ 32 <= id < 2 ^ 32 /\ id mod 4 = 0 /\ processes st !! id = None /\ all_threads st !! id = None) /\
  (let '(st', id) := create_thread st p in
   wf st' /\ 32 <= id < 2 ^ 32 /\ id mod 4 = 0 /\ processes st !! id = None /\ all_threads st !! id = None /\
   all_threads st' !! id = Some (thread_new p)).
Proof.
  intros Hwf Hlt. pose proof (create_process_wf st Hwf Hlt) as H1.
  pose proof (create_thread_wf st p Hwf Hlt) as H2.
  pose proof Hwf as [Hn Hp Ht Hd Hm].
  unfold create_process, create_thread in *. rewrite alloc_ptid_spec in * by lia. simpl in *.
  assert (32 <= ptid_of (next_ptid st) < 2 ^ 32 /\ ptid_of (next_ptid st) mod 4 = 0) as [? ?].
  { unfold ptid_of, PTID_LIMIT, PTID_OFFSET in *. split; [lia|by rewrite Z.mod_mul by lia]. }
  assert (processes st !! ptid_of (next_ptid st) = None).
  { apply eq_None_ne_Some_2. intros x Hx%Hp. by apply is_ptid_fresh in Hx. }
  assert (all_threads st !! ptid_of (next_ptid st) = None).
  { apply eq_None_ne_Some_2. intros x Hx%Ht. by apply is_ptid_fresh in Hx. }
  split; split_and!; try done; try lia. by rewrite lookup_insert_eq.
Qed.

Lemma ptids_unique_and_aligned_witness :
  (let '(st', id) := create_process new in
   wf st' /\ 32 <= id < 2 ^ 32 /\ id mod 4 = 0 /\ processes new !! id = None /\ all_threads new !! id = None) /\
  (let '(st', id) := create_thread new 32 in
   wf st' /\ 32 <= id < 2 ^ 32 /\ id mod 4 = 0 /\ processes new !! id = None /\ all_threads new !! id = None /\
   all_threads st' !! id = Some (thread_new 32)).
Proof. apply (ptids_unique_and_aligned new 32); [apply state_new_wf|vm_compute; reflexivity]. Defined.

End ServerState.
