(* ===== verification/SideTables.v ===== *)
(** * Per-handle side tables ([src/rust/src/triskelion/event_loop/side_tables.rs])

    Four tables keyed by (pid, handle).  [purge] (one handle) and [purge_pid]
    (a whole process) are the cleanup contract; both return the pipe descriptors
    they close. *)

From stdpp Require Import base list gmap.
From S2P Require Import Prelude.
Local Open Scope Z_scope.

Module SideTables.

Record PipeHandle : Type := mkPipeHandle { data_fd : Z }.

Record HandleSideTables : Type := mkTables {
  pipe_handles : gmap (Z * Z) PipeHandle;
  io_wait_handles : gmap (Z * Z) Z;
  fd_sent : gset (Z * Z);
  completion_bindings : gmap (Z * Z) (Z * Z);
}.
Implicit Types (t : HandleSideTables) (k : Z * Z).

Definition new : HandleSideTables := mkTables ∅ ∅ ∅ ∅.

Definition purge t (pid handle : Z) : HandleSideTables * option Z * list Z :=
  let key := (pid, handle) in
  let closed := match pipe_handles t !! key with Some ph => [data_fd ph] | None => [] end in
  (mkTables (delete key (pipe_handles t)) (delete key (io_wait_handles t))
     (fd_sent t ∖ {[key]}) (delete key (completion_bindings t)),
   io_wait_handles t !! key, closed).

(** [retain(|(p, _)| *p != pid)] *)
Definition retain_pid {V} (pid : Z) (m : gmap (Z * Z) V) : gmap (Z * Z) V :=
  filter (fun kv => kv.1.1 <> pid) m.

Definition dead_pipe_keys t (pid : Z) : list (Z * Z) :=
  filter (fun k => k.1 = pid) (map_to_list (pipe_handles t)).*1.

(** The removal loop over [dead_pipe_keys]. *)
Fixpoint remove_pipes (keys : list (Z * Z)) (m : gmap (Z * Z) PipeHandle)
    : gmap (Z * Z) PipeHandle * list Z :=
  match keys with
  | [] => (m, [])
  | key :: keys' =>
      match m !! key with
      | Some ph => let '(m', closed) := remove_pipes keys' (delete key m) in (m', data_fd ph :: closed)
      | None => remove_pipes keys' m
      end
  end.

Definition purge_pid t (pid : Z) : HandleSideTables * list Z :=
  let '(pipes, closed) := remove_pipes (dead_pipe_keys t pid) (pipe_handles t) in
  (mkTables pipes (retain_pid pid (io_wait_handles t))
     (filter (fun k => k.1 <> pid) (fd_sent t)) (retain_pid pid (completion_bindings t)), closed).

(** Restriction of the tables to one key: what a handle's state is. *)
Definition at_key t k : option PipeHandle * option Z * bool * option (Z * Z) :=
  (pipe_handles t !! k, io_wait_handles t !! k, bool_decide (k ∈ fd_sent t), completion_bindings t !! k).

Definition no_state : option PipeHandle * option Z * bool * option (Z * Z) := (None, None, false, None).

Lemma retain_pid_lookup {V} (pid : Z) (m : gmap (Z * Z) V) k :
  retain_pid pid m !! k = if decide (k.1 = pid) then None else m !! k.
Proof.
  unfold retain_pid. case_decide as Hd.
  - apply map_lookup_filter_None_2. right. intros x _ Hne. by apply Hne.
  - destruct (m !! k) as [x|] eqn:Hx.
    + by apply map_lookup_filter_Some_2.
    + apply map_lookup_filter_None_2. by left.
Qed.

Lemma remove_pipes_spec keys m :
  NoDup keys -> (forall k, k ∈ keys -> is_Some (m !! k)) ->
  let '(m', closed) := remove_pipes keys m in
  (forall k, m' !! k = if decide (k ∈ keys) then None else m !! k) /\
  closed = omap (fun k => data_fd <$> m !! k) keys.
Proof.
  revert m; induction keys as [|key keys IH]; intros m Hnd Hin; cbn [remove_pipes].
  { split; [|done]. intros k. by rewrite decide_False by apply not_elem_of_nil. }
  apply NoDup_cons in Hnd as [Hnin Hnd].
  destruct (Hin key) as [ph Hph]; [set_solver|]. rewrite Hph.
  specialize (IH (delete key m) Hnd). destruct (remove_pipes keys (delete key m)) as [m' closed].
  destruct IH as [Hm ->].
  { intros k Hk. rewrite lookup_delete_ne by (intros ->; done). apply Hin. set_solver. }
  split.
  - intros k. rewrite Hm. destruct (decide (k = key)) as [->|Hne].
    + rewrite lookup_delete_eq. rewrite (decide_True (P := key ∈ key :: keys)) by set_solver.
      by case_decide.
    + rewrite lookup_delete_ne by done. destruct (decide (k ∈ keys)).
      * by rewrite decide_True by set_solver.
      * by rewrite decide_False by set_solver.
  - simpl. rewrite Hph. simpl. f_equal. apply list_omap_ext, Forall2_same_length_lookup. split; [done|].
    intros i x y Hx Hy. assert (x = y) as -> by congruence.
    rewrite lookup_delete_ne; [done|]. intros ->. by apply Hnin, (list_elem_of_lookup_2 _ i).
Qed.

Lemma dead_pipe_keys_spec t pid k :
  k ∈ dead_pipe_keys t pid <-> k.1 = pid /\ is_Some (pipe_handles t !! k).
Proof.
  unfold dead_pipe_keys. rewrite list_elem_of_filter, list_elem_of_fmap. split.
  - intros [Hp ([k' v] & -> & Hv%elem_of_map_to_list)]. simpl. eauto.
  - intros [Hp [v Hv]]. split; [done|]. exists (k, v). split; [done|]. by apply elem_of_map_to_list.
Qed.

Lemma dead_pipe_keys_NoDup t pid : NoDup (dead_pipe_keys t pid).
Proof. apply NoDup_filter, NoDup_fst_map_to_list. Qed.

(** [purge] erases all side state of exactly the one (pid, handle), reports
    the wait handle that was cached for it, and closes its pipe descriptor if
    it had one. *)
Lemma purge_spec t pid handle :
  let '(t', io, closed) := purge t pid handle in
  at_key t' (pid, handle) = no_state /\
  (forall k, k <> (pid, handle) -> at_key t' k = at_key t k) /\
  io = io_wait_handles t !! (pid, handle) /\
  closed = option_list (data_fd <$> pipe_handles t !! (pid, handle)).
Proof.
  unfold purge, at_key, no_state; simpl. split_and!.
  - rewrite !lookup_delete_eq. rewrite bool_decide_false by set_solver. done.
  - intros k Hk. rewrite !lookup_delete_ne by done.
    rewrite (bool_decide_ext (k ∈ fd_sent t ∖ {[(pid, handle)]}) (k ∈ fd_sent t)) by set_solver. done.
  - done.
  - by destruct (pipe_handles t !! (pid, handle)).
Qed.

(** [purge_pid] erases all side state of every handle of the process, leaves
    the other processes' state untouched, and closes each of its pipe
    descriptors exactly once. *)
Lemma purge_pid_spec t pid :
  let '(t', closed) := purge_pid t pid in
  (forall h, at_key t' (pid, h) = no_state) /\
  (forall k, k.1 <> pid -> at_key t' k = at_key t k) /\
  closed ≡ₚ (fun kv => data_fd kv.2) <$> filter (fun kv => kv.1.1 = pid) (map_to_list (pipe_handles t)).
Proof.
  unfold purge_pid.
  pose proof (remove_pipes_spec (dead_pipe_keys t pid) (pipe_handles t)) as Hrm.
  destruct (remove_pipes (dead_pipe_keys t pid) (pipe_handles t)) as [pipes closed].
  destruct Hrm as [Hm ->].
  { apply dead_pipe_keys_NoDup. }
  { intros k [_ Hk]%dead_pipe_keys_spec. done. }
  assert (forall k, pipes !! k = if decide (k.1 = pid) then None else pipe_handles t !! k) as Hp.
  { intros k. rewrite Hm. destruct (decide (k ∈ dead_pipe_keys t pid)) as [Hd|Hd];
      pose proof (dead_pipe_keys_spec t pid k) as Hs.
    - apply Hs in Hd as [Hd _]. by rewrite decide_True.
    - case_decide as Hk; [|done]. destruct (pipe_handles t !! k) eqn:E; [|done].
      exfalso. apply Hd, Hs. eauto. }
  unfold at_key, no_state; simpl. split_and!.
  - intros h. rewrite Hp, !retain_pid_lookup. simpl. rewrite !decide_True by done.
    rewrite bool_decide_false by set_solver. done.
  - intros k Hk. rewrite Hp, !retain_pid_lookup, !decide_False by done.
    rewrite (bool_decide_ext (k ∈ filter (fun k => k.1 <> pid) (fd_sent t)) (k ∈ fd_sent t)) by set_solver.
    done.
  - unfold dead_pipe_keys.
    assert (forall l, (forall kv, kv ∈ l -> pipe_handles t !! kv.1 = Some kv.2) ->
              omap (fun k => data_fd <$> pipe_handles t !! k) (filter (fun k => k.1 = pid) l.*1)
              = (fun kv => data_fd kv.2) <$> filter (fun kv => kv.1.1 = pid) l) as Hl.
    { induction l as [|[k v] l IH]; intros Hkv; [done|].
      rewrite fmap_cons. cbn [fst]. pose proof (Hkv (k, v) ltac:(left)) as Hv.
      specialize (IH (fun kv H => Hkv kv (list_elem_of_further _ _ _ H))).
      destruct (decide (k.1 = pid)).
      - rewrite !filter_cons_True by done. rewrite fmap_cons, <- IH. simpl in *. by rewrite Hv.
      - rewrite !filter_cons_False by done. done. }
    rewrite Hl; [done|]. intros [k v] Hkv. by apply elem_of_map_to_list.
Qed.

End SideTables.
