(* ===== verification/SentMessages.v ===== *)
(** * Cross-process SendMessage tracking ([src/rust/src/triskelion/sent_messages.rs])

    In-flight messages are a stack per receiver; reply observations build a
    profile per message code that decides whether later sends may skip tracking.
    The confidence is a binary64 quotient; division and comparison are modelled
    exactly on the integers ([F64]) and shown to agree with the rational test
    "at least 90 per cent". *)

From stdpp Require Import base list gmap.
From S2P Require Import Prelude.
Local Open Scope Z_scope.
Local Open Scope word_scope.

(** ** binary64 quotients of [u32] values

    A positive finite double is [m / 2^k] with [2^52 <= m <= 2^53]; [div n d] is
    the correctly rounded (ties to even) quotient of [n, d > 0].  For [u32]
    operands the result is always in the normal range. *)
Module F64.

Definition round_even (num den : Z) : Z :=
  let q := num / den in
  let r := num mod den in
  if 2 * r <? den then q else if den <? 2 * r then q + 1 else if Z.even q then q else q + 1.

Definition exponent (n d : Z) : Z :=
  let e := Z.log2 n - Z.log2 d in
  if d * 2 ^ Z.max e 0 <=? n * 2 ^ Z.max (- e) 0 then e else e - 1.

(** [(m, k)] standing for [m / 2^k]; zero is [(0, 0)]. *)
Definition div (n d : Z) : Z * Z :=
  if decide (n = 0) then (0, 0)
  else let k := 52 - exponent n d in (round_even (n * 2 ^ k) d, k).

(** The literal [0.90]: the double nearest to 9/10 is 8106479329266893 / 2^53. *)
Definition c0_90 : Z * Z := (8106479329266893, 53).

Definition geb (a b : Z * Z) : bool := b.1 * 2 ^ a.2 <=? a.1 * 2 ^ b.2.

Lemma round_even_bounds num den :
  0 < den -> 2 * num - den <= 2 * den * round_even num den <= 2 * num + den.
Proof.
  intros Hd. unfold round_even. pose proof (Z.div_mod num den ltac:(lia)) as Hdm.
  pose proof (Z.mod_pos_bound num den Hd).
  destruct (Z.ltb_spec (2 * (num mod den)) den);
    [|destruct (Z.ltb_spec den (2 * (num mod den))); [|destruct (Z.even _)]]; nia.
Qed.

Lemma exponent_spec n d :
  0 < n < 2 ^ 32 -> 0 < d < 2 ^ 32 ->
  -32 <= exponent n d <= 32 /\
  d * 2 ^ (32 + exponent n d) <= n * 2 ^ 32 < d * 2 ^ (33 + exponent n d).
Proof.
  intros Hn Hd. unfold exponent.
  pose proof (Z.log2_spec n ltac:(lia)) as [Hn1 Hn2]. pose proof (Z.log2_spec d ltac:(lia)) as [Hd1 Hd2].
  pose proof (Z.log2_nonneg n). pose proof (Z.log2_nonneg d).
  assert (Z.log2 n < 32) by (apply Z.log2_lt_pow2; lia).
  assert (Z.log2 d < 32) by (apply Z.log2_lt_pow2; lia).
  set (a := Z.log2 n) in *. set (b := Z.log2 d) in *.
  assert (d * 2 ^ (31 + (a - b)) < n * 2 ^ 32) as Hlo.
  { apply Z.lt_le_trans with (2 ^ Z.succ b * 2 ^ (31 + (a - b))).
    - apply Z.mul_lt_mono_pos_r; [apply Z.pow_pos_nonneg; lia|done].
    - rewrite <- Z.pow_add_r by lia. replace (Z.succ b + (31 + (a - b))) with (a + 32) by lia.
      rewrite Z.pow_add_r by lia. apply Z.mul_le_mono_nonneg_r; lia. }
  assert (n * 2 ^ 32 < d * 2 ^ (33 + (a - b))) as Hhi.
  { apply Z.lt_le_trans with (2 ^ Z.succ a * 2 ^ 32).
    - apply Z.mul_lt_mono_pos_r; [lia|done].
    - rewrite <- Z.pow_add_r by lia. replace (Z.succ a + 32) with (b + (33 + (a - b))) by lia.
      rewrite Z.pow_add_r by lia. apply Z.mul_le_mono_nonneg_r; [apply Z.pow_nonneg; lia|done]. }
  assert (d * 2 ^ Z.max (a - b) 0 <= n * 2 ^ Z.max (- (a - b)) 0 <->
          d * 2 ^ (32 + (a - b)) <= n * 2 ^ 32) as Hcmp.
  { destruct (Z.le_ge_cases 0 (a - b)).
    - rewrite Z.max_l, (Z.max_r (- (a - b))) by lia. rewrite Z.add_comm, Z.pow_add_r by lia.
      rewrite Z.mul_assoc. change (2 ^ 0) with 1. rewrite Z.mul_1_r. nia.
    - rewrite Z.max_r, (Z.max_l (- (a - b))) by lia.
      replace (n * 2 ^ 32) with (n * 2 ^ (- (a - b)) * 2 ^ (32 + (a - b)))
        by (rewrite <- Z.mul_assoc, <- Z.pow_add_r by lia; repeat f_equal; lia).
      change (2 ^ 0) with 1. rewrite Z.mul_1_r.
      apply Z.mul_le_mono_pos_r. apply Z.pow_pos_nonneg; lia. }
  destruct (Z.leb_spec (d * 2 ^ Z.max (a - b) 0) (n * 2 ^ Z.max (- (a - b)) 0)) as [Hle|Hgt].
  - split; [lia|]. split; [by apply Hcmp|done].
  - split; [lia|]. replace (32 + (a - b - 1)) with (31 + (a - b)) by lia.
    replace (33 + (a - b - 1)) with (32 + (a - b)) by lia. split; [lia|].
    apply Z.lt_nge. rewrite <- Hcmp. lia.
Qed.

(** The scaled numerator lies in one binade above the denominator. *)
Lemma scaled_bounds n d :
  0 < n < 2 ^ 32 -> 0 < d < 2 ^ 32 ->
  d * 2 ^ 52 <= n * 2 ^ (52 - exponent n d) < d * 2 ^ 53.
Proof.
  intros Hn Hd. destruct (exponent_spec n d Hn Hd) as (He & Hlo & Hhi).
  set (e := exponent n d) in *.
  assert (0 < 2 ^ (32 + e)) by (apply Z.pow_pos_nonneg; lia).
  assert (n * 2 ^ (52 - e) * 2 ^ (32 + e) = n * 2 ^ 32 * 2 ^ 52) as Heq.
  { rewrite <- !Z.mul_assoc, <- !Z.pow_add_r by lia. f_equal. f_equal. lia. }
  split.
  - apply (Z.mul_le_mono_pos_r _ _ (2 ^ (32 + e))); [done|]. rewrite Heq.
    replace (d * 2 ^ 52 * 2 ^ (32 + e)) with (d * 2 ^ (32 + e) * 2 ^ 52) by ring.
    by apply Z.mul_le_mono_nonneg_r.
  - apply (Z.mul_lt_mono_pos_r (2 ^ (32 + e))); [done|]. rewrite Heq.
    replace (33 + e) with (32 + e + 1) in Hhi by lia. rewrite Z.pow_add_r in Hhi by lia.
    replace (d * 2 ^ 53 * 2 ^ (32 + e)) with (d * (2 ^ (32 + e) * 2 ^ 1) * 2 ^ 52) by ring.
    by apply Z.mul_lt_mono_pos_r.
Qed.

(** The computed test is the exact one: 10 n >= 9 d. *)
Lemma geb_div_90 n d :
  0 <= n < 2 ^ 32 -> 0 < d < 2 ^ 32 -> geb (div n d) c0_90 = (9 * d <=? 10 * n).
Proof.
  intros Hn Hd. unfold geb, div, c0_90. case_decide as H0.
  { subst. cbn [fst snd]. symmetry. apply Z.leb_gt. lia. }
  cbn [fst snd]. pose proof (exponent_spec n d ltac:(lia) Hd) as (He & Hlo & Hhi).
  pose proof (scaled_bounds n d ltac:(lia) Hd) as [Hs1 Hs2].
  pose proof (round_even_bounds (n * 2 ^ (52 - exponent n d)) d ltac:(lia)) as [Hr1 Hr2].
  set (e := exponent n d) in *. set (m := round_even _ _) in *.
  destruct (Z.le_gt_cases 0 e) as [Hpos|Hneg].
  - assert (2 ^ 32 <= 2 ^ (32 + e)) by (apply Z.pow_le_mono_r; lia).
    assert (d <= n) by nia. assert (2 ^ 52 <= m) by nia.
    assert (2 ^ (52 - e) <= 2 ^ 52) by (apply Z.pow_le_mono_r; lia).
    rewrite !(proj2 (Z.leb_le _ _)); [done|lia|nia].
  - destruct (Z.eq_dec e (-1)) as [->|Hne].
    + change (52 - -1) with 53 in *.
      destruct (Z.leb_spec (9 * d) (10 * n)).
      * apply Z.leb_le. nia.
      * apply Z.leb_gt. assert (d * 2 ^ 21 < 2 ^ 53) by lia. nia.
    + assert (2 ^ (33 + e) <= 2 ^ 31) by (apply Z.pow_le_mono_r; lia).
      assert (2 * n < d) by nia. assert (m <= 2 ^ 53) by nia.
      assert (2 ^ 54 <= 2 ^ (52 - e)) by (apply Z.pow_le_mono_r; lia).
      rewrite !(proj2 (Z.leb_gt _ _)); [done|lia|nia].
Qed.

End F64.

Module SentMessages.

Definition MIN_OBSERVATIONS : Z := 8.

Record PendingSentMessage : Type := mkPending {
  sender_tid : Z; receiver_tid : Z; msg_code : Z; win : Z; wparam : Z; lparam : Z; msg_type : Z;
}.

Record MsgProfile : Type := mkProfile {
  fast_votes : Z; tracked_votes : Z; observations : Z; promoted : bool;
}.
Implicit Types (p : MsgProfile).

Definition profile_new : MsgProfile := mkProfile 0 0 0 false.

Definition confidence p : Z * Z :=
  if decide (observations p < MIN_OBSERVATIONS) then (0, 0)
  else F64.div (fast_votes p) (observations p).

Definition check_promote p : MsgProfile :=
  if negb (promoted p) && F64.geb (confidence p) F64.c0_90
  then mkProfile (fast_votes p) (tracked_votes p) (observations p) true
  else p.

Definition demote p : MsgProfile :=
  if promoted p then mkProfile 0 (tracked_votes p) (observations p) false else p.

(** One observation: a zero result votes fast, anything else votes tracked. *)
Definition observe p (result : Z) : MsgProfile :=
  let p1 := mkProfile (fast_votes p) (tracked_votes p) (observations p +₃₂ 1) (promoted p) in
  if decide (result = 0)
  then check_promote (mkProfile (fast_votes p1 +₃₂ 1) (tracked_votes p1) (observations p1) (promoted p1))
  else demote (mkProfile (fast_votes p1) (tracked_votes p1 +₃₂ 1) (observations p1) (promoted p1)).

Record SentMessages : Type := mkSent {
  pending : gmap Z (list PendingSentMessage);
  profiles : gmap Z MsgProfile;
}.
Implicit Types (s : SentMessages) (m : PendingSentMessage).

Definition new : SentMessages := mkSent ∅ ∅.

Definition should_fast_path s (code : Z) : bool :=
  match profiles s !! code with Some p => promoted p | None => false end.

Definition track s m : SentMessages :=
  mkSent (<[receiver_tid m := default [] (pending s !! receiver_tid m) ++ [m]]> (pending s)) (profiles s).

(** [Vec::pop]: the last element and what remains. *)
Definition vec_pop {A} (l : list A) : option (A * list A) :=
  match last l with Some x => Some (x, removelast l) | None => None end.

Definition drain_one_with_code s (rtid : Z) : SentMessages * option (Z * Z) :=
  match pending s !! rtid with
  | None => (s, None)
  | Some stack =>
      match vec_pop stack with
      | None => (s, None)
      | Some (m, stack') =>
          (mkSent (if bool_decide (stack' = []) then delete rtid (pending s)
                   else <[rtid := stack']> (pending s)) (profiles s),
           Some (sender_tid m, msg_code m))
      end
  end.

Definition observe_profile (ps : gmap Z MsgProfile) (code result : Z) : gmap Z MsgProfile :=
  <[code := observe (default profile_new (ps !! code)) result]> ps.

Definition observe_reply s (code result : Z) : SentMessages :=
  mkSent (pending s) (observe_profile (profiles s) code result).

(** A disconnected receiver counts as a zero reply for each message. *)
Definition drain_all_for_receiver s (rtid : Z) : SentMessages * list Z :=
  match pending s !! rtid with
  | None => (s, [])
  | Some msgs =>
      (mkSent (delete rtid (pending s))
         (fold_left (fun ps m => observe_profile ps (msg_code m) 0) msgs (profiles s)),
       sender_tid <$> msgs)
  end.

Definition peek s (rtid : Z) : option PendingSentMessage := pending s !! rtid ≫= last.

Definition snapshot_profiles s : list (Z * MsgProfile) := map_to_list (profiles s).

Definition load_profiles s (ps : list (Z * MsgProfile)) : SentMessages :=
  mkSent (pending s) (fold_left (fun acc kv => <[kv.1 := kv.2]> acc) ps (profiles s)).

(** ** Profiles

    [counts_ok]: each observation casts one vote (a demotion discards votes), and
    the counter is below 2^32 - 1, so that [+= 1] does not wrap. *)
Definition counts_ok p : Prop :=
  0 <= fast_votes p /\ 0 <= tracked_votes p /\
  fast_votes p + tracked_votes p <= observations p < U32_MAX.

Definition observe_all p (rs : list Z) : MsgProfile := fold_left observe rs p.

Lemma check_promote_spec p :
  0 <= fast_votes p < 2 ^ 32 -> 0 <= observations p < 2 ^ 32 ->
  check_promote p =
    mkProfile (fast_votes p) (tracked_votes p) (observations p)
      (promoted p || ((8 <=? observations p) && (9 * observations p <=? 10 * fast_votes p))).
Proof.
  intros Hf Ho. destruct p as [f t o pr]. unfold check_promote, confidence; simpl in *.
  unfold MIN_OBSERVATIONS.
  assert (F64.geb (if decide (o < 8) then (0, 0) else F64.div f o) F64.c0_90 =
          ((8 <=? o) && (9 * o <=? 10 * f))) as ->.
  { case_decide.
    - rewrite (proj2 (Z.leb_gt 8 o)) by lia. done.
    - rewrite (proj2 (Z.leb_le 8 o)) by lia. rewrite F64.geb_div_90 by lia. done. }
  destruct pr; simpl; [done|]. by destruct ((8 <=? o) && (9 * o <=? 10 * f)).
Qed.

Lemma observe_zero p :
  counts_ok p ->
  observe p 0 =
    mkProfile (fast_votes p + 1) (tracked_votes p) (observations p + 1)
      (promoted p || ((8 <=? observations p + 1) && (9 * (observations p + 1) <=? 10 * (fast_votes p + 1)))).
Proof.
  intros (? & ? & ? & ?). unfold observe. rewrite decide_True by done. cbn [fast_votes tracked_votes observations promoted].
  rewrite !u32_small by word_lia. rewrite check_promote_spec; cbn [fast_votes tracked_votes observations promoted]; [done|word_lia..].
Qed.

Lemma observe_nonzero p r :
  counts_ok p -> r <> 0 ->
  observe p r =
    mkProfile (if promoted p then 0 else fast_votes p) (tracked_votes p + 1) (observations p + 1) false.
Proof.
  intros (? & ? & ? & ?) Hr. unfold observe. rewrite decide_False by done.
  cbn [fast_votes tracked_votes observations promoted]. rewrite !u32_small by word_lia.
  unfold demote; simpl. by destruct (promoted p).
Qed.

(** A run of zero replies short of the threshold leaves the profile tracked. *)
Lemma observe_all_zero_run p (n : nat) :
  counts_ok p -> observations p + Z.of_nat n < U32_MAX -> promoted p = false ->
  (forall k : nat, (k < n)%nat ->
     10 * (fast_votes p + Z.of_nat k + 1) < 9 * (observations p + Z.of_nat k + 1)) ->
  observe_all p (replicate n 0) =
    mkProfile (fast_votes p + Z.of_nat n) (tracked_votes p) (observations p + Z.of_nat n) false.
Proof.
  revert p; induction n as [|n IH]; intros p Hok Hn Hp Hlt.
  - destruct p; simpl in *. subst. by rewrite !Z.add_0_r.
  - cbn [replicate observe_all fold_left]. change (fold_left observe (replicate n 0) (observe p 0))
      with (observe_all (observe p 0) (replicate n 0)).
    rewrite observe_zero by done. rewrite Hp. pose proof (Hlt 0%nat ltac:(lia)) as H0.
    rewrite (proj2 (Z.leb_gt (9 * (observations p + 1)) _)) by lia. rewrite andb_false_r.
    pose proof Hok as (? & ? & ? & ?).
    rewrite IH; cbn [fast_votes tracked_votes observations promoted orb].
    + f_equal; lia.
    + repeat split; cbn [fast_votes tracked_votes observations]; word_lia.
    + lia.
    + done.
    + intros k Hk. specialize (Hlt (S k) ltac:(lia)). lia.
Qed.

Lemma counts_ok_new : counts_ok profile_new.
Proof. repeat split; simpl; unfold U32_MAX; lia. Qed.

(** A non-zero reply revokes promotion at once, and re-promotion is slow: a
    promoted profile with [N] observations that sees one non-zero reply stays
    tracked through the next [9 N + 8] zero replies, and the zero reply after
    those promotes it again. *)
Theorem demotion_is_sticky p r (n : nat) :
  counts_ok p -> promoted p = true -> r <> 0 ->
  10 * observations p + 10 < U32_MAX -> Z.of_nat n <= 9 * observations p + 8 ->
  promoted (observe p r) = false /\
  promoted (observe_all (observe p r) (replicate n 0)) = false /\
  promoted (observe (observe_all (observe p r) (replicate (Z.to_nat (9 * observations p + 8)) 0)) 0) = true.
Proof.
  intros Hok Hp Hr Hsmall Hn. rewrite observe_nonzero, Hp by done.
  pose proof Hok as (? & ? & ? & ?).
  set (q := mkProfile 0 (tracked_votes p + 1) (observations p + 1) false).
  assert (counts_ok q) as Hq by (repeat split; simpl; word_lia).
  split; [done|]. split.
  - rewrite observe_all_zero_run; [done|done|simpl; lia|done|]. simpl. intros k Hk. lia.
  - rewrite observe_all_zero_run; [|done|simpl; lia|done|simpl; intros k Hk; lia].
    rewrite observe_zero by (repeat split; simpl; word_lia). simpl.
    rewrite !(proj2 (Z.leb_le _ _)) by lia. done.
Qed.

Lemma demotion_is_sticky_witness :
  let p := mkProfile 9 1 10 true in
  promoted (observe p 5) = false /\
  promoted (observe_all (observe p 5) (replicate 98 0)) = false /\
  promoted (observe (observe_all (observe p 5) (replicate (Z.to_nat (9 * 10 + 8)) 0)) 0) = true.
Proof.
  apply (demotion_is_sticky (mkProfile 9 1 10 true) 5 98);
    [repeat split; simpl; unfold U32_MAX; lia|reflexivity|lia|simpl; unfold U32_MAX; lia|simpl; lia].
Defined.

(** ** The pending stacks *)
Definition stacks_ok s : Prop :=
  forall r l, pending s !! r = Some l -> l <> [] /\ Forall (fun m => receiver_tid m = r) l.

Lemma vec_pop_snoc {A} (l : list A) x : vec_pop (l ++ [x]) = Some (x, l).
Proof. unfold vec_pop. by rewrite last_snoc, removelast_last. Qed.

Lemma track_ok s m : stacks_ok s -> stacks_ok (track s m).
Proof.
  intros Hs r l. unfold track; simpl. rewrite lookup_insert. case_decide as Hd; [|apply Hs].
  intros [= <-]. split; [by destruct (default [] _)|]. apply Forall_app. split.
  - destruct (pending s !! receiver_tid m) as [l|] eqn:Hl; simpl; [|constructor].
    destruct (Hs _ _ Hl) as [_ Hf]. by subst.
  - by repeat constructor.
Qed.

(** The stack discipline of in-flight sends.  After [track], the new message
    is what [peek] delivers and [drain_one_with_code] for its receiver returns
    its sender and code and restores the previous pending table exactly (no
    empty stack is left behind), for every receiver and nesting depth. *)
Theorem track_drain_lifo s m :
  stacks_ok s ->
  peek (track s m) (receiver_tid m) = Some m /\
  drain_one_with_code (track s m) (receiver_tid m) = (s, Some (sender_tid m, msg_code m)) /\
  stacks_ok (track s m).
Proof.
  intros Hs. split_and!; [..|by apply track_ok].
  - unfold peek, track; simpl. rewrite lookup_insert_eq. simpl. by rewrite last_snoc.
  - unfold drain_one_with_code, track; simpl. rewrite lookup_insert_eq, vec_pop_snoc.
    f_equal. destruct s as [pe pr]; simpl in *. f_equal.
    destruct (pe !! receiver_tid m) as [l|] eqn:Hl; cbn [from_option id].
    + destruct (Hs _ _ Hl) as [Hne _]. rewrite bool_decide_false by done.
      rewrite insert_insert_eq. by apply insert_id.
    + rewrite bool_decide_true by done. rewrite delete_insert_eq. by apply delete_id.
Qed.

Definition demo_pending : PendingSentMessage := mkPending 40 44 0x111 65538 0 0 3.

Lemma track_drain_lifo_witness :
  peek (track new demo_pending) 44 = Some demo_pending /\
  drain_one_with_code (track new demo_pending) 44 = (new, Some (40, 0x111)) /\
  stacks_ok (track new demo_pending).
Proof. apply (track_drain_lifo new demo_pending). intros r l Hl. discriminate Hl. Defined.

Lemma observe_profile_other ps code code' r :
  code <> code' -> observe_profile ps code r !! code' = ps !! code'.
Proof. intros. unfold observe_profile. by rewrite lookup_insert_ne. Qed.

(** The profile of [code] after a batch of zero observations. *)
Lemma fold_observe_lookup (msgs : list PendingSentMessage) ps code :
  fold_left (fun ps m => observe_profile ps (msg_code m) 0) msgs ps !! code =
  if decide (code ∈ msg_code <$> msgs)
  then Some (observe_all (default profile_new (ps !! code))
               (replicate (length (filter (fun m => msg_code m = code) msgs)) 0))
  else ps !! code.
Proof.
  revert ps; induction msgs as [|m msgs IH]; intros ps; cbn [fold_left].
  { by rewrite decide_False by (apply not_elem_of_nil). }
  rewrite IH, fmap_cons. unfold observe_profile. destruct (decide (msg_code m = code)) as [Hc|Hc].
  - rewrite filter_cons_True by done. rewrite Hc, lookup_insert_eq. cbn [default length replicate].
    rewrite (decide_True (P := code ∈ code :: _)) by left.
    case_decide as Hin; [done|].
    assert (filter (fun m => msg_code m = code) msgs = []) as ->; [|done].
    apply list_filter_empty_iff || apply elem_of_nil_inv.
    all: intros x [Hx Hm]%list_elem_of_filter; apply Hin, list_elem_of_fmap; by exists x.
  - rewrite filter_cons_False by done. rewrite lookup_insert_ne by done.
    destruct (decide (code ∈ msg_code <$> msgs)).
    + by rewrite decide_True by by right.
    + rewrite decide_False; [done|]. intros [?|?]%elem_of_cons; congruence.
Qed.

(** When a receiver disconnects, every sender waiting on it is returned
    exactly once and in order, nothing stays pending for it, other receivers'
    stacks are untouched, and every affected message code is credited with one
    zero reply per message. *)
Theorem drain_all_wakes_every_sender s r :
  let '(s', senders) := drain_all_for_receiver s r in
  senders = sender_tid <$> default [] (pending s !! r) /\
  pending s' !! r = None /\
  (forall r', r' <> r -> pending s' !! r' = pending s !! r') /\
  (forall code, profiles s' !! code =
     let n := length (filter (fun m => msg_code m = code) (default [] (pending s !! r))) in
     if decide (n = 0%nat) then profiles s !! code
     else Some (observe_all (default profile_new (profiles s !! code)) (replicate n 0))).
Proof.
  unfold drain_all_for_receiver. destruct (pending s !! r) as [msgs|] eqn:Hr; simpl.
  - split_and!; [done|by rewrite lookup_delete_eq|intros; by rewrite lookup_delete_ne|].
    intros code. rewrite fold_observe_lookup.
    destruct (decide (code ∈ msg_code <$> msgs)) as [Hin|Hin].
    + rewrite decide_False; [done|]. intros Hz%nil_length_inv.
      apply list_elem_of_fmap in Hin as (m & -> & Hm).
      assert (m ∈ filter (fun m0 => msg_code m0 = msg_code m) msgs) as Hf by by apply list_elem_of_filter.
      rewrite Hz in Hf. by apply not_elem_of_nil in Hf.
    + rewrite decide_True; [done|].
      destruct (filter (fun m => msg_code m = code) msgs) as [|m l] eqn:Hf; [done|].
      exfalso. apply Hin, list_elem_of_fmap.
      assert (m ∈ filter (fun m => msg_code m = code) msgs) as Hm by (rewrite Hf; left).
      apply list_elem_of_filter in Hm as [Hm1 Hm2]. by exists m.
  - by rewrite Hr.
Qed.

End SentMessages.
