(* ===== verification/Intel.v ===== *)
(** * Runtime protocol intelligence ([src/rust/src/triskelion/intel.rs])

    [IntelManager] counts calls and auto-stubs per opcode, decides which
    unimplemented opcodes may be answered with a zeroed success reply, and keeps
    what it learned in the 14592-byte [.quark_cache] file.  The file is a byte
    list; reading and writing it are modelled field by field, file system
    access is an input ([load]) or a result ([flush]). *)

From stdpp Require Import base list gmap.
From S2P Require Import Prelude SentMessages.
Local Open Scope Z_scope.
Local Open Scope word_scope.

Module Intel.
Import SentMessages.

Definition OPCODE_COUNT : nat := 306.
Definition CACHE_MAGIC : Z := 0x43504D41.     (* "AMPC" read as a little-endian u32 *)
Definition CACHE_VERSION : Z := 3.
Definition CACHE_V2_SIZE : Z := 10496.
Definition CACHE_SIZE : Z := 14592.
Definition OPCODE_INTEL_OFF : Z := 192.
Definition LEARNED_OFF : Z := 5088.
Definition MSG_PROFILE_OFF : Z := 10496.
Definition MSG_PROFILE_ENTRY : Z := 16.
Definition MAX_MSG_PROFILES : nat := 256.
Definition OPCODE_INTEL_ENTRY : Z := 16.
Definition LEARNED_ENTRY : Z := 16.
Definition HINT_UNKNOWN : Z := 0.
Definition HINT_CRITICAL : Z := 1.
Definition HINT_SAFE_TO_STUB : Z := 3.
Definition HINT_NEVER_CALLED : Z := 4.
Definition FLAG_HAS_LEARNED : Z := 0x04.
Definition FLAG_STABLE : Z := 0x10.
Definition V1_MAGIC : Z := 0x4C504D41.        (* "AMPL" *)
Definition V1_HEADER_SIZE : Z := 16.
Definition V1_ENTRY_SIZE : Z := 16.
Definition V1_FILE_SIZE : Z := V1_HEADER_SIZE + 306 * V1_ENTRY_SIZE.
Definition STABILITY_UNKNOWN : Z := 0.
Definition STABILITY_STABLE : Z := 1.
Definition STABILITY_UNSTABLE : Z := 2.
Definition STABLE_THRESHOLD : Z := 10.
Definition UNSTABLE_THRESHOLD : Z := 3.

Record OpcodeEntry : Type := mkEntry { call_count : Z; stub_count : Z; stability : Z }.

Record IntelManager : Type := mkIntel {
  cache_path : bool;                       (* a path was resolved *)
  prior : list OpcodeEntry;
  prior_run_count : Z;
  hints : list Z;
  engine_type : Z;
  cache_flags : Z;
  preserved_buf : option (list Z);
  loaded_msg_profiles : list (Z * MsgProfile);
  run_calls : list Z;
  run_stubs : list Z;
  post_stub_requests : list Z;
  total_requests : Z;
}.
Implicit Types (m : IntelManager).

Definition no_entry : OpcodeEntry := mkEntry 0 0 STABILITY_UNKNOWN.

(** The manager before [load]. *)
Definition fresh (path : bool) : IntelManager :=
  mkIntel path (replicate OPCODE_COUNT no_entry) 0 (replicate OPCODE_COUNT HINT_UNKNOWN) 0 0 None []
    (replicate OPCODE_COUNT 0) (replicate OPCODE_COUNT 0) (replicate OPCODE_COUNT 0) 0.

Definition at_ (l : list Z) (i : nat) : Z := default 0 (l !! i).
Definition prior_at m (i : nat) : OpcodeEntry := default no_entry (prior m !! i).

Definition record_call m (opcode : nat) : IntelManager :=
  if decide (opcode < OPCODE_COUNT)%nat then
    let post := imap (fun i p => if decide (0 < at_ (run_stubs m) i /\ p < STABLE_THRESHOLD + 1)
                                 then p +₃₂ 1 else p) (post_stub_requests m) in
    mkIntel (cache_path m) (prior m) (prior_run_count m) (hints m) (engine_type m) (cache_flags m)
      (preserved_buf m) (loaded_msg_profiles m)
      (<[opcode := at_ (run_calls m) opcode +₃₂ 1]> (run_calls m)) (run_stubs m) post
      (u64 (total_requests m + 1))
  else m.

Definition record_stub m (opcode : nat) : IntelManager :=
  if decide (opcode < OPCODE_COUNT)%nat then
    mkIntel (cache_path m) (prior m) (prior_run_count m) (hints m) (engine_type m) (cache_flags m)
      (preserved_buf m) (loaded_msg_profiles m) (run_calls m)
      (<[opcode := at_ (run_stubs m) opcode +₃₂ 1]> (run_stubs m))
      (<[opcode := 0]> (post_stub_requests m)) (total_requests m)
  else m.

Definition should_auto_stub m (opcode : nat) (has_vararg_reply : bool) : bool :=
  if has_vararg_reply then false
  else if decide (OPCODE_COUNT <= opcode)%nat then false
  else
    let h := at_ (hints m) opcode in
    if decide (h = HINT_CRITICAL) then false
    else if decide (h = HINT_SAFE_TO_STUB \/ h = HINT_NEVER_CALLED) then true
    else bool_decide (stability (prior_at m opcode) <> STABILITY_UNSTABLE).

(** ** Writing the cache *)
Definition saturating_add (a b : Z) : Z := Z.min (a + b) U32_MAX.

Definition new_stability (prior_stability stubs post : Z) : Z :=
  if decide (0 < stubs) then
    if decide (STABLE_THRESHOLD <= post) then STABILITY_STABLE
    else if decide (post <= UNSTABLE_THRESHOLD) then
      if decide (prior_stability = STABILITY_STABLE) then STABILITY_STABLE else STABILITY_UNSTABLE
    else prior_stability
  else prior_stability.

(** The entry [flush] stores for opcode [i]. *)
Definition learned_entry m (i : nat) : OpcodeEntry :=
  let e := prior_at m i in
  mkEntry (saturating_add (call_count e) (at_ (run_calls m) i))
          (saturating_add (stub_count e) (at_ (run_stubs m) i))
          (new_stability (stability e) (at_ (run_stubs m) i) (at_ (post_stub_requests m) i)).

Definition write_learned m (i : nat) (buf : list Z) : list Z :=
  let off := LEARNED_OFF + Z.of_nat i * LEARNED_ENTRY in
  let e := learned_entry m i in
  put32 (off + 12) (at_ (run_calls m) i)
    (put8 (off + 8) (stability e) (put32 (off + 4) (stub_count e) (put32 off (call_count e) buf))).

Definition profile_flags (p : MsgProfile) : Z :=
  Z.lor (observations p) (if promoted p then 0x80000000 else 0).

Definition write_profile (ps : list (Z * MsgProfile)) (i : nat) (buf : list Z) : list Z :=
  match ps !! i with
  | Some (code, p) =>
      let off := MSG_PROFILE_OFF + Z.of_nat i * MSG_PROFILE_ENTRY in
      put32 (off + 12) (profile_flags p)
        (put32 (off + 8) (tracked_votes p) (put32 (off + 4) (fast_votes p) (put32 off code buf)))
  | None => buf
  end.

(** [Vec::resize(n, 0)] *)
Definition resize (n : nat) (buf : list Z) : list Z := take n buf ++ replicate (n - length buf) 0.

Definition known_opcodes m : nat :=
  length (filter (fun i => 0 < saturating_add (call_count (prior_at m i)) (at_ (run_calls m) i))
            (seq 0 (length (prior m)))).

(** The bytes written to the cache file; [None] when there is no path. *)
Definition flush m (msg_profiles : list (Z * MsgProfile)) (now : Z) : option (list Z) :=
  if cache_path m then
    let buf := resize (Z.to_nat CACHE_SIZE) (default (replicate (Z.to_nat CACHE_SIZE) 0) (preserved_buf m)) in
    let run_count := prior_run_count m +₃₂ 1 in
    let flags0 := Z.lor (cache_flags m) FLAG_HAS_LEARNED in
    let flags := if decide (5 <= run_count) then Z.lor flags0 FLAG_STABLE else flags0 in
    let coverage := u32 (Z.of_nat (known_opcodes m) * 100) / 306 in
    let buf := put32 32 coverage (put32 24 now (put32 20 run_count (put32 12 flags
                 (put32 4 CACHE_VERSION (put32 0 CACHE_MAGIC buf))))) in
    let buf := write_table OPCODE_COUNT (write_learned m) buf in
    let profile_count := (length msg_profiles `min` MAX_MSG_PROFILES)%nat in
    let buf := write_table profile_count (write_profile msg_profiles) buf in
    Some (put32 36 (Z.of_nat profile_count) buf)
  else None.

(** ** Reading the cache *)
Definition read_entry (data : list Z) (base : Z) (i : nat) : OpcodeEntry :=
  let off := base + Z.of_nat i * 16 in
  mkEntry (get32 data off) (get32 data (off + 4)) (get8 data (off + 8)).

Definition load_v2 m (data : list Z) : IntelManager :=
  mkIntel (cache_path m) (map (read_entry data LEARNED_OFF) (seq 0 OPCODE_COUNT)) (get32 data 20)
    (map (fun i => get32 data (OPCODE_INTEL_OFF + Z.of_nat i * OPCODE_INTEL_ENTRY)) (seq 0 OPCODE_COUNT))
    (get32 data 16) (get32 data 12) (Some (take (Z.to_nat CACHE_SIZE) data))
    (loaded_msg_profiles m) (run_calls m) (run_stubs m) (post_stub_requests m) (total_requests m).

Definition load_v1 m (data : list Z) : IntelManager :=
  mkIntel (cache_path m) (map (read_entry data V1_HEADER_SIZE) (seq 0 OPCODE_COUNT)) (get32 data 8)
    (hints m) (engine_type m) (cache_flags m) (preserved_buf m) (loaded_msg_profiles m)
    (run_calls m) (run_stubs m) (post_stub_requests m) (total_requests m).

Definition read_profile (data : list Z) (i : nat) : Z * MsgProfile :=
  let off := MSG_PROFILE_OFF + Z.of_nat i * MSG_PROFILE_ENTRY in
  let flags := get32 data (off + 12) in
  (get32 data off,
   mkProfile (get32 data (off + 4)) (get32 data (off + 8)) (Z.land flags 0x7FFFFFFF)
     (bool_decide (Z.land flags 0x80000000 <> 0))).

Definition keep_profile (cp : Z * MsgProfile) : bool :=
  bool_decide (cp.1 <> 0 \/ fast_votes cp.2 <> 0 \/ tracked_votes cp.2 <> 0).

Fixpoint profiles_loop (n i : nat) (data : list Z) : list (Z * MsgProfile) :=
  match n with
  | O => []
  | S n' =>
      if decide (blen data < MSG_PROFILE_OFF + Z.of_nat i * MSG_PROFILE_ENTRY + MSG_PROFILE_ENTRY) then []
      else
        let cp := read_profile data i in
        (if keep_profile cp then [cp] else []) ++ profiles_loop n' (S i) data
  end.

Definition load_msg_profiles m (data : list Z) : IntelManager :=
  let count := (Z.to_nat (get32 data 36) `min` MAX_MSG_PROFILES)%nat in
  mkIntel (cache_path m) (prior m) (prior_run_count m) (hints m) (engine_type m) (cache_flags m)
    (preserved_buf m) (loaded_msg_profiles m ++ profiles_loop count 0 data)
    (run_calls m) (run_stubs m) (post_stub_requests m) (total_requests m).

(** [cache] and [v1] are the contents of the two candidate files. *)
Definition load m (cache v1 : option (list Z)) : IntelManager :=
  if cache_path m then
    let from_v1 :=
      match v1 with
      | Some data => if decide (V1_FILE_SIZE <= blen data /\ get32 data 0 = V1_MAGIC)
                     then load_v1 m data else m
      | None => m
      end in
    match cache with
    | Some data =>
        if decide (CACHE_V2_SIZE <= blen data /\ get32 data 0 = CACHE_MAGIC /\
                   (get32 data 4 = 2 \/ get32 data 4 = 3))
        then let m1 := load_v2 m data in
             if decide (CACHE_SIZE <= blen data) then load_msg_profiles m1 data else m1
        else from_v1
    | None => from_v1
    end
  else m.

Definition take_msg_profiles m : IntelManager * list (Z * MsgProfile) :=
  (mkIntel (cache_path m) (prior m) (prior_run_count m) (hints m) (engine_type m) (cache_flags m)
     (preserved_buf m) [] (run_calls m) (run_stubs m) (post_stub_requests m) (total_requests m),
   loaded_msg_profiles m).

(** ** Well-formed managers and profiles *)
Record wf m : Prop := {
  wf_path : cache_path m = true;
  wf_prior : forall i, in_u32 (call_count (prior_at m i)) /\ in_u32 (stub_count (prior_at m i));
  wf_runs : in_u32 (prior_run_count m) /\ in_u32 (cache_flags m);
  wf_counts : Forall in_u32 (run_calls m) /\ Forall in_u32 (run_stubs m);
}.

Definition profile_ok (cp : Z * MsgProfile) : Prop :=
  in_u32 cp.1 /\ in_u32 (fast_votes cp.2) /\ in_u32 (tracked_votes cp.2) /\
  0 <= observations cp.2 < 2 ^ 31 /\ keep_profile cp = true.

Lemma at_in_u32 l i : Forall in_u32 l -> in_u32 (at_ l i).
Proof.
  intros Hl. unfold at_. destruct (l !! i) as [z|] eqn:Hz; simpl; [|unfold in_u32; lia].
  by eapply Forall_lookup_1 in Hl.
Qed.

Lemma saturating_add_in a b : in_u32 a -> in_u32 b -> in_u32 (saturating_add a b).
Proof. unfold saturating_add. intros. word_lia. Qed.

Lemma blen_resize n buf : blen (resize n buf) = Z.of_nat n.
Proof. unfold blen, resize. rewrite length_app, length_take, length_replicate. lia. Qed.

(** ** Layout of the cache file *)
Lemma blen_write_learned m i b : blen (write_learned m i b) = blen b.
Proof. unfold write_learned. by autorewrite with buffers. Qed.

Lemma blen_write_profile ps i b : blen (write_profile ps i b) = blen b.
Proof. unfold write_profile. destruct (ps !! i) as [[c p]|]; by autorewrite with buffers. Qed.
#[local] Hint Rewrite blen_write_learned blen_write_profile : buffers.

(** The section of learned data and the section of profiles are disjoint from
    each other, from the header and from the hints. *)
Lemma write_learned_frame m i b off :
  (i < OPCODE_COUNT)%nat -> blen b = CACHE_SIZE -> 0 <= off ->
  off + 4 <= LEARNED_OFF + Z.of_nat i * 16 \/ LEARNED_OFF + Z.of_nat i * 16 + 16 <= off ->
  get32 (write_learned m i b) off = get32 b off /\ get8 (write_learned m i b) off = get8 b off.
Proof.
  unfold OPCODE_COUNT, CACHE_SIZE, LEARNED_OFF, LEARNED_ENTRY. intros Hi Hb H0 Hoff.
  unfold write_learned, LEARNED_OFF, LEARNED_ENTRY. split; by layout.
Qed.

Lemma write_profile_frame ps i b off :
  (i < MAX_MSG_PROFILES)%nat -> blen b = CACHE_SIZE -> 0 <= off ->
  off + 4 <= MSG_PROFILE_OFF + Z.of_nat i * 16 \/ MSG_PROFILE_OFF + Z.of_nat i * 16 + 16 <= off ->
  get32 (write_profile ps i b) off = get32 b off /\ get8 (write_profile ps i b) off = get8 b off.
Proof.
  unfold MAX_MSG_PROFILES, CACHE_SIZE. intros Hi Hb H0 Hoff.
  unfold write_profile. destruct (ps !! i) as [[c p]|]; [|done].
  unfold MSG_PROFILE_OFF, MSG_PROFILE_ENTRY in *. split; by layout.
Qed.

Lemma write_learned_read m i b :
  wf m -> (i < OPCODE_COUNT)%nat -> blen b = CACHE_SIZE ->
  read_entry (write_learned m i b) LEARNED_OFF i = learned_entry m i.
Proof.
  intros Hwf. unfold OPCODE_COUNT, CACHE_SIZE. intros Hi Hb.
  destruct (wf_prior m Hwf i) as [Hc Hs]. destruct (wf_counts m Hwf) as [Hrc Hrs].
  pose proof (saturating_add_in _ _ Hc (at_in_u32 _ i Hrc)).
  pose proof (saturating_add_in _ _ Hs (at_in_u32 _ i Hrs)).
  unfold read_entry, write_learned, LEARNED_OFF, LEARNED_ENTRY. cbn [call_count stub_count stability learned_entry].
  layout. done.
Qed.

Lemma profile_flags_obs p :
  0 <= observations p < 2 ^ 31 ->
  Z.land (profile_flags p) 0x7FFFFFFF = observations p /\
  bool_decide (Z.land (profile_flags p) 0x80000000 <> 0) = promoted p /\
  in_u32 (profile_flags p).
Proof.
  intros Ho. unfold profile_flags.
  assert (Z.land (observations p) (Z.ones 31) = observations p) as Hones.
  { rewrite Z.land_ones by lia. by apply Z.mod_small. }
  change 0x7FFFFFFF with (Z.ones 31). split_and!.
  - rewrite Z.land_lor_distr_l, Hones. destruct (promoted p); apply Z.lor_0_r.
  - rewrite Z.land_lor_distr_l. rewrite <- Hones, <- Z.land_assoc.
    change (Z.land (Z.ones 31) 0x80000000) with 0. rewrite Z.land_0_r, Z.lor_0_l.
    by destruct (promoted p).
  - apply lor_range; [lia|lia|]. destruct (promoted p); lia.
Qed.

Lemma write_profile_read ps i b cp :
  ps !! i = Some cp -> profile_ok cp -> (i < MAX_MSG_PROFILES)%nat -> blen b = CACHE_SIZE ->
  read_profile (write_profile ps i b) i = cp.
Proof.
  intros Hps (Hc & Hf & Ht & Ho & _). unfold MAX_MSG_PROFILES, CACHE_SIZE. intros Hi Hb.
  unfold write_profile. rewrite Hps. destruct cp as [c p]. cbn [fst snd] in *.
  destruct (profile_flags_obs p Ho) as (Hob & Hpr & Hfl).
  unfold read_profile, MSG_PROFILE_OFF, MSG_PROFILE_ENTRY. layout.
  rewrite Hob, Hpr. by destruct p.
Qed.

(** The written file, in the three stages of [flush]. *)
Section flushed.
Context m (ps : list (Z * MsgProfile)) (now : Z) (Hwf : wf m).

Definition base_buf : list Z :=
  resize (Z.to_nat CACHE_SIZE) (default (replicate (Z.to_nat CACHE_SIZE) 0) (preserved_buf m)).
Definition new_flags : Z :=
  let flags0 := Z.lor (cache_flags m) FLAG_HAS_LEARNED in
  if decide (5 <= prior_run_count m +₃₂ 1) then Z.lor flags0 FLAG_STABLE else flags0.
Definition header_buf : list Z :=
  put32 32 (u32 (Z.of_nat (known_opcodes m) * 100) / 306) (put32 24 now (put32 20 (prior_run_count m +₃₂ 1)
    (put32 12 new_flags (put32 4 CACHE_VERSION (put32 0 CACHE_MAGIC base_buf))))).
Definition count_ps : nat := (length ps `min` MAX_MSG_PROFILES)%nat.
Definition final_buf : list Z :=
  put32 36 (Z.of_nat count_ps)
    (write_table count_ps (write_profile ps) (write_table OPCODE_COUNT (write_learned m) header_buf)).

Lemma flush_eq : flush m ps now = Some final_buf.
Proof. unfold flush. rewrite (wf_path m Hwf). done. Qed.

Lemma blen_base : blen base_buf = CACHE_SIZE.
Proof. unfold base_buf. rewrite blen_resize. done. Qed.
Lemma blen_header : blen header_buf = CACHE_SIZE.
Proof. unfold header_buf. autorewrite with buffers. apply blen_base. Qed.
Lemma blen_learned : blen (write_table OPCODE_COUNT (write_learned m) header_buf) = CACHE_SIZE.
Proof. apply write_table_len; [|apply blen_header]. intros. by rewrite blen_write_learned. Qed.
Lemma blen_tables :
  blen (write_table count_ps (write_profile ps) (write_table OPCODE_COUNT (write_learned m) header_buf)) = CACHE_SIZE.
Proof. apply write_table_len; [|apply blen_learned]. intros. by rewrite blen_write_profile. Qed.
Lemma blen_final : blen final_buf = CACHE_SIZE.
Proof. unfold final_buf. autorewrite with buffers. apply blen_tables. Qed.

Lemma count_ps_le : (count_ps <= MAX_MSG_PROFILES)%nat.
Proof. unfold count_ps. lia. Qed.

(** Fields of the header and the hints section survive both tables. *)
Lemma final_get32_low off :
  0 <= off -> off + 4 <= LEARNED_OFF -> off + 4 <= 36 \/ 40 <= off ->
  get32 final_buf off = get32 header_buf off.
Proof.
  intros H0 Hl H36. pose proof blen_tables as Hb. unfold CACHE_SIZE, LEARNED_OFF in *.
  unfold final_buf. rewrite get32_put32_other by lia.
  rewrite (write_table_frame (write_profile ps) CACHE_SIZE (fun b => get32 b off)); [| |apply blen_learned].
  - apply (write_table_frame (write_learned m) CACHE_SIZE (fun b => get32 b off)); [|apply blen_header].
    intros i b Hi Hbb. rewrite blen_write_learned. split; [done|].
    apply write_learned_frame; [done..|]. unfold LEARNED_OFF. lia.
  - intros i b Hi Hbb. rewrite blen_write_profile. split; [done|].
    apply write_profile_frame; [pose proof count_ps_le; lia|done..|]. unfold MSG_PROFILE_OFF. lia.
Qed.

Lemma new_flags_in : in_u32 new_flags.
Proof.
  destruct (wf_runs m Hwf) as [_ Hf]. unfold new_flags, in_u32, FLAG_HAS_LEARNED, FLAG_STABLE.
  case_decide; repeat apply lor_range; done || lia.
Qed.

Lemma final_header :
  get32 final_buf 0 = CACHE_MAGIC /\ get32 final_buf 4 = CACHE_VERSION /\
  get32 final_buf 12 = new_flags /\ get32 final_buf 20 = prior_run_count m +₃₂ 1 /\
  get32 final_buf 16 = get32 base_buf 16 /\ get32 final_buf 36 = Z.of_nat count_ps.
Proof.
  pose proof blen_base as Hb. pose proof new_flags_in as Hf. pose proof (u32_in (prior_run_count m + 1)).
  pose proof blen_tables as Ht. pose proof count_ps_le. unfold CACHE_SIZE, MAX_MSG_PROFILES in *.
  split_and!; try (rewrite final_get32_low by (unfold LEARNED_OFF; lia); unfold header_buf).
  - unfold CACHE_MAGIC. by layout.
  - unfold CACHE_VERSION. by layout.
  - by layout.
  - by layout.
  - by layout.
  - unfold final_buf. by layout.
Qed.

Lemma final_hint i :
  (i < OPCODE_COUNT)%nat -> get32 final_buf (OPCODE_INTEL_OFF + Z.of_nat i * OPCODE_INTEL_ENTRY)
    = get32 base_buf (OPCODE_INTEL_OFF + Z.of_nat i * OPCODE_INTEL_ENTRY).
Proof.
  unfold OPCODE_COUNT, OPCODE_INTEL_OFF, OPCODE_INTEL_ENTRY. intros Hi.
  rewrite final_get32_low by (unfold LEARNED_OFF; lia).
  pose proof blen_base as Hb. unfold CACHE_SIZE in Hb. unfold header_buf. by layout.
Qed.

Lemma final_learned i : (i < OPCODE_COUNT)%nat -> read_entry final_buf LEARNED_OFF i = learned_entry m i.
Proof.
  intros Hi. pose proof Hi as Hi'. unfold OPCODE_COUNT in Hi'.
  set (off := LEARNED_OFF + Z.of_nat i * 16).
  assert (forall b o, blen b = CACHE_SIZE -> o = off \/ o = off + 4 ->
    get32 (put32 36 (Z.of_nat count_ps) b) o = get32 b o /\
    get8 (put32 36 (Z.of_nat count_ps) b) (off + 8) = get8 b (off + 8)) as Hput.
  { intros b o Hb Ho. subst off. unfold LEARNED_OFF, CACHE_SIZE in *. split; [destruct Ho; subst|]; by layout. }
  assert (read_entry final_buf LEARNED_OFF i =
          read_entry (write_table OPCODE_COUNT (write_learned m) header_buf) LEARNED_OFF i) as ->.
  { unfold final_buf. transitivity (read_entry (write_table count_ps (write_profile ps)
      (write_table OPCODE_COUNT (write_learned m) header_buf)) LEARNED_OFF i).
    - unfold read_entry. fold off. destruct (Hput _ off blen_tables) as [-> ->]; [by left|].
      destruct (Hput _ (off + 4) blen_tables) as [-> _]; [by right|]. done.
    - apply (write_table_frame (write_profile ps) CACHE_SIZE (fun b => read_entry b LEARNED_OFF i));
        [|apply blen_learned].
      intros j b Hj Hb. rewrite blen_write_profile. split; [done|]. unfold read_entry. fold off.
      pose proof count_ps_le. assert (off + 16 <= MSG_PROFILE_OFF /\ 0 <= off) as [? ?].
      { subst off. unfold LEARNED_OFF, MSG_PROFILE_OFF. lia. }
      f_equal; apply write_profile_frame; done || lia. }
  apply (write_table_entry (write_learned m) CACHE_SIZE (fun b => read_entry b LEARNED_OFF i) _ _ i); [done|..].
  - intros. by rewrite blen_write_learned.
  - intros b Hb. by apply write_learned_read.
  - intros j b Hj Hne Hb. unfold read_entry. fold off.
    assert (0 <= off) by (subst off; unfold LEARNED_OFF; lia).
    f_equal; apply write_learned_frame; try done; try lia; subst off; lia.
  - apply blen_header.
Qed.

Lemma final_profile i cp :
  ps !! i = Some cp -> (i < MAX_MSG_PROFILES)%nat -> profile_ok cp -> read_profile final_buf i = cp.
Proof.
  intros Hps Hi Hok. pose proof (lookup_lt_Some _ _ _ Hps) as Hlt.
  assert (i < count_ps)%nat as Hic by (unfold count_ps; lia).
  assert (read_profile final_buf i = read_profile (write_table count_ps (write_profile ps)
            (write_table OPCODE_COUNT (write_learned m) header_buf)) i) as ->.
  { unfold final_buf, read_profile. pose proof blen_tables as Ht.
    unfold MAX_MSG_PROFILES, CACHE_SIZE, MSG_PROFILE_OFF, MSG_PROFILE_ENTRY in *. by layout. }
  apply (write_table_entry (write_profile ps) CACHE_SIZE (fun b => read_profile b i) _ _ i); [done|..].
  - intros. by rewrite blen_write_profile.
  - intros b Hb. by apply write_profile_read.
  - intros j b Hj Hne Hb. unfold read_profile.
    pose proof count_ps_le.
    assert (forall o, o = 0 \/ o = 4 \/ o = 8 \/ o = 12 ->
      get32 (write_profile ps j b) (MSG_PROFILE_OFF + Z.of_nat i * MSG_PROFILE_ENTRY + o) =
      get32 b (MSG_PROFILE_OFF + Z.of_nat i * MSG_PROFILE_ENTRY + o)) as Hf.
    { intros o Ho. apply write_profile_frame; unfold MSG_PROFILE_OFF, MSG_PROFILE_ENTRY; try done; lia. }
    rewrite !Hf by auto. specialize (Hf 0). rewrite Z.add_0_r in Hf. by rewrite Hf by auto.
  - apply blen_learned.
Qed.

Lemma profiles_loop_final n i :
  (n + i = count_ps)%nat -> Forall profile_ok ps ->
  profiles_loop n i final_buf = drop i (take count_ps ps).
Proof.
  revert i; induction n as [|n IH]; intros i Hn Hok; simpl.
  - rewrite drop_ge; [done|]. rewrite length_take. lia.
  - pose proof count_ps_le as Hc. unfold MAX_MSG_PROFILES in Hc.
    rewrite blen_final. unfold CACHE_SIZE, MSG_PROFILE_OFF, MSG_PROFILE_ENTRY.
    rewrite decide_False by lia.
    assert (i < length ps)%nat as Hi by (unfold count_ps in Hn; lia).
    destruct (lookup_lt_is_Some_2 ps i Hi) as [cp Hcp].
    pose proof (Forall_lookup_1 _ _ _ _ Hok Hcp) as Hcpok.
    rewrite (final_profile i cp) by (done || (unfold MAX_MSG_PROFILES; lia)).
    destruct Hcpok as (_ & _ & _ & _ & ->). rewrite IH by (done || lia).
    rewrite (drop_S (take count_ps ps) cp i); [done|]. rewrite lookup_take_lt by lia. done.
Qed.
End flushed.

(** C36: the cache survives a shutdown and restart.  Loading the file a
    well-formed manager flushed restores, for each of the 306 opcodes, the
    accumulated counts and the new stability class, the run count plus one, the
    hints and engine type that were in the preserved file, and the message
    profiles (the first 256), in order and with their promotion flag. *)
Theorem cache_flush_load_roundtrip m ps now v1 :
  wf m -> Forall profile_ok ps ->
  exists buf, flush m ps now = Some buf /\ blen buf = CACHE_SIZE /\
    let m' := load (fresh true) (Some buf) v1 in
    prior m' = map (learned_entry m) (seq 0 OPCODE_COUNT) /\
    prior_run_count m' = prior_run_count m +₃₂ 1 /\
    loaded_msg_profiles m' = take MAX_MSG_PROFILES ps /\
    (forall old i, preserved_buf m = Some old -> blen old = CACHE_SIZE -> (i < OPCODE_COUNT)%nat ->
       at_ (hints m') i = get32 old (OPCODE_INTEL_OFF + Z.of_nat i * OPCODE_INTEL_ENTRY) /\
       engine_type m' = get32 old 16).
Proof.
  intros Hwf Hok. exists (final_buf m ps now).
  split; [by apply flush_eq|]. split; [apply blen_final|].
  destruct (final_header m ps now Hwf) as (Hmg & Hv & Hfl & Hrc & He & Hcnt).
  unfold load, fresh. cbn [cache_path]. pose proof (blen_final m ps now) as Hb.
  rewrite decide_True by (rewrite Hb, Hmg, Hv; unfold CACHE_V2_SIZE, CACHE_SIZE; split_and!; [lia|done|by right]).
  rewrite decide_True by lia. unfold load_msg_profiles, load_v2.
  cbn [prior prior_run_count loaded_msg_profiles hints engine_type app].
  split_and!.
  - apply map_ext_in. intros i Hi%in_seq. by apply final_learned; [|lia].
  - done.
  - rewrite Hcnt, Nat2Z.id. pose proof (count_ps_le ps).
    rewrite Nat.min_l by done. rewrite profiles_loop_final by (done || lia).
    rewrite drop_0. unfold count_ps. destruct (Nat.min_spec (length ps) MAX_MSG_PROFILES) as [[? ->]|[? ->]]; [|done].
    rewrite !take_ge by lia. done.
  - intros old i Hold Hlen Hi.
    assert (base_buf m = old) as Hbase.
    { unfold base_buf. rewrite Hold. simpl. unfold resize, blen in *.
      rewrite take_ge by lia. replace (Z.to_nat CACHE_SIZE - length old)%nat with 0%nat by lia.
      apply app_nil_r. }
    split.
    + unfold at_. change (map ?f ?l) with (f <$> l).
      rewrite list_lookup_fmap, lookup_seq_lt by done. simpl. by rewrite final_hint, Hbase.
    + by rewrite He, Hbase.
Qed.

Lemma cache_flush_load_roundtrip_witness :
  let p := mkProfile 40 2 42 true in
  exists buf, flush (fresh true) [(0x400, p)] 1700000000 = Some buf /\ blen buf = CACHE_SIZE /\
    prior_run_count (load (fresh true) (Some buf) None) = 1 /\
    loaded_msg_profiles (load (fresh true) (Some buf) None) = [(0x400, p)].
Proof.
  destruct (cache_flush_load_roundtrip (fresh true) [(0x400, mkProfile 40 2 42 true)] 1700000000 None)
    as (buf & Hf & Hb & _ & Hr & Hp & _).
  - constructor.
    + reflexivity.
    + intros i. unfold prior_at, fresh. cbn [prior].
      destruct (replicate OPCODE_COUNT no_entry !! i) as [e|] eqn:He; simpl; [|unfold in_u32; lia].
      apply lookup_replicate_1 in He as [-> _]. unfold in_u32, no_entry; simpl; lia.
    + unfold in_u32, fresh; simpl; lia.
    + split; apply Forall_replicate; unfold in_u32; lia.
  - constructor; [|constructor]. unfold profile_ok, in_u32; simpl. split_and!; done || lia.
  - exists buf. split_and!; [exact Hf|exact Hb|rewrite Hr; reflexivity|rewrite Hp; reflexivity].
Defined.

(** ** What one run teaches

    A run is a sequence of recorded events; an event with an opcode out of range
    is ignored by both recorders. *)
Inductive event : Type := Call (opcode : nat) | Stub (opcode : nat).

Definition record m (e : event) : IntelManager :=
  match e with Call op => record_call m op | Stub op => record_stub m op end.
Definition record_all m (es : list event) : IntelManager := foldl record m es.

Definition is_stub (i : nat) (e : event) : bool :=
  match e with Stub op => bool_decide (op = i) | Call _ => false end.
Definition is_call (e : event) : bool :=
  match e with Call op => bool_decide (op < OPCODE_COUNT)%nat | Stub _ => false end.

(** Calls after the last stub of [i]; the newest event is at the head. *)
Fixpoint calls_since_stub (i : nat) (newest_first : list event) : nat :=
  match newest_first with
  | [] => 0
  | e :: es => if is_stub i e then 0
               else (if is_call e then 1 else 0) + calls_since_stub i es
  end.
Definition stubbed (i : nat) (es : list event) : bool := existsb (is_stub i) es.

(** What [new_stability] should say of a run, from its history alone. *)
Definition verdict (prior_stability : Z) (i : nat) (newest_first : list event) : Z :=
  if stubbed i newest_first then
    let n := calls_since_stub i newest_first in
    if decide (10 <= n)%nat then STABILITY_STABLE
    else if decide (n <= 3)%nat then
      if decide (prior_stability = STABILITY_STABLE) then STABILITY_STABLE else STABILITY_UNSTABLE
    else prior_stability
  else prior_stability.

Record counted m (es : list event) : Prop := {
  cnt_len : length (run_stubs m) = OPCODE_COUNT /\ length (post_stub_requests m) = OPCODE_COUNT;
  cnt_stubs : forall i, (i < OPCODE_COUNT)%nat ->
    0 <= at_ (run_stubs m) i <= Z.of_nat (length es) /\ (0 < at_ (run_stubs m) i <-> stubbed i es = true);
  cnt_post : forall i, (i < OPCODE_COUNT)%nat ->
    at_ (post_stub_requests m) i = if stubbed i es then Z.of_nat (calls_since_stub i es `min` 11) else 0;
}.

Lemma at_insert l i j v : (i < length l)%nat -> at_ (<[i := v]> l) j = if decide (i = j) then v else at_ l j.
Proof.
  intros Hi. unfold at_. case_decide; subst.
  - by rewrite list_lookup_insert_eq.
  - by rewrite list_lookup_insert_ne.
Qed.

Lemma counted_call m es op :
  counted m es -> Z.of_nat (length es) < 2 ^ 32 - 1 -> counted (record_call m op) (Call op :: es).
Proof.
  intros [[Hl1 Hl2] Hs Hp] Hb. unfold record_call. case_decide as Hop.
  - constructor; cbn [run_stubs post_stub_requests].
    + by rewrite length_imap.
    + intros i Hi. destruct (Hs i Hi) as [? Hiff]. split; [simpl; lia|exact Hiff].
    + intros i Hi. destruct (Hs i Hi) as [_ Hiff]. specialize (Hp i Hi).
      unfold at_ at 1. rewrite list_lookup_imap.
      destruct (lookup_lt_is_Some_2 (post_stub_requests m) i) as [p Hpi]; [lia|]. rewrite Hpi. simpl.
      unfold at_ in Hp. rewrite Hpi in Hp. simpl in Hp. fold (stubbed i es).
      rewrite bool_decide_true by done. unfold STABLE_THRESHOLD.
      destruct (stubbed i es); [|rewrite decide_False by (intros [Hx _]; apply Hiff in Hx; done); done].
      assert (0 < at_ (run_stubs m) i) by (apply Hiff; done).
      case_decide as Hd; [rewrite u32_small by (unfold in_u32; lia)|]; lia.
  - constructor; [done|..].
    + intros i Hi. destruct (Hs i Hi) as [? Hiff]. split; [simpl; lia|exact Hiff].
    + intros i Hi. rewrite (Hp i Hi). simpl. by rewrite bool_decide_false by done.
Qed.


Lemma counted_stub m es op :
  counted m es -> Z.of_nat (length es) < 2 ^ 32 - 1 -> counted (record_stub m op) (Stub op :: es).
Proof.
  intros [[Hl1 Hl2] Hs Hp] Hb. unfold record_stub. case_decide as Hop.
  - constructor; cbn [run_stubs post_stub_requests].
    + by rewrite !length_insert.
    + intros i Hi. destruct (Hs i Hi) as [? Hiff]. rewrite at_insert by lia. unfold stubbed. simpl existsb.
      fold (stubbed i es). case_decide as Hoi; [subst|].
      * rewrite bool_decide_true by done. rewrite u32_small by (unfold in_u32; lia).
        simpl length. simpl orb. split; [lia|]. split; [done|lia].
      * rewrite bool_decide_false by done. split; [simpl length; lia|exact Hiff].
    + intros i Hi. rewrite at_insert by lia. unfold stubbed. simpl. fold (stubbed i es).
      case_decide as Hoi; [by rewrite bool_decide_true|].
      rewrite bool_decide_false by done. simpl. apply Hp, Hi.
  - constructor; [done|..]; intros i Hi; unfold stubbed; simpl existsb; fold (stubbed i es);
      rewrite bool_decide_false by lia; simpl orb.
    + destruct (Hs i Hi). split; [simpl length; lia|done].
    + rewrite (Hp i Hi). simpl. rewrite bool_decide_false by lia. done.
Qed.

Lemma counted_all m es :
  counted m [] -> Z.of_nat (length es) < 2 ^ 32 -> counted (record_all m es) (reverse es).
Proof.
  intros Hm. induction es as [|e es IH] using rev_ind; intros Hb; [done|].
  rewrite length_app in Hb. simpl in Hb. unfold record_all. rewrite foldl_app, reverse_snoc. simpl.
  assert (Z.of_nat (length (reverse es)) < 2 ^ 32 - 1) by (rewrite length_reverse; lia).
  destruct e; [apply counted_call|apply counted_stub]; (apply IH; lia) || done.
Qed.

(** Loading starts the run with zeroed counters. *)
Lemma counted_load path cache v1 : counted (load (fresh path) cache v1) [].
Proof.
  assert (counted (fresh path) []) as Hf.
  { constructor; [split; apply length_replicate|..]; intros i Hi; unfold at_; cbn [run_stubs post_stub_requests fresh];
      rewrite lookup_replicate_2 by done; simpl; [split; [lia|split; [lia|done]]|done]. }
  assert (forall m', run_stubs m' = run_stubs (fresh path) ->
    post_stub_requests m' = post_stub_requests (fresh path) -> counted m' []) as Hsame.
  { intros m' H1 H2. destruct Hf as [Ha Hb Hc]. by constructor; rewrite ?H1, ?H2. }
  unfold load. destruct (cache_path _); [|done].
  destruct cache as [data|]; repeat case_decide; destruct v1 as [d1|]; repeat case_decide; by apply Hsame.
Qed.

Lemma record_prior m e : prior (record m e) = prior m.
Proof. destruct e; simpl; unfold record_call, record_stub; by case_decide. Qed.

Lemma record_all_prior m es : prior (record_all m es) = prior m.
Proof.
  induction es as [|e es IH] using rev_ind; [done|].
  unfold record_all in *. rewrite foldl_app. simpl. by rewrite record_prior.
Qed.

(** The class stored for an opcode, from a history the counters agree with. *)
Lemma learned_stability_counted m es i :
  counted m es -> (i < OPCODE_COUNT)%nat ->
  stability (learned_entry m i) = verdict (stability (prior_at m i)) i es.
Proof.
  intros [_ Hs Hp] Hi. unfold learned_entry, verdict. cbn [stability].
  destruct (Hs i Hi) as [_ Hiff]. rewrite (Hp i Hi). unfold new_stability, STABLE_THRESHOLD, UNSTABLE_THRESHOLD.
  destruct (stubbed i es).
  - rewrite decide_True by (apply Hiff; done). set (n := calls_since_stub i es).
    repeat case_decide; done || lia.
  - rewrite decide_False by (rewrite Hiff; done). done.
Qed.

(** When a refused opcode may be answered with a zeroed success reply. *)
Lemma should_auto_stub_spec m op v :
  should_auto_stub m op v = true <->
  v = false /\ (op < OPCODE_COUNT)%nat /\ at_ (hints m) op <> HINT_CRITICAL /\
  (at_ (hints m) op = HINT_SAFE_TO_STUB \/ at_ (hints m) op = HINT_NEVER_CALLED \/
   stability (prior_at m op) <> STABILITY_UNSTABLE).
Proof.
  unfold should_auto_stub. destruct v; [split; [done|by intros [? _]]|].
  case_decide; [split; [done|lia]|]. case_decide; [split; [done|tauto]|].
  case_decide as Hh; [split; [intros _|done]; split_and!; try tauto; lia|].
  rewrite bool_decide_eq_true. split; [intros; split_and!; try tauto; lia|tauto].
Qed.

(** The stability class a run leaves behind is exactly what its history
    says.  For any sequence of fewer than 2^32 calls and stubs recorded after a
    start from any cache files, the class [flush] stores for an opcode is
    STABLE when ten or more requests followed its last stub, UNSTABLE when at
    most three did (unless it was already STABLE), and unchanged otherwise. *)
Theorem stability_follows_history path cache v1 es i :
  Z.of_nat (length es) < 2 ^ 32 -> (i < OPCODE_COUNT)%nat ->
  let m0 := load (fresh path) cache v1 in
  stability (learned_entry (record_all m0 es) i)
    = verdict (stability (prior_at m0 i)) i (reverse es).
Proof.
  intros Hb Hi m0. pose proof (counted_all m0 es (counted_load path cache v1) Hb) as Hc.
  rewrite (learned_stability_counted _ _ i Hc Hi). unfold prior_at. by rewrite record_all_prior.
Qed.

Lemma stability_follows_history_witness :
  stability (learned_entry (record_all (load (fresh false) None None) [Call 7; Stub 7; Call 9]) 7)
    = STABILITY_UNSTABLE.
Proof. apply (stability_follows_history false None None [Call 7; Stub 7; Call 9] 7); [simpl; lia|unfold OPCODE_COUNT; lia]. Defined.

End Intel.
