(* ===== verification/Dispatch.v ===== *)
(** * Replies and request dispatch ([event_loop/mod.rs], [event_loop/dispatch.rs],
      [protocol_remap.rs])

    Wine reads 64 bytes for every reply and then [reply_size] more.  [Replies]
    models the two reply constructors and the request readers; [Dispatch] models
    the routing of one request, the containment of a handler's panic and the
    auto-stub policy.  The opcode table, [RequestCode::from_i32] and
    [dispatch_request] are generated at build time from Wine's [protocol.def]
    and are parameters. *)

From stdpp Require Import base list gmap strings.
From S2P Require Import Prelude SentMessages Intel.
Local Open Scope Z_scope.
Local Open Scope outcome_scope.

Module Replies.

Inductive Reply : Type :=
| Fixed (buf : list Z) (len : nat)
| Vararg (v : list Z).

Record ReplyHeader : Type := mkReplyHeader { error : Z; reply_size : Z }.

Definition header_bytes (h : ReplyHeader) : list Z := le_bytes 4 (error h) ++ le_bytes 4 (reply_size h).

Definition VARARG_OFF : nat := 64.

(** [repr] is the in-memory form of the reply struct, at most 64 bytes. *)
Definition reply_fixed (repr : list Z) : Reply := Fixed (write 0 repr (replicate 64 0)) 64.

Definition reply_vararg (repr vararg : list Z) : Reply :=
  Vararg (write 64 vararg (write 0 repr (replicate (64 + length vararg) 0))).

(** The bytes handed to the client. *)
Definition serialize (r : Reply) : list Z :=
  match r with Fixed buf len => take len buf | Vararg v => v end.

Definition max_reply_vararg (buf : list Z) : Z :=
  if decide (12 <= length buf)%nat then from_le (slice 8 4 buf) else 0.

(** [chunks_exact(2)] of little-endian units: an odd last byte is dropped. *)
Fixpoint vararg_to_u16 (bytes : list Z) : list Z :=
  match bytes with
  | a :: b :: rest => (a + 256 * b) :: vararg_to_u16 rest
  | _ => []
  end.

Fixpoint u16_bytes (us : list Z) : list Z :=
  match us with
  | [] => []
  | u :: us' => le_bytes 2 u ++ u16_bytes us'
  end.

Lemma vararg_to_u16_bytes us : Forall in_u16 us -> vararg_to_u16 (u16_bytes us) = us.
Proof.
  induction 1 as [|u us Hu _ IH]; [done|].
  pose proof (from_le_u16 u Hu) as Hle. simpl in *. rewrite IH. f_equal. lia.
Qed.

Lemma length_u16_bytes us : length (u16_bytes us) = (2 * length us)%nat.
Proof. induction us as [|u us IH]; [done|]. simpl. lia. Qed.

(** A reply is well formed when Wine's fixed 64-byte read is satisfied. *)
Definition reply_wf (r : Reply) : Prop := (64 <= length (serialize r))%nat.

Lemma serialize_fixed repr :
  (length repr <= 64)%nat -> serialize (reply_fixed repr) = repr ++ replicate (64 - length repr) 0.
Proof.
  intros Hl. unfold serialize, reply_fixed. rewrite take_ge by (rewrite length_write, length_replicate; lia).
  apply list_eq; intros i. rewrite write_lookup by (rewrite length_replicate; lia).
  rewrite lookup_app. simpl (0 + _)%nat. rewrite Nat.sub_0_r. case_decide as Hi.
  - destruct (lookup_lt_is_Some_2 repr i) as [x ->]; [lia|done].
  - rewrite (lookup_ge_None_2 repr) by lia.
    destruct (decide (i < 64)%nat).
    + rewrite !lookup_replicate_2 by lia. done.
    + rewrite !lookup_ge_None_2 by (rewrite length_replicate; lia). done.
Qed.

Lemma serialize_vararg repr v :
  (length repr <= 64)%nat ->
  serialize (reply_vararg repr v) = repr ++ replicate (64 - length repr) 0 ++ v.
Proof.
  intros Hl. unfold serialize, reply_vararg.
  assert (length (write 0 repr (replicate (64 + length v) 0%Z)) = 64 + length v)%nat as HL
    by (by rewrite length_write, length_replicate).
  apply list_eq; intros i. rewrite write_lookup by lia. rewrite app_assoc, lookup_app.
  assert (repr ++ replicate (64 - length repr) 0 = write 0 repr (replicate 64 0)) as ->.
  { rewrite <- serialize_fixed by done. unfold serialize, reply_fixed.
    rewrite take_ge; [done|]. rewrite length_write, length_replicate. lia. }
  case_decide as Hd.
  - rewrite (lookup_ge_None_2 (write 0 repr (replicate 64 0))) by (rewrite length_write, length_replicate; lia).
    by rewrite length_write, length_replicate.
  - destruct (decide (i < 64)%nat).
    + rewrite !write_lookup by (rewrite length_replicate; lia).
      case_decide as Hi; [destruct (lookup_lt_is_Some_2 repr (i - 0)) as [x ->]; [lia|done]|].
      rewrite !lookup_replicate_2 by lia. done.
    + rewrite lookup_ge_None_2 by lia.
      rewrite (lookup_ge_None_2 (write 0 repr (replicate 64 0))) by (rewrite length_write, length_replicate; lia).
      rewrite length_write, length_replicate. symmetry. apply lookup_ge_None_2. lia.
Qed.

Lemma reply_fixed_wf repr : reply_wf (reply_fixed repr).
Proof. unfold reply_wf, serialize, reply_fixed. rewrite length_take, length_write, length_replicate. lia. Qed.

Lemma reply_vararg_wf repr v : reply_wf (reply_vararg repr v).
Proof. unfold reply_wf, serialize, reply_vararg. rewrite !length_write, length_replicate. lia. Qed.
Create HintDb replies.
#[export] Hint Resolve reply_fixed_wf reply_vararg_wf : replies.

(** The status a client reads. *)
Definition status (r : Reply) : Z := from_le (take 4 (serialize r)).

Lemma status_fixed h : in_u32 (error h) -> status (reply_fixed (header_bytes h)) = error h.
Proof.
  intros. unfold status. rewrite serialize_fixed by (simpl; lia). unfold header_bytes.
  rewrite <- app_assoc, take_app_length' by done. by apply from_le_u32.
Qed.

End Replies.

Module Dispatch.
Import Replies.

Definition MAX_OPCODES : nat := 306.
Definition STATUS_NOT_IMPLEMENTED : Z := 0xC0000002.
Definition STATUS_INTERNAL_ERROR : Z := 0xC00000E5.

Record OpcodeMeta : Type := mkMeta { name : string; has_vararg_reply : bool }.

Definition esync_fsync : list string :=
  ["create_esync"; "open_esync"; "get_esync_fd"; "esync_msgwait"; "get_esync_apc_fd"; "create_fsync";
   "open_fsync"; "get_fsync_idx"; "fsync_msgwait"; "get_fsync_apc_idx"; "fsync_free_shm_idx"]%string.
Definition handle_reply : list string :=
  ["debug_process"; "create_debug_obj"; "create_device_manager"; "open_process"; "open_thread";
   "open_file_object"; "create_keyed_event"; "open_keyed_event"; "allocate_reserve_object"]%string.

Definition is_esync_fsync (m : OpcodeMeta) : bool := bool_decide (name m ∈ esync_fsync).
Definition has_handle_reply (m : OpcodeMeta) : bool := bool_decide (name m ∈ handle_reply).

(** ** The opcode table of [protocol_remap.rs] *)
Record ProtocolRemap : Type := mkRemap { version : Z; remap : list (option nat); is_identity : bool }.

(** The fields of the event loop that dispatch reads and writes; [rest] is
    what only the handlers touch. *)
Record EventLoop (E : Type) : Type := mkLoop {
  protocol_remap : ProtocolRemap;
  opcode_counts : list Z;
  opcode_time_ns : list Z;
  total_dispatch_ns : Z;
  total_requests : Z;
  intel : Intel.IntelManager;
  rest : E;
}.
Arguments mkLoop {E} _ _ _ _ _ _ _.
Arguments protocol_remap {E} _.
Arguments opcode_counts {E} _.
Arguments opcode_time_ns {E} _.
Arguments total_dispatch_ns {E} _.
Arguments total_requests {E} _.
Arguments intel {E} _.
Arguments rest {E} _.

Definition with_intel {E} (ev : EventLoop E) (i : Intel.IntelManager) : EventLoop E :=
  mkLoop (protocol_remap ev) (opcode_counts ev) (opcode_time_ns ev) (total_dispatch_ns ev)
    (total_requests ev) i (rest ev).

(** [array[idx] += d] on a [u64] array, where [idx] is in range. *)
Definition bump (l : list Z) (idx : nat) (d : Z) : list Z := alter (fun c => u64 (c + d)) idx l.

Section protocol.
Context {E : Type} (OPCODE_META : list OpcodeMeta) (COMPILED_PROTOCOL_VERSION : Z).
Context (from_i32 : Z -> option nat).
Context (dispatch_request : nat -> EventLoop E -> Z -> list Z -> EventLoop E * option Reply).
Implicit Types (ev : EventLoop E) (r : Reply).

Definition identity : ProtocolRemap :=
  mkRemap COMPILED_PROTOCOL_VERSION (map (fun i => from_i32 (Z.of_nat i)) (seq 0 (length OPCODE_META))) true.

Definition resolve (p : ProtocolRemap) (client_opcode : Z) : option nat :=
  if decide (client_opcode < 0) then None else mjoin (remap p !! Z.to_nat client_opcode).

Definition detect_and_remap : ProtocolRemap := identity.

(** ** [generic_fallback] *)
Definition generic_fallback (idx : nat) ev : outcome (EventLoop E * Reply) :=
  _ <-! index OPCODE_META (Z.of_nat idx) ;;
  Ret (with_intel ev (Intel.record_stub (intel ev) idx),
       reply_fixed (header_bytes (mkReplyHeader STATUS_NOT_IMPLEMENTED 0))).

(** The status dispatch itself reads from a handler's reply. *)
Definition reply_error r : Z :=
  match r with
  | Fixed buf len => if decide (4 <= len)%nat then from_le (slice 0 4 buf) else 0
  | Vararg v => if decide (4 <= length v)%nat then from_le (slice 0 4 v) else 0
  end.

(** The auto-stub decision on a reply with status NOT_IMPLEMENTED. *)
Definition auto_stub (idx : nat) (meta : OpcodeMeta) ev r : EventLoop E * Reply :=
  if is_esync_fsync meta then (ev, r)
  else
    let ev1 := with_intel ev (Intel.record_stub (intel ev) idx) in
    if has_handle_reply meta then (ev1, r)
    else if Intel.should_auto_stub (intel ev1) idx (has_vararg_reply meta)
    then (ev1, Fixed (write 0 (header_bytes (mkReplyHeader 0 0)) (replicate 64 0)) 64)
    else (ev1, r).

Definition count_request (idx : nat) ev : EventLoop E :=
  mkLoop (protocol_remap ev)
    (if decide (idx < MAX_OPCODES)%nat then bump (opcode_counts ev) idx 1 else opcode_counts ev)
    (opcode_time_ns ev) (total_dispatch_ns ev) (u64 (total_requests ev + 1))
    (Intel.record_call (intel ev) idx) (rest ev).

Definition count_time (idx : nat) (elapsed_ns : Z) ev : EventLoop E :=
  mkLoop (protocol_remap ev) (opcode_counts ev)
    (if decide (idx < MAX_OPCODES)%nat then bump (opcode_time_ns ev) idx elapsed_ns else opcode_time_ns ev)
    (u64 (total_dispatch_ns ev + elapsed_ns)) (total_requests ev) (intel ev) (rest ev).

(** A panic in the handler is caught and becomes STATUS_INTERNAL_ERROR. *)
Definition guarded (o : option Reply) : Reply :=
  match o with
  | Some r => r
  | None => reply_fixed (header_bytes (mkReplyHeader STATUS_INTERNAL_ERROR 0))
  end.

Definition resolved ev (req : Z) : option nat :=
  if is_identity (protocol_remap ev) then from_i32 req else resolve (protocol_remap ev) req.

(** [dispatch] with the two clock readings [t0] and [t1].  The table lookups
    are the places where dispatch itself could panic. *)
Definition dispatch (client_fd : Z) (req : Z) (buf : list Z) (t0 t1 : Z) ev : outcome (EventLoop E * Reply) :=
  match resolved ev req with
  | Some idx =>
      let ev1 := count_request idx ev in
      _ <-! (if decide (total_requests ev1 <= 100 \/ total_requests ev1 mod 500 = 0)
             then Ret () else _ <-! index OPCODE_META (Z.of_nat idx) ;; Ret ()) ;;
      let '(ev2, o) := dispatch_request idx ev1 client_fd buf in
      let reply := guarded o in
      p <-! (if decide (reply_error reply = STATUS_NOT_IMPLEMENTED)
             then meta <-! index OPCODE_META (Z.of_nat idx) ;; Ret (auto_stub idx meta ev2 reply)
             else Ret (ev2, reply)) ;;
      Ret (count_time idx (u64 (t1 - t0)) p.1, p.2)
  | None => Ret (ev, reply_fixed (header_bytes (mkReplyHeader STATUS_NOT_IMPLEMENTED 0)))
  end.

(** What [from_i32] is generated to be: the opcodes are the table's indices. *)
Definition from_i32_ok : Prop :=
  forall i n, from_i32 i = Some n -> Z.of_nat n = i /\ (n < length OPCODE_META)%nat.
(** What every handler returns is built by one of the reply constructors. *)
Definition handlers_ok : Prop :=
  forall n ev fd b ev' r, dispatch_request n ev fd b = (ev', Some r) -> reply_wf r.

Lemma reply_error_status r : reply_wf r -> reply_error r = status r.
Proof.
  unfold reply_wf, reply_error, status. destruct r as [buf len|v]; simpl serialize; intros Hl.
  - rewrite length_take in Hl. rewrite decide_True by lia. unfold slice. by rewrite take_take, Nat.min_l by lia.
  - by rewrite decide_True by lia.
Qed.

Lemma zeroed_reply :
  serialize (Fixed (write 0 (header_bytes (mkReplyHeader 0 0)) (replicate 64 0)) 64) = replicate 64 0.
Proof. reflexivity. Qed.

Lemma index_meta n meta : OPCODE_META !! n = Some meta -> index OPCODE_META (Z.of_nat n) = Ret meta.
Proof. intros H. apply index_lookup. by rewrite Nat2Z.id. Qed.

Lemma resolved_identity ev req :
  from_i32_ok -> protocol_remap ev = identity \/ protocol_remap ev = detect_and_remap ->
  resolved ev req = from_i32 req.
Proof. intros _ [H|H]; unfold resolved; rewrite H; done. Qed.

(** One dispatch of a known opcode, as a value. *)
Lemma dispatch_known client_fd req buf t0 t1 ev idx meta ev2 o :
  resolved ev req = Some idx -> OPCODE_META !! idx = Some meta ->
  dispatch_request idx (count_request idx ev) client_fd buf = (ev2, o) ->
  dispatch client_fd req buf t0 t1 ev =
    let p := if decide (reply_error (guarded o) = STATUS_NOT_IMPLEMENTED)
             then auto_stub idx meta ev2 (guarded o) else (ev2, guarded o) in
    Ret (count_time idx (u64 (t1 - t0)) p.1, p.2).
Proof.
  intros Hr Hm Hd. unfold dispatch. rewrite Hr, Hd. rewrite (index_meta _ _ Hm).
  repeat case_decide; reflexivity.
Qed.

(** The identity table and the direct conversion agree on every opcode. *)
Lemma resolve_identity req :
  (forall n, (n < length OPCODE_META)%nat -> from_i32 (Z.of_nat n) = Some n) -> from_i32_ok ->
  resolve identity req = from_i32 req.
Proof.
  intros Hall Hok. unfold resolve, identity. cbn [remap]. case_decide as Hneg.
  - destruct (from_i32 req) as [n|] eqn:Hf; [|done]. destruct (Hok _ _ Hf). lia.
  - change (map ?f ?l) with (f <$> l). rewrite list_lookup_fmap.
    destruct (decide (Z.to_nat req < length OPCODE_META)%nat) as [Hlt|Hge].
    + rewrite lookup_seq_lt by done. simpl. by rewrite Z2Nat.id by lia.
    + rewrite lookup_seq_ge by lia. simpl.
      destruct (from_i32 req) as [n|] eqn:Hf; [|done]. destruct (Hok _ _ Hf). lia.
Qed.

Lemma guarded_wf n ev fd b ev' o :
  handlers_ok -> dispatch_request n ev fd b = (ev', o) -> reply_wf (guarded o).
Proof. intros Hh Hd. destruct o as [r|]; [by eapply Hh|]. apply reply_fixed_wf. Qed.

(** The conditions under which dispatch replaces a handler's reply. *)
Definition may_stub (idx : nat) (meta : OpcodeMeta) (m : Intel.IntelManager) : Prop :=
  name meta ∉ esync_fsync /\ name meta ∉ handle_reply /\ has_vararg_reply meta = false /\
  (idx < MAX_OPCODES)%nat /\ Intel.at_ (Intel.hints m) idx <> Intel.HINT_CRITICAL /\
  (Intel.at_ (Intel.hints m) idx = Intel.HINT_SAFE_TO_STUB \/
   Intel.at_ (Intel.hints m) idx = Intel.HINT_NEVER_CALLED \/
   Intel.stability (Intel.prior_at m idx) <> Intel.STABILITY_UNSTABLE).

Lemma auto_stub_cases idx meta ev r :
  (auto_stub idx meta ev r).2 = r \/
  (serialize (auto_stub idx meta ev r).2 = replicate 64 0 /\ may_stub idx meta (intel ev)).
Proof.
  unfold auto_stub, is_esync_fsync, has_handle_reply.
  case_bool_decide as He; [by left|]. case_bool_decide as Hh; [by left|].
  destruct (Intel.should_auto_stub _ _ _) eqn:Hs; [|by left]. right. split; [apply zeroed_reply|].
  apply Intel.should_auto_stub_spec in Hs as (Hv & Hi & Hc & Hor).
  unfold may_stub. cbn [with_intel intel] in *.
  assert (Intel.hints (Intel.record_stub (intel ev) idx) = Intel.hints (intel ev) /\
          Intel.prior (Intel.record_stub (intel ev) idx) = Intel.prior (intel ev)) as [Hhi Hpr]
    by (unfold Intel.record_stub; by case_decide).
  unfold Intel.prior_at in *. rewrite Hhi, Hpr in *. done.
Qed.

(** C3: a request always gets a reply Wine can read, and a refusal is turned
    into success only where that is safe.  For a daemon started with the
    identity table, dispatch never panics and its reply has at least 64 bytes;
    an unknown opcode is refused without touching any state; a panicking
    handler yields STATUS_INTERNAL_ERROR; the handler's own reply is passed on
    unchanged unless it is NOT_IMPLEMENTED and the opcode is neither an
    esync/fsync one, nor one that returns a handle or variable-size data, nor
    critical, nor (without a safe hint) learned to be unstable, in which case
    the reply is 64 zero bytes. *)
Theorem dispatch_replies_safely client_fd req buf t0 t1 ev :
  from_i32_ok -> handlers_ok -> protocol_remap ev = detect_and_remap ->
  exists ev' r, dispatch client_fd req buf t0 t1 ev = Ret (ev', r) /\ reply_wf r /\
    match from_i32 req with
    | None => ev' = ev /\ status r = STATUS_NOT_IMPLEMENTED
    | Some idx =>
        exists meta ev2 o, OPCODE_META !! idx = Some meta /\
          dispatch_request idx (count_request idx ev) client_fd buf = (ev2, o) /\
          (o = None -> status r = STATUS_INTERNAL_ERROR) /\
          (r = guarded o \/
           (status (guarded o) = STATUS_NOT_IMPLEMENTED /\ serialize r = replicate 64 0 /\
            may_stub idx meta (intel ev2)))
    end.
Proof.
  intros Hf Hh Hid. pose proof (resolved_identity ev req Hf (or_intror Hid)) as Hres.
  destruct (from_i32 req) as [idx|] eqn:Hi.
  - destruct (Hf _ _ Hi) as [_ Hlt]. destruct (lookup_lt_is_Some_2 OPCODE_META idx Hlt) as [meta Hm].
    destruct (dispatch_request idx (count_request idx ev) client_fd buf) as [ev2 o] eqn:Hd.
    rewrite (dispatch_known client_fd req buf t0 t1 ev idx meta ev2 o Hres Hm Hd).
    pose proof (guarded_wf _ _ _ _ _ _ Hh Hd) as Hwf. pose proof (reply_error_status _ Hwf) as Hst.
    eexists _, _. split; [reflexivity|].
    assert (o = None -> status (guarded o) = STATUS_INTERNAL_ERROR) as Hpanic
      by (intros ->; apply status_fixed; by vm_compute).
    case_decide as Hni; cbn [fst snd].
    + destruct (auto_stub_cases idx meta ev2 (guarded o)) as [->|[Hz Hs]].
      * split; [done|]. exists meta, ev2, o. split_and!; [done..|by left].
      * split; [unfold reply_wf; by rewrite Hz, length_replicate|].
        exists meta, ev2, o. split_and!; [done|done| |right; by rewrite <- Hst].
        intros Ho. rewrite Hst, (Hpanic Ho) in Hni. done.
    + split; [done|]. exists meta, ev2, o. split_and!; [done..|by left].
  - eexists ev, _. unfold dispatch. rewrite Hres. split; [reflexivity|].
    split; [apply reply_fixed_wf|]. split; [done|]. apply status_fixed. by vm_compute.
Qed.

(** The generated arm for an opcode without a handler of its own. *)
Definition fallback_request (idx : nat) ev (client_fd : Z) (buf : list Z) : EventLoop E * option Reply :=
  match generic_fallback idx ev with
  | Ret (ev', r) => (ev', Some r)
  | _ => (ev, None)
  end.
End protocol.

(** A run of requests that another handler answers. *)
Definition record_calls (n j : nat) (m : Intel.IntelManager) : Intel.IntelManager :=
  Intel.record_all m (replicate n (Intel.Call j)).

Lemma counted_calls n j m es :
  Intel.counted m es -> Z.of_nat (n + length es) < 2 ^ 32 ->
  Intel.counted (record_calls n j m) (replicate n (Intel.Call j) ++ es).
Proof.
  intros Hc Hb. induction n as [|n IH]; [done|].
  unfold record_calls. rewrite replicate_S_end. unfold Intel.record_all. rewrite foldl_app. simpl.
  fold (Intel.record_all m (replicate n (Intel.Call j))). rewrite <- replicate_S_end. simpl.
  apply Intel.counted_call; [apply IH; lia|]. rewrite length_app, length_replicate. lia.
Qed.

Lemma calls_since_replicate n i j es :
  (j < Intel.OPCODE_COUNT)%nat -> Intel.stubbed i es = true -> Intel.calls_since_stub i es = 0%nat ->
  Intel.stubbed i (replicate n (Intel.Call j) ++ es) = true /\
  Intel.calls_since_stub i (replicate n (Intel.Call j) ++ es) = n.
Proof.
  intros Hj Hs Hc. induction n as [|n [IH1 IH2]]; [done|]. simpl. split; [exact IH1|].
  rewrite bool_decide_true by done. by rewrite IH2.
Qed.

(** Being refused counts as having been stubbed, twice.  Dispatch records a
    stub before it decides whether to stub, and the fallback handler has
    recorded one already.  So an opcode that is quarantined (class UNSTABLE,
    no hint) and is answered NOT_IMPLEMENTED gains two stubs although nothing
    was stubbed, and ten requests later the run classifies it STABLE, which
    lifts the quarantine at the next start. *)
Theorem refused_opcode_is_requalified {E} META ver from_i32 client_fd req buf t0 t1 (ev : EventLoop E) es idx meta j :
  from_i32_ok META from_i32 -> protocol_remap ev = detect_and_remap META ver from_i32 ->
  from_i32 req = Some idx -> META !! idx = Some meta ->
  is_esync_fsync meta = false -> has_handle_reply meta = false ->
  (idx < Intel.OPCODE_COUNT)%nat -> (j < Intel.OPCODE_COUNT)%nat ->
  Intel.counted (intel ev) es -> Z.of_nat (length es) + 13 < 2 ^ 32 ->
  Intel.at_ (Intel.hints (intel ev)) idx = Intel.HINT_UNKNOWN ->
  Intel.stability (Intel.prior_at (intel ev) idx) = Intel.STABILITY_UNSTABLE ->
  exists ev' r,
    dispatch META from_i32 (fallback_request META) client_fd req buf t0 t1 ev = Ret (ev', r) /\
    status r = STATUS_NOT_IMPLEMENTED /\
    intel ev' = Intel.record_stub (Intel.record_stub (Intel.record_call (intel ev) idx) idx) idx /\
    Intel.stability (Intel.learned_entry (record_calls 10 j (intel ev')) idx) = Intel.STABILITY_STABLE.
Proof.
  intros Hf Hid Hi Hm Hes Hhr Hidx Hj Hc Hb Hhint Hst.
  pose proof (resolved_identity META ver from_i32 ev req Hf (or_intror Hid)) as Hres. rewrite Hi in Hres.
  set (ni := reply_fixed (header_bytes (mkReplyHeader STATUS_NOT_IMPLEMENTED 0))).
  assert (status ni = STATUS_NOT_IMPLEMENTED) as Hni by (apply status_fixed; by vm_compute).
  set (m1 := Intel.record_call (intel ev) idx). set (m2 := Intel.record_stub m1 idx).
  set (m3 := Intel.record_stub m2 idx).
  assert (Intel.should_auto_stub m3 idx (has_vararg_reply meta) = false) as Hno.
  { apply not_true_is_false. rewrite Intel.should_auto_stub_spec.
    assert (Intel.hints m3 = Intel.hints (intel ev) /\ Intel.prior m3 = Intel.prior (intel ev)) as [Hh Hp]
      by (subst m3 m2 m1; unfold Intel.record_stub, Intel.record_call; rewrite !decide_True by done; done).
    unfold Intel.prior_at in *. rewrite Hh, Hp. rewrite Hhint. intros (_ & _ & _ & [?|[?|?]]); done. }
  eexists _, ni. split; [|split; [done|]].
  - erewrite dispatch_known; [|exact Hres|exact Hm|unfold fallback_request, generic_fallback;
      rewrite (index_meta META _ _ Hm); reflexivity].
    cbn [guarded]. fold ni. rewrite decide_True by (rewrite reply_error_status; [done|apply reply_fixed_wf]).
    unfold auto_stub. rewrite Hes, Hhr. cbn [with_intel intel count_request].
    fold m1 m2 m3. rewrite Hno. reflexivity.
  - cbn [intel count_time fst with_intel count_request]. split; [done|].
    assert (Intel.counted m3 (Intel.Stub idx :: Intel.Stub idx :: Intel.Call idx :: es)) as Hc3.
    { repeat first [apply Intel.counted_stub | apply Intel.counted_call | done]; simpl length; lia. }
    pose proof (counted_calls 10 j m3 _ Hc3 ltac:(simpl length; lia)) as Hc13.
    rewrite (Intel.learned_stability_counted _ _ idx Hc13 Hidx). unfold Intel.verdict.
    destruct (calls_since_replicate 10 idx j (Intel.Stub idx :: Intel.Stub idx :: Intel.Call idx :: es)) as [-> ->];
      [done|by simpl; rewrite bool_decide_true..|]. by rewrite decide_True by lia.
Qed.

(** ** A concrete table for the witnesses *)
Definition demo_meta : list OpcodeMeta := [mkMeta "close_handle" false; mkMeta "open_thread" false].
Definition demo_from_i32 (i : Z) : option nat :=
  if decide (0 <= i < 2) then Some (Z.to_nat i) else None.
Definition demo_loop (m : Intel.IntelManager) : EventLoop unit :=
  mkLoop (detect_and_remap demo_meta 930 demo_from_i32) (replicate MAX_OPCODES 0) (replicate MAX_OPCODES 0) 0 0 m ().

Lemma demo_from_i32_ok : from_i32_ok demo_meta demo_from_i32.
Proof. intros i n. unfold demo_from_i32. case_decide; [|done]. intros [= <-]. simpl. lia. Qed.

Lemma fallback_handlers_ok {E} META : handlers_ok (@fallback_request E META).
Proof.
  intros n ev fd b ev' r. unfold fallback_request, generic_fallback.
  destruct (index META (Z.of_nat n)); simpl; [|done..]. intros [= <- <-]. apply reply_fixed_wf.
Qed.

Lemma dispatch_replies_safely_witness :
  exists ev' r, dispatch demo_meta demo_from_i32 (fallback_request demo_meta) 5 0 [] 0 10
                  (demo_loop (Intel.fresh false)) = Ret (ev', r) /\ reply_wf r.
Proof.
  destruct (dispatch_replies_safely demo_meta 930 demo_from_i32 (fallback_request demo_meta) 5 0 [] 0 10
              (demo_loop (Intel.fresh false)) demo_from_i32_ok (fallback_handlers_ok demo_meta) eq_refl)
    as (ev' & r & Hd & Hw & _).
  exists ev', r. split; [exact Hd|exact Hw].
Defined.

(** A manager that quarantines opcode 0. *)
Definition quarantined : Intel.IntelManager :=
  Intel.mkIntel false (Intel.mkEntry 1 1 Intel.STABILITY_UNSTABLE :: replicate 305 Intel.no_entry) 1
    (replicate Intel.OPCODE_COUNT Intel.HINT_UNKNOWN) 0 0 None [] (replicate Intel.OPCODE_COUNT 0)
    (replicate Intel.OPCODE_COUNT 0) (replicate Intel.OPCODE_COUNT 0) 0.

Lemma quarantined_counted : Intel.counted quarantined [].
Proof.
  constructor; [split; apply length_replicate|..]; intros i Hi; unfold Intel.at_, quarantined;
    cbn [Intel.run_stubs Intel.post_stub_requests]; rewrite lookup_replicate_2 by done; simpl;
    [split; [lia|split; [lia|done]]|done].
Qed.

Lemma refused_opcode_is_requalified_witness :
  exists ev' r, dispatch demo_meta demo_from_i32 (fallback_request demo_meta) 5 0 [] 0 10
                  (demo_loop quarantined) = Ret (ev', r) /\
    status r = STATUS_NOT_IMPLEMENTED /\
    Intel.stability (Intel.learned_entry (record_calls 10 1 (intel ev')) 0) = Intel.STABILITY_STABLE.
Proof.
  destruct (refused_opcode_is_requalified demo_meta 930 demo_from_i32 5 0 [] 0 10 (demo_loop quarantined) []
              0 (mkMeta "close_handle" false) 1 demo_from_i32_ok eq_refl eq_refl eq_refl)
    as (ev' & r & Hd & Hs & _ & Hst); [reflexivity|reflexivity|unfold Intel.OPCODE_COUNT; lia..| | | | |].
  - exact quarantined_counted.
  - simpl. lia.
  - reflexivity.
  - reflexivity.
  - exists ev', r. split_and!; [exact Hd|exact Hs|exact Hst].
Defined.

End Dispatch.
