(* ===== verification/Text.v ===== *)
(** * Strings

    A Rust string is the list of its Unicode scalar values.  The file models the
    standard conversions the daemon uses: [encode_utf16], [from_utf16_lossy],
    [from_utf8_lossy], the UTF-16LE helpers of [event_loop/mod.rs] and
    [registry.rs], and ASCII case. *)

From stdpp Require Import base list.
From S2P Require Import Prelude Dispatch.
Local Open Scope Z_scope.

Module Text.

Definition str : Type := list Z.
Definition REPLACEMENT : Z := 0xFFFD.

Definition is_scalar (c : Z) : Prop := 0 <= c < 0xD800 \/ 0xE000 <= c < 0x110000.
#[export] Instance is_scalar_dec c : Decision (is_scalar c).
Proof. unfold is_scalar. apply _. Defined.

(** ** UTF-16 *)
Definition encode_char (c : Z) : list Z :=
  if decide (c < 0x10000) then [c]
  else [0xD800 + (c - 0x10000) / 0x400; 0xDC00 + (c - 0x10000) mod 0x400].
Definition encode_utf16 (s : str) : list Z := concat (map encode_char s).

Definition is_high (u : Z) : bool := bool_decide (0xD800 <= u < 0xDC00).
Definition is_low (u : Z) : bool := bool_decide (0xDC00 <= u < 0xE000).

(** An unpaired surrogate becomes the replacement character. *)
Fixpoint from_utf16_lossy (us : list Z) : str :=
  match us with
  | [] => []
  | u :: us' =>
      if is_high u then
        match us' with
        | v :: us'' => if is_low v then (0x10000 + (u - 0xD800) * 0x400 + (v - 0xDC00)) :: from_utf16_lossy us''
                       else REPLACEMENT :: from_utf16_lossy us'
        | [] => [REPLACEMENT]
        end
      else if is_low u then REPLACEMENT :: from_utf16_lossy us'
      else u :: from_utf16_lossy us'
  end.

Lemma utf16_char c us : is_scalar c -> from_utf16_lossy (encode_char c ++ us) = c :: from_utf16_lossy us.
Proof.
  intros Hc. unfold encode_char, is_scalar in *. case_decide.
  - simpl. unfold is_high, is_low. rewrite !bool_decide_false by lia. done.
  - simpl. unfold is_high, is_low.
    assert (0 <= (c - 65536) / 1024 < 1024) by (split; [apply Z.div_pos|apply Z.div_lt_upper_bound]; lia).
    pose proof (Z.mod_pos_bound (c - 65536) 1024 ltac:(lia)).
    rewrite !bool_decide_true by lia. f_equal.
    pose proof (Z.div_mod (c - 65536) 1024 ltac:(lia)). lia.
Qed.

Lemma utf16_roundtrip s : Forall is_scalar s -> from_utf16_lossy (encode_utf16 s) = s.
Proof.
  unfold encode_utf16. induction 1 as [|c s Hc _ IH]; [done|].
  simpl. rewrite utf16_char by done. by rewrite IH.
Qed.

Lemma encode_utf16_u16 s : Forall is_scalar s -> Forall in_u16 (encode_utf16 s).
Proof.
  unfold encode_utf16. induction 1 as [|c s Hc _ IH]; [constructor|]. simpl. apply Forall_app; split; [|done].
  unfold encode_char, is_scalar, in_u16 in *. case_decide; repeat constructor; try lia.
  - apply Z.add_nonneg_nonneg; [lia|]. apply Z.div_pos; lia.
  - assert ((c - 65536) / 1024 < 1024) by (apply Z.div_lt_upper_bound; lia). lia.
  - pose proof (Z.mod_pos_bound (c - 65536) 1024 ltac:(lia)). lia.
  - pose proof (Z.mod_pos_bound (c - 65536) 1024 ltac:(lia)). lia.
Qed.

(** Two-at-a-time induction for the pairing decoders. *)
Lemma list_ind2 {A} (P : list A -> Prop) :
  P [] -> (forall x, P [x]) -> (forall x y l, P l -> P (y :: l) -> P (x :: y :: l)) -> forall l, P l.
Proof.
  intros H0 H1 H2 l. cut (P l /\ forall x, P (x :: l)); [by intros [? _]|].
  induction l as [|y l [IH1 IH2]]; split; auto.
Qed.

Lemma from_utf16_lossy_cons2 u v us :
  from_utf16_lossy (u :: v :: us) =
    if is_high u then
      if is_low v then (0x10000 + (u - 0xD800) * 0x400 + (v - 0xDC00)) :: from_utf16_lossy us
      else REPLACEMENT :: from_utf16_lossy (v :: us)
    else if is_low u then REPLACEMENT :: from_utf16_lossy (v :: us)
    else u :: from_utf16_lossy (v :: us).
Proof. reflexivity. Qed.

Lemma from_utf16_lossy_scalar us : Forall in_u16 us -> Forall is_scalar (from_utf16_lossy us).
Proof.
  assert (is_scalar REPLACEMENT) as Hrep by (unfold is_scalar, REPLACEMENT; lia).
  assert (forall u, in_u16 u -> is_high u = false -> is_low u = false -> is_scalar u) as Hplain.
  { unfold in_u16, is_high, is_low, is_scalar. intros u Hu Hh%bool_decide_eq_false Hl%bool_decide_eq_false. lia. }
  induction us as [|u|u v us IH1 IH2] using list_ind2; intros Hu; [constructor|..].
  - inversion_clear Hu. simpl. destruct (is_high u) eqn:Hh; [by apply Forall_singleton|].
    destruct (is_low u) eqn:Hl; apply Forall_singleton; auto.
  - inversion_clear Hu as [|? ? Hu0 Hu1]. inversion_clear Hu1 as [|? ? Hv Hus].
    rewrite from_utf16_lossy_cons2. set (t := from_utf16_lossy (v :: us)) in *.
    destruct (is_high u) eqn:Hh.
    + destruct (is_low v) eqn:Hl.
      * constructor; [|by apply IH1]. unfold is_high, is_low in Hh, Hl.
        apply bool_decide_eq_true in Hh. apply bool_decide_eq_true in Hl. unfold is_scalar. lia.
      * constructor; [done|]. apply IH2. by constructor.
    + destruct (is_low u) eqn:Hl; (constructor; [auto|apply IH2; by constructor]).
Qed.

(** ** UTF-16LE byte strings *)
Definition utf16le (s : str) : list Z := Replies.u16_bytes (encode_utf16 s).
Definition utf16le_to_string (bytes : list Z) : str := from_utf16_lossy (Replies.vararg_to_u16 bytes).

Lemma utf16le_roundtrip s : Forall is_scalar s -> utf16le_to_string (utf16le s) = s.
Proof.
  intros Hs. unfold utf16le_to_string, utf16le.
  rewrite Replies.vararg_to_u16_bytes by (by apply encode_utf16_u16). by apply utf16_roundtrip.
Qed.

Lemma vararg_to_u16_in bytes : Forall in_u8 bytes -> Forall in_u16 (Replies.vararg_to_u16 bytes).
Proof.
  induction bytes as [|b|a b l IH _] using list_ind2; intros Hb; [constructor..|].
  inversion_clear Hb as [|? ? Ha Hb1]. inversion_clear Hb1 as [|? ? Hb2 Hl]. simpl.
  constructor; [unfold in_u8, in_u16 in *; lia|by apply IH].
Qed.

Lemma utf16le_to_string_scalar bytes : Forall in_u8 bytes -> Forall is_scalar (utf16le_to_string bytes).
Proof. intros. by apply from_utf16_lossy_scalar, vararg_to_u16_in. Qed.

(** ** UTF-8: [from_utf8_lossy] replaces each maximal invalid prefix *)
Definition is_cont (b : Z) : bool := bool_decide (0x80 <= b <= 0xBF).
Definition second_of_three (b0 b1 : Z) : bool :=
  if decide (b0 = 0xE0) then bool_decide (0xA0 <= b1 <= 0xBF)
  else if decide (b0 = 0xED) then bool_decide (0x80 <= b1 <= 0x9F) else is_cont b1.
Definition second_of_four (b0 b1 : Z) : bool :=
  if decide (b0 = 0xF0) then bool_decide (0x90 <= b1 <= 0xBF)
  else if decide (b0 = 0xF4) then bool_decide (0x80 <= b1 <= 0x8F) else is_cont b1.

Fixpoint from_utf8_lossy (bs : list Z) : str :=
  match bs with
  | [] => []
  | b0 :: r0 =>
      if decide (b0 < 0x80) then b0 :: from_utf8_lossy r0
      else if decide (0xC2 <= b0 <= 0xDF) then
        match r0 with
        | b1 :: r1 => if is_cont b1 then ((b0 - 0xC0) * 64 + (b1 - 0x80)) :: from_utf8_lossy r1
                      else REPLACEMENT :: from_utf8_lossy r0
        | [] => [REPLACEMENT]
        end
      else if decide (0xE0 <= b0 <= 0xEF) then
        match r0 with
        | b1 :: r1 =>
            if second_of_three b0 b1 then
              match r1 with
              | b2 :: r2 => if is_cont b2
                            then ((b0 - 0xE0) * 4096 + (b1 - 0x80) * 64 + (b2 - 0x80)) :: from_utf8_lossy r2
                            else REPLACEMENT :: from_utf8_lossy r1
              | [] => [REPLACEMENT]
              end
            else REPLACEMENT :: from_utf8_lossy r0
        | [] => [REPLACEMENT]
        end
      else if decide (0xF0 <= b0 <= 0xF4) then
        match r0 with
        | b1 :: r1 =>
            if second_of_four b0 b1 then
              match r1 with
              | b2 :: r2 =>
                  if is_cont b2 then
                    match r2 with
                    | b3 :: r3 => if is_cont b3
                                  then ((b0 - 0xF0) * 262144 + (b1 - 0x80) * 4096 + (b2 - 0x80) * 64 + (b3 - 0x80))
                                       :: from_utf8_lossy r3
                                  else REPLACEMENT :: from_utf8_lossy r2
                    | [] => [REPLACEMENT]
                    end
                  else REPLACEMENT :: from_utf8_lossy r1
              | [] => [REPLACEMENT]
              end
            else REPLACEMENT :: from_utf8_lossy r0
        | [] => [REPLACEMENT]
        end
      else REPLACEMENT :: from_utf8_lossy r0
  end.

Definition is_ascii (c : Z) : Prop := 0 <= c < 0x80.
#[export] Instance is_ascii_dec c : Decision (is_ascii c).
Proof. unfold is_ascii. apply _. Defined.

Lemma utf8_ascii bs : Forall is_ascii bs -> from_utf8_lossy bs = bs.
Proof.
  induction 1 as [|b bs Hb _ IH]; [done|]. unfold is_ascii in Hb.
  simpl. rewrite decide_True by lia. by rewrite IH.
Qed.

(** ** Case *)
Definition lower_ascii (c : Z) : Z := if decide (0x41 <= c <= 0x5A) then c + 32 else c.

End Text.
