(* ===== verification/Display.v ===== *)
(** * The display segment ([parallax/display_info.rs], [triskelion/display.rs])

    PARALLAX writes the display hardware it found into a 16384-byte shared
    segment; the daemon parses it at start.  [write_hardware] and [parse_shm] model
    the two sides over the same byte list; environment variables are arguments.  Rust
    strings are their UTF-8 bytes on the writer's side and scalar values on the
    reader's. *)

From stdpp Require Import base list strings.
From S2P Require Import Prelude Dispatch Text.
Local Open Scope Z_scope.

Module Display.
Import Text.

Definition SHM_MAGIC : Z := 0x5359424C.
Definition SHM_VERSION : Z := 1.
Definition MAX_CONNECTORS : nat := 8.
Definition MAX_MODES_PER_CONNECTOR : nat := 64.
Definition HEADER_SIZE : Z := 64.
Definition GPU_ENTRY_SIZE : Z := 256.
Definition MODE_ENTRY_SIZE : Z := 16.
Definition CONNECTOR_HEADER_SIZE : Z := 128.
Definition CONNECTOR_ENTRY_SIZE : Z := CONNECTOR_HEADER_SIZE + 64 * MODE_ENTRY_SIZE.
Definition SHM_SIZE : Z := 16384.

Record GpuInfo : Type := mkGpu {
  driver : list Z; pci_vendor : Z; pci_device : Z; pci_subsys_vendor : Z; pci_subsys_device : Z;
  pci_revision : Z; pci_bus_id : list Z; gpu_name : list Z; vram_bytes : Z;
}.
Record ModeInfo : Type := mkMode { width : Z; height : Z; refresh : Z; flags : Z; mode_type : Z }.
Record ConnectorInfo : Type := mkConn {
  cname : list Z; connector_id : Z; connected : bool; connector_type : Z; connector_type_id : Z;
  mm_width : Z; mm_height : Z; edid : list Z; modes : list ModeInfo; current_mode : option ModeInfo;
}.
Record DisplayHardware : Type := mkHw { gpus : list GpuInfo; connectors : list ConnectorInfo }.

(** What [write_hardware] reads from the environment. *)
Record DisplayEnv : Type := mkEnv { has_wayland : bool; has_x11 : bool; QUARK_DISPLAY_DRIVER : option string }.

(** ** Writer *)
Definition session_type (env : DisplayEnv) : Z :=
  match has_wayland env, has_x11 env with
  | true, _ => 2
  | false, true => 1
  | _, _ => 0
  end.

Definition driver_choice (env : DisplayEnv) (gpu_vendor : Z) : Z :=
  let session := session_type env in
  let detected := if decide (gpu_vendor = 0x10de) then 1
                  else if decide (session = 1) then 1
                  else if decide (session = 2) then 2 else 1 in
  match QUARK_DISPLAY_DRIVER env with
  | Some s =>
      if decide (s = "winex11.drv" \/ s = "x11")%string then 1
      else if decide (s = "winewayland.drv" \/ s = "wayland")%string then 2 else detected
  | None => detected
  end.

Definition write_gpu (gpu : GpuInfo) (buf : list Z) : list Z :=
  let base := HEADER_SIZE in
  let buf := put32 base (pci_vendor gpu) buf in
  let buf := put32 (base + 4) (pci_device gpu) buf in
  let buf := put32 (base + 8) (pci_subsys_vendor gpu) buf in
  let buf := put32 (base + 12) (pci_subsys_device gpu) buf in
  let buf := put32 (base + 16) (pci_revision gpu) buf in
  let buf := put_bytes (base + 20) (take 63 (driver gpu)) buf in
  let buf := put_bytes (base + 84) (take 63 (pci_bus_id gpu)) buf in
  let buf := put_bytes (base + 148) (take 63 (gpu_name gpu)) buf in
  put64 (base + 212) (vram_bytes gpu) buf.

Definition same_mode (m cur : ModeInfo) : bool :=
  bool_decide (width m = width cur /\ height m = height cur /\ refresh m = refresh cur).

(** [iter().position(p)] *)
Fixpoint position {A} (p : A -> bool) (l : list A) : option nat :=
  match l with
  | [] => None
  | x :: l' => if p x then Some 0%nat else S <$> position p l'
  end.

Definition current_index (c : ConnectorInfo) : Z :=
  match (cur ← current_mode c; position (fun m => same_mode m cur) (modes c)) with
  | Some i => u32 (Z.of_nat i)
  | None => 0xFFFFFFFF
  end.

Definition conn_base (i : nat) : Z := HEADER_SIZE + GPU_ENTRY_SIZE + Z.of_nat i * CONNECTOR_ENTRY_SIZE.
Definition mode_count (c : ConnectorInfo) : nat := (length (modes c) `min` MAX_MODES_PER_CONNECTOR)%nat.
Definition edid_len (c : ConnectorInfo) : nat := (length (edid c) `min` 128)%nat.

Definition write_mode (base : Z) (ms : list ModeInfo) (j : nat) (buf : list Z) : list Z :=
  match ms !! j with
  | Some m =>
      let mode_base := base + (CONNECTOR_HEADER_SIZE + Z.of_nat j * MODE_ENTRY_SIZE) in
      put32 (mode_base + 12) (flags m) (put32 (mode_base + 8) (refresh m)
        (put32 (mode_base + 4) (height m) (put32 mode_base (width m) buf)))
  | None => buf
  end.

Definition write_connector_header (base : Z) (c : ConnectorInfo) (buf : list Z) : list Z :=
  let buf := put32 base (connector_id c) buf in
  let buf := put32 (base + 4) (connector_type c) buf in
  let buf := put32 (base + 8) (connector_type_id c) buf in
  let buf := put32 (base + 12) (mm_width c) buf in
  let buf := put32 (base + 16) (mm_height c) buf in
  let buf := put32 (base + 20) (Z.of_nat (mode_count c)) buf in
  let buf := put32 (base + 24) (current_index c) buf in
  let buf := put32 (base + 28) (Z.of_nat (edid_len c)) buf in
  put_bytes (base + 32) (take 31 (cname c)) buf.

Definition write_connector (i : nat) (c : ConnectorInfo) (buf : list Z) : list Z :=
  let base := conn_base i in
  let buf := write_connector_header base c buf in
  let buf := put_bytes (base + 64) (take (edid_len c) (edid c)) buf in
  write_table (mode_count c) (write_mode base (modes c)) buf.

Definition live_connectors (hw : DisplayHardware) : list ConnectorInfo :=
  take MAX_CONNECTORS (filter (fun c => connected c = true) (connectors hw)).

Definition write_connectors (cs : list ConnectorInfo) (i : nat) (buf : list Z) : list Z :=
  match cs !! i with Some c => write_connector i c buf | None => buf end.

(** The segment after [create], and [write_hardware] on it. *)
Definition fresh_segment : list Z := replicate (Z.to_nat SHM_SIZE) 0.

Definition write_header (env : DisplayEnv) (hw : DisplayHardware) (buf : list Z) : list Z :=
  let buf := put32 0 SHM_MAGIC buf in
  let buf := put32 4 SHM_VERSION buf in
  let buf := put32 8 (Z.of_nat (length (gpus hw) `min` 1)) buf in
  let buf := put32 12 (Z.of_nat (length (filter (fun c => connected c = true) (connectors hw)) `min` MAX_CONNECTORS)) buf in
  let buf := put32 24 (session_type env) buf in
  let buf := put8 20 (driver_choice env (default 0 (pci_vendor <$> head (gpus hw)))) buf in
  put32 16 1 buf.

Definition write_hardware (env : DisplayEnv) (hw : DisplayHardware) (buf : list Z) : list Z :=
  let buf := write_header env hw buf in
  let buf := match head (gpus hw) with Some gpu => write_gpu gpu buf | None => buf end in
  let buf := write_table (length (live_connectors hw)) (write_connectors (live_connectors hw)) buf in
  put32 16 2 buf.

(** ** Reader *)
Record GpuData : Type := mkGpuData {
  g_pci_vendor : Z; g_pci_device : Z; g_pci_subsys_vendor : Z; g_pci_subsys_device : Z; g_pci_revision : Z;
  g_driver : str; g_bus_id : str; g_gpu_name : str; g_vram_bytes : Z;
}.
Record ModeData : Type := mkModeData { m_width : Z; m_height : Z; m_refresh : Z }.
Record ConnectorData : Type := mkConnData {
  d_name : str; d_connector_type : Z; d_mm_width : Z; d_mm_height : Z; d_edid : list Z;
  d_modes : list ModeData; d_current_mode_index : Z; current_width : Z; current_height : Z; current_refresh : Z;
}.
Record DisplayData : Type := mkDisplay {
  gpu : GpuData; d_connectors : list ConnectorData; d_driver_choice : Z; d_session_type : Z;
}.

Fixpoint until_zero (bs : list Z) : list Z :=
  match bs with
  | [] => []
  | b :: bs' => if decide (b = 0) then [] else b :: until_zero bs'
  end.

Definition read_cstr (buf : list Z) (ptr max_len : Z) : str :=
  from_utf8_lossy (until_zero (get_bytes ptr max_len buf)).

Definition read_mode (buf : list Z) (conn_base : Z) (j : nat) : ModeData :=
  let mode_base := conn_base + (CONNECTOR_HEADER_SIZE + Z.of_nat j * MODE_ENTRY_SIZE) in
  mkModeData (get32 buf mode_base) (get32 buf (mode_base + 4)) (get32 buf (mode_base + 8)).

Definition current_of (ms : list ModeData) (idx : Z) : Z * Z * Z :=
  match ms !! Z.to_nat idx with
  | Some m => (m_width m, m_height m, m_refresh m)
  | None => match ms with
            | m :: _ => (m_width m, m_height m, m_refresh m)
            | [] => (1920, 1080, 60)
            end
  end.

Definition read_connector (buf : list Z) (i : nat) : ConnectorData :=
  let base := conn_base i in
  let count := (Z.to_nat (get32 buf (base + 20)) `min` MAX_MODES_PER_CONNECTOR)%nat in
  let idx := get32 buf (base + 24) in
  let elen := (Z.to_nat (get32 buf (base + 28)) `min` 128)%nat in
  let ms := map (read_mode buf base) (seq 0 count) in
  let '(w, h, r) := current_of ms idx in
  mkConnData (read_cstr buf (base + 32) 31) (get32 buf (base + 4)) (get32 buf (base + 12)) (get32 buf (base + 16))
    (get_bytes (base + 64) (Z.of_nat elen) buf) ms idx w h r.

Definition read_gpu (buf : list Z) : GpuData :=
  let base := HEADER_SIZE in
  mkGpuData (get32 buf base) (get32 buf (base + 4)) (get32 buf (base + 8)) (get32 buf (base + 12))
    (get32 buf (base + 16)) (read_cstr buf (base + 20) 63) (read_cstr buf (base + 84) 63)
    (read_cstr buf (base + 148) 63) (get64 buf (base + 212)).

Definition parse_shm (buf : list Z) : option DisplayData :=
  if decide (get32 buf 0 <> SHM_MAGIC) then None
  else if decide (get32 buf 8 = 0) then None
  else
    let count := (Z.to_nat (get32 buf 12) `min` 8)%nat in
    Some (mkDisplay (read_gpu buf) (map (read_connector buf) (seq 0 count)) (get8 buf 20) (get32 buf 24)).

(** ** Queries on the parsed data *)
Definition primary_resolution (d : DisplayData) : Z * Z :=
  match d_connectors d with
  | c :: _ => (i32 (current_width c), i32 (current_height c))
  | [] => (1920, 1080)
  end.

Definition display_driver (d : DisplayData) : string * string :=
  if decide (d_driver_choice d = 2) then ("wayland", "winewayland.drv")%string else ("x11", "winex11.drv")%string.

(** Three letters, as byte values; [u8] arithmetic wraps. *)
Definition edid_manufacturer (e : list Z) : list Z :=
  if decide (length e < 10)%nat then [0x55; 0x4E; 0x4B]
  else
    let raw := Z.lor (Z.shiftl (default 0 (e !! 8%nat)) 8) (default 0 (e !! 9%nat)) in
    let letter n := u8 (u8 (Z.land (Z.shiftr raw n) 0x1F + 0x41) - 1) in
    [letter 10; letter 5; letter 0].

Definition edid_product (e : list Z) : Z :=
  if decide (length e < 12)%nat then 0
  else Z.lor (default 0 (e !! 10%nat)) (Z.shiftl (default 0 (e !! 11%nat)) 8).


(** ** Layout lemmas *)
Lemma blen_write_mode base ms j b : blen (write_mode base ms j b) = blen b.
Proof. unfold write_mode. destruct (ms !! j); by autorewrite with buffers. Qed.
Lemma blen_write_connector_header base c b : blen (write_connector_header base c b) = blen b.
Proof. unfold write_connector_header. by autorewrite with buffers. Qed.
#[local] Hint Rewrite blen_write_mode blen_write_connector_header : buffers.
Lemma blen_write_modes base ms n b : blen (write_table n (write_mode base ms) b) = blen b.
Proof. apply write_table_len; [|done]. intros. by rewrite blen_write_mode. Qed.
#[local] Hint Rewrite blen_write_modes : buffers.
Lemma blen_write_connector i c b : blen (write_connector i c b) = blen b.
Proof. unfold write_connector. by autorewrite with buffers. Qed.
Lemma blen_write_connectors cs i b : blen (write_connectors cs i b) = blen b.
Proof. unfold write_connectors. destruct (cs !! i); [apply blen_write_connector|done]. Qed.
Lemma blen_write_gpu g b : blen (write_gpu g b) = blen b.
Proof. unfold write_gpu, put64. by autorewrite with buffers. Qed.
Lemma blen_write_header env hw b : blen (write_header env hw b) = blen b.
Proof. unfold write_header. by autorewrite with buffers. Qed.
#[local] Hint Rewrite blen_write_connector blen_write_connectors blen_write_gpu blen_write_header : buffers.

(** Reads of byte ranges through writes; every field access is one. *)
Ltac bytes_side := autorewrite with buffers; rewrite ?length_le_bytes, ?length_take; cbn [length]; lia.
Ltac bytes :=
  repeat first
    [ rewrite put32_bytes | rewrite put8_bytes
    | rewrite get_bytes_put_bytes_other by bytes_side
    | rewrite get_bytes_put_bytes_same by bytes_side ].

Definition mode_bytes (m : ModeInfo) : list Z :=
  le_bytes 4 (width m) ++ le_bytes 4 (height m) ++ le_bytes 4 (refresh m) ++ le_bytes 4 (flags m).

Lemma get_bytes_split off a b buf :
  0 <= off -> 0 <= a -> 0 <= b -> get_bytes off (a + b) buf = get_bytes off a buf ++ get_bytes (off + a) b buf.
Proof.
  intros. unfold get_bytes, slice. rewrite Z2Nat.inj_add by done.
  rewrite Z2Nat.inj_add by done. rewrite <- drop_drop. by rewrite take_take_drop.
Qed.

Lemma write_mode_read base ms j m b :
  ms !! j = Some m -> 0 <= base -> base + 128 + Z.of_nat j * 16 + 16 <= blen b ->
  get_bytes (base + (128 + Z.of_nat j * 16)) 16 (write_mode base ms j b) = mode_bytes m.
Proof.
  intros Hm Hb0 Hb. unfold write_mode. rewrite Hm. unfold CONNECTOR_HEADER_SIZE, MODE_ENTRY_SIZE.
  set (mb := base + (128 + Z.of_nat j * 16)).
  assert (0 <= mb /\ mb + 16 <= blen b) as [? ?] by lia. clearbody mb.
  change 16 with (4 + (4 + (4 + 4))). rewrite !get_bytes_split by lia.
  replace (mb + 4 + 4) with (mb + 8) by lia. replace (mb + 8 + 4) with (mb + 12) by lia.
  unfold mode_bytes. repeat f_equal; by bytes.
Qed.

Lemma write_mode_frame base ms j b off n :
  0 <= base -> base + 128 + Z.of_nat j * 16 + 16 <= blen b -> 0 <= off -> 0 <= n ->
  off + n <= base + 128 + Z.of_nat j * 16 \/ base + 128 + Z.of_nat j * 16 + 16 <= off ->
  get_bytes off n (write_mode base ms j b) = get_bytes off n b.
Proof.
  intros. unfold write_mode, CONNECTOR_HEADER_SIZE, MODE_ENTRY_SIZE.
  destruct (ms !! j); [|done]. by bytes.
Qed.

Section modes.
Context (base : Z) (ms : list ModeInfo) (n : nat) (b : list Z).
Context (Hbase : 0 <= base) (Hfit : base + 1152 <= blen b) (Hn : (n <= 64)%nat).

Lemma modes_frame off k :
  0 <= off -> 0 <= k -> off + k <= base + 128 \/ base + 1152 <= off ->
  get_bytes off k (write_table n (write_mode base ms) b) = get_bytes off k b.
Proof.
  intros. apply (write_table_frame _ (blen b) (get_bytes off k)); [|done].
  intros j b' Hj Hb'. rewrite blen_write_mode. split; [done|]. apply write_mode_frame; lia.
Qed.

Lemma modes_read j m :
  ms !! j = Some m -> (j < n)%nat ->
  get_bytes (base + (128 + Z.of_nat j * 16)) 16 (write_table n (write_mode base ms) b) = mode_bytes m.
Proof.
  intros Hm Hj.
  apply (write_table_entry _ (blen b) (get_bytes (base + (128 + Z.of_nat j * 16)) 16) _ n j); [done|..|done].
  - intros. by rewrite blen_write_mode.
  - intros b' Hb'. apply write_mode_read; [done..|lia].
  - intros k b' Hk Hne Hb'. apply write_mode_frame; lia.
Qed.
End modes.

(** ** Null-terminated names *)
Definition cstr_ok (max : nat) (s : list Z) : Prop := Forall (fun c => 0 < c < 0x80) s /\ (length s <= max)%nat.

Lemma until_zero_app s k : Forall (fun c => 0 < c < 0x80) s -> until_zero (s ++ replicate k 0) = s.
Proof.
  induction 1 as [|c s Hc _ IH]; simpl; [by destruct k|].
  rewrite decide_False by lia. by rewrite IH.
Qed.

Lemma read_cstr_bytes b b' p n : get_bytes p n b = get_bytes p n b' -> read_cstr b p n = read_cstr b' p n.
Proof. unfold read_cstr. by intros ->. Qed.

Lemma cstr_written off (max : nat) s b :
  cstr_ok max s -> 0 <= off -> off + Z.of_nat max <= blen b ->
  get_bytes off (Z.of_nat max) b = replicate max 0 ->
  read_cstr (put_bytes off (take max s) b) off (Z.of_nat max) = s.
Proof.
  intros [Hs Hlen] H0 Hb Hz. unfold read_cstr. rewrite (take_ge s) by done.
  set (k := length s) in *.
  assert (get_bytes off (Z.of_nat max) (put_bytes off s b) = s ++ replicate (max - k) 0) as ->.
  { replace (Z.of_nat max) with (Z.of_nat k + Z.of_nat (max - k)) by lia.
    rewrite get_bytes_split by lia. rewrite get_bytes_put_bytes_same by lia.
    rewrite get_bytes_put_bytes_other by lia. f_equal.
    transitivity (get_bytes (Z.of_nat k) (Z.of_nat (max - k)) (get_bytes off (Z.of_nat max) b)).
    - symmetry. apply get_bytes_get_bytes; lia.
    - rewrite Hz. unfold get_bytes, slice. rewrite !Nat2Z.id, drop_replicate, take_replicate. f_equal. lia. }
  rewrite until_zero_app by done. apply utf8_ascii.
  apply (Forall_impl _ _ _ Hs). unfold is_ascii. lia.
Qed.

(** ** One connector *)
Definition mode_ok (m : ModeInfo) : Prop := in_u32 (width m) /\ in_u32 (height m) /\ in_u32 (refresh m).
Record conn_ok (c : ConnectorInfo) : Prop := {
  ok_name : cstr_ok 31 (cname c);
  ok_ids : in_u32 (connector_type c) /\ in_u32 (mm_width c) /\ in_u32 (mm_height c);
  ok_modes : Forall mode_ok (modes c);
}.
Definition view_mode (m : ModeInfo) : ModeData := mkModeData (width m) (height m) (refresh m).

Lemma conn_base_bounds i : (i < 8)%nat -> 320 <= conn_base i /\ conn_base i + 1152 <= SHM_SIZE.
Proof. intros. unfold conn_base, HEADER_SIZE, GPU_ENTRY_SIZE, CONNECTOR_ENTRY_SIZE, CONNECTOR_HEADER_SIZE, MODE_ENTRY_SIZE, SHM_SIZE. lia. Qed.

Lemma current_index_in c : in_u32 (current_index c).
Proof. unfold current_index. destruct (_ ≫= _); [apply u32_in|unfold in_u32; lia]. Qed.

(** Everything the reader sees lies in the connector's 1152 bytes. *)
Lemma read_connector_window b b' i :
  get_bytes (conn_base i) 1152 b = get_bytes (conn_base i) 1152 b' ->
  read_connector b i = read_connector b' i.
Proof.
  intros Hw. assert (0 <= conn_base i) as H0.
  { unfold conn_base, HEADER_SIZE, GPU_ENTRY_SIZE, CONNECTOR_ENTRY_SIZE, CONNECTOR_HEADER_SIZE, MODE_ENTRY_SIZE. lia. }
  assert (forall o n, 0 <= o -> 0 <= n -> o + n <= 1152 ->
    get_bytes (conn_base i + o) n b = get_bytes (conn_base i + o) n b') as Hsub.
  { intros o n Ho Hn Hon. rewrite <- !(get_bytes_get_bytes (conn_base i) 1152) by lia. by rewrite Hw. }
  assert (forall o, 0 <= o -> o + 4 <= 1152 -> get32 b (conn_base i + o) = get32 b' (conn_base i + o)) as H32.
  { intros o Ho Ho4. rewrite !get32_bytes. by rewrite Hsub by lia. }
  unfold read_connector. rewrite !H32 by lia.
  assert (map (read_mode b (conn_base i)) (seq 0 (Z.to_nat (get32 b' (conn_base i + 20)) `min` MAX_MODES_PER_CONNECTOR)) =
          map (read_mode b' (conn_base i)) (seq 0 (Z.to_nat (get32 b' (conn_base i + 20)) `min` MAX_MODES_PER_CONNECTOR))) as ->.
  { apply map_ext_in. intros j Hj%in_seq. unfold MAX_MODES_PER_CONNECTOR in Hj.
    unfold read_mode, CONNECTOR_HEADER_SIZE, MODE_ENTRY_SIZE. rewrite <- !Z.add_assoc. f_equal; apply H32; lia. }
  rewrite (read_cstr_bytes b b') by (apply Hsub; lia). rewrite (Hsub 64) by lia. done.
Qed.

Lemma mode_count_le c : (mode_count c <= 64)%nat.
Proof. unfold mode_count, MAX_MODES_PER_CONNECTOR. lia. Qed.
Lemma edid_len_le c : (edid_len c <= 128)%nat /\ length (take (edid_len c) (edid c)) = edid_len c.
Proof. unfold edid_len. rewrite length_take. lia. Qed.

Section connector.
Context (i : nat) (c : ConnectorInfo) (b : list Z).
Context (Hi : (i < 8)%nat) (Hc : conn_ok c) (Hb : blen b = SHM_SIZE).
Context (Hz : get_bytes (conn_base i) 1152 b = replicate 1152 0).
Let b1 := write_connector_header (conn_base i) c b.
Let b2 := put_bytes (conn_base i + 64) (take (edid_len c) (edid c)) b1.


(** Fields below offset 64 are those of the header stage. *)
Lemma connector_low o n :
  0 <= o -> 0 <= n -> o + n <= 64 ->
  get_bytes (conn_base i + o) n (write_connector i c b) = get_bytes (conn_base i + o) n b1.
Proof.
  intros. pose proof (conn_base_bounds i Hi). pose proof (mode_count_le c). pose proof (edid_len_le c) as [? ?].
  unfold write_connector. fold b1. fold b2.
  assert (blen b1 = SHM_SIZE) by (unfold b1; by autorewrite with buffers).
  rewrite modes_frame; [|lia|unfold b2; autorewrite with buffers; lia|done|lia|lia|lia].
  unfold b2. rewrite get_bytes_put_bytes_other by lia. done.
Qed.

Lemma connector_field o v :
  0 <= o -> o + 4 <= 32 -> in_u32 v -> get_bytes (conn_base i + o) 4 b1 = le_bytes 4 v ->
  get32 (write_connector i c b) (conn_base i + o) = v.
Proof. intros H0 H32 Hv Hg. rewrite get32_bytes, connector_low, Hg by lia. by apply from_le_u32. Qed.

Lemma connector_fields :
  get32 (write_connector i c b) (conn_base i + 4) = connector_type c /\
  get32 (write_connector i c b) (conn_base i + 12) = mm_width c /\
  get32 (write_connector i c b) (conn_base i + 16) = mm_height c /\
  get32 (write_connector i c b) (conn_base i + 20) = Z.of_nat (mode_count c) /\
  get32 (write_connector i c b) (conn_base i + 24) = current_index c /\
  get32 (write_connector i c b) (conn_base i + 28) = Z.of_nat (edid_len c).
Proof.
  pose proof (conn_base_bounds i Hi). destruct (ok_ids c Hc) as (? & ? & ?).
  pose proof (mode_count_le c). pose proof (edid_len_le c) as [? _]. pose proof (current_index_in c).
  unfold SHM_SIZE in *.
  split_and!; (apply connector_field; [lia|lia|first [done|unfold in_u32; lia]|]);
    unfold b1, write_connector_header; by bytes.
Qed.

Lemma connector_name : read_cstr (write_connector i c b) (conn_base i + 32) 31 = cname c.
Proof.
  pose proof (conn_base_bounds i Hi). unfold SHM_SIZE in *.
  rewrite (read_cstr_bytes _ b1) by (apply connector_low; lia).
  unfold b1, write_connector_header. change 31 with (Z.of_nat 31) at 1.
  apply cstr_written; [apply (ok_name c Hc)|lia|autorewrite with buffers; lia|].
  bytes. rewrite <- (get_bytes_get_bytes (conn_base i) 1152) by lia. rewrite Hz.
  unfold get_bytes, slice. rewrite drop_replicate, take_replicate. done.
Qed.

Lemma connector_mode j m :
  modes c !! j = Some m -> (j < 64)%nat ->
  get_bytes (conn_base i + (128 + Z.of_nat j * 16)) 16 (write_connector i c b) = mode_bytes m.
Proof.
  intros Hm Hj. pose proof (conn_base_bounds i Hi). pose proof (mode_count_le c).
  pose proof (lookup_lt_Some _ _ _ Hm).
  unfold write_connector. fold b1. fold b2.
  assert (blen b2 = SHM_SIZE) by (unfold b2, b1; by autorewrite with buffers).
  apply modes_read; try lia; [done|]. unfold mode_count, MAX_MODES_PER_CONNECTOR. lia.
Qed.

Lemma connector_mode_view j m :
  modes c !! j = Some m -> (j < 64)%nat ->
  read_mode (write_connector i c b) (conn_base i) j = view_mode m.
Proof.
  intros Hm Hj. pose proof (connector_mode j m Hm Hj) as Hbytes.
  destruct (Forall_lookup_1 _ _ _ _ (ok_modes c Hc) Hm) as (Hw & Hh & Hr).
  pose proof (conn_base_bounds i Hi). unfold read_mode, CONNECTOR_HEADER_SIZE, MODE_ENTRY_SIZE, view_mode.
  set (mb := conn_base i + (128 + Z.of_nat j * 16)) in *.
  assert (forall o, 0 <= o -> o + 4 <= 16 ->
    get32 (write_connector i c b) (mb + o) = from_le (get_bytes o 4 (mode_bytes m))) as H32.
  { intros o Ho Ho4. rewrite get32_bytes, <- (get_bytes_get_bytes mb 16) by lia. by rewrite Hbytes. }
  rewrite <- (Z.add_0_r mb) at 1. rewrite !H32 by lia.
  f_equal; (etransitivity; [|apply from_le_u32; eassumption]); reflexivity.
Qed.

Lemma connector_modes :
  map (read_mode (write_connector i c b) (conn_base i)) (seq 0 (mode_count c)) = map view_mode (take 64 (modes c)).
Proof.
  change (map ?f ?l) with (f <$> l). apply list_eq; intros j.
  rewrite !list_lookup_fmap. unfold mode_count, MAX_MODES_PER_CONNECTOR.
  destruct (decide (j < length (modes c) `min` 64)%nat).
  - rewrite lookup_seq_lt, lookup_take_lt by lia.
    destruct (lookup_lt_is_Some_2 (modes c) j) as [m Hm]; [lia|]. rewrite Hm. cbn [fmap option_fmap option_map Nat.add].
    f_equal. apply connector_mode_view; [done|lia].
  - rewrite lookup_seq_ge by lia. rewrite (lookup_ge_None_2 (take 64 (modes c))); [done|].
    rewrite length_take. lia.
Qed.

(** The EDID area runs into the mode table: its first 64 bytes are safe. *)
Lemma connector_edid_low :
  let k := (edid_len c `min` 64)%nat in
  get_bytes (conn_base i + 64) (Z.of_nat k) (write_connector i c b) = take k (edid c).
Proof.
  intros k. pose proof (conn_base_bounds i Hi). pose proof (mode_count_le c). pose proof (edid_len_le c) as [? Hl].
  unfold write_connector. fold b1. fold b2.
  assert (blen b1 = SHM_SIZE) by (unfold b1; by autorewrite with buffers).
  assert (blen b2 = SHM_SIZE) by (unfold b2; by autorewrite with buffers).
  rewrite modes_frame by lia.
  transitivity (get_bytes 0 (Z.of_nat k) (get_bytes (conn_base i + 64) (Z.of_nat (edid_len c)) b2)).
  { rewrite get_bytes_get_bytes by lia. by rewrite Z.add_0_r. }
  unfold b2. rewrite get_bytes_put_bytes_same by lia.
  unfold get_bytes, slice. rewrite Nat2Z.id. change (Z.to_nat 0) with 0%nat. rewrite drop_0, take_take.
  f_equal. lia.
Qed.

Lemma connector_edid_whole :
  modes c = [] ->
  get_bytes (conn_base i + 64) (Z.of_nat (edid_len c)) (write_connector i c b) = take (edid_len c) (edid c).
Proof.
  intros Hnil. pose proof (conn_base_bounds i Hi). pose proof (edid_len_le c) as [? Hl].
  unfold write_connector. fold b1. fold b2. unfold mode_count. rewrite Hnil. cbn [length Nat.min write_table].
  unfold write_table. cbn [seq fold_left]. unfold b2.
  assert (blen b1 = SHM_SIZE) by (unfold b1; by autorewrite with buffers).
  apply get_bytes_put_bytes_same; lia.
Qed.
End connector.

(** A connector writes only its own 1152 bytes. *)
Lemma write_connector_frame i c b off n :
  (i < 8)%nat -> blen b = SHM_SIZE -> 0 <= off -> 0 <= n ->
  off + n <= conn_base i \/ conn_base i + 1152 <= off ->
  get_bytes off n (write_connector i c b) = get_bytes off n b.
Proof.
  intros Hi Hb H0 Hn Hoff. pose proof (conn_base_bounds i Hi).
  pose proof (mode_count_le c). pose proof (edid_len_le c) as [? Hl].
  unfold write_connector.
  rewrite modes_frame by (autorewrite with buffers; lia).
  rewrite get_bytes_put_bytes_other by (autorewrite with buffers; lia).
  unfold write_connector_header. unfold SHM_SIZE in *. by bytes.
Qed.

Section segment.
Context (env : DisplayEnv) (hw : DisplayHardware) (g : GpuInfo).
Context (Hg : head (gpus hw) = Some g).
Let cs := live_connectors hw.
Let bh := write_header env hw fresh_segment.
Let bg := write_gpu g bh.
Let bt := write_table (length cs) (write_connectors cs) bg.
Let bf := write_hardware env hw fresh_segment.

Lemma live_length : (length cs <= 8)%nat.
Proof. unfold cs, live_connectors, MAX_CONNECTORS. rewrite length_take. lia. Qed.
Lemma blen_bh : blen bh = SHM_SIZE.
Proof. unfold bh. autorewrite with buffers. unfold blen, fresh_segment. by rewrite length_replicate. Qed.
Lemma blen_bg : blen bg = SHM_SIZE.
Proof. unfold bg. autorewrite with buffers. apply blen_bh. Qed.
Lemma blen_bt : blen bt = SHM_SIZE.
Proof. apply write_table_len; [|apply blen_bg]. intros. by autorewrite with buffers. Qed.
Lemma bf_eq : bf = put32 16 2 bt.
Proof. unfold bf, write_hardware. rewrite Hg. done. Qed.

(** Below offset 320 only the header and the GPU entry write. *)
Lemma bf_low off n :
  0 <= off -> 0 <= n -> off + n <= 320 -> off + n <= 16 \/ 20 <= off ->
  get_bytes off n bf = get_bytes off n bg.
Proof.
  intros. rewrite bf_eq, put32_bytes. pose proof blen_bt as Hbt. unfold SHM_SIZE in Hbt.
  rewrite get_bytes_put_bytes_other by (rewrite ?length_le_bytes; lia).
  apply (write_table_frame _ SHM_SIZE (get_bytes off n)); [|apply blen_bg].
  intros j b Hj Hb. rewrite blen_write_connectors. split; [done|]. pose proof live_length.
  unfold write_connectors. destruct (cs !! j) as [c|]; [|done].
  apply write_connector_frame; try lia. pose proof (conn_base_bounds j). lia.
Qed.

Lemma write_gpu_frame b off n :
  blen b = SHM_SIZE -> 0 <= off -> 0 <= n -> off + n <= 64 \/ 284 <= off ->
  get_bytes off n (write_gpu g b) = get_bytes off n b.
Proof. unfold SHM_SIZE. intros. unfold write_gpu, HEADER_SIZE, put64. by bytes. Qed.

Lemma fresh_zero off n : 0 <= off -> 0 <= n -> off + n <= SHM_SIZE ->
  get_bytes off n fresh_segment = replicate (Z.to_nat n) 0.
Proof.
  intros. unfold get_bytes, slice, fresh_segment. rewrite drop_replicate, take_replicate. f_equal. lia.
Qed.

Lemma bh_high off n : 28 <= off -> 0 <= n -> off + n <= SHM_SIZE -> get_bytes off n bh = replicate (Z.to_nat n) 0.
Proof.
  intros. rewrite <- (fresh_zero off) by lia.
  assert (blen fresh_segment = 16384) by (unfold blen, fresh_segment; by rewrite length_replicate).
  unfold bh, write_header. by bytes.
Qed.

Lemma segment_header :
  get32 bf 0 = SHM_MAGIC /\ get32 bf 8 = 1 /\ get32 bf 12 = Z.of_nat (length cs) /\
  get32 bf 24 = session_type env /\ get8 bf 20 = driver_choice env (pci_vendor g).
Proof.
  assert (blen fresh_segment = 16384) by (unfold blen, fresh_segment; by rewrite length_replicate).
  pose proof live_length as Hlive.
  assert (session_type env = 0 \/ session_type env = 1 \/ session_type env = 2) as Hsess
    by (unfold session_type; destruct (has_wayland env), (has_x11 env); auto).
  assert (length (gpus hw) `min` 1 = 1)%nat as Hone by (destruct (gpus hw); [done|simpl; lia]).
  assert (length (filter (fun c => connected c = true) (connectors hw)) `min` MAX_CONNECTORS = length cs)%nat as Hcount.
  { unfold cs, live_connectors. rewrite length_take. lia. }
  rewrite !get32_bytes, get8_bytes by lia. rewrite !bf_low by lia.
  unfold bg. rewrite !write_gpu_frame by (apply blen_bh || lia).
  unfold bh, write_header. rewrite Hone, Hcount, Hg. cbn [fmap option_fmap option_map default].
  split_and!; bytes; try (apply from_le_u32; unfold in_u32; lia); done.
Qed.

Record gpu_ok : Prop := {
  gok_ids : in_u32 (pci_vendor g) /\ in_u32 (pci_device g) /\ in_u32 (pci_subsys_vendor g) /\
            in_u32 (pci_subsys_device g) /\ in_u32 (pci_revision g) /\ in_u64 (vram_bytes g);
  gok_names : cstr_ok 63 (driver g) /\ cstr_ok 63 (pci_bus_id g) /\ cstr_ok 63 (gpu_name g);
}.

Definition view_gpu : GpuData :=
  mkGpuData (pci_vendor g) (pci_device g) (pci_subsys_vendor g) (pci_subsys_device g) (pci_revision g)
    (driver g) (pci_bus_id g) (gpu_name g) (vram_bytes g).

Lemma gpu_cstr off s b :
  cstr_ok 63 s -> 84 <= off -> off + 63 <= 320 -> blen b = SHM_SIZE ->
  get_bytes off 63 b = replicate 63 0 ->
  from_utf8_lossy (until_zero (get_bytes off 63 (put_bytes off (take 63 s) b))) = s.
Proof.
  intros. fold (read_cstr (put_bytes off (take 63 s) b) off 63). unfold SHM_SIZE in *. change 63 with (Z.of_nat 63) at 1. apply cstr_written; [done|lia|lia|done].
Qed.

Lemma segment_gpu : gpu_ok -> read_gpu bf = view_gpu.
Proof.
  intros [(? & ? & ? & ? & ? & ?) (Hd & Hp & Hn)]. pose proof blen_bh as Hb. unfold SHM_SIZE in Hb.
  pose proof bh_high as Hz. unfold SHM_SIZE in Hz.
  unfold read_gpu, view_gpu, HEADER_SIZE. rewrite !get32_bytes. unfold get64. rewrite !bf_low by lia.
  rewrite !(read_cstr_bytes bf bg) by (apply bf_low; lia).
  unfold bg, write_gpu, HEADER_SIZE, put64, read_cstr. f_equal.
  1-5: by bytes; apply from_le_u32.
  1-3: bytes; apply gpu_cstr; [done|lia|lia|by autorewrite with buffers|]; bytes; by apply Hz.
  by bytes; apply from_le_u64.
Qed.

(** The buffer a connector is read from: only its own write matters. *)
Lemma segment_connector i c :
  cs !! i = Some c ->
  exists b, blen b = SHM_SIZE /\ get_bytes (conn_base i) 1152 b = replicate 1152 0 /\
    read_connector bf i = read_connector (write_connector i c b) i.
Proof.
  intros Hc. pose proof live_length. pose proof (lookup_lt_Some _ _ _ Hc) as Hi.
  pose proof (conn_base_bounds i) as Hbi.
  destruct (write_table_window (write_connectors cs) SHM_SIZE (get_bytes (conn_base i) 1152) (length cs) i bg)
    as (b & Hb & Hwin & Hfin); [done|..|apply blen_bg|].
  - intros. by autorewrite with buffers.
  - intros j b Hj Hne Hb. unfold write_connectors. destruct (cs !! j) as [c'|]; [|done].
    apply write_connector_frame; try lia.
    unfold conn_base, CONNECTOR_ENTRY_SIZE, CONNECTOR_HEADER_SIZE, MODE_ENTRY_SIZE. lia.
  - exists b. split_and!; [done|..].
    + rewrite Hwin. unfold bg. rewrite write_gpu_frame by (apply blen_bh || lia).
      apply bh_high; lia.
    + apply read_connector_window. rewrite bf_eq, put32_bytes. fold bt in Hfin.
      rewrite get_bytes_put_bytes_other by (rewrite ?blen_bt, ?length_le_bytes; lia).
      rewrite Hfin. unfold write_connectors. by rewrite Hc.
Qed.
End segment.

Lemma position_lookup {A} (p : A -> bool) l k : position p l = Some k -> exists x, l !! k = Some x /\ p x = true.
Proof.
  revert k; induction l as [|x l IH]; intros k; simpl; [done|].
  destruct (p x) eqn:Hp; [intros [= <-]; by exists x|].
  destruct (position p l) as [k'|]; [|done]. intros [= <-]. by apply IH.
Qed.

(** The mode reported as current is the current mode, if it is among the
    first 64. *)
Lemma current_of_index c cur k :
  current_mode c = Some cur -> position (fun m => same_mode m cur) (modes c) = Some k -> (k < 64)%nat ->
  current_of (map view_mode (take 64 (modes c))) (current_index c) = (width cur, height cur, refresh cur).
Proof.
  intros Hcur Hpos Hk. unfold current_index. rewrite Hcur. simpl. rewrite Hpos.
  rewrite u32_small by (unfold in_u32; lia). unfold current_of. rewrite Nat2Z.id.
  destruct (position_lookup _ _ _ Hpos) as (m & Hm & Hsame).
  change (map view_mode (take 64 (modes c))) with (view_mode <$> take 64 (modes c)).
  rewrite list_lookup_fmap, lookup_take_lt, Hm by done. simpl.
  apply bool_decide_eq_true in Hsame as (-> & -> & ->). done.
Qed.

(** What the daemon gets to know of a connector. *)
Definition connector_seen (c : ConnectorInfo) (dc : ConnectorData) : Prop :=
  d_name dc = cname c /\ d_connector_type dc = connector_type c /\
  d_mm_width dc = mm_width c /\ d_mm_height dc = mm_height c /\
  d_modes dc = map view_mode (take 64 (modes c)) /\
  (forall cur k, current_mode c = Some cur -> position (fun m => same_mode m cur) (modes c) = Some k ->
     (k < 64)%nat -> (current_width dc, current_height dc, current_refresh dc) = (width cur, height cur, refresh cur)) /\
  length (d_edid dc) = edid_len c /\
  take 64 (d_edid dc) = take 64 (edid c) /\
  (modes c = [] \/ (length (edid c) <= 64)%nat -> d_edid dc = take 128 (edid c)).

Lemma read_written_connector i c b :
  (i < 8)%nat -> conn_ok c -> blen b = SHM_SIZE -> get_bytes (conn_base i) 1152 b = replicate 1152 0 ->
  connector_seen c (read_connector (write_connector i c b) i) /\
  d_edid (read_connector (write_connector i c b) i) =
    get_bytes (conn_base i + 64) (Z.of_nat (edid_len c)) (write_connector i c b).
Proof.
  intros Hi Hc Hb Hz. destruct (connector_fields i c b Hi Hc Hb) as (Ht & Hmw & Hmh & Hmc & Hci & Hel).
  pose proof (mode_count_le c). pose proof (edid_len_le c) as [? Hl]. pose proof (conn_base_bounds i Hi).
  unfold read_connector. rewrite Ht, Hmw, Hmh, Hmc, Hci, Hel, !Nat2Z.id.
  rewrite (Nat.min_l (mode_count c)) by (unfold MAX_MODES_PER_CONNECTOR; lia). rewrite (Nat.min_l (edid_len c)) by lia.
  rewrite (connector_modes i c b Hi Hc Hb), (connector_name i c b Hi Hc Hb Hz).
  set (e := get_bytes (conn_base i + 64) (Z.of_nat (edid_len c)) (write_connector i c b)).
  destruct (current_of _ _) as [[w h] r] eqn:Hcur. unfold connector_seen. cbn [d_name d_connector_type d_mm_width d_mm_height d_edid d_modes current_width current_height current_refresh].
  assert (length e = edid_len c) as Hlen.
  { pose proof (get_bytes_length (conn_base i + 64) (Z.of_nat (edid_len c)) (write_connector i c b)) as Hg.
    fold e in Hg. rewrite blen_write_connector in Hg. unfold blen in *. lia. }
  assert (take 64 e = take (edid_len c `min` 64) (edid c)) as Hlow.
  { rewrite <- (connector_edid_low i c b Hi Hb). subst e. unfold get_bytes, slice. rewrite !Nat2Z.id, take_take.
    f_equal. lia. }
  assert (take 64 e = take 64 (edid c)) as H64.
  { rewrite Hlow. unfold edid_len. destruct (decide (64 <= length (edid c))%nat); [f_equal; lia|].
    rewrite !take_ge by lia. done. }
  split; [|done]. split_and!; try done.
  - intros cur k Hcm Hp Hk. rewrite (current_of_index c cur k Hcm Hp Hk) in Hcur. by injection Hcur as -> -> ->.
  - intros [Hnil|Hshort].
    + subst e. rewrite (connector_edid_whole i c b) by done. unfold edid_len.
      destruct (decide (128 <= length (edid c))%nat); [f_equal; lia|]. rewrite !take_ge by lia. done.
    + rewrite <- (take_ge e 64), H64 by (rewrite Hlen; unfold edid_len; lia). rewrite !take_ge by lia. done.
Qed.

(** What PARALLAX writes is what the daemon reads.  For any environment and
    hardware with at least one GPU, parsing the written segment succeeds and
    yields the first GPU's ids, names and memory size, the session type, the
    driver choice, and, in order, the first eight connected connectors, each
    with its name, size, first 64 modes and current mode; the EDID is read back
    whole when it has at most 64 bytes or there are no modes, and in its first
    64 bytes always. *)
Theorem display_segment_roundtrip env hw g :
  head (gpus hw) = Some g -> gpu_ok g -> Forall conn_ok (live_connectors hw) ->
  exists d, parse_shm (write_hardware env hw fresh_segment) = Some d /\
    gpu d = view_gpu g /\ d_session_type d = session_type env /\
    d_driver_choice d = driver_choice env (pci_vendor g) /\
    length (d_connectors d) = length (live_connectors hw) /\
    forall i c, live_connectors hw !! i = Some c ->
      exists dc, d_connectors d !! i = Some dc /\ connector_seen c dc.
Proof.
  intros Hg Hok Hcs. destruct (segment_header env hw g Hg) as (Hm & H8 & H12 & H24 & H20).
  pose proof (live_length hw) as Hlive.
  unfold parse_shm. rewrite Hm, H8, H12, H24, H20, Nat2Z.id. rewrite Nat.min_l by done.
  rewrite decide_False, decide_False by (done || (intros Hx; by apply Hx)).
  eexists. split; [reflexivity|]. cbn [gpu d_session_type d_driver_choice d_connectors].
  split_and!; [by apply segment_gpu|done|done|by rewrite length_map, length_seq|].
  intros i c Hc. pose proof (lookup_lt_Some _ _ _ Hc) as Hi.
  destruct (segment_connector env hw g Hg i c Hc) as (b & Hb & Hz & Hr).
  eexists. split; [change (map ?f ?l) with (f <$> l); by rewrite list_lookup_fmap, lookup_seq_lt|].
  simpl. rewrite Hr. apply read_written_connector; [lia|by eapply Forall_lookup_1|done|done].
Qed.

(** A full EDID block does not survive.  The EDID area starts 64 bytes
    before the mode table but holds up to 128 bytes, and modes are written after
    it: for a connector with a 128-byte EDID, each of the first four modes
    replaces 16 bytes of the upper half of the EDID the daemon reads. *)
Theorem edid_overwritten_by_modes env hw g i c j m :
  head (gpus hw) = Some g -> Forall conn_ok (live_connectors hw) ->
  live_connectors hw !! i = Some c -> (128 <= length (edid c))%nat ->
  modes c !! j = Some m -> (j < 4)%nat ->
  slice (64 + 16 * j) 16 (d_edid (read_connector (write_hardware env hw fresh_segment) i)) = mode_bytes m.
Proof.
  intros Hg Hcs Hc He Hm Hj. pose proof (live_length hw) as Hlive. pose proof (lookup_lt_Some _ _ _ Hc) as Hi.
  pose proof (Forall_lookup_1 _ _ _ _ Hcs Hc) as Hok.
  destruct (segment_connector env hw g Hg i c Hc) as (b & Hb & Hz & ->).
  destruct (read_written_connector i c b) as [_ ->]; [lia|done..|].
  pose proof (conn_base_bounds i) as Hbi.
  rewrite <- (connector_mode i c b ltac:(lia) Hb j m Hm ltac:(lia)).
  replace (edid_len c) with 128%nat by (unfold edid_len; lia).
  transitivity (get_bytes (64 + 16 * Z.of_nat j) 16 (get_bytes (conn_base i + 64) (Z.of_nat 128) (write_connector i c b))).
  - unfold get_bytes. f_equal. lia.
  - rewrite get_bytes_get_bytes by lia. f_equal. lia.
Qed.

(** ** Witnesses *)
Definition demo_gpu : GpuInfo := mkGpu [0x61] 0x10de 0x2482 0 0 0 [0x62] [0x63] 8589934592.
Definition demo_mode : ModeInfo := mkMode 1920 1080 60 5 0x48.
Definition demo_conn : ConnectorInfo :=
  mkConn [0x44; 0x50] 77 true 10 1 600 340 (replicate 128 0xFF) [demo_mode] (Some demo_mode).
Definition demo_hw : DisplayHardware := mkHw [demo_gpu] [demo_conn].
Definition demo_env : DisplayEnv := mkEnv true false None.

Lemma demo_gpu_ok : gpu_ok demo_gpu.
Proof. constructor; repeat split; try (unfold in_u32, in_u64; simpl; lia); repeat constructor; simpl; lia. Qed.
Lemma demo_conns_ok : Forall conn_ok (live_connectors demo_hw).
Proof.
  repeat constructor; try (unfold in_u32; simpl; lia).
Qed.

Lemma display_segment_roundtrip_witness :
  exists d, parse_shm (write_hardware demo_env demo_hw fresh_segment) = Some d /\
    gpu d = view_gpu demo_gpu /\ d_driver_choice d = 1.
Proof.
  destruct (display_segment_roundtrip demo_env demo_hw demo_gpu eq_refl demo_gpu_ok demo_conns_ok)
    as (d & Hp & Hg & _ & Hd & _).
  exists d. split_and!; [exact Hp|exact Hg|rewrite Hd; reflexivity].
Defined.

Lemma edid_overwritten_by_modes_witness :
  slice 64 16 (d_edid (read_connector (write_hardware demo_env demo_hw fresh_segment) 0)) = mode_bytes demo_mode /\
  slice 64 16 (edid demo_conn) <> mode_bytes demo_mode.
Proof.
  split; [|vm_compute; discriminate].
  apply (edid_overwritten_by_modes demo_env demo_hw demo_gpu 0 demo_conn 0 demo_mode);
    [reflexivity|exact demo_conns_ok|reflexivity|simpl; lia|reflexivity|lia].
Defined.

End Display.
