(* ===== verification/Registry.v ===== *)
(** * The registry ([src/rust/src/triskelion/registry.rs])

    The in-memory registry tree with case-insensitive names, symbolic links,
    open handles and change notifications.  A key's children and values are
    finite maps from the lowercased name to the name as first stored and the
    child or value.  Operations run in a state monad with panics, because a
    caught panic keeps the state; [link_depth] is the static [DEPTH] counter of
    [walk]. *)

From Stdlib Require String Ascii.
From stdpp Require Import base list gmap strings sorting.
From S2P Require Import Prelude Dispatch Text.
Local Open Scope Z_scope.

(** ** Rust's [str::to_lowercase]

    The Unicode table is not part of the sources: the development is generic in
    the function, of which only the ASCII part is known. *)
Class Lowercase : Type := {
  to_lowercase : Text.str -> Text.str;
  lowercase_ascii : forall s, Forall Text.is_ascii s -> to_lowercase s = map Text.lower_ascii s;
}.

#[export] Instance ascii_only_lowercase : Lowercase.
Proof. exists (map Text.lower_ascii). done. Defined.

Module Registry.
Import Text.

(** An ASCII literal of the source. *)
Definition lit (s : string) : str := map (fun a => Z.of_nat (Ascii.nat_of_ascii a)) (String.list_ascii_of_string s).

(** [trim_end_matches(c)] *)
Fixpoint trim_start_char (c : Z) (s : str) : str :=
  match s with
  | x :: s' => if decide (x = c) then trim_start_char c s' else s
  | [] => []
  end.
Definition trim_end_char (c : Z) (s : str) : str := reverse (trim_start_char c (reverse s)).

(** [split(c)] with the empty pieces filtered out. *)
Fixpoint split_nonempty (c : Z) (s acc : str) : list str :=
  let flush := match acc with [] => [] | _ => [reverse acc] end in
  match s with
  | [] => flush
  | x :: s' => if decide (x = c) then flush ++ split_nonempty c s' [] else split_nonempty c s' (x :: acc)
  end.

Definition BACKSLASH : Z := 0x5C.

(** Length of a scalar value in UTF-8, and whether a byte index is a character
    boundary: slicing anywhere else panics. *)
Definition utf8_len (c : Z) : Z :=
  if decide (c < 0x80) then 1 else if decide (c < 0x800) then 2 else if decide (c < 0x10000) then 3 else 4.
Definition str_len (s : str) : Z := fold_right (fun c n => utf8_len c + n) 0 s.
Fixpoint is_char_boundary (s : str) (i : Z) : bool :=
  if decide (i = 0) then true
  else match s with
       | [] => false
       | c :: s' => if decide (i < utf8_len c) then false else is_char_boundary s' (i - utf8_len c)
       end.

Record RegName : Type := mkName { original : str; lower : str }.
Record RegistryValue : Type := mkValue { data_type : Z; data : list Z }.
Inductive RegistryKey : Type := mkKey {
  children : gmap str (RegName * RegistryKey);
  values : gmap str (RegName * RegistryValue);
  value_names : list RegName;
}.
Record RegNotify : Type := mkNotify { n_path : list RegName; n_pid : Z; event_handle : Z; subtree : bool; filter_mask : Z }.
Record Registry : Type := mkReg {
  root : RegistryKey;
  open_keys : gmap Z (list RegName);
  next_hkey : Z;
  write_seq : Z;
  user_sid : str;
  notify_list : list RegNotify;
  link_depth : Z;
}.
Implicit Types (r : Registry) (k node : RegistryKey) (path : list RegName) (seg vname : RegName).

Definition key_new : RegistryKey := mkKey ∅ ∅ [].

(** ** State with panics *)
Definition M (A : Type) : Type := Registry -> Registry * outcome A.
Definition ret {A} (a : A) : M A := fun r => (r, Ret a).
Definition bind {A B} (m : M A) (f : A -> M B) : M B :=
  fun r => match m r with
           | (r', Ret a) => f a r'
           | (r', Panic) => (r', Panic)
           | (r', OutOfFuel) => (r', OutOfFuel)
           end.
Definition gets {A} (f : Registry -> A) : M A := fun r => (r, Ret (f r)).
Definition modify (f : Registry -> Registry) : M unit := fun r => (f r, Ret ()).
Declare Scope registry_scope.
Notation "x <- m ;; f" := (bind m (fun x => f)) (at level 100, m at next level, right associativity) : registry_scope.
Notation "m ;;; f" := (bind m (fun _ => f)) (at level 100, f at level 200, right associativity) : registry_scope.
Local Open Scope registry_scope.

Definition with_root (k : RegistryKey) r : Registry :=
  mkReg k (open_keys r) (next_hkey r) (write_seq r) (user_sid r) (notify_list r) (link_depth r).
Definition with_depth (d : Z) r : Registry :=
  mkReg (root r) (open_keys r) (next_hkey r) (write_seq r) (user_sid r) (notify_list r) d.
Definition bump_seq r : Registry :=
  mkReg (root r) (open_keys r) (next_hkey r) (u64 (write_seq r + 1)) (user_sid r) (notify_list r) (link_depth r).
Definition with_handle path r : Registry :=
  mkReg (root r) (<[next_hkey r := path]> (open_keys r)) (u32 (next_hkey r + 1)) (write_seq r) (user_sid r)
    (notify_list r) (link_depth r).
Definition with_notify (l : list RegNotify) r : Registry :=
  mkReg (root r) (open_keys r) (next_hkey r) (write_seq r) (user_sid r) l (link_depth r).

Section ops.
Context `{Lowercase}.

Definition reg_name (s : str) : RegName := mkName s (to_lowercase s).
Definition from_utf16le (bytes : list Z) : RegName := reg_name (trim_end_char 0 (utf16le_to_string bytes)).

Definition same_path (p q : list RegName) : bool := bool_decide (map lower p = map lower q).

Definition parse_key_path (name_utf16le : list Z) : list RegName :=
  map reg_name (split_nonempty BACKSLASH (utf16le_to_string name_utf16le) []).

(** ** Symbolic links *)
Definition link_name : RegName := reg_name (lit "symboliclinkvalue").

Definition link_target node : option (list RegName) :=
  match values node !! lower link_name with
  | Some (_, v) =>
      if decide (data_type v = 6) then
        match parse_key_path (data v) with [] => None | t => Some t end
      else None
  | None => None
  end.

(** One pass of [follow_symlink]: the path with its first link replaced. *)
Fixpoint find_link node path : option (list RegName) :=
  match path with
  | [] => None
  | seg :: rest =>
      match children node !! lower seg with
      | None => None
      | Some (_, child) =>
          match link_target child with
          | Some target => Some (target ++ rest)
          | None => find_link child rest
          end
      end
  end.

Fixpoint follow_links (n : nat) (rootk : RegistryKey) (current : list RegName) : list RegName :=
  match n with
  | O => current
  | S n' => match find_link rootk current with
            | Some resolved => follow_links n' rootk resolved
            | None => current
            end
  end.
Definition follow_symlink (rootk : RegistryKey) path : list RegName := follow_links 8 rootk path.

(** ** Walking *)

(** The diagnostic on a missing segment slices its lowercase form at byte
    three as soon as the parent has a child to compare with. *)
Definition near_match_panics node seg : bool :=
  bool_decide (children node <> ∅) && negb (is_char_boundary (lower seg) (Z.min (str_len (lower seg)) 3)).

Fixpoint descend node path : outcome (option RegistryKey) :=
  match path with
  | [] => Ret (Some node)
  | seg :: rest =>
      match children node !! lower seg with
      | Some (_, child) => descend child rest
      | None => if near_match_panics node seg then Panic else Ret None
      end
  end.

(** [walk]: [d] is the static counter before the call; the result carries it
    after the call.  A panic leaves it as it was at that moment. *)
Fixpoint walk_from (fuel : nat) (rootk : RegistryKey) (d : Z) path : Z * outcome (option RegistryKey) :=
  match fuel with
  | O => (d, OutOfFuel)
  | S fuel' =>
      match descend rootk path with
      | Ret (Some node) =>
          match link_target node with
          | Some target =>
              if same_path target path then (d, Ret (Some node))
              else
                let resolved := follow_symlink rootk target in
                let '(d', res) := if decide (d < 4) then walk_from fuel' rootk (u8 (d + 1)) resolved
                                  else (u8 (d + 1), Ret None) in
                match res with
                | Ret (Some n) => (u8 (d' - 1), Ret (Some n))
                | Ret None => (u8 (d' - 1), Ret (Some node))
                | Panic => (d', Panic)
                | OutOfFuel => (d', OutOfFuel)
                end
          | None => (d, Ret (Some node))
          end
      | Ret None => (d, Ret None)
      | Panic => (d, Panic)
      | OutOfFuel => (d, OutOfFuel)
      end
  end.

(** Five levels suffice: a level recurses only while the counter is below 4. *)
Definition WALK_FUEL : nat := 5.
Definition walk path : M (option RegistryKey) :=
  fun r => let '(d, o) := walk_from WALK_FUEL (root r) (link_depth r) path in (with_depth d r, o).

(** [walk_mut_create] followed by an update of the node it returns. *)
Fixpoint update_at (f : RegistryKey -> RegistryKey) node path : RegistryKey :=
  match path with
  | [] => f node
  | seg :: rest =>
      let '(name, child) := default (seg, key_new) (children node !! lower seg) in
      mkKey (<[lower seg := (name, update_at f child rest)]> (children node)) (values node) (value_names node)
  end.
Definition walk_mut_create path (f : RegistryKey -> RegistryKey) : M unit :=
  modify (fun r => with_root (update_at f (root r) path) r).

(** [walk_mut]: the node at a path, without following links. *)
Fixpoint node_at node path : option RegistryKey :=
  match path with
  | [] => Some node
  | seg :: rest => match children node !! lower seg with
                   | Some (_, child) => node_at child rest
                   | None => None
                   end
  end.

(** ** Handles *)
Definition resolve_parent (parent_hkey : Z) : M (list RegName) :=
  gets (fun r => if decide (parent_hkey = 0) then [] else default [] (open_keys r !! parent_hkey)).

Definition alloc_handle path : M Z :=
  hkey <- gets next_hkey ;; modify (with_handle path) ;;; ret hkey.

Definition create_key (parent : Z) (name : list Z) : M (Z * bool) :=
  modify bump_seq ;;;
  parent_path <- resolve_parent parent ;;
  path <- gets (fun r => follow_symlink (root r) (parent_path ++ parse_key_path name)) ;;
  existed <- walk path ;;
  walk_mut_create path (fun k => k) ;;;
  hkey <- alloc_handle path ;;
  ret (hkey, negb (bool_decide (is_Some existed))).

Definition open_key (parent : Z) (name : list Z) : M (option Z) :=
  parent_path <- resolve_parent parent ;;
  path <- gets (fun r => follow_symlink (root r) (parent_path ++ parse_key_path name)) ;;
  found <- walk path ;;
  match found with
  | Some _ => hkey <- alloc_handle path ;; ret (Some hkey)
  | None => ret None
  end.

(** ** Values *)
Definition insert_value vname (v : RegistryValue) node : RegistryKey :=
  match values node !! lower vname with
  | Some (name, _) => mkKey (children node) (<[lower vname := (name, v)]> (values node)) (value_names node)
  | None => mkKey (children node) (<[lower vname := (vname, v)]> (values node)) (value_names node ++ [vname])
  end.

(** The node a handle reads from. *)
Definition handle_node (hkey : Z) : M (option RegistryKey) :=
  p <- gets (fun r => open_keys r !! hkey) ;;
  match p with Some path => walk path | None => ret None end.

Definition get_value (hkey : Z) (name : list Z) : M (option (Z * list Z)) :=
  n <- handle_node hkey ;;
  match n with
  | Some node => ret ((fun nv => (data_type nv.2, data nv.2)) <$> values node !! lower (from_utf16le name))
  | None => ret None
  end.

Definition set_value (hkey : Z) (name : list Z) (ty : Z) (d : list Z) : M unit :=
  modify bump_seq ;;;
  p <- gets (fun r => open_keys r !! hkey) ;;
  match p with
  | Some path => walk_mut_create path (insert_value (from_utf16le name) (mkValue ty d))
  | None => ret ()
  end.

Definition remove_value vname node : RegistryKey :=
  mkKey (children node) (delete (lower vname) (values node))
    (filter (fun n => lower n <> lower vname) (value_names node)).

Definition delete_value (hkey : Z) (name : list Z) : M bool :=
  p <- gets (fun r => open_keys r !! hkey) ;;
  match p with
  | None => ret false
  | Some path =>
      n <- gets (fun r => node_at (root r) path) ;;
      match n with
      | Some node =>
          match values node !! lower (from_utf16le name) with
          | Some _ => modify (fun r => with_root (update_at (remove_value (from_utf16le name)) (root r) path) r) ;;; ret true
          | None => ret false
          end
      | None => ret false
      end
  end.

Definition max_of (l : list Z) : Z := fold_right Z.max 0 l.

Definition query_key (hkey : Z) : M (option (Z * Z * Z * Z)) :=
  n <- handle_node hkey ;;
  match n with
  | Some node =>
      ret (Some (i32 (Z.of_nat (size (children node))), i32 (Z.of_nat (size (values node))),
                 max_of (map (fun n => u32 (Z.of_nat (length (encode_utf16 (original n)) * 2))) (value_names node)),
                 max_of (map (fun nv => u32 (blen (data nv.2.2))) (map_to_list (values node)))))
  | None => ret None
  end.

(** Lexicographic order of scalar values, which is the byte order of UTF-8. *)
Fixpoint str_leb (a b : str) : bool :=
  match a, b with
  | [], _ => true
  | _ :: _, [] => false
  | x :: a', y :: b' => if decide (x < y) then true else if decide (y < x) then false else str_leb a' b'
  end.
Definition lower_le (a b : str * (RegName * RegistryKey)) : Prop := str_leb a.1 b.1 = true.
#[export] Instance lower_le_dec a b : Decision (lower_le a b).
Proof. unfold lower_le. apply _. Defined.

Definition sorted_children node : list (str * (RegName * RegistryKey)) :=
  merge_sort lower_le (map_to_list (children node)).

Definition enum_key (hkey : Z) (index : nat) : M (option (list Z * Z * Z)) :=
  n <- handle_node hkey ;;
  match n with
  | Some node =>
      ret ((fun e => (utf16le (original e.2.1), i32 (Z.of_nat (size (children e.2.2))),
                      i32 (Z.of_nat (size (values e.2.2))))) <$> sorted_children node !! index)
  | None => ret None
  end.

Definition enum_value (hkey : Z) (index : nat) : M (option (list Z * Z * list Z)) :=
  n <- handle_node hkey ;;
  match n with
  | Some node =>
      ret (name ← value_names node !! index;
           nv ← values node !! lower name;
           Some (utf16le (original name), data_type nv.2, data nv.2))
  | None => ret None
  end.

(** ** Deleting a key *)
Definition remove_child seg node : RegistryKey :=
  mkKey (delete (lower seg) (children node)) (values node) (value_names node).

Definition delete_key (hkey : Z) : M bool :=
  p <- gets (fun r => open_keys r !! hkey) ;;
  match p with
  | Some ((_ :: _) as path) =>
      n <- walk path ;;
      match n with
      | Some node =>
          if decide (children node <> ∅) then ret false
          else
            let parent := removelast path in
            match last path with
            | Some child_name =>
                pn <- gets (fun r => node_at (root r) parent) ;;
                match pn with
                | Some _ => modify (fun r => with_root (update_at (remove_child child_name) (root r) parent) r) ;;; ret true
                | None => ret false
                end
            | None => ret false
            end
      | None => ret false
      end
  | _ => ret false
  end.

(** ** Notifications *)
Definition register_notify (hkey pid handle : Z) (sub : bool) (mask : Z) : M bool :=
  p <- gets (fun r => open_keys r !! hkey) ;;
  match p with
  | Some path => modify (fun r => with_notify (notify_list r ++ [mkNotify path pid handle sub mask]) r) ;;; ret true
  | None => ret false
  end.

Definition remove_notifications_for_pid (pid : Z) : M unit :=
  modify (fun r => with_notify (filter (fun n => n_pid n <> pid) (notify_list r)) r).

Definition starts_with (p q : list RegName) : bool := bool_decide (map lower q = take (length q) (map lower p)).

Definition notify_matches (changed : list RegName) (change : Z) (n : RegNotify) : bool :=
  if same_path (n_path n) changed then bool_decide (Z.land (filter_mask n) change <> 0)
  else if subtree n && starts_with changed (n_path n) then bool_decide (Z.land (filter_mask n) change <> 0)
  else false.

Definition collect_notifications (changed_hkey change : Z) : M (list (Z * Z)) :=
  p <- gets (fun r => open_keys r !! changed_hkey) ;;
  match p with
  | None => ret []
  | Some changed =>
      l <- gets notify_list ;;
      modify (with_notify (filter (fun n => notify_matches changed change n = false) l)) ;;;
      ret (map (fun n => (n_pid n, event_handle n)) (filter (fun n => notify_matches changed change n = true) l))
  end.

End ops.

(** ** The tree as a function of paths *)
Section tree.
Context `{Lowercase}.

Lemma node_at_app node p q : node_at node (p ++ q) = (n ← node_at node p; node_at n q).
Proof.
  revert node; induction p as [|seg p IH]; intros node; simpl; [done|].
  destruct (children node !! lower seg) as [[? c]|]; [apply IH|done].
Qed.

Lemma node_at_lower node p q : map lower p = map lower q -> node_at node p = node_at node q.
Proof.
  revert node q; induction p as [|s p IH]; intros node [|t q]; simpl; try done.
  intros [= -> Heq]. destruct (children node !! lower t) as [[? c]|]; [by apply IH|done].
Qed.

Lemma node_at_empty q : q <> [] -> node_at key_new q = None.
Proof. destruct q as [|s q]; [done|]. intros _. simpl. by rewrite lookup_empty. Qed.

(** The node a [walk_mut_create] reaches, as it was before. *)
Definition reach node p : RegistryKey := default key_new (node_at node p).

Lemma node_at_update f node p : node_at (update_at f node p) p = Some (f (reach node p)).
Proof.
  revert node; induction p as [|seg p IH]; intros node; [done|]. unfold reach. cbn [update_at node_at].
  destruct (children node !! lower seg) as [[n c]|] eqn:Hc; simpl.
  - rewrite lookup_insert_eq. rewrite IH. done.
  - rewrite lookup_insert_eq, IH. unfold reach. destruct p as [|t p]; [done|].
    by rewrite node_at_empty.
Qed.

(** Elsewhere only empty keys on the way to [p] can appear. *)
Lemma node_at_update_other f node p q n :
  (forall k, children (f k) = children k) ->
  map lower q <> map lower p -> node_at node q = Some n ->
  exists n', node_at (update_at f node p) q = Some n' /\ values n' = values n /\ value_names n' = value_names n.
Proof.
  intros Hf. revert node q; induction p as [|seg p IH]; intros node q Hne Hq.
  - destruct q as [|t q]; [done|]. simpl in *. rewrite Hf. exists n. by destruct (children node !! lower t) as [[? c]|].
  - destruct q as [|t q]; simpl in Hq.
    + injection Hq as <-. simpl. destruct (from_option _ _ _) as [nm c]. eexists; split; [done|]. done.
    + destruct (children node !! lower t) as [[nm c]|] eqn:Ht; [|done]. cbn [update_at node_at].
      destruct (decide (lower seg = lower t)) as [Heq|Hneq].
      * rewrite Heq, Ht. simpl. rewrite lookup_insert_eq.
        apply IH; [|done]. intros Hx. apply Hne. simpl. by rewrite Heq, Hx.
      * destruct (from_option _ _ _) as [nm' c']. simpl. rewrite lookup_insert_ne, Ht by done. by exists n.
Qed.

(** A value, as a function of the path and the lowercased name. *)
Definition value_at node p (s : str) : option RegistryValue :=
  snd <$> (n ← node_at node p; values n !! s).

Lemma insert_value_lookup vname v node s :
  snd <$> values (insert_value vname v node) !! s =
    if decide (s = lower vname) then Some v else snd <$> values node !! s.
Proof.
  unfold insert_value. destruct (values node !! lower vname) as [[nm w]|] eqn:Hv; cbn [values];
    (case_decide; subst; [by rewrite lookup_insert_eq|by rewrite lookup_insert_ne]).
Qed.

Lemma insert_value_children vname v node : children (insert_value vname v node) = children node.
Proof. unfold insert_value. by destruct (values node !! lower vname) as [[? ?]|]. Qed.

Lemma remove_value_lookup vname node s :
  values (remove_value vname node) !! s = if decide (s = lower vname) then None else values node !! s.
Proof.
  unfold remove_value. cbn [values]. case_decide; subst; [by rewrite lookup_delete_eq|by rewrite lookup_delete_ne].
Qed.

(** ** Links and creation *)
Lemma link_target_new : link_target key_new = None.
Proof. unfold link_target, key_new. cbn [values]. by rewrite lookup_empty. Qed.

Lemma find_link_new q : find_link key_new q = None.
Proof. destruct q as [|s q]; [done|]. simpl. by rewrite lookup_empty. Qed.

Lemma link_target_values k k' : values k = values k' -> link_target k = link_target k'.
Proof. unfold link_target. by intros ->. Qed.

Lemma update_id_values node p : values (update_at (fun k => k) node p) = values node.
Proof. destruct p as [|seg p]; [done|]. simpl. by destruct (from_option _ _ _). Qed.

Lemma find_link_update_id node p q : find_link (update_at (fun k => k) node p) q = find_link node q.
Proof.
  revert node q; induction p as [|seg p IH]; intros node q; [done|]. destruct q as [|t q]; [done|].
  cbn [update_at find_link]. destruct (children node !! lower seg) as [[nm c]|] eqn:Hc; simpl.
  - destruct (decide (lower seg = lower t)) as [Heq|Hne].
    + rewrite <- Heq, lookup_insert_eq, Hc. rewrite IH.
      by rewrite (link_target_values (update_at (fun k => k) c p) c (update_id_values c p)).
    + by rewrite lookup_insert_ne.
  - destruct (decide (lower seg = lower t)) as [Heq|Hne].
    + rewrite <- Heq, lookup_insert_eq, Hc. rewrite IH, find_link_new.
      by rewrite (link_target_values _ key_new (update_id_values key_new p)), link_target_new.
    + by rewrite lookup_insert_ne.
Qed.

Lemma follow_symlink_update_id node p q :
  follow_symlink (update_at (fun k => k) node p) q = follow_symlink node q.
Proof.
  unfold follow_symlink. generalize 8%nat as n. intros n. revert q; induction n as [|n IH]; intros q; [done|].
  simpl. rewrite find_link_update_id. destruct (find_link node q); [apply IH|done].
Qed.

(** ** Descending and walking *)
Lemma descend_node_at node p :
  descend node p = match node_at node p with
                   | Some n => Ret (Some n)
                   | None => descend node p
                   end.
Proof.
  revert node; induction p as [|seg p IH]; intros node; simpl; [done|].
  destruct (children node !! lower seg) as [[? c]|]; [apply IH|done].
Qed.

Lemma descend_some node p n : descend node p = Ret (Some n) <-> node_at node p = Some n.
Proof.
  split; [|intros Hn; by rewrite descend_node_at, Hn].
  revert node; induction p as [|seg p IH]; intros node; simpl; [by intros [= ->]|].
  destruct (children node !! lower seg) as [[? c]|]; [apply IH|]. by destruct (near_match_panics node seg).
Qed.

Lemma descend_fuel node p : descend node p <> OutOfFuel.
Proof.
  revert node; induction p as [|seg p IH]; intros node; simpl; [done|].
  destruct (children node !! lower seg) as [[? c]|]; [apply IH|]. by destruct (near_match_panics node seg).
Qed.

Lemma u8_incr_decr d : 0 <= d < 256 -> u8 (u8 (d + 1) - 1) = d.
Proof. intros. unfold u8, wrap. change (2 ^ 8) with 256. rewrite Zminus_mod_idemp_l. replace (d + 1 - 1) with d by lia. by apply Z.mod_small. Qed.

(** [walk] always returns, and a call that returns restores the counter. *)
Lemma walk_from_total fuel rootk d p :
  0 <= d < 256 -> (Z.to_nat (4 - d) < fuel)%nat ->
  (walk_from fuel rootk d p).2 <> OutOfFuel /\
  (forall o, (walk_from fuel rootk d p).2 = Ret o -> (walk_from fuel rootk d p).1 = d /\
     (o = None <-> node_at rootk p = None)).
Proof.
  revert d p; induction fuel as [|fuel IH]; intros d p Hd Hf; [lia|]. simpl.
  destruct (descend rootk p) as [[node|]| |] eqn:Hdesc; simpl.
  - apply descend_some in Hdesc.
    destruct (link_target node) as [t|]; [|split; [done|]; intros o [= <-]; rewrite Hdesc; done].
    destruct (same_path t p); [split; [done|]; intros o [= <-]; rewrite Hdesc; done|].
    set (q := follow_symlink rootk t).
    case_decide as Hd4.
    + assert (u8 (d + 1) = d + 1) as Hu by (apply u8_small; unfold in_u8; lia).
      destruct (IH (u8 (d + 1)) q) as [Hnf Hret]; [rewrite Hu; lia|rewrite Hu; lia|].
      destruct (walk_from fuel rootk (u8 (d + 1)) q) as [d' [[n|]| |]]; simpl in *.
      * destruct (Hret _ eq_refl) as [-> _]. rewrite u8_incr_decr by done.
        split; [done|]. intros o [= <-]. by rewrite Hdesc.
      * destruct (Hret _ eq_refl) as [-> _]. rewrite u8_incr_decr by done.
        split; [done|]. intros o [= <-]. by rewrite Hdesc.
      * split; done.
      * by destruct Hnf.
    + simpl. rewrite u8_incr_decr by done. split; [done|]. intros o [= <-]. by rewrite Hdesc.
  - split; [done|]. intros o [= <-]. split; [done|]. split; [|done]. intros _.
    destruct (node_at rootk p) as [n|] eqn:Hn; [|done]. apply descend_some in Hn. congruence.
  - done.
  - by apply descend_fuel in Hdesc.
Qed.

Lemma walk_total r p :
  0 <= link_depth r < 256 ->
  (walk p r).2 <> OutOfFuel /\
  forall o, (walk p r).2 = Ret o -> (walk p r).1 = r /\ (o = None <-> node_at (root r) p = None).
Proof.
  intros Hd. destruct (walk_from_total WALK_FUEL (root r) (link_depth r) p Hd) as [Hn Hr]; [unfold WALK_FUEL; lia|].
  unfold walk. destruct (walk_from WALK_FUEL (root r) (link_depth r) p) as [d o]. simpl in *.
  split; [done|]. intros o' ->. destruct (Hr _ eq_refl) as [-> Hiff]. split; [|done]. by destruct r.
Qed.

(** A node without a usable link is what [walk] returns. *)
Lemma walk_plain r p n :
  node_at (root r) p = Some n -> link_target n = None -> walk p r = (r, Ret (Some n)).
Proof.
  intros Hn Hl. unfold walk, WALK_FUEL. simpl. apply descend_some in Hn. rewrite Hn, Hl. by destruct r.
Qed.

End tree.


(** ** Well-formed trees *)
Lemma trim_start_char_head c s : head (trim_start_char c s) <> Some c.
Proof. induction s as [|x s IH]; simpl; [done|]. case_decide; [done|]. by intros [= ->]. Qed.

Lemma trim_end_char_last c s : last (trim_end_char c s) <> Some c.
Proof. unfold trim_end_char. rewrite last_reverse. apply trim_start_char_head. Qed.

Lemma trim_end_char_id c s : last s <> Some c -> trim_end_char c s = s.
Proof.
  intros Hl. unfold trim_end_char. destruct (reverse s) as [|x l] eqn:Hr; [by rewrite <- (reverse_involutive s), Hr|].
  simpl. rewrite decide_False.
  - by rewrite <- Hr, reverse_involutive.
  - intros ->. apply Hl. rewrite <- (reverse_involutive s), last_reverse, Hr. done.
Qed.

Lemma trim_start_char_forall P c s : Forall P s -> Forall P (trim_start_char c s).
Proof. induction 1; simpl; [constructor|]. case_decide; [done|by constructor]. Qed.

Lemma trim_end_char_forall P c s : Forall P s -> Forall P (trim_end_char c s).
Proof. intros. unfold trim_end_char. apply Forall_reverse, trim_start_char_forall, Forall_reverse. done. Qed.

Section invariant.
Context `{Lowercase}.

(** A stored name can be recovered from its enumerated UTF-16 form. *)
Record name_ok (n : RegName) : Prop := {
  nok_lower : lower n = to_lowercase (original n);
  nok_scalar : Forall is_scalar (original n);
  nok_nul : last (original n) <> Some 0;
}.

Lemma from_utf16le_ok bytes : Forall in_u8 bytes -> name_ok (from_utf16le bytes).
Proof.
  intros Hb. unfold from_utf16le. constructor; cbn [lower original reg_name]; [done| |].
  - by apply trim_end_char_forall, utf16le_to_string_scalar.
  - apply trim_end_char_last.
Qed.

Lemma from_utf16le_original n : name_ok n -> from_utf16le (utf16le (original n)) = n.
Proof.
  intros [Hl Hs Hn]. unfold from_utf16le. rewrite utf16le_roundtrip by done.
  rewrite trim_end_char_id by done. unfold reg_name. rewrite <- Hl. by destruct n.
Qed.

(** Each value is enumerated once, under a recoverable name. *)
Record node_ok (k : RegistryKey) : Prop := {
  nk_names : Forall name_ok (value_names k);
  nk_nodup : NoDup (map lower (value_names k));
  nk_dom : forall s, s ∈ map lower (value_names k) <-> is_Some (values k !! s);
}.

Inductive key_ok : RegistryKey -> Prop :=
| key_ok_intro k : node_ok k -> (forall s n c, children k !! s = Some (n, c) -> key_ok c) -> key_ok k.

Lemma key_ok_node k : key_ok k -> node_ok k.
Proof. by destruct 1. Qed.

Lemma key_new_ok : key_ok key_new.
Proof.
  constructor; [|intros s n c Hc; cbn in Hc; by rewrite lookup_empty in Hc].
  constructor; cbn [key_new value_names values map]; [constructor|constructor|].
  intros s. rewrite lookup_empty. split; [by intros ?%elem_of_nil|by intros [? ?]].
Qed.

Lemma update_at_ok f node p :
  (forall k, key_ok k -> key_ok (f k)) -> key_ok node -> key_ok (update_at f node p).
Proof.
  intros Hf. revert node; induction p as [|seg p IH]; intros node Hk; [by apply Hf|]. simpl.
  destruct Hk as [k Hn Hc].
  destruct (children k !! lower seg) as [[nm c]|] eqn:Hs; simpl.
  - constructor; [by destruct Hn; constructor|]. intros s n c'. cbn [children].
    destruct (decide (s = lower seg)) as [->|]; [rewrite lookup_insert_eq; intros [= <- <-]; apply IH; by eapply Hc|].
    rewrite lookup_insert_ne by done. apply Hc.
  - constructor; [by destruct Hn; constructor|]. intros s n c'. cbn [children].
    destruct (decide (s = lower seg)) as [->|]; [rewrite lookup_insert_eq; intros [= <- <-]; apply IH, key_new_ok|].
    rewrite lookup_insert_ne by done. apply Hc.
Qed.

Lemma insert_value_ok vname v k : name_ok vname -> key_ok k -> key_ok (insert_value vname v k).
Proof.
  intros Hname Hk. destruct Hk as [k [Hns Hnd Hdom] Hc]. unfold insert_value.
  destruct (values k !! lower vname) as [[nm w]|] eqn:Hv; constructor; cbn [children]; try done;
    constructor; cbn [value_names values]; try done.
  - intros s. rewrite Hdom. destruct (decide (s = lower vname)) as [->|]; [|by rewrite lookup_insert_ne].
    rewrite lookup_insert_eq, Hv. split; done.
  - apply Forall_app. split; [done|by constructor].
  - rewrite map_app. apply NoDup_app. split_and!; [done| |apply NoDup_singleton].
    intros s Hs%Hdom Hs2. cbn in Hs2. apply list_elem_of_singleton in Hs2 as ->. rewrite Hv in Hs. by destruct Hs.
  - intros s. rewrite map_app, elem_of_app, Hdom. cbn. rewrite list_elem_of_singleton.
    destruct (decide (s = lower vname)) as [->|Hne]; [rewrite lookup_insert_eq; split; [done|by right]|].
    rewrite lookup_insert_ne by done. split; [by intros [?|?]|by left].
Qed.

Lemma remove_value_ok vname k : key_ok k -> key_ok (remove_value vname k).
Proof.
  intros Hk. destruct Hk as [k [Hns Hnd Hdom] Hc]. constructor; [|done].
  assert (map lower (filter (fun n => lower n <> lower vname) (value_names k)) =
          filter (fun s => s <> lower vname) (map lower (value_names k))) as Hmf.
  { clear. induction (value_names k) as [|n l IH]; [done|]. simpl map.
    destruct (decide (lower n = lower vname)).
    - rewrite !filter_cons_False by (intros Hx; by apply Hx). done.
    - rewrite !filter_cons_True by done. simpl. by rewrite IH. }
  constructor; cbn [remove_value value_names values].
  - apply Forall_forall. intros n Hn%list_elem_of_filter. destruct Hn as [_ Hn]. by apply (proj1 (Forall_forall _ _) Hns).
  - rewrite Hmf. by apply NoDup_filter.
  - intros s. rewrite Hmf, list_elem_of_filter, Hdom.
    destruct (decide (s = lower vname)) as [->|Hne].
    + rewrite lookup_delete_eq. split; [by intros [? _]|by intros [? ?]].
    + rewrite lookup_delete_ne by done. split; [by intros [_ ?]|by intros ?].
Qed.

Lemma remove_child_ok seg k : key_ok k -> key_ok (remove_child seg k).
Proof.
  intros Hk. destruct Hk as [k [Hns Hnd Hdom] Hc]. constructor; [by constructor|].
  intros s n c. unfold remove_child. cbn [children]. rewrite lookup_delete_Some. intros [_ Hs]. by eapply Hc.
Qed.

Lemma key_ok_at node p n : key_ok node -> node_at node p = Some n -> key_ok n.
Proof.
  revert node; induction p as [|seg p IH]; intros node Hk; simpl; [by intros [= <-]|].
  destruct Hk as [k _ Hc]. destruct (children k !! lower seg) as [[nm c]|] eqn:Hs; [|done].
  apply IH. by eapply Hc.
Qed.

(** What [walk] returns is a node of the tree. *)
Lemma walk_from_in fuel rootk d p n :
  key_ok rootk -> (walk_from fuel rootk d p).2 = Ret (Some n) -> key_ok n.
Proof.
  intros Hr. revert d p n; induction fuel as [|fuel IH]; intros d p n; [by intros [=]|]. cbn [walk_from].
  destruct (descend rootk p) as [[node|]| |] eqn:Hd; [|by intros [=]..].
  apply descend_some in Hd. pose proof (key_ok_at _ _ _ Hr Hd) as Hnode.
  destruct (link_target node) as [t|]; [|intros [= <-]; exact Hnode].
  destruct (same_path t p); [intros [= <-]; exact Hnode|].
  case_decide; [|intros [= <-]; exact Hnode].
  specialize (IH (u8 (d + 1)) (follow_symlink rootk t)).
  destruct (walk_from fuel rootk (u8 (d + 1)) _) as [d' [[n'|]| |]]; cbn [snd] in *; [| |by intros [=]..].
  - intros [= <-]. by apply IH.
  - intros [= <-]. exact Hnode.
Qed.

End invariant.

(** ** Operations on well-formed registries *)
Section operations.
Context `{Lowercase}.

Definition tree_ok r : Prop := key_ok (root r) /\ 0 <= link_depth r < 256.

(** [m] always returns (possibly by a panic) and keeps the tree well formed. *)
Definition preserves {A} (m : M A) : Prop :=
  forall r, tree_ok r -> (m r).2 <> OutOfFuel /\ tree_ok (m r).1.

Lemma preserves_ret {A} (a : A) : preserves (ret a).
Proof. intros r Hr. done. Qed.
Lemma preserves_gets {A} (f : Registry -> A) : preserves (gets f).
Proof. intros r Hr. done. Qed.
Lemma preserves_bind {A B} (m : M A) (f : A -> M B) : preserves m -> (forall a, preserves (f a)) -> preserves (bind m f).
Proof.
  intros Hm Hf r Hr. unfold bind. destruct (Hm r Hr) as [Hn Hok].
  destruct (m r) as [r' [a| |]]; [by apply Hf|done|done].
Qed.
Lemma preserves_modify f : (forall r, tree_ok r -> tree_ok (f r)) -> preserves (modify f).
Proof. intros Hf r Hr. split; [done|by apply Hf]. Qed.

Lemma walk_from_depth fuel rootk d p : 0 <= d < 256 -> 0 <= (walk_from fuel rootk d p).1 < 256.
Proof.
  revert d p; induction fuel as [|fuel IH]; intros d p Hd; [done|]. cbn [walk_from].
  destruct (descend rootk p) as [[node|]| |]; try exact Hd.
  destruct (link_target node) as [t|]; [|exact Hd]. destruct (same_path t p); [exact Hd|].
  case_decide.
  - specialize (IH (u8 (d + 1)) (follow_symlink rootk t) (u8_in _)).
    destruct (walk_from fuel rootk (u8 (d + 1)) _) as [d' [[n|]| |]]; cbn [fst] in *; try exact IH; apply u8_in.
  - cbn [fst]. apply u8_in.
Qed.

Lemma preserves_walk p : preserves (walk p).
Proof.
  intros r [Hk Hd]. destruct (walk_total r p Hd) as [Hn _]. split; [exact Hn|].
  unfold walk. pose proof (walk_from_depth WALK_FUEL (root r) (link_depth r) p Hd) as Hd'.
  destruct (walk_from _ _ _ _) as [d o]. split; [exact Hk|exact Hd'].
Qed.

Lemma preserves_update f p : (forall k, key_ok k -> key_ok (f k)) -> preserves (walk_mut_create p f).
Proof. intros Hf. apply preserves_modify. intros r [Hk Hd]. split; [by apply update_at_ok|done]. Qed.

Lemma preserves_handle_node h : preserves (handle_node h).
Proof. apply preserves_bind; [apply preserves_gets|]. intros [p|]; [apply preserves_walk|apply preserves_ret]. Qed.

Inductive reg_op : Type :=
| CreateKey (parent : Z) (name : list Z) | OpenKey (parent : Z) (name : list Z)
| GetValue (hkey : Z) (name : list Z) | SetValue (hkey : Z) (name : list Z) (ty : Z) (d : list Z)
| DeleteValue (hkey : Z) (name : list Z) | QueryKey (hkey : Z) | EnumKey (hkey : Z) (i : nat)
| EnumValue (hkey : Z) (i : nat) | DeleteKey (hkey : Z)
| RegisterNotify (hkey pid handle : Z) (sub : bool) (mask : Z) | RemoveForPid (pid : Z)
| Collect (hkey change : Z).

Definition exec (o : reg_op) : M unit :=
  match o with
  | CreateKey p n => create_key p n ;;; ret ()
  | OpenKey p n => open_key p n ;;; ret ()
  | GetValue h n => get_value h n ;;; ret ()
  | SetValue h n ty d => set_value h n ty d
  | DeleteValue h n => delete_value h n ;;; ret ()
  | QueryKey h => query_key h ;;; ret ()
  | EnumKey h i => enum_key h i ;;; ret ()
  | EnumValue h i => enum_value h i ;;; ret ()
  | DeleteKey h => delete_key h ;;; ret ()
  | RegisterNotify h p e sub m => register_notify h p e sub m ;;; ret ()
  | RemoveForPid p => remove_notifications_for_pid p
  | Collect h c => collect_notifications h c ;;; ret ()
  end.

(** Requests arrive as bytes; a panicking one is caught by the dispatcher and
    the next runs on the state it left. *)
Definition op_bytes (o : reg_op) : Prop :=
  match o with SetValue _ n _ _ => Forall in_u8 n | _ => True end.
Fixpoint run_reg (os : list reg_op) r : Registry * list (outcome unit) :=
  match os with
  | [] => (r, [])
  | o :: os' => let '(r1, out) := exec o r in let '(r2, outs) := run_reg os' r1 in (r2, out :: outs)
  end.

Lemma with_handle_ok p r : tree_ok r -> tree_ok (with_handle p r).
Proof. by intros [? ?]. Qed.
Lemma bump_seq_ok r : tree_ok r -> tree_ok (bump_seq r).
Proof. by intros [? ?]. Qed.
Lemma with_notify_ok l r : tree_ok r -> tree_ok (with_notify l r).
Proof. by intros [? ?]. Qed.

Ltac preserve :=
  repeat match goal with
    | |- preserves (bind _ _) => apply preserves_bind; [|intros ?]
    | |- preserves (walk _) => apply preserves_walk
    | |- preserves (gets _) => apply preserves_gets
    | |- preserves (ret _) => apply preserves_ret
    | |- preserves (handle_node _) => apply preserves_handle_node
    | |- preserves (alloc_handle _) => unfold alloc_handle
    | |- preserves (resolve_parent _) => apply preserves_gets
    | |- preserves (modify bump_seq) => apply preserves_modify, bump_seq_ok
    | |- preserves (modify (with_handle _)) => apply preserves_modify, with_handle_ok
    | |- preserves (modify (with_notify _)) => apply preserves_modify, with_notify_ok
    | |- preserves (match ?x with _ => _ end) => destruct x
    | |- preserves (let '(_, _) := ?x in _) => destruct x
    end.

Lemma exec_preserves o : op_bytes o -> preserves (exec o).
Proof.
  intros Hb. destruct o; cbn [exec].
  - unfold create_key. preserve. by apply preserves_update.
  - unfold open_key. preserve.
  - unfold get_value. preserve.
  - unfold set_value. preserve. apply preserves_update. intros k Hk.
    apply insert_value_ok; [by apply from_utf16le_ok|done].
  - unfold delete_value. preserve. apply preserves_modify. intros reg0 [Hk Hd]. split; [|done].
    apply update_at_ok; [|done]. intros. by apply remove_value_ok.
  - unfold query_key. preserve.
  - unfold enum_key. preserve.
  - unfold enum_value. preserve.
  - unfold delete_key. preserve. apply preserves_modify. intros reg0 [Hk Hd]. split; [|done].
    apply update_at_ok; [|done]. intros. by apply remove_child_ok.
  - unfold register_notify. preserve. apply preserves_modify. intros. by apply with_notify_ok.
  - apply preserves_modify. intros. by apply with_notify_ok.
  - unfold collect_notifications. preserve.
Qed.

(** C4: every sequence of registry requests leaves a well-formed registry, also
    when some of them panic.  Each request returns (the link-following walk
    terminates whatever links the tree contains), and in every key the
    enumeration list names each stored value exactly once. *)
Theorem registry_requests_keep_tree_ok os r :
  tree_ok r -> Forall op_bytes os ->
  tree_ok (run_reg os r).1 /\ Forall (fun out => out <> OutOfFuel) (run_reg os r).2.
Proof.
  intros Hr Hos. revert r Hr; induction Hos as [|o os Ho _ IH]; intros r Hr; [by split|]. cbn [run_reg].
  destruct (exec_preserves o Ho r Hr) as [Hn Hok]. destruct (exec o r) as [r1 out]. cbn [fst snd] in *.
  destruct (IH r1 Hok) as [Ht Hout]. destruct (run_reg os r1) as [r2 outs]. cbn [fst snd] in *.
  split; [done|by constructor].
Qed.

End operations.


(** Splitting a list by a boolean test. *)
Lemma filter_bool_partition {A} (m : A -> bool) l :
  filter (fun x => m x = true) l ++ filter (fun x => m x = false) l ≡ₚ l.
Proof.
  induction l as [|x l IH]; [done|]. destruct (m x) eqn:Hx.
  - rewrite filter_cons_True, filter_cons_False by congruence. simpl. by rewrite IH.
  - rewrite filter_cons_False, filter_cons_True by congruence. by rewrite <- Permutation_middle, IH.
Qed.

Lemma filter_bool_twice {A} (m : A -> bool) l : filter (fun x => m x = true) (filter (fun x => m x = false) l) = [].
Proof.
  induction l as [|x l IH]; [done|]. destruct (m x) eqn:Hx.
  - by rewrite (filter_cons_False (fun x => m x = false)) by congruence.
  - rewrite (filter_cons_True (fun x => m x = false)) by done.
    by rewrite (filter_cons_False (fun x => m x = true)) by congruence.
Qed.

Section results.
Context `{Lowercase}.

(** The empty registry, before the runtime keys are created. *)
Definition empty_registry (sid : str) : Registry := mkReg key_new ∅ 1 1 sid [] 0.

Lemma empty_registry_ok sid : tree_ok (empty_registry sid).
Proof. split; [apply key_new_ok|cbn; lia]. Qed.

(** Reading operations in terms of the node the handle reaches. *)
Lemma get_value_node h name r node r' :
  handle_node h r = (r', Ret (Some node)) ->
  get_value h name r = (r', Ret ((fun nv => (data_type nv.2, data nv.2)) <$> values node !! lower (from_utf16le name))).
Proof. intros Hn. unfold get_value, bind. rewrite Hn. done. Qed.

Lemma enum_value_node h i r node r' :
  handle_node h r = (r', Ret (Some node)) ->
  enum_value h i r = (r', Ret (name ← value_names node !! i; nv ← values node !! lower name;
                               Some (utf16le (original name), data_type nv.2, data nv.2))).
Proof. intros Hn. unfold enum_value, bind at 1. rewrite Hn. done. Qed.

Lemma names_size k : node_ok k -> size (values k) = length (value_names k).
Proof.
  intros [_ Hnd Hdom]. rewrite <- size_dom, <- (length_map lower (value_names k)).
  rewrite <- (size_list_to_set (C:=gset str) (map lower (value_names k))) by done.
  f_equal. apply leibniz_equiv. intros s. rewrite elem_of_dom, elem_of_list_to_set. by rewrite Hdom.
Qed.

(** Value enumeration is complete, free of duplicates and consistent with
    lookup.  In a well-formed registry, for a handle that reaches a key:
    exactly the indices below the number of values are answered; the enumerated
    name reads back the enumerated type and data; two indices never yield the
    same name up to case; and every value that can be read is enumerated. *)
Theorem enum_value_exact h r node :
  tree_ok r -> (handle_node h r).2 = Ret (Some node) ->
  (forall i, (exists e, (enum_value h i r).2 = Ret (Some e)) <-> (i < size (values node))%nat) /\
  (forall i nm ty d, (enum_value h i r).2 = Ret (Some (nm, ty, d)) -> (get_value h nm r).2 = Ret (Some (ty, d))) /\
  (forall i j nm nm' ty d ty' d',
     (enum_value h i r).2 = Ret (Some (nm, ty, d)) -> (enum_value h j r).2 = Ret (Some (nm', ty', d')) ->
     lower (from_utf16le nm) = lower (from_utf16le nm') -> i = j) /\
  (forall name ty d, (get_value h name r).2 = Ret (Some (ty, d)) ->
     exists i nm, (enum_value h i r).2 = Ret (Some (nm, ty, d)) /\ lower (from_utf16le nm) = lower (from_utf16le name)).
Proof.
  intros [Hk Hd] Hn. destruct (handle_node h r) as [r' o] eqn:Hhn. cbn [snd] in Hn. subst o.
  assert (key_ok node) as Hkn.
  { unfold handle_node, bind, gets in Hhn. destruct (open_keys r !! h) as [p|]; [|done].
    unfold walk in Hhn. destruct (walk_from _ _ _ _) as [d o] eqn:Hw. injection Hhn as _ ->.
    apply (walk_from_in WALK_FUEL (root r) (link_depth r) p); [done|]. by rewrite Hw. }
  apply key_ok_node in Hkn as Hok. pose proof (names_size node Hok) as Hsize. destruct Hok as [Hnames Hnd Hdom].
  assert (forall i n, value_names node !! i = Some n -> exists nm v, values node !! lower n = Some (nm, v)) as Hval.
  { intros i n Hi. destruct (proj1 (Hdom (lower n))) as [[nm v] Hv]; [|by exists nm, v].
    apply list_elem_of_fmap. exists n. split; [done|]. by eapply list_elem_of_lookup_2. }
  assert (forall i nm ty d, (enum_value h i r).2 = Ret (Some (nm, ty, d)) ->
    exists n w, value_names node !! i = Some n /\ nm = utf16le (original n) /\ from_utf16le nm = n /\
      values node !! lower n = Some w /\ ty = data_type w.2 /\ d = data w.2) as Henum.
  { intros i nm ty d0. rewrite (enum_value_node h i r node r' Hhn). cbn [snd].
    destruct (value_names node !! i) as [n|] eqn:Hi; simpl; [|done].
    destruct (Hval i n Hi) as (nm' & v & Hv). rewrite Hv. simpl. intros [= <- <- <-].
    exists n, (nm', v). split_and!; try done. apply from_utf16le_original.
    eapply Forall_lookup_1; [exact Hnames|exact Hi]. }
  split_and!.
  - intros i. rewrite Hsize, <- lookup_lt_is_Some, (enum_value_node h i r node r' Hhn). cbn [snd].
    destruct (value_names node !! i) as [n|] eqn:Hi; simpl.
    + destruct (Hval i n Hi) as (nm & v & Hv). rewrite Hv. simpl. split; [done|]. intros _. by eexists.
    + split; [by intros [? ?]|by intros [? ?]].
  - intros i nm ty d0 He. destruct (Henum _ _ _ _ He) as (n & w & _ & _ & Hnm & Hv & -> & ->).
    rewrite (get_value_node h nm r node r' Hhn). cbn [snd]. by rewrite Hnm, Hv.
  - intros i j nm nm' ty d0 ty' d' Hi Hj Hl.
    destruct (Henum _ _ _ _ Hi) as (n & w & Hni & _ & Hnm & _). destruct (Henum _ _ _ _ Hj) as (n' & w' & Hnj & _ & Hnm' & _).
    rewrite Hnm, Hnm' in Hl. change (map lower (value_names node)) with (lower <$> value_names node) in Hnd.
    apply (NoDup_lookup _ i j (lower n) Hnd); rewrite list_lookup_fmap; [by rewrite Hni|rewrite Hnj; by rewrite Hl].
  - intros name ty d0. rewrite (get_value_node h name r node r' Hhn). cbn [snd].
    destruct (values node !! lower (from_utf16le name)) as [[nm v]|] eqn:Hv; cbn [fmap option_fmap option_map snd]; [|done].
    intros [= <- <-]. assert (lower (from_utf16le name) ∈ map lower (value_names node)) as Hin by (apply Hdom; by eexists).
    apply list_elem_of_fmap in Hin as (n & Hln & [i Hi]%list_elem_of_lookup_1).
    exists i, (utf16le (original n)). rewrite from_utf16le_original by (eapply Forall_lookup_1; [exact Hnames|exact Hi]).
    split; [|done]. rewrite (enum_value_node h i r node r' Hhn). cbn [snd].
    rewrite Hi. simpl. by rewrite <- Hln, Hv.
Qed.


(** [set_value] on an open handle, as one update of the tree. *)
Lemma set_value_open h name ty d r p :
  open_keys r !! h = Some p ->
  set_value h name ty d r =
    (with_root (update_at (insert_value (from_utf16le name) (mkValue ty d)) (root r) p) (bump_seq r), Ret ()).
Proof. intros Hp. unfold set_value, bind, modify, gets. cbn [open_keys bump_seq]. by rewrite Hp. Qed.

Lemma handle_node_plain h r p n :
  open_keys r !! h = Some p -> node_at (root r) p = Some n -> link_target n = None ->
  handle_node h r = (r, Ret (Some n)).
Proof. intros Hp Hn Hl. unfold handle_node, bind, gets. rewrite Hp. by apply walk_plain. Qed.

(** Reading through a handle after an update of the key it names. *)
Lemma read_back h name' r p rootk vn v n :
  open_keys r !! h = Some p -> root r = update_at (insert_value vn v) rootk p ->
  node_at (root r) p = Some n -> link_target n = None -> lower (from_utf16le name') = lower vn ->
  (get_value h name' r).2 = Ret (Some (data_type v, data v)).
Proof.
  intros Hp Hroot Hn Hl Hlow. rewrite (get_value_node h name' r n r (handle_node_plain h r p n Hp Hn Hl)). cbn [snd].
  rewrite Hroot, node_at_update in Hn. injection Hn as <-. rewrite Hlow.
  pose proof (insert_value_lookup vn v (reach rootk p) (lower vn)) as Hv.
  rewrite decide_True in Hv by done. destruct (values _ !! lower vn) as [[nm v']|]; [|done].
  cbn in Hv. by injection Hv as ->.
Qed.

(** What is set is what is read, whatever the case of the name, and
    nothing else changes.  After [set_value] through an open handle, reading any
    name that differs only in case through that handle returns the type and
    data (unless the key is a symbolic link), the write counter has moved, and
    every value of every existing key other than the one set is as before. *)
Theorem set_value_get_value h name ty d r p :
  open_keys r !! h = Some p ->
  let r' := (set_value h name ty d r).1 in
  write_seq r' = u64 (write_seq r + 1) /\ open_keys r' = open_keys r /\
  (forall n name', node_at (root r') p = Some n -> link_target n = None ->
     lower (from_utf16le name') = lower (from_utf16le name) ->
     (get_value h name' r').2 = Ret (Some (ty, d))) /\
  (forall q s, (map lower q, s) <> (map lower p, lower (from_utf16le name)) -> is_Some (node_at (root r) q) ->
     value_at (root r') q s = value_at (root r) q s).
Proof.
  intros Hp r'. assert (r' = with_root (update_at (insert_value (from_utf16le name) (mkValue ty d)) (root r) p) (bump_seq r))
    as -> by (subst r'; by rewrite (set_value_open h name ty d r p Hp)).
  set (vn := from_utf16le name). split_and!; [done|done|..].
  - intros n name' Hn Hl Hlow. by apply (read_back h name' _ p (root r) vn (mkValue ty d) n).
  - cbn [root with_root]. intros q s Hne [n Hn]. unfold value_at. rewrite Hn.
    destruct (decide (map lower q = map lower p)) as [Heq|Hneq].
    + rewrite (node_at_lower _ q p Heq), node_at_update. rewrite (node_at_lower _ q p Heq) in Hn.
      unfold reach. rewrite Hn. cbn [default from_option id mbind option_bind]. rewrite insert_value_lookup.
      rewrite decide_False; [done|]. intros ->. by rewrite Heq in Hne.
    + destruct (node_at_update_other (insert_value vn (mkValue ty d)) (root r) p q n) as (n' & -> & Hv & _);
        [apply insert_value_children|done|done|].
      cbn [mbind option_bind]. by rewrite Hv.
Qed.

(** [create_key] when the existence check does not panic. *)
Lemma create_key_eq parent name r o :
  0 <= link_depth r < 256 ->
  let pp := if decide (parent = 0) then [] else default [] (open_keys r !! parent) in
  let p := follow_symlink (root r) (pp ++ parse_key_path name) in
  (walk p (bump_seq r)).2 = Ret o ->
  create_key parent name r =
    (with_handle p (with_root (update_at (fun k => k) (root r) p) (bump_seq r)),
     Ret (next_hkey r, negb (bool_decide (is_Some o)))).
Proof.
  intros Hd pp p Hw. destruct (walk_total (bump_seq r) p Hd) as [_ Hret]. destruct (Hret o Hw) as [Hst _].
  unfold create_key, bind, modify, resolve_parent, gets. cbn [open_keys root bump_seq].
  fold pp. fold p. destruct (walk p (bump_seq r)) as [r1 o1]. cbn [fst snd] in *. subst. done.
Qed.

Lemma open_key_eq parent name r o :
  0 <= link_depth r < 256 ->
  let pp := if decide (parent = 0) then [] else default [] (open_keys r !! parent) in
  let p := follow_symlink (root r) (pp ++ parse_key_path name) in
  (walk p r).2 = Ret o ->
  open_key parent name r =
    match o with Some _ => (with_handle p r, Ret (Some (next_hkey r))) | None => (r, Ret None) end.
Proof.
  intros Hd pp p Hw. destruct (walk_total r p Hd) as [_ Hret]. destruct (Hret o Hw) as [Hst _].
  unfold open_key, bind, resolve_parent, gets. fold pp. fold p.
  destruct (walk p r) as [r1 o1]. cbn [fst snd] in *. subst. by destruct o.
Qed.

(** Creating and opening agree.  When [create_key] returns, its handle is
    the next one and names the link-free path; the key exists afterwards and
    was reported as created exactly when it did not exist before.  If the key is
    not itself a link, opening the same name relative to the same parent (not
    the handle just allocated) then succeeds and reaches the same path, and
    creating it again reports that it existed. *)
Theorem create_key_open_key parent name r r' h created :
  tree_ok r -> create_key parent name r = (r', Ret (h, created)) ->
  parent <> next_hkey r ->
  exists p, h = next_hkey r /\ open_keys r' !! h = Some p /\ is_Some (node_at (root r') p) /\
    (created = true <-> node_at (root r) p = None) /\
    (forall n, node_at (root r') p = Some n -> link_target n = None ->
       (open_key parent name r').2 = Ret (Some (next_hkey r')) /\
       open_keys (open_key parent name r').1 !! next_hkey r' = Some p /\
       (create_key parent name r').2 = Ret (next_hkey r', false)).
Proof.
  intros [Hk Hd] Hc Hpar.
  set (pp := if decide (parent = 0) then [] else default [] (open_keys r !! parent)).
  set (p := follow_symlink (root r) (pp ++ parse_key_path name)).
  assert (exists o, (walk p (bump_seq r)).2 = Ret o) as [o Hw].
  { destruct (walk p (bump_seq r)) as [r1 [o| |]] eqn:Hwalk; [by exists o|..]; exfalso;
      unfold create_key, bind, modify, resolve_parent, gets in Hc; cbn [open_keys root bump_seq] in Hc;
      fold pp in Hc; fold p in Hc; by rewrite Hwalk in Hc. }
  rewrite (create_key_eq parent name r o Hd Hw) in Hc. fold pp p in Hc. injection Hc as <- <- <-.
  destruct (walk_total (bump_seq r) p Hd) as [_ Hret]. destruct (Hret o Hw) as [_ Hnone]. cbn [root bump_seq] in Hnone.
  exists p. cbn [open_keys with_handle root next_hkey with_root bump_seq].
  split_and!; [done|by rewrite lookup_insert_eq|rewrite node_at_update; by eexists|..].
  - rewrite <- Hnone. destruct o; simpl; split; done.
  - set (r' := with_handle p _). intros n Hn Hl.
    assert ((if decide (parent = 0) then [] else default [] (open_keys r' !! parent)) = pp) as Hpp.
    { subst pp r'. case_decide; [done|]. cbn [open_keys with_handle with_root bump_seq next_hkey]. by rewrite lookup_insert_ne. }
    assert (follow_symlink (root r') (pp ++ parse_key_path name) = p) as Hp.
    { subst r'. cbn [root with_handle with_root]. apply follow_symlink_update_id. }
    assert (forall r0, root r0 = root r' -> walk p r0 = (r0, Ret (Some n))) as Hwalk.
    { intros r0 Hr0. apply walk_plain; [|done]. by rewrite Hr0. }
    pose proof (open_key_eq parent name r' (Some n) Hd) as Ho. cbv zeta in Ho. rewrite Hpp, Hp in Ho.
    rewrite Ho by (by rewrite (Hwalk r')). cbn [fst snd open_keys with_handle].
    split_and!; [done|by rewrite lookup_insert_eq|].
    pose proof (create_key_eq parent name r' (Some n) Hd) as Hc2. cbv zeta in Hc2. rewrite Hpp, Hp in Hc2.
    rewrite Hc2 by (by rewrite Hwalk). done.
Qed.


(** Removing a child changes only the paths below it. *)
Lemma value_at_remove c node p q s :
  is_Some (node_at node p) -> ~ (map lower (p ++ [c]) `prefix_of` map lower q) ->
  value_at (update_at (remove_child c) node p) q s = value_at node q s.
Proof.
  unfold value_at. revert node q; induction p as [|seg p IH]; intros node q Hp Hq.
  - destruct q as [|t q]; [done|]. cbn [update_at node_at remove_child children].
    rewrite lookup_delete_ne; [done|]. intros Heq. apply Hq. cbn [map app]. rewrite Heq. apply prefix_cons, prefix_nil.
  - cbn [node_at] in Hp. destruct (children node !! lower seg) as [[nm child]|] eqn:Hs; [|by destruct Hp].
    destruct q as [|t q]; cbn [update_at node_at]; rewrite Hs; simpl; [done|].
    destruct (decide (lower seg = lower t)) as [Heq|Hne].
    + rewrite <- Heq, lookup_insert_eq, Hs. apply IH; [done|]. intros Hpre. apply Hq. cbn [map app].
      rewrite Heq. by apply prefix_cons.
    + by rewrite lookup_insert_ne.
Qed.

(** Deleting a key through a handle.  For a handle on a key that is not a
    link, [delete_key] refuses and changes nothing when the key is the root or
    has subkeys; otherwise it reports success, the key is gone, and no value
    outside it has changed. *)
Theorem delete_key_exact h r p n :
  open_keys r !! h = Some p -> node_at (root r) p = Some n -> link_target n = None ->
  if decide (p = [] \/ children n <> ∅) then delete_key h r = (r, Ret false)
  else (delete_key h r).2 = Ret true /\ node_at (root (delete_key h r).1) p = None /\
       (forall q s, ~ (map lower p `prefix_of` map lower q) ->
          value_at (root (delete_key h r).1) q s = value_at (root r) q s).
Proof.
  intros Hp Hn Hl. destruct p as [|seg p0 _] using rev_ind.
  - rewrite decide_True by (by left). unfold delete_key, bind, gets. by rewrite Hp.
  - assert (walk (p0 ++ [seg]) r = (r, Ret (Some n))) as Hw by (by apply walk_plain).
    assert (is_Some (node_at (root r) p0)) as Hpar.
    { rewrite node_at_app in Hn. destruct (node_at (root r) p0); [by eexists|done]. }
    assert (delete_key h r =
      if decide (children n <> ∅) then (r, Ret false)
      else (with_root (update_at (remove_child seg) (root r) p0) r, Ret true)) as Hdel.
    { unfold delete_key, bind, gets. rewrite Hp. destruct (p0 ++ [seg]) as [|x l] eqn:Happ; [by destruct p0|].
      rewrite <- Happ in *. rewrite Hw. case_decide; [done|].
      rewrite removelast_last, last_snoc. destruct Hpar as [n0 ->]. done. }
    rewrite Hdel. destruct (decide (children n <> ∅)) as [Hc|Hc]; [by rewrite decide_True by (by right)|].
    rewrite decide_False by (intros [Hx|Hx]; [by destruct p0|done]). cbn [snd fst root with_root].
    split_and!; [done|..].
    + rewrite node_at_app, node_at_update. simpl. by rewrite lookup_delete_eq.
    + intros q s Hq. by apply value_at_remove.
Qed.

(** Notifications fire exactly once and exactly for matching changes.
    [collect_notifications] on an open handle returns, in registration order,
    the waiters whose filter includes the change and whose key is the changed
    key, or an ancestor of it when they watch the subtree; those waiters are
    removed, every other one stays, and an immediate second collection for the
    same handle and change returns nothing. *)
Theorem notifications_fire_once h change r p :
  open_keys r !! h = Some p ->
  let fires n := Z.land (filter_mask n) change <> 0 /\
    (map lower (n_path n) = map lower p \/ (subtree n = true /\ map lower (n_path n) `prefix_of` map lower p)) in
  exists fired kept, collect_notifications h change r = (with_notify kept r, Ret (map (fun n => (n_pid n, event_handle n)) fired)) /\
    fired ++ kept ≡ₚ notify_list r /\ fired `sublist_of` notify_list r /\ kept `sublist_of` notify_list r /\
    Forall fires fired /\ Forall (fun n => ~ fires n) kept /\
    (collect_notifications h change (with_notify kept r)).2 = Ret [].
Proof.
  intros Hp fires. set (m := notify_matches p change).
  assert (forall n, m n = true <-> fires n) as Hm.
  { intros n. unfold m, notify_matches, fires, same_path, starts_with.
    assert (map lower (n_path n) = take (length (n_path n)) (map lower p) <-> map lower (n_path n) `prefix_of` map lower p) as Hpre.
    { split; [intros ->; apply prefix_take|]. intros [t ->].
      rewrite take_app_length'; [done|by rewrite length_map]. }
    case_bool_decide as Hsame.
    - rewrite bool_decide_eq_true. tauto.
    - destruct (subtree n); cbn [andb]; [|split; [done|]; intros [_ [?|[? _]]]; done].
      case_bool_decide as Hst.
      + rewrite bool_decide_eq_true. rewrite <- Hpre. tauto.
      + split; [done|]. intros [_ [?|[_ Hx%Hpre]]]; done. }
  set (l := notify_list r).
  exists (filter (fun n => m n = true) l), (filter (fun n => m n = false) l). split_and!.
  - unfold collect_notifications, bind, gets, modify. by rewrite Hp.
  - apply filter_bool_partition.
  - apply sublist_filter.
  - apply sublist_filter.
  - apply Forall_forall. intros n [Hn _]%list_elem_of_filter. by apply Hm.
  - apply Forall_forall. intros n [Hn _]%list_elem_of_filter. rewrite <- Hm. congruence.
  - unfold collect_notifications, bind, gets, modify. cbn [open_keys with_notify notify_list]. rewrite Hp. cbn [snd notify_list with_notify].
    fold m. by rewrite filter_bool_twice.
Qed.

(** C40: a missing key whose name is not ASCII can panic the daemon's lookup.
    When a path leads to an existing key with at least one subkey, the next
    segment is missing there, and the third byte of its lowercase form is
    inside a character (two Cyrillic letters suffice), then creating or opening
    that path panics; nothing is created and no handle is allocated. *)
Theorem missing_non_ascii_key_panics parent name r pre seg node :
  let pp := if decide (parent = 0) then [] else default [] (open_keys r !! parent) in
  follow_symlink (root r) (pp ++ parse_key_path name) = pre ++ [seg] ->
  node_at (root r) pre = Some node -> children node <> ∅ -> children node !! lower seg = None ->
  is_char_boundary (lower seg) (Z.min (str_len (lower seg)) 3) = false ->
  (create_key parent name r).2 = Panic /\ root (create_key parent name r).1 = root r /\
  open_keys (create_key parent name r).1 = open_keys r /\ (open_key parent name r).2 = Panic.
Proof.
  intros pp Hp Hpre Hne Hmiss Hb.
  assert (descend (root r) (pre ++ [seg]) = Panic) as Hd.
  { clear Hp. revert Hpre. generalize (root r). induction pre as [|x pre IH]; intros k Hk; cbn [descend node_at app] in *.
    - injection Hk as ->. rewrite Hmiss. unfold near_match_panics. rewrite bool_decide_true by done. by rewrite Hb.
    - destruct (children k !! lower x) as [[? c]|]; [by apply IH|done]. }
  assert (forall r0, root r0 = root r -> walk (pre ++ [seg]) r0 = (with_depth (link_depth r0) r0, Panic)) as Hw.
  { intros r0 Hr. unfold walk, WALK_FUEL. cbn [walk_from]. by rewrite Hr, Hd. }
  unfold create_key, open_key, bind, modify, resolve_parent, gets. cbn [open_keys root bump_seq].
  fold pp. rewrite Hp, !Hw by done. done.
Qed.


(** A panic inside a link target disables links for good.  [walk] counts
    its nesting in a static counter and decrements it after the recursive call,
    which a panic skips: every read through a link whose target panics leaves
    the counter one higher, and from 4 on no link is followed any more (the
    link key itself is returned instead of its target). *)
Theorem panicking_link_leaks_depth r p node t :
  node_at (root r) p = Some node -> link_target node = Some t -> same_path t p = false ->
  descend (root r) (follow_symlink (root r) t) = Panic -> 0 <= link_depth r < 4 ->
  walk p r = (with_depth (link_depth r + 1) r, Panic) /\
  (forall r' q n, 4 <= link_depth r' < 256 -> node_at (root r') q = Some n -> walk q r' = (r', Ret (Some n))).
Proof.
  intros Hn Hl Hs Hp Hd. split.
  - unfold walk, WALK_FUEL. apply descend_some in Hn. cbn [walk_from]. rewrite Hn, Hl, Hs.
    rewrite decide_True by lia. rewrite Hp. by rewrite u8_small by (unfold in_u8; lia).
  - intros r' q n Hd' Hq. unfold walk, WALK_FUEL. apply descend_some in Hq. cbn [walk_from]. rewrite Hq.
    assert (with_depth (link_depth r') r' = r') as Hid by (by destruct r').
    destruct (link_target n) as [t'|]; [|by rewrite Hid]. destruct (same_path t' q); [by rewrite Hid|].
    rewrite decide_False by lia. rewrite u8_incr_decr by lia. by rewrite Hid.
Qed.

End results.

(** ** Witnesses, with ASCII case folding *)
Definition w_name (s : string) : list Z := utf16le (lit s).
Definition demo_ops : list reg_op :=
  [CreateKey 0 (w_name "\Software\Wine"); SetValue 1 (w_name "Version") 1 [0x39; 0]].
Definition demo_registry : Registry := (run_reg demo_ops (empty_registry [])).1.
Definition demo_path : list RegName := [reg_name (lit "Software"); reg_name (lit "Wine")].
Definition demo_node : RegistryKey := default key_new (node_at (root demo_registry) demo_path).

Lemma demo_registry_ok : tree_ok demo_registry.
Proof.
  destruct (exec_preserves (CreateKey 0 (w_name "\Software\Wine")) I (empty_registry []) (empty_registry_ok [])) as [_ H1].
  assert (op_bytes (SetValue 1 (w_name "Version") 1 [0x39; 0])) as Hb by (vm_compute; repeat constructor; discriminate).
  destruct (exec_preserves _ Hb _ H1) as [_ H2]. exact H2.
Qed.

Lemma registry_requests_keep_tree_ok_witness : tree_ok (run_reg demo_ops (empty_registry [])).1.
Proof.
  apply (registry_requests_keep_tree_ok demo_ops (empty_registry [])); [apply empty_registry_ok|].
  repeat constructor; vm_compute; discriminate.
Defined.

Lemma enum_value_exact_witness :
  exists nm, (enum_value 1 0 demo_registry).2 = Ret (Some (nm, 1, [0x39; 0])) /\
    (get_value 1 nm demo_registry).2 = Ret (Some (1, [0x39; 0])).
Proof.
  destruct (enum_value_exact 1 demo_registry demo_node demo_registry_ok) as (_ & Hget & _); [vm_compute; reflexivity|].
  exists (w_name "Version"). assert ((enum_value 1 0 demo_registry).2 = Ret (Some (w_name "Version", 1, [0x39; 0]))) as He
    by (vm_compute; reflexivity).
  split; [exact He|exact (Hget _ _ _ _ He)].
Defined.

Lemma set_value_get_value_witness :
  (get_value 1 (w_name "VERSION") (set_value 1 (w_name "version") 4 [7; 0; 0; 0] demo_registry).1).2
    = Ret (Some (4, [7; 0; 0; 0])).
Proof.
  destruct (set_value_get_value 1 (w_name "version") 4 [7; 0; 0; 0] demo_registry demo_path) as (_ & _ & Hg & _);
    [vm_compute; reflexivity|].
  apply (Hg (default key_new (node_at (root (set_value 1 (w_name "version") 4 [7; 0; 0; 0] demo_registry).1) demo_path)));
    vm_compute; reflexivity.
Defined.

Lemma create_key_open_key_witness :
  exists p, open_keys (create_key 0 (w_name "Software\Classes") demo_registry).1 !! 2 = Some p.
Proof.
  destruct (create_key_open_key 0 (w_name "Software\Classes") demo_registry
    (create_key 0 (w_name "Software\Classes") demo_registry).1 2 true demo_registry_ok) as (p & _ & Hp & _);
    [vm_compute; reflexivity|vm_compute; discriminate|].
  exists p. exact Hp.
Defined.

Lemma delete_key_exact_witness :
  (delete_key 1 demo_registry).2 = Ret true /\ node_at (root (delete_key 1 demo_registry).1) demo_path = None.
Proof.
  pose proof (delete_key_exact 1 demo_registry demo_path demo_node) as Hd.
  rewrite decide_False in Hd.
  - destruct Hd as (Hr & Hn & _); [vm_compute; reflexivity..|]. split; [exact Hr|exact Hn].
  - intros [Hx|Hx]; [discriminate Hx|]. apply Hx. vm_compute. reflexivity.
Defined.

Lemma notifications_fire_once_witness :
  exists fired kept,
    collect_notifications 1 4 (register_notify 1 8 0x24 false 4 demo_registry).1 =
      (with_notify kept (register_notify 1 8 0x24 false 4 demo_registry).1,
       Ret (map (fun n => (n_pid n, event_handle n)) fired)).
Proof.
  destruct (notifications_fire_once 1 4 (register_notify 1 8 0x24 false 4 demo_registry).1 demo_path)
    as (fired & kept & Hc & _); [vm_compute; reflexivity|].
  exists fired, kept. exact Hc.
Defined.

(** Two Cyrillic letters below Software. *)
Definition cyrillic : list Z := utf16le (lit "Software\" ++ [0x438; 0x433]).

Lemma missing_non_ascii_key_panics_witness : (create_key 0 cyrillic demo_registry).2 = Panic.
Proof.
  apply (missing_non_ascii_key_panics 0 cyrillic demo_registry [reg_name (lit "Software")] (reg_name [0x438; 0x433])
    (default key_new (node_at (root demo_registry) [reg_name (lit "Software")])));
    [vm_compute; reflexivity|vm_compute; reflexivity|vm_compute; discriminate|vm_compute; reflexivity|vm_compute; reflexivity].
Defined.

(** A link key whose target is that missing key. *)
Definition link_registry : Registry :=
  (run_reg [CreateKey 0 (w_name "Link"); SetValue 2 (w_name "SymbolicLinkValue") 6 cyrillic] demo_registry).1.

Lemma panicking_link_leaks_depth_witness :
  walk [reg_name (lit "Link")] link_registry = (with_depth 1 link_registry, Panic).
Proof.
  apply (panicking_link_leaks_depth link_registry [reg_name (lit "Link")]
    (default key_new (node_at (root link_registry) [reg_name (lit "Link")]))
    [reg_name (lit "Software"); reg_name [0x438; 0x433]]);
    [vm_compute; reflexivity|vm_compute; reflexivity|vm_compute; reflexivity|vm_compute; reflexivity|vm_compute; split; [discriminate|reflexivity]].
Defined.

End Registry.
