(* ===== verification/RegFile.v ===== *)
(** * Registry files ([src/rust/src/triskelion/registry.rs], lines 780-1212)

    Wine's [.reg] text format: the line-by-line loader, the value parser and the
    writer.  Strings are lists of scalar values; byte slicing that would cut a
    character, or that has its ends crossed, is a panic. *)

From stdpp Require Import base list gmap strings sorting.
From S2P Require Import Prelude Dispatch Text Registry.
Local Open Scope Z_scope.
Local Open Scope outcome_scope.

Module RegFile.
Import Text Registry.

Definition QUOTE : Z := 0x22.
Definition NEWLINE : Z := 0x0A.

(** ** Text helpers of the standard library *)
Definition is_whitespace (c : Z) : bool :=
  bool_decide (0x9 <= c <= 0xD \/ c = 0x20 \/ c = 0x85 \/ c = 0xA0 \/ c = 0x1680 \/ 0x2000 <= c <= 0x200A \/
               c = 0x2028 \/ c = 0x2029 \/ c = 0x202F \/ c = 0x205F \/ c = 0x3000).
Fixpoint trim_start (s : str) : str :=
  match s with
  | c :: s' => if is_whitespace c then trim_start s' else s
  | [] => []
  end.
Definition trim (s : str) : str := reverse (trim_start (reverse (trim_start s))).

(** [strip_prefix] *)
Fixpoint strip_prefix (p s : str) : option str :=
  match p, s with
  | [], _ => Some s
  | x :: p', y :: s' => if decide (x = y) then strip_prefix p' s' else None
  | _ :: _, [] => None
  end.
Definition has_prefix (p s : str) : bool := bool_decide (is_Some (strip_prefix p s)).

(** [find(pat)]: the text before the first occurrence and the text after it. *)
Fixpoint split_at_pat (pat s : str) : option (str * str) :=
  match strip_prefix pat s with
  | Some rest => Some ([], rest)
  | None => match s with
            | [] => None
            | c :: s' => match split_at_pat pat s' with
                         | Some (a, b) => Some (c :: a, b)
                         | None => None
                         end
            end
  end.
Definition contains (pat s : str) : bool := bool_decide (is_Some (split_at_pat pat s)).

(** [split(pat)] for a pattern of several characters; [n] bounds the pieces. *)
Fixpoint split_pat (n : nat) (pat s : str) : list str :=
  match n with
  | O => [s]
  | S n' => match split_at_pat pat s with
            | Some (a, b) => a :: split_pat n' pat b
            | None => [s]
            end
  end.

(** [lines()]: without the terminators, a final empty line not reported. *)
Definition strip_cr (s : str) : str := 
  match last s with Some c => if decide (c = 0x0D) then removelast s else s | None => s end.
Fixpoint lines_acc (s acc : str) : list str :=
  match s with
  | [] => match acc with [] => [] | _ => [reverse acc] end
  | c :: s' => if decide (c = NEWLINE) then strip_cr (reverse acc) :: lines_acc s' [] else lines_acc s' (c :: acc)
  end.
Definition lines (s : str) : list str := lines_acc s [].

(** [replace(c, rep)] and [join] *)
Definition replace_char (c : Z) (rep s : str) : str := concat (map (fun x => if decide (x = c) then rep else [x]) s).
Fixpoint join (sep : str) (l : list str) : str :=
  match l with
  | [] => []
  | [x] => x
  | x :: l' => x ++ sep ++ join sep l'
  end.

(** Hexadecimal: [from_str_radix(_, 16)] on an unsigned type with maximum
    [max], and the formats [{:x}] and [{:0wx}]. *)
Definition hex_value (c : Z) : option Z :=
  if decide (0x30 <= c <= 0x39) then Some (c - 0x30)
  else if decide (0x61 <= c <= 0x66) then Some (c - 0x57)
  else if decide (0x41 <= c <= 0x46) then Some (c - 0x37) else None.
Fixpoint hex_acc (max : Z) (s : str) (acc : Z) : option Z :=
  match s with
  | [] => Some acc
  | c :: s' => match hex_value c with
               | Some d => if decide (acc * 16 + d <= max) then hex_acc max s' (acc * 16 + d) else None
               | None => None
               end
  end.
Definition from_str_radix_16 (max : Z) (s : str) : option Z :=
  match s with
  | [] => None
  | [c] => hex_value c
  | c :: s' => if decide (c = 0x2B) then hex_acc max s' 0 else hex_acc max s 0
  end.

Definition hex_digit (d : Z) : Z := if decide (d < 10) then 0x30 + d else 0x57 + d.
(** The [w] low digits, and the shortest form of a [u32]. *)
Fixpoint hex_pad (w : nat) (v : Z) : str :=
  match w with
  | O => []
  | S w' => hex_pad w' (v / 16) ++ [hex_digit (v mod 16)]
  end.
Fixpoint hex_width (fuel : nat) (v : Z) : nat :=
  match fuel with
  | O => 1
  | S f => if decide (v < 16) then 1 else S (hex_width f (v / 16))
  end.
Definition hex_min (v : Z) : str := hex_pad (hex_width 7 v) v.

(** ** Escapes *)
Definition escape (s : str) : str :=
  replace_char QUOTE [BACKSLASH; QUOTE] (replace_char BACKSLASH [BACKSLASH; BACKSLASH] s).

Definition unescape_char (c : Z) : list Z :=
  if decide (c = BACKSLASH) then [BACKSLASH] else if decide (c = QUOTE) then [QUOTE]
  else if decide (c = 0x30) then [0] else if decide (c = 0x61) then [7] else if decide (c = 0x62) then [8]
  else if decide (c = 0x74) then [9] else if decide (c = 0x6E) then [10] else if decide (c = 0x72) then [13]
  else if decide (c = 0x65) then [0x1B] else [BACKSLASH; c].

Fixpoint unescape_reg_string (s : str) : str :=
  match s with
  | [] => []
  | c :: s' =>
      if decide (c = BACKSLASH) then
        match s' with
        | [] => [BACKSLASH]
        | e :: s'' => unescape_char e ++ unescape_reg_string s''
        end
      else c :: unescape_reg_string s'
  end.

(** The name between quotes (the opening one already skipped), and the rest. *)
Fixpoint quoted_name (s : str) (name : str) : option (str * str) :=
  match s with
  | [] => None
  | c :: s' =>
      if decide (c = BACKSLASH) then
        match s' with
        | [] => None
        | e :: s'' => quoted_name s'' (name ++ (if decide (e = BACKSLASH) then [BACKSLASH]
                                                else if decide (e = QUOTE) then [QUOTE] else [BACKSLASH; e]))
        end
      else if decide (c = QUOTE) then Some (name, s')
      else quoted_name s' (name ++ [c])
  end.
Definition parse_quoted_name (line : str) : option (str * str) := quoted_name (tail line) [].

Definition str_to_utf16le_null (s : str) : list Z := Replies.u16_bytes (encode_utf16 s ++ [0]).

(** [split(',')] with trimming; anything that is not a byte is dropped. *)
Fixpoint split_char (c : Z) (s acc : str) : list str :=
  match s with
  | [] => [reverse acc]
  | x :: s' => if decide (x = c) then reverse acc :: split_char c s' [] else split_char c s' (x :: acc)
  end.
Definition COMMA : Z := 0x2C.
Definition parse_hex_bytes (s : str) : list Z :=
  omap (fun b => match trim b with [] => None | t => from_str_radix_16 255 t end) (split_char COMMA s []).

(** [rest[1..rest.len().saturating_sub(1)]] on a string that starts with a quote *)
Definition between_quotes (rest : str) : outcome str :=
  match tail rest with
  | [] => Panic
  | t => match last t with
         | Some c => if decide (utf8_len c = 1) then Ret (removelast t) else Panic
         | None => Panic
         end
  end.

(** ** [parse_reg_value] *)
Definition parse_typed (rest : str) : outcome (option (Z * list Z)) :=
  if has_prefix [QUOTE] rest then
    inner <-! between_quotes rest ;;
    Ret (Some (1, str_to_utf16le_null (unescape_reg_string inner)))
  else match strip_prefix (lit "dword:") rest with
  | Some h => Ret (Some (4, le_bytes 4 (default 0 (from_str_radix_16 U32_MAX (trim h)))))
  | None =>
  match strip_prefix (lit "hex:") rest with
  | Some h => Ret (Some (3, parse_hex_bytes h))
  | None =>
  match strip_prefix (lit "str(2):") rest with
  | Some q => Ret (Some (2, str_to_utf16le_null (unescape_reg_string (trim_end_char QUOTE (trim_start_char QUOTE q)))))
  | None =>
  match strip_prefix (lit "str(6):") rest with
  | Some q => Ret (Some (6, utf16le (unescape_reg_string (trim_end_char QUOTE (trim_start_char QUOTE q)))))
  | None =>
  match strip_prefix (lit "hex(") rest with
  | Some h => match split_at_pat (lit "):") h with
              | Some (ty, hex_data) => Ret (Some (default 3 (from_str_radix_16 U32_MAX ty), parse_hex_bytes hex_data))
              | None => Ret None
              end
  | None => Ret None
  end end end end end.

Definition parse_name (line : str) : option (str * str) :=
  match strip_prefix (lit "@=") line with
  | Some rest => Some ([], rest)
  | None => if has_prefix [QUOTE] line then
              match parse_quoted_name line with
              | Some (name, remainder) => rest ← strip_prefix (lit "=") remainder; Some (name, rest)
              | None => None
              end
            else None
  end.

Section loader.
Context `{Lowercase}.

Definition parse_reg_value (line : str) (current_path : list RegName) (rootk : RegistryKey)
    : outcome (RegistryKey * bool) :=
  match current_path with
  | [] => Ret (rootk, false)
  | _ =>
      match parse_name line with
      | None => Ret (rootk, false)
      | Some (name, rest) =>
          v <-! parse_typed rest ;;
          Ret (match v with
               | Some (ty, d) => (update_at (insert_value (reg_name name) (mkValue ty d)) rootk current_path, true)
               | None => (rootk, false)
               end)
      end
  end.

(** ** [load_reg_file], one line at a time *)
Record LoadState : Type := mkLoad {
  l_root : RegistryKey; current_path : list RegName; keys_created : Z; values_set : Z; continuation : str;
}.

Definition add_value (line : str) (st : LoadState) : outcome LoadState :=
  p <-! parse_reg_value line (current_path st) (l_root st) ;;
  Ret (mkLoad p.1 (current_path st) (keys_created st)
         (if p.2 then u32 (values_set st + 1) else values_set st) []).

Definition ends_with_backslash (s : str) : bool := bool_decide (last s = Some BACKSLASH).

(** Empty lines, comments and metadata. *)
Definition skip_line (trimmed : str) : bool :=
  bool_decide (trimmed = []) || has_prefix (lit ";") trimmed || has_prefix (lit "#") trimmed
  || has_prefix (lit "WINE REGISTRY") trimmed.

Definition path_segments (root_segments : list RegName) (key_path : str) : list RegName :=
  root_segments ++ map reg_name (filter (fun s => s <> []) (split_pat (length key_path) [BACKSLASH; BACKSLASH] key_path)).

Definition load_line (root_segments : list RegName) (st : LoadState) (line : str) : outcome LoadState :=
  let trimmed := trim line in
  match continuation st with
  | _ :: _ =>
      if ends_with_backslash trimmed
      then Ret (mkLoad (l_root st) (current_path st) (keys_created st) (values_set st)
                  (continuation st ++ removelast trimmed))
      else add_value (continuation st ++ trimmed) st
  | [] =>
      if skip_line trimmed then Ret st
      else if has_prefix (lit "[") trimmed then
        match split_at_pat (lit "]") (tail trimmed) with
        | Some (key_path, _) =>
            let p := follow_symlink (l_root st) (path_segments root_segments key_path) in
            Ret (mkLoad (update_at (fun k => k) (l_root st) p) p (u32 (keys_created st + 1)) (values_set st) [])
        | None => Ret st
        end
      else if ends_with_backslash trimmed
      then Ret (mkLoad (l_root st) (current_path st) (keys_created st) (values_set st) (removelast trimmed))
      else add_value trimmed st
  end.

Fixpoint load_lines (root_segments : list RegName) (ls : list str) (st : LoadState) : outcome LoadState :=
  match ls with
  | [] => Ret st
  | l :: ls' => st' <-! load_line root_segments st l ;; load_lines root_segments ls' st'
  end.

Definition root_path (root_prefix : str) : list RegName := map reg_name (split_nonempty BACKSLASH root_prefix []).

Definition load_reg_file (content root_prefix : str) (rootk : RegistryKey) : outcome (RegistryKey * Z * Z) :=
  st <-! load_lines (root_path root_prefix) (lines content) (mkLoad rootk [] 0 0 []) ;;
  Ret (l_root st, keys_created st, values_set st).

(** ** Saving *)
Definition quoted (s : str) : str := [QUOTE] ++ s ++ [QUOTE].

Definition format_name (n : RegName) : str :=
  if decide (original n = [] \/ original n = lit "@") then lit "@" else quoted (escape (original n)).

Definition saved_string (d : list Z) : str := trim_end_char 0 (utf16le_to_string d).

(** The text after the name; [None] where nothing is written. *)
Definition format_data (v : RegistryValue) : option str :=
  if decide (data_type v = 1) then Some (quoted (escape (saved_string (data v))))
  else if decide (data_type v = 2) then Some (lit "str(2):" ++ quoted (escape (saved_string (data v))))
  else if decide (data_type v = 4) then
    if decide (4 <= length (data v))%nat then Some (lit "dword:" ++ hex_pad 8 (from_le (take 4 (data v)))) else None
  else Some (lit "hex(" ++ hex_min (data_type v) ++ lit "):" ++ join (lit ",") (map (hex_pad 2) (data v))).

Definition format_value (n : RegName) (v : RegistryValue) : str :=
  match format_data v with
  | Some t => format_name n ++ lit "=" ++ t ++ [NEWLINE]
  | None => []
  end.

Definition format_values (k : RegistryKey) : str :=
  concat (map (fun n => match values k !! lower n with Some (_, v) => format_value n v | None => [] end) (value_names k)).

Definition format_key (path : str) (k : RegistryKey) : str :=
  lit "[" ++ path ++ lit "] 1773790329" ++ [NEWLINE] ++ format_values k ++ [NEWLINE].

Definition skipped (path : str) : bool :=
  contains (lit "currentcontrolset") (to_lowercase path) && contains (lit "services") (to_lowercase path).

Definition child_path (path : str) (n : RegName) : str :=
  match path with [] => original n | _ => path ++ [BACKSLASH; BACKSLASH] ++ original n end.

(** [fuel] bounds the depth of the tree. *)
Fixpoint write_key (fuel : nat) (k : RegistryKey) (path : str) : str :=
  match fuel with
  | O => []
  | S f =>
      if skipped path then []
      else format_key path k ++
           concat (map (fun e => write_key f e.2.2 (child_path path e.2.1)) (sorted_children k))
  end.

Fixpoint count_keys (fuel : nat) (k : RegistryKey) : Z :=
  match fuel with
  | O => 1
  | S f => u32 (1 + fold_right (fun e n => count_keys f e.2.2 + n) 0 (map_to_list (children k)))
  end.

(** The three files of a prefix, with the key their contents are relative to. *)
Definition prefix_files (sid : str) : list (string * str) :=
  [("system.reg"%string, lit "Registry\Machine"); ("user.reg"%string, lit "Registry\User\" ++ sid);
   ("userdef.reg"%string, lit "Registry\User\.Default")].

(** [replacen(pat, rep, 1)] *)
Definition replace_first (pat rep s : str) : str :=
  match split_at_pat pat s with Some (a, b) => a ++ rep ++ b | None => s end.

(** The text of one prefix file; [None] when nothing is written. *)
Definition file_text (key_count : Z) (rel_root : str) (sections : list str) : option str :=
  if decide (key_count <= 1) then None
  else Some (lit "WINE REGISTRY Version 2" ++ [NEWLINE] ++ lit ";; All keys relative to " ++ rel_root ++
             [NEWLINE; NEWLINE] ++ lit "#arch=win64" ++ [NEWLINE; NEWLINE] ++ concat sections).
Definition save_file (fuel : nat) (rootk : RegistryKey) (root_prefix : str) : option str :=
  match node_at rootk (root_path root_prefix) with
  | None => None
  | Some node =>
      file_text (count_keys fuel node) (replace_first (lit "Registry\") (lit "REGISTRY\\") root_prefix)
        (map (fun e => write_key fuel e.2.2 (original e.2.1)) (sorted_children node))
  end.

(** The files written, with their text. *)
Definition save_to_prefix (fuel : nat) (sid : str) (rootk : RegistryKey) : list (string * str) :=
  omap (fun '(filename, root_prefix) => pair filename <$> save_file fuel rootk root_prefix) (prefix_files sid).

(** *** Enough fuel exists for every tree *)
Definition settles {A} (f : nat -> A) : Prop := exists n, forall m, (n <= m)%nat -> f m = f n.

Lemma settles_const {A} (a : A) : settles (fun _ => a).
Proof. by exists O. Qed.
Lemma settles_map2 {A B C} (g : A -> B -> C) f1 f2 : settles f1 -> settles f2 -> settles (fun m => g (f1 m) (f2 m)).
Proof.
  intros [n1 H1] [n2 H2]. exists (n1 `max` n2)%nat. intros m Hm.
  rewrite (H1 m), (H2 m), (H1 (n1 `max` n2)%nat), (H2 (n1 `max` n2)%nat) by lia. done.
Qed.
Lemma settles_succ {A} (f : nat -> A) : settles (fun m => f (S m)) -> settles f.
Proof. intros [n Hn]. exists (S n). intros [|m] Hm; [lia|]. apply Hn. lia. Qed.
Lemma settles_list {A B} (g : nat -> A -> B) l : (forall a, a ∈ l -> settles (fun m => g m a)) -> settles (fun m => map (g m) l).
Proof.
  induction l as [|a l IH]; intros Hl; cbn [map]; [apply settles_const|].
  apply (settles_map2 cons); [apply Hl, list_elem_of_here|]. apply IH. intros b Hb. by apply Hl, list_elem_of_further.
Qed.
Lemma settles_compose {A B} (g : A -> B) f : settles f -> settles (fun m => g (f m)).
Proof. intros [n Hn]. exists n. intros m Hm. by rewrite Hn. Qed.

Lemma sorted_children_in k e : e ∈ sorted_children k -> children k !! e.1 = Some e.2.
Proof.
  unfold sorted_children. rewrite merge_sort_Permutation. destruct e as [s nc]. apply elem_of_map_to_list.
Qed.

Lemma write_key_settles k : key_ok k -> forall path, settles (fun m => write_key m k path).
Proof.
  induction 1 as [k _ _ IH]; intros path. apply settles_succ. cbn [write_key].
  destruct (skipped path); [apply settles_const|]. apply (settles_compose (app (format_key path k))), settles_compose.
  apply settles_list. intros [s [n c]] He%sorted_children_in. cbn [fst snd] in *. by eapply IH.
Qed.

Lemma count_keys_settles k : key_ok k -> settles (fun m => count_keys m k).
Proof.
  induction 1 as [k _ _ IH]. apply settles_succ. cbn [count_keys].
  apply (settles_compose (fun z => u32 (1 + z))).
  assert (Hl : forall e, e ∈ map_to_list (children k) -> settles (fun m => count_keys m e.2.2)).
  { intros [s [n c]] He%elem_of_map_to_list. by eapply IH. }
  revert Hl. induction (map_to_list (children k)) as [|e l IHl]; intros Hl; cbn [fold_right]; [apply settles_const|].
  apply settles_map2; [apply Hl, list_elem_of_here|]. apply IHl. intros e' He'. by apply Hl, list_elem_of_further.
Qed.

(** A save terminates: from some fuel on, the files no longer change. *)
Lemma save_to_prefix_settles sid rootk : key_ok rootk -> settles (fun m => save_to_prefix m sid rootk).
Proof.
  intros Hk. unfold save_to_prefix. induction (prefix_files sid) as [|[name prefix] fs IH]; cbn [omap list_omap]; [apply settles_const|].
  assert (Hf : settles (fun m => save_file m rootk prefix)).
  { unfold save_file. destruct (node_at rootk (root_path prefix)) as [node|] eqn:Hn; [|apply settles_const].
    assert (Hnode := key_ok_at _ _ _ Hk Hn).
    apply (settles_map2 (fun c t => file_text c (replace_first (lit "Registry\") (lit "REGISTRY\\") prefix) t));
      [by apply count_keys_settles|]. apply settles_list. intros [s [n c]] He%sorted_children_in.
    apply write_key_settles. inversion Hnode as [? _ Hc]; subst. by eapply Hc. }
  apply (settles_map2 (fun (o : option str) l => match pair name <$> o with Some x => x :: l | None => l end)); [exact Hf|exact IH].
Qed.

End loader.

(** ** Escaping *)
Definition esc1 (c : Z) : str :=
  if decide (c = BACKSLASH) then [BACKSLASH; BACKSLASH] else if decide (c = QUOTE) then [BACKSLASH; QUOTE] else [c].

Lemma escape_cons c s : escape (c :: s) = esc1 c ++ escape s.
Proof.
  unfold escape, replace_char, esc1. cbn [map concat]. rewrite map_app, concat_app. f_equal.
  case_decide as Hb; [subst; reflexivity|]. cbn [map concat]. rewrite app_nil_r. by case_decide.
Qed.

Lemma unescape_escape s : unescape_reg_string (escape s) = s.
Proof.
  induction s as [|c s IH]; [done|]. rewrite escape_cons. unfold esc1. case_decide as Hb; [subst|case_decide as Hq; [subst|]].
  - simpl. by rewrite IH.
  - simpl. by rewrite IH.
  - cbn [app unescape_reg_string]. rewrite decide_False by done. by rewrite IH.
Qed.

Lemma quoted_name_escape s rest name : quoted_name (escape s ++ QUOTE :: rest) name = Some (name ++ s, rest).
Proof.
  revert name; induction s as [|c s IH]; intros name; [simpl; by rewrite app_nil_r|].
  rewrite escape_cons. unfold esc1. case_decide as Hb; [subst|case_decide as Hq; [subst|]].
  - simpl. by rewrite IH, <- app_assoc.
  - simpl. by rewrite IH, <- app_assoc.
  - cbn [app quoted_name]. rewrite !decide_False by done. by rewrite IH, <- app_assoc.
Qed.

(** The last character of an escaped string is that of the string. *)
Lemma escape_last s : last (escape s) = last s.
Proof.
  induction s as [|c s IH]; [done|]. rewrite escape_cons, last_app, IH.
  destruct s as [|c' s']; [|by rewrite last_cons_cons; destruct (last (c' :: s')) eqn:Hl; [|by apply last_None in Hl]].
  simpl. unfold esc1. repeat case_decide; by subst.
Qed.

Lemma escape_notin c s : c <> BACKSLASH -> c <> QUOTE -> c ∉ s -> c ∉ escape s.
Proof.
  intros Hb Hq. induction s as [|x s IH]; [done|]. rewrite not_elem_of_cons. intros [Hx Hs]. rewrite escape_cons, not_elem_of_app.
  split; [|by apply IH]. unfold esc1. repeat case_decide; rewrite !not_elem_of_cons; split_and!; try done; apply not_elem_of_nil.
Qed.

Lemma escape_head s : head (escape s) <> Some QUOTE.
Proof. destruct s as [|c s]; [done|]. rewrite escape_cons. unfold esc1, BACKSLASH, QUOTE. repeat case_decide; simpl; congruence. Qed.

(** ** Hexadecimal *)
Lemma hex_digit_value d : 0 <= d < 16 -> hex_value (hex_digit d) = Some d.
Proof.
  intros Hd. unfold hex_digit. destruct (decide (d < 10)); unfold hex_value.
  - rewrite decide_True by lia. f_equal. lia.
  - rewrite decide_False, decide_True by lia. f_equal. lia.
Qed.

Definition is_hex (c : Z) : Prop := 0x30 <= c <= 0x39 \/ 0x61 <= c <= 0x66.

Lemma hex_pad_hex w v : Forall is_hex (hex_pad w v).
Proof.
  revert v; induction w as [|w IH]; intros v; simpl; [constructor|]. apply Forall_app; split; [apply IH|].
  apply Forall_singleton. pose proof (Z.mod_pos_bound v 16 ltac:(lia)). unfold is_hex, hex_digit. case_decide; lia.
Qed.

Lemma hex_acc_app max a b acc : hex_acc max (a ++ b) acc = (x ← hex_acc max a acc; hex_acc max b x).
Proof.
  revert acc; induction a as [|c a IH]; intros acc; simpl; [done|].
  destruct (hex_value c); [|done]. case_decide; [apply IH|done].
Qed.

Lemma hex_acc_pad max w v : 0 <= v < 16 ^ Z.of_nat w -> v <= max -> hex_acc max (hex_pad w v) 0 = Some v.
Proof.
  revert v; induction w as [|w IH]; intros v Hv Hm.
  - simpl in *. f_equal. lia.
  - rewrite Nat2Z.inj_succ, Z.pow_succ_r in Hv by lia. cbn [hex_pad]. rewrite hex_acc_app.
    pose proof (Z.mod_pos_bound v 16 ltac:(lia)). pose proof (Z.div_mod v 16 ltac:(lia)).
    rewrite IH by (split; [apply Z.div_pos; lia|apply Z.div_lt_upper_bound; lia] || lia).
    cbn [mbind option_bind hex_acc]. rewrite hex_digit_value by lia. rewrite decide_True by lia. f_equal. lia.
Qed.

Lemma hex_pad_parse max w v : (0 < w)%nat -> 0 <= v < 16 ^ Z.of_nat w -> v <= max -> from_str_radix_16 max (hex_pad w v) = Some v.
Proof.
  intros Hw Hv Hm. pose proof (hex_acc_pad max w v Hv Hm) as Hacc. pose proof (hex_pad_hex w v) as Hhex.
  destruct (hex_pad w v) as [|c [|c' l]] eqn:Hp.
  - destruct w; [lia|]. simpl in Hp. by destruct (hex_pad w (v / 16)).
  - simpl in *. destruct (hex_value c); [|done]. case_decide; [|done]. by injection Hacc as <-.
  - unfold from_str_radix_16. inversion_clear Hhex as [|? ? Hc _]. unfold is_hex in Hc. by rewrite decide_False by lia.
Qed.

Lemma hex_width_spec f v : 0 <= v < 16 ^ Z.of_nat (S f) -> (0 < hex_width f v)%nat /\ v < 16 ^ Z.of_nat (hex_width f v).
Proof.
  revert v; induction f as [|f IH]; intros v Hv; [simpl in *; lia|]. cbn [hex_width]. case_decide; [simpl; lia|].
  rewrite Nat2Z.inj_succ, Z.pow_succ_r in Hv by lia.
  destruct (IH (v / 16)) as [? Hlt]; [split; [apply Z.div_pos; lia|apply Z.div_lt_upper_bound; lia]|].
  split; [lia|]. rewrite Nat2Z.inj_succ, Z.pow_succ_r by lia. pose proof (Z.div_mod v 16 ltac:(lia)).
  pose proof (Z.mod_pos_bound v 16 ltac:(lia)). lia.
Qed.

Lemma hex_min_parse v : in_u32 v -> from_str_radix_16 U32_MAX (hex_min v) = Some v.
Proof.
  intros Hv. unfold in_u32 in Hv. unfold hex_min.
  destruct (hex_width_spec 7 v) as [? ?]; [change (16 ^ Z.of_nat 8) with (2 ^ 32); lia|].
  apply hex_pad_parse; [done|lia|unfold U32_MAX; lia].
Qed.

Lemma hex_not_special c : is_hex c -> is_whitespace c = false /\ c <> COMMA /\ c <> 0x29 /\ c <> NEWLINE /\ c <> BACKSLASH.
Proof.
  unfold is_hex, is_whitespace, COMMA, NEWLINE, BACKSLASH. intros Hc. split; [apply bool_decide_false; lia|lia].
Qed.

(** ** Trimming and splitting *)
Lemma trim_start_id s : (forall c, head s = Some c -> is_whitespace c = false) -> trim_start s = s.
Proof. destruct s as [|c s]; [done|]. simpl. intros Hc. by rewrite Hc. Qed.

Lemma trim_id s :
  (forall c, head s = Some c -> is_whitespace c = false) -> (forall c, last s = Some c -> is_whitespace c = false) ->
  trim s = s.
Proof.
  intros Hh Hl. unfold trim. rewrite (trim_start_id s) by done.
  rewrite trim_start_id; [by rewrite reverse_involutive|].
  intros c Hc. apply Hl. by rewrite <- Hc, <- last_reverse, reverse_involutive.
Qed.

Lemma head_Forall {A} (P : A -> Prop) l c : Forall P l -> head l = Some c -> P c.
Proof. destruct 1; [done|]. by intros [= <-]. Qed.
Lemma last_Forall {A} (P : A -> Prop) l c : Forall P l -> last l = Some c -> P c.
Proof. intros Hl Hc. rewrite last_lookup in Hc. by eapply Forall_lookup_1 in Hl. Qed.

Lemma trim_hex s : Forall is_hex s -> trim s = s.
Proof.
  intros Hs. apply trim_id; intros c Hc; apply hex_not_special; [by eapply head_Forall|by eapply last_Forall].
Qed.

Lemma split_char_app c a s acc : c ∉ a -> split_char c (a ++ c :: s) acc = (reverse acc ++ a) :: split_char c s [].
Proof.
  revert acc; induction a as [|x a IH]; intros acc; simpl.
  - intros _. rewrite decide_True by done. by rewrite app_nil_r.
  - rewrite not_elem_of_cons. intros [Hx Ha]. rewrite decide_False by done. rewrite IH by done.
    by rewrite reverse_cons, <- app_assoc.
Qed.

Lemma split_char_end c a acc : c ∉ a -> split_char c a acc = [reverse acc ++ a].
Proof.
  revert acc; induction a as [|x a IH]; intros acc; simpl; [by rewrite app_nil_r|].
  rewrite not_elem_of_cons. intros [Hx Ha]. rewrite decide_False by done. rewrite IH by done.
  by rewrite reverse_cons, <- app_assoc.
Qed.

Lemma split_char_join c l : l <> [] -> Forall (fun s => c ∉ s) l -> split_char c (join [c] l) [] = l.
Proof.
  intros Hne Hl. induction Hl as [|a l Ha Hl IH]; [done|].
  destruct l as [|b l]; [cbn [join]; by rewrite split_char_end|].
  change (join [c] (a :: b :: l)) with (a ++ c :: join [c] (b :: l)).
  rewrite split_char_app by done. by rewrite IH.
Qed.

Lemma parse_hex_bytes_join d :
  Forall in_u8 d -> parse_hex_bytes (join (lit ",") (map (hex_pad 2) d)) = d.
Proof.
  intros Hd. unfold parse_hex_bytes. change (lit ",") with [COMMA].
  destruct d as [|b d]; [reflexivity|].
  rewrite split_char_join; [|done|].
  - clear -Hd. induction Hd as [|x l Hx _ IH]; [done|]. cbn [map omap list_omap].
    rewrite trim_hex by apply hex_pad_hex.
    assert (from_str_radix_16 255 (hex_pad 2 x) = Some x) as Hx2
      by (apply hex_pad_parse; [lia|unfold in_u8 in Hx; change (16 ^ Z.of_nat 2) with 256; lia|unfold in_u8 in Hx; lia]).
    destruct (hex_pad 2 x) as [|c t]; [done|]. rewrite Hx2. f_equal. exact IH.
  - apply Forall_forall. intros s Hs. change (map ?f ?l) with (f <$> l) in Hs.
    apply list_elem_of_fmap in Hs as (x & -> & _). intros Hc.
    destruct (hex_not_special COMMA) as (_ & Hne & _); [|done].
    eapply Forall_forall; [apply hex_pad_hex|exact Hc].
Qed.

Lemma strip_prefix_app p s : strip_prefix p (p ++ s) = Some s.
Proof. induction p as [|x p IH]; simpl; [done|]. by rewrite decide_True. Qed.

Lemma split_at_pat_app a pat s :
  (forall a1 a2, a = a1 ++ a2 -> a2 <> [] -> strip_prefix pat (a2 ++ pat ++ s) = None) ->
  split_at_pat pat (a ++ pat ++ s) = Some (a, s).
Proof.
  induction a as [|c a IH]; intros Ha.
  - simpl. destruct (pat ++ s) eqn:Hps; cbn [split_at_pat]; rewrite <- ?Hps; by rewrite strip_prefix_app.
  - pose proof (Ha [] (c :: a) eq_refl ltac:(done)) as Hn. cbn [app] in Hn.
    cbn [app split_at_pat]. rewrite Hn. rewrite IH; [done|].
    intros a1 a2 -> Hne. by apply (Ha (c :: a1) a2).
Qed.

Lemma hex_type_split ty s : Forall is_hex ty -> split_at_pat (lit "):") (ty ++ lit "):" ++ s) = Some (ty, s).
Proof.
  intros Hty. apply split_at_pat_app. intros a1 a2 -> Hne. apply Forall_app in Hty as [_ Ha2].
  destruct a2 as [|c a2]; [done|]. inversion_clear Ha2 as [|? ? Hc _]. apply hex_not_special in Hc as (_ & _ & Hc & _).
  cbn [lit app strip_prefix]. change (lit "):") with [0x29; 0x3A]. cbn [strip_prefix]. by rewrite decide_False by congruence.
Qed.

Lemma between_quotes_quoted s : between_quotes (quoted s) = Ret s.
Proof.
  unfold between_quotes, quoted. cbn [app tail]. destruct (s ++ [QUOTE]) as [|x l] eqn:Hs; [by destruct s|].
  rewrite <- Hs, last_snoc, removelast_last. done.
Qed.

(** ** Values that have a textual form *)
Definition text_ok (s : str) : Prop := Forall is_scalar s /\ last s <> Some 0 /\ NEWLINE ∉ s.

Definition value_ok (v : RegistryValue) : Prop :=
  if decide (data_type v = 1) then exists s, data v = str_to_utf16le_null s /\ text_ok s
  else if decide (data_type v = 2) then exists s, data v = str_to_utf16le_null s /\ text_ok s /\ last s <> Some QUOTE
  else if decide (data_type v = 4) then length (data v) = 4%nat /\ Forall in_u8 (data v)
  else in_u32 (data_type v) /\ Forall in_u8 (data v).

Lemma saved_string_null s : Forall is_scalar s -> last s <> Some 0 -> saved_string (str_to_utf16le_null s) = s.
Proof.
  intros Hs Hl. unfold saved_string, utf16le_to_string, str_to_utf16le_null.
  rewrite Replies.vararg_to_u16_bytes
    by (apply Forall_app; split; [by apply encode_utf16_u16|apply Forall_singleton; unfold in_u16; lia]).
  change (encode_utf16 s ++ [0]) with (encode_utf16 s ++ encode_char 0 ++ []).
  assert (encode_utf16 s ++ encode_char 0 ++ [] = encode_utf16 (s ++ [0])) as ->
    by (unfold encode_utf16; by rewrite map_app, concat_app).
  rewrite utf16_roundtrip by (apply Forall_app; split; [done|apply Forall_singleton; unfold is_scalar; lia]).
  unfold trim_end_char. rewrite reverse_snoc. cbn [trim_start_char]. rewrite decide_True by done.
  fold (trim_end_char 0 s). by apply trim_end_char_id.
Qed.

Lemma trim_quotes s : last s <> Some QUOTE -> trim_end_char QUOTE (trim_start_char QUOTE (quoted (escape s))) = escape s.
Proof.
  intros Hl. unfold quoted. cbn [app trim_start_char]. rewrite decide_True by done.
  destruct (decide (s = [])) as [->|Hne]; [reflexivity|].
  assert (escape s <> []) as Hesc.
  { intros Hx. apply Hne. destruct s as [|c s]; [done|]. rewrite escape_cons in Hx. unfold esc1 in Hx. by repeat case_decide. }
  assert (trim_start_char QUOTE (escape s ++ [QUOTE]) = escape s ++ [QUOTE]) as ->.
  { pose proof (escape_head s) as Hh. destruct (escape s) as [|c l]; [done|]. simpl. rewrite decide_False; [done|]. intros ->. by apply Hh. }
  unfold trim_end_char. rewrite reverse_snoc. cbn [trim_start_char]. rewrite decide_True by done.
  fold (trim_end_char QUOTE (escape s)). apply trim_end_char_id. by rewrite escape_last.
Qed.

Lemma parse_typed_format v t :
  value_ok v -> format_data v = Some t -> parse_typed t = Ret (Some (data_type v, data v)).
Proof.
  unfold value_ok, format_data. destruct (decide (data_type v = 1)) as [H1|H1].
  { intros (s & Hd & Hs & Hl & _) <-%(inj Some). rewrite H1, Hd, saved_string_null by done.
    unfold parse_typed. change (has_prefix [QUOTE] (quoted (escape s))) with true. cbn [obind].
    rewrite between_quotes_quoted. cbn [obind]. by rewrite unescape_escape. }
  destruct (decide (data_type v = 2)) as [H2|H2].
  { intros (s & Hd & (Hs & Hl & _) & Hq) <-%(inj Some). rewrite H2, Hd, saved_string_null by done.
    unfold parse_typed. set (q := quoted (escape s)).
    change (has_prefix [QUOTE] (lit "str(2):" ++ q)) with false.
    change (strip_prefix (lit "dword:") (lit "str(2):" ++ q)) with (@None str).
    change (strip_prefix (lit "hex:") (lit "str(2):" ++ q)) with (@None str). cbv iota.
    rewrite strip_prefix_app. unfold q. by rewrite trim_quotes, unescape_escape. }
  destruct (decide (data_type v = 4)) as [H4|H4].
  { intros [Hlen Hb]. rewrite decide_True by lia. intros <-%(inj Some). rewrite H4.
    rewrite (take_ge (data v)) by lia.
    pose proof (from_le_range (data v) Hb) as Hr. rewrite Hlen in Hr. change (256 ^ Z.of_nat 4) with (2 ^ 32) in Hr.
    unfold parse_typed. set (h := hex_pad 8 (from_le (data v))).
    change (has_prefix [QUOTE] (lit "dword:" ++ h)) with false. cbv iota. rewrite strip_prefix_app. unfold h.
    rewrite trim_hex by apply hex_pad_hex.
    rewrite hex_pad_parse by (try (change (16 ^ Z.of_nat 8) with (2 ^ 32)); unfold U32_MAX; lia).
    cbn [default from_option id]. rewrite <- Hlen at 1. by rewrite le_bytes_from_le. }
  intros [Hty Hb] <-%(inj Some). unfold parse_typed. set (h := hex_min (data_type v) ++ _).
  change (has_prefix [QUOTE] (lit "hex(" ++ h)) with false.
  change (strip_prefix (lit "dword:") (lit "hex(" ++ h)) with (@None str).
  change (strip_prefix (lit "hex:") (lit "hex(" ++ h)) with (@None str).
  change (strip_prefix (lit "str(2):") (lit "hex(" ++ h)) with (@None str).
  change (strip_prefix (lit "str(6):") (lit "hex(" ++ h)) with (@None str). cbv iota.
  rewrite strip_prefix_app. unfold h. rewrite hex_type_split by apply hex_pad_hex.
  rewrite hex_min_parse by done. cbn [default from_option id]. by rewrite parse_hex_bytes_join.
Qed.

(** ** Lines *)
Definition plain (c : Z) : Prop := is_whitespace c = false /\ c <> NEWLINE /\ c <> BACKSLASH.

Lemma hex_plain c : is_hex c -> plain c.
Proof. intros (? & _ & _ & ? & ?)%hex_not_special. done. Qed.
Lemma lit_plain_forall l : forallb (fun c => negb (is_whitespace c) && bool_decide (c <> NEWLINE) && bool_decide (c <> BACKSLASH)) l = true -> Forall plain l.
Proof.
  intros Hl. apply Forall_forall. intros c Hc. apply forallb_forall with (x := c) in Hl; [|by apply list_elem_of_In].
  apply andb_prop in Hl as [[Hw Hn]%andb_prop Hb]. apply bool_decide_eq_true in Hn, Hb. by apply negb_true_iff in Hw.
Qed.

Lemma newline_notin l : forallb (fun c => bool_decide (c <> NEWLINE)) l = true -> NEWLINE ∉ l.
Proof. intros Hl Hn. apply forallb_forall with (x := NEWLINE) in Hl; [done|by apply list_elem_of_In]. Qed.

Lemma join_plain l : Forall (Forall plain) l -> Forall plain (join (lit ",") l).
Proof.
  induction 1 as [|x l Hx Hl IH]; [constructor|]. destruct l as [|y l]; [done|].
  change (join (lit ",") (x :: y :: l)) with (x ++ lit "," ++ join (lit ",") (y :: l)).
  apply Forall_app; split; [done|]. apply Forall_app; split; [by apply lit_plain_forall|done].
Qed.

(** The text of a value: no newline, and an end that trimming and the
    continuation check leave alone. *)
Definition line_end_ok (t : str) : Prop := NEWLINE ∉ t /\ exists c, last t = Some c /\ plain c.

Lemma plain_line t : Forall plain t -> t <> [] -> line_end_ok t.
Proof.
  intros Ht Hne. split.
  - intros Hn. apply (proj1 (Forall_forall _ _) Ht) in Hn as (_ & Hn & _). done.
  - destruct (last t) as [c|] eqn:Hl; [|by apply last_None in Hl]. exists c. split; [done|]. by eapply last_Forall.
Qed.

Lemma quoted_line pre s :
  NEWLINE ∉ pre -> NEWLINE ∉ s -> line_end_ok (pre ++ quoted s).
Proof.
  intros Hp Hs. split.
  - unfold quoted. rewrite !not_elem_of_app, !not_elem_of_cons. unfold NEWLINE, QUOTE in *. split_and!; try done; apply not_elem_of_nil.
  - exists QUOTE. unfold quoted. rewrite app_assoc, app_assoc, last_snoc. split; [done|]. by vm_compute.
Qed.

Lemma format_data_line v t : value_ok v -> format_data v = Some t -> line_end_ok t.
Proof.
  assert (forall s, NEWLINE ∉ s -> NEWLINE ∉ escape s) as Hesc by (intros; by apply escape_notin).
  unfold value_ok, format_data. destruct (decide (data_type v = 1)).
  { intros (s & Hd & Hs & Hl & Hn) <-%(inj Some). rewrite Hd, saved_string_null by done.
    apply (quoted_line []); [apply not_elem_of_nil|by apply Hesc]. }
  destruct (decide (data_type v = 2)).
  { intros (s & Hd & (Hs & Hl & Hn) & _) <-%(inj Some). rewrite Hd, saved_string_null by done.
    apply quoted_line; [apply plain_line; [by apply lit_plain_forall|done]|by apply Hesc]. }
  destruct (decide (data_type v = 4)).
  { intros [Hlen _]. rewrite decide_True by lia. intros <-%(inj Some). apply plain_line; [|done].
    apply Forall_app; split; [by apply lit_plain_forall|]. eapply Forall_impl; [apply hex_pad_hex|apply hex_plain]. }
  intros _ <-%(inj Some). apply plain_line; [|done].
  repeat (apply Forall_app; split); try by apply lit_plain_forall.
  - eapply Forall_impl; [apply hex_pad_hex|apply hex_plain].
  - apply join_plain. apply Forall_forall. intros x Hx. change (map ?f ?l) with (f <$> l) in Hx.
    apply list_elem_of_fmap in Hx as (b & -> & _). eapply Forall_impl; [apply hex_pad_hex|apply hex_plain].
Qed.

Lemma lines_acc_cons a s acc :
  NEWLINE ∉ a -> lines_acc (a ++ NEWLINE :: s) acc = strip_cr (reverse acc ++ a) :: lines_acc s [].
Proof.
  revert acc; induction a as [|x a IH]; intros acc; cbn [app lines_acc].
  - intros _. rewrite decide_True by done. by rewrite app_nil_r.
  - rewrite not_elem_of_cons. intros [Hx Ha]. rewrite decide_False by done. rewrite IH by done.
    by rewrite reverse_cons, <- app_assoc.
Qed.

Lemma strip_cr_id t : line_end_ok t -> strip_cr t = t.
Proof.
  intros [_ (c & Hl & Hw & _)]. unfold strip_cr. rewrite Hl.
  by destruct (decide (c = 0x0D)) as [->|].
Qed.

Lemma lines_cons t s : line_end_ok t -> lines (t ++ NEWLINE :: s) = t :: lines s.
Proof. intros Ht. unfold lines. rewrite lines_acc_cons by apply Ht. simpl app. by rewrite strip_cr_id. Qed.

Lemma line_end_app a t : NEWLINE ∉ a -> line_end_ok t -> line_end_ok (a ++ t).
Proof.
  intros Ha [Hn (c & Hl & Hp)]. split; [by rewrite not_elem_of_app|]. exists c. by rewrite last_app, Hl.
Qed.

Lemma trim_line t : line_end_ok t -> (forall c, head t = Some c -> is_whitespace c = false) ->
  trim t = t /\ ends_with_backslash t = false.
Proof.
  intros [_ (c & Hl & Hw & _ & Hb)] Hh. split.
  - apply trim_id; [done|]. intros c' Hc'. by rewrite Hl in Hc'; injection Hc' as <-.
  - unfold ends_with_backslash. rewrite Hl. apply bool_decide_false. congruence.
Qed.

Lemma update_at_compose f g k p : update_at g (update_at f k p) p = update_at (fun n => g (f n)) k p.
Proof.
  revert k; induction p as [|seg p IH]; intros k; [done|]. cbn [update_at].
  destruct (children k !! lower seg) as [[nm c]|]; simpl; rewrite lookup_insert_eq; simpl; by rewrite IH, insert_insert_eq.
Qed.

(** ** Loading what was saved *)
Section roundtrip.
Context `{Lowercase}.

Definition name_text_ok (n : RegName) : Prop :=
  lower n = to_lowercase (original n) /\ NEWLINE ∉ original n /\ original n <> lit "@".

(** The value lines of a key whose names and values have a textual form. *)
Definition saved_values (k : RegistryKey) (names : list RegName) : Prop :=
  Forall (fun n => name_text_ok n /\ exists nm v, values k !! lower n = Some (nm, v) /\ value_ok v) names.

Lemma reg_name_original n : name_text_ok n -> reg_name (original n) = n.
Proof. intros [Hl _]. unfold reg_name. rewrite <- Hl. by destruct n. Qed.

Lemma parse_name_format n t : name_text_ok n -> parse_name (format_name n ++ lit "=" ++ t) = Some (original n, t).
Proof.
  intros (_ & _ & Hat). unfold format_name. case_decide as Hd.
  - destruct Hd as [->|Hx]; [|done]. reflexivity.
  - unfold parse_name, quoted. rewrite <- !app_assoc.
    change (strip_prefix (lit "@=") ([QUOTE] ++ escape (original n) ++ [QUOTE] ++ lit "=" ++ t)) with (@None str).
    change (has_prefix [QUOTE] ([QUOTE] ++ escape (original n) ++ [QUOTE] ++ lit "=" ++ t)) with true. cbv iota.
    unfold parse_quoted_name. cbn [app tail]. rewrite quoted_name_escape. by rewrite strip_prefix_app.
Qed.

Lemma format_value_line n v t :
  name_text_ok n -> value_ok v -> format_data v = Some t ->
  line_end_ok (format_name n ++ lit "=" ++ t) /\
  (exists c l, format_name n ++ lit "=" ++ t = c :: l /\ (c = 0x40 \/ c = QUOTE)).
Proof.
  intros (_ & Hn & _) Hv Ht. pose proof (format_data_line v t Hv Ht) as Hline. split.
  - apply line_end_app; [|apply line_end_app; [by apply plain_line; [apply lit_plain_forall|]|done]].
    unfold format_name. case_decide; [by apply plain_line; [apply lit_plain_forall|]|].
    unfold quoted. assert (NEWLINE ∉ escape (original n)) by (by apply escape_notin).
    rewrite !not_elem_of_app, !not_elem_of_cons. unfold NEWLINE, QUOTE in *. split_and!; try done; apply not_elem_of_nil.
  - unfold format_name. case_decide; eexists _, _; (split; [reflexivity|]); [by left|by right].
Qed.

Lemma load_value_line rs st n v t :
  name_text_ok n -> value_ok v -> format_data v = Some t ->
  continuation st = [] -> current_path st <> [] ->
  load_line rs st (format_name n ++ lit "=" ++ t) =
    Ret (mkLoad (update_at (insert_value n v) (l_root st) (current_path st)) (current_path st) (keys_created st)
           (u32 (values_set st + 1)) []).
Proof.
  intros Hn Hv Ht Hc Hp. destruct (format_value_line n v t Hn Hv Ht) as [Hline (c & l & Hcl & Hhead)].
  set (line := format_name n ++ lit "=" ++ t) in *.
  assert (forall c', head line = Some c' -> is_whitespace c' = false) as Hws.
  { rewrite Hcl. intros c' [= <-]. by destruct Hhead as [->| ->]. }
  destruct (trim_line line Hline Hws) as [Htrim Hbs].
  unfold load_line. cbv zeta. rewrite Hc, Htrim, Hbs.
  destruct (skip_line line) eqn:Hskip.
  { unfold skip_line in Hskip. rewrite Hcl, bool_decide_false in Hskip by done. by destruct Hhead as [->| ->]. }
  destruct (has_prefix (lit "[") line) eqn:Hkey.
  { rewrite Hcl in Hkey. by destruct Hhead as [->| ->]. }
  unfold add_value, parse_reg_value. destruct (current_path st) as [|x p0] eqn:Hcp; [done|].
  unfold line. rewrite parse_name_format by done. rewrite (parse_typed_format v t Hv Ht). cbn [obind fst snd].
  rewrite reg_name_original by done. by destruct v.
Qed.

Lemma value_ok_format v : value_ok v -> exists t, format_data v = Some t.
Proof.
  unfold value_ok, format_data. repeat case_decide; try (by eexists); [].
  intros [Hl _]. lia.
Qed.

(** Loading the value lines of [names] inserts exactly those values, in order. *)
Definition insert_saved (k : RegistryKey) (names : list RegName) (node : RegistryKey) : RegistryKey :=
  fold_left (fun acc n => match values k !! lower n with Some (_, v) => insert_value n v acc | None => acc end) names node.

Definition format_names (k : RegistryKey) (names : list RegName) : str :=
  concat (map (fun n => match values k !! lower n with Some (_, v) => format_value n v | None => [] end) names).

Lemma load_values rs k names tail_text st :
  saved_values k names -> continuation st = [] -> current_path st <> [] ->
  load_lines rs (lines (format_names k names ++ tail_text)) st =
    load_lines rs (lines tail_text)
      (mkLoad (update_at (insert_saved k names) (l_root st) (current_path st)) (current_path st) (keys_created st)
         (u32 (values_set st + Z.of_nat (length names))) []) \/ names = [].
Proof.
  intros Hs. revert st; induction Hs as [|n names [Hn (nm & v & Hv & Hvok)] Hs IH]; intros st Hc Hp; [by right|]. left.
  destruct (value_ok_format v Hvok) as [t Ht]. destruct (format_value_line n v t Hn Hvok Ht) as [Hline _].
  assert (format_names k (n :: names) ++ tail_text =
          (format_name n ++ lit "=" ++ t) ++ NEWLINE :: (format_names k names ++ tail_text)) as ->.
  { unfold format_names. cbn [map concat]. rewrite Hv. unfold format_value. rewrite Ht. by rewrite <- !app_assoc. }
  rewrite lines_cons by done. cbn [load_lines]. rewrite (load_value_line rs st n v t) by done. cbn [obind].
  set (st1 := mkLoad _ _ _ _ _). destruct (IH st1) as [->|Hnil]; [done|done|..]; subst st1; cbn [l_root current_path keys_created values_set].
  - rewrite update_at_compose. f_equal. f_equal.
    + unfold insert_saved. cbn [fold_left]. rewrite Hv. done.
    + cbn [length]. unfold u32, wrap. rewrite Zplus_mod_idemp_l. f_equal. lia.
  - subst names. unfold insert_saved. cbn [fold_left format_names map concat app length]. rewrite Hv. done.
Qed.

(** Inserting values under names that are new to the node appends them. *)
Lemma insert_saved_spec k names node :
  Forall (fun n => is_Some (values k !! lower n)) names -> NoDup (map lower names) ->
  Forall (fun n => values node !! lower n = None) names ->
  value_names (insert_saved k names node) = value_names node ++ names /\
  forall s, snd <$> values (insert_saved k names node) !! s =
    if decide (s ∈ map lower names) then snd <$> values k !! s else snd <$> values node !! s.
Proof.
  revert node; induction names as [|n names IH]; intros node Hk Hnd Hnew; [by rewrite app_nil_r|].
  apply Forall_cons in Hk as [[[nm v] Hv] Hk]. cbn [map] in Hnd. apply NoDup_cons in Hnd as [Hnin Hnd].
  apply Forall_cons in Hnew as [Hn Hnew]. unfold insert_saved. cbn [fold_left]. rewrite Hv.
  fold (insert_saved k names (insert_value n v node)).
  assert (forall s, snd <$> values (insert_value n v node) !! s = if decide (s = lower n) then Some v else snd <$> values node !! s)
    as Hins by (intros; apply insert_value_lookup).
  destruct (IH (insert_value n v node)) as [Hnames Hlook]; [done|done|..].
  - apply Forall_forall. intros x Hx. pose proof (proj1 (Forall_forall _ _) Hnew x Hx) as Hxn. specialize (Hins (lower x)).
    rewrite decide_False, Hxn in Hins by (intros Heq; apply Hnin; rewrite <- Heq; by apply list_elem_of_fmap_2).
    by destruct (values (insert_value n v node) !! lower x).
  - rewrite Hnames. split.
    + unfold insert_value. rewrite Hn. cbn [value_names]. by rewrite <- app_assoc.
    + intros s. rewrite Hlook, Hins. cbn [map].
      destruct (decide (s = lower n)) as [->|Hne].
      * rewrite (decide_False (P := lower n ∈ map lower names)) by done.
        rewrite decide_True by (apply elem_of_cons; by left). by rewrite Hv.
      * destruct (decide (s ∈ map lower names)); [rewrite decide_True by (apply elem_of_cons; by right); done|].
        rewrite decide_False by (rewrite elem_of_cons; tauto). done.
Qed.

Lemma load_header_line rs st path :
  continuation st = [] -> NEWLINE ∉ path -> 0x5D ∉ path ->
  let line := lit "[" ++ path ++ lit "] 1773790329" in
  let p := follow_symlink (l_root st) (path_segments rs path) in
  line_end_ok line /\
  load_line rs st line = Ret (mkLoad (update_at (fun k => k) (l_root st) p) p (u32 (keys_created st + 1)) (values_set st) []).
Proof.
  intros Hc Hn Hb line p.
  assert (line_end_ok line) as Hline.
  { unfold line. rewrite app_assoc. apply line_end_app.
    - rewrite not_elem_of_app. split; [by apply plain_line; [apply lit_plain_forall|]|done].
    - split; [|exists 0x39; split; [done|by vm_compute]]. by apply newline_notin. }
  split; [done|]. destruct (trim_line line Hline) as [Htrim _]; [by intros c [= <-]|].
  unfold load_line. cbv zeta. rewrite Hc, Htrim.
  change (skip_line line) with false. change (has_prefix (lit "[") line) with true. cbv iota.
  change (tail line) with (path ++ lit "]" ++ lit " 1773790329"). rewrite split_at_pat_app; [done|].
  intros a1 a2 -> Hne. apply not_elem_of_app in Hb as [_ Hb]. destruct a2 as [|c a2]; [done|].
  apply not_elem_of_cons in Hb as [Hb _]. change (lit "]") with [0x5D]. cbn [app strip_prefix]. by rewrite decide_False.
Qed.

(** C37: a saved key loads back as it was.  For a key whose value names and
    values have a textual form (strings without newline that do not end in NUL,
    an expandable string also not in a quote; a DWORD of four bytes; any other
    type with any bytes; no value named @; names that differ in more than case) and
    whose path has no newline and no closing bracket, loading the text the writer
    produces for it into a tree that lacks the key recreates the key at the
    resolved path, with the same value names in the same order and, for every
    name, the same type and data, and counts one key and all its values. *)
Theorem key_section_roundtrip rs st path k :
  saved_values k (value_names k) -> NoDup (map lower (value_names k)) ->
  (forall s, s ∈ map lower (value_names k) <-> is_Some (values k !! s)) ->
  NEWLINE ∉ path -> 0x5D ∉ path -> continuation st = [] -> in_u32 (values_set st) ->
  let p := follow_symlink (l_root st) (path_segments rs path) in
  p <> [] -> node_at (l_root st) p = None ->
  exists st' n', load_lines rs (lines (format_key path k)) st = Ret st' /\
    current_path st' = p /\ continuation st' = [] /\ keys_created st' = u32 (keys_created st + 1) /\
    values_set st' = u32 (values_set st + Z.of_nat (length (value_names k))) /\
    node_at (l_root st') p = Some n' /\ value_names n' = value_names k /\
    (forall s, snd <$> values n' !! s = snd <$> values k !! s).
Proof.
  intros Hs Hnd Hdom Hn Hb Hc Hv p Hp Hnone.
  destruct (load_header_line rs st path Hc Hn Hb) as [Hline Hload]. cbv zeta in *.
  set (names := value_names k) in *.
  assert (exists st', load_lines rs (lines (format_key path k)) st = Ret st' /\
    st' = mkLoad (update_at (insert_saved k names) (l_root st) p) p (u32 (keys_created st + 1))
            (u32 (values_set st + Z.of_nat (length names))) []) as (st' & Hst & Heq).
  { eexists. split; [|reflexivity]. unfold format_key.
    replace (lit "[" ++ path ++ lit "] 1773790329" ++ [NEWLINE] ++ format_values k ++ [NEWLINE])
      with ((lit "[" ++ path ++ lit "] 1773790329") ++ NEWLINE :: (format_names k names ++ [NEWLINE]))
      by (rewrite <- !app_assoc; reflexivity).
    rewrite lines_cons by done. cbn [load_lines]. rewrite Hload. cbn [obind]. fold p.
    destruct (load_values rs k names [NEWLINE] (mkLoad (update_at (fun k => k) (l_root st) p) p (u32 (keys_created st + 1)) (values_set st) []))
      as [->|Hnil]; [done|done|done|..].
    - cbn [l_root current_path keys_created values_set]. by rewrite update_at_compose.
    - rewrite Hnil. cbn [format_names map concat app length]. change (Z.of_nat 0) with 0.
      rewrite Z.add_0_r, (u32_small (values_set st)) by done. reflexivity. }
  exists st'. subst st'. cbn [current_path continuation keys_created values_set l_root].
  destruct (insert_saved_spec k names (reach (l_root st) p)) as [Hnames Hlook].
  - eapply Forall_impl; [exact Hs|]. intros n [_ (nm & v & Hl & _)]. by eexists.
  - done.
  - apply Forall_forall. intros n _. unfold reach. rewrite Hnone. cbn. apply lookup_empty.
  - exists (insert_saved k names (reach (l_root st) p)). split_and!; try done.
    + by rewrite node_at_update.
    + rewrite Hnames. unfold reach. by rewrite Hnone.
    + intros s. rewrite Hlook. case_decide as Hin; [done|]. unfold reach. rewrite Hnone. cbn. rewrite lookup_empty.
      destruct (values k !! s) eqn:Hks; [|done]. exfalso. apply Hin, Hdom. by eexists.
Qed.

End roundtrip.

(** ** Where the round trip fails *)
Lemma escape_app a b : escape (a ++ b) = escape a ++ escape b.
Proof. induction a as [|c a IH]; [done|]. cbn [app]. by rewrite !escape_cons, IH, app_assoc. Qed.

Lemma unescape_escape_app s t : unescape_reg_string (escape s ++ t) = s ++ unescape_reg_string t.
Proof.
  induction s as [|c s IH]; [done|]. rewrite escape_cons. unfold esc1. case_decide as Hb; [subst|case_decide as Hq; [subst|]].
  - simpl. by rewrite IH.
  - simpl. by rewrite IH.
  - cbn [app unescape_reg_string]. rewrite decide_False by done. by rewrite IH.
Qed.

(** An expandable string that ends in a quote is corrupted by a save and
    load.  The loader strips every trailing quote, the escaped one included,
    and the backslash that escaped it stays: text ending in a quote comes back
    ending in a backslash. *)
Theorem expand_string_trailing_quote s v t :
  text_ok (s ++ [QUOTE]) -> data_type v = 2 -> data v = str_to_utf16le_null (s ++ [QUOTE]) -> format_data v = Some t ->
  parse_typed t = Ret (Some (2, str_to_utf16le_null (s ++ [BACKSLASH]))).
Proof.
  intros (Hs & Hl & _) Hty Hd. unfold format_data. rewrite Hty, Hd. rewrite decide_False, decide_True by done.
  intros <-%(inj Some). rewrite saved_string_null by done.
  unfold parse_typed. set (q := quoted (escape (s ++ [QUOTE]))).
  change (has_prefix [QUOTE] (lit "str(2):" ++ q)) with false.
  change (strip_prefix (lit "dword:") (lit "str(2):" ++ q)) with (@None str).
  change (strip_prefix (lit "hex:") (lit "str(2):" ++ q)) with (@None str). cbv iota.
  rewrite strip_prefix_app. do 4 f_equal. unfold q. rewrite escape_app. change (escape [QUOTE]) with [BACKSLASH; QUOTE].
  unfold quoted. cbn [app trim_start_char]. rewrite decide_True by done.
  set (e := (escape s ++ [BACKSLASH; QUOTE]) ++ [QUOTE]).
  assert (trim_start_char QUOTE e = e) as ->.
  { unfold e. pose proof (escape_head s) as Hh. destruct (escape s) as [|c l]; [reflexivity|].
    cbn [app trim_start_char]. rewrite decide_False; [done|]. intros ->. by apply Hh. }
  assert (trim_end_char QUOTE e = escape s ++ [BACKSLASH]) as ->.
  { unfold e, trim_end_char. change ([BACKSLASH; QUOTE]) with ([BACKSLASH] ++ [QUOTE]).
    rewrite app_assoc, !reverse_snoc. cbn [trim_start_char]. rewrite !decide_True by done.
    rewrite decide_False by done. by rewrite reverse_cons, reverse_involutive. }
  by rewrite unescape_escape_app.
Qed.

(** A truncated string line stops the daemon at start.  Loading a line
    that ends right after the opening quote of a string value, under any key,
    panics: the slice that should drop the closing quote has its ends crossed.
    The loader runs at start, outside the dispatcher's panic handler. *)
Theorem truncated_string_line_panics `{Lowercase} rs st name :
  NEWLINE ∉ name -> continuation st = [] -> current_path st <> [] ->
  load_line rs st (quoted (escape name) ++ lit "=" ++ [QUOTE]) = Panic.
Proof.
  intros Hn Hc Hp. set (line := quoted (escape name) ++ lit "=" ++ [QUOTE]).
  assert (line_end_ok line) as Hline.
  { apply line_end_app; [|apply line_end_app; [by apply newline_notin|]].
    - unfold quoted. assert (NEWLINE ∉ escape name) by (by apply escape_notin).
      rewrite !not_elem_of_app, !not_elem_of_cons. unfold NEWLINE, QUOTE in *. split_and!; try done; apply not_elem_of_nil.
    - split; [by apply newline_notin|]. exists QUOTE. split; [done|by vm_compute]. }
  destruct (trim_line line Hline) as [Htrim Hbs]; [by intros c [= <-]|].
  unfold load_line. cbv zeta. rewrite Hc, Htrim, Hbs.
  change (skip_line line) with false. change (has_prefix (lit "[") line) with false. cbv iota.
  unfold add_value, parse_reg_value. destruct (current_path st); [done|].
  assert (parse_name line = Some (name, [QUOTE])) as ->.
  { unfold parse_name, line, quoted. rewrite <- !app_assoc.
    change (strip_prefix (lit "@=") ([QUOTE] ++ escape name ++ [QUOTE] ++ lit "=" ++ [QUOTE])) with (@None str).
    change (has_prefix [QUOTE] ([QUOTE] ++ escape name ++ [QUOTE] ++ lit "=" ++ [QUOTE])) with true. cbv iota.
    unfold parse_quoted_name. cbn [app tail]. rewrite quoted_name_escape. reflexivity. }
  reflexivity.
Qed.

(** ** Witnesses *)
Definition w_key : RegistryKey :=
  insert_value (reg_name (lit "Path")) (mkValue 2 (str_to_utf16le_null (lit "C:\x")))
    (insert_value (reg_name (lit "Count")) (mkValue 4 [1; 2; 3; 4]) key_new).
Definition w_state : LoadState := mkLoad key_new [] 0 0 [].
Definition w_root : list RegName := [reg_name (lit "Registry"); reg_name (lit "Machine")].

Lemma w_name_ok `{Lowercase} s : bool_decide (Forall is_scalar s) = true -> last s <> Some 0 -> name_ok (reg_name s).
Proof. intros Hs Hl. constructor; [done|by apply bool_decide_eq_true in Hs|done]. Qed.

Lemma w_key_ok : node_ok w_key.
Proof.
  apply key_ok_node. repeat apply insert_value_ok; [by apply w_name_ok|by apply w_name_ok|apply key_new_ok].
Qed.

Lemma w_saved : saved_values w_key (value_names w_key).
Proof.
  assert (forall s, bool_decide (NEWLINE ∉ s) = true -> s <> lit "@" -> name_text_ok (reg_name s)) as Hname
    by (intros s Hn%bool_decide_eq_true Ha; done).
  constructor; [|constructor; [|constructor]]; (split; [by apply Hname|]).
  - exists (reg_name (lit "Count")), (mkValue 4 [1; 2; 3; 4]). split; [reflexivity|]. split; [reflexivity|].
    by apply (bool_decide_unpack (Forall in_u8 [1; 2; 3; 4])).
  - exists (reg_name (lit "Path")), (mkValue 2 (str_to_utf16le_null (lit "C:\x"))). split; [reflexivity|].
    exists (lit "C:\x"). split; [reflexivity|]. split; [|done]. split_and!; [|done|].
    + by apply (bool_decide_unpack (Forall is_scalar (lit "C:\x"))).
    + by apply newline_notin.
Qed.

Lemma key_section_roundtrip_witness :
  exists st' n', load_lines w_root (lines (format_key (lit "Software") w_key)) w_state = Ret st' /\
    node_at (l_root st') (w_root ++ [reg_name (lit "Software")]) = Some n' /\ value_names n' = value_names w_key.
Proof.
  pose proof w_key_ok as [_ Hnd Hdom].
  destruct (key_section_roundtrip w_root w_state (lit "Software") w_key w_saved Hnd Hdom)
    as (st' & n' & Hl & _ & _ & _ & _ & Hn & Hv & _).
  - by apply newline_notin.
  - by apply (bool_decide_unpack (0x5D ∉ lit "Software")).
  - reflexivity.
  - unfold in_u32; cbn; lia.
  - vm_compute; discriminate.
  - reflexivity.
  - exists st', n'. split_and!; [exact Hl|exact Hn|exact Hv].
Defined.

Lemma expand_string_trailing_quote_witness :
  parse_typed (lit "str(2):" ++ quoted (escape (lit "a" ++ [QUOTE]))) =
    Ret (Some (2, str_to_utf16le_null (lit "a" ++ [BACKSLASH]))).
Proof.
  apply (expand_string_trailing_quote (lit "a") (mkValue 2 (str_to_utf16le_null (lit "a" ++ [QUOTE]))));
    [|reflexivity|reflexivity|reflexivity].
  split_and!; [by apply (bool_decide_unpack (Forall is_scalar (lit "a" ++ [QUOTE])))|done|by apply newline_notin].
Defined.

Lemma truncated_string_line_panics_witness :
  load_line w_root (mkLoad key_new w_root 0 0 []) (quoted (escape (lit "x")) ++ lit "=" ++ [QUOTE]) = Panic.
Proof.
  apply (truncated_string_line_panics w_root (mkLoad key_new w_root 0 0 []) (lit "x"));
    [by apply newline_notin|reflexivity|discriminate].
Defined.

End RegFile.
