(* ===== verification/RegInit.v ===== *)
(** * Runtime registry contents ([src/rust/src/triskelion/registry.rs],
      lines 94-432 and 1214-1473)

    The keys the daemon creates itself before and after loading the prefix's
    files: the control-set link, the display chain, the services, the COM
    classes, and the entries derived from the PARALLAX display data. *)

From stdpp Require Import base list gmap strings.
From S2P Require Import Prelude Dispatch Text Display Registry RegFile.
Local Open Scope Z_scope.
Local Open Scope outcome_scope.

Module RegInit.
Import Text Registry RegFile.

(** ** Formatting *)
Definition upper_hex (c : Z) : Z := if decide (0x61 <= c <= 0x66) then c - 32 else c.
(** [{:0wX}] and [{:0wx}] of a [u32] *)
Definition fmt_x (w : nat) (v : Z) : str := hex_pad (w `max` hex_width 7 v) v.
Definition fmt_X (w : nat) (v : Z) : str := map upper_hex (fmt_x w v).
(** Decimal, at least [w] digits; [fuel] digits are enough for the indices used. *)
Fixpoint dec_digits (fuel : nat) (v : Z) : str :=
  match fuel with
  | O => []
  | S f => (if decide (v < 10) then [] else dec_digits f (v / 10)) ++ [0x30 + v mod 10]
  end.
Definition fmt_dec (w : nat) (v : Z) : str :=
  let d := dec_digits 20 v in replicate (w - length d) 0x30 ++ d.

Section init.
Context `{Lowercase}.

Definition segs (s : str) : list RegName := map reg_name (split_nonempty BACKSLASH s []).

(** [HashMap::insert] keeps the key that is already there. *)
Definition map_put (n : RegName) (v : RegistryValue) (m : gmap str (RegName * RegistryValue)) :=
  <[lower n := (default n (fst <$> m !! lower n), v)]> m.
(** The three ways the code stores a value: pushing the name always, never, or
    when the list does not contain it. *)
Definition push_value (n : RegName) (v : RegistryValue) (k : RegistryKey) : RegistryKey :=
  mkKey (children k) (map_put n v (values k)) (value_names k ++ [n]).
Definition put_value (n : RegName) (v : RegistryValue) (k : RegistryKey) : RegistryKey :=
  mkKey (children k) (map_put n v (values k)) (value_names k).
Definition list_value (n : RegName) (v : RegistryValue) (k : RegistryKey) : RegistryKey :=
  if decide (lower n ∈ map lower (value_names k)) then put_value n v k else push_value n v k.

Definition sz (s : str) : RegistryValue := mkValue 1 (str_to_utf16le_null s).
Definition expand_sz (s : str) : RegistryValue := mkValue 2 (str_to_utf16le_null s).
Definition dword (v : Z) : RegistryValue := mkValue 4 (le_bytes 4 v).
Definition binary (d : list Z) : RegistryValue := mkValue 3 d.
(** Each string with its terminator, then one more. *)
Definition multi_sz (ss : list str) : RegistryValue := mkValue 7 (concat (map str_to_utf16le_null ss) ++ [0; 0]).

Definition set_reg_sz (name : string) (s : str) (k : RegistryKey) : RegistryKey := insert_value (reg_name (lit name)) (sz s) k.
Definition set_reg_dword (name : string) (v : Z) (k : RegistryKey) : RegistryKey := insert_value (reg_name (lit name)) (dword v) k.
Definition set_reg_binary (name : string) (d : list Z) (k : RegistryKey) : RegistryKey := insert_value (reg_name (lit name)) (binary d) k.

Definition at_path (p : str) (f : RegistryKey -> RegistryKey) (rootk : RegistryKey) : RegistryKey :=
  update_at f rootk (segs p).

(** ** [apply_display_driver] *)
Definition NULL_GUID_VIDEO : string :=
  "Registry\Machine\System\ControlSet001\Control\Video\{00000000-0000-0000-0000-000000000000}\0000".

Definition apply_display_driver (sid : str) (drv_short drv_dll : str) (rootk : RegistryKey) : RegistryKey :=
  let k1 := at_path (lit "Registry\User\" ++ sid ++ lit "\Software\Wine\Drivers")
              (list_value (reg_name (lit "Graphics")) (sz drv_short)) rootk in
  at_path (lit NULL_GUID_VIDEO) (list_value (reg_name (lit "GraphicsDriver")) (sz drv_dll)) k1.

(** ** [init_runtime_keys] *)
Definition GPU_CLASS : string := "Registry\Machine\System\ControlSet001\Control\Class\{4d36e968-e325-11ce-bfc1-08002be10318}".

Definition init_link (rootk : RegistryKey) : RegistryKey :=
  at_path (lit "Registry\Machine\System\CurrentControlSet")
    (fun k => let n := reg_name (lit "SymbolicLinkValue") in
              match values k !! lower n with
              | Some _ => k
              | None => push_value n (mkValue 6 (utf16le (lit "\Registry\Machine\System\ControlSet001"))) k
              end) rootk.

Definition gpu_values (k : RegistryKey) : RegistryKey :=
  let name := lit "Wine Display Adapter" in
  let k := fold_left (fun k '(n, v) => push_value (reg_name (lit n)) (sz v) k)
    [("DriverDesc"%string, name); ("HardwareInformation.AdapterString"%string, name);
     ("HardwareInformation.BiosString"%string, name); ("HardwareInformation.ChipType"%string, name);
     ("HardwareInformation.DacType"%string, lit "Intergrated RAMDAC")] k in
  push_value (reg_name (lit "HardwareInformation.MemorySize")) (dword 0x10000000) k.

Definition init_display (rootk : RegistryKey) : RegistryKey :=
  let push1 p n v := at_path (lit p) (push_value (reg_name (lit n)) v) in
  let k := push1 "Registry\Machine\Hardware\DeviceMap\Video"%string "\Device\Video0"%string
    (sz (lit "\Registry\Machine\System\CurrentControlSet\Control\Video\{00000000-0000-0000-0000-000000000000}\0000")) rootk in
  let k := push1 GPU_CLASS "Class"%string (sz (lit "Display")) k in
  let k := at_path (lit GPU_CLASS ++ lit "\0000") gpu_values k in
  let k := at_path (lit NULL_GUID_VIDEO) gpu_values k in
  let k := at_path (lit "Registry\Machine\System\ControlSet001\Enum\PCI\VEN_0000&DEV_0000&SUBSYS_00000000&REV_00\0000")
    (fun n => push_value (reg_name (lit "Driver")) (sz (lit "{4d36e968-e325-11ce-bfc1-08002be10318}\0000"))
              (push_value (reg_name (lit "ClassGUID")) (sz (lit "{4d36e968-e325-11ce-bfc1-08002be10318}")) n)) k in
  let k := at_path (lit "Registry\Machine\System\ControlSet001\Enum\DISPLAY\Default_Monitor\0000&0000")
    (fun n => push_value (reg_name (lit "Driver")) (sz (lit "{4d36e96e-e325-11ce-bfc1-08002be10318}\0000"))
              (push_value (reg_name (lit "ClassGUID")) (sz (lit "{4d36e96e-e325-11ce-bfc1-08002be10318}")) n)) k in
  at_path (lit "Registry\Machine\System\ControlSet001\Control\Class\{4d36e96e-e325-11ce-bfc1-08002be10318}\0000") (fun n => n) k.

Definition init_drivers (sid : str) (rootk : RegistryKey) : RegistryKey :=
  let k := at_path (lit "Registry\User\" ++ sid ++ lit "\Software\Wine\X11 Driver")
    (push_value (reg_name (lit "UseEGL")) (sz (lit "N"))) rootk in
  at_path (lit "Registry\Machine\Software\Microsoft\Windows NT\CurrentVersion\Windows")
    (fun n => push_value (reg_name (lit "LoadAppInit_DLLs")) (dword 1)
              (push_value (reg_name (lit "AppInit_DLLs")) (sz (lit "drv_init.dll")) n)) k.

Definition svchost_groups : list (string * list string) :=
  [("netsvcs", ["Themes"; "BITS"; "AudioEndpointBuilder"; "Audiosrv"; "CertPropSvc"; "LanmanWorkstation"; "ProfSvc";
                "SENS"; "ShellHWDetection"]);
   ("LocalServiceNetworkRestricted", ["nsi"; "DhcpSvc"; "EventLog"]);
   ("LocalService", ["nsi"; "WinHttpAutoProxySvc"]);
   ("LocalServiceNoNetwork", ["PLA"]);
   ("LocalSystemNetworkRestricted", ["WPDBusEnum"])]%string.

Definition init_svchost (rootk : RegistryKey) : RegistryKey :=
  at_path (lit "Registry\Machine\Software\Microsoft\Windows NT\CurrentVersion\SvcHost")
    (fun n => fold_left (fun n '(g, ss) => insert_value (reg_name (lit g)) (multi_sz (map lit ss)) n) svchost_groups n) rootk.

(** name, type, start, image path, group, parameters *)
Definition services : list (string * Z * Z * string * string * list (string * string)) :=
  [("nsi", 0x20, 2, "%SystemRoot%\system32\svchost.exe -k LocalServiceNetworkRestricted", "TDI",
      [("ServiceDll", "%SystemRoot%\system32\nsisvc.dll")]);
   ("nsiproxy", 1, 1, "system32\drivers\nsiproxy.sys", "PNP_TDI", []);
   ("NDIS", 1, 1, "system32\drivers\ndis.sys", "NDIS", []);
   ("Dhcp", 0x20, 2, "%SystemRoot%\system32\svchost.exe -k LocalServiceNetworkRestricted", "TDI",
      [("ServiceDll", "%SystemRoot%\system32\dhcpsvc.dll")]);
   ("Eventlog", 0x20, 2, "%SystemRoot%\system32\svchost.exe -k LocalServiceNetworkRestricted", "",
      [("ServiceDll", "%SystemRoot%\system32\wevtsvc.dll")]);
   ("SharedGpuResources", 1, 2, "C:\windows\system32\drivers\sharedgpures.sys", "System Bus Extender", []);
   ("MountMgr", 1, 0, "system32\drivers\mountmgr.sys", "System Bus Extender", []);
   ("Winedevice1", 0x10, 3, "%SystemRoot%\system32\winedevice.exe", "", []);
   ("Winedevice2", 0x10, 3, "%SystemRoot%\system32\winedevice.exe", "", []);
   ("winebus", 1, 2, "system32\drivers\winebus.sys", "", []);
   ("wineusb", 1, 2, "system32\drivers\wineusb.sys", "", []);
   ("winebth", 1, 2, "system32\drivers\winebth.sys", "", [])]%string.

Definition init_service (rootk : RegistryKey) (svc : string * Z * Z * string * string * list (string * string)) : RegistryKey :=
  let '(name, svc_type, start, image_path, group, params) := svc in
  let svc_path := lit "Registry\Machine\System\ControlSet001\Services" ++ [BACKSLASH] ++ lit name in
  let k := at_path svc_path
    (fun n => let n := set_reg_dword "Type" svc_type n in
              let n := set_reg_dword "Start" start n in
              let n := insert_value (reg_name (lit "ImagePath")) (expand_sz (lit image_path)) n in
              if decide (group = "")%string then n else set_reg_sz "Group" (lit group) n) rootk in
  match params with
  | [] => k
  | _ => at_path (svc_path ++ lit "\Parameters")
           (fun n => fold_left (fun n '(pn, pv) =>
                        match values n !! lower (reg_name (lit pn)) with
                        | Some _ => n
                        | None => push_value (reg_name (lit pn)) (expand_sz (lit pv)) n
                        end) params n) k
  end.

(** [com_classes] is the table of [com_classes.rs]. *)
Definition init_com_class (rootk : RegistryKey) (e : str * str * str) : RegistryKey :=
  let '(clsid, dll_path, threading) := e in
  at_path (lit "Registry\Machine\Software\Classes\CLSID" ++ [BACKSLASH] ++ clsid ++ lit "\InprocServer32")
    (fun n => set_reg_sz "ThreadingModel" threading (set_reg_sz "" dll_path n)) rootk.
Definition init_com (com_classes : list (str * str * str)) (rootk : RegistryKey) : RegistryKey :=
  fold_left init_com_class com_classes rootk.

Definition init_base (sid : str) (rootk : RegistryKey) : RegistryKey :=
  let k := init_link rootk in
  let k := apply_display_driver sid (lit "x11") (lit "winex11.drv") k in
  let k := init_display k in
  let k := init_drivers sid k in
  let k := init_svchost k in
  fold_left init_service services k.

Definition init_runtime_keys (com_classes : list (str * str * str)) (sid : str) (rootk : RegistryKey) : RegistryKey :=
  init_com com_classes (init_base sid rootk).

(** The files of the prefix are read in order; [read] is [None] for a file that
    cannot be read, which is skipped. *)
Fixpoint load_files (read : string -> option str) (files : list (string * str)) (rootk : RegistryKey) : outcome RegistryKey :=
  match files with
  | [] => Ret rootk
  | (filename, root_prefix) :: rest =>
      match read filename with
      | Some content =>
          res <-! load_reg_file content root_prefix rootk ;; load_files read rest res.1.1
      | None => load_files read rest rootk
      end
  end.
Definition load_prefix_registry (read : string -> option str) (sid : str) (rootk : RegistryKey) : outcome RegistryKey :=
  load_files read (prefix_files sid) rootk.

(** [Registry::new]: the runtime keys, then the prefix files. *)
Definition registry_new (com_classes : list (str * str * str)) (read : string -> option str) (sid : str) : outcome Registry :=
  k <-! load_prefix_registry read sid (init_runtime_keys com_classes sid key_new) ;;
  Ret (mkReg k ∅ 1 1 sid [] 0).

(** ** PARALLAX display data *)
Definition gpu_guid (g : Display.GpuData) : str :=
  fmt_x 4 (Display.g_pci_vendor g) ++ fmt_x 4 (Display.g_pci_device g) ++ lit "-0000-0000-0000-000000000000".

Definition pci_id (g : Display.GpuData) : str :=
  lit "VEN_" ++ fmt_X 4 (Display.g_pci_vendor g) ++ lit "&DEV_" ++ fmt_X 4 (Display.g_pci_device g) ++
  lit "&SUBSYS_" ++ fmt_X 4 (Display.g_pci_subsys_device g) ++ fmt_X 4 (Display.g_pci_subsys_vendor g) ++
  lit "&REV_" ++ fmt_X 2 (Display.g_pci_revision g).

(** A 188-byte DEVMODEW. *)
Definition build_devmodew (width height refresh bpp : Z) : list Z :=
  let dm := replicate 188 0 in
  let dm := put_bytes 0x40 (le_bytes 2 0x0401) dm in
  let dm := put_bytes 0x42 (le_bytes 2 0x0401) dm in
  let dm := put_bytes 0x44 (le_bytes 2 188) dm in
  let dm := put32 0x48 (Z.lor 0x1 (Z.lor 0x100 (Z.lor 0x80000 (Z.lor 0x100000 0x400000)))) dm in
  let dm := put32 0x6C bpp dm in
  let dm := put32 0x70 width dm in
  let dm := put32 0x74 height dm in
  put32 0x7C refresh dm.

Definition vram_dword (g : Display.GpuData) : Z :=
  if decide (0 < Display.g_vram_bytes g) then Z.min (Display.g_vram_bytes g) U32_MAX else 0x10000000.

(** The values written both to the source key and to the hardware profile. *)
Definition mode_values (gpu_path : str) (i : nat) (c : Display.ConnectorData) (n : RegistryKey) : RegistryKey :=
  let modes_data := concat (map (fun m => build_devmodew (Display.m_width m) (Display.m_height m) (Display.m_refresh m) 32)
                                (Display.d_modes c)) in
  let mode_tail := drop 0x48 (build_devmodew (Display.current_width c) (Display.current_height c) (Display.current_refresh c) 32) in
  let n := set_reg_dword "ModeCount" (u32 (Z.of_nat (length (Display.d_modes c)))) n in
  let n := set_reg_binary "Modes" modes_data n in
  let n := set_reg_binary "Current" mode_tail n in
  let n := set_reg_binary "Registry" mode_tail n in
  let n := set_reg_sz "GPUID" gpu_path n in
  let n := set_reg_dword "StateFlags" (if decide (i = 0%nat) then 0x5 else 0x1) n in
  let n := set_reg_dword "Dpi" 96 n in
  set_reg_dword "Depth" 32 n.

Definition source_path (guid name : str) : str :=
  lit "Registry\Machine\System\ControlSet001\Control\Video\{" ++ guid ++ lit "}\Sources\" ++ name.
Definition profile_path (guid name : str) : str :=
  lit "Registry\Machine\System\CurrentControlSet\Hardware Profiles\Current\System\CurrentControlSet\Control\Video\{" ++
  guid ++ lit "}\Sources\" ++ name.

Definition apply_connector (g : Display.GpuData) (i : nat) (c : Display.ConnectorData) (rootk : RegistryKey) : RegistryKey :=
  let guid := gpu_guid g in
  let name := Display.d_name c in
  let gpu_path := lit "\Registry\Machine\System\CurrentControlSet\Enum\PCI\" ++ pci_id g ++ lit "\0000" in
  let k := at_path (source_path guid name)
    (fun n =>
       let n := set_reg_dword "DefaultSettings.BitsPerPel" 32 n in
       let n := set_reg_dword "DefaultSettings.XResolution" (Display.current_width c) n in
       let n := set_reg_dword "DefaultSettings.YResolution" (Display.current_height c) n in
       let n := set_reg_dword "DefaultSettings.VRefresh" (Display.current_refresh c) n in
       let n := set_reg_dword "DefaultSettings.Flags" 0 n in
       mode_values gpu_path i c n) rootk in
  let k := at_path (profile_path guid name) (mode_values gpu_path i c) k in
  let k := at_path (lit "Registry\Machine\System\ControlSet001\Enum\DISPLAY\" ++
                    Display.edid_manufacturer (Display.d_edid c) ++ [BACKSLASH] ++
                    fmt_X 4 (Display.edid_product (Display.d_edid c)) ++ lit "&" ++ fmt_X 4 (Z.of_nat i))
    (fun n =>
       let n := set_reg_sz "ClassGUID" (lit "{4d36e96e-e325-11ce-bfc1-08002be10318}") n in
       let n := set_reg_sz "Driver" (lit "{4d36e96e-e325-11ce-bfc1-08002be10318}\" ++ fmt_dec 4 (Z.of_nat i)) n in
       match Display.d_edid c with [] => n | e => set_reg_binary "EDID" e n end) k in
  if decide (0 < i)%nat then
    at_path (lit "Registry\Machine\Hardware\DeviceMap\Video")
      (push_value (reg_name (lit "\Device\Video" ++ fmt_dec 1 (Z.of_nat i)))
         (sz (lit "\Registry\Machine\System\CurrentControlSet\Control\Video\{" ++ guid ++ lit "}\Sources\" ++ name))) k
  else k.

Definition apply_display_registry (dd : Display.DisplayData) (sid : str) (rootk : RegistryKey) : RegistryKey :=
  let g := Display.gpu dd in
  let k := at_path (lit "Registry\Machine\System\ControlSet001\Enum\PCI\" ++ pci_id g ++ lit "\0000")
    (fun n => set_reg_sz "Driver" (lit "{4d36e968-e325-11ce-bfc1-08002be10318}\0000")
              (set_reg_sz "ClassGUID" (lit "{4d36e968-e325-11ce-bfc1-08002be10318}") n)) rootk in
  let k := at_path (lit GPU_CLASS ++ lit "\0000")
    (fun n =>
       let n := put_value (reg_name (lit "HardwareInformation.MemorySize")) (dword (vram_dword g)) n in
       match Display.g_gpu_name g with
       | [] => n
       | nm => fold_left (fun n v => set_reg_sz v nm n)
                 ["DriverDesc"; "HardwareInformation.AdapterString"; "HardwareInformation.BiosString";
                  "HardwareInformation.ChipType"]%string n
       end) k in
  let k := fold_left (fun k '(i, c) => apply_connector g i c k) (imap pair (Display.d_connectors dd)) k in
  let '(drv_short, drv_dll) := Display.display_driver dd in
  apply_display_driver sid (lit drv_short) (lit drv_dll) k.

Definition update_display_guid (guid drv_dll : str) (rootk : RegistryKey) : RegistryKey :=
  let k := at_path (lit "Registry\Machine\System\ControlSet001\Control\Video\{" ++ guid ++ lit "}\0000")
    (insert_value (reg_name (lit "GraphicsDriver")) (sz drv_dll)) rootk in
  at_path (lit "Registry\Machine\Hardware\DeviceMap\Video")
    (put_value (reg_name (lit "\Device\Video0"))
       (sz (lit "\Registry\Machine\System\CurrentControlSet\Control\Video\{" ++ guid ++ lit "}\0000"))) k.

End init.

(** ** Checking a concrete tree *)
Definition name_okb `{Lowercase} (n : RegName) : bool :=
  bool_decide (lower n = to_lowercase (original n)) && bool_decide (Forall is_scalar (original n)) &&
  bool_decide (last (original n) <> Some 0).
Definition node_okb `{Lowercase} (k : RegistryKey) : bool :=
  forallb name_okb (value_names k) && bool_decide (NoDup (map lower (value_names k))) &&
  bool_decide (list_to_set (map lower (value_names k)) = dom (values k)).
Fixpoint key_okb `{Lowercase} (fuel : nat) (k : RegistryKey) : bool :=
  match fuel with
  | O => false
  | S f => node_okb k && forallb (fun e => key_okb f e.2.2) (map_to_list (children k))
  end.

Lemma key_okb_sound `{Lowercase} fuel k : key_okb fuel k = true -> key_ok k.
Proof.
  revert k; induction fuel as [|f IH]; intros k; [done|]. cbn [key_okb].
  intros [Hn Hc]%andb_prop. constructor.
  - unfold node_okb in Hn. apply andb_prop in Hn as [[Hnames Hnd]%andb_prop Hdom].
    apply bool_decide_eq_true in Hnd, Hdom. constructor; [|done|].
    + apply Forall_forall. intros n Hin. apply forallb_forall with (x := n) in Hnames; [|by apply list_elem_of_In].
      apply andb_prop in Hnames as [[H1 H2]%andb_prop H3]. apply bool_decide_eq_true in H1, H2, H3. done.
    + intros s. by rewrite <- elem_of_dom, <- Hdom, elem_of_list_to_set.
  - intros s n c Hs. apply IH. apply forallb_forall with (x := (s, (n, c))) in Hc; [done|].
    by apply list_elem_of_In, elem_of_map_to_list.
Qed.

Lemma set_reg_sz_ok `{Lowercase} name s k : bool_decide (Forall is_scalar (lit name)) = true -> last (lit name) <> Some 0 ->
  key_ok k -> key_ok (set_reg_sz name s k).
Proof. intros. apply insert_value_ok; [by apply w_name_ok|done]. Qed.

Lemma init_com_class_ok `{Lowercase} k e : key_ok k -> key_ok (init_com_class k e).
Proof.
  intros Hk. destruct e as [[clsid dll] thr]. unfold init_com_class, at_path. apply update_at_ok; [|exact Hk].
  intros n Hn. apply set_reg_sz_ok; [vm_compute; reflexivity|vm_compute; discriminate|].
  apply set_reg_sz_ok; [vm_compute; reflexivity|vm_compute; discriminate|exact Hn].
Qed.

Lemma init_com_ok `{Lowercase} com k : key_ok k -> key_ok (init_com com k).
Proof.
  unfold init_com. revert k; induction com as [|e com IH]; intros k Hk; [exact Hk|].
  change (fold_left init_com_class (e :: com) k) with (fold_left init_com_class com (init_com_class k e)).
  apply IH, init_com_class_ok, Hk.
Qed.

(** ** The initial registry *)
Fixpoint no_linksb `{Lowercase} (fuel : nat) (k : RegistryKey) : bool :=
  match fuel with
  | O => false
  | S f => bool_decide (link_target k = None) && forallb (fun e => no_linksb f e.2.2) (map_to_list (children k))
  end.

Lemma no_linksb_sound `{Lowercase} fuel k q : no_linksb fuel k = true -> link_target k = None /\ find_link k q = None.
Proof.
  revert k q; induction fuel as [|f IH]; intros k q; [done|]. cbn [no_linksb].
  intros [Hl%bool_decide_eq_true Hc]%andb_prop. split; [done|]. destruct q as [|seg q]; [done|]. cbn [find_link].
  destruct (children k !! lower seg) as [[n c]|] eqn:Hs; [|done].
  apply forallb_forall with (x := (lower seg, (n, c))) in Hc; [|by apply list_elem_of_In, elem_of_map_to_list].
  destruct (IH c q Hc) as [-> ->]. done.
Qed.

Lemma find_link_app `{Lowercase} k p q n :
  node_at k p = Some n -> find_link k p = None -> find_link k (p ++ q) = find_link n q.
Proof.
  revert k; induction p as [|seg p IH]; intros k; cbn [node_at find_link app]; [by intros [= ->]|].
  destruct (children k !! lower seg) as [[nm c]|]; [|done]. destruct (link_target c); [done|]. apply IH.
Qed.

(** *** Updates below diverging paths *)
Section diverge.
Context `{Lowercase}.
Implicit Types (f g : RegistryKey -> RegistryKey) (k : RegistryKey) (c p q : list RegName) (a b : RegName).

Lemma update_at_comm f g k c a p b q : lower a <> lower b ->
  update_at f (update_at g k (c ++ b :: q)) (c ++ a :: p) = update_at g (update_at f k (c ++ a :: p)) (c ++ b :: q).
Proof.
  intros Hab. revert k; induction c as [|x c IH]; intros k; cbn [app update_at].
  - destruct (children k !! lower a) as [[na ca]|] eqn:Ha, (children k !! lower b) as [[nb cb]|] eqn:Hb;
      cbn [default from_option id children values value_names]; rewrite !lookup_insert_ne by done; rewrite ?Ha, ?Hb;
      cbn [default from_option id]; by rewrite insert_insert_ne by done.
  - destruct (default (x, key_new) (children k !! lower x)) as [nx cx] eqn:Hx.
    cbn [children values value_names]. rewrite !lookup_insert_eq. cbn [default from_option id].
    by rewrite !insert_insert_eq, IH.
Qed.

Lemma node_at_update_div f k c a p b q : lower a <> lower b ->
  node_at (update_at f k (c ++ a :: p)) (c ++ b :: q) = node_at k (c ++ b :: q).
Proof.
  intros Hab. revert k; induction c as [|x c IH]; intros k; cbn [app update_at node_at].
  - destruct (default (a, key_new) (children k !! lower a)). cbn [children]. by rewrite lookup_insert_ne.
  - destruct (children k !! lower x) as [[nx cx]|]; cbn [default from_option id children];
      rewrite lookup_insert_eq, IH; [done|]. apply node_at_empty. by destruct c.
Qed.

Lemma update_at_values f k c a p : values (update_at f k (c ++ a :: p)) = values k.
Proof. destruct c as [|x c]; cbn [app update_at]; by destruct (default _ _). Qed.

Lemma find_link_update_div f k c a p b q : lower a <> lower b ->
  find_link (update_at f k (c ++ a :: p)) (c ++ b :: q) = find_link k (c ++ b :: q).
Proof.
  intros Hab. revert k; induction c as [|x c IH]; intros k; cbn [app update_at find_link].
  - destruct (default (a, key_new) (children k !! lower a)). cbn [children]. by rewrite lookup_insert_ne.
  - destruct (children k !! lower x) as [[nx cx]|]; cbn [default from_option id children];
      rewrite lookup_insert_eq, (link_target_values _ _ (update_at_values f _ c a p)), IH; [done|].
    by rewrite link_target_new, find_link_new.
Qed.

Lemma find_link_update_apart f k P Q c a p b q : lower a <> lower b -> P = c ++ a :: p -> Q = c ++ b :: q ->
  find_link (update_at f k P) Q = find_link k Q.
Proof. intros Hab -> ->. by apply find_link_update_div. Qed.

Lemma find_link_some_app k p q t : find_link k p = Some t -> find_link k (p ++ q) = Some (t ++ q).
Proof.
  revert k; induction p as [|x p IH]; intros k; cbn [find_link app]; [done|].
  destruct (children k !! lower x) as [[nx cx]|]; [|done]. destruct (link_target cx) as [tt|]; [|apply IH].
  intros <-%(inj Some). by rewrite app_assoc.
Qed.

(** Only the node that is changed has to be well formed. *)
Lemma update_at_ok_here f k p : key_ok (f (reach k p)) -> key_ok k -> key_ok (update_at f k p).
Proof.
  revert k; induction p as [|x p IH]; intros k Hf Hk; cbn [update_at]; [exact Hf|].
  inversion Hk as [? Hn Hc]; subst. unfold reach in Hf. cbn [node_at] in Hf.
  destruct (children k !! lower x) as [[nx cx]|] eqn:Hx; cbn [default from_option id].
  - constructor; [by destruct Hn|]. intros s n c'. cbn [children]. rewrite lookup_insert_Some.
    intros [[_ [= _ <-]]|[_ Hs]]; [|eauto]. apply IH; [exact Hf|eauto].
  - constructor; [by destruct Hn|]. intros s n c'. cbn [children]. rewrite lookup_insert_Some.
    intros [[_ [= _ <-]]|[_ Hs]]; [|eauto]. apply IH; [|apply key_new_ok].
    destruct p; [exact Hf|]. unfold reach. rewrite node_at_empty by done. exact Hf.
Qed.

Lemma split_nonempty_app s t acc :
  split_nonempty BACKSLASH (s ++ BACKSLASH :: t) acc = split_nonempty BACKSLASH s acc ++ split_nonempty BACKSLASH t [].
Proof.
  revert acc; induction s as [|x s IH]; intros acc; cbn [app split_nonempty].
  - by rewrite decide_True.
  - destruct (decide (x = BACKSLASH)); rewrite IH; [by rewrite app_assoc|done].
Qed.
Lemma segs_app s t : segs (s ++ BACKSLASH :: t) = segs s ++ segs t.
Proof. unfold segs. by rewrite split_nonempty_app, map_app. Qed.
Lemma segs_join s t : segs (s ++ [BACKSLASH] ++ t) = segs s ++ segs t.
Proof. exact (segs_app s t). Qed.
End diverge.

(** *** The machine part and the user part of the initial tree *)
Definition REGISTRY : RegName := reg_name (lit "Registry").
Definition MACHINE : RegName := reg_name (lit "Machine").
Definition USER : RegName := reg_name (lit "User").
Definition CCS : list RegName := segs (lit "Registry\Machine\System\CurrentControlSet").
Definition CS001 : list RegName := segs (lit "Registry\Machine\System\ControlSet001").

(** An operation that commutes with every update below [Registry\User]. *)
Definition machine_op (g : RegistryKey -> RegistryKey) : Prop :=
  forall f u k, g (update_at f k (REGISTRY :: USER :: u)) = update_at f (g k) (REGISTRY :: USER :: u).

Lemma machine_op_at p t f : segs p = REGISTRY :: MACHINE :: t -> machine_op (at_path p f).
Proof.
  intros Hp g u k. unfold at_path. rewrite Hp.
  apply (update_at_comm f g k [REGISTRY] MACHINE t USER u). vm_compute. discriminate.
Qed.
Lemma machine_at_under p t h f u x k : segs p = REGISTRY :: MACHINE :: t ->
  x = update_at f k (REGISTRY :: USER :: u) -> at_path p h x = update_at f (at_path p h k) (REGISTRY :: USER :: u).
Proof. intros Hp ->. exact (machine_op_at p t h Hp f u k). Qed.
Lemma machine_op_fold {A} (g : RegistryKey -> A -> RegistryKey) l :
  (forall a, machine_op (fun k => g k a)) -> machine_op (fun k => fold_left g l k).
Proof. intros Hg f u. induction l as [|a l IH]; intros k; cbn [fold_left]; [done|]. by rewrite (Hg a), IH. Qed.

Ltac machine_paths := repeat (eapply machine_at_under; [vm_compute; reflexivity|]); reflexivity.

Lemma init_link_machine : machine_op init_link.
Proof. intros f u k. unfold init_link. machine_paths. Qed.
Lemma init_display_machine : machine_op init_display.
Proof. intros f u k. unfold init_display. cbv zeta. machine_paths. Qed.
Lemma init_svchost_machine : machine_op init_svchost.
Proof. intros f u k. unfold init_svchost. machine_paths. Qed.

Lemma segs_machine s t : segs s = REGISTRY :: MACHINE :: t -> forall rest,
  segs (s ++ [BACKSLASH] ++ rest) = REGISTRY :: MACHINE :: t ++ segs rest.
Proof. intros Hs rest. by rewrite segs_join, Hs. Qed.

Lemma init_service_machine svc : machine_op (fun k => init_service k svc).
Proof.
  destruct svc as [[[[[name ty] st] img] grp] params]. intros f u k. unfold init_service. cbv zeta.
  assert (Hp : forall rest, segs (lit "Registry\Machine\System\ControlSet001\Services" ++ [BACKSLASH] ++ rest) =
    REGISTRY :: MACHINE :: segs (lit "System\ControlSet001\Services") ++ segs rest)
    by (apply segs_machine; vm_compute; reflexivity).
  destruct params as [|pr params]; [exact (machine_op_at _ _ _ (Hp (lit name)) f u k)|].
  eapply machine_at_under; [|exact (machine_op_at _ _ _ (Hp (lit name)) f u k)].
  rewrite <- !(app_assoc (lit _)), <- app_assoc. apply Hp.
Qed.

(** The tree without the two updates below the user's key. *)
Definition init_machine (k : RegistryKey) : RegistryKey :=
  let k := at_path (lit NULL_GUID_VIDEO) (list_value (reg_name (lit "GraphicsDriver")) (sz (lit "winex11.drv"))) (init_link k) in
  let k := init_display k in
  let k := at_path (lit "Registry\Machine\Software\Microsoft\Windows NT\CurrentVersion\Windows")
    (fun n => push_value (reg_name (lit "LoadAppInit_DLLs")) (dword 1)
              (push_value (reg_name (lit "AppInit_DLLs")) (sz (lit "drv_init.dll")) n)) k in
  let k := init_svchost k in
  fold_left init_service services k.
Definition user_drivers : RegistryKey -> RegistryKey := list_value (reg_name (lit "Graphics")) (sz (lit "x11")).
Definition user_x11 : RegistryKey -> RegistryKey := push_value (reg_name (lit "UseEGL")) (sz (lit "N")).
Definition wine_key (sid : str) : list RegName := segs sid ++ segs (lit "Software\Wine").

Lemma user_path sid (s : string) : forall t, segs (lit s) = segs (lit "Software\Wine") ++ t ->
  segs (lit "Registry\User\" ++ sid ++ BACKSLASH :: lit s) = REGISTRY :: USER :: wine_key sid ++ t.
Proof.
  intros t Ht. change (lit "Registry\User\" ++ sid ++ BACKSLASH :: lit s)
    with (lit "Registry\User" ++ BACKSLASH :: (sid ++ BACKSLASH :: lit s)).
  rewrite !segs_app, Ht. unfold wine_key. by rewrite <- app_assoc.
Qed.

Lemma at_user_drivers sid f k :
  at_path (lit "Registry\User\" ++ sid ++ lit "\Software\Wine\Drivers") f k =
  update_at f k (REGISTRY :: USER :: wine_key sid ++ segs (lit "Drivers")).
Proof.
  unfold at_path. change (lit "\Software\Wine\Drivers") with (BACKSLASH :: lit "Software\Wine\Drivers").
  by rewrite (user_path sid "Software\Wine\Drivers" (segs (lit "Drivers"))) by (vm_compute; reflexivity).
Qed.
Lemma at_user_x11 sid f k :
  at_path (lit "Registry\User\" ++ sid ++ lit "\Software\Wine\X11 Driver") f k =
  update_at f k (REGISTRY :: USER :: wine_key sid ++ segs (lit "X11 Driver")).
Proof.
  unfold at_path. change (lit "\Software\Wine\X11 Driver") with (BACKSLASH :: lit "Software\Wine\X11 Driver").
  by rewrite (user_path sid "Software\Wine\X11 Driver" (segs (lit "X11 Driver"))) by (vm_compute; reflexivity).
Qed.

Definition services_machine : machine_op (fun k => fold_left init_service services k) :=
  machine_op_fold init_service services init_service_machine.

Lemma init_base_split sid k :
  init_base sid k =
  update_at user_x11 (update_at user_drivers (init_machine k) (REGISTRY :: USER :: wine_key sid ++ segs (lit "Drivers")))
    (REGISTRY :: USER :: wine_key sid ++ segs (lit "X11 Driver")).
Proof.
  unfold init_base, init_drivers, apply_display_driver, init_machine. cbv zeta.
  rewrite at_user_drivers, at_user_x11. fold user_drivers user_x11.
  erewrite (machine_op_at (lit NULL_GUID_VIDEO)) by (vm_compute; reflexivity).
  rewrite init_display_machine.
  do 2 erewrite (machine_op_at (lit "Registry\Machine\Software\Microsoft\Windows NT\CurrentVersion\Windows"))
    by (vm_compute; reflexivity).
  by rewrite !init_svchost_machine, !services_machine.
Qed.

Definition machine_root : RegistryKey := init_machine key_new.
Lemma machine_root_ok : key_ok machine_root.
Proof. apply (key_okb_sound 20). vm_compute. reflexivity. Qed.
Lemma machine_root_user : node_at machine_root [REGISTRY; USER] = None.
Proof. vm_compute. reflexivity. Qed.
Lemma machine_root_link : find_link machine_root CCS = Some CS001.
Proof. vm_compute. reflexivity. Qed.
Lemma machine_root_no_link : find_link machine_root CS001 = None.
Proof. vm_compute. reflexivity. Qed.
Lemma machine_root_no_links :
  match node_at machine_root CS001 with Some n => no_linksb 20 n | None => false end = true.
Proof. vm_compute. reflexivity. Qed.
Lemma init_base_root sid :
  init_base sid key_new =
  update_at user_x11 (update_at user_drivers machine_root (REGISTRY :: USER :: wine_key sid ++ segs (lit "Drivers")))
    (REGISTRY :: USER :: wine_key sid ++ segs (lit "X11 Driver")).
Proof. exact (init_base_split sid key_new). Qed.
#[local] Opaque machine_root.

Lemma user_keys_ok sid : key_ok (init_base sid key_new).
Proof.
  rewrite init_base_root.
  assert (Hnone : forall u, node_at machine_root (REGISTRY :: USER :: u) = None).
  { intros u. change (REGISTRY :: USER :: u) with ([REGISTRY; USER] ++ u). by rewrite node_at_app, machine_root_user. }
  apply update_at_ok_here.
  - unfold reach.
    assert (Hne : lower (reg_name (lit "Drivers")) <> lower (reg_name (lit "X11 Driver"))) by (vm_compute; discriminate).
    assert (Hd := node_at_update_div user_drivers machine_root (REGISTRY :: USER :: wine_key sid) _ [] _ [] Hne).
    apply (fun e => eq_trans e (Hnone (wine_key sid ++ [reg_name (lit "X11 Driver")]))) in Hd. cbn [app] in Hd.
    change (segs (lit "Drivers")) with [reg_name (lit "Drivers")].
    change (segs (lit "X11 Driver")) with [reg_name (lit "X11 Driver")].
    rewrite Hd. apply (key_okb_sound 2). vm_compute. reflexivity.
  - apply update_at_ok_here; [|exact machine_root_ok]. unfold reach. rewrite Hnone.
    apply (key_okb_sound 2). vm_compute. reflexivity.
Qed.

Lemma segs_clsid : segs (lit "Registry\Machine\Software\Classes\CLSID") =
  REGISTRY :: MACHINE :: reg_name (lit "Software") :: segs (lit "Classes\CLSID").
Proof. vm_compute. reflexivity. Qed.
Lemma segs_system : segs (lit "Registry\Machine\System") = [REGISTRY; MACHINE; reg_name (lit "System")].
Proof. vm_compute. reflexivity. Qed.
Lemma software_system : lower (reg_name (lit "Software")) <> lower (reg_name (lit "System")).
Proof. vm_compute. discriminate. Qed.

Lemma init_com_class_at k clsid dll thr : exists f t P,
  init_com_class k (clsid, dll, thr) = update_at f k P /\ P = [REGISTRY; MACHINE] ++ reg_name (lit "Software") :: t.
Proof.
  eexists _, (segs (lit "Classes\CLSID") ++ segs (clsid ++ lit "\InprocServer32")), _.
  split; [reflexivity|]. by rewrite segs_join, segs_clsid.
Qed.

Lemma init_com_class_find_link e k P q : P = [REGISTRY; MACHINE] ++ reg_name (lit "System") :: q ->
  find_link (init_com_class k e) P = find_link k P.
Proof.
  intros HP. destruct e as [[clsid dll] thr]. destruct (init_com_class_at k clsid dll thr) as (f & t & Q & Heq & HQ).
  rewrite Heq. exact (find_link_update_apart f k Q P [REGISTRY; MACHINE] (reg_name (lit "Software")) t (reg_name (lit "System")) q
           software_system HQ HP).
Qed.
Lemma init_com_find_link com k P q : P = [REGISTRY; MACHINE] ++ reg_name (lit "System") :: q ->
  find_link (init_com com k) P = find_link k P.
Proof.
  intros HP. revert k; induction com as [|e com IH]; intros k; [reflexivity|].
  change (init_com (e :: com) k) with (init_com com (init_com_class k e)).
  rewrite IH. exact (init_com_class_find_link e k P q HP).
Qed.
Lemma user_machine : lower USER <> lower MACHINE.
Proof. vm_compute. discriminate. Qed.
Lemma init_base_find_link sid P q : P = [REGISTRY] ++ MACHINE :: q ->
  find_link (init_base sid key_new) P = find_link machine_root P.
Proof.
  intros HP. rewrite init_base_root.
  etransitivity; [eapply (find_link_update_apart _ _ _ P [REGISTRY] USER _ MACHINE q user_machine); [reflexivity|exact HP]|].
  eapply (find_link_update_apart _ _ _ P [REGISTRY] USER _ MACHINE q user_machine); [reflexivity|exact HP].
Qed.

Lemma runtime_find_link com sid q :
  find_link (init_runtime_keys com sid key_new) (segs (lit "Registry\Machine\System") ++ q) =
  find_link machine_root (segs (lit "Registry\Machine\System") ++ q).
Proof.
  unfold init_runtime_keys. rewrite (init_com_find_link com _ _ q); [|by rewrite segs_system].
  apply (init_base_find_link sid _ (reg_name (lit "System") :: q)). by rewrite segs_system.
Qed.
Lemma CCS_eq : CCS = segs (lit "Registry\Machine\System") ++ [reg_name (lit "CurrentControlSet")].
Proof. vm_compute. reflexivity. Qed.
Lemma CS001_eq : CS001 = segs (lit "Registry\Machine\System") ++ [reg_name (lit "ControlSet001")].
Proof. vm_compute. reflexivity. Qed.

Lemma runtime_link com sid q :
  find_link (init_runtime_keys com sid key_new) (CCS ++ q) = Some (CS001 ++ q).
Proof.
  rewrite CCS_eq, <- app_assoc, runtime_find_link.
  rewrite (app_assoc _ [reg_name (lit "CurrentControlSet")] q), <- CCS_eq.
  exact (find_link_some_app _ _ q _ machine_root_link).
Qed.
Lemma runtime_no_link com sid q : find_link (init_runtime_keys com sid key_new) (CS001 ++ q) = None.
Proof.
  rewrite CS001_eq, <- app_assoc, runtime_find_link.
  rewrite (app_assoc _ [reg_name (lit "ControlSet001")] q), <- CS001_eq.
  assert (Hn := machine_root_no_links). destruct (node_at machine_root CS001) as [n|] eqn:Hat; [|done].
  rewrite (find_link_app _ _ _ _ Hat machine_root_no_link). apply (no_linksb_sound 20 n q Hn).
Qed.

(** The registry the daemon starts from.  Whatever the user and the COM
    class table, the tree built by [init_runtime_keys] is well formed: no value
    is listed twice although most are pushed without a check.  And every path
    below CurrentControlSet resolves to the same path below ControlSet001. *)
Theorem runtime_keys_well_formed com sid q :
  key_ok (init_runtime_keys com sid key_new) /\
  follow_symlink (init_runtime_keys com sid key_new) (CCS ++ q) = CS001 ++ q.
Proof.
  split; [exact (init_com_ok com _ (user_keys_ok sid))|].
  unfold follow_symlink. cbn [follow_links]. by rewrite runtime_link, runtime_no_link.
Qed.

Definition demo_sid : str := lit "S-1-5-21-0-0-0-1000".
Definition demo_root : RegistryKey := init_base demo_sid key_new.

(** ** Display data *)
Definition demo_connector (name : string) : Display.ConnectorData :=
  Display.mkConnData (lit name) 10 600 340 [] [Display.mkModeData 1920 1080 60] 0 1920 1080 60.
Definition demo_display : Display.DisplayData :=
  Display.mkDisplay (Display.mkGpuData 0x10de 0x2482 0 0 0 (lit "nvidia") [] (lit "RTX") 8589934592)
    [demo_connector "DP-1"; demo_connector "DP-2"] 1 2.
Definition demo_displayed : RegistryKey := apply_display_registry demo_display demo_sid demo_root.
Definition with_tree (k : RegistryKey) : Registry := mkReg k ∅ 1 1 demo_sid [] 0.

(** The display modes written for the hardware profile cannot be read.
    They are stored below the CurrentControlSet link itself, which
    [walk_mut_create] does not follow, while every open resolves that name to
    ControlSet001: the key exists with its mode table, but opening its own path
    finds nothing, whereas the source key opens. *)
Theorem hardware_profile_unreachable :
  let guid := gpu_guid (Display.gpu demo_display) in
  let p := profile_path guid (lit "DP-1") in
  is_Some (value_at demo_displayed (segs p) (lower (reg_name (lit "Modes")))) /\
  (open_key 0 (utf16le p) (with_tree demo_displayed)).2 = Ret None /\
  (open_key 0 (utf16le (source_path guid (lit "DP-1"))) (with_tree demo_displayed)).2 = Ret (Some 1).
Proof. cbv zeta. split; [vm_compute; by eexists|]. split; vm_compute; reflexivity. Qed.

(** The part of a saved system.reg that concerns the second display. *)
Definition saved_devmap : str :=
  format_key (lit "Hardware\\DeviceMap\\Video")
    (push_value (reg_name (lit "\Device\Video1")) (sz (lit "old")) key_new).

Definition saved_prefix (filename : string) : option str :=
  if decide (filename = "system.reg"%string) then Some saved_devmap else None.

(** With two displays the device map lists the second one twice.  The
    entry is pushed without checking the list, so after a restart that loaded
    the entry from the saved file, enumerating the key returns the same value
    under two indices. *)
Theorem device_map_entry_duplicated :
  match registry_new [] saved_prefix demo_sid with
  | Ret r =>
      let r1 := with_root (apply_display_registry demo_display demo_sid (root r)) r in
      let r2 := (open_key 0 (utf16le (lit "Registry\Machine\Hardware\DeviceMap\Video")) r1).1 in
      exists e, (enum_value 1 1 r2).2 = Ret (Some e) /\ (enum_value 1 2 r2).2 = Ret (Some e)
  | _ => False
  end.
Proof. vm_compute. eexists. split; reflexivity. Qed.

End RegInit.
