(* ===== verification/RegHandlers.v ===== *)
(** * Registry request handlers
      ([src/rust/src/triskelion/event_loop/registry_handlers.rs], lines 7-300)

    Each handler decodes a request, calls the registry and builds the reply.
    The request and reply structs are generated from protocol.def, which is not
    part of the sources: their layout is the parameter [Protocol].  The kernel
    events a notification signals are a trace of calls. *)

From stdpp Require Import base list gmap strings.
From S2P Require Import Prelude Dispatch Text Registry.
Local Open Scope Z_scope.

Module RegHandlers.
Import Replies Text Registry.

(** ** Generated structs *)
Inductive reg_reply : Type :=
| HeaderReply (h : ReplyHeader)
| CreateKeyReply (h : ReplyHeader) (hkey : Z)
| OpenKeyReply (h : ReplyHeader) (hkey : Z)
| GetKeyValueReply (h : ReplyHeader) (ty total : Z)
| EnumKeyValueReply (h : ReplyHeader) (ty total namelen : Z)
| EnumKeyReply (h : ReplyHeader) (subkeys max_subkey max_class values max_value max_data modif total namelen : Z).

(** A decoder is [None] on a buffer shorter than its struct.  A reply struct
    starts with its header and has at most 64 bytes. *)
Class Protocol : Type := {
  layout : reg_reply -> list Z;
  create_key_request : list Z -> option unit;
  open_key_request : list Z -> option Z;
  get_key_value_request : list Z -> option Z;
  set_key_value_request : list Z -> option (Z * Z * Z);
  enum_key_value_request : list Z -> option (Z * Z);
  enum_key_request : list Z -> option (Z * Z);
  set_notification_request : list Z -> option (Z * Z * Z * Z);
}.

(** ** State *)
Record Loop : Type := mkLoop {
  registry : Registry;
  ntsync_objects : gset (Z * Z);
  signals : list (bool * (Z * Z));
}.
Definition H (A : Type) : Type := Loop -> Loop * outcome A.
Definition hret {A} (a : A) : H A := fun l => (l, Ret a).
Definition hbind {A B} (m : H A) (f : A -> H B) : H B :=
  fun l => match m l with
           | (l', Ret a) => f a l'
           | (l', Panic) => (l', Panic)
           | (l', OutOfFuel) => (l', OutOfFuel)
           end.
Declare Scope handler_scope.
Notation "x <== m ;; f" := (hbind m (fun x => f)) (at level 100, m at next level, right associativity) : handler_scope.
Local Open Scope handler_scope.

Definition lift {A} (m : M A) : H A :=
  fun l => let '(r, o) := m (registry l) in (mkLoop r (ntsync_objects l) (signals l), o).
(** An ioctl on the event of a handle, when the handle has one. *)
Definition signal (set : bool) (key : Z * Z) : H unit :=
  fun l => (mkLoop (registry l) (ntsync_objects l)
              (if decide (key ∈ ntsync_objects l) then signals l ++ [(set, key)] else signals l), Ret ()).

Section handlers.
Context `{Lowercase, Protocol}.

Definition fixed (r : reg_reply) : Reply := reply_fixed (layout r).
Definition status_only (e : Z) : Reply := fixed (HeaderReply (mkReplyHeader e 0)).

(** [&buf[VARARG_OFF..]] *)
Definition vararg_slice (buf : list Z) : H (list Z) :=
  fun l => (l, if decide (length buf < VARARG_OFF)%nat then Panic else Ret (drop VARARG_OFF buf)).

(** rootdir, attributes, sd_len, name_len, then the two blobs. *)
Definition parse_objattr_name (vararg : list Z) : Z * list Z :=
  if decide (length vararg < 16)%nat then (0, [])
  else
    let rootdir := from_le (slice 0 4 vararg) in
    let sd_len := from_le (slice 8 4 vararg) in
    let name_len := from_le (slice 12 4 vararg) in
    let name_start := 16 + sd_len in
    let name_end := Z.min (name_start + name_len) (blen vararg) in
    if decide (name_start <= blen vararg) then (rootdir, get_bytes name_start (name_end - name_start) vararg)
    else (rootdir, []).

Fixpoint signal_all (keys : list (Z * Z)) : H unit :=
  match keys with
  | [] => hret ()
  | k :: ks => _ <== signal true k ;; signal_all ks
  end.
Definition fire_registry_notifications (changed_hkey change : Z) : H unit :=
  fired <== lift (collect_notifications changed_hkey change) ;; signal_all fired.

Definition handle_create_key (buf : list Z) : H Reply :=
  match create_key_request buf with
  | None => hret (status_only 0xC000000D)
  | Some _ =>
      vararg <== vararg_slice buf ;;
      let '(rootdir, name) := parse_objattr_name vararg in
      res <== lift (create_key rootdir name) ;;
      let '(hkey, created) := res in
      _ <== (if decide (created = true /\ rootdir <> 0) then fire_registry_notifications rootdir 0x01 else hret ()) ;;
      hret (fixed (CreateKeyReply (mkReplyHeader (if created then 0 else 0x40000000) 0) hkey))
  end.

Definition handle_open_key (buf : list Z) : H Reply :=
  match open_key_request buf with
  | None => hret (status_only 0xC000000D)
  | Some parent =>
      vararg <== vararg_slice buf ;;
      res <== lift (open_key parent vararg) ;;
      match res with
      | Some hkey => hret (fixed (OpenKeyReply (mkReplyHeader 0 0) hkey))
      | None => hret (status_only 0xC0000034)
      end
  end.

Definition handle_get_key_value (buf : list Z) : H Reply :=
  match get_key_value_request buf with
  | None => hret (status_only 0xC000000D)
  | Some hkey =>
      vararg <== vararg_slice buf ;;
      res <== lift (get_value hkey vararg) ;;
      match res with
      | Some (data_type, data) =>
          let send_len := Z.min (blen data) (max_reply_vararg buf) in
          hret (reply_vararg (layout (GetKeyValueReply (mkReplyHeader 0 (u32 send_len)) (i32 data_type) (u32 (blen data))))
                  (take (Z.to_nat send_len) data))
      | None => hret (fixed (GetKeyValueReply (mkReplyHeader 0xC0000034 0) (-1) 0))
      end
  end.

Definition handle_set_key_value (buf : list Z) : H Reply :=
  match set_key_value_request buf with
  | None => hret (status_only 0xC000000D)
  | Some (hkey, ty, namelen) =>
      vararg <== vararg_slice buf ;;
      _ <== (if decide (namelen <= blen vararg) then
               let n := Z.to_nat namelen in
               _ <== lift (set_value hkey (take n vararg) (u32 ty) (drop n vararg)) ;;
               fire_registry_notifications hkey 0x04
             else hret ()) ;;
      hret (status_only 0)
  end.

(** [index as usize] of an [i32]: sign extension to 64 bits. *)
Definition usize_of_i32 (i : Z) : nat := Z.to_nat (u64 i).

Definition handle_enum_key_value (buf : list Z) : H Reply :=
  match enum_key_value_request buf with
  | None => hret (status_only 0xC000000D)
  | Some (hkey, index) =>
      res <== lift (enum_value hkey (usize_of_i32 index)) ;;
      match res with
      | Some (name_bytes, data_type, data) =>
          let vararg := name_bytes ++ data in
          let send_len := Z.min (blen vararg) (max_reply_vararg buf) in
          hret (reply_vararg (layout (EnumKeyValueReply (mkReplyHeader 0 (u32 send_len)) (i32 data_type) (u32 (blen data))
                                        (u32 (blen name_bytes))))
                  (take (Z.to_nat send_len) vararg))
      | None => hret (status_only 0x8000001A)
      end
  end.

Definition handle_enum_key (buf : list Z) : H Reply :=
  match enum_key_request buf with
  | None => hret (status_only 0xC000000D)
  | Some (hkey, index) =>
      if decide (index = -1) then
        res <== lift (query_key hkey) ;;
        match res with
        | Some (subkeys, nvalues, max_value, max_data) =>
            modif <== lift (gets write_seq) ;;
            hret (fixed (EnumKeyReply (mkReplyHeader 0 0) subkeys 0 0 nvalues (i32 max_value) (i32 max_data) modif 0 0))
        | None => hret (status_only 0xC0000008)
        end
      else
        _ <== lift (query_key hkey) ;;
        res <== lift (enum_key hkey (usize_of_i32 index)) ;;
        match res with
        | Some (name_bytes, subkeys, nvalues) =>
            let send_len := Z.min (blen name_bytes) (max_reply_vararg buf) in
            hret (reply_vararg (layout (EnumKeyReply (mkReplyHeader 0 (u32 send_len)) subkeys 0 0 nvalues 0 0 0
                                          (u32 (blen name_bytes)) (u32 (blen name_bytes))))
                    (take (Z.to_nat send_len) name_bytes))
        | None => hret (status_only 0x8000001A)
        end
  end.

(** The key handle of the two delete requests, read at byte 12. *)
Definition hkey_at_12 (buf : list Z) : Z := if decide (16 <= length buf)%nat then from_le (slice 12 4 buf) else 0.

Definition handle_delete_key (buf : list Z) : H Reply :=
  let hkey := hkey_at_12 buf in
  deleted <== (if decide (hkey = 0) then hret false else lift (delete_key hkey)) ;;
  if deleted : bool then
    _ <== fire_registry_notifications hkey 0x01 ;; hret (status_only 0)
  else hret (status_only 0xC0000022).

Definition handle_delete_key_value (buf : list Z) : H Reply :=
  let hkey := hkey_at_12 buf in
  let name := if decide (VARARG_OFF < length buf)%nat then drop VARARG_OFF buf else [] in
  deleted <== (if decide (hkey = 0) then hret false else lift (delete_value hkey name)) ;;
  if deleted : bool then
    _ <== fire_registry_notifications hkey 0x04 ;; hret (status_only 0)
  else hret (status_only 0xC0000034).

(** [pid] is the process of the client. *)
Definition handle_set_registry_notification (pid : Z) (buf : list Z) : H Reply :=
  match set_notification_request buf with
  | None => hret (status_only 0xC000000D)
  | Some (hkey, event, sub, filter) =>
      _ <== signal false (pid, event) ;;
      ok <== lift (register_notify hkey pid event (bool_decide (sub <> 0)) filter) ;;
      hret (status_only (if ok : bool then 0x103 else 0xC0000008))
  end.

(** Loading, unloading, saving and flushing are answered with success. *)
Definition handle_no_op (buf : list Z) : H Reply := hret (status_only 0).

(** ** Every handler is safe *)
Definition loop_ok (l : Loop) : Prop := tree_ok (registry l) /\ Forall (fun s => s.2 ∈ ntsync_objects l) (signals l).

(** [m] returns, keeps the loop's invariant, touches no kernel object that is
    not registered, and what it returns satisfies [P]. *)
Definition hsafe {A} (P : A -> Prop) (m : H A) : Prop :=
  forall l, loop_ok l -> (m l).2 <> OutOfFuel /\ loop_ok (m l).1 /\ ntsync_objects (m l).1 = ntsync_objects l /\
    forall a, (m l).2 = Ret a -> P a.
Definition any {A} (a : A) : Prop := True.

Lemma hsafe_ret {A} (P : A -> Prop) a : P a -> hsafe P (hret a).
Proof. intros Ha l Hl. split_and!; [done|done|done|]. by intros b [= <-]. Qed.
Lemma hsafe_bind {A B} (P : A -> Prop) (Q : B -> Prop) m f :
  hsafe P m -> (forall a, P a -> hsafe Q (f a)) -> hsafe Q (hbind m f).
Proof.
  intros Hm Hf l Hl. unfold hbind. destruct (Hm l Hl) as (Hn & Hok & Hs & HP). destruct (m l) as [l' [a| |]]; cbn [fst snd] in *.
  - destruct (Hf a (HP a eq_refl) l' Hok) as (? & ? & ? & ?). split_and!; [done|done|congruence|done].
  - by split_and!.
  - done.
Qed.
Lemma hsafe_lift {A} (m : M A) : preserves m -> hsafe any (lift m).
Proof.
  intros Hm l [Ht Hs]. unfold lift. destruct (Hm (registry l) Ht) as [Hn Hok]. by destruct (m (registry l)) as [r o].
Qed.
Lemma hsafe_signal b k : hsafe any (signal b k).
Proof.
  intros l [Ht Hs]. unfold signal. split_and!; [done| |done|done]. split; [done|]. cbn [fst ntsync_objects signals].
  case_decide; [|done]. apply Forall_app. split; [done|by constructor].
Qed.
Lemma hsafe_vararg buf : (VARARG_OFF <= length buf)%nat -> hsafe (fun v => v = drop VARARG_OFF buf) (vararg_slice buf).
Proof. intros Hb l Hl. unfold vararg_slice. rewrite decide_False by lia. split_and!; [done|done|done|]. by intros a [= <-]. Qed.
Lemma hsafe_signal_all ks : hsafe any (signal_all ks).
Proof.
  induction ks as [|k ks IH]; cbn [signal_all]; [by apply hsafe_ret|]. by eapply hsafe_bind; [apply hsafe_signal|].
Qed.

(** A registry operation followed by nothing is the operation. *)
Lemma preserves_unit {A} (m : M A) : preserves (bind m (fun _ => ret ())) -> preserves m.
Proof.
  intros Hm r Hr. destruct (Hm r Hr) as [Hn Hok]. revert Hn Hok. unfold bind. by destruct (m r) as [r' [a| |]].
Qed.
Lemma hsafe_exec {A} (m : M A) o : exec o = bind m (fun _ => ret ()) -> op_bytes o -> hsafe any (lift m).
Proof. intros He Ho. apply hsafe_lift, preserves_unit. rewrite <- He. by apply exec_preserves. Qed.
Lemma hsafe_set_value hkey name ty d : Forall in_u8 name -> hsafe any (lift (set_value hkey name ty d)).
Proof. intros Hb. apply hsafe_lift. exact (exec_preserves (SetValue hkey name ty d) Hb). Qed.
Lemma hsafe_fire hkey change : hsafe any (fire_registry_notifications hkey change).
Proof.
  eapply hsafe_bind; [by apply (hsafe_exec _ (Collect hkey change))|]. intros ks _. apply hsafe_signal_all.
Qed.

Ltac hsafe :=
  repeat match goal with
    | |- hsafe _ (hret _) => apply hsafe_ret; auto with replies; try apply reply_fixed_wf; try apply reply_vararg_wf; try exact I
    | |- hsafe _ (hbind (vararg_slice _) _) => eapply hsafe_bind; [by apply hsafe_vararg|intros ? ?]
    | |- hsafe _ (hbind _ _) => apply (hsafe_bind any); [|intros ? _]
    | |- hsafe _ (fire_registry_notifications _ _) => apply hsafe_fire
    | |- hsafe _ (signal _ _) => apply hsafe_signal
    | |- hsafe _ (if _ then _ else _) => case_match
    | |- hsafe _ (match ?x with _ => _ end) => destruct x
    | |- hsafe _ (let '(_, _) := ?x in _) => destruct x
    end.

Inductive reg_request : Type :=
| ReqCreateKey | ReqOpenKey | ReqGetKeyValue | ReqSetKeyValue | ReqEnumKeyValue | ReqEnumKey | ReqDeleteKey
| ReqDeleteKeyValue | ReqSetRegistryNotification | ReqNoOp.

Definition handle (q : reg_request) (pid : Z) (buf : list Z) : H Reply :=
  match q with
  | ReqCreateKey => handle_create_key buf
  | ReqOpenKey => handle_open_key buf
  | ReqGetKeyValue => handle_get_key_value buf
  | ReqSetKeyValue => handle_set_key_value buf
  | ReqEnumKeyValue => handle_enum_key_value buf
  | ReqEnumKey => handle_enum_key buf
  | ReqDeleteKey => handle_delete_key buf
  | ReqDeleteKeyValue => handle_delete_key_value buf
  | ReqSetRegistryNotification => handle_set_registry_notification pid buf
  | ReqNoOp => handle_no_op buf
  end.

Lemma handle_safe q pid buf : (VARARG_OFF <= length buf)%nat -> Forall in_u8 buf -> hsafe reply_wf (handle q pid buf).
Proof.
  intros Hl Hb. destruct q; cbn [handle].
  - unfold handle_create_key. hsafe. by apply (hsafe_exec _ (CreateKey z l)).
  - unfold handle_open_key. hsafe. by apply (hsafe_exec _ (OpenKey z a)).
  - unfold handle_get_key_value. hsafe. by apply (hsafe_exec _ (GetValue z a)).
  - unfold handle_set_key_value. hsafe. apply hsafe_set_value, Forall_take. cbv beta in *. subst a. by apply Forall_drop.
  - unfold handle_enum_key_value. hsafe. by apply (hsafe_exec _ (EnumValue z (usize_of_i32 z0))).
  - unfold handle_enum_key. hsafe; [by apply (hsafe_exec _ (QueryKey z))| |by apply (hsafe_exec _ (QueryKey z))|].
    + apply hsafe_lift, preserves_gets.
    + by apply (hsafe_exec _ (EnumKey z (usize_of_i32 z0))).
  - unfold handle_delete_key. hsafe. by apply (hsafe_exec _ (DeleteKey (hkey_at_12 buf))).
  - unfold handle_delete_key_value. hsafe.
    by eapply (hsafe_exec _ (DeleteValue (hkey_at_12 buf) _)).
  - unfold handle_set_registry_notification. hsafe.
    by apply (hsafe_exec _ (RegisterNotify z1 pid z2 (bool_decide (z0 <> 0)) z)).
  - unfold handle_no_op. hsafe.
Qed.

(** Requests one after the other; a panic is caught by the dispatcher and the
    next request runs on the state it left. *)
Fixpoint run_requests (qs : list (reg_request * Z * list Z)) (l : Loop) : Loop * list (outcome Reply) :=
  match qs with
  | [] => (l, [])
  | (q, pid, buf) :: qs' =>
      let '(l1, o) := handle q pid buf l in
      let '(l2, os) := run_requests qs' l1 in
      (l2, o :: os)
  end.

(** The registry handlers are safe on everything the I/O thread delivers.
    For any sequence of registry requests of at least 64 bytes, whatever they
    contain, every handler terminates, with a reply of at least 64 bytes unless
    the lookup it calls panics; the tree stays well formed; and events are set
    or reset only for handles that have a kernel event. *)
Theorem registry_handlers_safe qs l :
  loop_ok l -> Forall (fun q => (VARARG_OFF <= length q.2)%nat /\ Forall in_u8 q.2) qs ->
  loop_ok (run_requests qs l).1 /\ ntsync_objects (run_requests qs l).1 = ntsync_objects l /\
  length (run_requests qs l).2 = length qs /\
  Forall (fun o => o = Panic \/ exists rep, o = Ret rep /\ reply_wf rep) (run_requests qs l).2.
Proof.
  intros Hl Hq. revert l Hl; induction Hq as [|[[q pid] buf] qs [Hlen Hb] _ IH]; intros l Hl; cbn [run_requests].
  { by split_and!. }
  destruct (handle_safe q pid buf Hlen Hb l Hl) as (Hn & Hok & Hs & Hrep).
  destruct (handle q pid buf l) as [l1 o]. cbn [fst snd] in *. destruct (IH l1 Hok) as (IH1 & IH2 & IH3 & IH4).
  destruct (run_requests qs l1) as [l2 os]. cbn [fst snd length] in *. split_and!; [done|congruence|congruence|].
  constructor; [|done]. destruct o as [rep| |]; [right; eauto|auto|done].
Qed.

(** ** What a client sees *)

(** The state after [signal_all]: one call per registered handle, in order. *)
Lemma signal_all_run ks l :
  signal_all ks l =
  (mkLoop (registry l) (ntsync_objects l)
     (signals l ++ map (pair true) (filter (fun k => k ∈ ntsync_objects l) ks)), Ret ()).
Proof.
  revert l; induction ks as [|k ks IH]; intros l; cbn [signal_all].
  - unfold hret. cbn. rewrite app_nil_r. by destruct l.
  - unfold hbind, signal. rewrite IH. cbn [registry ntsync_objects signals]. rewrite filter_cons.
    case_decide; [|done]. cbn [map]. by rewrite <- app_assoc.
Qed.

Definition waiters (p : list RegName) (change : Z) (l : list RegNotify) : list (Z * Z) :=
  map (fun n => (n_pid n, event_handle n)) (filter (fun n => notify_matches p change n = true) l).

Lemma fire_run hkey change p l : open_keys (registry l) !! hkey = Some p ->
  fire_registry_notifications hkey change l =
  (mkLoop (with_notify (filter (fun n => notify_matches p change n = false) (notify_list (registry l))) (registry l))
     (ntsync_objects l)
     (signals l ++ map (pair true) (filter (fun k => k ∈ ntsync_objects l) (waiters p change (notify_list (registry l))))), Ret ()).
Proof.
  intros Hp. unfold fire_registry_notifications, hbind, lift, collect_notifications, bind, gets, modify, ret.
  rewrite Hp. cbv beta iota zeta. rewrite signal_all_run. done.
Qed.

(** The fixed part and the variable part of a reply with data. *)
Lemma get_reply_data hkey name buf l ty d :
  get_key_value_request buf = Some hkey -> (VARARG_OFF <= length buf)%nat -> drop VARARG_OFF buf = name ->
  (get_value hkey name (registry l)).2 = Ret (Some (ty, d)) ->
  let n := Z.min (blen d) (max_reply_vararg buf) in
  (handle_get_key_value buf l).2 =
  Ret (reply_vararg (layout (GetKeyValueReply (mkReplyHeader 0 (u32 n)) (i32 ty) (u32 (blen d)))) (take (Z.to_nat n) d)).
Proof.
  intros Hr Hlen Hname Hg. cbv zeta. unfold handle_get_key_value. rewrite Hr. unfold hbind, vararg_slice.
  rewrite decide_False by lia. rewrite Hname. unfold lift.
  destruct (get_value hkey name (registry l)) as [r o]. cbn [snd] in Hg. subst o. done.
Qed.

(** The state a set request leaves. *)
Lemma set_key_value_run hkey ty name d buf l p :
  set_key_value_request buf = Some (hkey, ty, blen name) -> (VARARG_OFF <= length buf)%nat ->
  drop VARARG_OFF buf = name ++ d -> open_keys (registry l) !! hkey = Some p ->
  handle_set_key_value buf l =
  (mkLoop (with_notify (filter (fun n => notify_matches p 0x04 n = false) (notify_list (registry l)))
             (set_value hkey name (u32 ty) d (registry l)).1) (ntsync_objects l)
     (signals l ++ map (pair true) (filter (fun k => k ∈ ntsync_objects l) (waiters p 0x04 (notify_list (registry l))))),
   Ret (status_only 0)).
Proof.
  intros Hr Hlen Hv Hp. unfold handle_set_key_value. rewrite Hr. unfold hbind at 1, vararg_slice.
  rewrite decide_False by lia. rewrite Hv. rewrite decide_True by (unfold blen; rewrite length_app; lia).
  unfold blen. rewrite Nat2Z.id, take_app_length, drop_app_length. unfold hbind at 1 2, lift.
  rewrite (set_value_open hkey name (u32 ty) d (registry l) p Hp). cbn [fst].
  rewrite (fire_run hkey 0x04 p) by done. done.
Qed.

Lemma fire_closed hkey change l : open_keys (registry l) !! hkey = None -> fire_registry_notifications hkey change l = (l, Ret ()).
Proof.
  intros Hp. unfold fire_registry_notifications, hbind, lift, collect_notifications, bind, gets, ret. rewrite Hp. by destruct l.
Qed.

(** On a handle that is not open a set request reports success, and the tree is as
    it was. *)
Lemma set_unopened_ignored hkey ty name d buf l :
  set_key_value_request buf = Some (hkey, ty, blen name) -> (VARARG_OFF <= length buf)%nat ->
  drop VARARG_OFF buf = name ++ d -> open_keys (registry l) !! hkey = None ->
  handle_set_key_value buf l = (mkLoop (bump_seq (registry l)) (ntsync_objects l) (signals l), Ret (status_only 0)).
Proof.
  intros Hr Hlen Hv Hp. unfold handle_set_key_value. rewrite Hr. unfold hbind at 1, vararg_slice.
  rewrite decide_False by lia. rewrite Hv. rewrite decide_True by (unfold blen; rewrite length_app; lia).
  assert (forall n t d', set_value hkey n t d' (registry l) = (bump_seq (registry l), Ret ())) as Hs.
  { intros n t d'. unfold set_value, bind, gets, modify, ret. cbn. by rewrite Hp. }
  unfold hbind at 1 2, lift. rewrite Hs. by rewrite fire_closed.
Qed.

(** C26: a value set by one request is what the next request reads.  A set
    request on an open key succeeds; a get request for the same name in any
    case, from any client, then returns the type and the data cut to the length
    the client accepts, with the full length in the reply, provided the key is not
    a link, whose values are read elsewhere; and every waiter on that key, or on the
    subtree around it, that asked for value changes and has a kernel event is
    signalled exactly once, in the order of registration, and is no longer
    registered.  (A set request on a handle that is not open succeeds too and stores
    nothing: [set_unopened_ignored].) *)
Theorem set_then_get hkey ty name d sbuf l p l' :
  set_key_value_request sbuf = Some (hkey, ty, blen name) -> (VARARG_OFF <= length sbuf)%nat ->
  drop VARARG_OFF sbuf = name ++ d -> open_keys (registry l) !! hkey = Some p ->
  l' = (handle_set_key_value sbuf l).1 ->
  (handle_set_key_value sbuf l).2 = Ret (status_only 0) /\
  signals l' = signals l ++ map (pair true) (filter (fun k => k ∈ ntsync_objects l) (waiters p 0x04 (notify_list (registry l)))) /\
  waiters p 0x04 (notify_list (registry l')) = [] /\
  (forall gbuf n, get_key_value_request gbuf = Some hkey -> (VARARG_OFF <= length gbuf)%nat ->
     lower (from_utf16le (drop VARARG_OFF gbuf)) = lower (from_utf16le name) ->
     node_at (root (registry l')) p = Some n -> link_target n = None ->
     let sent := Z.min (blen d) (max_reply_vararg gbuf) in
     (handle_get_key_value gbuf l').2 =
     Ret (reply_vararg (layout (GetKeyValueReply (mkReplyHeader 0 (u32 sent)) (i32 (u32 ty)) (u32 (blen d))))
            (take (Z.to_nat sent) d))).
Proof.
  intros Hr Hlen Hv Hp ->. rewrite (set_key_value_run hkey ty name d sbuf l p Hr Hlen Hv Hp). cbn [fst snd].
  set (l1 := mkLoop _ _ _). split_and!; [done|done| |].
  - unfold waiters. cbn [registry l1 notify_list with_notify]. by rewrite filter_bool_twice.
  - intros gbuf n Hg Hglen Hlow Hn Hlink. apply (get_reply_data hkey (drop VARARG_OFF gbuf)); [done|done|done|].
    apply (read_back hkey _ (registry l1) p (root (registry l)) (from_utf16le name) (mkValue (u32 ty) d) n); try done;
      cbn [registry l1]; by rewrite (set_value_open hkey name (u32 ty) d (registry l) p Hp).
Qed.

End handlers.

(** ** A concrete protocol and loop *)
Definition demo_layout (r : reg_reply) : list Z :=
  match r with
  | HeaderReply h => header_bytes h
  | CreateKeyReply h k | OpenKeyReply h k => header_bytes h ++ le_bytes 4 k ++ le_bytes 4 0
  | GetKeyValueReply h ty total => header_bytes h ++ le_bytes 4 ty ++ le_bytes 4 total
  | EnumKeyValueReply h ty total n => header_bytes h ++ le_bytes 4 ty ++ le_bytes 4 total ++ le_bytes 4 n ++ le_bytes 4 0
  | EnumKeyReply h a b c d e f g t n =>
      header_bytes h ++ concat (map (le_bytes 4) [a; b; c; d; e; f]) ++ le_bytes 8 g ++ le_bytes 4 t ++ le_bytes 4 n
  end.
Definition field (n : nat) (buf : list Z) : Z := from_le (slice n 4 buf).
Definition sized {A} (n : nat) (f : list Z -> A) (buf : list Z) : option A :=
  if decide (n <= length buf)%nat then Some (f buf) else None.
Definition demo_protocol : Protocol := {|
  layout := demo_layout;
  create_key_request := sized 24 (fun _ => ());
  open_key_request := sized 24 (field 12);
  get_key_value_request := sized 16 (field 12);
  set_key_value_request := sized 24 (fun b => (field 12 b, i32 (field 16 b), field 20 b));
  enum_key_value_request := sized 24 (fun b => (field 12 b, i32 (field 16 b)));
  enum_key_request := sized 24 (fun b => (field 12 b, i32 (field 16 b)));
  set_notification_request := sized 32 (fun b => (field 12 b, field 16 b, i32 (field 20 b), field 24 b));
|}.

Definition demo_buf (fields vararg : list Z) : list Z :=
  let fixed := le_bytes 4 0 ++ le_bytes 4 (blen vararg) ++ le_bytes 4 64 ++ concat (map (le_bytes 4) fields) in
  fixed ++ replicate (64 - length fixed) 0 ++ vararg.
Definition demo_name : list Z := utf16le (lit "Version").
Definition demo_set : list Z := demo_buf [1; 3; blen demo_name] (demo_name ++ [7; 8; 9]).
Definition demo_get : list Z := demo_buf [1] (utf16le (lit "VERSION")).
Definition demo_loop : Loop :=
  mkLoop (register_notify 1 32 100 true 4 demo_registry).1 {[(32, 100)]} [].

Lemma demo_loop_ok : loop_ok demo_loop.
Proof.
  split; [|by constructor].
  exact (proj2 (preserves_unit _ (exec_preserves (RegisterNotify 1 32 100 true 4) I) demo_registry demo_registry_ok)).
Qed.

Lemma registry_handlers_safe_witness :
  loop_ok (@run_requests _ demo_protocol [(ReqSetKeyValue, 32, demo_set); (ReqGetKeyValue, 36, demo_get)] demo_loop).1.
Proof.
  apply (@registry_handlers_safe _ demo_protocol); [exact demo_loop_ok|].
  repeat constructor; apply (bool_decide_unpack _); vm_compute; exact I.
Defined.

Lemma set_then_get_witness :
  let l' := (@handle_set_key_value _ demo_protocol demo_set demo_loop).1 in
  signals l' = [(true, (32, 100))] /\
  (@handle_get_key_value _ demo_protocol demo_get l').2 =
    Ret (reply_vararg (demo_layout (GetKeyValueReply (mkReplyHeader 0 3) 3 3)) [7; 8; 9]).
Proof.
  cbv zeta. destruct (@set_then_get _ demo_protocol 1 3 demo_name [7; 8; 9] demo_set demo_loop demo_path
    (@handle_set_key_value _ demo_protocol demo_set demo_loop).1) as (_ & Hs & _ & Hg);
    [vm_compute; reflexivity|apply (bool_decide_unpack _); vm_compute; exact I|vm_compute; reflexivity|vm_compute; reflexivity
    |reflexivity|].
  split; [rewrite Hs; vm_compute; reflexivity|].
  rewrite (Hg demo_get (default key_new (node_at (root (registry (@handle_set_key_value _ demo_protocol demo_set demo_loop).1)) demo_path)));
    [vm_compute; reflexivity|vm_compute; reflexivity|apply (bool_decide_unpack _); vm_compute; exact I|vm_compute; reflexivity
    |vm_compute; reflexivity|vm_compute; reflexivity].
Defined.

End RegHandlers.
