(* ===== verification/Csp.v ===== *)
(** * The I/O thread ([src/rust/src/triskelion/csp_loop.rs])

    Reassembly of requests from the client pipes, collection of the
    descriptors that travel on the message sockets, and the tables that tie
    request pipes to sockets.  System calls are inputs (what [read] and
    [recvmsg] return) or a trace of outputs (the descriptors closed). *)

From stdpp Require Import base list gmap strings.
From S2P Require Import Prelude Dispatch.
Local Open Scope Z_scope.

Module Csp.
Import Replies.

(** ** Requests *)
Record RequestHeader : Type := mkRequestHeader { req : Z; request_size : Z; max_reply : Z }.
Definition REQUEST_HEADER_SIZE : nat := 12.

Definition read_header (buf : list Z) : RequestHeader :=
  mkRequestHeader (i32 (from_le (slice 0 4 buf))) (from_le (slice 4 4 buf)) (from_le (slice 8 4 buf)).

(** A descriptor received: thread, number announced by the client, descriptor. *)
Record Inflight : Type := mkInflight { if_tid : Z; if_num : Z; if_fd : Z }.

Record RequestMsg : Type := mkMsg {
  client_fd : Z; header : RequestHeader; msg_buf : list Z; inflight_fds : list Inflight; new_msg_fd : Z }.

(** ** State of the I/O thread *)
Record IoClient : Type := mkIoClient { msg_fd : Z; recv_buf : list Z }.
Record Io : Type := mkIo {
  io_clients : gmap Z IoClient;
  msg_fd_clients : gmap Z (list Z);
  pending_fds : gmap Z (list Inflight);
  client_reply_fds : gmap Z Z;
  closed : list Z;
}.
Definition io_new : Io := mkIo ∅ ∅ ∅ ∅ [].

Definition with_pending (p : gmap Z (list Inflight)) (st : Io) : Io :=
  mkIo (io_clients st) (msg_fd_clients st) p (client_reply_fds st) (closed st).
Definition with_recv_buf (fd : Z) (c : IoClient) (b : list Z) (st : Io) : Io :=
  mkIo (<[fd := mkIoClient (msg_fd c) b]> (io_clients st)) (msg_fd_clients st) (pending_fds st) (client_reply_fds st) (closed st).

(** One message of the socket: its bytes and the descriptors attached. *)
Record Datagram : Type := mkDatagram { dg_data : list Z; dg_fds : list Z }.

(** The descriptors of one message.  Fewer than eight bytes of data: the
    received descriptor stands for the number. *)
Definition datagram_fds (d : Datagram) : list Inflight :=
  map (fun fd => if decide (8 <= length (dg_data d))%nat
                 then mkInflight (from_le (slice 0 4 (dg_data d))) (i32 (from_le (slice 4 4 (dg_data d)))) fd
                 else mkInflight 0 fd fd) (dg_fds d).

(** [entry(msg_fd).or_default().push_back(..)] for every descriptor read. *)
Definition drain_msg_fd (m : Z) (arrived : list Datagram) (p : gmap Z (list Inflight)) : gmap Z (list Inflight) :=
  match concat (map datagram_fds arrived) with
  | [] => p
  | l => <[m := default [] (p !! m) ++ l]> p
  end.

(** The queue of a socket is handed to the request, and is empty afterwards. *)
Definition take_pending (m : Z) (p : gmap Z (list Inflight)) : list Inflight * gmap Z (list Inflight) :=
  match p !! m with
  | Some q => (q, <[m := []]> p)
  | None => ([], p)
  end.

(** ** [handle_client_read] *)
Definition next_request (buf : list Z) : option (list Z * list Z) :=
  if decide (length buf < REQUEST_HEADER_SIZE)%nat then None
  else let total_size := (64 + Z.to_nat (request_size (read_header buf)))%nat in
       if decide (length buf < total_size)%nat then None
       else Some (take total_size buf, drop total_size buf).

(** The loop over complete requests; [env] is what each [recvmsg] loop returns.
    A round removes at least 64 bytes, so the length of the buffer is enough
    fuel. *)
Fixpoint process_complete (fuel : nat) (fd m : Z) (buf : list Z) (p : gmap Z (list Inflight)) (env : list (list Datagram))
    : list RequestMsg * list Z * gmap Z (list Inflight) * list (list Datagram) :=
  match fuel with
  | O => ([], buf, p, env)
  | S f =>
      match next_request buf with
      | None => ([], buf, p, env)
      | Some (request, rest) =>
          let '(inflight, p') := take_pending m (drain_msg_fd m (default [] (head env)) p) in
          let '(msgs, buf', p'', env') := process_complete f fd m rest p' (tail env) in
          (mkMsg fd (read_header request) request inflight (-1) :: msgs, buf', p'', env')
      end
  end.

Definition disconnect_io_client (fd : Z) (st : Io) : Io :=
  let st' :=
    match io_clients st !! fd with
    | None => st
    | Some c =>
        let ioc := delete fd (io_clients st) in
        match msg_fd_clients st !! msg_fd c with
        | None => mkIo ioc (msg_fd_clients st) (pending_fds st) (client_reply_fds st) (closed st)
        | Some l =>
            match filter (fun f => f <> fd) l with
            | [] => mkIo ioc (delete (msg_fd c) (msg_fd_clients st)) (delete (msg_fd c) (pending_fds st))
                      (client_reply_fds st) (closed st ++ [msg_fd c])
            | l' => mkIo ioc (<[msg_fd c := l']> (msg_fd_clients st)) (pending_fds st) (client_reply_fds st) (closed st)
            end
        end
    end in
  mkIo (io_clients st') (msg_fd_clients st') (pending_fds st') (delete fd (client_reply_fds st')) (closed st' ++ [fd]).

(** [data] is what [read] returned; empty at end of file or on an error. *)
Definition handle_client_read (fd : Z) (data : list Z) (env : list (list Datagram)) (st : Io)
    : list RequestMsg * Io * list (list Datagram) :=
  match data with
  | [] => ([mkMsg fd (mkRequestHeader (-2) 0 0) [] [] (-1)], disconnect_io_client fd st, env)
  | _ =>
      match io_clients st !! fd with
      | None => ([], st, env)
      | Some c =>
          let buf := recv_buf c ++ data in
          let '(msgs, buf', p', env') := process_complete (length buf) fd (msg_fd c) buf (pending_fds st) env in
          (msgs, with_pending p' (with_recv_buf fd c buf' st), env')
      end
  end.

(** ** Registration *)
(** The end of a successful [handle_accept]. *)
Definition accept_client (request_fd m : Z) (st : Io) : list RequestMsg * Io :=
  ([mkMsg request_fd (mkRequestHeader (-1) 0 0) [] [] m],
   mkIo (<[request_fd := mkIoClient m []]> (io_clients st))
     (<[m := default [] (msg_fd_clients st !! m) ++ [request_fd]]> (msg_fd_clients st))
     (pending_fds st) (client_reply_fds st) (closed st)).

(** [Effect::RegisterClient] *)
Definition register_client (request_fd m : Z) (st : Io) : Io :=
  match io_clients st !! request_fd with
  | Some _ => st
  | None => (accept_client request_fd m st).2
  end.

(** The reply descriptor is remembered; the bytes go to it, or to the request
    descriptor. *)
Definition reply_target (fd : Z) (reply_fd : option Z) (st : Io) : Io * Z :=
  let m := match reply_fd with Some rfd => <[fd := rfd]> (client_reply_fds st) | None => client_reply_fds st end in
  (mkIo (io_clients st) (msg_fd_clients st) (pending_fds st) m (closed st), default fd (m !! fd)).

(** ** What the authority makes of a message ([process_request]) *)
Inductive Route : Type := RRegister | RDisconnect | RDispatch.
Definition route (m : RequestMsg) : Route :=
  if decide (req (header m) = -1) then RRegister
  else if decide (req (header m) = -2) then RDisconnect
  else RDispatch.

(** ** Reassembly *)
Definition request_wf (r : list Z) : Prop := length r = (64 + Z.to_nat (request_size (read_header r)))%nat.
Definition incomplete (buf : list Z) : Prop := next_request buf = None.
#[export] Instance request_wf_dec r : Decision (request_wf r).
Proof. unfold request_wf. apply _. Defined.

Lemma read_header_take n buf : (12 <= n)%nat -> read_header (take n buf) = read_header buf.
Proof.
  intros Hn. unfold read_header, slice.
  by rewrite !take_drop_commute, !take_take, !Nat.min_l by lia.
Qed.
Lemma read_header_app r rest : (12 <= length r)%nat -> read_header (r ++ rest) = read_header r.
Proof. intros Hr. rewrite <- (read_header_take (length r)) by done. by rewrite take_app_length. Qed.

Lemma request_wf_length r : request_wf r -> (64 <= length r)%nat.
Proof. unfold request_wf. lia. Qed.

Lemma next_request_some buf r rest : next_request buf = Some (r, rest) -> buf = r ++ rest /\ request_wf r.
Proof.
  unfold next_request. case_decide; [done|]. remember (64 + Z.to_nat (request_size (read_header buf)))%nat as n eqn:Hn.
  case_decide as Hl; [done|]. intros [= <- <-].
  split; [by rewrite take_drop|]. unfold request_wf. rewrite read_header_take, length_take by lia. lia.
Qed.
Lemma next_request_wf r rest : request_wf r -> next_request (r ++ rest) = Some (r, rest).
Proof.
  intros Hr. assert (Hl := request_wf_length r Hr). unfold next_request, REQUEST_HEADER_SIZE.
  rewrite read_header_app, <- Hr, length_app by lia. rewrite !decide_False by lia.
  by rewrite take_app_length, drop_app_length.
Qed.

(** Every byte string splits in exactly one way into requests and a rest that
    is not complete. *)
Lemma split_requests buf : exists reqs rest, buf = concat reqs ++ rest /\ Forall request_wf reqs /\ incomplete rest.
Proof.
  remember (length buf) as n eqn:Hn. revert buf Hn. induction (lt_wf n) as [n _ IH]. intros buf ->.
  destruct (next_request buf) as [[r rest]|] eqn:Hr; [|by exists [], buf].
  apply next_request_some in Hr as [-> Hr]. assert (Hl := request_wf_length r Hr).
  destruct (IH (length rest)) with (buf := rest) as (reqs & tl & -> & Hw & Ht); [rewrite length_app; lia|done|].
  exists (r :: reqs), tl. cbn [concat]. rewrite <- app_assoc. auto.
Qed.
Lemma split_unique reqs rest reqs' rest' :
  concat reqs ++ rest = concat reqs' ++ rest' -> Forall request_wf reqs -> Forall request_wf reqs' ->
  incomplete rest -> incomplete rest' -> reqs = reqs' /\ rest = rest'.
Proof.
  intros He Hw. revert reqs' He. induction Hw as [|r reqs Hr _ IH]; intros [|r' reqs'] He Hw' Hi Hi'; cbn [concat app] in He.
  - done.
  - inversion Hw' as [|? ? Hr' ?]; subst. rewrite <- app_assoc in Hi. unfold incomplete in Hi. by rewrite next_request_wf in Hi.
  - subst. rewrite <- app_assoc in Hi'. unfold incomplete in Hi'. by rewrite next_request_wf in Hi'.
  - inversion Hw' as [|? ? Hr' Hw'']; subst. rewrite <- !app_assoc in He.
    assert (Some (r, concat reqs ++ rest) = Some (r', concat reqs' ++ rest')) as [= <- He'].
    { rewrite <- (next_request_wf r), <- (next_request_wf r') by done. by rewrite He. }
    destruct (IH reqs' He' Hw'' Hi Hi') as [-> ->]. done.
Qed.

Definition pending (m : Z) (p : gmap Z (list Inflight)) : list Inflight := default [] (p !! m).
Definition arrivals (env : list (list Datagram)) : list Inflight := concat (map (fun ds => concat (map datagram_fds ds)) env).

Lemma pending_drain m ds p : pending m (drain_msg_fd m ds p) = pending m p ++ concat (map datagram_fds ds).
Proof.
  unfold pending, drain_msg_fd. destruct (concat (map datagram_fds ds)) as [|x l]; [by rewrite app_nil_r|].
  by rewrite lookup_insert_eq.
Qed.
Lemma drain_other m m' ds p : m' <> m -> drain_msg_fd m ds p !! m' = p !! m'.
Proof. intros Hm. unfold drain_msg_fd. destruct (concat _); [done|]. by rewrite lookup_insert_ne. Qed.
Lemma take_pending_other m m' p : m' <> m -> (take_pending m p).2 !! m' = p !! m'.
Proof. intros Hm. unfold take_pending. destruct (p !! m); [|done]. cbn. by rewrite lookup_insert_ne. Qed.
Lemma take_pending_spec m p q p' : take_pending m p = (q, p') ->
  q = pending m p /\ pending m p' = [] /\ forall m', m' <> m -> pending m' p' = pending m' p.
Proof.
  unfold take_pending, pending. destruct (p !! m) as [q0|] eqn:Hm; intros [= <- <-].
  - rewrite lookup_insert_eq. split_and!; [done|done|]. intros m' Hne. by rewrite lookup_insert_ne.
  - by rewrite Hm.
Qed.

(** What one pass of the loop delivers. *)
Record delivered (fd m : Z) (reqs : list (list Z)) (env : list (list Datagram)) (p p' : gmap Z (list Inflight))
    (msgs : list RequestMsg) : Prop := {
  d_bufs : map msg_buf msgs = reqs;
  d_headers : map header msgs = map read_header reqs;
  d_client : Forall (fun msg => client_fd msg = fd) msgs;
  d_fds : concat (map inflight_fds msgs) ++ pending m p' = pending m p ++ arrivals (take (length reqs) env);
  d_others : forall m', m' <> m -> pending m' p' = pending m' p;
}.

Lemma delivered_nil fd m env p : delivered fd m [] env p p [].
Proof. split; cbn; auto. by rewrite app_nil_r. Qed.

Lemma delivered_app fd m reqs1 reqs2 env p1 p2 p3 msgs1 msgs2 :
  delivered fd m reqs1 env p1 p2 msgs1 -> delivered fd m reqs2 (drop (length reqs1) env) p2 p3 msgs2 ->
  delivered fd m (reqs1 ++ reqs2) env p1 p3 (msgs1 ++ msgs2).
Proof.
  intros [H1 H2 H3 H4 H5] [K1 K2 K3 K4 K5]. split.
  - by rewrite map_app, H1, K1.
  - by rewrite !map_app, H2, K2.
  - by apply Forall_app.
  - rewrite map_app, concat_app, <- app_assoc, K4, app_assoc, H4, <- app_assoc. f_equal.
    unfold arrivals. rewrite <- concat_app, <- map_app, length_app. by rewrite <- take_take_drop.
  - intros m' Hm. by rewrite K5, H5.
Qed.

Lemma process_complete_spec fuel fd m reqs rest p env :
  (length (concat reqs ++ rest) <= fuel)%nat -> Forall request_wf reqs -> incomplete rest ->
  exists msgs p', process_complete fuel fd m (concat reqs ++ rest) p env = (msgs, rest, p', drop (length reqs) env) /\
    delivered fd m reqs env p p' msgs.
Proof.
  revert fuel p env. induction reqs as [|r reqs IH]; intros fuel p env Hf Hw Hi.
  - exists [], p. split; [|apply delivered_nil]. cbn [concat app length drop]. destruct fuel; cbn [process_complete]; [done|].
    unfold incomplete in Hi. by rewrite Hi.
  - inversion Hw as [|? ? Hr Hw']; subst. cbn [concat] in *. rewrite <- app_assoc in *.
    assert (Hl := request_wf_length r Hr). rewrite length_app in Hf. destruct fuel as [|fuel]; [lia|].
    cbn [process_complete]. rewrite next_request_wf by done.
    destruct (take_pending m (drain_msg_fd m (default [] (head env)) p)) as [q p1] eqn:Hq.
    apply take_pending_spec in Hq as (-> & Hp1 & Ho1).
    destruct (IH fuel p1 (tail env)) as (msgs & p' & -> & Hd); [lia|done|done|].
    assert (drop (length reqs) (tail env) = drop (length (r :: reqs)) env) as He by (destruct env; [apply drop_nil|done]).
    rewrite He. eexists _, p'. split; [done|].
    apply (delivered_app fd m [r] reqs env p p1 p' [_] msgs); [|by destruct env].
    split; cbn [map concat header msg_buf inflight_fds client_fd]; auto.
    + rewrite Hp1, !app_nil_r, pending_drain. f_equal. destruct env as [|ds env]; [done|]. cbn. by rewrite app_nil_r.
    + intros m' Hm. rewrite Ho1 by done. unfold pending. by rewrite drain_other.
Qed.

(** Successive reads of one client; every [read] returned some bytes. *)
Fixpoint run_reads (fd : Z) (chunks : list (list Z)) (env : list (list Datagram)) (st : Io) : list RequestMsg * Io :=
  match chunks with
  | [] => ([], st)
  | data :: chunks' =>
      let '(msgs, st1, env1) := handle_client_read fd data env st in
      let '(msgs', st2) := run_reads fd chunks' env1 st1 in
      (msgs ++ msgs', st2)
  end.

Lemma run_reads_spec fd m chunks : forall env b st,
  io_clients st !! fd = Some (mkIoClient m b) -> incomplete b -> Forall (fun d => d <> []) chunks ->
  exists reqs rest msgs st', b ++ concat chunks = concat reqs ++ rest /\ Forall request_wf reqs /\ incomplete rest /\
    run_reads fd chunks env st = (msgs, st') /\ io_clients st' !! fd = Some (mkIoClient m rest) /\
    delivered fd m reqs env (pending_fds st) (pending_fds st') msgs.
Proof.
  induction chunks as [|data chunks IH]; intros env b st Hc Hb Hne.
  - exists [], b, [], st. cbn [concat app]. rewrite app_nil_r. split_and!; auto using delivered_nil.
  - inversion Hne as [|? ? Hd Hne']; subst. cbn [run_reads].
    assert (handle_client_read fd data env st =
      let '(msgs, buf', p', env') := process_complete (length (b ++ data)) fd m (b ++ data) (pending_fds st) env in
      (msgs, with_pending p' (with_recv_buf fd (mkIoClient m b) buf' st), env')) as ->.
    { unfold handle_client_read. rewrite Hc. by destruct data. }
    destruct (split_requests (b ++ data)) as (reqs1 & rest1 & He1 & Hw1 & Hi1).
    rewrite He1. destruct (process_complete_spec (length (concat reqs1 ++ rest1)) fd m reqs1 rest1 (pending_fds st) env)
      as (msgs1 & p1 & -> & Hd1); [done|done|done|].
    destruct (IH (drop (length reqs1) env) rest1 (with_pending p1 (with_recv_buf fd (mkIoClient m b) rest1 st)))
      as (reqs2 & rest2 & msgs2 & st2 & He2 & Hw2 & Hi2 & -> & Hc2 & Hd2); [apply lookup_insert_eq|done|done|].
    exists (reqs1 ++ reqs2), rest2, (msgs1 ++ msgs2), st2. split_and!; auto using Forall_app_2.
    + cbn [concat]. rewrite app_assoc, He1, <- app_assoc, He2, concat_app. by rewrite app_assoc.
    + by eapply delivered_app.
Qed.

(** C6: requests are reassembled independently of how the pipe delivers them.
    If the bytes a client writes are the concatenation of well-formed requests
    and an incomplete rest, then however [read] cuts them, the I/O thread
    forwards exactly those requests, in order, each with its own header, and
    keeps the rest.  Every descriptor that was queued or arrives on the
    client's socket is attached to exactly one request or still queued, in
    order of arrival, and no other socket's queue is touched. *)
Theorem reads_reassemble fd m chunks reqs rest env st msgs st' :
  io_clients st !! fd = Some (mkIoClient m []) -> Forall (fun d => d <> []) chunks ->
  concat chunks = concat reqs ++ rest -> Forall request_wf reqs -> incomplete rest ->
  run_reads fd chunks env st = (msgs, st') ->
  map msg_buf msgs = reqs /\ map header msgs = map read_header reqs /\ Forall (fun msg => client_fd msg = fd) msgs /\
  io_clients st' !! fd = Some (mkIoClient m rest) /\
  concat (map inflight_fds msgs) ++ pending m (pending_fds st') =
    pending m (pending_fds st) ++ arrivals (take (length reqs) env) /\
  (forall m', m' <> m -> pending m' (pending_fds st') = pending m' (pending_fds st)).
Proof.
  intros Hc Hne He Hw Hi Hrun.
  destruct (run_reads_spec fd m chunks env [] st Hc eq_refl Hne)
    as (reqs' & rest' & msgs' & st2 & He' & Hw' & Hi' & Hrun' & Hc' & [D1 D2 D3 D4 D5]).
  rewrite Hrun in Hrun'. injection Hrun' as <- <-. cbn [app] in He'. rewrite He in He'.
  destruct (split_unique _ _ _ _ He' Hw Hw' Hi Hi') as [<- <-]. done.
Qed.

Definition demo_request (opcode : Z) (vararg : list Z) : list Z :=
  le_bytes 4 opcode ++ le_bytes 4 (Z.of_nat (length vararg)) ++ le_bytes 4 128 ++ replicate 52 0 ++ vararg.
Definition demo_io : Io := (accept_client 7 5 io_new).2.
Definition demo_stream : list Z := demo_request 21 [1; 2; 3] ++ demo_request 22 [] ++ take 10 (demo_request 23 []).
Definition demo_chunks : list (list Z) := [take 5 demo_stream; take 100 (drop 5 demo_stream); drop 105 demo_stream].
Definition demo_env : list (list Datagram) := [[mkDatagram (le_bytes 4 32 ++ le_bytes 4 9) [11]]].

Lemma reads_reassemble_witness :
  let r := run_reads 7 demo_chunks demo_env demo_io in
  map msg_buf r.1 = [demo_request 21 [1; 2; 3]; demo_request 22 []] /\ map inflight_fds r.1 = [[mkInflight 32 9 11]; []] /\
  io_clients r.2 !! 7 = Some (mkIoClient 5 (take 10 (demo_request 23 []))).
Proof.
  cbv zeta. destruct (run_reads 7 demo_chunks demo_env demo_io) as [msgs st'] eqn:Hrun.
  destruct (reads_reassemble 7 5 demo_chunks [demo_request 21 [1; 2; 3]; demo_request 22 []] (take 10 (demo_request 23 []))
    demo_env demo_io msgs st') as (H1 & _ & _ & H4 & _); try (vm_compute; reflexivity);
    [repeat constructor; vm_compute; discriminate|repeat constructor; vm_compute; reflexivity|exact Hrun|].
  split; [exact H1|]. split; [|exact H4]. assert (He : msgs = (run_reads 7 demo_chunks demo_env demo_io).1) by (by rewrite Hrun).
  rewrite He. vm_compute. reflexivity.
Defined.

(** ** The tables *)
Record io_ok (st : Io) : Prop := {
  io_listed : forall fd c, io_clients st !! fd = Some c -> exists l, msg_fd_clients st !! msg_fd c = Some l /\ fd ∈ l;
  io_clients_of : forall m l, msg_fd_clients st !! m = Some l ->
    l <> [] /\ NoDup l /\ forall fd, fd ∈ l -> exists c, io_clients st !! fd = Some c /\ msg_fd c = m;
  io_pending : forall m, is_Some (pending_fds st !! m) -> is_Some (msg_fd_clients st !! m);
}.

(** The events of the loop.  The descriptors [handle_accept] registers come
    from the kernel, which returns none that is open. *)
Inductive io_step : Io -> Io -> Prop :=
| step_accept st request_fd m :
    io_clients st !! request_fd = None -> msg_fd_clients st !! m = None -> io_step st (accept_client request_fd m st).2
| step_register st request_fd m : io_step st (register_client request_fd m st)
| step_read st fd data env : io_step st (handle_client_read fd data env st).1.2
| step_poll st m ds :
    is_Some (msg_fd_clients st !! m) -> io_step st (with_pending (drain_msg_fd m ds (pending_fds st)) st)
| step_reply st fd reply_fd : io_step st (reply_target fd reply_fd st).1.

Lemma io_new_ok : io_ok io_new.
Proof. split; cbn; intros *; rewrite ?lookup_empty; try done; by intros [? ?]. Qed.

(** The tables matter only up to the receive buffers. *)
Lemma io_ok_ext st st' :
  (forall fd, msg_fd <$> io_clients st' !! fd = msg_fd <$> io_clients st !! fd) -> msg_fd_clients st' = msg_fd_clients st ->
  (forall m, is_Some (pending_fds st' !! m) -> is_Some (pending_fds st !! m) \/ is_Some (msg_fd_clients st !! m)) ->
  io_ok st -> io_ok st'.
Proof.
  intros Hc Hm Hp [H1 H2 H3]. split.
  - intros fd c Hfd. specialize (Hc fd). rewrite Hfd in Hc. cbn in Hc. symmetry in Hc.
    apply fmap_Some in Hc as (c0 & Hc0 & ->). rewrite Hm. by apply H1.
  - intros m l. rewrite Hm. intros Hl. destruct (H2 m l Hl) as (Hne & Hnd & Hin). split_and!; [done|done|].
    intros fd Hfd. destruct (Hin fd Hfd) as (c & Hcl & <-). specialize (Hc fd). rewrite Hcl in Hc. cbn in Hc.
    apply fmap_Some in Hc as (c0 & ? & ->). by exists c0.
  - intros m Hpm. rewrite Hm. destruct (Hp m Hpm); [by apply H3|done].
Qed.

Lemma accept_client_ok request_fd m st : io_clients st !! request_fd = None -> io_ok st -> io_ok (accept_client request_fd m st).2.
Proof.
  intros Hnew [H1 H2 H3]. unfold accept_client. split; cbn [snd io_clients msg_fd_clients pending_fds].
  - intros fd c. destruct (decide (fd = request_fd)) as [->|Hfd].
    + rewrite lookup_insert_eq. intros [= <-]. cbn [msg_fd]. rewrite lookup_insert_eq. eexists. split; [done|set_solver].
    + rewrite lookup_insert_ne by done. intros Hc. destruct (H1 fd c Hc) as (l & Hl & Hin).
      destruct (decide (m = msg_fd c)) as [->|Hm].
      * rewrite lookup_insert_eq, Hl. eexists. split; [done|]. cbn. set_solver.
      * rewrite lookup_insert_ne by done. by exists l.
  - intros m' l. destruct (decide (m = m')) as [<-|Hm].
    + rewrite lookup_insert_eq. intros [= <-]. destruct (msg_fd_clients st !! m) as [l0|] eqn:Hl0; cbn [default from_option id].
      * destruct (H2 m l0 Hl0) as (Hne & Hnd & Hin). split_and!.
        -- by destruct l0.
        -- apply NoDup_app. split_and!; [done| |apply NoDup_singleton]. intros fd Hfd ->%list_elem_of_singleton.
           destruct (Hin _ Hfd) as (c & Hc & _). by rewrite Hnew in Hc.
        -- intros fd [Hfd| ->%list_elem_of_singleton]%elem_of_app; [|rewrite lookup_insert_eq; by eexists].
           destruct (Hin fd Hfd) as (c & Hc & Hm). exists c. rewrite lookup_insert_ne; [done|]. intros ->. by rewrite Hnew in Hc.
      * split_and!; [done|apply NoDup_singleton|]. intros fd ->%list_elem_of_singleton. rewrite lookup_insert_eq. by eexists.
    + rewrite lookup_insert_ne by done. intros Hl. destruct (H2 m' l Hl) as (Hne & Hnd & Hin). split_and!; [done|done|].
      intros fd Hfd. destruct (Hin fd Hfd) as (c & Hc & Hmc). exists c. rewrite lookup_insert_ne; [done|].
      intros ->. by rewrite Hnew in Hc.
  - intros m' Hp. destruct (decide (m = m')) as [<-|Hm]; [rewrite lookup_insert_eq; by eexists|].
    rewrite lookup_insert_ne by done. by apply H3.
Qed.

Lemma disconnect_unknown fd st : io_clients st !! fd = None ->
  disconnect_io_client fd st =
  mkIo (io_clients st) (msg_fd_clients st) (pending_fds st) (delete fd (client_reply_fds st)) (closed st ++ [fd]).
Proof. intros Hc. unfold disconnect_io_client. by rewrite Hc. Qed.

(** Both outcomes of disconnecting a known client. *)
Lemma disconnect_cases fd c st : io_ok st -> io_clients st !! fd = Some c ->
  exists l, msg_fd_clients st !! msg_fd c = Some l /\
  let l' := filter (fun f => f <> fd) l in
  let ioc := delete fd (io_clients st) in
  let rep := delete fd (client_reply_fds st) in
  disconnect_io_client fd st =
  if decide (l' = []) then
    mkIo ioc (delete (msg_fd c) (msg_fd_clients st)) (delete (msg_fd c) (pending_fds st)) rep ((closed st ++ [msg_fd c]) ++ [fd])
  else mkIo ioc (<[msg_fd c := l']> (msg_fd_clients st)) (pending_fds st) rep (closed st ++ [fd]).
Proof.
  intros Hok Hc. destruct (io_listed st Hok fd c Hc) as (l & Hl & _). exists l. split; [done|]. cbv zeta.
  unfold disconnect_io_client. rewrite Hc, Hl. by destruct (filter (fun f => f <> fd) l).
Qed.

Lemma disconnect_ok fd st : io_ok st -> io_ok (disconnect_io_client fd st).
Proof.
  intros Hok. destruct (io_clients st !! fd) as [c|] eqn:Hc.
  2:{ rewrite disconnect_unknown by done. revert Hok. apply io_ok_ext; cbn; auto. }
  destruct (disconnect_cases fd c st Hok Hc) as (l & Hl & ->). destruct Hok as [H1 H2 H3].
  assert (Hlast : forall f, f ∈ filter (fun f => f <> fd) l <-> f <> fd /\ f ∈ l) by (intros f; exact (list_elem_of_filter (fun f => f <> fd) l f)).
  destruct (decide (filter (fun f => f <> fd) l = [])) as [Hnil|Hne];
    split; cbn [io_clients msg_fd_clients pending_fds].
  - intros f cf [Hf Hcf]%lookup_delete_Some. destruct (H1 f cf Hcf) as (lf & Hlf & Hin).
    exists lf. rewrite lookup_delete_ne; [done|]. intros He. rewrite <- He, Hl in Hlf. injection Hlf as <-.
    assert (f ∈ filter (fun f => f <> fd) l) as Hx by (apply Hlast; auto). rewrite Hnil in Hx. by apply not_elem_of_nil in Hx.
  - intros m' l' [Hm Hl']%lookup_delete_Some. destruct (H2 m' l' Hl') as (Hne & Hnd & Hin). split_and!; [done|done|].
    intros f Hf. destruct (Hin f Hf) as (cf & Hcf & Hmf). exists cf. rewrite lookup_delete_ne; [done|].
    intros <-. rewrite Hc in Hcf. by injection Hcf as <-.
  - intros m' [x [Hm Hx]%lookup_delete_Some]. rewrite lookup_delete_ne by done. apply H3. by exists x.
  - intros f cf [Hf Hcf]%lookup_delete_Some. destruct (H1 f cf Hcf) as (lf & Hlf & Hin).
    destruct (decide (msg_fd c = msg_fd cf)) as [He|He].
    + rewrite He, lookup_insert_eq. eexists. split; [done|]. apply Hlast. rewrite He, Hlf in Hl. injection Hl as <-. auto.
    + rewrite lookup_insert_ne by done. by exists lf.
  - intros m' l'. destruct (decide (msg_fd c = m')) as [<-|Hm].
    + rewrite lookup_insert_eq. intros [= <-]. destruct (H2 _ l Hl) as (_ & Hnd & Hin). split_and!; [done|by apply NoDup_filter|].
      intros f [Hf Hfl]%Hlast. destruct (Hin f Hfl) as (cf & Hcf & Hmf). exists cf. by rewrite lookup_delete_ne.
    + rewrite lookup_insert_ne by done. intros Hl'. destruct (H2 m' l' Hl') as (Hne' & Hnd & Hin). split_and!; [done|done|].
      intros f Hf. destruct (Hin f Hf) as (cf & Hcf & Hmf). exists cf. rewrite lookup_delete_ne; [done|].
      intros <-. rewrite Hc in Hcf. by injection Hcf as <-.
  - intros m' Hp. destruct (decide (msg_fd c = m')) as [<-|Hm]; [rewrite lookup_insert_eq; by eexists|].
    rewrite lookup_insert_ne by done. by apply H3.
Qed.

Lemma process_complete_pending fuel fd m : forall buf p env msgs buf' p' env',
  process_complete fuel fd m buf p env = (msgs, buf', p', env') -> forall m', is_Some (p' !! m') -> is_Some (p !! m') \/ m' = m.
Proof.
  induction fuel as [|f IH]; intros buf p env msgs buf' p' env'; cbn [process_complete]; [intros [= <- <- <- <-]; auto|].
  destruct (next_request buf) as [[r rest]|]; [|intros [= <- <- <- <-]; auto].
  destruct (take_pending m (drain_msg_fd m (default [] (head env)) p)) as [q p1] eqn:Hq.
  destruct (process_complete f fd m rest p1 (tail env)) as [[[msgs2 b2] p2] e2] eqn:Hr. intros [= <- <- <- <-] m' Hm'.
  destruct (decide (m' = m)) as [|Hne]; [auto|]. left. destruct (IH _ _ _ _ _ _ _ Hr m' Hm') as [H1|]; [|done].
  replace p1 with (take_pending m (drain_msg_fd m (default [] (head env)) p)).2 in H1 by (by rewrite Hq).
  by rewrite take_pending_other, drain_other in H1.
Qed.

Lemma io_step_ok st st' : io_step st st' -> io_ok st -> io_ok st'.
Proof.
  destruct 1 as [st rfd m Hn _|st rfd m|st fd data env|st m ds Hm|st fd rfd]; intros Hok.
  - by apply accept_client_ok.
  - unfold register_client. destruct (io_clients st !! rfd) eqn:Hc; [done|]. by apply accept_client_ok.
  - unfold handle_client_read. destruct data as [|x data]; [by apply disconnect_ok|].
    destruct (io_clients st !! fd) as [c|] eqn:Hc; [|done].
    assert (is_Some (msg_fd_clients st !! msg_fd c)) as Hm by (destruct (io_listed st Hok fd c Hc) as (l & -> & _); by eexists).
    destruct (process_complete _ _ _ _ _ _) as [[[msgs buf'] p'] env'] eqn:Hp. revert Hok. apply io_ok_ext;
      cbn [fst snd with_pending with_recv_buf io_clients msg_fd_clients pending_fds]; [|done|].
    + intros f. destruct (decide (f = fd)) as [->|Hf]; [by rewrite lookup_insert_eq, Hc|by rewrite lookup_insert_ne].
    + intros m' Hm'. destruct (process_complete_pending _ _ _ _ _ _ _ _ _ _ Hp m' Hm') as [|Heq]; [auto|]. subst m'. auto.
  - revert Hok. apply io_ok_ext; cbn; auto. intros m'. unfold drain_msg_fd. destruct (concat _); [auto|].
    destruct (decide (m = m')) as [<-|Hne]; [auto|]. rewrite lookup_insert_ne by done. auto.
  - revert Hok. apply io_ok_ext; cbn; auto.
Qed.

Lemma reachable_ok st : rtc io_step io_new st -> io_ok st.
Proof.
  assert (forall st0, rtc io_step st0 st -> io_ok st0 -> io_ok st) as H; [|intros Hr; apply (H _ Hr io_new_ok)].
  induction 1 as [|st0 st1 st Hs _ IH]; [done|]. intros Hok. by apply IH, (io_step_ok st0).
Qed.

(** The tables of the I/O thread stay consistent and a disconnect closes
    exactly what it owns.  In every state reachable from the start, a client is
    listed under its own socket and a socket lists exactly its clients, each
    once; descriptors are queued only for sockets that have a client.
    Disconnecting a client forgets it everywhere and closes its request pipe;
    the shared message socket is closed, and its queue dropped, exactly when no
    other client uses it.  (The queued descriptors themselves are not closed.) *)
Theorem disconnect_closes_exactly st fd c :
  rtc io_step io_new st -> io_clients st !! fd = Some c ->
  let st' := disconnect_io_client fd st in
  io_ok st' /\ io_clients st' = delete fd (io_clients st) /\ client_reply_fds st' !! fd = None /\
  (forall m l, msg_fd_clients st' !! m = Some l -> fd ∉ l) /\
  ((exists fd' c', fd' <> fd /\ io_clients st !! fd' = Some c' /\ msg_fd c' = msg_fd c) ->
     closed st' = closed st ++ [fd] /\ is_Some (msg_fd_clients st' !! msg_fd c) /\ pending_fds st' = pending_fds st) /\
  ((forall fd' c', io_clients st !! fd' = Some c' -> msg_fd c' = msg_fd c -> fd' = fd) ->
     closed st' = closed st ++ [msg_fd c; fd] /\ msg_fd_clients st' !! msg_fd c = None /\ pending_fds st' !! msg_fd c = None).
Proof.
  intros Hok%reachable_ok Hc st'. assert (Hok' : io_ok st') by (by apply disconnect_ok).
  assert (Hioc : io_clients st' = delete fd (io_clients st) /\ client_reply_fds st' !! fd = None).
  { destruct (disconnect_cases fd c st Hok Hc) as (l & _ & He). unfold st'. rewrite He.
    destruct (decide _); cbn [io_clients client_reply_fds]; by rewrite lookup_delete_eq. }
  destruct Hioc as [Hioc Hrep]. split_and!; [done|done|done| | |].
  - intros m l Hl Hin. destruct (io_clients_of st' Hok' m l Hl) as (_ & _ & H). destruct (H fd Hin) as (c' & Hc' & _).
    by rewrite Hioc, lookup_delete_eq in Hc'.
  - intros (fd' & c' & Hne & Hc' & Hm). destruct (disconnect_cases fd c st Hok Hc) as (l & Hl & He). unfold st'. rewrite He.
    destruct (io_listed st Hok fd' c' Hc') as (l' & Hl' & Hin). rewrite Hm, Hl in Hl'. injection Hl' as <-.
    assert (fd' ∈ filter (fun f => f <> fd) l) as Hx by (by apply list_elem_of_filter).
    rewrite decide_False by (intros Hn; rewrite Hn in Hx; by apply not_elem_of_nil in Hx).
    cbn [closed msg_fd_clients pending_fds]. rewrite lookup_insert_eq. split_and!; [done|by eexists|done].
  - intros Honly. destruct (disconnect_cases fd c st Hok Hc) as (l & Hl & He). unfold st'. rewrite He.
    assert (filter (fun f => f <> fd) l = []) as Hnil.
    { destruct (filter (fun f => f <> fd) l) as [|f l0] eqn:Hf; [done|].
      assert (f ∈ filter (fun f => f <> fd) l) as [Hne Hin]%list_elem_of_filter by (rewrite Hf; apply list_elem_of_here).
      destruct (io_clients_of st Hok _ l Hl) as (_ & _ & H). destruct (H f Hin) as (cf & Hcf & Hmf). destruct Hne. by apply (Honly f cf). }
    rewrite decide_True by done. cbn [closed msg_fd_clients pending_fds]. rewrite !lookup_delete_eq, <- app_assoc. done.
Qed.

(** Two clients on one socket; the second one leaves first. *)
Definition shared_io : Io := register_client 8 5 demo_io.
Lemma disconnect_closes_exactly_witness :
  closed (disconnect_io_client 8 shared_io) = [8] /\
  closed (disconnect_io_client 7 (disconnect_io_client 8 shared_io)) = [8; 5; 7].
Proof.
  assert (rtc io_step io_new shared_io) as Hr.
  { eapply rtc_l; [apply (step_accept io_new 7 5); reflexivity|]. apply rtc_once, step_register. }
  assert (rtc io_step io_new (disconnect_io_client 8 shared_io)) as Hr2.
  { eapply rtc_r; [exact Hr|]. exact (step_read shared_io 8 [] []). }
  split.
  - apply (disconnect_closes_exactly shared_io 8 (mkIoClient 5 []) Hr); [reflexivity|].
    exists 7, (mkIoClient 5 []). split_and!; [discriminate|reflexivity|reflexivity].
  - destruct (disconnect_closes_exactly (disconnect_io_client 8 shared_io) 7 (mkIoClient 5 []) Hr2) as (_ & _ & _ & _ & _ & H);
      [vm_compute; reflexivity|].
    destruct H as [H _]; [|exact H]. intros fd' c' Hc' _.
    assert (He : io_clients (disconnect_io_client 8 shared_io) = {[7 := mkIoClient 5 []]}) by (vm_compute; reflexivity).
    rewrite He in Hc'. apply lookup_singleton_Some in Hc' as [Hc' _]. congruence.
Defined.

(** A client can write the codes the two threads use between themselves: a
    64-byte request with opcode -2 makes the authority drop the client, while
    the I/O thread keeps its pipe registered; with -1 it gets no reply. *)
Lemma forged_disconnect fd m st : io_clients st !! fd = Some (mkIoClient m []) ->
  let '(msgs, st') := run_reads fd [demo_request 0xFFFFFFFE []] [] st in
  map route msgs = [RDisconnect] /\ io_clients st' !! fd = Some (mkIoClient m []).
Proof.
  intros Hc. destruct (run_reads fd [demo_request 0xFFFFFFFE []] [] st) as [msgs st'] eqn:Hrun.
  destruct (run_reads_spec fd m [demo_request 0xFFFFFFFE []] [] [] st Hc eq_refl) as
    (reqs & rest & msgs' & st2 & He & Hw & Hi & Hrun' & Hc' & [D1 D2 _ _ _]); [repeat constructor; vm_compute; discriminate|].
  rewrite Hrun in Hrun'. injection Hrun' as <- <-.
  destruct (split_unique [demo_request 0xFFFFFFFE []] [] reqs rest) as [<- <-]; [exact He| |done|reflexivity|done|].
  { repeat constructor. }
  split; [|done]. destruct msgs as [|msg [|? ?]]; [done| |done]. cbn [map] in *. injection D2 as D2.
  unfold route. rewrite D2. vm_compute. reflexivity.
Qed.

End Csp.
