(* ===== verification/Atoms.v ===== *)
(** * The global atom table ([src/rust/src/triskelion/event_loop/registry_handlers.rs],
      lines 303-425, with the fields of [objects.rs])

    Two maps, atom to (name, count) and name to atom, kept by four handlers.
    The abstract table is one map from names.  The layout of the request and
    reply structs is generated from protocol.def, which is not part of the
    sources: it is a parameter. *)

From stdpp Require Import base list gmap strings.
From S2P Require Import Prelude Dispatch.
Local Open Scope Z_scope.

Module Atoms.
Import Replies.

Record AtomTable : Type := mkAtoms {
  atoms : gmap Z (list Z * Z);
  atom_names : gmap (list Z) Z;
  next_atom : Z;
}.
Definition atoms_new : AtomTable := mkAtoms ∅ ∅ 0xC000.

(** The reply structs the handlers fill in. *)
Inductive reply_struct : Type :=
| HeaderReply (h : ReplyHeader)
| AddAtomReply (h : ReplyHeader) (atom : Z)
| FindAtomReply (h : ReplyHeader) (atom : Z)
| GetAtomInformationReply (h : ReplyHeader) (count pinned total : Z).

Inductive atom_op : Type := AddAtom | AddUserAtom | FindAtom | GetAtomInformation | DeleteAtom.

Section handlers.
(** In-memory form of a reply, and the atom field of a request that is long
    enough to hold its struct. *)
Context (layout : reply_struct -> list Z) (atom_of_request : atom_op -> list Z -> option Z).

Definition vararg_of (buf : list Z) : list Z := if decide (VARARG_OFF < length buf)%nat then drop VARARG_OFF buf else [].
Definition fixed (r : reply_struct) : Reply := reply_fixed (layout r).
Definition refuse (e : Z) : Reply := fixed (HeaderReply (mkReplyHeader e 0)).

(** [entry.1 += 1], at [i32] width. *)
Definition bump_refcount (atom : Z) (t : AtomTable) : AtomTable :=
  mkAtoms (alter (fun e => (e.1, i32 (e.2 + 1))) atom (atoms t)) (atom_names t) (next_atom t).

Definition handle_add_atom (buf : list Z) (t : AtomTable) : AtomTable * Reply :=
  let vararg := vararg_of buf in
  let name_u16 := vararg_to_u16 vararg in
  match atom_names t !! name_u16 with
  | Some atom => (bump_refcount atom t, fixed (AddAtomReply (mkReplyHeader 0 0) atom))
  | None =>
      let atom := next_atom t in
      (mkAtoms (<[atom := (vararg, 1)]> (atoms t)) (<[name_u16 := atom]> (atom_names t)) (u32 (atom + 1)),
       fixed (AddAtomReply (mkReplyHeader 0 0) atom))
  end.

(** The handler of user atoms repeats the body of [handle_add_atom]. *)
Definition handle_add_user_atom (buf : list Z) (t : AtomTable) : AtomTable * Reply := handle_add_atom buf t.

Definition handle_find_atom (buf : list Z) (t : AtomTable) : AtomTable * Reply :=
  match atom_names t !! vararg_to_u16 (vararg_of buf) with
  | Some atom => (t, fixed (FindAtomReply (mkReplyHeader 0 0) atom))
  | None => (t, refuse 0xC0000034)
  end.

Definition handle_get_atom_information (buf : list Z) (t : AtomTable) : AtomTable * Reply :=
  match atom_of_request GetAtomInformation buf with
  | None => (t, refuse 0xC000000D)
  | Some atom =>
      match atoms t !! atom with
      | Some (name_bytes, count) =>
          let vararg_len := Z.min (blen name_bytes) (max_reply_vararg buf) in
          (t, reply_vararg (layout (GetAtomInformationReply (mkReplyHeader 0 (u32 vararg_len)) count 0 (u32 (blen name_bytes))))
                (take (Z.to_nat vararg_len) name_bytes))
      | None => (t, refuse 0xC0000008)
      end
  end.

Definition handle_delete_atom (buf : list Z) (t : AtomTable) : AtomTable * Reply :=
  match atom_of_request DeleteAtom buf with
  | None => (t, refuse 0xC000000D)
  | Some atom =>
      (match atoms t !! atom with
       | Some (name_bytes, count) =>
           let count' := i32 (count - 1) in
           if decide (count' <= 0)
           then mkAtoms (delete atom (atoms t)) (delete (vararg_to_u16 name_bytes) (atom_names t)) (next_atom t)
           else mkAtoms (<[atom := (name_bytes, count')]> (atoms t)) (atom_names t) (next_atom t)
       | None => t
       end, refuse 0)
  end.

Definition handle (op : atom_op) : list Z -> AtomTable -> AtomTable * Reply :=
  match op with
  | AddAtom => handle_add_atom
  | AddUserAtom => handle_add_user_atom
  | FindAtom => handle_find_atom
  | GetAtomInformation => handle_get_atom_information
  | DeleteAtom => handle_delete_atom
  end.

Fixpoint run (rs : list (atom_op * list Z)) (t : AtomTable) : AtomTable * list Reply :=
  match rs with
  | [] => (t, [])
  | (op, buf) :: rs' => let '(t1, r) := handle op buf t in let '(t2, l) := run rs' t1 in (t2, r :: l)
  end.

(** ** Abstract table: name to (atom, number of uses, name as first given) *)
Record spec : Type := mkSpec { table : gmap (list Z) (Z * Z * list Z); fresh : Z }.
Definition spec_new : spec := mkSpec ∅ 0xC000.

(** One use less of an atom; the name goes with its last use. *)
Definition release (atom : Z) (e : Z * Z * list Z) : option (Z * Z * list Z) :=
  let '(a, count, bytes) := e in
  if decide (a = atom) then if decide (count <= 1) then None else Some (a, count - 1, bytes) else Some e.

Definition uses (atom : Z) (s : spec) : list (Z * list Z) :=
  omap (fun '(_, (a, count, bytes)) => if decide (a = atom) then Some (count, bytes) else None) (map_to_list (table s)).

Definition spec_step (op : atom_op) (buf : list Z) (s : spec) : spec * Reply :=
  let name := vararg_to_u16 (vararg_of buf) in
  match op with
  | AddAtom | AddUserAtom =>
      match table s !! name with
      | Some (a, count, bytes) =>
          (mkSpec (<[name := (a, count + 1, bytes)]> (table s)) (fresh s), fixed (AddAtomReply (mkReplyHeader 0 0) a))
      | None =>
          (mkSpec (<[name := (fresh s, 1, vararg_of buf)]> (table s)) (fresh s + 1),
           fixed (AddAtomReply (mkReplyHeader 0 0) (fresh s)))
      end
  | FindAtom =>
      (s, match table s !! name with
          | Some (a, _, _) => fixed (FindAtomReply (mkReplyHeader 0 0) a)
          | None => refuse 0xC0000034
          end)
  | GetAtomInformation =>
      (s, match atom_of_request op buf with
          | None => refuse 0xC000000D
          | Some a =>
              match uses a s with
              | [] => refuse 0xC0000008
              | (count, bytes) :: _ =>
                  let n := Z.min (blen bytes) (max_reply_vararg buf) in
                  reply_vararg (layout (GetAtomInformationReply (mkReplyHeader 0 (u32 n)) count 0 (u32 (blen bytes))))
                    (take (Z.to_nat n) bytes)
              end
          end)
  | DeleteAtom =>
      match atom_of_request op buf with
      | None => (s, refuse 0xC000000D)
      | Some a => (mkSpec (omap (release a) (table s)) (fresh s), refuse 0)
      end
  end.

Fixpoint spec_run (rs : list (atom_op * list Z)) (s : spec) : spec * list Reply :=
  match rs with
  | [] => (s, [])
  | (op, buf) :: rs' => let '(s1, r) := spec_step op buf s in let '(s2, l) := spec_run rs' s1 in (s2, r :: l)
  end.

(** ** Refinement *)
Record refines (n : Z) (t : AtomTable) (s : spec) : Prop := {
  r_names : forall nm, atom_names t !! nm = (fun e => e.1.1) <$> table s !! nm;
  r_atoms : forall a b c, atoms t !! a = Some (b, c) <-> exists nm, table s !! nm = Some (a, c, b);
  r_entry : forall nm a c b, table s !! nm = Some (a, c, b) ->
    vararg_to_u16 b = nm /\ 1 <= c <= n /\ 0xC000 <= a < fresh s;
  r_inj : forall nm nm' a c c' b b', table s !! nm = Some (a, c, b) -> table s !! nm' = Some (a, c', b') -> nm = nm';
  r_next : next_atom t = fresh s /\ 0xC000 <= fresh s <= 0xC000 + n;
}.

Lemma refines_new : refines 0 atoms_new spec_new.
Proof. split; cbn; intros *; rewrite ?lookup_empty; try done. split; [done|]. by intros [? ?]. Qed.

Lemma refines_weaken n t s : refines n t s -> refines (n + 1) t s.
Proof.
  intros [H1 H2 H3 H4 [H5 H6]]. split; [done|done| |done|lia].
  intros nm a c b He. destruct (H3 nm a c b He) as (? & ? & ?). split_and!; [done|lia..].
Qed.

Lemma uses_atoms n t s a : refines n t s ->
  match uses a s with [] => atoms t !! a = None | (c, b) :: _ => atoms t !! a = Some (b, c) end.
Proof.
  intros Hr. destruct (uses a s) as [|[c b] l] eqn:Hu.
  - destruct (atoms t !! a) as [[b c]|] eqn:Ha; [|done]. apply (r_atoms n t s Hr) in Ha as [nm Hn].
    assert ((c, b) ∈ uses a s) as Hin.
    { apply list_elem_of_omap. exists (nm, (a, c, b)). split; [by apply elem_of_map_to_list|]. by rewrite decide_True. }
    rewrite Hu in Hin. by apply not_elem_of_nil in Hin.
  - assert ((c, b) ∈ uses a s) as ([nm [[a' c'] b']] & Hin & He)%list_elem_of_omap by (rewrite Hu; apply list_elem_of_here).
    case_decide as Ha; [|done]. injection He as <- <-. subst a'. apply elem_of_map_to_list in Hin.
    apply (r_atoms n t s Hr). by exists nm.
Qed.

(** A lookup after an insertion, in both directions. *)
Lemma insert_entry (m : gmap (list Z) (Z * Z * list Z)) name e nm e' :
  <[name := e]> m !! nm = Some e' <-> (nm = name /\ e' = e) \/ (nm <> name /\ m !! nm = Some e').
Proof. rewrite lookup_insert_Some. intuition congruence. Qed.

Lemma bump_refines n t s name a c b : 0 <= n < 2 ^ 31 - 1 -> refines n t s -> table s !! name = Some (a, c, b) ->
  refines (n + 1) (bump_refcount a t) (mkSpec (<[name := (a, c + 1, b)]> (table s)) (fresh s)).
Proof.
  intros Hn [H1 H2 H3 H4 [H5 H6]] He. destruct (H3 _ _ _ _ He) as (Hb & Hc & Ha).
  assert (i32 (c + 1) = c + 1) as Hi.
  { unfold i32. rewrite u32_small by (unfold in_u32; lia). by rewrite (proj2 (Z.ltb_lt _ _)) by lia. }
  split; cbn [atoms atom_names next_atom table fresh bump_refcount].
  - intros nm. destruct (decide (nm = name)) as [->|Hne]; [|by rewrite lookup_insert_ne].
    by rewrite lookup_insert_eq, H1, He.
  - intros a' b' c'. setoid_rewrite insert_entry. destruct (decide (a = a')) as [<-|Hne].
    + rewrite lookup_alter_eq, (proj2 (H2 a b c)) by eauto. cbn. rewrite Hi. split; [intros [= <- <-]; eauto|].
      intros (nm & [[_ Hx]|[Hne' Hx]]); [congruence|]. destruct Hne'. by eapply H4.
    + rewrite lookup_alter_ne by done. rewrite H2. split; intros [nm Hnm]; exists nm; [right|]; naive_solver.
  - intros nm a' c' b' [[-> Hx]|[_ Hx]]%insert_entry; [injection Hx as -> -> ->|destruct (H3 _ _ _ _ Hx) as (? & ? & ?)];
      split_and!; (done || lia).
  - intros nm nm' a' c1 c2 b1 b2 [[-> Hx]|[N1 Hx]]%insert_entry [[-> Hy]|[N2 Hy]]%insert_entry; [done| | |by eapply H4].
    + injection Hx as -> -> ->. by eapply H4.
    + injection Hy as -> -> ->. by eapply H4.
  - split; [done|lia].
Qed.

Lemma fresh_refines n t s v : 0 <= n < 2 ^ 31 - 1 -> refines n t s -> table s !! vararg_to_u16 v = None ->
  refines (n + 1)
    (mkAtoms (<[next_atom t := (v, 1)]> (atoms t)) (<[vararg_to_u16 v := next_atom t]> (atom_names t)) (u32 (next_atom t + 1)))
    (mkSpec (<[vararg_to_u16 v := (fresh s, 1, v)]> (table s)) (fresh s + 1)).
Proof.
  intros Hn [H1 H2 H3 H4 [-> H6]] He. set (name := vararg_to_u16 v) in *.
  assert (Hnew : forall nm c b, table s !! nm <> Some (fresh s, c, b)).
  { intros nm c b Hx. destruct (H3 _ _ _ _ Hx) as (_ & _ & ?). lia. }
  split; cbn [atoms atom_names next_atom table fresh].
  - intros nm. destruct (decide (nm = name)) as [->|Hne]; [by rewrite !lookup_insert_eq|by rewrite !lookup_insert_ne].
  - intros a' b' c'. setoid_rewrite insert_entry. destruct (decide (fresh s = a')) as [<-|Hne].
    + rewrite lookup_insert_eq. split; [intros [= <- <-]; eauto|].
      intros (nm & [[_ Hx]|[_ Hx]]); [congruence|by apply Hnew in Hx].
    + rewrite lookup_insert_ne by done. rewrite H2. split; intros [nm Hnm]; exists nm; [right|]; naive_solver.
  - intros nm a' c' b' [[-> Hx]|[_ Hx]]%insert_entry; [injection Hx as -> -> ->|destruct (H3 _ _ _ _ Hx) as (? & ? & ?)];
      split_and!; (done || lia).
  - intros nm nm' a' c1 c2 b1 b2 [[-> Hx]|[N1 Hx]]%insert_entry [[-> Hy]|[N2 Hy]]%insert_entry; [done| | |by eapply H4].
    + injection Hx as -> -> ->. by apply Hnew in Hy.
    + injection Hy as -> -> ->. by apply Hnew in Hx.
  - rewrite u32_small by (unfold in_u32; lia). split; [done|lia].
Qed.

Lemma add_refines n buf t s : 0 <= n < 2 ^ 31 - 1 -> refines n t s ->
  (handle_add_atom buf t).2 = (spec_step AddAtom buf s).2 /\
  refines (n + 1) (handle_add_atom buf t).1 (spec_step AddAtom buf s).1.
Proof.
  intros Hn Hr. unfold handle_add_atom, spec_step. rewrite (r_names n t s Hr).
  destruct (table s !! vararg_to_u16 (vararg_of buf)) as [[[a c] b]|] eqn:He; cbn [fmap option_fmap option_map fst snd].
  - split; [done|]. by apply bump_refines.
  - split; [|by apply fresh_refines]. by destruct (r_next n t s Hr) as [-> _].
Qed.

(** The abstract deletion, read through lookups. *)
Lemma release_entry (m : gmap (list Z) (Z * Z * list Z)) a nm a' c' b' :
  omap (release a) m !! nm = Some (a', c', b') <->
  (a' <> a /\ m !! nm = Some (a', c', b')) \/ (a' = a /\ 1 <= c' /\ m !! nm = Some (a, c' + 1, b')).
Proof.
  rewrite lookup_omap. destruct (m !! nm) as [[[x y] z]|]; cbn [mbind option_bind release].
  2:{ split; [done|]. intros [[_ ?]|(_ & _ & ?)]; done. }
  repeat case_decide; subst; split.
  - done.
  - intros [[? ?]|(-> & ? & Hx)]; [congruence|]. assert (y = c' + 1) by congruence. lia.
  - intros [= <- <- <-]. right. split_and!; [done|lia|]. by replace (y - 1 + 1) with y by lia.
  - intros [[? ?]|(-> & ? & Hx)]; [congruence|]. injection Hx as -> ->. by replace (c' + 1 - 1) with c' by lia.
  - intros [= <- <- <-]. auto.
  - intros [[? ?]|(-> & ? & Hx)]; [done|congruence].
Qed.

Definition delete_entry (a : Z) (t : AtomTable) : AtomTable :=
  match atoms t !! a with
  | Some (b, c) =>
      if decide (i32 (c - 1) <= 0) then mkAtoms (delete a (atoms t)) (delete (vararg_to_u16 b) (atom_names t)) (next_atom t)
      else mkAtoms (<[a := (b, i32 (c - 1))]> (atoms t)) (atom_names t) (next_atom t)
  | None => t
  end.

(** The atom map and the name index after a deletion. *)
Lemma delete_entry_atoms n a t s a' b' c' : 0 <= n < 2 ^ 31 - 1 -> refines n t s ->
  atoms (delete_entry a t) !! a' = Some (b', c') <->
  (a' <> a /\ atoms t !! a' = Some (b', c')) \/ (a' = a /\ 1 <= c' /\ atoms t !! a = Some (b', c' + 1)).
Proof.
  intros Hn Hr. unfold delete_entry. destruct (atoms t !! a) as [[b c]|] eqn:Ha.
  2:{ split; [|intros [[? ?]|(_ & _ & ?)]; done]. intros Hx. left. split; [|done]. intros ->. congruence. }
  destruct (proj1 (r_atoms n t s Hr a b c) Ha) as [nm Hnm]. destruct (r_entry n t s Hr _ _ _ _ Hnm) as (_ & Hc & _).
  assert (i32 (c - 1) = c - 1) as ->.
  { unfold i32. rewrite u32_small by (unfold in_u32; lia). by rewrite (proj2 (Z.ltb_lt _ _)) by lia. }
  case_decide; cbn [atoms]; destruct (decide (a' = a)) as [->|Hne].
  - rewrite lookup_delete_eq. split; [done|]. intros [[? ?]|(_ & ? & Hx)]; [done|]. injection Hx as -> ->. lia.
  - rewrite lookup_delete_ne by done. naive_solver.
  - rewrite lookup_insert_eq. split.
    + intros [= <- <-]. right. split_and!; [done|lia|]. by replace (c - 1 + 1) with c by lia.
    + intros [[? ?]|(_ & ? & Hx)]; [done|]. injection Hx as -> ->. by replace (c' + 1 - 1) with c' by lia.
  - rewrite lookup_insert_ne by done. naive_solver.
Qed.

Lemma delete_entry_names n a t s nm : 0 <= n < 2 ^ 31 - 1 -> refines n t s ->
  atom_names (delete_entry a t) !! nm = (fun e => e.1.1) <$> omap (release a) (table s) !! nm.
Proof.
  intros Hn Hr. rewrite lookup_omap. unfold delete_entry. destruct (atoms t !! a) as [[b c]|] eqn:Ha.
  - destruct (proj1 (r_atoms n t s Hr a b c) Ha) as [nm0 Hnm]. destruct (r_entry n t s Hr _ _ _ _ Hnm) as (-> & Hc & _).
    assert (i32 (c - 1) = c - 1) as ->.
    { unfold i32. rewrite u32_small by (unfold in_u32; lia). by rewrite (proj2 (Z.ltb_lt _ _)) by lia. }
    case_decide as Hd; cbn [atom_names]; destruct (decide (nm0 = nm)) as [<-|Hne].
    + rewrite lookup_delete_eq, Hnm. cbn [mbind option_bind release]. by rewrite decide_True, decide_True by lia.
    + rewrite lookup_delete_ne, (r_names n t s Hr) by done. destruct (table s !! nm) as [[[x y] z]|] eqn:Hx; [|done].
      cbn [mbind option_bind release]. rewrite decide_False; [done|]. intros ->. destruct Hne. by eapply (r_inj n t s Hr).
    + rewrite (r_names n t s Hr), Hnm. cbn [mbind option_bind release]. by rewrite decide_True, decide_False by lia.
    + rewrite (r_names n t s Hr). destruct (table s !! nm) as [[[x y] z]|] eqn:Hx; [|done].
      cbn [mbind option_bind release]. rewrite decide_False; [done|]. intros ->. destruct Hne. by eapply (r_inj n t s Hr).
  - rewrite (r_names n t s Hr). destruct (table s !! nm) as [[[x y] z]|] eqn:Hx; [|done].
    cbn [mbind option_bind release]. rewrite decide_False; [done|]. intros ->.
    assert (Hz : atoms t !! a = Some (z, y)) by (apply (r_atoms n t s Hr); by exists nm). congruence.
Qed.

Lemma delete_refines n a t s : 0 <= n < 2 ^ 31 - 1 -> refines n t s ->
  refines (n + 1) (delete_entry a t) (mkSpec (omap (release a) (table s)) (fresh s)).
Proof.
  intros Hn Hr. split; cbn [table fresh].
  - intros nm. by apply (delete_entry_names n).
  - intros a' b' c'. rewrite (delete_entry_atoms n a t s) by done. setoid_rewrite release_entry.
    pose proof (r_atoms n t s Hr a' b' c'). pose proof (r_atoms n t s Hr a b' (c' + 1)). naive_solver.
  - intros nm a' c b [[_ Hx]|(-> & ? & Hx)]%release_entry; destruct (r_entry n t s Hr _ _ _ _ Hx) as (? & ? & ?);
      split_and!; (done || lia).
  - intros nm nm' a' c c' b b' [[_ Hx]|(E1 & _ & Hx)]%release_entry [[_ Hy]|(E2 & _ & Hy)]%release_entry;
      subst; by eapply (r_inj n t s Hr).
  - destruct (r_next n t s Hr) as [H5 H6]. unfold delete_entry. destruct (atoms t !! a) as [[b c]|]; [case_decide|];
      split; (done || lia).
Qed.

Lemma step_refines n op buf t s : 0 <= n < 2 ^ 31 - 1 -> refines n t s ->
  (handle op buf t).2 = (spec_step op buf s).2 /\ refines (n + 1) (handle op buf t).1 (spec_step op buf s).1.
Proof.
  intros Hn Hr. destruct op; cbn [handle].
  - by apply add_refines.
  - exact (add_refines n buf t s Hn Hr).
  - unfold handle_find_atom, spec_step. rewrite (r_names n t s Hr).
    destruct (table s !! _) as [[[a c] b]|]; (split; [done|by apply refines_weaken]).
  - unfold handle_get_atom_information, spec_step.
    destruct (atom_of_request GetAtomInformation buf) as [a|]; [|split; [done|by apply refines_weaken]].
    assert (Hu := uses_atoms n t s a Hr). destruct (uses a s) as [|[c b] l]; rewrite Hu; (split; [done|by apply refines_weaken]).
  - unfold handle_delete_atom, spec_step. destruct (atom_of_request DeleteAtom buf) as [a|]; [|split; [done|by apply refines_weaken]].
    split; [done|]. exact (delete_refines n a t s Hn Hr).
Qed.

Lemma run_refines rs : forall n t s, 0 <= n -> n + Z.of_nat (length rs) < 2 ^ 31 -> refines n t s ->
  (run rs t).2 = (spec_run rs s).2 /\ refines (n + Z.of_nat (length rs)) (run rs t).1 (spec_run rs s).1.
Proof.
  induction rs as [|[op buf] rs IH]; intros n t s H0 Hn Hr; cbn [length] in *; [by rewrite Z.add_0_r|].
  destruct (step_refines n op buf t s) as [Hrep Hr1]; [lia|done|]. cbn [run spec_run].
  destruct (handle op buf t) as [t1 r], (spec_step op buf s) as [s1 r']. cbn [fst snd] in *. subst r'.
  destruct (IH (n + 1) t1 s1) as [IH1 IH2]; [lia|lia|done|].
  destruct (run rs t1) as [t2 l], (spec_run rs s1) as [s2 l']. cbn [fst snd] in *. subst l'. split; [done|].
  by replace (n + Z.of_nat (S (length rs))) with (n + 1 + Z.of_nat (length rs)) by lia.
Qed.

(** C38: the atom table behaves as one reference-counted dictionary of names as
    they are written, case included.  Along any sequence of fewer than 2^31 requests
    to add, find, describe and delete atoms, from the empty table, every reply, byte
    for byte, is the one of the abstract table, in which a name has one atom as long
    as it is added more often than deleted, a deletion of an unknown atom changes
    nothing, and a new name gets an atom never used before; and the two indexes
    agree: an atom leads to a name exactly when the name leads to the atom. *)
Theorem atom_table_refines rs : Z.of_nat (length rs) < 2 ^ 31 ->
  (run rs atoms_new).2 = (spec_run rs spec_new).2 /\
  (let t := (run rs atoms_new).1 in
   (forall nm a, atom_names t !! nm = Some a <-> exists b c, atoms t !! a = Some (b, c) /\ vararg_to_u16 b = nm) /\
   (forall a b c, atoms t !! a = Some (b, c) -> 0xC000 <= a /\ 1 <= c /\ table (spec_run rs spec_new).1 !! vararg_to_u16 b = Some (a, c, b))).
Proof.
  intros Hn. destruct (run_refines rs 0 atoms_new spec_new) as [Hrep Hr]; [lia|lia|apply refines_new|].
  split; [done|]. cbv zeta. set (t := (run rs atoms_new).1) in *. set (s := (spec_run rs spec_new).1) in *. split.
  - intros nm a. rewrite (r_names _ t s Hr), fmap_Some. split.
    + intros ([[x c] b] & Hx & ->). exists b, c. cbn. split; [apply (r_atoms _ t s Hr); eauto|].
      by destruct (r_entry _ t s Hr _ _ _ _ Hx) as (? & _).
    + intros (b & c & [nm' Hx]%(r_atoms _ t s Hr) & Hb). destruct (r_entry _ t s Hr _ _ _ _ Hx) as (Hb' & _).
      rewrite Hb in Hb'. subst nm'. by exists (a, c, b).
  - intros a b c [nm Hx]%(r_atoms _ t s Hr). destruct (r_entry _ t s Hr _ _ _ _ Hx) as (Hb & Hc & Ha).
    rewrite Hb. split_and!; [lia|lia|done].
Qed.

End handlers.

(** A layout with the fields in order, and a request with its atom at byte 12. *)
Definition demo_layout (r : reply_struct) : list Z :=
  match r with
  | HeaderReply h => header_bytes h
  | AddAtomReply h a | FindAtomReply h a => header_bytes h ++ le_bytes 4 a ++ le_bytes 4 0
  | GetAtomInformationReply h c p t => header_bytes h ++ le_bytes 4 c ++ le_bytes 4 p ++ le_bytes 4 t ++ le_bytes 4 0
  end.
Definition demo_atom (op : atom_op) (buf : list Z) : option Z :=
  if decide (16 <= length buf)%nat then Some (from_le (slice 12 4 buf)) else None.
Definition demo_buf (atom : Z) (name : list Z) : list Z := replicate 12 0 ++ le_bytes 4 atom ++ replicate 48 0 ++ u16_bytes name.
Definition demo_requests : list (atom_op * list Z) :=
  [(AddAtom, demo_buf 0 [0x41]); (AddUserAtom, demo_buf 0 [0x42]); (AddAtom, demo_buf 0 [0x41]);
   (DeleteAtom, demo_buf 0xC000 []); (DeleteAtom, demo_buf 0xC001 []); (FindAtom, demo_buf 0 [0x42])].

(** The reverse index is described as keyed by the lowercase name; the requests
    store and look up the name as it is, so names that differ in case have atoms of
    their own. *)
Example atoms_case_sensitive :
  let t := (run demo_layout demo_atom [(AddAtom, demo_buf 0 [0x41]); (AddAtom, demo_buf 0 [0x61])] atoms_new).1 in
  atom_names t !! [0x41] = Some 0xC000 /\ atom_names t !! [0x61] = Some 0xC001.
Proof. split; vm_compute; reflexivity. Qed.

Lemma atom_table_refines_witness :
  let r := run demo_layout demo_atom demo_requests atoms_new in
  atom_names r.1 !! [0x41] = Some 0xC000 /\ map status r.2 = [0; 0; 0; 0; 0; 0xC0000034] /\
  r.2 = (spec_run demo_layout demo_atom demo_requests spec_new).2.
Proof.
  cbv zeta. destruct (atom_table_refines demo_layout demo_atom demo_requests) as [Hrep _]; [vm_compute; reflexivity|].
  split; [vm_compute; reflexivity|]. split; [vm_compute; reflexivity|exact Hrep].
Defined.

End Atoms.
