(* ===== verification/Loop.v ===== *)
(** * The event loop: clients, kernel objects and the helpers of the handlers
      ([ntsync.rs], [ipc.rs], [event_loop/mod.rs], [event_loop/handles.rs])

    [Ntsync] is the interface to the operating system: descriptors and the
    synchronisation objects of [/dev/ntsync].  The handlers are written against
    its operations, and [NtsyncLaws] states the documented behaviour the theorems
    use; [ModelKernel] is a concrete kernel that satisfies them.  [Ipc] is the
    authority thread's record of a client.  [Loop] has the state of the event
    loop and the functions the handlers share. *)

From stdpp Require Import base list gmap strings.
From coqutil Require Import Datatypes.RecordSettersUsingExistingGetters.
From S2P Require Import Prelude Objects SideTables SentMessages Shm Dispatch Text Registry Atoms.
Local Open Scope Z_scope.

(** Reads of updated records. *)
Ltac recs := cbn; unfold RecordSettersUsingExistingGetters.const; cbn.

(** ** The kernel *)
Module Ntsync.

Inductive WaitResult : Type := Signaled (index : Z) | Timeout | Alerted | WaitError.

Definition ETIMEDOUT : Z := 110.
Definition ECANCELED : Z := 125.

(** A descriptor is a number; an [NtsyncObj] owns one.  [inl] is [Ok] with the
    previous state, [inr] is [Err] with the errno.  The wait ioctls return 0 with
    the index that was signalled, or fail with an errno. *)
Class Ntsync (K : Type) : Type := {
  eventfd : K -> K * Z;
  dup_fd : Z -> K -> K * Z;
  close_fd : Z -> K -> K;
  write_fd : Z -> list Z -> K -> K;
  create_event : bool -> bool -> K -> K * option Z;
  create_sem : Z -> Z -> K -> K * option Z;
  create_mutex : Z -> Z -> K -> K * option Z;
  event_set : Z -> K -> K * (Z + Z);
  event_reset : Z -> K -> K * (Z + Z);
  event_pulse : Z -> K -> K * (Z + Z);
  sem_release : Z -> Z -> K -> K * (Z + Z);
  mutex_unlock : Z -> Z -> K -> K * (Z + Z);
  mutex_kill : Z -> Z -> K -> K * (Z + Z);
  event_read : Z -> K -> option (Z * Z);
  mutex_read : Z -> K -> option (Z * Z);
  sem_read : Z -> K -> option (Z * Z);
  ioctl_wait : bool -> list Z -> Z -> Z -> Z -> K -> K * (Z + Z);
}.

Definition b2z (b : bool) : Z := if b then 1 else 0.

(** What the documentation of the driver promises about manual-reset events. *)
Class NtsyncLaws (K : Type) `{Ntsync K} : Prop := {
  set_signals : forall f s k, event_read f k = Some (1, s) -> event_read f (event_set f k).1 = Some (1, 1);
  set_keeps : forall f g k, event_read g k = Some (1, 1) -> event_read g (event_set f k).1 = Some (1, 1);
  set_manual : forall f g s k, event_read g k = Some (1, s) ->
    exists s', event_read g (event_set f k).1 = Some (1, s');
  reset_clears : forall f m s k, event_read f k = Some (m, s) -> event_read f (event_reset f k).1 = Some (m, 0);
  create_reads : forall m s k k' f, create_event m s k = (k', Some f) -> event_read f k' = Some (b2z m, b2z s);
}.

(** Descriptors of one object: what [dup] shares, and that the calls the handlers
    make leave the objects of other open descriptors alone. *)
Class ObjectLaws (K : Type) `{Ntsync K} : Type := {
  object_of : Z -> K -> option Z;
  same_object : forall f g k, object_of f k = object_of g k -> event_read f k = event_read g k;
  set_object : forall f g k, object_of g (event_set f k).1 = object_of g k;
  dup_object : forall f k k' d, dup_fd f k = (k', d) -> 0 <= d ->
    object_of d k' = object_of f k /\ object_of d k = None;
  dup_keeps : forall f g k, is_Some (object_of g k) ->
    object_of g (dup_fd f k).1 = object_of g k /\ event_read g (dup_fd f k).1 = event_read g k;
  create_object : forall m s k k' f, create_event m s k = (k', Some f) -> object_of f k = None /\ is_Some (object_of f k');
  create_keeps : forall m s g k, is_Some (object_of g k) ->
    object_of g (create_event m s k).1 = object_of g k /\ event_read g (create_event m s k).1 = event_read g k;
  eventfd_keeps : forall g k, is_Some (object_of g k) ->
    object_of g (eventfd k).1 = object_of g k /\ event_read g (eventfd k).1 = event_read g k;
  close_keeps : forall f g k, f <> g ->
    object_of g (close_fd f k) = object_of g k /\ event_read g (close_fd f k) = event_read g k;
}.

(** A system with descriptors left. *)
Class Reliable (K : Type) `{ObjectLaws K} : Prop := {
  eventfd_ok : forall k, 0 <= (eventfd k).2;
  create_ok : forall m s k, is_Some (create_event m s k).2;
  dup_ok : forall f k, is_Some (object_of f k) -> 0 <= (dup_fd f k).2;
}.

(** Stream sockets and signals, for the pipes.  [recv_nb] is a non-blocking
    [recv]: the bytes, or the errno; [wait_readable] is [poll] with its timeout in
    milliseconds. *)
Class Sockets (K : Type) : Type := {
  socketpair : K -> K * option (Z * Z);
  send_bytes : Z -> list Z -> K -> K * Z;
  recv_nb : Z -> Z -> K -> K * (list Z + Z);
  wait_readable : Z -> Z -> K -> K * bool;
  tgkill : Z -> Z -> Z -> K -> K;
}.

(** Files.  [pread] gives the bytes or a failure, [pwrite] the number of bytes that
    were written or -1, [read_file] and [write_file] also the errno; [open_file] takes the bytes of the path and the flags. *)
Record FileStat : Type := mkStat { st_mode : Z; st_size : Z; st_blocks : Z; st_nlink : Z }.
Class Files (K : Type) : Type := {
  pread : Z -> nat -> Z -> K -> option (list Z);
  pwrite : Z -> list Z -> Z -> K -> K * Z;
  read_file : Z -> nat -> K -> K * (list Z + Z);
  write_file : Z -> list Z -> K -> K * (Z + Z);
  fstat : Z -> K -> option FileStat;
  stat_path : list Z -> K -> option FileStat;
  lseek_cur : Z -> K -> Z;
  ftruncate : Z -> Z -> K -> K * bool;
  memfd_create : K -> K * Z;
  mmap_shared : Z -> K -> K * bool;
  dup_min : Z -> Z -> K -> K * Z;
  open_file : list Z -> Z -> K -> K * Z;
  create_dir_all : list Z -> K -> K;
  read_link : Z -> K -> option (list Z);
}.

Section ops.
Context {K : Type} `{Ntsync K}.

(** [do_wait_inner]: [all] selects the ioctl; [alert] is 0 when there is none. *)
Definition do_wait_inner (all : bool) (obj_fds : list Z) (timeout_ns owner alert : Z) (k : K) : K * WaitResult :=
  match obj_fds with
  | [] => (k, Timeout)
  | _ =>
      let fds := map u32 obj_fds in
      match ioctl_wait all fds timeout_ns owner alert k with
      | (k', inl index) =>
          if decide (alert <> 0 /\ index = u32 (Z.of_nat (length fds))) then (k', Alerted) else (k', Signaled index)
      | (k', inr e) =>
          if decide (e = ETIMEDOUT) then (k', Timeout)
          else if decide (e = ECANCELED) then (k', Alerted) else (k', WaitError)
      end
  end.

Definition wait_any (fds : list Z) (timeout_ns owner : Z) : K -> K * WaitResult :=
  do_wait_inner false fds timeout_ns owner 0.
Definition wait_all (fds : list Z) (timeout_ns owner : Z) : K -> K * WaitResult :=
  do_wait_inner true fds timeout_ns owner 0.
Definition wait_any_blocking (fds : list Z) (timeout_ns owner alert_fd : Z) : K -> K * WaitResult :=
  do_wait_inner false fds timeout_ns owner (u32 alert_fd).
Definition wait_all_blocking (fds : list Z) (timeout_ns owner alert_fd : Z) : K -> K * WaitResult :=
  do_wait_inner true fds timeout_ns owner (u32 alert_fd).

(** Several [event_set] calls in order, and several [close] calls. *)
Definition set_all (fds : list Z) (k : K) : K := fold_left (fun k f => (event_set f k).1) fds k.
Definition close_all (fds : list Z) (k : K) : K := fold_left (fun k f => close_fd f k) fds k.

Lemma set_all_app l1 l2 k : set_all (l1 ++ l2) k = set_all l2 (set_all l1 k).
Proof. apply fold_left_app. Qed.

Context `{!NtsyncLaws K}.

Lemma set_all_keeps fds g k : event_read g k = Some (1, 1) -> event_read g (set_all fds k) = Some (1, 1).
Proof. revert k; induction fds as [|f fds IH]; intros k Hg; [done|]. apply IH. by apply set_keeps. Qed.

Lemma set_all_signals fds f s k : f ∈ fds -> event_read f k = Some (1, s) -> event_read f (set_all fds k) = Some (1, 1).
Proof.
  revert s k; induction fds as [|g fds IH]; intros s k Hin Hr; [by apply elem_of_nil in Hin|].
  change (event_read f (set_all fds (event_set g k).1) = Some (1, 1)). apply elem_of_cons in Hin as [->|Hin].
  - apply set_all_keeps. by eapply set_signals.
  - destruct (set_manual g f s k Hr) as [s' Hs']. by apply (IH s').
Qed.

End ops.
End Ntsync.

(** ** A concrete kernel *)
Module ModelKernel.
Import Ntsync.

Inductive kobj : Type :=
| KEvent (manual signaled : Z)
| KSem (count max : Z)
| KMutex (owner count : Z)
| KPlain.

(** [files]: what an open descriptor refers to.  [streams] has the bytes a socket
    can read and [peers] the other end; [contents], [offsets] and [paths] are those
    of the files on disk. *)
Record MK : Type := mkMK {
  files : gmap Z Z; objects : gmap Z kobj; next : Z; written : list (Z * list Z);
  streams : gmap Z (list Z); peers : gmap Z Z; signals : list (Z * Z * Z);
  contents : gmap Z (list Z); offsets : gmap Z Z; paths : gmap (list Z) Z; dirs : gset (list Z) }.
#[export] Instance set_files : Setter files := _.
#[export] Instance set_objects : Setter objects := _.
#[export] Instance set_next : Setter next := _.
#[export] Instance set_written : Setter written := _.
#[export] Instance set_streams : Setter streams := _.
#[export] Instance set_peers : Setter peers := _.
#[export] Instance set_signals : Setter signals := _.
#[export] Instance set_contents : Setter contents := _.
#[export] Instance set_offsets : Setter offsets := _.
#[export] Instance set_paths : Setter paths := _.
#[export] Instance set_dirs : Setter dirs := _.

(** A number above every key. *)
Definition above {A} (m : gmap Z A) (n : Z) : Z := foldr (fun kv n => Z.max (kv.1 + 1) n) n (map_to_list m).
Definition slot (k : MK) : Z := above (files k) (above (objects k) (Z.max 0 (next k))).

Definition obj (f : Z) (k : MK) : option kobj := files k !! f ≫= fun o => objects k !! o.
Definition open_obj (o : kobj) (k : MK) : MK * Z :=
  let n := slot k in
  (k <| files ::= <[n := n]> |> <| objects ::= <[n := o]> |> <| next := n + 1 |>, n).
Definition put (f : Z) (o : kobj) (k : MK) : MK :=
  match files k !! f with
  | Some i => k <| objects ::= <[i := o]> |>
  | None => k
  end.
Definition read_event (f : Z) (k : MK) : option (Z * Z) :=
  match obj f k with Some (KEvent m s) => Some (m, s) | _ => None end.
Definition update_event (s' : Z) (f : Z) (k : MK) : MK * (Z + Z) :=
  match obj f k with
  | Some (KEvent m s) => (put f (KEvent m s') k, inl s)
  | _ => (k, inr 22)
  end.
(** Whether owner [t] may take the object, and the object afterwards. *)
Definition take_obj (t : Z) (o : kobj) : option kobj :=
  match o with
  | KEvent m s => if decide (s = 0) then None else Some (KEvent m (if decide (m = 0) then 0 else s))
  | KSem c m => if decide (c = 0) then None else Some (KSem (c - 1) m)
  | KMutex w c => if decide (c = 0 \/ w = t) then Some (KMutex t (c + 1)) else None
  | KPlain => None
  end.
Fixpoint poll_any (i : Z) (fds : list Z) (t : Z) (k : MK) : MK * (Z + Z) :=
  match fds with
  | [] => (k, inr ETIMEDOUT)
  | f :: fds' =>
      match obj f k ≫= take_obj t with
      | Some o => (put f o k, inl i)
      | None => poll_any (i + 1) fds' t k
      end
  end.

#[export] Instance model_ntsync : Ntsync MK := {
  eventfd := open_obj KPlain;
  dup_fd := fun f k =>
    match files k !! f with
    | Some i => let n := slot k in (k <| files ::= <[n := i]> |> <| next := n + 1 |>, n)
    | None => (k, -1)
    end;
  close_fd := fun f k => k <| files ::= delete f |>;
  write_fd := fun f bs k => k <| written ::= fun l => l ++ [(f, bs)] |>;
  create_event := fun m s k => let '(k', f) := open_obj (KEvent (b2z m) (b2z s)) k in (k', Some f);
  create_sem := fun c m k => let '(k', f) := open_obj (KSem c m) k in (k', Some f);
  create_mutex := fun w c k => let '(k', f) := open_obj (KMutex w c) k in (k', Some f);
  event_set := update_event 1;
  event_reset := update_event 0;
  event_pulse := update_event 0;
  sem_release := fun f n k =>
    match obj f k with
    | Some (KSem c m) => if decide (c + n <= m) then (put f (KSem (c + n) m) k, inl c) else (k, inr 75)
    | _ => (k, inr 22)
    end;
  mutex_unlock := fun f t k =>
    match obj f k with
    | Some (KMutex w c) => if decide (w = t /\ c <> 0) then (put f (KMutex (if decide (c = 1) then 0 else w) (c - 1)) k, inl c) else (k, inr 1)
    | _ => (k, inr 22)
    end;
  mutex_kill := fun f t k =>
    match obj f k with
    | Some (KMutex w c) => if decide (w = t) then (put f (KMutex 0 0) k, inl 0) else (k, inr 1)
    | _ => (k, inr 22)
    end;
  event_read := read_event;
  mutex_read := fun f k => match obj f k with Some (KMutex w c) => Some (w, c) | _ => None end;
  sem_read := fun f k => match obj f k with Some (KSem c m) => Some (c, m) | _ => None end;
  ioctl_wait := fun all fds timeout t alert k => poll_any 0 fds t k;
}.

#[export] Instance model_sockets : Sockets MK := {
  socketpair := fun k =>
    let '(k, a) := open_obj KPlain k in
    let '(k, b) := open_obj KPlain k in
    (k <| peers ::= fun m => <[a := b]> (<[b := a]> m) |>, Some (a, b));
  send_bytes := fun f bs k =>
    match files k !! f ≫= fun o => peers k !! o with
    | Some p => (k <| streams ::= fun m => <[p := default [] (m !! p) ++ bs]> m |>, Z.of_nat (length bs))
    | None => (k, -1)
    end;
  recv_nb := fun f n k =>
    match files k !! f with
    | Some o =>
        match default [] (streams k !! o) with
        | [] => (k, inr 11)
        | bs => (k <| streams ::= <[o := drop (Z.to_nat n) bs]> |>, inl (take (Z.to_nat n) bs))
        end
    | None => (k, inr 9)
    end;
  wait_readable := fun f ms k => (k, bool_decide (files k !! f ≫= (fun o => streams k !! o) ∉ [None; Some []]));
  tgkill := fun p t s k => k <| signals ::= fun l => l ++ [(p, t, s)] |>;
}.

(** A socket takes [CAPACITY] bytes that are not read yet. *)
Definition CAPACITY : nat := 64.

Definition content (f : Z) (k : MK) : option (list Z) := files k !! f ≫= fun o => contents k !! o.
Definition put_content (f : Z) (c : list Z) (k : MK) : MK :=
  match files k !! f with Some o => k <| contents ::= <[o := c]> |> | None => k end.
(** The bytes with [bs] at [o], longer when they reach beyond the end. *)
Definition splice (o : nat) (bs c : list Z) : list Z := take o (c ++ replicate (o - length c) 0) ++ bs ++ drop (o + length bs) c.
Definition new_file (c : list Z) (k : MK) : MK * Z :=
  let n := slot k in
  let o := above (contents k) n in
  (k <| files ::= <[n := o]> |> <| contents ::= <[o := c]> |> <| next := o + 1 |>, n).

#[export] Instance model_files : Files MK := {
  pread := fun f n o k => (fun c => slice (Z.to_nat o) n c) <$> content f k;
  pwrite := fun f bs o k =>
    match content f k with Some c => (put_content f (splice (Z.to_nat o) bs c) k, Z.of_nat (length bs)) | None => (k, -1) end;
  read_file := fun f n k =>
    match files k !! f, content f k with
    | Some o, Some c =>
        let p := default 0 (offsets k !! o) in
        let bs := slice (Z.to_nat p) n c in (k <| offsets ::= <[o := p + Z.of_nat (length bs)]> |>, inl bs)
    | _, _ => (k, inr 9)
    end;
  write_file := fun f bs k =>
    match files k !! f ≫= fun o => peers k !! o, content f k with
    | Some p, _ =>
        let room := (CAPACITY - length (default [] (streams k !! p)))%nat in
        if decide (room = 0%nat) then (k, inr 11)
        else let bs := take room bs in (k <| streams ::= fun m => <[p := default [] (m !! p) ++ bs]> m |>, inl (Z.of_nat (length bs)))
    | None, Some c => (put_content f (c ++ bs) k, inl (Z.of_nat (length bs)))
    | None, None => (k, inr 9)
    end;
  fstat := fun f k =>
    match content f k with
    | Some c => Some (mkStat 0x8000 (Z.of_nat (length c)) (Z.of_nat (length c) / 512 + 1) 1)
    | None => (fun _ => mkStat 0x2000 0 0 1) <$> files k !! f
    end;
  stat_path := fun p k => if decide (p ∈ dirs k) then Some (mkStat 0x4000 0 0 1) else (fun _ => mkStat 0x8000 0 0 1) <$> paths k !! p;
  lseek_cur := fun f k => match files k !! f with Some o => default 0 (offsets k !! o) | None => -1 end;
  ftruncate := fun f n k =>
    match content f k with
    | Some c => (put_content f (take (Z.to_nat n) (c ++ replicate (Z.to_nat n - length c) 0)) k, true)
    | None => (k, false)
    end;
  memfd_create := new_file [];
  mmap_shared := fun f k => (k, true);
  dup_min := fun f n k =>
    match files k !! f with
    | Some i => let m := Z.max n (slot k) in (k <| files ::= <[m := i]> |> <| next := m + 1 |>, m)
    | None => (k, -1)
    end;
  open_file := fun p flags k =>
    match paths k !! p with
    | Some o => let n := slot k in (k <| files ::= <[n := o]> |> <| next := n + 1 |>, n)
    | None => if Z.testbit flags 6 then let '(k', f) := new_file [] k in (k' <| paths ::= <[p := above (contents k) (slot k)]> |>, f)
              else if decide (p ∈ dirs k) then open_obj KPlain k else (k, -1)
    end;
  create_dir_all := fun p k => k <| dirs ::= fun s => {[p]} ∪ s |>;
  read_link := fun f k => files k !! f ≫= fun o => fst <$> head (filter (fun po => po.2 = o) (map_to_list (paths k)));
}.

Definition boot : MK := mkMK ∅ ∅ 3 [] ∅ ∅ [] ∅ ∅ ∅ ∅.

Lemma above_spec {A} (m : gmap Z A) n : n <= above m n /\ forall i, is_Some (m !! i) -> i < above m n.
Proof.
  unfold above. assert (forall l, n <= foldr (fun kv n => Z.max (kv.1 + 1) n) n l /\
    forall i (x : A), (i, x) ∈ l -> i < foldr (fun kv n => Z.max (kv.1 + 1) n) n l) as Hl.
  { induction l as [|[j y] l [IH1 IH2]]; cbn; [split; [lia|by intros ? ? ?%elem_of_nil]|]. split; [lia|].
    intros i x [[= -> ->]|Hi]%elem_of_cons; [lia|]. specialize (IH2 i x Hi). lia. }
  split; [apply Hl|]. intros i [x Hx]. apply (proj2 (Hl _) i x). by apply elem_of_map_to_list.
Qed.

Lemma slot_fresh k : files k !! slot k = None /\ objects k !! slot k = None.
Proof.
  unfold slot. destruct (above_spec (files k) (above (objects k) (Z.max 0 (next k)))) as [H1 H2].
  destruct (above_spec (objects k) (Z.max 0 (next k))) as [H3 H4]. split; apply eq_None_not_Some; intros Hi.
  - apply H2 in Hi. lia.
  - apply H4 in Hi. lia.
Qed.

Lemma read_put f g o k :
  is_Some (files k !! f) ->
  read_event g (put f o k) =
    if decide (files k !! g = files k !! f) then match o with KEvent m s => Some (m, s) | _ => None end
    else read_event g k.
Proof.
  intros [i Hi]. unfold read_event, obj, put. rewrite Hi. simpl.
  destruct (files k !! g) as [j|]; simpl; [|done].
  destruct (decide (Some j = Some i)) as [[= ->]|Hne]; [by rewrite lookup_insert_eq|].
  by rewrite lookup_insert_ne by congruence.
Qed.

Lemma read_update s' f g k :
  read_event g (update_event s' f k).1 =
    match obj f k with
    | Some (KEvent m s) => if decide (files k !! g = files k !! f) then Some (m, s') else read_event g k
    | _ => read_event g k
    end.
Proof.
  unfold update_event. destruct (obj f k) as [[m s| | |]|] eqn:Ho; try done. simpl. rewrite read_put; [done|].
  unfold obj in Ho. destruct (files k !! f); [eauto|done].
Qed.

Lemma read_same f g k : files k !! g = files k !! f -> read_event g k = read_event f k.
Proof. intros He. unfold read_event, obj. by rewrite He. Qed.

Lemma read_obj f k m s : read_event f k = Some (m, s) -> obj f k = Some (KEvent m s).
Proof. unfold read_event. destruct (obj f k) as [[| | |]|]; congruence. Qed.

#[export] Instance model_laws : NtsyncLaws MK.
Proof.
  constructor; simpl.
  - intros f s k Hr. rewrite read_update, (read_obj _ _ _ _ Hr). by rewrite decide_True.
  - intros f g k Hr. rewrite read_update. destruct (obj f k) as [[m s| | |]|] eqn:Ho; try done.
    case_decide as He; [|done]. rewrite (read_same f g k He) in Hr. apply read_obj in Hr. congruence.
  - intros f g s k Hr. rewrite read_update. destruct (obj f k) as [[m s0| | |]|] eqn:Ho; eauto.
    case_decide as He; [|eauto]. rewrite (read_same f g k He) in Hr. apply read_obj in Hr.
    assert (m = 1) as -> by congruence. eauto.
  - intros f m s k Hr. rewrite read_update, (read_obj _ _ _ _ Hr). by rewrite decide_True.
  - intros m s k k' f [= <- <-]. unfold read_event, obj, open_obj. cbn. by rewrite lookup_insert_eq; cbn; rewrite lookup_insert_eq.
Qed.

Lemma obj_open o g k : is_Some (files k !! g) -> files (open_obj o k).1 !! g = files k !! g.
Proof.
  intros Hg. cbn. rewrite lookup_insert_ne; [done|]. intros <-. destruct (slot_fresh k) as [Hf _]. rewrite Hf in Hg.
  by destruct Hg.
Qed.

Lemma read_open o g k : is_Some (obj g k) -> read_event g (open_obj o k).1 = read_event g k.
Proof.
  intros [x Hx]. unfold read_event, obj in *. destruct (files k !! g) as [i|] eqn:Hi; [|done]. cbn in Hx.
  rewrite obj_open, Hi by (rewrite Hi; eauto). cbn. rewrite lookup_insert_ne; [done|]. intros <-.
  destruct (slot_fresh k) as [_ Ho]. congruence.
Qed.

(** The object behind a descriptor. *)
Definition object_behind (f : Z) (k : MK) : option Z := files k !! f ≫= fun i => (fun _ => i) <$> objects k !! i.

Lemma object_behind_Some f k i : object_behind f k = Some i <-> files k !! f = Some i /\ is_Some (objects k !! i).
Proof.
  unfold object_behind. destruct (files k !! f) as [j|]; cbn; [|split; [done|by intros [? _]]].
  destruct (objects k !! j) eqn:Ho; cbn; split.
  - intros [= ->]. rewrite Ho. eauto.
  - by intros [[= ->] _].
  - done.
  - intros [[= ->] [x Hx]]. congruence.
Qed.

Lemma object_behind_read f g k : object_behind f k = object_behind g k -> read_event f k = read_event g k.
Proof.
  unfold object_behind, read_event, obj. destruct (files k !! f) as [i|], (files k !! g) as [j|]; cbn; try done.
  - destruct (objects k !! i) eqn:Hi, (objects k !! j) eqn:Hj; cbn; try done. intros [= ->]. rewrite Hi in Hj. by injection Hj as ->.
  - by destruct (objects k !! i).
  - by destruct (objects k !! j).
Qed.

Lemma object_behind_open o g k : is_Some (object_behind g k) ->
  object_behind g (open_obj o k).1 = object_behind g k /\ read_event g (open_obj o k).1 = read_event g k.
Proof.
  intros [i Hi]. pose proof Hi as [Hf [x Hx]]%object_behind_Some. split.
  - rewrite Hi. apply object_behind_Some. rewrite obj_open by (rewrite Hf; eauto). split; [done|]. cbn.
    destruct (decide (slot k = i)) as [->|]; [rewrite lookup_insert_eq|rewrite lookup_insert_ne]; eauto.
  - apply read_open. unfold obj. rewrite Hf. cbn. eauto.
Qed.

#[export] Instance model_objects : ObjectLaws MK.
Proof.
  refine {| object_of := object_behind |}.
  - apply object_behind_read.
  - intros f g k. cbn. unfold update_event. destruct (obj f k) as [[m s| | |]|] eqn:Ho; try done. cbn. unfold put.
    destruct (files k !! f) as [j|] eqn:Hj; [|done]. unfold object_behind. cbn. destruct (files k !! g) as [i|]; cbn; [|done].
    destruct (decide (j = i)) as [->|]; [|by rewrite lookup_insert_ne]. rewrite lookup_insert_eq.
    unfold obj in Ho. rewrite Hj in Ho. cbn in Ho. by rewrite Ho.
  - intros f k k' d. cbn. destruct (files k !! f) as [i|] eqn:Hi; [|intros [= <- <-]; lia]. intros [= <- <-] _.
    destruct (slot_fresh k) as [Hf Ho]. unfold object_behind. cbn. by rewrite Hi, Hf, lookup_insert_eq.
  - intros f g k [i Hi]. cbn. destruct (files k !! f) as [j|]; [|done]. apply object_behind_Some in Hi as [Hg Hx].
    assert (slot k <> g) as Hne. { intros <-. destruct (slot_fresh k) as [Hf _]. congruence. }
    unfold object_behind, read_event, obj. cbn. by rewrite lookup_insert_ne.
  - intros m s k k' f [= <- <-]. destruct (slot_fresh k) as [Hf Ho]. unfold object_behind. cbn.
    rewrite Hf, !lookup_insert_eq. cbn. rewrite lookup_insert_eq. eauto.
  - intros m s g k. apply (object_behind_open (KEvent (b2z m) (b2z s))).
  - intros g k. apply (object_behind_open KPlain).
  - intros f g k Hne. unfold object_behind. cbn. unfold read_event, obj. cbn. by rewrite lookup_delete_ne.
Defined.

Lemma slot_nonneg k : 0 <= slot k.
Proof.
  unfold slot. destruct (above_spec (files k) (above (objects k) (Z.max 0 (next k)))) as [H1 _].
  destruct (above_spec (objects k) (Z.max 0 (next k))) as [H3 _]. lia.
Qed.

#[export] Instance model_reliable : Reliable MK.
Proof.
  constructor.
  - intros k. apply slot_nonneg.
  - intros m s k. cbn. eauto.
  - intros f k [i [Hi _]%object_behind_Some]. cbn. rewrite Hi. apply slot_nonneg.
Qed.

End ModelKernel.

(** ** Clients *)
Module Ipc.

Record Client : Type := mkClient {
  c_fd : Z;
  msg_fd : Z;
  reply_fd : option Z;
  process_id : Z;
  thread_id : Z;
  suspend_cookie : Z;
  current_wait_cookie : Z;
  pending_fd : option (Z * Z);
  inflight_fds : list (Z * Z * Z);
  wait_fd : option Z;
  queue_locator : list Z;
  input_locator : list Z;
  queue_handle : Z;
  teb : Z;
  entry_point : Z;
  unix_pid : Z;
  unix_tid : Z;
  queue_fd : option Z;
  is_phantom : bool;
  is_msg_primary : bool;
}.

Definition new (request_fd msg_fd : Z) : Client :=
  {| c_fd := request_fd; msg_fd := msg_fd; reply_fd := None; process_id := 0; thread_id := 0; suspend_cookie := 0;
     current_wait_cookie := 0; pending_fd := None; inflight_fds := []; wait_fd := None;
     queue_locator := replicate 16 0; input_locator := replicate 16 0; queue_handle := 0; teb := 0;
     entry_point := 0; unix_pid := 0; unix_tid := 0; queue_fd := None; is_phantom := false; is_msg_primary := true |}.

Definition take_inflight_fd (c : Client) : Client * option Z :=
  match inflight_fds c with
  | [] => (c, None)
  | (_, _, fd) :: rest => (c <| inflight_fds := rest |>, Some fd)
  end.

(** [position] and [VecDeque::remove]: the first entry with the number. *)
Fixpoint take_by_number (n : Z) (l : list (Z * Z * Z)) : option (Z * list (Z * Z * Z)) :=
  match l with
  | [] => None
  | (t, m, fd) :: rest =>
      if decide (m = n) then Some (fd, rest)
      else match take_by_number n rest with
           | Some (fd', rest') => Some (fd', (t, m, fd) :: rest')
           | None => None
           end
  end.
Definition take_inflight_fd_by_number (n : Z) (c : Client) : Client * option Z :=
  match take_by_number n (inflight_fds c) with
  | Some (fd, rest) => (c <| inflight_fds := rest |>, Some fd)
  | None => (c, None)
  end.

(** The descriptors closed when a client is dropped. *)
Definition drop_client (c : Client) : list Z :=
  option_list (reply_fd c) ++ option_list (wait_fd c) ++ option_list (queue_fd c) ++ (snd <$> inflight_fds c).

(** Taking a descriptor out of a client and dropping the client closes the same
    descriptors as dropping it at once: nothing is lost and nothing is doubled. *)
Lemma take_by_number_spec n l fd rest :
  take_by_number n l = Some (fd, rest) -> l.*2 ≡ₚ fd :: rest.*2.
Proof.
  revert rest; induction l as [|[[t m] f] l IH]; intros rest; cbn [take_by_number]; [done|].
  case_decide; [intros [= <- <-]; done|].
  destruct (take_by_number n l) as [[fd' rest']|] eqn:Ht; [|done]. intros [= <- <-].
  rewrite !fmap_cons, (IH rest' eq_refl). cbn [snd]. apply Permutation_swap.
Qed.
Lemma take_inflight_fd_by_number_keeps n c :
  let '(c', o) := take_inflight_fd_by_number n c in drop_client c ≡ₚ option_list o ++ drop_client c'.
Proof.
  unfold take_inflight_fd_by_number. destruct (take_by_number n (inflight_fds c)) as [[fd rest]|] eqn:Ht; [|done].
  unfold drop_client. cbn. rewrite (take_by_number_spec _ _ _ _ Ht). cbn. solve_Permutation.
Qed.

End Ipc.

(** ** The state of the event loop *)
Module Loop.
Import Ntsync Ipc HandleTable ServerState Replies.

Record CompletionMsg : Type := mkMsg { ckey : Z; cvalue : Z; information : Z; msg_status : Z }.
Record CompletionWaiter : Type := mkWaiter { w_client_fd : Z; w_pid : Z; wait_handle : Z }.
Record PendingRead : Type := mkPendingRead { pr_fd : Z; pr_max_bytes : Z }.
Record CompletedPipeRead : Type := mkCompletedPipeRead { cpr_client_fd : Z; cpr_data : list Z; cpr_pid : Z }.
Record AsyncPipeRead : Type := mkAsyncPipeRead {
  pipe_fd : Z; apr_max_bytes : Z; apr_pid : Z; apr_wait_handle : Z; apr_client_fd : Z }.
Record PendingWait : Type := mkPendingWait { deadline : Z; pw_client_fd : Z; pw_cookie : Z }.
Record WinTimer : Type := mkWinTimer { when_ : Z; rate_ms : Z; win : Z; timer_msg : Z; timer_id : Z; lparam : Z }.
Record WindowState : Type := mkWindowState {
  style : Z; ex_style : Z; is_unicode : Z; owner : Z; parent : Z; ws_tid : Z; win_id : Z; instance : Z;
  user_data : Z; dpi_context : Z; window_rect : list Z; client_rect : list Z; visible_rect : list Z;
  surface_rect : list Z; paint_flags : Z; needs_paint : bool; window_text : list Z; extra_bytes : list Z }.
Record Job : Type := mkJob {
  job_processes : list Z; num_processes : Z; total_processes : Z; limit_flags : Z;
  completion_port_handle : option Z; completion_key : Z }.
Record ProcessInfoHandle : Type := mkProcessInfoHandle { target_pid : Z; pi_parent_pid : Z; ntsync_obj_fd : Z }.
Record PipeListenAsync : Type := mkPipeListenAsync {
  server_client_fd : Z; cookie : Z; user : Z; sb : Z; async_event : Z; user_arg : Z }.
Inductive PipeState : Type := Listening | Connected.
Record NamedPipeInfo : Type := mkNamedPipeInfo {
  server_pid : Z; server_handle : Z; client_data_fd : Z; pipe_state : PipeState;
  listen_event : option (Z * Z); listen_async : option PipeListenAsync }.
Record PendingPipeWaiter : Type := mkPendingPipeWaiter { ppw_pid : Z; ppw_wait_handle : Z }.

(** The fields of the loop that the window, input, desktop, token and file handlers
    use and no other component: [atom_table] is the [atoms], [atom_names] and
    [next_atom] of [state], and [named_objects] (object id and descriptor) and
    [mappings] are fields of [state] too; a pointer into the session map is its offset, or
    [None] when it is null. *)
Record UserState : Type := mkUserState {
  atom_table : Atoms.AtomTable;
  desktop_locator_id : Z;
  desktop_offset : Z;
  desktop_ready : bool;
  class_locators : gmap Z (list Z);
  class_client_ptrs : gmap Z Z;
  class_win_extra : gmap Z Z;
  monitor_serial : Z;
  winstation_names : gmap Z (list Z);
  user_sid : list Z;
  clipboard_seqno : Z;
  cursor_handle : Z;
  cursor_count : Z;
  cursor_x : Z;
  cursor_y : Z;
  cursor_clip : list Z;
  cursor_last_change : Z;
  keyboard_repeat : Z * Z * Z;
  monitor_rect : list Z;
  default_winstation_handle : Z;
  last_input_time : Z;
  pending_queue_fd_watches : list (Z * option Z * Z * Z);
  pending_queue_fd_rearms : list Z;
  named_objects : gmap Text.str (Z * Z);
  mappings : gmap Z ServerState.MappingInfo;
}.

(** What [EventLoop::new] starts from, for a screen of the given size. *)
Definition user_new (sid : list Z) (screen_w screen_h : Z) : UserState :=
  {| atom_table := Atoms.atoms_new; desktop_locator_id := 0x100; desktop_offset := 32 * 32744; desktop_ready := false;
     class_locators := ∅; class_client_ptrs := ∅; class_win_extra := ∅; monitor_serial := 1; winstation_names := ∅;
     user_sid := sid; clipboard_seqno := 0; cursor_handle := 0; cursor_count := 0; cursor_x := 0; cursor_y := 0;
     cursor_clip := replicate 16 0; cursor_last_change := 0; keyboard_repeat := (1, 500, 33);
     monitor_rect := replicate 8 0 ++ le_bytes 4 screen_w ++ le_bytes 4 screen_h; default_winstation_handle := 0;
     last_input_time := 0; pending_queue_fd_watches := []; pending_queue_fd_rearms := [];
     named_objects := ∅; mappings := ∅ |}.

(** Times are nanoseconds of the monotonic clock.  An ntsync object is its
    descriptor; [kernel] is the state of the operating system.  [timer] is what
    [timerfd_settime] last programmed, seconds and nanoseconds. *)
Record EventLoop {K : Type} : Type := mkEventLoop {
  kernel : K;
  clients : gmap Z Client;
  msg_fd_map : gmap Z Z;
  state : ServerState;
  process_info_handles : gmap Z ProcessInfoHandle;
  image_views : gmap (Z * Z) Z;
  registry : Registry.Registry;
  shm : Shm.ShmManager;
  pending_waits : list PendingWait;
  win_timers_pending : gmap Z (list WinTimer);
  win_timers_expired : gmap Z (list WinTimer);
  ntsync : bool;
  ntsync_objects : gmap (Z * Z) (Z * Z);
  ntsync_objects_created : Z;
  ntsync_recyclable : gset (Z * Z);
  named_sync : gmap Text.str (Z * Z);
  process_exit_events : gmap Z (list (Z * Z * Z));
  thread_exit_events : gmap Z (list (Z * Z * Z));
  kernel_object_ptrs : gmap (Z * Z * Z) Z;
  client_alerts : gmap Z Z;
  client_worker_interrupts : gmap Z Z;
  client_apc_flags : gmap Z bool;
  deferred_event_signals : gmap Z (list (Z * Z));
  side_tables : SideTables.HandleSideTables;
  system_pids : gset Z;
  shutdown_event : option Z;
  named_pipes : gmap Text.str (list NamedPipeInfo);
  pending_pipe_waiters : gmap Text.str (list PendingPipeWaiter);
  jobs : gmap Z Job;
  process_job : gmap Z Z;
  pending_wakes : gmap Z (list (Z * Z));
  session : gmap Z Z;
  session_fd : Z;
  session_mapped : bool;
  session_size : Z;
  usd : gmap Z Z;
  usd_mapped : bool;
  next_user_handle_index : Z;
  user_handle_free_list : list Z;
  next_shared_offset : Z;
  next_shared_id : Z;
  window_states : gmap Z WindowState;
  window_properties : gmap (Z * Z) Z;
  sent_messages : SentMessages.SentMessages;
  process_idle_events : gmap Z Z;
  completion_queues : gmap Z (list CompletionMsg);
  completion_waiters : gmap Z (list CompletionWaiter);
  thread_completion_cache : gmap Z CompletionMsg;
  pending_reads : gmap (Z * Z) PendingRead;
  completed_ioctls : gmap (Z * Z) Z;
  pending_kernel_apcs : gmap Z (list (list Z));
  thread_quit_state : gmap Z (Z * bool);
  caret_state : gmap Z (Z * list Z * Z * Z);
  clipboard_listeners : gset Z;
  next_timer_ids : gmap Z Z;
  linger_deadline : option Z;
  process_winstations : gmap Z Z;
  pending_pipe_reads : list AsyncPipeRead;
  completed_pipe_reads : list CompletedPipeRead;
  process_inflight_fds : gmap Z (list (Z * Z * Z));
  nt_timers : list (Z * Z * Z * Z);
  unnamed_pipe_client_handles : gmap Z Z;
  pending_pipe_watches : list (Z * Z);
  timer : Z * Z;
  unclaimed_pids : list Z;
  thread_handle_tids : gmap Z Z;
  boot_process_claimed : bool;
  desktop_top_window : Z;
  desktop_msg_window : Z;
  peak_clients : nat;
  user_state : UserState;
}.
Arguments EventLoop : clear implicits.

(** The setters behind the update notation, derived once. *)
#[export] Instance set_kernel K : Setter (@kernel K) := _.
#[export] Instance set_clients K : Setter (@clients K) := _.
#[export] Instance set_msg_fd_map K : Setter (@msg_fd_map K) := _.
#[export] Instance set_state K : Setter (@state K) := _.
#[export] Instance set_process_info_handles K : Setter (@process_info_handles K) := _.
#[export] Instance set_image_views K : Setter (@image_views K) := _.
#[export] Instance set_registry K : Setter (@registry K) := _.
#[export] Instance set_shm K : Setter (@shm K) := _.
#[export] Instance set_pending_waits K : Setter (@pending_waits K) := _.
#[export] Instance set_win_timers_pending K : Setter (@win_timers_pending K) := _.
#[export] Instance set_win_timers_expired K : Setter (@win_timers_expired K) := _.
#[export] Instance set_ntsync K : Setter (@ntsync K) := _.
#[export] Instance set_ntsync_objects K : Setter (@ntsync_objects K) := _.
#[export] Instance set_ntsync_objects_created K : Setter (@ntsync_objects_created K) := _.
#[export] Instance set_ntsync_recyclable K : Setter (@ntsync_recyclable K) := _.
#[export] Instance set_named_sync K : Setter (@named_sync K) := _.
#[export] Instance set_process_exit_events K : Setter (@process_exit_events K) := _.
#[export] Instance set_thread_exit_events K : Setter (@thread_exit_events K) := _.
#[export] Instance set_kernel_object_ptrs K : Setter (@kernel_object_ptrs K) := _.
#[export] Instance set_client_alerts K : Setter (@client_alerts K) := _.
#[export] Instance set_client_worker_interrupts K : Setter (@client_worker_interrupts K) := _.
#[export] Instance set_client_apc_flags K : Setter (@client_apc_flags K) := _.
#[export] Instance set_deferred_event_signals K : Setter (@deferred_event_signals K) := _.
#[export] Instance set_side_tables K : Setter (@side_tables K) := _.
#[export] Instance set_system_pids K : Setter (@system_pids K) := _.
#[export] Instance set_shutdown_event K : Setter (@shutdown_event K) := _.
#[export] Instance set_named_pipes K : Setter (@named_pipes K) := _.
#[export] Instance set_pending_pipe_waiters K : Setter (@pending_pipe_waiters K) := _.
#[export] Instance set_jobs K : Setter (@jobs K) := _.
#[export] Instance set_process_job K : Setter (@process_job K) := _.
#[export] Instance set_pending_wakes K : Setter (@pending_wakes K) := _.
#[export] Instance set_session K : Setter (@session K) := _.
#[export] Instance set_session_fd K : Setter (@session_fd K) := _.
#[export] Instance set_usd K : Setter (@usd K) := _.
#[export] Instance set_usd_mapped K : Setter (@usd_mapped K) := _.
#[export] Instance set_session_mapped K : Setter (@session_mapped K) := _.
#[export] Instance set_session_size K : Setter (@session_size K) := _.
#[export] Instance set_next_user_handle_index K : Setter (@next_user_handle_index K) := _.
#[export] Instance set_user_handle_free_list K : Setter (@user_handle_free_list K) := _.
#[export] Instance set_next_shared_offset K : Setter (@next_shared_offset K) := _.
#[export] Instance set_next_shared_id K : Setter (@next_shared_id K) := _.
#[export] Instance set_window_states K : Setter (@window_states K) := _.
#[export] Instance set_window_properties K : Setter (@window_properties K) := _.
#[export] Instance set_sent_messages K : Setter (@sent_messages K) := _.
#[export] Instance set_process_idle_events K : Setter (@process_idle_events K) := _.
#[export] Instance set_completion_queues K : Setter (@completion_queues K) := _.
#[export] Instance set_completion_waiters K : Setter (@completion_waiters K) := _.
#[export] Instance set_thread_completion_cache K : Setter (@thread_completion_cache K) := _.
#[export] Instance set_pending_reads K : Setter (@pending_reads K) := _.
#[export] Instance set_completed_ioctls K : Setter (@completed_ioctls K) := _.
#[export] Instance set_pending_kernel_apcs K : Setter (@pending_kernel_apcs K) := _.
#[export] Instance set_thread_quit_state K : Setter (@thread_quit_state K) := _.
#[export] Instance set_caret_state K : Setter (@caret_state K) := _.
#[export] Instance set_clipboard_listeners K : Setter (@clipboard_listeners K) := _.
#[export] Instance set_next_timer_ids K : Setter (@next_timer_ids K) := _.
#[export] Instance set_linger_deadline K : Setter (@linger_deadline K) := _.
#[export] Instance set_process_winstations K : Setter (@process_winstations K) := _.
#[export] Instance set_pending_pipe_reads K : Setter (@pending_pipe_reads K) := _.
#[export] Instance set_completed_pipe_reads K : Setter (@completed_pipe_reads K) := _.
#[export] Instance set_process_inflight_fds K : Setter (@process_inflight_fds K) := _.
#[export] Instance set_nt_timers K : Setter (@nt_timers K) := _.
#[export] Instance set_unnamed_pipe_client_handles K : Setter (@unnamed_pipe_client_handles K) := _.
#[export] Instance set_pending_pipe_watches K : Setter (@pending_pipe_watches K) := _.
#[export] Instance set_timer K : Setter (@timer K) := _.
#[export] Instance set_unclaimed_pids K : Setter (@unclaimed_pids K) := _.
#[export] Instance set_thread_handle_tids K : Setter (@thread_handle_tids K) := _.
#[export] Instance set_boot_process_claimed K : Setter (@boot_process_claimed K) := _.
#[export] Instance set_desktop_top_window K : Setter (@desktop_top_window K) := _.
#[export] Instance set_desktop_msg_window K : Setter (@desktop_msg_window K) := _.
#[export] Instance set_peak_clients K : Setter (@peak_clients K) := _.
#[export] Instance set_user_state K : Setter (@user_state K) := _.


(** Proves that an updated loop is the loop with certain fields changed: both
    sides become constructor applications, and the new values are read off. *)
Ltac norm_loop :=
  cbv beta iota delta [set RecordSettersUsingExistingGetters.const
    set_kernel set_clients set_msg_fd_map set_state set_process_info_handles set_image_views set_registry
    set_shm set_pending_waits set_win_timers_pending set_win_timers_expired set_ntsync set_ntsync_objects
    set_ntsync_objects_created set_ntsync_recyclable set_named_sync set_process_exit_events
    set_thread_exit_events set_kernel_object_ptrs set_client_alerts set_client_worker_interrupts
    set_client_apc_flags set_deferred_event_signals set_side_tables set_system_pids set_shutdown_event
    set_named_pipes set_pending_pipe_waiters set_jobs set_process_job set_pending_wakes set_session
    set_session_fd set_session_mapped set_session_size set_usd set_usd_mapped set_next_user_handle_index
    set_user_handle_free_list set_next_shared_offset set_next_shared_id set_window_states
    set_window_properties set_sent_messages set_process_idle_events set_completion_queues
    set_completion_waiters set_thread_completion_cache set_pending_reads set_completed_ioctls
    set_pending_kernel_apcs set_thread_quit_state set_caret_state set_clipboard_listeners set_next_timer_ids
    set_linger_deadline set_process_winstations set_pending_pipe_reads set_completed_pipe_reads
    set_process_inflight_fds set_nt_timers set_unnamed_pipe_client_handles set_pending_pipe_watches set_timer set_unclaimed_pids set_thread_handle_tids
    set_boot_process_claimed set_desktop_top_window set_desktop_msg_window set_peak_clients set_user_state kernel clients msg_fd_map state process_info_handles image_views
    registry shm pending_waits win_timers_pending win_timers_expired ntsync ntsync_objects
    ntsync_objects_created ntsync_recyclable named_sync process_exit_events thread_exit_events
    kernel_object_ptrs client_alerts client_worker_interrupts client_apc_flags deferred_event_signals
    side_tables system_pids shutdown_event named_pipes pending_pipe_waiters jobs process_job pending_wakes
    session session_fd session_mapped session_size usd usd_mapped next_user_handle_index user_handle_free_list
    next_shared_offset next_shared_id window_states window_properties sent_messages process_idle_events
    completion_queues completion_waiters thread_completion_cache pending_reads completed_ioctls
    pending_kernel_apcs thread_quit_state caret_state clipboard_listeners next_timer_ids linger_deadline
    process_winstations pending_pipe_reads completed_pipe_reads process_inflight_fds nt_timers
    unnamed_pipe_client_handles pending_pipe_watches timer unclaimed_pids thread_handle_tids boot_process_claimed
    desktop_top_window desktop_msg_window peak_clients user_state].
Ltac shape ev := destruct ev; repeat match goal with |- exists _, _ => eexists end; norm_loop; reflexivity.

Section loop.
Context {K : Type} `{Ntsync K}.
Implicit Types (ev : EventLoop K).

(** A loop over a given kernel with no client yet. *)
Definition empty_loop (dev : bool) (k : K) (sm : Shm.ShmManager) : EventLoop K :=
  {| kernel := k; clients := ∅; msg_fd_map := ∅; state := ServerState.new; process_info_handles := ∅;
     image_views := ∅; registry := Registry.empty_registry []; shm := sm; pending_waits := [];
     win_timers_pending := ∅; win_timers_expired := ∅; ntsync := dev; ntsync_objects := ∅;
     ntsync_objects_created := 0; ntsync_recyclable := ∅; named_sync := ∅; process_exit_events := ∅;
     thread_exit_events := ∅; kernel_object_ptrs := ∅; client_alerts := ∅; client_worker_interrupts := ∅;
     client_apc_flags := ∅; deferred_event_signals := ∅; side_tables := SideTables.new; system_pids := ∅;
     shutdown_event := None; named_pipes := ∅; pending_pipe_waiters := ∅; jobs := ∅; process_job := ∅;
     pending_wakes := ∅; session := ∅; session_fd := 3; session_mapped := true; session_size := 32 * 32744 + 4 * 1024 * 1024;
     usd := ∅; usd_mapped := true;
     next_user_handle_index := 0; user_handle_free_list := []; next_shared_offset := 32 * 32744 + 1024;
     next_shared_id := 0x101; window_states := ∅; window_properties := ∅; sent_messages := SentMessages.new;
     process_idle_events := ∅; completion_queues := ∅; completion_waiters := ∅; thread_completion_cache := ∅;
     pending_reads := ∅; completed_ioctls := ∅; pending_kernel_apcs := ∅; thread_quit_state := ∅;
     caret_state := ∅; clipboard_listeners := ∅; next_timer_ids := ∅; linger_deadline := None;
     process_winstations := ∅; pending_pipe_reads := []; completed_pipe_reads := []; process_inflight_fds := ∅;
     nt_timers := []; unnamed_pipe_client_handles := ∅; pending_pipe_watches := [];
     timer := (0, 0); unclaimed_pids := []; thread_handle_tids := ∅; boot_process_claimed := false;
     desktop_top_window := 0; desktop_msg_window := 0; peak_clients := 0%nat; user_state := user_new [] 1920 1080 |}.

(** *** Lookups *)
Definition client_thread_id ev (client_fd : Z) : option Z :=
  clients ev !! client_fd ≫= fun c => if decide (thread_id c <> 0) then Some (thread_id c) else None.

Definition client_pid ev (client_fd : Z) : Z :=
  default 0 (process_id <$> clients ev !! client_fd).

(** [clients.get(..).and_then(|c| if c.process_id != 0 ..)] *)
Definition nonzero_pid ev (client_fd : Z) : option Z :=
  clients ev !! client_fd ≫= fun c => if decide (process_id c <> 0) then Some (process_id c) else None.

(** [state.processes.get(&pid).and_then(|p| p.handles.get(handle))] *)
Definition handle_entry ev (pid handle : Z) : option HandleEntry :=
  processes (state ev) !! pid ≫= fun p => HandleTable.get (handles p) handle.

(** *** Kernel calls on the loop's state *)
Definition on_kernel {A} (f : K -> K * A) ev : EventLoop K * A :=
  let '(k, a) := f (kernel ev) in (ev <| kernel := k |>, a).

(** [if let Some((obj, _)) = self.ntsync_objects.get(key) { let _ = obj.event_set(); }] *)
Definition set_event (key : Z * Z) ev : EventLoop K :=
  match ntsync_objects ev !! key with
  | Some (obj, _) => ev <| kernel ::= fun k => (event_set obj k).1 |>
  | None => ev
  end.
Definition reset_event (key : Z * Z) ev : EventLoop K :=
  match ntsync_objects ev !! key with
  | Some (obj, _) => ev <| kernel ::= fun k => (event_reset obj k).1 |>
  | None => ev
  end.

(** [event_read().map(|(_, s)| s as i32).unwrap_or(0)] of a handle *)
Definition signaled_state ev (key : Z * Z) : Z :=
  match ntsync_objects ev !! key ≫= fun '(obj, _) => event_read obj (kernel ev) with
  | Some (_, s) => i32 s
  | None => 0
  end.

Definition get_or_create_event (manual signaled : bool) ev : EventLoop K * option Z :=
  if ntsync ev then on_kernel (create_event manual signaled) ev else (ev, None).

Definition insert_recyclable_event (pid handle obj sync_type : Z) ev : EventLoop K :=
  ev <| ntsync_objects ::= <[(pid, handle) := (obj, sync_type)]> |>
     <| ntsync_recyclable ::= fun s => {[(pid, handle)]} ∪ s |>
     <| ntsync_objects_created ::= fun n => u64 (n + 1) |>.

Definition remove_ntsync_obj (pid handle : Z) ev : EventLoop K :=
  ev <| ntsync_recyclable ::= fun s => s ∖ {[(pid, handle)]} |>.

Definition get_or_create_alert (client_fd : Z) ev : EventLoop K * Z :=
  match client_alerts ev !! client_fd with
  | Some alert => (ev, alert)
  | None =>
      match get_or_create_event true false ev with
      | (ev', Some obj) => (ev' <| client_alerts ::= <[client_fd := obj]> |>, obj)
      | (ev', None) => (ev', -1)
      end
  end.

Definition get_or_create_worker_interrupt (client_fd : Z) ev : EventLoop K * Z :=
  match client_worker_interrupts ev !! client_fd with
  | Some obj => (ev, obj)
  | None =>
      match get_or_create_event false false ev with
      | (ev', Some obj) => (ev' <| client_worker_interrupts ::= <[client_fd := obj]> |>, obj)
      | (ev', None) => (ev', -1)
      end
  end.

(** The flag is shared with the wait threads; [client_apc_flags] holds its value. *)
Definition get_or_create_apc_flag (client_fd : Z) ev : EventLoop K :=
  match client_apc_flags ev !! client_fd with
  | Some _ => ev
  | None => ev <| client_apc_flags ::= <[client_fd := false]> |>
  end.

(** *** Handle allocation *)
Definition alloc_object_id ev : EventLoop K * Z :=
  let '(st, oid) := ServerState.alloc_object_id (state ev) in (ev <| state := st |>, oid).

Definition with_handles (pid : Z) (t : HandleTable.HandleTable) ev : EventLoop K :=
  ev <| state ::= fun st => st <| processes ::= alter (fun p => p <| handles := t |>) pid |> |>.

(** [process.handles.allocate_full(entry)] when the process exists *)
Definition allocate_in (pid : Z) (e : HandleEntry) ev : EventLoop K * option Z :=
  match processes (state ev) !! pid with
  | Some p => let '(t, h) := allocate_full (handles p) e in (with_handles pid t ev, Some h)
  | None => (ev, None)
  end.

Definition alloc_handle_for_client (client_fd object_id : Z) ev : EventLoop K * Z :=
  match nonzero_pid ev client_fd with
  | Some pid =>
      match processes (state ev) !! pid with
      | Some p => let '(t, h) := allocate (handles p) object_id in (with_handles pid t ev, h)
      | None => (ev, 0)
      end
  | None => (ev, 0)
  end.

Definition FD_TYPE_FILE : Z := 1.
Definition FD_TYPE_DIR : Z := 2.
Definition FD_TYPE_SOCKET : Z := 3.
Definition FD_TYPE_CHAR : Z := 7.

Definition alloc_waitable_handle_for_client (client_fd : Z) ev : EventLoop K * Z :=
  let '(ev1, oid) := alloc_object_id ev in
  let '(ev2, efd) := on_kernel eventfd ev1 in
  if decide (efd < 0) then (ev2, 0)
  else
    match nonzero_pid ev2 client_fd with
    | Some pid =>
        match allocate_in pid (with_fd oid efd FD_TYPE_FILE 0x001F0003 0x20) ev2 with
        | (ev3, Some h) => (ev3, h)
        | (ev3, None) => (ev3 <| kernel ::= close_fd efd |>, 0)
        end
    | None => (ev2 <| kernel ::= close_fd efd |>, 0)
    end.

Definition status_reply (e : Z) : Reply := reply_fixed (header_bytes (mkReplyHeader e 0)).

(** *** What the helpers promise *)
Lemma set_event_kernel key ev :
  kernel (set_event key ev) = set_all (option_list (fst <$> ntsync_objects ev !! key)) (kernel ev).
Proof. unfold set_event. by destruct (ntsync_objects ev !! key) as [[obj ?]|]. Qed.

Lemma set_event_frame {A} (g : EventLoop K -> A) key ev :
  (forall k, g (ev <| kernel := k |>) = g ev) -> g (set_event key ev) = g ev.
Proof. intros Hg. unfold set_event. destruct (ntsync_objects ev !! key) as [[obj ?]|]; [apply Hg|done]. Qed.

Lemma handle_entry_with_handles pid t ev p h :
  is_Some (processes (state ev) !! pid) ->
  handle_entry (with_handles pid t ev) p h = if decide (p = pid) then HandleTable.get t h else handle_entry ev p h.
Proof.
  intros [pr Hpr]. unfold handle_entry, with_handles. recs. case_decide as Hd.
  - subst p. by rewrite lookup_alter_eq, Hpr.
  - by rewrite lookup_alter_ne.
Qed.

Lemma get_live (t : HandleTable.HandleTable) h : HandleTable.get t h = live_map t !! Z.to_nat (index_of h).
Proof. apply Slab.HeapSlab.get_unchecked_abs. Qed.

(** Every process of the loop has a well-formed handle table. *)
Definition tables_ok ev : Prop :=
  forall pid p, processes (state ev) !! pid = Some p -> HandleTable.wf (handles p).

(** There is room for one more handle. *)
Definition has_room (p : Process) : Prop :=
  Z.of_nat (length (Slab.HeapSlab.slots (HandleTable.slab (handles p)))) < MAX_HANDLES.

Lemma allocate_full_facts (t : HandleTable.HandleTable) e :
  HandleTable.wf t -> Z.of_nat (length (Slab.HeapSlab.slots (HandleTable.slab t))) < MAX_HANDLES ->
  exists t' h, allocate_full t e = (t', h) /\ h <> 0 /\ in_u32 h /\ HandleTable.wf t' /\ HandleTable.get t h = None /\
    (forall h', HandleTable.get t' h' = if decide (index_of h' = index_of h) then Some e else HandleTable.get t h') /\
    length (Slab.HeapSlab.slots (HandleTable.slab t')) = S (length (Slab.HeapSlab.slots (HandleTable.slab t))).
Proof.
  intros Hwf Hroom. destruct (allocate_full_spec t e Hwf Hroom) as (t' & -> & Hwf' & Hlive & Hlen).
  set (n := length (Slab.HeapSlab.slots (HandleTable.slab t))) in *.
  assert (0 <= Z.of_nat n < MAX_HANDLES) as Hn by lia.
  assert (0 < Z.of_nat n) as Hpos by (pose proof (wf_zero _ Hwf); lia).
  pose proof (index_of_handle _ Hn) as Hidx.
  assert (0 < handle_of (Z.of_nat n) < 2 ^ 32) as Hr.
  { unfold handle_of, MAX_HANDLES in *. rewrite Z.shiftl_mul_pow2 by lia. rewrite u32_small by word_lia. lia. }
  eexists _, _. split; [done|]. split_and!; [lia|word_lia|done| | |done].
  - rewrite get_live, Hidx, Nat2Z.id. apply Slab.HeapSlab.abs_fresh. done.
  - intros h'. rewrite !get_live, Hlive. case_decide as He.
    + by rewrite He, Hidx, Nat2Z.id, lookup_insert_eq.
    + destruct (decide (Z.to_nat (index_of h') = n)) as [Heq|Hne]; [|by rewrite lookup_insert_ne].
      exfalso. apply He. rewrite Hidx. lia.
Qed.

Lemma allocate_in_spec pid e ev p :
  processes (state ev) !! pid = Some p -> HandleTable.wf (handles p) -> has_room p ->
  exists t h, allocate_in pid e ev = (with_handles pid t ev, Some h) /\ h <> 0 /\ in_u32 h /\
    HandleTable.wf t /\ HandleTable.get (handles p) h = None /\
    forall h', HandleTable.get t h' = if decide (index_of h' = index_of h) then Some e else HandleTable.get (handles p) h'.
Proof.
  intros Hp Hwf Hroom. unfold allocate_in. rewrite Hp.
  destruct (allocate_full_facts (handles p) e Hwf Hroom) as (t & h & -> & Hh & Hu & Hwf' & Hf & Hg & _).
  exists t, h. by split_and!.
Qed.

(** The new handle refers to an entry of its own; the other handles stay. *)
Lemma alloc_waitable_full client_fd ev pid p :
  nonzero_pid ev client_fd = Some pid -> processes (state ev) !! pid = Some p -> HandleTable.wf (handles p) ->
  has_room p -> 0 <= (eventfd (kernel ev)).2 ->
  exists st h t, alloc_waitable_handle_for_client client_fd ev =
      (ev <| kernel := (eventfd (kernel ev)).1 |> <| state := st |>, h) /\ h <> 0 /\ in_u32 h /\
    (forall q, q <> pid -> processes st !! q = processes (state ev) !! q) /\ all_threads st = all_threads (state ev) /\
    processes st !! pid = Some (p <| handles := t |>) /\ HandleTable.wf t /\ HandleTable.get (handles p) h = None /\
    (forall h', HandleTable.get t h' = if decide (index_of h' = index_of h)
       then Some (with_fd (next_object_id (state ev)) (eventfd (kernel ev)).2 FD_TYPE_FILE 0x001F0003 0x20)
       else HandleTable.get (handles p) h').
Proof.
  intros Hc Hp Hwf Hroom Hk. unfold alloc_waitable_handle_for_client, alloc_object_id, ServerState.alloc_object_id, on_kernel.
  cbn beta iota zeta. set (st1 := mkServerState _ _ _ _).
  change (kernel (ev <| state := st1 |>)) with (kernel ev). destruct (eventfd (kernel ev)) as [k f]. cbn [fst snd] in *.
  rewrite decide_False by lia. match goal with |- context [nonzero_pid ?e client_fd] => change (nonzero_pid e client_fd) with (nonzero_pid ev client_fd) end.
  rewrite Hc. set (ev1 := _ <| kernel := k |>).
  destruct (allocate_in_spec pid (with_fd (next_object_id (state ev)) f FD_TYPE_FILE 0x001F0003 0x20) ev1 p) as (t & h & Ha & Hh & Hu & Hwf' & Hfr & Hg); [done..|].
  rewrite Ha. exists (st1 <| processes ::= alter (fun p => p <| handles := t |>) pid |>), h, t.
  split_and!; [by destruct ev|done|done| |done| |done|done|done].
  - intros q Hq. cbn. by rewrite lookup_alter_ne.
  - cbn. by rewrite lookup_alter_eq, Hp.
Qed.

Lemma alloc_waitable_spec client_fd ev pid p :
  nonzero_pid ev client_fd = Some pid -> processes (state ev) !! pid = Some p -> HandleTable.wf (handles p) ->
  has_room p -> 0 <= (eventfd (kernel ev)).2 ->
  exists st h, alloc_waitable_handle_for_client client_fd ev =
      (ev <| kernel := (eventfd (kernel ev)).1 |> <| state := st |>, h) /\ h <> 0 /\ in_u32 h /\
    (forall q, q <> pid -> processes st !! q = processes (state ev) !! q) /\
    (exists p', processes st !! pid = Some p' /\ HandleTable.wf (handles p') /\ HandleTable.get (handles p) h = None).
Proof.
  intros Hc Hp Hwf Hroom Hk. destruct (alloc_waitable_full client_fd ev pid p Hc Hp Hwf Hroom Hk) as (st & h & t & -> & Hh & Hu & Hq & _ & Hp' & Hw & Hg & _).
  exists st, h. split_and!; [done..|]. eexists. by split_and!.
Qed.

End loop.
End Loop.

(** ** A small loop to evaluate the definitions on *)
Module LoopDemo.
Import Ntsync ModelKernel Ipc ServerState Loop.

(** A client on descriptor [fd] for thread [tid] of process [pid]. *)
Definition connect (fd pid tid : Z) (ev : EventLoop MK) : EventLoop MK :=
  ev <| clients ::= <[fd := (Ipc.new fd (fd + 1)) <| process_id := pid |> <| thread_id := tid |>]> |>
     <| state ::= fun st => st <| processes ::= fun m => <[pid := push_thread (default process_new (m !! pid)) tid]> m |>
                               <| all_threads ::= <[tid := thread_new pid]> |> |>.

(** Two processes with one thread each. *)
Definition demo_loop : EventLoop MK := connect 9 40 44 (connect 7 32 36 (empty_loop true boot Shm.demo_shm)).

End LoopDemo.
