(* ===== verification/Completion.v ===== *)
(** * Completion ports, jobs, timers and kernel object pointers
      ([src/rust/src/triskelion/event_loop/completion.rs])

    Every handler decodes its request, changes the loop's state and replies.  The
    request and reply structs are generated and are the parameter [Protocol].
    Clock readings are arguments: [now] is the monotonic clock in nanoseconds,
    [real] the wall clock as seconds and nanoseconds. *)

From stdpp Require Import base list gmap sorting.
From coqutil Require Import Datatypes.RecordSettersUsingExistingGetters.
From S2P Require Import Prelude Objects SideTables Dispatch Loop.
Local Open Scope Z_scope.
Local Open Scope outcome_scope.

Module Completion.
Import Replies Ntsync Ipc HandleTable ServerState Loop.

(** ** Generated structs *)
Inductive comp_reply : Type :=
| CreateJobReply (h : ReplyHeader) (handle : Z)
| SetJobLimitsReply (h : ReplyHeader)
| CreateCompletionReply (h : ReplyHeader) (handle : Z)
| SetJobCompletionPortReply (h : ReplyHeader)
| CreateTimerReply (h : ReplyHeader) (handle : Z)
| SetTimerReply (h : ReplyHeader) (signaled : Z)
| GetTimerInfoReply (h : ReplyHeader) (when signaled : Z)
| OpenTimerReply (h : ReplyHeader) (handle : Z)
| CancelTimerReply (h : ReplyHeader) (signaled : Z)
| RemoveCompletionReply (h : ReplyHeader) (ckey cvalue information status wait_handle : Z)
| GetThreadCompletionReply (h : ReplyHeader) (ckey cvalue information status : Z)
| QueryCompletionReply (h : ReplyHeader) (depth : Z)
| OpenCompletionReply (h : ReplyHeader) (handle : Z)
| GetNextDeviceRequestReply (h : ReplyHeader) (params : list Z) (next client_tid client_thread in_size : Z)
| SendSocketReply (h : ReplyHeader) (wait options nonblocking : Z)
| RecvSocketReply (h : ReplyHeader) (wait options nonblocking : Z)
| SocketGetEventsReply (h : ReplyHeader) (flags : Z)
| GetDirectoryCacheEntryReply (h : ReplyHeader) (entry : Z)
| MapBuiltinViewReply (h : ReplyHeader)
| GetImageViewInfoReply (h : ReplyHeader) (base size : Z)
| SetIrpResultReply (h : ReplyHeader)
| CreateDebugObjReply (h : ReplyHeader) (handle : Z)
| WaitDebugEventReply (h : ReplyHeader) (pid tid : Z)
| CreateDeviceManagerReply (h : ReplyHeader) (handle : Z)
| SetKernelObjectPtrReply (h : ReplyHeader)
| GetKernelObjectPtrReply (h : ReplyHeader) (user_ptr : Z)
| GrabKernelObjectReply (h : ReplyHeader)
| ReleaseKernelObjectReply (h : ReplyHeader)
| GetKernelObjectHandleReply (h : ReplyHeader) (handle : Z).

(** A decoder is [None] on a buffer shorter than its struct. *)
Class Protocol : Type := {
  layout : comp_reply -> list Z;
  set_job_limits_request : list Z -> option (Z * Z);
  assign_job_request : list Z -> option (Z * Z);
  set_job_completion_port_request : list Z -> option (Z * Z * Z);
  set_timer_request : list Z -> option (Z * Z * Z);
  get_timer_info_request : list Z -> option Z;
  cancel_timer_request : list Z -> option Z;
  add_completion_request : list Z -> option (Z * Z * Z * Z * Z);
  remove_completion_request : list Z -> option Z;
  query_completion_request : list Z -> option Z;
  set_completion_info_request : list Z -> option (Z * Z * Z);
  debug_process_request : list Z -> option unit;
  wait_debug_event_request : list Z -> option unit;
  continue_debug_event_request : list Z -> option Z;
  set_kernel_object_ptr_request : list Z -> option (Z * Z * Z);
  get_kernel_object_ptr_request : list Z -> option (Z * Z);
  grab_kernel_object_request : list Z -> option unit;
  release_kernel_object_request : list Z -> option (Z * Z);
  get_kernel_object_handle_request : list Z -> option (Z * Z);
}.

Definition hdr (e : Z) : ReplyHeader := mkReplyHeader e 0.

Section handlers.
Context {K : Type} `{Ntsync K, Protocol}.
Implicit Types (ev : EventLoop K) (buf : list Z).

Definition fixed (r : comp_reply) : Reply := reply_fixed (layout r).

(** ** Objects backed by a fresh event *)

(** [if let Some(obj) = self.get_or_create_event(true, false) { insert (obj, 1) }] *)
Definition insert_internal (pid handle : Z) ev : EventLoop K :=
  match get_or_create_event true false ev with
  | (ev', Some obj) => ev' <| ntsync_objects ::= <[(pid, handle) := (obj, 1)]> |>
  | (ev', None) => ev'
  end.

Definition handle_create_job (client_fd : Z) buf ev : EventLoop K * Reply :=
  let '(ev, handle) := alloc_waitable_handle_for_client client_fd ev in
  if decide (handle = 0) then (ev, status_reply 0xC0000017)
  else
    let pid := client_pid ev client_fd in
    let oid := default 0 (object_id <$> handle_entry ev pid handle) in
    let ev := insert_internal pid handle ev in
    (ev <| jobs ::= <[oid := mkJob [] 0 0 0 None 0]> |>, fixed (CreateJobReply (hdr 0) handle)).

Definition handle_create_completion (client_fd : Z) buf ev : EventLoop K * Reply :=
  let '(ev, handle) := alloc_waitable_handle_for_client client_fd ev in
  if decide (handle = 0) then (ev, status_reply 0xC0000017)
  else (insert_internal (client_pid ev client_fd) handle ev, fixed (CreateCompletionReply (hdr 0) handle)).

Definition handle_create_timer (client_fd : Z) buf ev : EventLoop K * Reply :=
  let '(ev, handle) := alloc_waitable_handle_for_client client_fd ev in
  if decide (handle = 0) then (ev, status_reply 0xC0000017)
  else (insert_internal (client_pid ev client_fd) handle ev, fixed (CreateTimerReply (hdr 0) handle)).

(** ** Completion ports *)

(** A message for a port: to the thread that registered last, if one waits, else
    to the end of the queue. *)
Definition post (port : Z) (msg : CompletionMsg) ev : EventLoop K :=
  match completion_waiters ev !! port with
  | Some waiters =>
      match last waiters with
      | Some waiter =>
          let rest := removelast waiters in
          let ev := ev <| thread_completion_cache ::= <[w_client_fd waiter := msg]> |> in
          let ev := set_event (w_pid waiter, wait_handle waiter) ev in
          match rest with
          | [] => ev <| completion_waiters ::= delete port |>
          | _ => ev <| completion_waiters ::= <[port := rest]> |>
          end
      | None => ev <| completion_queues ::= fun q => <[port := default [] (q !! port) ++ [msg]]> q |>
      end
  | None => ev <| completion_queues ::= fun q => <[port := default [] (q !! port) ++ [msg]]> q |>
  end.

Definition handle_add_completion (client_fd : Z) buf ev : EventLoop K * Reply :=
  match add_completion_request buf with
  | None => (ev, status_reply 0xC000000D)
  | Some (handle, key, value, info, st) => (post handle (mkMsg key value info st) ev, status_reply 0)
  end.

Definition handle_add_fd_completion (client_fd : Z) buf ev : EventLoop K * Reply := (ev, status_reply 0).

(** The immediate dequeue: [queue.remove(0)], and the entry of an emptied queue
    is removed. *)
Definition dequeue (port : Z) ev : option (EventLoop K * CompletionMsg) :=
  match completion_queues ev !! port with
  | Some (msg :: []) => Some (ev <| completion_queues ::= delete port |>, msg)
  | Some (msg :: rest) => Some (ev <| completion_queues ::= <[port := rest]> |>, msg)
  | _ => None
  end.

(** Registration of a waiting thread, with an event to wait on. *)
Definition block_on (client_fd port : Z) ev : EventLoop K :=
  let pid := client_pid ev client_fd in
  let ev :=
    if decide (ntsync ev = true /\ ntsync_objects ev !! (pid, port) = None) then
      match get_or_create_event true false ev with
      | (ev', Some obj) => insert_recyclable_event pid port obj 1 ev'
      | (ev', None) => ev'
      end
    else ev in
  ev <| completion_waiters ::= fun w => <[port := default [] (w !! port) ++ [mkWaiter client_fd pid port]]> w |>.

Definition handle_remove_completion (client_fd : Z) buf ev : EventLoop K * Reply :=
  match remove_completion_request buf with
  | None => (ev, status_reply 0xC000000D)
  | Some handle =>
      match dequeue handle ev with
      | Some (ev', msg) =>
          (ev', fixed (RemoveCompletionReply (hdr 0) (ckey msg) (cvalue msg) (information msg) (msg_status msg) 0))
      | None => (block_on client_fd handle ev, fixed (RemoveCompletionReply (hdr 0x103) 0 0 0 0 handle))
      end
  end.

Definition take_cached (client_fd : Z) ev : EventLoop K * option CompletionMsg :=
  (ev <| thread_completion_cache ::= delete client_fd |>, thread_completion_cache ev !! client_fd).

Definition handle_get_thread_completion (client_fd : Z) buf ev : EventLoop K * Reply :=
  match take_cached client_fd ev with
  | (ev', Some msg) =>
      (ev', fixed (GetThreadCompletionReply (hdr 0) (ckey msg) (cvalue msg) (information msg) (msg_status msg)))
  | (ev', None) => (ev', fixed (GetThreadCompletionReply (hdr 0x103) 0 0 0 0))
  end.

Definition handle_query_completion (client_fd : Z) buf ev : EventLoop K * Reply :=
  let handle := default 0 (query_completion_request buf) in
  let depth := match completion_queues ev !! handle with Some q => u32 (Z.of_nat (length q)) | None => 0 end in
  (ev, fixed (QueryCompletionReply (hdr 0) depth)).

Definition handle_open_completion (client_fd : Z) buf ev : EventLoop K * Reply :=
  (ev, fixed (OpenCompletionReply (hdr 0xc0000034) 0)).

Definition handle_set_completion_info (client_fd : Z) buf ev : EventLoop K * Reply :=
  match set_completion_info_request buf with
  | None => (ev, status_reply 0xC000000D)
  | Some (handle, chandle, key) =>
      let pid := client_pid ev client_fd in
      (ev <| side_tables ::= fun t => t <| SideTables.completion_bindings ::= <[(pid, handle) := (chandle, key)]> |> |>,
       status_reply 0)
  end.

(** ** Jobs *)
Definition handle_set_job_limits (client_fd : Z) buf ev : EventLoop K * Reply :=
  match set_job_limits_request buf with
  | None => (ev, fixed (SetJobLimitsReply (hdr 0)))
  | Some (handle, flags) =>
      let ev' := match object_id <$> handle_entry ev (client_pid ev client_fd) handle with
                 | Some oid => ev <| jobs ::= alter (fun j => j <| limit_flags := flags |>) oid |>
                 | None => ev
                 end in
      (ev', fixed (SetJobLimitsReply (hdr 0)))
  end.

Definition job_port ev (oid : Z) : option (Z * Z) :=
  jobs ev !! oid ≫= fun j => (fun port => (port, completion_key j)) <$> completion_port_handle j.

Definition add_to_job (pid : Z) (j : Job) : Job :=
  if decide (pid ∈ job_processes j) then j
  else j <| job_processes ::= fun l => l ++ [pid] |> <| num_processes ::= fun n => u32 (n + 1) |>
         <| total_processes ::= fun n => u32 (n + 1) |>.

Definition handle_assign_job (client_fd : Z) buf ev : EventLoop K * Reply :=
  match assign_job_request buf with
  | None => (ev, status_reply 0xC000000D)
  | Some (job, process) =>
      let caller := client_pid ev client_fd in
      match object_id <$> handle_entry ev caller job, (fun e => u32 (object_id e)) <$> handle_entry ev caller process with
      | Some job_oid, Some target =>
          let has_threads := match processes (state ev) !! target with
                             | Some p => bool_decide (threads p <> [])
                             | None => false
                             end in
          if has_threads then
            let info := job_port ev job_oid in
            let ev := ev <| jobs ::= alter (add_to_job target) job_oid |> <| process_job ::= <[target := job_oid]> |> in
            match info with
            | Some (port, key) => (post port (mkMsg key target 0 1) ev, status_reply 0)
            | None => (ev, status_reply 0)
            end
          else (ev, status_reply 0xC000010A)
      | _, _ => (ev, status_reply 0xC0000008)
      end
  end.

Definition handle_set_job_completion_port (client_fd : Z) buf ev : EventLoop K * Reply :=
  match set_job_completion_port_request buf with
  | None => (ev, status_reply 0xC000000D)
  | Some (job, port, key) =>
      let ev' := match object_id <$> handle_entry ev (client_pid ev client_fd) job with
                 | Some oid => ev <| jobs ::= alter (fun j => j <| completion_port_handle := Some port |> <| completion_key := key |>) oid |>
                 | None => ev
                 end in
      (ev', fixed (SetJobCompletionPortReply (hdr 0)))
  end.

(** ** Timers *)
Definition TICKS_1601_TO_1970 : Z := 116444736000000000.

Definition U64_MAX : Z := 2 ^ 64 - 1.
(** [u64::saturating_mul] *)
Definition saturating_mul (a b : Z) : Z := Z.min (a * b) U64_MAX.

(** Signed 64-bit reinterpretation. *)
Definition i64 (z : Z) : Z := let u := u64 z in if Z.ltb u (2 ^ 63) then u else u - 2 ^ 64.

(** Nanoseconds until an NT expiry time: negative is relative, positive an
    absolute file time. *)
Definition relative_ns (expire : Z) (real : Z * Z) : Z :=
  if decide (expire < 0) then saturating_mul (u64 (- expire)) 100
  else
    let now_100ns := i64 (i64 (real.1 * 10000000) + Z.quot real.2 100 + TICKS_1601_TO_1970) in
    if decide (expire <= now_100ns) then 0 else saturating_mul (u64 (expire - now_100ns)) 100.

Definition timer_deadline (now : Z) (real : Z * Z) (expire : Z) : Z :=
  if decide (expire = 0) then now else now + relative_ns expire real.

Definition timer_key (t : Z * Z * Z * Z) : Z * Z := let '(p, h, _, _) := t in (p, h).
Definition drop_timer (key : Z * Z) (l : list (Z * Z * Z * Z)) : list (Z * Z * Z * Z) :=
  filter (fun t => timer_key t <> key) l.

Definition handle_set_timer (now : Z) (real : Z * Z) (client_fd : Z) buf ev : EventLoop K * Reply :=
  match set_timer_request buf with
  | None => (ev, fixed (SetTimerReply (hdr 0xC000000D) 0))
  | Some (handle, expire, period) =>
      let pid := client_pid ev client_fd in
      let prev_signaled := signaled_state ev (pid, handle) in
      let deadline := timer_deadline now real expire in
      let ev := ev <| nt_timers ::= drop_timer (pid, handle) |> in
      let ev :=
        if decide (deadline <= now) then set_event (pid, handle) ev
        else
          let period_ms := if decide (0 < period) then u32 period else 0 in
          ev <| nt_timers ::= fun l => l ++ [(pid, handle, deadline, period_ms)] |> in
      (ev, fixed (SetTimerReply (hdr 0) prev_signaled))
  end.

Definition handle_get_timer_info (client_fd : Z) buf ev : EventLoop K * Reply :=
  match get_timer_info_request buf with
  | None => (ev, status_reply 0xC000000D)
  | Some handle => (ev, fixed (GetTimerInfoReply (hdr 0) 0 (signaled_state ev (client_pid ev client_fd, handle))))
  end.

Definition handle_open_timer (client_fd : Z) buf ev : EventLoop K * Reply :=
  (ev, fixed (OpenTimerReply (hdr 0xc0000034) 0)).

Definition handle_cancel_timer (client_fd : Z) buf ev : EventLoop K * Reply :=
  match cancel_timer_request buf with
  | None => (ev, fixed (CancelTimerReply (hdr 0xC000000D) 0))
  | Some handle =>
      let pid := client_pid ev client_fd in
      let prev_signaled := signaled_state ev (pid, handle) in
      let ev := ev <| nt_timers ::= drop_timer (pid, handle) |> in
      (reset_event (pid, handle) ev, fixed (CancelTimerReply (hdr 0) prev_signaled))
  end.

(** [Vec::swap_remove]: the last element takes the place of the removed one. *)
Definition swap_remove {A} (i : nat) (l : list A) : list A :=
  match last l with
  | Some x => let l' := removelast l in if decide (i = length l') then l' else <[i := x]> l'
  | None => l
  end.

(** The loop of [check_nt_timers] over the timers from index [i] on. *)
Fixpoint check_loop (fuel : nat) (now : Z) (i : nat) ev : outcome (EventLoop K) :=
  match nt_timers ev !! i with
  | None => Ret ev
  | Some (pid, handle, deadline, period_ms) =>
      match fuel with
      | O => OutOfFuel
      | S fuel =>
          if decide (deadline <= now) then
            let ev := set_event (pid, handle) ev in
            if decide (0 < period_ms) then
              check_loop fuel now (S i)
                (ev <| nt_timers ::= <[i := (pid, handle, now + period_ms * 1000000, period_ms)]> |>)
            else check_loop fuel now i (ev <| nt_timers ::= swap_remove i |>)
          else check_loop fuel now (S i) ev
      end
  end.

Definition check_nt_timers (now : Z) ev : outcome (EventLoop K) :=
  check_loop (length (nt_timers ev)) now 0 ev.

(** ** Devices, sockets and debug objects *)
Definition handle_get_exception_status (client_fd : Z) buf ev : EventLoop K * Reply := (ev, status_reply 0).
Definition handle_get_next_device_request (client_fd : Z) buf ev : EventLoop K * Reply :=
  (ev, fixed (GetNextDeviceRequestReply (hdr 0x103) (replicate 32 0) 0 0 0 0)).
Definition handle_send_socket (client_fd : Z) buf ev : EventLoop K * Reply := (ev, fixed (SendSocketReply (hdr 0) 0 0 0)).
Definition handle_recv_socket (client_fd : Z) buf ev : EventLoop K * Reply := (ev, fixed (RecvSocketReply (hdr 0) 0 0 0)).
Definition handle_socket_get_events (client_fd : Z) buf ev : EventLoop K * Reply :=
  (ev, fixed (SocketGetEventsReply (hdr 0) 0)).
Definition handle_get_directory_cache_entry (client_fd : Z) buf ev : EventLoop K * Reply :=
  (ev, fixed (GetDirectoryCacheEntryReply (hdr 0x8000001A) 0)).
Definition handle_map_builtin_view (client_fd : Z) buf ev : EventLoop K * Reply :=
  (ev, fixed (MapBuiltinViewReply (hdr 0))).
Definition handle_get_image_view_info (client_fd : Z) buf ev : EventLoop K * Reply :=
  (ev, fixed (GetImageViewInfoReply (hdr 0xC0000141) 0 0)).
Definition handle_set_irp_result (client_fd : Z) buf ev : EventLoop K * Reply :=
  (ev, fixed (SetIrpResultReply (hdr 0))).

(** Read without a struct: handle, style, ex_style and is_unicode from byte 12. *)
Definition handle_init_window_info (client_fd : Z) buf ev : EventLoop K * Reply :=
  (if decide (26 <= length buf)%nat then
     let handle := from_le (slice 12 4 buf) in
     let st := from_le (slice 16 4 buf) in
     let ex := from_le (slice 20 4 buf) in
     let u := from_le (slice 24 2 buf) in
     let uni := if decide (u < 2 ^ 15) then u else u - 2 ^ 16 in
     ev <| window_states ::= alter (fun ws => ws <| style := st |> <| ex_style := ex |> <| is_unicode := uni |>
                                                <| paint_flags ::= fun f => Z.lor f 0x0040 |>) handle |>
   else ev, status_reply 0).

(** A handle whose descriptor is the event's own.  When the process is gone the
    event is dropped, which closes it. *)
Definition event_handle (client_fd : Z) ev : EventLoop K * option Z :=
  let pid := client_pid ev client_fd in
  match get_or_create_event true false ev with
  | (ev, Some evt) =>
      let '(ev, oid) := alloc_object_id ev in
      match allocate_in pid (with_fd oid evt FD_TYPE_FILE 0x001F000F 0x20) ev with
      | (ev, Some h) =>
          if decide (h <> 0) then
            (ev <| ntsync_objects ::= <[(pid, h) := (evt, 1)]> |> <| ntsync_objects_created ::= fun n => u64 (n + 1) |>, Some h)
          else (ev <| kernel ::= close_fd evt |>, None)
      | (ev, None) => (ev <| kernel ::= close_fd evt |>, None)
      end
  | (ev, None) => (ev, None)
  end.

Definition handle_create_debug_obj (client_fd : Z) buf ev : EventLoop K * Reply :=
  let '(ev, h) := event_handle client_fd ev in (ev, fixed (CreateDebugObjReply (hdr 0) (default 0x4 h))).
Definition handle_create_device_manager (client_fd : Z) buf ev : EventLoop K * Reply :=
  let '(ev, h) := event_handle client_fd ev in (ev, fixed (CreateDeviceManagerReply (hdr 0) (default 0x4 h))).

Definition handle_debug_process (client_fd : Z) buf ev : EventLoop K * Reply :=
  (ev, status_reply (match debug_process_request buf with None => 0xC000000D | Some _ => 0 end)).
Definition handle_wait_debug_event (client_fd : Z) buf ev : EventLoop K * Reply :=
  match wait_debug_event_request buf with
  | None => (ev, status_reply 0xC000000D)
  | Some _ => (ev, reply_vararg (layout (WaitDebugEventReply (mkReplyHeader 0 4) 0 0)) (le_bytes 4 0))
  end.
Definition handle_continue_debug_event (client_fd : Z) buf ev : EventLoop K * Reply :=
  match continue_debug_event_request buf with
  | None => (ev, status_reply 0xC000000D)
  | Some st => (ev, status_reply (if decide (st ∈ [0x80010001; 0x00010001; 0x00010002; 0x40010001]) then 0 else 0xC000000D))
  end.

(** ** Kernel object pointers *)
Definition handle_set_kernel_object_ptr (client_fd : Z) buf ev : EventLoop K * Reply :=
  match set_kernel_object_ptr_request buf with
  | None => (ev, fixed (SetKernelObjectPtrReply (hdr 0xC000000D)))
  | Some (manager, handle, user_ptr) =>
      (ev <| kernel_object_ptrs ::= <[(client_pid ev client_fd, manager, handle) := user_ptr]> |>,
       fixed (SetKernelObjectPtrReply (hdr 0)))
  end.

Definition handle_get_kernel_object_ptr (client_fd : Z) buf ev : EventLoop K * Reply :=
  match get_kernel_object_ptr_request buf with
  | None => (ev, fixed (GetKernelObjectPtrReply (hdr 0xC000000D) 0))
  | Some (manager, handle) =>
      (ev, fixed (GetKernelObjectPtrReply (hdr 0) (default 0 (kernel_object_ptrs ev !! (client_pid ev client_fd, manager, handle)))))
  end.

Definition handle_grab_kernel_object (client_fd : Z) buf ev : EventLoop K * Reply :=
  (ev, fixed (GrabKernelObjectReply (hdr (match grab_kernel_object_request buf with None => 0xC000000D | Some _ => 0 end)))).

Definition names_ptr (pid manager user_ptr : Z) (kv : Z * Z * Z * Z) : Prop :=
  kv.1.1.1 = pid /\ kv.1.1.2 = manager /\ kv.2 = user_ptr.
#[export] Instance names_ptr_dec pid manager user_ptr kv : Decision (names_ptr pid manager user_ptr kv).
Proof. unfold names_ptr. apply _. Defined.

Definition handle_release_kernel_object (client_fd : Z) buf ev : EventLoop K * Reply :=
  match release_kernel_object_request buf with
  | None => (ev, fixed (ReleaseKernelObjectReply (hdr 0xC000000D)))
  | Some (manager, user_ptr) =>
      let pid := client_pid ev client_fd in
      (ev <| kernel_object_ptrs ::= filter (fun kv => ~ names_ptr pid manager user_ptr kv) |>,
       fixed (ReleaseKernelObjectReply (hdr 0)))
  end.

(** The first match in the map's iteration order. *)
Definition handle_get_kernel_object_handle (client_fd : Z) buf ev : EventLoop K * Reply :=
  match get_kernel_object_handle_request buf with
  | None => (ev, fixed (GetKernelObjectHandleReply (hdr 0xC000000D) 0))
  | Some (manager, user_ptr) =>
      let pid := client_pid ev client_fd in
      let handle := match head (filter (names_ptr pid manager user_ptr) (map_to_list (kernel_object_ptrs ev))) with
                    | Some (_, _, h, _) => h
                    | None => 0
                    end in
      (ev, fixed (GetKernelObjectHandleReply (hdr (if decide (handle <> 0) then 0 else 0xC0000034)) handle))
  end.

(** ** Timers: the loop against a one-pass reference *)
Definition expired (now : Z) (t : Z * Z * Z * Z) : Prop := t.1.2 <= now.
#[export] Instance expired_dec now t : Decision (expired now t).
Proof. unfold expired. apply _. Defined.

(** What becomes of one timer: kept, rescheduled or dropped. *)
Definition tick (now : Z) (t : Z * Z * Z * Z) : option (Z * Z * Z * Z) :=
  let '(p, h, d, per) := t in
  if decide (d <= now) then if decide (0 < per) then Some (p, h, now + per * 1000000, per) else None else Some t.

(** The events of the expired timers. *)
Definition fired (now : Z) (objs : gmap (Z * Z) (Z * Z)) (l : list (Z * Z * Z * Z)) : list Z :=
  omap (fun t => fst <$> objs !! timer_key t) (filter (expired now) l).

Lemma swap_remove_spec {A} i (l : list A) x :
  l !! i = Some x ->
  take i (swap_remove i l) = take i l /\ drop i (swap_remove i l) ≡ₚ drop (S i) l /\
  S (length (swap_remove i l)) = length l.
Proof.
  intros Hi. destruct l as [|a l0 _] using rev_ind; [done|]. unfold swap_remove.
  rewrite last_snoc, removelast_last. apply lookup_lt_Some in Hi. rewrite length_app in Hi. simpl in Hi.
  case_decide as Hd.
  - subst i. rewrite take_app_length, take_ge by lia. rewrite !drop_ge by (rewrite ?length_app; simpl; lia).
    rewrite length_app. simpl. split_and!; [done|done|lia].
  - assert (i < length l0)%nat as Hlt by lia. rewrite take_insert_ge, (take_app_le l0) by lia.
    rewrite (insert_take_drop l0) by done. rewrite drop_app_length' by (rewrite length_take; lia).
    rewrite (drop_app_le l0) by lia. split_and!; [done|apply Permutation_cons_append|].
    rewrite !length_app, length_take. simpl. rewrite length_drop. lia.
Qed.

Lemma set_event_timers key ev : nt_timers (set_event key ev) = nt_timers ev.
Proof. by apply set_event_frame. Qed.
Lemma set_event_objects key ev : ntsync_objects (set_event key ev) = ntsync_objects ev.
Proof. by apply set_event_frame. Qed.
Lemma set_event_eq key ev :
  set_event key ev = ev <| kernel := set_all (option_list (fst <$> ntsync_objects ev !! key)) (kernel ev) |>.
Proof. unfold set_event. destruct (ntsync_objects ev !! key) as [[obj ?]|]; by destruct ev. Qed.

(** The fields [check_nt_timers] may touch. *)
Definition timed (l : list (Z * Z * Z * Z)) (fds : list Z) ev : EventLoop K :=
  ev <| nt_timers := l |> <| kernel := set_all fds (kernel ev) |>.

Lemma timed_timed l1 f1 l2 f2 ev : timed l2 f2 (timed l1 f1 ev) = timed l2 (f1 ++ f2) ev.
Proof. unfold timed. cbn. rewrite set_all_app. by destruct ev. Qed.

Lemma timed_timers l f ev : nt_timers (timed l f ev) = l.
Proof. done. Qed.
Lemma timed_objects l f ev : ntsync_objects (timed l f ev) = ntsync_objects ev.
Proof. done. Qed.

Lemma check_loop_spec fuel now i ev :
  (length (nt_timers ev) <= fuel + i)%nat ->
  exists l fds, check_loop fuel now i ev = Ret (timed l fds ev) /\
    l ≡ₚ take i (nt_timers ev) ++ omap (tick now) (drop i (nt_timers ev)) /\
    fds ≡ₚ fired now (ntsync_objects ev) (drop i (nt_timers ev)).
Proof.
  revert i ev; induction fuel as [|fuel IH]; intros i ev Hlen; cbn [check_loop].
  all: destruct (nt_timers ev !! i) as [[[[p h] d] per]|] eqn:Hi.
  1: { apply lookup_lt_Some in Hi. lia. }
  1,3: apply lookup_ge_None in Hi; exists (nt_timers ev), []; unfold timed;
    rewrite drop_ge, take_ge, app_nil_r by lia; (split; [by destruct ev|done]).
  rewrite (drop_S _ _ _ Hi). cbn [omap list_omap tick]. unfold fired.
  destruct (decide (d <= now)) as [Hd|Hd].
  2: { rewrite filter_cons_False by done.
       destruct (IH (S i) ev) as (l & fds & -> & Hl & Hf); [lia|]. exists l, fds. split; [done|]. split; [|done].
       rewrite Hl. rewrite (take_S_r _ _ _ Hi), <- app_assoc. done. }
  rewrite filter_cons_True by done. cbn [omap list_omap timer_key].
  rewrite set_event_eq. set (fd := option_list (fst <$> ntsync_objects ev !! (p, h))).
  destruct (decide (0 < per)) as [Hp|Hp].
  - set (t' := (p, h, now + per * 1000000, per)).
    match goal with |- exists l fds, check_loop _ _ _ ?e = _ /\ _ => set (ev1 := e) end.
    assert (ev1 = timed (<[i := t']> (nt_timers ev)) fd ev) as Hev by (unfold ev1, timed; by destruct ev).
    destruct (IH (S i) ev1) as (l & fds & -> & Hl & Hf); [rewrite Hev, timed_timers, length_insert; lia|].
    rewrite Hev, timed_timers, ?timed_objects in *. rewrite timed_timed. exists l, (fd ++ fds). split; [done|].
    rewrite drop_insert_lt in Hl, Hf by lia. split.
    + rewrite Hl. rewrite (take_S_r _ _ t') by (apply list_lookup_insert_eq; by eapply lookup_lt_Some).
      rewrite take_insert_ge by lia. by rewrite <- app_assoc.
    + rewrite Hf. unfold fd, fired. by destruct (ntsync_objects ev !! (p, h)).
  - match goal with |- exists l fds, check_loop _ _ _ ?e = _ /\ _ => set (ev1 := e) end.
    assert (ev1 = timed (swap_remove i (nt_timers ev)) fd ev) as Hev by (unfold ev1, timed; by destruct ev).
    destruct (swap_remove_spec i (nt_timers ev) _ Hi) as (Ht & Hdr & Hln).
    destruct (IH i ev1) as (l & fds & -> & Hl & Hf); [rewrite Hev, timed_timers; lia|].
    rewrite Hev, timed_timers, ?timed_objects in *. rewrite timed_timed. exists l, (fd ++ fds). split; [done|].
    rewrite Ht, Hdr in Hl. split; [done|]. unfold fired in *. rewrite Hf, Hdr. unfold fd.
    by destruct (ntsync_objects ev !! (p, h)).
Qed.

Lemma tick_not_expired now t t' : tick now t = Some t' -> now < t'.1.2.
Proof.
  destruct t as [[[p h] d] per]. cbn [tick]. repeat case_decide; intros [= <-]; cbn; lia.
Qed.

Lemma tick_key now t t' : tick now t = Some t' -> timer_key t' = timer_key t.
Proof. destruct t as [[[p h] d] per]. cbn [tick]. repeat case_decide; by intros [= <-]. Qed.

(** C25: [check_nt_timers] terminates and is equivalent to one pass over the
    timers: every expired timer signals its event exactly once, an expired
    periodic timer is rescheduled one period from now, an expired one-shot is
    removed, every other timer is kept, and nothing else of the loop changes; no
    timer left in the list is due. *)
Theorem check_nt_timers_exact now ev :
  exists l fds, check_nt_timers now ev = Ret (timed l fds ev) /\
    l ≡ₚ omap (tick now) (nt_timers ev) /\ fds ≡ₚ fired now (ntsync_objects ev) (nt_timers ev) /\
    Forall (fun t => ~ expired now t) l.
Proof.
  destruct (check_loop_spec (length (nt_timers ev)) now 0 ev) as (l & fds & Hr & Hl & Hf); [lia|].
  rewrite take_0, drop_0 in *. cbn [app] in Hl. exists l, fds. split_and!; try done.
  apply Forall_forall. intros t Ht. rewrite Hl in Ht. apply list_elem_of_omap in Ht as (t0 & _ & Ht0).
  apply tick_not_expired in Ht0. unfold expired. lia.
Qed.

(** ** Setting and cancelling *)
Definition timers_of (key : Z * Z) ev : list (Z * Z * Z * Z) := filter (fun t => timer_key t = key) (nt_timers ev).

Lemma timers_of_drop key key' l :
  filter (fun t => timer_key t = key') (drop_timer key l) =
    if decide (key' = key) then [] else filter (fun t => timer_key t = key') l.
Proof.
  unfold drop_timer. rewrite list_filter_filter. case_decide as He.
  - subst. induction l as [|t l IH]; [done|]. rewrite filter_cons_False; [done|]. by intros [? ?].
  - apply list_filter_iff. intros t. split; [by intros [? ?]|]. intros Ht. split; [done|congruence].
Qed.

Lemma relative_ns_range expire real : 0 <= relative_ns expire real <= U64_MAX.
Proof.
  unfold relative_ns, saturating_mul, U64_MAX. pose proof (u64_in (- expire)). cbn zeta.
  set (n := i64 _). pose proof (u64_in (expire - n)). repeat case_decide; word_lia.
Qed.

(** Setting a timer replaces whatever timer the handle had.  With a delay
    left, exactly one timer is armed for the handle, due after that delay, and no
    event is touched; an expiry of zero or in the past arms nothing and signals
    the handle's event at once.  A relative expiry of [n] ticks is due after
    [100 * n] nanoseconds, saturated at 64 bits, and never at once.  Timers of
    other handles are untouched. *)
Theorem set_timer_exact now real client_fd buf ev handle expire period :
  set_timer_request buf = Some (handle, expire, period) -> - 2 ^ 63 <= expire < 2 ^ 63 ->
  let ev' := (handle_set_timer now real client_fd buf ev).1 in
  let key := (client_pid ev client_fd, handle) in
  let due := timer_deadline now real expire in
  (timers_of key ev', kernel ev') =
    (if decide (due <= now) then ([], set_all (option_list (fst <$> ntsync_objects ev !! key)) (kernel ev))
     else ([(key, due, if decide (0 < period) then u32 period else 0)], kernel ev)) /\
  (expire < 0 -> due = now + Z.min (- expire * 100) (2 ^ 64 - 1) /\ now < due) /\
  (forall key', key' <> key -> timers_of key' ev' = timers_of key' ev).
Proof.
  intros Hreq Hex. cbn zeta. unfold handle_set_timer. rewrite Hreq. cbn [fst]. split_and!.
  - case_decide as Hd.
    + unfold timers_of. rewrite set_event_timers, set_event_kernel. cbn. rewrite timers_of_drop.
      by rewrite decide_True by done.
    + unfold timers_of. cbn. rewrite filter_app, timers_of_drop, (decide_True (P := _ = _)) by done.
      cbn [app]. by rewrite filter_cons_True by done.
  - intros Hneg. unfold timer_deadline. rewrite decide_False by lia. unfold relative_ns, saturating_mul, U64_MAX.
    rewrite decide_True by done. rewrite u64_small by word_lia. split; [done|]. word_lia.
  - intros key' Hk. unfold timers_of. case_decide as Hd.
    + rewrite set_event_timers. cbn. rewrite timers_of_drop. by rewrite decide_False by done.
    + cbn. rewrite filter_app, timers_of_drop, decide_False by done.
      rewrite filter_cons_False by (cbn; congruence). by rewrite app_nil_r.
Qed.

(** ** At most one timer per handle *)
Inductive timer_op : Type :=
| OpSet (now : Z) (real : Z * Z) (client_fd : Z) (buf : list Z)
| OpCancel (client_fd : Z) (buf : list Z)
| OpCheck (now : Z).
Definition run_timer_op (o : timer_op) ev : outcome (EventLoop K) :=
  match o with
  | OpSet now real c buf => Ret (handle_set_timer now real c buf ev).1
  | OpCancel c buf => Ret (handle_cancel_timer c buf ev).1
  | OpCheck now => check_nt_timers now ev
  end.
Fixpoint run_timer_ops (os : list timer_op) ev : outcome (EventLoop K) :=
  match os with [] => Ret ev | o :: os => ev' <-! run_timer_op o ev ;; run_timer_ops os ev' end.

Definition keys_unique ev : Prop := NoDup (timer_key <$> nt_timers ev).

Lemma drop_timer_sublist key l : drop_timer key l `sublist_of` l.
Proof. apply sublist_filter. Qed.
Lemma drop_timer_keys key l : NoDup (timer_key <$> l) -> NoDup (timer_key <$> drop_timer key l) /\ key ∉ timer_key <$> drop_timer key l.
Proof.
  intros Hnd. split; [eapply sublist_NoDup; [done|]; by apply fmap_sublist, drop_timer_sublist|].
  intros (t & -> & Ht)%list_elem_of_fmap. apply list_elem_of_filter in Ht as [Ht _]. by apply Ht.
Qed.
Lemma omap_tick_keys now l : (timer_key <$> omap (tick now) l) `sublist_of` (timer_key <$> l).
Proof.
  induction l as [|t l IH]; [done|]. cbn [omap list_omap]. rewrite fmap_cons. destruct (tick now t) as [t'|] eqn:Ht.
  - rewrite fmap_cons, (tick_key _ _ _ Ht). by constructor.
  - by constructor.
Qed.

Lemma run_timer_op_unique o ev : keys_unique ev -> exists ev', run_timer_op o ev = Ret ev' /\ keys_unique ev'.
Proof.
  intros Hu. destruct o as [now real c buf|c buf|now]; cbn [run_timer_op].
  - eexists; split; [done|]. unfold handle_set_timer. destruct (set_timer_request buf) as [[[handle expire] period]|]; [|done].
    cbn [fst]. unfold keys_unique. destruct (drop_timer_keys (client_pid ev c, handle) (nt_timers ev) Hu) as [Hnd Hnin].
    case_decide; [by rewrite set_event_timers|]. cbn. rewrite fmap_app. apply NoDup_app. split_and!; [done| |by apply NoDup_singleton].
    intros x Hx Hs. apply list_elem_of_singleton in Hs as ->. by apply Hnin.
  - eexists; split; [done|]. unfold handle_cancel_timer. destruct (cancel_timer_request buf) as [handle|]; [|done].
    cbn [fst]. unfold keys_unique, reset_event. destruct (drop_timer_keys (client_pid ev c, handle) (nt_timers ev) Hu) as [Hnd _].
    by match goal with |- context [?m !! ?k] => destruct (m !! k) as [[? ?]|] end.
  - destruct (check_loop_spec (length (nt_timers ev)) now 0 ev) as (l & fds & Hr & Hl & _); [lia|].
    rewrite take_0, drop_0 in Hl. cbn [app] in Hl. eexists; split; [exact Hr|]. unfold keys_unique. rewrite timed_timers, Hl.
    eapply sublist_NoDup; [exact Hu|]. apply omap_tick_keys.
Qed.

(** No sequence of set, cancel and check leaves two timers for one handle,
    and none of the calls gets stuck. *)
Theorem timers_stay_unique (os : list timer_op) ev :
  keys_unique ev -> exists ev', run_timer_ops os ev = Ret ev' /\ keys_unique ev'.
Proof.
  revert ev; induction os as [|o os IH]; intros ev Hu; cbn [run_timer_ops]; [eauto|].
  destruct (run_timer_op_unique o ev Hu) as (ev' & -> & Hu'). by apply IH.
Qed.

(** ** Completion ports: every message is delivered once *)

(** All elements of a map of lists. *)
Definition elems {A} (m : gmap Z (list A)) : list A := concat (map_to_list m).*2.

Lemma elems_insert {A} (m : gmap Z (list A)) p l : elems (<[p := l]> m) ≡ₚ l ++ elems (delete p m).
Proof.
  rewrite <- insert_delete_eq. unfold elems.
  rewrite (map_to_list_insert (delete p m) p l) by apply lookup_delete_eq. done.
Qed.
Lemma elems_split {A} (m : gmap Z (list A)) p : elems m ≡ₚ default [] (m !! p) ++ elems (delete p m).
Proof.
  destruct (m !! p) as [l|] eqn:Hp; cbn [default from_option id].
  - rewrite <- (insert_id m p l Hp) at 1. apply elems_insert.
  - by rewrite delete_id.
Qed.
Lemma elems_lookup {A} (m : gmap Z (list A)) p l x : m !! p = Some l -> x ∈ l -> x ∈ elems m.
Proof. intros Hp Hx. rewrite (elems_split m p), Hp. set_solver. Qed.

Definition values_of (m : gmap Z CompletionMsg) : list CompletionMsg := (map_to_list m).*2.
Lemma values_insert m c msg : m !! c = None -> values_of (<[c := msg]> m) ≡ₚ msg :: values_of m.
Proof. intros Hc. unfold values_of. by rewrite map_to_list_insert. Qed.
Lemma values_delete m c : values_of m ≡ₚ option_list (m !! c) ++ values_of (delete c m).
Proof.
  destruct (m !! c) as [msg|] eqn:Hc; cbn [option_list app]; [|by rewrite delete_id].
  rewrite <- (insert_delete_id m c msg Hc) at 1. apply values_insert, lookup_delete_eq.
Qed.

(** The three requests on ports, as what they take and return. *)
Inductive port_op : Type :=
| Post (port : Z) (msg : CompletionMsg)
| Remove (client_fd port : Z)
| Fetch (client_fd : Z).
Definition run_port_op (o : port_op) ev : EventLoop K * list CompletionMsg :=
  match o with
  | Post port msg => (post port msg ev, [])
  | Remove c port => match dequeue port ev with Some (ev', msg) => (ev', [msg]) | None => (block_on c port ev, []) end
  | Fetch c => let '(ev', o) := take_cached c ev in (ev', option_list o)
  end.
Fixpoint run_port_ops (os : list port_op) ev : EventLoop K * list CompletionMsg :=
  match os with
  | [] => (ev, [])
  | o :: os => let '(ev1, r1) := run_port_op o ev in let '(ev2, r2) := run_port_ops os ev1 in (ev2, r1 ++ r2)
  end.
Definition posted (os : list port_op) : list CompletionMsg :=
  omap (fun o => match o with Post _ msg => Some msg | _ => None end) os.

(** Messages in the daemon: cached for a thread or queued. *)
Definition held ev : list CompletionMsg := values_of (thread_completion_cache ev) ++ elems (completion_queues ev).
Definition waiting ev : list Z := w_client_fd <$> elems (completion_waiters ev).

(** A thread asks again only after it fetched what it was given. *)
Definition polite (o : port_op) ev : Prop :=
  match o with Remove c _ => c ∉ waiting ev /\ thread_completion_cache ev !! c = None | _ => True end.
Fixpoint polite_run (os : list port_op) ev : Prop :=
  match os with [] => True | o :: os => polite o ev /\ polite_run os (run_port_op o ev).1 end.

Record ports_ok ev : Prop := {
  po_once : NoDup (waiting ev);
  po_cache : forall c, c ∈ waiting ev -> thread_completion_cache ev !! c = None;
  po_excl : forall p, default [] (completion_queues ev !! p) = [] \/ default [] (completion_waiters ev !! p) = [];
}.

Lemma post_fields port msg ev :
  let ws := default [] (completion_waiters ev !! port) in
  match last ws with
  | Some w =>
      completion_queues (post port msg ev) = completion_queues ev /\
      thread_completion_cache (post port msg ev) = <[w_client_fd w := msg]> (thread_completion_cache ev) /\
      elems (completion_waiters ev) ≡ₚ w :: elems (completion_waiters (post port msg ev)) /\
      (forall p, p <> port -> completion_waiters (post port msg ev) !! p = completion_waiters ev !! p) /\
      default [] (completion_waiters (post port msg ev) !! port) = removelast ws /\
      kernel (post port msg ev) = set_all (option_list (fst <$> ntsync_objects ev !! (w_pid w, wait_handle w))) (kernel ev)
  | None =>
      post port msg ev =
        ev <| completion_queues := <[port := default [] (completion_queues ev !! port) ++ [msg]]> (completion_queues ev) |>
  end.
Proof.
  cbn zeta. unfold post. destruct (completion_waiters ev !! port) as [ws|] eqn:Hw; cbn [default from_option id]; [|by destruct ev].
  destruct (last ws) as [w|] eqn:Hl; [|by destruct ev].
  apply last_Some in Hl as [rest ->]. rewrite removelast_last, set_event_eq. pose proof (elems_split (completion_waiters ev) port) as He.
  rewrite Hw in He. cbn [default from_option id] in He.
  destruct rest as [|r rest]; cbn; split_and!; try done.
  - intros p Hp. by rewrite lookup_delete_ne.
  - by rewrite lookup_delete_eq.
  - rewrite He, elems_insert. cbn. rewrite <- Permutation_cons_append. solve_Permutation.
  - intros p Hp. by rewrite lookup_insert_ne.
  - by rewrite lookup_insert_eq.
Qed.

Lemma block_on_fields c port ev :
  completion_queues (block_on c port ev) = completion_queues ev /\
  thread_completion_cache (block_on c port ev) = thread_completion_cache ev /\
  completion_waiters (block_on c port ev) =
    <[port := default [] (completion_waiters ev !! port) ++ [mkWaiter c (client_pid ev c) port]]> (completion_waiters ev).
Proof.
  unfold block_on, get_or_create_event, on_kernel, insert_recyclable_event.
  case_decide as Hd; [|done]. destruct Hd as [-> _]. by destruct (create_event true false (kernel ev)) as [k [o|]].
Qed.

Lemma dequeue_fields port ev ev' msg :
  dequeue port ev = Some (ev', msg) ->
  thread_completion_cache ev' = thread_completion_cache ev /\ completion_waiters ev' = completion_waiters ev /\
  elems (completion_queues ev) ≡ₚ msg :: elems (completion_queues ev') /\
  (forall p, p <> port -> completion_queues ev' !! p = completion_queues ev !! p) /\
  completion_queues ev !! port = Some (msg :: default [] (completion_queues ev' !! port)).
Proof.
  unfold dequeue. destruct (completion_queues ev !! port) as [[|m [|m' rest]]|] eqn:Hq; try done.
  all: pose proof (elems_split (completion_queues ev) port) as He; rewrite Hq in He; cbn [default from_option id] in He.
  all: intros [= <- <-]; cbn; rewrite ?elems_insert, He; split_and!; try done.
  - intros p Hp. by rewrite lookup_delete_ne.
  - by rewrite lookup_delete_eq.
  - intros p Hp. by rewrite lookup_insert_ne.
  - by rewrite lookup_insert_eq.
Qed.

Lemma dequeue_None port ev : dequeue port ev = None -> default [] (completion_queues ev !! port) = [].
Proof. unfold dequeue. by destruct (completion_queues ev !! port) as [[|m [|m' rest]]|]. Qed.

Lemma run_port_op_spec o ev :
  ports_ok ev -> polite o ev ->
  ports_ok (run_port_op o ev).1 /\ posted [o] ++ held ev ≡ₚ (run_port_op o ev).2 ++ held (run_port_op o ev).1.
Proof.
  intros [Hn Hc He] Hpol. destruct o as [port msg|c port|c]; cbn [run_port_op fst snd posted omap list_omap app] in *.
  - pose proof (post_fields port msg ev) as Hf. cbn zeta in Hf.
    destruct (last (default [] (completion_waiters ev !! port))) as [w|] eqn:Hl.
    + destruct Hf as (Hq & Hch & Hw & Hother & Hport & _). unfold held. rewrite Hq, Hch.
      assert (waiting ev ≡ₚ w_client_fd w :: waiting (post port msg ev)) as Hwait by (unfold waiting; by rewrite Hw).
      rewrite Hwait in Hn. apply NoDup_cons in Hn as [Hnin Hn].
      assert (thread_completion_cache ev !! w_client_fd w = None) as Hnone by (apply Hc; rewrite Hwait; left).
      split; [constructor|].
      * done.
      * intros c Hin. rewrite Hch, lookup_insert_ne by (intros <-; done). apply Hc. rewrite Hwait. by right.
      * intros p. rewrite Hq. destruct (decide (p = port)) as [->|Hp]; [|by rewrite Hother].
        destruct (He port) as [Hz|Hz]; [by left|]. by rewrite Hz in Hl.
      * rewrite values_insert by done. cbn. done.
    + rewrite Hf. unfold held in *. recs. split; [constructor; [done|done|]|].
      * recs. intros p. destruct (decide (p = port)) as [->|Hp]; [right; by apply last_None|].
        rewrite lookup_insert_ne by done. apply He.
      * rewrite elems_insert, (elems_split (completion_queues ev) port). solve_Permutation.
  - destruct (dequeue port ev) as [[ev' msg]|] eqn:Hd; cbn [fst snd].
    + destruct (dequeue_fields _ _ _ _ Hd) as (Hch & Hw & Hq & Hother & Hport). unfold held, waiting in *.
      rewrite Hch, Hq. split; [|cbn; solve_Permutation]. constructor; unfold waiting; rewrite ?Hw, ?Hch; [done|done|].
      intros p. destruct (decide (p = port)) as [->|Hp]; [|rewrite Hother by done; apply He].
      right. destruct (He port) as [Hz|Hz]; [by rewrite Hport in Hz|done].
    + destruct (block_on_fields c port ev) as (Hq & Hch & Hw). apply dequeue_None in Hd. destruct Hpol as [Hp1 Hp2].
      unfold held. rewrite Hq, Hch. split; [|done].
      assert (waiting (block_on c port ev) ≡ₚ c :: waiting ev) as Hwait.
      { unfold waiting. rewrite Hw, elems_insert, (elems_split (completion_waiters ev) port).
        rewrite !fmap_app. cbn. solve_Permutation. }
      constructor; rewrite ?Hwait, ?Hch, ?Hq, ?Hw; [by constructor| |].
      * intros c'. rewrite Hwait. intros [->|Hin]%elem_of_cons; [done|by apply Hc].
      * intros p. destruct (decide (p = port)) as [->|Hp]; [by left|]. rewrite lookup_insert_ne by done. apply He.
  - split; [constructor; [done| |done]|].
    + intros c' Hin. cbn. destruct (decide (c' = c)) as [->|Hne]; [by rewrite lookup_delete_eq|].
      rewrite lookup_delete_ne by done. by apply Hc.
    + unfold held. cbn. rewrite (values_delete (thread_completion_cache ev) c). by rewrite app_assoc.
Qed.

(** C24: completion messages are conserved.  Whatever posts, removals and fetches
    arrive, as long as a thread asks for the next message only after it took the
    last one, the messages posted are exactly those returned to threads plus those
    still held for a thread or in a queue: none is lost and none is delivered
    twice.  No port ever has both a queued message and a waiting thread, no thread
    waits twice. *)
Theorem completion_messages_conserved (os : list port_op) ev :
  ports_ok ev -> polite_run os ev ->
  let '(ev', returned) := run_port_ops os ev in
  ports_ok ev' /\ posted os ++ held ev ≡ₚ returned ++ held ev'.
Proof.
  revert ev; induction os as [|o os IH]; intros ev Hok Hpol; cbn [run_port_ops]; [done|].
  destruct Hpol as [Ho Hos]. destruct (run_port_op_spec o ev Hok Ho) as [Hok1 H1].
  destruct (run_port_op o ev) as [ev1 r1] eqn:E1. cbn [fst snd] in *.
  specialize (IH ev1 Hok1 Hos). destruct (run_port_ops os ev1) as [ev2 r2]. destruct IH as [Hok2 H2]. split; [done|].
  assert (posted (o :: os) = posted [o] ++ posted os) as -> by (by destruct o).
  rewrite (Permutation_app_comm (posted [o])), <- !app_assoc, H1, (Permutation_app_comm r1), !app_assoc, H2.
  solve_Permutation.
Qed.

(** A message for a waiting thread is cached for it and its event is signalled;
    the thread's next fetch returns it. *)
Lemma post_wakes_waiter `{!NtsyncLaws K} port msg ev w obj ty s :
  last (default [] (completion_waiters ev !! port)) = Some w ->
  ntsync_objects ev !! (w_pid w, wait_handle w) = Some (obj, ty) -> event_read obj (kernel ev) = Some (1, s) ->
  let ev' := post port msg ev in
  (take_cached (w_client_fd w) ev').2 = Some msg /\ event_read obj (kernel ev') = Some (1, 1).
Proof.
  intros Hl Ho Hr. cbn zeta. pose proof (post_fields port msg ev) as Hf. cbn zeta in Hf. rewrite Hl in Hf.
  destruct Hf as (_ & Hch & _ & _ & _ & Hk). rewrite Hk, Ho. split.
  - unfold take_cached. cbn [snd]. by rewrite Hch, lookup_insert_eq.
  - eapply (set_all_signals _ obj s); [|done]. set_solver.
Qed.

(** ** Jobs: the count is the number of member processes *)
Definition job_ok (j : Job) : Prop :=
  num_processes j = Z.of_nat (length (job_processes j)) /\ NoDup (job_processes j) /\
  Forall (fun p => 0 < p <= U32_MAX) (job_processes j).
Definition jobs_ok ev : Prop := forall oid j, jobs ev !! oid = Some j -> job_ok j.

(** A duplicate-free list of numbers between [1] and [n] has at most [n] elements. *)
Lemma NoDup_bound (n : Z) (l : list Z) :
  0 <= n -> NoDup l -> Forall (fun x => 0 < x <= n) l -> Z.of_nat (length l) <= n.
Proof.
  intros Hn Hnd Hall. assert (length l <= length (seqZ 1 n))%nat as Hle.
  { apply submseteq_length, NoDup_submseteq; [done|]. intros x Hx. rewrite Forall_forall in Hall.
    specialize (Hall x Hx). apply elem_of_seqZ. lia. }
  rewrite length_seqZ in Hle. lia.
Qed.

Lemma add_to_job_ok pid j : 0 < pid <= U32_MAX -> job_ok j -> job_ok (add_to_job pid j).
Proof.
  intros Hp (Hn & Hnd & Hall). unfold add_to_job. case_decide as Hin; [done|].
  assert (NoDup (pid :: job_processes j)) as Hnd' by (by constructor).
  pose proof (NoDup_bound U32_MAX (pid :: job_processes j) ltac:(word_lia) Hnd' (Forall_cons_2 _ _ _ Hp Hall)) as Hlen.
  cbn [length] in Hlen.
  unfold job_ok. recs. rewrite Hn, length_app. simpl. rewrite u32_small by word_lia. split_and!; [lia| |].
  - by rewrite <- Permutation_cons_append.
  - apply Forall_app. by split; [|constructor].
Qed.

Lemma alter_jobs_ok f oid ev : jobs_ok ev -> (forall j, job_ok j -> job_ok (f j)) -> jobs_ok (ev <| jobs ::= alter f oid |>).
Proof.
  intros Hj Hf oid' j'. recs. intros [(-> & j & Hjj & ->)|[_ Hjj]]%lookup_alter_Some; [apply Hf|]; by eapply Hj.
Qed.

Lemma post_jobs port msg ev : jobs (post port msg ev) = jobs ev.
Proof.
  unfold post. destruct (completion_waiters ev !! port) as [ws|]; [|done]. destruct (last ws); [|done].
  rewrite set_event_eq. by destruct (removelast ws).
Qed.

Lemma alloc_waitable_jobs c ev : jobs (alloc_waitable_handle_for_client c ev).1 = jobs ev.
Proof.
  unfold alloc_waitable_handle_for_client, alloc_object_id, on_kernel. cbn. destruct (eventfd (kernel ev)) as [k f]. cbn.
  case_decide; [done|]. match goal with |- context [nonzero_pid ?e c] => destruct (nonzero_pid e c) as [pid|] end; [|done].
  unfold allocate_in. cbn. match goal with |- context [?m !! pid] => destruct (m !! pid) as [p|] end; [|done].
  done.
Qed.
Lemma insert_internal_jobs pid h ev : jobs (insert_internal pid h ev) = jobs ev.
Proof.
  unfold insert_internal, get_or_create_event, on_kernel. destruct (ntsync ev); [|done].
  by destruct (create_event true false (kernel ev)) as [k [o|]].
Qed.

Inductive job_op : Type := JCreate | JLimits | JAssign | JPort.
Definition run_job_op (o : job_op) : Z -> list Z -> EventLoop K -> EventLoop K * Reply :=
  match o with
  | JCreate => handle_create_job
  | JLimits => handle_set_job_limits
  | JAssign => handle_assign_job
  | JPort => handle_set_job_completion_port
  end.

(** Every job request keeps the process count of every job equal to the number
    of its distinct members. *)
Lemma job_requests_keep_counts o c buf ev :
  processes (state ev) !! 0 = None -> jobs_ok ev -> jobs_ok (run_job_op o c buf ev).1.
Proof.
  intros Hzero Hj. destruct o; cbn [run_job_op].
  - unfold handle_create_job. pose proof (alloc_waitable_jobs c ev) as Ha.
    destruct (alloc_waitable_handle_for_client c ev) as [ev1 h]. cbn [fst] in Ha.
    assert (jobs_ok ev1) as Hj1 by (unfold jobs_ok; by rewrite Ha). case_decide; [done|]. cbn [fst].
    intros oid j. recs. rewrite insert_internal_jobs, lookup_insert. case_decide; [|by apply Hj1].
    intros [= <-]. split_and!; [done|constructor|constructor].
  - unfold handle_set_job_limits. destruct (set_job_limits_request buf) as [[h f]|]; [|done]. cbn [fst].
    match goal with |- context [match ?x with _ => _ end] => destruct x as [oid|] end; [|done]. by apply alter_jobs_ok.
  - unfold handle_assign_job. destruct (assign_job_request buf) as [[h p]|]; [|done].
    destruct (object_id <$> _) as [oid|]; [|done].
    destruct (handle_entry ev (client_pid ev c) p) as [e|]; cbn [fmap option_fmap option_map]; [|done].
    destruct (processes (state ev) !! u32 (object_id e)) as [pr|] eqn:Hpr; [|done].
    assert (0 < u32 (object_id e) <= U32_MAX) as Hpid.
    { destruct (decide (u32 (object_id e) = 0)) as [Hz|]; [by rewrite Hz, Hzero in Hpr|].
      pose proof (u32_in (object_id e)). word_lia. }
    case_match; [|done].
    assert (jobs_ok (ev <| jobs ::= alter (add_to_job (u32 (object_id e))) oid |> <| process_job ::= <[u32 (object_id e) := oid]> |>)) as Hok.
    { apply (alter_jobs_ok (add_to_job (u32 (object_id e))) oid ev Hj). intros j. by apply add_to_job_ok. }
    destruct (job_port ev oid) as [[port key]|]; cbn [fst]; [|done]. unfold jobs_ok. by rewrite post_jobs.
  - unfold handle_set_job_completion_port. destruct (set_job_completion_port_request buf) as [[[h p] key]|]; [|done]. cbn [fst].
    match goal with |- context [match ?x with _ => _ end] => destruct x as [oid|] end; [|done]. by apply alter_jobs_ok.
Qed.

End handlers.
End Completion.

(** ** The definitions on a small loop *)
Module CompletionDemo.
Import Ntsync ModelKernel Loop LoopDemo Completion.

(** A request whose fields are little-endian words after the 12-byte header. *)
Definition word_at (i : nat) (buf : list Z) : Z := from_le (slice (12 + 4 * i) 4 buf).
Definition fields {A} (n : nat) (f : list Z -> A) (buf : list Z) : option A :=
  if decide (12 + 4 * n <= length buf)%nat then Some (f buf) else None.
Definition w1 : list Z -> option Z := fields 1 (word_at 0).
Definition w2 : list Z -> option (Z * Z) := fields 2 (fun b => (word_at 0 b, word_at 1 b)).
Definition w3 : list Z -> option (Z * Z * Z) := fields 3 (fun b => (word_at 0 b, word_at 1 b, word_at 2 b)).

#[export] Instance demo_protocol : Protocol := {
  layout := fun _ => [];
  set_job_limits_request := w2;
  assign_job_request := w2;
  set_job_completion_port_request := w3;
  set_timer_request := fields 3 (fun b => (word_at 0 b, i32 (word_at 1 b), i32 (word_at 2 b)));
  get_timer_info_request := w1;
  cancel_timer_request := w1;
  add_completion_request := fields 5 (fun b => (word_at 0 b, word_at 1 b, word_at 2 b, word_at 3 b, word_at 4 b));
  remove_completion_request := w1;
  query_completion_request := w1;
  set_completion_info_request := w3;
  debug_process_request := fields 0 (fun _ => ());
  wait_debug_event_request := fields 0 (fun _ => ());
  continue_debug_event_request := w1;
  set_kernel_object_ptr_request := w3;
  get_kernel_object_ptr_request := w2;
  grab_kernel_object_request := fields 0 (fun _ => ());
  release_kernel_object_request := w2;
  get_kernel_object_handle_request := w2;
}.
Definition request (ws : list Z) : list Z := replicate 12 0 ++ concat (map (le_bytes 4) ws).

Definition m1 : CompletionMsg := mkMsg 1 10 0 0.
Definition m2 : CompletionMsg := mkMsg 2 20 0 0.

Lemma demo_ports_ok : ports_ok demo_loop.
Proof. constructor; [constructor| |]; cbn; [intros c Hc; by apply elem_of_nil in Hc|by left]. Qed.

Definition demo_ops : list port_op := [Remove 7 100; Post 100 m1; Post 100 m2; Fetch 7; Remove 7 100].

Lemma completion_messages_conserved_witness :
  ports_ok demo_loop /\ polite_run demo_ops demo_loop /\
  let '(ev', returned) := run_port_ops demo_ops demo_loop in
  ports_ok ev' /\ posted demo_ops ++ held demo_loop ≡ₚ returned ++ held ev'.
Proof.
  assert (polite_run demo_ops demo_loop) as Hp.
  { unfold demo_ops. cbn [polite_run polite].
    split; [apply (bool_decide_unpack _); vm_compute; exact I|]. split; [exact I|]. split; [exact I|]. split; [exact I|].
    split; [|exact I]. apply (bool_decide_unpack _). vm_compute. exact I. }
  split; [exact demo_ports_ok|]. split; [exact Hp|]. exact (completion_messages_conserved demo_ops demo_loop demo_ports_ok Hp).
Defined.

Example demo_ports_run : (run_port_ops demo_ops demo_loop).2 = [m1; m2].
Proof. vm_compute. reflexivity. Qed.

(** A thread that asks again after its wait timed out is registered twice; the
    second message posted then overwrites the first in its cache, and the first
    is never delivered. *)
Lemma retry_loses_message :
  let '(ev', returned) := run_port_ops [Remove 7 100; Remove 7 100; Post 100 m1; Post 100 m2; Fetch 7; Fetch 7] demo_loop in
  returned = [m2] /\ held ev' = [].
Proof. vm_compute. split; reflexivity. Qed.

(** Ports are found by handle value alone: a message that process 32 posts to its
    own handle 100 is taken by process 40 through its handle 100. *)
Lemma ports_shared_across_processes :
  let ev1 := (handle_add_completion 7 (request [100; 1; 10; 0; 0]) demo_loop).1 in
  client_pid ev1 7 <> client_pid ev1 9 /\ held ev1 = [m1] /\
  held (handle_remove_completion 9 (request [100]) ev1).1 = [].
Proof. vm_compute. split_and!; [discriminate|reflexivity|reflexivity]. Qed.

Definition demo_timer : list Z := request [100; u32 (- 50); 0].

Lemma set_timer_exact_witness :
  let ev' := (handle_set_timer 1000 (0, 0) 7 demo_timer demo_loop).1 in
  set_timer_request demo_timer = Some (100, - 50, 0) /\ timers_of (32, 100) ev' = [(32, 100, 6000, 0)].
Proof.
  cbn zeta. split; [vm_compute; reflexivity|].
  destruct (set_timer_exact 1000 (0, 0) 7 demo_timer demo_loop 100 (- 50) 0) as [Hx _];
    [vm_compute; reflexivity|vm_compute; split; congruence|].
  apply (f_equal fst) in Hx. cbn [fst] in Hx. exact Hx.
Defined.

Definition demo_timer_ops : list timer_op :=
  [OpSet 1000 (0, 0) 7 demo_timer; OpSet 2000 (0, 0) 9 demo_timer; OpSet 3000 (0, 0) 7 demo_timer; OpCheck 7500;
   OpCancel 7 (request [100])].

Lemma timers_stay_unique_witness :
  keys_unique demo_loop /\ exists ev', run_timer_ops demo_timer_ops demo_loop = Ret ev' /\ keys_unique ev'.
Proof.
  assert (keys_unique demo_loop) as Hu by constructor. split; [exact Hu|].
  exact (timers_stay_unique demo_timer_ops demo_loop Hu).
Defined.

Example demo_timers_run :
  (nt_timers <$> match run_timer_ops (take 4 demo_timer_ops) demo_loop with Ret ev => Some ev | _ => None end)
  = Some [(32, 100, 8000, 0)].
Proof. vm_compute. reflexivity. Qed.

End CompletionDemo.
