(* ===== verification/Handles.v ===== *)
(** * Handle requests ([src/rust/src/triskelion/event_loop/handles.rs])

    Closing, duplicating and describing handles.  The request and reply structs
    are the parameter [Protocol].  [readlink] is the result of reading
    [/proc/self/fd/N]: the bytes of the path, when it can be read and is UTF-8.
    [fstat] is the file type of a descriptor, when the call succeeds. *)

From stdpp Require Import base list gmap strings.
From coqutil Require Import Datatypes.RecordSettersUsingExistingGetters.
From S2P Require Import Prelude Slab Objects SideTables Dispatch Text Registry Loop Completion.
Local Open Scope Z_scope.
Local Open Scope outcome_scope.

Module Handles.
Import Replies Text Ntsync Ipc HandleTable ServerState Loop.
Local Notation lit := Registry.lit.

Inductive handle_reply : Type :=
| SetHandleInfoReply (h : ReplyHeader) (old_flags : Z)
| GetHandleFdReply (h : ReplyHeader) (type cacheable access options : Z)
| OpenDirectoryReply (h : ReplyHeader) (handle : Z)
| OpenSymlinkReply (h : ReplyHeader) (handle : Z)
| QuerySymlinkReply (h : ReplyHeader) (total : Z)
| CreateSymlinkReply (h : ReplyHeader) (handle : Z)
| DupHandleReply (h : ReplyHeader) (handle : Z)
| GetObjectInfoReply (h : ReplyHeader) (access ref_count handle_count : Z)
| GetObjectNameReply (h : ReplyHeader) (total : Z)
| GetHandleUnixNameReply (h : ReplyHeader) (name_len : Z)
| AllocateLocallyUniqueIdReply (h : ReplyHeader) (luid : list Z)
| CreateFileReply (h : ReplyHeader) (handle : Z).

Record DupHandleRequest : Type := mkDup {
  src_process : Z; src_handle : Z; dst_process : Z; dup_access : Z; dup_options : Z }.

Class Protocol : Type := {
  layout : handle_reply -> list Z;
  close_handle_request : list Z -> option Z;
  set_handle_info_request : list Z -> option (Z * Z * Z);
  get_handle_fd_request : list Z -> option Z;
  dup_handle_request : list Z -> option DupHandleRequest;
  get_object_info_request : list Z -> option Z;
  get_object_name_request : list Z -> option Z;
  compare_objects_request : list Z -> option (Z * Z);
  get_handle_unix_name_request : list Z -> option Z;
}.

Definition hdr (e : Z) : ReplyHeader := mkReplyHeader e 0.

(** GENERIC_* to FILE_* rights; [& !BIT] is [Z.ldiff]. *)
Definition map_file_access (access : Z) : Z :=
  let mapped := access in
  let mapped := if decide (Z.land mapped 0x80000000 <> 0) then Z.lor (Z.ldiff mapped 0x80000000) 0x00120089 else mapped in
  let mapped := if decide (Z.land mapped 0x40000000 <> 0) then Z.lor (Z.ldiff mapped 0x40000000) 0x00120116 else mapped in
  let mapped := if decide (Z.land mapped 0x20000000 <> 0) then Z.lor (Z.ldiff mapped 0x20000000) 0x001200A0 else mapped in
  if decide (Z.land mapped 0x10000000 <> 0) then Z.lor (Z.ldiff mapped 0x10000000) 0x001F01FF else mapped.

(** The file types of [st_mode & S_IFMT]. *)
Inductive file_kind : Type := S_IFDIR | S_IFREG | S_IFSOCK | S_IFCHR | S_IFIFO | S_OTHER.
Definition fd_type (st : option file_kind) : Z :=
  match st with
  | Some S_IFDIR => FD_TYPE_DIR
  | Some S_IFSOCK => FD_TYPE_SOCKET
  | Some S_IFCHR => FD_TYPE_CHAR
  | _ => FD_TYPE_FILE
  end.

(** *** Access rights *)
Definition map_bit (b m a : Z) : Z := if decide (Z.land a (2 ^ b) <> 0) then Z.lor (Z.ldiff a (2 ^ b)) m else a.

Lemma land_pow2 a b : 0 <= b -> Z.land a (2 ^ b) = if Z.testbit a b then 2 ^ b else 0.
Proof.
  intros Hb. apply Z.bits_inj'. intros i Hi. rewrite Z.land_spec, Z.pow2_bits_eqb by done.
  destruct (Z.eqb_spec b i) as [->|Hne].
  - destruct (Z.testbit a i); [by rewrite Z.pow2_bits_true|by rewrite Z.testbit_0_l].
  - rewrite andb_false_r. destruct (Z.testbit a b); [by rewrite Z.pow2_bits_false|by rewrite Z.testbit_0_l].
Qed.

Lemma map_bit_spec b m a i :
  0 <= b -> 0 <= i ->
  Z.testbit (map_bit b m a) i = (Z.testbit a i && negb (b =? i)) || (Z.testbit a b && Z.testbit m i).
Proof.
  intros Hb Hi. unfold map_bit. rewrite land_pow2 by done. destruct (Z.testbit a b) eqn:Ha.
  - rewrite decide_True by (apply Z.pow_nonzero; lia). by rewrite Z.lor_spec, Z.ldiff_spec, Z.pow2_bits_eqb by done.
  - rewrite decide_False by (intros Hn; by apply Hn). cbn [andb]. rewrite orb_false_r.
    destruct (Z.eqb_spec b i) as [<-|_]; [by rewrite Ha|]. cbn [negb]. by rewrite andb_true_r.
Qed.

Lemma map_bit_id b m a : 0 <= b -> Z.testbit a b = false -> map_bit b m a = a.
Proof. intros Hb Ha. unfold map_bit. rewrite land_pow2, Ha by done. rewrite decide_False; [done|]. intros Hn. by apply Hn. Qed.

Lemma map_file_access_bits a :
  map_file_access a = map_bit 28 0x001F01FF (map_bit 29 0x001200A0 (map_bit 30 0x00120116 (map_bit 31 0x00120089 a))).
Proof. reflexivity. Qed.

(** Mapping file rights leaves no GENERIC_ bit, keeps every specific right
    that was asked for, adds only rights of the FILE_ sets, gives full read
    rights for GENERIC_READ, and mapping twice is mapping once. *)
Theorem map_file_access_spec a :
  (forall i, 28 <= i <= 31 -> Z.testbit (map_file_access a) i = false) /\
  (forall i, 0 <= i < 28 -> Z.testbit a i = true -> Z.testbit (map_file_access a) i = true) /\
  (forall i, 0 <= i -> Z.testbit (map_file_access a) i = true -> Z.testbit a i = true \/ Z.testbit 0x001F01FF i = true) /\
  (Z.testbit a 31 = true -> forall i, 0 <= i -> Z.testbit 0x00120089 i = true -> Z.testbit (map_file_access a) i = true) /\
  map_file_access (map_file_access a) = map_file_access a.
Proof.
  assert (forall i, 28 <= i <= 31 -> Z.testbit (map_file_access a) i = false) as Hg.
  { intros i Hi. rewrite map_file_access_bits. assert (i = 28 \/ i = 29 \/ i = 30 \/ i = 31) as [->|[->|[->| ->]]] by lia;
      rewrite !map_bit_spec by lia; cbn; by rewrite ?andb_false_r, ?orb_false_r. }
  split_and!; [exact Hg| | | |].
  - intros i Hi Ha. rewrite map_file_access_bits, !map_bit_spec, Ha by lia.
    destruct (Z.eqb_spec 31 i), (Z.eqb_spec 30 i), (Z.eqb_spec 29 i), (Z.eqb_spec 28 i); [lia..|]. done.
  - intros i Hi. rewrite map_file_access_bits, !map_bit_spec by lia. intros Ht.
    assert (forall m, Z.lor m 0x001F01FF = 0x001F01FF -> Z.testbit m i = true -> Z.testbit 0x001F01FF i = true) as Hsub.
    { intros m Hm Hb. by rewrite <- Hm, Z.lor_spec, Hb. }
    repeat (apply orb_true_iff in Ht as [Ht|Ht]; [apply andb_true_iff in Ht as [Ht _]|apply andb_true_iff in Ht as [_ Ht]; right; revert Ht; by apply Hsub]).
    by left.
  - intros Ha i Hi Hm. rewrite map_file_access_bits, !(map_bit_spec _ _ _ i), Ha, Hm by lia. cbn [andb].
    assert (i < 28) as Hlt. { destruct (decide (i < 28)); [done|]. exfalso. revert Hm. rewrite Z.bits_above_log2; [done|lia|]. change (Z.log2 1179785) with 20. lia. }
    destruct (Z.eqb_spec 31 i), (Z.eqb_spec 30 i), (Z.eqb_spec 29 i), (Z.eqb_spec 28 i); [lia..|].
    cbn [negb]. by rewrite !andb_true_r, orb_true_r.
  - rewrite (map_file_access_bits (map_file_access a)).
    rewrite (map_bit_id 31), (map_bit_id 30), (map_bit_id 29), (map_bit_id 28); try lia; try done; apply Hg; lia.
Qed.

Section handlers.
Context {K : Type} `{Ntsync K, Protocol}.
Implicit Types (ev : EventLoop K) (buf : list Z).

Definition fixed (r : handle_reply) : Reply := reply_fixed (layout r).

(** [if let Some(wh) = self.side_tables.purge(pid, handle) { self.remove_ntsync_obj(pid, wh); }] *)
Definition purge_handle (pid handle : Z) ev : EventLoop K :=
  let '(t, io, closed) := SideTables.purge (side_tables ev) pid handle in
  let ev := ev <| side_tables := t |> <| kernel ::= close_all closed |> in
  match io with Some wh => remove_ntsync_obj pid wh ev | None => ev end.

Definition close_in (pid handle : Z) ev : outcome (EventLoop K) :=
  match processes (state ev) !! pid with
  | Some p =>
      r <-! HandleTable.close (handles p) handle ;;
      let '(t, _, closed) := r in Ret ((with_handles pid t ev) <| kernel ::= close_all closed |>)
  | None => Ret ev
  end.

Definition handle_close_handle (client_fd : Z) buf ev : outcome (EventLoop K * Reply) :=
  match client_thread_id ev client_fd ≫= fun t => ServerState.pid <$> all_threads (state ev) !! t, close_handle_request buf with
  | Some pid, Some handle =>
      ev <-! close_in pid handle (purge_handle pid handle (remove_ntsync_obj pid handle ev)) ;; Ret (ev, status_reply 0)
  | _, _ => Ret (ev, status_reply 0)
  end.

(** HANDLE_FLAG_INHERIT is bit 0 of the request and OBJ_INHERIT bit 1 of the entry. *)
Definition set_inherit (mask flags : Z) (e : HandleEntry) : HandleEntry :=
  if decide (Z.land mask 1 <> 0) then
    e <| options ::= fun o => if decide (Z.land flags 1 <> 0) then Z.lor o 0x02 else Z.ldiff o 0x02 |>
  else e.

Definition handle_set_handle_info (client_fd : Z) buf ev : EventLoop K * Reply :=
  match set_handle_info_request buf with
  | None => (ev, status_reply 0xC000000D)
  | Some (handle, mask, flags) =>
      let pid := client_pid ev client_fd in
      let old_options := default 0 (options <$> handle_entry ev pid handle) in
      let old_flags := if decide (Z.land old_options 0x02 <> 0) then 1 else 0 in
      let ev := match processes (state ev) !! pid with
                | Some p => with_handles pid (HandleTable.get_mut (handles p) handle (set_inherit mask flags)) ev
                | None => ev
                end in
      (ev, fixed (SetHandleInfoReply (hdr 0) old_flags))
  end.

(** Pseudo-handles and sentinels answer with a cacheable error. *)
Definition pseudo_handle (h : Z) : bool :=
  bool_decide (h ∈ [0xFFFFFFFF; 0x7FFFFFFF; 0xFFFFFFFE; 0xFFFFFFFC; 0xFFFFFFFB; 0xFFFFFFFA]) || bool_decide (0xFFFFFFF0 <= h).

Definition mismatch : Reply := fixed (GetHandleFdReply (hdr 0xC0000024) 0 1 0 0).
Definition no_handle : Reply := fixed (GetHandleFdReply (hdr 0xC0000008) 0 0 0 0).

(** [pending_fd] gets a duplicate, when the client is there and [fcntl] succeeds. *)
Definition queue_fd_for (client_fd unix_fd handle : Z) (key : Z * Z) ev : EventLoop K :=
  let ev := ev <| side_tables ::= fun t => t <| SideTables.fd_sent ::= fun s => s ∖ {[key]} |> |> in
  match clients ev !! client_fd with
  | Some _ =>
      let '(ev, d) := on_kernel (dup_fd unix_fd) ev in
      let ev := if decide (0 <= d) then ev <| clients ::= alter (fun c => c <| pending_fd := Some (d, handle) |>) client_fd |> else ev in
      ev <| side_tables ::= fun t => t <| SideTables.fd_sent ::= fun s => {[key]} ∪ s |> |>
  | None => ev
  end.

Definition handle_get_handle_fd (client_fd : Z) buf ev : EventLoop K * Reply :=
  match get_handle_fd_request buf with
  | None => (ev, status_reply 0xC000000D)
  | Some handle =>
      let pid := nonzero_pid ev client_fd in
      if pseudo_handle handle then (ev, mismatch)
      else if decide (handle = 0) then (ev, no_handle)
      else
        match pid ≫= fun p => handle_entry ev p handle with
        | Some e =>
            match fd e with
            | Some unix_fd =>
                (queue_fd_for client_fd unix_fd handle (default 0 pid, handle) ev,
                 fixed (GetHandleFdReply (hdr 0) (i32 (obj_type e)) 1 (access e) (options e)))
            | None => (ev, mismatch)
            end
        | None =>
            match pid ≫= fun p => ntsync_objects ev !! (p, handle) with
            | Some _ => (ev, mismatch)
            | None => (ev, no_handle)
            end
        end
  end.

Definition handle_open_directory (client_fd : Z) buf ev : EventLoop K * Reply :=
  let '(ev, handle) := alloc_waitable_handle_for_client client_fd ev in
  if decide (handle = 0) then (ev, status_reply 0xC0000017) else (ev, fixed (OpenDirectoryReply (hdr 0) handle)).
Definition handle_open_symlink (client_fd : Z) buf ev : EventLoop K * Reply :=
  let '(ev, handle) := alloc_waitable_handle_for_client client_fd ev in
  if decide (handle = 0) then (ev, status_reply 0xC0000017) else (ev, fixed (OpenSymlinkReply (hdr 0) handle)).
Definition handle_create_symlink (client_fd : Z) buf ev : EventLoop K * Reply :=
  let '(ev, handle) := alloc_waitable_handle_for_client client_fd ev in
  if decide (handle = 0) then (ev, status_reply 0xC0000017) else (ev, fixed (CreateSymlinkReply (hdr 0) handle)).

Definition symlink_target : list Z := utf16le (lit "\BaseNamedObjects").
Definition handle_query_symlink (client_fd : Z) buf ev : EventLoop K * Reply :=
  (ev, reply_vararg (layout (QuerySymlinkReply (mkReplyHeader 0 (u32 (blen symlink_target))) (u32 (blen symlink_target)))) symlink_target).

(** ** Duplication *)

(** A process handle of the caller's table names a process by its object id;
    anything else falls back to the caller. *)
Definition resolve_process ev (caller : option Z) (h : Z) : option Z :=
  if decide (h = 0xFFFFFFFF \/ h = 0x7FFFFFFF) then caller
  else match caller ≫= fun cp => handle_entry ev cp h with
       | Some e => Some (u32 (object_id e))
       | None => caller
       end.

Definition source_entry ev (client_fd : Z) (caller src : option Z) (h : Z) : option HandleEntry :=
  if decide (h = 0xFFFFFFFE) then Some (mkHandleEntry (default 0 (thread_id <$> clients ev !! client_fd)) None 2 0x1FFFFF 0)
  else if decide (h = 0xFFFFFFFF \/ h = 0x7FFFFFFF) then Some (mkHandleEntry (default 0 caller) None 1 0x1FFFFF 0)
  else if decide (h = 0xFFFFFFFC) then Some (mkHandleEntry 0 None 5 0xF01FF 0)
  else src ≫= fun p => handle_entry ev p h.

Definition dup_opt (ofd : option Z) ev : EventLoop K * option Z :=
  match ofd with Some f => let '(ev, d) := on_kernel (dup_fd f) ev in (ev, Some d) | None => (ev, None) end.

(** The synchronisation object of the new handle: a duplicate of the source's,
    or else a fresh event. *)
Definition dup_sync (src dst : option Z) (src_handle handle : Z) ev : EventLoop K :=
  let dup_from :=
    match src, dst with
    | Some sp, Some dp =>
        match ntsync_objects ev !! (sp, src_handle) with
        | Some (o, st) =>
            let '(ev, d) := on_kernel (dup_fd o) ev in
            if decide (d < 0) then (ev, false) else (ev <| ntsync_objects ::= <[(dp, handle) := (d, st)]> |>, true)
        | None => (ev, false)
        end
    | _, _ => (ev, false)
    end in
  match dup_from, dst with
  | (ev, false), Some dp => Completion.insert_internal dp handle ev
  | (ev, _), _ => ev
  end.

Definition handle_dup_handle (client_fd : Z) buf ev : EventLoop K * Reply :=
  match dup_handle_request buf with
  | None => (ev, status_reply 0xC000000D)
  | Some req =>
      let caller := nonzero_pid ev client_fd in
      let src_pid := resolve_process ev caller (src_process req) in
      let dst_pid := resolve_process ev caller (dst_process req) in
      match source_entry ev client_fd caller src_pid (src_handle req) with
      | Some e =>
          let '(ev, new_fd) := dup_opt (fd e) ev in
          let new_access := if decide (Z.land (dup_options req) 2 <> 0) then access e else dup_access req in
          let entry := mkHandleEntry (object_id e) new_fd (obj_type e) new_access (options e) in
          let '(ev, handle) :=
            match dst_pid with
            | Some dp => match allocate_in dp entry ev with (ev, Some h) => (ev, h) | (ev, None) => (ev, 0) end
            | None => (ev, 0)
            end in
          let ev := if decide (handle <> 0) then dup_sync src_pid dst_pid (src_handle req) handle ev else ev in
          (ev, fixed (DupHandleReply (hdr 0) handle))
      | None => (ev, status_reply 0xC0000008)
      end
  end.

(** ** Descriptions *)
Definition handle_get_object_info (client_fd : Z) buf ev : EventLoop K * Reply :=
  match get_object_info_request buf with
  | None => (ev, status_reply 0xC000000D)
  | Some handle =>
      (ev, fixed (GetObjectInfoReply (hdr 0) (default 0x1F0FFF (access <$> handle_entry ev (client_pid ev client_fd) handle)) 1 1))
  end.

(** The path behind a handle's descriptor. *)
Definition path_of (readlink : Z -> option (list Z)) ev (pid handle : Z) : option (list Z) :=
  match handle_entry ev pid handle with
  | Some e => match fd e with Some f => readlink f | None => None end
  | None => None
  end.

(** The path with backslashes behind the Z: drive. *)
Definition nt_path (path : list Z) : str :=
  lit "\??\Z:" ++ map (fun c => if decide (c = 47) then 92 else c) (from_utf8_lossy path).

Definition handle_get_object_name (readlink : Z -> option (list Z)) (client_fd : Z) buf ev : EventLoop K * Reply :=
  match get_object_name_request buf with
  | None => (ev, fixed (GetObjectNameReply (hdr 0xc0000023) 0))
  | Some handle =>
      match path_of readlink ev (client_pid ev client_fd) handle with
      | None => (ev, fixed (GetObjectNameReply (hdr 0) 0))
      | Some path =>
          let utf16 := utf16le (nt_path path) in
          let send_len := Z.min (blen utf16) (max_reply_vararg buf) in
          (ev, reply_vararg (layout (GetObjectNameReply (mkReplyHeader 0 (u32 send_len)) (u32 (blen utf16))))
                 (take (Z.to_nat send_len) utf16))
      end
  end.

Definition handle_get_object_type (client_fd : Z) buf ev : EventLoop K * Reply := (ev, status_reply 0).

Definition compare_status (oid1 oid2 : option Z) : Z :=
  match oid1, oid2 with
  | Some a, Some b => if decide (a = b) then 0 else 0xC0000460
  | _, _ => 0xC0000008
  end.

Definition handle_compare_objects (client_fd : Z) buf ev : EventLoop K * Reply :=
  match compare_objects_request buf with
  | None => (ev, status_reply 0xC000000D)
  | Some (first, second) =>
      let oid h := object_id <$> handle_entry ev (client_pid ev client_fd) h in
      (ev, status_reply (compare_status (oid first) (oid second)))
  end.

Definition handle_get_handle_unix_name (readlink : Z -> option (list Z)) (client_fd : Z) buf ev : EventLoop K * Reply :=
  match get_handle_unix_name_request buf with
  | None => (ev, status_reply 0xC000000D)
  | Some handle =>
      match path_of readlink ev (client_pid ev client_fd) handle with
      | Some path =>
          let send_len := Z.min (blen path) (max_reply_vararg buf) in
          (ev, reply_vararg (layout (GetHandleUnixNameReply (mkReplyHeader 0 (u32 send_len)) (u32 (blen path))))
                 (take (Z.to_nat send_len) path))
      | None => (ev, status_reply 0xC0000008)
      end
  end.

Definition handle_allocate_locally_unique_id (client_fd : Z) buf ev : EventLoop K * Reply :=
  let '(ev, id) := alloc_object_id ev in
  (ev, fixed (AllocateLocallyUniqueIdReply (hdr 0) (le_bytes 4 (u32 id) ++ replicate 4 0))).

(** A handle for an open descriptor; the caller's access rights are mapped and a
    signalled event is registered. *)
Definition create_file_handle (fstat : Z -> option file_kind) (client_fd unix_fd access options : Z) ev : EventLoop K * Reply :=
  let access := map_file_access access in
  let '(ev, oid) := alloc_object_id ev in
  let pid := nonzero_pid ev client_fd in
  let '(ev, handle) :=
    match pid with
    | Some p =>
        match allocate_in p (with_fd oid unix_fd (fd_type (fstat unix_fd)) access options) ev with
        | (ev, Some h) => (ev, h)
        | (ev, None) => (ev, 0)
        end
    | None => (ev, 0)
    end in
  if decide (handle = 0) then (ev <| kernel ::= close_fd unix_fd |>, status_reply 0xC0000008)
  else
    let ev :=
      match pid with
      | Some p =>
          if decide (ntsync_objects ev !! (p, handle) = None) then
            match get_or_create_event true true ev with
            | (ev, Some obj) => ev <| ntsync_objects ::= <[(p, handle) := (obj, 1)]> |>
            | (ev, None) => ev
            end
          else ev
      | None => ev
      end in
    (ev, fixed (CreateFileReply (hdr 0) handle)).

(** *** Closing a handle *)
Lemma remove_ntsync_obj_fields pid h ev :
  state (remove_ntsync_obj pid h ev) = state ev /\ side_tables (remove_ntsync_obj pid h ev) = side_tables ev /\
  kernel (remove_ntsync_obj pid h ev) = kernel ev /\ ntsync_objects (remove_ntsync_obj pid h ev) = ntsync_objects ev.
Proof. done. Qed.

Lemma purge_handle_fields pid handle ev :
  let '(t, _, closed) := SideTables.purge (side_tables ev) pid handle in
  state (purge_handle pid handle ev) = state ev /\ side_tables (purge_handle pid handle ev) = t /\
  kernel (purge_handle pid handle ev) = close_all closed (kernel ev) /\
  ntsync_objects (purge_handle pid handle ev) = ntsync_objects ev.
Proof.
  unfold purge_handle. destruct (SideTables.purge (side_tables ev) pid handle) as [[t [wh|]] closed]; done.
Qed.

Lemma index_of_nat i : Z.to_nat (index_of (Z.of_nat i * 4)) = i /\ 0 <= index_of (Z.of_nat i * 4).
Proof. unfold index_of. rewrite Z.shiftr_div_pow2 by lia. change (2 ^ 2) with 4. rewrite Z.div_mul by lia. lia. Qed.

(** Closing a handle never panics and removes exactly that handle: its entry
    and all its side state are gone, every other handle of every process keeps
    its entry and side state, the synchronisation objects stay registered, and
    the descriptors closed are its pipe end and, if no other live handle of the
    process refers to it, its own descriptor. *)
Theorem close_handle_exact client_fd buf ev tid pid p handle :
  client_thread_id ev client_fd = Some tid -> ServerState.pid <$> all_threads (state ev) !! tid = Some pid ->
  close_handle_request buf = Some handle -> in_u32 handle ->
  processes (state ev) !! pid = Some p -> HandleTable.wf (handles p) ->
  exists ev' closed, handle_close_handle client_fd buf ev = Ret (ev', status_reply 0) /\
    handle_entry ev' pid handle = None /\
    (forall p' h', (p', index_of h') <> (pid, index_of handle) -> 0 <= index_of h' -> handle_entry ev' p' h' = handle_entry ev p' h') /\
    SideTables.at_key (side_tables ev') (pid, handle) = SideTables.no_state /\
    (forall k, k <> (pid, handle) -> SideTables.at_key (side_tables ev') k = SideTables.at_key (side_tables ev) k) /\
    ntsync_objects ev' = ntsync_objects ev /\
    kernel ev' = close_all closed
      (close_all (option_list (SideTables.data_fd <$> SideTables.pipe_handles (side_tables ev) !! (pid, handle))) (kernel ev)) /\
    (forall f, f ∈ closed <-> (exists e, handle_entry ev pid handle = Some e /\ fd e = Some f) /\
       (forall h' e, 0 <= index_of h' -> handle_entry ev' pid h' = Some e -> fd e <> Some f)).
Proof.
  intros Htid Hpid Hreq Hu Hp Hwf. unfold handle_close_handle. rewrite Htid, Hreq. cbn [mbind option_bind]. rewrite Hpid.
  set (ev1 := remove_ntsync_obj pid handle ev). pose proof (purge_handle_fields pid handle ev1) as Hf.
  pose proof (SideTables.purge_spec (side_tables ev) pid handle) as Ht.
  destruct (remove_ntsync_obj_fields pid handle ev) as (Hs1 & Ht1 & Hk1 & Ho1). fold ev1 in Hs1, Ht1, Hk1, Ho1.
  rewrite Ht1 in Hf. destruct (SideTables.purge (side_tables ev) pid handle) as [[t io] c1].
  destruct Hf as (Hs & Hts & Hk & Ho). destruct Ht as (Hno & Hoth & _ & Hc1).
  set (ev2 := purge_handle pid handle ev1) in *. rewrite Hs1 in Hs. rewrite Hk1 in Hk. rewrite Ho1 in Ho.
  destruct (close_spec (handles p) handle Hwf Hu) as (t' & Hwf' & Hlive & _ & Hc).
  unfold close_in. rewrite Hs, Hp, Hc. cbn [obind].
  assert (forall p' h', handle_entry (with_handles pid t' ev2) p' h' =
            if decide (p' = pid) then HandleTable.get t' h' else handle_entry ev p' h') as He.
  { intros p' h'. rewrite handle_entry_with_handles by (rewrite Hs; eauto). case_decide; [done|].
    unfold handle_entry. by rewrite Hs. }
  assert (handle_entry ev pid handle = HandleTable.get (handles p) handle) as Hold by (unfold handle_entry; by rewrite Hp).
  eexists _, _. split; [done|]. split_and!.
  - change (handle_entry (with_handles pid t' ev2) pid handle = None). rewrite He, decide_True by done.
    by rewrite get_live, Hlive, lookup_delete_eq.
  - intros p' h' Hne Hnn. change (handle_entry (with_handles pid t' ev2) p' h' = handle_entry ev p' h'). rewrite He.
    case_decide as Hpp; [|done]. subst p'. rewrite get_live, Hlive, lookup_delete_ne, <- get_live.
    + unfold handle_entry. by rewrite Hp.
    + intros Heq. apply Hne. f_equal. pose proof (index_of_range handle Hu). lia.
  - change (SideTables.at_key (side_tables ev2) (pid, handle) = SideTables.no_state). by rewrite Hts.
  - intros k Hk'. change (SideTables.at_key (side_tables ev2) k = SideTables.at_key (side_tables ev) k).
    rewrite Hts. by apply Hoth.
  - exact Ho.
  - rewrite <- Hc1, <- Hk. reflexivity.
  - intros f. rewrite closed_elem, Hold. apply and_iff_compat_l. split.
    + intros Hall h' e _ Hh'. apply (Hall (Z.to_nat (index_of h'))). rewrite <- get_live.
      change (handle_entry (with_handles pid t' ev2) pid h' = Some e) in Hh'. by rewrite He, decide_True in Hh' by done.
    + intros Hall i e Hi. destruct (index_of_nat i) as [Hx Hnn]. rewrite <- Hx in Hi. apply (Hall (Z.of_nat i * 4) e Hnn).
      change (handle_entry (with_handles pid t' ev2) pid (Z.of_nat i * 4) = Some e).
      by rewrite He, decide_True, get_live by done.
Qed.

(** *** Duplicating a handle *)
Lemma insert_internal_state pid h ev :
  state (Completion.insert_internal pid h ev) = state ev /\ clients (Completion.insert_internal pid h ev) = clients ev.
Proof.
  unfold Completion.insert_internal, get_or_create_event, on_kernel. destruct (ntsync ev); [|done].
  by destruct (create_event true false (kernel ev)) as [k [o|]].
Qed.

Lemma dup_sync_fields src dst sh h ev :
  state (dup_sync src dst sh h ev) = state ev /\ clients (dup_sync src dst sh h ev) = clients ev.
Proof.
  unfold dup_sync, on_kernel. destruct src as [sp|], dst as [dp|]; try done; try apply insert_internal_state.
  destruct (ntsync_objects ev !! (sp, sh)) as [[o st]|]; [|apply insert_internal_state].
  destruct (dup_fd o (kernel ev)) as [k d]. case_decide; [|done].
  by destruct (insert_internal_state dp h (ev <| kernel := k |>)) as [-> ->].
Qed.

Lemma dup_opt_fields ofd ev :
  state (dup_opt ofd ev).1 = state ev /\ clients (dup_opt ofd ev).1 = clients ev /\
  ntsync_objects (dup_opt ofd ev).1 = ntsync_objects ev.
Proof. unfold dup_opt, on_kernel. destruct ofd as [f|]; [|done]. by destruct (dup_fd f (kernel ev)) as [k d]. Qed.

(** Duplicating a handle inside one process yields a fresh handle to the same
    object: the new entry has the object id and type of the source, the access
    asked for, the source and every other handle are unchanged, and comparing the
    two handles reports the same object. *)
Theorem dup_then_compare client_fd buf ev req pid p e cbuf :
  dup_handle_request buf = Some req -> src_process req = 0xFFFFFFFF -> dst_process req = 0xFFFFFFFF ->
  nonzero_pid ev client_fd = Some pid -> processes (state ev) !! pid = Some p ->
  HandleTable.wf (handles p) -> has_room p -> 0 <= index_of (src_handle req) ->
  src_handle req ∉ [0xFFFFFFFE; 0xFFFFFFFF; 0x7FFFFFFF; 0xFFFFFFFC] ->
  handle_entry ev pid (src_handle req) = Some e ->
  exists h e', let r := handle_dup_handle client_fd buf ev in
    r.2 = fixed (DupHandleReply (hdr 0) h) /\ h <> 0 /\ handle_entry ev pid h = None /\
    handle_entry r.1 pid h = Some e' /\ object_id e' = object_id e /\ obj_type e' = obj_type e /\
    access e' = (if decide (Z.land (dup_options req) 2 <> 0) then access e else dup_access req) /\
    (forall h', index_of h' <> index_of h -> handle_entry r.1 pid h' = handle_entry ev pid h') /\
    (compare_objects_request cbuf = Some (src_handle req, h) ->
     (handle_compare_objects client_fd cbuf r.1).2 = status_reply 0).
Proof.
  intros Hreq Hsp Hdp Hc Hp Hwf Hroom Hidx Hps He. cbn zeta. unfold handle_dup_handle. rewrite Hreq, Hc, Hsp, Hdp.
  unfold resolve_process. rewrite !(decide_True (P := _ \/ _)) by tauto. unfold source_entry.
  rewrite decide_False by set_solver. rewrite decide_False by set_solver. rewrite decide_False by set_solver.
  cbn [mbind option_bind]. rewrite He. destruct (dup_opt_fields (fd e) ev) as (Hs1 & Hc1 & Ho1).
  destruct (dup_opt (fd e) ev) as [ev1 new_fd]. cbn [fst] in *.
  set (e' := mkHandleEntry (object_id e) new_fd (obj_type e) _ (options e)).
  destruct (allocate_in_spec pid e' ev1 p) as (t & h & -> & Hh & _ & _ & Hfresh & Hget); [by rewrite Hs1|done..|].
  rewrite decide_True by done. exists h, e'. cbn [fst snd].
  destruct (dup_sync_fields (Some pid) (Some pid) (src_handle req) h (with_handles pid t ev1)) as [Hs2 Hc2].
  set (ev2 := dup_sync _ _ _ _ _) in *.
  assert (forall h', handle_entry ev2 pid h' = if decide (index_of h' = index_of h) then Some e' else handle_entry ev pid h') as Hent.
  { intros h'. unfold handle_entry at 1. rewrite Hs2. fold (handle_entry (with_handles pid t ev1) pid h').
    rewrite handle_entry_with_handles by (rewrite Hs1; eauto). rewrite decide_True, Hget by done.
    case_decide; [done|]. unfold handle_entry. by rewrite Hp. }
  assert (index_of (src_handle req) <> index_of h) as Hne.
  { intros Heq. revert He. unfold handle_entry. rewrite Hp. cbn [mbind option_bind]. rewrite get_live, Heq, <- get_live, Hfresh. done. }
  split_and!; try done.
  - unfold handle_entry. by rewrite Hp.
  - by rewrite Hent, decide_True.
  - intros h' Hh'. by rewrite Hent, decide_False.
  - intros Hcmp. unfold handle_compare_objects. rewrite Hcmp.
    assert (client_pid ev2 client_fd = pid) as ->.
    { unfold client_pid, nonzero_pid in *. rewrite Hc2. change (clients (with_handles pid t ev1)) with (clients ev1). rewrite Hc1.
      destruct (clients ev !! client_fd) as [c|]; [|done]. cbn in *. case_decide; congruence. }
    cbn zeta. rewrite !Hent, decide_False, decide_True, He by done. cbn. by rewrite decide_True by done.
Qed.

(** *** Handing out a descriptor *)

(** When the descriptor cannot be duplicated the client is still told that one
    follows: the reply is a success and nothing is queued for it. *)
Lemma get_handle_fd_without_fd client_fd buf ev pid handle e f :
  get_handle_fd_request buf = Some handle -> pseudo_handle handle = false -> handle <> 0 ->
  nonzero_pid ev client_fd = Some pid -> handle_entry ev pid handle = Some e -> fd e = Some f ->
  (forall k, (dup_fd f k).2 < 0) ->
  let '(ev', r) := handle_get_handle_fd client_fd buf ev in
  r = fixed (GetHandleFdReply (hdr 0) (i32 (obj_type e)) 1 (access e) (options e)) /\ clients ev' = clients ev.
Proof.
  intros Hreq Hps Hnz Hpid He Hf Hfail. unfold handle_get_handle_fd. rewrite Hreq, Hps, decide_False, Hpid by done.
  cbn [mbind option_bind]. rewrite He, Hf. split; [done|]. unfold queue_fd_for, on_kernel. cbn.
  destruct (clients ev !! client_fd) as [c|]; [|done]. specialize (Hfail (kernel ev)).
  destruct (dup_fd f (kernel ev)) as [k d]. cbn in *. by rewrite decide_False by lia.
Qed.

(** When it can, the success reply comes with a descriptor queued for the client. *)
Lemma get_handle_fd_with_fd client_fd buf ev pid handle e f c :
  get_handle_fd_request buf = Some handle -> pseudo_handle handle = false -> handle <> 0 ->
  clients ev !! client_fd = Some c -> nonzero_pid ev client_fd = Some pid -> handle_entry ev pid handle = Some e ->
  fd e = Some f -> 0 <= (dup_fd f (kernel ev)).2 ->
  let '(ev', r) := handle_get_handle_fd client_fd buf ev in
  r = fixed (GetHandleFdReply (hdr 0) (i32 (obj_type e)) 1 (access e) (options e)) /\
  pending_fd <$> clients ev' !! client_fd = Some (Some ((dup_fd f (kernel ev)).2, handle)).
Proof.
  intros Hreq Hps Hnz Hcl Hpid He Hf Hok. unfold handle_get_handle_fd. rewrite Hreq, Hps, decide_False, Hpid by done.
  cbn [mbind option_bind]. rewrite He, Hf. split; [done|]. unfold queue_fd_for, on_kernel. cbn. rewrite Hcl.
  destruct (dup_fd f (kernel ev)) as [k d]. cbn in *. rewrite decide_True by lia. cbn. by rewrite lookup_alter_eq, Hcl.
Qed.

End handlers.
End Handles.

(** ** The definitions on a small loop *)
Module HandlesDemo.
Import Replies Ntsync ModelKernel HandleTable ServerState Loop LoopDemo CompletionDemo Handles.

#[export] Instance demo_protocol : Handles.Protocol := {
  layout := fun _ => [];
  close_handle_request := w1;
  set_handle_info_request := w3;
  get_handle_fd_request := w1;
  dup_handle_request := fields 5 (fun b => mkDup (word_at 0 b) (word_at 1 b) (word_at 2 b) (word_at 3 b) (word_at 4 b));
  get_object_info_request := w1;
  get_object_name_request := w1;
  compare_objects_request := w2;
  get_handle_unix_name_request := w1;
}.

(** Process 32 with handle 4 on an eventfd. *)
Definition opened : EventLoop MK := (alloc_waitable_handle_for_client 7 demo_loop).1.
Definition opened_process : Process := default process_new (processes (state opened) !! 32).

Lemma opened_process_eq : processes (state opened) !! 32 = Some opened_process.
Proof. vm_compute. reflexivity. Qed.

Lemma opened_wf : HandleTable.wf (handles opened_process).
Proof.
  destruct (allocate_full_spec HandleTable.new (with_fd 0x1000 3 FD_TYPE_FILE 0x1F0003 0x20) table_new_wf) as (t & Ht & Hwf & _ & _);
    [vm_compute; reflexivity|].
  assert (t = handles opened_process) as <-; [|exact Hwf]. apply (f_equal fst) in Ht. cbn [fst] in Ht. rewrite <- Ht. vm_compute. reflexivity.
Qed.

Lemma close_handle_exact_witness :
  exists ev' closed, handle_close_handle 7 (request [4]) opened = Ret (ev', status_reply 0) /\
    handle_entry ev' 32 4 = None /\ closed = [3].
Proof.
  destruct (close_handle_exact 7 (request [4]) opened 36 32 opened_process 4) as (ev' & closed & Hr & Hn & _ & _ & _ & _ & _ & Hc).
  - vm_compute. reflexivity.
  - vm_compute. reflexivity.
  - vm_compute. reflexivity.
  - vm_compute. split; congruence.
  - exact opened_process_eq.
  - exact opened_wf.
  - exists ev', [3]. split; [exact Hr|]. split; [exact Hn|reflexivity].
Defined.

Definition dup_request : list Z := request [0xFFFFFFFF; 4; 0xFFFFFFFF; 0; 2].

Lemma dup_then_compare_witness :
  exists h e', handle_entry (handle_dup_handle 7 dup_request opened).1 32 h = Some e' /\ object_id e' = 0x1000.
Proof.
  destruct (dup_then_compare 7 dup_request opened (mkDup 0xFFFFFFFF 4 0xFFFFFFFF 0 2) 32 opened_process
              (with_fd 0x1000 3 FD_TYPE_FILE 0x1F0003 0x20) (request [4; 8])) as (h & e' & _ & _ & _ & He & Ho & _).
  - vm_compute. reflexivity.
  - reflexivity.
  - reflexivity.
  - vm_compute. reflexivity.
  - exact opened_process_eq.
  - exact opened_wf.
  - vm_compute. reflexivity.
  - vm_compute. congruence.
  - apply (bool_decide_unpack _). vm_compute. exact I.
  - vm_compute. reflexivity.
  - exists h, e'. split; [exact He|exact Ho].
Defined.

(** The descriptor of a debug object's event is owned twice, by the handle entry
    and by the synchronisation object.  Closing the handle closes it while the
    object stays registered under a dead descriptor, which dropping the object
    closes a second time. *)
Lemma debug_object_fd_owned_twice :
  let ev1 := (Completion.event_handle 7 demo_loop).1 in
  handle_entry ev1 32 4 ≫= fd = Some 3 /\ fst <$> ntsync_objects ev1 !! (32, 4) = Some 3 /\
  exists ev2, handle_close_handle 7 (request [4]) ev1 = Ret (ev2, status_reply 0) /\
    fst <$> ntsync_objects ev2 !! (32, 4) = Some 3 /\ event_read 3 (kernel ev1) = Some (1, 0) /\ event_read 3 (kernel ev2) = None.
Proof.
  cbn zeta. split; [vm_compute; reflexivity|]. split; [vm_compute; reflexivity|].
  eexists. split; [vm_compute; reflexivity|]. vm_compute. split_and!; reflexivity.
Qed.

End HandlesDemo.
