(* ===== verification/Session.v ===== *)
(** * Memory shared with the clients ([src/rust/src/triskelion/event_loop/mod.rs])

    The session file holds the table of user handles (32 bytes each) followed by a
    pool of shared objects (1024 bytes each): a sequence number, an id and, from
    byte 16, the object's data, which clients read without locking.  The file is a
    map from byte offset to byte, zero where nothing was written.  [Memory] has
    its reads and writes, [Seqlock] the protocol between writer and readers, and
    [Session] the operations of the event loop on it. *)

From stdpp Require Import base list gmap.
From coqutil Require Import Datatypes.RecordSettersUsingExistingGetters.
From S2P Require Import Prelude Objects Dispatch Loop Completion.
Local Open Scope Z_scope.

Module Memory.

Notation mem := (gmap Z Z).
Implicit Types (m : mem).

Definition read_bytes (a : Z) (n : nat) m : list Z := (fun i => default 0 (m !! (a + Z.of_nat i))) <$> seq 0 n.
Fixpoint write_bytes (a : Z) (bs : list Z) m : mem :=
  match bs with [] => m | b :: bs => write_bytes (a + 1) bs (<[a := b]> m) end.

Definition read32 (a : Z) m : Z := from_le (read_bytes a 4 m).
Definition write32 (a v : Z) m : mem := write_bytes a (le_bytes 4 v) m.
Definition read64 (a : Z) m : Z := from_le (read_bytes a 8 m).
Definition write64 (a v : Z) m : mem := write_bytes a (le_bytes 8 v) m.

Lemma length_read_bytes a n m : length (read_bytes a n m) = n.
Proof. unfold read_bytes. by rewrite length_fmap, length_seq. Qed.

Lemma read_bytes_lookup a n m i : (i < n)%nat -> read_bytes a n m !! i = Some (default 0 (m !! (a + Z.of_nat i))).
Proof. intros Hi. unfold read_bytes. by rewrite list_lookup_fmap, lookup_seq_lt. Qed.

Lemma write_bytes_lookup a bs m x :
  write_bytes a bs m !! x =
    if decide (a <= x < a + Z.of_nat (length bs)) then bs !! Z.to_nat (x - a) else m !! x.
Proof.
  revert a m; induction bs as [|b bs IH]; intros a m; cbn [write_bytes length].
  { by rewrite decide_False by lia. }
  rewrite IH. destruct (decide (x = a)) as [->|Hne].
  - rewrite decide_False by lia. rewrite decide_True by lia. by rewrite lookup_insert_eq, Z.sub_diag.
  - rewrite lookup_insert_ne by done.
    destruct (decide (a + 1 <= x < a + 1 + Z.of_nat (length bs))) as [Hin|Hout].
    + rewrite decide_True by lia. replace (Z.to_nat (x - a)) with (S (Z.to_nat (x - (a + 1)))) by lia. done.
    + by rewrite decide_False by lia.
Qed.

Lemma read_write_same a bs m : read_bytes a (length bs) (write_bytes a bs m) = bs.
Proof.
  apply list_eq; intros i. destruct (decide (i < length bs)%nat) as [Hi|Hi].
  - rewrite read_bytes_lookup by done. rewrite write_bytes_lookup, decide_True by lia.
    replace (Z.to_nat (a + Z.of_nat i - a)) with i by lia.
    by destruct (lookup_lt_is_Some_2 bs i Hi) as [x ->].
  - rewrite !lookup_ge_None_2; [done|lia|rewrite length_read_bytes; lia].
Qed.

Lemma read_write_other a n b bs m :
  a + Z.of_nat n <= b \/ b + Z.of_nat (length bs) <= a -> read_bytes a n (write_bytes b bs m) = read_bytes a n m.
Proof.
  intros Hd. apply list_eq; intros i. destruct (decide (i < n)%nat) as [Hi|Hi].
  - rewrite !read_bytes_lookup by done. by rewrite write_bytes_lookup, decide_False by lia.
  - rewrite !lookup_ge_None_2; [done|rewrite length_read_bytes; lia|rewrite length_read_bytes; lia].
Qed.

(** A field inside a range that was written. *)
Lemma read_write_inside a n b bs m :
  b <= a -> a + Z.of_nat n <= b + Z.of_nat (length bs) ->
  read_bytes a n (write_bytes b bs m) = slice (Z.to_nat (a - b)) n bs.
Proof.
  intros Hb Ha. apply list_eq; intros i. rewrite slice_lookup. case_decide as Hi.
  - rewrite read_bytes_lookup by done. rewrite write_bytes_lookup, decide_True by lia.
    replace (Z.to_nat (a + Z.of_nat i - b)) with (Z.to_nat (a - b) + i)%nat by lia.
    by destruct (lookup_lt_is_Some_2 bs (Z.to_nat (a - b) + i)) as [x ->]; [lia|].
  - rewrite lookup_ge_None_2; [done|rewrite length_read_bytes; lia].
Qed.

Lemma read64_write64 a v m : in_u64 v -> read64 a (write64 a v m) = v.
Proof. intros. unfold read64, write64. rewrite (read_write_same a (le_bytes 8 v)). by apply from_le_u64. Qed.
Lemma read32_write32 a v m : in_u32 v -> read32 a (write32 a v m) = v.
Proof. intros. unfold read32, write32. rewrite (read_write_same a (le_bytes 4 v)). by apply from_le_u32. Qed.
Lemma read64_write_other a b bs m : a + 8 <= b \/ b + Z.of_nat (length bs) <= a -> read64 a (write_bytes b bs m) = read64 a m.
Proof. intros. unfold read64. rewrite read_write_other; [done|lia]. Qed.
Lemma read32_write_other a b bs m : a + 4 <= b \/ b + Z.of_nat (length bs) <= a -> read32 a (write_bytes b bs m) = read32 a m.
Proof. intros. unfold read32. rewrite read_write_other; [done|lia]. Qed.

End Memory.

(** ** The sequence lock *)
Module Seqlock.
Import Memory.

Definition begin_seq (old : Z) : Z := Z.lor old 1.
Definition end_seq (old : Z) : Z := Z.land old (-2) + 2.

(** The memory after each store of one write to the object at [off]; [fs] are
    the stores of its body. *)
Fixpoint body (fs : list (mem -> mem)) (m : mem) : list mem :=
  match fs with [] => [] | f :: fs => f m :: body fs (f m) end.
Definition body_end (fs : list (mem -> mem)) (m : mem) : mem := fold_left (fun m f => f m) fs m.

Definition write_steps (off : Z) (fs : list (mem -> mem)) (m : mem) : list mem :=
  let old := read64 off m in
  let m1 := write64 off (begin_seq old) m in
  m1 :: body fs m1.
Definition write_end (off : Z) (fs : list (mem -> mem)) (m : mem) : mem :=
  let old := read64 off m in
  write64 off (end_seq old) (body_end fs (write64 off (begin_seq old) m)).

(** All states of the memory while a list of writes is carried out, from the
    state before the first. *)
Fixpoint trace (off : Z) (ws : list (list (mem -> mem))) (m : mem) : list mem :=
  match ws with
  | [] => [m]
  | fs :: ws => m :: write_steps off fs m ++ trace off ws (write_end off fs m)
  end.

(** *** What other processors see

    The stores of a write in program order are the odd number, the body, the even
    number.  Both numbers are stored with [Release]: what the program does before
    such a store becomes visible before it, but a plain store that follows it may
    become visible earlier.  So the body is visible before the even number, and
    nothing keeps it behind the odd one. *)
Inductive store : Type := Open | Body (f : mem -> mem) | Close.
Definition release_order (fs : list (mem -> mem)) (l : list store) : Prop := exists l', l' ≡ₚ Open :: map Body fs /\ l = l' ++ [Close].
(** The odd number first, as on a processor that keeps stores in order when the
    compiler does. *)
Definition opens_first (l : list store) : Prop := head l = Some Open.

Definition perform (off old : Z) (st : store) (m : mem) : mem :=
  match st with Open => write64 off (begin_seq old) m | Body f => f m | Close => write64 off (end_seq old) m end.
Fixpoint seen_states (off old : Z) (l : list store) (m : mem) : list mem :=
  match l with [] => [] | st :: l => perform off old st m :: seen_states off old l (perform off old st m) end.
Definition seen_end (off old : Z) (l : list store) (m : mem) : mem := fold_left (fun m st => perform off old st m) l m.
(** All states in which another processor can see the memory. *)
Fixpoint seen (off : Z) (ls : list (list store)) (m : mem) : list mem :=
  match ls with
  | [] => [m]
  | l :: ls => m :: removelast (seen_states off (read64 off m) l m) ++ seen off ls (seen_end off (read64 off m) l m)
  end.

Definition keeps_seq (off : Z) (f : mem -> mem) : Prop := forall m, read64 off (f m) = read64 off m.

Lemma body_seq off fs m : Forall (keeps_seq off) fs -> Forall (fun x => read64 off x = read64 off m) (body fs m).
Proof.
  intros Hk. revert m; induction Hk as [|f fs Hf _ IH]; intros m; cbn [body]; [constructor|].
  constructor; [apply Hf|]. eapply Forall_impl; [apply IH|]. intros x ->. apply Hf.
Qed.

Lemma body_end_seq off fs m : Forall (keeps_seq off) fs -> read64 off (body_end fs m) = read64 off m.
Proof.
  unfold body_end. intros Hk. revert m; induction Hk as [|f fs Hf _ IH]; intros m; cbn [fold_left]; [done|].
  rewrite IH. apply Hf.
Qed.

Lemma seq_arith old :
  0 <= old < 2 ^ 63 -> old <= begin_seq old <= old + 1 /\ Z.odd (begin_seq old) = true /\
  old < end_seq old <= old + 2 /\ Z.even (end_seq old) = true.
Proof.
  intros Ho. unfold begin_seq, end_seq.
  assert (Z.lor old 1 = old - old mod 2 + 1) as ->.
  { rewrite (Z.lor_comm old 1). assert (old = 2 * (old / 2) + old mod 2) as Hx by (apply Z.div_mod; lia).
    apply Z.bits_inj'. intros n Hn. rewrite Z.lor_spec.
    replace (old - old mod 2 + 1) with (2 * (old / 2) + 1) by lia.
    destruct (Z.eq_dec n 0) as [->|Hn0]; [by rewrite Z.testbit_odd_0|].
    replace n with (Z.succ (Z.pred n)) by lia. rewrite Z.testbit_odd_succ by lia.
    rewrite (Z.bits_above_log2 1) by (simpl; lia). cbn [orb].
    destruct (Z.mod_pos_bound old 2) as [H0 H1]; [lia|]. assert (old mod 2 = 0 \/ old mod 2 = 1) as [Hm|Hm] by lia; rewrite Hm in Hx.
    - rewrite Hx at 1. rewrite Z.add_0_r, Z.testbit_even_succ by lia. done.
    - rewrite Hx at 1. by rewrite Z.testbit_odd_succ by lia. }
  assert (Z.land old (-2) = old - old mod 2) as ->.
  { change (-2) with (Z.lnot 1). rewrite <- Z.ldiff_land. change 1 with (Z.ones 1). rewrite Z.ldiff_ones_r by lia.
    rewrite Z.shiftr_div_pow2, Z.shiftl_mul_pow2 by lia. change (2 ^ 1) with 2. pose proof (Z.div_mod old 2). lia. }
  destruct (Z.mod_pos_bound old 2) as [H0 H1]; [lia|]. split_and!; try lia.
  - rewrite Z.odd_add. replace (old - old mod 2) with (2 * (old / 2)) by (pose proof (Z.div_mod old 2); lia).
    by rewrite Z.odd_mul.
  - rewrite Z.even_add. replace (old - old mod 2) with (2 * (old / 2)) by (pose proof (Z.div_mod old 2); lia).
    by rewrite Z.even_mul.
Qed.

(** Sequence numbers along a trace: from the start on they never decrease, and
    after the first state an even one is larger. *)
Lemma trace_seq off ws m :
  Forall (Forall (keeps_seq off)) ws -> 0 <= read64 off m -> read64 off m + 2 * Z.of_nat (length ws) < 2 ^ 63 ->
  exists rest, trace off ws m = m :: rest /\
    Forall (fun x => read64 off m <= read64 off x /\ (Z.even (read64 off x) = true -> read64 off m < read64 off x)) rest.
Proof.
  revert m; induction ws as [|fs ws IH]; intros m Hk H0 Hb; cbn [trace]; [by exists []|].
  apply Forall_cons in Hk as [Hfs Hk]. cbn [length] in Hb. eexists; split; [done|].
  destruct (seq_arith (read64 off m)) as ([Hb1 Hb2] & Hodd & [He1 He2] & Heven); [lia|].
  set (m1 := write64 off (begin_seq (read64 off m)) m).
  assert (read64 off m1 = begin_seq (read64 off m)) as Hm1 by (apply read64_write64; word_lia).
  assert (read64 off (write_end off fs m) = end_seq (read64 off m)) as Hme by (apply read64_write64; word_lia).
  assert (forall x, read64 off x = begin_seq (read64 off m) ->
    read64 off m <= read64 off x /\ (Z.even (read64 off x) = true -> read64 off m < read64 off x)) as Hmid.
  { intros x ->. split; [lia|]. rewrite <- Z.negb_odd, Hodd. done. }
  apply Forall_app. split; [unfold write_steps; fold m1; constructor; [by apply Hmid|]|].
  { eapply Forall_impl; [apply (body_seq off fs m1 Hfs)|]. intros x Hx. apply Hmid. congruence. }
  destruct (IH (write_end off fs m)) as (rest & -> & Hall); [done|lia|rewrite Hme; lia|]. constructor; [rewrite Hme; lia|].
  eapply Forall_impl; [exact Hall|]. intros x [Hx _]. cbn beta. rewrite Hme in Hx. lia.
Qed.

(** In program order an even number is never seen on both sides of a store. *)
Lemma ordered_detects off ws m i j a b :
  Forall (Forall (keeps_seq off)) ws -> 0 <= read64 off m -> read64 off m + 2 * Z.of_nat (length ws) < 2 ^ 63 ->
  (i <= j)%nat -> trace off ws m !! i = Some a -> trace off ws m !! j = Some b ->
  read64 off a = read64 off b -> Z.even (read64 off a) = true -> i = j.
Proof.
  revert m i j; induction ws as [|fs ws IH]; intros m i j Hk H0 Hb Hij Ha Hbj Heq Hev.
  { cbn [trace] in *. destruct i; [|done]. destruct j; [done|done]. }
  destruct (trace_seq off (fs :: ws) m Hk H0 Hb) as (rest & Htr & Hall). rewrite Htr in Ha, Hbj.
  destruct i as [|i].
  { destruct j as [|j]; [done|]. exfalso. cbn in Ha, Hbj. apply (inj Some) in Ha as <-.
    apply (Forall_lookup_1 _ _ _ _ Hall) in Hbj as [_ Hlt]. rewrite <- Heq in Hlt. specialize (Hlt Hev). lia. }
  destruct j as [|j]; [lia|]. cbn in Ha, Hbj. cbn [trace] in Htr. apply (inj (cons m)) in Htr as <-.
  apply Forall_cons in Hk as [Hfs Hk]. cbn [length] in Hb.
  destruct (seq_arith (read64 off m)) as ([Hb1 Hb2] & Hodd & [He1 He2] & Heven); [lia|].
  assert (Forall (fun x => Z.even (read64 off x) = false) (write_steps off fs m)) as Hmid.
  { unfold write_steps. set (m1 := write64 off _ m).
    assert (read64 off m1 = begin_seq (read64 off m)) as Hm1 by (apply read64_write64; word_lia).
    constructor; [by rewrite Hm1, <- Z.negb_odd, Hodd|].
    eapply Forall_impl; [apply (body_seq off fs m1 Hfs)|]. intros x ->. by rewrite Hm1, <- Z.negb_odd, Hodd. }
  apply lookup_app_Some in Ha as [Ha|[Hia Ha]].
  { apply (Forall_lookup_1 _ _ _ _ Hmid) in Ha. congruence. }
  apply lookup_app_Some in Hbj as [Hbj|[Hjb Hbj]].
  { apply (Forall_lookup_1 _ _ _ _ Hmid) in Hbj. congruence. }
  assert (read64 off (write_end off fs m) = end_seq (read64 off m)) as Hme by (apply read64_write64; word_lia).
  assert (i - length (write_steps off fs m) = j - length (write_steps off fs m))%nat as He; [|lia].
  apply (IH (write_end off fs m)); [done|lia|lia|lia|done|done|done|done].
Qed.

Lemma release_opened fs l : release_order fs l -> opens_first l -> exists gs, gs ≡ₚ fs /\ l = Open :: map Body gs ++ [Close].
Proof.
  intros (l' & Hp & ->) Ho. destruct l' as [|st l']; [by apply Permutation_length in Hp|]. injection Ho as ->.
  apply Permutation_cons_inv, Permutation_map_inv in Hp as (gs & -> & Hg). by exists gs.
Qed.

Lemma seen_body off old gs l m : seen_states off old (map Body gs ++ l) m = body gs m ++ seen_states off old l (body_end gs m).
Proof. revert m; induction gs as [|f gs IH]; intros m; [done|]. cbn [map app seen_states body]. by rewrite IH. Qed.

Lemma seen_body_end off old gs l m : seen_end off old (map Body gs ++ l) m = seen_end off old l (body_end gs m).
Proof. unfold seen_end, body_end. rewrite fold_left_app. f_equal. revert m; induction gs as [|f gs IH]; intros m; [done|]. apply IH. Qed.

(** With the odd numbers first, the states seen are those of the program. *)
Lemma seen_trace off ws ls m : Forall2 release_order ws ls -> Forall opens_first ls -> exists gs, Forall2 (≡ₚ) gs ws /\ seen off ls m = trace off gs m.
Proof.
  intros H2. revert m; induction H2 as [|fs l ws ls Hr _ IH]; intros m Ho; [by exists []|]. apply Forall_cons in Ho as [Ho Hos].
  destruct (release_opened fs l Hr Ho) as (gs & Hg & ->). destruct (IH (seen_end off (read64 off m) (Open :: map Body gs ++ [Close]) m) Hos) as (gss & Hgs & He).
  exists (gs :: gss). split; [by constructor|]. cbn [seen trace]. rewrite He. f_equal. f_equal.
  - cbn [seen_states perform]. rewrite seen_body. cbn [seen_states]. unfold write_steps. rewrite app_comm_cons, removelast_app by done. by rewrite app_nil_r.
  - f_equal. unfold seen_end. cbn [fold_left perform]. fold (seen_end off (read64 off m) (map Body gs ++ [Close]) (write64 off (begin_seq (read64 off m)) m)).
    by rewrite seen_body_end.
Qed.

(** C35: the sequence lock detects every concurrent write, where the odd number is
    seen first.  While the daemon carries out any number of writes to a shared
    object, whose stores become visible in any order that [Release] allows for the
    even number and in which the odd number precedes the body, a client that reads
    the same even sequence number at two moments has seen no store to the object in
    between, so what it copied in the meantime is one consistent version.  The code
    does not enforce the second condition ([release_alone_misses]); processors that
    keep stores in order do. *)
Theorem seqlock_detects_writes off ws ls m i j a b :
  Forall2 release_order ws ls -> Forall opens_first ls ->
  Forall (Forall (keeps_seq off)) ws -> 0 <= read64 off m -> read64 off m + 2 * Z.of_nat (length ws) < 2 ^ 63 ->
  (i <= j)%nat -> seen off ls m !! i = Some a -> seen off ls m !! j = Some b ->
  read64 off a = read64 off b -> Z.even (read64 off a) = true -> i = j.
Proof.
  intros Hr Ho Hk H0 Hb Hij. destruct (seen_trace off ws ls m Hr Ho) as (gs & Hg & ->). apply ordered_detects; [|done| |done].
  - clear -Hg Hk. induction Hg as [|g w gs ws Hp _ IH]; [done|]. apply Forall_cons in Hk as [Hw Hk]. constructor; [by rewrite Hp|by apply IH].
  - by rewrite (Forall2_length _ _ _ Hg).
Qed.

(** The stores the program asks for do not rule out that the body is seen before
    the odd number: then the number is even and the same before and after a store
    to the object. *)
Theorem release_alone_misses off f m : keeps_seq off f -> Z.even (read64 off m) = true ->
  let l := [Body f; Open; Close] in
  release_order [f] l /\ seen off [l] m !! 0%nat = Some m /\ seen off [l] m !! 1%nat = Some (f m) /\ read64 off (f m) = read64 off m.
Proof. intros Hk Hev. split_and!; [|done|done|apply Hk]. exists [Body f; Open]. split; [apply Permutation_swap|done]. Qed.

End Seqlock.

Module Session.
Import Memory Seqlock Ntsync Ipc Loop Completion.
Local Open Scope outcome_scope.

Definition USER_ENTRY_SIZE : Z := 32.
Definition FIRST_USER_HANDLE : Z := 0x0020.
Definition SHARED_OBJECT_STRIDE : Z := 1024.
(** Entries of the user handle table; the pool of shared objects follows it. *)
Definition MAX_USER_HANDLES : Z := 32744.

Section session.
Context {K : Type} `{Ntsync K}.
Implicit Types (ev : EventLoop K).

Definition object_mapped ev (off : Z) : Prop := session_mapped ev = true /\ u64 (off + SHARED_OBJECT_STRIDE) <= session_size ev.
#[export] Instance object_mapped_dec ev off : Decision (object_mapped ev off).
Proof. unfold object_mapped. apply _. Defined.

(** A fresh object header: sequence number 0 and its id. *)
Definition init_object (off id : Z) ev : EventLoop K :=
  if decide (object_mapped ev off) then ev <| session ::= fun m => write64 (off + 8) id (write64 off 0 m) |> else ev.

(** [checked_add(..).expect(..)] *)
Definition bump_shared ev : outcome (EventLoop K) :=
  if decide (next_shared_offset ev + SHARED_OBJECT_STRIDE < 2 ^ 64) then
    Ret (ev <| next_shared_offset ::= fun o => o + SHARED_OBJECT_STRIDE |> <| next_shared_id ::= fun i => u64 (i + 1) |>)
  else Panic.

Definition alloc_shared_object ev : outcome (EventLoop K * list Z) :=
  let offset := next_shared_offset ev in
  let id := next_shared_id ev in
  ev <-! bump_shared ev ;;
  Ret (init_object offset id ev, le_bytes 8 id ++ le_bytes 8 offset).

Definition user_entry (offset tid pid id obj_type : Z) : list Z :=
  le_bytes 8 offset ++ le_bytes 4 tid ++ le_bytes 4 pid ++ le_bytes 8 id ++ le_bytes 2 obj_type ++ le_bytes 2 0 ++ replicate 4 0.

(** [pwrite] on the session file *)
Definition pwrite_session (off : Z) (bs : list Z) ev : EventLoop K :=
  if decide (0 <= session_fd ev) then ev <| session ::= write_bytes off bs |> else ev.

Definition take_index ev : EventLoop K * Z :=
  match last (user_handle_free_list ev) with
  | Some recycled => (ev <| user_handle_free_list ::= fun l => removelast l |>, recycled)
  | None => (ev <| next_user_handle_index ::= fun i => u32 (i + 1) |>, next_user_handle_index ev)
  end.

Definition handle_of_index (index : Z) : Z := u32 (u32 (Z.shiftl index 1) + FIRST_USER_HANDLE).
Definition index_of_handle (handle : Z) : Z := Z.shiftr (handle - FIRST_USER_HANDLE) 1.

Definition alloc_user_handle (obj_type tid pid : Z) ev : outcome (EventLoop K * Z) :=
  let '(ev, index) := take_index ev in
  let handle := handle_of_index index in
  let shared_offset := next_shared_offset ev in
  let shared_id := next_shared_id ev in
  ev <-! bump_shared ev ;;
  let ev := init_object shared_offset shared_id ev in
  Ret (pwrite_session (index * USER_ENTRY_SIZE) (user_entry shared_offset tid pid shared_id obj_type) ev, handle).

Definition reassign_user_handle_owner (handle tid pid : Z) ev : EventLoop K :=
  if decide (handle < FIRST_USER_HANDLE) then ev
  else pwrite_session (index_of_handle handle * USER_ENTRY_SIZE + 8) (le_bytes 4 tid ++ le_bytes 4 pid) ev.

Definition shared_write (off : Z) (stores : list (mem -> mem)) ev : EventLoop K :=
  if decide (object_mapped ev off) then ev <| session ::= write_end off stores |> else ev.

Definition set_window_shm (off : Z) (class_locator : list Z) (dpi_context : Z) : EventLoop K -> EventLoop K :=
  shared_write off [write_bytes (off + 16) class_locator; write32 (off + 16 + 16) dpi_context].

(** ** Queue bits of a thread *)
Definition find_client (tid : Z) ev : option (Z * Client) :=
  head (filter (fun kc => thread_id kc.2 = tid) (map_to_list (clients ev))).

Definition locator_offset (locator : list Z) : Z := from_le (slice 8 8 locator).

Definition update_bits (f : Z -> Z) (off : Z) : EventLoop K -> EventLoop K :=
  shared_write off [fun m => write32 (off + 16 + 12) (f (read32 (off + 16 + 12) m)) m;
                    fun m => write32 (off + 16 + 20) (f (read32 (off + 16 + 20) m)) m].

Definition set_queue_bits_for_tid (tid bits : Z) ev : EventLoop K :=
  match find_client tid ev with
  | None => ev
  | Some (cfd, client) =>
      let ev := update_bits (fun w => Z.lor w bits) (locator_offset (queue_locator client)) ev in
      let pid := process_id client in
      let '(ev, qh) :=
        if decide (queue_handle client = 0) then
          let '(ev, h) := alloc_waitable_handle_for_client cfd ev in
          if decide (h <> 0) then (ev <| clients ::= alter (fun c => c <| queue_handle := h |>) cfd |>, h) else (ev, 0)
        else (ev, queue_handle client) in
      if decide (qh <> 0) then set_event (pid, qh) ev else ev
  end.

Definition clear_queue_bits_for_tid (tid bits : Z) ev : EventLoop K :=
  match find_client tid ev with
  | None => ev
  | Some (_, client) => update_bits (fun w => Z.land w (Z.lnot bits)) (locator_offset (queue_locator client)) ev
  end.

(** ** Time shared with the clients

    Each time is stored as its high word, its low word and the high word again. *)
Definition write_time (base v : Z) (m : mem) : mem :=
  write32 (base + 4) (Z.shiftr v 32) (write32 base (u32 v) (write32 (base + 8) (Z.shiftr v 32) m)).

Definition update_usd_time (mono : Z * Z) ev : EventLoop K :=
  if usd_mapped ev then
    let ticks := u64 (u64 (mono.1 * 10000000) + Z.quot mono.2 100) in
    let tick_count := ticks / 10000 in
    ev <| usd ::= fun m => write32 0 (u32 tick_count) (write_time 0x320 tick_count (write_time 0x008 ticks m)) |>
  else ev.

(** ** Wake-ups of deferred waits *)
Definition wake_up_reply (cookie signaled : Z) : list Z := le_bytes 8 cookie ++ le_bytes 4 signaled ++ le_bytes 4 0.

Definition send_wake_up (pw : PendingWait) (signaled : Z) ev : EventLoop K :=
  match clients ev !! pw_client_fd pw ≫= wait_fd with
  | Some wfd => ev <| kernel ::= write_fd wfd (wake_up_reply (pw_cookie pw) signaled) |>
  | None => ev
  end.

(** ** Every shared write keeps to the protocol *)
Lemma write_keeps_seq off a bs : off + 8 <= a -> keeps_seq off (write_bytes a bs).
Proof. intros Ha m. apply read64_write_other. lia. Qed.
Lemma set_window_shm_keeps_seq off loc dpi :
  Forall (keeps_seq off) [write_bytes (off + 16) loc; write32 (off + 16 + 16) dpi].
Proof. repeat constructor; apply write_keeps_seq; lia. Qed.
Lemma update_bits_keeps_seq f off :
  Forall (keeps_seq off) [fun m => write32 (off + 16 + 12) (f (read32 (off + 16 + 12) m)) m;
                          fun m => write32 (off + 16 + 20) (f (read32 (off + 16 + 20) m)) m].
Proof. repeat constructor; intros m; apply read64_write_other; lia. Qed.

(** ** The user handle table *)
Lemma length_user_entry off tid pid id ty : length (user_entry off tid pid id ty) = 32%nat.
Proof. unfold user_entry. by rewrite !length_app, !length_le_bytes, length_replicate. Qed.

Lemma handle_index index : 0 <= index < 2 ^ 30 -> index_of_handle (handle_of_index index) = index.
Proof.
  intros Hi. unfold index_of_handle, handle_of_index, FIRST_USER_HANDLE. rewrite Z.shiftl_mul_pow2 by lia.
  rewrite (u32_small (index * 2 ^ 1)), u32_small by word_lia. rewrite Z.shiftr_div_pow2 by lia. change (2 ^ 1) with 2.
  replace (index * 2 + 32 - 32) with (index * 2) by lia. by rewrite Z.div_mul by lia.
Qed.

(** Fields of an entry as a client reads them. *)
Definition entry_fields (index : Z) (m : mem) : Z * Z * Z * Z * Z :=
  let a := index * USER_ENTRY_SIZE in
  (read64 a m, read32 (a + 8) m, read32 (a + 12) m, read64 (a + 16) m, from_le (read_bytes (a + 24) 2 m)).

Lemma entry_fields_written index off tid pid id ty m :
  in_u64 off -> in_u32 tid -> in_u32 pid -> in_u64 id -> in_u16 ty ->
  entry_fields index (write_bytes (index * USER_ENTRY_SIZE) (user_entry off tid pid id ty) m) = (off, tid, pid, id, ty).
Proof.
  intros Ho Ht Hp Hi Hty. unfold entry_fields, read64, read32. set (a := index * USER_ENTRY_SIZE).
  rewrite !read_write_inside by (rewrite ?length_user_entry; lia).
  replace (Z.to_nat (a - a)) with 0%nat by lia. replace (Z.to_nat (a + 8 - a)) with 8%nat by lia.
  replace (Z.to_nat (a + 12 - a)) with 12%nat by lia. replace (Z.to_nat (a + 16 - a)) with 16%nat by lia.
  replace (Z.to_nat (a + 24 - a)) with 24%nat by lia.
  set (e := user_entry off tid pid id ty).
  change (slice 0 8 e) with (le_bytes 8 off). change (slice 8 4 e) with (le_bytes 4 tid).
  change (slice 12 4 e) with (le_bytes 4 pid). change (slice 16 8 e) with (le_bytes 8 id).
  change (slice 24 2 e) with (le_bytes 2 ty).
  by rewrite (from_le_u64 off Ho), (from_le_u32 tid Ht), (from_le_u32 pid Hp), (from_le_u64 id Hi), (from_le_u16 ty Hty).
Qed.

Lemma take_index_fields ev :
  let '(ev', index) := take_index ev in
  session ev' = session ev /\ session_fd ev' = session_fd ev /\ session_mapped ev' = session_mapped ev /\
  session_size ev' = session_size ev /\ next_shared_offset ev' = next_shared_offset ev /\ next_shared_id ev' = next_shared_id ev.
Proof. unfold take_index. by destruct (last (user_handle_free_list ev)). Qed.

(** The pool starts behind the table, and there is room for one more object. *)
Definition pool_ok ev : Prop :=
  MAX_USER_HANDLES * USER_ENTRY_SIZE <= next_shared_offset ev /\
  next_shared_offset ev + SHARED_OBJECT_STRIDE <= session_size ev < 2 ^ 63 /\
  session_mapped ev = true /\ 0 <= session_fd ev /\ in_u64 (next_shared_id ev).

Lemma alloc_user_handle_eq obj_type tid pid ev :
  pool_ok ev ->
  exists ev', alloc_user_handle obj_type tid pid ev = Ret (ev', handle_of_index (take_index ev).2) /\
    session ev' = write_bytes ((take_index ev).2 * USER_ENTRY_SIZE)
      (user_entry (next_shared_offset ev) tid pid (next_shared_id ev) obj_type)
      (write64 (next_shared_offset ev + 8) (next_shared_id ev) (write64 (next_shared_offset ev) 0 (session ev))) /\
    next_shared_offset ev' = next_shared_offset ev + SHARED_OBJECT_STRIDE.
Proof.
  intros (Hlow & [Hfit Hsz] & Hmap & Hfd & Hid). unfold alloc_user_handle.
  pose proof (take_index_fields ev) as Hf. destruct (take_index ev) as [ev1 index]. cbn [snd] in *.
  destruct Hf as (H1 & H2 & H3 & H4 & H5 & H6). unfold MAX_USER_HANDLES, USER_ENTRY_SIZE, SHARED_OBJECT_STRIDE in *.
  unfold bump_shared. rewrite H5, H6. rewrite decide_True by (unfold SHARED_OBJECT_STRIDE; word_lia). cbn [obind].
  unfold init_object. rewrite decide_True.
  2: { unfold object_mapped. recs. rewrite H3, H4, u64_small by (unfold SHARED_OBJECT_STRIDE; word_lia). done. }
  unfold pwrite_session. rewrite decide_True by (recs; by rewrite H2).
  eexists. split_and!; [reflexivity|recs; by rewrite H1|recs; by rewrite H5].
Qed.

(** While fewer than 32744 user handles are in use, allocating one gives a
    handle from which its table index is recovered, an entry that reads back the
    owner, type, id and offset it was given, and an object at that offset with
    sequence number 0 and that id; every other entry of the table and every
    object of the pool allocated before keep their bytes. *)
Theorem alloc_user_handle_spec obj_type tid pid ev :
  pool_ok ev -> in_u16 obj_type -> in_u32 tid -> in_u32 pid -> 0 <= (take_index ev).2 < MAX_USER_HANDLES ->
  exists ev' handle, let index := (take_index ev).2 in let off := next_shared_offset ev in
    alloc_user_handle obj_type tid pid ev = Ret (ev', handle) /\ index_of_handle handle = index /\
    entry_fields index (session ev') = (off, tid, pid, next_shared_id ev, obj_type) /\
    read64 off (session ev') = 0 /\ read64 (off + 8) (session ev') = next_shared_id ev /\
    (forall i, 0 <= i < MAX_USER_HANDLES -> i <> index ->
       read_bytes (i * USER_ENTRY_SIZE) 32 (session ev') = read_bytes (i * USER_ENTRY_SIZE) 32 (session ev)) /\
    (forall o, MAX_USER_HANDLES * USER_ENTRY_SIZE <= o -> o + SHARED_OBJECT_STRIDE <= off ->
       read_bytes o 1024 (session ev') = read_bytes o 1024 (session ev)) /\
    next_shared_offset ev' = off + SHARED_OBJECT_STRIDE.
Proof.
  intros Hpool Hty Ht Hp Hidx. cbn zeta. destruct (alloc_user_handle_eq obj_type tid pid ev Hpool) as (ev' & Hr & Hs & Hn).
  destruct Hpool as (Hlow & [Hfit Hsz] & _ & _ & Hid). exists ev', (handle_of_index (take_index ev).2). rewrite Hs.
  set (index := (take_index ev).2) in *. set (off := next_shared_offset ev) in *. set (sid := next_shared_id ev) in *.
  assert (length (user_entry off tid pid sid obj_type) = 32%nat) as Hle by apply length_user_entry.
  unfold MAX_USER_HANDLES, USER_ENTRY_SIZE, SHARED_OBJECT_STRIDE in *. split_and!.
  - done.
  - apply handle_index. lia.
  - apply (entry_fields_written index off tid pid sid obj_type); [word_lia|done..].
  - rewrite read64_write_other by (rewrite Hle; lia). unfold write64 at 1. rewrite read64_write_other by (rewrite length_le_bytes; lia).
    by apply read64_write64.
  - rewrite read64_write_other by (rewrite Hle; lia). by apply read64_write64.
  - intros i Hi Hne. unfold write64. rewrite !read_write_other; rewrite ?Hle, ?length_le_bytes; [done|lia..].
  - intros o Ho1 Ho2. unfold write64. rewrite !read_write_other; rewrite ?Hle, ?length_le_bytes; [done|lia..].
  - done.
Qed.

(** The table has no bounds check: the handle with index 32744 writes its entry
    over the desktop object, which starts where the table ends. *)
Lemma user_handle_overflow ev :
  pool_ok ev -> user_handle_free_list ev = [] -> next_user_handle_index ev = MAX_USER_HANDLES ->
  exists ev' h, alloc_user_handle 1 0 0 ev = Ret (ev', h) /\
    read64 (MAX_USER_HANDLES * USER_ENTRY_SIZE) (session ev') = next_shared_offset ev.
Proof.
  intros Hpool Hfree Hnext. destruct (alloc_user_handle_eq 1 0 0 ev Hpool) as (ev' & Hr & Hs & _).
  destruct Hpool as (Hlow & [Hfit Hsz] & _ & _ & Hid). eexists ev', _. split; [exact Hr|]. rewrite Hs.
  unfold take_index. rewrite Hfree, Hnext. cbn [last snd]. set (off := next_shared_offset ev) in *. set (sid := next_shared_id ev).
  unfold read64. rewrite read_write_inside by (rewrite ?length_user_entry; lia). rewrite Z.sub_diag.
  change (slice (Z.to_nat 0) 8 (user_entry off 0 0 sid 1)) with (le_bytes 8 off).
  apply from_le_u64. unfold SHARED_OBJECT_STRIDE, MAX_USER_HANDLES, USER_ENTRY_SIZE in *. word_lia.
Qed.

End session.
End Session.

(** ** The definitions on a small loop *)
Module SessionDemo.
Import Memory Seqlock Ntsync ModelKernel Loop LoopDemo Session.

Definition demo_writes : list (list (mem -> mem)) := [[write32 32 7; write32 40 9]; [write32 32 8]].

Lemma demo_writes_ok : Forall (Forall (keeps_seq 0)) demo_writes.
Proof. repeat constructor; apply write_keeps_seq; lia. Qed.

(** Both writes are seen with their bodies in another order. *)
Definition demo_seen : list (list store) := [[Open; Body (write32 40 9); Body (write32 32 7); Close]; [Open; Body (write32 32 8); Close]].

Lemma seqlock_detects_writes_witness :
  exists a, seen 0 demo_seen ∅ !! 4%nat = Some a /\ read64 0 a = 2 /\ read32 32 a = 7 /\ 4%nat = 4%nat.
Proof.
  eexists. split; [vm_compute; reflexivity|]. split; [vm_compute; reflexivity|]. split; [vm_compute; reflexivity|].
  eapply (seqlock_detects_writes 0 demo_writes demo_seen ∅ 4 4).
  - constructor; [|constructor; [|constructor]].
    + exists [Open; Body (write32 40 9); Body (write32 32 7)]. split; [apply perm_skip, Permutation_swap|reflexivity].
    + exists [Open; Body (write32 32 8)]. split; reflexivity.
  - repeat constructor.
  - exact demo_writes_ok.
  - vm_compute. congruence.
  - vm_compute. reflexivity.
  - lia.
  - vm_compute. reflexivity.
  - vm_compute. reflexivity.
  - reflexivity.
  - vm_compute. reflexivity.
Defined.

Lemma demo_pool_ok : pool_ok demo_loop.
Proof. unfold pool_ok. vm_compute. split_and!; congruence. Qed.

Lemma alloc_user_handle_spec_witness :
  exists ev' handle, alloc_user_handle 1 36 32 demo_loop = Ret (ev', handle) /\
    entry_fields 0 (session ev') = (1048832, 36, 32, 0x101, 1).
Proof.
  destruct (alloc_user_handle_spec 1 36 32 demo_loop) as (ev' & h & Hr & _ & He & _).
  - exact demo_pool_ok.
  - vm_compute. split; congruence.
  - vm_compute. split; congruence.
  - vm_compute. split; congruence.
  - vm_compute. split; congruence.
  - exists ev', h. split; [exact Hr|exact He].
Defined.

(** Setting the queue bits of a thread without a queue handle allocates the handle
    but no event for it, so the wake-up it was allocated for is not sent: the
    only kernel call is the one that created the handle's descriptor. *)
Lemma queue_handle_without_event :
  let ev' := set_queue_bits_for_tid 36 0x8000 demo_loop in
  Ipc.queue_handle <$> clients ev' !! 7 = Some 4 /\ ntsync_objects ev' !! (32, 4) = None /\
  kernel ev' = (eventfd (kernel demo_loop)).1.
Proof. vm_compute. split_and!; reflexivity. Qed.

End SessionDemo.
