(* ===== verification/Client.v ===== *)
(** * The end of a client ([src/rust/src/triskelion/event_loop/client.rs])

    [disconnect_client] removes a thread and, with the last thread of a process,
    everything the daemon keeps for the process.  It is modelled step by step in
    the order of the source: [thread_gone] up to the test whether threads remain,
    [process_gone] for the rest.  [now] is the monotonic clock.  Dropping a
    reference to a synchronisation object is not an effect of the model; the other
    descriptors are closed through the kernel. *)

From stdpp Require Import base list gmap.
From coqutil Require Import Datatypes.RecordSettersUsingExistingGetters.
From S2P Require Import Prelude Objects SideTables SentMessages Shm Text Registry Loop Completion Session.
Local Open Scope Z_scope.
Local Open Scope outcome_scope.

Module Client.
Import Ntsync Ipc ServerState Loop Completion Session.

Section client.
Context {K : Type} `{Ntsync K}.
Implicit Types (ev : EventLoop K).

(** ** The thread *)

(** Abandon the mutexes of the process on behalf of the thread. *)
Definition abandon_mutexes (pid tid : Z) ev : EventLoop K :=
  let objs := filter (fun kv => kv.1.1 = pid /\ kv.2.2 = 3) (map_to_list (ntsync_objects ev)) in
  if decide (tid <> 0) then ev <| kernel ::= fun k => fold_left (fun k kv => (mutex_kill kv.2.1 tid k).1) objs k |> else ev.

(** [clients.remove(&fd)] with the client's destructor *)
Definition remove_client (fd : Z) ev : EventLoop K :=
  ev <| clients ::= delete fd |>
     <| kernel ::= close_all (match clients ev !! fd with Some c => drop_client c | None => [] end) |>.

Definition free_queue (tid : Z) ev : outcome (EventLoop K) :=
  if decide (tid <> 0) then s <-! Shm.free_slot (shm ev) tid ;; Ret (ev <| shm := s |>) else Ret ev.

Definition retain_waiters (pid : Z) (m : gmap Text.str (list PendingPipeWaiter)) : gmap Text.str (list PendingPipeWaiter) :=
  filter (fun kv => kv.2 <> []) (filter (fun w => ppw_pid w <> pid) <$> m).

Definition connected_tids (pid : Z) (cs : gmap Z Client) : list Z :=
  thread_id <$> filter (fun c => process_id c = pid /\ thread_id c <> 0) (map_to_list cs).*2.

(** The thread leaves its process; threads that never connected leave with it. *)
Definition leave_process (pid tid : Z) ev : EventLoop K :=
  if decide (pid <> 0 /\ tid <> 0) then
    let tids := connected_tids pid (clients ev) in
    ev <| state ::= fun st => st <| processes ::= alter (fun p =>
            p <| threads ::= fun l => filter (fun t => t ∈ tids) (filter (fun t => t <> tid) l) |>) pid |> |>
  else ev.

(** Senders that wait for a reply of the thread are woken with QS_SMRESULT. *)
Definition wake_senders (tid : Z) ev : EventLoop K :=
  if decide (tid <> 0) then
    let '(sm, senders) := SentMessages.drain_all_for_receiver (sent_messages ev) tid in
    fold_left (fun ev s => set_queue_bits_for_tid s 0x8000 ev) senders (ev <| sent_messages := sm |>)
  else ev.

Definition forget_thread (fd tid : Z) ev : EventLoop K :=
  let ev :=
    if decide (tid <> 0) then
      ev <| caret_state ::= delete tid |> <| next_timer_ids ::= delete tid |> <| thread_quit_state ::= delete tid |>
    else ev in
  ev <| deferred_event_signals ::= delete fd |> <| pending_wakes ::= delete fd |> <| pending_kernel_apcs ::= delete fd |>
     <| thread_completion_cache ::= delete fd |>
     <| completion_waiters ::= fmap (filter (fun w => w_client_fd w <> fd)) |>.

(** Events of handles to the thread. *)
Definition signal_thread_exit (fd : Z) ev : EventLoop K :=
  ev <| thread_exit_events ::= delete fd |> <| kernel ::= set_all (default [] (thread_exit_events ev !! fd)).*2 |>.

Definition thread_gone (fd pid tid : Z) ev : outcome (EventLoop K) :=
  let ev := ev <| client_alerts ::= delete fd |> <| client_worker_interrupts ::= delete fd |> <| client_apc_flags ::= delete fd |> in
  let ev := remove_client fd (abandon_mutexes pid tid ev) in
  ev <-! free_queue tid ev ;;
  let ev := if decide (pid <> 0) then ev <| pending_pipe_waiters ::= retain_waiters pid |> else ev in
  Ret (signal_thread_exit fd (forget_thread fd tid (wake_senders tid (leave_process pid tid ev)))).

(** ** The process *)

Definition close_inflight (pid : Z) ev : EventLoop K :=
  ev <| process_inflight_fds ::= delete pid |> <| kernel ::= close_all (default [] (process_inflight_fds ev !! pid)).*2 |>.

Definition not_pid {A} (pid : Z) (kv : Z * Z * A) : Prop := kv.1.1 <> pid.
#[export] Instance not_pid_dec {A} pid (kv : Z * Z * A) : Decision (not_pid pid kv).
Proof. unfold not_pid. apply _. Defined.

Definition retain_maps (pid : Z) ev : EventLoop K :=
  ev <| ntsync_objects ::= filter (not_pid pid) |>
     <| ntsync_recyclable ::= filter (fun k => k.1 <> pid) |>
     <| pending_reads ::= filter (not_pid pid) |>
     <| completed_ioctls ::= filter (not_pid pid) |>
     <| kernel_object_ptrs ::= filter (fun kv => kv.1.1.1 <> pid) |>
     <| process_winstations ::= delete pid |>.

Definition purge_tables (pid : Z) ev : EventLoop K :=
  let '(t, closed) := SideTables.purge_pid (side_tables ev) pid in
  ev <| side_tables := t |> <| kernel ::= close_all closed |> <| nt_timers ::= filter (fun t => (timer_key t).1 <> pid) |>.

Definition drop_pipe_reads (pid : Z) ev : EventLoop K :=
  ev <| kernel ::= close_all (pipe_fd <$> filter (fun r => apr_pid r = pid) (pending_pipe_reads ev)) |>
     <| pending_pipe_reads ::= filter (fun r => apr_pid r <> pid) |>
     <| completed_pipe_reads ::= filter (fun r => cpr_pid r <> pid) |>.

Definition drop_named_pipes (pid : Z) ev : EventLoop K :=
  let fds := client_data_fd <$> filter (fun i => server_pid i = pid) (concat (map_to_list (named_pipes ev)).*2) in
  ev <| kernel ::= close_all fds |>
     <| named_pipes ::= fun m => filter (fun kv => kv.2 <> []) (filter (fun i => server_pid i <> pid) <$> m) |>.

Definition dead_tids ev (pid : Z) : list Z :=
  (filter (fun kv => ServerState.pid kv.2 = pid) (map_to_list (all_threads (state ev)))).*1.

Definition drop_windows (tids : list Z) ev : EventLoop K :=
  let dead := (filter (fun kv => ws_tid kv.2 ∈ tids) (map_to_list (window_states ev))).*1 in
  fold_left (fun ev w =>
    ev <| window_states ::= delete w |> <| clipboard_listeners ::= fun s => s ∖ {[w]} |>
       <| window_properties ::= filter (fun kv => kv.1.1 <> w) |>
       <| win_timers_pending ::= delete w |> <| win_timers_expired ::= delete w |>) dead ev.

Definition drop_notifications (pid : Z) ev : EventLoop K :=
  ev <| registry ::= fun r => (Registry.remove_notifications_for_pid pid r).1 |>.

(** Mark the process as exited; a parent that still waits for its start is woken. *)
Definition mark_exited (pid : Z) ev : EventLoop K :=
  let did_init := match processes (state ev) !! pid with Some p => startup_done p | None => false end in
  let ev := ev <| state ::= fun st => st <| processes ::= alter (fun p => p <| exit_code := 0 |> <| startup_done := true |>) pid |> |> in
  if did_init then ev
  else
    let entries := (fun kv => (pi_parent_pid kv.2, kv.1)) <$>
      filter (fun kv => target_pid kv.2 = pid) (map_to_list (process_info_handles ev)) in
    fold_left (fun ev k => set_event k ev) entries ev.

Definition signal_process_exit (pid : Z) ev : EventLoop K :=
  let ev := ev <| process_idle_events ::= delete pid |> <| kernel ::= set_all (option_list (process_idle_events ev !! pid)) |> in
  ev <| process_exit_events ::= delete pid |> <| kernel ::= set_all (default [] (process_exit_events ev !! pid)).*2 |>.

Definition push_completion (port : Z) (msg : CompletionMsg) ev : EventLoop K :=
  ev <| completion_queues ::= fun q => <[port := default [] (q !! port) ++ [msg]]> q |>.

(** The loop that pops every waiter of a port; [ws] in pop order. *)
Fixpoint drain_waiters (port : Z) (ws : list CompletionWaiter) ev : EventLoop K :=
  match ws with
  | [] => ev
  | w :: ws =>
      let ev :=
        match completion_queues ev !! port with
        | Some (msg :: rest) =>
            set_event (w_pid w, wait_handle w)
              (ev <| completion_queues ::= <[port := rest]> |> <| thread_completion_cache ::= <[w_client_fd w := msg]> |>)
        | _ => ev
        end in
      drain_waiters port ws ev
  end.

Definition leave_job (pid : Z) (j : Job) : Job :=
  j <| job_processes ::= filter (fun p => p <> pid) |> <| num_processes ::= fun n => Z.max 0 (n - 1) |>.

Definition notify_job (pid : Z) ev : EventLoop K :=
  match process_job ev !! pid with
  | None => ev
  | Some oid =>
      let ev := ev <| process_job ::= delete pid |> in
      let info := job_port ev oid in
      let ev := ev <| jobs ::= alter (leave_job pid) oid |> in
      match info with
      | None => ev
      | Some (port, key) =>
          let ev := push_completion port (mkMsg key pid 0 4) ev in
          let zero := match jobs ev !! oid with Some j => bool_decide (num_processes j = 0) | None => false end in
          let ev := if zero then push_completion port (mkMsg key 0 0 8) ev else ev in
          match completion_waiters ev !! port with
          | Some ws => (drain_waiters port (rev ws) ev) <| completion_waiters ::= delete port |>
          | None => ev
          end
      end
  end.

Definition user_processes ev : list Z :=
  (filter (fun kp => kp.1 ∉ system_pids ev /\ threads kp.2 <> []) (map_to_list (processes (state ev)))).*1.

Definition LINGER_NS : Z := 5 * 1000000000.

(** The last user process starts the shutdown; the flag says that the registry
    was saved. *)
Definition check_shutdown (now pid : Z) ev : EventLoop K * bool :=
  if decide (pid ∉ system_pids ev /\ user_processes ev = []) then
    (ev <| kernel ::= set_all (option_list (shutdown_event ev)) |> <| linger_deadline := Some (now + LINGER_NS) |>, true)
  else (ev, false).

Definition remove_process (pid : Z) (tids : list Z) ev : EventLoop K :=
  let fds := filter (fun f => 0 <= f)
    (ntsync_obj_fd <$> filter (fun v => target_pid v = pid) (map_to_list (process_info_handles ev)).*2) in
  ev <| system_pids ::= fun s => s ∖ {[pid]} |>
     <| image_views ::= filter (not_pid pid) |>
     <| kernel ::= close_all fds |>
     <| process_info_handles ::= filter (fun kv => target_pid kv.2 <> pid) |>
     <| state ::= fun st => st <| all_threads ::= fun m => foldr delete m tids |> <| processes ::= delete pid |> |>.

Definition process_gone (now pid msg_fd : Z) ev : EventLoop K * bool :=
  let ev := close_inflight pid (ev <| msg_fd_map ::= delete msg_fd |>) in
  let ev := drop_named_pipes pid (drop_pipe_reads pid (purge_tables pid (retain_maps pid ev))) in
  let tids := dead_tids ev pid in
  let ev := drop_notifications pid (drop_windows tids ev) in
  let ev := notify_job pid (signal_process_exit pid (mark_exited pid ev)) in
  let '(ev, saved) := check_shutdown now pid ev in
  (remove_process pid tids ev, saved).

Definition disconnect_client (now fd : Z) ev : outcome (EventLoop K * bool) :=
  let '(pid, tid, m) := match clients ev !! fd with Some c => (process_id c, thread_id c, msg_fd c) | None => (0, 0, -1) end in
  ev <-! thread_gone fd pid tid ev ;;
  let remaining :=
    if decide (pid <> 0) then match processes (state ev) !! pid with Some p => length (threads p) | None => 0%nat end else 0%nat in
  if decide (pid <> 0 /\ tid <> 0 /\ remaining = 0%nat) then Ret (process_gone now pid m ev) else Ret (ev, false).

(** ** What the steps change *)
Lemma set_events_eq keys ev :
  exists k, fold_left (fun ev key => set_event key ev) keys ev = ev <| kernel := k |>.
Proof.
  revert ev; induction keys as [|key keys IH]; intros ev; cbn [fold_left]; [exists (kernel ev); by destruct ev|].
  rewrite set_event_eq. destruct (IH (ev <| kernel := set_all (option_list (fst <$> ntsync_objects ev !! key)) (kernel ev) |>)) as [k ->].
  exists k. by destruct ev.
Qed.

Lemma mark_exited_eq pid ev :
  exists k, mark_exited pid ev =
    ev <| state ::= fun st => st <| processes ::= alter (fun p => p <| exit_code := 0 |> <| startup_done := true |>) pid |> |>
       <| kernel := k |>.
Proof.
  unfold mark_exited. set (ev1 := ev <| state ::= _ |>). destruct (match processes (state ev) !! pid with Some p => startup_done p | None => false end).
  { exists (kernel ev1). unfold ev1. by destruct ev. }
  destruct (set_events_eq ((fun kv => (pi_parent_pid kv.2, kv.1)) <$>
      filter (fun kv => target_pid kv.2 = pid) (map_to_list (process_info_handles ev1))) ev1) as [k Hk].
  by exists k.
Qed.

Lemma drain_waiters_eq port ws ev :
  exists q c k, drain_waiters port ws ev = ev <| completion_queues := q |> <| thread_completion_cache := c |> <| kernel := k |>.
Proof.
  revert ev; induction ws as [|w ws IH]; intros ev; cbn [drain_waiters]; [shape ev|].
  destruct (completion_queues ev !! port) as [[|msg rest]|].
  - apply IH.
  - rewrite set_event_eq. match goal with |- context [drain_waiters port ws ?e] => destruct (IH e) as (q & c & k & ->) end.
    exists q, c, k. by destruct ev.
  - apply IH.
Qed.

Lemma notify_job_eq pid ev :
  exists j q w c k, notify_job pid ev =
    ev <| process_job ::= delete pid |> <| jobs := j |> <| completion_queues := q |> <| completion_waiters := w |>
       <| thread_completion_cache := c |> <| kernel := k |>.
Proof.
  unfold notify_job. destruct (process_job ev !! pid) as [oid|] eqn:Hj.
  2: { exists (jobs ev), (completion_queues ev), (completion_waiters ev), (thread_completion_cache ev), (kernel ev).
       assert (ev <| process_job ::= delete pid |> = ev) as -> by (destruct ev; unfold set, set_process_job; cbn in *; by rewrite delete_id).
       by destruct ev. }
  set (ev1 := ev <| process_job ::= delete pid |>). destruct (job_port ev1 oid) as [[port key]|].
  2: { unfold ev1. shape ev. }
  unfold push_completion. match goal with |- context [if ?b then _ else _] => destruct b end;
  match goal with |- context [completion_waiters ?e !! port] => destruct (completion_waiters e !! port) as [ws|] end.
  all: try match goal with |- context [drain_waiters ?p ?l ?e] => destruct (drain_waiters_eq p l e) as (q & c & k & ->) end.
  all: unfold ev1; shape ev.
Qed.

Lemma check_shutdown_eq now pid ev : exists k d, (check_shutdown now pid ev).1 = ev <| kernel := k |> <| linger_deadline := d |>.
Proof. unfold check_shutdown. case_decide; shape ev. Qed.

(** Deleting the windows of a list, one by one. *)
Definition drop_window ev (w : Z) : EventLoop K :=
  ev <| window_states ::= delete w |> <| clipboard_listeners ::= fun s => s ∖ {[w]} |>
     <| window_properties ::= filter (fun kv => kv.1.1 <> w) |>
     <| win_timers_pending ::= delete w |> <| win_timers_expired ::= delete w |>.

Lemma drop_list_eq dead ev :
  exists ws cl wp tp te, fold_left drop_window dead ev =
    ev <| window_states := ws |> <| clipboard_listeners := cl |> <| window_properties := wp |>
       <| win_timers_pending := tp |> <| win_timers_expired := te |> /\
    (forall w, ws !! w = if decide (w ∈ dead) then None else window_states ev !! w).
Proof.
  revert ev; induction dead as [|d dead IH]; intros ev; cbn [fold_left].
  { exists (window_states ev), (clipboard_listeners ev), (window_properties ev), (win_timers_pending ev), (win_timers_expired ev).
    split; [by destruct ev|]. intros w. by rewrite decide_False by apply not_elem_of_nil. }
  destruct (IH (drop_window ev d)) as (ws & cl & wp & tp & te & -> & Hws). exists ws, cl, wp, tp, te.
  split; [by destruct ev|]. intros w. rewrite Hws. unfold drop_window. recs. destruct (decide (w = d)) as [->|Hne].
  - rewrite (decide_True (P := d ∈ d :: dead)) by left. by rewrite lookup_delete_eq; case_decide.
  - rewrite lookup_delete_ne by done. destruct (decide (w ∈ dead)) as [Hin|Hin].
    + by rewrite decide_True by (by right).
    + rewrite decide_False; [done|]. intros [->|?]%elem_of_cons; done.
Qed.

Lemma drop_windows_eq tids ev :
  exists ws cl wp tp te, drop_windows tids ev =
    ev <| window_states := ws |> <| clipboard_listeners := cl |> <| window_properties := wp |>
       <| win_timers_pending := tp |> <| win_timers_expired := te |> /\
    (forall w s, ws !! w = Some s <-> window_states ev !! w = Some s /\ ws_tid s ∉ tids).
Proof.
  set (dead := (filter (fun kv => ws_tid kv.2 ∈ tids) (map_to_list (window_states ev))).*1).
  destruct (drop_list_eq dead ev) as (ws & cl & wp & tp & te & He & Hws). exists ws, cl, wp, tp, te. split; [exact He|].
  assert (forall w, w ∈ dead <-> exists s, window_states ev !! w = Some s /\ ws_tid s ∈ tids) as Hd.
  { intros w. unfold dead. rewrite list_elem_of_fmap. split.
    - intros ([w' s] & -> & [Hs Hin]%list_elem_of_filter). apply elem_of_map_to_list in Hin. eauto.
    - intros (s & Hw & Hs). exists (w, s). split; [done|]. apply list_elem_of_filter. split; [done|]. by apply elem_of_map_to_list. }
  intros w s. rewrite Hws. case_decide as Hin.
  - split; [done|]. intros [Hw Hns]. apply Hd in Hin as (s' & Hw' & Hs'). congruence.
  - split; [|by intros [? _]]. intros Hw. split; [done|]. intros Hs. apply Hin, Hd. eauto.
Qed.

Lemma purge_tables_eq pid ev :
  exists t k, purge_tables pid ev =
    ev <| side_tables := t |> <| kernel := k |> <| nt_timers ::= filter (fun t => (timer_key t).1 <> pid) |> /\
    (forall h, SideTables.at_key t (pid, h) = SideTables.no_state) /\
    (forall k, k.1 <> pid -> SideTables.at_key t k = SideTables.at_key (side_tables ev) k).
Proof.
  unfold purge_tables. pose proof (SideTables.purge_pid_spec (side_tables ev) pid) as Hp.
  destruct (SideTables.purge_pid (side_tables ev) pid) as [t closed]. destruct Hp as (H1 & H2 & _).
  exists t, (close_all closed (kernel ev)). split_and!; [by destruct ev|done|done].
Qed.

(** ** Nothing of the process is left *)
Record gone (pid : Z) ev : Prop := {
  g_process : processes (state ev) !! pid = None;
  g_threads : forall t th, all_threads (state ev) !! t = Some th -> ServerState.pid th <> pid;
  g_objects : forall h, ntsync_objects ev !! (pid, h) = None;
  g_recyclable : forall h, (pid, h) ∉ ntsync_recyclable ev;
  g_reads : forall a, pending_reads ev !! (pid, a) = None;
  g_ioctls : forall a, completed_ioctls ev !! (pid, a) = None;
  g_ptrs : forall m h, kernel_object_ptrs ev !! (pid, m, h) = None;
  g_views : forall o, image_views ev !! (pid, o) = None;
  g_side : forall h, SideTables.at_key (side_tables ev) (pid, h) = SideTables.no_state;
  g_timers : forall t, t ∈ nt_timers ev -> (timer_key t).1 <> pid;
  g_pipe_reads : forall r, r ∈ pending_pipe_reads ev -> apr_pid r <> pid;
  g_pipe_done : forall r, r ∈ completed_pipe_reads ev -> cpr_pid r <> pid;
  g_pipes : forall name l i, named_pipes ev !! name = Some l -> i ∈ l -> server_pid i <> pid;
  g_notify : forall n, n ∈ Registry.notify_list (registry ev) -> Registry.n_pid n <> pid;
  g_job : process_job ev !! pid = None;
  g_idle : process_idle_events ev !! pid = None;
  g_exit : process_exit_events ev !! pid = None;
  g_inflight : process_inflight_fds ev !! pid = None;
  g_winsta : process_winstations ev !! pid = None;
  g_system : pid ∉ system_pids ev;
  g_info : forall h v, process_info_handles ev !! h = Some v -> target_pid v <> pid;
}.

(** What other processes own is as before. *)
Record kept (pid : Z) (ev ev' : EventLoop K) : Prop := {
  k_process : forall p, p <> pid -> processes (state ev') !! p = processes (state ev) !! p;
  k_threads : forall t th, ServerState.pid th <> pid -> all_threads (state ev) !! t = Some th -> all_threads (state ev') !! t = Some th;
  k_objects : forall p h, p <> pid -> ntsync_objects ev' !! (p, h) = ntsync_objects ev !! (p, h);
  k_ptrs : forall p m h, p <> pid -> kernel_object_ptrs ev' !! (p, m, h) = kernel_object_ptrs ev !! (p, m, h);
  k_side : forall p h, p <> pid -> SideTables.at_key (side_tables ev') (p, h) = SideTables.at_key (side_tables ev) (p, h);
  k_timers : forall t, (timer_key t).1 <> pid -> t ∈ nt_timers ev -> t ∈ nt_timers ev';
  k_windows : forall w s, window_states ev' !! w = Some s <->
    window_states ev !! w = Some s /\ forall th, all_threads (state ev) !! ws_tid s = Some th -> ServerState.pid th <> pid;
  k_clients : clients ev' = clients ev;
  k_named : named_sync ev' = named_sync ev;
}.

Lemma dead_tids_spec ev pid t :
  t ∈ dead_tids ev pid <-> exists th, all_threads (state ev) !! t = Some th /\ ServerState.pid th = pid.
Proof.
  unfold dead_tids. rewrite list_elem_of_fmap. split.
  - intros ([t' th] & -> & [Hp Hin]%list_elem_of_filter). apply elem_of_map_to_list in Hin. eauto.
  - intros (th & Ht & Hp). exists (t, th). split; [done|]. apply list_elem_of_filter. split; [done|]. by apply elem_of_map_to_list.
Qed.

Lemma filter_not_pid_gone {A} (pid : Z) (m : gmap (Z * Z) A) (h : Z) : filter (not_pid pid) m !! (pid, h) = None.
Proof. apply map_lookup_filter_None_2. right. intros x _ Hn. by apply Hn. Qed.
Lemma filter_not_pid_kept {A} (pid p : Z) (m : gmap (Z * Z) A) (h : Z) : p <> pid -> filter (not_pid pid) m !! (p, h) = m !! (p, h).
Proof.
  intros Hp. destruct (m !! (p, h)) as [x|] eqn:Hx; [by apply map_lookup_filter_Some_2|].
  apply map_lookup_filter_None_2. by left.
Qed.

(** The fields of the loop after the death of a process. *)
Lemma process_gone_fields now pid m ev :
  let ev' := (process_gone now pid m ev).1 in
  (ntsync_objects ev' = filter (not_pid pid) (ntsync_objects ev) /\
   ntsync_recyclable ev' = filter (fun k => k.1 <> pid) (ntsync_recyclable ev) /\
   pending_reads ev' = filter (not_pid pid) (pending_reads ev) /\
   completed_ioctls ev' = filter (not_pid pid) (completed_ioctls ev) /\
   kernel_object_ptrs ev' = filter (fun kv => kv.1.1.1 <> pid) (kernel_object_ptrs ev) /\
   image_views ev' = filter (not_pid pid) (image_views ev) /\
   process_winstations ev' = delete pid (process_winstations ev) /\
   nt_timers ev' = filter (fun t => (timer_key t).1 <> pid) (nt_timers ev) /\
   pending_pipe_reads ev' = filter (fun r => apr_pid r <> pid) (pending_pipe_reads ev) /\
   completed_pipe_reads ev' = filter (fun r => cpr_pid r <> pid) (completed_pipe_reads ev)) /\
  (named_pipes ev' = filter (fun kv => kv.2 <> []) (filter (fun i => server_pid i <> pid) <$> named_pipes ev) /\
   registry ev' = (Registry.remove_notifications_for_pid pid (registry ev)).1 /\
   process_job ev' = delete pid (process_job ev) /\
   process_idle_events ev' = delete pid (process_idle_events ev) /\
   process_exit_events ev' = delete pid (process_exit_events ev) /\
   process_inflight_fds ev' = delete pid (process_inflight_fds ev) /\
   system_pids ev' = system_pids ev ∖ {[pid]} /\
   process_info_handles ev' = filter (fun kv => target_pid kv.2 <> pid) (process_info_handles ev) /\
   clients ev' = clients ev /\ named_sync ev' = named_sync ev) /\
  all_threads (state ev') = foldr delete (all_threads (state ev)) (dead_tids ev pid) /\
  (forall p, processes (state ev') !! p = if decide (p = pid) then None else processes (state ev) !! p) /\
  (forall h, SideTables.at_key (side_tables ev') (pid, h) = SideTables.no_state) /\
  (forall k, k.1 <> pid -> SideTables.at_key (side_tables ev') k = SideTables.at_key (side_tables ev) k) /\
  (forall w s, window_states ev' !! w = Some s <-> window_states ev !! w = Some s /\ ws_tid s ∉ dead_tids ev pid).
Proof.
  cbn zeta. unfold process_gone. set (ev1 := retain_maps pid (close_inflight pid (ev <| msg_fd_map ::= delete m |>))).
  destruct (purge_tables_eq pid ev1) as (t & k1 & Hp & Ht1 & Ht2). rewrite Hp. clear Hp.
  set (ev2 := drop_named_pipes _ _). assert (dead_tids ev2 pid = dead_tids ev pid) as Hd by reflexivity. rewrite Hd. clear Hd.
  destruct (drop_windows_eq (dead_tids ev pid) ev2) as (ws & cl & wp & tp & te & Hw & Hws). rewrite Hw. clear Hw.
  set (ev3 := drop_notifications _ _). destruct (mark_exited_eq pid ev3) as [k3 Hm]. rewrite Hm. clear Hm.
  set (ev4 := signal_process_exit _ _). destruct (notify_job_eq pid ev4) as (j & q & w & c & k4 & Hj). rewrite Hj. clear Hj.
  match goal with |- context [check_shutdown now pid ?e] => set (ev5 := e) end.
  destruct (check_shutdown_eq now pid ev5) as (k5 & d & Hs). destruct (check_shutdown now pid ev5) as [ev6 saved].
  cbn [fst] in Hs. rewrite Hs. clear Hs. cbn [fst]. split; [split_and!; reflexivity|]. split; [split_and!; reflexivity|].
  split_and!; [reflexivity| |exact Ht1|exact Ht2|exact Hws].
  intros p. change (delete pid (alter (fun p => p <| exit_code := 0 |> <| startup_done := true |>) pid (processes (state ev))) !! p =
    if decide (p = pid) then None else processes (state ev) !! p).
  case_decide as Hpp; [by rewrite Hpp, lookup_delete_eq|]. by rewrite lookup_delete_ne, lookup_alter_ne.
Qed.

Lemma foldr_delete_lookup {A} (m : gmap Z A) l t : foldr delete m l !! t = if decide (t ∈ l) then None else m !! t.
Proof.
  induction l as [|x l IH]; cbn [foldr]; [by rewrite decide_False by apply not_elem_of_nil|].
  destruct (decide (t = x)) as [->|Hne].
  - rewrite lookup_delete_eq. by rewrite decide_True by left.
  - rewrite lookup_delete_ne, IH by done. destruct (decide (t ∈ l)).
    + by rewrite decide_True by (by right).
    + rewrite decide_False; [done|]. intros [->|?]%elem_of_cons; done.
Qed.

Lemma process_gone_gone now pid m ev : gone pid (process_gone now pid m ev).1.
Proof.
  destruct (process_gone_fields now pid m ev) as
    ((F1 & F2 & F3 & F4 & F5 & F6 & F7 & F8 & F9 & F10) & (F11 & F12 & F13 & F14 & F15 & F16 & F17 & F18 & _ & _) & F21 & F22 & F23 & _ & _).
  set (ev' := (process_gone now pid m ev).1) in *. clearbody ev'. constructor.
  - by rewrite F22, decide_True.
  - intros t th. rewrite F21, foldr_delete_lookup. case_decide as Hin; [done|]. intros Ht Hp. apply Hin, dead_tids_spec. eauto.
  - intros h. rewrite F1. apply filter_not_pid_gone.
  - intros h. rewrite F2. by intros [Hn _]%elem_of_filter.
  - intros a. rewrite F3. apply filter_not_pid_gone.
  - intros a. rewrite F4. apply filter_not_pid_gone.
  - intros mg h. rewrite F5. apply map_lookup_filter_None_2. right. intros x _ Hn. by apply Hn.
  - intros o. rewrite F6. apply filter_not_pid_gone.
  - exact F23.
  - intros t. rewrite F8. by intros [? _]%list_elem_of_filter.
  - intros r. rewrite F9. by intros [? _]%list_elem_of_filter.
  - intros r. rewrite F10. by intros [? _]%list_elem_of_filter.
  - intros name l i. rewrite F11. intros [Hl _]%map_lookup_filter_Some. rewrite lookup_fmap in Hl.
    destruct (named_pipes ev !! name) as [l0|]; [|done]. apply (inj Some) in Hl as <-. by intros [? _]%list_elem_of_filter.
  - intros n. rewrite F12. cbn. by intros [? _]%list_elem_of_filter.
  - rewrite F13. apply lookup_delete_eq.
  - rewrite F14. apply lookup_delete_eq.
  - rewrite F15. apply lookup_delete_eq.
  - rewrite F16. apply lookup_delete_eq.
  - rewrite F7. apply lookup_delete_eq.
  - rewrite F17. set_solver.
  - intros h v. rewrite F18. by intros [_ ?]%map_lookup_filter_Some.
Qed.

Lemma process_gone_kept now pid m ev : kept pid ev (process_gone now pid m ev).1.
Proof.
  destruct (process_gone_fields now pid m ev) as
    ((F1 & _ & _ & _ & F5 & _ & _ & F8 & _ & _) & (_ & _ & _ & _ & _ & _ & _ & _ & F19 & F20) & F21 & F22 & _ & F24 & F25).
  set (ev' := (process_gone now pid m ev).1) in *. clearbody ev'. constructor.
  - intros p Hp. by rewrite F22, decide_False.
  - intros t th Hp Ht. rewrite F21, foldr_delete_lookup, decide_False; [done|].
    intros (th' & Ht' & Hp')%dead_tids_spec. congruence.
  - intros p h Hp. rewrite F1. by apply filter_not_pid_kept.
  - intros p mg h Hp. rewrite F5. destruct (kernel_object_ptrs ev !! (p, mg, h)) as [x|] eqn:Hx.
    + by apply map_lookup_filter_Some_2.
    + apply map_lookup_filter_None_2. by left.
  - intros p h Hp. by apply F24.
  - intros t Hp Ht. rewrite F8. by apply list_elem_of_filter.
  - intros w s. rewrite F25. split; intros [Hw Hs]; (split; [done|]).
    + intros th Hth Hp. apply Hs, dead_tids_spec. eauto.
    + intros (th & Hth & Hp)%dead_tids_spec. by apply (Hs th).
  - exact F19.
  - exact F20.
Qed.

(** ** The thread's part *)

(** The state of the server after the daemon allocated handles on its own: the
    same processes with the same threads. *)
Definition same_threads (st st' : ServerState) : Prop :=
  all_threads st' = all_threads st /\ forall p, threads <$> processes st' !! p = threads <$> processes st !! p.

Lemma alloc_waitable_eq c ev :
  exists k st h, alloc_waitable_handle_for_client c ev = (ev <| kernel := k |> <| state := st |>, h) /\ same_threads (state ev) st.
Proof.
  unfold alloc_waitable_handle_for_client, alloc_object_id, ServerState.alloc_object_id, on_kernel.
  set (st1 := mkServerState _ _ _ _). assert (same_threads (state ev) st1) as Hst by done. cbn beta iota zeta. clearbody st1.
  change (kernel (ev <| state := st1 |>)) with (kernel ev). destruct (eventfd (kernel ev)) as [k f].
  assert (forall k', ev <| state := st1 |> <| kernel := k' |> = ev <| kernel := k' |> <| state := st1 |>) as Hc by (by destruct ev).
  case_decide; [exists k, st1, 0; by rewrite Hc|].
  match goal with |- context [nonzero_pid ?e c] => destruct (nonzero_pid e c) as [pid|] end.
  2: { exists (close_fd f k), st1, 0. split; [by destruct ev|done]. }
  unfold allocate_in. match goal with |- context [processes (state ?e) !! pid] => change (processes (state e)) with (processes st1) end.
  destruct (processes st1 !! pid) as [p|] eqn:Hp.
  2: { exists (close_fd f k), st1, 0. split; [by destruct ev|done]. }
  destruct (HandleTable.allocate_full (handles p) _) as [t h].
  eexists k, (st1 <| processes ::= alter (fun p => p <| handles := t |>) pid |>), h. split; [by destruct ev|].
  destruct Hst as [Ha Ht]. split; [done|]. intros q. recs. rewrite <- Ht. destruct (decide (q = pid)) as [->|Hne].
  - rewrite lookup_alter_eq, Hp. done.
  - by rewrite lookup_alter_ne.
Qed.

Lemma same_threads_refl st : same_threads st st.
Proof. done. Qed.
Lemma same_threads_trans st1 st2 st3 : same_threads st1 st2 -> same_threads st2 st3 -> same_threads st1 st3.
Proof. intros [H1 H2] [H3 H4]. split; [congruence|]. intros p. by rewrite H4, H2. Qed.

Definition same_clients (c c' : gmap Z Client) : Prop := forall f, c' !! f = None <-> c !! f = None.

(** A loop that differs in the session memory, the kernel, handles the daemon
    allocated and queue handles of clients. *)
Definition woken (ev ev' : EventLoop K) : Prop :=
  exists s c k st, ev' = ev <| session := s |> <| clients := c |> <| kernel := k |> <| state := st |> /\
    same_threads (state ev) st /\ same_clients (clients ev) c.

Lemma woken_refl ev : woken ev ev.
Proof. exists (session ev), (clients ev), (kernel ev), (state ev). by destruct ev. Qed.
Lemma woken_trans ev1 ev2 ev3 : woken ev1 ev2 -> woken ev2 ev3 -> woken ev1 ev3.
Proof.
  intros (s & c & k & st & -> & Ht & Hc) (s' & c' & k' & st' & -> & Ht' & Hc'). exists s', c', k', st'.
  split_and!; [by destruct ev1|by eapply same_threads_trans|]. intros f. rewrite (Hc' f). apply Hc.
Qed.
Lemma woken_session s ev : woken ev (ev <| session := s |>).
Proof. exists s, (clients ev), (kernel ev), (state ev). by destruct ev. Qed.
Lemma woken_kernel k ev : woken ev (ev <| kernel := k |>).
Proof. exists (session ev), (clients ev), k, (state ev). by destruct ev. Qed.
Lemma woken_alter g f ev : woken ev (ev <| clients ::= alter g f |>).
Proof.
  exists (session ev), (alter g f (clients ev)), (kernel ev), (state ev). split_and!; [by destruct ev|done|].
  intros f'. rewrite <- !not_elem_of_dom. by rewrite dom_alter.
Qed.
Lemma woken_alloc c ev : woken ev (alloc_waitable_handle_for_client c ev).1.
Proof.
  destruct (alloc_waitable_eq c ev) as (k & st & h & -> & Hst). exists (session ev), (clients ev), k, st.
  split_and!; [by destruct ev|done|done].
Qed.
Lemma woken_set_event key ev : woken ev (set_event key ev).
Proof. rewrite set_event_eq. apply woken_kernel. Qed.

Lemma set_queue_bits_woken tid bits ev : woken ev (set_queue_bits_for_tid tid bits ev).
Proof.
  unfold set_queue_bits_for_tid. destruct (find_client tid ev) as [[cfd client]|]; [|apply woken_refl].
  set (ev1 := update_bits _ _ ev).
  assert (woken ev ev1) as H1.
  { unfold ev1, update_bits, shared_write. case_decide; [|apply woken_refl]. apply (woken_session _ ev). }
  eapply woken_trans; [exact H1|]. clearbody ev1. clear H1. case_decide as Hq.
  - pose proof (woken_alloc cfd ev1) as Ha. destruct (alloc_waitable_handle_for_client cfd ev1) as [ev2 h]. cbn [fst] in Ha.
    eapply woken_trans; [exact Ha|]. case_decide as Hh; [|rewrite decide_False by (intros Hn; by apply Hn); apply woken_refl].
    rewrite decide_True by done. eapply woken_trans; [|apply woken_set_event]. apply woken_alter.
  - case_decide; [apply woken_set_event|apply woken_refl].
Qed.

Lemma wake_all_woken senders ev : woken ev (fold_left (fun ev s => set_queue_bits_for_tid s 0x8000 ev) senders ev).
Proof.
  revert ev; induction senders as [|s l IH]; intros ev; cbn [fold_left]; [apply woken_refl|].
  eapply woken_trans; [apply set_queue_bits_woken|apply IH].
Qed.

(** The fields the thread's part leaves alone, and what it does to the rest. *)
Record thread_left (fd pid tid : Z) (ev ev' : EventLoop K) : Prop := {
  l_objects : ntsync_objects ev' = ntsync_objects ev;
  l_ptrs : kernel_object_ptrs ev' = kernel_object_ptrs ev;
  l_side : side_tables ev' = side_tables ev;
  l_timers : nt_timers ev' = nt_timers ev;
  l_windows : window_states ev' = window_states ev;
  l_named : named_sync ev' = named_sync ev;
  l_threads : all_threads (state ev') = all_threads (state ev);
  l_client : clients ev' !! fd = None;
  l_clients : forall f, f <> fd -> clients ev' !! f = None <-> clients ev !! f = None;
  l_members : forall p, threads <$> processes (state ev') !! p =
    (if decide (p = pid) then
       (fun l => filter (fun t => t ∈ connected_tids pid (delete fd (clients ev))) (filter (fun t => t <> tid) l))
     else (fun l => l)) <$> (threads <$> processes (state ev) !! p);
  l_queue : Shm.get_queue (shm ev') tid = None;
  l_queues : Shm.wf (shm ev') /\ forall t, t <> tid -> Shm.get_queue (shm ev') t = Shm.get_queue (shm ev) t;
  l_senders : SentMessages.pending (sent_messages ev') !! tid = None;
  l_waiters : forall p w, w ∈ default [] (completion_waiters ev' !! p) -> w_client_fd w <> fd;
  l_cache : thread_completion_cache ev' !! fd = None;
}.

Lemma drained_pending s tid : SentMessages.pending (SentMessages.drain_all_for_receiver s tid).1 !! tid = None.
Proof.
  unfold SentMessages.drain_all_for_receiver. destruct (SentMessages.pending s !! tid) eqn:Hp; cbn; [apply lookup_delete_eq|done].
Qed.

Lemma thread_gone_spec fd pid tid ev :
  Shm.wf (shm ev) -> pid <> 0 -> tid <> 0 -> exists ev', thread_gone fd pid tid ev = Ret ev' /\ thread_left fd pid tid ev ev'.
Proof.
  intros Hshm Hp Ht. unfold thread_gone, abandon_mutexes, free_queue, leave_process, wake_senders, forget_thread, signal_thread_exit.
  rewrite !(decide_True (P := tid <> 0)) by done.
  set (ev1 := remove_client fd _). assert (shm ev1 = shm ev) as Hs1 by reflexivity. rewrite Hs1.
  destruct (Shm.free_slot_spec (shm ev) tid Hshm) as (sm & -> & Hwf & Hmap & Hq). cbn [obind].
  rewrite (decide_True (P := pid <> 0)), (decide_True (P := pid <> 0 /\ tid <> 0)), !(decide_True (P := tid <> 0)) by done.
  match goal with |- context [SentMessages.drain_all_for_receiver (sent_messages ?e) tid] =>
    set (ev2 := e); change (sent_messages ev2) with (sent_messages ev) end.
  pose proof (drained_pending (sent_messages ev) tid) as Hd.
  destruct (SentMessages.drain_all_for_receiver (sent_messages ev) tid) as [sent senders]. cbn [fst] in Hd.
  destruct (wake_all_woken senders (ev2 <| sent_messages := sent |>)) as (s & c & k & st & He & Hst & Hc). rewrite He. clear He.
  eexists. split; [reflexivity|]. constructor; try reflexivity.
  - exact (proj1 Hst).
  - change (c !! fd = None). apply Hc. apply lookup_delete_eq.
  - intros f Hf. change (c !! f = None <-> clients ev !! f = None). rewrite (Hc f).
    change (delete fd (clients ev) !! f = None <-> clients ev !! f = None). by rewrite lookup_delete_ne.
  - intros p. change (threads <$> processes st !! p = (if decide (p = pid) then
       (fun l => filter (fun t => t ∈ connected_tids pid (delete fd (clients ev))) (filter (fun t => t <> tid) l))
     else (fun l => l)) <$> (threads <$> processes (state ev) !! p)).
    destruct Hst as [_ ->]. change (processes (state (ev2 <| sent_messages := sent |>))) with
      (alter (fun p => p <| threads ::= fun l => filter (fun t => t ∈ connected_tids pid (delete fd (clients ev))) (filter (fun t => t <> tid) l) |>)
         pid (processes (state ev))).
    case_decide as Hpp.
    + subst p. rewrite lookup_alter_eq. by destruct (processes (state ev) !! pid).
    + rewrite lookup_alter_ne by done. by destruct (processes (state ev) !! p).
  - change (Shm.get_queue sm tid = None). unfold Shm.get_queue. by rewrite Hmap, lookup_delete_eq.
  - split; [exact Hwf|exact Hq].
  - exact Hd.
  - intros p w. change (w ∈ default [] ((filter (fun w => w_client_fd w <> fd) <$> completion_waiters ev) !! p) -> w_client_fd w <> fd).
    rewrite lookup_fmap. destruct (completion_waiters ev !! p); cbn; [by intros [? _]%list_elem_of_filter|by intros ?%elem_of_nil].
  - change (delete fd (thread_completion_cache ev) !! fd = None). apply lookup_delete_eq.
Qed.

Lemma connected_none fd pid (cs : gmap Z Client) :
  (forall f c, cs !! f = Some c -> process_id c = pid -> thread_id c <> 0 -> f = fd) -> connected_tids pid (delete fd cs) = [].
Proof.
  intros Hu. unfold connected_tids. destruct (filter _ _) as [|c l] eqn:Hf; [done|]. exfalso.
  assert (c ∈ filter (fun c => process_id c = pid /\ thread_id c <> 0) (map_to_list (delete fd cs)).*2) as Hin by (rewrite Hf; left).
  apply list_elem_of_filter in Hin as [[Hp Ht] ([f c'] & -> & Hc)%list_elem_of_fmap].
  apply elem_of_map_to_list, lookup_delete_Some in Hc as [Hne Hc]. apply Hne. symmetry. by eapply Hu.
Qed.

(** C5: when the last thread of a process disconnects, the call succeeds and the
    tables that [gone] lists keep nothing of the process: its record, threads,
    objects, reads, mapped views, side state, timers, pipes, notifications and the
    rest; of the windows exactly those remain whose thread is of another process;
    and the objects, pointers, side state and timers of every other process and the
    named objects are untouched.  (Window timers are kept by thread and removed by
    window handle, so they are not among these tables: [window_timers_stay].) *)
Theorem disconnect_last_thread now fd ev c :
  clients ev !! fd = Some c -> process_id c <> 0 -> thread_id c <> 0 -> Shm.wf (shm ev) ->
  (forall f c', clients ev !! f = Some c' -> process_id c' = process_id c -> thread_id c' <> 0 -> f = fd) ->
  exists ev' saved, let pid := process_id c in let tid := thread_id c in
    disconnect_client now fd ev = Ret (ev', saved) /\ gone pid ev' /\ clients ev' !! fd = None /\
    (forall p h, p <> pid -> ntsync_objects ev' !! (p, h) = ntsync_objects ev !! (p, h)) /\
    (forall p m h, p <> pid -> kernel_object_ptrs ev' !! (p, m, h) = kernel_object_ptrs ev !! (p, m, h)) /\
    (forall p h, p <> pid -> SideTables.at_key (side_tables ev') (p, h) = SideTables.at_key (side_tables ev) (p, h)) /\
    (forall t, (timer_key t).1 <> pid -> t ∈ nt_timers ev -> t ∈ nt_timers ev') /\
    (forall w s, window_states ev' !! w = Some s <->
       window_states ev !! w = Some s /\ forall th, all_threads (state ev) !! ws_tid s = Some th -> ServerState.pid th <> pid) /\
    named_sync ev' = named_sync ev.
Proof.
  intros Hc Hp Ht Hshm Huniq. cbn zeta. unfold disconnect_client. rewrite Hc.
  destruct (thread_gone_spec fd (process_id c) (thread_id c) ev Hshm Hp Ht) as (ev1 & -> & Hl). cbn [obind].
  set (pid := process_id c) in *. set (tid := thread_id c) in *.
  assert (match processes (state ev1) !! pid with Some p => length (threads p) | None => 0%nat end = 0%nat) as Hz.
  { pose proof (l_members _ _ _ _ _ Hl pid) as Hm. rewrite decide_True in Hm by done. rewrite connected_none in Hm by done.
    destruct (processes (state ev1) !! pid) as [p|]; [|done]. cbn in Hm.
    destruct (threads <$> processes (state ev) !! pid) as [l|]; cbn in Hm; [|done]. apply (inj Some) in Hm as ->.
    rewrite filter_none; [done|]. intros x _ Hx. by apply not_elem_of_nil in Hx. }
  rewrite (decide_True (P := pid <> 0)), Hz, decide_True by done.
  pose proof (process_gone_gone now pid (msg_fd c) ev1) as Hg. pose proof (process_gone_kept now pid (msg_fd c) ev1) as Hk.
  destruct (process_gone now pid (msg_fd c) ev1) as [ev' saved]. cbn [fst] in Hg, Hk. exists ev', saved.
  split_and!; [done|done|..].
  - rewrite (k_clients _ _ _ Hk). apply (l_client _ _ _ _ _ Hl).
  - intros p h Hne. by rewrite (k_objects _ _ _ Hk), (l_objects _ _ _ _ _ Hl).
  - intros p m h Hne. by rewrite (k_ptrs _ _ _ Hk), (l_ptrs _ _ _ _ _ Hl).
  - intros p h Hne. by rewrite (k_side _ _ _ Hk), (l_side _ _ _ _ _ Hl).
  - intros t Hne Hin. apply (k_timers _ _ _ Hk); [done|]. by rewrite (l_timers _ _ _ _ _ Hl).
  - intros w s. rewrite (k_windows _ _ _ Hk), (l_windows _ _ _ _ _ Hl), (l_threads _ _ _ _ _ Hl). done.
  - by rewrite (k_named _ _ _ Hk), (l_named _ _ _ _ _ Hl).
Qed.

(** While another connected thread of the process remains, only the thread goes:
    it leaves the process's thread list, and the process, its objects and its
    handles stay. *)
Lemma disconnect_other_thread now fd ev c f c' p :
  clients ev !! fd = Some c -> process_id c <> 0 -> thread_id c <> 0 -> Shm.wf (shm ev) ->
  clients ev !! f = Some c' -> f <> fd -> process_id c' = process_id c -> thread_id c' <> 0 -> thread_id c' <> thread_id c ->
  processes (state ev) !! process_id c = Some p -> thread_id c' ∈ threads p ->
  exists ev' p', disconnect_client now fd ev = Ret (ev', false) /\ thread_left fd (process_id c) (thread_id c) ev ev' /\
    processes (state ev') !! process_id c = Some p' /\ thread_id c ∉ threads p' /\ thread_id c' ∈ threads p'.
Proof.
  intros Hc Hp Ht Hshm Hc' Hf Hp' Ht' Hne Hpr Hin. unfold disconnect_client. rewrite Hc.
  destruct (thread_gone_spec fd (process_id c) (thread_id c) ev Hshm Hp Ht) as (ev1 & -> & Hl). cbn [obind].
  pose proof (l_members _ _ _ _ _ Hl (process_id c)) as Hm. rewrite decide_True in Hm by done. rewrite Hpr in Hm. cbn in Hm.
  destruct (processes (state ev1) !! process_id c) as [p1|] eqn:Hp1; [|done]. apply (inj Some) in Hm.
  assert (thread_id c' ∈ threads p1) as Hin1.
  { rewrite Hm. apply list_elem_of_filter. split; [|by apply list_elem_of_filter]. unfold connected_tids.
    apply list_elem_of_fmap. exists c'. split; [done|]. apply list_elem_of_filter. split; [done|].
    apply list_elem_of_fmap. exists (f, c'). split; [done|]. apply elem_of_map_to_list. by rewrite lookup_delete_ne. }
  rewrite (decide_True (P := process_id c <> 0)), decide_False by (done || (intros (_ & _ & Hz); by destruct (threads p1); [apply elem_of_nil in Hin1|])).
  exists ev1, p1. split_and!; try done. rewrite Hm. intros [_ [Hx _]%list_elem_of_filter]%list_elem_of_filter. by apply Hx.
Qed.


End client.
End Client.

(** ** The definitions on a small loop *)
Module ClientDemo.
Import Ntsync ModelKernel Ipc Loop LoopDemo Completion CompletionDemo Client.

Lemma disconnect_last_thread_witness :
  exists ev' saved, disconnect_client 0 7 demo_loop = Ret (ev', saved) /\ gone 32 ev'.
Proof.
  destruct (disconnect_last_thread 0 7 demo_loop ((Ipc.new 7 8) <| process_id := 32 |> <| thread_id := 36 |>)) as (ev' & saved & Hr & Hg & _).
  - vm_compute. reflexivity.
  - vm_compute. congruence.
  - vm_compute. congruence.
  - apply (Shm.create_wf Shm.demo_sys). reflexivity.
  - intros f c' Hf Hp _.
    change (<[9 := (Ipc.new 9 10) <| process_id := 40 |> <| thread_id := 44 |>]>
              (<[7 := (Ipc.new 7 8) <| process_id := 32 |> <| thread_id := 36 |>]> (∅ : gmap Z Client)) !! f = Some c') in Hf.
    apply lookup_insert_Some in Hf as [[<- <-]|[_ Hf]]; [vm_compute in Hp; congruence|].
    apply lookup_insert_Some in Hf as [[<- <-]|[_ Hf]]; [reflexivity|]. vm_compute in Hf. congruence.
  - exists ev', saved. split; [exact Hr|exact Hg].
Defined.

(** When a job's process exits, every waiter of the job's port is taken off the
    list, also those for which there is no message: with two waiting threads and
    one message, one of them is never woken again. *)
Lemma job_exit_drops_waiters :
  let ev0 := demo_loop <| completion_waiters := {[100 := [mkWaiter 7 32 100; mkWaiter 9 40 100]]} |>
                       <| jobs := {[5 := mkJob [44; 48] 2 2 0 (Some 100) 1]} |> <| process_job := {[44 := 5]} |> in
  let ev1 := notify_job 44 ev0 in
  completion_waiters ev1 = ∅ /\ thread_completion_cache ev1 = {[9 := mkMsg 1 44 0 4]} /\
  thread_completion_cache (post 100 m1 ev1) !! 7 = None.
Proof. vm_compute. split_and!; reflexivity. Qed.

(** The timers of the windows are kept by thread, but looked for by window handle
    when a process ends: the timers of thread 36 outlive its process. *)
Theorem window_timers_stay :
  let ev0 := demo_loop <| win_timers_pending := {[36 := [mkWinTimer 0 10 0x20 0x113 1 0]]} |> in
  exists ev' saved, disconnect_client 0 7 ev0 = Ret (ev', saved)
    /\ ServerState.processes (state ev') !! 32 = None /\ win_timers_pending ev' = win_timers_pending ev0.
Proof. eexists _, _. split; [vm_compute; reflexivity|]. split; vm_compute; reflexivity. Qed.

End ClientDemo.
