(* ===== verification/Sync.v ===== *)
(** * Synchronisation requests
      ([src/rust/src/triskelion/event_loop/sync.rs], and the name helpers of
      [event_loop/mod.rs])

    Waits ([handle_select] with the thread it may start, the timer-only waits),
    events, mutexes, semaphores and their names, asynchronous results and the
    descriptors handed to clients.  Clock readings are arguments. *)

From stdpp Require Import base list gmap sorting strings.
From coqutil Require Import Datatypes.RecordSettersUsingExistingGetters.
From S2P Require Import Prelude Objects SideTables Dispatch Text Registry Loop Completion Session.
Local Open Scope Z_scope.
Local Open Scope outcome_scope.

Module Sync.
Import Text Replies Ntsync Ipc HandleTable ServerState Loop Completion Session.

(** ** Generated structs *)
Inductive sync_reply : Type :=
| SelectReply (h : ReplyHeader) (apc_handle signaled : Z)
| CreateEventReply (h : ReplyHeader) (handle : Z)
| EventOpReply (h : ReplyHeader) (state : Z)
| CreateMutexReply (h : ReplyHeader) (handle : Z)
| CreateSemaphoreReply (h : ReplyHeader) (handle : Z)
| ReleaseSemaphoreReply (h : ReplyHeader) (prev_count : Z)
| ReleaseMutexReply (h : ReplyHeader) (prev_count : Z)
| OpenEventReply (h : ReplyHeader) (handle : Z)
| CreateKeyedEventReply (h : ReplyHeader) (handle : Z)
| OpenMutexReply (h : ReplyHeader) (handle : Z)
| OpenSemaphoreReply (h : ReplyHeader) (handle : Z)
| OpenKeyedEventReply (h : ReplyHeader) (handle : Z)
| QueryEventReply (h : ReplyHeader) (manual_reset state : Z)
| QueryMutexReply (h : ReplyHeader) (count owned abandoned : Z)
| QuerySemaphoreReply (h : ReplyHeader) (current max : Z)
| CancelAsyncReply (h : ReplyHeader) (cancel_handle : Z)
| GetAsyncResultReply (h : ReplyHeader)
| SetAsyncDirectResultReply (h : ReplyHeader) (handle : Z)
| QueueExceptionEventReply (h : ReplyHeader) (handle : Z)
| QueueApcReply (h : ReplyHeader) (handle is_self : Z)
| GetApcResultReply (h : ReplyHeader) (result : list Z)
| GetInprocSyncFdReply (h : ReplyHeader) (type access : Z)
| GetInprocAlertFdReply (h : ReplyHeader) (handle : Z).

Record SelectRequest : Type := mkSelectRequest { sel_cookie : Z; sel_timeout : Z; sel_size : Z; prev_apc : Z }.

Class Protocol : Type := {
  layout : sync_reply -> list Z;
  select_request : list Z -> option SelectRequest;
  create_event_request : list Z -> option (Z * Z);
  event_op_request : list Z -> option (Z * Z);
  create_mutex_request : list Z -> option Z;
  create_semaphore_request : list Z -> option (Z * Z);
  release_semaphore_request : list Z -> option (Z * Z);
  release_mutex_request : list Z -> option Z;
  query_event_request : list Z -> option Z;
  query_mutex_request : list Z -> option Z;
  query_semaphore_request : list Z -> option Z;
  cancel_async_request : list Z -> option Z;
  get_async_result_request : list Z -> option Z;
  set_async_direct_result_request : list Z -> option (Z * Z);
  get_inproc_sync_fd_request : list Z -> option Z;
}.

Definition STATUS_TIMEOUT : Z := 0x102.
Definition STATUS_PENDING : Z := 0x103.
Definition STATUS_KERNEL_APC : Z := 0x100.
Definition STATUS_USER_APC : Z := 0xC0.
Definition STATUS_OBJECT_NAME_EXISTS : Z := 0x40000000.

(** ** Names *)

(** [rsplit('\').next()]: what follows the last backslash. *)
Fixpoint until_sep (s : str) : str :=
  match s with
  | c :: s' => if decide (c = 92) then [] else c :: until_sep s'
  | [] => []
  end.
Definition basename (s : str) : str := reverse (until_sep (reverse s)).

Definition short_name `{Lowercase} (name : str) : option str :=
  let short := basename name in
  if decide (short = []) then None else Some (to_lowercase short).

Definition extract_objattr_name `{Lowercase} (buf : list Z) : option str :=
  if decide (length buf < VARARG_OFF + 16)%nat then None
  else
    let oa := drop VARARG_OFF buf in
    let sd_len := get_u32 oa 8 in
    let name_len := get_u32 oa 12 in
    if decide (name_len = 0) then None
    else
      let name_start := (VARARG_OFF + 16 + Z.to_nat sd_len)%nat in
      let name_end := (name_start + Z.to_nat name_len)%nat in
      if decide (length buf < name_end)%nat then None
      else short_name (utf16le_to_string (slice name_start (Z.to_nat name_len) buf)).

Definition extract_open_name `{Lowercase} (buf : list Z) : option str :=
  if decide (length buf <= VARARG_OFF)%nat then None else short_name (utf16le_to_string (drop VARARG_OFF buf)).

(** ** Timeouts *)
Definition saturating_add (a b : Z) : Z := Z.min (a + b) U64_MAX.
Definition I64_MAX : Z := 2 ^ 63 - 1.

Definition compute_ntsync_timeout (mono : Z) (real : Z * Z) (timeout : Z) : Z :=
  if decide (timeout = I64_MAX) then U64_MAX
  else if decide (timeout < 0) then saturating_add mono (saturating_mul (u64 (- timeout)) 100)
  else if decide (0 < timeout) then
    let now_100ns := i64 (i64 (real.1 * 10000000) + Z.quot real.2 100 + TICKS_1601_TO_1970) in
    if decide (timeout <= now_100ns) then 1
    else saturating_add mono (saturating_mul (u64 (timeout - now_100ns)) 100)
  else 1.

Section handlers.
Context {K : Type} `{Ntsync K, Protocol, Lowercase}.
Implicit Types (ev : EventLoop K) (buf : list Z).

Definition fixed (r : sync_reply) : Reply := reply_fixed (layout r).

(** ** Timer-only waits

    [pending_waits] is a heap ordered by deadline; its order among equal deadlines
    is not documented, and [pop_min] takes the one that was pushed first. *)
Fixpoint pop_min (l : list PendingWait) : option (PendingWait * list PendingWait) :=
  match l with
  | [] => None
  | w :: l' =>
      match pop_min l' with
      | None => Some (w, [])
      | Some (m, rest) => if decide (deadline w <= deadline m) then Some (w, l') else Some (m, w :: rest)
      end
  end.

Definition arm_timer (now : Z) ev : EventLoop K :=
  ev <| timer := match pop_min (pending_waits ev) with
                 | Some (nearest, _) =>
                     let dur := if decide (now < deadline nearest) then deadline nearest - now else 1 in
                     (dur / 1000000000, dur mod 1000000000)
                 | None => (0, 0)
                 end |>.

Fixpoint wake_loop (fuel : nat) (now : Z) ev : outcome (EventLoop K) :=
  match pop_min (pending_waits ev) with
  | None => Ret ev
  | Some (top, rest) =>
      match fuel with
      | O => OutOfFuel
      | S fuel =>
          if decide (clients ev !! pw_client_fd top = None) then wake_loop fuel now (ev <| pending_waits := rest |>)
          else if decide (deadline top <= now) then
            wake_loop fuel now (send_wake_up top STATUS_TIMEOUT (ev <| pending_waits := rest |>))
          else Ret ev
      end
  end.

Definition check_pending_waits (now : Z) ev : outcome (EventLoop K) :=
  if decide (pending_waits ev = []) then Ret ev
  else ev <-! wake_loop (length (pending_waits ev)) now ev ;; Ret (arm_timer now ev).

(** ** Select *)

(** A thread that blocks in the kernel on behalf of a client. *)
Record WaitThread : Type := mkWaitThread {
  wt_all : bool; wt_fds : list Z; wt_timeout : Z; wt_owner : Z; wt_alert : Z; wt_cookie : Z; wt_wait_fd : Z }.

(** Its body: the blocking wait, and one message on its own copy of the client's
    wait descriptor unless the flag says that the message was written already.
    [flag] and [flag'] are the two loads of the flag. *)
Definition run_wait_thread (flag flag' : bool) (w : WaitThread) (k : K) : K :=
  let '(k, result) :=
    (if wt_all w then wait_all_blocking else wait_any_blocking) (wt_fds w) (wt_timeout w) (wt_owner w) (wt_alert w) k in
  let finish signaled k := close_fd (wt_wait_fd w) (write_fd (wt_wait_fd w) (wake_up_reply (wt_cookie w) signaled) k) in
  if flag then close_fd (wt_wait_fd w) k
  else
    match result with
    | Signaled index => finish (i32 index) k
    | Timeout => finish STATUS_TIMEOUT k
    | Alerted => if flag' then close_fd (wt_wait_fd w) k else finish STATUS_KERNEL_APC k
    | WaitError => finish STATUS_TIMEOUT k
    end.

(** The last APC queued for the client. *)
Definition pop_apc (client_fd : Z) ev : EventLoop K * option (list Z) :=
  match pending_kernel_apcs ev !! client_fd with
  | Some apcs =>
      match last apcs with
      | Some apc =>
          (match removelast apcs with
           | [] => ev <| pending_kernel_apcs ::= delete client_fd |>
           | rest => ev <| pending_kernel_apcs ::= <[client_fd := rest]> |>
           end, Some apc)
      | None => (ev, None)
      end
  | None => (ev, None)
  end.

Definition deliver_apc (client_fd : Z) (apc_data : list Z) ev : EventLoop K * Reply :=
  let pid := client_pid ev client_fd in
  let '(ev, oid) := alloc_object_id ev in
  let '(ev, apc_handle) :=
    match processes (state ev) !! pid with
    | Some p => let '(t, h) := allocate (handles p) oid in (with_handles pid t ev, h)
    | None => (ev, 0)
    end in
  let ev := ev <| client_apc_flags ::= alter (fun _ => false) client_fd |>
               <| clients ::= alter (fun c => c <| current_wait_cookie := 0 |>) client_fd |> in
  let apc_type := get_u32 apc_data 0 in
  let status := if decide (2 <= apc_type) then STATUS_KERNEL_APC else STATUS_USER_APC in
  (ev, reply_vararg (layout (SelectReply (mkReplyHeader status (u32 (blen apc_data))) apc_handle 1)) apc_data).

(** The client acknowledges an APC: its deferred events are signalled and the
    handle of the APC is closed. *)
Definition ack_apc (client_fd apc : Z) ev : outcome (EventLoop K) :=
  let pid := client_pid ev client_fd in
  let events := default [] (deferred_event_signals ev !! client_fd) in
  let ev := fold_left (fun ev k => set_event k ev) events (ev <| deferred_event_signals ::= delete client_fd |>) in
  match processes (state ev) !! pid with
  | Some p =>
      r <-! HandleTable.close (handles p) apc ;;
      let '(t, _, closed) := r in Ret ((with_handles pid t ev) <| kernel ::= close_all closed |>)
  | None => Ret ev
  end.

(** The offset of the operation behind the 40 bytes of the APC result. *)
Definition SELECT_OP_OFF : nat := VARARG_OFF + 40.

Definition handle_at buf (i : nat) : option Z :=
  let off := (SELECT_OP_OFF + 4 + i * 4)%nat in
  if decide (length buf < off + 4)%nat then None else Some (get_u32 buf off).

(** The objects of [n] handles from the [i]th on; an unknown handle gets a signalled
    event.  [None] when a handle is cut off or has no object. *)
Fixpoint collect (pid : Z) (n i : nat) buf ev : EventLoop K * option (list Z) :=
  match n with
  | O => (ev, Some [])
  | S n' =>
      match handle_at buf i with
      | None => (ev, None)
      | Some h =>
          let '(ev, found) :=
            match ntsync_objects ev !! (pid, h) with
            | Some (obj, _) => (ev, Some obj)
            | None =>
                match get_or_create_event false true ev with
                | (ev, Some obj) => (insert_recyclable_event pid h obj 2 ev, Some obj)
                | (ev, None) => (ev, None)
                end
            end in
          match found with
          | None => (ev, None)
          | Some obj => let '(ev, rest) := collect pid n' (S i) buf ev in (ev, cons obj <$> rest)
          end
      end
  end.

(** Listening pipes whose event is waited for remember the wait's cookie. *)
Definition capture_cookie (pid : Z) (hs : list Z) (c : Z) (info : NamedPipeInfo) : NamedPipeInfo :=
  match listen_event info with
  | Some (ep, eh) =>
      if decide (ep = pid /\ eh ∈ hs) then info <| listen_async ::= fmap (fun la => la <| cookie := c |>) |> else info
  | None => info
  end.

Record WaitSet : Type := mkWaitSet { ws_all : bool; ws_owner : Z; ws_fds : list Z }.

Definition parse_wait (client_fd : Z) (req : SelectRequest) buf ev : EventLoop K * WaitSet :=
  if decide (0 < sel_size req /\ ntsync ev = true /\ (SELECT_OP_OFF + 4 <= length buf)%nat /\ 4 <= sel_size req) then
    let opcode := get_u32 buf SELECT_OP_OFF in
    let all := bool_decide (opcode = 2) in
    if decide (opcode = 1 \/ opcode = 2) then
      let count := Z.to_nat ((sel_size req - 4) / 4) in
      let pid := client_pid ev client_fd in
      let tid := default 0 (client_thread_id ev client_fd) in
      let '(ev, fds) := collect pid count 0 buf ev in
      let hs := omap (handle_at buf) (seq 0 count) in
      (ev <| named_pipes ::= fmap (map (capture_cookie pid hs (sel_cookie req))) |>, mkWaitSet all tid (default [] fds))
    else (ev, mkWaitSet all 0 [])
  else (ev, mkWaitSet false 0 []).

(** The poll before the wait: [Some] is the status of an immediate reply. *)
Definition poll_now (req : SelectRequest) (ws : WaitSet) ev : EventLoop K * option Z :=
  match ws_fds ws with
  | [] => (ev, if decide (sel_timeout req = 0) then Some STATUS_TIMEOUT else None)
  | fds =>
      if ntsync ev then
        match on_kernel ((if ws_all ws then wait_all else wait_any) fds 1 (ws_owner ws)) ev with
        | (ev, Signaled index) => (ev, Some (i32 index))
        | (ev, _) => (ev, if decide (sel_timeout req = 0) then Some STATUS_TIMEOUT else None)
        end
      else (ev, None)
  end.

(** The first blocking wait of a process signals its idle event. *)
Definition signal_idle (client_fd : Z) ev : EventLoop K :=
  let pid := client_pid ev client_fd in
  match processes (state ev) !! pid with
  | Some p =>
      if idle_signaled p then ev
      else ev <| kernel ::= set_all (option_list (process_idle_events ev !! pid)) |>
              <| state ::= fun st => st <| processes ::= alter (fun p => p <| idle_signaled := true |>) pid |> |>
  | None => ev
  end.

(** A wait on kernel objects moves to a thread when the client's wait descriptor
    can be duplicated. *)
Definition start_thread (client_fd timeout_ns : Z) (req : SelectRequest) (ws : WaitSet) ev : EventLoop K * option WaitThread :=
  match ws_fds ws with
  | [] => (ev, None)
  | fds =>
      let '(ev, alert) := get_or_create_worker_interrupt client_fd ev in
      let ev := get_or_create_apc_flag client_fd ev in
      match clients ev !! client_fd ≫= wait_fd with
      | Some wfd =>
          let ev := ev <| clients ::= alter (fun c => c <| current_wait_cookie := sel_cookie req |>) client_fd |> in
          let '(ev, d) := on_kernel (dup_fd wfd) ev in
          (ev, if decide (0 <= d) then Some (mkWaitThread (ws_all ws) fds timeout_ns (ws_owner ws) alert (sel_cookie req) d) else None)
      | None => (ev, None)
      end
  end.

Definition wait_deadline (now mono timeout_ns : Z) : Z :=
  if decide (timeout_ns = U64_MAX) then now + 86400 * 1000000000 else now + Z.max 0 (timeout_ns - mono).

(** [now] is the [Instant] clock, [mono] and [mono'] the two readings of
    CLOCK_MONOTONIC, [real] the wall clock. *)
Record Clock : Type := mkClock { c_now : Z; c_mono : Z; c_mono' : Z; c_real : Z * Z }.

Definition pending : Reply := fixed (SelectReply (hdr STATUS_PENDING) 0 0).

(** The rest of [handle_select] once APCs and suspension are dealt with. *)
Definition select_wait (clk : Clock) (client_fd : Z) (req : SelectRequest) buf ev : EventLoop K * Reply * option WaitThread :=
  let '(ev, ws) := parse_wait client_fd req buf ev in
  match poll_now req ws ev with
  | (ev, Some signaled) => (ev, fixed (SelectReply (hdr (u32 signaled)) 0 1), None)
  | (ev, None) =>
      let timeout_ns := compute_ntsync_timeout (c_mono clk) (c_real clk) (sel_timeout req) in
      let ev := if decide (ws_fds ws <> [] \/ 1000000 < timeout_ns) then signal_idle client_fd ev else ev in
      match start_thread client_fd timeout_ns req ws ev with
      | (ev, Some w) => (ev, pending, Some w)
      | (ev, None) =>
          let d := wait_deadline (c_now clk) (c_mono' clk) timeout_ns in
          let ev := ev <| pending_waits ::= fun l => l ++ [mkPendingWait d client_fd (sel_cookie req)] |> in
          (arm_timer (c_now clk) ev, pending, None)
      end
  end.

(** A select that carries thread contexts and no operation suspends the thread. *)
Definition suspends (client_fd : Z) (req : SelectRequest) buf ev : bool :=
  let tid := default 0 (client_thread_id ev client_fd) in
  bool_decide (SELECT_OP_OFF + Z.to_nat (sel_size req) < length buf)%nat && bool_decide (sel_size req = 0) &&
  match all_threads (state ev) !! tid with Some t => bool_decide (0 < suspend_count t) | None => false end.

(** [handle_select] once no APC is left. *)
Definition after_apcs (clk : Clock) (client_fd : Z) (req : SelectRequest) buf ev : EventLoop K * Reply * option WaitThread :=
  if suspends client_fd req buf ev then
    (ev <| clients ::= alter (fun c => c <| suspend_cookie := sel_cookie req |>) client_fd |>, pending, None)
  else select_wait clk client_fd req buf ev.

Definition handle_select (clk : Clock) (client_fd : Z) buf ev : outcome (EventLoop K * Reply * option WaitThread) :=
  match select_request buf with
  | None => Ret (ev, status_reply 0xC000000D, None)
  | Some req =>
      match pop_apc client_fd ev with
      | (ev, Some apc) => let '(ev, r) := deliver_apc client_fd apc ev in Ret (ev, r, None)
      | (ev, None) =>
          ev <-! (if decide (prev_apc req <> 0) then ack_apc client_fd (prev_apc req) ev else Ret ev) ;;
          Ret (after_apcs clk client_fd req buf ev)
      end
  end.

(** ** Events, mutexes and semaphores *)

(** A handle for the object a name already stands for. *)
Definition open_named (pid handle canonical sync_type : Z) ev : EventLoop K * bool :=
  let '(ev, d) := on_kernel (dup_fd canonical) ev in
  if decide (0 <= d) then (ev <| ntsync_objects ::= <[(pid, handle) := (d, sync_type)]> |>, true) else (ev, false).

(** The name keeps a descriptor of its own for the object. *)
Definition register_name (name : str) (obj sync_type : Z) ev : EventLoop K :=
  let '(ev, d) := on_kernel (dup_fd obj) ev in
  if decide (0 <= d) then ev <| named_sync ::= <[name := (d, sync_type)]> |> else ev.

Definition insert_object (pid handle obj sync_type : Z) ev : EventLoop K :=
  ev <| ntsync_objects ::= <[(pid, handle) := (obj, sync_type)]> |> <| ntsync_objects_created ::= fun n => u64 (n + 1) |>.

Definition named (name : option str) ev : option (Z * Z) := name ≫= fun n => named_sync ev !! n.

Definition new_event (name : option str) (manual signaled : bool) (pid handle : Z) ev : EventLoop K :=
  match get_or_create_event manual signaled ev with
  | (ev, Some obj) =>
      match name with
      | Some n => insert_object pid handle obj 2 (register_name n obj 2 ev)
      | None => insert_recyclable_event pid handle obj 2 ev
      end
  | (ev, None) => ev
  end.

Definition handle_create_event (client_fd : Z) buf ev : EventLoop K * Reply :=
  let '(manual, initial) :=
    match create_event_request buf with
    | Some (m, i) => (bool_decide (m <> 0), bool_decide (i <> 0))
    | None => (false, false)
    end in
  let name := extract_objattr_name buf in
  let '(ev, handle) := alloc_waitable_handle_for_client client_fd ev in
  let pid := client_pid ev client_fd in
  if decide (handle = 0) then (ev, fixed (CreateEventReply (hdr 0) handle))
  else
    match named name ev with
    | Some (canonical, st) =>
        ((open_named pid handle canonical st ev).1, fixed (CreateEventReply (hdr STATUS_OBJECT_NAME_EXISTS) handle))
    | None => (new_event name manual initial pid handle ev, fixed (CreateEventReply (hdr 0) handle))
    end.

(** [op] on the object; a failed call counts as state 0. *)
Definition event_op (op obj : Z) ev : EventLoop K * Z :=
  let call f := let '(ev, r) := on_kernel (f obj) ev in (ev, match r with inl prev => prev | inr _ => 0 end) in
  if decide (op = 1) then call event_set
  else if decide (op = 2) then call event_reset
  else if decide (op = 0) then call event_pulse
  else (ev, 0).

Definition handle_event_op (client_fd : Z) buf ev : EventLoop K * Reply :=
  let pid := client_pid ev client_fd in
  let refused ev := (ev, fixed (EventOpReply (hdr 0xC0000008) 0)) in
  match event_op_request buf with
  | None => refused ev
  | Some (handle, op) =>
      match ntsync_objects ev !! (pid, handle) with
      | Some (obj, _) => let '(ev, prev) := event_op op obj ev in (ev, fixed (EventOpReply (hdr 0) (i32 prev)))
      | None =>
          match get_or_create_event true false ev with
          | (ev, Some obj) =>
              let '(ev, prev) := event_op op obj ev in
              (ev <| ntsync_objects ::= <[(pid, handle) := (obj, 2)]> |>, fixed (EventOpReply (hdr 0) (i32 prev)))
          | (ev, None) => refused ev
          end
      end
  end.

(** A new mutex or semaphore, made by [create]. *)
Definition new_object (create : K -> K * option Z) (name : option str) (sync_type pid handle : Z) ev : EventLoop K :=
  if ntsync ev then
    match on_kernel create ev with
    | (ev, Some obj) =>
        let ev := match name with Some n => register_name n obj sync_type ev | None => ev end in
        insert_object pid handle obj sync_type ev
    | (ev, None) => ev
    end
  else ev.

Definition handle_create_mutex (client_fd : Z) buf ev : EventLoop K * Reply :=
  let owned := match create_mutex_request buf with Some o => bool_decide (o <> 0) | None => false end in
  let tid := default 0 (client_thread_id ev client_fd) in
  let name := extract_objattr_name buf in
  let '(ev, handle) := alloc_waitable_handle_for_client client_fd ev in
  let pid := client_pid ev client_fd in
  if decide (handle = 0) then (ev, fixed (CreateMutexReply (hdr 0) handle))
  else
    match named name ev with
    | Some (canonical, st) =>
        ((open_named pid handle canonical st ev).1, fixed (CreateMutexReply (hdr STATUS_OBJECT_NAME_EXISTS) handle))
    | None =>
        let '(owner, count) := if owned then (tid, 1) else (0, 0) in
        (new_object (create_mutex owner count) name 3 pid handle ev, fixed (CreateMutexReply (hdr 0) handle))
    end.

Definition handle_create_semaphore (client_fd : Z) buf ev : EventLoop K * Reply :=
  let '(initial, max) := default (0, 1) (create_semaphore_request buf) in
  let name := extract_objattr_name buf in
  let '(ev, handle) := alloc_waitable_handle_for_client client_fd ev in
  let pid := client_pid ev client_fd in
  if decide (handle = 0) then (ev, fixed (CreateSemaphoreReply (hdr 0) handle))
  else
    match named name ev with
    | Some (canonical, st) =>
        ((open_named pid handle canonical st ev).1, fixed (CreateSemaphoreReply (hdr STATUS_OBJECT_NAME_EXISTS) handle))
    | None => (new_object (create_sem initial max) name 4 pid handle ev, fixed (CreateSemaphoreReply (hdr 0) handle))
    end.

Definition handle_release_semaphore (client_fd : Z) buf ev : EventLoop K * Reply :=
  let refused ev := (ev, fixed (ReleaseSemaphoreReply (hdr 0xC0000008) 0)) in
  match release_semaphore_request buf with
  | None => refused ev
  | Some (handle, count) =>
      match ntsync_objects ev !! (client_pid ev client_fd, handle) with
      | Some (obj, _) =>
          match on_kernel (sem_release obj count) ev with
          | (ev, inl prev) => (ev, fixed (ReleaseSemaphoreReply (hdr 0) prev))
          | (ev, inr _) => refused ev
          end
      | None => refused ev
      end
  end.

Definition handle_release_mutex (client_fd : Z) buf ev : EventLoop K * Reply :=
  let refused ev := (ev, fixed (ReleaseMutexReply (hdr 0xC0000008) 0)) in
  match release_mutex_request buf with
  | None => refused ev
  | Some handle =>
      match ntsync_objects ev !! (client_pid ev client_fd, handle) with
      | Some (obj, _) =>
          match on_kernel (mutex_unlock obj (default 0 (client_thread_id ev client_fd))) ev with
          | (ev, inl prev) => (ev, fixed (ReleaseMutexReply (hdr 0) prev))
          | (ev, inr _) => refused ev
          end
      | None => refused ev
      end
  end.

(** The common body of the open requests; [manual] is the kind of the event that
    stands in when the object cannot be duplicated. *)
Definition open_object (manual : Z -> bool) (client_fd : Z) buf ev : EventLoop K * option Z :=
  let pid := client_pid ev client_fd in
  match named (extract_open_name buf) ev with
  | Some (canonical, st) =>
      let '(ev, handle) := alloc_waitable_handle_for_client client_fd ev in
      let ev :=
        if decide (handle = 0) then ev
        else
          match open_named pid handle canonical st ev with
          | (ev, true) => ev
          | (ev, false) =>
              match get_or_create_event (manual st) false ev with
              | (ev, Some fallback) => ev <| ntsync_objects ::= <[(pid, handle) := (fallback, st)]> |>
              | (ev, None) => ev
              end
          end in
      (ev, Some handle)
  | None => (ev, None)
  end.

Definition handle_open_event (client_fd : Z) buf ev : EventLoop K * Reply :=
  match open_object (fun st => bool_decide (st = 4)) client_fd buf ev with
  | (ev, Some handle) => (ev, fixed (OpenEventReply (hdr 0) handle))
  | (ev, None) => (ev, fixed (OpenEventReply (hdr 0xc0000034) 0))
  end.
Definition handle_open_mutex (client_fd : Z) buf ev : EventLoop K * Reply :=
  match open_object (fun _ => false) client_fd buf ev with
  | (ev, Some handle) => (ev, fixed (OpenMutexReply (hdr 0) handle))
  | (ev, None) => (ev, fixed (OpenMutexReply (hdr 0xc0000034) 0))
  end.
Definition handle_open_semaphore (client_fd : Z) buf ev : EventLoop K * Reply :=
  match open_object (fun _ => false) client_fd buf ev with
  | (ev, Some handle) => (ev, fixed (OpenSemaphoreReply (hdr 0) handle))
  | (ev, None) => (ev, fixed (OpenSemaphoreReply (hdr 0xc0000034) 0))
  end.

Definition handle_create_keyed_event (client_fd : Z) buf ev : EventLoop K * Reply :=
  let '(ev, handle) := alloc_waitable_handle_for_client client_fd ev in
  if decide (handle = 0) then (ev, status_reply 0xC0000017)
  else (insert_internal (client_pid ev client_fd) handle ev, fixed (CreateKeyedEventReply (hdr 0) handle)).

Definition handle_open_keyed_event (client_fd : Z) buf ev : EventLoop K * Reply :=
  let '(ev, oid) := alloc_object_id ev in
  let '(ev, handle) := alloc_handle_for_client client_fd oid ev in
  if decide (handle = 0) then (ev, status_reply 0xC0000017) else (ev, fixed (OpenKeyedEventReply (hdr 0) handle)).

(** What a reading of the object behind a requested handle says. *)
Definition query_object {A} (read : Z -> K -> option A) (client_fd : Z) (handle : option Z) ev : option A :=
  handle ≫= fun h => ntsync_objects ev !! (client_pid ev client_fd, h) ≫= fun '(obj, _) => read obj (kernel ev).

Definition handle_query_event (client_fd : Z) buf ev : EventLoop K * Reply :=
  let '(manual, signaled) := default (0, 0) (query_object event_read client_fd (query_event_request buf) ev) in
  (ev, fixed (QueryEventReply (hdr 0) (i32 manual) (i32 signaled))).

Definition handle_query_mutex (client_fd : Z) buf ev : EventLoop K * Reply :=
  let '(owner, count) := default (0, 0) (query_object mutex_read client_fd (query_mutex_request buf) ev) in
  (ev, fixed (QueryMutexReply (hdr 0) count (if decide (owner <> 0) then 1 else 0) 0)).

Definition handle_query_semaphore (client_fd : Z) buf ev : EventLoop K * Reply :=
  let '(current, max) := default (0, 1) (query_object sem_read client_fd (query_semaphore_request buf) ev) in
  (ev, fixed (QuerySemaphoreReply (hdr 0) current max)).

(** ** Asynchronous results *)
Definition handle_register_async (client_fd : Z) buf ev : EventLoop K * Reply := (ev, status_reply 0).

Definition handle_cancel_async (client_fd : Z) buf ev : EventLoop K * Reply :=
  match cancel_async_request buf with
  | None => (ev, status_reply 0xC000000D)
  | Some handle =>
      let pid := client_pid ev client_fd in
      let ev :=
        if decide (handle <> 0) then
          match handle_entry ev pid handle ≫= fd with
          | Some tfd => ev <| pending_reads ::= filter (fun kv => ~ (kv.1.1 = pid /\ pr_fd kv.2 = tfd)) |>
          | None => ev
          end
        else ev <| pending_reads ::= filter (fun kv => kv.1.1 <> pid) |> in
      (ev, fixed (CancelAsyncReply (hdr 0) 0))
  end.

(** [position] and [Vec::remove]: the first read completed for the client. *)
Fixpoint take_completed (pid client_fd : Z) (l : list CompletedPipeRead) : option (CompletedPipeRead * list CompletedPipeRead) :=
  match l with
  | [] => None
  | r :: l' =>
      if decide (cpr_pid r = pid /\ cpr_client_fd r = client_fd) then Some (r, l')
      else match take_completed pid client_fd l' with
           | Some (r', rest) => Some (r', r :: rest)
           | None => None
           end
  end.

Definition handle_get_async_result `{Sockets K} (client_fd : Z) buf ev : EventLoop K * Reply :=
  match get_async_result_request buf with
  | None => (ev, status_reply 0xC000000D)
  | Some user_arg =>
      let pid := client_pid ev client_fd in
      match completed_ioctls ev !! (pid, user_arg) with
      | Some status =>
          (ev <| completed_ioctls ::= delete (pid, user_arg) |>, fixed (GetAsyncResultReply (hdr status)))
      | None =>
          match take_completed pid client_fd (completed_pipe_reads ev) with
          | Some (cr, rest) =>
              let ev := ev <| completed_pipe_reads := rest |> in
              (ev, if decide (cpr_data cr = []) then fixed (GetAsyncResultReply (hdr 0xC000014B))
                   else reply_vararg (layout (GetAsyncResultReply (mkReplyHeader 0 (u32 (blen (cpr_data cr)))))) (cpr_data cr))
          | None =>
              match pending_reads ev !! (pid, user_arg) with
              | Some pr =>
                  match on_kernel (recv_nb (pr_fd pr) (pr_max_bytes pr)) ev with
                  | (ev, inl (b :: data)) =>
                      (ev <| pending_reads ::= delete (pid, user_arg) |>,
                       reply_vararg (layout (GetAsyncResultReply (mkReplyHeader 0 (u32 (blen (b :: data)))))) (b :: data))
                  | (ev, _) => (ev, status_reply STATUS_PENDING)
                  end
              | None => (ev, status_reply STATUS_PENDING)
              end
          end
      end
  end.

Definition handle_set_async_direct_result (client_fd : Z) buf ev : EventLoop K * Reply :=
  let handle := match set_async_direct_result_request buf with
                | Some (handle, mark_pending) => if decide (mark_pending <> 0) then handle else 0
                | None => 0
                end in
  (ev, fixed (SetAsyncDirectResultReply (hdr 0) handle)).

Definition handle_cancel_sync (client_fd : Z) buf ev : EventLoop K * Reply := (ev, status_reply 0).
Definition handle_queue_exception_event (client_fd : Z) buf ev : EventLoop K * Reply :=
  (ev, fixed (QueueExceptionEventReply (hdr 0xC0000077) 0)).
Definition handle_queue_apc (client_fd : Z) buf ev : EventLoop K * Reply := (ev, fixed (QueueApcReply (hdr 0) 0 1)).
Definition handle_get_apc_result (client_fd : Z) buf ev : EventLoop K * Reply :=
  (ev, fixed (GetApcResultReply (hdr 0) (replicate 40 0))).

(** ** Descriptors for waits inside the client *)

(** A duplicate for the client, sent before the next reply; [false] when [fcntl]
    fails. *)
Definition pass_fd (client_fd obj tag : Z) ev : EventLoop K * bool :=
  let '(ev, d) := on_kernel (dup_fd obj) ev in
  if decide (0 <= d) then (ev <| clients ::= alter (fun c => c <| pending_fd := Some (d, tag) |>) client_fd |>, true)
  else (ev, false).

(** The exit event registered for a process handle, by pid of the holder and handle. *)
Definition exit_event (pid handle : Z) (e : HandleEntry) ev : option Z :=
  snd <$> head (filter (fun x => x.1 = (pid, handle)) (default [] (process_exit_events ev !! u32 (object_id e)))).

Definition watch_pipe (pipe : option Z) (obj : Z) ev : EventLoop K :=
  match pipe with
  | Some pfd =>
      let '(ev, w) := on_kernel (dup_fd obj) ev in
      if decide (0 <= w) then ev <| pending_pipe_watches ::= fun l => l ++ [(pfd, w)] |> else ev
  | None => ev
  end.

Definition handle_get_inproc_sync_fd (client_fd : Z) buf ev : EventLoop K * Reply :=
  match get_inproc_sync_fd_request buf with
  | None => (ev, status_reply 0xC000000D)
  | Some handle =>
      let pid := client_pid ev client_fd in
      let access_of ev := default 0x001F0003 (access <$> handle_entry ev pid handle) in
      match ntsync_objects ev !! (pid, handle) with
      | Some (obj, st) =>
          match pass_fd client_fd obj handle ev with
          | (ev, true) => (ev, fixed (GetInprocSyncFdReply (hdr 0) (i32 st) (access_of ev)))
          | (ev, false) => (ev, status_reply 0xC0000017)
          end
      | None =>
          match handle_entry ev pid handle ≫= fun e => (fun evt => (e, evt)) <$> exit_event pid handle e ev with
          | Some (e, evt) => ((pass_fd client_fd evt handle ev).1, fixed (GetInprocSyncFdReply (hdr 0) 1 (access e)))
          | None =>
              let pipe := SideTables.data_fd <$> SideTables.pipe_handles (side_tables ev) !! (pid, handle) in
              match get_or_create_event true (bool_decide (pipe = None)) ev with
              | (ev, Some obj) =>
                  let ev := (pass_fd client_fd obj handle ev).1 in
                  let ev := watch_pipe pipe obj ev in
                  (ev <| ntsync_objects ::= <[(pid, handle) := (obj, 1)]> |>, fixed (GetInprocSyncFdReply (hdr 0) 1 (access_of ev)))
              | (ev, None) => (ev, fixed (GetInprocSyncFdReply (hdr 0xC0000008) 0 0))
              end
          end
      end
  end.

Definition handle_get_inproc_alert_fd (client_fd : Z) buf ev : EventLoop K * Reply :=
  let tid := default 0 (client_thread_id ev client_fd) in
  let token := Z.lor tid 1 in
  let '(ev, alert) := get_or_create_alert client_fd ev in
  ((pass_fd client_fd alert token ev).1, fixed (GetInprocAlertFdReply (hdr 0) token)).

(** ** Timer-only waits are answered when due *)
Lemma pop_min_None l : pop_min l = None -> l = [].
Proof. destruct l as [|w l]; [done|]. cbn. destruct (pop_min l) as [[m r]|]; [by case_decide|done]. Qed.

Lemma pop_min_spec l m r : pop_min l = Some (m, r) -> l ≡ₚ m :: r /\ Forall (fun w => deadline m <= deadline w) r.
Proof.
  revert m r; induction l as [|w l IH]; intros m r; cbn; [done|].
  destruct (pop_min l) as [[m' r']|] eqn:Hp.
  - destruct (IH m' r' eq_refl) as [Hperm Hall]. case_decide as Hd; intros [= <- <-].
    + split; [done|]. rewrite Hperm. constructor; [done|]. eapply Forall_impl; [exact Hall|]. cbn. lia.
    + split; [rewrite Hperm; apply Permutation_swap|]. constructor; [lia|done].
  - apply pop_min_None in Hp as ->. intros [= <- <-]. split; [done|constructor].
Qed.

Definition connected ev (w : PendingWait) : Prop := is_Some (clients ev !! pw_client_fd w).
#[export] Instance connected_dec ev w : Decision (connected ev w).
Proof. unfold connected. apply _. Defined.

(** The wake-up a due wait is answered with. *)
Definition timed_out ev (w : PendingWait) (k : K) : K :=
  match clients ev !! pw_client_fd w ≫= wait_fd with
  | Some wfd => write_fd wfd (wake_up_reply (pw_cookie w) STATUS_TIMEOUT) k
  | None => k
  end.
Definition wake_all ev (l : list PendingWait) (k : K) : K := fold_left (fun k w => timed_out ev w k) l k.

(** The loop with other waits and another kernel. *)
Definition waiting_for (l : list PendingWait) (k : K) ev : EventLoop K := ev <| pending_waits := l |> <| kernel := k |>.

Lemma send_wake_up_eq w ev : send_wake_up w STATUS_TIMEOUT ev = ev <| kernel := timed_out ev w (kernel ev) |>.
Proof. unfold send_wake_up, timed_out. destruct (clients ev !! _ ≫= wait_fd); [|by destruct ev]. done. Qed.

Lemma wake_loop_spec fuel now ev :
  (length (pending_waits ev) <= fuel)%nat ->
  exists popped rest, wake_loop fuel now ev = Ret (waiting_for rest (wake_all ev (filter (connected ev) popped) (kernel ev)) ev) /\
    pending_waits ev ≡ₚ popped ++ rest /\ StronglySorted (fun a b => deadline a <= deadline b) popped /\
    Forall (fun w => connected ev w -> deadline w <= now) popped /\ Forall (fun w => now < deadline w) rest.
Proof.
  revert ev; induction fuel as [|fuel IH]; intros ev Hlen; cbn [wake_loop].
  { destruct (pending_waits ev) as [|w l] eqn:Hw; [|cbn in Hlen; lia]. cbn [pop_min].
    exists [], []. split_and!; try constructor. by destruct ev; cbn in Hw; subst. }
  destruct (pop_min (pending_waits ev)) as [[top rest]|] eqn:Hp.
  2:{ apply pop_min_None in Hp. exists [], []. rewrite Hp. split_and!; try constructor. by destruct ev; cbn in Hp; subst. }
  apply pop_min_spec in Hp as [Hperm Hmin].
  assert (length rest <= fuel)%nat as Hlen' by (rewrite Hperm in Hlen; cbn in Hlen; lia).
  assert (forall k, exists popped rest', 
    wake_loop fuel now (waiting_for rest k ev) = Ret (waiting_for rest' (wake_all ev (filter (connected ev) popped) k) ev) /\
    rest ≡ₚ popped ++ rest' /\ StronglySorted (fun a b => deadline a <= deadline b) popped /\
    Forall (fun w => connected ev w -> deadline w <= now) popped /\ Forall (fun w => now < deadline w) rest') as Hrec.
  { intros k. destruct (IH (waiting_for rest k ev) Hlen') as (pp & rr & -> & P1 & P2). by exists pp, rr. }
  assert (forall popped rest', rest ≡ₚ popped ++ rest' -> Forall (fun w => deadline top <= deadline w) popped) as Hsub.
  { intros popped rest' Hpr. rewrite Hpr in Hmin. by apply Forall_app in Hmin as [? _]. }
  case_decide as Hc.
  - destruct (Hrec (kernel ev)) as (pp & rr & Hr & P1 & P2 & P3 & P4).
    exists (top :: pp), rr. rewrite filter_cons_False by (intros [c ?]; congruence).
    split_and!; [|by rewrite Hperm, P1|constructor; eauto|constructor; [intros [c ?]; congruence|done]|done].
    rewrite <- Hr. f_equal.
  - case_decide as Hd.
    + rewrite send_wake_up_eq. destruct (Hrec (timed_out ev top (kernel ev))) as (pp & rr & Hr & P1 & P2 & P3 & P4).
      exists (top :: pp), rr. rewrite filter_cons_True by (by apply not_eq_None_Some).
      split_and!; [exact Hr|by rewrite Hperm, P1|constructor; eauto|by constructor|done].
    + exists [], (pending_waits ev). split_and!; [by destruct ev|done|constructor|constructor|].
      rewrite Hperm. constructor; [lia|]. eapply Forall_impl; [exact Hmin|]. cbn. lia.
Qed.

(** What a check does with one wait of a connected client: before its deadline the
    wait stays; from then on it is taken out and its wake-up written. *)
Lemma check_answers now ev w : w ∈ pending_waits ev -> connected ev w ->
  exists ev', check_pending_waits now ev = Ret ev' /\
    (now < deadline w -> w ∈ pending_waits ev') /\
    (deadline w <= now -> w ∉ pending_waits ev' /\ exists before after,
       kernel ev' = wake_all ev after (timed_out ev w (wake_all ev before (kernel ev)))).
Proof.
  intros Hin Hc. unfold check_pending_waits. rewrite decide_False by (intros E; rewrite E in Hin; by apply not_elem_of_nil in Hin).
  destruct (wake_loop_spec (length (pending_waits ev)) now ev) as (pp & rr & -> & P1 & _ & P3 & P4); [done|].
  cbn [obind]. eexists. split; [done|]. recs. rewrite Forall_forall in P3, P4.
  assert (w ∈ pp \/ w ∈ rr) as Hw by (rewrite <- elem_of_app, <- P1; done). split.
  - intros Hd. destruct Hw as [Hw|Hw]; [|done]. specialize (P3 w Hw Hc). lia.
  - intros Hd. assert (w ∉ rr) as Hr by (intros Hw'; specialize (P4 w Hw'); lia). split; [done|].
    destruct Hw as [Hw|Hw]; [|done]. assert (w ∈ filter (connected ev) pp) as Hf by (by apply list_elem_of_filter).
    apply list_elem_of_split in Hf as (before & after & Hf). exists before, after. unfold wake_all at 1. recs. rewrite Hf.
    unfold wake_all. by rewrite fold_left_app.
Qed.

(** C23: [check_pending_waits] terminates and answers exactly the waits that are
    due: each due wait of a connected client gets one STATUS_TIMEOUT wake-up with
    its own cookie, in the order of the deadlines; what stays pending is not due,
    nothing else is taken out but waits of clients that are gone, and the timer
    is armed exactly when a wait is left. *)
Theorem check_pending_waits_exact now ev :
  exists popped rest ev', check_pending_waits now ev = Ret ev' /\
    pending_waits ev ≡ₚ popped ++ rest /\ pending_waits ev' = rest /\
    kernel ev' = wake_all ev (filter (connected ev) popped) (kernel ev) /\
    StronglySorted (fun a b => deadline a <= deadline b) popped /\
    Forall (fun w => connected ev w -> deadline w <= now) popped /\ Forall (fun w => now < deadline w) rest /\
    (pending_waits ev <> [] -> (timer ev' = (0, 0) <-> rest = [])).
Proof.
  unfold check_pending_waits. case_decide as He.
  { exists [], [], ev. rewrite He. split_and!; try constructor; done. }
  destruct (wake_loop_spec (length (pending_waits ev)) now ev) as (pp & rr & -> & P1 & P2 & P3 & P4); [done|].
  cbn [obind]. exists pp, rr. eexists. split; [done|]. split_and!; try done.
  intros _. unfold arm_timer. recs. destruct (pop_min rr) as [[m r]|] eqn:Hp.
  - apply pop_min_spec in Hp as [Hperm _]. split; [|intros ->; by apply Permutation_nil_l in Hperm].
    rewrite decide_True by (rewrite Hperm in P4; by apply Forall_cons in P4 as [? _]).
    intros [= Hq Hm]. exfalso. rewrite Hperm in P4. apply Forall_cons in P4 as [P4 _].
    pose proof (Z.div_mod (deadline m - now) 1000000000). lia.
  - apply pop_min_None in Hp. done.
Qed.

(** ** Timeouts *)
Lemma wrap_i64_100ns z : - 2 ^ 63 <= i64 z < 2 ^ 63.
Proof. unfold i64. pose proof (wrap_range 64 z ltac:(lia)). unfold u64. case_match eqn:He; [apply Z.ltb_lt in He|apply Z.ltb_ge in He]; lia. Qed.

(** The deadline passed to the kernel is a 64-bit number that is never 0, the
    value the driver takes for no timeout; an infinite wait is the largest one, a
    relative wait of [n] ticks is due [100 n] nanoseconds after now unless that
    saturates, a poll and a time in the past are long due, and a time in the
    future is never due before now. *)
Theorem compute_ntsync_timeout_bounds mono real timeout :
  0 < mono < 2 ^ 64 -> - 2 ^ 63 <= timeout < 2 ^ 63 ->
  let d := compute_ntsync_timeout mono real timeout in
  let now_100ns := i64 (i64 (real.1 * 10000000) + Z.quot real.2 100 + TICKS_1601_TO_1970) in
  1 <= d <= U64_MAX /\
  (timeout = I64_MAX -> d = U64_MAX) /\
  (timeout < 0 -> d = Z.min (mono + - timeout * 100) U64_MAX) /\
  (timeout = 0 \/ 0 < timeout <= now_100ns /\ timeout <> I64_MAX -> d = 1) /\
  (0 < timeout -> now_100ns < timeout -> 0 <= now_100ns -> mono <= d).
Proof.
  intros Hm Ht. cbn zeta. unfold compute_ntsync_timeout.
  set (now_100ns := i64 (i64 (real.1 * 10000000) + Z.quot real.2 100 + TICKS_1601_TO_1970)).
  pose proof (wrap_i64_100ns (i64 (real.1 * 10000000) + Z.quot real.2 100 + TICKS_1601_TO_1970)) as Hn. fold now_100ns in Hn.
  assert (forall t, timeout < 0 -> t = - timeout -> u64 t = t) as Hneg by (intros; subst; apply u64_small; word_lia).
  assert (0 <= u64 (timeout - now_100ns) < 2 ^ 64) as Hu by (apply (wrap_range 64); lia).
  unfold saturating_add, saturating_mul, I64_MAX, U64_MAX in *.
  case_decide as H1'; [split_and!; try lia; by subst|].
  case_decide as H2'; [rewrite (Hneg (- timeout)) by done; split_and!; lia|].
  case_decide as H3'; [case_decide as H4'|]; split_and!; try lia.
Qed.

(** ** Select *)
Definition apc_flags_clear ev : Prop := forall fd b, client_apc_flags ev !! fd = Some b -> b = false.

(** The fields the steps of a wait leave alone. *)
Record same_wait ev (ev' : EventLoop K) : Prop := {
  sw_waits : pending_waits ev' = pending_waits ev;
  sw_flags : apc_flags_clear ev -> apc_flags_clear ev';
  sw_apcs : pending_kernel_apcs ev' = pending_kernel_apcs ev;
}.

Lemma same_wait_refl ev : same_wait ev ev.
Proof. by constructor. Qed.
Lemma same_wait_trans ev1 ev2 ev3 : same_wait ev1 ev2 -> same_wait ev2 ev3 -> same_wait ev1 ev3.
Proof. intros [A1 A2 A3] [B1 B2 B3]. constructor; [congruence|auto|congruence]. Qed.

Lemma same_wait_event m s ev : same_wait ev (get_or_create_event m s ev).1.
Proof. unfold get_or_create_event, on_kernel. destruct (ntsync ev); [|apply same_wait_refl]. by destruct (create_event m s (kernel ev)). Qed.

Lemma collect_same pid n i buf ev : same_wait ev (collect pid n i buf ev).1.
Proof.
  revert i ev; induction n as [|n IH]; intros i ev; cbn [collect]; [apply same_wait_refl|].
  destruct (handle_at buf i) as [h|]; [|apply same_wait_refl].
  destruct (ntsync_objects ev !! (pid, h)) as [[obj st]|].
  - specialize (IH (S i) ev). by destruct (collect pid n (S i) buf ev).
  - pose proof (same_wait_event false true ev) as Hs. destruct (get_or_create_event false true ev) as [ev1 [obj|]]; [|done].
    specialize (IH (S i) (insert_recyclable_event pid h obj 2 ev1)).
    destruct (collect pid n (S i) buf _). eapply same_wait_trans; [exact Hs|]. eapply same_wait_trans; [|exact IH]. done.
Qed.

Lemma parse_wait_same client_fd req buf ev : same_wait ev (parse_wait client_fd req buf ev).1.
Proof.
  unfold parse_wait. case_decide; [|apply same_wait_refl]. case_decide; [|apply same_wait_refl].
  pose proof (collect_same (client_pid ev client_fd) (Z.to_nat ((sel_size req - 4) / 4)) 0 buf ev) as Hc.
  destruct (collect _ _ _ _ _) as [ev1 fds]. eapply same_wait_trans; [exact Hc|done].
Qed.

Lemma poll_now_same req ws ev : same_wait ev (poll_now req ws ev).1.
Proof.
  unfold poll_now, on_kernel. destruct (ws_fds ws) as [|f fds]; [apply same_wait_refl|].
  destruct (ntsync ev); [|apply same_wait_refl].
  destruct ((if ws_all ws then wait_all else wait_any) (f :: fds) 1 (ws_owner ws) (kernel ev)) as [k r]. by destruct r.
Qed.

Lemma signal_idle_same client_fd ev : same_wait ev (signal_idle client_fd ev).
Proof. unfold signal_idle. destruct (processes (state ev) !! client_pid ev client_fd) as [p|]; [|done]. by destruct (idle_signaled p). Qed.

Lemma start_thread_same client_fd t req ws ev : same_wait ev (start_thread client_fd t req ws ev).1.
Proof.
  unfold start_thread. destruct (ws_fds ws) as [|f fds]; [apply same_wait_refl|].
  assert (same_wait ev (get_or_create_worker_interrupt client_fd ev).1) as Hi.
  { unfold get_or_create_worker_interrupt. destruct (client_worker_interrupts ev !! client_fd); [done|].
    pose proof (same_wait_event false false ev) as Hs. destruct (get_or_create_event false false ev) as [? [?|]]; [|done].
    eapply same_wait_trans; [exact Hs|done]. }
  destruct (get_or_create_worker_interrupt client_fd ev) as [ev1 alert]. cbn [fst] in Hi.
  assert (same_wait ev1 (get_or_create_apc_flag client_fd ev1)) as Hf.
  { unfold get_or_create_apc_flag. destruct (client_apc_flags ev1 !! client_fd) eqn:E; [done|]. constructor; [done| |done].
    intros Hc fd' b. cbn. destruct (decide (fd' = client_fd)) as [->|]; [rewrite lookup_insert_eq; by intros [= <-]|].
    rewrite lookup_insert_ne by done. apply Hc. }
  eapply same_wait_trans; [exact Hi|]. eapply same_wait_trans; [exact Hf|].
  destruct (clients _ !! client_fd ≫= wait_fd); [|apply same_wait_refl]. unfold on_kernel. by destruct (dup_fd _ _).
Qed.

(** With the flag clear a wait thread writes one message with its cookie to its
    own descriptor and closes it. *)
Lemma wait_thread_answers w k :
  exists status k', run_wait_thread false false w k =
    close_fd (wt_wait_fd w) (write_fd (wt_wait_fd w) (wake_up_reply (wt_cookie w) status) k').
Proof.
  unfold run_wait_thread.
  destruct ((if wt_all w then wait_all_blocking else wait_any_blocking) _ _ _ _ k) as [k' [index| | |]]; eauto.
Qed.

(** How a select is answered: at once, by a wait thread, or by the timer. *)
Inductive answered (clk : Clock) (client_fd : Z) (req : SelectRequest) ev (ev' : EventLoop K) : Reply -> option WaitThread -> Prop :=
| AnsweredNow status :
    pending_waits ev' = pending_waits ev ->
    answered clk client_fd req ev ev' (fixed (SelectReply (hdr status) 0 1)) None
| AnsweredByThread w :
    wt_cookie w = sel_cookie req -> wt_fds w <> [] -> sel_timeout req <> 0 -> 0 <= wt_wait_fd w ->
    wt_timeout w = compute_ntsync_timeout (c_mono clk) (c_real clk) (sel_timeout req) ->
    pending_waits ev' = pending_waits ev ->
    answered clk client_fd req ev ev' pending (Some w)
| AnsweredByTimer d :
    sel_timeout req <> 0 ->
    d = wait_deadline (c_now clk) (c_mono' clk) (compute_ntsync_timeout (c_mono clk) (c_real clk) (sel_timeout req)) ->
    pending_waits ev' = pending_waits ev ++ [mkPendingWait d client_fd (sel_cookie req)] ->
    answered clk client_fd req ev ev' pending None.

Lemma poll_now_zero req ws ev : sel_timeout req = 0 -> (ws_fds ws <> [] -> ntsync ev = true) -> is_Some (poll_now req ws ev).2.
Proof.
  intros Hz Hn. unfold poll_now. destruct (ws_fds ws) as [|f fds]; [rewrite decide_True by done; eauto|].
  rewrite Hn by done. destruct (on_kernel _ ev) as [ev1 r]. destruct r; cbn [snd]; rewrite ?decide_True by done; eauto.
Qed.

Lemma collect_ntsync pid n i buf ev : ntsync (collect pid n i buf ev).1 = ntsync ev.
Proof.
  revert i ev; induction n as [|n IH]; intros i ev; cbn [collect]; [done|].
  destruct (handle_at buf i) as [h|]; [|done]. destruct (ntsync_objects ev !! (pid, h)) as [[obj st]|].
  - specialize (IH (S i) ev). by destruct (collect pid n (S i) buf ev).
  - assert (ntsync (get_or_create_event false true ev).1 = ntsync ev) as Hs.
    { unfold get_or_create_event, on_kernel. destruct (ntsync ev) eqn:E; [|done]. by destruct (create_event _ _ _). }
    destruct (get_or_create_event false true ev) as [ev1 [obj|]]; [|done].
    specialize (IH (S i) (insert_recyclable_event pid h obj 2 ev1)).
    destruct (collect pid n (S i) buf _). cbn [fst] in *. by rewrite IH.
Qed.

Lemma parse_wait_ntsync client_fd req buf ev :
  let '(ev', ws) := parse_wait client_fd req buf ev in ws_fds ws <> [] -> ntsync ev' = true.
Proof.
  unfold parse_wait. case_decide as Hc; [|done]. case_decide; [|done].
  pose proof (collect_ntsync (client_pid ev client_fd) (Z.to_nat ((sel_size req - 4) / 4)) 0 buf ev) as Hn.
  destruct (collect _ _ _ _ _) as [ev1 fds]. intros _. cbn [fst] in Hn. cbn. rewrite Hn. tauto.
Qed.

Lemma start_thread_Some client_fd t req ws ev w :
  (start_thread client_fd t req ws ev).2 = Some w ->
  wt_cookie w = sel_cookie req /\ wt_fds w = ws_fds ws /\ ws_fds ws <> [] /\ 0 <= wt_wait_fd w /\ wt_timeout w = t.
Proof.
  unfold start_thread. destruct (ws_fds ws) as [|f fds] eqn:Hf; [done|].
  destruct (get_or_create_worker_interrupt client_fd ev) as [ev1 alert].
  destruct (clients _ !! client_fd ≫= wait_fd); [|done]. destruct (on_kernel _ _) as [ev2 d]. cbn [snd].
  case_decide as Hd; [|done]. intros [= <-]. cbn. by rewrite ?Hf.
Qed.

Lemma select_wait_answered clk client_fd req buf ev :
  let '(ev', r, wt) := select_wait clk client_fd req buf ev in
  answered clk client_fd req ev ev' r wt /\ (apc_flags_clear ev -> apc_flags_clear ev').
Proof.
  unfold select_wait. pose proof (parse_wait_same client_fd req buf ev) as Hs.
  pose proof (parse_wait_ntsync client_fd req buf ev) as Hn.
  destruct (parse_wait client_fd req buf ev) as [ev1 ws]. cbn [fst] in Hs.
  pose proof (poll_now_same req ws ev1) as Hs2. pose proof (poll_now_zero req ws ev1) as Hz.
  destruct (poll_now req ws ev1) as [ev2 [st|]]; cbn [fst snd] in Hs2, Hz.
  { pose proof (same_wait_trans _ _ _ Hs Hs2) as [Hw Hf _]. split; [by constructor|done]. }
  assert (sel_timeout req <> 0) as Ht. { intros Ht. by destruct (Hz Ht Hn). }
  set (t := compute_ntsync_timeout _ _ _).
  assert (same_wait ev (if decide (ws_fds ws <> [] \/ 1000000 < t) then signal_idle client_fd ev2 else ev2)) as Hs3.
  { eapply same_wait_trans; [exact Hs|]. eapply same_wait_trans; [exact Hs2|]. case_decide; [apply signal_idle_same|done]. }
  set (ev3 := if decide _ then _ else _) in *. clearbody ev3.
  pose proof (start_thread_same client_fd t req ws ev3) as Hs4. pose proof (start_thread_Some client_fd t req ws ev3) as Hw.
  destruct (start_thread client_fd t req ws ev3) as [ev4 [w|]]; cbn [fst snd] in *;
    pose proof (same_wait_trans _ _ _ Hs3 Hs4) as [Hp Hf _].
  - destruct (Hw w eq_refl) as (Hc & Hfds & Hne & Hd & Hto). split; [|done].
    apply AnsweredByThread; [done|by rewrite Hfds|done..].
  - split; [|done]. apply (AnsweredByTimer _ _ _ _ _ (wait_deadline (c_now clk) (c_mono' clk) t)); [done..|]. by rewrite <- Hp.
Qed.

Lemma set_events_same (l : list (Z * Z)) ev :
  same_wait ev (fold_left (fun ev k => set_event k ev) l ev) /\
  state (fold_left (fun ev k => set_event k ev) l ev) = state ev.
Proof.
  revert ev; induction l as [|x l IH]; intros ev; cbn [fold_left]; [by split|].
  destruct (IH (set_event x ev)) as [Hs Hst]. rewrite Hst. split; [|by apply (set_event_frame state)].
  eapply same_wait_trans; [|exact Hs]. unfold set_event. by destruct (ntsync_objects ev !! x) as [[? ?]|].
Qed.

(** Acknowledging an APC signals the deferred events, in order, and forgets them. *)
Lemma set_events_kernel (l : list (Z * Z)) ev :
  kernel (fold_left (fun ev k => set_event k ev) l ev) = set_all (omap (fun k => fst <$> ntsync_objects ev !! k) l) (kernel ev) /\
  deferred_event_signals (fold_left (fun ev k => set_event k ev) l ev) = deferred_event_signals ev.
Proof.
  revert ev; induction l as [|x l IH]; intros ev; cbn [fold_left omap list_omap]; [done|].
  destruct (IH (set_event x ev)) as [-> ->]. rewrite set_event_objects, set_event_eq. cbn [kernel deferred_event_signals].
  split; [|done]. by destruct (ntsync_objects ev !! x) as [[obj ?]|].
Qed.

Lemma ack_apc_spec client_fd apc ev p :
  processes (state ev) !! client_pid ev client_fd = Some p -> HandleTable.wf (handles p) -> in_u32 apc ->
  exists ev' closed, ack_apc client_fd apc ev = Ret ev' /\ same_wait ev ev' /\
    deferred_event_signals ev' = delete client_fd (deferred_event_signals ev) /\
    kernel ev' = close_all closed (set_all (omap (fun k => fst <$> ntsync_objects ev !! k) (default [] (deferred_event_signals ev !! client_fd))) (kernel ev)).
Proof.
  intros Hp Hwf Hu. unfold ack_apc. set (l := default [] _). set (ev0 := ev <| deferred_event_signals ::= delete client_fd |>).
  destruct (set_events_same l ev0) as [Hs Hst]. destruct (set_events_kernel l ev0) as [Hk Hdef].
  set (ev1 := fold_left _ _ _) in *. rewrite Hst. cbn. rewrite Hp.
  destruct (close_spec (handles p) apc Hwf Hu) as (t' & _ & _ & _ & ->). cbn [obind]. eexists _, _; split; [done|].
  assert (same_wait ev ev1) as Hs' by (eapply same_wait_trans; [|exact Hs]; done).
  split; [eapply same_wait_trans; [exact Hs'|]; done|]. cbn. by rewrite Hk, Hdef.
Qed.

(** The entry a select adds to the timer waits is answered by the timer. *)
Lemma answered_by_timer clk client_fd req ev ev' r wt w later now wfd :
  answered clk client_fd req ev ev' r wt -> pending_waits ev' = pending_waits ev ++ [w] ->
  w ∈ pending_waits later -> clients later !! client_fd ≫= wait_fd = Some wfd ->
  exists ev2, check_pending_waits now later = Ret ev2 /\ (now < deadline w -> w ∈ pending_waits ev2) /\
    (deadline w <= now -> w ∉ pending_waits ev2 /\ exists before after, kernel ev2 =
       wake_all later after (write_fd wfd (wake_up_reply (sel_cookie req) STATUS_TIMEOUT) (wake_all later before (kernel later)))).
Proof.
  intros Ha Hl Hin Hwfd.
  assert (pw_client_fd w = client_fd /\ pw_cookie w = sel_cookie req) as [Hfd Hck].
  { destruct Ha as [? He|? ? ? ? ? ? He|d ? ? He]; rewrite He in Hl.
    1,2: exfalso; apply (f_equal length) in Hl; rewrite length_app in Hl; cbn in Hl; lia.
    apply app_inv_head in Hl. by injection Hl as <-. }
  destruct (check_answers now later w Hin) as (ev2 & Hc & Hb & Ha2).
  { unfold connected. rewrite Hfd. by destruct (clients later !! client_fd). }
  exists ev2. split_and!; [done|done|]. intros Hd. destruct (Ha2 Hd) as (Hn & before & after & He). split; [done|].
  exists before, after. unfold timed_out in He. by rewrite Hfd, Hwfd, Hck in He.
Qed.


(** ** Names *)
Section names.
Context `{!NtsyncLaws K, !ObjectLaws K, !Reliable K}.

(** Process [pid] reaches object [o] through [handle]. *)
Definition reaches ev (pid handle o : Z) : Prop :=
  exists f, ntsync_objects ev !! (pid, handle) = Some (f, 2) /\ object_of f (kernel ev) = Some o.

Lemma create_event_spec client_fd buf ev pid p m i name :
  ntsync ev = true -> nonzero_pid ev client_fd = Some pid -> processes (state ev) !! pid = Some p ->
  HandleTable.wf (handles p) -> has_room p -> create_event_request buf = Some (m, i) ->
  extract_objattr_name buf = Some name -> named_sync ev !! name = None ->
  exists ev' h o d, handle_create_event client_fd buf ev = (ev', fixed (CreateEventReply (hdr 0) h)) /\ h <> 0 /\
    reaches ev' pid h o /\ named_sync ev' !! name = Some (d, 2) /\ object_of d (kernel ev') = Some o /\
    event_read d (kernel ev') = Some (b2z (bool_decide (m <> 0)), b2z (bool_decide (i <> 0))) /\
    clients ev' = clients ev /\ ntsync ev' = true /\
    (forall q, q <> pid -> processes (state ev') !! q = processes (state ev) !! q).
Proof.
  intros Hn Hc Hp Hwf Hroom Hreq Hname Hfree. unfold handle_create_event. rewrite Hreq, Hname.
  destruct (alloc_waitable_spec client_fd ev pid p) as (st & h & -> & Hh & _ & Hq & _); [done..|apply eventfd_ok|].
  set (k1 := (eventfd (kernel ev)).1). set (ev1 := ev <| kernel := k1 |> <| state := st |>).
  assert (client_pid ev1 client_fd = pid) as ->.
  { change (client_pid ev1 client_fd) with (client_pid ev client_fd). unfold nonzero_pid, client_pid in *.
    destruct (clients ev !! client_fd) as [c|]; [|done]. cbn in *. case_decide; [|done]. by injection Hc. }
  rewrite decide_False by done. unfold named. cbn [mbind option_bind].
  change (named_sync ev1) with (named_sync ev). rewrite Hfree.
  set (mm := bool_decide (m <> 0)). set (ii := bool_decide (i <> 0)).
  unfold new_event, get_or_create_event. change (ntsync ev1) with (ntsync ev). rewrite Hn. unfold on_kernel.
  change (kernel ev1) with k1. destruct (create_ok mm ii k1) as [f Hf]. destruct (create_event mm ii k1) as [k2 f'] eqn:Hce.
  cbn [snd] in Hf. subst f'. destruct (create_object _ _ _ _ _ Hce) as [_ [o Ho]]. pose proof (create_reads _ _ _ _ _ Hce) as Hr.
  unfold register_name, on_kernel. match goal with |- context [dup_fd f ?k] => change k with k2 end.
  pose proof (dup_ok f k2 ltac:(eauto)) as Hd. pose proof (dup_keeps f f k2 ltac:(eauto)) as [Hfo Hfr].
  destruct (dup_fd f k2) as [k3 d] eqn:Hdup. cbn [fst snd] in *. destruct (dup_object _ _ _ _ Hdup Hd) as [Hdo _].
  rewrite decide_True by done. eexists _, h, o, d. split; [done|]. split; [done|].
  assert (object_of d k3 = Some o) as Hdo' by congruence. split_and!; recs.
  - exists f. cbn. rewrite lookup_insert_eq. split; [done|]. congruence.
  - by rewrite lookup_insert_eq.
  - done.
  - rewrite (same_object d f k3) by congruence. by rewrite Hfr.
  - done.
  - done.
  - done.
Qed.

Lemma nonzero_client_pid ev c pid : nonzero_pid ev c = Some pid -> client_pid ev c = pid.
Proof.
  unfold nonzero_pid, client_pid. destruct (clients ev !! c) as [cl|]; [|done]. cbn. case_decide; [|done]. by intros [= ->].
Qed.

Lemma open_event_spec client_fd buf ev pid p name d o :
  nonzero_pid ev client_fd = Some pid -> processes (state ev) !! pid = Some p ->
  HandleTable.wf (handles p) -> has_room p ->
  extract_open_name buf = Some name -> named_sync ev !! name = Some (d, 2) -> object_of d (kernel ev) = Some o ->
  exists ev' h, handle_open_event client_fd buf ev = (ev', fixed (OpenEventReply (hdr 0) h)) /\ h <> 0 /\
    reaches ev' pid h o /\ clients ev' = clients ev /\
    (forall g, is_Some (object_of g (kernel ev)) ->
       object_of g (kernel ev') = object_of g (kernel ev) /\ event_read g (kernel ev') = event_read g (kernel ev)) /\
    (forall q h', q <> pid -> ntsync_objects ev' !! (q, h') = ntsync_objects ev !! (q, h')).
Proof.
  intros Hc Hp Hwf Hroom Hname Hns Ho. unfold handle_open_event, open_object, named. rewrite Hname. cbn [mbind option_bind].
  rewrite Hns, (nonzero_client_pid _ _ _ Hc).
  destruct (alloc_waitable_spec client_fd ev pid p) as (st & h & -> & Hh & _); [done..|apply eventfd_ok|].
  rewrite decide_False by done. unfold open_named, on_kernel. set (k1 := (eventfd (kernel ev)).1).
  match goal with |- context [dup_fd d ?k] => change k with k1 end.
  destruct (eventfd_keeps d (kernel ev) ltac:(eauto)) as [Hd1 _]. fold k1 in Hd1. rewrite Ho in Hd1.
  pose proof (dup_ok d k1 ltac:(eauto)) as Hdn. pose proof (fun g => dup_keeps d g k1) as Hk.
  destruct (dup_fd d k1) as [k2 d2] eqn:Hdup. cbn [fst snd] in *. destruct (dup_object _ _ _ _ Hdup Hdn) as [Hdo _].
  rewrite decide_True by done. eexists _, h. split; [done|]. split; [done|]. split_and!; recs.
  - exists d2. cbn. rewrite lookup_insert_eq. split; [done|]. congruence.
  - done.
  - intros g Hg. destruct (eventfd_keeps g (kernel ev) Hg) as [Hg1 Hg2]. fold k1 in Hg1, Hg2.
    destruct (Hk g) as [Hg3 Hg4]; [by rewrite Hg1|]. split; congruence.
  - intros q h' Hq. rewrite lookup_insert_ne; [done|]. congruence.
Qed.

(** A named event is one object for all processes.  When a process creates a
    manual-reset event under a new name and another process opens that name, in
    any letter case or directory, setting the event through the first handle is
    seen as signalled by a query through the second. *)
Theorem named_event_shared cA cB bufc bufo bufs bufq ev pA pB procA procB m i name :
  ntsync ev = true -> nonzero_pid ev cA = Some pA -> nonzero_pid ev cB = Some pB -> pA <> pB ->
  processes (state ev) !! pA = Some procA -> HandleTable.wf (handles procA) -> has_room procA ->
  processes (state ev) !! pB = Some procB -> HandleTable.wf (handles procB) -> has_room procB ->
  create_event_request bufc = Some (m, i) -> m <> 0 ->
  extract_objattr_name bufc = Some name -> extract_open_name bufo = Some name -> named_sync ev !! name = None ->
  exists hA hB,
    let '(ev1, r1) := handle_create_event cA bufc ev in
    let '(ev2, r2) := handle_open_event cB bufo ev1 in
    r1 = fixed (CreateEventReply (hdr 0) hA) /\ hA <> 0 /\ r2 = fixed (OpenEventReply (hdr 0) hB) /\ hB <> 0 /\
    (event_op_request bufs = Some (hA, 1) -> query_event_request bufq = Some hB ->
     let ev3 := (handle_event_op cA bufs ev2).1 in
     handle_query_event cB bufq ev3 = (ev3, fixed (QueryEventReply (hdr 0) 1 1))).
Proof.
  intros Hn HcA HcB Hne HpA HwA HrA HpB HwB HrB Hreq Hm Hname Hopen Hfree.
  destruct (create_event_spec cA bufc ev pA procA m i name) as (ev1 & hA & o & d & -> & HhA & (f & Hf & Hfo) & Hns & Hdo & Hread & Hcl & _ & Hq); [done..|].
  rewrite (bool_decide_true (m <> 0)) in Hread by done.
  destruct (open_event_spec cB bufo ev1 pB procB name d o) as (ev2 & hB & -> & HhB & (g & Hg & Hgo) & Hcl2 & Hkeep & Hobj);
    [unfold nonzero_pid in *; by rewrite Hcl|by rewrite Hq|done..|].
  exists hA, hB. split_and!; try done. intros Hs Hqr. cbn zeta.
  assert (client_pid ev2 cA = pA) as HidA by (unfold client_pid; rewrite Hcl2, Hcl; by apply nonzero_client_pid).
  assert (client_pid ev2 cB = pB) as HidB by (unfold client_pid; rewrite Hcl2, Hcl; by apply nonzero_client_pid).
  destruct (Hkeep f) as [Hf2 _]; [eauto|]. destruct (Hkeep d) as [_ Hd2]; [eauto|].
  assert (event_read f (kernel ev2) = Some (1, b2z (bool_decide (i <> 0)))) as Hrf.
  { change (Some (1, b2z (bool_decide (i <> 0)))) with (Some (b2z true, b2z (bool_decide (i <> 0)))).
    rewrite <- Hread, <- Hd2. apply same_object. destruct (Hkeep d) as [Hd3 _]; [eauto|]. congruence. }
  unfold handle_event_op. rewrite Hs, HidA, Hobj, Hf by done. unfold event_op, on_kernel. rewrite decide_True by done.
  pose proof (set_signals f _ _ Hrf) as Hset. pose proof (set_object f g (kernel ev2)) as Hgo3. pose proof (set_object f f (kernel ev2)) as Hfo3.
  destruct (event_set f (kernel ev2)) as [k3 r]. cbn [fst] in *. unfold handle_query_event, query_object. rewrite Hqr.
  cbn [mbind option_bind]. match goal with |- context [client_pid ?e cB] => change (client_pid e cB) with (client_pid ev2 cB) end.
  rewrite HidB. recs. rewrite Hg. cbn. rewrite (same_object g f k3) by congruence. rewrite Hset. done.
Qed.

End names.

End handlers.
End Sync.

(** ** The definitions on a small loop *)
Module SyncDemo.
Import Text Replies Ntsync ModelKernel HandleTable ServerState Loop LoopDemo CompletionDemo Sync.
Local Notation lit := Registry.lit.

#[export] Instance demo_protocol : Sync.Protocol := {
  layout := fun _ => [];
  select_request := fields 4 (fun b => mkSelectRequest (word_at 0 b) (i32 (word_at 1 b)) (word_at 2 b) (word_at 3 b));
  create_event_request := w2;
  event_op_request := w2;
  create_mutex_request := w1;
  create_semaphore_request := w2;
  release_semaphore_request := w2;
  release_mutex_request := w1;
  query_event_request := w1;
  query_mutex_request := w1;
  query_semaphore_request := w1;
  cancel_async_request := w1;
  get_async_result_request := w1;
  set_async_direct_result_request := w2;
  get_inproc_sync_fd_request := w1;
}.

(** A request with a variable part behind its 64 fixed bytes. *)
Definition request_var (ws var : list Z) : list Z := request ws ++ replicate (52 - 4 * length ws) 0 ++ var.
Definition named_request (ws : list Z) (name : str) : list Z :=
  request_var ws (le_bytes 4 0 ++ le_bytes 4 0 ++ le_bytes 4 0 ++ le_bytes 4 (blen (utf16le name)) ++ utf16le name).

Definition demo_clock : Clock := mkClock 5000 7000 7001 (0, 0).
Definition demo_process (pid tid : Z) : Process := push_thread process_new tid.

Lemma demo_process_eq : processes (state demo_loop) !! 32 = Some (demo_process 32 36) /\ processes (state demo_loop) !! 40 = Some (demo_process 40 44).
Proof. split; vm_compute; reflexivity. Qed.

Definition sleep : list Z := request [77; u32 (-50); 0; 0].

Lemma demo_flags : apc_flags_clear demo_loop.
Proof. intros fd b Hb. discriminate Hb. Qed.

(** The client has a wait descriptor when the timer looks. *)
Definition slept (ev : EventLoop MK) : EventLoop MK :=
  ev <| clients ::= alter (fun c => c <| Ipc.wait_fd := Some 12 |>) 7 |> <| pending_waits := [mkPendingWait 9999 7 77] |>.


(** A sleep of 50 ticks is pending for 5000 nanoseconds and then answered. *)
Example demo_sleep :
  (fun '(ev, _, _) => (pending_waits ev, timer ev)) <$>
    match handle_select demo_clock 7 sleep demo_loop with Ret x => Some x | _ => None end
  = Some ([mkPendingWait 9999 7 77], (0, 4999)).
Proof. vm_compute. reflexivity. Qed.

Definition create_req : list Z := named_request [1; 0] (lit "\Sessions\1\Done").
Definition open_req : list Z := request_var [] (utf16le (lit "DONE")).

Lemma named_event_shared_witness :
  exists hA hB,
    let '(ev1, r1) := handle_create_event 7 create_req demo_loop in
    let '(ev2, r2) := handle_open_event 9 open_req ev1 in
    r1 = fixed (CreateEventReply (Completion.hdr 0) hA) /\ hA <> 0 /\ r2 = fixed (OpenEventReply (Completion.hdr 0) hB) /\ hB <> 0 /\
    (event_op_request (request [4; 1]) = Some (hA, 1) -> query_event_request (request [4]) = Some hB ->
     let ev3 := (handle_event_op 7 (request [4; 1]) ev2).1 in
     handle_query_event 9 (request [4]) ev3 = (ev3, fixed (QueryEventReply (Completion.hdr 0) 1 1))).
Proof.
  apply (named_event_shared 7 9 create_req open_req (request [4; 1]) (request [4]) demo_loop 32 40
           (demo_process 32 36) (demo_process 40 44) 1 0 (lit "done")).
  - reflexivity.
  - vm_compute. reflexivity.
  - vm_compute. reflexivity.
  - lia.
  - exact (proj1 demo_process_eq).
  - exact table_new_wf.
  - vm_compute. reflexivity.
  - exact (proj2 demo_process_eq).
  - exact table_new_wf.
  - vm_compute. reflexivity.
  - vm_compute. reflexivity.
  - lia.
  - vm_compute. reflexivity.
  - vm_compute. reflexivity.
  - vm_compute. reflexivity.
Defined.

Lemma compute_ntsync_timeout_bounds_witness : compute_ntsync_timeout 7000 (0, 0) (-50) = 12000.
Proof.
  destruct (compute_ntsync_timeout_bounds 7000 (0, 0) (-50)) as (_ & _ & Hneg & _); [lia|lia|].
  rewrite Hneg by lia. reflexivity.
Defined.

(** ** Where the code departs from what it means to do *)

(** A name is looked up without its kind: creating an event under the name of a
    mutex succeeds and the event operations then act on the mutex, where they
    fail and report state 0. *)
Lemma create_event_over_mutex :
  let ev1 := (handle_create_mutex 7 (named_request [0] (lit "lock")) demo_loop).1 in
  let ev2 := (handle_create_event 9 (named_request [1; 0] (lit "lock")) ev1).1 in
  let ev3 := (handle_event_op 9 (request [4; 1]) ev2).1 in
  snd <$> ntsync_objects ev2 !! (40, 4) = Some 3 /\ query_object event_read 9 (Some 4) ev3 = None.
Proof. vm_compute. split; reflexivity. Qed.

(** While a second APC is queued the acknowledgement of the first is skipped: its
    handle stays open for good. *)
Definition two_apcs : EventLoop MK :=
  demo_loop <| pending_kernel_apcs := <[7 := [replicate 28 0; replicate 28 0]]> ∅ |>.
Definition select_req (apc : Z) : list Z := request [77; 0; 0; apc].
Definition after (r : outcome (EventLoop MK * Reply * option WaitThread)) : EventLoop MK :=
  match r with Ret (ev, _, _) => ev | _ => demo_loop end.

Lemma queued_apc_leaks_handle :
  let ev1 := after (handle_select demo_clock 7 (select_req 0) two_apcs) in
  let ev2 := after (handle_select demo_clock 7 (select_req 4) ev1) in
  let ev3 := after (handle_select demo_clock 7 (select_req 8) ev2) in
  is_Some (handle_entry ev1 32 4) /\ pending_kernel_apcs ev3 = ∅ /\ is_Some (handle_entry ev3 32 4) /\ handle_entry ev3 32 8 = None.
Proof. vm_compute. split_and!; eauto. Qed.

(** An operation other than a wait on handles is treated as a sleep: a request to
    signal one event and wait for another signals nothing. *)
Definition signal_and_wait : list Z :=
  request_var [77; u32 (-50); 12; 0] (replicate 40 0 ++ le_bytes 4 3 ++ le_bytes 4 4 ++ le_bytes 4 8).
Lemma signal_and_wait_sleeps :
  let ev1 := (handle_create_event 7 (request [1; 0]) demo_loop).1 in
  let ev2 := after (handle_select demo_clock 7 signal_and_wait ev1) in
  query_object event_read 7 (Some 4) ev2 = Some (1, 0) /\ length (pending_waits ev2) = 1%nat.
Proof. vm_compute. split; reflexivity. Qed.

End SyncDemo.
