(* ===== verification/Pipes.v ===== *)
(** * Named pipes ([src/rust/src/triskelion/event_loop/pipes.rs], and
      [get_pipe_wait_handle] of [event_loop/file_io.rs])

    Creating pipe instances, listening, connecting, waiting for a listener and
    transacting.  A connection completes a pending listen through an APC that the
    server thread picks up with its next select. *)

From stdpp Require Import base list gmap strings.
From coqutil Require Import Datatypes.RecordSettersUsingExistingGetters.
From S2P Require Import Prelude Objects SideTables Dispatch Text Registry Loop Completion Handles Session Sync.
Local Open Scope Z_scope.
Local Open Scope outcome_scope.

Module Pipes.
Import Text Replies Ntsync Ipc HandleTable ServerState Loop Completion.

(** ** Generated structs *)
Inductive pipe_reply : Type :=
| CreateNamedPipeReply (h : ReplyHeader) (handle created : Z)
| IoctlReply (h : ReplyHeader) (wait options : Z)
| CreateFileReply (h : ReplyHeader) (handle : Z).

(** [ioctl_request] gives the code and the 40 bytes of the async data. *)
Class Protocol : Type := {
  layout : pipe_reply -> list Z;
  create_named_pipe_request : list Z -> option unit;
  ioctl_request : list Z -> option (Z * list Z);
  set_named_pipe_info_request : list Z -> option unit;
}.

Definition FD_TYPE_DEVICE : Z := 8.

Definition FSCTL_PIPE_LISTEN : Z := 0x00110008.
Definition FSCTL_PIPE_DISCONNECT : Z := 0x00110004.
Definition FSCTL_PIPE_WAIT : Z := 0x00110018.
Definition FSCTL_PIPE_TRANSCEIVE : Z := 0x0011C017.

Definition listening (i : NamedPipeInfo) : Prop := pipe_state i = Listening.
#[export] Instance listening_dec i : Decision (listening i).
Proof. unfold listening. destruct (pipe_state i); [left|right]; congruence. Defined.

(** Whether an instance is served through the handle. *)
Definition served (pid handle : Z) (i : NamedPipeInfo) : Prop := server_pid i = pid /\ server_handle i = handle.
#[export] Instance served_dec pid handle i : Decision (served pid handle i).
Proof. unfold served. apply _. Defined.

(** [position]: the index of the first element with the property. *)
Fixpoint position {A} (P : A -> Prop) `{forall x, Decision (P x)} (l : list A) : option nat :=
  match l with
  | [] => None
  | x :: l => if decide (P x) then Some 0%nat else S <$> position P l
  end.

Section handlers.
Context {K : Type} `{Ntsync K, Sockets K, Protocol, Lowercase}.
Implicit Types (ev : EventLoop K) (buf : list Z).

Definition fixed (r : pipe_reply) : Reply := reply_fixed (layout r).
Definition ioctl_reply (e wait options : Z) : Reply := fixed (IoctlReply (hdr e) wait options).

(** ** Shared steps *)
Definition wake_pipe_waiters (pipe_name : str) ev : EventLoop K :=
  match pending_pipe_waiters ev !! pipe_name with
  | Some waiters =>
      fold_left (fun ev w => set_event (ppw_pid w, ppw_wait_handle w) ev) waiters
        (ev <| pending_pipe_waiters ::= delete pipe_name |>)
  | None => ev
  end.

Definition track_pipe (pid handle data : Z) ev : EventLoop K :=
  ev <| side_tables ::= fun t => t <| SideTables.pipe_handles ::= <[(pid, handle) := SideTables.mkPipeHandle data]> |> |>.

(** A handle without a descriptor on a fresh auto-reset event; 0 when there is no
    event or no process (the event is then dropped). *)
Definition new_wait_handle (pid : Z) ev : EventLoop K * Z :=
  match get_or_create_event false false ev with
  | (ev, Some evt) =>
      let '(ev, oid) := alloc_object_id ev in
      match allocate_in pid (with_fd oid (-1) FD_TYPE_FILE 0x001F0003 0x20) ev with
      | (ev, Some h) =>
          if decide (h <> 0) then (insert_recyclable_event pid h evt 1 ev, h) else (ev <| kernel ::= close_fd evt |>, 0)
      | (ev, None) => (ev <| kernel ::= close_fd evt |>, 0)
      end
  | (ev, None) => (ev, 0)
  end.

(** The wait handle of a pipe, made once. *)
Definition get_pipe_wait_handle (pid pipe_handle : Z) ev : EventLoop K * Z :=
  match SideTables.io_wait_handles (side_tables ev) !! (pid, pipe_handle) with
  | Some wh => (ev, wh)
  | None =>
      let '(ev, h) := new_wait_handle pid ev in
      (if decide (h <> 0) then
         ev <| side_tables ::= fun t => t <| SideTables.io_wait_handles ::= <[(pid, pipe_handle) := h]> |> |>
       else ev, h)
  end.

(** ** Creation *)
Definition handle_create_named_pipe (client_fd : Z) buf ev : EventLoop K * Reply :=
  match create_named_pipe_request buf with
  | None => (ev, status_reply 0xC000000D)
  | Some _ =>
      let pipe_name := default [] (Sync.extract_objattr_name buf) in
      match on_kernel socketpair ev with
      | (ev, None) => (ev, status_reply 0xC0000017)
      | (ev, Some (fd0, fd1)) =>
          let '(ev, oid) := alloc_object_id ev in
          let pid := default 0 (nonzero_pid ev client_fd) in
          let '(ev, handle) := match allocate_in pid (with_fd oid fd0 FD_TYPE_DEVICE 0x001F01FF 0x20) ev with
                               | (ev, Some h) => (ev, h)
                               | (ev, None) => (ev, 0)
                               end in
          let ev := track_pipe pid handle fd0 ev in
          if decide (pipe_name <> []) then
            let instances := default [] (named_pipes ev !! pipe_name) in
            let info := mkNamedPipeInfo pid handle fd1 Listening None None in
            let ev := ev <| named_pipes ::= <[pipe_name := instances ++ [info]]> |> in
            (wake_pipe_waiters pipe_name ev,
             fixed (CreateNamedPipeReply (hdr 0) handle (if decide (instances <> []) then 0 else 1)))
          else
            let '(ev, client_oid) := alloc_object_id ev in
            let ev := match allocate_in pid (with_fd client_oid fd1 FD_TYPE_DEVICE 0x0012019F 0) ev with
                      | (ev, Some h) => ev <| unnamed_pipe_client_handles ::= <[handle := h]> |>
                      | (ev, None) => ev
                      end in
            (ev, fixed (CreateNamedPipeReply (hdr 0) handle 1))
      end
  end.

(** ** Listening *)

(** The pipe that has an instance served through the handle. *)
Definition pipe_of (pid handle : Z) ev : option str :=
  fst <$> head (filter (fun kv => Exists (served pid handle) kv.2) (map_to_list (named_pipes ev))).

(** A step on that instance, [iter_mut().find(..)]. *)
Definition on_instance (name : str) (pid handle : Z) (f : NamedPipeInfo -> EventLoop K -> EventLoop K * NamedPipeInfo) ev : EventLoop K :=
  match named_pipes ev !! name with
  | Some instances =>
      match position (served pid handle) instances with
      | Some i =>
          match instances !! i with
          | Some info => let '(ev, info') := f info ev in ev <| named_pipes ::= <[name := <[i := info']> instances]> |>
          | None => ev
          end
      | None => ev
      end
  | None => ev
  end.

(** A fresh pair of sockets for an instance: the server's entry and the kept
    client end are replaced, and the old ones closed. *)
Definition renew (pid handle : Z) (info : NamedPipeInfo) ev : EventLoop K * NamedPipeInfo :=
  match on_kernel socketpair ev with
  | (ev, None) => (ev, info)
  | (ev, Some (fd0, fd1)) =>
      let ev := match processes (state ev) !! pid with
                | Some p => let '(t, closed) := replace_pipe_fd (handles p) handle fd0 in
                            (with_handles pid t ev) <| kernel ::= close_all closed |>
                | None => ev
                end in
      let ev := if decide (0 <= client_data_fd info) then ev <| kernel ::= close_fd (client_data_fd info) |> else ev in
      (ev, info <| client_data_fd := fd1 |>)
  end.

(** The instance starts to listen; a connected one is renewed first. *)
Definition listen (pid handle : Z) (event : Z * Z) (la : PipeListenAsync) (info : NamedPipeInfo) ev : EventLoop K * NamedPipeInfo :=
  let '(ev, info) := if decide (listening info) then (ev, info) else renew pid handle info ev in
  (ev, info <| pipe_state := Listening |> <| listen_event := Some event |> <| listen_async := Some la |>).

Definition pipe_listen (client_fd async_handle async_ev iosb user : Z) ev : EventLoop K * Reply :=
  let pid := client_pid ev client_fd in
  match pipe_of pid async_handle ev with
  | Some name =>
      if decide (async_ev <> 0) then
        let ev := reset_event (pid, async_ev) ev in
        let la := mkPipeListenAsync client_fd 0 user iosb async_ev user in
        let ev := on_instance name pid async_handle (listen pid async_handle (pid, async_ev) la) ev in
        (wake_pipe_waiters name ev, ioctl_reply 0x103 0 0)
      else
        let '(ev, wait_handle) := new_wait_handle pid ev in
        if decide (wait_handle <> 0) then
          let la := mkPipeListenAsync client_fd 0 user iosb 0 user in
          let ev := on_instance name pid async_handle (listen pid async_handle (pid, wait_handle) la) ev in
          (wake_pipe_waiters name ev, ioctl_reply 0x103 wait_handle 0)
        else (ev, ioctl_reply 0 0 0)
  | None => (ev, ioctl_reply 0 0 0)
  end.

Definition disconnect (pid : Z) (info : NamedPipeInfo) ev : EventLoop K * NamedPipeInfo :=
  let '(ev, info) := renew pid (server_handle info) info ev in
  (ev, info <| pipe_state := Listening |> <| listen_event := None |>).

Definition pipe_disconnect (client_fd async_handle : Z) ev : EventLoop K * Reply :=
  let pid := client_pid ev client_fd in
  (match pipe_of pid async_handle ev with
   | Some name => on_instance name pid async_handle (disconnect pid) ev
   | None => ev
   end, ioctl_reply 0 0 0).

(** ** Waiting for a listener *)
Definition wait_name (vararg : list Z) : option str :=
  if decide (14 <= length vararg)%nat then
    let name_length := Z.to_nat (get_u32 vararg 8) in
    if decide (14 + name_length <= length vararg)%nat
    then Some (to_lowercase (utf16le_to_string (slice 14 name_length vararg))) else None
  else None.

Definition has_listener (name : str) ev : bool :=
  match named_pipes ev !! name with Some l => bool_decide (Exists listening l) | None => false end.

Definition pipe_wait (client_fd : Z) (vararg : list Z) ev : EventLoop K * Reply :=
  match wait_name vararg with
  | None => (ev, ioctl_reply 0xC0000034 0 0)
  | Some name =>
      if has_listener name ev then (ev, ioctl_reply 0 0 0)
      else
        let pid := client_pid ev client_fd in
        let '(ev, h) := new_wait_handle pid ev in
        if decide (h <> 0) then
          (ev <| pending_pipe_waiters ::= fun m => <[name := default [] (m !! name) ++ [mkPendingPipeWaiter pid h]]> m |>,
           ioctl_reply 0x103 h 0)
        else (ev, ioctl_reply 0xC0000034 0 0)
  end.

(** ** Write and read *)
Definition data_reply (options : Z) (data : list Z) : Reply :=
  reply_vararg (layout (IoctlReply (mkReplyHeader 0 (u32 (blen data))) 0 options)) data.

Definition transceive_read (client_fd pid async_handle pfd opts max_size : Z) ev : EventLoop K * Reply :=
  match on_kernel (recv_nb pfd max_size) ev with
  | (ev, inl []) => (ev, ioctl_reply 0xC000014B 0 0)
  | (ev, inl data) => (ev, data_reply opts data)
  | (ev, inr _) =>
      let '(ev, wait) := get_pipe_wait_handle pid async_handle ev in
      if decide (wait <> 0) then
        (ev <| pending_pipe_reads ::= fun l => l ++ [mkAsyncPipeRead pfd max_size pid wait client_fd] |>,
         ioctl_reply 0x103 wait opts)
      else
        match on_kernel (wait_readable pfd 1000) ev with
        | (ev, true) =>
            match on_kernel (recv_nb pfd max_size) ev with
            | (ev, inl (b :: data)) => (ev, data_reply opts (b :: data))
            | (ev, _) => (ev, ioctl_reply 0xC00000B5 0 0)
            end
        | (ev, false) => (ev, ioctl_reply 0xC00000B5 0 0)
        end
  end.

Definition pipe_transceive (client_fd async_handle : Z) buf ev : EventLoop K * Reply :=
  let pid := client_pid ev client_fd in
  match handle_entry ev pid async_handle ≫= fun e => (fun f => (f, options e)) <$> fd e with
  | None => (ev, ioctl_reply 0xC0000008 0 0)
  | Some (pfd, opts) =>
      let vararg := drop VARARG_OFF buf in
      let '(ev, written) := match vararg with [] => (ev, 0) | _ => on_kernel (send_bytes pfd vararg) ev end in
      if decide (written < 0) then (ev, ioctl_reply 0xC000014B 0 0)
      else
        let max_reply := max_reply_vararg buf in
        transceive_read client_fd pid async_handle pfd opts (if decide (0 < max_reply) then max_reply else 65536) ev
  end.

Definition handle_ioctl (client_fd : Z) buf ev : EventLoop K * Reply :=
  match ioctl_request buf with
  | None => (ev, status_reply 0xC000000D)
  | Some (code, async) =>
      let async_handle := get_u32 async 0 in
      let async_ev := get_u32 async 4 in
      let iosb := from_le (slice 8 8 async) in
      let user := from_le (slice 16 8 async) in
      if decide (code = FSCTL_PIPE_LISTEN) then pipe_listen client_fd async_handle async_ev iosb user ev
      else if decide (code = FSCTL_PIPE_DISCONNECT) then pipe_disconnect client_fd async_handle ev
      else if decide (code = FSCTL_PIPE_WAIT) then pipe_wait client_fd (drop VARARG_OFF buf) ev
      else if decide (code = FSCTL_PIPE_TRANSCEIVE) then pipe_transceive client_fd async_handle buf ev
      else (ev, ioctl_reply 0 0 0)
  end.

(** ** Connecting *)

(** The data of the APC that completes a listen. *)
Definition listen_apc (la : PipeListenAsync) : list Z :=
  le_bytes 4 2 ++ le_bytes 4 0 ++ le_bytes 8 (user la) ++ le_bytes 8 (sb la) ++ le_bytes 4 0.

Definition connected (pid : Z) (i : NamedPipeInfo) : Prop := server_pid i = pid /\ pipe_state i = Connected.
#[export] Instance connected_dec pid i : Decision (connected pid i).
Proof. unfold connected. destruct (pipe_state i); [right; by intros []|]. destruct (decide (server_pid i = pid)); [left; done|right; by intros []]. Defined.

(** The handle of the first connected instance of the server, in map order. *)
Definition bound_handle (pid : Z) ev : option Z :=
  server_handle <$> head (filter (connected pid) (concat (map_to_list (named_pipes ev)).*2)).

Definition push_at {A} (k : Z) (x : A) (m : gmap Z (list A)) : gmap Z (list A) := <[k := default [] (m !! k) ++ [x]]> m.

(** A pending listen is completed: the APC is queued, the event deferred, the
    completion port told, and the server thread interrupted. *)
Definition complete_listen (event : option (Z * Z)) (la : PipeListenAsync) ev : EventLoop K :=
  let sfd := server_client_fd la in
  let ev := ev <| pending_kernel_apcs ::= push_at sfd (listen_apc la) |> in
  let ev := match event with Some e => ev <| deferred_event_signals ::= push_at sfd e |> | None => ev end in
  let server_pid := default 0 (process_id <$> clients ev !! sfd) in
  let ev := ev <| completed_ioctls ::= <[(server_pid, user_arg la) := 0]> |> in
  let ev := match bound_handle server_pid ev ≫= fun h => SideTables.completion_bindings (side_tables ev) !! (server_pid, h) with
            | Some (port, key) => post port (mkMsg key (user la) 0 0) ev
            | None => ev
            end in
  let ev := ev <| kernel ::= set_all (option_list (client_worker_interrupts ev !! sfd)) |> in
  let '(upid, utid) := match clients ev !! sfd with Some c => (unix_pid c, unix_tid c) | None => (0, 0) end in
  if decide (utid <> 0) then ev <| kernel ::= tgkill upid utid 10 |> else ev.

(** The client's end of the connection. *)
Definition client_end (client_fd data access options : Z) ev : EventLoop K * Reply :=
  let mapped := Handles.map_file_access access in
  let '(ev, oid) := alloc_object_id ev in
  let '(ev, handle) :=
    match nonzero_pid ev client_fd with
    | Some pid =>
        match allocate_in pid (with_fd oid data FD_TYPE_DEVICE mapped (Z.lor options 0x20)) ev with
        | (ev, Some h) => (track_pipe pid h data ev, h)
        | (ev, None) => (ev, 0)
        end
    | None => (ev, 0)
    end in
  (ev, fixed (CreateFileReply (hdr 0) handle)).

Definition try_connect_named_pipe (client_fd : Z) (name : str) (access options : Z) ev : EventLoop K * option Reply :=
  match named_pipes ev !! name with
  | None => (ev, None)
  | Some instances =>
      match position listening instances ≫= fun i => (fun info => (i, info)) <$> instances !! i with
      | None => (ev, Some (status_reply 0xC00000AE))
      | Some (i, info) =>
          let '(ev, data) := on_kernel (dup_fd (client_data_fd info)) ev in
          if decide (data < 0) then (ev, Some (status_reply 0xC0000017))
          else
            let info' := info <| pipe_state := Connected |> <| listen_async := None |> in
            let ev := ev <| named_pipes ::= <[name := <[i := info']> instances]> |> in
            let ev := match listen_async info with Some la => complete_listen (listen_event info) la ev | None => ev end in
            let '(ev, r) := client_end client_fd data access options ev in
            (ev, Some r)
      end
  end.

Definition handle_set_named_pipe_info (client_fd : Z) buf ev : EventLoop K * Reply :=
  (ev, status_reply (match set_named_pipe_info_request buf with None => 0xC000000D | Some _ => 0 end)).

(** ** What a connection does *)
Lemma position_spec {A} (P : A -> Prop) `{forall x, Decision (P x)} (l : list A) :
  match position P l with
  | Some i => (exists x, l !! i = Some x /\ P x) /\ Forall (fun x => ~ P x) (take i l)
  | None => Forall (fun x => ~ P x) l
  end.
Proof.
  induction l as [|x l IH]; cbn; [constructor|]. case_decide as Hx; [split; [eauto|constructor]|].
  destruct (position P l) as [i|]; cbn; [|by constructor]. destruct IH as [[y [Hy HP]] Hall]. split; [eauto|]. by constructor.
Qed.

(** The parts of the loop that completing a listen and making a handle share. *)
Definition pipe_view ev := (named_pipes ev, pending_kernel_apcs ev, deferred_event_signals ev).

Lemma post_view port msg ev : pipe_view (post port msg ev) = pipe_view ev /\ clients (post port msg ev) = clients ev /\ state (post port msg ev) = state ev.
Proof.
  unfold post. destruct (completion_waiters ev !! port) as [ws|]; [|done]. destruct (last ws) as [w|]; [|done].
  unfold set_event. match goal with |- context [?m !! ?k] => destruct (m !! k) as [[? ?]|] end; by destruct (removelast ws).
Qed.

Lemma complete_listen_fields event la ev :
  let ev' := complete_listen event la ev in let sfd := server_client_fd la in
  named_pipes ev' = named_pipes ev /\ clients ev' = clients ev /\ state ev' = state ev /\
  pending_kernel_apcs ev' = push_at sfd (listen_apc la) (pending_kernel_apcs ev) /\
  deferred_event_signals ev' = match event with Some e => push_at sfd e (deferred_event_signals ev) | None => deferred_event_signals ev end.
Proof.
  cbn zeta. unfold complete_listen.
  set (ev1 := ev <| pending_kernel_apcs ::= _ |>).
  set (ev2 := match event with Some e => ev1 <| deferred_event_signals ::= _ |> | None => ev1 end).
  set (sp := default 0 _). set (ev3 := ev2 <| completed_ioctls ::= _ |>).
  set (ev4 := match bound_handle sp ev3 ≫= _ with Some _ => _ | None => ev3 end).
  assert (pipe_view ev4 = pipe_view ev3 /\ clients ev4 = clients ev3 /\ state ev4 = state ev3) as (Hv & Hc & Hs).
  { unfold ev4. destruct (bound_handle sp ev3 ≫= _) as [[port key]|]; [apply post_view|done]. }
  clearbody ev4. set (ev5 := ev4 <| kernel ::= _ |>).
  assert (pipe_view ev5 = pipe_view ev3 /\ clients ev5 = clients ev3 /\ state ev5 = state ev3) as (Hv5 & Hc5 & Hs5) by done.
  clearbody ev5. assert (named_pipes ev3 = named_pipes ev /\ clients ev3 = clients ev /\ state ev3 = state ev /\
    pending_kernel_apcs ev3 = push_at (server_client_fd la) (listen_apc la) (pending_kernel_apcs ev) /\
    deferred_event_signals ev3 = match event with Some e => push_at (server_client_fd la) e (deferred_event_signals ev) | None => deferred_event_signals ev end) as (A1 & A2 & A3 & A4 & A5)
    by (subst ev3 ev2 ev1; by destruct event).
  unfold pipe_view in Hv5. injection Hv5 as B1 B2 B3.
  destruct (clients ev5 !! server_client_fd la) as [c|]; [case_decide|rewrite decide_False by (intros Hn; by apply Hn)];
    cbn; rewrite B1, B2, B3, Hc5, Hs5; done.
Qed.

Lemma client_end_view client_fd data access options ev :
  exists h, (client_end client_fd data access options ev).2 = fixed (CreateFileReply (hdr 0) h) /\
    pipe_view (client_end client_fd data access options ev).1 = pipe_view ev /\
    clients (client_end client_fd data access options ev).1 = clients ev.
Proof.
  unfold client_end, alloc_object_id, ServerState.alloc_object_id, allocate_in, track_pipe. cbn beta iota zeta.
  destruct (nonzero_pid _ client_fd) as [pid|]; [|eauto].
  match goal with |- context [processes (state ?e) !! pid] => destruct (processes (state e) !! pid) as [p|] end; [|eauto].
  destruct (HandleTable.allocate_full (handles p) _) as [t h]. eauto.
Qed.

(** Connecting to a pipe takes exactly one listening instance.  An unknown name
    is left to the file system; when no instance listens the reply is
    STATUS_PIPE_BUSY and nothing changes; otherwise the first listening instance,
    and only it, becomes connected, the client gets a handle, and exactly the
    thread that waits for that instance is sent one completion, with the pointers
    it passed when it started to listen. *)
Theorem connect_takes_one_listener client_fd name access options ev :
  let r := try_connect_named_pipe client_fd name access options ev in
  match named_pipes ev !! name with
  | None => r = (ev, None)
  | Some instances =>
      match position listening instances with
      | None => r = (ev, Some (status_reply 0xC00000AE)) /\ Forall (fun i => ~ listening i) instances
      | Some i => exists info, instances !! i = Some info /\ listening info /\ Forall (fun i => ~ listening i) (take i instances) /\
          (0 <= (dup_fd (client_data_fd info) (kernel ev)).2 ->
           let info' := info <| pipe_state := Connected |> <| listen_async := None |> in
           exists ev' h, r = (ev', Some (fixed (CreateFileReply (hdr 0) h))) /\
             named_pipes ev' = <[name := <[i := info']> instances]> (named_pipes ev) /\
             pending_kernel_apcs ev' = match listen_async info with
                                       | Some la => push_at (server_client_fd la) (listen_apc la) (pending_kernel_apcs ev)
                                       | None => pending_kernel_apcs ev
                                       end)
      end
  end.
Proof.
  cbn zeta. unfold try_connect_named_pipe. destruct (named_pipes ev !! name) as [instances|]; [|done].
  pose proof (position_spec listening instances) as Hp. destruct (position listening instances) as [i|]; [|done].
  destruct Hp as [[info [Hi Hl]] Hbefore]. exists info. split_and!; try done. intros Hd.
  cbn [mbind option_bind]. rewrite Hi. cbn [fmap option_fmap option_map]. unfold on_kernel.
  destruct (dup_fd (client_data_fd info) (kernel ev)) as [k d]. cbn [snd] in Hd. rewrite decide_False by lia.
  set (ev1 := _ <| named_pipes ::= _ |>).
  set (ev2 := match listen_async info with Some la => complete_listen (listen_event info) la ev1 | None => ev1 end).
  assert (named_pipes ev2 = named_pipes ev1 /\ pending_kernel_apcs ev2 =
    match listen_async info with Some la => push_at (server_client_fd la) (listen_apc la) (pending_kernel_apcs ev) | None => pending_kernel_apcs ev end) as [H2n H2a].
  { unfold ev2. destruct (listen_async info) as [la|]; [|done].
    destruct (complete_listen_fields (listen_event info) la ev1) as (-> & _ & _ & -> & _). done. }
  clearbody ev2. destruct (client_end_view client_fd d access options ev2) as (h & Hr & Hv & _).
  destruct (client_end client_fd d access options ev2) as [ev3 r]. cbn [fst snd] in *. subst r. exists ev3, h.
  unfold pipe_view in Hv. injection Hv as V1 V2 _. split; [done|]. rewrite V1, V2, H2n, H2a. done.
Qed.

Lemma push_at_eq {A} k (x : A) m : push_at k x m !! k = Some (default [] (m !! k) ++ [x]).
Proof. apply lookup_insert_eq. Qed.

Lemma length_listen_apc la : length (listen_apc la) = 28%nat.
Proof. done. Qed.

(** The client's end is a handle: the kernel and the objects stay. *)
Lemma client_end_kernel client_fd data access options ev :
  let ev' := (client_end client_fd data access options ev).1 in kernel ev' = kernel ev /\ ntsync_objects ev' = ntsync_objects ev.
Proof.
  cbn zeta. unfold client_end, alloc_object_id, ServerState.alloc_object_id, allocate_in, track_pipe. cbn beta iota zeta.
  destruct (nonzero_pid _ client_fd) as [pid|]; [|done].
  match goal with |- context [processes (state ?e) !! pid] => destruct (processes (state e) !! pid) as [p|] end; [|done].
  by destruct (HandleTable.allocate_full (handles p) _) as [t h].
Qed.

(** Delivering the APC of a listen. *)
Lemma deliver_apc_spec `{Sync.Protocol} sfd la ev ev' r : Sync.deliver_apc sfd (listen_apc la) ev = (ev', r) ->
  exists h, r = reply_vararg (Sync.layout (Sync.SelectReply (mkReplyHeader Sync.STATUS_KERNEL_APC 28) h 1)) (listen_apc la) /\
    kernel ev' = kernel ev /\ pending_kernel_apcs ev' = pending_kernel_apcs ev /\
    deferred_event_signals ev' = deferred_event_signals ev /\ ntsync_objects ev' = ntsync_objects ev.
Proof.
  unfold Sync.deliver_apc, alloc_object_id, ServerState.alloc_object_id. cbn beta iota zeta.
  match goal with |- context [processes (state ?s) !! ?q] => destruct (processes (state s) !! q) as [p|] end;
    [destruct (HandleTable.allocate (handles p) _) as [t h]|]; intros [= <- <-]; eexists; split; done.
Qed.

(** The event of the thread that gets the next message of a port. *)
Definition waiter_event (port : Z) ev : list Z :=
  match completion_waiters ev !! port with
  | Some ws =>
      match last ws with
      | Some w => option_list (fst <$> ntsync_objects ev !! (w_pid w, wait_handle w))
      | None => []
      end
  | None => []
  end.

(** The event of the thread that will get the message of the completion port a
    process's connected pipe is bound to. *)
Definition port_events (pid : Z) ev : list Z :=
  match bound_handle pid ev ≫= fun h => SideTables.completion_bindings (side_tables ev) !! (pid, h) with
  | Some (port, _) => waiter_event port ev
  | None => []
  end.

(** SIGUSR1 for the thread of a client. *)
Definition poke (client_fd : Z) ev (k : K) : K :=
  match clients ev !! client_fd with
  | Some c => if decide (unix_tid c <> 0) then tgkill (unix_pid c) (unix_tid c) 10 k else k
  | None => k
  end.

Lemma post_kernel port msg ev : kernel (post port msg ev) =
  set_all (waiter_event port ev) (kernel ev) /\
  ntsync_objects (post port msg ev) = ntsync_objects ev /\ client_worker_interrupts (post port msg ev) = client_worker_interrupts ev.
Proof.
  unfold post, waiter_event. destruct (completion_waiters ev !! port) as [ws|]; [|done]. destruct (last ws) as [w|]; [|done].
  rewrite set_event_eq. by destruct (removelast ws).
Qed.

(** All that completing a listen does to the kernel: the port's waiter and the
    interrupt of the listening thread are signalled, and the thread gets SIGUSR1. *)
Lemma complete_listen_kernel event la ev :
  let ev' := complete_listen event la ev in let sfd := server_client_fd la in
  kernel ev' = poke sfd ev (set_all (port_events (client_pid ev sfd) ev ++ option_list (client_worker_interrupts ev !! sfd)) (kernel ev)) /\
  ntsync_objects ev' = ntsync_objects ev.
Proof.
  cbn zeta. unfold complete_listen, poke, port_events. set (sfd := server_client_fd la).
  set (ev2 := match event with Some e => _ | None => _ end).
  assert (clients ev2 = clients ev /\ kernel ev2 = kernel ev /\ ntsync_objects ev2 = ntsync_objects ev /\ side_tables ev2 = side_tables ev /\
    named_pipes ev2 = named_pipes ev /\ completion_waiters ev2 = completion_waiters ev /\ client_worker_interrupts ev2 = client_worker_interrupts ev)
    as (Hc & Hk & Ho & Hst & Hn & Hw & Hi) by (unfold ev2; by destruct event).
  clearbody ev2. rewrite Hc. change (default 0 (process_id <$> clients ev !! sfd)) with (client_pid ev sfd).
  set (sp := client_pid ev sfd). set (ev3 := ev2 <| completed_ioctls ::= _ |>).
  change (bound_handle sp ev3) with (bound_handle sp ev2). change (side_tables ev3) with (side_tables ev2).
  assert (bound_handle sp ev2 = bound_handle sp ev) as -> by (unfold bound_handle; by rewrite Hn). rewrite Hst.
  set (b := bound_handle sp ev ≫= _). set (ev4 := match b with Some _ => _ | None => ev3 end).
  set (evs := match b with Some (port, _) => _ | None => [] end).
  assert (kernel ev4 = set_all evs (kernel ev) /\ ntsync_objects ev4 = ntsync_objects ev /\ clients ev4 = clients ev /\
    client_worker_interrupts ev4 = client_worker_interrupts ev) as (K4 & O4 & C4 & I4).
  { unfold ev4, evs. destruct b as [[port key]|]; [|cbn; rewrite Hc; done].
    destruct (post_kernel port (mkMsg key (user la) 0 0) ev3) as (-> & -> & ->). destruct (post_view port (mkMsg key (user la) 0 0) ev3) as (_ & -> & _).
    unfold waiter_event, ev3. cbn. by rewrite Hw, Ho, Hk, Hc, Hi. }
  clearbody ev4. cbn. rewrite C4, I4, set_all_app.
  destruct (clients ev !! sfd) as [c|]; [case_decide|rewrite decide_False by (intros Hz; by apply Hz)]; cbn; rewrite ?K4, ?O4; done.
Qed.

(** C11: a connection completes the listen it answers through the server's next two
    selects.  The listening instance has a listen with an event, its thread has no
    other APC queued, and duplicating the descriptor of the client's end succeeds.
    Then the first select of that thread is answered at once with STATUS_KERNEL_APC
    and the 28 bytes that carry its own user and status pointers; the APC is
    delivered once; and until then the kernel has seen the duplication, the wake-up
    of the waiter of the bound completion port, the interrupt of the listening
    thread and its SIGUSR1, and nothing else: the event of the listen is not
    signalled, it is deferred.  The next select that acknowledges an APC, with a
    well-formed handle table, signals the deferred events, that of the listen last,
    and forgets them before it goes on to its wait. *)
Theorem connect_completes_listen `{Sync.Protocol} client_fd name access options ev instances i info la e clk buf req :
  named_pipes ev !! name = Some instances -> position listening instances = Some i -> instances !! i = Some info ->
  listen_async info = Some la -> listen_event info = Some e ->
  0 <= (dup_fd (client_data_fd info) (kernel ev)).2 ->
  pending_kernel_apcs ev !! server_client_fd la = None -> Sync.select_request buf = Some req ->
  let ev1 := (try_connect_named_pipe client_fd name access options ev).1 in let sfd := server_client_fd la in
  let deferred := default [] (deferred_event_signals ev !! sfd) ++ [e] in
  let taken := ev <| named_pipes ::= <[name := <[i := info <| pipe_state := Connected |> <| listen_async := None |>]> instances]> |> in
  exists ev2 apc_handle,
    Sync.handle_select clk sfd buf ev1 =
      Ret (ev2, reply_vararg (Sync.layout (Sync.SelectReply (mkReplyHeader Sync.STATUS_KERNEL_APC 28) apc_handle 1)) (listen_apc la), None) /\
    pending_kernel_apcs ev2 !! sfd = None /\ deferred_event_signals ev2 !! sfd = Some deferred /\
    kernel ev2 = poke sfd ev (set_all (port_events (client_pid ev sfd) taken ++ option_list (client_worker_interrupts ev !! sfd))
                                      (dup_fd (client_data_fd info) (kernel ev)).1) /\
    (forall clk2 buf2 req2 p, Sync.select_request buf2 = Some req2 -> Sync.prev_apc req2 <> 0 -> in_u32 (Sync.prev_apc req2) ->
       processes (state ev2) !! client_pid ev2 sfd = Some p -> HandleTable.wf (handles p) ->
       exists ev3 closed, deferred_event_signals ev3 !! sfd = None /\
         kernel ev3 = close_all closed (set_all (omap (fun k => fst <$> ntsync_objects ev !! k) deferred) (kernel ev2)) /\
         Sync.handle_select clk2 sfd buf2 ev2 = Ret (Sync.after_apcs clk2 sfd req2 buf2 ev3)).
Proof.
  intros Hn Hpos Hi Hla He Hd Hapc Hreq. cbn zeta. set (sfd := server_client_fd la) in *.
  set (taken := ev <| named_pipes ::= _ |>).
  assert (exists ev1 r, try_connect_named_pipe client_fd name access options ev = (ev1, r) /\
    pending_kernel_apcs ev1 = push_at sfd (listen_apc la) (pending_kernel_apcs ev) /\
    deferred_event_signals ev1 = push_at sfd e (deferred_event_signals ev) /\ ntsync_objects ev1 = ntsync_objects ev /\
    kernel ev1 = poke sfd ev (set_all (port_events (client_pid ev sfd) taken ++ option_list (client_worker_interrupts ev !! sfd))
                                      (dup_fd (client_data_fd info) (kernel ev)).1)) as (ev1 & r & -> & Ha & Hdef & Ho & Hk).
  { unfold try_connect_named_pipe. rewrite Hn, Hpos. cbn [mbind option_bind]. rewrite Hi. cbn [fmap option_fmap option_map].
    unfold on_kernel. destruct (dup_fd (client_data_fd info) (kernel ev)) as [k d]. cbn [snd] in Hd. rewrite decide_False by lia.
    rewrite Hla, He. set (ev0 := _ <| named_pipes ::= _ |>).
    destruct (complete_listen_fields (Some e) la ev0) as (_ & _ & _ & H2a & H2d). destruct (complete_listen_kernel (Some e) la ev0) as [H2k H2o].
    set (ev2 := complete_listen _ _ _) in *. clearbody ev2.
    destruct (client_end_view client_fd d access options ev2) as (h & _ & Hv & _). destruct (client_end_kernel client_fd d access options ev2) as [H3k H3o].
    destruct (client_end client_fd d access options ev2) as [ev3 r]. exists ev3, (Some r). split; [done|].
    unfold pipe_view in Hv. injection Hv as _ V2 V3. cbn [fst] in *. rewrite V2, V3, H2a, H2d, H3k, H3o, H2k, H2o. done. }
  cbn [fst]. unfold Sync.handle_select at 1, Sync.pop_apc at 1. rewrite Hreq, Ha, push_at_eq, Hapc. cbn [default app last removelast].
  destruct (Sync.deliver_apc sfd (listen_apc la) (ev1 <| pending_kernel_apcs ::= delete sfd |>)) as [ev2 r2] eqn:E2.
  apply deliver_apc_spec in E2 as (h & -> & Hk2 & Hp2 & Hd2 & Ho2). exists ev2, h.
  assert (pending_kernel_apcs ev2 !! sfd = None) as Hnone by (rewrite Hp2; apply lookup_delete_eq).
  assert (deferred_event_signals ev2 !! sfd = Some (default [] (deferred_event_signals ev !! sfd) ++ [e])) as Hdef2
    by (rewrite Hd2; cbn; rewrite Hdef; apply push_at_eq).
  split; [done|]. split; [done|]. split; [done|]. split; [by rewrite Hk2|].
  intros clk2 buf2 req2 p Hreq2 Hne Hu Hp Hwf.
  destruct (Sync.ack_apc_spec sfd (Sync.prev_apc req2) ev2 p) as (ev3 & closed & Hack & _ & Hd3 & Hk3); [done..|].
  exists ev3, closed. split; [rewrite Hd3; apply lookup_delete_eq|]. split.
  { rewrite Hk3, Hdef2, Ho2. cbn. by rewrite Ho. }
  unfold Sync.handle_select, Sync.pop_apc. rewrite Hreq2, Hnone, decide_True, Hack by done. done.
Qed.

(** Every client that waits for a pipe of the name is signalled, and forgotten. *)
Lemma pipe_waiters_woken name ev :
  pending_pipe_waiters (wake_pipe_waiters name ev) = delete name (pending_pipe_waiters ev) /\
  kernel (wake_pipe_waiters name ev) =
    set_all (omap (fun w => fst <$> ntsync_objects ev !! (ppw_pid w, ppw_wait_handle w)) (default [] (pending_pipe_waiters ev !! name))) (kernel ev).
Proof.
  unfold wake_pipe_waiters. destruct (pending_pipe_waiters ev !! name) as [ws|] eqn:Hw; [|by rewrite delete_id].
  change (kernel ev) with (kernel (ev <| pending_pipe_waiters ::= delete name |>)).
  change (ntsync_objects ev) with (ntsync_objects (ev <| pending_pipe_waiters ::= delete name |>)).
  change (delete name (pending_pipe_waiters ev)) with (pending_pipe_waiters (ev <| pending_pipe_waiters ::= delete name |>)).
  generalize (ev <| pending_pipe_waiters ::= delete name |>). clear Hw ev. unfold default, from_option, id.
  induction ws as [|w ws IH]; intros ev; cbn; [done|].
  destruct (IH (set_event (ppw_pid w, ppw_wait_handle w) ev)) as [IH1 IH2]. rewrite IH1, IH2.
  unfold set_event. destruct (ntsync_objects ev !! (ppw_pid w, ppw_wait_handle w)) as [[f s]|]; split; reflexivity.
Qed.

End handlers.
End Pipes.

(** ** The definitions on a small loop *)
Module PipesDemo.
Import Text Replies Ntsync ModelKernel HandleTable ServerState Loop LoopDemo CompletionDemo Sync SyncDemo Pipes.
Local Notation lit := Registry.lit.

#[export] Instance demo_protocol : Pipes.Protocol := {
  layout := fun _ => [];
  create_named_pipe_request := fields 0 (fun _ => ());
  ioctl_request := fields 11 (fun b => (word_at 0 b, slice 16 40 b));
  set_named_pipe_info_request := fields 0 (fun _ => ());
}.

(** An ioctl: the code, then handle, event, status pointer and user pointer. *)
Definition ioctl (code handle event iosb user : Z) (var : list Z) : list Z :=
  request_var [code; handle; event; iosb; 0; user; 0; 0; 0; 0; 0; 0] var.

(** Process 32 serves the pipe and listens with an event of its own. *)
Definition served_loop : EventLoop MK :=
  let ev := (handle_create_event 7 (request [1; 0]) demo_loop).1 in
  let ev := (handle_create_named_pipe 7 (named_request [] (lit "\pipe\svc")) ev).1 in
  (handle_ioctl 7 (ioctl FSCTL_PIPE_LISTEN 8 4 0x500 0x600 []) ev).1.

Example served_pipe : named_pipes served_loop !! lit "svc" =
  Some [mkNamedPipeInfo 32 8 6 Listening (Some (32, 4)) (Some (mkPipeListenAsync 7 0 0x600 0x500 4 0x600))].
Proof. vm_compute. reflexivity. Qed.

Lemma connect_completes_listen_witness :
  let ev1 := (try_connect_named_pipe 9 (lit "svc") 0x80000000 0 served_loop).1 in
  exists ev2 r, handle_select demo_clock 7 sleep ev1 = Ret (ev2, r, None) /\
    deferred_event_signals ev2 !! 7 = Some [(32, 4)].
Proof.
  destruct (connect_completes_listen 9 (lit "svc") 0x80000000 0 served_loop
    [mkNamedPipeInfo 32 8 6 Listening (Some (32, 4)) (Some (mkPipeListenAsync 7 0 0x600 0x500 4 0x600))] 0
    (mkNamedPipeInfo 32 8 6 Listening (Some (32, 4)) (Some (mkPipeListenAsync 7 0 0x600 0x500 4 0x600)))
    (mkPipeListenAsync 7 0 0x600 0x500 4 0x600) (32, 4) demo_clock sleep (mkSelectRequest 77 (-50) 0 0)) as (ev2 & h & Hr & _ & Hd & _).
  - vm_compute. reflexivity.
  - vm_compute. reflexivity.
  - vm_compute. reflexivity.
  - reflexivity.
  - reflexivity.
  - vm_compute. congruence.
  - vm_compute. reflexivity.
  - vm_compute. reflexivity.
  - eexists ev2, _. split; [exact Hr|exact Hd].
Defined.

(** ** Where the code departs from what it means to do *)

(** A client that waits for a pipe in a directory waits under its whole name, but
    the pipe is registered under its last component: creating the pipe the client
    waits for does not wake it. *)
Definition wait_request (name : str) : list Z :=
  ioctl FSCTL_PIPE_WAIT 0 0 0 0 (replicate 8 0 ++ le_bytes 4 (blen (utf16le name)) ++ [0; 0] ++ utf16le name).

Lemma pipe_wait_in_directory_never_woken :
  let ev1 := (handle_ioctl 9 (wait_request (lit "lrpc\irpcss")) demo_loop).1 in
  let ev2 := (handle_create_named_pipe 7 (named_request [] (lit "\Device\NamedPipe\lrpc\irpcss")) ev1).1 in
  has_listener (lit "irpcss") ev2 = true /\
  pending_pipe_waiters ev2 !! lit "lrpc\irpcss" = Some [mkPendingPipeWaiter 40 4] /\
  signaled_state ev2 (40, 4) = 0.
Proof. vm_compute. split_and!; reflexivity. Qed.

(** The server's end of a pipe is owned twice: by its handle entry and by the
    table of pipe descriptors.  Closing the handle closes it through the table and
    again through the entry; the second close hits whatever got the number in the
    meantime. *)
Lemma pipe_fd_closed_twice :
  let ev1 := (handle_create_named_pipe 7 (named_request [] (lit "svc")) demo_loop).1 in
  handle_entry ev1 32 4 ≫= fd = Some 3 /\ SideTables.pipe_handles (side_tables ev1) !! (32, 4) = Some (SideTables.mkPipeHandle 3) /\
  exists t, HandleTable.close (default HandleTable.new (handles <$> processes (state ev1) !! 32)) 4 = Ret (t, handle_entry ev1 32 4, [3]) /\
    (SideTables.purge (side_tables ev1) 32 4).2 = [3].
Proof. vm_compute. split; [reflexivity|]. split; [reflexivity|]. eexists. split; reflexivity. Qed.

(** The completion of a listen is posted to the port of the first connected pipe
    of the server, not of the pipe that was connected: with two pipes bound to
    two ports, a later connection to the one reports to the port of the other. *)
Definition two_pipes : EventLoop MK :=
  let ev := (handle_create_event 7 (request [1; 0]) demo_loop).1 in
  let ev := (handle_create_named_pipe 7 (named_request [] (lit "a")) ev).1 in
  let ev := (handle_create_named_pipe 7 (named_request [] (lit "b")) ev).1 in
  let ev := (handle_ioctl 7 (ioctl FSCTL_PIPE_LISTEN 8 4 0 0x600 []) ev).1 in
  let ev := (handle_ioctl 7 (ioctl FSCTL_PIPE_LISTEN 12 4 0 0x700 []) ev).1 in
  ev <| side_tables ::= fun t => t <| SideTables.completion_bindings := <[(32, 8) := (100, 1)]> (<[(32, 12) := (200, 2)]> ∅) |> |>.

Lemma completion_posted_to_other_port :
  let ev1 := (try_connect_named_pipe 9 (lit "b") 0 0 two_pipes).1 in
  let ev2 := (try_connect_named_pipe 9 (lit "a") 0 0 ev1).1 in
  completion_queues ev2 !! 100 = None /\ length <$> completion_queues ev2 !! 200 = Some 2%nat.
Proof. vm_compute. split; reflexivity. Qed.

End PipesDemo.
