(* ===== verification/Threads.v ===== *)
(** * Thread requests ([src/rust/src/triskelion/event_loop/thread.rs])

    Creation and start of threads, the first thread of a process with its startup
    parameters, suspension and enumeration.  The descriptor of the ntsync device,
    the clock and the path of the game in the environment are arguments.  Where
    the source takes the first match in the order of a hash map, the model takes
    the first in the order of [map_to_list]. *)

From stdpp Require Import base list gmap sorting strings.
From coqutil Require Import Datatypes.RecordSettersUsingExistingGetters.
From S2P Require Import Prelude Objects SideTables Shm Dispatch Text Registry Loop Completion Session Client Sync.
Local Open Scope Z_scope.
Local Open Scope outcome_scope.

(** Pipes and descriptors sent along a socket. *)
Class Channels (K : Type) : Type := {
  pipe2 : K -> K * option (Z * Z);
  send_fd : Z -> Z -> Z -> K -> K * Z;
}.

Module Threads.
Import Text Replies Ntsync Ipc HandleTable ServerState Loop Completion Session Memory.

(** ** Generated structs *)
Inductive thread_reply : Type :=
| NewThreadReply (h : ReplyHeader) (tid handle : Z)
| InitFirstThreadReply (h : ReplyHeader) (pid tid server_start session_id inproc_device info_size : Z)
| InitThreadReply (h : ReplyHeader) (suspend : Z)
| GetStartupInfoReply (h : ReplyHeader) (info_size machine : Z)
| GetThreadInfoReply (h : ReplyHeader) (pid tid teb entry_point affinity exit_code : Z)
| TerminateThreadReply (h : ReplyHeader) (is_self : Z)
| ResumeThreadReply (h : ReplyHeader) (count : Z)
| SetThreadInfoReply (h : ReplyHeader)
| GetThreadTimesReply (h : ReplyHeader) (creation_time unix_pid unix_tid : Z)
| OpenThreadReply (h : ReplyHeader) (handle : Z)
| SetThreadContextReply (h : ReplyHeader) (is_self : Z)
| GetThreadContextReply (h : ReplyHeader) (is_self handle : Z)
| SuspendThreadReply (h : ReplyHeader) (count : Z)
| GetNextThreadReply (h : ReplyHeader) (handle : Z).

Record NewThreadRequest : Type := mkNewThread { nt_process : Z; nt_flags : Z; nt_request_fd : Z }.
Record InitFirstThreadRequest : Type := mkInitFirst { if_unix_pid : Z; if_unix_tid : Z; if_reply_fd : Z; if_wait_fd : Z }.
Record InitThreadRequest : Type := mkInit { it_unix_tid : Z; it_reply_fd : Z; it_wait_fd : Z; it_teb : Z; it_entry : Z }.

Class Protocol : Type := {
  layout : thread_reply -> list Z;
  new_thread_request : list Z -> option NewThreadRequest;
  init_first_thread_request : list Z -> option InitFirstThreadRequest;
  init_thread_request : list Z -> option InitThreadRequest;
  get_thread_info_request : list Z -> option Z;
  resume_thread_request : list Z -> option Z;
  open_thread_request : list Z -> option unit;
  suspend_thread_request : list Z -> option Z;
  get_next_thread_request : list Z -> option (Z * Z);
}.

(** ** Startup parameters *)
Definition BACKSLASH : Z := 92.

(** [rfind('\')]: the text before the last backslash. *)
Fixpoint after_sep (s : str) : str :=
  match s with
  | c :: s' => if decide (c = BACKSLASH) then s' else after_sep s'
  | [] => []
  end.
Definition dirname (s : str) : str := reverse (after_sep (reverse s)).

(** The parameters made up for a process nobody gave any: a fixed part with the
    lengths of the strings, and the strings. *)
Definition synthesize (game_exe : str) : list Z :=
  let nt_path := Registry.lit "\??\Z:" ++ map (fun c => if decide (c = 47) then BACKSLASH else c) game_exe in
  let curdir := utf16le (dirname nt_path) in
  let imagepath := utf16le nt_path in
  let cmdline := utf16le nt_path in
  put32 76 (u32 (blen cmdline)) (put32 72 (u32 (blen imagepath)) (put32 64 (u32 (blen curdir)) (replicate 96 0)))
    ++ curdir ++ imagepath ++ cmdline.

Definition opt_len (o : option (list Z)) : Z := match o with Some l => blen l | None => 0 end.

(** ** The handlers *)
Section handlers.
Context {K : Type} `{Ntsync K, Sockets K, Channels K, Protocol}.
Implicit Types (ev : EventLoop K) (buf : list Z).

Definition fixed (r : thread_reply) : Reply := reply_fixed (layout r).

(** A descriptor the client sent: from its own queue, then from the process's. *)
Definition take_inflight_fd (client_fd fd_num : Z) ev : EventLoop K * option Z :=
  let '(ev, own) :=
    match clients ev !! client_fd with
    | Some c => let '(c, o) := take_inflight_fd_by_number fd_num c in (ev <| clients ::= <[client_fd := c]> |>, o)
    | None => (ev, None)
    end in
  match own with
  | Some fd => (ev, Some fd)
  | None =>
      let pid := client_pid ev client_fd in
      if decide (pid <> 0) then
        match process_inflight_fds ev !! pid ≫= take_by_number fd_num with
        | Some (fd, rest) => (ev <| process_inflight_fds ::= <[pid := rest]> |>, Some fd)
        | None => (ev, None)
        end
      else (ev, None)
  end.

(** The first in the queue of the client. *)
Definition pop_inflight_fd (client_fd : Z) ev : EventLoop K * option Z :=
  match clients ev !! client_fd with
  | Some c => let '(c, o) := Ipc.take_inflight_fd c in (ev <| clients ::= <[client_fd := c]> |>, o)
  | None => (ev, None)
  end.

Definition first_key {A} (m : gmap Z A) : option Z := head (map_to_list m).*1.
Definition find_client_by (P : Client -> bool) ev : option (Z * Client) :=
  head (filter (fun kc => P kc.2 = true) (map_to_list (clients ev))).
Definition of_process (pid : Z) (c : Client) : bool := bool_decide (process_id c = pid).

Definition update_client (client_fd : Z) (f : Client -> Client) ev : EventLoop K := ev <| clients ::= alter f client_fd |>.
Definition update_process (pid : Z) (f : Process -> Process) ev : EventLoop K :=
  ev <| state ::= fun st => st <| processes ::= alter f pid |> |>.
Definition update_thread (tid : Z) (f : Thread -> Thread) ev : EventLoop K :=
  ev <| state ::= fun st => st <| all_threads ::= alter f tid |> |>.
Definition track_peak ev : EventLoop K := ev <| peak_clients ::= Nat.max (size (clients ev)) |>.

Definition create_thread (pid : Z) ev : EventLoop K * Z :=
  let '(st, tid) := ServerState.create_thread (state ev) pid in (ev <| state := st |>, tid).
Definition create_process ev : EventLoop K * Z :=
  let '(st, pid) := ServerState.create_process (state ev) in (ev <| state := st |>, pid).

(** [handles.get_mut(handle)]: the object behind a handle. *)
Definition set_object_id (pid handle oid : Z) ev : EventLoop K :=
  update_process pid (fun p => p <| handles ::= fun t => get_mut t handle (fun e => e <| object_id := oid |>) |>) ev.

(** *** New threads *)
Definition target_process (client_fd handle : Z) ev : Z :=
  let caller := nonzero_pid ev client_fd in
  match caller ≫= fun p => handle_entry ev p handle with
  | Some e => u32 (object_id e)
  | None => default (default 0 (first_key (processes (state ev)))) caller
  end.

(** The pipe the client sent becomes the request pipe of the new thread. *)
Definition connect_pipe (client_fd pipe_read_fd tid target : Z) ev : EventLoop K * option Z :=
  let '(ev, safe_fd) := on_kernel (dup_fd pipe_read_fd) ev in
  let ev := ev <| kernel ::= close_fd pipe_read_fd |> in
  if decide (safe_fd < 0) then (ev, None)
  else
    let parent_msg_fd := match clients ev !! client_fd with Some c => msg_fd c | None => -1 end in
    let c := (Ipc.new safe_fd parent_msg_fd) <| is_msg_primary := false |> <| process_id := target |> <| thread_id := tid |> in
    (track_peak (ev <| clients ::= <[safe_fd := c]> |>), Some safe_fd).

(** The first thread of another process: its connection may exist already; else
    a pipe is made and sent to it. *)
Definition connect_remote (version tid target : Z) ev : EventLoop K * option Z :=
  match find_client_by (of_process target) ev with
  | Some (ecfd, _) => (update_client ecfd (fun c => c <| thread_id := tid |>) ev, Some ecfd)
  | None =>
      let target_msg_fd := default (-1) (processes (state ev) !! target ≫= socket_fd) in
      if decide (0 <= target_msg_fd) then
        match on_kernel pipe2 ev with
        | (ev, Some (r, w)) =>
            let '(ev, _) := on_kernel (send_fd target_msg_fd w version) ev in
            let ev := ev <| kernel ::= close_fd w |> in
            let c := (Ipc.new r target_msg_fd) <| process_id := target |> in
            (ev <| clients ::= <[r := c]> |>, Some r)
        | (ev, None) => (ev, None)
        end
      else (ev, None)
  end.

Definition add_exit_event (thread_fd pid handle obj : Z) ev : EventLoop K :=
  ev <| thread_exit_events ::= fun m => <[thread_fd := default [] (m !! thread_fd) ++ [(pid, handle, obj)]]> m |>.

(** The handle of the new thread, with the event that its end signals. *)
Definition thread_handle (client_fd tid : Z) ev : EventLoop K * Z * option Z :=
  let '(ev, handle) := alloc_waitable_handle_for_client client_fd ev in
  let pid := client_pid ev client_fd in
  if decide (handle <> 0) then
    let ev := set_object_id pid handle tid ev in
    match get_or_create_event true false ev with
    | (ev, Some obj) => (insert_recyclable_event pid handle obj 1 ev, handle, Some obj)
    | (ev, None) => (ev, handle, None)
    end
  else (ev, handle, None).

Definition connect_thread (version client_fd request_fd tid target : Z) (inflight : option Z) ev : EventLoop K * option Z :=
  match inflight with
  | Some p => connect_pipe client_fd p tid target ev
  | None => if decide (request_fd = -1) then connect_remote version tid target ev else (ev, None)
  end.

Definition handle_new_thread (version client_fd : Z) buf ev : EventLoop K * Reply :=
  match new_thread_request buf with
  | None => (ev, status_reply 0xC000000D)
  | Some req =>
      let '(ev, inflight) := take_inflight_fd client_fd (nt_request_fd req) ev in
      let target := target_process client_fd (nt_process req) ev in
      let '(ev, tid) := create_thread target ev in
      let ev := if decide (Z.land (nt_flags req) 1 <> 0) then update_thread tid (fun t => t <| suspend_count := 1 |>) ev else ev in
      let '(ev, handle, exit_obj) := thread_handle client_fd tid ev in
      let creator := client_pid ev client_fd in
      let '(ev, thread_fd) := connect_thread version client_fd (nt_request_fd req) tid target inflight ev in
      let ev :=
        match thread_fd, exit_obj with
        | Some f, Some obj => if decide (handle <> 0) then add_exit_event f creator handle obj ev else ev
        | _, _ => ev
        end in
      (ev, fixed (NewThreadReply (hdr 0) tid handle))
  end.

(** *** The first thread of a process *)

(** Wake-ups that came before the client had a wait descriptor. *)
Definition drain_wakes (client_fd : Z) ev : EventLoop K :=
  match pending_wakes ev !! client_fd with
  | None => ev
  | Some wakes =>
      let ev := ev <| pending_wakes ::= delete client_fd |> in
      match clients ev !! client_fd ≫= wait_fd with
      | Some wfd => ev <| kernel ::= fun k => fold_left (fun k w => write_fd wfd (wake_up_reply w.1 w.2) k) wakes k |>
      | None => ev
      end
  end.

Definition store_fds (client_fd : Z) (reply wait : option Z) ev : EventLoop K :=
  update_client client_fd (fun c =>
    let c := match reply with Some fd => c <| reply_fd := Some fd |> | None => c end in
    match wait with Some fd => c <| wait_fd := Some fd |> | None => c end) ev.

(** By number, else the first that is queued. *)
Definition take_fd_or_first (client_fd n : Z) ev : EventLoop K * option Z :=
  match take_inflight_fd client_fd n ev with
  | (ev, Some fd) => (ev, Some fd)
  | (ev, None) => pop_inflight_fd client_fd ev
  end.

(** The process a connecting client belongs to: its own, the first that waits to
    be claimed, or a new one.  The flag tells that nobody created it. *)
Definition claim_process (client_fd : Z) ev : EventLoop K * Z * bool :=
  let '(ev, pid, unparented) :=
    match nonzero_pid ev client_fd with
    | Some pid => (ev, pid, false)
    | None =>
        match unclaimed_pids ev with
        | pid :: rest => (ev <| unclaimed_pids := rest |>, pid, false)
        | [] => let '(ev, pid) := create_process ev in (ev, pid, true)
        end
    end in
  (update_process pid (fun p => p <| claimed := true |>) ev <| unclaimed_pids ::= filter (fun p => p <> pid) |>, pid, unparented).

(** The thread id [new_thread] gave the client, or a new one. *)
Definition claim_thread (client_fd pid : Z) ev : EventLoop K * Z :=
  match client_thread_id ev client_fd with
  | Some tid => (ev, tid)
  | None => create_thread pid ev
  end.

Definition alloc_queue (tid : Z) ev : outcome (EventLoop K * option Z) :=
  r <-! Shm.alloc_slot (shm ev) tid ;; let '(s, slot) := r in Ret (ev <| shm := s |>, slot).

(** The two shared objects of a thread; the input counts as foreground. *)
Definition alloc_locators ev : outcome (EventLoop K * (list Z * list Z)) :=
  a <-! alloc_shared_object ev ;; let '(ev, queue) := a in
  b <-! alloc_shared_object ev ;; let '(ev, input) := b in
  let off := locator_offset input in
  Ret (shared_write off [write32 (off + 16) 1] ev, (queue, input)).

Definition empty_info (p : Process) : bool := match startup_info p with Some (_ :: _) => false | _ => true end.

Definition store_params (game_exe : option str) (pid : Z) ev : EventLoop K :=
  match game_exe with
  | Some exe => update_process pid (fun p => p <| info_size := u32 (blen (synthesize exe)) |> <| startup_info := Some (synthesize exe) |>) ev
  | None => ev
  end.

Definition fill_params (game_exe : option str) (pid : Z) (unparented : bool) ev : EventLoop K :=
  match processes (state ev) !! pid with
  | Some p => if negb (unparented && negb (boot_process_claimed ev)) && empty_info p then store_params game_exe pid ev else ev
  | None => ev
  end.

Definition total_info_size (pid : Z) ev : Z :=
  match processes (state ev) !! pid with Some p => u32 (opt_len (startup_info p) + opt_len (startup_env p)) | None => 0 end.

Definition own_desktop (tid pid : Z) ev : EventLoop K :=
  let ev := reassign_user_handle_owner (desktop_top_window ev) tid pid ev in
  reassign_user_handle_owner (desktop_msg_window ev) tid pid ev.

(** The first process nobody created starts the desktop; the next ones take it over. *)
Definition take_desktop (game_exe : option str) (tid pid : Z) (unparented : bool) (size : Z) ev : EventLoop K * Z :=
  if unparented then
    if boot_process_claimed ev then
      let ev := own_desktop tid pid ev in
      (ev <| window_states ::= alter (fun w => w <| ws_tid := tid |>) (desktop_top_window ev) |>
          <| window_states ::= alter (fun w => w <| ws_tid := tid |>) (desktop_msg_window ev) |>, size)
    else
      let ev := own_desktop tid pid (ev <| boot_process_claimed := true |>) in
      if decide (size = 0) then (store_params game_exe pid ev, 0) else (ev, size)
  else (ev, size).

Definition DEVICE_TAG : Z := 0xFACE0000.
Definition send_device (dev client_fd : Z) ev : EventLoop K * Z :=
  if ntsync ev then
    let '(ev, d) := on_kernel (dup_fd dev) ev in
    if decide (0 <= d) then (update_client client_fd (fun c => c <| pending_fd := Some (d, DEVICE_TAG) |>) ev, DEVICE_TAG) else (ev, 0)
  else (ev, 0).

(** The session of the parent, or the interactive one. *)
Definition inherit_session (pid : Z) ev : EventLoop K * Z :=
  let sid :=
    match processes (state ev) !! pid with
    | Some p => if decide (parent_pid p <> 0) then default 1 (session_id <$> processes (state ev) !! parent_pid p) else 1
    | None => 1
    end in
  (update_process pid (fun p => p <| session_id := sid |>) ev, sid).

Definition ticks (t : Z * Z) : Z := i64 (i64 (t.1 * 10000000) + Z.quot t.2 100).
Definition MACHINES : list Z := le_bytes 2 0x8664 ++ le_bytes 2 0x014c.

Definition first_thread (game_exe : option str) (dev : Z) (mono : Z * Z) (client_fd : Z) (req : InitFirstThreadRequest) ev :
  outcome (EventLoop K * Reply) :=
  let '(ev, pid, unparented) := claim_process client_fd ev in
  let '(ev, tid) := claim_thread client_fd pid ev in
  a <-! alloc_queue tid ev ;;
  match a with
  | (ev, None) => Ret (ev, status_reply 0xC0000017)
  | (ev, Some _) =>
      l <-! alloc_locators ev ;;
      let '(ev, (queue, input)) := l in
      let ev := update_client client_fd (fun c =>
        c <| thread_id := tid |> <| process_id := pid |> <| queue_locator := queue |> <| input_locator := input |>
          <| unix_pid := i32 (if_unix_pid req) |> <| unix_tid := i32 (if_unix_tid req) |>) ev in
      let ev := fill_params game_exe pid unparented ev in
      let size := total_info_size pid ev in
      let '(ev, size) := take_desktop game_exe tid pid unparented size ev in
      let '(ev, device) := send_device dev client_fd ev in
      let '(ev, _) := get_or_create_alert client_fd ev in
      let '(ev, sid) := inherit_session pid ev in
      Ret (ev, reply_vararg (layout (InitFirstThreadReply (mkReplyHeader 0 (u32 (blen MACHINES))) pid tid (ticks mono) sid device size)) MACHINES)
  end.

Definition handle_init_first_thread (game_exe : option str) (dev : Z) (mono : Z * Z) (client_fd : Z) buf ev : outcome (EventLoop K * Reply) :=
  match init_first_thread_request buf with
  | None => Ret (ev, status_reply 0xC000000D)
  | Some req =>
      let '(ev, reply) := take_fd_or_first client_fd (if_reply_fd req) ev in
      let '(ev, wait) := take_fd_or_first client_fd (if_wait_fd req) ev in
      first_thread game_exe dev mono client_fd req (drain_wakes client_fd (store_fds client_fd reply wait ev))
  end.

(** *** Further threads *)
Definition process_or_first (client_fd : Z) ev : EventLoop K * Z :=
  match nonzero_pid ev client_fd with
  | Some pid => (ev, pid)
  | None => match first_key (processes (state ev)) with Some pid => (ev, pid) | None => create_process ev end
  end.

Definition has_locator (pid : Z) (c : Client) : bool := of_process pid c && bool_decide (queue_locator c <> replicate 16 0).

(** The threads of a process share the objects of the first. *)
Definition process_locators (pid : Z) ev : outcome (EventLoop K * (list Z * list Z)) :=
  match find_client_by (has_locator pid) ev with
  | Some (_, c) => Ret (ev, (queue_locator c, input_locator c))
  | None => alloc_locators ev
  end.

Definition process_unix_pid (pid : Z) ev : Z :=
  match find_client_by (fun c => of_process pid c && bool_decide (unix_pid c <> 0)) ev with Some (_, c) => unix_pid c | None => 0 end.

Definition further_thread (client_fd : Z) (req : InitThreadRequest) ev : outcome (EventLoop K * Reply) :=
  let '(ev, pid) := process_or_first client_fd ev in
  let '(ev, tid) := claim_thread client_fd pid ev in
  a <-! alloc_queue tid ev ;;
  let '(ev, _) := a in
  l <-! process_locators pid ev ;;
  let '(ev, (queue, input)) := l in
  let upid := process_unix_pid pid ev in
  let ev := update_client client_fd (fun c =>
    c <| thread_id := tid |> <| process_id := pid |> <| queue_locator := queue |> <| input_locator := input |>
      <| teb := it_teb req |> <| entry_point := it_entry req |> <| unix_tid := it_unix_tid req |> <| unix_pid := upid |>) ev in
  let '(ev, _) := get_or_create_alert client_fd ev in
  let tid := default 0 (client_thread_id ev client_fd) in
  let suspended := match all_threads (state ev) !! tid with Some t => bool_decide (0 < suspend_count t) | None => false end in
  Ret (ev, fixed (InitThreadReply (hdr 0) (b2z suspended))).

Definition handle_init_thread (client_fd : Z) buf ev : outcome (EventLoop K * Reply) :=
  match init_thread_request buf with
  | None => Ret (ev, status_reply 0xC000000D)
  | Some req =>
      let '(ev, reply) := take_inflight_fd client_fd (it_reply_fd req) ev in
      let '(ev, wait) := take_inflight_fd client_fd (it_wait_fd req) ev in
      further_thread client_fd req (drain_wakes client_fd (store_fds client_fd reply wait ev))
  end.

(** *** Startup parameters of the calling process *)
Definition handle_get_startup_info (client_fd : Z) buf ev : EventLoop K * Reply :=
  let '(ev, size, mach, vararg) :=
    match nonzero_pid ev client_fd ≫= fun pid => (fun p => (pid, p)) <$> processes (state ev) !! pid with
    | Some (pid, p) =>
        let ev := update_process pid (fun p => p <| startup_info := None |> <| startup_env := None |>) ev in
        (ev, info_size p, if decide (machine p <> 0) then machine p else 0x8664,
         default [] (startup_info p) ++ default [] (startup_env p))
    | None => (ev, 0, 0x8664, [])
    end in
  let send := take (Z.to_nat (max_reply_vararg buf)) vararg in
  (ev, reply_vararg (layout (GetStartupInfoReply (mkReplyHeader 0 (u32 (blen send))) size mach)) send).

(** *** Information, suspension, enumeration *)
Definition thread_fields (c : Client) : Z * Z * Z * Z := (process_id c, thread_id c, teb c, entry_point c).

(** The thread a handle stands for, by the map of [get_next_thread] first. *)
Definition info_target (client_fd handle : Z) ev : option Z :=
  match thread_handle_tids ev !! handle with
  | Some tid => Some tid
  | None => (fun e => u32 (object_id e)) <$> handle_entry ev (client_pid ev client_fd) handle
  end.

Definition handle_get_thread_info (client_fd : Z) buf ev : EventLoop K * Reply :=
  match get_thread_info_request buf with
  | None => (ev, fixed (GetThreadInfoReply (hdr 0xC0000023) 0 0 0 0 0 0))
  | Some handle =>
      let own := clients ev !! client_fd in
      let target :=
        if decide (handle = 0xFFFFFFFE \/ handle = 0xFFFFFFFD \/ handle = 0) then own
        else match info_target client_fd handle ev with
             | Some tid => snd <$> find_client tid ev
             | None => own
             end in
      let '(pid, tid, teb, entry) := default (0, 0, 0, 0) (thread_fields <$> target) in
      (ev, fixed (GetThreadInfoReply (hdr 0) pid tid teb entry 0xFFFF 259))
  end.

Definition handle_terminate_thread (client_fd : Z) buf ev : EventLoop K * Reply := (ev, fixed (TerminateThreadReply (hdr 0) 1)).
Definition handle_set_thread_info (client_fd : Z) buf ev : EventLoop K * Reply := (ev, fixed (SetThreadInfoReply (hdr 0))).
Definition handle_set_thread_context (client_fd : Z) buf ev : EventLoop K * Reply := (ev, fixed (SetThreadContextReply (hdr 0) 1)).
Definition handle_get_thread_context (client_fd : Z) buf ev : EventLoop K * Reply := (ev, fixed (GetThreadContextReply (hdr 0) 1 0)).

(** A client that is blocked in a suspending select. *)
Definition parked (tid : Z) (c : Client) : bool := bool_decide (thread_id c = tid) && bool_decide (suspend_cookie c <> 0).

Definition wake_parked (tid : Z) ev : EventLoop K :=
  match find_client_by (parked tid) ev with
  | Some (fd, c) =>
      match wait_fd c with
      | Some wfd =>
          if decide (0 <= wfd) then
            let ev := ev <| kernel ::= write_fd wfd (wake_up_reply (suspend_cookie c) 0x100) |> in
            update_client fd (fun c => c <| suspend_cookie := 0 |>) ev
          else ev
      | None => ev
      end
  | None => ev
  end.

Definition unsuspend (t : Thread) : Thread :=
  if decide (0 < suspend_count t) then t <| suspend_count ::= fun n => n - 1 |> else t.

Definition handle_resume_thread (client_fd : Z) buf ev : EventLoop K * Reply :=
  match resume_thread_request buf with
  | None => (ev, status_reply 0xC000000D)
  | Some handle =>
      match handle_entry ev (client_pid ev client_fd) handle with
      | Some e =>
          let tid := u32 (object_id e) in
          let old := match all_threads (state ev) !! tid with Some t => suspend_count t | None => 0 end in
          (wake_parked tid (update_thread tid unsuspend ev), fixed (ResumeThreadReply (hdr 0) old))
      | None => (ev, fixed (ResumeThreadReply (hdr 0) 0))
      end
  end.

Definition SIGUSR1 : Z := 10.
Definition interrupt (tid : Z) ev : EventLoop K :=
  match find_client tid ev with
  | Some (_, c) =>
      if decide (0 < unix_pid c /\ 0 < unix_tid c) then ev <| kernel ::= tgkill (unix_pid c) (unix_tid c) SIGUSR1 |> else ev
  | None => ev
  end.

Definition suspend_target (client_fd handle : Z) ev : option Z :=
  match handle_entry ev (client_pid ev client_fd) handle with
  | Some e => Some (u32 (object_id e))
  | None => thread_handle_tids ev !! handle
  end.

Definition handle_suspend_thread (client_fd : Z) buf ev : EventLoop K * Reply :=
  match suspend_thread_request buf with
  | None => (ev, status_reply 0xC000000D)
  | Some handle =>
      match suspend_target client_fd handle ev with
      | Some tid =>
          let count := match all_threads (state ev) !! tid with Some t => suspend_count t | None => 0 end in
          let ev := update_thread tid (fun t => t <| suspend_count ::= fun n => i32 (n + 1) |>) ev in
          (if decide (count = 0) then interrupt tid ev else ev, fixed (SuspendThreadReply (hdr 0) count))
      | None => (ev, fixed (SuspendThreadReply (hdr 0) 0))
      end
  end.

Definition handle_get_thread_times (mono : Z * Z) (client_fd : Z) buf ev : EventLoop K * Reply :=
  let '(upid, utid) := match clients ev !! client_fd with Some c => (unix_pid c, unix_tid c) | None => (0, 0) end in
  (ev, fixed (GetThreadTimesReply (hdr 0) (ticks mono) upid utid)).

Definition handle_open_thread (client_fd : Z) buf ev : EventLoop K * Reply :=
  match open_thread_request buf with
  | None => (ev, status_reply 0xC000000D)
  | Some _ =>
      let '(ev, handle) := alloc_waitable_handle_for_client client_fd ev in
      if decide (handle = 0) then (ev, status_reply 0xC0000017) else (ev, fixed (OpenThreadReply (hdr 0) handle))
  end.

(** The threads of a process in the order of their ids. *)
Definition thread_ids (target : Z) ev : list Z :=
  merge_sort Z.le (filter (fun kt => ServerState.pid kt.2 = target) (map_to_list (all_threads (state ev)))).*1.

Definition NO_MORE_ENTRIES : Z := 0x8000001A.

Definition next_thread (target last flags : Z) ev : option Z :=
  let tids := thread_ids target ev in
  let tids := if decide (flags = 1) then reverse tids else tids in
  if decide (last = 0) then head tids
  else match thread_handle_tids ev !! last with
       | Some lt => head (filter (fun t => lt < t) tids)
       | None => None
       end.

(** A handle for the next thread, remembered for the call after it. *)
Definition get_next_thread (caller last flags : Z) ev : EventLoop K * option Z :=
  match next_thread caller last flags ev with
  | Some tid =>
      let '(ev, handle) :=
        match processes (state ev) !! caller with
        | Some p => let '(t, h) := allocate (handles p) tid in (with_handles caller t ev, h)
        | None => (ev, 0)
        end in
      if decide (handle = 0) then (ev, None) else (ev <| thread_handle_tids ::= <[handle := tid]> |>, Some handle)
  | None => (ev, None)
  end.

Definition handle_get_next_thread (client_fd : Z) buf ev : EventLoop K * Reply :=
  match get_next_thread_request buf with
  | None => (ev, fixed (GetNextThreadReply (hdr 0xC0000023) 0))
  | Some (last, flags) =>
      match get_next_thread (client_pid ev client_fd) last flags ev with
      | (ev, Some handle) => (ev, fixed (GetNextThreadReply (hdr 0) handle))
      | (ev, None) => (ev, fixed (GetNextThreadReply (hdr NO_MORE_ENTRIES) 0))
      end
  end.

(** ** Enumeration is complete *)

(** What a client does: ask for the first, then for the one after the last. *)
Fixpoint walk (n : nat) (caller last : Z) ev : list Z * EventLoop K * bool :=
  match n with
  | O => ([], ev, false)
  | S n =>
      match get_next_thread caller last 0 ev with
      | (ev, Some h) => let '(hs, ev, ended) := walk n caller h ev in (h :: hs, ev, ended)
      | (ev, None) => ([], ev, true)
      end
  end.

Lemma thread_ids_sorted target ev : StronglySorted Z.lt (thread_ids target ev).
Proof.
  unfold thread_ids. set (l := (filter _ (map_to_list (all_threads (state ev)))).*1).
  assert (NoDup (merge_sort Z.le l)) as Hnd.
  { rewrite merge_sort_Permutation. unfold l. pose proof (NoDup_fst_map_to_list (all_threads (state ev))) as Hn.
    revert Hn. generalize (map_to_list (all_threads (state ev))). clear. intros l. induction l as [|x l IH]; [done|].
    rewrite fmap_cons, NoDup_cons. intros [Hx Hl]. rewrite filter_cons. case_decide; [|by apply IH].
    rewrite fmap_cons, NoDup_cons. split; [|by apply IH]. intros (y & Hy & Hin)%list_elem_of_fmap.
    apply list_elem_of_filter in Hin as [_ Hin]. apply Hx, list_elem_of_fmap. eauto. }
  pose proof (StronglySorted_merge_sort Z.le l) as Hs. revert Hnd Hs. generalize (merge_sort Z.le l). clear.
  intros l Hnd Hs. induction Hs as [|x l Hs IH Hx]; [constructor|]. apply NoDup_cons in Hnd as [Hni Hnd].
  constructor; [by apply IH|]. rewrite Forall_forall in *. intros y Hy. specialize (Hx y Hy).
  assert (x <> y) by (intros ->; done). lia.
Qed.

Lemma filter_after pre x rest : StronglySorted Z.lt (pre ++ x :: rest) -> filter (fun t => x < t) (pre ++ x :: rest) = rest.
Proof.
  rewrite StronglySorted_app. intros (Hpre & _ & Hr). rewrite filter_app, filter_cons_False by lia. apply StronglySorted_inv in Hr as [_ Hx].
  rewrite Forall_forall in Hx.
  rewrite filter_none, (filter_all _ rest); [done|done|]. intros y Hy Hlt. specialize (Hpre y x Hy ltac:(set_solver)). lia.
Qed.

(** One step: the next thread gets a new handle; the threads and the handles that
    were there stay. *)
Lemma get_next_thread_step caller last flags ev p tid :
  processes (state ev) !! caller = Some p -> HandleTable.wf (handles p) -> has_room p ->
  next_thread caller last flags ev = Some tid ->
  exists ev' h p', get_next_thread caller last flags ev = (ev', Some h) /\ h <> 0 /\
    thread_handle_tids ev' !! h = Some tid /\ all_threads (state ev') = all_threads (state ev) /\
    processes (state ev') !! caller = Some p' /\ HandleTable.wf (handles p') /\
    length (Slab.HeapSlab.slots (HandleTable.slab (handles p'))) = S (length (Slab.HeapSlab.slots (HandleTable.slab (handles p)))) /\
    handle_entry ev caller h = None /\ handle_entry ev' caller h = Some (entry_new tid) /\
    (forall h' e, handle_entry ev caller h' = Some e -> handle_entry ev' caller h' = Some e).
Proof.
  intros Hp Hwf Hroom Hn. unfold get_next_thread. rewrite Hn, Hp, allocate_is_full.
  destruct (allocate_full_facts (handles p) (entry_new tid) Hwf Hroom) as (t & h & -> & Hh & _ & Hwf' & Hfresh & Hget & Hlen).
  rewrite decide_False by done. set (ev' := (with_handles caller t ev) <| thread_handle_tids ::= <[h := tid]> |>).
  assert (forall h', handle_entry ev' caller h' = HandleTable.get t h') as He.
  { intros h'. change (handle_entry ev' caller h') with (handle_entry (with_handles caller t ev) caller h').
    rewrite handle_entry_with_handles by (rewrite Hp; eauto). by rewrite decide_True. }
  exists ev', h, (p <| handles := t |>). split; [done|]. split; [done|]. split; [apply lookup_insert_eq|]. split; [done|].
  split; [cbn; by rewrite lookup_alter_eq, Hp|]. split; [done|]. split; [done|].
  assert (forall h', handle_entry ev caller h' = HandleTable.get (handles p) h') as He0 by (intros h'; unfold handle_entry; by rewrite Hp).
  rewrite He0, He, Hget. rewrite decide_True by done. split_and!; [done|done|]. intros h' e. rewrite He0, He, Hget. intros Hg.
  rewrite decide_False; [done|]. intros Hi. rewrite get_live in Hg, Hfresh. rewrite Hi in Hg. congruence.
Qed.

(** Enumerating threads visits each thread once.  A client that asks for the
    first thread and then for the one after each handle it got receives, as many
    times as its process has threads, a new handle for the next thread in the
    order of the ids, and then the end; the threads are as they were. *)
Theorem get_next_thread_enumerates caller ev p :
  processes (state ev) !! caller = Some p -> HandleTable.wf (handles p) ->
  Z.of_nat (length (Slab.HeapSlab.slots (HandleTable.slab (handles p))) + length (thread_ids caller ev)) < MAX_HANDLES ->
  exists hs ev', walk (S (length (thread_ids caller ev))) caller 0 ev = (hs, ev', true) /\
    (fun h => handle_entry ev' caller h) <$> hs = (fun t => Some (entry_new t)) <$> thread_ids caller ev /\
    NoDup hs /\ all_threads (state ev') = all_threads (state ev).
Proof.
  intros Hp Hwf Hroom. pose proof (thread_ids_sorted caller ev) as Hs.
  assert (forall rest pre last ev p, thread_ids caller ev = pre ++ rest -> processes (state ev) !! caller = Some p ->
    HandleTable.wf (handles p) -> StronglySorted Z.lt (pre ++ rest) ->
    Z.of_nat (length (Slab.HeapSlab.slots (HandleTable.slab (handles p))) + length rest) < MAX_HANDLES ->
    (if decide (last = 0) then pre = [] else exists pre' x, pre = pre' ++ [x] /\ thread_handle_tids ev !! last = Some x) ->
    exists hs ev', walk (S (length rest)) caller last ev = (hs, ev', true) /\
      (fun h => handle_entry ev' caller h) <$> hs = (fun t => Some (entry_new t)) <$> rest /\ NoDup hs /\
      (forall h, h ∈ hs -> handle_entry ev caller h = None) /\
      (forall h e, handle_entry ev caller h = Some e -> handle_entry ev' caller h = Some e) /\
      all_threads (state ev') = all_threads (state ev)) as Hgen.
  { clear. induction rest as [|tid rest IH]; intros pre last ev p Ht Hp Hwf Hs Hroom Hlast.
    - assert (next_thread caller last 0 ev = None) as Hn.
      { unfold next_thread. rewrite Ht, app_nil_r. rewrite (decide_False (P := 0 = 1)) by done. case_decide; [by subst pre|].
        destruct Hlast as (pre' & x & -> & ->). rewrite app_nil_r in Hs. by rewrite (filter_after pre' x []). }
      exists [], ev. cbn [length walk]. unfold get_next_thread. rewrite Hn.
      split; [done|]. split; [done|]. split; [constructor|]. split; [by intros h ?%not_elem_of_nil|]. done.
    - assert (next_thread caller last 0 ev = Some tid) as Hn.
      { unfold next_thread. rewrite Ht. rewrite (decide_False (P := 0 = 1)) by done. case_decide; [by subst pre|].
        destruct Hlast as (pre' & x & -> & ->). rewrite <- app_assoc in *. cbn in *. by rewrite filter_after. }
      destruct (get_next_thread_step caller last 0 ev p tid Hp Hwf ltac:(unfold has_room; cbn in Hroom; lia) Hn)
        as (ev1 & h & p1 & Hg & Hh & Htid & Hth & Hp1 & Hwf1 & Hlen & Hnone & Hsome & Hkeep).
      assert (thread_ids caller ev1 = thread_ids caller ev) as Hids by (unfold thread_ids; by rewrite Hth).
      destruct (IH (pre ++ [tid]) h ev1 p1) as (hs & ev2 & Hw & Hmap & Hnd & Hfr & Hk & Hth2).
      + rewrite Hids, Ht. by rewrite <- app_assoc.
      + done.
      + done.
      + by rewrite <- app_assoc.
      + rewrite Hlen. cbn in Hroom. lia.
      + rewrite decide_False by done. eauto.
      + exists (h :: hs), ev2. cbn [length]. set (n := S (length rest)) in *. cbn [walk]. rewrite Hg, Hw. split; [done|].
        split; [cbn; by rewrite (Hk h _ Hsome), Hmap|]. split.
        { constructor; [|done]. intros Hin. rewrite (Hfr h Hin) in Hsome. done. }
        split; [|split; [auto|congruence]]. intros h' [->|Hin]%elem_of_cons; [done|].
        specialize (Hfr h' Hin). destruct (handle_entry ev caller h') as [e|] eqn:He; [|done]. rewrite (Hkeep h' e He) in Hfr. done. }
  destruct (Hgen (thread_ids caller ev) [] 0 ev p) as (hs & ev' & Hw & Hm & Hn & _ & _ & Ht); try done. exists hs, ev'. done.
Qed.

(** ** Suspension *)
Lemma find_client_by_unique (P : Client -> bool) ev fd c :
  clients ev !! fd = Some c -> P c = true -> (forall fd' c', clients ev !! fd' = Some c' -> P c' = true -> fd' = fd) ->
  find_client_by P ev = Some (fd, c).
Proof.
  intros Hc HP Hu. unfold find_client_by.
  destruct (head (filter (fun kc => P kc.2 = true) (map_to_list (clients ev)))) as [[fd' c']|] eqn:Hh.
  - apply head_Some_elem_of in Hh. apply list_elem_of_filter in Hh as [HP' Hin]. apply elem_of_map_to_list in Hin. cbn in *.
    assert (fd' = fd) as -> by eauto. congruence.
  - exfalso. apply head_None in Hh. assert ((fd, c) ∈ filter (fun kc => P kc.2 = true) (map_to_list (clients ev))) as Hin.
    { apply list_elem_of_filter. split; [done|]. by apply elem_of_map_to_list. }
    rewrite Hh in Hin. by apply not_elem_of_nil in Hin.
Qed.

Lemma find_client_by_none (P : Client -> bool) ev :
  (forall fd c, clients ev !! fd = Some c -> P c = false) -> find_client_by P ev = None.
Proof.
  intros Hn. unfold find_client_by. rewrite filter_none; [done|]. intros [fd c] Hin HP. apply elem_of_map_to_list in Hin.
  cbn in HP. rewrite (Hn fd c Hin) in HP. done.
Qed.

(** What the handle of a resume request stands for. *)
Definition names_thread (rfd : Z) (rbuf : list Z) (tid : Z) ev : Prop :=
  exists h e, resume_thread_request rbuf = Some h /\ handle_entry ev (client_pid ev rfd) h = Some e /\ u32 (object_id e) = tid.

Lemma resume_eq rfd rbuf tid ev t :
  names_thread rfd rbuf tid ev -> all_threads (state ev) !! tid = Some t ->
  handle_resume_thread rfd rbuf ev = (wake_parked tid (update_thread tid unsuspend ev), fixed (ResumeThreadReply (hdr 0) (suspend_count t))).
Proof. intros (h & e & Hr & He & <-) Ht. unfold handle_resume_thread. by rewrite Hr, He, Ht. Qed.

Section suspension.
Context `{!Sync.Protocol}.

(** Resuming a thread that is not suspended leaves the loop as it is. *)
Lemma unsuspend_none tid t ev : all_threads (state ev) !! tid = Some t -> suspend_count t = 0 -> update_thread tid unsuspend ev = ev.
Proof.
  intros Ht Hz. assert (unsuspend t = t) as Hu by (unfold unsuspend; by rewrite Hz, decide_False by lia).
  assert (alter unsuspend tid (all_threads (state ev)) = all_threads (state ev)) as He.
  { rewrite <- (insert_id _ _ _ Ht) at 1. rewrite alter_insert_eq, Hu. by apply insert_id. }
  assert ((state ev) <| all_threads ::= alter unsuspend tid |> = state ev) as Hs.
  { clear Ht. destruct (state ev) as []. unfold set. cbn in *. by f_equal. }
  transitivity (ev <| state := state ev |>); [|by destruct ev]. exact (f_equal (fun st => ev <| state := st |>) Hs).
Qed.

(** C22: a suspended thread runs again after one resume.  A connected thread with
    a wait descriptor, one suspension and no queued APC that parks itself in a
    select (no operation, a cookie that is not zero, no APC to acknowledge) gets no
    answer; the resume request for its handle writes one wake-up with the cookie of
    that select to the thread's wait descriptor and nothing else, returns the old
    count, leaves the count at zero, and lets the next select of the thread
    through; resuming again replies zero and changes nothing at all. *)
Theorem suspended_thread_resumes clk cfd c tid t w req buf rfd rbuf ev :
  clients ev !! cfd = Some c -> thread_id c = tid -> tid <> 0 -> wait_fd c = Some w -> 0 <= w ->
  (forall fd' c', clients ev !! fd' = Some c' -> thread_id c' = tid -> fd' = cfd) ->
  all_threads (state ev) !! tid = Some t -> suspend_count t = 1 ->
  Sync.select_request buf = Some req -> Sync.sel_size req = 0 -> Sync.prev_apc req = 0 -> Sync.sel_cookie req <> 0 ->
  (Sync.SELECT_OP_OFF < length buf)%nat -> pending_kernel_apcs ev !! cfd = None ->
  names_thread rfd rbuf tid ev ->
  exists ev1 ev2, Sync.handle_select clk cfd buf ev = Ret (ev1, Sync.pending, None) /\ kernel ev1 = kernel ev /\
    handle_resume_thread rfd rbuf ev1 = (ev2, fixed (ResumeThreadReply (hdr 0) 1)) /\
    kernel ev2 = write_fd w (wake_up_reply (Sync.sel_cookie req) 0x100) (kernel ev) /\
    suspend_count <$> all_threads (state ev2) !! tid = Some 0 /\ Sync.suspends cfd req buf ev2 = false /\
    handle_resume_thread rfd rbuf ev2 = (ev2, fixed (ResumeThreadReply (hdr 0) 0)).
Proof.
  intros Hc Htid Hnz Hw Hw0 Huniq Ht Hcount Hreq Hsize Hprev Hck Hlen Hapc Hnames. set (ck := Sync.sel_cookie req) in *.
  assert (client_thread_id ev cfd = Some tid) as Hct by (unfold client_thread_id; rewrite Hc; cbn; by rewrite Htid, decide_True).
  set (ev1 := ev <| clients ::= alter (fun c => c <| suspend_cookie := ck |>) cfd |>).
  set (ev2 := update_client cfd (fun c => c <| suspend_cookie := 0 |>)
                ((update_thread tid unsuspend ev1) <| kernel ::= write_fd w (wake_up_reply ck 0x100) |>)).
  assert (suspend_count (unsuspend t) = 0) as Hun by (unfold unsuspend; rewrite Hcount, decide_True by lia; cbn; rewrite Hcount; done).
  assert (all_threads (state ev2) !! tid = Some (unsuspend t)) as Ht2.
  { change (all_threads (state ev2)) with (alter unsuspend tid (all_threads (state ev))). by rewrite lookup_alter_eq, Ht. }
  assert (forall f c', clients ev2 !! f = Some c' -> exists c0, clients ev !! f = Some c0 /\ thread_id c' = thread_id c0 /\
    (f = cfd -> suspend_cookie c' = 0)) as Hcl2.
  { intros f c'. change (clients ev2) with (alter (fun c => c <| suspend_cookie := 0 |>) cfd (alter (fun c => c <| suspend_cookie := ck |>) cfd (clients ev))).
    destruct (decide (f = cfd)) as [->|]; [|rewrite !lookup_alter_ne by done; intros Hf; by exists c'].
    rewrite !lookup_alter_eq, Hc. intros [= <-]. exists c. done. }
  assert (forall e, (forall f, client_pid e f = client_pid ev f) -> processes (state e) = processes (state ev) -> names_thread rfd rbuf tid e) as Hnm.
  { intros e Hp Hs. destruct Hnames as (h & x & Hr & He & Ho). exists h, x. split; [done|]. split; [|done].
    unfold handle_entry in *. by rewrite Hp, Hs. }
  assert (forall f, client_pid ev1 f = client_pid ev f) as Hpid1.
  { intros f. unfold client_pid. cbn. destruct (decide (f = cfd)) as [->|]; [|by rewrite lookup_alter_ne].
    rewrite lookup_alter_eq, Hc. done. }
  assert (forall f, client_pid ev2 f = client_pid ev f) as Hpid2.
  { intros f. rewrite <- Hpid1. unfold client_pid. cbn. destruct (decide (f = cfd)) as [->|]; [|by rewrite !lookup_alter_ne].
    rewrite !lookup_alter_eq, Hc. done. }
  assert (update_thread tid unsuspend ev2 = ev2) as Hsame by (by apply (unsuspend_none _ (unsuspend t))).
  exists ev1, ev2. split_and!.
  - unfold Sync.handle_select. rewrite Hreq. unfold Sync.pop_apc. rewrite Hapc. cbn [obind].
    rewrite decide_False by lia. cbn [obind]. unfold Sync.after_apcs. assert (Sync.suspends cfd req buf ev = true) as ->; [|done].
    unfold Sync.suspends. rewrite Hct, Hsize. change (default 0 (Some tid)) with tid. rewrite Ht, Hcount. rewrite !bool_decide_eq_true_2 by lia. done.
  - done.
  - rewrite (resume_eq _ _ tid _ t); [|by apply Hnm|done]. rewrite Hcount. f_equal. unfold wake_parked.
    rewrite (find_client_by_unique _ _ cfd (c <| suspend_cookie := ck |>)).
    + change (wait_fd (c <| suspend_cookie := ck |>)) with (wait_fd c). rewrite Hw, decide_True by done. reflexivity.
    + cbn. by rewrite lookup_alter_eq, Hc.
    + unfold parked. cbn. rewrite Htid. by rewrite !bool_decide_eq_true_2.
    + intros f c'. cbn. intros Hf. unfold parked. intros [Hp%bool_decide_eq_true _]%andb_true_iff.
      destruct (decide (f = cfd)) as [|Hfc]; [done|]. rewrite lookup_alter_ne in Hf by done. eauto.
  - done.
  - by rewrite Ht2, <- Hun.
  - unfold Sync.suspends. assert (client_thread_id ev2 cfd = Some tid) as ->.
    { unfold client_thread_id. cbn. rewrite !lookup_alter_eq, Hc. cbn. by rewrite Htid, decide_True. }
    change (default 0 (Some tid)) with tid. rewrite Ht2, Hun. by rewrite andb_false_r.
  - rewrite (resume_eq _ _ tid _ (unsuspend t)); [|by apply Hnm|done]. rewrite Hun, Hsame. f_equal. unfold wake_parked.
    rewrite find_client_by_none; [done|]. intros f c' Hf.
    destruct (Hcl2 f c' Hf) as (c0 & Hc0 & Hth & Hz). unfold parked. destruct (decide (thread_id c' = tid)) as [He|He].
    + assert (f = cfd) as -> by (apply (Huniq f c0 Hc0); congruence). rewrite Hz by done. by rewrite andb_false_r.
    + by rewrite bool_decide_eq_false_2.
Qed.
End suspension.

(** ** The end of a thread is signalled *)
Lemma take_inflight_fd_eq client_fd n ev :
  exists cs m, (take_inflight_fd client_fd n ev).1 = ev <| clients := cs |> <| process_inflight_fds := m |> /\
    forall f, nonzero_pid (ev <| clients := cs |>) f = nonzero_pid ev f.
Proof.
  unfold take_inflight_fd. set (own := match clients ev !! client_fd with Some c => _ | None => _ end).
  assert (exists cs, own.1 = ev <| clients := cs |> /\ forall f, nonzero_pid (ev <| clients := cs |>) f = nonzero_pid ev f) as (cs & Hown & Hp).
  { unfold own. destruct (clients ev !! client_fd) as [c|] eqn:Hc; [|exists (clients ev); by destruct ev].
    unfold take_inflight_fd_by_number. destruct (take_by_number n (inflight_fds c)) as [[fd rest]|]; cbn [fst].
    - exists (<[client_fd := c <| inflight_fds := rest |>]> (clients ev)). split; [reflexivity|]. intros f. unfold nonzero_pid. recs.
      destruct (decide (f = client_fd)) as [->|]; [by rewrite lookup_insert_eq, Hc|by rewrite lookup_insert_ne].
    - exists (clients ev). split; [|by destruct ev]. destruct ev. unfold set, set_clients. cbn in *. by rewrite insert_id. }
  destruct own as [ev0 o]. cbn [fst] in Hown. subst ev0. exists cs. destruct o as [fd|]; cbn [fst].
  { exists (process_inflight_fds ev). split; [by destruct ev|done]. }
  case_decide; [|exists (process_inflight_fds ev); split; [by destruct ev|done]].
  destruct (process_inflight_fds _ !! _ ≫= take_by_number n) as [[fd rest]|]; cbn [fst].
  - eexists. split; [by destruct ev|done].
  - exists (process_inflight_fds ev). split; [by destruct ev|done].
Qed.

Lemma get_mut_get (t : HandleTable.HandleTable) h h' f :
  HandleTable.wf t -> index_of h' = index_of h -> HandleTable.get (get_mut t h f) h' = f <$> HandleTable.get t h.
Proof.
  intros Hwf Hi. rewrite !get_live. unfold live_map, get_mut. cbn [HandleTable.slab].
  destruct (Slab.HeapSlab.get_mut_unchecked_spec (HandleTable.slab t) (index_of h) f) as (_ & -> & _); [apply Hwf|].
  by rewrite Hi, lookup_alter_eq.
Qed.

Section exit.
Context `{!ObjectLaws K, !NtsyncLaws K, !Reliable K}.

(** The handle of a new thread: its object is the thread, and its event is new,
    manual-reset and not signalled. *)
Lemma thread_handle_spec client_fd tid ev pid p :
  nonzero_pid ev client_fd = Some pid -> processes (state ev) !! pid = Some p -> HandleTable.wf (handles p) -> has_room p ->
  ntsync ev = true ->
  exists ev' h obj e, thread_handle client_fd tid ev = (ev', h, Some obj) /\ h <> 0 /\
    ntsync_objects ev' !! (pid, h) = Some (obj, 1) /\ event_read obj (kernel ev') = Some (1, 0) /\
    handle_entry ev' pid h = Some e /\ object_id e = tid /\ clients ev' = clients ev /\
    all_threads (state ev') = all_threads (state ev) /\ is_Some (object_of obj (kernel ev')) /\
    forall f, is_Some (object_of f (kernel ev)) -> is_Some (object_of f (kernel ev')) /\ f <> obj.
Proof.
  intros Hc Hp Hwf Hroom Hn. unfold thread_handle.
  destruct (alloc_waitable_full client_fd ev pid p Hc Hp Hwf Hroom (eventfd_ok _)) as (st & h & t & -> & Hh & _ & _ & Hth & Hp' & Hwf' & _ & Hg).
  set (ev1 := ev <| kernel := _ |> <| state := st |>). assert (client_pid ev1 client_fd = pid) as Hpid.
  { unfold nonzero_pid in Hc. unfold client_pid. cbn. destruct (clients ev !! client_fd) as [c|]; [|done]. cbn in *. case_decide; congruence. }
  rewrite Hpid, decide_True by done. unfold get_or_create_event.
  change (ntsync (set_object_id pid h tid ev1)) with (ntsync ev). rewrite Hn. unfold on_kernel.
  change (kernel (set_object_id pid h tid ev1)) with (eventfd (kernel ev)).1. set (k1 := (eventfd (kernel ev)).1) in *.
  destruct (create_event true false k1) as [k2 o] eqn:Hcr. pose proof (create_ok true false k1) as Ho. rewrite Hcr in Ho. destruct Ho as [obj Ho].
  cbn in Ho. subst o. destruct (create_object true false k1 k2 obj Hcr) as [Hnone Hsome].
  set (e := (with_fd (next_object_id (state ev)) (eventfd (kernel ev)).2 FD_TYPE_FILE 0x001F0003 0x20)) in *.
  eexists _, h, obj, (e <| object_id := tid |>). split; [done|]. split; [done|]. split; [apply lookup_insert_eq|].
  split; [by apply (create_reads true false k1 k2 obj)|]. split.
  { unfold handle_entry, set_object_id, update_process. recs. rewrite lookup_alter_eq. rewrite Hp'. cbn. rewrite get_mut_get by done. rewrite Hg, decide_True by done. done. }
  split; [done|]. split; [done|]. split; [exact Hth|]. split; [exact Hsome|].
  intros f Hf. destruct (eventfd_keeps f (kernel ev) Hf) as [He _]. fold k1 in He. rewrite <- He in Hf.
  destruct (create_keeps true false f k1 Hf) as [He2 _]. rewrite Hcr in He2. cbn in He2. split; [change (is_Some (object_of f k2)); by rewrite He2|].
  intros ->. rewrite Hnone in Hf. by destruct Hf.
Qed.

(** The end of a thread signals the handle its creator holds.  Creating a
    thread on a pipe the client sent gives a handle whose object is the new
    thread and whose event is not signalled, and a connection for the thread;
    whenever that connection goes away the event is signalled. *)
Theorem new_thread_exit_signalled version client_fd req buf ev ev0 pipe pid p :
  new_thread_request buf = Some req -> take_inflight_fd client_fd (nt_request_fd req) ev = (ev0, Some pipe) ->
  nonzero_pid ev client_fd = Some pid -> processes (state ev) !! pid = Some p -> HandleTable.wf (handles p) -> has_room p ->
  ntsync ev = true -> is_Some (object_of pipe (kernel ev)) ->
  exists ev1 tid h e f c obj, handle_new_thread version client_fd buf ev = (ev1, fixed (NewThreadReply (hdr 0) tid h)) /\ h <> 0 /\
    handle_entry ev1 pid h = Some e /\ object_id e = tid /\ is_Some (all_threads (state ev1) !! tid) /\
    clients ev1 !! f = Some c /\ thread_id c = tid /\
    ntsync_objects ev1 !! (pid, h) = Some (obj, 1) /\ event_read obj (kernel ev1) = Some (1, 0) /\
    forall ev2 s, thread_exit_events ev2 !! f = thread_exit_events ev1 !! f -> event_read obj (kernel ev2) = Some (1, s) ->
      event_read obj (kernel (Client.signal_thread_exit f ev2)) = Some (1, 1).
Proof.
  intros Hreq Htake Hc Hp Hwf Hroom Hn Hpipe. unfold handle_new_thread. rewrite Hreq, Htake.
  destruct (take_inflight_fd_eq client_fd (nt_request_fd req) ev) as (cs & m & He0 & Hpid0). rewrite Htake in He0. cbn [fst] in He0.
  set (target := target_process client_fd (nt_process req) ev0).
  unfold create_thread, ServerState.create_thread. destruct (alloc_ptid (next_ptid (state ev0))) as [n tid]. cbn beta iota zeta.
  set (st1 := mkServerState _ _ _ _). set (ev1 := ev0 <| state := st1 |>).
  set (ev2 := if decide (Z.land (nt_flags req) 1 <> 0) then update_thread tid (fun t => t <| suspend_count := 1 |>) ev1 else ev1).
  assert (exists p2, processes (state ev2) !! pid = Some p2 /\ handles p2 = handles p) as (p2 & Hp2 & Hh2).
  { assert (processes (state ev2) = processes st1) as -> by (unfold ev2; by case_decide). unfold st1. cbn. subst ev0. cbn.
    destruct (decide (target = pid)) as [->|]; [rewrite lookup_alter_eq, Hp|rewrite lookup_alter_ne, Hp by done]; eauto. }
  assert (nonzero_pid ev2 client_fd = Some pid /\ ntsync ev2 = true /\ kernel ev2 = kernel ev) as (Hc2 & Hn2 & Hk2).
  { assert (nonzero_pid ev2 client_fd = nonzero_pid ev0 client_fd /\ ntsync ev2 = ntsync ev0 /\ kernel ev2 = kernel ev0) as (-> & -> & ->)
      by (unfold ev2; by case_decide).
    subst ev0. split_and!; [|done|done]. rewrite <- Hc. apply Hpid0. }
  assert (is_Some (all_threads (state ev2) !! tid)) as Ht2.
  { unfold ev2. case_decide; cbn; [rewrite lookup_alter_eq|]; rewrite lookup_insert_eq; cbn; eauto. }
  destruct (thread_handle_spec client_fd tid ev2 pid p2 Hc2 Hp2) as (ev3 & h & obj & e & -> & Hh & Ho & Hr & Hent & Hoid & Hcl & Hth & Hob & Hf);
    [by rewrite Hh2|by unfold has_room; rewrite Hh2|done|].
  rewrite <- Hk2 in Hpipe. destruct (Hf pipe Hpipe) as [Hpipe3 Hne].
  assert (client_pid ev3 client_fd = pid) as Hpid3.
  { unfold nonzero_pid in Hc2. unfold client_pid. rewrite Hcl. destruct (clients ev2 !! client_fd) as [c|]; [|done]. cbn in *. case_decide; congruence. }
  cbn [connect_thread]. unfold connect_pipe, on_kernel. destruct (dup_fd pipe (kernel ev3)) as [k4 d] eqn:Hdup.
  pose proof (dup_ok pipe (kernel ev3) Hpipe3) as Hd. rewrite Hdup in Hd. cbn in Hd. rewrite decide_False by lia.
  rewrite Hpid3, decide_True by done. eexists _, tid, h, e, d, _, obj. split; [done|]. split; [done|]. split; [exact Hent|].
  split; [done|]. split; [change (is_Some (all_threads (state ev3) !! tid)); by rewrite Hth|].
  split; [apply lookup_insert_eq|]. split; [done|]. split; [exact Ho|]. split.
  - change (event_read obj (close_fd pipe k4) = Some (1, 0)). destruct (close_keeps pipe obj k4 Hne) as [_ ->]. destruct (dup_keeps pipe obj (kernel ev3) Hob) as [_ Hx]. rewrite Hdup in Hx. cbn in Hx. congruence.
  - intros ev4 s Hx Hs. unfold Client.signal_thread_exit. cbn. apply (set_all_signals _ obj s); [|done].
    rewrite Hx. unfold add_exit_event. recs. rewrite lookup_insert_eq. cbn. rewrite fmap_app. set_solver.
Qed.
End exit.
End handlers.
End Threads.

Module ThreadsDemo.
Import Text Replies Ntsync ModelKernel Ipc HandleTable ServerState Loop LoopDemo CompletionDemo Session Sync.SyncDemo Threads.

#[export] Instance model_channels : Channels MK := {
  pipe2 := fun k => let '(k, a) := open_obj KPlain k in let '(k, b) := open_obj KPlain k in (k, Some (a, b));
  send_fd := fun s f h k => (k, 4);
}.

#[export] Instance demo_protocol : Threads.Protocol := {
  layout := fun _ => [];
  new_thread_request := fields 3 (fun b => mkNewThread (word_at 0 b) (word_at 1 b) (i32 (word_at 2 b)));
  init_first_thread_request := fields 4 (fun b => mkInitFirst (word_at 0 b) (word_at 1 b) (i32 (word_at 2 b)) (i32 (word_at 3 b)));
  init_thread_request := fields 5 (fun b => mkInit (word_at 0 b) (i32 (word_at 1 b)) (i32 (word_at 2 b)) (word_at 3 b) (word_at 4 b));
  get_thread_info_request := w1;
  resume_thread_request := w1;
  open_thread_request := fields 1 (fun _ => tt);
  suspend_thread_request := w1;
  get_next_thread_request := w2;
}.

(** The first process has a second thread, which is not connected. *)
Definition two_threads : EventLoop MK := (create_thread 32 demo_loop).1.

Lemma get_next_thread_enumerates_witness :
  exists hs ev', walk 3 32 0 two_threads = (hs, ev', true) /\
    (fun h => handle_entry ev' 32 h) <$> hs = [Some (entry_new 32); Some (entry_new 36)].
Proof.
  assert (thread_ids 32 two_threads = [32; 36]) as Hids by (vm_compute; reflexivity).
  destruct (get_next_thread_enumerates 32 two_threads (push_thread (demo_process 32 36) 32)) as (hs & ev' & Hw & Hm & _).
  - vm_compute. reflexivity.
  - exact table_new_wf.
  - rewrite Hids. vm_compute. reflexivity.
  - rewrite Hids in Hw, Hm. exists hs, ev'. split; [exact Hw|exact Hm].
Defined.

(** Backwards, the second call finds no thread: the scan of the reversed list looks
    for a larger id. *)
Lemma backwards_stops_after_one :
  thread_ids 32 two_threads = [32; 36] /\
  let '(ev, h) := get_next_thread 32 0 1 two_threads in
  (h ≫= handle_entry ev 32) = Some (entry_new 36) /\ (h ≫= fun h => (get_next_thread 32 h 1 ev).2) = None.
Proof. vm_compute. split; [reflexivity|split; reflexivity]. Qed.

(** The handle [get_next_thread] returned to one process decides what the same
    number means in another. *)
Lemma thread_handles_shared_across_processes :
  let ev := (get_next_thread 32 0 0 demo_loop).1 in
  let '(ev, h) := alloc_waitable_handle_for_client 9 ev in
  (object_id <$> handle_entry ev 40 h) = Some 0x1000 /\ info_target 9 h ev = Some 36.
Proof. vm_compute. split; reflexivity. Qed.

(** The second process holds a handle to the thread of the first, which has a wait
    descriptor and [n] suspensions. *)
Definition suspended (n : Z) : EventLoop MK :=
  let ev := (get_next_thread 40 0 0 demo_loop).1 in
  let ev := set_object_id 40 4 36 ev in
  update_thread 36 (fun t => t <| suspend_count := n |>) (update_client 7 (fun c => c <| wait_fd := Some 50 |>) ev).
Definition park : list Z := request_var [77; 0; 0; 0] (replicate 60 0).

Lemma suspended_thread_resumes_witness :
  exists ev1 ev2, Sync.Sync.handle_select demo_clock 7 park (suspended 1) = Ret (ev1, Sync.Sync.pending, None) /\
    handle_resume_thread 9 (request [4]) ev1 = (ev2, fixed (ResumeThreadReply (Completion.hdr 0) 1)) /\
    kernel ev2 = write_fd 50 (wake_up_reply 77 0x100) (kernel (suspended 1)).
Proof.
  destruct (suspended_thread_resumes demo_clock 7 ((Ipc.new 7 8) <| process_id := 32 |> <| thread_id := 36 |> <| wait_fd := Some 50 |>)
    36 (mkThread 32 1) 50 (Sync.Sync.mkSelectRequest 77 0 0 0) park 9 (request [4]) (suspended 1)) as (ev1 & ev2 & Hs & _ & Hr & Hk & _).
  - vm_compute. reflexivity.
  - reflexivity.
  - lia.
  - reflexivity.
  - lia.
  - intros fd' c' Hc Ht. assert (clients (suspended 1) = clients (update_client 7 (fun c => c <| wait_fd := Some 50 |>) demo_loop)) as He by (vm_compute; reflexivity).
    rewrite He in Hc. cbn in Hc. destruct (decide (fd' = 7)) as [->|Hne]; [reflexivity|]. rewrite lookup_alter_ne in Hc by done.
    destruct (decide (fd' = 9)) as [->|Hne9]; [rewrite lookup_insert_eq in Hc; injection Hc as <-; discriminate Ht|].
    rewrite !lookup_insert_ne in Hc by done. discriminate Hc.
  - vm_compute. reflexivity.
  - reflexivity.
  - vm_compute. reflexivity.
  - reflexivity.
  - reflexivity.
  - done.
  - vm_compute. lia.
  - vm_compute. reflexivity.
  - exists 4, (entry_new 36). split; [vm_compute; reflexivity|split; vm_compute; reflexivity].
  - exists ev1, ev2. split; [exact Hs|]. split; [exact Hr|exact Hk].
Defined.

(** A thread suspended twice is woken by the first resume, with one suspension left. *)
Lemma resume_wakes_while_suspended :
  match Sync.Sync.handle_select demo_clock 7 park (suspended 2) with
  | Ret (ev1, _, _) =>
      let ev2 := (handle_resume_thread 9 (request [4]) ev1).1 in
      (suspend_count <$> all_threads (state ev2) !! 36) = Some 1 /\ written (kernel ev2) = [(50, wake_up_reply 77 0x100)]
  | _ => False
  end.
Proof. vm_compute. split; reflexivity. Qed.

(** The client sent a pipe with the number 5. *)
Definition with_pipe : EventLoop MK :=
  let '(k, p) := open_obj KPlain boot in
  demo_loop <| kernel := k |> <| process_inflight_fds := {[32 := [(36, 5, p)]]} |>.
Definition new_thread_req : list Z := request [0xFFFFFFFF; 0; 5].

Lemma new_thread_exit_signalled_witness :
  exists ev1 tid h f c obj,
    handle_new_thread 930 7 new_thread_req with_pipe = (ev1, fixed (NewThreadReply (Completion.hdr 0) tid h)) /\ clients ev1 !! f = Some c /\
    thread_id c = tid /\ ntsync_objects ev1 !! (32, h) = Some (obj, 1) /\
    event_read obj (kernel (Client.Client.signal_thread_exit f ev1)) = Some (1, 1).
Proof.
  destruct (new_thread_exit_signalled 930 7 (mkNewThread 0xFFFFFFFF 0 5) new_thread_req with_pipe
    (take_inflight_fd 7 5 with_pipe).1 3 32 (demo_process 32 36)) as (ev1 & tid & h & e & f & c & obj & Hr & _ & _ & _ & _ & Hc & Ht & Ho & Hz & Hx).
  - vm_compute. reflexivity.
  - vm_compute. reflexivity.
  - vm_compute. reflexivity.
  - vm_compute. reflexivity.
  - exact table_new_wf.
  - vm_compute. reflexivity.
  - reflexivity.
  - vm_compute. eauto.
  - exists ev1, tid, h, f, c, obj. split_and!; [exact Hr|exact Hc|exact Ht|exact Ho|]. apply (Hx ev1 0); [reflexivity|exact Hz].
Defined.
End ThreadsDemo.
