(* ===== verification/Processes.v ===== *)
(** * Process requests ([src/rust/src/triskelion/event_loop/process.rs],
      [setup_client_on_socket] of [ipc.rs])

    Creation of processes with their startup parameters and inherited handles,
    the end of their start, information, memory access and enumeration.  Reads and
    writes of another process's memory and the link to its executable are
    arguments. *)

From stdpp Require Import base list gmap sorting strings.
From coqutil Require Import Datatypes.RecordSettersUsingExistingGetters.
From S2P Require Import Prelude Objects SideTables Shm Dispatch Text Registry Loop Completion Session Client Sync Threads.
Local Open Scope Z_scope.
Local Open Scope outcome_scope.

Module Processes.
Import Text Replies Ntsync Ipc HandleTable ServerState Loop Completion Session Threads.

(** ** Generated structs *)
Inductive process_reply : Type :=
| NewProcessReply (h : ReplyHeader) (info pid handle : Z)
| GetNewProcessInfoReply (h : ReplyHeader) (success exit_code : Z)
| InitProcessDoneReply (h : ReplyHeader) (suspend : Z)
| GetProcessInfoReply (h : ReplyHeader) (pid affinity peb exit_code priority machine : Z)
| TerminateProcessReply (h : ReplyHeader) (is_self : Z)
| GetProcessDebugInfoReply (h : ReplyHeader) (debug debug_children : Z)
| MakeProcessSystemReply (h : ReplyHeader) (event : Z)
| OpenProcessReply (h : ReplyHeader) (handle : Z)
| SetProcessInfoReply (h : ReplyHeader)
| WriteProcessMemoryReply (h : ReplyHeader) (written : Z)
| ListProcessesReply (h : ReplyHeader) (info_size process_count total_thread_count total_name_len : Z)
| GetProcessImageNameReply (h : ReplyHeader) (len : Z)
| GetProcessIdleEventReply (h : ReplyHeader) (event : Z).

Record NewProcessRequest : Type := mkNewProcess {
  np_socket_fd : Z; np_flags : Z; np_machine : Z; np_info_size : Z; np_handles_size : Z; np_jobs_size : Z }.

Class Protocol : Type := {
  layout : process_reply -> list Z;
  new_process_request : list Z -> option NewProcessRequest;
  get_new_process_info_request : list Z -> option Z;
  init_process_done_request : list Z -> option (Z * Z);
  terminate_process_request : list Z -> option (Z * Z);
  open_process_request : list Z -> option unit;
  read_process_memory_request : list Z -> option (Z * Z * Z);
  write_process_memory_request : list Z -> option (Z * Z);
  get_process_image_name_request : list Z -> option (Z * Z * Z);
  get_process_idle_event_request : list Z -> option Z;
}.

(** ** Parts of the request *)

(** The variable part: object attributes, handles, jobs, startup information and
    environment. *)
Definition objattr_size (buf : list Z) : Z :=
  if decide (VARARG_OFF + 16 <= length buf)%nat then
    let sd_len := get_u32 buf (VARARG_OFF + 8) in
    let name_len := get_u32 buf (VARARG_OFF + 12) in
    Z.land (16 + Z.land sd_len (-2) + Z.land name_len (-2) + 3) (-4)
  else 0.

(** [chunks_exact(4)] read as integers *)
Fixpoint words (n : nat) (bs : list Z) : list Z :=
  match n with O => [] | S n => from_le (take 4 bs) :: words n (drop 4 bs) end.

Definition inherit_handles (req : NewProcessRequest) (buf : list Z) (handles_start : Z) : list Z :=
  let handles_end := handles_start + np_handles_size req in
  if decide (Z.land (np_flags req) 4 <> 0 /\ 4 <= np_handles_size req /\ handles_end <= blen buf) then
    filter (fun h => h <> 0) (words (Z.to_nat (np_handles_size req / 4)) (get_bytes handles_start (np_handles_size req) buf))
  else [].

(** The lengths of the strings, clamped in order to what is left of the data. *)
Definition STRUCT_SIZE : Z := 96.
Definition LENGTH_FIELDS : list Z := [64; 68; 72; 76; 80; 84; 88; 92].
Fixpoint clamp_lengths (offs : list Z) (budget : Z) (info : list Z) : list Z :=
  match offs with
  | [] => info
  | off :: offs =>
      let val := get32 info off in
      let clamped := Z.min val budget in
      let info := if decide (clamped <> val) then put32 off clamped info else info in
      clamp_lengths offs (Z.max 0 (budget - clamped)) info
  end.
Definition fixup_info (info : list Z) : list Z :=
  if decide (STRUCT_SIZE <= blen info) then clamp_lengths LENGTH_FIELDS (Z.max 0 (blen info - STRUCT_SIZE)) info else info.

(** Startup information and environment; the padding between them is dropped. *)
Definition split_startup (req : NewProcessRequest) (buf : list Z) (vararg_start : Z) : option (list Z * list Z) :=
  if decide (vararg_start < blen buf) then
    let remaining := drop (Z.to_nat vararg_start) buf in
    let actual := Z.min (np_info_size req) (blen remaining) in
    let round_info := Z.land (np_info_size req + 3) (-4) in
    Some (fixup_info (take (Z.to_nat actual) remaining), drop (Z.to_nat (Z.min round_info (blen remaining))) remaining)
  else None.

Definition std_handles (info : option (list Z)) : list Z :=
  match info with
  | Some si => if decide (24 <= blen si) then [get32 si 12; get32 si 16; get32 si 20] else [0; 0; 0]
  | None => [0; 0; 0]
  end.

Definition add_handle (l : list Z) (h : Z) : list Z := if decide (h <> 0 /\ h ∉ l) then l ++ [h] else l.

(** ** Sending data to a new process *)
Section handlers.
Context {K : Type} `{Ntsync K, Sockets K, Channels K, !Threads.Protocol, Protocol}.
Implicit Types (ev : EventLoop K) (buf : list Z).

Definition fixed (r : process_reply) : Reply := reply_fixed (layout r).

Definition setup_client_on_socket (version sock : Z) ev : EventLoop K * option Client :=
  match on_kernel pipe2 ev with
  | (ev, None) => (ev, None)
  | (ev, Some (r, w)) =>
      let '(ev, sent) := on_kernel (send_fd sock w version) ev in
      if decide (sent < 0) then (ev <| kernel ::= close_fd r |> <| kernel ::= close_fd w |>, None)
      else
        let '(ev, safe_fd) := on_kernel (dup_fd r) (ev <| kernel ::= close_fd w |>) in
        let ev := ev <| kernel ::= close_fd r |> in
        (ev, if decide (safe_fd < 0) then None else Some (Ipc.new safe_fd sock))
  end.

(** Copies of the parent's entries, with descriptors of their own. *)
Fixpoint copy_entries (parent : Z) (hs : list Z) ev : EventLoop K * list (Z * HandleEntry) :=
  match hs with
  | [] => (ev, [])
  | h :: hs =>
      match handle_entry ev parent h with
      | Some e =>
          let '(ev, new_fd) :=
            match HandleTable.fd e with
            | Some f => let '(ev, d) := on_kernel (dup_fd f) ev in (ev, Some d)
            | None => (ev, None)
            end in
          let '(ev, rest) := copy_entries parent hs ev in
          (ev, (h, mkHandleEntry (object_id e) new_fd (obj_type e) (access e) (options e)) :: rest)
      | None => copy_entries parent hs ev
      end
  end.

Fixpoint insert_entries (es : list (Z * HandleEntry)) (t : HandleTable.HandleTable) : outcome (HandleTable.HandleTable * list Z) :=
  match es with
  | [] => Ret (t, [])
  | (h, e) :: es =>
      a <-! insert_at t h e ;;
      b <-! insert_entries es a.1 ;;
      Ret (b.1, a.2 ++ b.2)
  end.

Definition inherit (parent pid : Z) (hs : list Z) ev : outcome (EventLoop K) :=
  let '(ev, entries) := copy_entries parent hs ev in
  match processes (state ev) !! pid with
  | Some child =>
      r <-! insert_entries entries (handles child) ;;
      Ret ((with_handles pid r.1 ev) <| kernel ::= close_all r.2 |>)
  | None => Ret ev
  end.

Definition connect_child (version pid : Z) (sock : option Z) ev : EventLoop K :=
  match sock with
  | None => ev
  | Some s =>
      match setup_client_on_socket version s ev with
      | (ev, Some c) =>
          track_peak (ev <| msg_fd_map ::= <[s := c_fd c]> |> <| clients ::= <[c_fd c := c <| process_id := pid |>]> |>)
      | (ev, None) => ev
      end
  end.

(** The handle of the parent, signalled when the child exits. *)
Definition process_handle (client_fd parent pid : Z) ev : EventLoop K * Z :=
  let '(ev, handle) := alloc_waitable_handle_for_client client_fd ev in
  if decide (handle <> 0) then
    let ev := set_object_id parent handle pid ev in
    match get_or_create_event true false ev with
    | (ev, Some obj) =>
        let ev := insert_recyclable_event parent handle obj 1 ev in
        (ev <| process_exit_events ::= fun m => <[pid := default [] (m !! pid) ++ [(parent, handle, obj)]]> m |>, handle)
    | (ev, None) => (ev, handle)
    end
  else (ev, handle).

Definition idle_event (pid : Z) ev : EventLoop K :=
  match get_or_create_event true false ev with
  | (ev, Some obj) => ev <| process_idle_events ::= <[pid := obj]> |>
  | (ev, None) => ev
  end.

(** The handle that is signalled when the child has started. *)
Definition info_handle (client_fd parent pid : Z) ev : EventLoop K * Z :=
  let '(ev, info) := alloc_waitable_handle_for_client client_fd ev in
  if decide (info <> 0) then
    match get_or_create_event true false ev with
    | (ev, Some obj) =>
        let '(ev, d) := on_kernel (dup_fd obj) ev in
        let ev := insert_recyclable_event parent info obj 1 ev in
        (ev <| process_info_handles ::= <[info := mkProcessInfoHandle pid parent (if decide (0 <= d) then d else -1)]> |>, info)
    | (ev, None) => (ev <| process_info_handles ::= <[info := mkProcessInfoHandle pid parent (-1)]> |>, info)
    end
  else (ev, info).

Definition store_startup (req : NewProcessRequest) (startup : option (list Z * list Z)) (sock : option Z) (p : Process) : Process :=
  p <| startup_info := fst <$> startup |> <| startup_env := snd <$> startup |> <| info_size := np_info_size req |>
    <| machine := np_machine req |> <| socket_fd := sock |>.

Definition handle_new_process (version client_fd : Z) buf ev : outcome (EventLoop K * Reply) :=
  match new_process_request buf with
  | None => Ret (ev, status_reply 0xC000000D)
  | Some req =>
      let '(ev, sock) := take_inflight_fd client_fd (np_socket_fd req) ev in
      let parent := client_pid ev client_fd in
      let '(ev, pid) := create_process ev in
      let ev := update_process pid (fun p => p <| parent_pid := parent |>) ev in
      let handles_start := Z.of_nat VARARG_OFF + objattr_size buf in
      let vararg_start := handles_start + np_handles_size req + np_jobs_size req in
      let startup := split_startup req buf vararg_start in
      let ev := update_process pid (store_startup req startup sock) ev in
      let hs := fold_left add_handle (std_handles (fst <$> startup)) (inherit_handles req buf handles_start) in
      ev <-! inherit parent pid hs ev ;;
      let ev := connect_child version pid sock ev in
      let ev := ev <| unclaimed_pids ::= fun l => l ++ [pid] |> in
      let parent := client_pid ev client_fd in
      let '(ev, handle) := process_handle client_fd parent pid ev in
      let ev := idle_event pid ev in
      let '(ev, info) := info_handle client_fd parent pid ev in
      Ret (ev, fixed (NewProcessReply (hdr 0) info pid handle))
  end.

(** ** The life of a process *)
Definition handle_get_new_process_info (client_fd : Z) buf ev : EventLoop K * Reply :=
  match get_new_process_info_request buf with
  | None => (ev, status_reply 0xC000000D)
  | Some info =>
      let '(success, code) :=
        match process_info_handles ev !! info ≫= fun h => processes (state ev) !! target_pid h with
        | Some p => if decide (threads p = [] /\ startup_done p = true) then (0, exit_code p) else (1, exit_code p)
        | None => (0, 0)
        end in
      (ev, fixed (GetNewProcessInfoReply (hdr 0) success code))
  end.

(** The event of one info handle: through the table, or through the descriptor
    kept for it. *)
Definition signal_info (ev : EventLoop K) (entry : Z * Z * Z) : EventLoop K :=
  let '(parent, ih, d) := entry in
  match ntsync_objects ev !! (parent, ih) with
  | Some (obj, _) => ev <| kernel ::= fun k => (event_set obj k).1 |>
  | None =>
      if decide (0 <= d) then
        let '(ev, f) := on_kernel (dup_fd d) ev in ev <| kernel ::= fun k => close_fd f (event_set f k).1 |>
      else ev
  end.

Definition info_entries (pid : Z) ev : list (Z * Z * Z) :=
  (fun kv => (pi_parent_pid kv.2, kv.1, ntsync_obj_fd kv.2)) <$>
    filter (fun kv => target_pid kv.2 = pid) (map_to_list (process_info_handles ev)).

Definition handle_init_process_done (client_fd : Z) buf ev : EventLoop K * Reply :=
  match init_process_done_request buf with
  | None => (ev, status_reply 0xC000000D)
  | Some (req_teb, req_peb) =>
      let pid := nonzero_pid ev client_fd in
      let ev := match pid with
                | Some p => update_process p (fun p => p <| peb := req_peb |> <| startup_done := true |>) ev
                | None => ev
                end in
      let ev := update_client client_fd (fun c => c <| teb := req_teb |>) ev in
      let ev := match pid with Some p => fold_left signal_info (info_entries p ev) ev | None => ev end in
      let suspend := match pid ≫= fun p => processes (state ev) !! p with
                     | Some p => b2z (bool_decide (parent_pid p <> 0))
                     | None => 0
                     end in
      (ev, fixed (InitProcessDoneReply (hdr 0) suspend))
  end.

Definition U64_ALL : Z := 2 ^ 64 - 1.
Definition handle_get_process_info (client_fd : Z) buf ev : EventLoop K * Reply :=
  let pid := default 0 (nonzero_pid ev client_fd) in
  match processes (state ev) !! pid ≫= exe_image_info with
  | Some pe =>
      let send := take (Z.to_nat (max_reply_vararg buf)) pe in
      let mach := if decide (66 <= blen pe) then from_le (slice 64 2 pe) else 0x8664 in
      let code := match processes (state ev) !! pid with Some p => exit_code p | None => 0 end in
      let peb := match processes (state ev) !! pid with Some p => peb p | None => 0 end in
      (ev, reply_vararg (layout (GetProcessInfoReply (mkReplyHeader 0 (u32 (blen send))) pid U64_ALL peb code 8 mach)) send)
  | None => (ev, fixed (GetProcessInfoReply (hdr 0) pid U64_ALL 0 0 8 0x8664))
  end.

Definition handle_terminate_process (client_fd : Z) buf ev : EventLoop K * Reply :=
  match terminate_process_request buf with
  | None => (ev, status_reply 0xC000000D)
  | Some (handle, code) =>
      let tid := match clients ev !! client_fd with Some c => thread_id c | None => 0 end in
      if decide (handle = 0 \/ handle = 0xFFFFFFFF) then
        let ev := match nonzero_pid ev client_fd with
                  | Some pid => update_process pid (fun p => p <| exit_code := code |> <| threads ::= filter (fun t => t = tid) |>) ev
                  | None => ev
                  end in
        (ev, fixed (TerminateProcessReply (hdr 0) 1))
      else (ev, fixed (TerminateProcessReply (hdr 0) 0))
  end.

Definition handle_get_process_debug_info (client_fd : Z) buf ev : EventLoop K * Reply :=
  (ev, fixed (GetProcessDebugInfoReply (hdr 0xC0000353) 0 0)).
Definition handle_grant_process_admin_token (client_fd : Z) buf ev : EventLoop K * Reply := (ev, status_reply 0).
Definition handle_set_process_info (client_fd : Z) buf ev : EventLoop K * Reply := (ev, fixed (SetProcessInfoReply (hdr 0))).

(** System processes share one event, signalled when the last user process ends. *)
Definition handle_make_process_system (client_fd : Z) buf ev : EventLoop K * Reply :=
  let '(ev, handle) := alloc_waitable_handle_for_client client_fd ev in
  let pid := client_pid ev client_fd in
  let ev :=
    if decide (handle <> 0) then
      let ev := match shutdown_event ev with
                | Some _ => ev
                | None => match get_or_create_event true false ev with
                          | (ev, Some obj) => ev <| shutdown_event := Some obj |>
                          | (ev, None) => ev
                          end
                end in
      let ev := match shutdown_event ev with
                | Some obj => ev <| ntsync_objects ::= <[(pid, handle) := (obj, 1)]> |>
                | None => ev
                end in
      ev <| system_pids ::= fun s => {[pid]} ∪ s |>
    else ev in
  (ev, fixed (MakeProcessSystemReply (hdr 0) handle)).

Definition handle_open_process (client_fd : Z) buf ev : EventLoop K * Reply :=
  match open_process_request buf with
  | None => (ev, status_reply 0xC000000D)
  | Some _ =>
      let '(ev, handle) := alloc_waitable_handle_for_client client_fd ev in
      if decide (handle = 0) then (ev, status_reply 0xC0000017)
      else
        let pid := client_pid ev client_fd in
        let ev := match get_or_create_event true false ev with
                  | (ev, Some obj) => ev <| ntsync_objects ::= <[(pid, handle) := (obj, 1)]> |>
                  | (ev, None) => ev
                  end in
        (ev, fixed (OpenProcessReply (hdr 0) handle))
  end.

(** ** Memory of another process *)
Definition has_unix_pid (pid : Z) (c : Client) : bool := of_process pid c && bool_decide (0 < unix_pid c).
Definition unix_pid_of (pid : Z) ev : option Z := (fun kc => unix_pid kc.2) <$> find_client_by (has_unix_pid pid) ev.
Definition resolve_process_handle_to_unix_pid (client_fd handle : Z) ev : option Z :=
  handle_entry ev (client_pid ev client_fd) handle ≫= fun e => unix_pid_of (u32 (object_id e)) ev.

Definition handle_read_process_memory (vm_readv : Z -> Z -> Z -> option (list Z)) (client_fd : Z) buf ev : EventLoop K * Reply :=
  match read_process_memory_request buf with
  | None => (ev, status_reply 0xC000000D)
  | Some (handle, addr, read_len) =>
      if decide (read_len = 0) then (ev, status_reply 0)
      else match resolve_process_handle_to_unix_pid client_fd handle ev with
           | None => (ev, status_reply 0xC0000008)
           | Some upid =>
               match vm_readv upid addr read_len with
               | None => (ev, status_reply 0xC0000005)
               | Some bs => (ev, reply_vararg (header_bytes (mkReplyHeader 0 (u32 (blen bs)))) bs)
               end
           end
  end.

Definition handle_write_process_memory (vm_writev : Z -> Z -> list Z -> Z) (client_fd : Z) buf ev : EventLoop K * Reply :=
  let reply e written := (ev, fixed (WriteProcessMemoryReply (hdr e) written)) in
  match write_process_memory_request buf with
  | None => reply 0xC000000D 0
  | Some (handle, addr) =>
      let data := drop VARARG_OFF buf in
      if decide (data = []) then reply 0 0
      else match resolve_process_handle_to_unix_pid client_fd handle ev with
           | None => reply 0xC0000008 0
           | Some upid =>
               let n := vm_writev upid addr data in
               if decide (n < 0) then reply 0xC0000005 0 else reply 0 (u32 n)
           end
  end.

(** ** Enumeration *)
Definition NAME : list Z := utf16le (Registry.lit "game.exe").
Definition align8 (l : list Z) : list Z := l ++ replicate (Z.to_nat ((- blen l) mod 8)) 0.

Definition thread_record (tid : Z) ev : list Z :=
  let '(utid, t, e) := match find_client tid ev with Some (_, c) => (unix_tid c, teb c, entry_point c) | None => (0, 0, 0) end in
  le_bytes 8 0 ++ le_bytes 4 tid ++ le_bytes 4 0 ++ le_bytes 4 0 ++ le_bytes 4 utid ++ le_bytes 8 t ++ le_bytes 8 e.

Definition process_record (pid : Z) (p : Process) ev : list Z :=
  le_bytes 8 0 ++ le_bytes 4 (blen NAME) ++ le_bytes 4 (Z.of_nat (length (threads p))) ++ le_bytes 4 8 ++ le_bytes 4 pid
  ++ le_bytes 4 0 ++ le_bytes 4 0 ++ le_bytes 4 0 ++ le_bytes 4 (default 0 (unix_pid_of pid ev)) ++ NAME
  ++ concat (map (fun t => thread_record t ev) (threads p)).

Definition handle_list_processes (client_fd : Z) buf ev : EventLoop K * Reply :=
  let ps := omap (fun pid => (fun p => (pid, p)) <$> processes (state ev) !! pid)
              (merge_sort Z.le (map_to_list (processes (state ev))).*1) in
  let vararg := fold_left (fun l '(pid, p) => align8 l ++ process_record pid p ev) ps [] in
  let n := Z.of_nat (length ps) in
  let threads_total := u32 (foldr Z.add 0 (map (fun '(_, p) => Z.of_nat (length (threads p))) ps)) in
  (ev, reply_vararg (layout (ListProcessesReply (mkReplyHeader 0 (u32 (blen vararg))) (u32 (blen vararg)) n threads_total (u32 (n * blen NAME))))
         vararg).

(** ** The executable of a process *)
Definition win_path (win32 : Z) (path : list Z) : str :=
  (if decide (win32 = 0) then Registry.lit "\??\" else []) ++ Registry.lit "Z:"
  ++ map (fun c => if decide (c = 47) then BACKSLASH else c) (from_utf8_lossy path).

Definition handle_get_process_image_name (read_link : Z -> option (list Z)) (client_fd : Z) buf ev : EventLoop K * Reply :=
  match get_process_image_name_request buf with
  | None => (ev, status_reply 0xC000000D)
  | Some (handle, req_pid, win32) =>
      let upid := default 0 (if decide (req_pid <> 0) then unix_pid_of req_pid ev else resolve_process_handle_to_unix_pid client_fd handle ev) in
      match (if decide (upid <= 0) then None else read_link upid) with
      | None => (ev, fixed (GetProcessImageNameReply (hdr 0xC0000008) 0))
      | Some path =>
          let name := utf16le (win_path win32 path) in
          let len := u32 (blen name) in
          if decide (max_reply_vararg buf < blen name) then (ev, fixed (GetProcessImageNameReply (hdr 0) len))
          else (ev, reply_vararg (layout (GetProcessImageNameReply (mkReplyHeader 0 len) len)) name)
      end
  end.

Definition handle_get_process_idle_event (client_fd : Z) buf ev : EventLoop K * Reply :=
  match get_process_idle_event_request buf with
  | None => (ev, status_reply 0xC000000D)
  | Some req_handle =>
      let caller := client_pid ev client_fd in
      let target := match handle_entry ev caller req_handle with Some e => u32 (object_id e) | None => 0 end in
      let reply ev h := (ev, fixed (GetProcessIdleEventReply (hdr 0) h)) in
      match process_idle_events ev !! target with
      | None => reply ev 0
      | Some src =>
          let '(ev, d) := on_kernel (dup_fd src) ev in
          if decide (d < 0) then reply ev 0
          else
            let '(ev, handle) := alloc_waitable_handle_for_client client_fd ev in
            if decide (handle <> 0) then reply (ev <| ntsync_objects ::= <[(caller, handle) := (d, 1)]> |>) handle
            else reply (ev <| kernel ::= close_fd d |>) 0
      end
  end.

(** ** Startup information is consistent *)
Definition lengths (info : list Z) : list Z := map (get32 info) LENGTH_FIELDS.
Definition zsum (l : list Z) : Z := foldr Z.add 0 l.

(** The fields from [lo] on, four bytes each and apart. *)
Fixpoint spaced (lo hi : Z) (offs : list Z) : Prop :=
  match offs with
  | [] => True
  | off :: offs => lo <= off /\ off + 4 <= hi /\ spaced (off + 4) hi offs
  end.

Lemma spaced_elem lo hi offs off : spaced lo hi offs -> off ∈ offs -> lo <= off /\ off + 4 <= hi.
Proof.
  revert lo; induction offs as [|o offs IH]; intros lo; cbn; [by intros _ ?%not_elem_of_nil|].
  intros (Ho & Hh & Hs) [->|Hin]%elem_of_cons; [lia|]. specialize (IH _ Hs Hin). lia.
Qed.

Lemma put32_u8 off v (info : list Z) : Forall in_u8 info -> Forall in_u8 (put32 off v info).
Proof.
  intros Hb. unfold put32, put_u32, write. apply Forall_lookup_2. intros i x Hx.
  apply list_lookup_inserts_Some in Hx as [[_ Hx]|(_ & _ & Hx)]; [by eapply Forall_lookup_1|by eapply (Forall_lookup_1 _ _ _ _ (le_bytes_u8 _ _))].
Qed.

Lemma clamp_step off budget (info : list Z) :
  Forall in_u8 info -> 0 <= off -> off + 4 <= blen info -> 0 <= budget ->
  let clamped := Z.min (get32 info off) budget in
  let info' := if decide (clamped <> get32 info off) then put32 off clamped info else info in
  blen info' = blen info /\ get32 info' off = clamped /\ 0 <= clamped <= budget /\ Forall in_u8 info' /\
  (forall o n, 0 <= o -> 0 <= n -> o + n <= off \/ off + 4 <= o -> get_bytes o n info' = get_bytes o n info).
Proof.
  intros Hb Ho Hl Hbud. cbn zeta. assert (in_u32 (get32 info off)) as Hr by (apply get_u32_range; [done|unfold blen in Hl; lia]).
  set (v := get32 info off) in *. assert (0 <= v < 2 ^ 32) as Hv by done. case_decide as Hc.
  - rewrite blen_put32. split; [done|]. split; [apply get32_put32_same; [split; lia|lia|lia]|]. split; [lia|]. split.
    + by apply put32_u8.
    + intros o n Hoo Hn Hd. rewrite put32_bytes. apply get_bytes_put_bytes_other; rewrite ?length_le_bytes; lia.
  - split; [done|]. split; [by rewrite Hc|]. split; [lia|]. split; [done|]. done.
Qed.

Lemma clamp_lengths_spec lo offs budget (info : list Z) :
  Forall in_u8 info -> 0 <= lo -> spaced lo (blen info) offs -> 0 <= budget ->
  let info' := clamp_lengths offs budget info in
  blen info' = blen info /\ zsum (map (get32 info') offs) <= budget /\
  (forall o n, 0 <= o -> 0 <= n -> (forall off, off ∈ offs -> o + n <= off \/ off + 4 <= o) -> get_bytes o n info' = get_bytes o n info) /\
  (zsum (map (get32 info) offs) <= budget -> info' = info).
Proof.
  revert lo budget info; induction offs as [|off offs IH]; intros lo budget info Hb Hlo Hs Hbud; [by cbn|].
  cbn [spaced] in Hs. destruct Hs as (L1 & L2 & Hs). cbn [clamp_lengths]. set (clamped := Z.min (get32 info off) budget).
  set (info1 := if decide (clamped <> get32 info off) then put32 off clamped info else info).
  destruct (clamp_step off budget info Hb ltac:(lia) ltac:(lia) Hbud) as (Hlen1 & Hget1 & Hc & Hb1 & Hother1). fold clamped in Hlen1, Hget1, Hc, Hb1, Hother1. fold info1 in Hlen1, Hget1, Hb1, Hother1.
  destruct (IH (off + 4) (Z.max 0 (budget - clamped)) info1) as (Hlen & Hsum & Hother & Hid); [done|lia|by rewrite Hlen1|lia|].
  set (info' := clamp_lengths offs (Z.max 0 (budget - clamped)) info1) in *.
  assert (forall o, o ∈ offs -> off + 4 <= o) as Hafter by (intros o Ho; apply (spaced_elem _ _ _ _ Hs) in Ho; lia).
  split; [congruence|]. split; [|split].
  - cbn [map zsum foldr]. fold (zsum (map (get32 info') offs)). assert (get32 info' off = clamped) as ->; [|lia].
    transitivity (get32 info1 off); [|exact Hget1]. rewrite !get32_bytes. f_equal. apply Hother; [lia|lia|]. intros o Ho. left. by apply Hafter.
  - intros o n Ho Hn Hd. rewrite Hother; [apply Hother1; [done|done|apply Hd; set_solver]|done|done|]. intros x Hx. apply Hd. set_solver.
  - cbn [map zsum foldr]. fold (zsum (map (get32 info) offs)). intros Hle.
    assert (forall o, o ∈ offs -> 0 <= get32 info o) as Hnn.
    { intros o Ho. pose proof (spaced_elem _ _ _ _ Hs Ho). apply get_u32_range; [done|unfold blen in *; lia]. }
    assert (0 <= zsum (map (get32 info) offs)) as Hz.
    { clear -Hnn. induction offs as [|o offs IHo]; [done|]. cbn. fold (zsum (map (get32 info) offs)).
      pose proof (Hnn o ltac:(set_solver)). assert (forall x, x ∈ offs -> 0 <= get32 info x) as Hx by (intros; apply Hnn; set_solver).
      specialize (IHo Hx). lia. }
    assert (clamped = get32 info off) as Heq by (unfold clamped; lia).
    assert (info1 = info) as E by (unfold info1; by rewrite decide_False by (intros Hx; by apply Hx)).
    rewrite E in Hid. apply Hid. lia.
Qed.

(** C39: the strings of a new process's startup information fit its data.  Whatever
    the client sent, the lengths stored for the child add up to no more than the
    bytes that follow the fixed part, nothing but the length fields changes, and
    consistent information is kept as it is. *)
Theorem fixup_info_bounds info :
  Forall in_u8 info -> STRUCT_SIZE <= blen info ->
  blen (fixup_info info) = blen info /\ zsum (lengths (fixup_info info)) <= blen info - STRUCT_SIZE /\
  get_bytes 0 64 (fixup_info info) = get_bytes 0 64 info /\
  (forall n, 0 <= n -> get_bytes STRUCT_SIZE n (fixup_info info) = get_bytes STRUCT_SIZE n info) /\
  (zsum (lengths info) <= blen info - STRUCT_SIZE -> fixup_info info = info).
Proof.
  intros Hb Hl. unfold fixup_info. rewrite decide_True by done. rewrite Z.max_r by lia.
  assert (spaced 64 (blen info) LENGTH_FIELDS) as Hs by (unfold STRUCT_SIZE in Hl; cbn; lia).
  destruct (clamp_lengths_spec 64 LENGTH_FIELDS (blen info - STRUCT_SIZE) info) as (L1 & L2 & L3 & L4); [done|lia|done|lia|].
  assert (forall off, off ∈ LENGTH_FIELDS -> 64 <= off /\ off + 4 <= 96) as Hin.
  { intros off. unfold LENGTH_FIELDS. rewrite !elem_of_cons, elem_of_nil. lia. }
  split_and!; [done|done| | |exact L4].
  - apply L3; [lia|lia|]. intros off Ho. specialize (Hin off Ho). lia.
  - intros n Hn. apply L3; [unfold STRUCT_SIZE; lia|lia|]. intros off Ho. specialize (Hin off Ho). unfold STRUCT_SIZE. lia.
Qed.

(** ** Startup information reaches the child *)
Definition startup_of (p : Process) : option (list Z) * option (list Z) * Z * Z * Z :=
  (startup_info p, startup_env p, info_size p, machine p, parent_pid p).
Definition same_startup (pid : Z) ev ev' : Prop :=
  startup_of <$> processes (state ev') !! pid = startup_of <$> processes (state ev) !! pid.

Lemma same_startup_trans pid ev1 ev2 ev3 : same_startup pid ev1 ev2 -> same_startup pid ev2 ev3 -> same_startup pid ev1 ev3.
Proof. unfold same_startup. congruence. Qed.

Lemma update_handles_startup q pid f ev :
  (forall p, startup_of (f p) = startup_of p) -> same_startup q ev (update_process pid f ev).
Proof.
  intros Hf. unfold same_startup, update_process. recs. destruct (decide (q = pid)) as [->|]; [|by rewrite lookup_alter_ne].
  rewrite lookup_alter_eq. destruct (processes (state ev) !! pid); cbn; [by rewrite Hf|done].
Qed.

Lemma with_handles_startup q pid t ev : same_startup q ev (with_handles pid t ev).
Proof. by apply (update_handles_startup q pid (fun p => p <| handles := t |>)). Qed.

Lemma alloc_waitable_startup q client_fd ev : same_startup q ev (alloc_waitable_handle_for_client client_fd ev).1.
Proof.
  unfold alloc_waitable_handle_for_client, alloc_object_id, ServerState.alloc_object_id, on_kernel. cbn beta iota zeta.
  set (st1 := mkServerState _ _ _ _). destruct (eventfd (kernel (ev <| state := st1 |>))) as [k f]. case_decide; [done|].
  destruct (nonzero_pid _ client_fd) as [pid|]; [|done]. unfold allocate_in.
  match goal with |- context [processes ?s !! pid] => destruct (processes s !! pid) as [p|] end; [|done].
  destruct (allocate_full (handles p) _) as [t h]. eapply same_startup_trans; [|apply with_handles_startup]. done.
Qed.

Lemma get_or_create_event_state m s ev : exists k, (get_or_create_event m s ev).1 = ev <| kernel := k |>.
Proof.
  unfold get_or_create_event, on_kernel. destruct (ntsync ev); [|exists (kernel ev); by destruct ev].
  destruct (create_event m s (kernel ev)) as [k o]. by exists k.
Qed.

Lemma process_handle_startup q client_fd parent pid ev : same_startup q ev (process_handle client_fd parent pid ev).1.
Proof.
  unfold process_handle. pose proof (alloc_waitable_startup q client_fd ev) as Ha.
  destruct (alloc_waitable_handle_for_client client_fd ev) as [ev1 h]. case_decide; [|done]. cbn [fst] in Ha.
  pose proof (update_handles_startup q parent (fun p => p <| handles ::= fun t => get_mut t h (fun e => e <| object_id := pid |>) |>) ev1) as Hu.
  fold (set_object_id parent h pid ev1) in Hu.
  destruct (get_or_create_event_state true false (set_object_id parent h pid ev1)) as [k Hk].
  destruct (get_or_create_event true false (set_object_id parent h pid ev1)) as [ev2 o]. cbn [fst] in Hk. subst ev2.
  eapply same_startup_trans; [exact Ha|]. eapply same_startup_trans; [by apply Hu|]. by destruct o.
Qed.

Lemma idle_event_startup q pid ev : same_startup q ev (idle_event pid ev).
Proof.
  unfold idle_event. destruct (get_or_create_event_state true false ev) as [k Hk].
  destruct (get_or_create_event true false ev) as [ev2 o]. cbn [fst] in Hk. subst ev2. by destruct o.
Qed.

Lemma info_handle_startup q client_fd parent pid ev : same_startup q ev (info_handle client_fd parent pid ev).1.
Proof.
  unfold info_handle. pose proof (alloc_waitable_startup q client_fd ev) as Ha.
  destruct (alloc_waitable_handle_for_client client_fd ev) as [ev1 h]. case_decide; [|done]. cbn [fst] in Ha.
  destruct (get_or_create_event_state true false ev1) as [k Hk].
  destruct (get_or_create_event true false ev1) as [ev2 o]. cbn [fst] in Hk. subst ev2.
  eapply same_startup_trans; [exact Ha|]. destruct o as [obj|]; [|done]. unfold on_kernel. by destruct (dup_fd obj _) as [k2 d].
Qed.

Lemma connect_child_startup q version pid sock ev : same_startup q ev (connect_child version pid sock ev).
Proof.
  destruct sock as [s|]; [|done]. unfold connect_child, setup_client_on_socket, on_kernel.
  destruct (pipe2 (kernel ev)) as [k [[r w]|]]; [|done]. destruct (send_fd s w version _) as [k2 n]. case_decide; [done|].
  destruct (dup_fd r _) as [k3 d]. by case_decide.
Qed.

Lemma copy_entries_spec parent hs ev :
  exists k es, copy_entries parent hs ev = (ev <| kernel := k |>, es) /\ forall h e, (h, e) ∈ es -> h ∈ hs.
Proof.
  revert ev; induction hs as [|h hs IH]; intros ev; cbn [copy_entries].
  { exists (kernel ev), []. split; [by destruct ev|]. by intros ? ? ?%not_elem_of_nil. }
  destruct (handle_entry ev parent h) as [e|].
  2:{ destruct (IH ev) as (k & es & -> & Hes). exists k, es. split; [done|]. intros x y Hx%Hes. set_solver. }
  assert (exists k o, match HandleTable.fd e with
    | Some f => let '(ev, d) := on_kernel (dup_fd f) ev in (ev, Some d)
    | None => (ev, None) end = (ev <| kernel := k |>, o)) as (k & o & ->).
  { destruct (HandleTable.fd e) as [f|]; [|exists (kernel ev), None; by destruct ev]. unfold on_kernel. destruct (dup_fd f (kernel ev)) as [k d]. eauto. }
  destruct (IH (ev <| kernel := k |>)) as (k2 & es & -> & Hes). eexists k2, _. split; [by destruct ev|].
  intros x y [[= -> _]|Hx]%elem_of_cons; [set_solver|]. apply Hes in Hx. set_solver.
Qed.

Lemma insert_entries_total es t :
  HandleTable.wf t -> (forall h e, (h, e) ∈ es -> in_u32 h) -> exists r, insert_entries es t = Ret r /\ HandleTable.wf r.1.
Proof.
  revert t; induction es as [|[h e] es IH]; intros t Hwf Hu; cbn [insert_entries]; [by exists (t, [])|].
  destruct (table_insert_at_spec t h e Hwf) as (t' & Hwf' & _ & _ & ->); [apply (Hu h e); set_solver|]. cbn [obind fst].
  destruct (IH t' Hwf') as (r & -> & Hr); [intros h' e' Hin; apply (Hu h' e'); set_solver|]. cbn [obind]. eauto.
Qed.

Lemma inherit_total parent pid hs ev p :
  processes (state ev) !! pid = Some p -> HandleTable.wf (handles p) -> (forall h, h ∈ hs -> in_u32 h) ->
  exists ev', inherit parent pid hs ev = Ret ev' /\ (forall q, same_startup q ev ev').
Proof.
  intros Hp Hwf Hu. unfold inherit. destruct (copy_entries_spec parent hs ev) as (k & es & -> & Hes).
  change (processes (state (ev <| kernel := k |>))) with (processes (state ev)). rewrite Hp.
  destruct (insert_entries_total es (handles p) Hwf) as (r & -> & _); [eauto|]. cbn [obind]. eexists. split; [done|].
  intros q. eapply same_startup_trans; [|apply (with_handles_startup q pid r.1)]. done.
Qed.

Lemma from_le_u32_range bs : Forall in_u8 bs -> (length bs <= 4)%nat -> in_u32 (from_le bs).
Proof.
  intros Hb Hl. pose proof (from_le_range bs Hb). assert (256 ^ Z.of_nat (length bs) <= 256 ^ 4) by (apply Z.pow_le_mono_r; lia).
  change (256 ^ 4) with (2 ^ 32) in *. unfold in_u32. lia.
Qed.

Lemma get32_u32 (bs : list Z) off : Forall in_u8 bs -> in_u32 (get32 bs off).
Proof.
  intros Hb. apply from_le_u32_range; [by apply Forall_take, Forall_drop|]. unfold slice. rewrite length_take. lia.
Qed.

Lemma words_u32 n bs : Forall in_u8 bs -> Forall in_u32 (words n bs).
Proof.
  revert bs; induction n as [|n IH]; intros bs Hb; cbn [words]; constructor.
  - apply from_le_u32_range; [by apply Forall_take|]. rewrite length_take. lia.
  - apply IH. by apply Forall_drop.
Qed.

Lemma inherited_u32 req buf start (startup : option (list Z * list Z)) :
  Forall in_u8 buf -> (forall s, startup = Some s -> Forall in_u8 s.1) ->
  forall h, h ∈ fold_left add_handle (std_handles (fst <$> startup)) (inherit_handles req buf start) -> in_u32 h.
Proof.
  intros Hb Hs. apply Forall_forall.
  assert (Forall in_u32 (inherit_handles req buf start)) as Hi.
  { unfold inherit_handles. case_decide; [|constructor].
    assert (Forall in_u32 (words (Z.to_nat (np_handles_size req / 4)) (get_bytes start (np_handles_size req) buf))) as Hw
      by (apply words_u32; by apply Forall_take, Forall_drop).
    rewrite Forall_forall in *. intros x [_ Hx]%list_elem_of_filter. auto. }
  assert (Forall in_u32 (std_handles (fst <$> startup))) as Hd.
  { unfold std_handles. destruct startup as [s|]; cbn; [|repeat constructor; unfold in_u32; lia]. specialize (Hs s eq_refl).
    case_decide; repeat constructor; first [by apply get32_u32|unfold in_u32; lia]. }
  revert Hi. generalize (inherit_handles req buf start). induction Hd as [|x l Hx _ IH]; intros acc Hacc; cbn [fold_left]; [done|].
  apply IH. unfold add_handle. case_decide; [|done]. apply Forall_app. split; [done|]. by constructor.
Qed.

(** C12: the startup information of a process reaches the process.  A client
    creates a process with startup information, padding to four bytes and an
    environment; the size it announces is that of the information, and the string
    lengths inside the information add up to no more than it holds (else
    [fixup_info] cuts them).  Then the request succeeds with a handle; and in every
    later state in which the startup data of the new process is still stored, a
    thread of it that asks receives exactly the information followed by the
    environment, cut to what it accepts, together with the announced size. *)
Theorem startup_reaches_child version client_fd req buf front info pad env ev :
  Forall in_u8 buf -> new_process_request buf = Some req -> buf = front ++ info ++ pad ++ env ->
  blen front = Z.of_nat VARARG_OFF + objattr_size buf + np_handles_size req + np_jobs_size req ->
  np_info_size req = blen info -> blen pad = (- blen info) mod 4 -> info ++ pad ++ env <> [] ->
  (STRUCT_SIZE <= blen info -> zsum (lengths info) <= blen info - STRUCT_SIZE) ->
  exists ev1 info_h pid h, handle_new_process version client_fd buf ev = Ret (ev1, fixed (NewProcessReply (hdr 0) info_h pid h)) /\
    forall ev2 child_fd gbuf, same_startup pid ev1 ev2 -> nonzero_pid ev2 child_fd = Some pid ->
      let data := take (Z.to_nat (max_reply_vararg gbuf)) (info ++ env) in
      let mach := if decide (np_machine req <> 0) then np_machine req else 0x8664 in
      (handle_get_startup_info child_fd gbuf ev2).2 =
        reply_vararg (Threads.layout (GetStartupInfoReply (mkReplyHeader 0 (u32 (blen data))) (blen info) mach)) data.
Proof.
  intros Hu8 Hreq Hbuf Hfront Hsize Hpad Hne Hok. unfold handle_new_process. rewrite Hreq.
  destruct (take_inflight_fd client_fd (np_socket_fd req) ev) as [ev0 sock]. set (parent := client_pid ev0 client_fd).
  unfold create_process, ServerState.create_process. destruct (alloc_ptid (next_ptid (state ev0))) as [n pid].
  cbn beta iota zeta. set (ev1 := ev0 <| state := _ |>). set (ev2 := update_process pid (fun p => p <| parent_pid := parent |>) ev1).
  assert (split_startup req buf (Z.of_nat VARARG_OFF + objattr_size buf + np_handles_size req + np_jobs_size req) = Some (info, env)) as Hsplit.
  { unfold split_startup. rewrite <- Hfront. assert (blen buf = blen front + blen info + blen pad + blen env) as Hlen.
    { rewrite Hbuf. unfold blen. rewrite !length_app. lia. }
    assert (0 < blen info + blen pad + blen env) as Hpos.
    { unfold blen. destruct info, pad, env; cbn in *; try lia. done. }
    rewrite decide_True by lia. assert (drop (Z.to_nat (blen front)) buf = info ++ pad ++ env) as ->.
    { rewrite Hbuf. unfold blen. rewrite Nat2Z.id. apply drop_app_length. }
    rewrite Hsize. assert (blen (info ++ pad ++ env) = blen info + blen pad + blen env) as Hrem by (unfold blen; rewrite !length_app; lia).
    rewrite Hrem. rewrite Z.min_l by (unfold blen; lia).
    assert (Z.land (blen info + 3) (-4) = blen info + blen pad) as Hround.
    { rewrite Hpad. change (-4) with (Z.lnot (Z.ones 2)). rewrite <- Z.ldiff_land, Z.ldiff_ones_r by lia.
      rewrite Z.shiftl_mul_pow2, Z.shiftr_div_pow2 by lia. change (2 ^ 2) with 4. generalize (blen info). intros b.
      Z.to_euclidean_division_equations. lia. }
    rewrite Hround, Z.min_l by (unfold blen; lia). f_equal. f_equal.
    - assert (take (Z.to_nat (blen info)) (info ++ pad ++ env) = info) as -> by (unfold blen; rewrite Nat2Z.id; apply take_app_length).
      destruct (decide (STRUCT_SIZE <= blen info)) as [Hs|Hs]; [|unfold fixup_info; by rewrite decide_False].
      apply fixup_info_bounds; [|done|by apply Hok]. rewrite Hbuf in Hu8. by apply Forall_app in Hu8 as [_ [? _]%Forall_app].
    - rewrite app_assoc. assert (Z.to_nat (blen info + blen pad) = length (info ++ pad)) as -> by (unfold blen; rewrite length_app; lia).
      apply drop_app_length. }
  rewrite Hsplit. set (ev3 := update_process pid (store_startup req (Some (info, env)) sock) ev2).
  assert (exists p, processes (state ev3) !! pid = Some p /\ handles p = HandleTable.new /\
    startup_of p = (Some info, Some env, blen info, np_machine req, parent)) as (p & Hp & Hh & Hst).
  { unfold ev3, ev2, ev1, update_process. recs. rewrite !lookup_alter_eq, lookup_insert_eq. cbn. eexists. split; [done|]. rewrite <- Hsize. done. }
  destruct (inherit_total parent pid (fold_left add_handle (std_handles (fst <$> Some (info, env)))
    (inherit_handles req buf (Z.of_nat VARARG_OFF + objattr_size buf))) ev3 p Hp) as (ev4 & Hinh & Hk4).
  { rewrite Hh. apply table_new_wf. }
  { apply inherited_u32; [done|]. intros s [= <-]. rewrite Hbuf in Hu8. by apply Forall_app in Hu8 as [_ [? _]%Forall_app]. }
  rewrite Hinh. cbn [obind]. set (ev5 := (connect_child version pid sock ev4) <| unclaimed_pids ::= fun l => l ++ [pid] |>).
  pose proof (process_handle_startup pid client_fd (client_pid ev5 client_fd) pid ev5) as Hk6.
  destruct (process_handle client_fd (client_pid ev5 client_fd) pid ev5) as [ev6 h]. cbn [fst] in Hk6.
  pose proof (info_handle_startup pid client_fd (client_pid ev5 client_fd) pid (idle_event pid ev6)) as Hk8.
  destruct (info_handle client_fd (client_pid ev5 client_fd) pid (idle_event pid ev6)) as [ev8 info_h]. cbn [fst] in Hk8.
  exists ev8, info_h, pid, h. split; [done|]. intros ev9 child_fd gbuf Hk9 Hchild.
  assert (same_startup pid ev3 ev9) as Hk.
  { eapply same_startup_trans; [apply Hk4|]. eapply same_startup_trans; [apply (connect_child_startup pid version pid sock)|].
    eapply same_startup_trans; [exact Hk6|]. eapply same_startup_trans; [apply idle_event_startup|]. by eapply same_startup_trans. }
  unfold same_startup in Hk. rewrite Hp in Hk. cbn in Hk. rewrite Hst in Hk.
  destruct (processes (state ev9) !! pid) as [p9|] eqn:Hp9; [|done]. cbn in Hk. injection Hk as E1 E2 E3 E4 E5.
  unfold handle_get_startup_info. rewrite Hchild. cbn. rewrite Hp9. cbn. rewrite E1, E2, E3, E4. done.
Qed.
End handlers.
End Processes.

Module ProcessesDemo.
Import Text Replies Ntsync ModelKernel Ipc HandleTable ServerState Loop LoopDemo CompletionDemo Session Sync.SyncDemo Threads ThreadsDemo Processes.

#[export] Instance demo_protocol : Processes.Protocol := {
  layout := fun _ => [];
  new_process_request := fields 6 (fun b =>
    mkNewProcess (i32 (word_at 0 b)) (word_at 1 b) (word_at 2 b) (word_at 3 b) (word_at 4 b) (word_at 5 b));
  get_new_process_info_request := w1;
  init_process_done_request := w2;
  terminate_process_request := w2;
  open_process_request := fields 1 (fun _ => tt);
  read_process_memory_request := fields 3 (fun b => (word_at 0 b, word_at 1 b, word_at 2 b));
  write_process_memory_request := w2;
  get_process_image_name_request := fields 3 (fun b => (word_at 0 b, word_at 1 b, word_at 2 b));
  get_process_idle_event_request := w1;
}.

(** Lengths 4 and 200 where 6 bytes follow. *)
Definition bad_info : list Z := put32 64 4 (put32 72 200 (replicate 102 0)).
Lemma fixup_info_bounds_witness :
  STRUCT_SIZE <= blen bad_info /\ zsum (lengths bad_info) = 204 /\ zsum (lengths (fixup_info bad_info)) <= 6.
Proof.
  assert (STRUCT_SIZE <= blen bad_info) as Hl by (vm_compute; discriminate).
  split; [exact Hl|]. split; [vm_compute; reflexivity|].
  apply (fixup_info_bounds bad_info); [apply (bool_decide_unpack _); vm_compute; exact I|exact Hl].
Defined.

Definition objattr : list Z := replicate 16 0.
Definition child_info : list Z := put32 64 2 (replicate 97 0) ++ [7].
Definition child_env : list Z := [1; 2; 3].
Definition process_req : list Z := request_var [5; 0; 0; 98; 0; 0] (objattr ++ child_info ++ [0; 0] ++ child_env).

Lemma startup_reaches_child_witness :
  exists ev1 info_h pid h, handle_new_process 930 7 process_req demo_loop = Ret (ev1, fixed (NewProcessReply (Completion.hdr 0) info_h pid h)) /\
    forall ev2 child_fd gbuf, same_startup pid ev1 ev2 -> nonzero_pid ev2 child_fd = Some pid -> max_reply_vararg gbuf = 200 ->
      (handle_get_startup_info child_fd gbuf ev2).2 = reply_vararg [] (child_info ++ child_env).
Proof.
  destruct (startup_reaches_child 930 7 (mkNewProcess 5 0 0 98 0 0) process_req (take 80 process_req) child_info [0; 0] child_env demo_loop)
    as (ev1 & info_h & pid & h & Hr & Hg).
  - apply (bool_decide_unpack _). vm_compute. exact I.
  - vm_compute. reflexivity.
  - vm_compute. reflexivity.
  - vm_compute. reflexivity.
  - vm_compute. reflexivity.
  - vm_compute. reflexivity.
  - discriminate.
  - intros _. vm_compute. discriminate.
  - exists ev1, info_h, pid, h. split; [exact Hr|]. intros ev2 child_fd gbuf Hs Hc Hm. specialize (Hg ev2 child_fd gbuf Hs Hc).
    rewrite Hm in Hg. exact Hg.
Defined.

(** The counter of ids stands behind the four ids of the example. *)
Definition numbered : EventLoop MK := demo_loop <| state ::= fun st => st <| next_ptid := 4 |> |>.

(** The size of the information is not clamped with the information: the reply
    announces 200 bytes of which 98 were sent. *)
Definition long_req : list Z := request_var [5; 0; 0; 200; 0; 0] (objattr ++ child_info).
Lemma info_size_not_clamped :
  match handle_new_process 930 7 long_req numbered with
  | Ret (ev, _) => match processes (state ev) !! 48 with
                   | Some p => info_size p = 200 /\ opt_len (startup_info p) = 98 /\ startup_env p = Some []
                   | None => False
                   end
  | _ => False
  end.
Proof. vm_compute. split_and!; reflexivity. Qed.

(** The list of processes is sent whatever the client accepts. *)
Lemma list_processes_ignores_limit :
  max_reply_vararg (request [0]) = 0 /\ length (serialize (handle_list_processes 7 (request [0]) demo_loop).2) = 256%nat.
Proof. split; vm_compute; reflexivity. Qed.

(** A process whose only thread left before it was claimed stays in the queue of
    unclaimed processes: the next program that connects becomes a thread of a
    process that does not exist. *)
Definition with_socket : EventLoop MK := numbered <| process_inflight_fds := {[32 := [(36, 5, 60)]]} |>.
Definition fresh_client (ev : EventLoop MK) : EventLoop MK := ev <| clients ::= <[90 := Ipc.new 90 91]> |>.
Definition first_thread_req : list Z := request [100; 101; 5; 6].
Definition child_fd_of (ev : EventLoop MK) : Z := match find_client_by (of_process 48) ev with Some (fd, _) => fd | None => 0 end.
Lemma dead_process_claimed :
  match handle_new_process 930 7 process_req with_socket with
  | Ret (ev, _) =>
      let ev := (handle_new_thread 930 7 (request [4; 0; u32 (-1)]) ev).1 in
      match Client.Client.disconnect_client 0 (child_fd_of ev) ev with
      | Ret (ev, _) =>
          processes (state ev) !! 48 = None /\ unclaimed_pids ev = [48] /\
          match handle_init_first_thread None 3 (0, 0) 90 first_thread_req (fresh_client ev) with
          | Ret (ev, _) => client_pid ev 90 = 48 /\ processes (state ev) !! 48 = None
          | _ => False
          end
      | _ => False
      end
  | _ => False
  end.
Proof. vm_compute. split_and!; reflexivity. Qed.

(** A handle opened to a process does not lead to the process: the request's
    process id is not used. *)
Lemma open_process_names_nothing :
  let ev := update_client 9 (fun c => c <| unix_pid := 1234 |>) numbered in
  let ev := (handle_open_process 7 (request [40]) ev).1 in
  unix_pid_of 40 ev = Some 1234 /\ resolve_process_handle_to_unix_pid 7 4 ev = None.
Proof. vm_compute. split; reflexivity. Qed.
End ProcessesDemo.
