(* ===== verification/Build.v ===== *)
(** * The generator of the protocol structs ([src/rust/build.rs])

    At build time the protocol definition of the Wine sources is parsed and turned
    into Rust: an enum of opcodes with its conversions, one struct per request and
    reply with explicit padding, and a table of sizes.  The definition file and the
    header are not part of the sources; they are the arguments.  The generated code
    is represented by its structure (members, arms, rows), not by its text.  The
    opcode counter is not reduced: a file has fewer than 2^31 requests. *)

From stdpp Require Import base list gmap strings.
From S2P Require Import Prelude Dispatch Text Registry RegFile.
Local Open Scope Z_scope.

Module Build.
Import Text RegFile.
Local Notation lit := Registry.lit.
Local Notation trim_end_char := Registry.trim_end_char.

(** ** Types *)
Inductive rust_type : Type := I16 | I32 | I64 | U8 | U16 | U32 | U64 | Bytes (n : nat).
#[export] Instance rust_type_eq_dec : EqDecision rust_type.
Proof. solve_decision. Defined.

(** The C types of the protocol with their Rust type, size and alignment. *)
Definition type_map : list (string * (rust_type * nat * nat)) :=
  [("int", (I32, 4, 4));
   ("short int", (I16, 2, 2));
   ("char", (U8, 1, 1));
   ("unsigned char", (U8, 1, 1));
   ("unsigned short", (U16, 2, 2));
   ("unsigned int", (U32, 4, 4));
   ("unsigned __int64", (U64, 8, 8));
   ("data_size_t", (U32, 4, 4));
   ("obj_handle_t", (U32, 4, 4));
   ("atom_t", (U32, 4, 4));
   ("process_id_t", (U32, 4, 4));
   ("thread_id_t", (U32, 4, 4));
   ("ioctl_code_t", (U32, 4, 4));
   ("user_handle_t", (U32, 4, 4));
   ("timeout_t", (I64, 8, 8));
   ("abstime_t", (I64, 8, 8));
   ("lparam_t", (U64, 8, 8));
   ("apc_param_t", (U64, 8, 8));
   ("mem_size_t", (U64, 8, 8));
   ("file_pos_t", (U64, 8, 8));
   ("client_ptr_t", (U64, 8, 8));
   ("affinity_t", (U64, 8, 8));
   ("mod_handle_t", (U64, 8, 8));
   ("object_id_t", (U64, 8, 8));
   ("union apc_call", (Bytes 64, 64, 8));
   ("union apc_result", (Bytes 40, 40, 8));
   ("struct async_data", (Bytes 40, 40, 8));
   ("struct context_data", (Bytes 1720, 1720, 8));
   ("struct cursor_pos", (Bytes 24, 24, 8));
   ("union debug_event_data", (Bytes 160, 160, 8));
   ("struct filesystem_event", (Bytes 12, 12, 4));
   ("struct generic_map", (Bytes 16, 16, 4));
   ("struct handle_info", (Bytes 32, 32, 8));
   ("union hw_input", (Bytes 40, 40, 8));
   ("union irp_params", (Bytes 32, 32, 8));
   ("struct luid", (Bytes 8, 8, 4));
   ("struct luid_attr", (Bytes 12, 12, 4));
   ("union message_data", (Bytes 48, 48, 8));
   ("struct object_attributes", (Bytes 16, 16, 4));
   ("struct object_type_info", (Bytes 44, 44, 4));
   ("struct obj_locator", (Bytes 16, 16, 8));
   ("struct pe_image_info", (Bytes 88, 88, 8));
   ("struct process_info", (Bytes 40, 40, 8));
   ("struct property_data", (Bytes 16, 16, 8));
   ("struct rawinput_device", (Bytes 12, 12, 4));
   ("struct rectangle", (Bytes 16, 16, 4));
   ("union select_op", (Bytes 264, 264, 8));
   ("struct startup_info_data", (Bytes 96, 96, 4));
   ("union tcp_connection", (Bytes 60, 60, 4));
   ("struct thread_info", (Bytes 40, 40, 8));
   ("union udp_endpoint", (Bytes 32, 32, 4));
   ("struct user_apc", (Bytes 40, 40, 8));
   ("d3dkmt_handle_t", (U32, 4, 4));
   ("desktop_shm_t", (U32, 4, 4));
   ("queue_shm_t", (U32, 4, 4));
   ("input_shm_t", (U32, 4, 4));
   ("object_shm_t", (U32, 4, 4))]%string%nat.

Definition lookup_type (key : str) : option (rust_type * nat * nat) :=
  match list_find (fun e => lit e.1 = key) type_map with Some (_, (_, v)) => Some v | None => None end.

Record Field : Type := mkField { f_name : str; f_type : rust_type; f_size : nat; f_align : nat }.
Record RequestDef : Type := mkRequestDef {
  r_name : str; index : Z; req_fields : list Field; reply_fields : list Field; has_reply : bool;
  req_varargs : list str; reply_varargs : list str }.

(** ** The parser *)
Definition keywords : list (string * string) :=
  [("type", "r#type");
   ("async", "r#async");
   ("move", "r#move");
   ("ref", "r#ref");
   ("mod", "r#mod");
   ("match", "r#match");
   ("self", "is_self");
   ("super", "is_super");
   ("crate", "is_crate");
   ("return", "r#return");
   ("where", "r#where");
   ("while", "r#while");
   ("for", "r#for");
   ("loop", "r#loop");
   ("if", "r#if");
   ("else", "r#else");
   ("fn", "r#fn");
   ("use", "r#use");
   ("in", "r#in")]%string.
Definition sanitize_field_name (name : str) : str :=
  match list_find (fun e => lit e.1 = name) keywords with Some (_, (_, r)) => lit r | None => name end.

(** [splitn(2, char::is_whitespace)]: the text around the first white space. *)
Fixpoint split_ws (s : str) : option (str * str) :=
  match s with
  | [] => None
  | c :: s' => if is_whitespace c then Some ([], s')
               else match split_ws s' with Some (a, b) => Some (c :: a, b) | None => None end
  end.

Definition field_of (key name : str) : option Field :=
  match lookup_type key with
  | Some (t, size, align) => Some (mkField (sanitize_field_name name) t size align)
  | None => None
  end.

(** A declaration without comment and semicolon. *)
Definition parse_simple (line : str) : option Field :=
  match strip_prefix (lit "unsigned ") line with
  | Some rest => match split_ws rest with Some (a, b) => field_of (lit "unsigned " ++ trim a) (trim b) | None => None end
  | None =>
      match strip_prefix (lit "short ") line with
      | Some rest => match split_ws rest with Some (a, b) => field_of (lit "short " ++ trim a) (trim b) | None => None end
      | None => match split_ws line with Some (a, b) => field_of (trim a) (trim b) | None => None end
      end
  end.

Definition parse_decl (line : str) : option Field :=
  if has_prefix (lit "struct ") line || has_prefix (lit "union ") line then
    match split_ws line with
    | Some (a, rest) =>
        match split_ws rest with
        | Some (b, c) => field_of (a ++ lit " " ++ b) (trim c)
        | None => parse_simple line
        end
    | None => parse_simple line
    end
  else parse_simple line.

Definition parse_field (line : str) : option Field :=
  let line := match split_at_pat (lit "/*") line with Some (a, _) => trim a | None => trim line end in
  let line := trim (trim_end_char 59 line) in
  if decide (line = []) then None else parse_decl line.

(** A request whose block is being read. *)
Record Block : Type := mkBlock {
  b_name : str; b_req : list Field; b_reply : list Field; b_has_reply : bool; b_req_va : list str; b_reply_va : list str;
  in_reply : bool }.

Definition finish (b : Block) (i : Z) : RequestDef :=
  mkRequestDef (b_name b) i (b_req b) (b_reply b) (b_has_reply b) (b_req_va b) (b_reply_va b).

Definition skip_line (line : str) : bool :=
  bool_decide (line = []) || has_prefix (lit "/*") line || has_prefix (lit "*") line || has_prefix (lit "//") line.

Definition add_vararg (v : str) (b : Block) : Block :=
  if in_reply b then mkBlock (b_name b) (b_req b) (b_reply b) (b_has_reply b) (b_req_va b) (b_reply_va b ++ [v]) true
  else mkBlock (b_name b) (b_req b) (b_reply b) (b_has_reply b) (b_req_va b ++ [v]) (b_reply_va b) false.
Definition add_field (f : Field) (b : Block) : Block :=
  if in_reply b then mkBlock (b_name b) (b_req b) (b_reply b ++ [f]) (b_has_reply b) (b_req_va b) (b_reply_va b) true
  else mkBlock (b_name b) (b_req b ++ [f]) (b_reply b) (b_has_reply b) (b_req_va b) (b_reply_va b) false.

Definition block_line (line : str) (b : Block) : Block :=
  if decide (line = lit "@REPLY") then mkBlock (b_name b) (b_req b) (b_reply b) true (b_req_va b) (b_reply_va b) true
  else if skip_line line then b
  else if has_prefix (lit "VARARG(") line then add_vararg (trim_end_char 59 line) b
  else match parse_field line with Some f => add_field f b | None => b end.

(** [strip_prefix("@REQ(")] and [strip_suffix(')')] *)
Definition request_name (line : str) : option str :=
  match strip_prefix (lit "@REQ(") line with
  | Some rest => match last rest with Some c => if decide (c = 41) then Some (removelast rest) else None | None => None end
  | None => None
  end.

(** The two nested loops over the lines; [cur] is the block the inner loop is in. *)
Fixpoint parse_lines (ls : list str) (i : Z) (cur : option Block) : list RequestDef :=
  match ls, cur with
  | [], Some b => [finish b i]
  | [], None => []
  | l :: ls, Some b =>
      let line := trim l in
      if decide (line = lit "@END") then finish b i :: parse_lines ls (i + 1) None
      else parse_lines ls i (Some (block_line line b))
  | l :: ls, None =>
      match request_name (trim l) with
      | Some name => parse_lines ls i (Some (mkBlock name [] [] false [] [] false))
      | None => parse_lines ls i None
      end
  end.

Definition parse_protocol_def_full (content : str) : list RequestDef := parse_lines (lines content) 0 None.

(** ** The generated structs *)
Inductive member : Type :=
| MHeader (size : nat)
| MField (name : str) (t : rust_type)
| MPad (idx n : nat).

Record StructDef : Type := mkStruct { s_name : str; members : list member; asserted_size : nat }.

(** The members for the fields from [offset] on, and the offset and the number of
    paddings after them. *)
Fixpoint emit_fields (offset pad_idx : nat) (fs : list Field) : list member * nat * nat :=
  match fs with
  | [] => ([], offset, pad_idx)
  | f :: fs =>
      let field := MField (f_name f) (f_type f) in
      if decide (offset mod f_align f = 0)%nat then
        let '(ms, o, p) := emit_fields (offset + f_size f) pad_idx fs in (field :: ms, o, p)
      else
        let pad := (f_align f - offset mod f_align f)%nat in
        let '(ms, o, p) := emit_fields (offset + pad + f_size f) (S pad_idx) fs in (MPad pad_idx pad :: field :: ms, o, p)
  end.

(** With the padding to 8 bytes at the end. *)
Definition emit_body (offset : nat) (fs : list Field) : list member * nat :=
  let '(ms, o, p) := emit_fields offset 0 fs in
  if decide (o mod 8 = 0)%nat then (ms, o) else let pad := (8 - o mod 8)%nat in (ms ++ [MPad p pad], (o + pad)%nat).

(** The words between underscores, each with its first letter in upper case. *)
Definition upper (c : Z) : Z := if decide (0x61 <= c <= 0x7A) then c - 32 else c.
Definition snake_to_pascal (s : str) : str :=
  concat (map (fun w => match w with [] => [] | c :: w => upper c :: w end) (split_char 95 s [])).

(** [sizes] are the sizes the C header asserts; the last entry of a name counts. *)
Definition size_map (sizes : list (str * nat)) (name : str) (computed : nat) : nat :=
  default computed (snd <$> last (filter (fun e => e.1 = name) sizes)).

Definition request_struct (sizes : list (str * nat)) (r : RequestDef) : StructDef :=
  let '(ms, size) := emit_body 12 (req_fields r) in
  mkStruct (snake_to_pascal (r_name r) ++ lit "Request") (MHeader 12 :: ms) (size_map sizes (r_name r ++ lit "_request") size).

Definition reply_struct (sizes : list (str * nat)) (r : RequestDef) : StructDef :=
  let '(ms, size) := if has_reply r then emit_body 8 (reply_fields r) else ([], 8%nat) in
  mkStruct (snake_to_pascal (r_name r) ++ lit "Reply") (MHeader 8 :: ms) (size_map sizes (r_name r ++ lit "_reply") size).

Definition generate_request_structs (sizes : list (str * nat)) (rs : list RequestDef) : list StructDef :=
  concat (map (fun r => [request_struct sizes r; reply_struct sizes r]) rs).

(** ** Sizes, opcodes and dispatch *)
Fixpoint body_end (offset : nat) (fs : list Field) : nat :=
  match fs with
  | [] => offset
  | f :: fs => body_end (if decide (offset mod f_align f = 0) then offset + f_size f else offset + (f_align f - offset mod f_align f) + f_size f)%nat fs
  end.
Definition compute_body_size (fs : list Field) (header_size : nat) : nat :=
  let o := body_end header_size fs in
  ((if decide (o mod 8 = 0) then o else o + (8 - o mod 8)) - header_size)%nat.

Record OpcodeMetadata : Type := mkMetadata {
  m_name : str; request_body_size : nat; reply_body_size : nat; has_vararg_request : bool; has_vararg_reply : bool;
  reply_field_count : nat }.
Definition opcode_metadata (r : RequestDef) : OpcodeMetadata :=
  mkMetadata (r_name r) (compute_body_size (req_fields r) 12)
    (if has_reply r then compute_body_size (reply_fields r) 8 else 0%nat)
    (bool_decide (req_varargs r <> [])) (bool_decide (reply_varargs r <> [])) (length (reply_fields r)).
Definition generate_opcode_metadata (rs : list RequestDef) : list OpcodeMetadata := map opcode_metadata rs.

(** The arms of the generated conversions; an opcode is the position of its
    variant, and [match] takes the first arm. *)
Definition from_i32 (variants : list (str * Z)) (v : Z) : option nat := fst <$> list_find (fun x => x.2 = v) variants.
Definition as_str (variants : list (str * Z)) (code : nat) : option str := fst <$> variants !! code.
Definition from_name (variants : list (str * Z)) (name : str) : option nat := fst <$> list_find (fun x => x.1 = name) variants.
Definition request_variants (rs : list RequestDef) : list (str * Z) := map (fun r => (r_name r, index r)) rs.

(** Whether an opcode has a handler of its own; all others go to the fallback. *)
Definition dispatches_to (implemented : list str) (r : RequestDef) : option str :=
  let h := lit "handle_" ++ r_name r in if decide (h ∈ implemented) then Some h else None.

(** ** The other parsers *)

(** The tokens of a C enum. *)
Definition enum_token (prefix token : str) : option str :=
  let token := trim token in
  let token := match split_at_pat (lit "/*") token with Some (a, _) => trim a | None => token end in
  let token := match split_at_pat (lit "//") token with Some (a, _) => trim a | None => token end in
  if decide (token = []) then None
  else if has_prefix (reverse (lit "nb_requests")) (reverse token) then None
  else Some (default token (strip_prefix prefix token)).

Fixpoint number (i : Z) (l : list str) : list (str * Z) :=
  match l with [] => [] | x :: l => (x, i) :: number (i + 1) l end.

Definition parse_enum (content enum_name prefix : str) : list (str * Z) :=
  match split_at_pat (lit "enum " ++ enum_name) content with
  | None => []
  | Some (_, rest) =>
      match split_at_pat [123] (lit "enum " ++ enum_name ++ rest) with
      | None => []
      | Some (_, rest) =>
          match split_at_pat [125] rest with
          | None => []
          | Some (body, _) => number 0 (omap (enum_token prefix) (split_char COMMA body []))
          end
      end
  end.

(** [str::parse] at an unsigned type of [w] bits *)
Fixpoint dec_acc (w : Z) (s : str) (acc : Z) : option Z :=
  match s with
  | [] => Some acc
  | c :: s => if decide (0x30 <= c <= 0x39) then
                let v := acc * 10 + (c - 0x30) in if decide (v < 2 ^ w) then dec_acc w s v else None
              else None
  end.
Definition parse_uint (w : Z) (s : str) : option Z :=
  let digits := match s with 43 :: s' => s' | _ => s end in
  if decide (digits = []) then None else dec_acc w digits 0.

Fixpoint trim_tail (s : str) : str :=
  match s with
  | c :: s' => if decide (c = 41 \/ c = 59) then trim_tail s' else if is_whitespace c then trim_tail s' else s
  | [] => []
  end.

(** One [C_ASSERT( sizeof(struct X) == N );] line. *)
Definition parse_size_line (l : str) : option (str * nat) :=
  match strip_prefix (lit "C_ASSERT(") (trim l) with
  | None => None
  | Some rest =>
      match strip_prefix (lit " sizeof(") rest with
      | None => None
      | Some rest =>
          let rest := trim rest in
          let rest := trim (default rest (strip_prefix (lit "struct ") rest)) in
          match split_at_pat [41] rest with
          | None => None
          | Some (name, after) =>
              match split_at_pat (lit "==") after with
              | None => None
              | Some (_, num) => (fun n => (trim name, Z.to_nat n)) <$> parse_uint 64 (reverse (trim_tail (reverse (trim num))))
              end
          end
      end
  end.
Definition parse_struct_sizes (content : str) : list (str * nat) := omap parse_size_line (lines content).

(** [#define SERVER_PROTOCOL_VERSION N]; the first such line decides. *)
Definition first_word (s : str) : option str :=
  match trim s with [] => None | s => Some (match split_ws s with Some (a, _) => a | None => s end) end.
Fixpoint version_of (ls : list str) : option Z :=
  match ls with
  | [] => None
  | l :: ls =>
      match strip_prefix (lit "#define SERVER_PROTOCOL_VERSION") (trim_start l) with
      | Some rest => first_word rest ≫= parse_uint 32
      | None => version_of ls
      end
  end.
Definition parse_server_protocol_version (content : str) : option Z := version_of (lines content).
(** The version the daemon announces: 0 without a header or without the line. *)
Definition compiled_protocol_version (header : option str) : Z := default 0 (header ≫= parse_server_protocol_version).

(** The requests: from the definition file when there is one, else the names of
    the header's enum without any field, else none. *)
Definition requests (def header : option str) : list RequestDef :=
  match def, header with
  | Some content, _ => parse_protocol_def_full content
  | None, Some content =>
      map (fun x => mkRequestDef x.1 x.2 [] [] false [] []) (parse_enum content (lit "request") (lit "REQ_"))
  | None, None => []
  end.

Definition message_type_constants (content : str) : list (str * Z) :=
  map (fun x => (lit "MSG_" ++ map upper x.1, x.2)) (parse_enum content (lit "message_type") (lit "MSG_")).

(** Everything that is generated. *)
Record Generated : Type := mkGenerated {
  COMPILED_PROTOCOL_VERSION : Z; RequestCode : list (str * Z); MSG : list (str * Z); structs : list StructDef;
  arms : list (str * option str); OPCODE_META : list OpcodeMetadata }.

(** The handlers a source file declares; [alphanumeric] is the Unicode property. *)
Definition handler_on_line (alphanumeric : Z -> bool) (l : str) : option str :=
  match split_at_pat (lit "fn handle_") (trim l) with
  | None => None
  | Some (before, rest) =>
      if bool_decide (before = []) || bool_decide (last before = Some 32) || bool_decide (trim before = []) then
        match split_at_pat [40] rest with
        | Some (name, _) =>
            if forallb (fun c => alphanumeric c || bool_decide (c = 95)) name then Some (lit "handle_" ++ name) else None
        | None => None
        end
      else None
  end.
Definition scan_implemented_handlers (alphanumeric : Z -> bool) (files : list str) : list str :=
  concat (map (fun f => omap (handler_on_line alphanumeric) (lines f)) files).

Definition generate_from_wine_src (alphanumeric : Z -> bool) (def header : option str) (sources : list str) : Generated :=
  let rs := requests def header in
  let implemented := scan_implemented_handlers alphanumeric sources in
  mkGenerated (compiled_protocol_version header) (request_variants rs)
    (match header with Some c => message_type_constants c | None => [] end)
    (generate_request_structs (match header with Some c => parse_struct_sizes c | None => [] end) rs)
    (map (fun r => (r_name r, dispatches_to implemented r)) rs) (generate_opcode_metadata rs).

(** ** Layout

    What the compiler makes of a [repr(C)] struct: each member at the next
    multiple of its alignment, the whole rounded up to the largest alignment. *)
Definition rust_size (t : rust_type) : nat :=
  match t with U8 => 1 | I16 | U16 => 2 | I32 | U32 => 4 | I64 | U64 => 8 | Bytes n => n end.
Definition rust_align (t : rust_type) : nat := match t with Bytes _ => 1 | _ => rust_size t end.
Definition member_size (m : member) : nat := match m with MHeader n => n | MField _ t => rust_size t | MPad _ n => n end.
Definition member_align (m : member) : nat := match m with MHeader _ => 4 | MField _ t => rust_align t | MPad _ _ => 1 end.
Definition round_up (n a : nat) : nat := (if decide (n mod a = 0) then n else n + (a - n mod a))%nat.

(** The offsets of the members from [o] on, and the end. *)
Fixpoint place (o : nat) (ms : list member) : list (member * nat) * nat :=
  match ms with
  | [] => ([], o)
  | m :: ms => let p := round_up o (member_align m) in let '(l, e) := place (p + member_size m) ms in ((m, p) :: l, e)
  end.
Definition struct_align (ms : list member) : nat := foldr (fun m a => max (member_align m) a) 1%nat ms.
Definition repr_c (ms : list member) : list (member * nat) * nat :=
  let '(l, e) := place 0 ms in (l, round_up e (struct_align ms)).

(** Where the generator means the fields to be. *)
Fixpoint field_offsets (o : nat) (fs : list Field) : list (str * nat) :=
  match fs with
  | [] => []
  | f :: fs => let p := round_up o (f_align f) in (f_name f, p) :: field_offsets (p + f_size f) fs
  end.
Definition fields_of (l : list (member * nat)) : list (str * nat) :=
  omap (fun x => match x.1 with MField n _ => Some (n, x.2) | _ => None end) l.

(** A field of the type table: the Rust type has the size the C type has, and an
    alignment that divides the C type's. *)
Definition is_align (a : nat) : Prop := (a = 1 \/ a = 2 \/ a = 4 \/ a = 8)%nat.
Definition field_ok (f : Field) : Prop :=
  f_size f = rust_size (f_type f) /\ (rust_align (f_type f) | f_align f)%nat /\ is_align (f_align f).

Lemma round_up_mod o a : (a <> 0)%nat -> (round_up o a mod a = 0)%nat /\ (o <= round_up o a)%nat.
Proof.
  intros Ha. unfold round_up. case_decide as H0; [done|]. pose proof (Nat.mod_upper_bound o a Ha). split; [|lia].
  rewrite (Nat.div_mod_eq o a) at 1.
  replace (a * (o `div` a) + o `mod` a + (a - o `mod` a))%nat with ((o `div` a + 1) * a)%nat by lia.
  by apply Nat.Div0.mod_mul.
Qed.

Lemma round_up_id o a : (a <> 0)%nat -> (a | o)%nat -> round_up o a = o.
Proof. intros Ha Hd. unfold round_up. rewrite decide_True; [done|]. by apply Nat.Lcm0.mod_divide. Qed.

Lemma round_up_pad o a : (o mod a <> 0)%nat -> round_up o a = (o + (a - o mod a))%nat.
Proof. intros H0. unfold round_up. by rewrite decide_False. Qed.

Lemma rust_align_pos t : (rust_align t <> 0)%nat.
Proof. by destruct t. Qed.

Lemma place_app o ms ms' :
  place o (ms ++ ms') = let '(l, e) := place o ms in let '(l', e') := place e ms' in (l ++ l', e').
Proof.
  revert o; induction ms as [|m ms IH]; intros o; cbn; [by destruct (place o ms')|].
  rewrite IH. destruct (place _ ms) as [l e]. by destruct (place e ms') as [l' e'].
Qed.

Lemma place_field o n t rest :
  (rust_align t | o)%nat -> place o (MField n t :: rest) = let '(l, e) := place (o + rust_size t) rest in ((MField n t, o) :: l, e).
Proof. intros Hd. cbn [place member_align member_size]. rewrite round_up_id; [done|apply rust_align_pos|done]. Qed.

Lemma emit_fields_place fs o p :
  Forall field_ok fs ->
  let '(ms, o', _) := emit_fields o p fs in
  let '(l, e) := place o ms in
  e = o' /\ fields_of l = field_offsets o fs /\ body_end o fs = o' /\ Forall (fun m => is_align (member_align m)) ms.
Proof.
  revert o p; induction fs as [|f fs IH]; intros o p; intros Hok; cbn [emit_fields field_offsets body_end]; [by repeat split|].
  apply Forall_cons in Hok as [(Hs & Hd & Ha) Hok].
  assert (f_align f <> 0)%nat as Hnz by (unfold is_align in Ha; lia).
  assert (is_align (member_align (MField (f_name f) (f_type f)))) as Hma.
  { unfold is_align. destruct (f_type f); cbn; lia. }
  case_decide as Hmod.
  - specialize (IH (o + f_size f)%nat p Hok). destruct (emit_fields (o + f_size f) p fs) as [[ms o'] p'].
    assert (f_align f | o)%nat as Hdo by (by apply Nat.Lcm0.mod_divide).
    rewrite place_field by (by etrans). rewrite <- Hs. destruct (place (o + f_size f) ms) as [l e]. destruct IH as (-> & Hf & Hb & Hal).
    rewrite (round_up_id o) by done. split; [done|]. split; [cbn; f_equal; exact Hf|]. split; [done|]. by constructor.
  - set (pad := (f_align f - o mod f_align f)%nat). specialize (IH (o + pad + f_size f)%nat (S p) Hok).
    destruct (emit_fields (o + pad + f_size f) (S p) fs) as [[ms o'] p'].
    assert (round_up o (f_align f) = (o + pad)%nat) as Hr by (by apply round_up_pad).
    assert (f_align f | o + pad)%nat as Hdo.
    { rewrite <- Hr. apply Nat.Lcm0.mod_divide. by apply round_up_mod. }
    cbn [place member_align member_size]. fold (place (o + pad)). rewrite (round_up_id o 1) by (done || apply Nat.divide_1_l).
    rewrite (round_up_id (o + pad)) by (apply rust_align_pos || by etrans). rewrite <- Hs, Hr.
    destruct (place (o + pad + f_size f) ms) as [l e]. destruct IH as (-> & Hf & Hb & Hal).
    split; [done|]. split; [cbn; f_equal; exact Hf|]. split; [done|]. constructor; [by left|]. by constructor.
Qed.

Lemma emit_body_place fs o :
  Forall field_ok fs ->
  let '(ms, size) := emit_body o fs in
  let '(l, e) := place o ms in
  e = size /\ fields_of l = field_offsets o fs /\ (8 | size)%nat /\ size = (o + compute_body_size fs o)%nat /\
  Forall (fun m => is_align (member_align m)) ms.
Proof.
  intros Hok. unfold emit_body, compute_body_size. pose proof (emit_fields_place fs o 0 Hok) as Hp.
  destruct (emit_fields o 0 fs) as [[ms e] p] eqn:Hem.
  assert (o <= e)%nat as Hle.
  { clear -Hem. revert o ms e p Hem. assert (forall o q ms e p, emit_fields o q fs = (ms, e, p) -> (o <= e)%nat) as Hg; [|eauto].
    induction fs as [|f fs IH]; intros o q ms e p; cbn [emit_fields]; [intros [= _ <- _]; lia|]. case_decide.
    - destruct (emit_fields (o + f_size f) q fs) as [[ms' e'] p'] eqn:He. intros [= _ <- _]. apply IH in He. lia.
    - destruct (emit_fields _ (S q) fs) as [[ms' e'] p'] eqn:He. intros [= _ <- _]. apply IH in He. lia. }
  destruct (place o ms) as [l e'] eqn:Hpl. destruct Hp as (-> & Hf & Hb & Hal). rewrite Hb. case_decide as Hm.
  - rewrite Hpl. split_and!; try done; [by apply Nat.Lcm0.mod_divide|lia].
  - rewrite place_app, Hpl. cbn [place member_align member_size]. rewrite round_up_id by (done || apply Nat.divide_1_l).
    pose proof (Nat.mod_upper_bound e 8 ltac:(lia)). split_and!; try lia.
    + unfold fields_of. rewrite omap_app. cbn. by rewrite app_nil_r.
    + destruct (round_up_mod e 8 ltac:(lia)) as [Hr _]. rewrite round_up_pad in Hr by done. by apply Nat.Lcm0.mod_divide.
    + apply Forall_app. split; [done|]. constructor; [by left|constructor].
Qed.

Lemma struct_align_8 ms : Forall (fun m => is_align (member_align m)) ms -> is_align (struct_align ms).
Proof.
  induction 1 as [|m ms Hm _ IH]; cbn; [by left|]. unfold is_align in *. fold (struct_align ms) in *. lia.
Qed.

Lemma repr_c_struct h fs :
  Forall field_ok fs -> let '(ms, size) := emit_body h fs in
  let '(l, e) := repr_c (MHeader h :: ms) in
  e = size /\ fields_of l = field_offsets h fs /\ (8 | size)%nat /\ size = (h + compute_body_size fs h)%nat.
Proof.
  intros Hok. pose proof (emit_body_place fs h Hok) as He. destruct (emit_body h fs) as [ms size]. unfold repr_c.
  cbn [place member_align member_size]. change (round_up 0 4) with 0%nat. rewrite Nat.add_0_l.
  destruct (place h ms) as [l e]. destruct He as (-> & Hf & Hd & Hs & Hal).
  assert (is_align (struct_align (MHeader h :: ms))) as Ha.
  { apply struct_align_8. constructor; [unfold is_align; cbn; lia|done]. }
  split_and!; try done. apply round_up_id; [unfold is_align in Ha; lia|].
  etrans; [|exact Hd]. destruct Ha as [->|[->|[->| ->]]]; [exists 8%nat|exists 4%nat|exists 2%nat|exists 1%nat]; reflexivity.
Qed.

(** *** Everything the parser returns comes from the table *)
Definition entry_ok (e : string * (rust_type * nat * nat)) : Prop := let '(_, (t, s, a)) := e in field_ok (mkField [] t s a).

Lemma type_map_ok : Forall entry_ok type_map.
Proof.
  unfold type_map. repeat (constructor; [split; [reflexivity|split; [|unfold is_align; cbn; lia]];
    cbn; first [apply Nat.divide_refl|apply Nat.divide_1_l]|]). constructor.
Qed.

Lemma field_of_ok key name f : field_of key name = Some f -> field_ok f.
Proof.
  unfold field_of, lookup_type. destruct (list_find _ type_map) as [[i [k [[t s] a]]]|] eqn:Hf; [|done]. intros [= <-].
  apply list_find_Some in Hf as (Hi & _). pose proof (Forall_lookup_1 _ _ _ _ type_map_ok Hi) as He. exact He.
Qed.

Lemma parse_field_ok line f : parse_field line = Some f -> field_ok f.
Proof.
  unfold parse_field, parse_decl, parse_simple. repeat case_match; try done; apply field_of_ok.
Qed.

Definition block_ok (b : Block) : Prop := Forall field_ok (b_req b) /\ Forall field_ok (b_reply b).
Definition request_ok (r : RequestDef) : Prop := Forall field_ok (req_fields r) /\ Forall field_ok (reply_fields r).

Lemma block_line_ok line b : block_ok b -> block_ok (block_line line b).
Proof.
  intros [Hq Hr]. unfold block_line. case_decide; [done|]. destruct (skip_line line); [done|].
  destruct (has_prefix (lit "VARARG(") line); [unfold add_vararg; by destruct (in_reply b)|].
  destruct (parse_field line) as [f|] eqn:Hf; [|done]. apply parse_field_ok in Hf.
  unfold add_field. destruct (in_reply b); split; cbn; try done; (apply Forall_app; split; [done|]; by constructor).
Qed.

Lemma parse_lines_ok ls i cur :
  (forall b, cur = Some b -> block_ok b) ->
  Forall request_ok (parse_lines ls i cur) /\ map index (parse_lines ls i cur) = seqZ i (Z.of_nat (length (parse_lines ls i cur))).
Proof.
  assert (forall i (l : list RequestDef) r, index r = i -> map index l = seqZ (i + 1) (Z.of_nat (length l)) ->
    map index (r :: l) = seqZ i (Z.of_nat (length (r :: l)))) as Hcons.
  { intros j l r Hr Hl. cbn [map length]. rewrite seqZ_cons by lia. rewrite Hr, Hl. unfold Z.succ. do 2 f_equal. lia. }
  revert i cur; induction ls as [|l ls IH]; intros i cur Hcur; cbn [parse_lines].
  - destruct cur as [b|]; [|split; [constructor|done]]. destruct (Hcur b eq_refl). split; [by constructor|]. by apply (Hcons i []).
  - destruct cur as [b|].
    + case_decide.
      * destruct (IH (i + 1) None) as [Ho Hi]; [done|]. destruct (Hcur b eq_refl). split; [by constructor|]. by apply Hcons.
      * apply IH. intros b' [= <-]. apply block_line_ok. by apply Hcur.
    + destruct (request_name (trim l)); apply IH; [|done]. intros b [= <-]. split; constructor.
Qed.

Lemma number_index l i : map snd (number i l) = seqZ i (Z.of_nat (length (number i l))).
Proof.
  revert i; induction l as [|x l IH]; intros i; cbn [number map length]; [done|].
  rewrite seqZ_cons by lia. cbn [snd]. rewrite IH. unfold Z.succ. do 2 f_equal. lia.
Qed.

Lemma requests_ok def header :
  let rs := requests def header in Forall request_ok rs /\ map index rs = seqZ 0 (Z.of_nat (length rs)).
Proof.
  destruct def as [content|]; [by apply parse_lines_ok|]. destruct header as [content|]; [|by split; constructor]. cbn.
  split; [apply Forall_map, Forall_forall; intros [x i] _; by split|].
  rewrite map_map, length_map. unfold parse_enum. repeat case_match; try done. apply number_index.
Qed.

(** C34: the layout of every generated struct is the one it was computed with.
    Whatever the definition file contains, the compiler places each field of a
    request (reply) struct exactly at the offset the generator rounded it to,
    adds no padding of its own, and gives the struct the size the generator
    counted: a multiple of 8, the header plus the body size in the opcode table,
    so the size assertions that were not overridden hold. *)
Theorem generated_layout_exact def header sizes r :
  r ∈ requests def header ->
  let q := request_struct sizes r in
  let '(lq, sq) := repr_c (members q) in
  fields_of lq = field_offsets 12 (req_fields r) /\ (8 | sq)%nat /\
  sq = (12 + request_body_size (opcode_metadata r))%nat /\
  asserted_size q = size_map sizes (r_name r ++ lit "_request") sq /\
  let p := reply_struct sizes r in
  let '(lp, sp) := repr_c (members p) in
  fields_of lp = (if has_reply r then field_offsets 8 (reply_fields r) else []) /\ (8 | sp)%nat /\
  sp = (8 + reply_body_size (opcode_metadata r))%nat /\
  asserted_size p = size_map sizes (r_name r ++ lit "_reply") sp.
Proof.
  intros Hr. cbn zeta. destruct (requests_ok def header) as [Hok _].
  rewrite Forall_forall in Hok. destruct (Hok r Hr) as [Hq Hp]. unfold request_struct, reply_struct, opcode_metadata.
  cbn [request_body_size reply_body_size]. pose proof (repr_c_struct 12 _ Hq) as H1. destruct (emit_body 12 (req_fields r)) as [ms sz].
  cbn [members asserted_size]. destruct (repr_c (MHeader 12 :: ms)) as [l e]. destruct H1 as (-> & Hf & Hd & Hs).
  split_and!; try done. pose proof (repr_c_struct 8 _ Hp) as H2. destruct (has_reply r).
  - destruct (emit_body 8 (reply_fields r)) as [ms' sz']. cbn [members asserted_size].
    destruct (repr_c (MHeader 8 :: ms')) as [l' e']. destruct H2 as (-> & Hf' & Hd' & Hs'). done.
  - cbn. split_and!; done.
Qed.

(** ** The opcodes are what dispatch relies on *)
Definition dispatch_meta (ms : list OpcodeMetadata) : list Dispatch.OpcodeMeta :=
  map (fun m => Dispatch.mkMeta (String.string_of_list_ascii (map (fun c => Ascii.ascii_of_nat (Z.to_nat c)) (m_name m)))
                  (has_vararg_reply m)) ms.

Lemma variants_lookup rs n x :
  map index rs = seqZ 0 (Z.of_nat (length rs)) -> request_variants rs !! n = Some x -> x.2 = Z.of_nat n.
Proof.
  intros Hi. unfold request_variants. rewrite list_lookup_fmap. destruct (rs !! n) as [r|] eqn:Hr; [|done]. intros [= <-].
  assert (map index rs !! n = Some (index r)) as Hx by (by rewrite list_lookup_fmap, Hr). rewrite Hi in Hx.
  apply lookup_seqZ in Hx as [Hx _]. cbn. lia.
Qed.

(** The generated opcode conversions discharge what dispatch assumes of them.
    For every definition file the opcode of a request is its position in the
    file: converting a number gives the variant at that position, exactly for the
    numbers below the count, and names convert back to the first variant that
    carries them. *)
Theorem generated_opcodes_ok alphanumeric def header sources :
  let g := generate_from_wine_src alphanumeric def header sources in
  let vs := RequestCode g in
  Dispatch.from_i32_ok (dispatch_meta (OPCODE_META g)) (from_i32 vs) /\
  (forall n, (n < length (OPCODE_META g))%nat -> from_i32 vs (Z.of_nat n) = Some n) /\
  (forall name n, from_name vs name = Some n -> as_str vs n = Some name /\ from_i32 vs (Z.of_nat n) = Some n).
Proof.
  cbn zeta. cbn [RequestCode OPCODE_META generate_from_wine_src]. destruct (requests_ok def header) as [_ Hi].
  set (rs := requests def header) in *. unfold generate_opcode_metadata.
  assert (length (request_variants rs) = length rs) as Hlen by apply length_map.
  assert (forall n, (n < length rs)%nat -> from_i32 (request_variants rs) (Z.of_nat n) = Some n) as Hall.
  { intros n Hn. unfold from_i32. destruct (lookup_lt_is_Some_2 (request_variants rs) n) as [x Hx]; [lia|].
    rewrite (proj2 (list_find_Some (fun x => x.2 = Z.of_nat n) (request_variants rs) n x)); [done|].
    split; [done|]. split; [by eapply variants_lookup|]. intros j y Hy Hlt Heq. apply (variants_lookup rs) in Hy; [lia|done]. }
  split_and!.
  - intros i n. unfold from_i32. destruct (list_find _ (request_variants rs)) as [[m x]|] eqn:Hf; [|done]. intros [= ->].
    apply list_find_Some in Hf as (Hx & Hv & _). pose proof (variants_lookup rs n x Hi Hx). split; [lia|].
    apply lookup_lt_Some in Hx. unfold dispatch_meta. rewrite !length_map. lia.
  - rewrite length_map. exact Hall.
  - intros name n. unfold from_name. destruct (list_find _ (request_variants rs)) as [[m x]|] eqn:Hf; [|done]. intros [= ->].
    apply list_find_Some in Hf as (Hx & Hv & _). split; [unfold as_str; rewrite Hx; cbn; by rewrite Hv|].
    apply Hall. apply lookup_lt_Some in Hx. lia.
Qed.

End Build.

Module BuildDemo.
Import Text RegFile Build.
Local Notation lit := Registry.lit.

Definition text (ls : list string) : str := concat (map (fun l => lit l ++ [10]) ls).
Definition def : str := text
  ["/* comment */"; "@REQ(get_rect)"; "    user_handle_t  handle;   /* the window */"; "    unsigned char  type;";
   "    lparam_t       info;"; "@REPLY"; "    struct rectangle rect;"; "    timeout_t      when;"; "    VARARG(name,unicode_str);";
   "@END"; ""; "@REQ(ping)"; "@END"]%string.

Example demo_meta : generate_opcode_metadata (parse_protocol_def_full def) =
  [mkMetadata (lit "get_rect") 20 24 false true 2; mkMetadata (lit "ping") 4 0 false false 0].
Proof. vm_compute. reflexivity. Qed.

Example demo_version :
  parse_server_protocol_version (text ["#define SERVER_PROTOCOL_VERSION 930"]%string) = Some 930 /\
  parse_struct_sizes (text ["C_ASSERT( sizeof(struct ping_request) == 16 );"]%string) = [(lit "ping_request", 16%nat)].
Proof. split; vm_compute; reflexivity. Qed.

Lemma generated_layout_exact_witness :
  exists r, r ∈ requests (Some def) None /\
  let '(l, s) := repr_c (members (request_struct [] r)) in
  fields_of l = [(lit "handle", 12); (lit "r#type", 16); (lit "info", 24)]%nat /\ s = 32%nat.
Proof.
  set (r := default (finish (mkBlock [] [] [] false [] [] false) 0) (requests (Some def) None !! 0%nat)).
  exists r. assert (r ∈ requests (Some def) None) as Hr.
  { apply list_elem_of_lookup. exists 0%nat. vm_compute. reflexivity. }
  split; [exact Hr|]. pose proof (generated_layout_exact (Some def) None [] r Hr) as Hl. cbn zeta in Hl.
  destruct (repr_c (members (request_struct [] r))) as [l s]. destruct Hl as (Hf & _ & Hs & _).
  rewrite Hf, Hs. split; vm_compute; reflexivity.
Defined.
End BuildDemo.
