(* ===== verification/Pe.v ===== *)
(** * Executables of Windows ([src/rust/src/quark/pe_scanner.rs], [pe_patch.rs])

    The scanner reads the import table of an executable to find the graphics
    interface it needs; the patcher makes its import section writable.  A file is
    the list of its bytes.  The scanner reads through [pread], which may fail or
    read less than asked; the patcher reads and writes a regular file. *)

From stdpp Require Import base list gmap strings.
From S2P Require Import Prelude Dispatch Text Registry RegFile.
Local Open Scope Z_scope.
Local Open Scope outcome_scope.

Module Pe.
Import Text RegFile.
Local Notation lit := Registry.lit.

(** ** The scanner *)
Inductive RenderApi : Type := Vulkan | DirectX12 | DirectX11 | DirectX9 | DirectX8 | OpenGL | NoApi.
#[export] Instance RenderApi_eq_dec : EqDecision RenderApi.
Proof. solve_decision. Defined.

Record PeScanResult : Type := mkScan {
  render_api : RenderApi; machine : Z; imports : list str;
  needs_steam_api : bool; needs_nvapi : bool; needs_xinput : bool; needs_xaudio : bool }.

(** [str::from_utf8]: text is valid exactly when decoding and encoding give it back. *)
Definition encode_utf8_char (c : Z) : list Z :=
  if decide (c < 0x80) then [c]
  else if decide (c < 0x800) then [0xC0 + c / 64; 0x80 + c mod 64]
  else if decide (c < 0x10000) then [0xE0 + c / 4096; 0x80 + c / 64 mod 64; 0x80 + c mod 64]
  else [0xF0 + c / 262144; 0x80 + c / 4096 mod 64; 0x80 + c / 64 mod 64; 0x80 + c mod 64].
Definition from_utf8 (bs : list Z) : option str :=
  let s := from_utf8_lossy bs in if decide (concat (map encode_utf8_char s) = bs) then Some s else None.

Definition get16 (buf : list Z) (off : Z) : Z := from_le (get_bytes off 2 buf).

(** A zeroed buffer of [n] bytes after a read. *)
Definition filled (n : nat) (bs : list Z) : list Z := bs ++ replicate (n - length bs) 0.

(** The name in a buffer: up to the first zero, else the [n] bytes that were read. *)
Definition until_zero (n : nat) (buf : list Z) : list Z :=
  match list_find (fun b => b = 0) buf with Some (i, _) => take i buf | None => take n buf end.

(** [rva_to_offset]: the first section that contains the address. *)
Fixpoint rva_to_offset (sections : list Z) (n : nat) (rva : Z) : option Z :=
  match n with
  | O => None
  | S n =>
      let s := take 40 sections in
      let virt_addr := get32 s 12 in
      let virt_size := get32 s 8 in
      let raw_offset := get32 s 20 in
      if decide (virt_addr <= rva /\ rva < u32 (virt_addr + virt_size))
      then Some (u32 (u32 (rva - virt_addr) + raw_offset)) else rva_to_offset (drop 40 sections) n rva
  end.

(** Whether some import is one of [names]; whether one starts with [p]. *)
Definition imports_any (names : list string) (imps : list str) : bool := existsb (fun s => bool_decide (s ∈ map lit names)) imps.
Definition imports_prefix (p : string) (imps : list str) : bool := existsb (has_prefix (lit p)) imps.

Definition classify (imps : list str) : RenderApi :=
  if imports_any ["vulkan-1.dll"]%string imps then Vulkan
  else if imports_any ["d3d12.dll"; "d3d12core.dll"]%string imps then DirectX12
  else if imports_any ["d3d11.dll"; "d3d10.dll"; "d3d10core.dll"; "d3d10_1.dll"]%string imps then DirectX11
  else if imports_any ["d3d9.dll"]%string imps then DirectX9
  else if imports_any ["d3d8.dll"; "ddraw.dll"]%string imps then DirectX8
  else if imports_any ["opengl32.dll"]%string imps then OpenGL else NoApi.

Definition scan_result (machine : Z) (imps : list str) : PeScanResult :=
  mkScan (classify imps) machine imps (imports_any ["steam_api64.dll"; "steam_api.dll"]%string imps)
    (imports_any ["nvapi64.dll"; "nvapi.dll"]%string imps) (imports_prefix "xinput" imps) (imports_prefix "xaudio" imps).

Section Scan.
Context `{Lowercase}.
(** [pread fd n off]: the bytes read, or a failure. *)
Context (pread : nat -> Z -> option (list Z)).

Definition read_name (off : Z) : option str :=
  match pread 128 off with
  | Some (b :: bs) => to_lowercase <$> from_utf8 (until_zero (S (length bs)) (filled 128 (b :: bs)))
  | _ => None
  end.

Section Imports.
Context (sections : list Z) (num_sections : nat) (import_file_offset : Z).

Definition push_name (entry : list Z) (imps : list str) : list str :=
  match rva_to_offset sections num_sections (get32 entry 12) ≫= read_name with Some name => imps ++ [name] | None => imps end.

Fixpoint import_loop (fuel : nat) (idx : Z) (imps : list str) : outcome (list str) :=
  match fuel with
  | O => OutOfFuel
  | S fuel =>
      match pread 20 (import_file_offset + idx * 20) with
      | Some entry =>
          if decide (length entry <> 20%nat) then Ret imps
          else if decide (Forall (fun b => b = 0) entry) then Ret imps
          else let imps := push_name entry imps in
               let idx := idx + 1 in if decide (1000 < idx) then Ret imps else import_loop fuel idx imps
      | None => Ret imps
      end
  end.
End Imports.

(** What a read of the section table leaves in its buffer.  The count is compared
    as [usize], where a failure is the largest value. *)
Definition read_sections (size : nat) (off : Z) : option (list Z) :=
  match pread size off with
  | Some bs => if decide (length bs < size)%nat then None else Some (filled size bs)
  | None => Some (replicate size 0)
  end.

Definition scan_imports (sections : list Z) (num_sections : nat) (import_rva : Z) : outcome (list str) :=
  match rva_to_offset sections num_sections import_rva with
  | Some off => import_loop sections num_sections off 1001 0 []
  | None => Ret []
  end.

Definition scan_header (pe_offset : Z) (pe_buf : list Z) : outcome (option PeScanResult) :=
  let machine := get16 pe_buf 4 in
  let num_sections := Z.to_nat (get16 pe_buf 6) in
  let optional_hdr_size := get16 pe_buf 20 in
  let import_rva := get32 pe_buf (if decide (get16 pe_buf 24 = 0x20B) then 24 + 120 else 24 + 104) in
  if decide (import_rva = 0) then Ret (Some (mkScan NoApi machine [] false false false false))
  else match read_sections (num_sections * 40) (pe_offset + 24 + optional_hdr_size) with
       | None => Ret None
       | Some sections =>
           imps <-! scan_imports sections num_sections import_rva ;; Ret (Some (scan_result machine imps))
       end.

Definition scan_pe : outcome (option PeScanResult) :=
  match pread 64 0 with
  | Some dos =>
      if decide (length dos <> 64%nat \/ get8 dos 0 <> 0x4D \/ get8 dos 1 <> 0x5A) then Ret None
      else
        let pe_offset := get32 dos 0x3C in
        match pread 256 pe_offset with
        | Some bs =>
            let pe_buf := filled 256 bs in
            if decide ((length bs < 120)%nat \/ get8 pe_buf 0 <> 0x50 \/ get8 pe_buf 1 <> 0x45 \/ get8 pe_buf 2 <> 0 \/ get8 pe_buf 3 <> 0)
            then Ret None else scan_header pe_offset pe_buf
        | None => Ret None
        end
  | None => Ret None
  end.
End Scan.

(** A regular file: what is left of it from the offset on. *)
Definition file_pread (file : list Z) (n : nat) (off : Z) : option (list Z) := Some (take n (drop (Z.to_nat off) file)).

(** ** The patcher *)
Definition IMAGE_SCN_MEM_WRITE : Z := 0x80000000.
Definition PE_EXTENSIONS : list string := [".dll"; ".exe"; ".sys"; ".drv"; ".cpl"; ".acm"; ".ax"; ".ocx"]%string.

Definition read_u16 (buf : list Z) (off : Z) : outcome Z :=
  a <-! index buf off ;; b <-! index buf (off + 1) ;; Ret (from_le [a; b]).
Definition read_u32 (buf : list Z) (off : Z) : outcome Z :=
  a <-! index buf off ;; b <-! index buf (off + 1) ;; c <-! index buf (off + 2) ;; d <-! index buf (off + 3) ;;
  Ret (from_le [a; b; c; d]).

Definition section_name (buf : list Z) (s : Z) : list Z := until_zero 8 (get_bytes s 8 buf).

(** The loop over the section headers; the result is what [patch_pe] returns and
    the file after it. *)
Fixpoint patch_loop (header : list Z) (n : nat) (s : Z) (file : list Z) : outcome (bool * list Z) :=
  match n with
  | O => Ret (false, file)
  | S n =>
      if decide (blen header < s + 40) then Ret (false, file)
      else if decide (section_name header s = lit ".idata") then
        flags <-! read_u32 header (s + 36) ;;
        if decide (Z.land flags IMAGE_SCN_MEM_WRITE = 0)
        then Ret (true, put32 (s + 36) (Z.lor flags IMAGE_SCN_MEM_WRITE) file)
        else patch_loop header n (s + 40) file
      else patch_loop header n (s + 40) file
  end.

Definition patch_pe (file : list Z) : outcome (bool * list Z) :=
  let header := filled 1024 (take 1024 file) in
  let n := blen (take 1024 file) in
  a <-! index header 0 ;; b <-! index header 1 ;;
  if decide (n < 64 \/ a <> 0x4D \/ b <> 0x5A) then Ret (false, file)
  else
    e_lfanew <-! read_u32 header 0x3C ;;
    if decide (n < e_lfanew + 24) then Ret (false, file)
    else
      let coff_off := e_lfanew + 4 in
      num_sections <-! read_u16 header (coff_off + 2) ;;
      opt_size <-! read_u16 header (coff_off + 16) ;;
      let sect_off := coff_off + 20 + opt_size in
      let needed := sect_off + num_sections * 40 in
      if decide (n < needed) then
        let got := take (Z.to_nat needed) file in
        if decide (blen got < needed) then Ret (false, file) else patch_loop got (Z.to_nat num_sections) sect_off file
      else patch_loop (take (Z.to_nat n) header) (Z.to_nat num_sections) sect_off file.

(** The entries of a directory, as reading them turns out. *)
Inductive DirEntry : Type :=
| Unreadable
| Other
| Regular (name : str) (content : list Z).
Definition is_pe_name (name : str) : bool :=
  existsb (fun ext => has_prefix (reverse (lit ext)) (reverse name)) PE_EXTENSIONS.

(** The entries after the run, and the count or the error it ends with. *)
Fixpoint fix_loop (count : Z) (entries : list DirEntry) : outcome (list DirEntry * option Z) :=
  match entries with
  | [] => Ret ([], Some count)
  | Unreadable :: es => Ret (Unreadable :: es, None)
  | Other :: es => r <-! fix_loop count es ;; Ret (Other :: r.1, r.2)
  | Regular name content :: es =>
      if is_pe_name name then
        p <-! patch_pe content ;;
        r <-! fix_loop (if p.1 then u32 (count + 1) else count) es ;; Ret (Regular name p.2 :: r.1, r.2)
      else r <-! fix_loop count es ;; Ret (Regular name content :: r.1, r.2)
  end.
Definition fix_idata_sections (entries : list DirEntry) : outcome (list DirEntry * option Z) := fix_loop 0 entries.

(** *** What the patcher is for *)

(** The offsets of the section headers: none when the header is damaged, or the
    table is not in the file. *)
Definition sections (file : list Z) : list Z :=
  let n := Z.min 1024 (blen file) in
  let pe := get32 file 0x3C in
  let num := get16 file (pe + 6) in
  let sect_off := pe + 24 + get16 file (pe + 20) in
  if decide (64 <= n /\ get8 file 0 = 0x4D /\ get8 file 1 = 0x5A /\ pe + 24 <= n /\ sect_off + num * 40 <= blen file)
  then map (fun i => sect_off + 40 * Z.of_nat i) (seq 0 (Z.to_nat num)) else [].

(** An import section that is not writable. *)
Definition readonly_idata (file : list Z) (s : Z) : Prop :=
  section_name file s = lit ".idata" /\ Z.land (get32 file (s + 36)) IMAGE_SCN_MEM_WRITE = 0.
#[export] Instance readonly_idata_dec file s : Decision (readonly_idata file s).
Proof. unfold readonly_idata. apply _. Defined.

Lemma slice_S {A} (l : list A) off n a : l !! off = Some a -> slice off (S n) l = a :: slice (S off) n l.
Proof. intros Hl. unfold slice. by rewrite (drop_S l a off Hl). Qed.

Lemma index_slice buf off n : 0 <= off -> off + Z.of_nat (S n) <= blen buf ->
  exists a, index buf off = Ret a /\ slice (Z.to_nat off) (S n) buf = a :: slice (Z.to_nat (off + 1)) n buf.
Proof.
  unfold blen. intros Ho Hl. destruct (lookup_lt_is_Some_2 buf (Z.to_nat off)) as [a Ha]; [lia|].
  exists a. split; [by apply index_lookup|]. rewrite (slice_S _ _ _ _ Ha). by replace (S (Z.to_nat off)) with (Z.to_nat (off + 1)) by lia.
Qed.

Lemma slice_0 {A} (l : list A) off : slice off 0 l = [].
Proof. done. Qed.

Lemma read_u16_ok buf off : 0 <= off -> off + 2 <= blen buf -> read_u16 buf off = Ret (get16 buf off).
Proof.
  intros. unfold read_u16, get16, get_bytes. change (Z.to_nat 2) with 2%nat.
  destruct (index_slice buf off 1) as (a & -> & ->); [lia..|]. destruct (index_slice buf (off + 1) 0) as (b & -> & ->); [lia..|].
  by rewrite slice_0.
Qed.

Lemma read_u32_ok buf off : 0 <= off -> off + 4 <= blen buf -> read_u32 buf off = Ret (get32 buf off).
Proof.
  intros. unfold read_u32, get32, get_u32.
  destruct (index_slice buf off 3) as (a & -> & ->); [lia..|]. destruct (index_slice buf (off + 1) 2) as (b & -> & ->); [lia..|].
  destruct (index_slice buf (off + 1 + 1) 1) as (c & Hc & ->); [lia..|].
  destruct (index_slice buf (off + 1 + 1 + 1) 0) as (d & Hd & ->); [lia..|].
  replace (off + 2) with (off + 1 + 1) by lia. replace (off + 3) with (off + 1 + 1 + 1) by lia. rewrite Hc. cbn [obind]. rewrite Hd.
  by rewrite slice_0.
Qed.

(** A prefix of the file shows the same bytes. *)
Lemma get_bytes_take off n m (file : list Z) :
  0 <= off -> 0 <= n -> off + n <= Z.of_nat m -> get_bytes off n (take m file) = get_bytes off n file.
Proof.
  intros. unfold get_bytes. apply list_eq; intros i. rewrite !slice_lookup. case_decide; [|done].
  by rewrite lookup_take_lt by lia.
Qed.

Lemma get_bytes_filled off n m (bs : list Z) :
  0 <= off -> 0 <= n -> off + n <= blen bs -> get_bytes off n (filled m bs) = get_bytes off n bs.
Proof.
  unfold blen. intros. unfold get_bytes, filled. apply list_eq; intros i. rewrite !slice_lookup. case_decide; [|done].
  by rewrite lookup_app_l by lia.
Qed.

Lemma get_range (file : list Z) off k : Forall in_u8 file -> 0 <= from_le (get_bytes off (Z.of_nat k) file) < 256 ^ Z.of_nat k.
Proof.
  intros Hf. unfold get_bytes. rewrite Nat2Z.id. pose proof (from_le_range (slice (Z.to_nat off) k file)) as Hr.
  assert (length (slice (Z.to_nat off) k file) <= k)%nat by (unfold slice; rewrite length_take; lia).
  split; [apply Hr; by apply Forall_take, Forall_drop|]. eapply Z.lt_le_trans; [apply Hr; by apply Forall_take, Forall_drop|].
  apply Z.pow_le_mono_r; lia.
Qed.

Lemma get16_range file off : Forall in_u8 file -> 0 <= get16 file off < 65536.
Proof. intros Hf. by apply (get_range file off 2). Qed.
Lemma get32_range file off : Forall in_u8 file -> 0 <= get32 file off < 4294967296.
Proof. intros Hf. by apply (get_range file off 4). Qed.

Lemma patch_loop_find m (file : list Z) k s :
  Z.of_nat m <= blen file -> 0 <= s -> s + Z.of_nat k * 40 <= Z.of_nat m ->
  patch_loop (take m file) k s file =
  Ret (match list_find (readonly_idata file) (map (fun i => s + 40 * Z.of_nat i) (seq 0 k)) with
       | Some (_, s') => (true, put32 (s' + 36) (Z.lor (get32 file (s' + 36)) IMAGE_SCN_MEM_WRITE) file)
       | None => (false, file)
       end).
Proof.
  intros Hm. revert s; induction k as [|k IH]; intros s Hs Hk; [done|]. cbn [patch_loop seq map list_find].
  replace (s + 40 * Z.of_nat 0) with s by lia.
  assert (blen (take m file) = Z.of_nat m) as Hlen by (unfold blen in *; rewrite length_take; lia).
  assert (section_name (take m file) s = section_name file s) as Hn by (unfold section_name; by rewrite get_bytes_take by lia).
  assert (get32 (take m file) (s + 36) = get32 file (s + 36)) as Hg by (rewrite !get32_bytes; by rewrite get_bytes_take by lia).
  rewrite decide_False by lia. rewrite Hn, read_u32_ok, Hg by lia. cbn [obind].
  specialize (IH (s + 40) ltac:(lia) ltac:(lia)).
  assert (map (fun i => s + 40 + 40 * Z.of_nat i) (seq 0 k) = map (fun i => s + 40 * Z.of_nat i) (seq 1 k)) as Hmap.
  { rewrite <- seq_shift, map_map. apply map_ext. intros i. lia. }
  rewrite Hmap in IH. unfold readonly_idata at 1. case_decide as Hi; [case_decide as Hw|].
  - rewrite decide_True by done. done.
  - rewrite decide_False by (intros [? ?]; done). rewrite IH. by destruct (list_find _ _) as [[]|].
  - rewrite decide_False by (intros [? ?]; done). rewrite IH. by destruct (list_find _ _) as [[]|].
Qed.

Lemma patch_pe_find file :
  Forall in_u8 file ->
  patch_pe file =
  Ret (match list_find (readonly_idata file) (sections file) with
       | Some (_, s) => (true, put32 (s + 36) (Z.lor (get32 file (s + 36)) IMAGE_SCN_MEM_WRITE) file)
       | None => (false, file)
       end).
Proof.
  intros Hf. unfold patch_pe, sections. set (n := blen (take 1024 file)). set (header := filled 1024 (take 1024 file)).
  assert (n = Z.min 1024 (blen file)) as Hn by (unfold n, blen; rewrite length_take; lia).
  assert (blen header = 1024) as Hh by (unfold header, filled, blen; rewrite length_app, length_replicate, length_take; lia).
  assert (forall off k, 0 <= off -> 0 <= k -> off + k <= n -> get_bytes off k header = get_bytes off k file) as Hget.
  { intros off k Ho Hk Hle. unfold header. rewrite get_bytes_filled by (subst n; lia). apply get_bytes_take; lia. }
  pose proof (get32_range file 0x3C Hf) as Hpe. pose proof (get16_range file (get32 file 0x3C + 6) Hf) as Hnum.
  pose proof (get16_range file (get32 file 0x3C + 20) Hf) as Hopt.
  assert (forall i, 0 <= i < n -> index header i = Ret (get8 file i)) as Hidx.
  { intros i Hi. destruct (index_slice header i 0) as (a & -> & Hs); [lia..|]. rewrite get8_bytes by lia.
    rewrite <- (Hget i 1) by lia. unfold get_bytes. change (Z.to_nat 1) with 1%nat. by rewrite Hs. }
  destruct (decide (64 <= n)) as [H64|H64].
  2:{ destruct (index_slice header 0 0) as (a & -> & _); [lia..|]. destruct (index_slice header 1 0) as (b & -> & _); [lia..|].
      cbn [obind]. rewrite decide_True by lia. by rewrite decide_False by (rewrite <- Hn; lia). }
  rewrite !Hidx by lia. cbn [obind].
  destruct (decide (get8 file 0 = 0x4D /\ get8 file 1 = 0x5A)) as [[Hm Hz]|Hmz].
  2:{ rewrite decide_True by lia. by rewrite decide_False by (intros (_ & ? & ? & _); by apply Hmz). }
  rewrite decide_False by lia. rewrite read_u32_ok by lia. cbn [obind].
  replace (get32 header 60) with (get32 file 60) by (rewrite !get32_bytes; by rewrite Hget by lia).
  set (pe := get32 file 60) in *. destruct (decide (n < pe + 24)) as [Hlt|Hge].
  { by rewrite decide_False by lia. }
  replace (pe + 4 + 2) with (pe + 6) by lia. replace (pe + 4 + 16) with (pe + 20) by lia. replace (pe + 4 + 20) with (pe + 24) by lia.
  rewrite !read_u16_ok by lia. cbn [obind].
  replace (get16 header (pe + 6)) with (get16 file (pe + 6)) by (unfold get16; by rewrite Hget by lia).
  replace (get16 header (pe + 20)) with (get16 file (pe + 20)) by (unfold get16; by rewrite Hget by lia).
  set (num := get16 file (pe + 6)) in *. set (so := pe + 24 + get16 file (pe + 20)) in *.
  destruct (decide (n < so + num * 40)) as [Hbig|Hsmall].
  - destruct (decide (so + num * 40 <= blen file)) as [Hin|Hout].
    + rewrite decide_False by (unfold blen in *; rewrite length_take; lia). rewrite patch_loop_find by lia.
      by rewrite decide_True by lia.
    + rewrite decide_True by (unfold blen in *; rewrite length_take; lia). by rewrite decide_False by lia.
  - assert (take (Z.to_nat n) header = take (Z.to_nat n) file) as ->.
    { unfold header, filled. rewrite take_app_le by (unfold n, blen; lia). rewrite take_take. f_equal. lia. }
    rewrite patch_loop_find by lia. by rewrite decide_True by lia.
Qed.

Lemma lor_write_bit f : 0 <= f < 4294967296 -> Z.land f IMAGE_SCN_MEM_WRITE = 0 -> Z.lor f IMAGE_SCN_MEM_WRITE = f + 2147483648 /\ f < 2147483648.
Proof.
  intros Hf Hl. pose proof (Z.add_lor_land f IMAGE_SCN_MEM_WRITE) as Ha. rewrite Hl in Ha.
  split; [change 2147483648 with IMAGE_SCN_MEM_WRITE; lia|].
  destruct (decide (f < 2147483648)) as [|Hge]; [done|]. exfalso.
  assert (Z.testbit (Z.land f IMAGE_SCN_MEM_WRITE) 31 = true) as Hb; [|by rewrite Hl in Hb].
  rewrite Z.land_spec. change (Z.testbit IMAGE_SCN_MEM_WRITE 31) with true. rewrite andb_true_r.
  rewrite Z.testbit_true by lia. change (2 ^ 31) with 2147483648.
  assert (f / 2147483648 = 1) as ->; [|done]. symmetry. apply (Z.div_unique f 2147483648 1 (f - 2147483648)); lia.
Qed.

(** Setting the flag changes only the highest byte of the field. *)
Lemma put_flag_byte file off i :
  Forall in_u8 file -> 0 <= off -> off + 4 <= blen file -> Z.land (get32 file off) IMAGE_SCN_MEM_WRITE = 0 ->
  i <> Z.to_nat (off + 3) -> put32 off (Z.lor (get32 file off) IMAGE_SCN_MEM_WRITE) file !! i = file !! i.
Proof.
  intros Hf Ho Hl Hw Hi. set (f := get32 file off). unfold put32, put_u32.
  rewrite write_lookup by (rewrite length_le_bytes; unfold blen in Hl; lia). rewrite length_le_bytes. case_decide as Hd; [|done].
  destruct (lor_write_bit f (get32_range file off Hf) Hw) as [Hlor Hlt]. rewrite Hlor.
  assert (le_bytes 4 f = slice (Z.to_nat off) 4 file) as Hb.
  { unfold f, get32, get_u32. rewrite <- (le_bytes_from_le (slice (Z.to_nat off) 4 file)) at 2 by (by apply Forall_take, Forall_drop).
    by rewrite length_slice by (unfold blen in Hl; lia). }
  assert (file !! i = le_bytes 4 f !! (i - Z.to_nat off)%nat) as ->.
  { rewrite Hb, slice_lookup, decide_True by lia. f_equal. lia. }
  assert (f = f mod 16777216 + 16777216 * (f / 16777216)) as Hsplit by (pose proof (Z.div_mod f 16777216); lia).
  replace (f + 2147483648) with (f + 128 * 16777216) by lia.
  assert (forall k, (k < 3)%nat -> le_bytes 4 (f + 128 * 16777216) !! k = le_bytes 4 f !! k) as Hk; [|apply Hk; lia].
  intros k Hlt3. destruct k as [|[|[|]]]; [..|lia]; cbn [le_bytes lookup list_lookup]; f_equal.
  - replace (f + 128 * 16777216) with (f + 8388608 * 256) by lia. by rewrite Z_mod_plus_full.
  - replace (f + 128 * 16777216) with (f + 8388608 * 256) by lia. rewrite Z_div_plus_full by lia.
    replace (f / 256 + 8388608) with (f / 256 + 32768 * 256) by lia. by rewrite Z_mod_plus_full.
  - replace (f + 128 * 16777216) with (f + 8388608 * 256) by lia. rewrite Z_div_plus_full by lia.
    replace (f / 256 + 8388608) with (f / 256 + 32768 * 256) by lia. rewrite Z_div_plus_full by lia.
    replace (f / 256 / 256 + 32768) with (f / 256 / 256 + 128 * 256) by lia. by rewrite Z_mod_plus_full.
Qed.

Lemma sections_in file s : Forall in_u8 file -> s ∈ sections file -> 0 <= s /\ s + 40 <= blen file.
Proof.
  intros Hf. unfold sections. pose proof (get32_range file 0x3C Hf). pose proof (get16_range file (get32 file 0x3C + 6) Hf).
  pose proof (get16_range file (get32 file 0x3C + 20) Hf). case_decide as Hd; [|by intros ?%not_elem_of_nil].
  intros (i & -> & Hi)%list_elem_of_fmap. apply elem_of_seq in Hi. lia.
Qed.

(** Patching makes one import section writable and touches nothing else.
    For every file the patcher returns without a panic; when it reports a change
    it is the top byte of the flags of one section header that named a read-only
    import section, which is writable afterwards; when it reports none the file
    is as it was and none of its section headers names a read-only import section. *)
Theorem patch_pe_exact file :
  Forall in_u8 file ->
  exists changed file', patch_pe file = Ret (changed, file') /\ length file' = length file /\
    if changed then
      exists s, s ∈ sections file /\ readonly_idata file s /\ ~ readonly_idata file' s /\
        forall i, i <> Z.to_nat (s + 39) -> file' !! i = file !! i
    else file' = file /\ forall s, s ∈ sections file -> ~ readonly_idata file s.
Proof.
  intros Hf. rewrite patch_pe_find by done. destruct (list_find (readonly_idata file) (sections file)) as [[k s]|] eqn:Hfind.
  - apply list_find_Some in Hfind as (Hs & Hro & _). apply list_elem_of_lookup_2 in Hs. destruct (sections_in _ _ Hf Hs) as [Hs0 Hs1].
    eexists true, _. split; [done|]. split; [apply length_put_u32|]. exists s. split_and!; [done|done| |].
    + intros [_ Hw]. rewrite get32_put32_same in Hw by
        (try lia; destruct (lor_write_bit _ (get32_range file (s + 36) Hf) (proj2 Hro)) as [-> ?]; unfold in_u32;
         pose proof (get32_range file (s + 36) Hf); lia).
      apply (f_equal (fun z => Z.testbit z 31)) in Hw. rewrite Z.land_spec, Z.lor_spec in Hw.
      change (Z.testbit IMAGE_SCN_MEM_WRITE 31) with true in Hw. by rewrite orb_true_r in Hw.
    + intros i Hi. apply put_flag_byte; [done|lia|lia|apply Hro|]. by replace (s + 36 + 3) with (s + 39) by lia.
  - exists false, file. split; [done|]. split; [done|]. split; [done|]. intros s Hs.
    apply list_find_None in Hfind. rewrite Forall_forall in Hfind. by apply Hfind.
Qed.

(** ** The scanner terminates *)
Section ScanTheorems.
Context `{Lowercase}.

Lemma import_loop_total pread secs n off fuel idx imps :
  0 <= idx -> 1001 <= idx + Z.of_nat fuel -> idx <= 1000 ->
  exists imps', import_loop pread secs n off fuel idx imps = Ret imps' /\ Z.of_nat (length imps') <= Z.of_nat (length imps) + (1001 - idx).
Proof.
  revert idx imps; induction fuel as [|fuel IH]; intros idx imps H0 H1 H2; [lia|]. cbn [import_loop].
  destruct (pread 20%nat (off + idx * 20)) as [entry|]; [|by exists imps; split; [|lia]].
  case_decide; [exists imps; split; [done|lia]|]. case_decide; [exists imps; split; [done|lia]|].
  assert (Z.of_nat (length (push_name pread secs n entry imps)) <= Z.of_nat (length imps) + 1) as Hp.
  { unfold push_name. destruct (_ ≫= _); [rewrite length_app; cbn; lia|lia]. }
  case_decide; [eexists; split; [done|lia]|].
  destruct (IH (idx + 1) (push_name pread secs n entry imps)) as (imps' & -> & Hl); [lia..|]. exists imps'. split; [done|lia].
Qed.

Lemma scan_imports_total pread secs n rva :
  exists imps, scan_imports pread secs n rva = Ret imps /\ (length imps <= 1001)%nat.
Proof.
  unfold scan_imports. destruct (rva_to_offset secs n rva) as [off|]; [|exists []; split; [done|cbn; lia]].
  destruct (import_loop_total pread secs n off 1001 0 []) as (imps & -> & Hl); [lia..|]. exists imps. split; [done|]. cbn in Hl. lia.
Qed.

(** The scan of any file ends.  Whatever the reads return, failures and short
    reads included, the scanner stops with a verdict or without one, and lists at
    most 1001 imports. *)
Theorem scan_pe_terminates pread :
  exists r, scan_pe pread = Ret r /\ forall res, r = Some res -> (length (imports res) <= 1001)%nat.
Proof.
  assert (forall pe_offset buf, exists r, scan_header pread pe_offset buf = Ret r /\
    forall res, r = Some res -> (length (imports res) <= 1001)%nat) as Hh.
  { intros pe_offset buf. unfold scan_header. case_decide; [eexists; split; [done|]; intros res [= <-]; cbn; lia|].
    destruct (read_sections pread _ _) as [secs|]; [|by eexists].
    destruct (scan_imports_total pread secs (Z.to_nat (get16 buf 6)) (get32 buf (if decide (get16 buf 24 = 523) then 24 + 120 else 24 + 104)))
      as (imps & -> & Hl). eexists. split; [done|]. intros res [= <-]. exact Hl. }
  unfold scan_pe. destruct (pread 64%nat 0) as [dos|]; [|by eexists]. case_decide; [by eexists|].
  destruct (pread 256%nat _) as [bs|]; [|by eexists]. case_decide; [by eexists|]. apply Hh.
Qed.

(** ** The scanner reads back what a linker wrote

    A minimal 64-bit image: the DOS header, the PE header with its optional
    header, one section header, and the section with the import descriptors, a
    descriptor of zeros and the names in slots of 128 bytes. *)
Definition BASE : Z := 0x1000.
Definition vsize (n : nat) : Z := 20 * (Z.of_nat n + 1) + 128 * Z.of_nat n.
Definition name_rva (n i : nat) : Z := BASE + 20 * (Z.of_nat n + 1) + 128 * Z.of_nat i.
Definition image_header (m size : Z) : list Z :=
  [0x4D; 0x5A] ++ replicate 58 0 ++ le_bytes 4 64
  ++ [0x50; 0x45; 0; 0] ++ le_bytes 2 m ++ le_bytes 2 1 ++ replicate 12 0 ++ le_bytes 2 240 ++ replicate 2 0
  ++ le_bytes 2 0x20B ++ replicate 118 0 ++ le_bytes 4 BASE ++ replicate 116 0
  ++ replicate 8 0 ++ le_bytes 4 size ++ le_bytes 4 BASE ++ replicate 4 0 ++ le_bytes 4 368 ++ replicate 16 0.
Definition descriptor (n i : nat) : list Z := replicate 12 0 ++ le_bytes 4 (name_rva n i) ++ replicate 4 0.
Definition name_slot (name : str) : list Z := name ++ replicate (128 - length name) 0.
Definition pe_image (m : Z) (names : list str) : list Z :=
  let n := length names in
  image_header m (vsize n) ++ concat (map (descriptor n) (seq 0 n)) ++ replicate 20 0 ++ concat (map name_slot names).

(** Lowercase ASCII names that fit their slot. *)
Definition name_ok (name : str) : Prop := Forall (fun c => 0 < c < 0x80 /\ lower_ascii c = c) name /\ (length name <= 128)%nat.
#[export] Instance name_ok_dec name : Decision (name_ok name).
Proof. unfold name_ok. apply _. Defined.

Lemma take_drop_concat {A} (ls : list (list A)) w k x rest :
  Forall (fun l => length l = w) ls -> ls !! k = Some x -> take w (drop (w * k) (concat ls ++ rest)) = x.
Proof.
  intros Hw. revert k; induction Hw as [|l ls Hl _ IH]; intros k; [done|]. destruct k as [|k]; cbn [lookup list_lookup concat].
  - intros [= ->]. rewrite Nat.mul_0_r, drop_0, <- app_assoc. rewrite <- Hl. by rewrite take_app_length.
  - intros Hx. rewrite <- app_assoc. replace (w * S k)%nat with (length l + w * k)%nat by lia.
    rewrite drop_app_add. by apply IH.
Qed.

Lemma length_concat_const {A} (ls : list (list A)) w : Forall (fun l => length l = w) ls -> length (concat ls) = (w * length ls)%nat.
Proof. induction 1 as [|l ls Hl _ IH]; [cbn; lia|]. cbn. rewrite length_app, Hl, IH. lia. Qed.

Lemma descriptors_const n : Forall (fun l => length l = 20%nat) (map (descriptor n) (seq 0 n)).
Proof. apply Forall_map, Forall_forall. intros i _. done. Qed.

Lemma slots_const names : Forall name_ok names -> Forall (fun l => length l = 128%nat) (map name_slot names).
Proof. intros Hn. apply Forall_map. apply (Forall_impl _ _ _ Hn). intros x [_ Hx]. cbn. unfold name_slot. rewrite length_app, length_replicate. lia. Qed.

Section Image.
Context (m : Z) (names : list str) (Hnames : Forall name_ok names).
Local Notation n := (length names).
Local Notation img := (pe_image m names).

(** A read behind the headers. *)
Lemma drop_section p : 0 <= p ->
  drop (Z.to_nat (368 + p)) img = drop (Z.to_nat p) (concat (map (descriptor n) (seq 0 n)) ++ replicate 20 0 ++ concat (map name_slot names)).
Proof.
  intros Hp. unfold pe_image. replace (Z.to_nat (368 + p)) with (length (image_header m (vsize n)) + Z.to_nat p)%nat.
  - apply drop_app_add.
  - change (length (image_header m (vsize n))) with 368%nat. lia.
Qed.

Lemma read_descriptor k : (k < n)%nat -> file_pread img 20 (368 + Z.of_nat k * 20) = Some (descriptor n k).
Proof.
  intros Hk. unfold file_pread. rewrite drop_section by lia. replace (Z.to_nat (Z.of_nat k * 20)) with (20 * k)%nat by lia.
  f_equal. apply take_drop_concat; [apply descriptors_const|]. change map with (@fmap list list_fmap).
  rewrite list_lookup_fmap, lookup_seq_lt by done. done.
Qed.

Lemma read_terminator : file_pread img 20 (368 + Z.of_nat n * 20) = Some (replicate 20 0).
Proof.
  unfold file_pread. rewrite drop_section by lia.
  replace (Z.to_nat (Z.of_nat n * 20)) with (length (concat (map (descriptor n) (seq 0 n)))).
  - by rewrite drop_app_length.
  - rewrite (length_concat_const _ 20) by apply descriptors_const. rewrite length_map, length_seq. lia.
Qed.

Lemma read_slot k name : names !! k = Some name ->
  file_pread img 128 (368 + (20 * (Z.of_nat n + 1) + 128 * Z.of_nat k)) = Some (name_slot name).
Proof.
  intros Hk. unfold file_pread. rewrite drop_section by lia. rewrite app_assoc.
  set (tbl := concat (map (descriptor n) (seq 0 n)) ++ replicate 20 0).
  replace (Z.to_nat (20 * (Z.of_nat n + 1) + 128 * Z.of_nat k)) with (length tbl + 128 * k)%nat.
  - rewrite drop_app_add. f_equal. rewrite <- (app_nil_r (concat _)). apply take_drop_concat; [by apply slots_const|].
    change map with (@fmap list list_fmap). by rewrite list_lookup_fmap, Hk.
  - unfold tbl. rewrite length_app, (length_concat_const _ 20), length_map, length_seq, length_replicate by apply descriptors_const. lia.
Qed.
End Image.

Lemma from_utf8_ascii bs : Forall is_ascii bs -> from_utf8 bs = Some bs.
Proof.
  intros Hb. unfold from_utf8. rewrite utf8_ascii by done. rewrite decide_True; [done|].
  induction Hb as [|c bs Hc _ IH]; [done|]. cbn. rewrite IH. unfold encode_utf8_char. unfold is_ascii in Hc. by rewrite decide_True by lia.
Qed.

Lemma until_zero_slot name n : Forall (fun c => 0 < c < 0x80 /\ lower_ascii c = c) name -> (length name <= n)%nat -> n = 128%nat ->
  until_zero n (name_slot name) = name.
Proof.
  intros Hn Hl ->. unfold until_zero, name_slot.
  destruct (decide (length name = 128%nat)) as [He|Hne].
  - rewrite He. cbn [Nat.sub replicate]. rewrite app_nil_r.
    rewrite (proj2 (list_find_None (fun b => b = 0) name)); [by rewrite take_ge by lia|].
    apply (Forall_impl _ _ _ Hn). lia.
  - rewrite (proj2 (list_find_Some (fun b => b = 0) _ (length name) 0)); [by rewrite take_app_length|].
    split; [|split; [done|]].
    + rewrite lookup_app_r by lia. rewrite Nat.sub_diag. apply lookup_replicate. lia.
    + intros j y Hy Hj ->. rewrite lookup_app_l in Hy by done. rewrite Forall_lookup in Hn. specialize (Hn j 0 Hy). lia.
Qed.

Lemma read_name_slot pread off name :
  name_ok name -> pread 128%nat off = Some (name_slot name) -> read_name pread off = Some name.
Proof.
  intros [Hn Hl] Hp. unfold read_name. rewrite Hp.
  assert (length (name_slot name) = 128%nat) as Hlen by (unfold name_slot; rewrite length_app, length_replicate; lia).
  destruct (name_slot name) as [|b bs] eqn:Hs; [done|]. rewrite <- Hs.
  assert (filled 128 (name_slot name) = name_slot name) as -> by (unfold filled; rewrite Hs, Hlen, Nat.sub_diag; apply app_nil_r).
  change (S (length bs)) with (length (b :: bs)). rewrite Hlen, until_zero_slot by done.
  assert (Forall is_ascii name) as Ha by (apply (Forall_impl _ _ _ Hn); unfold is_ascii; lia).
  rewrite from_utf8_ascii by done. cbn. rewrite lowercase_ascii by done. f_equal.
  clear -Hn. induction Hn as [|c name Hc _ IH]; [done|]. cbn. by rewrite IH, (proj2 Hc).
Qed.

Definition image_sections (size : Z) : list Z := drop 328 (image_header 0 size).

Lemma rva_in_image size p : 0 <= p < size -> size < 2 ^ 31 -> rva_to_offset (image_sections size) 1 (BASE + p) = Some (368 + p).
Proof.
  intros Hp Hs. cbn [rva_to_offset].
  change (get32 (take 40 (image_sections size)) 12) with BASE. change (get32 (take 40 (image_sections size)) 20) with 368.
  change (get32 (take 40 (image_sections size)) 8) with (from_le (le_bytes 4 size)). rewrite from_le_u32 by (unfold in_u32; lia).
  unfold BASE.
  rewrite (u32_small (4096 + size)) by (unfold in_u32; lia). rewrite decide_True by lia.
  rewrite (u32_small (4096 + p - 4096)) by (unfold in_u32; lia). rewrite u32_small by (unfold in_u32; lia). f_equal. lia.
Qed.

Lemma import_loop_image m names fuel k :
  Forall name_ok names -> (length names <= 1001)%nat -> (k <= length names)%nat -> (k <= 1000)%nat -> (1001 <= k + fuel)%nat ->
  import_loop (file_pread (pe_image m names)) (image_sections (vsize (length names))) 1 368 fuel (Z.of_nat k) (take k names) = Ret names.
Proof.
  intros Hok Hlen. revert k; induction fuel as [|fuel IH]; intros k Hk Hk1 Hf; [lia|]. cbn [import_loop].
  destruct (decide (k = length names)) as [->|Hne].
  { rewrite read_terminator. rewrite decide_False by (intros Hx; by apply Hx). rewrite decide_True by (by apply Forall_replicate).
    by rewrite take_ge by lia. }
  assert (k < length names)%nat as Hlt by lia. rewrite read_descriptor by done.
  destruct (lookup_lt_is_Some_2 names k Hlt) as [name Hname].
  rewrite decide_False by (intros Hx; by apply Hx). rewrite decide_False.
  2:{ intros Hz. assert (from_le (get_bytes 12 4 (descriptor (length names) k)) = 0) as H0.
      { unfold get_bytes, slice. apply (Forall_drop _ 12), (Forall_take _ 4) in Hz.
        change (Z.to_nat 12) with 12%nat. change (Z.to_nat 4) with 4%nat. revert Hz. generalize (take 4 (drop 12 (descriptor (length names) k))).
        intros l Hz. induction Hz as [|x l -> _ IHz]; [done|]. cbn. by rewrite IHz. }
      change (get_bytes 12 4 (descriptor (length names) k)) with (le_bytes 4 (name_rva (length names) k)) in H0.
      rewrite from_le_u32 in H0; unfold name_rva, BASE in *; [lia|unfold in_u32; lia]. }
  assert (push_name (file_pread (pe_image m names)) (image_sections (vsize (length names))) 1 (descriptor (length names) k) (take k names) =
          take (S k) names) as ->.
  { unfold push_name. change (get32 (descriptor (length names) k) 12) with (from_le (le_bytes 4 (name_rva (length names) k))).
    rewrite from_le_u32 by (unfold name_rva, BASE, in_u32; lia). unfold name_rva. rewrite <- Z.add_assoc.
    rewrite rva_in_image by (unfold vsize; lia). cbn [mbind option_bind].
    rewrite (read_name_slot _ _ name); [by rewrite (take_S_r _ _ _ Hname)|by eapply Forall_lookup_1|by apply read_slot]. }
  replace (Z.of_nat k + 1) with (Z.of_nat (S k)) by lia. case_decide as Hlim.
  - by rewrite take_ge by lia.
  - apply IH; lia.
Qed.

(** The scanner finds exactly the imports of an executable.  For a
    well-formed image that imports any list of at most 1001 libraries, the scan
    reports the machine of the header and the libraries in order, and classifies
    them. *)
Theorem scan_pe_roundtrip m names :
  in_u16 m -> Forall name_ok names -> (length names <= 1001)%nat ->
  scan_pe (file_pread (pe_image m names)) = Ret (Some (scan_result m names)).
Proof.
  intros Hm Hok Hlen. set (img := pe_image m names). set (hd := image_header m (vsize (length names))).
  assert (forall a b, (a + b <= 368)%nat -> take b (drop a img) = take b (drop a hd)) as Hread.
  { intros a b Hab. unfold img, pe_image. fold hd. rewrite drop_app_le by (change (length hd) with 368%nat; lia).
    rewrite take_app_le; [done|]. rewrite length_drop. change (length hd) with 368%nat. lia. }
  unfold scan_pe. unfold file_pread at 1. rewrite (Hread (Z.to_nat 0) 64%nat) by lia.
  change (take 64 (drop (Z.to_nat 0) hd)) with ([0x4D; 0x5A] ++ replicate 58 0 ++ le_bytes 4 64).
  rewrite decide_False by (vm_compute; intros [Hx|[Hx|Hx]]; by apply Hx).
  change (get32 ([0x4D; 0x5A] ++ replicate 58 0 ++ le_bytes 4 64) 60) with 64.
  unfold file_pread at 1. rewrite (Hread (Z.to_nat 64) 256%nat) by lia. change (Z.to_nat 64) with 64%nat.
  set (buf := take 256 (drop 64 hd)). change (length buf) with 256%nat.
  assert (filled 256 buf = buf) as -> by (unfold filled; change (length buf) with 256%nat; apply app_nil_r).
  change (get8 buf 0) with 0x50. change (get8 buf 1) with 0x45. change (get8 buf 2) with 0. change (get8 buf 3) with 0.
  rewrite decide_False by (intros [Hx|[Hx|[Hx|[Hx|Hx]]]]; [lia|by apply Hx..]).
  unfold scan_header. cbn zeta. change (get16 buf 4) with (from_le (le_bytes 2 m)). rewrite from_le_u16 by done.
  change (get16 buf 6) with 1. change (get16 buf 20) with 240. change (get16 buf 24) with 0x20B.
  change (get32 buf (if decide (523 = 523) then 24 + 120 else 24 + 104)) with BASE. rewrite decide_False by done. unfold read_sections, file_pread at 1.
  rewrite (Hread (Z.to_nat (64 + 24 + 240)) (Z.to_nat 1 * 40)%nat) by (vm_compute; lia).
  change (take (Z.to_nat 1 * 40) (drop (Z.to_nat (64 + 24 + 240)) hd)) with (image_sections (vsize (length names))).
  change (length (image_sections (vsize (length names)))) with 40%nat. rewrite decide_False by (vm_compute; lia).
  change (filled (Z.to_nat 1 * 40) (image_sections (vsize (length names)))) with (image_sections (vsize (length names)) ++ []). rewrite app_nil_r.
  unfold scan_imports. change (Z.to_nat 1) with 1%nat. replace BASE with (BASE + 0) by done.
  rewrite rva_in_image by (unfold vsize; lia). change (368 + 0) with 368.
  pose proof (import_loop_image m names 1001 0 Hok Hlen ltac:(lia) ltac:(lia) ltac:(lia)) as Hl. rewrite take_0 in Hl.
  change (Z.of_nat 0) with 0 in Hl. fold img in Hl. by rewrite Hl.
Qed.
End ScanTheorems.
End Pe.

Module PeDemo.
Import Text Pe.
Local Notation lit := Registry.lit.
#[local] Existing Instance ascii_only_lowercase.

Definition names : list str := map lit ["kernel32.dll"; "d3d11.dll"; "xinput1_3.dll"]%string.

Lemma scan_pe_roundtrip_witness :
  exists r, scan_pe (file_pread (pe_image 0x8664 names)) = Ret (Some r) /\ render_api r = DirectX11 /\ needs_xinput r = true /\
    needs_steam_api r = false.
Proof.
  exists (scan_result 0x8664 names). split_and!; [|vm_compute; reflexivity..].
  apply (scan_pe_roundtrip 0x8664 names); [unfold in_u16; lia| |cbn; lia].
  apply (bool_decide_unpack _). vm_compute. exact I.
Defined.

(** An image whose only section is a read-only import section. *)
Definition readonly_image : list Z := put_bytes 328 (lit ".idata") (put32 (328 + 36) 0x40000040 (pe_image 0x8664 [])).
Lemma patch_pe_exact_witness :
  Forall in_u8 readonly_image /\ sections readonly_image = [328] /\ readonly_idata readonly_image 328 /\
  exists file', patch_pe readonly_image = Ret (true, file') /\ ~ readonly_idata file' 328.
Proof.
  assert (Forall in_u8 readonly_image) as Hf by (apply (bool_decide_unpack _); vm_compute; exact I).
  assert (sections readonly_image = [328]) as Hs by (vm_compute; reflexivity).
  assert (readonly_idata readonly_image 328) as Hr by (split; vm_compute; reflexivity).
  split_and!; [done..|]. destruct (patch_pe_exact readonly_image Hf) as (b & file' & Hp & _ & Hb). exists file'. destruct b.
  - split; [exact Hp|]. destruct Hb as (s & Hin & _ & Hn & _). rewrite Hs in Hin. apply list_elem_of_singleton in Hin as ->. exact Hn.
  - exfalso. destruct Hb as [_ Hn]. apply (Hn 328); [rewrite Hs; by apply list_elem_of_singleton|exact Hr].
Defined.

(** A failed read of the section table is not noticed: the executable is reported
    to have no imports. *)
Definition failing (file : list Z) (n : nat) (off : Z) : option (list Z) :=
  if decide (off = 328) then None else file_pread file n off.
Lemma failed_section_read_reports_no_imports :
  scan_pe (failing (pe_image 0x8664 names)) = Ret (Some (scan_result 0x8664 [])) /\ classify names = DirectX11.
Proof. split; vm_compute; reflexivity. Qed.
End PeDemo.
