(* ===== verification/WinTree.v ===== *)
(** * The window tree ([src/rust/src/triskelion/event_loop/window.rs])

    Windows are kept in one map from handle to state, each with the handle of its
    parent.  This file has the walks over that map: down to all descendants, to
    the window under a point, up to the window that owns the drawing surface, and
    up the chain of parents, with what they compute on a forest.  The first three
    have no bound in the source; they take fuel here, and [None] means that the
    walk goes on beyond it. *)

From stdpp Require Import base list gmap.
From coqutil Require Import Datatypes.RecordSettersUsingExistingGetters.
From S2P Require Import Prelude Loop.
Local Open Scope Z_scope.

Module WinTree.
Import Loop.

Notation windows := (gmap Z WindowState).
Implicit Types (ws : windows) (w : WindowState) (h p : Z).

(** ** Walks *)

(** The windows below one, in the order of the map. *)
Definition children ws p : list Z :=
  fst <$> filter (fun kw => parent kw.2 = p /\ kw.1 <> p) (map_to_list ws).

Fixpoint collect_window_children (fuel : nat) ws p : option (list Z) :=
  match fuel with
  | O => None
  | S fuel => mjoin <$> mapM (fun h => cons h <$> collect_window_children fuel ws h) (children ws p)
  end.

Definition PAINT_HAS_SURFACE : Z := 0x01.

(** A bit test, [x & m != 0]. *)
Definition has (x m : Z) : bool := bool_decide (Z.land x m <> 0).

Fixpoint get_top_clipping_window (fuel : nat) ws (desktop_top_window h : Z) : option Z :=
  match fuel with
  | O => None
  | S fuel =>
      match ws !! h with
      | None => Some h
      | Some w =>
          if has (paint_flags w) PAINT_HAS_SURFACE then Some h
          else if decide (parent w = 0 \/ parent w = desktop_top_window) then Some h
          else get_top_clipping_window fuel ws desktop_top_window (parent w)
      end
  end.

(** [for _ in 0..64], with [current] the window reached. *)
Fixpoint parents_up (n : nat) ws h : list Z :=
  match n with
  | O => []
  | S n =>
      match ws !! h with
      | Some w => if decide (parent w <> 0) then parent w :: parents_up n ws (parent w) else []
      | None => []
      end
  end.
Definition get_window_parents ws h : list Z := parents_up 64 ws h.

(** A coordinate of a rectangle, [i32::from_le_bytes] of four bytes. *)
Definition coord (rect : list Z) (i : nat) : Z := i32 (from_le (slice i 4 rect)).

Definition contains (rect : list Z) (x y : Z) : Prop :=
  coord rect 0 <= x < coord rect 8 /\ coord rect 4 <= y < coord rect 12.
#[export] Instance contains_dec rect x y : Decision (contains rect x y).
Proof. unfold contains. apply _. Defined.

(** The first child with the point inside, then its children, with the point
    relative to its client area. *)
Fixpoint child_from_point (fuel : nat) ws p (x y : Z) : option (list Z) :=
  match fuel with
  | O => None
  | S fuel =>
      match head (filter (fun kw => (parent kw.2 = p /\ kw.1 <> p) /\ contains (window_rect kw.2) x y) (map_to_list ws)) with
      | None => Some []
      | Some (h, w) =>
          cons h <$> child_from_point fuel ws h (i32 (x - coord (client_rect w) 0)) (i32 (y - coord (client_rect w) 4))
      end
  end.

(** ** Lists and closures *)
Lemma Forall2_elem_of_l {A B} (P : A -> B -> Prop) l k x : Forall2 P l k -> x ∈ l -> exists y, y ∈ k /\ P x y.
Proof. intros Hf (i & Hi)%list_elem_of_lookup. destruct (Forall2_lookup_l _ _ _ _ _ Hf Hi) as (y & Hy & HP). eauto using list_elem_of_lookup_2. Qed.
Lemma Forall2_elem_of_r {A B} (P : A -> B -> Prop) l k y : Forall2 P l k -> y ∈ k -> exists x, x ∈ l /\ P x y.
Proof. intros Hf (i & Hi)%list_elem_of_lookup. destruct (Forall2_lookup_r _ _ _ _ _ Hf Hi) as (x & Hx & HP). eauto using list_elem_of_lookup_2. Qed.
Lemma tc_last {A} (R : relation A) x z : tc R x z -> R x z \/ exists y, tc R x y /\ R y z.
Proof. induction 1 as [x y Hxy|x y z Hxy Hyz [IH|(u & H1 & H2)]]; [by left| |]; right; eauto using tc_once, tc_l. Qed.

(** ** Forests *)
Definition child ws p h : Prop := exists w, ws !! h = Some w /\ parent w = p.

(** No window is its own ancestor, every parent is a window or 0, and 0 is not a
    window. *)
Record forest ws : Prop := {
  acyclic : forall h, ~ tc (child ws) h h;
  closed : forall h w, ws !! h = Some w -> parent w = 0 \/ is_Some (ws !! parent w);
  no_zero : ws !! 0 = None;
}.

Lemma child_window ws p h : child ws p h -> is_Some (ws !! h).
Proof. intros (w & -> & _). eauto. Qed.
Lemma tc_window ws p h : tc (child ws) p h -> is_Some (ws !! h).
Proof. induction 1; eauto using child_window. Qed.
Lemma child_unique ws p q h : child ws p h -> child ws q h -> p = q.
Proof. intros (w & Hw & <-) (w' & Hw' & <-). congruence. Qed.

Lemma elem_of_children ws p h : h ∈ children ws p <-> child ws p h /\ h <> p.
Proof.
  unfold children. rewrite list_elem_of_fmap. setoid_rewrite list_elem_of_filter. split.
  - intros ([h' w] & -> & [Hp Hne] & Hin). cbn in *. rewrite elem_of_map_to_list in Hin. split; [by exists w|done].
  - intros [(w & Hw & Hp) Hne]. exists (h, w). by rewrite elem_of_map_to_list.
Qed.
Lemma NoDup_children ws p : NoDup (children ws p).
Proof.
  unfold children. apply (sublist_NoDup _ (map_to_list ws).*1); [apply NoDup_fst_map_to_list|].
  apply fmap_sublist, sublist_filter.
Qed.

(** *** Visited windows

    A walk along parent links visits no window twice, so the number of windows
    bounds its length. *)
Lemma fuel_left ws (X : gset Z) (n : nat) : X ⊆ dom ws -> (size ws < size X + n)%nat -> exists m, n = S m.
Proof.
  intros HX Hn. destruct n as [|m]; [|eauto]. apply subseteq_size in HX. rewrite size_dom in HX. lia.
Qed.
Lemma fuel_step ws (X : gset Z) h (m : nat) : h ∉ X -> (size ws < size X + S m)%nat -> (size ws < size (X ∪ {[h]}) + m)%nat.
Proof. intros Hh Hn. rewrite size_union, size_singleton by set_solver. lia. Qed.

(** ** Termination *)
Lemma collect_terminates ws : (forall h, ~ tc (child ws) h h) -> forall n (X : gset Z) p,
  X ⊆ dom ws -> (forall x, x ∈ X -> rtc (child ws) x p) -> (size ws < size X + n)%nat ->
  is_Some (collect_window_children n ws p).
Proof.
  intros Hac n. induction n as [|n IH]; intros X p HX Hr Hn.
  { destruct (fuel_left _ _ _ HX Hn) as [m ?]. lia. }
  cbn [collect_window_children]. apply fmap_is_Some, mapM_is_Some_2, Forall_forall.
  intros h [Hc Hne]%elem_of_children. apply fmap_is_Some. apply (IH (X ∪ {[h]})).
  - apply child_window in Hc. apply elem_of_dom in Hc. set_solver.
  - intros x [Hx| ->%elem_of_singleton]%elem_of_union; [|done]. eapply rtc_r; [by apply Hr|done].
  - apply fuel_step; [|done]. intros Hx. apply (Hac h). eapply tc_rtc_l; [by apply Hr|by apply tc_once].
Qed.

Lemma top_terminates ws top : (forall h, ~ tc (child ws) h h) -> forall n (X : gset Z) h,
  X ⊆ dom ws -> (forall x, x ∈ X -> tc (child ws) h x) -> (size ws < size X + n)%nat ->
  is_Some (get_top_clipping_window n ws top h).
Proof.
  intros Hac n. induction n as [|n IH]; intros X h HX Hr Hn.
  { destruct (fuel_left _ _ _ HX Hn) as [m ?]. lia. }
  cbn [get_top_clipping_window]. destruct (ws !! h) as [w|] eqn:Hw; [|eauto].
  destruct (has _ _); [eauto|]. case_decide; [eauto|].
  assert (child ws (parent w) h) as Hc by (exists w; eauto). apply (IH (X ∪ {[h]})).
  - apply elem_of_dom_2 in Hw. set_solver.
  - intros x [Hx| ->%elem_of_singleton]%elem_of_union; [|by apply tc_once]. eapply tc_l; [done|by apply Hr].
  - apply fuel_step; [|done]. intros Hx. by apply (Hac h), Hr.
Qed.

Lemma point_terminates ws : (forall h, ~ tc (child ws) h h) -> forall n (X : gset Z) p x y,
  X ⊆ dom ws -> (forall x, x ∈ X -> rtc (child ws) x p) -> (size ws < size X + n)%nat ->
  is_Some (child_from_point n ws p x y).
Proof.
  intros Hac n. induction n as [|n IH]; intros X p x y HX Hr Hn.
  { destruct (fuel_left _ _ _ HX Hn) as [m ?]. lia. }
  cbn [child_from_point]. destruct (head _) as [[h w]|] eqn:Hh; [|eauto]. apply fmap_is_Some.
  apply head_Some_elem_of, list_elem_of_filter in Hh as [[[Hp Hne] _] Hin]. cbn in *. rewrite elem_of_map_to_list in Hin.
  assert (child ws p h) as Hc by (exists w; eauto). apply (IH (X ∪ {[h]})).
  - apply elem_of_dom_2 in Hin. set_solver.
  - intros z [Hz| ->%elem_of_singleton]%elem_of_union; [|done]. eapply rtc_r; [by apply Hr|done].
  - apply fuel_step; [|done]. intros Hz. apply (Hac h). eapply tc_rtc_l; [by apply Hr|by apply tc_once].
Qed.

(** One unit of fuel more than there are windows is enough for every walk. *)
Definition enough ws : nat := S (size ws).

Lemma collect_enough ws p : forest ws -> is_Some (collect_window_children (enough ws) ws p).
Proof. intros Hf. apply (collect_terminates ws (acyclic _ Hf) _ ∅); [set_solver|set_solver|]. unfold enough. lia. Qed.
Lemma top_enough ws top h : forest ws -> is_Some (get_top_clipping_window (enough ws) ws top h).
Proof. intros Hf. apply (top_terminates ws top (acyclic _ Hf) _ ∅); [set_solver|set_solver|]. unfold enough. lia. Qed.
Lemma point_enough ws p x y : forest ws -> is_Some (child_from_point (enough ws) ws p x y).
Proof. intros Hf. apply (point_terminates ws (acyclic _ Hf) _ ∅); [set_solver|set_solver|]. unfold enough. lia. Qed.

(** ** What the walks return *)
Lemma collect_elem ws : (forall h, ~ tc (child ws) h h) -> forall n p l h,
  collect_window_children n ws p = Some l -> h ∈ l <-> tc (child ws) p h.
Proof.
  intros Hac n. induction n as [|n IH]; intros p l h; [done|]. cbn [collect_window_children].
  intros (ls & Hm & ->)%fmap_Some. apply mapM_Some in Hm. rewrite list_elem_of_join. split.
  - intros (l & Hh & Hl). destruct (Forall2_elem_of_r _ _ _ _ Hm Hl) as (k & Hk & Hc).
    apply elem_of_children in Hk as [Hk _]. apply fmap_Some in Hc as (l' & Hc & ->).
    apply elem_of_cons in Hh as [->|Hh]; [by apply tc_once|]. eapply tc_l; [done|]. by apply (IH k l').
  - intros Ht. assert (exists k, child ws p k /\ (h = k \/ tc (child ws) k h)) as (k & Hk & Hh).
    { destruct Ht as [p k Hk|p k h Hk Ht]; eauto. }
    assert (k <> p) as Hne. { intros ->. by apply (Hac p), tc_once. }
    assert (k ∈ children ws p) as Hin by by apply elem_of_children.
    destruct (Forall2_elem_of_l _ _ _ _ Hm Hin) as (l & Hl & Hc). exists l. split; [|done].
    apply fmap_Some in Hc as (l' & Hc & ->). apply elem_of_cons. destruct Hh as [->|Hh]; [by left|right]. by apply (IH k l').
Qed.

Lemma rtc_linear ws a b h : rtc (child ws) a h -> rtc (child ws) b h -> rtc (child ws) a b \/ rtc (child ws) b a.
Proof.
  intros Ha. revert b. revert h Ha.
  apply (rtc_ind_r (fun h => forall b, rtc (child ws) b h -> _)); [by right|]. intros y x Ha Hy IH b Hb.
  apply rtc_inv_r in Hb as [->|(y' & Hb & Hy')]; [left; by eapply rtc_r|].
  rewrite (child_unique _ _ _ _ Hy' Hy) in Hb. by apply IH.
Qed.

(** Two children of one window have no descendant in common. *)
Lemma children_apart ws p a b h : (forall h, ~ tc (child ws) h h) ->
  child ws p a -> child ws p b -> rtc (child ws) a h -> rtc (child ws) b h -> a = b.
Proof.
  intros Hac Ha Hb Hah Hbh. assert (forall a b, child ws p a -> child ws p b -> rtc (child ws) a b -> a = b) as Hx.
  { clear a b Ha Hb Hah Hbh. intros a b Ha Hb [->|(y & Hr & Hy)]%rtc_inv_r; [done|]. exfalso.
    rewrite (child_unique _ _ _ _ Hy Hb) in Hr. apply (Hac a). eapply tc_rtc_l; [done|]. by apply tc_once. }
  destruct (rtc_linear _ _ _ _ Hah Hbh); [|symmetry]; eauto.
Qed.

Lemma NoDup_mjoin_keys {A B} (R : A -> B -> Prop) (ks : list A) (ls : list (list B)) :
  Forall2 (fun k l => NoDup l /\ forall x, x ∈ l -> R k x) ks ls -> NoDup ks ->
  (forall a b x, a ∈ ks -> b ∈ ks -> R a x -> R b x -> a = b) -> NoDup (mjoin ls).
Proof.
  induction 1 as [|k l ks ls [Hl HR] Hall IH]; intros Hnd Hx; cbn; [constructor|].
  apply NoDup_cons in Hnd as [Hk Hnd]. apply NoDup_app. split; [done|]. split.
  - intros x Hin (l' & Hx' & Hl')%list_elem_of_join. destruct (Forall2_elem_of_r _ _ _ _ Hall Hl') as (k' & Hk' & [_ HR']).
    apply Hk. rewrite (Hx k k' x); [done|by left|by right|by apply HR|by apply HR'].
  - apply IH; [done|]. intros a b x Ha Hb. apply Hx; by right.
Qed.

Lemma collect_NoDup ws : (forall h, ~ tc (child ws) h h) -> forall n p l,
  collect_window_children n ws p = Some l -> NoDup l.
Proof.
  intros Hac n. induction n as [|n IH]; intros p l; [done|]. cbn [collect_window_children].
  intros (ls & Hm & ->)%fmap_Some. apply mapM_Some in Hm.
  apply (NoDup_mjoin_keys (rtc (child ws)) (children ws p)); [|apply NoDup_children|].
  - eapply Forall2_impl; [exact Hm|]. intros k l' (l & Hc & ->)%fmap_Some.
    pose proof (collect_elem ws Hac n k l) as He. split.
    + apply NoDup_cons. split; [|by eapply IH]. intros Hk. apply (Hac k). by apply (He k Hc).
    + intros x [->|Hx]%elem_of_cons; [done|]. apply tc_rtc. by apply (He x Hc).
  - intros a b x [Ha _]%elem_of_children [Hb _]%elem_of_children. by apply (children_apart ws p).
Qed.

(** The chain of parents of a forest of at most [n] windows. *)
Lemma parents_sound ws p n : forall h, p ∈ parents_up n ws h -> tc (child ws) p h /\ p <> 0.
Proof.
  induction n as [|n IH]; intros h; cbn [parents_up]; [by intros ?%elem_of_nil|].
  destruct (ws !! h) as [w|] eqn:Hw; [|by intros ?%elem_of_nil]. case_decide as Hz; [|by intros ?%elem_of_nil].
  assert (child ws (parent w) h) as Hc by (exists w; eauto).
  intros [->|[Ht Hp]%IH]%elem_of_cons; [split; [by apply tc_once|done]|]. split; [by eapply tc_r|done].
Qed.
Lemma parents_complete ws p : forest ws -> p <> 0 -> forall n (X : gset Z) h,
  X ⊆ dom ws -> (forall x, x ∈ X -> tc (child ws) h x) -> (size ws <= size X + n)%nat ->
  tc (child ws) p h -> p ∈ parents_up n ws h.
Proof.
  intros Hf Hp n. induction n as [|n IH]; intros X h HX Hr Hn Ht.
  { exfalso. destruct (fuel_left ws (X ∪ {[h]}) 0) as [m ?]; [| |lia].
    - apply tc_window, elem_of_dom in Ht. set_solver.
    - apply fuel_step; [|lia]. intros Hh. by apply (acyclic _ Hf h), Hr. }
  cbn [parents_up]. destruct (tc_window _ _ _ Ht) as [w Hw]. rewrite Hw.
  assert (child ws (parent w) h) as Hc by (exists w; eauto).
  assert (p = parent w \/ tc (child ws) p (parent w)) as Hpw.
  { apply tc_last in Ht as [H1|(y & H1 & H2)]; [left|right]; [|rewrite <- (child_unique _ _ _ _ H2 Hc) in *; done].
    by apply (child_unique _ _ _ _ H1 Hc). }
  assert (parent w <> 0) as Hz.
  { intros Hz. rewrite Hz in Hpw. destruct Hpw as [->|Hpw]; [done|]. apply tc_window in Hpw. rewrite (no_zero _ Hf) in Hpw. by destruct Hpw. }
  rewrite decide_True by done. apply elem_of_cons. destruct Hpw as [->|Hpw]; [by left|right].
  apply (IH (X ∪ {[h]})); [| | |done].
  - apply elem_of_dom_2 in Hw. set_solver.
  - intros x [Hx| ->%elem_of_singleton]%elem_of_union; [|by apply tc_once]. eapply tc_l; [done|by apply Hr].
  - rewrite size_union, size_singleton; [lia|]. apply disjoint_singleton_r. intros Hx. by apply (acyclic _ Hf h), Hr.
Qed.

Lemma elem_of_parents ws p h : forest ws -> (size ws <= 64)%nat -> p <> 0 ->
  p ∈ get_window_parents ws h <-> tc (child ws) p h.
Proof.
  intros Hf Hs Hp. split; [by intros [? _]%parents_sound|]. intros Ht.
  apply (parents_complete ws p Hf Hp 64 ∅); [set_solver|set_solver| |done]. rewrite size_empty. lia.
Qed.

(** Where the upward walk stops. *)
Definition clips ws (top h : Z) : Prop :=
  forall w, ws !! h = Some w -> has (paint_flags w) PAINT_HAS_SURFACE = true \/ parent w = 0 \/ parent w = top.

Lemma top_spec ws top : (forall h, ~ tc (child ws) h h) -> forall n h t, get_top_clipping_window n ws top h = Some t ->
  rtc (child ws) t h /\ clips ws top t /\ forall x, rtc (child ws) x h -> tc (child ws) t x -> ~ clips ws top x.
Proof.
  intros Hac n. induction n as [|n IH]; intros h t; [done|]. cbn [get_top_clipping_window].
  assert (clips ws top h -> Some h = Some t ->
    rtc (child ws) t h /\ clips ws top t /\ forall x, rtc (child ws) x h -> tc (child ws) t x -> ~ clips ws top x) as Hstop.
  { intros Hh [= <-]. split_and!; [done|done|]. intros x Hx Ht. exfalso. apply (Hac h). by eapply tc_rtc_r. }
  destruct (ws !! h) as [w|] eqn:Hw.
  2: { apply Hstop. intros w. by rewrite Hw. }
  destruct (has (paint_flags w) PAINT_HAS_SURFACE) eqn:Hs.
  { apply Hstop. intros w' Hw'. assert (w' = w) as -> by congruence. by left. }
  case_decide as Hd.
  { apply Hstop. intros w' Hw'. assert (w' = w) as -> by congruence. by right. }
  assert (child ws (parent w) h) as Hc by (exists w; eauto).
  intros (H1 & H2 & H3)%IH. split_and!; [by eapply rtc_r|done|].
  intros x [->|(y & Hx & Hy)]%rtc_inv_r Ht.
  - intros [Hz|Hz]%(fun f => f w Hw); [congruence|done].
  - rewrite (child_unique _ _ _ _ Hy Hc) in Hx. by apply H3.
Qed.

(** ** Changes to the forest *)

(** The windows below [h] move to [p]. *)
Definition reparent h p ws : windows :=
  (fun w => if decide (parent w = h) then w <| parent := p |> else w) <$> ws.

Lemma acyclic_sub ws ws' : (forall a b, child ws' a b -> tc (child ws) a b) ->
  (forall h, ~ tc (child ws) h h) -> forall h, ~ tc (child ws') h h.
Proof.
  intros Hsub Hac. assert (forall a b, tc (child ws') a b -> tc (child ws) a b) as Htc.
  { induction 1 as [a b Hc|a b c Hc _ IH]; [by apply Hsub|]. eapply tc_transitive; [by apply Hsub|done]. }
  intros h Ht. by apply (Hac h), Htc.
Qed.

Lemma forest_empty : forest ∅.
Proof.
  constructor; [|by intros h w; rewrite lookup_empty|done].
  intros h [x Hx]%tc_window. by rewrite lookup_empty in Hx.
Qed.

(** A change that keeps every parent. *)
Lemma forest_same ws ws' : (forall h, parent <$> ws' !! h = parent <$> ws !! h) -> forest ws -> forest ws'.
Proof.
  intros He [H1 H2 H3]. assert (forall a b, child ws' a b -> child ws a b) as Hc.
  { intros a b (w & Hw & <-). specialize (He b). rewrite Hw in He. destruct (ws !! b) as [w'|] eqn:Hb; [|done].
    injection He as ->. by exists w'. }
  constructor.
  - apply (acyclic_sub ws); [|done]. intros. by apply tc_once, Hc.
  - intros h w Hw. pose proof (He h) as Hh. rewrite Hw in Hh. destruct (ws !! h) as [w'|] eqn:Hb; [|done]. injection Hh as ->.
    destruct (H2 h w' Hb) as [|[w2 Hp]]; [by left|right]. specialize (He (parent w')). rewrite Hp in He.
    destruct (ws' !! parent w'); [eauto|done].
  - specialize (He 0). rewrite H3 in He. by destruct (ws' !! 0).
Qed.
Lemma forest_alter f h ws : (forall w, parent (f w) = parent w) -> forest ws -> forest (alter f h ws).
Proof.
  intros Hf. apply forest_same. intros x. destruct (decide (x = h)) as [->|]; [|by rewrite lookup_alter_ne].
  rewrite lookup_alter_eq. destruct (ws !! h); [|done]. cbn. by rewrite Hf.
Qed.

Lemma forest_insert ws h w : forest ws -> ws !! h = None -> h <> 0 -> parent w = 0 \/ is_Some (ws !! parent w) ->
  forest (<[h := w]> ws).
Proof.
  intros [H1 H2 H3] Hh H0 Hp. set (ws' := <[h := w]> ws).
  assert (parent w <> h) as Hph. { intros E. rewrite E in Hp. destruct Hp as [?|[x Hx]]; [done|congruence]. }
  assert (forall a b, child ws' a b -> b <> h -> child ws a b) as Hold.
  { intros a b (w' & Hw & <-) Hb. unfold ws' in Hw. rewrite lookup_insert_ne in Hw by done. by exists w'. }
  assert (forall b, ~ child ws' h b) as Hleaf.
  { intros b Hc. destruct (decide (b = h)) as [->|Hb].
    - destruct Hc as (w' & Hw & Hx). unfold ws' in Hw. rewrite lookup_insert_eq in Hw. by injection Hw as <-.
    - destruct (Hold _ _ Hc Hb) as (w' & Hw & Hx). destruct (H2 _ _ Hw) as [?|[x Hy]]; [congruence|]. rewrite Hx in Hy. congruence. }
  assert (forall a b, tc (child ws') a b -> b <> h -> tc (child ws) a b) as Htc.
  { induction 1 as [a b Hc|a y b Hc Ht IH]; intros Hb; [by apply tc_once, Hold|].
    eapply tc_l; [apply Hold; [done|]|by apply IH]. intros ->. inversion Ht; eapply Hleaf; eassumption. }
  constructor.
  - intros x Hx. destruct (decide (x = h)) as [->|Hne]; [|by apply (H1 x), Htc].
    inversion Hx; eapply Hleaf; eassumption.
  - assert (forall p, is_Some (ws !! p) -> is_Some (ws' !! p)) as Hin.
    { intros p Hx. unfold ws'. destruct (decide (p = h)) as [->|]; [rewrite lookup_insert_eq; eauto|by rewrite lookup_insert_ne]. }
    intros x w'. unfold ws' at 1. intros [[<- <-]|[Hne Hw]]%lookup_insert_Some.
    + destruct Hp; eauto.
    + destruct (H2 _ _ Hw); eauto.
  - unfold ws'. by rewrite lookup_insert_ne.
Qed.

Lemma forest_destroy ws h p : forest ws -> p = default 0 (parent <$> ws !! h) -> forest (delete h (reparent h p ws)).
Proof.
  intros [H1 H2 H3] Hp. set (ws' := delete h (reparent h p ws)).
  assert (forall b w', ws' !! b = Some w' -> b <> h /\ exists w, ws !! b = Some w /\
    ((parent w = h /\ parent w' = p) \/ (parent w <> h /\ parent w' = parent w))) as Hl.
  { intros b w' Hw. unfold ws' in Hw. apply lookup_delete_Some in Hw as [Hne Hw]. split; [done|].
    unfold reparent in Hw. rewrite lookup_fmap in Hw. apply fmap_Some in Hw as (w & Hw & ->). exists w. split; [done|].
    case_decide; [left|right]; done. }
  assert (forall b, is_Some (ws !! b) -> b <> h -> is_Some (ws' !! b)) as Hin.
  { intros b [w Hw] Hb. unfold ws', reparent. rewrite lookup_delete_ne, lookup_fmap, Hw by done. cbn. eauto. }
  assert (ws' !! 0 = None) as H0. { unfold ws', reparent. destruct (decide (h = 0)) as [->|]; [by rewrite lookup_delete_eq|]. by rewrite lookup_delete_ne, lookup_fmap, H3. }
  assert (p <> 0 -> child ws p h) as Hph.
  { intros Hz. destruct (ws !! h) as [w|] eqn:Hw; cbn in Hp; [by exists w|congruence]. }
  constructor; [| |done].
  - assert (forall a b, tc (child ws') a b -> a <> 0 -> tc (child ws) a b) as Ht.
    { induction 1 as [a b Hc|a y b Hc Ht IH]; intros Ha.
      all: assert (forall b, child ws' a b -> tc (child ws) a b) as Hone.
      1,3: intros z (w' & Hw' & Hx); destruct (Hl _ _ Hw') as (_ & w & Hw & [[E1 E2]|[E1 E2]]);
           [assert (a = p) as -> by congruence; eapply tc_l; [by apply Hph|]; apply tc_once; by exists w|
            apply tc_once; exists w; split; congruence].
      - by apply Hone.
      - eapply tc_transitive; [by apply Hone|]. apply IH. intros ->. apply child_window in Hc. rewrite H0 in Hc. by destruct Hc. }
    intros x Hx. apply (H1 x), Ht; [done|]. intros ->. apply tc_window in Hx. rewrite H0 in Hx. by destruct Hx.
  - intros b w' Hw'. destruct (Hl _ _ Hw') as (Hb & w & Hw & [[E1 E2]|[E1 E2]]).
    + rewrite E2. destruct (decide (p = 0)) as [?|Hz]; [by left|right]. pose proof (Hph Hz) as Hc.
      destruct Hc as (wh & Hwh & Hx). destruct (H2 _ _ Hwh) as [?|Hs]; [congruence|]. rewrite Hx in Hs. apply Hin; [done|].
      intros ->. apply (H1 h), tc_once. by exists wh.
    + rewrite E2. destruct (H2 _ _ Hw); [by left|right]. by apply Hin.
Qed.

Lemma forest_set_parent ws h p : forest ws -> p = 0 \/ is_Some (ws !! p) -> p <> h -> ~ tc (child ws) h p ->
  forest (alter (fun w => w <| parent := p |>) h ws).
Proof.
  intros [H1 H2 H3] Hp Hne Hnd. set (ws' := alter _ h ws).
  assert (forall a b, child ws' a b -> (b = h /\ a = p) \/ child ws a b) as Hc.
  { intros a b (w' & Hw' & <-). unfold ws' in Hw'. destruct (decide (b = h)) as [->|Hb].
    - left. rewrite lookup_alter_eq in Hw'. apply fmap_Some in Hw' as (w & _ & ->). done.
    - right. rewrite lookup_alter_ne in Hw' by done. by exists w'. }
  assert (~ rtc (child ws) h p) as Hnr. { intros Hr. apply rtc_tc in Hr as [->|Hr]; done. }
  assert (forall a b, tc (child ws') a b -> tc (child ws) a b \/ (rtc (child ws) a p /\ rtc (child ws) h b)) as Ht.
  { induction 1 as [a b Hab|a y b Hay _ IH].
    - destruct (Hc _ _ Hab) as [[-> ->]|Hx]; [by right|left; by apply tc_once].
    - destruct (Hc _ _ Hay) as [[-> ->]|Hx], IH as [IH|[I1 I2]]; [|done| |].
      + right. split; [done|by apply tc_rtc].
      + left. by eapply tc_l.
      + right. split; [by eapply rtc_l|done]. }
  assert (forall x, is_Some (ws !! x) <-> is_Some (ws' !! x)) as Hs.
  { intros x. unfold ws'. by rewrite lookup_alter_is_Some. }
  constructor.
  - intros x [Hx|[I1 I2]]%Ht; [by apply (H1 x)|]. apply Hnr. by etrans.
  - intros b w' Hw'. rewrite <- Hs. unfold ws' in Hw'. destruct (decide (b = h)) as [->|Hb].
    + rewrite lookup_alter_eq in Hw'. apply fmap_Some in Hw' as (w & _ & ->). done.
    + rewrite lookup_alter_ne in Hw' by done. by apply (H2 b).
  - apply eq_None_not_Some. rewrite <- Hs, H3. by intros [].
Qed.

End WinTree.
