(* ===== verification/Windows.v ===== *)
(** * Windows, classes and properties ([src/rust/src/triskelion/event_loop/window.rs])

    The handlers that create, change, enumerate and paint windows, register
    classes and keep window properties.  The window tree is in [WinTree]; the
    handlers that walk it take its fuel, and [None] means that the walk has not
    ended within it.  The request and reply structs are the parameter
    [Protocol]. *)

From stdpp Require Import base list gmap strings.
From coqutil Require Import Datatypes.RecordSettersUsingExistingGetters.
From S2P Require Import Prelude Queue Shm Objects Dispatch Text Registry Atoms Loop Completion Session Client WinTree.
Local Open Scope Z_scope.
Local Open Scope outcome_scope.

Module Windows.
Import Replies Text Ntsync Ipc HandleTable ServerState Loop Completion Memory Seqlock Session WinTree.
Local Notation lit := Registry.lit.

(** ** Generated structs *)
Inductive window_reply : Type :=
| CreateClassReply (h : ReplyHeader) (locator : list Z) (atom : Z)
| CreateWindowReply (h : ReplyHeader) (handle parent owner extra class_ptr : Z)
| SetWindowOwnerReply (h : ReplyHeader) (full_owner prev_owner : Z)
| GetWindowInfoReply (h : ReplyHeader) (last_active is_unicode info : Z)
| SetWindowInfoReply (h : ReplyHeader) (old_info : Z)
| SetWindowPosReply (h : ReplyHeader) (new_style new_ex_style surface_win : Z)
| GetWindowRectanglesReply (h : ReplyHeader) (window client : list Z)
| GetWindowTextReply (h : ReplyHeader) (length : Z)
| GetWindowsOffsetReply (h : ReplyHeader) (x y mirror : Z)
| GetVisibleRegionReply (h : ReplyHeader) (top_win : Z) (top_rect win_rect : list Z) (paint_flags total_size : Z)
| GetDesktopWindowReply (h : ReplyHeader) (top_window msg_window : Z)
| SetParentReply (h : ReplyHeader) (old_parent full_parent : Z)
| GetWindowChildrenFromPointReply (h : ReplyHeader) (count : Z)
| GetWindowLayeredInfoReply (h : ReplyHeader) (color_key alpha flags : Z)
| GetWindowRegionReply (h : ReplyHeader) (visible_rect : list Z) (total_size : Z)
| GetWindowPropertyReply (h : ReplyHeader) (data : Z)
| RemoveWindowPropertyReply (h : ReplyHeader) (data : Z)
| GetWindowPropertiesReply (h : ReplyHeader) (total : Z)
| GetWindowTreeReply (h : ReplyHeader)
    (parent owner next_sibling prev_sibling first_sibling last_sibling first_child last_child : Z)
| GetWindowListReply (h : ReplyHeader) (count : Z)
| GetWindowParentsReply (h : ReplyHeader) (count : Z)
| SetClassInfoReply (h : ReplyHeader) (old_info : Z)
| DestroyClassReply (h : ReplyHeader) (client_ptr : Z)
| GetClassWindowsReply (h : ReplyHeader) (count : Z)
| AllocUserHandleReply (h : ReplyHeader) (handle : Z)
| GetUpdateRegionReply (h : ReplyHeader) (child flags total_size : Z)
| IsWindowHungReply (h : ReplyHeader) (is_hung : Z).

Record CreateClassRequest : Type := mkCreateClass {
  cc_atom : Z; cc_style : Z; cc_cls_extra : Z; cc_win_extra : Z; cc_instance : Z; cc_client_ptr : Z; cc_name_offset : Z }.
Record CreateWindowRequest : Type := mkCreateWindow {
  cw_atom : Z; cw_parent : Z; cw_owner : Z; cw_style : Z; cw_ex_style : Z; cw_instance : Z; cw_dpi_context : Z }.
Record WindowInfoRequest : Type := mkWindowInfo { wi_handle : Z; wi_offset : Z; wi_size : Z; wi_new_info : Z }.
Record SetWindowPosRequest : Type := mkSetWindowPos {
  swp_handle : Z; swp_flags : Z; swp_paint_flags : Z; swp_window : list Z; swp_client : list Z }.

(** [set_window_pos_size] is the size of [SetWindowPosRequest], behind which its
    extra rectangles are.  The other requests give their fields in the order of
    the handler's use. *)
Class Protocol : Type := {
  layout : window_reply -> list Z;
  create_class_request : list Z -> option CreateClassRequest;
  create_window_request : list Z -> option CreateWindowRequest;
  destroy_window_request : list Z -> option Z;
  set_window_owner_request : list Z -> option (Z * Z);
  get_window_info_request : list Z -> option (Z * Z * Z);
  set_window_info_request : list Z -> option WindowInfoRequest;
  set_window_pos_request : list Z -> option SetWindowPosRequest;
  set_window_pos_size : nat;
  get_window_rectangles_request : list Z -> option Z;
  get_window_text_request : list Z -> option Z;
  set_window_text_request : list Z -> option Z;
  get_visible_region_request : list Z -> option (Z * Z);
  set_parent_request : list Z -> option (Z * Z);
  get_window_children_from_point_request : list Z -> option (Z * Z * Z);
  get_window_layered_info_request : list Z -> option Z;
  get_window_region_request : list Z -> option (Z * Z);
  get_window_property_request : list Z -> option (Z * Z);
  set_window_property_request : list Z -> option (Z * Z * Z);
  remove_window_property_request : list Z -> option (Z * Z);
  get_window_tree_request : list Z -> option Z;
  get_window_list_request : list Z -> option (Z * Z * Z);
  get_window_parents_request : list Z -> option Z;
  destroy_class_request : list Z -> option Z;
  alloc_user_handle_request : list Z -> option unit;
  free_user_handle_request : list Z -> option Z;
  get_update_region_request : list Z -> option (Z * Z * Z);
  redraw_window_request : list Z -> option (Z * Z);
}.

(** The constants build.rs takes from [enum message_type]. *)
Class MessageTypes : Type := {
  MSG_ASCII : Z; MSG_UNICODE : Z; MSG_NOTIFY : Z; MSG_CALLBACK : Z; MSG_OTHER_PROCESS : Z; MSG_POSTED : Z;
}.

Definition DESKTOP_CLASS_ATOM : Z := 32769.
Definition NTUSER_OBJ_WINDOW : Z := 1.
Definition NTUSER_DPI_PER_MONITOR_AWARE : Z := 0x12.
Definition HWND_MESSAGE : Z := 0xFFFFFFFD.
Definition WS_VISIBLE : Z := 0x10000000.
Definition QS_PAINT : Z := 0x0020.
Definition QS_ALLPOSTMESSAGE : Z := 0x0100.
Definition WM_ACTIVATEAPP : Z := 0x001C.
Definition no_rect : list Z := replicate 16 0.

Definition i16 (z : Z) : Z := let u := u16 z in if Z.ltb u (2 ^ 15) then u else u - 2 ^ 16.

Section handlers.
Context {K : Type} `{Ntsync K, Protocol, MessageTypes}.
Implicit Types (ev : EventLoop K) (buf : list Z) (w : WindowState).

Definition fixed (r : window_reply) : Reply := reply_fixed (layout r).
Definition vararg_of buf : list Z := Atoms.vararg_of buf.

(** A change to one window, [if let Some(ws) = self.window_states.get_mut(..)]. *)
Definition on_window (handle : Z) (f : WindowState -> WindowState) ev : EventLoop K := ev <| window_states ::= alter f handle |>.
Definition on_user (f : UserState -> UserState) ev : EventLoop K := ev <| user_state ::= f |>.

(** A list of handles as reply data, cut to what the client can take. *)
Definition handles_reply (mk : ReplyHeader -> Z -> window_reply) buf (handles : list Z) : Reply :=
  let vararg := handles ≫= le_bytes 4 in
  let send_len := Z.min (blen vararg) (max_reply_vararg buf) in
  let count := send_len / 4 in
  if decide (count = 0) then fixed (mk (hdr 0) 0)
  else reply_vararg (layout (mk (mkReplyHeader 0 send_len) (i32 count))) (take (Z.to_nat send_len) vararg).

(** ** Names as atoms *)
Definition lower_name (name : list Z) : list Z := map lower_ascii name.

(** The name as it is, then in lower case; 0 when neither is registered. *)
Definition atom_of_name ev (name : list Z) : Z :=
  let names := Atoms.atom_names (atom_table (user_state ev)) in
  match names !! name with
  | Some a => a
  | None => default 0 (names !! lower_name name)
  end.

(** ** Classes *)
Definition class_atom (req_atom : Z) buf ev : EventLoop K * Z :=
  let vararg := vararg_of buf in
  let name := vararg_to_u16 vararg in
  let t := atom_table (user_state ev) in
  if decide (req_atom <> 0) then (ev, req_atom)
  else match Atoms.atom_names t !! name with
  | Some existing => (ev, existing)
  | None =>
      let atom := Atoms.next_atom t in
      let t' := Atoms.mkAtoms (<[atom := (vararg, 1)]> (Atoms.atoms t))
                  (<[lower_name name := atom]> (<[name := atom]> (Atoms.atom_names t))) (u32 (atom + 1)) in
      (on_user (fun u => u <| atom_table := t' |>) ev, atom)
  end.

(** The stores that fill in a [class_shm_t] at [shm]. *)
Definition class_stores (shm atom : Z) (req : CreateClassRequest) (name : list Z) : list (gmap Z Z -> gmap Z Z) :=
  [ write32 shm atom; write32 (shm + 4) (cc_style req); write32 (shm + 8) (cc_cls_extra req);
    write32 (shm + 12) (cc_win_extra req); write64 (shm + 16) (cc_instance req);
    write32 (shm + 24) (cc_name_offset req); write32 (shm + 28) (blen name); write_bytes (shm + 32) (take 510 name) ].

(** The handler also reads the id of the new object back and logs when it differs. *)
Definition handle_create_class (client_fd : Z) buf ev : outcome (EventLoop K * Reply) :=
  match create_class_request buf with
  | None => Ret (ev, status_reply 0xC000000D)
  | Some req =>
      let '(ev, atom) := class_atom (cc_atom req) buf ev in
      r <-! alloc_shared_object ev ;;
      let '(ev, locator) := r in
      let offset := locator_offset locator in
      let ev := shared_write offset (class_stores (offset + 16) atom req (vararg_of buf)) ev in
      let ev := on_user (fun u => u <| class_locators ::= <[atom := locator]> |>
                                    <| class_client_ptrs ::= <[atom := cc_client_ptr req]> |>
                                    <| class_win_extra ::= <[atom := i32 (cc_win_extra req)]> |>) ev in
      Ret (ev, fixed (CreateClassReply (hdr 0) locator atom))
  end.

Definition handle_destroy_class (client_fd : Z) buf ev : EventLoop K * Reply :=
  match destroy_class_request buf with
  | None => (ev, status_reply 0xC000000D)
  | Some atom =>
      let ptr := default 0 (class_client_ptrs (user_state ev) !! atom) in
      (on_user (fun u => u <| class_client_ptrs ::= delete atom |> <| class_locators ::= delete atom |>
                           <| class_win_extra ::= delete atom |>) ev,
       fixed (DestroyClassReply (hdr 0) ptr))
  end.

Definition handle_set_class_info (client_fd : Z) buf ev : EventLoop K * Reply := (ev, fixed (SetClassInfoReply (hdr 0) 0)).
Definition handle_get_class_windows (client_fd : Z) buf ev : EventLoop K * Reply := (ev, fixed (GetClassWindowsReply (hdr 0) 0)).

(** ** Creation *)

(** The parent a window gets. *)
Definition parent_for (atom req_parent : Z) ev : Z :=
  if decide (atom = DESKTOP_CLASS_ATOM) then 0
  else if decide (req_parent = HWND_MESSAGE /\ desktop_msg_window ev <> 0) then desktop_msg_window ev
  else if decide (req_parent = 0 /\ desktop_top_window ev <> 0) then desktop_top_window ev
  else req_parent.

Definition dpi_for (par req_dpi : Z) ev : Z :=
  let own := if decide (req_dpi <> 0) then req_dpi else NTUSER_DPI_PER_MONITOR_AWARE in
  if decide (par <> 0 /\ par <> desktop_top_window ev) then default own (dpi_context <$> window_states ev !! par) else own.

(** The locator of a class; one without is given an empty object. *)
Definition class_locator (atom : Z) ev : outcome (EventLoop K * list Z) :=
  match class_locators (user_state ev) !! atom with
  | Some loc => Ret (ev, loc)
  | None =>
      r <-! alloc_shared_object ev ;;
      Ret (on_user (fun u => u <| class_locators ::= <[atom := r.2]> |>) r.1, r.2)
  end.

Definition new_window (req : CreateWindowRequest) (atom par tid dpi : Z) ev : WindowState :=
  let toplevel := bool_decide (par = desktop_top_window ev /\ atom <> DESKTOP_CLASS_ATOM) in
  let desktop := bool_decide (par = 0 /\ atom = DESKTOP_CLASS_ATOM) in
  let visible := has (cw_style req) WS_VISIBLE in
  let monitor := monitor_rect (user_state ev) in
  let rect := if toplevel && visible && bool_decide (monitor <> no_rect) then monitor else no_rect in
  {| style := cw_style req; ex_style := cw_ex_style req; is_unicode := 1; owner := cw_owner req; parent := par;
     ws_tid := tid; win_id := 0; instance := cw_instance req; user_data := 0; dpi_context := dpi;
     window_rect := rect; client_rect := rect; visible_rect := rect; surface_rect := rect;
     paint_flags := if (toplevel || desktop) && visible then PAINT_HAS_SURFACE else 0;
     needs_paint := false; window_text := [];
     extra_bytes := replicate (Z.to_nat (default 0 (class_win_extra (user_state ev) !! atom))) 0 |}.

Definition message_window (tid : Z) : WindowState :=
  mkWindowState 0 0 1 0 0 tid 0 0 0 NTUSER_DPI_PER_MONITOR_AWARE no_rect no_rect no_rect no_rect 0 false [] [].

(** The first desktop window brings the parent of the message-only windows. *)
Definition adopt_desktop (handle tid pid : Z) (class_loc : list Z) ev : outcome (EventLoop K) :=
  let ev := ev <| desktop_top_window := handle |> in
  let msg_shared_offset := next_shared_offset ev in
  r <-! alloc_user_handle NTUSER_OBJ_WINDOW tid pid ev ;;
  let '(ev, msg) := r in
  let ev := ev <| desktop_msg_window := msg |> in
  let ev := set_window_shm msg_shared_offset class_loc NTUSER_DPI_PER_MONITOR_AWARE ev in
  Ret (ev <| window_states ::= <[msg := message_window tid]> |>).

Definition handle_create_window (client_fd : Z) buf ev : outcome (EventLoop K * Reply) :=
  match create_window_request buf with
  | None => Ret (ev, status_reply 0xC000000D)
  | Some req =>
      let atom := if decide (cw_atom req <> 0) then cw_atom req else atom_of_name ev (vararg_to_u16 (vararg_of buf)) in
      let pid := client_pid ev client_fd in
      let tid := default 0 (client_thread_id ev client_fd) in
      let window_shared_offset := next_shared_offset ev in
      r <-! alloc_user_handle NTUSER_OBJ_WINDOW tid pid ev ;;
      let '(ev, handle) := r in
      let par := parent_for atom (cw_parent req) ev in
      let dpi := dpi_for par (cw_dpi_context req) ev in
      r <-! class_locator atom ev ;;
      let '(ev, class_loc) := r in
      let ev := set_window_shm window_shared_offset class_loc dpi ev in
      let ev := ev <| window_states ::= <[handle := new_window req atom par tid dpi ev]> |> in
      ev <-! (if decide (atom = DESKTOP_CLASS_ATOM /\ desktop_top_window ev = 0)
              then adopt_desktop handle tid pid class_loc ev else Ret ev) ;;
      let class_ptr := default 0 (class_client_ptrs (user_state ev) !! atom) in
      if decide (class_ptr = 0) then Ret (ev, status_reply 0xC0000008)
      else
        let win_extra := default 0 (class_win_extra (user_state ev) !! atom) in
        Ret (ev, fixed (CreateWindowReply (hdr 0) handle par (cw_owner req) win_extra class_ptr))
  end.

(** ** User handles *)
Definition free_index (handle : Z) ev : EventLoop K :=
  ev <| user_handle_free_list ::= fun l => l ++ [index_of_handle handle] |>.

Definition handle_alloc_user_handle (client_fd : Z) buf ev : outcome (EventLoop K * Reply) :=
  match alloc_user_handle_request buf with
  | None => Ret (ev, status_reply 0xC000000D)
  | Some _ =>
      let tid := default 0 (client_thread_id ev client_fd) in
      r <-! alloc_user_handle 1 tid (client_pid ev client_fd) ev ;;
      Ret (r.1, fixed (AllocUserHandleReply (hdr 0) r.2))
  end.

Definition handle_free_user_handle (client_fd : Z) buf ev : EventLoop K * Reply :=
  match free_user_handle_request buf with
  | None => (ev, status_reply 0xC000000D)
  | Some handle =>
      if decide (handle < FIRST_USER_HANDLE) then (ev, status_reply 0xC0000008)
      else if decide (next_user_handle_index ev <= index_of_handle handle) then (ev, status_reply 0xC0000008)
      else (free_index handle ev <| window_states ::= delete handle |>, status_reply 0)
  end.

Definition handle_destroy_window (client_fd : Z) buf ev : EventLoop K * Reply :=
  match destroy_window_request buf with
  | None => (ev, status_reply 0xC000000D)
  | Some handle =>
      let par := default 0 (parent <$> window_states ev !! handle) in
      let ev := ev <| window_states ::= fun ws => delete handle (reparent handle par ws) |>
                   <| window_properties ::= filter (fun kv => kv.1.1 <> handle) |>
                   <| clipboard_listeners ::= fun s => s ∖ {[handle]} |> in
      (if decide (FIRST_USER_HANDLE <= handle) then free_index handle ev else ev, status_reply 0)
  end.

(** ** Fields of a window *)
Definition handle_set_window_owner (client_fd : Z) buf ev : EventLoop K * Reply :=
  match set_window_owner_request buf with
  | None => (ev, status_reply 0xC000000D)
  | Some (handle, new_owner) =>
      let prev_owner := default 0 (owner <$> window_states ev !! handle) in
      (on_window handle (fun w => w <| owner := new_owner |>) ev, fixed (SetWindowOwnerReply (hdr 0) new_owner prev_owner))
  end.

(** The bytes of a window's extra data at an offset, as a number; outside of it
    there is nothing. *)
Definition extra_at (off size : Z) w : option (list Z) :=
  let size := Z.min size 8 in
  if decide (off + size <= blen (extra_bytes w)) then Some (slice (Z.to_nat off) (Z.to_nat size) (extra_bytes w)) else None.

(** Standard fields have negative offsets, extra data the others. *)
Definition window_info (off size : Z) w : Z :=
  if decide (off = -16) then style w
  else if decide (off = -20) then ex_style w
  else if decide (off = -12) then win_id w
  else if decide (off = -6) then instance w
  else if decide (off = -4) then u64 (is_unicode w)
  else if decide (off = -21) then user_data w
  else if decide (0 <= off) then default 0 (from_le <$> extra_at off size w)
  else 0.

Definition update_info (off size new_info : Z) w : WindowState :=
  if decide (off = -16) then w <| style := u32 new_info |> <| paint_flags ::= fun p => Z.lor p 0x0040 |>
  else if decide (off = -20) then w <| ex_style := u32 new_info |> <| paint_flags ::= fun p => Z.lor p 0x0040 |>
  else if decide (off = -12) then w <| win_id := new_info |>
  else if decide (off = -6) then w <| instance := new_info |>
  else if decide (off = -4) then w <| is_unicode := i16 new_info |>
  else if decide (off = -21) then w <| user_data := new_info |>
  else if decide (0 <= off) then
    match extra_at off size w with
    | Some old => w <| extra_bytes ::= write (Z.to_nat off) (take (length old) (le_bytes 8 new_info)) |>
    | None => w
    end
  else w.

Definition handle_get_window_info (client_fd : Z) buf ev : EventLoop K * Reply :=
  match get_window_info_request buf with
  | None => (ev, status_reply 0xC000000D)
  | Some (handle, off, size) =>
      match window_states ev !! handle with
      | Some w => (ev, fixed (GetWindowInfoReply (hdr 0) handle (is_unicode w) (window_info off size w)))
      | None => (ev, fixed (GetWindowInfoReply (hdr 0) 0 1 0))
      end
  end.

Definition handle_set_window_info (client_fd : Z) buf ev : EventLoop K * Reply :=
  match set_window_info_request buf with
  | None => (ev, status_reply 0xC000000D)
  | Some req =>
      let old_info := default 0 (window_info (wi_offset req) (wi_size req) <$> window_states ev !! wi_handle req) in
      (on_window (wi_handle req) (update_info (wi_offset req) (wi_size req) (wi_new_info req)) ev,
       fixed (SetWindowInfoReply (hdr 0) old_info))
  end.

Definition handle_get_window_rectangles (client_fd : Z) buf ev : EventLoop K * Reply :=
  match get_window_rectangles_request buf with
  | None => (ev, status_reply 0xC000000D)
  | Some handle =>
      let '(window, client) := default (no_rect, no_rect) ((fun w => (window_rect w, client_rect w)) <$> window_states ev !! handle) in
      (ev, fixed (GetWindowRectanglesReply (hdr 0) window client))
  end.

Definition handle_get_window_text (client_fd : Z) buf ev : EventLoop K * Reply :=
  match get_window_text_request buf with
  | None => (ev, status_reply 0xC000000D)
  | Some handle =>
      let text := default [] (window_text <$> window_states ev !! handle) in
      if decide (text = []) then (ev, fixed (GetWindowTextReply (hdr 0) 0))
      else
        let send_len := Z.min (blen text) (max_reply_vararg buf) in
        (ev, reply_vararg (layout (GetWindowTextReply (mkReplyHeader 0 send_len) (blen text))) (take (Z.to_nat send_len) text))
  end.

Definition handle_set_window_text (client_fd : Z) buf ev : EventLoop K * Reply :=
  match set_window_text_request buf with
  | None => (ev, status_reply 0xC000000D)
  | Some handle => (on_window handle (fun w => w <| window_text := vararg_of buf |>) ev, status_reply 0)
  end.

Definition handle_get_windows_offset (client_fd : Z) buf ev : EventLoop K * Reply := (ev, fixed (GetWindowsOffsetReply (hdr 0) 0 0 0)).
Definition handle_is_window_hung (client_fd : Z) buf ev : EventLoop K * Reply := (ev, fixed (IsWindowHungReply (hdr 0) 0)).

Definition handle_get_desktop_window (client_fd : Z) buf ev : EventLoop K * Reply :=
  (ev, fixed (GetDesktopWindowReply (hdr 0) (desktop_top_window ev) (desktop_msg_window ev))).

Definition handle_get_window_layered_info (client_fd : Z) buf ev : EventLoop K * Reply :=
  match get_window_layered_info_request buf with
  | None => (ev, status_reply 0xC000000D)
  | Some handle =>
      if default false ((fun w => has (ex_style w) 0x00080000) <$> window_states ev !! handle)
      then (ev, fixed (GetWindowLayeredInfoReply (hdr 0) 0 255 0))
      else (ev, fixed (GetWindowLayeredInfoReply (hdr 0xC0000008) 0 0 0))
  end.
Definition handle_set_window_layered_info (client_fd : Z) buf ev : EventLoop K * Reply := (ev, status_reply 0).

Definition handle_get_window_region (client_fd : Z) buf ev : EventLoop K * Reply :=
  match get_window_region_request buf with
  | None => (ev, status_reply 0xC000000D)
  | Some (window, surface) =>
      let rect := default no_rect (visible_rect <$> window_states ev !! window) in
      if decide (surface <> 0 /\ 16 <= max_reply_vararg buf)
      then (ev, reply_vararg (layout (GetWindowRegionReply (mkReplyHeader 0 16) rect 16)) rect)
      else (ev, fixed (GetWindowRegionReply (hdr 0) rect 0))
  end.
Definition handle_set_window_region (client_fd : Z) buf ev : EventLoop K * Reply := (ev, status_reply 0).

(** ** The tree *)
Definition handle_set_parent (client_fd : Z) buf ev : EventLoop K * Reply :=
  match set_parent_request buf with
  | None => (ev, status_reply 0xC000000D)
  | Some (handle, new_parent) =>
      if decide (new_parent <> 0 /\ new_parent <> desktop_top_window ev /\ new_parent <> desktop_msg_window ev /\
                 window_states ev !! new_parent = None)
      then (ev, status_reply 0xC0000008)
      else
        let old_parent := default 0 (parent <$> window_states ev !! handle) in
        (on_window handle (fun w => w <| parent := new_parent |>) ev, fixed (SetParentReply (hdr 0) old_parent new_parent))
  end.

Definition handle_get_window_children_from_point (fuel : nat) (client_fd : Z) buf ev : option (EventLoop K * Reply) :=
  match get_window_children_from_point_request buf with
  | None => Some (ev, status_reply 0xC000000D)
  | Some (req_parent, x, y) =>
      let par := if decide (req_parent <> 0) then req_parent else desktop_top_window ev in
      (fun chain => (ev, handles_reply GetWindowChildrenFromPointReply buf chain)) <$> child_from_point fuel (window_states ev) par x y
  end.

(** [siblings.iter().position(..)] and its neighbours, 0 where there is none. *)
Definition neighbours (l : list Z) (h : Z) : Z * Z :=
  match list_find (eq h) l with
  | Some (i, _) => (default 0 (l !! S i), match i with O => 0 | S j => default 0 (l !! j) end)
  | None => (0, 0)
  end.

Definition handle_get_window_tree (client_fd : Z) buf ev : EventLoop K * Reply :=
  match get_window_tree_request buf with
  | None => (ev, status_reply 0xC000000D)
  | Some handle =>
      let '(par, own) := default (0, 0) ((fun w => (parent w, owner w)) <$> window_states ev !! handle) in
      let siblings := if decide (par <> 0) then children (window_states ev) par else [] in
      let '(next_sibling, prev_sibling) := neighbours siblings handle in
      let below := children (window_states ev) handle in
      (ev, fixed (GetWindowTreeReply (hdr 0) par own next_sibling prev_sibling
                    (default 0 (head siblings)) (default 0 (last siblings)) (default 0 (head below)) (default 0 (last below))))
  end.

(** All windows below [handle], its siblings, or the top-level windows. *)
Definition listed (fuel : nat) (handle below : Z) ev : option (list Z) :=
  let ws := window_states ev in
  if decide (handle <> 0 /\ below <> 0) then collect_window_children fuel ws handle
  else if decide (handle <> 0) then
    Some match parent <$> ws !! handle with
         | Some par => fst <$> filter (fun kw => parent kw.2 = par) (map_to_list ws)
         | None => []
         end
  else Some (children ws (desktop_top_window ev)).

Definition handle_get_window_list (fuel : nat) (client_fd : Z) buf ev : option (EventLoop K * Reply) :=
  match get_window_list_request buf with
  | None => Some (ev, status_reply 0xC000000D)
  | Some (handle, below, tid) =>
      handles ← listed fuel handle below ev;
      let handles :=
        if decide (tid <> 0) then filter (fun h => ws_tid <$> window_states ev !! h = Some tid) handles else handles in
      Some (ev, handles_reply GetWindowListReply buf handles)
  end.

Definition handle_get_window_parents (client_fd : Z) buf ev : EventLoop K * Reply :=
  match get_window_parents_request buf with
  | None => (ev, status_reply 0xC000000D)
  | Some handle => (ev, handles_reply GetWindowParentsReply buf (get_window_parents (window_states ev) handle))
  end.

(** ** Input state shared with a client

    [input_shm_t] of the client's thread, at byte 16 of its shared object. *)
Definition input_offset (client_fd : Z) ev : Z := locator_offset (default no_rect (input_locator <$> clients ev !! client_fd)).

Definition read_input_shm (client_fd off : Z) ev : Z :=
  let shm_offset := input_offset client_fd ev in
  if decide (session_mapped ev = false \/ shm_offset = 0) then 0
  else if decide (session_size ev < shm_offset + 16 + off + 4) then 0
  else read32 (shm_offset + 16 + off) (session ev).

Definition write_input_shm (client_fd off value : Z) ev : EventLoop K :=
  let shm_offset := input_offset client_fd ev in
  if decide (session_mapped ev = false \/ shm_offset = 0) then ev
  else shared_write shm_offset [write32 (shm_offset + 16 + off) value] ev.

(** [self.shm.get_queue(tid)] and [queue.post(msg)]: the loop after the post and
    whether there was room; [None] when the thread has no queue. *)
Definition queue_post (tid : Z) (m : QueuedMessage) ev : option (EventLoop K * bool) :=
  (fun slot =>
     let '(q, ok) := Queue.post (Shm.read_slot (shm ev) slot) m in
     (ev <| shm ::= fun s => Shm.write_slot s slot q |>, ok)) <$> Shm.slot_map (shm ev) !! tid.

Definition posted_message (window code wparam lparam x y time : Z) : QueuedMessage :=
  mkQueuedMessage window code wparam lparam MSG_POSTED x y time (0, 0).

(** ** Position *)
Definition SWP_SHOWWINDOW : Z := 0x0040.
Definition SWP_HIDEWINDOW : Z := 0x0080.
Definition SWP_NOREDRAW : Z := 0x0008.

(** The flags of the client replace its three; a visible top-level window with a
    pixel format is given a surface. *)
Definition client_paint_flags (top req_flags : Z) w : Z :=
  let p := Z.lor (Z.land (paint_flags w) 0xFFF8) (Z.land req_flags 0x07) in
  if has p 0x02 && negb (has p 0x01) && bool_decide (parent w = top) && has (style w) WS_VISIBLE then Z.lor p 0x01 else p.

Definition rects (r1 r2 r3 r4 : list Z) w : WindowState :=
  w <| window_rect := r1 |> <| client_rect := r2 |> <| visible_rect := r3 |> <| surface_rect := r4 |>.

Definition place (req : SetWindowPosRequest) (vararg : list Z) (top : Z) (monitor : list Z) w : WindowState :=
  let win := swp_window req in
  let w := rects win (swp_client req) (if decide (16 <= length vararg)%nat then slice 0 16 vararg else win)
             (if decide (32 <= length vararg)%nat then slice 16 16 vararg else win) w in
  let w := w <| paint_flags := client_paint_flags top (swp_paint_flags req) w |> in
  let show := has (swp_flags req) SWP_SHOWWINDOW in
  let w :=
    if show then
      let w := w <| style ::= fun s => Z.lor s WS_VISIBLE |> in
      if decide (parent w = top /\ swp_handle req <> top /\ monitor <> no_rect) then rects monitor monitor monitor monitor w else w
    else w in
  let w := if has (swp_flags req) SWP_HIDEWINDOW then w <| style ::= fun s => Z.land s (Z.lnot WS_VISIBLE) |> else w in
  if show || (negb (has (swp_flags req) SWP_NOREDRAW) && bool_decide (swp_handle req <> top))
  then w <| needs_paint := true |> else w.

(** What a window that is shown gets: a message, and the focus of its thread. *)
Definition activate (tid handle : Z) ev : EventLoop K :=
  if decide (tid = 0) then ev
  else
    let ev := match queue_post tid (posted_message handle WM_ACTIVATEAPP 1 0 0 0 0) ev with
              | Some (ev, _) => set_queue_bits_for_tid tid (Z.lor QS_POSTMESSAGE QS_ALLPOSTMESSAGE) ev
              | None => ev
              end in
    match find_client tid ev with
    | Some (_, client) => write_input_shm (c_fd client) 8 handle (write_input_shm (c_fd client) 4 handle ev)
    | None => ev
    end.

Definition handle_set_window_pos (fuel : nat) (client_fd : Z) buf ev : option (EventLoop K * Reply) :=
  match set_window_pos_request buf with
  | None => Some (ev, status_reply 0xC000000D)
  | Some req =>
      let handle := swp_handle req in
      let vararg := drop set_window_pos_size buf in
      let show := has (swp_flags req) SWP_SHOWWINDOW in
      let ev := on_window handle (place req vararg (desktop_top_window ev) (monitor_rect (user_state ev))) ev in
      let ev := match window_states ev !! handle with
                | Some w => if needs_paint w then set_queue_bits_for_tid (ws_tid w) QS_PAINT ev else ev
                | None => ev
                end in
      let ev := match window_states ev !! handle with
                | Some w => if show then activate (ws_tid w) handle ev else ev
                | None => ev
                end in
      let ws := window_states ev in
      let '(new_style, new_ex_style) := default (0, 0) ((fun w => (style w, ex_style w)) <$> ws !! handle) in
      top ← get_top_clipping_window fuel ws (desktop_top_window ev) handle;
      let is_toplevel := default false ((fun w => bool_decide (parent w = desktop_top_window ev)) <$> ws !! handle) in
      let has_surface := default false ((fun w => has (paint_flags w) 0x01) <$> ws !! top) in
      let surface_win := if is_toplevel || has_surface then top else 0 in
      Some (ev, fixed (SetWindowPosReply (hdr 0) new_style new_ex_style surface_win))
  end.

Definition handle_get_visible_region (fuel : nat) (client_fd : Z) buf ev : option (EventLoop K * Reply) :=
  match get_visible_region_request buf with
  | None => Some (ev, status_reply 0xC000000D)
  | Some (window, flags) =>
      let ws := window_states ev in
      top ← get_top_clipping_window fuel ws (desktop_top_window ev) window;
      let top_rect := default no_rect (surface_rect <$> ws !! top) in
      let win_rect := default no_rect ((fun w => if has flags 0x1 then window_rect w else client_rect w) <$> ws !! window) in
      let flags := default 0 (paint_flags <$> ws !! window) in
      Some (ev, if decide (16 <= max_reply_vararg buf)
                then reply_vararg (layout (GetVisibleRegionReply (mkReplyHeader 0 16) top top_rect win_rect flags 16)) win_rect
                else fixed (GetVisibleRegionReply (hdr 0) top top_rect win_rect flags 16))
  end.

(** ** Painting *)
Definition UPDATE_PAINT : Z := 0x04.
Definition UPDATE_ERASE : Z := 0x02.

Definition dirty (ws : windows) (h : Z) : bool := default false (needs_paint <$> ws !! h).

(** The window itself, or the first one below it, that needs painting. *)
Definition paint_target (fuel : nat) (ws : windows) (root : Z) : option (option Z) :=
  if dirty ws root then Some (Some root)
  else (fun below => head (filter (fun h => dirty ws h = true) below)) <$> collect_window_children fuel ws root.

(** The thread's paint bit is cleared with its last window. *)
Definition validate (h : Z) ev : EventLoop K :=
  let tid := default 0 (ws_tid <$> window_states ev !! h) in
  let ev := on_window h (fun w => w <| needs_paint := false |>) ev in
  if decide (tid <> 0 /\ ~ Exists (fun kw => ws_tid kw.2 = tid /\ needs_paint kw.2 = true) (map_to_list (window_states ev)))
  then clear_queue_bits_for_tid tid QS_PAINT ev else ev.

Definition handle_get_update_region (fuel : nat) (client_fd : Z) buf ev : option (EventLoop K * Reply) :=
  match get_update_region_request buf with
  | None => Some (ev, status_reply 0xC000000D)
  | Some (window, from_child, flags) =>
      let root := if decide (from_child <> 0) then from_child else window in
      target ← paint_target fuel (window_states ev) root;
      Some match target with
           | None => (ev, fixed (GetUpdateRegionReply (hdr 0) 0 0 0))
           | Some h =>
               (if has flags (Z.lor UPDATE_PAINT UPDATE_ERASE) then validate h ev else ev,
                fixed (GetUpdateRegionReply (hdr 0) h (Z.lor UPDATE_PAINT UPDATE_ERASE) 0))
           end
  end.

Definition RDW_INVALIDATE : Z := 0x0001.
Definition RDW_INTERNALPAINT : Z := 0x0010.
Definition RDW_VALIDATE : Z := 0x0008.
Definition RDW_NOINTERNALPAINT : Z := 0x0020.
Definition RDW_ALLCHILDREN : Z := 0x0080.
Definition RDW_NOCHILDREN : Z := 0x0040.

Definition mark (invalid valid : bool) w : WindowState :=
  let w := if invalid then w <| needs_paint := true |> else w in
  if valid then w <| needs_paint := false |> else w.

Definition handle_redraw_window (fuel : nat) (client_fd : Z) buf ev : option (EventLoop K * Reply) :=
  match redraw_window_request buf with
  | None => Some (ev, status_reply 0)
  | Some (window, flags) =>
      below ← (if has flags RDW_ALLCHILDREN && negb (has flags RDW_NOCHILDREN)
               then collect_window_children fuel (window_states ev) window else Some []);
      let invalidate := has flags (Z.lor RDW_INVALIDATE RDW_INTERNALPAINT) in
      let validate := has flags (Z.lor RDW_VALIDATE RDW_NOINTERNALPAINT) in
      let ev := fold_left (fun ev h => on_window h (mark invalidate validate) ev) (window :: below) ev in
      Some (match window_states ev !! window with
            | Some w => if invalidate then set_queue_bits_for_tid (ws_tid w) QS_PAINT ev else ev
            | None => ev
            end, status_reply 0)
  end.

(** ** Properties

    The name of a property is an atom, or a string that stands for one. *)
Definition property_atom (req_atom : Z) buf ev : Z :=
  if decide (req_atom <> 0) then req_atom else atom_of_name ev (vararg_to_u16 (vararg_of buf)).

Definition handle_get_window_property (client_fd : Z) buf ev : EventLoop K * Reply :=
  match get_window_property_request buf with
  | None => (ev, status_reply 0xC000000D)
  | Some (window, req_atom) =>
      let data := default 0 (window_properties ev !! (window, property_atom req_atom buf ev)) in
      (ev, fixed (GetWindowPropertyReply (hdr 0) data))
  end.

(** An unknown name is given the next atom, without an entry in [atoms]. *)
Definition intern_name (req_atom : Z) buf ev : EventLoop K * Z :=
  let name := vararg_to_u16 (vararg_of buf) in
  let t := atom_table (user_state ev) in
  if decide (req_atom <> 0) then (ev, req_atom)
  else match Atoms.atom_names t !! name with
  | Some a => (ev, a)
  | None =>
      let next := Atoms.next_atom t in
      (on_user (fun u => u <| atom_table := Atoms.mkAtoms (Atoms.atoms t) (<[name := next]> (Atoms.atom_names t)) (u32 (next + 1)) |>) ev,
       next)
  end.

Definition handle_set_window_property (client_fd : Z) buf ev : EventLoop K * Reply :=
  match set_window_property_request buf with
  | None => (ev, status_reply 0xC000000D)
  | Some (window, req_atom, data) =>
      let '(ev, atom) := intern_name req_atom buf ev in
      (ev <| window_properties ::= <[(window, atom) := data]> |>, status_reply 0)
  end.

Definition handle_remove_window_property (client_fd : Z) buf ev : EventLoop K * Reply :=
  match remove_window_property_request buf with
  | None => (ev, status_reply 0xC000000D)
  | Some (window, req_atom) =>
      let atom := if decide (req_atom <> 0) then req_atom
                  else default 0 (Atoms.atom_names (atom_table (user_state ev)) !! vararg_to_u16 (vararg_of buf)) in
      let data := default 0 (window_properties ev !! (window, atom)) in
      (ev <| window_properties ::= delete (window, atom) |>, fixed (RemoveWindowPropertyReply (hdr 0) data))
  end.

Definition handle_get_window_properties (client_fd : Z) buf ev : EventLoop K * Reply := (ev, fixed (GetWindowPropertiesReply (hdr 0) 0)).

(** ** Start of the daemon

    [EventLoop::new] creates the two desktop windows before any client. *)
Definition desktop_rect (screen_w screen_h : Z) : list Z := replicate 8 0 ++ le_bytes 4 screen_w ++ le_bytes 4 screen_h.

Definition desktop_state (st : Z) (rect : list Z) : WindowState :=
  mkWindowState st 0 1 0 0 0 0 0 0 NTUSER_DPI_PER_MONITOR_AWARE rect rect rect rect 0 false [] [].

(** A window with an empty class of its own. *)
Definition precreate (w : WindowState) ev : outcome (EventLoop K * Z) :=
  r <-! alloc_shared_object ev ;;
  let '(ev, class_loc) := r in
  let offset := next_shared_offset ev in
  r <-! alloc_user_handle NTUSER_OBJ_WINDOW 0 0 ev ;;
  let '(ev, handle) := r in
  let ev := set_window_shm offset class_loc NTUSER_DPI_PER_MONITOR_AWARE ev in
  Ret (ev <| window_states ::= <[handle := w]> |>, handle).

Definition precreate_desktop (screen_w screen_h : Z) ev : outcome (EventLoop K) :=
  r <-! precreate (desktop_state 0x96000000 (desktop_rect screen_w screen_h)) ev ;;
  let '(ev, top) := r in
  r <-! precreate (desktop_state 0 no_rect) (ev <| desktop_top_window := top |>) ;;
  let '(ev, msg) := r in
  Ret (ev <| desktop_msg_window := msg |>).

(** ** The window tree over any sequence of requests *)

(** The part of the loop the tree depends on. *)
Definition wview ev : windows * list Z * Z * Z * Z :=
  (window_states ev, user_handle_free_list ev, next_user_handle_index ev, desktop_top_window ev, desktop_msg_window ev).

Definition taken ev (h : Z) : Prop :=
  exists i, 0 <= i < next_user_handle_index ev /\ i ∉ user_handle_free_list ev /\ h = handle_of_index i.

Record tree_ok ev : Prop := {
  t_forest : forest (window_states ev);
  t_free : NoDup (user_handle_free_list ev);
  t_used : forall i, i ∈ user_handle_free_list ev -> 0 <= i < next_user_handle_index ev;
  t_next : 0 <= next_user_handle_index ev <= MAX_USER_HANDLES;
  t_live : forall h, is_Some (window_states ev !! h) -> taken ev h;
  t_top : desktop_top_window ev = 0 \/ is_Some (window_states ev !! desktop_top_window ev);
  t_msg : desktop_msg_window ev = 0 \/ is_Some (window_states ev !! desktop_msg_window ev);
}.

Lemma tree_ok_view ev ev' : wview ev' = wview ev -> tree_ok ev -> tree_ok ev'.
Proof.
  unfold wview. intros [= E1 E2 E3 E4 E5] [? ? ? ? ? ? ?].
  constructor; unfold taken in *; rewrite ?E1, ?E2, ?E3, ?E4, ?E5; done.
Qed.

(** Steps on the shared memory and the queues leave it alone. *)
Lemma shared_write_view off st ev : wview (shared_write off st ev) = wview ev.
Proof. unfold shared_write. by case_decide. Qed.
Lemma set_window_shm_view off loc dpi ev : wview (set_window_shm off loc dpi ev) = wview ev.
Proof. apply shared_write_view. Qed.
Lemma alloc_shared_object_view ev ev' loc : alloc_shared_object ev = Ret (ev', loc) -> wview ev' = wview ev.
Proof.
  unfold alloc_shared_object, bump_shared. case_decide; [|done]. cbn [obind]. intros [= <- _]. unfold init_object. by case_decide.
Qed.
Lemma class_locator_view atom ev ev' loc : class_locator atom ev = Ret (ev', loc) -> wview ev' = wview ev.
Proof.
  unfold class_locator. destruct (_ !! atom); [by intros [= <- _]|].
  destruct (alloc_shared_object ev) as [[ev1 l]| |] eqn:Ha; [|done..]. cbn [obind]. intros [= <- _].
  by rewrite <- (alloc_shared_object_view _ _ _ Ha).
Qed.
Lemma woken_view ev ev' : Client.woken ev ev' -> wview ev' = wview ev.
Proof. by intros (? & ? & ? & ? & -> & _). Qed.
Lemma set_queue_bits_view tid bits ev : wview (set_queue_bits_for_tid tid bits ev) = wview ev.
Proof. apply woken_view, Client.set_queue_bits_woken. Qed.
Lemma clear_queue_bits_view tid bits ev : wview (clear_queue_bits_for_tid tid bits ev) = wview ev.
Proof. unfold clear_queue_bits_for_tid. destruct (find_client tid ev) as [[? ?]|]; [|done]. apply shared_write_view. Qed.
Lemma write_input_view c off v ev : wview (write_input_shm c off v ev) = wview ev.
Proof. unfold write_input_shm. case_decide; [done|]. apply shared_write_view. Qed.
Lemma activate_view tid h ev : wview (activate tid h ev) = wview ev.
Proof.
  unfold activate. case_decide; [done|]. set (ev1 := match queue_post _ _ _ with Some _ => _ | None => _ end).
  assert (wview ev1 = wview ev) as <-.
  { unfold ev1, queue_post. destruct (_ !! tid) as [slot|]; [|done]. cbn. destruct (Queue.post _ _) as [q ok]. by rewrite set_queue_bits_view. }
  destruct (find_client tid ev1) as [[? c]|]; [|done]. by rewrite !write_input_view.
Qed.

(** A fresh handle belongs to no window. *)
Lemma alloc_user_handle_view ty tid pid ev ev' h : alloc_user_handle ty tid pid ev = Ret (ev', h) ->
  h = handle_of_index (take_index ev).2 /\ wview ev' = wview (take_index ev).1.
Proof.
  unfold alloc_user_handle. destruct (take_index ev) as [ev1 i]. unfold bump_shared. case_decide; [|done].
  cbn [obind fst snd]. intros [= <- <-]. split; [done|]. unfold pwrite_session, init_object. repeat case_decide; done.
Qed.

Lemma handle_of_index_eq i : 0 <= i < MAX_USER_HANDLES -> handle_of_index i = 2 * i + 32.
Proof.
  intros Hi. unfold handle_of_index, FIRST_USER_HANDLE, MAX_USER_HANDLES in *. rewrite Z.shiftl_mul_pow2 by lia.
  rewrite (u32_small (i * 2 ^ 1)), u32_small by word_lia. lia.
Qed.

Lemma tree_ok_alloc ty tid pid ev ev' h : alloc_user_handle ty tid pid ev = Ret (ev', h) -> tree_ok ev ->
  next_user_handle_index ev < MAX_USER_HANDLES ->
  tree_ok ev' /\ h <> 0 /\ window_states ev' !! h = None /\ taken ev' h /\
  next_user_handle_index ev' <= next_user_handle_index ev + 1 /\
  window_states ev' = window_states ev /\ desktop_top_window ev' = desktop_top_window ev /\ desktop_msg_window ev' = desktop_msg_window ev.
Proof.
  intros [Hh Hv]%alloc_user_handle_view Hok Hroom. destruct Hok as [T1 T2 T3 T4 T5 T6 T7]. unfold take_index in Hh, Hv.
  set (i := match last (user_handle_free_list ev) with Some r => r | None => next_user_handle_index ev end) in *.
  assert (exists rest, 0 <= i < MAX_USER_HANDLES /\ h = handle_of_index i /\ user_handle_free_list ev' = rest /\
    NoDup (i :: rest) /\ (forall j, j ∈ rest -> j ∈ user_handle_free_list ev) /\ (forall j, j ∈ user_handle_free_list ev -> j = i \/ j ∈ rest) /\
    (i ∈ user_handle_free_list ev \/ i = next_user_handle_index ev) /\
    next_user_handle_index ev <= next_user_handle_index ev' <= next_user_handle_index ev + 1 /\ i < next_user_handle_index ev' /\
    window_states ev' = window_states ev /\ desktop_top_window ev' = desktop_top_window ev /\ desktop_msg_window ev' = desktop_msg_window ev)
    as (rest & Hi & -> & Hf & Hnd & Hsub & Hsup & Hin & [Hn1 Hn2] & Hlt & Ew & Et & Em).
  { destruct (last (user_handle_free_list ev)) as [r|] eqn:Hl; cbn [fst snd] in *; injection Hv as E1 E2 E3 E4 E5.
    - apply last_Some in Hl as [l' Hl]. unfold i in *. exists l'. unfold RecordSettersUsingExistingGetters.const in *. cbn in *.
      rewrite Hl in *. rewrite removelast_last in E2. pose proof (T3 r) as Hr. rewrite elem_of_app, list_elem_of_singleton in Hr.
      destruct Hr as [Hr0 Hr1]; [by right|]. apply NoDup_app in T2 as (T2a & T2b & _).
      split_and!; try done; try lia.
      + apply NoDup_cons. split; [|done]. intros Hx. by apply (T2b r Hx), list_elem_of_singleton.
      + intros j Hj. apply elem_of_app. by left.
      + intros j [Hj|Hj%list_elem_of_singleton]%elem_of_app; [by right|by left].
      + left. apply elem_of_app. right. by apply list_elem_of_singleton.
    - apply last_None in Hl. unfold i in *. exists []. cbn in *. rewrite Hl in *. rewrite u32_small in E3 by (unfold MAX_USER_HANDLES in *; word_lia).
      split_and!; try done; try lia; [|by right].
      apply NoDup_singleton. }
  assert (forall j, taken ev (handle_of_index j) -> 0 <= j < MAX_USER_HANDLES -> j <> i) as Hfresh.
  { intros j (k & Hk & Hkf & Hjk) Hj ->. rewrite !handle_of_index_eq in Hjk by lia. assert (i = k) as -> by lia.
    destruct Hin; [done|lia]. }
  apply NoDup_cons in Hnd as [Hir Hnd]. unfold taken. rewrite Ew, Et, Em, Hf.
  split_and!; try done; try lia.
  - constructor; unfold taken; rewrite ?Ew, ?Et, ?Em, ?Hf; try done; try lia.
    + intros j Hj. pose proof (T3 j (Hsub j Hj)). lia.
    + intros g Hg. destruct (T5 g Hg) as (k & Hk & Hkf & ->). exists k. split_and!; [lia|lia|by intros Hx%Hsub|done].
  - rewrite handle_of_index_eq by done. lia.
  - apply eq_None_not_Some. intros Hs. by apply (Hfresh i (T5 _ Hs) Hi).
  - exists i. split_and!; [lia|lia|done|done].
Qed.

Lemma tree_ok_insert ev h w : tree_ok ev -> h <> 0 -> window_states ev !! h = None -> taken ev h ->
  parent w = 0 \/ is_Some (window_states ev !! parent w) -> tree_ok (ev <| window_states ::= <[h := w]> |>).
Proof.
  intros [T1 T2 T3 T4 T5 T6 T7] H0' Hh Ht Hp.
  assert (forall x, is_Some (window_states ev !! x) -> is_Some (<[h := w]> (window_states ev) !! x)) as Hin.
  { intros x Hx. rewrite lookup_insert_is_Some. destruct (decide (h = x)); [by left|right; done]. }
  constructor; recs; try done.
  - by apply forest_insert.
  - intros x [<-|[_ Hx]]%lookup_insert_is_Some; [done|by apply T5].
  - destruct T6; [by left|right; by apply Hin].
  - destruct T7; [by left|right; by apply Hin].
Qed.

(** A parent a client may ask for: none, the message-only one, or a window. *)
Definition parent_allowed (p : Z) ev : Prop :=
  p = 0 \/ (p = HWND_MESSAGE /\ desktop_msg_window ev <> 0) \/ is_Some (window_states ev !! p).

(** A handle a client may give back: one that is in use, is not of the desktop, and
    is not of a window with children, which are not moved to another parent. *)
Definition free_allowed (h : Z) ev : Prop :=
  taken ev h /\ h <> desktop_top_window ev /\ h <> desktop_msg_window ev /\
  forall x w, window_states ev !! x = Some w -> parent w <> h.

(** Requests of clients that name existing windows, do not destroy the desktop,
    do not move a window below itself and give back only such handles. *)
Inductive win_step : EventLoop K -> EventLoop K -> Prop :=
| WCreate c buf req ev ev' r : create_window_request buf = Some req -> parent_allowed (cw_parent req) ev ->
    next_user_handle_index ev + 2 <= MAX_USER_HANDLES -> handle_create_window c buf ev = Ret (ev', r) -> win_step ev ev'
| WDestroy c buf h ev : destroy_window_request buf = Some h -> is_Some (window_states ev !! h) ->
    h <> desktop_top_window ev -> h <> desktop_msg_window ev -> win_step ev (handle_destroy_window c buf ev).1
| WSetParent c buf h p ev : set_parent_request buf = Some (h, p) -> p <> h -> ~ tc (child (window_states ev)) h p ->
    win_step ev (handle_set_parent c buf ev).1
| WCreateClass c buf ev ev' r : handle_create_class c buf ev = Ret (ev', r) -> win_step ev ev'
| WAllocHandle c buf ev ev' r : next_user_handle_index ev < MAX_USER_HANDLES ->
    handle_alloc_user_handle c buf ev = Ret (ev', r) -> win_step ev ev'
| WFreeHandle c buf h ev : free_user_handle_request buf = Some h -> free_allowed h ev -> win_step ev (handle_free_user_handle c buf ev).1
| WSetOwner c buf ev : win_step ev (handle_set_window_owner c buf ev).1
| WSetInfo c buf ev : win_step ev (handle_set_window_info c buf ev).1
| WSetText c buf ev : win_step ev (handle_set_window_text c buf ev).1
| WSetPos n c buf ev ev' r : handle_set_window_pos n c buf ev = Some (ev', r) -> win_step ev ev'
| WUpdate n c buf ev ev' r : handle_get_update_region n c buf ev = Some (ev', r) -> win_step ev ev'
| WRedraw n c buf ev ev' r : handle_redraw_window n c buf ev = Some (ev', r) -> win_step ev ev'
| WSetProperty c buf ev : win_step ev (handle_set_window_property c buf ev).1
| WRemoveProperty c buf ev : win_step ev (handle_remove_window_property c buf ev).1.

(** A change of one window that keeps its parent. *)
Lemma tree_ok_window h f ev : (forall w, parent (f w) = parent w) -> tree_ok ev -> tree_ok (on_window h f ev).
Proof.
  intros Hf [T1 T2 T3 T4 T5 T6 T7]. unfold on_window. constructor; recs; try done; rewrite ?lookup_alter_is_Some; try done.
  - by apply forest_alter.
  - intros x. rewrite lookup_alter_is_Some. apply T5.
Qed.
Lemma update_info_parent off size v w : parent (update_info off size v w) = parent w.
Proof. unfold update_info. repeat case_decide; try done. by destruct (extra_at off size w). Qed.
Lemma place_parent req v top m w : parent (place req v top m w) = parent w.
Proof. unfold place. repeat case_match; done. Qed.
Lemma mark_parent a b w : parent (mark a b w) = parent w.
Proof. by destruct a, b. Qed.

Lemma parent_for_ok atom p ev : tree_ok ev -> parent_allowed p ev ->
  parent_for atom p ev = 0 \/ is_Some (window_states ev !! parent_for atom p ev).
Proof.
  intros [T1 T2 T3 T4 T5 T6 T7] Hp. unfold parent_for. case_decide as Ha; [by left|]. case_decide as Hm.
  { destruct Hm as [_ Hm]. destruct T7 as [?|Hx]; [done|by right]. }
  case_decide as Ht. { destruct Ht as [_ Ht]. destruct T6 as [?|Hx]; [done|by right]. }
  destruct Hp as [?|[[? ?]|Hx]]; [by left|exfalso; by apply Hm|by right].
Qed.

Lemma tree_ok_adopt h tid pid loc ev ev' : tree_ok ev -> is_Some (window_states ev !! h) ->
  next_user_handle_index ev < MAX_USER_HANDLES -> adopt_desktop h tid pid loc ev = Ret ev' -> tree_ok ev'.
Proof.
  intros Hok Hh Hroom. unfold adopt_desktop. set (ev1 := ev <| desktop_top_window := h |>).
  assert (tree_ok ev1) as Hok1. { destruct Hok. constructor; try done. by right. }
  destruct (alloc_user_handle NTUSER_OBJ_WINDOW tid pid ev1) as [[ev2 m]| |] eqn:Ha; [|done..]. cbn [obind].
  destruct (tree_ok_alloc _ _ _ _ _ _ Ha Hok1) as (Hok2 & Hm0 & Hnone & Htk & _); [done|]. intros [= <-].
  set (ev3 := set_window_shm _ _ _ _). assert (wview ev3 = wview (ev2 <| desktop_msg_window := m |>)) as Hv by apply set_window_shm_view.
  clearbody ev3. set (ev4 := ev2 <| window_states ::= <[m := message_window tid]> |>).
  assert (tree_ok ev4) as [T1 T2 T3 T4 T5 T6 T7] by (apply tree_ok_insert; try done; by left).
  apply (tree_ok_view (ev4 <| desktop_msg_window := m |>)).
  { unfold wview in *. injection Hv as E1 E2 E3 E4 E5. unfold ev4. recs. by rewrite E1, E2, E3, E4, E5. }
  constructor; try done. right. unfold ev4. recs. rewrite lookup_insert_eq. eauto.
Qed.

Lemma tree_ok_create c buf req ev ev' r : create_window_request buf = Some req -> parent_allowed (cw_parent req) ev ->
  next_user_handle_index ev + 2 <= MAX_USER_HANDLES -> handle_create_window c buf ev = Ret (ev', r) -> tree_ok ev -> tree_ok ev'.
Proof.
  intros Hreq Hpar Hroom Hr Hok. unfold handle_create_window in Hr. rewrite Hreq in Hr.
  set (atom := if decide (cw_atom req <> 0) then _ else _) in Hr. set (pid := client_pid ev c) in Hr.
  set (tid := default 0 (client_thread_id ev c)) in Hr.
  destruct (alloc_user_handle NTUSER_OBJ_WINDOW tid pid ev) as [[ev1 h]| |] eqn:Ha; [|done..]. cbn [obind] in Hr.
  destruct (tree_ok_alloc _ _ _ _ _ _ Ha Hok) as (Hok1 & Hh0 & Hnone & Htk & Hn1 & Ew & Et & Em); [lia|].
  set (par := parent_for atom (cw_parent req) ev1) in Hr. set (dpi := dpi_for par _ ev1) in Hr.
  destruct (class_locator atom ev1) as [[ev2 loc]| |] eqn:Hc; [|done..]. cbn [obind] in Hr. apply class_locator_view in Hc.
  set (ev3 := set_window_shm _ loc dpi ev2) in Hr.
  assert (wview ev3 = wview ev1) as Hv3 by (unfold ev3; by rewrite set_window_shm_view).
  assert (parent (new_window req atom par tid dpi ev3) = par) as Hpw by done. clearbody ev3.
  set (w := new_window _ _ _ _ _ _) in *. clearbody w.
  assert (par = 0 \/ is_Some (window_states ev1 !! par)) as Hparok.
  { apply parent_for_ok; [done|]. unfold parent_allowed in *. by rewrite Em, Ew. }
  pose proof (tree_ok_view _ _ Hv3 Hok1) as Hok3. unfold wview in Hv3. injection Hv3 as V1 V2 V3 V4 V5.
  assert (tree_ok (ev3 <| window_states ::= <[h := w]> |>)) as Hok4.
  { apply tree_ok_insert; [done|done|by rewrite V1| |by rewrite V1, Hpw]. unfold taken in *. by rewrite V2, V3. }
  set (ev4 := ev3 <| window_states ::= <[h := w]> |>) in *.
  assert (next_user_handle_index ev4 = next_user_handle_index ev1) as Hn4 by (unfold ev4; recs; done).
  assert (is_Some (window_states ev4 !! h)) as Hh4 by (unfold ev4; recs; rewrite lookup_insert_eq; eauto).
  clearbody ev4. clear V1 V2 V3 V4 V5.
  assert (forall ev5, (if decide (atom = DESKTOP_CLASS_ATOM /\ desktop_top_window ev4 = 0)
    then adopt_desktop h tid pid loc ev4 else Ret ev4) = Ret ev5 -> tree_ok ev5) as Hadopt.
  { intros ev5. case_decide as Hd; [|by intros [= <-]]. apply tree_ok_adopt; [done|done|lia]. }
  destruct (if decide _ then adopt_desktop h tid pid loc ev4 else _) as [ev5| |]; [|done..]. cbn [obind] in Hr.
  specialize (Hadopt ev5 eq_refl). case_decide; by injection Hr as <- _.
Qed.

Lemma tree_ok_destroy c buf h ev : destroy_window_request buf = Some h -> is_Some (window_states ev !! h) ->
  h <> desktop_top_window ev -> h <> desktop_msg_window ev -> tree_ok ev -> tree_ok (handle_destroy_window c buf ev).1.
Proof.
  intros Hreq Hs Ht Hm [T1 T2 T3 T4 T5 T6 T7]. destruct (T5 h Hs) as (i & Hi & Hif & Hhi).
  assert (0 <= i < MAX_USER_HANDLES) as Hib by lia. pose proof (handle_of_index_eq i Hib) as He.
  unfold handle_destroy_window. rewrite Hreq. cbn [fst]. rewrite decide_True by (unfold FIRST_USER_HANDLE; lia).
  assert (index_of_handle h = i) as Hidx by (rewrite Hhi; apply handle_index; unfold MAX_USER_HANDLES in *; lia).
  set (par := default 0 _).
  assert (forall x, x <> h -> is_Some (window_states ev !! x) -> is_Some (delete h (reparent h par (window_states ev)) !! x)) as Hin.
  { intros x Hx [w Hw]. unfold reparent. rewrite lookup_delete_ne, lookup_fmap, Hw by done. cbn. eauto. }
  unfold free_index. constructor; recs; rewrite ?Hidx.
  - by apply forest_destroy.
  - apply NoDup_app. split_and!; [done| |apply NoDup_singleton]. intros x Hx ->%list_elem_of_singleton. done.
  - intros x [Hx| ->%list_elem_of_singleton]%elem_of_app; [by apply T3|done].
  - done.
  - intros x [w Hw]. apply lookup_delete_Some in Hw as [Hne Hw]. unfold reparent in Hw. rewrite lookup_fmap in Hw.
    apply fmap_Some in Hw as (w' & Hw & _). destruct (T5 x) as (j & Hj & Hjf & Hxj); [by rewrite Hw|].
    exists j. recs. rewrite ?Hidx. split_and!; [lia|lia| |done]. intros [?|Hz%list_elem_of_singleton]%elem_of_app; [done|]. by subst.
  - destruct T6 as [?|?]; [by left|right]. by apply Hin.
  - destruct T7 as [?|?]; [by left|right]. by apply Hin.
Qed.

Lemma tree_ok_alloc_handle c buf ev ev' r : next_user_handle_index ev < MAX_USER_HANDLES ->
  handle_alloc_user_handle c buf ev = Ret (ev', r) -> tree_ok ev -> tree_ok ev'.
Proof.
  intros Hroom Hr Hok. unfold handle_alloc_user_handle in Hr. destruct (alloc_user_handle_request buf) as [?|]; [|by injection Hr as <- _].
  destruct (alloc_user_handle _ _ _ ev) as [[ev1 h]| |] eqn:Ha; [|done..]. cbn [obind] in Hr. injection Hr as <- _. by eapply tree_ok_alloc.
Qed.

Lemma tree_ok_free c buf h ev : free_user_handle_request buf = Some h -> free_allowed h ev -> tree_ok ev -> tree_ok (handle_free_user_handle c buf ev).1.
Proof.
  intros Hreq ((i & Hi & Hif & Hhi) & Ht & Hm & Hch) [T1 T2 T3 T4 T5 T6 T7].
  assert (0 <= i < MAX_USER_HANDLES) as Hib by lia. pose proof (handle_of_index_eq i Hib) as He.
  assert (index_of_handle h = i) as Hidx by (rewrite Hhi; apply handle_index; unfold MAX_USER_HANDLES in *; lia).
  unfold handle_free_user_handle. rewrite Hreq, Hidx, decide_False, decide_False by (unfold FIRST_USER_HANDLE in *; lia). cbn [fst].
  assert (reparent h (default 0 (parent <$> window_states ev !! h)) (window_states ev) = window_states ev) as Hrp.
  { apply map_eq. intros x. unfold reparent. rewrite lookup_fmap. destruct (window_states ev !! x) as [w|] eqn:Hw; [|done]. cbn.
    by rewrite decide_False by (by eapply Hch). }
  unfold free_index. constructor; recs; rewrite ?Hidx.
  - rewrite <- Hrp. by apply forest_destroy.
  - apply NoDup_app. split_and!; [done| |apply NoDup_singleton]. intros x Hx ->%list_elem_of_singleton. done.
  - intros x [Hx| ->%list_elem_of_singleton]%elem_of_app; [by apply T3|done].
  - done.
  - intros x [w Hw]. apply lookup_delete_Some in Hw as [Hne Hw]. destruct (T5 x) as (j & Hj & Hjf & Hxj); [by rewrite Hw|].
    exists j. recs. rewrite ?Hidx. split_and!; [lia|lia| |done]. intros [?|Hz%list_elem_of_singleton]%elem_of_app; [done|]. by subst.
  - destruct T6 as [?|?]; [by left|right]. by rewrite lookup_delete_ne.
  - destruct T7 as [?|?]; [by left|right]. by rewrite lookup_delete_ne.
Qed.

Lemma tree_ok_set_parent c buf h p ev : set_parent_request buf = Some (h, p) -> p <> h ->
  ~ tc (child (window_states ev)) h p -> tree_ok ev -> tree_ok (handle_set_parent c buf ev).1.
Proof.
  intros Hreq Hne Hnd Hok. pose proof Hok as [T1 T2 T3 T4 T5 T6 T7]. unfold handle_set_parent. rewrite Hreq.
  case_decide as Hd; [done|]. cbn [fst].
  assert (p = 0 \/ is_Some (window_states ev !! p)) as Hp.
  { destruct (decide (p = 0)) as [?|H0']; [by left|]. destruct (decide (p = desktop_top_window ev)) as [->|Hpt]; [destruct T6; [done|by right]|].
    destruct (decide (p = desktop_msg_window ev)) as [->|Hpm]; [destruct T7; [done|by right]|]. right.
    destruct (window_states ev !! p) eqn:Hx; [eauto|]. exfalso. by apply Hd. }
  unfold on_window. constructor; recs; try done; rewrite ?lookup_alter_is_Some; try done.
  - by apply forest_set_parent.
  - intros x. rewrite lookup_alter_is_Some. apply T5.
Qed.

Lemma tree_ok_redraw (ts : list Z) inv val ev : tree_ok ev -> tree_ok (fold_left (fun ev h => on_window h (mark inv val) ev) ts ev).
Proof.
  revert ev; induction ts as [|t ts IH]; intros ev Hok; cbn [fold_left]; [done|]. apply IH, tree_ok_window; [|done]. apply mark_parent.
Qed.

Lemma tree_ok_pos n c buf ev ev' r : handle_set_window_pos n c buf ev = Some (ev', r) -> tree_ok ev -> tree_ok ev'.
Proof.
  unfold handle_set_window_pos. destruct (set_window_pos_request buf) as [req|]; [|by intros [= <- _]].
  intros Hr Hok. set (ev1 := on_window _ _ ev) in Hr.
  assert (tree_ok ev1) as Hok1 by (apply tree_ok_window; [apply place_parent|done]). clearbody ev1.
  set (ev2 := match window_states ev1 !! _ with Some _ => _ | None => _ end) in Hr.
  assert (tree_ok ev2) as Hok2.
  { unfold ev2. destruct (_ !! _) as [w|]; [|done]. destruct (needs_paint w); [|done]. eapply tree_ok_view; [apply set_queue_bits_view|done]. }
  clearbody ev2. set (ev3 := match window_states ev2 !! _ with Some _ => _ | None => _ end) in Hr.
  assert (tree_ok ev3) as Hok3.
  { unfold ev3. destruct (_ !! _) as [w|]; [|done]. destruct (has (swp_flags req) SWP_SHOWWINDOW); [|done]. eapply tree_ok_view; [apply activate_view|done]. }
  clearbody ev3. destruct (default (0, 0) _). by apply bind_Some in Hr as (t & _ & [= <- _]).
Qed.

Lemma tree_ok_step ev ev' : win_step ev ev' -> tree_ok ev -> tree_ok ev'.
Proof.
  intros Hs Hok. destruct Hs as [c buf req ev ev' r H1' H2' H3' H4'|c buf h ev H1' H2' H3' H4'|c buf h p ev H1' H2' H3'|c buf ev ev' r Hr
    |c buf ev ev' r H1' Hr|c buf h ev H1' H2'|c buf ev|c buf ev|c buf ev|n c buf ev ev' r Hr|n c buf ev ev' r Hr|n c buf ev ev' r Hr|c buf ev|c buf ev].
  - by eapply tree_ok_create.
  - by eapply tree_ok_destroy.
  - by eapply tree_ok_set_parent.
  - unfold handle_create_class in Hr. destruct (create_class_request buf) as [req|]; [|by injection Hr as <- _].
    destruct (class_atom _ buf ev) as [ev1 atom] eqn:Hc. destruct (alloc_shared_object ev1) as [[ev2 loc]| |] eqn:Ha; [|done..].
    cbn [obind] in Hr. injection Hr as <- _. eapply tree_ok_view; [|exact Hok].
    transitivity (wview ev2). { set (e := shared_write _ _ _). transitivity (wview e); [done|]. apply shared_write_view. }
    rewrite (alloc_shared_object_view _ _ _ Ha). unfold class_atom in Hc. case_decide; [by injection Hc as <- _|].
    destruct (_ !! _); by injection Hc as <- _.
  - by eapply tree_ok_alloc_handle.
  - by eapply tree_ok_free.
  - unfold handle_set_window_owner. destruct (set_window_owner_request buf) as [[h o]|]; [|done]. by apply tree_ok_window.
  - unfold handle_set_window_info. destruct (set_window_info_request buf) as [req|]; [|done]. apply tree_ok_window; [apply update_info_parent|done].
  - unfold handle_set_window_text. destruct (set_window_text_request buf) as [h|]; [|done]. by apply tree_ok_window.
  - by eapply tree_ok_pos.
  - unfold handle_get_update_region in Hr. destruct (get_update_region_request buf) as [[[win fc] fl]|]; [|by injection Hr as <- _].
    apply bind_Some in Hr as ([h|] & _ & [= <- _]); [|done]. case_match; [|done]. unfold validate.
    assert (tree_ok (on_window h (fun w => w <| needs_paint := false |>) ev)) as Hv by by apply tree_ok_window.
    case_decide; [|done]. eapply tree_ok_view; [apply clear_queue_bits_view|done].
  - unfold handle_redraw_window in Hr. destruct (redraw_window_request buf) as [[win fl]|]; [|by injection Hr as <- _].
    apply bind_Some in Hr as (below & _ & [= <- _]). pose proof (tree_ok_redraw (win :: below)) as Hx. cbn [fold_left] in Hx.
    destruct (_ !! win) as [w|]; [|by apply Hx]. case_match; [|by apply Hx]. eapply tree_ok_view; [apply set_queue_bits_view|by apply Hx].
  - unfold handle_set_window_property. destruct (set_window_property_request buf) as [[[win a] d]|]; [|done].
    unfold intern_name. case_decide; [by apply (tree_ok_view ev)|]. by destruct (_ !! _); apply (tree_ok_view ev).
  - unfold handle_remove_window_property. destruct (remove_window_property_request buf) as [[win a]|]; [|done]. by apply (tree_ok_view ev).
Qed.

Lemma tree_ok_reach ev ev' : rtc win_step ev ev' -> tree_ok ev -> tree_ok ev'.
Proof. induction 1 as [|a b d Hs _ IH]; intros Hok; [done|]. by eapply IH, tree_ok_step. Qed.

Lemma tree_ok_precreate w ev ev' h : precreate w ev = Ret (ev', h) ->
  parent w = 0 -> tree_ok ev -> next_user_handle_index ev < MAX_USER_HANDLES ->
  tree_ok ev' /\ is_Some (window_states ev' !! h) /\ next_user_handle_index ev' <= next_user_handle_index ev + 1 /\
  forall x, is_Some (window_states ev !! x) -> is_Some (window_states ev' !! x).
Proof.
  intros Hr Hw Hok Hroom. revert Hr. unfold precreate. destruct (alloc_shared_object ev) as [[ev1 loc]| |] eqn:Ha; [|done..]. cbn [obind].
  pose proof (alloc_shared_object_view _ _ _ Ha) as Hv. pose proof (tree_ok_view _ _ Hv Hok) as Hok1.
  unfold wview in Hv. injection Hv as V1 V2 V3 V4 V5.
  destruct (alloc_user_handle NTUSER_OBJ_WINDOW 0 0 ev1) as [[ev2 h2]| |] eqn:Hb; [|done..]. cbn [obind]. intros [= <- <-].
  destruct (tree_ok_alloc _ _ _ _ _ _ Hb Hok1) as (Hok2 & H0' & Hnone & Htk & Hn & Ew & _); [by rewrite V3|].
  set (ev3 := set_window_shm _ _ _ ev2). pose proof (set_window_shm_view (next_shared_offset ev1) loc NTUSER_DPI_PER_MONITOR_AWARE ev2) as Hv3.
  fold ev3 in Hv3. clearbody ev3. pose proof (tree_ok_view _ _ Hv3 Hok2) as Hok3. unfold wview in Hv3. injection Hv3 as U1 U2 U3 U4 U5.
  split_and!.
  - apply tree_ok_insert; [done|done|by rewrite U1| |by left]. unfold taken in *. by rewrite U2, U3.
  - recs. rewrite lookup_insert_eq. eauto.
  - recs. rewrite U3, <- V3. done.
  - intros x Hx. recs. rewrite U1, Ew, V1. rewrite lookup_insert_is_Some. destruct (decide (h2 = x)); [by left|by right].
Qed.

Lemma precreate_top w ev ev' h : precreate w ev = Ret (ev', h) -> desktop_top_window ev' = desktop_top_window ev.
Proof.
  unfold precreate. destruct (alloc_shared_object ev) as [[ev1 loc]| |] eqn:Ha; [|done..]. cbn [obind].
  pose proof (alloc_shared_object_view _ _ _ Ha) as Hv. unfold wview in Hv. injection Hv as _ _ _ V4 _.
  destruct (alloc_user_handle NTUSER_OBJ_WINDOW 0 0 ev1) as [[ev2 h2]| |] eqn:Hb; [|done..]. cbn [obind]. intros [= <- _].
  pose proof (set_window_shm_view (next_shared_offset ev1) loc NTUSER_DPI_PER_MONITOR_AWARE ev2) as Hv3. unfold wview in Hv3. injection Hv3 as _ _ _ U4 _.
  apply alloc_user_handle_view in Hb as [_ Hb]. unfold wview in Hb. injection Hb as _ _ _ W4 _. recs. rewrite U4, W4, <- V4.
  unfold take_index. by destruct (last _).
Qed.

(** Before the daemon created any window. *)
Definition no_windows ev : Prop :=
  window_states ev = ∅ /\ user_handle_free_list ev = [] /\ next_user_handle_index ev = 0 /\
  desktop_top_window ev = 0 /\ desktop_msg_window ev = 0.

Lemma tree_ok_none ev : no_windows ev -> tree_ok ev.
Proof.
  intros (E1 & E2 & E3 & E4 & E5). constructor; unfold taken; rewrite ?E1, ?E2, ?E3, ?E4, ?E5.
  - apply forest_empty.
  - constructor.
  - by intros i ?%elem_of_nil.
  - done.
  - intros h [x Hx]. by rewrite lookup_empty in Hx.
  - by left.
  - by left.
Qed.

Lemma tree_ok_start sw sh ev ev' : no_windows ev -> precreate_desktop sw sh ev = Ret ev' -> tree_ok ev' /\ is_Some (window_states ev' !! desktop_top_window ev').
Proof.
  intros Hno. pose proof (tree_ok_none ev Hno) as Hok. destruct Hno as (E1 & E2 & E3 & E4 & E5).
  unfold precreate_desktop. destruct (precreate _ ev) as [[ev1 t]| |] eqn:H1'; [|done..]. cbn [obind].
  destruct (tree_ok_precreate _ _ _ _ H1' eq_refl Hok) as (Hok1 & Ht & Hn & _); [by rewrite E3|].
  set (ev2 := ev1 <| desktop_top_window := t |>). assert (tree_ok ev2) as Hok2 by (destruct Hok1; constructor; try done; by right).
  destruct (precreate _ ev2) as [[ev3 m]| |] eqn:H2'; [|done..]. cbn [obind]. intros [= <-].
  destruct (tree_ok_precreate _ _ _ _ H2' eq_refl Hok2) as (Hok3 & Hm & _ & Hkeep).
  { change (next_user_handle_index ev2) with (next_user_handle_index ev1). rewrite E3 in Hn. unfold MAX_USER_HANDLES. lia. }
  split; [destruct Hok3; constructor; try done; by right|]. cbn [window_states desktop_top_window].
  change (is_Some (window_states ev3 !! desktop_top_window ev3)). rewrite (precreate_top _ _ _ _ H2'). by apply Hkeep.
Qed.

(** C21: whatever window requests arrive after the daemon has started, as long as
    they name existing windows, leave the desktop alone, move no window below itself
    and give back only handles in use of things without children, and the table of
    handles has room for those that are created: the windows form a forest, no two
    windows share a handle index, and every walk over them ends: down to all
    descendants, to the window under a point, and up to the window that owns the
    surface.  ([free_handle_makes_cycle] is what happens otherwise.) *)
Theorem window_walks_terminate sw sh ev ev0 ev' :
  no_windows ev -> precreate_desktop sw sh ev = Ret ev0 -> rtc win_step ev0 ev' ->
  let ws := window_states ev' in
  forest ws /\ (forall h, is_Some (ws !! h) -> taken ev' h) /\
  forall h x y, is_Some (get_top_clipping_window (enough ws) ws (desktop_top_window ev') h) /\
    is_Some (collect_window_children (enough ws) ws h) /\ is_Some (child_from_point (enough ws) ws h x y).
Proof.
  intros Hno Hpre Hr ws. assert (tree_ok ev') as Hok.
  { apply (tree_ok_reach _ _ Hr). by apply (tree_ok_start _ _ _ _ Hno Hpre). }
  pose proof (t_forest _ Hok) as Hf. split_and!; [done|apply (t_live _ Hok)|]. intros h x y.
  split_and!; [by apply top_enough|by apply collect_enough|by apply point_enough].
Qed.

(** C30: on a forest, the list that is made for a request for the children of a
    window (no thread filter, a window and the flag for children given) is exactly
    its descendants, each once; the reply carries as much of it as the client's
    buffer takes.  With at most 64 windows, the length to which [get_window_parents]
    climbs, a window is in the list if and only if the asked one is among its own
    parents. *)
Theorem window_list_exact c buf ev handle below :
  forest (window_states ev) -> get_window_list_request buf = Some (handle, below, 0) -> handle <> 0 -> below <> 0 ->
  let ws := window_states ev in
  exists l, handle_get_window_list (enough ws) c buf ev = Some (ev, handles_reply GetWindowListReply buf l) /\ NoDup l /\
    (forall h, h ∈ l <-> tc (child ws) handle h) /\
    ((size ws <= 64)%nat -> forall h, h ∈ l <-> handle ∈ get_window_parents ws h).
Proof.
  intros Hf Hreq Hh Hb ws. destruct (collect_enough ws handle Hf) as [l Hl]. exists l.
  assert (forall h, h ∈ l <-> tc (child ws) handle h) as Hel by (intros h; by apply (collect_elem ws (acyclic _ Hf) (enough ws))).
  split_and!; [|by apply (collect_NoDup ws (acyclic _ Hf) (enough ws) handle)|done|].
  - unfold handle_get_window_list, listed. rewrite Hreq, decide_True by done. fold ws. rewrite Hl. cbn.
    by rewrite decide_False by (intros Hx; by apply Hx).
  - intros Hs h. rewrite Hel. symmetry. by apply elem_of_parents.
Qed.

(** *** Fields *)

(** What is read back after a store: the value cut to the width of the field. *)
Definition stored (off size v : Z) w : Z :=
  if decide (off = -16 \/ off = -20) then u32 v
  else if decide (off = -12 \/ off = -6 \/ off = -21) then v
  else if decide (off = -4) then u64 (i16 v)
  else if decide (0 <= off) then default 0 ((fun old => v mod 256 ^ Z.of_nat (length old)) <$> extra_at off size w)
  else 0.

Lemma take_le_bytes n m z : (n <= m)%nat -> take n (le_bytes m z) = le_bytes n z.
Proof. revert m z; induction n as [|n IH]; intros [|m] z Hn; cbn; try done; [lia|]. f_equal. apply IH. lia. Qed.

Lemma extra_length off size w old : 0 <= off -> 0 <= size -> extra_at off size w = Some old -> length old = Z.to_nat (Z.min size 8).
Proof. unfold extra_at. intros Ho Hs. case_decide as Hd; [|done]. intros [= <-]. apply length_slice. unfold blen in Hd. lia. Qed.

Lemma extra_write_same off size v w old : 0 <= off -> 0 <= size -> extra_at off size w = Some old ->
  extra_at off size (w <| extra_bytes ::= write (Z.to_nat off) (take (length old) (le_bytes 8 v)) |>) = Some (le_bytes (length old) v).
Proof.
  intros Ho Hs He. pose proof (extra_length _ _ _ _ Ho Hs He) as Hl. rewrite take_le_bytes by lia.
  pose proof (length_le_bytes (length old) v) as Hb. set (bs := le_bytes (length old) v) in *. clearbody bs.
  unfold extra_at in *. recs. unfold blen in *. rewrite length_write. case_decide as Hd; [|done]. f_equal.
  rewrite <- Hl, <- Hb. apply slice_write_same. lia.
Qed.

Lemma extra_write_other off size off' size' v w old : 0 <= off -> 0 <= size -> 0 <= off' -> 0 <= size' ->
  off + size <= off' \/ off' + size' <= off -> extra_at off size w = Some old ->
  extra_at off' size' (w <| extra_bytes ::= write (Z.to_nat off) (take (length old) (le_bytes 8 v)) |>) = extra_at off' size' w.
Proof.
  intros Ho Hs Ho' Hs' Hd He. pose proof (extra_length _ _ _ _ Ho Hs He) as Hl. rewrite take_le_bytes by lia.
  pose proof (length_le_bytes (length old) v) as Hb. set (bs := le_bytes (length old) v) in *. clearbody bs.
  unfold extra_at. recs. unfold blen. rewrite length_write. case_decide as Hx; [|done]. f_equal. apply slice_write_disjoint; [|lia].
  unfold extra_at, blen in He. destruct (decide (off + size `min` 8 <= _)); [lia|done].
Qed.

(** Two fields that do not overlap. *)
Definition apart (off size off' size' : Z) : Prop :=
  off <> off' /\ (off < 0 \/ off' < 0 \/ off + size <= off' \/ off' + size' <= off).

Lemma info_same off size v w : 0 <= size -> window_info off size (update_info off size v w) = stored off size v w.
Proof.
  intros Hs. unfold window_info, update_info, stored. repeat case_decide; try done; try lia.
  destruct (extra_at off size w) as [old|] eqn:He; cbn [fmap option_fmap option_map default]; [|by rewrite He].
  rewrite extra_write_same by done. cbn. by rewrite from_le_bytes.
Qed.

Lemma info_other off size off' size' v w : 0 <= size -> 0 <= size' -> apart off size off' size' ->
  window_info off' size' (update_info off size v w) = window_info off' size' w.
Proof.
  intros Hs Hs' [Hne Hap]. unfold window_info, update_info.
  destruct (decide (0 <= off)) as [Ho|Ho].
  - repeat (rewrite (decide_False (P := off = _)) by lia). destruct (extra_at off size w) as [old|] eqn:He; [|done].
    repeat case_decide; try done. rewrite (extra_write_other off size off' size' v w old) by (done || lia). done.
  - repeat case_decide; try done; try lia.
Qed.

(** Storing a field of a window answers with the old value, reading it back
    gives the new one cut to the field's width, and every field that does not
    overlap it reads as before; outside a window's extra data nothing is stored
    and 0 is read. *)
Theorem window_info_roundtrip c c' buf buf' ev h w off size v off' size' :
  window_states ev !! h = Some w -> set_window_info_request buf = Some (mkWindowInfo h off size v) ->
  get_window_info_request buf' = Some (h, off', size') -> 0 <= size -> 0 <= size' ->
  let '(ev1, reply) := handle_set_window_info c buf ev in
  reply = fixed (SetWindowInfoReply (hdr 0) (window_info off size w)) /\
  exists u, (handle_get_window_info c' buf' ev1).2 =
    fixed (GetWindowInfoReply (hdr 0) h u (window_info off' size' (update_info off size v w))) /\
    (off' = off -> size' = size -> window_info off' size' (update_info off size v w) = stored off size v w) /\
    (apart off size off' size' -> window_info off' size' (update_info off size v w) = window_info off' size' w).
Proof.
  intros Hw Hset Hget Hs Hs'. unfold handle_set_window_info. rewrite Hset. cbn [wi_handle wi_offset wi_size wi_new_info].
  rewrite Hw. split; [done|]. exists (is_unicode (update_info off size v w)). unfold handle_get_window_info. rewrite Hget.
  unfold on_window. recs. rewrite lookup_alter_eq, Hw. cbn [fmap option_fmap option_map]. split_and!; [done| |].
  - intros -> ->. by apply info_same.
  - by apply info_other.
Qed.

(** *** Properties *)
Lemma intern_name_spec req_atom buf ev :
  let '(ev1, atom) := intern_name req_atom buf ev in
  window_properties ev1 = window_properties ev /\ wview ev1 = wview ev /\
  forall buf', vararg_to_u16 (vararg_of buf') = vararg_to_u16 (vararg_of buf) ->
    property_atom req_atom buf' ev1 = atom /\
    (req_atom = 0 -> Atoms.atom_names (atom_table (user_state ev1)) !! vararg_to_u16 (vararg_of buf') = Some atom).
Proof.
  unfold intern_name, property_atom, atom_of_name. case_decide as Ha; [by split_and!|].
  destruct (Atoms.atom_names (atom_table (user_state ev)) !! vararg_to_u16 (vararg_of buf)) as [a|] eqn:He.
  - split_and!; [done|done|]. intros buf' ->. rewrite He. split; done.
  - split_and!; [done|done|]. intros buf' ->. unfold on_user. recs. rewrite lookup_insert_eq. split; done.
Qed.

(** A property that was set, by atom or by name, is read back and removed
    with its value under the same atom or name, is 0 after that, and destroying
    the window leaves it no property at all. *)
Theorem window_property_roundtrip c bs bg br bd ev window atom data :
  set_window_property_request bs = Some (window, atom, data) -> get_window_property_request bg = Some (window, atom) ->
  remove_window_property_request br = Some (window, atom) -> destroy_window_request bd = Some window ->
  vararg_to_u16 (vararg_of bg) = vararg_to_u16 (vararg_of bs) -> vararg_to_u16 (vararg_of br) = vararg_to_u16 (vararg_of bs) ->
  let ev1 := (handle_set_window_property c bs ev).1 in
  let '(ev2, removed) := handle_remove_window_property c br ev1 in
  (handle_get_window_property c bg ev1).2 = fixed (GetWindowPropertyReply (hdr 0) data) /\
  removed = fixed (RemoveWindowPropertyReply (hdr 0) data) /\
  (handle_get_window_property c bg ev2).2 = fixed (GetWindowPropertyReply (hdr 0) 0) /\
  forall a, window_properties (handle_destroy_window c bd ev1).1 !! (window, a) = None.
Proof.
  intros Hs Hg Hr Hd Hng Hnr. unfold handle_set_window_property. rewrite Hs.
  pose proof (intern_name_spec atom bs ev) as Hi. destruct (intern_name atom bs ev) as [ev1 k]. destruct Hi as (Hp & _ & Hat).
  cbn [fst]. unfold handle_remove_window_property. rewrite Hr.
  destruct (Hat bg Hng) as [Hag _]. destruct (Hat br Hnr) as [_ Har].
  set (kr := if decide (atom <> 0) then atom else _).
  assert (kr = k) as ->.
  { unfold kr. case_decide as Hz; [|recs; by rewrite Har by (destruct (decide (atom = 0)); [done|by exfalso])].
    rewrite <- Hag. unfold property_atom. by rewrite decide_True. }
  unfold handle_get_window_property. rewrite Hg. unfold property_atom, atom_of_name in *. recs. rewrite Hag, lookup_insert_eq, lookup_delete_eq. split_and!; [done|done|done|].
  intros a. unfold handle_destroy_window. rewrite Hd. cbn [fst].
  set (m := filter (fun kv : Z * Z * Z => kv.1.1 <> window) (<[(window, k) := data]> (window_properties ev1))).
  assert (m !! (window, a) = None) as Hm. { apply map_lookup_filter_None_2. right. intros x _ Hx. by apply Hx. }
  destruct (decide (FIRST_USER_HANDLE <= window)); exact Hm.
Qed.

(** *** Painting *)
Lemma dirty_spec ws h : dirty ws h = true <-> exists w, ws !! h = Some w /\ needs_paint w = true.
Proof. unfold dirty. destruct (ws !! h) as [w|]; cbn; split; [eauto|by intros (w' & [= ->] & ?)|done|by intros (w' & ? & _)]. Qed.

Lemma paint_target_spec ws root : forest ws ->
  exists t, paint_target (enough ws) ws root = Some t /\
    match t with
    | Some h => dirty ws h = true /\ rtc (child ws) root h
    | None => forall h, rtc (child ws) root h -> dirty ws h = false
    end.
Proof.
  intros Hf. unfold paint_target. destruct (dirty ws root) eqn:Hr; [by exists (Some root)|].
  destruct (collect_enough ws root Hf) as [l Hl]. rewrite Hl. cbn [fmap option_fmap option_map]. eexists. split; [reflexivity|].
  assert (forall h, h ∈ l <-> tc (child ws) root h) as Hel by (intros h; by apply (collect_elem ws (acyclic _ Hf) (enough ws))).
  destruct (head (filter _ l)) as [h|] eqn:Hh.
  - apply head_Some_elem_of, list_elem_of_filter in Hh as [Hd Hin]. split; [done|]. by apply tc_rtc, Hel.
  - apply head_None in Hh. intros h [->|Ht]%rtc_tc; [done|]. apply Hel in Ht. destruct (dirty ws h) eqn:Hd; [|done].
    assert (h ∈ filter (fun h => dirty ws h = true) l) as Hx by by apply list_elem_of_filter.
    rewrite Hh in Hx. by apply elem_of_nil in Hx.
Qed.

(** The windows that still need painting. *)
Definition dirty_windows (ws : windows) : gset Z := dom (filter (fun kw => needs_paint kw.2 = true) ws).

Lemma elem_of_dirty_windows ws h : h ∈ dirty_windows ws <-> dirty ws h = true.
Proof.
  unfold dirty_windows. rewrite elem_of_dom, dirty_spec. unfold is_Some. setoid_rewrite map_lookup_filter_Some. naive_solver.
Qed.

Lemma validate_windows h ev : window_states (validate h ev) = alter (fun w => w <| needs_paint := false |>) h (window_states ev).
Proof.
  unfold validate, on_window. case_decide; [|done].
  match goal with |- context [clear_queue_bits_for_tid ?t ?b ?e] => pose proof (clear_queue_bits_view t b e) as Hv end.
  unfold wview in Hv. injection Hv as -> _ _ _ _. done.
Qed.

Lemma dirty_validate h ev x : dirty (window_states (validate h ev)) x = if decide (x = h) then false else dirty (window_states ev) x.
Proof.
  rewrite validate_windows. unfold dirty. case_decide as Hx; [subst|by rewrite lookup_alter_ne].
  rewrite lookup_alter_eq. by destruct (window_states ev !! h).
Qed.

(** C31: painting makes progress.  On a forest, asking for an update region with a
    validate flag answers with a window at or below the root that needs painting,
    and only when none does with no window; the window it names is the only one
    that changes and it no longer needs painting, so the set of windows that
    need painting shrinks with every answer. *)
Theorem update_region_progress c buf ev window from_child flags :
  forest (window_states ev) -> get_update_region_request buf = Some (window, from_child, flags) ->
  has flags (Z.lor UPDATE_PAINT UPDATE_ERASE) = true ->
  let ws := window_states ev in
  let root := if decide (from_child <> 0) then from_child else window in
  exists ev' child flags', handle_get_update_region (enough ws) c buf ev = Some (ev', fixed (GetUpdateRegionReply (hdr 0) child flags' 0)) /\
    ((child = 0 /\ flags' = 0 /\ ev' = ev /\ forall h, rtc (WinTree.child ws) root h -> dirty ws h = false) \/
     (rtc (WinTree.child ws) root child /\ child ∈ dirty_windows ws /\ dirty_windows (window_states ev') = dirty_windows ws ∖ {[child]} /\
      (forall h, h <> child -> window_states ev' !! h = ws !! h) /\ forest (window_states ev'))).
Proof.
  intros Hf Hreq Hfl ws root. unfold handle_get_update_region. rewrite Hreq.
  destruct (paint_target_spec ws root Hf) as (t & Ht & Hspec). fold root ws. rewrite Ht. cbn [mbind option_bind].
  destruct t as [h|]; [|by exists ev, 0, 0; split; [done|left]].
  exists (validate h ev), h, (Z.lor UPDATE_PAINT UPDATE_ERASE). rewrite Hfl. split; [done|]. right. destruct Hspec as [Hd Hr]. split_and!; [done| | | |].
  - by apply elem_of_dirty_windows.
  - apply set_eq. intros x. rewrite elem_of_difference, !elem_of_dirty_windows, elem_of_singleton, dirty_validate. by case_decide; naive_solver.
  - intros x Hx. by rewrite validate_windows, lookup_alter_ne.
  - rewrite validate_windows. by apply forest_alter.
Qed.

End handlers.
End Windows.

(** ** The definitions on a small loop *)
Module WindowsDemo.
Import Replies Ntsync ModelKernel Ipc Loop LoopDemo Session WinTree Windows.

Definition arg (i : nat) (buf : list Z) : Z := default 0 (buf !! i).

(** Requests with one field per place of the buffer. *)
#[export] Instance demo_protocol : Protocol := {
  layout r := match r with
              | CreateWindowReply h handle par _ _ _ => header_bytes h ++ le_bytes 4 handle ++ le_bytes 4 par
              | SetParentReply h old _ => header_bytes h ++ le_bytes 4 old
              | GetUpdateRegionReply h c f _ => header_bytes h ++ le_bytes 4 c ++ le_bytes 4 f
              | GetWindowListReply h n => header_bytes h ++ le_bytes 4 n
              | _ => []
              end;
  create_class_request b := Some (mkCreateClass (arg 0 b) 0 0 (arg 1 b) 0 (arg 2 b) 0);
  create_window_request b := Some (mkCreateWindow (arg 0 b) (arg 1 b) 0 (arg 2 b) 0 0 0);
  destroy_window_request b := Some (arg 0 b);
  set_window_owner_request b := Some (arg 0 b, arg 1 b);
  get_window_info_request b := Some (arg 0 b, arg 1 b, arg 2 b);
  set_window_info_request b := Some (mkWindowInfo (arg 0 b) (arg 1 b) (arg 2 b) (arg 3 b));
  set_window_pos_request b := Some (mkSetWindowPos (arg 0 b) (arg 1 b) (arg 2 b) no_rect no_rect);
  set_window_pos_size := 64%nat;
  get_window_rectangles_request b := Some (arg 0 b);
  get_window_text_request b := Some (arg 0 b);
  set_window_text_request b := Some (arg 0 b);
  get_visible_region_request b := Some (arg 0 b, arg 1 b);
  set_parent_request b := Some (arg 0 b, arg 1 b);
  get_window_children_from_point_request b := Some (arg 0 b, arg 1 b, arg 2 b);
  get_window_layered_info_request b := Some (arg 0 b);
  get_window_region_request b := Some (arg 0 b, arg 1 b);
  get_window_property_request b := Some (arg 0 b, arg 1 b);
  set_window_property_request b := Some (arg 0 b, arg 1 b, arg 2 b);
  remove_window_property_request b := Some (arg 0 b, arg 1 b);
  get_window_tree_request b := Some (arg 0 b);
  get_window_list_request b := Some (arg 0 b, arg 1 b, arg 2 b);
  get_window_parents_request b := Some (arg 0 b);
  destroy_class_request b := Some (arg 0 b);
  alloc_user_handle_request b := Some tt;
  free_user_handle_request b := Some (arg 0 b);
  get_update_region_request b := Some (arg 0 b, arg 1 b, arg 2 b);
  redraw_window_request b := Some (arg 0 b, arg 1 b);
}.
#[export] Instance demo_types : MessageTypes := {| MSG_ASCII := 0; MSG_UNICODE := 1; MSG_NOTIFY := 2; MSG_CALLBACK := 3; MSG_OTHER_PROCESS := 5; MSG_POSTED := 6 |}.

Definition got {A} (o : outcome A) (d : A) : A := match o with Ret a => a | _ => d end.
Definition ok0 : Reply := status_reply 0.

(** The desktop, a class, a window at its top level and one below that. *)
Definition start : EventLoop MK := got (precreate_desktop 1920 1080 demo_loop) demo_loop.
Definition with_class : EventLoop MK := (got (handle_create_class 7 [0x8002; 8; 0x1000] start) (start, ok0)).1.
Definition one_window : EventLoop MK := (got (handle_create_window 7 [0x8002; 0] with_class) (with_class, ok0)).1.
Definition two_windows : EventLoop MK := (got (handle_create_window 7 [0x8002; 36] one_window) (one_window, ok0)).1.

Example two_windows_handles : (map_to_list (parent <$> window_states two_windows)) ≡ₚ [(32, 0); (34, 0); (36, 32); (38, 36)].
Proof. vm_compute. solve_Permutation. Qed.

Lemma start_no_windows : no_windows demo_loop.
Proof. unfold no_windows. vm_compute. done. Qed.
Lemma two_windows_steps : rtc win_step start two_windows.
Proof.
  eapply rtc_l; [apply (WCreateClass 7 [0x8002; 8; 0x1000] start with_class (got (handle_create_class 7 [0x8002; 8; 0x1000] start) (start, ok0)).2); vm_compute; reflexivity|].
  eapply rtc_l; [eapply (WCreate 7 [0x8002; 0] _ with_class one_window (got (handle_create_window 7 [0x8002; 0] with_class) (with_class, ok0)).2);
    [reflexivity|by left|vm_compute; congruence|vm_compute; reflexivity]|].
  eapply rtc_l; [eapply (WCreate 7 [0x8002; 36] _ one_window two_windows (got (handle_create_window 7 [0x8002; 36] one_window) (one_window, ok0)).2);
    [reflexivity|right; right; vm_compute; eauto|vm_compute; congruence|vm_compute; reflexivity]|].
  apply rtc_refl.
Qed.
Lemma two_windows_ok : tree_ok two_windows.
Proof.
  assert (tree_ok start) as Hok. { apply (tree_ok_start 1920 1080 demo_loop); [exact start_no_windows|]. vm_compute. reflexivity. }
  exact (tree_ok_reach _ _ two_windows_steps Hok).
Qed.

Lemma window_walks_terminate_witness :
  forest (window_states two_windows) /\
  is_Some (get_top_clipping_window 5 (window_states two_windows) 32 38).
Proof.
  destruct (window_walks_terminate 1920 1080 demo_loop start two_windows) as (Hf & _ & Hw).
  - exact start_no_windows.
  - vm_compute. reflexivity.
  - exact two_windows_steps.
  - split; [exact Hf|]. destruct (Hw 38 0 0) as (Ht & _ & _). exact Ht.
Defined.

Lemma window_list_exact_witness :
  exists l, handle_get_window_list 5 7 [32; 1; 0] two_windows = Some (two_windows, handles_reply GetWindowListReply [32; 1; 0] l) /\
    (38 ∈ l <-> 32 ∈ get_window_parents (window_states two_windows) 38).
Proof.
  destruct (window_list_exact 7 [32; 1; 0] two_windows 32 1) as (l & Hl & _ & _ & Hp).
  - exact (t_forest _ two_windows_ok).
  - reflexivity.
  - lia.
  - lia.
  - exists l. split; [exact Hl|]. apply Hp. vm_compute. lia.
Defined.

Lemma window_info_roundtrip_witness :
  let ev1 := (handle_set_window_info 7 [38; 0; 4; 0x11223344] two_windows).1 in
  exists u w, (handle_get_window_info 7 [38; 0; 4] ev1).2 = fixed (GetWindowInfoReply (Completion.hdr 0) 38 u (stored 0 4 0x11223344 w)) /\
    stored 0 4 0x11223344 w = 0x11223344.
Proof.
  destruct (window_states two_windows !! 38) as [w|] eqn:Hw; [|by vm_compute in Hw].
  pose proof (window_info_roundtrip 7 7 [38; 0; 4; 0x11223344] [38; 0; 4] two_windows 38 w 0 4 0x11223344 0 4 Hw) as Hr.
  destruct (handle_set_window_info 7 [38; 0; 4; 0x11223344] two_windows) as [ev1 r1] eqn:Hs.
  destruct Hr as (_ & u & Hg & Hsame & _).
  - reflexivity.
  - reflexivity.
  - lia.
  - lia.
  - exists u, w. rewrite <- Hsame by lia. split; [exact Hg|]. rewrite Hsame by lia.
    vm_compute in Hw. injection Hw as <-. vm_compute. reflexivity.
Defined.

Lemma window_property_roundtrip_witness :
  let ev1 := (handle_set_window_property 7 [38; 0; 77] two_windows).1 in
  (handle_get_window_property 7 [38; 0] ev1).2 = fixed (GetWindowPropertyReply (Completion.hdr 0) 77).
Proof.
  pose proof (window_property_roundtrip 7 [38; 0; 77] [38; 0] [38; 0] [38] two_windows 38 0 77) as Hr.
  cbn zeta in *. destruct (handle_remove_window_property 7 [38; 0] _) as [ev2 rm].
  destruct Hr as (Hg & _); [reflexivity..|exact Hg].
Defined.

Definition invalid : EventLoop MK := (default (two_windows, ok0) (handle_redraw_window 5 7 [36; 0x81] two_windows)).1.
Lemma update_region_progress_witness :
  exists ev' child flags, handle_get_update_region 5 7 [36; 0; 6] invalid = Some (ev', fixed (GetUpdateRegionReply (Completion.hdr 0) child flags 0)).
Proof.
  assert (forest (window_states invalid)) as Hf.
  { apply (forest_same (window_states two_windows)); [|exact (t_forest _ two_windows_ok)]. intros h.
    assert (parent <$> window_states invalid = parent <$> window_states two_windows) as He by (vm_compute; reflexivity).
    by rewrite <- !lookup_fmap, He. }
  destruct (update_region_progress 7 [36; 0; 6] invalid 36 0 6) as (ev' & child & flags & Hr & _).
  - exact Hf.
  - reflexivity.
  - reflexivity.
  - exists ev', child, flags. exact Hr.
Defined.

(** *** What the handlers do not check *)

(** A cycle of two windows without a surface. *)
Lemma cycle_hangs (ws : windows) (top a b : Z) wa wb : ws !! a = Some wa -> ws !! b = Some wb -> parent wa = b -> parent wb = a ->
  has (paint_flags wa) PAINT_HAS_SURFACE = false -> has (paint_flags wb) PAINT_HAS_SURFACE = false ->
  a <> 0 -> b <> 0 -> a <> top -> b <> top -> forall fuel, get_top_clipping_window fuel ws top a = None /\ get_top_clipping_window fuel ws top b = None.
Proof.
  intros Ha Hb Hpa Hpb Hsa Hsb ? ? ? ? fuel. induction fuel as [|n [IH1 IH2]]; [done|]. cbn [get_top_clipping_window].
  rewrite Ha, Hb, Hsa, Hsb, Hpa, Hpb. rewrite !decide_False by naive_solver. done.
Qed.

(** [set_parent] accepts a window below itself, and the walk up to the surface
    window, which [get_visible_region] makes, then never ends. *)
Theorem set_parent_accepts_cycle :
  let '(ev, reply) := handle_set_parent 7 [36; 38] two_windows in
  reply = fixed (SetParentReply (Completion.hdr 0) 32 38) /\
  forall fuel, handle_get_visible_region fuel 7 [36; 0] ev = None.
Proof.
  destruct (handle_set_parent 7 [36; 38] two_windows) as [ev reply] eqn:He. split; [vm_compute in He; by injection He as _ <-|].
  assert (ev = (handle_set_parent 7 [36; 38] two_windows).1) as -> by by rewrite He. clear He. intros fuel.
  unfold handle_get_visible_region. cbn [get_visible_region_request demo_protocol].
  change (arg 0 [36; 0]) with 36. change (arg 1 [36; 0]) with 0.
  set (ev := (handle_set_parent _ _ _).1).
  destruct (window_states ev !! 36) as [wa|] eqn:Ha; [|by vm_compute in Ha]. destruct (window_states ev !! 38) as [wb|] eqn:Hb; [|by vm_compute in Hb].
  destruct (cycle_hangs (window_states ev) (desktop_top_window ev) 36 38 wa wb Ha Hb) with (fuel := fuel) as [-> _]; [..|done].
  all: try (vm_compute in Ha; injection Ha as <-); try (vm_compute in Hb; injection Hb as <-); vm_compute; congruence.
Qed.

(** [free_user_handle] takes a window away without finding its children another
    parent.  The next window gets the handle, and can be asked for below such a
    child: the two are then below each other, and the walk never ends. *)
Theorem free_handle_makes_cycle :
  let ev1 := (handle_free_user_handle 7 [36] two_windows).1 in
  let '(ev2, reply) := got (handle_create_window 7 [0x8002; 38] ev1) (ev1, ok0) in
  reply = fixed (CreateWindowReply (Completion.hdr 0) 36 38 0 8 0x1000) /\
  forall fuel, handle_get_visible_region fuel 7 [36; 0] ev2 = None.
Proof.
  cbv zeta. set (ev1 := (handle_free_user_handle 7 [36] two_windows).1).
  destruct (got (handle_create_window 7 [0x8002; 38] ev1) (ev1, ok0)) as [ev2 reply] eqn:He. split; [vm_compute in He; by injection He as _ <-|].
  assert (ev2 = (got (handle_create_window 7 [0x8002; 38] ev1) (ev1, ok0)).1) as -> by by rewrite He. clear He. intros fuel.
  unfold handle_get_visible_region. cbn [get_visible_region_request demo_protocol].
  change (arg 0 [36; 0]) with 36. change (arg 1 [36; 0]) with 0.
  set (ev := (got _ _).1).
  destruct (window_states ev !! 36) as [wa|] eqn:Ha; [|by vm_compute in Ha]. destruct (window_states ev !! 38) as [wb|] eqn:Hb; [|by vm_compute in Hb].
  destruct (cycle_hangs (window_states ev) (desktop_top_window ev) 36 38 wa wb Ha Hb) with (fuel := fuel) as [-> _]; [..|done].
  all: try (vm_compute in Ha; injection Ha as <-); try (vm_compute in Hb; injection Hb as <-); vm_compute; congruence.
Qed.

(** [create_window] does not check the parent it is given: a window can be asked
    for below the handle it is about to get. *)
Theorem create_window_below_itself :
  let ev := (got (handle_create_window 7 [0x8002; 40] two_windows) (two_windows, ok0)).1 in
  parent <$> window_states ev !! 40 = Some 40 /\ window_states two_windows !! 40 = None.
Proof. vm_compute. done. Qed.

(** Destroying a window twice frees its index twice: the next two windows get the
    same handle, and the second replaces the first. *)
Theorem destroy_twice_shares_handle :
  let ev := (handle_destroy_window 7 [38] (handle_destroy_window 7 [38] two_windows).1).1 in
  let '(ev1, r1) := got (handle_create_window 7 [0x8002; 0] ev) (ev, ok0) in
  let '(ev2, r2) := got (handle_create_window 7 [0x8002; 0] ev1) (ev, ok0) in
  r1 = fixed (CreateWindowReply (Completion.hdr 0) 38 32 0 8 0x1000) /\ r2 = r1.
Proof. vm_compute. done. Qed.

(** A window whose class is unknown is refused, but it stays in the table. *)
Theorem refused_window_stays :
  let '(ev, reply) := got (handle_create_window 7 [0x9999; 0] start) (start, ok0) in
  reply = status_reply 0xC0000008 /\ is_Some (window_states ev !! 36) /\ window_states start !! 36 = None.
Proof. vm_compute. split_and!; eauto. Qed.

End WindowsDemo.
