(* ===== verification/Desktop.v ===== *)
(** * Desktops, input state and tokens ([src/rust/src/triskelion/event_loop/window.rs]
      lines 1405-1933 and 2148-2165, 2570-2766, 3212-3247, and [token.rs])

    Desktops and window stations, the focus, cursor, caret and keyboard of a
    thread, monitors, hooks, and the answers about security tokens.  The request
    and reply structs are the parameter [Protocol]. *)

From stdpp Require Import base list gmap strings.
From coqutil Require Import Datatypes.RecordSettersUsingExistingGetters.
From S2P Require Import Prelude Queue Shm Objects Dispatch Text Registry Atoms Loop Completion Session WinTree Windows.
Local Open Scope Z_scope.
Local Open Scope outcome_scope.

Module Desktop.
Import Replies Text Ntsync Ipc HandleTable ServerState Loop Completion Memory Seqlock Session WinTree.
Import Windows.
Local Notation lit := Registry.lit.

(** ** Generated structs *)
Inductive desktop_reply : Type :=
| GetThreadDesktopReply (h : ReplyHeader) (locator : list Z) (handle : Z)
| SetThreadDesktopReply (h : ReplyHeader) (locator : list Z)
| GetProcessWinstationReply (h : ReplyHeader) (handle : Z)
| CreateDesktopReply (h : ReplyHeader) (handle : Z)
| GetThreadInputReply (h : ReplyHeader) (locator : list Z)
| GetRawinputBufferReply (h : ReplyHeader) (next_size time count : Z)
| SetCursorReply (h : ReplyHeader) (prev_handle prev_count prev_x prev_y new_x new_y : Z) (new_clip : list Z) (last_change : Z)
| SetForegroundWindowReply (h : ReplyHeader) (previous send_msg_old send_msg_new : Z)
| SetFocusWindowReply (h : ReplyHeader) (previous : Z)
| SetActiveWindowReply (h : ReplyHeader) (previous : Z)
| SetCaptureWindowReply (h : ReplyHeader) (previous full_handle : Z)
| SetUserObjectInfoReply (h : ReplyHeader) (is_desktop old_obj_flags : Z)
| GetKeyStateReply (h : ReplyHeader) (state : Z)
| SetCaretWindowReply (h : ReplyHeader) (previous : Z) (old_rect : list Z) (old_hide old_state : Z)
| SetCaretInfoReply (h : ReplyHeader) (full_handle : Z) (old_rect : list Z) (old_hide old_state : Z)
| RegisterHotkeyReply (h : ReplyHeader) (replaced flags vkey : Z)
| UnregisterHotkeyReply (h : ReplyHeader) (flags vkey : Z)
| SetHookReply (h : ReplyHeader) (handle : Z)
| StartHookChainReply (h : ReplyHeader) (handle pid tid unicode proc : Z)
| GetHookInfoReply (h : ReplyHeader) (handle id pid tid proc unicode : Z)
| OpenDesktopReply (h : ReplyHeader) (handle : Z)
| OpenInputDesktopReply (h : ReplyHeader) (handle : Z)
| SetDesktopShellWindowsReply (h : ReplyHeader) (shell listview progman taskman : Z)
| CreateWinstationReply (h : ReplyHeader) (handle : Z)
| OpenWinstationReply (h : ReplyHeader) (handle : Z)
| EnumWinstationReply (h : ReplyHeader) (count total : Z)
| SetWinstationMonitorsReply (h : ReplyHeader) (serial : Z)
| GetClipboardInfoReply (h : ReplyHeader) (window owner viewer seqno : Z)
| SetKeyboardRepeatReply (h : ReplyHeader) (enable : Z)
| GetTokenSidReply (h : ReplyHeader) (sid_len : Z)
| GetTokenDefaultDaclReply (h : ReplyHeader) (acl_len : Z)
| OpenTokenReply (h : ReplyHeader) (token : Z)
| GetTokenInfoReply (h : ReplyHeader) (token_id modified_id : list Z)
    (session_id primary impersonation_level elevation_type is_elevated group_count privilege_count : Z)
| GetTokenGroupsReply (h : ReplyHeader) (attr_len sid_len : Z)
| GetTokenPrivilegesReply (h : ReplyHeader) (len : Z)
| AccessCheckReply (h : ReplyHeader) (access_granted access_status privileges_len : Z)
| GetSecurityObjectReply (h : ReplyHeader) (sd_len : Z).

Record SetCursorRequest : Type := mkSetCursor {
  cu_flags : Z; cu_handle : Z; cu_show_count : Z; cu_x : Z; cu_y : Z; cu_clip : list Z }.
Record SetCaretInfoRequest : Type := mkCaretInfo {
  ca_handle : Z; ca_flags : Z; ca_x : Z; ca_y : Z; ca_hide : Z; ca_state : Z }.

Class Protocol : Type := {
  layout : desktop_reply -> list Z;
  set_process_winstation_request : list Z -> option Z;
  get_thread_input_request : list Z -> option Z;
  set_cursor_request : list Z -> option SetCursorRequest;
  set_foreground_window_request : list Z -> option unit;
  set_focus_window_request : list Z -> option Z;
  set_active_window_request : list Z -> option Z;
  set_capture_window_request : list Z -> option (Z * Z);
  set_user_object_info_request : list Z -> option Z;
  get_key_state_request : list Z -> option Z;
  set_caret_window_request : list Z -> option (Z * Z * Z);
  set_caret_info_request : list Z -> option SetCaretInfoRequest;
  set_winstation_monitors_request : list Z -> option Z;
  set_keyboard_repeat_request : list Z -> option (Z * Z * Z);
  add_clipboard_listener_request : list Z -> option Z;
  get_token_sid_request : list Z -> option unit;
}.

Section handlers.
Context {K : Type} `{Ntsync K, Protocol, MessageTypes}.
Implicit Types (ev : EventLoop K) (buf : list Z).

Definition fixed (r : desktop_reply) : Reply := reply_fixed (layout r).
Definition user ev : UserState := user_state ev.

(** ** Desktops and window stations *)
Definition desktop_locator ev : list Z := le_bytes 8 (desktop_locator_id (user ev)) ++ le_bytes 8 (desktop_offset (user ev)).

Definition handle_get_thread_desktop (client_fd : Z) buf ev : EventLoop K * Reply :=
  (ev, fixed (GetThreadDesktopReply (hdr 0) (desktop_locator ev) 4)).
Definition handle_set_thread_desktop (client_fd : Z) buf ev : EventLoop K * Reply :=
  (ev, fixed (SetThreadDesktopReply (hdr 0) (desktop_locator ev))).

Definition handle_get_process_winstation (client_fd : Z) buf ev : EventLoop K * Reply :=
  let handle := default (default_winstation_handle (user ev)) (process_winstations ev !! client_pid ev client_fd) in
  (ev, fixed (GetProcessWinstationReply (hdr 0) handle)).

Definition handle_set_process_winstation (client_fd : Z) buf ev : EventLoop K * Reply :=
  match set_process_winstation_request buf with
  | None => (ev, status_reply 0xC000000D)
  | Some handle =>
      let pid := client_pid ev client_fd in
      (if decide (pid <> 0) then ev <| process_winstations ::= <[pid := handle]> |> else ev, status_reply 0)
  end.

(** The entry of the desktop window names the caller as its owner, with two writes. *)
Definition own_desktop (tid pid : Z) ev : EventLoop K :=
  if decide (desktop_top_window ev <> 0) then
    let entry := Z.shiftr (u32 (desktop_top_window ev - FIRST_USER_HANDLE)) 1 * USER_ENTRY_SIZE in
    pwrite_session (entry + 12) (le_bytes 4 pid) (pwrite_session (entry + 8) (le_bytes 4 tid) ev)
  else ev.

Definition handle_create_desktop (client_fd : Z) buf ev : EventLoop K * Reply :=
  let '(ev, oid) := alloc_object_id ev in
  let '(ev, handle) :=
    match nonzero_pid ev client_fd with
    | Some pid =>
        match processes (state ev) !! pid with
        | Some p => let '(t, h) := allocate (handles p) oid in (with_handles pid t ev, h)
        | None => (ev, 4)
        end
    | None => (ev, 4)
    end in
  let tid := default 0 (client_thread_id ev client_fd) in
  let ev := on_window (desktop_top_window ev) (fun w => w <| ws_tid := tid |>) ev in
  let ev := own_desktop tid (client_pid ev client_fd) ev in
  let ev := on_user (fun u => u <| desktop_ready := true |>) ev <| shm ::= Shm.set_desktop_ready |> in
  (ev, fixed (CreateDesktopReply (hdr 0) handle)).

(** Opening a desktop or station allocates a handle on a fresh object. *)
Definition open_object (mk : ReplyHeader -> Z -> desktop_reply) (client_fd : Z) ev : EventLoop K * Reply :=
  let '(ev, oid) := alloc_object_id ev in
  let '(ev, handle) := alloc_handle_for_client client_fd oid ev in
  if decide (handle = 0) then (ev, status_reply 0xC0000017) else (ev, fixed (mk (hdr 0) handle)).

Definition handle_open_desktop (client_fd : Z) buf ev : EventLoop K * Reply := open_object OpenDesktopReply client_fd ev.
Definition handle_open_input_desktop (client_fd : Z) buf ev : EventLoop K * Reply := open_object OpenInputDesktopReply client_fd ev.
Definition handle_open_winstation (client_fd : Z) buf ev : EventLoop K * Reply := open_object OpenWinstationReply client_fd ev.

Definition handle_create_winstation (client_fd : Z) buf ev : EventLoop K * Reply :=
  let '(ev, oid) := alloc_object_id ev in
  let '(ev, handle) := alloc_handle_for_client client_fd oid ev in
  if decide (handle = 0) then (ev, status_reply 0xC0000017)
  else
    let vararg := vararg_of buf in
    (if decide (vararg <> []) then on_user (fun u => u <| winstation_names ::= <[u32 oid := vararg]> |>) ev else ev,
     fixed (CreateWinstationReply (hdr 0) handle)).

Definition handle_set_user_object_info (client_fd : Z) buf ev : EventLoop K * Reply :=
  match set_user_object_info_request buf with
  | None => (ev, status_reply 0xC000000D)
  | Some handle =>
      let pid := client_pid ev client_fd in
      let oid := if decide (pid <> 0) then (fun e => u32 (object_id e)) <$> handle_entry ev pid handle else None in
      let name := default (u16_bytes (lit "WinSta0")) (oid ≫= fun o => winstation_names (user ev) !! o) in
      let send_len := Z.min (blen name) (max_reply_vararg buf) in
      (ev, reply_vararg (layout (SetUserObjectInfoReply (mkReplyHeader 0 send_len) 0 0)) (take (Z.to_nat send_len) name))
  end.

Definition handle_close_desktop (client_fd : Z) buf ev : EventLoop K * Reply := (ev, status_reply 0).
Definition handle_set_input_desktop (client_fd : Z) buf ev : EventLoop K * Reply := (ev, status_reply 0).
Definition handle_close_winstation (client_fd : Z) buf ev : EventLoop K * Reply := (ev, status_reply 0).
Definition handle_enum_winstation (client_fd : Z) buf ev : EventLoop K * Reply := (ev, fixed (EnumWinstationReply (hdr 0) 0 0)).
Definition handle_set_desktop_shell_windows (client_fd : Z) buf ev : EventLoop K * Reply :=
  (ev, fixed (SetDesktopShellWindowsReply (hdr 0) 0 0 0 0)).

(** *** Monitors *)
Definition MONITOR_INFO_SIZE : nat := 40.

(** A store to the desktop object without a check of its bounds. *)
Definition desktop_write (stores : Z -> list (gmap Z Z -> gmap Z Z)) ev : EventLoop K :=
  let off := desktop_offset (user ev) in
  if session_mapped ev then ev <| session ::= write_end off (stores (off + 16)) |> else ev.

(** The first monitor's rectangle becomes that of the desktop and the cursor's clip. *)
Definition apply_monitor (virt_rect : list Z) ev : EventLoop K :=
  let ev := on_window (desktop_top_window ev) (fun w => w <| window_rect := virt_rect |> <| client_rect := virt_rect |>) ev in
  let ev := on_user (fun u => u <| monitor_rect := virt_rect |>) ev in
  let right := coord virt_rect 8 in
  let bottom := coord virt_rect 12 in
  if decide (session_mapped ev = true /\ 0 < right /\ 0 < bottom) then
    let off := desktop_offset (user ev) in
    shared_write off [write32 (off + 16 + 24) right; write32 (off + 16 + 28) bottom] ev
  else ev.

Definition handle_set_winstation_monitors (client_fd : Z) buf ev : EventLoop K * Reply :=
  match set_winstation_monitors_request buf with
  | None => (ev, status_reply 0xC000000D)
  | Some increment =>
      let vararg := vararg_of buf in
      let ev := if decide (increment <> 0) then on_user (fun u => u <| monitor_serial ::= fun s => u64 (s + 1) |>) ev else ev in
      let serial := monitor_serial (user ev) in
      let ev := desktop_write (fun shm => [write64 (shm + 288) serial]) ev in
      (if decide (MONITOR_INFO_SIZE <= length vararg)%nat then apply_monitor (slice 16 16 vararg) ev else ev,
       fixed (SetWinstationMonitorsReply (hdr 0) serial))
  end.

(** ** Input of a thread *)

(** A client of the process that has an input object. *)
Definition shared_input (pid : Z) ev : option (list Z) :=
  (fun kc => input_locator kc.2) <$>
    head (filter (fun kc => process_id kc.2 = pid /\ input_locator kc.2 <> no_rect) (map_to_list (clients ev))).

Definition set_input_locator (client_fd : Z) (loc : list Z) ev : EventLoop K :=
  ev <| clients ::= alter (fun c => c <| input_locator := loc |>) client_fd |>.

Definition handle_get_thread_input (client_fd : Z) buf ev : outcome (EventLoop K * Reply) :=
  let req_tid := default 0 (get_thread_input_request buf) in
  let own := default no_rect (input_locator <$> clients ev !! client_fd) in
  let locator := if decide (req_tid = 0) then own else default own ((fun kc => input_locator kc.2) <$> find_client req_tid ev) in
  r <-! (if decide (locator <> no_rect) then Ret (ev, locator)
         else
           match shared_input (client_pid ev client_fd) ev with
           | Some loc => Ret (set_input_locator client_fd loc ev, loc)
           | None =>
               r <-! alloc_shared_object ev ;;
               let off := locator_offset r.2 in
               Ret (set_input_locator client_fd r.2 (shared_write off [write32 (off + 16) 1] r.1), r.2)
           end) ;;
  Ret (r.1, fixed (GetThreadInputReply (hdr 0) r.2)).

(** The message goes to every window of the thread. *)
Definition activate_windows (tid : Z) (windows : list Z) ev : EventLoop K :=
  fold_left (fun ev h => match queue_post tid (posted_message h WM_ACTIVATEAPP 1 0 0 0 0) ev with
                         | Some (ev, _) => ev
                         | None => ev
                         end) windows ev.

Definition handle_set_foreground_window (client_fd : Z) buf ev : EventLoop K * Reply :=
  match set_foreground_window_request buf with
  | None => (ev, status_reply 0xC000000D)
  | Some _ =>
      let previous := read_input_shm client_fd 4 ev in
      let ev := write_input_shm client_fd 0 1 ev in
      let tid := default 0 (thread_id <$> clients ev !! client_fd) in
      let mine := fst <$> filter (fun kw => ws_tid kw.2 = tid) (map_to_list (window_states ev)) in
      let ev :=
        if decide (tid <> 0 /\ is_Some (Shm.slot_map (shm ev) !! tid)) then
          let ev := activate_windows tid mine ev in
          if decide (mine <> []) then set_queue_bits_for_tid tid (Z.lor QS_POSTMESSAGE QS_ALLPOSTMESSAGE) ev else ev
        else ev in
      (ev, fixed (SetForegroundWindowReply (hdr 0) previous 0 0))
  end.

Definition handle_set_focus_window (client_fd : Z) buf ev : EventLoop K * Reply :=
  match set_focus_window_request buf with
  | None => (ev, status_reply 0xC000000D)
  | Some handle => (write_input_shm client_fd 8 handle ev, fixed (SetFocusWindowReply (hdr 0) (read_input_shm client_fd 8 ev)))
  end.

Definition handle_set_active_window (client_fd : Z) buf ev : EventLoop K * Reply :=
  match set_active_window_request buf with
  | None => (ev, status_reply 0xC000000D)
  | Some handle => (write_input_shm client_fd 4 handle ev, fixed (SetActiveWindowReply (hdr 0) (read_input_shm client_fd 4 ev)))
  end.

Definition handle_set_capture_window (client_fd : Z) buf ev : EventLoop K * Reply :=
  match set_capture_window_request buf with
  | None => (ev, status_reply 0xC000000D)
  | Some (handle, flags) =>
      let previous := read_input_shm client_fd 12 ev in
      let ev := write_input_shm client_fd 12 handle ev in
      let ev := write_input_shm client_fd 16 (if has flags 0x01 then handle else 0) ev in
      let ev := write_input_shm client_fd 20 (if has flags 0x02 then handle else 0) ev in
      (ev, fixed (SetCaptureWindowReply (hdr 0) previous handle))
  end.

(** *** Cursor, caret and keyboard *)
Definition move_cursor (req : SetCursorRequest) (u : UserState) : UserState :=
  let flags := cu_flags req in
  let u := if has flags 0x01 then u <| cursor_handle := cu_handle req |> else u in
  let u := if has flags 0x02 then u <| cursor_count ::= fun n => i32 (n + cu_show_count req) |> else u in
  let u := if has flags 0x04 then u <| cursor_x := cu_x req |> <| cursor_y := cu_y req |>
                                    <| cursor_last_change ::= fun n => u32 (n + 1) |> else u in
  let u := if has flags 0x08 then u <| cursor_clip := cu_clip req |> else u in
  if has flags 0x10 then u <| cursor_clip := no_rect |> else u.

Definition handle_set_cursor (client_fd : Z) buf ev : EventLoop K * Reply :=
  match set_cursor_request buf with
  | None => (ev, status_reply 0xC000000D)
  | Some req =>
      let old := user ev in
      let new := move_cursor req old in
      (on_user (fun _ => new) ev,
       fixed (SetCursorReply (hdr 0) (cursor_handle old) (cursor_count old) (cursor_x old) (cursor_y old)
                (cursor_x new) (cursor_y new) (cursor_clip new) (cursor_last_change new)))
  end.

Definition no_caret : Z * list Z * Z * Z := (0, no_rect, 0, 0).
Definition caret_of (tid : Z) ev : Z * list Z * Z * Z := default no_caret (caret_state ev !! tid).

Definition handle_set_caret_window (client_fd : Z) buf ev : EventLoop K * Reply :=
  match set_caret_window_request buf with
  | None => (ev, status_reply 0xC000000D)
  | Some (handle, width, height) =>
      let tid := default 0 (client_thread_id ev client_fd) in
      let '(previous, old_rect, old_hide, old_state) := caret_of tid ev in
      let rect := replicate 8 0 ++ le_bytes 4 width ++ le_bytes 4 height in
      (ev <| caret_state ::= fun m => if decide (handle <> 0) then <[tid := (handle, rect, 0, 0)]> m else delete tid m |>,
       fixed (SetCaretWindowReply (hdr 0) previous old_rect old_hide old_state))
  end.

(** The rectangle moved to a point, with its size. *)
Definition move_rect (x y : Z) (rect : list Z) : list Z :=
  let old_w := i32 (coord rect 8 - coord rect 0) in
  let old_h := i32 (coord rect 12 - coord rect 4) in
  le_bytes 4 x ++ le_bytes 4 y ++ le_bytes 4 (i32 (x + old_w)) ++ le_bytes 4 (i32 (y + old_h)).

Definition handle_set_caret_info (client_fd : Z) buf ev : EventLoop K * Reply :=
  match set_caret_info_request buf with
  | None => (ev, status_reply 0xC000000D)
  | Some req =>
      let tid := default 0 (client_thread_id ev client_fd) in
      let '(old_handle, old_rect, old_hide, old_state) := caret_of tid ev in
      let rect := if has (ca_flags req) 0x01 then move_rect (ca_x req) (ca_y req) old_rect else old_rect in
      let hide := if has (ca_flags req) 0x02 then i32 (old_hide + ca_hide req) else old_hide in
      let st := if has (ca_flags req) 0x04 then ca_state req else old_state in
      (ev <| caret_state ::= <[tid := (ca_handle req, rect, hide, st)]> |>,
       fixed (SetCaretInfoReply (hdr 0) old_handle old_rect old_hide old_state))
  end.

Definition read_desktop_keystate (vk : Z) ev : Z :=
  if session_mapped ev then default 0 (session ev !! (desktop_offset (user ev) + 16 + 32 + vk)) else 0.

Definition handle_get_key_state (client_fd : Z) buf ev : EventLoop K * Reply :=
  let vk := default 0 ((fun key => Z.land key 0xFF) <$> get_key_state_request buf) in
  (ev, fixed (GetKeyStateReply (hdr 0) (read_desktop_keystate vk ev))).

Definition handle_set_keyboard_repeat (client_fd : Z) buf ev : EventLoop K * Reply :=
  match set_keyboard_repeat_request buf with
  | None => (ev, status_reply 0xC000000D)
  | Some (enable, delay, period) =>
      let '(e, d, p) := keyboard_repeat (user ev) in
      let pick (new old : Z) := if decide (0 <= new) then new else old in
      (on_user (fun u => u <| keyboard_repeat := (pick enable e, pick delay d, pick period p) |>) ev,
       fixed (SetKeyboardRepeatReply (hdr 0) e))
  end.

Definition handle_get_clipboard_info (client_fd : Z) buf ev : EventLoop K * Reply :=
  (ev, fixed (GetClipboardInfoReply (hdr 0) 0 0 0 (clipboard_seqno (user ev)))).
Definition handle_add_clipboard_listener (client_fd : Z) buf ev : EventLoop K * Reply :=
  (match add_clipboard_listener_request buf with
   | Some window => ev <| clipboard_listeners ::= fun s => {[window]} ∪ s |>
   | None => ev
   end, status_reply 0).

Definition handle_get_cursor_history (client_fd : Z) buf ev : EventLoop K * Reply := (ev, status_reply 0).
Definition handle_get_rawinput_buffer (client_fd : Z) buf ev : EventLoop K * Reply := (ev, fixed (GetRawinputBufferReply (hdr 0) 0 0 0)).
Definition handle_attach_thread_input (client_fd : Z) buf ev : EventLoop K * Reply := (ev, status_reply 0).
Definition handle_set_key_state (client_fd : Z) buf ev : EventLoop K * Reply := (ev, status_reply 0).
Definition handle_update_rawinput_devices (client_fd : Z) buf ev : EventLoop K * Reply := (ev, status_reply 0).
Definition handle_register_hotkey (client_fd : Z) buf ev : EventLoop K * Reply := (ev, fixed (RegisterHotkeyReply (hdr 0) 0 0 0)).
Definition handle_unregister_hotkey (client_fd : Z) buf ev : EventLoop K * Reply := (ev, fixed (UnregisterHotkeyReply (hdr 0) 0 0)).

(** ** Hooks *)
Definition handle_set_hook (client_fd : Z) buf ev : EventLoop K * Reply := (ev, fixed (SetHookReply (hdr 0) 0)).
Definition handle_remove_hook (client_fd : Z) buf ev : EventLoop K * Reply := (ev, status_reply 0).
Definition handle_start_hook_chain (client_fd : Z) buf ev : EventLoop K * Reply := (ev, fixed (StartHookChainReply (hdr 0) 0 0 0 0 0)).
Definition handle_finish_hook_chain (client_fd : Z) buf ev : EventLoop K * Reply := (ev, status_reply 0).
Definition handle_get_hook_info (client_fd : Z) buf ev : EventLoop K * Reply := (ev, fixed (GetHookInfoReply (hdr 0) 0 0 0 0 0 0)).

(** ** Tokens and security *)
Definition STATUS_BUFFER_TOO_SMALL : Z := 0xC0000023.

Definition handle_get_token_sid (client_fd : Z) buf ev : EventLoop K * Reply :=
  match get_token_sid_request buf with
  | None => (ev, status_reply 0xC000000D)
  | Some _ =>
      let sid := user_sid (user ev) in
      if decide (max_reply_vararg buf < blen sid)
      then (ev, fixed (GetTokenSidReply (hdr STATUS_BUFFER_TOO_SMALL) (blen sid)))
      else (ev, reply_vararg (layout (GetTokenSidReply (mkReplyHeader 0 (blen sid)) (blen sid))) sid)
  end.

Definition handle_open_token (client_fd : Z) buf ev : EventLoop K * Reply :=
  let '(ev, handle) := alloc_waitable_handle_for_client client_fd ev in
  if decide (handle = 0) then (ev, status_reply 0xC0000017) else (ev, fixed (OpenTokenReply (hdr 0) handle)).

Definition handle_get_token_default_dacl (client_fd : Z) buf ev : EventLoop K * Reply := (ev, fixed (GetTokenDefaultDaclReply (hdr 0) 0)).
Definition handle_get_token_info (client_fd : Z) buf ev : EventLoop K * Reply :=
  (ev, fixed (GetTokenInfoReply (hdr 0) ([0xE8; 0x03] ++ replicate 6 0) (1 :: replicate 7 0) 0 1 0 3 1 0 0)).
Definition handle_get_token_groups (client_fd : Z) buf ev : EventLoop K * Reply := (ev, fixed (GetTokenGroupsReply (hdr 0) 0 0)).
Definition handle_get_token_privileges (client_fd : Z) buf ev : EventLoop K * Reply := (ev, fixed (GetTokenPrivilegesReply (hdr 0) 0)).
Definition handle_access_check (client_fd : Z) buf ev : EventLoop K * Reply := (ev, fixed (AccessCheckReply (hdr 0) 0x1F0FFF 0 0)).
Definition handle_get_security_object (client_fd : Z) buf ev : EventLoop K * Reply := (ev, fixed (GetSecurityObjectReply (hdr 0) 0)).
Definition handle_set_security_object (client_fd : Z) buf ev : EventLoop K * Reply := (ev, status_reply 0).

(** ** What the handlers keep *)

(** The client's input object lies in the mapping. *)
Definition input_mapped (c : Z) ev : Prop :=
  let off := input_offset c ev in session_mapped ev = true /\ 0 < off /\ off + SHARED_OBJECT_STRIDE <= session_size ev < 2 ^ 63.

Lemma write_input_spec c o v ev : input_mapped c ev -> 0 <= o <= 1000 ->
  let ev' := write_input_shm c o v ev in
  input_mapped c ev' /\ read_input_shm c o ev' = u32 v /\
  forall o', 0 <= o' <= 1000 -> o' + 4 <= o \/ o + 4 <= o' -> read_input_shm c o' ev' = read_input_shm c o' ev.
Proof.
  intros (Hm & Hoff & Hfit & Hsz) Ho ev'. unfold SHARED_OBJECT_STRIDE in *. set (off := input_offset c ev) in *.
  assert (ev' = ev <| session ::= write_end off [write32 (off + 16 + o) v] |>) as ->.
  { unfold ev', write_input_shm. fold off. rewrite decide_False by (rewrite Hm; intros [?|?]; [done|lia]).
    unfold shared_write. rewrite decide_True; [done|]. unfold object_mapped, SHARED_OBJECT_STRIDE.
    rewrite u64_small by word_lia. done. }
  set (ev1 := ev <| session ::= _ |>). assert (input_offset c ev1 = off) as Ho1 by done.
  assert (forall o', 0 <= o' <= 1000 -> read_input_shm c o' ev1 = read32 (off + 16 + o') (session ev1)) as Hr1.
  { intros o' Ho'. unfold read_input_shm. rewrite Ho1. change (session_mapped ev1) with (session_mapped ev). change (session_size ev1) with (session_size ev).
    rewrite Hm. rewrite decide_False by (intros [?|?]; [done|lia]). by rewrite decide_False by lia. }
  assert (forall o', 0 <= o' <= 1000 -> read_input_shm c o' ev = read32 (off + 16 + o') (session ev)) as Hr.
  { intros o' Ho'. unfold read_input_shm. fold off. rewrite Hm. rewrite decide_False by (intros [?|?]; [done|lia]). by rewrite decide_False by lia. }
  assert (session ev1 = write_end off [write32 (off + 16 + o) v] (session ev)) as Hs by done.
  assert (input_mapped c ev1) as Him by (unfold input_mapped; rewrite Ho1; done). clearbody ev1.
  split_and!; [done| |].
  - rewrite Hr1, Hs by done. unfold write_end, body_end, write64. cbn [fold_left].
    rewrite read32_write_other by (rewrite length_le_bytes; lia). unfold read32, write32. rewrite (read_write_same _ (le_bytes 4 v)).
    rewrite from_le_bytes. done.
  - intros o' Ho' Hd. rewrite Hr1, Hr, Hs by done. unfold write_end, body_end, write64, write32. cbn [fold_left].
    rewrite !read32_write_other by (rewrite length_le_bytes; lia). done.
Qed.

(** *** Focus, activation and capture

    The input of a thread as its clients see it. *)
Record input_state : Type := mkInput { i_active : Z; i_focus : Z; i_capture : Z; i_menu_owner : Z; i_move_size : Z }.

Definition input_of (c : Z) ev : input_state :=
  mkInput (read_input_shm c 4 ev) (read_input_shm c 8 ev) (read_input_shm c 12 ev) (read_input_shm c 16 ev) (read_input_shm c 20 ev).

Inductive input_op : Type := SetActive (buf : list Z) | SetFocus (buf : list Z) | SetCapture (buf : list Z).

Definition run_input (c : Z) (op : input_op) ev : EventLoop K * Reply :=
  match op with
  | SetActive buf => handle_set_active_window c buf ev
  | SetFocus buf => handle_set_focus_window c buf ev
  | SetCapture buf => handle_set_capture_window c buf ev
  end.

(** The abstract input state: three windows, of which one holds the capture and
    may own a menu or be moved. *)
Definition spec_input (op : input_op) (s : input_state) : input_state * Reply :=
  match op with
  | SetActive buf =>
      match set_active_window_request buf with
      | Some h => (mkInput (u32 h) (i_focus s) (i_capture s) (i_menu_owner s) (i_move_size s), fixed (SetActiveWindowReply (hdr 0) (i_active s)))
      | None => (s, status_reply 0xC000000D)
      end
  | SetFocus buf =>
      match set_focus_window_request buf with
      | Some h => (mkInput (i_active s) (u32 h) (i_capture s) (i_menu_owner s) (i_move_size s), fixed (SetFocusWindowReply (hdr 0) (i_focus s)))
      | None => (s, status_reply 0xC000000D)
      end
  | SetCapture buf =>
      match set_capture_window_request buf with
      | Some (h, flags) =>
          (mkInput (i_active s) (i_focus s) (u32 h) (if has flags 0x01 then u32 h else 0) (if has flags 0x02 then u32 h else 0),
           fixed (SetCaptureWindowReply (hdr 0) (i_capture s) h))
      | None => (s, status_reply 0xC000000D)
      end
  end.

Fixpoint run_inputs (c : Z) (ops : list input_op) ev : EventLoop K * list Reply :=
  match ops with
  | [] => (ev, [])
  | op :: ops => let '(ev, r) := run_input c op ev in let '(ev, rs) := run_inputs c ops ev in (ev, r :: rs)
  end.
Fixpoint spec_inputs (ops : list input_op) (s : input_state) : input_state * list Reply :=
  match ops with
  | [] => (s, [])
  | op :: ops => let '(s, r) := spec_input op s in let '(s, rs) := spec_inputs ops s in (s, r :: rs)
  end.

(** A store to one field, seen as the abstract state. *)
Lemma input_of_write c o v ev : input_mapped c ev -> o ∈ [4; 8; 12; 16; 20] ->
  input_mapped c (write_input_shm c o v ev) /\
  let s := input_of c ev in
  let pick f old := if decide (o = f) then u32 v else old in
  input_of c (write_input_shm c o v ev) =
    mkInput (pick 4 (i_active s)) (pick 8 (i_focus s)) (pick 12 (i_capture s)) (pick 16 (i_menu_owner s)) (pick 20 (i_move_size s)).
Proof.
  intros Hm Ho. rewrite !elem_of_cons in Ho.
  assert (0 <= o <= 20 /\ (4 | o)) as [Hr [k ->]].
  { destruct Ho as [->|[->|[->|[->|[->|Hx%elem_of_nil]]]]]; [..|done]; (split; [lia|]); [by exists 1|by exists 2|by exists 3|by exists 4|by exists 5]. }
  destruct (write_input_spec c (k * 4) v ev Hm) as (Hm' & Hsame & Hother); [lia|]. split; [done|]. cbn zeta. unfold input_of. cbn [i_active i_focus i_capture i_menu_owner i_move_size].
  f_equal; (case_decide as Hd; [by rewrite Hd in *|apply Hother; lia]).
Qed.

Lemma run_input_sim c op ev : input_mapped c ev ->
  let '(ev', r) := run_input c op ev in let '(s', r') := spec_input op (input_of c ev) in
  r = r' /\ input_of c ev' = s' /\ input_mapped c ev'.
Proof.
  intros Hm. destruct op as [buf|buf|buf]; cbn [run_input spec_input].
  - unfold handle_set_active_window. destruct (set_active_window_request buf) as [h|]; [|done].
    destruct (input_of_write c 4 h ev Hm) as [Hm' ->]; [set_solver|]. done.
  - unfold handle_set_focus_window. destruct (set_focus_window_request buf) as [h|]; [|done].
    destruct (input_of_write c 8 h ev Hm) as [Hm' ->]; [set_solver|]. done.
  - unfold handle_set_capture_window. destruct (set_capture_window_request buf) as [[h flags]|]; [|done].
    destruct (input_of_write c 12 h ev Hm) as [Hm1 E1]; [set_solver|].
    destruct (input_of_write c 16 (if has flags 1 then h else 0) (write_input_shm c 12 h ev) Hm1) as [Hm2 E2]; [set_solver|].
    match goal with |- context [write_input_shm c 20 ?v ?e] => destruct (input_of_write c 20 v e Hm2) as [Hm3 E3]; [set_solver|] end.
    split_and!; [done| |done]. rewrite E3, E2, E1. cbn. by destruct (has flags 1), (has flags 2).
Qed.

(** C33: for a client whose input object is mapped, any sequence of requests for
    the active, focus and capture window behaves as three independent variables
    with the two flags of the capture: every answer gives the previous window of
    that kind, and the shared memory holds the new state at the end. *)
Theorem input_requests_refine c (ops : list input_op) ev : input_mapped c ev ->
  (run_inputs c ops ev).2 = (spec_inputs ops (input_of c ev)).2 /\
  input_of c (run_inputs c ops ev).1 = (spec_inputs ops (input_of c ev)).1.
Proof.
  revert ev; induction ops as [|op ops IH]; intros ev Hm; cbn [run_inputs spec_inputs]; [done|].
  pose proof (run_input_sim c op ev Hm) as Hs. destruct (run_input c op ev) as [ev1 r]. destruct (spec_input op (input_of c ev)) as [s1 r'].
  destruct Hs as (-> & <- & Hm1). destruct (IH ev1 Hm1) as [IH1 IH2].
  destruct (run_inputs c ops ev1), (spec_inputs ops (input_of c ev1)). cbn in *. by subst.
Qed.

(** *** Names of window stations *)
Lemma allocate_as_full (t : HandleTable.HandleTable) o : allocate t o = allocate_full t (entry_new o).
Proof. unfold allocate, allocate_full. by destruct (Slab.HeapSlab.insert_bump _ _) as [s [i x]]. Qed.

(** A window station created with a name gives that name back: asked for the
    information of the new handle, with room for it, the daemon answers with the
    bytes it was created with. *)
Theorem winstation_name_roundtrip c buf (ask : Z -> list Z) ev pid p :
  nonzero_pid ev c = Some pid -> processes (state ev) !! pid = Some p -> HandleTable.wf (handles p) -> has_room p ->
  vararg_of buf <> [] ->
  (forall h, set_user_object_info_request (ask h) = Some h) -> (forall h, blen (vararg_of buf) <= max_reply_vararg (ask h)) ->
  exists h, let '(ev', r) := handle_create_winstation c buf ev in
    r = fixed (CreateWinstationReply (hdr 0) h) /\
    (handle_set_user_object_info c (ask h) ev').2 =
      reply_vararg (layout (SetUserObjectInfoReply (mkReplyHeader 0 (blen (vararg_of buf))) 0 0)) (vararg_of buf).
Proof.
  intros Hc Hp Hwf Hroom Hname Hreq Hmax. unfold handle_create_winstation, alloc_object_id. destruct (ServerState.alloc_object_id (state ev)) as [st oid] eqn:Hst.
  unfold alloc_handle_for_client. change (nonzero_pid (ev <| state := st |>) c) with (nonzero_pid ev c). rewrite Hc.
  assert (processes st = processes (state ev)) as Hps. { unfold ServerState.alloc_object_id in Hst. by injection Hst as <- _. }
  change (state (ev <| state := st |>)) with st. rewrite Hps, Hp, allocate_as_full.
  destruct (allocate_full_facts (handles p) (entry_new oid) Hwf Hroom) as (t & h & -> & Hh & _ & _ & _ & Hg & _).
  exists h. rewrite decide_False, decide_True by done. split; [done|].
  unfold handle_set_user_object_info. rewrite Hreq. set (ev1 := on_user _ _).
  assert (client_pid ev1 c = pid /\ pid <> 0) as [Hpid Hpid0].
  { unfold nonzero_pid in Hc. apply bind_Some in Hc as (cl & Hcl & Hx). case_decide; [|done]. injection Hx as <-.
    split; [|done]. unfold client_pid. change (clients ev1) with (clients ev). by rewrite Hcl. }
  rewrite Hpid, decide_True by done.
  assert (handle_entry ev1 pid h = Some (entry_new oid)) as ->.
  { change (handle_entry ev1 pid h) with (handle_entry (with_handles pid t (ev <| state := st |>)) pid h).
    rewrite handle_entry_with_handles by (recs; rewrite Hps, Hp; eauto). rewrite decide_True, Hg by done. by rewrite decide_True. }
  unfold ev1, on_user, user. recs. rewrite lookup_insert_eq. cbn [default from_option id].
  specialize (Hmax h). rewrite Z.min_l by done. unfold blen at 2. by rewrite Nat2Z.id, firstn_all.
Qed.

(** *** Tokens *)

(** A client that asks for the user's SID with too little room is told the length
    and gets the whole SID when it asks again with that much. *)
Lemma token_sid_retry c buf buf' ev : is_Some (get_token_sid_request buf) -> is_Some (get_token_sid_request buf') ->
  max_reply_vararg buf < blen (user_sid (user ev)) -> max_reply_vararg buf' = blen (user_sid (user ev)) ->
  handle_get_token_sid c buf ev = (ev, fixed (GetTokenSidReply (hdr STATUS_BUFFER_TOO_SMALL) (blen (user_sid (user ev))))) /\
  handle_get_token_sid c buf' ev =
    (ev, reply_vararg (layout (GetTokenSidReply (mkReplyHeader 0 (max_reply_vararg buf')) (max_reply_vararg buf'))) (user_sid (user ev))).
Proof.
  intros [[] Hb] [[] Hb'] Hlt Heq. unfold handle_get_token_sid. rewrite Hb, Hb', Heq.
  rewrite decide_True by done. by rewrite decide_False by lia.
Qed.

End handlers.
End Desktop.

(** ** The definitions on a small loop *)
Module DesktopDemo.
Import Replies Ntsync ModelKernel Ipc ServerState Loop LoopDemo Session WinTree.
Import Windows WindowsDemo Desktop.

#[export] Instance demo_desktop : Desktop.Protocol := {
  layout r := match r with
              | SetFocusWindowReply h p => header_bytes h ++ le_bytes 4 p
              | CreateWinstationReply h n => header_bytes h ++ le_bytes 4 n
              | SetUserObjectInfoReply h _ _ => header_bytes h
              | GetTokenSidReply h n => header_bytes h ++ le_bytes 4 n
              | _ => []
              end;
  set_process_winstation_request b := Some (arg 0 b);
  get_thread_input_request b := Some (arg 0 b);
  set_cursor_request b := Some (mkSetCursor (arg 0 b) (arg 1 b) (arg 2 b) (arg 3 b) (arg 4 b) no_rect);
  set_foreground_window_request b := Some tt;
  set_focus_window_request b := Some (arg 0 b);
  set_active_window_request b := Some (arg 0 b);
  set_capture_window_request b := Some (arg 0 b, arg 1 b);
  set_user_object_info_request b := Some (arg 0 b);
  get_key_state_request b := Some (arg 0 b);
  set_caret_window_request b := Some (arg 0 b, arg 1 b, arg 2 b);
  set_caret_info_request b := Some (mkCaretInfo (arg 0 b) (arg 1 b) (arg 2 b) (arg 3 b) (arg 4 b) (arg 5 b));
  set_winstation_monitors_request b := Some (arg 0 b);
  set_keyboard_repeat_request b := Some (arg 0 b, arg 1 b, arg 2 b);
  add_clipboard_listener_request b := Some (arg 0 b);
  get_token_sid_request b := Some tt;
}.

(** A client with an input object. *)
Definition with_input : EventLoop MK := (got (handle_get_thread_input 7 [0] start) (start, ok0)).1.

Lemma input_requests_refine_witness :
  input_of 7 (run_inputs 7 [SetFocus [36]; SetActive [36]; SetCapture [38; 1]] with_input).1 = mkInput 36 36 38 38 0.
Proof.
  destruct (input_requests_refine 7 [SetFocus [36]; SetActive [36]; SetCapture [38; 1]] with_input) as [_ Hs].
  - unfold input_mapped. vm_compute. split_and!; congruence.
  - etrans; [exact Hs|]. vm_compute. reflexivity.
Defined.

Lemma winstation_name_roundtrip_witness :
  exists h, (handle_set_user_object_info 7 ([h; 0; 0; 0; 0; 0; 0; 0; 200; 0; 0; 0])
     (handle_create_winstation 7 (replicate 64 0 ++ [65; 0; 66; 0]) demo_loop).1).2 =
     reply_vararg (layout (SetUserObjectInfoReply (mkReplyHeader 0 4) 0 0)) [65; 0; 66; 0].
Proof.
  destruct (processes (state demo_loop) !! 32) as [p|] eqn:Hp; [|by vm_compute in Hp].
  destruct (winstation_name_roundtrip 7 (replicate 64 0 ++ [65; 0; 66; 0]) (fun h => [h; 0; 0; 0; 0; 0; 0; 0; 200; 0; 0; 0]) demo_loop 32 p) as (h & Hh).
  - reflexivity.
  - exact Hp.
  - vm_compute in Hp. injection Hp as <-. apply HandleTable.table_new_wf.
  - vm_compute in Hp. injection Hp as <-. vm_compute. reflexivity.
  - vm_compute. congruence.
  - reflexivity.
  - intros h. vm_compute. congruence.
  - exists h. destruct (handle_create_winstation 7 _ demo_loop) as [ev' r]. apply Hh.
Defined.

End DesktopDemo.
