(* ===== verification/Messages.v ===== *)
(** * Messages, queues, timers and hardware input
      ([src/rust/src/triskelion/event_loop/window.rs])

    A thread takes its next message from five sources in a fixed order: messages
    sent by blocked threads, posted messages, the quit message, windows that need
    painting and expired timers.  The files before this one model the sources;
    here are the handlers that fill and read them.  [now] is the monotonic clock
    in nanoseconds, [mono] the same clock in seconds and nanoseconds. *)

From stdpp Require Import base list gmap strings.
From coqutil Require Import Datatypes.RecordSettersUsingExistingGetters.
From S2P Require Import Prelude Queue Shm SentMessages Objects Dispatch Text Registry Loop Completion Session Client WinTree Windows Desktop.
Local Open Scope Z_scope.
Local Open Scope outcome_scope.

Module Messages.
Import Replies Text Ntsync Ipc HandleTable ServerState Loop Completion Memory Seqlock Session WinTree.
Import Windows Desktop.

(** ** Generated structs *)
Inductive msg_reply : Type :=
| GetMessageReply (h : ReplyHeader) (win msg wparam lparam type x y time total : Z)
| GetQueueStatusReply (h : ReplyHeader) (wake_bits changed_bits : Z)
| SetQueueMaskReply (h : ReplyHeader) (wake_bits changed_bits : Z)
| GetMessageReplyReply (h : ReplyHeader) (result : Z)
| SetWinTimerReply (h : ReplyHeader) (id : Z)
| GetMsgQueueReply (h : ReplyHeader) (locator : list Z)
| GetMsgQueueHandleReply (h : ReplyHeader) (handle idle_event : Z)
| SendHardwareMessageReply (h : ReplyHeader) (wait prev_x prev_y new_x new_y : Z).

Record GetMessageRequest : Type := mkGetMessage { gm_flags : Z; gm_wake_mask : Z; gm_changed_mask : Z }.
Record SendMessageRequest : Type := mkSendMessage {
  sm_id : Z; sm_type : Z; sm_win : Z; sm_msg : Z; sm_wparam : Z; sm_lparam : Z }.
Record SetQueueMaskRequest : Type := mkQueueMask { qm_wake_mask : Z; qm_changed_mask : Z; qm_poll_events : Z }.
Record SetWinTimerRequest : Type := mkWinTimerRequest { wt_win : Z; wt_msg : Z; wt_id : Z; wt_rate : Z; wt_lparam : Z }.

Class Protocol : Type := {
  layout : msg_reply -> list Z;
  get_message_request : list Z -> option GetMessageRequest;
  send_message_request : list Z -> option SendMessageRequest;
  set_queue_fd_request : list Z -> option Z;
  set_queue_mask_request : list Z -> option SetQueueMaskRequest;
  reply_message_request : list Z -> option Z;
  post_quit_message_request : list Z -> option Z;
  set_win_timer_request : list Z -> option SetWinTimerRequest;
  kill_win_timer_request : list Z -> option (Z * Z * Z);
  send_hardware_message_request : list Z -> option (Z * list Z);
}.

Definition QS_TIMER : Z := 0x0010.
Definition QS_SENDMESSAGE : Z := 0x0040.
Definition QS_HOTKEY : Z := 0x0080.
Definition QS_ALLINPUT : Z := 0x04FF.
Definition QS_INPUT : Z := 0x0407.
Definition QS_SMRESULT : Z := 0x8000.
Definition QS_DRIVER : Z := 0x80000000.
Definition WM_QUIT : Z := 0x0012.
Definition WM_PAINT : Z := 0x000F.

Section handlers.
Context {K : Type} `{Ntsync K, Protocol, MessageTypes}.
Implicit Types (ev : EventLoop K) (buf : list Z).

Definition fixed (r : msg_reply) : Reply := reply_fixed (layout r).

(** ** Taking a message *)

(** The high half of the flags selects the sources; none means all. *)
Definition filter_of (flags : Z) : Z := let f := Z.shiftr flags 16 in if decide (f = 0) then QS_ALLINPUT else f.

Definition clear32 (a mask : Z) (m : gmap Z Z) : gmap Z Z := write32 a (Z.land (read32 a m) (Z.lnot mask)) m.

(** The changed bits of the selected sources are cleared first. *)
Definition clear_changed (filter tid : Z) ev : EventLoop K :=
  match find_client tid ev with
  | None => ev
  | Some (_, c) =>
      let off := locator_offset (queue_locator c) in
      let a := off + 16 + 20 in
      shared_write off
        ((if has filter QS_POSTMESSAGE
          then [clear32 a (Z.lor (Z.lor QS_POSTMESSAGE QS_HOTKEY) (Z.lor QS_TIMER QS_ALLPOSTMESSAGE))] else []) ++
         (if has filter QS_INPUT then [clear32 a QS_INPUT] else []) ++
         (if has filter QS_PAINT then [clear32 a QS_PAINT] else [])) ev
  end.

(** [self.shm.get_queue(tid)] and [queue.get()] *)
Definition queue_get (tid : Z) ev : EventLoop K * option QueuedMessage :=
  match Shm.slot_map (shm ev) !! tid with
  | Some slot =>
      let '(q, m) := Queue.get (Shm.read_slot (shm ev) slot) in
      (ev <| shm ::= fun s => Shm.write_slot s slot q |>, m)
  | None => (ev, None)
  end.

(** A window of the thread that needs painting. *)
Definition paint_window (tid : Z) ev : option Z :=
  fst <$> head (filter (fun kw => ws_tid kw.2 = tid /\ needs_paint kw.2 = true) (map_to_list (window_states ev))).

(** A fired timer goes back to the pending ones, or stays where it is. *)
Definition restart (now : Z) (t : WinTimer) : WinTimer := t <| when_ := now + rate_ms t * 1000000 |>.
Definition push_timer (tid : Z) (t : WinTimer) (m : gmap Z (list WinTimer)) : gmap Z (list WinTimer) :=
  <[tid := default [] (m !! tid) ++ [t]]> m.

Definition simple_reply (window msg wparam lparam : Z) : Reply :=
  fixed (GetMessageReply (hdr 0) window msg wparam lparam MSG_POSTED 0 0 0 0).

(** The five sources: the state after the message is taken, and the reply. *)
Definition from_sent (tid : Z) ev : option (EventLoop K * Reply) :=
  (fun p => (ev, fixed (GetMessageReply (hdr 0) (SentMessages.win p) (SentMessages.msg_code p) (SentMessages.wparam p)
                          (SentMessages.lparam p) (SentMessages.msg_type p) 0 0 0 0))) <$> SentMessages.peek (sent_messages ev) tid.

(** An empty ring is left with its wake bit cleared. *)
Definition from_queue (tid : Z) ev : EventLoop K * option Reply :=
  let '(ev, m) := queue_get tid ev in
  (ev, (fun m => fixed (GetMessageReply (hdr 0) (Queue.win m) (Queue.msg m) (Queue.wparam m) (Queue.lparam m)
                          (Queue.msg_type m) (Queue.x m) (Queue.y m) (Queue.time m) 0)) <$> m).

Definition from_quit (remove : bool) (tid : Z) ev : option (EventLoop K * Reply) :=
  match thread_quit_state ev !! tid with
  | Some (exit_code, true) =>
      Some (if remove then ev <| thread_quit_state ::= delete tid |> else ev, simple_reply 0 WM_QUIT (u64 exit_code) 0)
  | _ => None
  end.

Definition from_paint (tid : Z) ev : option (EventLoop K * Reply) :=
  (fun window => (ev, simple_reply window WM_PAINT 0 0)) <$> paint_window tid ev.

Definition from_timers (now : Z) (remove : bool) (tid : Z) ev : option (EventLoop K * Reply) :=
  match win_timers_expired ev !! tid with
  | Some (t :: rest) =>
      Some (if remove then ev <| win_timers_expired ::= <[tid := rest]> |> <| win_timers_pending ::= push_timer tid (restart now t) |>
            else ev,
            simple_reply (Loop.win t) (timer_msg t) (timer_id t) (Loop.lparam t))
  | _ => None
  end.

(** The masks are stored twice: once when the client has a queue object, once more
    whatever its locator is. *)
Definition store_masks (client_fd : Z) (req : GetMessageRequest) ev : EventLoop K :=
  match clients ev !! client_fd with
  | None => ev
  | Some c =>
      let off := locator_offset (queue_locator c) in
      let stores := [write32 (off + 16 + 8) (gm_wake_mask req); write32 (off + 16 + 16) (gm_changed_mask req)] in
      let ev := if decide (queue_locator c <> no_rect /\ session_mapped ev = true) then shared_write off stores ev else ev in
      shared_write off stores ev
  end.

Definition first_of {A} (l : list (option A)) : option A := mjoin (head (filter is_Some l)).

Definition guarded {A} (b : bool) (o : option A) : option A := if b then o else None.

Definition handle_get_message (now client_fd : Z) buf ev : EventLoop K * Reply :=
  match get_message_request buf with
  | None => (ev, status_reply 0xC000000D)
  | Some req =>
      let filter := filter_of (gm_flags req) in
      let remove := has (gm_flags req) 1 in
      let '(ev, found) :=
        match client_thread_id ev client_fd with
        | Some tid =>
            let ev := clear_changed filter tid ev in
            match guarded (has filter QS_SENDMESSAGE) (from_sent tid ev) with
            | Some r => (ev, Some r)
            | None =>
                let '(ev, posted) := if has filter QS_POSTMESSAGE then from_queue tid ev else (ev, None) in
                (ev, first_of [ (fun r => (ev, r)) <$> posted;
                                guarded (has filter QS_POSTMESSAGE) (from_quit remove tid ev);
                                guarded (has filter QS_PAINT) (from_paint tid ev);
                                guarded (has filter QS_TIMER) (from_timers now remove tid ev) ])
            end
        | None => (ev, None)
        end in
      match found with
      | Some r => r
      | None => (store_masks client_fd req ev, fixed (GetMessageReply (hdr 0x103) 0 0 0 0 0 0 0 0 0))
      end
  end.

Definition handle_get_queue_status (client_fd : Z) buf ev : EventLoop K * Reply :=
  match client_thread_id ev client_fd ≫= Shm.get_queue (shm ev) with
  | Some q => (ev, fixed (GetQueueStatusReply (hdr 0) (Queue.wake_bits q) (Queue.wake_bits q)))
  | None => (ev, status_reply 0xC0000008)
  end.

(** ** Sending *)
Definition is_blocking (type : Z) : bool := bool_decide (type ∈ [MSG_OTHER_PROCESS; MSG_ASCII; MSG_UNICODE; MSG_CALLBACK]).

(** The thread a message goes to. *)
Definition target_of (req : SendMessageRequest) ev : Z :=
  if decide (sm_id req <> 0) then sm_id req
  else if decide (sm_win req <> 0) then default 0 (ws_tid <$> window_states ev !! sm_win req)
  else 0.

Definition release_sender (blocking : bool) (sender : Z) ev : EventLoop K :=
  if decide (blocking = true /\ sender <> 0) then set_queue_bits_for_tid sender QS_SMRESULT ev else ev.

Definition track_send (sender target : Z) (req : SendMessageRequest) ev : EventLoop K :=
  ev <| sent_messages ::= fun s => SentMessages.track s
          (SentMessages.mkPending sender target (sm_msg req) (sm_win req) (sm_wparam req) (sm_lparam req) (sm_type req)) |>.

(** A blocked sender is released at once or tracked until the reply. *)
Definition settle_sender (fast blocking : bool) (sender target : Z) (req : SendMessageRequest) ev : EventLoop K :=
  if decide (blocking = true /\ sender <> 0) then
    if fast then set_queue_bits_for_tid sender QS_SMRESULT ev else track_send sender target req ev
  else ev.

Definition handle_send_message (client_fd : Z) buf ev : EventLoop K * Reply :=
  match send_message_request buf with
  | None => (ev, status_reply 0xC000000D)
  | Some req =>
      let target := target_of req ev in
      let blocking := is_blocking (sm_type req) in
      let sender := default 0 (client_thread_id ev client_fd) in
      if decide (target = 0) then (release_sender blocking sender ev, status_reply 0)
      else
        match find_client target ev, Shm.slot_map (shm ev) !! target with
        | Some (_, tc), Some _ =>
            let sender_pid := client_pid ev client_fd in
            let same_process := bool_decide (sender_pid <> 0 /\ sender_pid = process_id tc) in
            let wire_type := if same_process && bool_decide (sm_type req = 1) then 3 else sm_type req in
            let m := mkQueuedMessage (sm_win req) (sm_msg req) (sm_wparam req) (sm_lparam req) wire_type 0 0 0 (0, 0) in
            let post ev := default (ev, false) (queue_post target m ev) in
            let '(ev, posted) := if decide (sm_type req = MSG_POSTED \/ sm_type req = MSG_NOTIFY) then post ev else (ev, false) in
            if posted : bool then (set_queue_bits_for_tid target (Z.lor QS_POSTMESSAGE QS_ALLPOSTMESSAGE) ev, status_reply 0)
            else
              let fast := negb same_process &&
                (bool_decide (sm_win req = desktop_top_window ev \/ sm_win req = desktop_msg_window ev) ||
                 SentMessages.should_fast_path (sent_messages ev) (sm_msg req)) in
              let '(ev, sent) := post ev in
              if sent : bool then (settle_sender fast blocking sender target req (set_queue_bits_for_tid target QS_SENDMESSAGE ev), status_reply 0)
              else (release_sender blocking sender ev, status_reply 0)
        | _, _ => (release_sender blocking sender ev, status_reply 0)
        end
  end.

Definition handle_reply_message (client_fd : Z) buf ev : EventLoop K * Reply :=
  match reply_message_request buf with
  | None => (ev, status_reply 0)
  | Some result =>
      let receiver := default 0 (client_thread_id ev client_fd) in
      if decide (receiver = 0) then (ev, status_reply 0)
      else
        match SentMessages.drain_one_with_code (sent_messages ev) receiver with
        | (s, Some (sender, code)) =>
            (set_queue_bits_for_tid sender QS_SMRESULT (ev <| sent_messages := SentMessages.observe_reply s code result |>), status_reply 0)
        | (s, None) => (ev <| sent_messages := s |>, status_reply 0)
        end
  end.

Definition handle_get_message_reply (client_fd : Z) buf ev : EventLoop K * Reply :=
  (match client_thread_id ev client_fd with
   | Some tid => clear_queue_bits_for_tid tid QS_SMRESULT ev
   | None => ev
   end, fixed (GetMessageReplyReply (hdr 0) 0)).

Definition handle_post_quit_message (client_fd : Z) buf ev : EventLoop K * Reply :=
  match post_quit_message_request buf with
  | None => (ev, status_reply 0xC000000D)
  | Some exit_code =>
      (match client_thread_id ev client_fd with
       | Some tid => set_queue_bits_for_tid tid 0x0008 (ev <| thread_quit_state ::= <[tid := (exit_code, true)]> |>)
       | None => ev
       end, status_reply 0)
  end.

Definition handle_update_window_zorder (client_fd : Z) buf ev : EventLoop K * Reply := (ev, status_reply 0).
Definition handle_accept_hardware_message (client_fd : Z) buf ev : EventLoop K * Reply := (ev, status_reply 0).

(** ** Queue descriptors and masks *)

(** The offset of a client's queue object, when it lies in the mapping. *)
Definition queue_object (c : Client) ev : option Z :=
  let off := locator_offset (queue_locator c) in if decide (object_mapped ev off) then Some off else None.

(** The event behind a client's queue handle, made when there is none. *)
Definition queue_event (pid queue_handle : Z) ev : EventLoop K * Z :=
  if decide (queue_handle <> 0 /\ pid <> 0) then
    match ntsync_objects ev !! (pid, queue_handle) with
    | Some (obj, _) => (ev, obj)
    | None =>
        match get_or_create_event false false ev with
        | (ev, Some obj) => (ev <| ntsync_objects ::= <[(pid, queue_handle) := (obj, 1)]> |>, obj)
        | (ev, None) => (ev, -1)
        end
    end
  else (ev, -1).

(** The old descriptor of the client is closed when a new one is stored. *)
Definition store_queue_fd (client_fd new_fd : Z) ev : EventLoop K :=
  match clients ev !! client_fd with
  | Some c =>
      let ev := match queue_fd c with Some old => ev <| kernel ::= close_fd old |> | None => ev end in
      ev <| clients ::= alter (fun c => c <| queue_fd := Some new_fd |>) client_fd |>
  | None => ev
  end.

Definition handle_set_queue_fd (client_fd : Z) buf ev : EventLoop K * Reply :=
  match set_queue_fd_request buf with
  | None => (ev, status_reply 0xC000000D)
  | Some handle =>
      match nonzero_pid ev client_fd ≫= fun pid => handle_entry ev pid handle ≫= HandleTable.fd with
      | None => (ev, status_reply 0xC0000008)
      | Some unix_fd =>
          let '(ev, new_fd) := on_kernel (dup_fd unix_fd) ev in
          if decide (new_fd < 0) then (ev, status_reply 0xC0000017)
          else
            let ev := store_queue_fd client_fd new_fd ev in
            let client := clients ev !! client_fd in
            let shm_ptr := client ≫= fun c => queue_object c ev in
            let qh := default 0 (queue_handle <$> client) in
            let '(ev, ntsync_fd) := queue_event (default 0 (process_id <$> client)) qh ev in
            let ev := on_user (fun u => u <| pending_queue_fd_watches ::= fun l => l ++ [(new_fd, shm_ptr, qh, ntsync_fd)] |>) ev in
            let ev := match shm_ptr with
                      | Some off =>
                          ev <| session ::= write_end off [fun m => write32 (off + 16 + 24) (Z.lor (read32 (off + 16 + 24) m) QS_DRIVER) m] |>
                      | None => ev
                      end in
            (match thread_id <$> clients ev !! client_fd with
             | Some tid => set_queue_bits_for_tid tid 0x0008 ev
             | None => ev
             end, status_reply 0)
      end
  end.

Definition handle_set_queue_mask (mono : Z * Z) (client_fd : Z) buf ev : EventLoop K * Reply :=
  match set_queue_mask_request buf with
  | None => (ev, status_reply 0xC000000D)
  | Some req =>
      let client := clients ev !! client_fd in
      let object := client ≫= fun c => queue_object c ev in
      let now := u64 (u64 (mono.1 * 10000000) + Z.quot mono.2 100) in
      let store stores ev := match object with
                             | Some off => ev <| session ::= write_end off (stores (off + 16)) |>
                             | None => ev
                             end in
      let ev := store (fun shm => [write64 shm now; write32 (shm + 8) (qm_wake_mask req); write32 (shm + 16) (qm_changed_mask req)]) ev in
      let bits (o : Z) := match object with Some off => read32 (off + 16 + o) (session ev) | None => 0 end in
      let reply := fixed (SetQueueMaskReply (hdr 0) (bits 12) (bits 20)) in
      if decide (qm_poll_events req <> 0) then
        let ev := store (fun shm => [clear32 (shm + 24) QS_DRIVER]) ev in
        (match client ≫= queue_fd with
         | Some f => on_user (fun u => u <| pending_queue_fd_rearms ::= fun l => l ++ [f] |>) ev
         | None => ev
         end, reply)
      else (ev, reply)
  end.

(** A client of the process that has a queue object. *)
Definition shared_queue (pid : Z) ev : option (list Z) :=
  (fun kc => queue_locator kc.2) <$>
    head (filter (fun kc => process_id kc.2 = pid /\ queue_locator kc.2 <> no_rect) (map_to_list (clients ev))).

Definition set_queue_locator (client_fd : Z) (loc : list Z) ev : EventLoop K :=
  ev <| clients ::= alter (fun c => c <| queue_locator := loc |>) client_fd |>.

Definition handle_get_msg_queue (client_fd : Z) buf ev : outcome (EventLoop K * Reply) :=
  r <-! (match clients ev !! client_fd with
         | None => Ret (ev, no_rect)
         | Some c =>
             if decide (queue_locator c <> no_rect) then Ret (ev, queue_locator c)
             else
               match shared_queue (process_id c) ev with
               | Some loc => Ret (set_queue_locator client_fd loc ev, loc)
               | None => r <-! alloc_shared_object ev ;; Ret (set_queue_locator client_fd r.2 r.1, r.2)
               end
         end) ;;
  Ret (r.1, fixed (GetMsgQueueReply (hdr 0) r.2)).

(** The queue handle is made once, on a signalled auto-reset event. *)
Definition new_queue_handle (client_fd : Z) ev : EventLoop K * Z :=
  match get_or_create_event false true ev with
  | (ev, None) => (ev, 0)
  | (ev, Some evt) =>
      let '(ev, oid) := alloc_object_id ev in
      let '(ev, h) :=
        match nonzero_pid ev client_fd with
        | Some pid => let '(ev, r) := allocate_in pid (with_fd oid evt FD_TYPE_FILE 0x001F0003 0x20) ev in (ev, default 0 r)
        | None => (ev, 0)
        end in
      if decide (h <> 0) then
        (ev <| ntsync_objects ::= <[(client_pid ev client_fd, h) := (evt, 1)]> |> <| ntsync_objects_created ::= fun n => u64 (n + 1) |>
            <| clients ::= alter (fun c => c <| queue_handle := h |>) client_fd |>, h)
      else (ev <| kernel ::= close_fd evt |>, h)
  end.

Definition handle_get_msg_queue_handle (client_fd : Z) buf ev : EventLoop K * Reply :=
  let existing := default 0 (queue_handle <$> clients ev !! client_fd) in
  let '(ev, handle) := if decide (existing <> 0) then (ev, existing) else new_queue_handle client_fd ev in
  (ev, fixed (GetMsgQueueHandleReply (hdr 0) handle 0)).

(** ** Window timers *)
Definition USER_TIMER_MINIMUM : Z := 10.

Definition same_timer (window msg id : Z) (t : WinTimer) : Prop := Loop.win t = window /\ timer_msg t = msg /\ timer_id t = id.
#[export] Instance same_timer_dec window msg id t : Decision (same_timer window msg id t).
Proof. unfold same_timer. apply _. Defined.

(** [retain] on the list of a thread. *)
Definition drop_timer (tid window msg id : Z) (m : gmap Z (list WinTimer)) : gmap Z (list WinTimer) :=
  alter (filter (fun t => ~ same_timer window msg id t)) tid m.

(** The thread whose timer is meant, or the status of a window that is unknown. *)
Definition timer_thread (unknown : Z) (client_fd window : Z) ev : Z + Z :=
  match client_thread_id ev client_fd with
  | None => inr 0xC0000008
  | Some tid =>
      if decide (window <> 0) then
        match window_states ev !! window with Some w => inl (ws_tid w) | None => inr unknown end
      else inl tid
  end.

(** Ids of timers without a window count down from 0x7fff. *)
Definition next_timer_id (tid : Z) ev : EventLoop K * Z :=
  let id := default 0x7fff (next_timer_ids ev !! tid) in
  let next := u64 (id - 1) in
  (ev <| next_timer_ids ::= <[tid := if decide (next <= 0x100) then 0x7fff else next]> |>, id).

Definition handle_set_win_timer (now client_fd : Z) buf ev : EventLoop K * Reply :=
  match set_win_timer_request buf with
  | None => (ev, status_reply 0xC000000D)
  | Some req =>
      match timer_thread 0xC0000008 client_fd (wt_win req) ev with
      | inr e => (ev, status_reply e)
      | inl tid =>
          let ev := ev <| win_timers_pending ::= drop_timer tid (wt_win req) (wt_msg req) (wt_id req) |>
                       <| win_timers_expired ::= drop_timer tid (wt_win req) (wt_msg req) (wt_id req) |> in
          let '(ev, id) := if decide (wt_win req = 0 /\ wt_id req = 0) then next_timer_id tid ev else (ev, wt_id req) in
          let rate := Z.max (wt_rate req) USER_TIMER_MINIMUM in
          let t := mkWinTimer (now + rate * 1000000) rate (wt_win req) (wt_msg req) id (wt_lparam req) in
          (ev <| win_timers_pending ::= push_timer tid t |>, fixed (SetWinTimerReply (hdr 0) id))
      end
  end.

Definition has_timer (tid window msg id : Z) (m : gmap Z (list WinTimer)) : bool :=
  bool_decide (Exists (same_timer window msg id) (default [] (m !! tid))).

Definition handle_kill_win_timer (client_fd : Z) buf ev : EventLoop K * Reply :=
  match kill_win_timer_request buf with
  | None => (ev, status_reply 0xC000000D)
  | Some (window, msg, id) =>
      match timer_thread 0xC000000D client_fd window ev with
      | inr e => (ev, status_reply e)
      | inl tid =>
          let found := has_timer tid window msg id (win_timers_pending ev) || has_timer tid window msg id (win_timers_expired ev) in
          (ev <| win_timers_pending ::= drop_timer tid window msg id |> <| win_timers_expired ::= drop_timer tid window msg id |>,
           if found then status_reply 0 else status_reply 0xC000000D)
      end
  end.

Definition due (now : Z) (t : WinTimer) : Prop := when_ t <= now.
#[export] Instance due_dec now t : Decision (due now t).
Proof. unfold due. apply _. Defined.

(** The loop over the timers of one thread: a due one is removed at its place, which
    the next one takes.  [None] when the fuel runs out. *)
Fixpoint expire_loop (fuel : nat) (now : Z) (i : nat) (timers fired : list WinTimer) : option (list WinTimer * list WinTimer) :=
  match fuel with
  | O => None
  | S fuel =>
      match timers !! i with
      | Some t => if decide (due now t) then expire_loop fuel now i (delete i timers) (fired ++ [t])
                  else expire_loop fuel now (S i) timers fired
      | None => Some (timers, fired)
      end
  end.

Definition expire_thread (now tid : Z) (timers : list WinTimer) ev : option (EventLoop K) :=
  '(rest, fired) ← expire_loop (S (length timers)) now 0 timers [];
  let ev := ev <| win_timers_pending ::= <[tid := rest]> |> in
  Some match fired with
       | [] => ev
       | _ => ev <| win_timers_expired ::= fun m => <[tid := default [] (m !! tid) ++ fired]> m |>
       end.

Fixpoint expire_threads (now : Z) (l : list (Z * list WinTimer)) ev : option (EventLoop K) :=
  match l with
  | [] => Some ev
  | (tid, timers) :: l => ev ← expire_thread now tid timers ev; expire_threads now l ev
  end.

Definition wake_timer_thread (tid : Z) ev : EventLoop K :=
  match find_client tid ev with
  | Some (_, c) => if decide (queue_handle c <> 0) then set_event (process_id c, queue_handle c) ev else ev
  | None => ev
  end.

Definition check_win_timers (now : Z) ev : option (EventLoop K) :=
  let all := map_to_list (win_timers_pending ev) in
  let wake := fst <$> filter (fun kt => Exists (due now) kt.2) all in
  ev ← expire_threads now all ev;
  Some (fold_left (fun ev tid => wake_timer_thread tid ev) wake ev).

(** ** Hardware input *)
Definition bytes_at (i n : nat) (input : list Z) : Z := from_le (slice i n input).

Definition update_desktop_cursor (x y time : Z) ev : EventLoop K :=
  if session_mapped ev then
    on_user (fun u => u <| cursor_x := x |> <| cursor_y := y |>)
      (desktop_write (fun shm => [write32 (shm + 4) x; write32 (shm + 8) y; write32 (shm + 12) time]) ev)
  else ev.

Definition update_desktop_keystate (vk : Z) (down : bool) ev : EventLoop K :=
  desktop_write (fun shm => [fun m => let a := shm + 32 + vk in
                                      let old := default 0 (m !! a) in
                                      <[a := if down then Z.lor old 0x80 else Z.land old 0x7F]> m]) ev.

(** The thread of the window, or of a visible top-level window. *)
Definition input_thread (window : Z) ev : Z :=
  if decide (window <> 0) then default 0 (ws_tid <$> window_states ev !! window)
  else default 0 ((fun kw => ws_tid kw.2) <$>
         head (filter (fun kw => parent kw.2 = desktop_top_window ev /\ has (style kw.2) WS_VISIBLE = true) (map_to_list (window_states ev)))).

Definition input_window (window tid : Z) ev : Z :=
  if decide (window <> 0) then window
  else default 0 (fst <$> head (filter (fun kw => ws_tid kw.2 = tid /\ parent kw.2 = desktop_top_window ev) (map_to_list (window_states ev)))).

(** [if let Some(queue) = self.shm.get_queue(tid) { queue.post(msg); }] *)
Definition post_input (tid : Z) (m : QueuedMessage) ev : EventLoop K :=
  match queue_post tid m ev with Some (ev, _) => ev | None => ev end.

(** Buttons: flag for down, flag for up, key code, bit of the message's state. *)
Definition buttons : list (Z * Z * Z * Z) := [(0x0002, 0x0004, 0x01, 0x0001); (0x0008, 0x0010, 0x02, 0x0002); (0x0020, 0x0040, 0x04, 0x0010)].

Definition mouse_messages : list Z := [0x0200; 0x0201; 0x0202; 0x0204; 0x0205; 0x0207; 0x0208].

Definition press_buttons (flags : Z) ev : EventLoop K :=
  fold_left (fun ev '(down, up, vk, _) =>
    let ev := if has flags down then update_desktop_keystate vk true ev else ev in
    if has flags up then update_desktop_keystate vk false ev else ev) buttons ev.

Definition button_state ev : Z :=
  fold_left (fun wp '(_, _, vk, mk) => if has (read_desktop_keystate vk ev) 0x80 then Z.lor wp mk else wp) buttons 0.

Definition mouse_lparam (x y : Z) : Z := Z.lor (Z.shiftl (u32 y) 16) (Z.land (u32 x) 0xFFFF).

Definition queue_mouse_message (window : Z) (input : list Z) ev : EventLoop K :=
  let dx := coord input 4 in
  let dy := coord input 8 in
  let flags := bytes_at 16 4 input in
  let time := bytes_at 20 4 input in
  let u := user ev in
  let '(x, y) :=
    if has flags 0x0001 then
      if has flags 0x8000 then (dx, dy) else (i32 (cursor_x u + dx), i32 (cursor_y u + dy))
    else (cursor_x u, cursor_y u) in
  let ev := press_buttons flags (update_desktop_cursor x y time ev) in
  let wparam := button_state ev in
  let tid := input_thread window ev in
  if decide (tid = 0) then ev
  else
    let target := input_window window tid ev in
    let ev := on_user (fun u => u <| last_input_time := time |>) ev in
    fold_left (fun ev '(i, code) =>
      if Z.testbit flags (Z.of_nat i) then
        set_queue_bits_for_tid tid QS_POSTMESSAGE
          (post_input tid (posted_message target code wparam (mouse_lparam x y) x y time) ev)
      else ev) (zip (seq 0 7) mouse_messages) ev.

Definition key_lparam (scan flags : Z) (up : bool) : Z :=
  let kf := Z.lor (if has flags 0x0001 then 0x0100 else 0) (if up then 0xC000 else 0) in
  Z.lor (Z.shiftl (Z.lor scan kf) 16) 1.

Definition queue_keyboard_message (window : Z) (input : list Z) ev : EventLoop K :=
  let vkey := bytes_at 4 2 input in
  let scan := bytes_at 6 2 input in
  let flags := bytes_at 8 4 input in
  let time := bytes_at 12 4 input in
  let up := has flags 0x0002 in
  let code := if up then 0x0101 else 0x0100 in
  let ev := if decide (vkey < 256) then update_desktop_keystate vkey (negb up) ev else ev in
  let tid := input_thread window ev in
  if decide (tid = 0) then ev
  else
    let ev := on_user (fun u => u <| last_input_time := time |>) ev in
    let m := posted_message (input_window window tid ev) code vkey (key_lparam scan flags up) (cursor_x (user ev)) (cursor_y (user ev)) time in
    set_queue_bits_for_tid tid 0x0008 (post_input tid m ev).

Definition handle_send_hardware_message (client_fd : Z) buf ev : EventLoop K * Reply :=
  match send_hardware_message_request buf with
  | None => (ev, fixed (SendHardwareMessageReply (hdr 0xC000000D) 0 0 0 0 0))
  | Some (window, input) =>
      let prev_x := cursor_x (user ev) in
      let prev_y := cursor_y (user ev) in
      let type := bytes_at 0 4 input in
      let ev := if decide (type = 0) then queue_mouse_message window input ev
                else if decide (type = 1) then queue_keyboard_message window input ev
                else ev in
      (ev, fixed (SendHardwareMessageReply (hdr 0) 0 prev_x prev_y (cursor_x (user ev)) (cursor_y (user ev))))
  end.

(** ** Queue bits and the identity of clients *)

(** What identifies a client; only queue handles change when bits are set. *)
Definition ident (c : Client) : Z * Z * list Z := (thread_id c, process_id c, queue_locator c).

Lemma set_queue_bits_clients tid bits ev :
  exists f h, clients (set_queue_bits_for_tid tid bits ev) = clients ev \/
    clients (set_queue_bits_for_tid tid bits ev) = alter (fun c => c <| queue_handle := h |>) f (clients ev).
Proof.
  unfold set_queue_bits_for_tid. destruct (find_client tid ev) as [[cfd client]|]; [|exists 0, 0; by left].
  set (ev1 := update_bits _ _ ev). assert (clients ev1 = clients ev) as Hc1 by (unfold ev1, update_bits, shared_write; by case_decide). clearbody ev1.
  assert (forall key e, clients (set_event key e) = clients e) as Hse by (intros key e; unfold set_event; by destruct (_ !! key) as [[? ?]|]).
  case_decide as Hq.
  - destruct (Client.alloc_waitable_eq cfd ev1) as (k & st & h & -> & _). exists cfd, h. case_decide as Hh.
    + right. rewrite decide_True by done. rewrite Hse. recs. by rewrite Hc1.
    + left. rewrite decide_False by (intros Hn; by apply Hn). recs. done.
  - exists 0, 0. left. case_decide; [rewrite Hse|]; done.
Qed.

Lemma set_queue_bits_ident tid bits ev f : ident <$> clients (set_queue_bits_for_tid tid bits ev) !! f = ident <$> clients ev !! f.
Proof.
  destruct (set_queue_bits_clients tid bits ev) as (g & h & [->| ->]); [done|].
  destruct (decide (f = g)) as [->|]; [|by rewrite lookup_alter_ne]. rewrite lookup_alter_eq. by destruct (clients ev !! g).
Qed.

(** The parts of the loop that setting queue bits leaves alone. *)
Lemma set_queue_bits_keeps tid bits ev :
  let ev' := set_queue_bits_for_tid tid bits ev in
  shm ev' = shm ev /\ window_states ev' = window_states ev /\ thread_quit_state ev' = thread_quit_state ev /\
  sent_messages ev' = sent_messages ev /\ win_timers_expired ev' = win_timers_expired ev /\ session_mapped ev' = session_mapped ev /\
  session_size ev' = session_size ev /\ user_state ev' = user_state ev.
Proof. destruct (Client.set_queue_bits_woken tid bits ev) as (? & ? & ? & ? & -> & _). done. Qed.

Lemma client_thread_id_ident ev ev' c : ident <$> clients ev' !! c = ident <$> clients ev !! c ->
  client_thread_id ev' c = client_thread_id ev c /\ client_pid ev' c = client_pid ev c.
Proof.
  intros Hi. unfold client_thread_id, client_pid. destruct (clients ev' !! c) as [a|], (clients ev !! c) as [b|]; try done.
  cbn in *. injection Hi as E1 E2 _. by rewrite E1, E2.
Qed.

Lemma find_client_is_Some tid ev : is_Some (find_client tid ev) <-> exists f c, clients ev !! f = Some c /\ thread_id c = tid.
Proof.
  unfold find_client. split.
  - intros [[f c] Hh]. apply head_Some_elem_of, list_elem_of_filter in Hh as [Ht Hin]. rewrite elem_of_map_to_list in Hin. eauto.
  - intros (f & c & Hc & Ht). destruct (head (filter _ _)) as [x|] eqn:Hh; [eauto|]. apply head_None in Hh.
    assert ((f, c) ∈ filter (fun kc => thread_id kc.2 = tid) (map_to_list (clients ev))) as Hin.
    { apply list_elem_of_filter. by rewrite elem_of_map_to_list. }
    rewrite Hh in Hin. by apply elem_of_nil in Hin.
Qed.

Lemma find_client_ident tid ev ev' : (forall f, ident <$> clients ev' !! f = ident <$> clients ev !! f) ->
  is_Some (find_client tid ev) -> is_Some (find_client tid ev').
Proof.
  rewrite !find_client_is_Some. intros Hi (f & c & Hc & Ht). specialize (Hi f). rewrite Hc in Hi.
  destruct (clients ev' !! f) as [c'|] eqn:Hc'; [|done]. cbn in Hi. injection Hi as E1 _ _. exists f, c'. by rewrite E1.
Qed.

(** ** Posted messages, from sender to receiver *)

(** The messages in a thread's ring. *)
Definition queue_holds (tid : Z) (ms : list QueuedMessage) ev : Prop :=
  exists slot, Shm.slot_map (shm ev) !! tid = Some slot /\ Queue.qrepr (Shm.read_slot (shm ev) slot) ms.

Lemma read_write_slot s slot q : Shm.read_slot (Shm.write_slot s slot q) slot = q.
Proof. unfold Shm.read_slot, Shm.write_slot. cbn. by rewrite lookup_insert_eq. Qed.

Lemma queue_post_holds tid m ms ev : queue_holds tid ms ev ->
  exists ev', queue_post tid m ev = Some (ev', bool_decide (length ms < 256)%nat) /\
    queue_holds tid (if decide (length ms < 256)%nat then ms ++ [m] else ms) ev' /\
    exists s, ev' = ev <| shm := s |> /\ Shm.slot_map s = Shm.slot_map (shm ev).
Proof.
  intros (slot & Hs & Hq). unfold queue_post. rewrite Hs. cbn [fmap option_fmap option_map].
  destruct (Queue.post_spec _ ms m Hq) as (q' & -> & Hq'). eexists. split; [done|]. split.
  - exists slot. recs. rewrite read_write_slot. done.
  - eexists. split; [by destruct ev|done].
Qed.

Lemma queue_get_holds tid ms ev : queue_holds tid ms ev ->
  exists ev', queue_get tid ev = (ev', head ms) /\ queue_holds tid (tail ms) ev' /\
    exists s, ev' = ev <| shm := s |> /\ Shm.slot_map s = Shm.slot_map (shm ev).
Proof.
  intros (slot & Hs & Hq). unfold queue_get. rewrite Hs. destruct (Queue.get_spec _ ms Hq) as (q' & -> & Hq').
  eexists. split; [done|]. split.
  - exists slot. recs. rewrite read_write_slot. done.
  - eexists. split; [by destruct ev|done].
Qed.

(** A receiver that only asks for posted messages, and the senders. *)
Inductive post_op : Type := PostMessage (client : Z) (buf : list Z) | TakeMessage (now : Z) (buf : list Z).

Definition run_post (c : Z) (op : post_op) ev : EventLoop K * Reply :=
  match op with
  | PostMessage s buf => handle_send_message s buf ev
  | TakeMessage now buf => handle_get_message now c buf ev
  end.
Fixpoint run_posts (c : Z) (ops : list post_op) ev : EventLoop K * list Reply :=
  match ops with
  | [] => (ev, [])
  | op :: ops => let '(ev, r) := run_post c op ev in let '(ev, rs) := run_posts c ops ev in (ev, r :: rs)
  end.

(** The same over a queue of at most 256 messages. *)
Definition message_of (req : SendMessageRequest) : QueuedMessage :=
  mkQueuedMessage (sm_win req) (sm_msg req) (sm_wparam req) (sm_lparam req) (sm_type req) 0 0 0 (0, 0).
Definition message_reply (m : QueuedMessage) : Reply :=
  fixed (GetMessageReply (hdr 0) (Queue.win m) (Queue.msg m) (Queue.wparam m) (Queue.lparam m) (Queue.msg_type m) (Queue.x m) (Queue.y m) (Queue.time m) 0).
Definition pending_reply : Reply := fixed (GetMessageReply (hdr 0x103) 0 0 0 0 0 0 0 0 0).

Definition spec_post (op : post_op) (ms : list QueuedMessage) : list QueuedMessage * Reply :=
  match op with
  | PostMessage _ buf =>
      match send_message_request buf with
      | Some req => (if decide (length ms < 256)%nat then ms ++ [message_of req] else ms, status_reply 0)
      | None => (ms, status_reply 0xC000000D)
      end
  | TakeMessage _ buf => (tail ms, default pending_reply (message_reply <$> head ms))
  end.
Fixpoint spec_posts (ops : list post_op) (ms : list QueuedMessage) : list QueuedMessage * list Reply :=
  match ops with
  | [] => (ms, [])
  | op :: ops => let '(ms, r) := spec_post op ms in let '(ms, rs) := spec_posts ops ms in (ms, r :: rs)
  end.

(** The sources beside the ring that a filter may select. *)
Definition OTHER_SOURCES : list Z := [QS_SENDMESSAGE; QS_PAINT; QS_TIMER].

(** The requests the theorem is about: posts to the thread, by id or through one of
    its windows, and requests for messages whose filter selects the posted ones and,
    of the other sources, only those of [sources]. *)
Definition post_ok (tid sources : Z) (ws : windows) (op : post_op) : Prop :=
  match op with
  | PostMessage _ buf =>
      match send_message_request buf with
      | Some req => sm_type req = MSG_POSTED /\
          (sm_id req = tid \/ (sm_id req = 0 /\ sm_win req <> 0 /\ ws_tid <$> ws !! sm_win req = Some tid))
      | None => True
      end
  | TakeMessage _ buf => exists req, get_message_request buf = Some req /\ has (filter_of (gm_flags req)) QS_POSTMESSAGE = true /\
      Forall (fun q => has (filter_of (gm_flags req)) q = true -> has sources q = true) OTHER_SOURCES
  end.

(** No other source that is asked for has a message for the thread. *)
Record idle (tid sources : Z) ev : Prop := {
  i_sent : has sources QS_SENDMESSAGE = true -> SentMessages.peek (sent_messages ev) tid = None;
  i_paint : has sources QS_PAINT = true -> paint_window tid ev = None;
  i_timers : has sources QS_TIMER = true -> default [] (win_timers_expired ev !! tid) = [];
}.

(** The receiver is connected, has not quit, and nothing else changes that. *)
Record receiver (c tid sources : Z) (ws : windows) ev : Prop := {
  r_client : client_thread_id ev c = Some tid;
  r_found : is_Some (find_client tid ev);
  r_windows : window_states ev = ws;
  r_quit : thread_quit_state ev !! tid = None;
  r_idle : idle tid sources ev;
}.

(** Posts are neither blocking sends nor of the type that is rewritten. *)
Definition types_ok : Prop := is_blocking MSG_POSTED = false /\ MSG_POSTED <> 1.

Lemma shared_write_shape off st ev : exists m, shared_write off st ev = ev <| session := m |>.
Proof. unfold shared_write. case_decide; [by eexists|]. exists (session ev). by destruct ev. Qed.

(** A loop that differs in its session memory, its queues and the queue handles of
    its clients still has the receiver. *)
Lemma receiver_keeps c tid sources ws ev ev' :
  (forall f, ident <$> clients ev' !! f = ident <$> clients ev !! f) -> window_states ev' = window_states ev ->
  thread_quit_state ev' = thread_quit_state ev -> sent_messages ev' = sent_messages ev -> win_timers_expired ev' = win_timers_expired ev ->
  receiver c tid sources ws ev -> receiver c tid sources ws ev'.
Proof.
  intros Hi Hw Hq Hs Ht [R1 R2 R3 R4 [I1 I2 I3]]. constructor; [|by eapply find_client_ident|by rewrite Hw|by rewrite Hq|].
  - by rewrite (proj1 (client_thread_id_ident _ _ _ (Hi c))).
  - constructor; [by rewrite Hs|unfold paint_window; by rewrite Hw|by rewrite Ht].
Qed.

Lemma target_of_ok tid req ev : sm_id req = tid \/ (sm_id req = 0 /\ sm_win req <> 0 /\ ws_tid <$> window_states ev !! sm_win req = Some tid) ->
  tid <> 0 -> target_of req ev = tid.
Proof.
  unfold target_of. intros [->|(-> & Hw & Ht)] Hne; [by rewrite decide_True|]. rewrite decide_False by (intros Hx; by apply Hx).
  rewrite decide_True by done. by rewrite Ht.
Qed.

Lemma post_sim c tid sources ws ms s buf ev : types_ok -> tid <> 0 -> receiver c tid sources ws ev -> queue_holds tid ms ev ->
  post_ok tid sources ws (PostMessage s buf) ->
  let '(ev', r) := handle_send_message s buf ev in
  r = (spec_post (PostMessage s buf) ms).2 /\ queue_holds tid (spec_post (PostMessage s buf) ms).1 ev' /\ receiver c tid sources ws ev'.
Proof.
  intros [Hnb Hn1] Hne Hr Hq Hok. unfold handle_send_message. cbn [spec_post]. cbn [post_ok] in Hok.
  destruct (send_message_request buf) as [req|]; [|done]. destruct Hok as [Hty Htgt]. rewrite <- (r_windows _ _ _ _ _ Hr) in Htgt.
  rewrite (target_of_ok tid req ev Htgt Hne), decide_False by done. destruct (r_found _ _ _ _ _ Hr) as [[f tc] ->].
  pose proof Hq as (slot & Hslot & _). rewrite Hslot. rewrite (bool_decide_false (sm_type req = 1)), andb_false_r by congruence.
  fold (message_of req). rewrite decide_True by (by left).
  destruct (queue_post_holds tid (message_of req) ms ev Hq) as (ev1 & -> & Hq1 & sm & -> & Hsm). cbn [default from_option id].
  assert (receiver c tid sources ws (ev <| shm := sm |>)) as Hr1 by by apply (receiver_keeps c tid sources ws ev).
  set (ev1 := ev <| shm := sm |>) in *. clearbody ev1. cbn [fst snd]. destruct (decide (length ms < 256)%nat) as [Hlt|Hge].
  - rewrite bool_decide_true by done. split; [done|].
    destruct (set_queue_bits_keeps tid (Z.lor QS_POSTMESSAGE QS_ALLPOSTMESSAGE) ev1) as (E1 & E2 & E3 & E4 & E5 & _). split.
    + unfold queue_holds. by rewrite E1.
    + by apply (receiver_keeps c tid sources ws ev1); [apply set_queue_bits_ident|..].
  - rewrite bool_decide_false by done.
    destruct (queue_post_holds tid (message_of req) ms ev1 Hq1) as (ev2 & -> & Hq2 & sm2 & -> & Hsm2). cbn [default from_option id].
    rewrite bool_decide_false by done. unfold release_sender. rewrite Hty, Hnb, decide_False by (by intros [? _]).
    rewrite decide_False in Hq2 by done. split_and!; [done|done|]. by apply (receiver_keeps c tid sources ws ev1).
Qed.

(** With no other message for the thread, only the ring can answer. *)
Lemma others_idle tid sources filter now remove ev : idle tid sources ev -> thread_quit_state ev !! tid = None ->
  Forall (fun q => has filter q = true -> has sources q = true) OTHER_SOURCES ->
  guarded (has filter QS_SENDMESSAGE) (from_sent tid ev) = None /\ guarded (has filter QS_POSTMESSAGE) (from_quit remove tid ev) = None /\
  guarded (has filter QS_PAINT) (from_paint tid ev) = None /\ guarded (has filter QS_TIMER) (from_timers now remove tid ev) = None.
Proof.
  intros [I1 I2 I3] Hq Hf. unfold OTHER_SOURCES in Hf. rewrite !Forall_cons in Hf. destruct Hf as (F1 & F2 & F3 & _).
  unfold guarded, from_sent, from_quit, from_paint, from_timers. rewrite Hq. split_and!.
  - destruct (has filter QS_SENDMESSAGE); [by rewrite I1 by auto|done].
  - by destruct (has filter QS_POSTMESSAGE).
  - destruct (has filter QS_PAINT); [by rewrite I2 by auto|done].
  - destruct (has filter QS_TIMER); [|done]. specialize (I3 (F3 eq_refl)). destruct (win_timers_expired ev !! tid) as [l|]; [|done]. cbn in I3. by subst.
Qed.

Lemma clear_changed_shape filter tid ev : exists m, clear_changed filter tid ev = ev <| session := m |>.
Proof. unfold clear_changed. destruct (find_client tid ev) as [[? ?]|]; [apply shared_write_shape|]. exists (session ev). by destruct ev. Qed.

Lemma store_masks_shape c req ev : exists m, store_masks c req ev = ev <| session := m |>.
Proof.
  unfold store_masks. destruct (clients ev !! c) as [cl|]; [|exists (session ev); by destruct ev].
  set (st := [_; _]). set (ev1 := if decide (_ /\ _) then _ else ev).
  assert (exists m, ev1 = ev <| session := m |>) as [m E1].
  { unfold ev1. case_decide; [apply shared_write_shape|]. exists (session ev). by destruct ev. }
  destruct (shared_write_shape (locator_offset (queue_locator cl)) st ev1) as [m2 ->]. rewrite E1. by exists m2.
Qed.

Lemma take_sim c tid sources ws ms now buf ev : receiver c tid sources ws ev -> queue_holds tid ms ev -> post_ok tid sources ws (TakeMessage now buf) ->
  let '(ev', r) := handle_get_message now c buf ev in
  r = (spec_post (TakeMessage now buf) ms).2 /\ queue_holds tid (spec_post (TakeMessage now buf) ms).1 ev' /\ receiver c tid sources ws ev'.
Proof.
  intros Hr Hq (req & Hreq & Hpost & Hfl). unfold handle_get_message. rewrite Hreq. cbn [spec_post fst snd]. rewrite (r_client _ _ _ _ _ Hr).
  set (flt := filter_of (gm_flags req)) in *. set (rm := has (gm_flags req) 1).
  destruct (clear_changed_shape flt tid ev) as [m ->]. set (ev1 := ev <| session := m |>).
  assert (receiver c tid sources ws ev1) as Hr1 by by apply (receiver_keeps c tid sources ws ev).
  assert (queue_holds tid ms ev1) as Hq1 by done. clearbody ev1. clear Hr Hq.
  destruct (others_idle tid sources flt now rm ev1 (r_idle _ _ _ _ _ Hr1) (r_quit _ _ _ _ _ Hr1) Hfl) as (-> & _). rewrite Hpost.
  destruct (queue_get_holds tid ms ev1 Hq1) as (ev2 & Hg & Hq2 & sm & He & _). unfold from_queue. rewrite Hg.
  assert (receiver c tid sources ws ev2) as Hr2 by (subst ev2; by apply (receiver_keeps c tid sources ws ev1)). clear He Hg.
  destruct (others_idle tid sources flt now rm ev2 (r_idle _ _ _ _ _ Hr2) (r_quit _ _ _ _ _ Hr2) Hfl) as (_ & Hquit & -> & ->).
  rewrite Hpost in Hquit. rewrite Hquit. destruct ms as [|msg ms]; cbn [head tail] in *; unfold first_of; cbn; (split; [done|]); [|done].
  destruct (store_masks_shape c req ev2) as [m2 ->]. split; [done|]. by apply (receiver_keeps c tid sources ws ev2).
Qed.

(** C14: posted messages reach their thread in order and once.  The receiver is a
    connected thread with a ring that has not been told to quit.  The operations
    are posts (type MSG_POSTED) of any client to that thread, by its id or through
    one of its windows, and requests of the receiver, with or without the flag that
    removes, whose filter selects posted messages and may select sent messages,
    paints and timers as well where none is waiting ([idle]).  Through the send
    handler, the ring in shared memory and the message handler any sequence of them
    behaves as one queue of at most 256 messages; a post to a full queue is dropped
    and answered with success. *)
Theorem posted_messages_fifo c tid sources ws (ops : list post_op) ms ev :
  types_ok -> receiver c tid sources ws ev -> queue_holds tid ms ev -> Forall (post_ok tid sources ws) ops ->
  (run_posts c ops ev).2 = (spec_posts ops ms).2 /\ queue_holds tid (spec_posts ops ms).1 (run_posts c ops ev).1.
Proof.
  intros Hty Hr Hq Hok. assert (tid <> 0) as Hne.
  { pose proof (r_client _ _ _ _ _ Hr) as Hc. unfold client_thread_id in Hc. apply bind_Some in Hc as (cl & _ & Hx). case_decide; [|done]. by injection Hx as <-. }
  revert ms ev Hr Hq; induction Hok as [|op ops Hop _ IH]; intros ms ev Hr Hq; cbn [run_posts spec_posts]; [done|].
  assert (let '(ev', r) := run_post c op ev in r = (spec_post op ms).2 /\ queue_holds tid (spec_post op ms).1 ev' /\ receiver c tid sources ws ev') as Hs.
  { destruct op as [s buf|now buf]; cbn [run_post]; [by apply post_sim|by apply take_sim]. }
  destruct (run_post c op ev) as [ev1 r]. destruct Hs as (-> & Hq1 & Hr1). destruct (spec_post op ms) as [ms1 r1]. cbn [fst snd] in *.
  destruct (IH ms1 ev1 Hr1 Hq1) as [IH1 IH2]. destruct (run_posts c ops ev1), (spec_posts ops ms1). cbn in *. by subst.
Qed.

(** ** Blocked senders *)

Lemma shared_write_session off st ev : object_mapped ev off -> session (shared_write off st ev) = write_end off st (session ev).
Proof. intros Hm. unfold shared_write. by rewrite decide_True. Qed.

(** The session memory after the bits of a thread are set. *)
Lemma set_queue_bits_session tid bits f c ev : find_client tid ev = Some (f, c) ->
  session (set_queue_bits_for_tid tid bits ev) = session (update_bits (fun w => Z.lor w bits) (locator_offset (queue_locator c)) ev).
Proof.
  intros Hf. unfold set_queue_bits_for_tid. rewrite Hf. set (ev1 := update_bits _ _ ev). clearbody ev1.
  assert (forall key e, session (set_event key e) = session e) as Hse by (intros key e; unfold set_event; by destruct (_ !! key) as [[? ?]|]).
  case_decide as Hq.
  - destruct (Client.alloc_waitable_eq f ev1) as (k & st & h & -> & _). case_decide as Hh.
    + rewrite decide_True by done. by rewrite Hse.
    + by rewrite decide_False by (intros Hn; by apply Hn).
  - case_decide; [by rewrite Hse|done].
Qed.

(** The only client of a thread. *)
Definition owner (f tid pid : Z) (loc : list Z) ev : Prop :=
  ident <$> clients ev !! f = Some (tid, pid, loc) /\ forall g d, clients ev !! g = Some d -> thread_id d = tid -> g = f.

Lemma owner_keeps f tid pid loc ev ev' : (forall g, ident <$> clients ev' !! g = ident <$> clients ev !! g) ->
  owner f tid pid loc ev -> owner f tid pid loc ev'.
Proof.
  intros Hi [H1' H2']. split; [by rewrite Hi|]. intros g d Hd Ht. specialize (Hi g). rewrite Hd in Hi.
  destruct (clients ev !! g) as [d'|] eqn:Hg; [|done]. cbn in Hi. injection Hi as E1 _ _. apply (H2' g d'); [done|congruence].
Qed.
Lemma owner_find f tid pid loc ev : owner f tid pid loc ev -> exists c, find_client tid ev = Some (f, c) /\ queue_locator c = loc.
Proof.
  intros [H1' H2']. apply fmap_Some in H1' as (c & Hc & He). unfold ident in He. injection He as E1 E2 E3.
  destruct (proj2 (find_client_is_Some tid ev)) as [[g d] Hf]; [exists f, c; by rewrite E1|].
  exists d. pose proof Hf as Hd. unfold find_client in Hd. apply head_Some_elem_of, list_elem_of_filter in Hd as [Ht Hin].
  rewrite elem_of_map_to_list in Hin. cbn in Ht. assert (g = f) as -> by by eapply H2'. split; [done|]. congruence.
Qed.

(** The result bit in a thread's queue object. *)
Definition result_ready (loc : list Z) ev : Prop := Z.testbit (read32 (locator_offset loc + 16 + 12) (session ev)) 15 = true.

Definition queue_mapped (loc : list Z) ev : Prop :=
  0 <= locator_offset loc /\ session_mapped ev = true /\ locator_offset loc + 1024 <= session_size ev < 2 ^ 63.

Lemma set_result_bit f tid pid loc ev : owner f tid pid loc ev -> queue_mapped loc ev ->
  result_ready loc (set_queue_bits_for_tid tid QS_SMRESULT ev).
Proof.
  intros Ho (Hoff & Hm & Hfit & Hsz). destruct (owner_find _ _ _ _ _ Ho) as (c & Hf & <-). unfold result_ready.
  rewrite (set_queue_bits_session _ _ _ _ _ Hf). set (off := locator_offset (queue_locator c)) in *.
  unfold update_bits. rewrite shared_write_session.
  2: { unfold object_mapped, SHARED_OBJECT_STRIDE. rewrite u64_small by word_lia. done. }
  unfold write_end, body_end, write64. cbn [fold_left]. unfold write32.
  rewrite read32_write_other by (rewrite length_le_bytes; lia). rewrite read32_write_other by (rewrite length_le_bytes; lia).
  unfold read32 at 1. rewrite (read_write_same _ (le_bytes 4 _)), from_le_bytes.
  change (256 ^ Z.of_nat 4) with (2 ^ 32). rewrite Z.mod_pow2_bits_low, Z.lor_spec by lia. apply orb_true_r.
Qed.

Lemma queue_mapped_bits loc tid bits ev : queue_mapped loc ev -> queue_mapped loc (set_queue_bits_for_tid tid bits ev).
Proof.
  intros Hm. destruct (set_queue_bits_keeps tid bits ev) as (_ & _ & _ & _ & _ & E1 & E2 & _). unfold queue_mapped. by rewrite E1, E2.
Qed.

(** C15: a blocked sender is always answered.  After a blocking send, either the
    result bit of the sender's queue is set at once, or the message is on top of
    the receiver's stack and the receiver's reply sets it. *)
Theorem blocking_send_released s buf ev req sender pid loc :
  send_message_request buf = Some req -> is_blocking (sm_type req) = true ->
  sm_type req <> MSG_POSTED -> sm_type req <> MSG_NOTIFY ->
  client_thread_id ev s = Some sender -> owner s sender pid loc ev -> queue_mapped loc ev ->
  let ev1 := (handle_send_message s buf ev).1 in
  let target := target_of req ev in
  result_ready loc ev1 \/
  (SentMessages.peek (sent_messages ev1) target =
     Some (SentMessages.mkPending sender target (sm_msg req) (sm_win req) (sm_wparam req) (sm_lparam req) (sm_type req)) /\
   forall r rbuf result, client_thread_id ev1 r = Some target -> reply_message_request rbuf = Some result ->
     result_ready loc (handle_reply_message r rbuf ev1).1).
Proof.
  intros Hreq Hbl Hnp Hnn Hs Ho Hm ev1 target. unfold ev1. clear ev1. unfold handle_send_message. rewrite Hreq, Hs. cbn [default from_option id].
  assert (sender <> 0) as Hne. { unfold client_thread_id in Hs. apply bind_Some in Hs as (cl & _ & Hx). case_decide; [|done]. by injection Hx as <-. }
  rewrite Hbl. fold target.
  assert (forall e, owner s sender pid loc e -> queue_mapped loc e -> result_ready loc (release_sender true sender e)) as Hrel.
  { intros e He Hme. unfold release_sender. rewrite decide_True by done. by eapply set_result_bit. }
  case_decide as Htz; [left; by apply Hrel|].
  destruct (find_client target ev) as [[f tc]|]; [|left; by apply Hrel].
  destruct (Shm.slot_map (shm ev) !! target) as [slot|] eqn:Hslot; [|left; by apply Hrel].
  rewrite decide_False by (intros [?|?]; done). set (m := mkQueuedMessage _ _ _ _ _ _ _ _ _). unfold queue_post. rewrite Hslot.
  cbn [fmap option_fmap option_map]. destruct (Queue.post _ m) as [q [|]]; cbn [default from_option id]; [|left; by apply Hrel].
  set (ev2 := ev <| shm ::= _ |>). assert (owner s sender pid loc ev2 /\ queue_mapped loc ev2) as [Ho2 Hm2] by done.
  clearbody ev2. cbn [fst]. unfold settle_sender. rewrite decide_True by done. set (ev3 := set_queue_bits_for_tid target QS_SENDMESSAGE ev2).
  assert (owner s sender pid loc ev3) as Ho3 by (eapply owner_keeps; [apply set_queue_bits_ident|done]).
  assert (queue_mapped loc ev3) as Hm3 by by apply queue_mapped_bits. clearbody ev3.
  match goal with |- context [if ?b then set_queue_bits_for_tid _ _ _ else _] => destruct b end; [left; by eapply set_result_bit|].
  right. unfold track_send. set (p := SentMessages.mkPending _ _ _ _ _ _ _). split.
  - unfold SentMessages.peek, SentMessages.track. recs. rewrite lookup_insert_eq. cbn. by rewrite last_snoc.
  - intros r rbuf result Hr Hrep. unfold handle_reply_message. rewrite Hrep, Hr. cbn [default from_option id]. rewrite decide_False by done.
    unfold SentMessages.drain_one_with_code, SentMessages.track. recs. rewrite lookup_insert_eq, SentMessages.vec_pop_snoc. cbn [fst].
    eapply set_result_bit; [exact Ho3|done].
Qed.

(** ** Timers *)
Definition timers_at (m : gmap Z (list WinTimer)) (tid : Z) : list WinTimer := default [] (m !! tid).

Lemma expire_loop_spec now fuel pre post fired : Forall (fun t => ~ due now t) pre -> (length post < fuel)%nat ->
  expire_loop fuel now (length pre) (pre ++ post) fired = Some (pre ++ filter (fun t => ~ due now t) post, fired ++ filter (due now) post).
Proof.
  revert fuel pre fired; induction post as [|t post IH]; intros [|fuel] pre fired Hpre Hlen; cbn in Hlen; try lia; cbn [expire_loop].
  - rewrite app_nil_r, lookup_ge_None_2 by done. by rewrite !app_nil_r.
  - rewrite list_lookup_middle by done. rewrite !filter_cons. destruct (decide (due now t)) as [Hd|Hd].
    + rewrite (decide_False (P := ~ due now t)) by (intros Hn; by apply Hn). rewrite delete_middle, IH by (done || lia). by rewrite <- app_assoc.
    + rewrite (decide_True (P := ~ due now t)) by done.
      assert (pre ++ t :: post = (pre ++ [t]) ++ post) as -> by (by rewrite <- app_assoc).
      replace (S (length pre)) with (length (pre ++ [t])) by (rewrite length_app; cbn; lia).
      rewrite IH; [by rewrite <- app_assoc|apply Forall_app; by repeat constructor|lia].
Qed.

Lemma expire_thread_spec now k ts ev : win_timers_pending ev !! k = Some ts ->
  exists ev', expire_thread now k ts ev = Some ev' /\ forall tid,
    timers_at (win_timers_pending ev') tid =
      (if decide (tid = k) then filter (fun t => ~ due now t) ts else timers_at (win_timers_pending ev) tid) /\
    timers_at (win_timers_expired ev') tid =
      timers_at (win_timers_expired ev) tid ++ (if decide (tid = k) then filter (due now) ts else []) /\
    (tid <> k -> win_timers_pending ev' !! tid = win_timers_pending ev !! tid).
Proof.
  intros Hk. unfold expire_thread. pose proof (expire_loop_spec now (S (length ts)) [] ts [] ltac:(constructor) ltac:(lia)) as Hl.
  cbn [length app] in Hl. rewrite Hl. cbn [mbind option_bind].
  eexists; split; [done|]. intros tid. unfold timers_at. destruct (filter (due now) ts) as [|t l]; recs.
  - case_decide as Hd; [subst; rewrite lookup_insert_eq|rewrite lookup_insert_ne by done]; by rewrite app_nil_r.
  - case_decide as Hd; [subst; by rewrite !lookup_insert_eq|rewrite !lookup_insert_ne by done]; by rewrite app_nil_r.
Qed.

Lemma expire_all now (l : list (Z * list WinTimer)) ev : NoDup l.*1 -> (forall k ts, (k, ts) ∈ l -> win_timers_pending ev !! k = Some ts) ->
  exists ev', expire_threads now l ev = Some ev' /\ forall tid,
  let mine := tid ∈ l.*1 in
  timers_at (win_timers_pending ev') tid =
    (if decide mine then filter (fun t => ~ due now t) (timers_at (win_timers_pending ev) tid) else timers_at (win_timers_pending ev) tid) /\
  timers_at (win_timers_expired ev') tid = timers_at (win_timers_expired ev) tid ++
    (if decide mine then filter (due now) (timers_at (win_timers_pending ev) tid) else []).
Proof.
  revert ev; induction l as [|[k ts] l IH]; intros ev Hnd Hin; cbn [expire_threads].
  { exists ev. split; [done|]. intros tid. cbn zeta. rewrite !decide_False by (apply not_elem_of_nil). by rewrite app_nil_r. }
  rewrite fmap_cons in *. cbn [fst snd] in *. apply NoDup_cons in Hnd as [Hk Hnd].
  assert (win_timers_pending ev !! k = Some ts) as Hkt by (apply Hin; by left).
  destruct (expire_thread_spec now k ts ev Hkt) as (ev1 & -> & E). cbn [mbind option_bind].
  destruct (IH ev1 Hnd) as (ev' & -> & I).
  { intros k' ts' Hx. destruct (E k') as (_ & _ & ->); [apply Hin; by right|].
    intros ->. apply Hk. apply list_elem_of_fmap. by exists (k, ts'). }
  exists ev'. split; [done|]. intros tid. destruct (E tid) as (E1 & E2 & _), (I tid) as [I1 I2].
  cbn zeta in *. rewrite I1, I2, E1, E2. destruct (decide (tid = k)) as [->|Hne].
  - destruct (decide (k ∈ l.*1)) as [?|_]; [done|]. destruct (decide (k ∈ k :: l.*1)) as [_|Hx]; [|destruct Hx; by left].
    unfold timers_at. rewrite Hkt, app_nil_r. done.
  - rewrite app_nil_r. destruct (decide (tid ∈ l.*1)) as [Hl|Hl].
    + rewrite !decide_True by by right. done.
    + rewrite !decide_False by (by intros [?|?]%elem_of_cons). done.
Qed.

Lemma wake_timers_keep (l : list Z) ev :
  let ev' := fold_left (fun ev tid => wake_timer_thread tid ev) l ev in
  win_timers_pending ev' = win_timers_pending ev /\ win_timers_expired ev' = win_timers_expired ev.
Proof.
  revert ev; induction l as [|t l IH]; intros ev; cbn [fold_left]; [done|]. destruct (IH (wake_timer_thread t ev)) as [-> ->].
  unfold wake_timer_thread. destruct (find_client t ev) as [[? c]|]; [|done]. case_decide; [|done].
  unfold set_event. by destruct (_ !! _) as [[? ?]|].
Qed.

(** C32: a tick ends and expires exactly the window timers that are due: each
    thread's due timers move to the end of its expired ones in their order, the
    others stay pending in theirs, and none is lost, doubled or fired early. *)
Theorem win_timers_expire_exactly now ev :
  exists ev', check_win_timers now ev = Some ev' /\ forall tid,
    timers_at (win_timers_pending ev') tid = filter (fun t => ~ due now t) (timers_at (win_timers_pending ev) tid) /\
    timers_at (win_timers_expired ev') tid =
      timers_at (win_timers_expired ev) tid ++ filter (due now) (timers_at (win_timers_pending ev) tid).
Proof.
  unfold check_win_timers. set (all := map_to_list (win_timers_pending ev)). cbn zeta.
  destruct (expire_all now all ev) as (ev' & -> & E); [apply NoDup_fst_map_to_list|intros k ts Hx; by apply elem_of_map_to_list|].
  cbn [mbind option_bind]. eexists; split; [done|]. intros tid. destruct (E tid) as [E1 E2].
  match goal with |- context [fold_left _ ?w ev'] => destruct (wake_timers_keep w ev') as [-> ->] end. rewrite E1, E2.
  destruct (decide (tid ∈ all.*1)) as [Hin|Hout]; [done|].
  assert (win_timers_pending ev !! tid = None) as Hn.
  { apply eq_None_not_Some. intros [ts Hts]. apply Hout, list_elem_of_fmap. exists (tid, ts). split; [done|]. by apply elem_of_map_to_list. }
  unfold timers_at. by rewrite Hn.
Qed.

(** A killed timer is in neither list, and killing it again is an error. *)
Lemma kill_win_timer_spec c buf ev window msg id tid :
  kill_win_timer_request buf = Some (window, msg, id) -> timer_thread 0xC000000D c window ev = inl tid ->
  let '(ev', r) := handle_kill_win_timer c buf ev in
  Forall (fun t => ~ same_timer window msg id t) (timers_at (win_timers_pending ev') tid ++ timers_at (win_timers_expired ev') tid) /\
  (handle_kill_win_timer c buf ev').2 = status_reply 0xC000000D.
Proof.
  intros Hreq Ht. unfold handle_kill_win_timer. rewrite Hreq, Ht.
  assert (forall m, Forall (fun t => ~ same_timer window msg id t) (timers_at (drop_timer tid window msg id m) tid)) as Hd.
  { intros m. unfold timers_at, drop_timer. rewrite lookup_alter_eq. destruct (m !! tid); cbn; [|constructor]. apply Forall_forall. intros x [Hx _]%list_elem_of_filter. done. }
  assert (forall m, has_timer tid window msg id (drop_timer tid window msg id m) = false) as Hh.
  { intros m. apply bool_decide_false. intros (x & Hx & Hsame)%Exists_exists. by apply (proj1 (Forall_forall _ _) (Hd m) x). }
  split; [apply Forall_app; split; apply Hd|]. change (timer_thread 0xC000000D c window _) with (timer_thread 0xC000000D c window ev). rewrite Ht.
  cbn [snd]. recs. by rewrite !Hh.
Qed.

End handlers.
End Messages.

Module MessagesDemo.
Import Replies Ntsync ModelKernel Ipc ServerState Loop LoopDemo Session WinTree.
Import Windows WindowsDemo Desktop Messages.

#[export] Instance demo_messages : Messages.Protocol := {
  layout r := match r with
              | GetMessageReply h window msg wparam _ type _ _ _ _ =>
                  header_bytes h ++ le_bytes 4 window ++ le_bytes 4 msg ++ le_bytes 8 wparam ++ le_bytes 4 type
              | GetMessageReplyReply h r => header_bytes h ++ le_bytes 8 r
              | _ => []
              end;
  get_message_request b := Some (mkGetMessage (arg 0 b) (arg 1 b) (arg 2 b));
  send_message_request b := Some (mkSendMessage (arg 0 b) (arg 1 b) (arg 2 b) (arg 3 b) (arg 4 b) (arg 5 b));
  set_queue_fd_request b := Some (arg 0 b);
  set_queue_mask_request b := Some (mkQueueMask (arg 0 b) (arg 1 b) (arg 2 b));
  reply_message_request b := Some (arg 0 b);
  post_quit_message_request b := Some (arg 0 b);
  set_win_timer_request b := Some (mkWinTimerRequest (arg 0 b) (arg 1 b) (arg 2 b) (arg 3 b) (arg 4 b));
  kill_win_timer_request b := Some (arg 0 b, arg 1 b, arg 2 b);
  send_hardware_message_request b := Some (arg 0 b, tail b);
}.

Definition with_slot (tid : Z) (ev : EventLoop MK) : EventLoop MK := ev <| shm ::= fun s => (got (Shm.alloc_slot s tid) (s, None)).1 |>.
Definition with_queue (c : Z) (ev : EventLoop MK) : EventLoop MK := (got (handle_get_msg_queue c [] ev) (ev, ok0)).1.

(** The two clients of [start] with their rings and queue objects. *)
Definition queues : EventLoop MK := with_slot 36 (with_slot 44 (with_queue 9 (with_queue 7 start))).

Definition post (msg : Z) : post_op := PostMessage 9 [36; 6; 0; msg; 0; 0].
Definition take : post_op := TakeMessage 0 [0x00080001; 0; 0].
Definition take_any : post_op := TakeMessage 0 [1; 0; 0].

Lemma queues_holds : queue_holds 36 [] queues.
Proof. exists (default 0 (Shm.slot_map (shm queues) !! 36)). split; [reflexivity|]. exact (Queue.init_at_repr 36). Qed.

Lemma posted_messages_fifo_witness :
  (run_posts 7 [post 0x401; post 0x402; take; take_any; take] queues).2 =
    [ok0; ok0; message_reply (mkQueuedMessage 0 0x401 0 0 6 0 0 0 (0, 0)); message_reply (mkQueuedMessage 0 0x402 0 0 6 0 0 0 (0, 0)); pending_reply].
Proof.
  destruct (posted_messages_fifo 7 36 QS_ALLINPUT (window_states queues) [post 0x401; post 0x402; take; take_any; take] [] queues) as [Hr _].
  - split; [reflexivity|]. vm_compute. congruence.
  - constructor; [..|constructor; intros _]; vm_compute; eauto.
  - exact queues_holds.
  - repeat constructor; try (by left); (eexists; split; [reflexivity|]; split; [reflexivity|]; repeat constructor).
  - rewrite Hr. vm_compute. reflexivity.
Defined.

Lemma only_client g d : clients queues !! g = Some d -> thread_id d = 36 -> g = 7.
Proof.
  assert (map_Forall (fun g d => thread_id d = 36 -> g = 7) (clients queues)) as Hall by (apply (bool_decide_unpack _); vm_compute; exact I).
  exact (Hall g d).
Qed.

Definition locator_of (c : Z) (ev : EventLoop MK) : list Z := default [] (queue_locator <$> clients ev !! c).

Lemma blocking_send_released_witness :
  let ev1 := (handle_send_message 7 [44; 5; 0; 0x401; 0; 0] queues).1 in
  result_ready (locator_of 7 queues) ev1 \/ result_ready (locator_of 7 queues) (handle_reply_message 9 [0] ev1).1.
Proof.
  cbv zeta. destruct (blocking_send_released 7 [44; 5; 0; 0x401; 0; 0] queues (mkSendMessage 44 5 0 0x401 0 0) 36 32 (locator_of 7 queues)) as [Hr|[_ Hr]].
  - reflexivity.
  - reflexivity.
  - vm_compute. congruence.
  - vm_compute. congruence.
  - reflexivity.
  - split; [reflexivity|]. exact only_client.
  - unfold queue_mapped. vm_compute. split_and!; congruence.
  - left. exact Hr.
  - right. apply (Hr 9 [0] 0); reflexivity.
Defined.

(** *** What the handlers do beside that *)

(** A blocking send is both tracked and posted: the receiver gets it from the
    tracked ones, replies, and then gets it once more from the ring. *)
Theorem blocking_send_delivered_twice :
  let ev1 := (handle_send_message 7 [44; 5; 0; 0x401; 0; 0] queues).1 in
  let '(ev2, r1) := handle_get_message 0 9 [1; 0; 0] ev1 in
  let ev3 := (handle_reply_message 9 [0] ev2).1 in
  let '(ev4, r2) := handle_get_message 0 9 [1; 0; 0] ev3 in
  r1 = message_reply (mkQueuedMessage 0 0x401 0 0 5 0 0 0 (0, 0)) /\ r2 = r1.
Proof. vm_compute. done. Qed.

(** A look at the queue without the flag that removes takes the posted message. *)
Theorem peek_removes_posted :
  let ev1 := (handle_send_message 9 [36; 6; 0; 0x401; 0; 0] queues).1 in
  let '(ev2, r1) := handle_get_message 0 7 [0; 0; 0] ev1 in
  r1 = message_reply (mkQueuedMessage 0 0x401 0 0 6 0 0 0 (0, 0)) /\ (handle_get_message 0 7 [1; 0; 0] ev2).2 = pending_reply.
Proof. vm_compute. done. Qed.

(** A row above the screen reaches beyond the 32 bits of a packed position. *)
Theorem mouse_lparam_overflows : mouse_lparam 5 (-1) = 0xFFFFFFFF0005 /\ ~ mouse_lparam 5 (-1) < 2 ^ 32.
Proof. vm_compute. split; [done|]. intros E. discriminate E. Qed.

(** The type that is rewritten is the literal 1, and so with the protocol's numbers
    a wide-character send becomes a callback while one from another process, which
    the comment means, stays. *)
Theorem wire_type_literals :
  let ev := with_slot 52 (connect 11 32 52 queues) in
  let sent type := (handle_get_message 0 11 [0x00080001; 0; 0] (handle_send_message 7 [52; type; 0; 0x401; 0; 0] ev).1).2 in
  sent MSG_UNICODE = message_reply (mkQueuedMessage 0 0x401 0 0 MSG_CALLBACK 0 0 0 (0, 0)) /\
  sent MSG_OTHER_PROCESS = message_reply (mkQueuedMessage 0 0x401 0 0 MSG_OTHER_PROCESS 0 0 0 (0, 0)).
Proof. vm_compute. done. Qed.

(** The threads of a process share one queue object: the reply that one of them
    fetches clears the result bit the other one waits for. *)
Theorem shared_queue_loses_result :
  let ev := with_queue 11 (connect 11 32 52 queues) in
  let ev1 := set_queue_bits_for_tid 36 QS_SMRESULT ev in
  locator_of 11 ev = locator_of 7 ev /\ result_ready (locator_of 7 ev) ev1 /\
  ~ result_ready (locator_of 7 ev) (handle_get_message_reply 11 [] ev1).1.
Proof. unfold result_ready. vm_compute. split_and!; congruence. Qed.

End MessagesDemo.
