(* ===== verification/Image.v ===== *)
(** * Headers of executable images ([src/rust/src/triskelion/event_loop/file_io.rs])

    When a client maps an executable, the daemon reads its headers and keeps the
    [PeImageInfo] the loader asks for; sections that are shared and writable are
    copied to memory of their own.  A file is read through [pread], which may fail
    or read less than asked.  Headers are read into a buffer of 4096 bytes; an
    index outside of it is a panic. *)

From stdpp Require Import base list gmap strings.
From S2P Require Import Prelude Dispatch Text Registry.
Local Open Scope Z_scope.
Local Open Scope outcome_scope.

Module Image.
Import Replies.
Local Notation lit := Registry.lit.

(** [pe_image_info_t], in the order of its fields. *)
Record PeImageInfo : Type := mkPeImageInfo {
  base : Z; map_addr : Z; stack_size : Z; stack_commit : Z;
  entry_point : Z; map_size : Z; alignment : Z; zerobits : Z; subsystem : Z;
  subsystem_minor : Z; subsystem_major : Z; osversion_major : Z; osversion_minor : Z;
  image_charact : Z; dll_charact : Z; machine : Z; image_flags_byte : Z; image_flags : Z;
  loader_flags : Z; header_size : Z; header_map_size : Z; file_size : Z; checksum : Z; dbg_offset : Z; dbg_size : Z }.

(** The width and the value of each field; the struct has no padding. *)
Definition info_fields (i : PeImageInfo) : list (nat * Z) :=
  [(8, base i); (8, map_addr i); (8, stack_size i); (8, stack_commit i); (4, entry_point i); (4, map_size i); (4, alignment i);
   (4, zerobits i); (4, subsystem i); (2, subsystem_minor i); (2, subsystem_major i); (2, osversion_major i); (2, osversion_minor i);
   (2, image_charact i); (2, dll_charact i); (2, machine i); (1, image_flags_byte i); (1, image_flags i); (4, loader_flags i);
   (4, header_size i); (4, header_map_size i); (4, file_size i); (4, checksum i); (4, dbg_offset i); (4, dbg_size i)]%nat.
Definition encode (fields : list (nat * Z)) : list Z := fields ≫= fun f => le_bytes f.1 f.2.

(** [slice::from_raw_parts] over the struct. *)
Definition info_bytes (i : PeImageInfo) : list Z := encode (info_fields i).

(** What the optional header says, at the same places for both formats but for the
    image base and the stack sizes. *)
Record OptionalHeader : Type := mkOptional {
  oh_entry : Z; oh_base : Z; oh_align : Z; oh_size : Z; oh_header_size : Z; oh_stack : Z; oh_commit : Z;
  oh_subsystem : Z; oh_dll_charact : Z; oh_checksum : Z; oh_os_major : Z; oh_os_minor : Z; oh_sub_major : Z; oh_sub_minor : Z }.

(** A number in the buffer, [from_le_bytes] of indexed bytes. *)
Definition read_le (n : nat) (buf : list Z) (off : Z) : outcome Z :=
  if decide (off + Z.of_nat n <= blen buf) then Ret (from_le (slice (Z.to_nat off) n buf)) else Panic.

Definition HEADER_BUFFER : nat := 4096.

(** The zeroed buffer after a read. *)
Definition header_buffer (bs : list Z) : list Z := bs ++ replicate (HEADER_BUFFER - length bs) 0.

Section Reader.
Context (pread : nat -> Z -> option (list Z)).

Definition read_optional (buf : list Z) (opt : Z) (plus : bool) : outcome OptionalHeader :=
  let r off := read_le 4 buf (opt + off) in
  let r16 off := read_le 2 buf (opt + off) in
  let r64 off := read_le 8 buf (opt + off) in
  entry <-! r 16 ;;
  image_base <-! (if plus then r64 24 else r 28) ;;
  align <-! r 32 ;;
  size <-! r 56 ;;
  header <-! r 60 ;;
  stack <-! (if plus then r64 72 else r 72) ;;
  commit <-! (if plus then r64 80 else r 76) ;;
  sub <-! r16 68 ;;
  dll <-! r16 70 ;;
  sum <-! r 64 ;;
  os_major <-! r16 44 ;;
  os_minor <-! r16 46 ;;
  sub_major <-! r16 48 ;;
  sub_minor <-! r16 50 ;;
  Ret (mkOptional entry image_base align size header stack commit sub dll sum os_major os_minor sub_major sub_minor).

(** The file offset of an address, 0 when no section of the first [n] bytes of the
    buffer has it. *)
Fixpoint section_offset (count : nat) (buf : list Z) (n sh va : Z) : outcome Z :=
  match count with
  | O => Ret 0
  | S count =>
      if decide (n < sh + 40) then Ret 0
      else
        sec_va <-! read_le 4 buf (sh + 12) ;;
        sec_raw_sz <-! read_le 4 buf (sh + 16) ;;
        sec_raw_ptr <-! read_le 4 buf (sh + 20) ;;
        if decide (sec_va <= va /\ va < u32 (sec_va + sec_raw_sz)) then Ret (u32 (sec_raw_ptr + u32 (va - sec_va)))
        else section_offset count buf n (sh + 40) va
  end.

(** Whether there is a CLR header, and its flags. *)
Definition clr_header (buf : list Z) (n coff opt opt_size : Z) (plus : bool) : outcome (bool * Z) :=
  let r off := read_le 4 buf (opt + off) in
  num_data_dirs <-! r (if plus then 108 else 92) ;;
  let dd_off := (if plus then 112 else 96) + 14 * 8 in
  if decide (14 < num_data_dirs /\ opt + dd_off + 8 <= n) then
    clr_va <-! r dd_off ;;
    clr_sz <-! r (dd_off + 4) ;;
    if decide (clr_va <> 0 /\ clr_sz <> 0) then
      num_sections <-! read_le 2 buf (coff + 2) ;;
      off <-! section_offset (Z.to_nat num_sections) buf n (opt + opt_size) clr_va ;;
      Ret (true, if decide (0 < off) then
                   match pread 72 off with
                   | Some bs => if decide (20 <= length bs)%nat then from_le (slice 16 4 bs) else 0
                   | None => 0
                   end
                 else 0)
    else Ret (false, 0)
  else Ret (false, 0).

(** [&buf[a..b] == lit]: slices of different lengths differ. *)
Definition slice_is (a b : nat) (s : string) (buf : list Z) : bool := bool_decide (slice a (b - a) buf = lit s).

Definition header_map (header align : Z) : Z :=
  if decide (0 < align) then Z.land (u32 (u32 (header + align) - 1)) (u32 (Z.lnot (u32 (align - 1)))) else header.

Definition flag (b : bool) (v : Z) : Z := if b then v else 0.

Definition make_info (h : OptionalHeader) (machine charact size : Z) (builtin fakedll has_clr : bool) (clr_flags : Z) : PeImageInfo :=
  let il_only := has_clr && Z.testbit clr_flags 0 in
  let native_ready := il_only && negb (Z.testbit clr_flags 1) in
  let prefer32 := has_clr && Z.testbit clr_flags 17 in
  mkPeImageInfo (oh_base h) 0 (oh_stack h) (oh_commit h) (oh_entry h) (oh_size h) (oh_align h) 0 (oh_subsystem h)
    (oh_sub_minor h) (oh_sub_major h) (oh_os_major h) (oh_os_minor h) charact (oh_dll_charact h) machine
    (Z.lor (Z.lor 1 (flag builtin 2)) (flag fakedll 4))
    (Z.lor (Z.lor (flag native_ready 0x01) (flag il_only 0x02)) (flag prefer32 0x20))
    (flag has_clr 1) (oh_header_size h) (header_map (oh_header_size h) (oh_align h)) size (oh_checksum h) 0 0.

(** [st_size] is what [fstat] reports, when it succeeds. *)
Definition read_pe_image_info (st_size : option Z) : outcome (option (PeImageInfo * Z)) :=
  match pread HEADER_BUFFER 0 with
  | None => Ret None
  | Some bs =>
      let n := blen bs in
      let buf := header_buffer bs in
      if decide (n < 64) then Ret None
      else if negb (slice_is 0 2 "MZ" buf) then Ret None
      else
        let e_lfanew := from_le (slice 0x3C 4 buf) in
        if decide (n < e_lfanew + 4) then Ret None
        else if negb (bool_decide (slice (Z.to_nat e_lfanew) 4 buf = lit "PE" ++ [0; 0])) then Ret None
        else
          let coff := e_lfanew + 4 in
          if decide (n < coff + 20) then Ret None
          else
            machine <-! read_le 2 buf coff ;;
            opt_size <-! read_le 2 buf (coff + 16) ;;
            charact <-! read_le 2 buf (coff + 18) ;;
            let opt := coff + 20 in
            if decide (n < opt + opt_size) then Ret None
            else
              magic <-! read_le 2 buf opt ;;
              let plus := bool_decide (magic = 0x20B) in
              h <-! read_optional buf opt plus ;;
              clr <-! clr_header buf n coff opt opt_size plus ;;
              let builtin := bool_decide (0x50 < n) && slice_is 0x40 0x44 "Wine" buf in
              let fakedll := bool_decide (0x54 < n) && slice_is 0x40 0x50 "Wine placehold" buf in
              Ret (Some (make_info h machine charact (default 0 (u32 <$> st_size)) builtin fakedll clr.1 clr.2, oh_size h))
  end.

(** ** Shared writable sections *)
Definition IMAGE_SCN_MEM_SHARED : Z := 0x10000000.
Definition IMAGE_SCN_MEM_WRITE : Z := 0x80000000.

(** Place in the copy, place in the file and size, and the size of the copy. *)
Fixpoint shared_sections (count : nat) (buf : list Z) (n off mask total : Z) (acc : list (Z * Z * Z)) : outcome (list (Z * Z * Z) * Z) :=
  match count with
  | O => Ret (acc, total)
  | S count =>
      if decide (n < off + 40) then Ret (acc, total)
      else
        vsize <-! read_le 4 buf (off + 8) ;;
        raw_size <-! read_le 4 buf (off + 16) ;;
        raw_ptr <-! read_le 4 buf (off + 20) ;;
        chars <-! read_le 4 buf (off + 36) ;;
        if decide (Z.land chars IMAGE_SCN_MEM_SHARED <> 0 /\ Z.land chars IMAGE_SCN_MEM_WRITE <> 0) then
          let map_size := Z.land (u64 (vsize + mask)) (u64 (Z.lnot mask)) in
          shared_sections count buf n (off + 40) mask (u64 (total + map_size)) (acc ++ [(total, raw_ptr, Z.min raw_size (u32 map_size))])
        else shared_sections count buf n (off + 40) mask total acc
  end.

(** The first pass of [create_shared_section_fd]; [None] when there is nothing to copy. *)
Definition plan_shared : outcome (option (list (Z * Z * Z) * Z)) :=
  match pread HEADER_BUFFER 0 with
  | None => Ret None
  | Some bs =>
      let n := blen bs in
      let buf := header_buffer bs in
      if decide (n < 64) then Ret None
      else if negb (slice_is 0 2 "MZ" buf) then Ret None
      else
        let e_lfanew := from_le (slice 0x3C 4 buf) in
        if decide (n < e_lfanew + 24) then Ret None
        else if negb (bool_decide (slice (Z.to_nat e_lfanew) 4 buf = lit "PE" ++ [0; 0])) then Ret None
        else
          num_sections <-! read_le 2 buf (e_lfanew + 6) ;;
          opt_size <-! read_le 2 buf (e_lfanew + 20) ;;
          let opt := e_lfanew + 24 in
          magic <-! read_le 2 buf opt ;;
          align <-! read_le 4 buf (opt + 32) ;;
          let mask := if decide (0 < align) then align - 1 else 0 in
          r <-! shared_sections (Z.to_nat num_sections) buf n (opt + opt_size) mask 0 [] ;;
          Ret (if decide (r.2 = 0) then None else Some r)
  end.

End Reader.

(** ** Fields one after the other *)
Definition width (fields : list (nat * Z)) : nat := sum_list (fields.*1).

Lemma length_encode fields : length (encode fields) = width fields.
Proof. unfold encode, width. induction fields as [|[w v] fields IH]; [done|]. cbn. rewrite length_app, length_le_bytes. by rewrite IH. Qed.
Lemma encode_app f g : encode (f ++ g) = encode f ++ encode g.
Proof. unfold encode. apply bind_app. Qed.

Lemma read_le_app n pre post off : 0 <= off -> read_le n (pre ++ post) (blen pre + off) = read_le n post off.
Proof.
  intros Ho. unfold read_le, blen. rewrite length_app. case_decide as Hd; case_decide as Hd'; try lia; [|done].
  do 2 f_equal. unfold slice. rewrite drop_app_ge by lia. do 2 f_equal. lia.
Qed.

Lemma read_le_at n v post : 0 <= v < 256 ^ Z.of_nat n -> read_le n (le_bytes n v ++ post) 0 = Ret v.
Proof.
  intros Hv. unfold read_le, blen. rewrite length_app, length_le_bytes, decide_True by lia. f_equal.
  unfold slice. rewrite drop_0, take_app_length' by by rewrite length_le_bytes. rewrite from_le_bytes. by apply Z.mod_small.
Qed.

(** Reading the [i]-th field at its place gives its value. *)
Lemma read_field pre fields post i n v off : fields !! i = Some (n, v) -> 0 <= v < 256 ^ Z.of_nat n ->
  off = blen pre + Z.of_nat (width (take i fields)) -> read_le n (pre ++ encode fields ++ post) off = Ret v.
Proof.
  intros Hi Hv ->. rewrite read_le_app by lia. rewrite <- (take_drop_middle _ _ _ Hi) at 1.
  rewrite encode_app, <- app_assoc. replace (Z.of_nat (width (take i fields))) with (blen (encode (take i fields)) + 0) by (unfold blen; rewrite length_encode; lia).
  rewrite read_le_app by lia. change (encode ((n, v) :: drop (S i) fields)) with (le_bytes n v ++ encode (drop (S i) fields)).
  rewrite <- app_assoc. by apply read_le_at.
Qed.

(** ** Images as a linker writes them *)

(** The headers of an image, with the names of the format; [p_plus] is the 64-bit
    format. *)
Record PeHeader : Type := mkPe {
  p_plus : bool; p_machine : Z; p_sections : Z; p_charact : Z; p_entry : Z; p_base : Z; p_align : Z;
  p_os_major : Z; p_os_minor : Z; p_image_major : Z; p_image_minor : Z; p_sub_major : Z; p_sub_minor : Z;
  p_size : Z; p_headers : Z; p_checksum : Z; p_subsystem : Z; p_dll_charact : Z; p_stack : Z; p_commit : Z;
  p_dirs : list (Z * Z) }.

Definition wide (p : PeHeader) : nat := if p_plus p then 8 else 4.
Definition fld (n : nat) (v : Z) : nat * Z := (n, v).
Definition opt_fields (p : PeHeader) : list (nat * Z) :=
  [fld 2 (if p_plus p then 0x20B else 0x10B); fld 2 0; fld 4 0; fld 4 0; fld 4 0; fld 4 (p_entry p); fld 4 0] ++
  (if p_plus p then [fld 8 (p_base p)] else [fld 4 0; fld 4 (p_base p)]) ++
  [fld 4 (p_align p); fld 4 0x200; fld 2 (p_os_major p); fld 2 (p_os_minor p); fld 2 (p_image_major p); fld 2 (p_image_minor p);
   fld 2 (p_sub_major p); fld 2 (p_sub_minor p); fld 4 0; fld 4 (p_size p); fld 4 (p_headers p); fld 4 (p_checksum p);
   fld 2 (p_subsystem p); fld 2 (p_dll_charact p); fld (wide p) (p_stack p); fld (wide p) (p_commit p); fld (wide p) 0; fld (wide p) 0;
   fld 4 0; fld 4 (Z.of_nat (length (p_dirs p)))].
Definition dir_fields (p : PeHeader) : list (nat * Z) := p_dirs p ≫= fun d => [fld 4 d.1; fld 4 d.2].
Definition opt_size (p : PeHeader) : Z := Z.of_nat (width (opt_fields p) + width (dir_fields p)).
Definition coff_fields (p : PeHeader) : list (nat * Z) :=
  [fld 2 (p_machine p); fld 2 (p_sections p); fld 4 0; fld 4 0; fld 4 0; fld 2 (opt_size p); fld 2 (p_charact p)].

(** The bytes before the optional header; [stub] is what follows the DOS header. *)
Definition lfanew (stub : list Z) : Z := 64 + blen stub.
Definition dos (stub : list Z) : list Z := lit "MZ" ++ replicate 58 0 ++ le_bytes 4 (lfanew stub) ++ stub.
Definition before_opt (stub : list Z) (p : PeHeader) : list Z := dos stub ++ (lit "PE" ++ [0; 0]) ++ encode (coff_fields p).
Definition headers (stub : list Z) (p : PeHeader) : list Z := before_opt stub p ++ encode (opt_fields p) ++ encode (dir_fields p).

Definition fields_ok (fields : list (nat * Z)) : Prop := Forall (fun f => 0 <= f.2 < 256 ^ Z.of_nat f.1) fields.
Definition well_formed (p : PeHeader) : Prop := fields_ok (coff_fields p) /\ fields_ok (opt_fields p) /\ fields_ok (dir_fields p).

(** Whether the image has a CLR header. *)
Definition has_clr (p : PeHeader) : bool :=
  match p_dirs p !! 14%nat with Some (va, sz) => bool_decide (va <> 0 /\ sz <> 0) | None => false end.

Definition optional_of (p : PeHeader) : OptionalHeader :=
  mkOptional (p_entry p) (p_base p) (p_align p) (p_size p) (p_headers p) (p_stack p) (p_commit p) (p_subsystem p)
    (p_dll_charact p) (p_checksum p) (p_image_major p) (p_image_minor p) (p_sub_major p) (p_sub_minor p).

Lemma read_ok pre fields post i n v off : fields_ok fields -> fields !! i = Some (n, v) ->
  off = blen pre + Z.of_nat (width (take i fields)) -> read_le n (pre ++ encode fields ++ post) off = Ret v.
Proof. intros Hok Hi Ho. eapply read_field; [done| |done]. exact (proj1 (Forall_lookup _ _) Hok i _ Hi). Qed.

(** One read of the field at the index, of the width. *)
Ltac field_at Hr i n := 
  let i := constr:(Z.to_nat i) in let n := constr:(Z.to_nat n) in let i := eval vm_compute in i in let n := eval vm_compute in n in
  match goal with |- obind (read_le _ _ ?o) _ = _ => rewrite (Hr i n _ o eq_refl eq_refl) end; cbn [obind].

Lemma read_optional_ok pre p post : fields_ok (opt_fields p) ->
  read_optional (pre ++ encode (opt_fields p) ++ post) (blen pre) (p_plus p) = Ret (optional_of p).
Proof.
  intros Hok. unfold read_optional. pose proof (fun i n v off => read_ok pre (opt_fields p) post i n v off Hok) as Hr.
  set (buf := pre ++ encode (opt_fields p) ++ post) in *. clearbody buf.
  unfold opt_fields, wide in Hr. destruct (p_plus p); cbn [app] in Hr; cbv zeta.
  - field_at Hr 5 4. field_at Hr 7 8. field_at Hr 8 4. field_at Hr 17 4. field_at Hr 18 4. field_at Hr 22 8. field_at Hr 23 8.
    field_at Hr 20 2. field_at Hr 21 2. field_at Hr 19 4. field_at Hr 12 2. field_at Hr 13 2. field_at Hr 14 2. field_at Hr 15 2. done.
  - field_at Hr 5 4. field_at Hr 8 4. field_at Hr 9 4. field_at Hr 18 4. field_at Hr 19 4. field_at Hr 23 4. field_at Hr 24 4.
    field_at Hr 21 2. field_at Hr 22 2. field_at Hr 20 4. field_at Hr 13 2. field_at Hr 14 2. field_at Hr 15 2. field_at Hr 16 2. done.
Qed.

Lemma read_le_ret n buf off : off + Z.of_nat n <= blen buf -> exists v, read_le n buf off = Ret v.
Proof. intros Hle. unfold read_le. rewrite decide_True by done. eauto. Qed.

(** The walk over the sections stays in the bytes that were read. *)
Lemma section_offset_ret count buf n sh va : n <= blen buf -> exists v, section_offset count buf n sh va = Ret v.
Proof.
  intros Hn. revert sh; induction count as [|count IH]; intros sh; cbn [section_offset]; [eauto|]. case_decide; [eauto|].
  destruct (read_le_ret 4 buf (sh + 12) ltac:(lia)) as [a ->], (read_le_ret 4 buf (sh + 16) ltac:(lia)) as [b ->],
    (read_le_ret 4 buf (sh + 20) ltac:(lia)) as [c ->]. cbn [obind]. case_decide; eauto.
Qed.

Lemma dir_fields_at (dirs : list (Z * Z)) i va sz : dirs !! i = Some (va, sz) ->
  let fields := dirs ≫= fun d => [fld 4 d.1; fld 4 d.2] in
  fields !! (2 * i)%nat = Some (4%nat, va) /\ fields !! S (2 * i) = Some (4%nat, sz) /\
  width (take (2 * i) fields) = (8 * i)%nat /\ width (take (S (2 * i)) fields) = (8 * i + 4)%nat.
Proof.
  revert i; induction dirs as [|[a b] dirs IH]; intros [|i] Hi; try done.
  - cbn in Hi. injection Hi as -> ->. done.
  - specialize (IH i Hi) as (IH1 & IH2 & IH3 & IH4). cbn zeta in *.
    replace (2 * S i)%nat with (S (S (2 * i))) by lia. unfold width in *. cbn -[Nat.mul] in *. split_and!; [done|done|lia|lia].
Qed.

Lemma clr_header_ok pread pre p post n coff osz : fields_ok (opt_fields p) -> fields_ok (dir_fields p) ->
  let buf := pre ++ encode (opt_fields p) ++ encode (dir_fields p) ++ post in
  blen pre + opt_size p <= n <= blen buf -> coff + 4 <= blen buf ->
  exists flags, clr_header pread buf n coff (blen pre) osz (p_plus p) = Ret (has_clr p, flags).
Proof.
  intros Hoo Hdo buf [Hn1 Hn2] Hc. unfold clr_header.
  pose proof (fun i n v off => read_ok pre (opt_fields p) (encode (dir_fields p) ++ post) i n v off Hoo) as Hr.
  assert (blen (pre ++ encode (opt_fields p)) = blen pre + (if p_plus p then 112 else 96)) as Hpre.
  { unfold blen. rewrite length_app, length_encode. unfold opt_fields, wide. destruct (p_plus p); cbn; lia. }
  pose proof (fun i n v off => read_ok (pre ++ encode (opt_fields p)) (dir_fields p) post i n v off Hdo) as Hd.
  rewrite <- app_assoc in Hd. fold buf in Hr, Hd. rewrite Hpre in Hd. unfold opt_size in Hn1.
  assert (read_le 4 buf (blen pre + (if p_plus p then 108 else 92)) = Ret (Z.of_nat (length (p_dirs p)))) as ->.
  { unfold opt_fields, wide in Hr. destruct (p_plus p); cbn [app] in Hr; [apply (Hr 27%nat)|apply (Hr 28%nat)]; reflexivity. }
  cbn [obind]. unfold has_clr.
  assert (Z.of_nat (width (opt_fields p)) = if p_plus p then 112 else 96) as Hw by (unfold opt_fields, wide; by destruct (p_plus p)).
  assert (width (dir_fields p) = (8 * length (p_dirs p))%nat) as Hwd.
  { unfold dir_fields, width. clear. induction (p_dirs p) as [|d l IH]; [done|]. cbn in *. lia. }
  destruct (p_dirs p !! 14%nat) as [[va sz]|] eqn:H14.
  - pose proof (lookup_lt_Some _ _ _ H14) as Hlt. rewrite decide_True by (destruct (p_plus p); lia).
    destruct (dir_fields_at (p_dirs p) 14 va sz H14) as (D1 & D2 & D3 & D4).
    rewrite (Hd _ _ _ _ D1) by (unfold dir_fields; rewrite D3; destruct (p_plus p); lia). cbn [obind].
    rewrite (Hd _ _ _ _ D2) by (unfold dir_fields; rewrite D4; destruct (p_plus p); lia). cbn [obind].
    case_decide as Hz; [|rewrite bool_decide_false by done; eauto]. rewrite bool_decide_true by done.
    destruct (read_le_ret 2 buf (coff + 2) ltac:(lia)) as [c ->]. cbn [obind].
    destruct (section_offset_ret (Z.to_nat c) buf n (blen pre + osz) va Hn2) as [o ->]. cbn [obind]. eauto.
  - apply lookup_ge_None in H14. rewrite decide_False by lia. eauto.
Qed.

Lemma slice_between {A} (pre x post : list A) n m : n = length pre -> m = length x -> slice n m (pre ++ x ++ post) = x.
Proof. intros -> ->. unfold slice. rewrite drop_app_length. by rewrite take_app_length. Qed.

(** The buffer when the headers fit: they stand at its start. *)
Lemma header_buffer_headers stub p rest : (length (headers stub p) <= HEADER_BUFFER)%nat ->
  let bs := take HEADER_BUFFER (headers stub p ++ rest) in
  (exists post, header_buffer bs = headers stub p ++ post) /\ blen (headers stub p) <= blen bs <= blen (header_buffer bs).
Proof.
  intros Hle bs. unfold header_buffer, bs. split.
  - rewrite take_app_ge by done. rewrite <- app_assoc. eauto.
  - unfold blen. rewrite length_app, length_take, length_app. lia.
Qed.

Lemma lengths stub p : blen (dos stub) = lfanew stub /\ blen (before_opt stub p) = lfanew stub + 24 /\
  blen (headers stub p) = lfanew stub + 24 + opt_size p /\ 96 <= opt_size p.
Proof.
  assert (blen (dos stub) = lfanew stub) as Hd.
  { unfold dos, lfanew, blen. rewrite !length_app, length_replicate, length_le_bytes. change (length (lit "MZ")) with 2%nat. lia. }
  assert (blen (before_opt stub p) = lfanew stub + 24) as Hb.
  { unfold before_opt. unfold blen in *. rewrite !length_app, length_encode. change (width (coff_fields p)) with 20%nat.
    change (length (lit "PE")) with 2%nat. cbn [length]. lia. }
  split_and!; [done|done| |].
  - unfold headers, opt_size. unfold blen in *. rewrite !length_app, !length_encode. lia.
  - unfold opt_size, opt_fields, wide. destruct (p_plus p); cbn -[Z.of_nat]; lia.
Qed.

(** The mark of a placeholder is compared with sixteen bytes and has fourteen. *)
Lemma fakedll_never buf : 0x50 <= blen buf -> slice_is 0x40 0x50 "Wine placehold" buf = false.
Proof.
  intros Hb. apply bool_decide_false. intros He. apply (f_equal length) in He. rewrite length_slice in He by (unfold blen in Hb; lia). done.
Qed.

(** What the reader makes of an image: every field of the headers is found, and the
    version of the operating system is the one the linker gave the image. *)
Lemma read_pe_image_info_ok pread st stub p rest :
  well_formed p -> (length (headers stub p) <= HEADER_BUFFER)%nat -> (4 <= length stub)%nat ->
  pread HEADER_BUFFER 0 = Some (take HEADER_BUFFER (headers stub p ++ rest)) ->
  exists flags, read_pe_image_info pread st = Ret (Some (make_info (optional_of p) (p_machine p) (p_charact p) (default 0 (u32 <$> st))
    (bool_decide (take 4 stub = lit "Wine")) false (has_clr p) flags, p_size p)).
Proof.
  intros (Hc & Ho & Hd) Hle Hstub Hp. unfold read_pe_image_info. rewrite Hp.
  destruct (header_buffer_headers stub p rest Hle) as [[post Hbuf] [Hn1 Hn2]]. set (bs := take _ _) in *. clearbody bs.
  destruct (lengths stub p) as (L1 & L2 & L3 & L4). unfold HEADER_BUFFER in Hle.
  assert (0 <= lfanew stub < 4096) as He by (unfold blen, lfanew in *; lia).
  set (buf := header_buffer bs) in *. set (n := blen bs) in *. clearbody n buf. cbn zeta.
  rewrite decide_False by (unfold lfanew, blen in *; lia).
  assert (slice_is 0 2 "MZ" buf = true) as -> by (apply bool_decide_true; by rewrite Hbuf).
  assert (slice 0x3C 4 buf = le_bytes 4 (lfanew stub)) as ->.
  { rewrite Hbuf. unfold headers, before_opt, dos. rewrite <- !app_assoc. rewrite (app_assoc (lit "MZ")).
    apply slice_between; [by rewrite length_app, length_replicate|by rewrite length_le_bytes]. }
  rewrite from_le_u32 by word_lia. cbn [negb]. rewrite decide_False by lia.
  assert (slice (Z.to_nat (lfanew stub)) 4 buf = lit "PE" ++ [0; 0]) as ->.
  { rewrite Hbuf. unfold headers, before_opt. rewrite <- !app_assoc. rewrite (app_assoc (lit "PE")).
    apply slice_between; [unfold blen in L1; lia|done]. }
  rewrite bool_decide_true by done. cbn [negb]. rewrite decide_False by lia.
  pose proof (fun i n v off => read_ok (dos stub ++ lit "PE" ++ [0; 0]) (coff_fields p) (encode (opt_fields p) ++ encode (dir_fields p) ++ post) i n v off Hc) as Hr.
  assert ((dos stub ++ lit "PE" ++ [0; 0]) ++ encode (coff_fields p) ++ encode (opt_fields p) ++ encode (dir_fields p) ++ post = buf) as E.
  { rewrite Hbuf. unfold headers, before_opt. by rewrite <- !app_assoc. }
  rewrite E in Hr. assert (blen (dos stub ++ lit "PE" ++ [0; 0]) = lfanew stub + 4) as Epre.
  { unfold blen in *. rewrite length_app. change (length (lit "PE" ++ [0; 0])) with 4%nat. lia. }
  rewrite Epre in Hr. rewrite (Hr 0%nat 2%nat _ (lfanew stub + 4) eq_refl) by (cbn; lia). cbn [obind].
  rewrite (Hr 5%nat 2%nat _ (lfanew stub + 4 + 16) eq_refl eq_refl). cbn [obind].
  rewrite (Hr 6%nat 2%nat _ (lfanew stub + 4 + 18) eq_refl eq_refl). cbn [obind]. rewrite decide_False by lia.
  assert (buf = before_opt stub p ++ encode (opt_fields p) ++ encode (dir_fields p) ++ post) as Hb by (rewrite Hbuf; unfold headers; by rewrite <- !app_assoc).
  replace (lfanew stub + 4 + 20) with (blen (before_opt stub p)) by lia.
  assert (read_le 2 buf (blen (before_opt stub p)) = Ret (if p_plus p then 0x20B else 0x10B)) as ->.
  { rewrite Hb. eapply (read_ok _ _ _ 0); [exact Ho|done|]. unfold width. cbn. lia. }
  cbn [obind].
  assert (bool_decide ((if p_plus p then 523 else 267) = 523) = p_plus p) as -> by by destruct (p_plus p).
  assert (read_optional buf (blen (before_opt stub p)) (p_plus p) = Ret (optional_of p)) as -> by (rewrite Hb; by apply read_optional_ok).
  cbn [obind].
  destruct (clr_header_ok pread (before_opt stub p) p post n (lfanew stub + 4) (opt_size p) Ho Hd) as [flags Hcl]; [rewrite <- Hb; lia..|].
  rewrite <- Hb in Hcl. rewrite Hcl. cbn [obind fst snd]. exists flags.
  rewrite bool_decide_true by (unfold lfanew, blen in *; lia). rewrite (bool_decide_true (0x54 < n)) by (unfold lfanew, blen in *; lia). cbn [andb].
  rewrite fakedll_never by (unfold lfanew, blen in *; lia). do 4 f_equal. unfold slice_is. f_equal. apply bool_decide_ext.
  assert (slice 64 (68 - 64) buf = take 4 stub) as ->; [|done].
  rewrite Hb. unfold before_opt, dos. rewrite <- !app_assoc. rewrite <- (take_drop 4 stub) at 2. rewrite <- app_assoc.
  rewrite (app_assoc (lit "MZ")), (app_assoc _ (le_bytes 4 _)). apply slice_between; [by rewrite !length_app, length_replicate, length_le_bytes|].
  rewrite length_take. lia.
Qed.

(** Rounding up with a mask, for an alignment that is a power of two. *)
Lemma land_mask x k : 0 <= x < 2 ^ 32 -> 0 <= k < 32 -> Z.land x (u32 (Z.lnot (u32 (2 ^ k - 1)))) = x - x mod 2 ^ k.
Proof.
  intros Hx Hk. pose proof (Z.pow_pos_nonneg 2 k ltac:(lia) ltac:(lia)) as Hp.
  assert (2 ^ k < 2 ^ 32) by (apply Z.pow_lt_mono_r; lia). rewrite (u32_small (2 ^ k - 1)) by (unfold in_u32; lia).
  replace (2 ^ k - 1) with (Z.ones k) by (rewrite Z.ones_equiv; lia).
  unfold u32, wrap. rewrite <- (Z.land_ones (Z.lnot _)) by lia. rewrite Z.land_assoc, <- Z.ldiff_land.
  rewrite Z.land_ones by lia. rewrite Z.ldiff_ones_r by lia. rewrite Z.shiftl_mul_pow2, Z.shiftr_div_pow2 by lia.
  pose proof (Z.div_mod x (2 ^ k) ltac:(lia)). pose proof (Z.mod_pos_bound x (2 ^ k) ltac:(lia)).
  pose proof (Z.mod_le x (2 ^ k) ltac:(lia) ltac:(lia)). rewrite Z.mod_small; lia.
Qed.

Lemma header_map_spec header k : 0 <= header -> 0 <= k < 32 -> header + 2 ^ k <= 2 ^ 32 ->
  let m := header_map header (2 ^ k) in header <= m < header + 2 ^ k /\ m mod 2 ^ k = 0.
Proof.
  intros Hh Hk Hfit. pose proof (Z.pow_pos_nonneg 2 k ltac:(lia) ltac:(lia)) as Hp. unfold header_map. rewrite decide_True by done.
  assert (u32 (u32 (header + 2 ^ k) - 1) = header + 2 ^ k - 1) as ->.
  { unfold u32, wrap. rewrite Zminus_mod_idemp_l. apply Z.mod_small. lia. }
  rewrite land_mask by lia. cbn zeta. set (x := header + 2 ^ k - 1). pose proof (Z.mod_pos_bound x (2 ^ k) ltac:(lia)).
  split; [unfold x in *; lia|]. rewrite Zminus_mod_idemp_r, Z.sub_diag. apply Z.mod_0_l. lia.
Qed.

(** An image that a linker wrote is understood.  When its headers fit into the
    first page, whatever follows them, the reader finds the image base, sizes,
    entry point, stack, subsystem, machine and characteristics of either format,
    notices a CLR header and the mark of a Wine library, and rounds the headers up
    to the section alignment.  The version of the operating system is read from
    the place of the image's own version. *)
Theorem image_info_roundtrip pread st stub p rest k :
  well_formed p -> (length (headers stub p) <= HEADER_BUFFER)%nat -> (4 <= length stub)%nat ->
  p_align p = 2 ^ k -> 0 <= k < 32 -> p_headers p + p_align p <= 2 ^ 32 ->
  pread HEADER_BUFFER 0 = Some (take HEADER_BUFFER (headers stub p ++ rest)) ->
  exists i, read_pe_image_info pread st = Ret (Some (i, p_size p)) /\
    length (info_bytes i) = 96%nat /\
    [base i; entry_point i; map_size i; alignment i; stack_size i; stack_commit i] =
      [p_base p; p_entry p; p_size p; p_align p; p_stack p; p_commit p] /\
    [subsystem i; subsystem_major i; subsystem_minor i; machine i; image_charact i; dll_charact i; checksum i; header_size i] =
      [p_subsystem p; p_sub_major p; p_sub_minor p; p_machine p; p_charact p; p_dll_charact p; p_checksum p; p_headers p] /\
    (osversion_major i, osversion_minor i) = (p_image_major p, p_image_minor p) /\
    loader_flags i = (if has_clr p then 1 else 0) /\
    Z.testbit (image_flags_byte i) 1 = bool_decide (take 4 stub = lit "Wine") /\
    (p_headers p <= header_map_size i < p_headers p + p_align p /\ header_map_size i mod p_align p = 0).
Proof.
  intros Hw Hle Hs Ha Hk Hfit Hp. destruct (read_pe_image_info_ok pread st stub p rest Hw Hle Hs Hp) as [flags ->].
  eexists. split; [done|]. split; [unfold info_bytes; by rewrite length_encode|]. cbn.
  assert (0 <= p_headers p) as Hh.
  { destruct Hw as (_ & Ho & _). unfold fields_ok in Ho. rewrite Forall_forall in Ho. apply (Ho (4%nat, p_headers p)).
    unfold opt_fields. destruct (p_plus p); [by apply (list_elem_of_lookup_2 _ 18)|by apply (list_elem_of_lookup_2 _ 19)]. }
  split_and!; try done; [by destruct (bool_decide _)|..]; rewrite Ha in *; apply header_map_spec; lia.
Qed.

(** ** Files that no linker wrote *)
Lemma read_optional_ret buf opt plus : opt + 112 <= blen buf -> exists h, read_optional buf opt plus = Ret h.
Proof.
  intros Hle. unfold read_optional.
  repeat match goal with
  | |- context [obind (read_le ?n buf ?o) _] => destruct (read_le_ret n buf o ltac:(lia)) as [? ->]; cbn [obind]
  | |- context [if plus then _ else _] => destruct plus
  end; eauto.
Qed.

(** Whatever the file holds, a panic needs a header within 136 bytes of the end of
    the buffer. *)
Lemma image_info_safe pread st bs : pread HEADER_BUFFER 0 = Some bs -> (length bs <= HEADER_BUFFER)%nat ->
  from_le (slice 0x3C 4 (header_buffer bs)) + 136 <= 4096 -> exists r, read_pe_image_info pread st = Ret r.
Proof.
  intros Hp Hl He. unfold read_pe_image_info. rewrite Hp. set (buf := header_buffer bs) in *.
  assert (blen buf = 4096 /\ blen bs <= 4096) as [Hb Hn].
  { unfold buf, header_buffer, blen, HEADER_BUFFER in *. rewrite length_app, length_replicate. lia. }
  set (n := blen bs) in *. clearbody n buf. set (e := from_le _) in *. clearbody e. clear Hp Hl bs. cbn zeta.
  repeat match goal with
  | |- exists r, Ret ?x = Ret r => eauto
  | |- exists r, (if decide _ then Ret None else _) = Ret r => case_decide; [eauto|]
  | |- exists r, (if negb ?b then Ret None else _) = Ret r => destruct b; cbn [negb]; [|eauto]
  | |- exists r, obind (read_le ?n buf ?o) _ = Ret r => destruct (read_le_ret n buf o ltac:(lia)) as [? ->]; cbn [obind]
  end.
  match goal with |- context [read_optional buf ?o ?b] => destruct (read_optional_ret buf o b ltac:(lia)) as [h ->] end. cbn [obind].
  unfold clr_header. set (plus := bool_decide _). clearbody plus.
  destruct (read_le_ret 4 buf (e + 4 + 20 + (if plus then 108 else 92)) ltac:(destruct plus; lia)) as [d ->]. cbn [obind].
  case_decide as Hd; cbn [obind]; [|eauto]. destruct Hd as [_ Hd].
  destruct (read_le_ret 4 buf (e + 4 + 20 + ((if plus then 112 else 96) + 14 * 8)) ltac:(lia)) as [va ->]. cbn [obind].
  destruct (read_le_ret 4 buf (e + 4 + 20 + ((if plus then 112 else 96) + 14 * 8 + 4)) ltac:(lia)) as [sz ->]. cbn [obind].
  case_decide; cbn [obind]; [|eauto]. destruct (read_le_ret 2 buf (e + 4 + 2) ltac:(lia)) as [c ->]. cbn [obind].
  match goal with |- context [section_offset ?a ?b ?c ?d ?f] => destruct (section_offset_ret a b c d f ltac:(lia)) as [o ->] end. cbn [obind]. eauto.
Qed.

(** *** The copy of the shared sections *)

(** The places are in order, do not overlap and lie inside the copy. *)
Definition plan_ok (acc : list (Z * Z * Z)) (total : Z) : Prop :=
  Forall (fun s => 0 <= s.1.1 /\ 0 <= s.1.2 /\ 0 <= s.2 /\ s.1.1 + s.2 <= total) acc /\
  forall i j a b, acc !! i = Some a -> acc !! j = Some b -> (i < j)%nat -> a.1.1 + a.2 <= b.1.1.

Lemma plan_ok_snoc acc total ptr size step : plan_ok acc total -> 0 <= total -> 0 <= ptr -> 0 <= size <= step ->
  plan_ok (acc ++ [(total, ptr, size)]) (total + step).
Proof.
  intros [H1 H2] Ht Hptr Hs. split.
  - apply Forall_app. split; [|repeat constructor; cbn; lia]. eapply Forall_impl; [exact H1|]. cbn. intros ? (? & ? & ? & ?). lia.
  - intros i j a b Hi Hj Hij. pose proof (lookup_lt_Some _ _ _ Hj) as Hlt. rewrite length_app in Hlt. cbn in Hlt.
    rewrite lookup_app_l in Hi by lia. destruct (decide (j < length acc)%nat).
    + rewrite lookup_app_l in Hj by lia. by apply (H2 i j).
    + rewrite lookup_app_r in Hj by lia. replace (j - length acc)%nat with 0%nat in Hj by lia. injection Hj as <-. cbn.
      rewrite Forall_lookup in H1. destruct (H1 i a Hi) as (? & ? & ? & ?). lia.
Qed.

Lemma read_le_range n buf off v : Forall in_u8 buf -> 0 <= off -> read_le n buf off = Ret v -> 0 <= v < 256 ^ Z.of_nat n.
Proof.
  intros Hb Ho. unfold read_le. case_decide as Hd; [|done]. intros [= <-]. unfold blen in Hd.
  pose proof (from_le_range (slice (Z.to_nat off) n buf)) as Hr. rewrite length_slice in Hr by lia. apply Hr.
  unfold slice. by apply Forall_take, Forall_drop.
Qed.

Lemma land_bounds x y : 0 <= x -> 0 <= Z.land x y <= x.
Proof.
  intros Hx. apply Z.ldiff_le; [done|]. apply Z.bits_inj'. intros i _. rewrite Z.ldiff_spec, Z.land_spec, Z.bits_0.
  destruct (Z.testbit x i); [apply andb_false_r|done].
Qed.

Lemma shared_sections_ok count buf n off mask total acc acc' total' :
  Forall in_u8 buf -> n <= blen buf -> 0 <= off -> 0 <= mask < 2 ^ 32 -> 0 <= total -> total + Z.of_nat count * 2 ^ 33 < 2 ^ 64 ->
  plan_ok acc total -> shared_sections count buf n off mask total acc = Ret (acc', total') -> plan_ok acc' total' /\ 0 <= total' < 2 ^ 64.
Proof.
  intros Hb Hn. revert off total acc; induction count as [|count IH]; intros off total acc Ho Hm Ht Hbig Hok; cbn [shared_sections].
  { intros [= <- <-]. split; [done|]. lia. }
  case_decide as Hd; [intros [= <- <-]; split; [done|lia]|].
  destruct (read_le 4 buf (off + 8)) as [vsize| |] eqn:E1; [|done..]. destruct (read_le 4 buf (off + 16)) as [raw| |] eqn:E2; [|done..].
  destruct (read_le 4 buf (off + 20)) as [ptr| |] eqn:E3; [|done..]. destruct (read_le 4 buf (off + 36)) as [chars| |]; [|done..]. cbn [obind].
  apply read_le_range in E1, E2, E3; [|done||lia..]. change (256 ^ Z.of_nat 4) with (2 ^ 32) in *.
  case_decide as Hs; [|apply IH; (done || lia)].
  set (step := Z.land (u64 (vsize + mask)) (u64 (Z.lnot mask))).
  assert (0 <= step <= vsize + mask) as Hstep.
  { unfold step. rewrite u64_small by word_lia. apply land_bounds. lia. }
  rewrite (u64_small (total + step)) by (unfold in_u64; lia). apply IH; try lia. apply plan_ok_snoc; [done|lia|lia|].
  pose proof (u32_in step) as Hu. assert (u32 step <= step) by (unfold u32, wrap; apply Z.mod_le; lia). unfold in_u32 in Hu. lia.
Qed.

(** Whatever the sections say, the copy is laid out without overlap. *)
Theorem plan_shared_fits pread bs l total : pread HEADER_BUFFER 0 = Some bs -> Forall in_u8 bs -> (length bs <= HEADER_BUFFER)%nat ->
  plan_shared pread = Ret (Some (l, total)) -> plan_ok l total /\ 0 < total < 2 ^ 64.
Proof.
  intros Hp Hb Hl. unfold plan_shared. rewrite Hp. set (buf := header_buffer bs). cbn zeta.
  assert (Forall in_u8 buf) as Hbuf. { apply Forall_app. split; [done|]. apply Forall_replicate. done. }
  assert (blen bs <= blen buf) as Hn. { unfold buf, header_buffer, blen. rewrite length_app. lia. }
  set (e := from_le _). assert (0 <= e) as He.
  { unfold e. apply from_le_range. unfold slice. by apply Forall_take, Forall_drop. }
  clearbody buf e.
  repeat match goal with
  | |- (if decide ?P then Ret None else _) = _ -> _ => destruct (decide P); [done|]
  | |- (if negb ?b then Ret None else _) = _ -> _ => destruct b; cbn [negb]; [|done]
  end.
  destruct (read_le 2 buf (e + 6)) as [count| |] eqn:Ec; [|done..]. destruct (read_le 2 buf (e + 20)) as [osz| |] eqn:Eo; [|done..].
  cbn [obind]. destruct (read_le 2 buf (e + 24)) as [magic| |]; [|done..]. destruct (read_le 4 buf (e + 24 + 32)) as [align| |] eqn:Ea; [|done..].
  cbn [obind]. apply read_le_range in Ec, Eo, Ea; [|done||lia..]. change (256 ^ Z.of_nat 4) with (2 ^ 32) in *. change (256 ^ Z.of_nat 2) with 65536 in *.
  destruct (shared_sections _ _ _ _ _ _ _) as [[acc tot]| |] eqn:Hs; [|done..]. cbn [obind snd]. destruct (decide (tot = 0)) as [|Hz]; [done|]. intros [= -> ->].
  eapply shared_sections_ok in Hs as [Hok Ht]; [|exact Hbuf|exact Hn|lia|case_decide; lia|lia|lia|split; [constructor|done]].
  split; [done|lia].
Qed.

(** *** The plan of an image as a linker writes it *)

(** A section header, with the names of the format. *)
Record SectionHeader : Type := mkSection {
  s_name : Z; s_vsize : Z; s_vaddr : Z; s_raw_size : Z; s_raw_ptr : Z; s_relocs : Z; s_lines : Z; s_counts : Z; s_chars : Z }.
Definition section_fields (x : SectionHeader) : list (nat * Z) :=
  [fld 8 (s_name x); fld 4 (s_vsize x); fld 4 (s_vaddr x); fld 4 (s_raw_size x); fld 4 (s_raw_ptr x); fld 4 (s_relocs x);
   fld 4 (s_lines x); fld 4 (s_counts x); fld 4 (s_chars x)].
Definition section_table (hs : list SectionHeader) : list Z := hs ≫= fun x => encode (section_fields x).

(** Shared and writable: bits 28 and 31 of the characteristics. *)
Definition shared_writable (x : SectionHeader) : Prop := Z.testbit (s_chars x) 28 = true /\ Z.testbit (s_chars x) 31 = true.
#[export] Instance shared_writable_dec x : Decision (shared_writable x).
Proof. unfold shared_writable. apply _. Defined.

(** The size in memory, a multiple of the alignment [2 ^ k]. *)
Definition round_up (k v : Z) : Z := (v + 2 ^ k - 1) / 2 ^ k * 2 ^ k.
Definition mapped_size (k : Z) (x : SectionHeader) : Z := round_up k (s_vsize x).
Definition copied_size (k : Z) (hs : list SectionHeader) : Z := foldr Z.add 0 (map (mapped_size k) (filter shared_writable hs)).

(** The shared writable sections one after the other, each with its place. *)
Fixpoint placed (k off : Z) (hs : list SectionHeader) : list (Z * SectionHeader) :=
  match hs with
  | [] => []
  | x :: hs => if decide (shared_writable x) then (off, x) :: placed k (off + mapped_size k x) hs else placed k off hs
  end.
Definition copy_of (k : Z) (px : Z * SectionHeader) : Z * Z * Z := (px.1, s_raw_ptr px.2, Z.min (s_raw_size px.2) (mapped_size k px.2)).

Definition section_ok (k : Z) (x : SectionHeader) : Prop := fields_ok (section_fields x) /\ s_vsize x + 2 ^ k <= 2 ^ 32.

Lemma testbit_land x i : 0 <= i -> Z.land x (2 ^ i) <> 0 <-> Z.testbit x i = true.
Proof.
  intros Hi. assert (Z.land x (2 ^ i) = if Z.testbit x i then 2 ^ i else 0) as ->.
  { apply Z.bits_inj'. intros n Hn. rewrite Z.land_spec, Z.pow2_bits_eqb by done. destruct (Z.eqb_spec i n) as [<-|Hne].
    - rewrite andb_true_r. destruct (Z.testbit x i); [by rewrite Z.pow2_bits_true|by rewrite Z.bits_0].
    - rewrite andb_false_r. destruct (Z.testbit x i); [by rewrite Z.pow2_bits_false|by rewrite Z.bits_0]. }
  pose proof (Z.pow_pos_nonneg 2 i). destruct (Z.testbit x i); split; (done || lia).
Qed.

Lemma round_up_bounds k v : 0 <= k -> 0 <= v -> 0 <= round_up k v < v + 2 ^ k /\ v <= round_up k v.
Proof.
  intros Hk Hv. pose proof (Z.pow_pos_nonneg 2 k ltac:(lia) Hk) as Hp. unfold round_up.
  pose proof (Z.div_mod (v + 2 ^ k - 1) (2 ^ k) ltac:(lia)). pose proof (Z.mod_pos_bound (v + 2 ^ k - 1) (2 ^ k) ltac:(lia)). nia.
Qed.

(** The size as the code computes it, with the mask. *)
Lemma round_up_mask k v : 0 <= k < 32 -> 0 <= v -> v + 2 ^ k <= 2 ^ 32 ->
  Z.land (u64 (v + (2 ^ k - 1))) (u64 (Z.lnot (2 ^ k - 1))) = round_up k v.
Proof.
  intros Hk Hv Hfit. pose proof (Z.pow_pos_nonneg 2 k ltac:(lia) ltac:(lia)) as Hp.
  rewrite (u64_small (v + _)) by word_lia. replace (2 ^ k - 1) with (Z.ones k) by (rewrite Z.ones_equiv; lia).
  unfold u64, wrap. rewrite <- (Z.land_ones (Z.lnot _)) by lia. rewrite (Z.land_comm (Z.lnot _)), Z.land_assoc, <- Z.ldiff_land.
  rewrite Z.land_ones by lia. rewrite Z.ones_equiv. rewrite (Z.mod_small (v + _)) by lia. rewrite <- Z.ones_equiv, Z.ldiff_ones_r by lia.
  rewrite Z.shiftl_mul_pow2, Z.shiftr_div_pow2 by lia. unfold round_up. do 2 f_equal. rewrite Z.ones_equiv. lia.
Qed.

Lemma section_table_length hs : blen (section_table hs) = 40 * Z.of_nat (length hs).
Proof. unfold blen, section_table. induction hs as [|x hs IH]; [done|]. cbn [mbind list_bind length]. rewrite length_app, length_encode. change (width (section_fields x)) with 40%nat. lia. Qed.

Lemma copied_size_cons k x hs : copied_size k (x :: hs) = (if decide (shared_writable x) then mapped_size k x else 0) + copied_size k hs.
Proof. unfold copied_size. rewrite filter_cons. case_decide; [done|]. lia. Qed.

(** Sizes are below [2 ^ 32] each. *)
Lemma copied_size_bounds k hs : 0 <= k < 32 -> Forall (section_ok k) hs -> 0 <= copied_size k hs <= 2 ^ 32 * Z.of_nat (length hs).
Proof.
  intros Hk. induction 1 as [|x hs [Hx Hfit] _ IH]; [done|]. rewrite copied_size_cons. cbn [length].
  assert (0 <= s_vsize x) as Hv by exact (proj1 (proj1 (Forall_lookup _ _) Hx 1%nat _ eq_refl)).
  pose proof (round_up_bounds k (s_vsize x) ltac:(lia) Hv). unfold mapped_size. case_decide; lia.
Qed.

Lemma shared_sections_exact k pre hs post n total acc : 0 <= k < 32 -> Forall (section_ok k) hs -> blen pre + blen (section_table hs) <= n ->
  0 <= total -> total + copied_size k hs < 2 ^ 64 ->
  shared_sections (length hs) (pre ++ section_table hs ++ post) n (blen pre) (2 ^ k - 1) total acc =
    Ret (acc ++ map (copy_of k) (placed k total hs), total + copied_size k hs).
Proof.
  intros Hk Hok. revert pre total acc; induction Hok as [|x hs [Hx Hfit] Hok IH]; intros pre total acc Hn Ht Hbig.
  { cbn. rewrite app_nil_r. do 2 f_equal. unfold copied_size. cbn. lia. }
  rewrite section_table_length in Hn. cbn [length] in Hn. cbn [length shared_sections]. rewrite decide_False by lia.
  change (section_table (x :: hs)) with (encode (section_fields x) ++ section_table hs). rewrite <- app_assoc.
  pose proof (fun i n v off => read_ok pre (section_fields x) (section_table hs ++ post) i n v off Hx) as Hr.
  rewrite (Hr 1%nat 4%nat _ (blen pre + 8) eq_refl), (Hr 3%nat 4%nat _ (blen pre + 16) eq_refl), (Hr 4%nat 4%nat _ (blen pre + 20) eq_refl),
    (Hr 8%nat 4%nat _ (blen pre + 36) eq_refl) by done. cbn [obind].
  assert (0 <= s_vsize x) as Hv by exact (proj1 (proj1 (Forall_lookup _ _) Hx 1%nat _ eq_refl)).
  pose proof (copied_size_bounds k hs Hk Hok) as Hc. rewrite copied_size_cons in *. cbn [placed].
  assert (Z.land (s_chars x) IMAGE_SCN_MEM_SHARED <> 0 /\ Z.land (s_chars x) IMAGE_SCN_MEM_WRITE <> 0 <-> shared_writable x) as Hiff.
  { unfold shared_writable. rewrite <- !testbit_land by lia. done. }
  assert (pre ++ encode (section_fields x) ++ section_table hs ++ post = (pre ++ encode (section_fields x)) ++ section_table hs ++ post) as -> by by rewrite app_assoc.
  assert (blen (pre ++ encode (section_fields x)) = blen pre + 40) as Hpre by (unfold blen; rewrite length_app, length_encode; change (width (section_fields x)) with 40%nat; lia).
  pose proof (round_up_bounds k (s_vsize x) ltac:(lia) Hv) as Hru. rewrite <- Hpre. revert Hbig. destruct (decide (shared_writable x)) as [Hs|Hs]; intros Hbig.
  - rewrite decide_True by (by apply Hiff). rewrite round_up_mask by lia. fold (mapped_size k x) in *.
    rewrite (u64_small (total + _)) by (unfold in_u64, mapped_size in *; lia). rewrite IH; [|rewrite section_table_length, Hpre; lia|lia|lia].
    rewrite <- app_assoc. cbn [map app]. unfold copy_of at 2. cbn [fst snd]. rewrite (u32_small (mapped_size k x)) by word_lia.
    do 2 f_equal. lia.
  - rewrite decide_False by (by rewrite Hiff). rewrite IH; [done|rewrite section_table_length, Hpre; lia|lia|lia].
Qed.

(** The whole first pass on an image whose headers and section table fit into the
    first page. *)
Lemma plan_shared_exact pread stub p hs rest k :
  well_formed p -> Forall (section_ok k) hs -> p_sections p = Z.of_nat (length hs) -> p_align p = 2 ^ k -> 0 <= k < 32 ->
  (length (headers stub p ++ section_table hs) <= HEADER_BUFFER)%nat -> 0 < copied_size k hs ->
  pread HEADER_BUFFER 0 = Some (take HEADER_BUFFER (headers stub p ++ section_table hs ++ rest)) ->
  plan_shared pread = Ret (Some (map (copy_of k) (placed k 0 hs), copied_size k hs)).
Proof.
  intros (Hc & Ho & Hd) Hok Hcount Halign Hk Hle Hpos Hp. unfold plan_shared. rewrite Hp, app_assoc. set (front := headers stub p ++ section_table hs) in *.
  assert (exists post, header_buffer (take HEADER_BUFFER (front ++ rest)) = front ++ post) as [post Hbuf].
  { unfold header_buffer. rewrite take_app_ge by done. rewrite <- app_assoc. eauto. }
  assert (blen front <= blen (take HEADER_BUFFER (front ++ rest))) as Hn by (unfold blen; rewrite length_take, length_app; lia).
  set (bs := take HEADER_BUFFER (front ++ rest)) in *. clearbody bs. destruct (lengths stub p) as (L1 & L2 & L3 & L4).
  assert (blen front = blen (headers stub p) + blen (section_table hs)) as Lf by (unfold front, blen; rewrite length_app; lia).
  pose proof (section_table_length hs) as Lt. unfold HEADER_BUFFER in Hle. assert (0 <= lfanew stub < 4096) as He by (unfold blen, lfanew in *; lia).
  set (buf := header_buffer bs) in *. set (n := blen bs) in *. clearbody n buf. cbn zeta.
  rewrite decide_False by (unfold lfanew, blen in *; lia).
  assert (slice_is 0 2 "MZ" buf = true) as -> by (apply bool_decide_true; by rewrite Hbuf).
  assert (slice 0x3C 4 buf = le_bytes 4 (lfanew stub)) as ->.
  { rewrite Hbuf. unfold front, headers, before_opt, dos. rewrite <- !app_assoc. rewrite (app_assoc (lit "MZ")).
    apply slice_between; [by rewrite length_app, length_replicate|by rewrite length_le_bytes]. }
  rewrite from_le_u32 by word_lia. cbn [negb]. rewrite decide_False by lia.
  assert (slice (Z.to_nat (lfanew stub)) 4 buf = lit "PE" ++ [0; 0]) as ->.
  { rewrite Hbuf. unfold front, headers, before_opt. rewrite <- !app_assoc. rewrite (app_assoc (lit "PE")).
    apply slice_between; [unfold blen in L1; lia|done]. }
  rewrite bool_decide_true by done. cbn [negb].
  set (tail := section_table hs ++ post).
  pose proof (fun i n v off => read_ok (dos stub ++ lit "PE" ++ [0; 0]) (coff_fields p) (encode (opt_fields p) ++ encode (dir_fields p) ++ tail) i n v off Hc) as Hr.
  assert ((dos stub ++ lit "PE" ++ [0; 0]) ++ encode (coff_fields p) ++ encode (opt_fields p) ++ encode (dir_fields p) ++ tail = buf) as E.
  { rewrite Hbuf. unfold tail, front, headers, before_opt. by rewrite <- !app_assoc. }
  rewrite E in Hr. assert (blen (dos stub ++ lit "PE" ++ [0; 0]) = lfanew stub + 4) as Epre.
  { unfold blen in *. rewrite length_app. change (length (lit "PE" ++ [0; 0])) with 4%nat. lia. }
  rewrite Epre in Hr. rewrite (Hr 1%nat 2%nat _ (lfanew stub + 6) eq_refl) by (cbn; lia). cbn [obind].
  rewrite (Hr 5%nat 2%nat _ (lfanew stub + 20) eq_refl) by (cbn; lia). cbn [obind].
  assert (buf = before_opt stub p ++ encode (opt_fields p) ++ encode (dir_fields p) ++ tail) as Hb by (rewrite Hbuf; unfold tail, front, headers; by rewrite <- !app_assoc).
  replace (lfanew stub + 24) with (blen (before_opt stub p)) by lia.
  assert (read_le 2 buf (blen (before_opt stub p)) = Ret (if p_plus p then 0x20B else 0x10B)) as ->.
  { rewrite Hb. eapply (read_ok _ _ _ 0); [exact Ho|done|]. unfold width. cbn. lia. }
  cbn [obind].
  assert (read_le 4 buf (blen (before_opt stub p) + 32) = Ret (p_align p)) as ->.
  { rewrite Hb. eapply (read_ok _ _ _ (if p_plus p then 8 else 9)); [exact Ho|..]; unfold opt_fields, wide; by destruct (p_plus p). }
  cbn [obind]. pose proof (Z.pow_pos_nonneg 2 k ltac:(lia) ltac:(lia)). rewrite Halign, (decide_True (P := 0 < 2 ^ k)) by done.
  replace (blen (before_opt stub p) + opt_size p) with (blen (headers stub p)) by lia. rewrite Hcount, Nat2Z.id.
  assert (buf = headers stub p ++ section_table hs ++ post) as -> by (rewrite Hbuf; unfold front; by rewrite <- app_assoc).
  pose proof (copied_size_bounds k hs Hk Hok). assert (Z.of_nat (length hs) <= 4096) by (unfold blen in *; lia).
  rewrite shared_sections_exact; [|done|done|lia|lia|lia].
  cbn [obind app snd]. rewrite Z.add_0_l, decide_False by lia. done.
Qed.

(** What the plan says of a placed section. *)
Lemma placed_in k off hs a x : 0 <= k -> Forall (section_ok k) hs -> (a, x) ∈ placed k off hs -> x ∈ hs /\ shared_writable x.
Proof.
  intros Hk Hok. revert off; induction Hok as [|y hs _ _ IH]; intros off; cbn [placed]; [by intros ?%elem_of_nil|].
  case_decide; [|intros [? ?]%IH; split; [by right|done]]. intros [[= -> ->]|[? ?]%IH]%elem_of_cons; (split; [|done]); [by left|by right].
Qed.

End Image.

Module ImageDemo.
Import Image.

(** A 64-bit image with sixteen empty directories. *)
Definition demo_pe : PeHeader :=
  mkPe true 0x8664 3 0x22 0x1400 0x140000000 0x1000 6 1 2 7 6 0 0x8000 0x400 0x1234 3 0x8160 0x100000 0x1000 (replicate 16 (0, 0)).
Definition demo_stub : list Z := Registry.lit "Wine builtin DLL" ++ replicate 16 0.
Definition reader (file : list Z) (n : nat) (off : Z) : option (list Z) := Some (slice (Z.to_nat off) n file).

Lemma image_info_roundtrip_witness :
  exists i, read_pe_image_info (reader (headers demo_stub demo_pe ++ [1; 2; 3])) (Some 0x5000) = Ret (Some (i, 0x8000)) /\
    [base i; entry_point i; map_size i] = [0x140000000; 0x1400; 0x8000] /\ (osversion_major i, osversion_minor i) = (2, 7).
Proof.
  destruct (image_info_roundtrip (reader (headers demo_stub demo_pe ++ [1; 2; 3])) (Some 0x5000) demo_stub demo_pe [1; 2; 3] 12)
    as (i & Hi & _ & Hb & _ & Hv & _).
  - unfold well_formed, fields_ok. vm_compute. repeat (split || constructor); congruence.
  - unfold HEADER_BUFFER. vm_compute. lia.
  - vm_compute. lia.
  - reflexivity.
  - lia.
  - vm_compute. congruence.
  - reflexivity.
  - exists i. split; [exact Hi|]. split; [|exact Hv]. injection Hb as -> -> -> _ _ _. reflexivity.
Defined.

(** A file of one page whose header is at its end: the checks only ask for the
    twenty bytes before the optional header, and the reader runs off the buffer. *)
Definition late_file : list Z :=
  Registry.lit "MZ" ++ replicate 58 0 ++ le_bytes 4 4072 ++ replicate 4008 0 ++ Registry.lit "PE" ++ replicate 22 0.
Theorem late_header_panics :
  length late_file = 4096%nat /\ read_pe_image_info (reader late_file) None = Panic /\ plan_shared (reader late_file) = Panic.
Proof. vm_compute. done. Qed.

(** A placeholder library is not recognised. *)
Theorem placeholder_not_recognised :
  exists i, read_pe_image_info (reader (headers (Registry.lit "Wine placeholder DLL" ++ replicate 12 0) demo_pe)) None = Ret (Some (i, 0x8000)) /\
    Z.testbit (image_flags_byte i) 2 = false.
Proof. vm_compute. eexists. split; reflexivity. Qed.

End ImageDemo.
