(* ===== verification/Mappings.v ===== *)
(** * Sections and mapped images ([src/rust/src/triskelion/event_loop/file_io.rs],
      [create_usd_memfd] of [event_loop/mod.rs])

    Creating and opening named sections, what the loader asks about a mapping, and
    where images are mapped.  The headers of images are read in [Image]; files are
    the interface [Files].  A section keeps a descriptor of its own in [mappings];
    its name, lower case and without its directory, leads to it. *)

From stdpp Require Import base list gmap strings.
From coqutil Require Import Datatypes.RecordSettersUsingExistingGetters.
From S2P Require Import Prelude Objects Dispatch Text Registry RegFile Atoms Loop Completion Handles Session Sync Pe Image.
Local Open Scope Z_scope.
Local Open Scope outcome_scope.

Module Mappings.
Import Replies Text Ntsync Ipc HandleTable ServerState Loop Completion.
Local Notation lit := Registry.lit.

(** ** Generated structs *)
Inductive mapping_reply : Type :=
| OpenMappingReply (h : ReplyHeader) (handle : Z)
| CreateMappingReply (h : ReplyHeader) (handle : Z)
| GetMappingInfoReply (h : ReplyHeader) (size flags shared_file name_len ver_len total : Z)
| MapImageViewReply (h : ReplyHeader)
| GetImageMapAddressReply (h : ReplyHeader) (addr : Z)
| MapViewReply (h : ReplyHeader)
| UnmapViewReply (h : ReplyHeader)
| GetMappingCommittedRangeReply (h : ReplyHeader) (size committed : Z).

Record CreateMappingRequest : Type := mkCreateMapping { cm_access : Z; cm_flags : Z; cm_file_access : Z; cm_size : Z; cm_file_handle : Z }.

Class Protocol : Type := {
  layout : mapping_reply -> list Z;
  open_mapping_request : list Z -> option unit;
  create_mapping_request : list Z -> option CreateMappingRequest;
  get_mapping_info_request : list Z -> option Z;
  map_image_view_request : list Z -> option (Z * Z);
  get_image_map_address_request : list Z -> option Z;
  map_view_request : list Z -> option unit;
  unmap_view_request : list Z -> option unit;
  get_mapping_committed_range_request : list Z -> option Z;
}.

(** Regular files: [inode] is the file a descriptor refers to, [data] its bytes.  A
    read may fail or give fewer bytes than asked for; a write may fail or write only
    the first of its bytes. *)
Class FileLaws (K : Type) `{Files K} : Type := {
  inode : Z -> K -> option Z;
  data : Z -> K -> list Z;
  pread_data : forall f i n o k bs, inode f k = Some i -> 0 <= o -> pread f n o k = Some bs ->
    bs `prefix_of` slice (Z.to_nat o) n (data i k);
  pwrite_inode : forall f bs o k g, inode g (pwrite f bs o k).1 = inode g k;
  pwrite_data : forall f i bs o k, inode f k = Some i -> 0 <= o -> o + blen bs <= blen (data i k) ->
    data i (pwrite f bs o k).1 = write (Z.to_nat o) (take (Z.to_nat (pwrite f bs o k).2) bs) (data i k);
  pwrite_other : forall f i j bs o k, inode f k = Some i -> i <> j -> data j (pwrite f bs o k).1 = data j k;
  memfd_inode : forall k k' f, memfd_create k = (k', f) -> 0 <= f ->
    exists i, inode f k' = Some i /\ (forall g h, inode g k = Some h -> inode g k' = Some h /\ h <> i /\ data h k' = data h k);
  ftruncate_inode : forall f n k g, inode g (ftruncate f n k).1 = inode g k;
  ftruncate_data : forall f i n k, inode f k = Some i -> 0 <= n -> (ftruncate f n k).2 = true -> blen (data i (ftruncate f n k).1) = n;
  ftruncate_other : forall f i j n k, inode f k = Some i -> i <> j -> data j (ftruncate f n k).1 = data j k;
}.

Definition SEC_IMAGE : Z := 0x1000000.
Definition SEC_COMMIT : Z := 0x800000.
Definition has_flag (x m : Z) : bool := bool_decide (Z.land x m <> 0).

Section handlers.
Context {K : Type} `{Ntsync K, Files K, Protocol, Lowercase}.
Implicit Types (ev : EventLoop K) (buf : list Z).

Definition fixed (r : mapping_reply) : Reply := reply_fixed (layout r).
Definition on_files (f : UserState -> UserState) ev : EventLoop K := ev <| user_state ::= f |>.

(** A handle of the client for an object with a descriptor; 0 without a process. *)
Definition section_handle (client_fd oid unix_fd access : Z) ev : EventLoop K * Z :=
  match nonzero_pid ev client_fd with
  | Some pid => let '(ev, h) := allocate_in pid (with_fd oid unix_fd FD_TYPE_FILE access 0) ev in (ev, default 0 h)
  | None => (ev, 0)
  end.

(** ** Names of open files *)
Definition SLASH : Z := 47.
Definition BACKSLASH : Z := 92.

(** The path behind a descriptor as an NT path in UTF-16. *)
Definition fd_to_nt_name (f : Z) ev : option (list Z) :=
  path ← read_link f (kernel ev);
  s ← Pe.from_utf8 path;
  let nt_path := if decide (head s = Some SLASH)
                 then lit "\??\Z:" ++ map (fun c => if decide (c = SLASH) then BACKSLASH else c) s else s in
  let utf16 := utf16le nt_path in
  if decide (utf16 = []) then None else Some utf16.

(** ** Shared writable sections *)

(** Copies [remaining] bytes in pieces until the file ends. *)
Fixpoint copy_section (fuel : nat) (src dst : Z) (remaining : nat) (read_pos write_pos : Z) (k : K) : outcome K :=
  match fuel with
  | O => OutOfFuel
  | S fuel =>
      if decide (remaining = 0%nat) then Ret k
      else
        match pread src (Nat.min remaining 65536) read_pos k with
        | Some (b :: bs) =>
            let n := length (b :: bs) in
            copy_section fuel src dst (remaining - n) (read_pos + Z.of_nat n) (write_pos + Z.of_nat n) (pwrite dst (b :: bs) write_pos k).1
        | _ => Ret k
        end
  end.

Fixpoint copy_sections (src dst : Z) (l : list (Z * Z * Z)) (k : K) : outcome K :=
  match l with
  | [] => Ret k
  | (write_offset, raw_ptr, file_size) :: l =>
      if decide (raw_ptr = 0 \/ file_size = 0) then copy_sections src dst l k
      else
        k <-! copy_section (S (Z.to_nat file_size)) src dst (Z.to_nat file_size) raw_ptr write_offset k ;;
        copy_sections src dst l k
  end.

Definition create_shared_section_fd (pe_fd : Z) ev : outcome (EventLoop K * option Z) :=
  plan <-! Image.plan_shared (fun n o => pread pe_fd n o (kernel ev)) ;;
  match plan with
  | None => Ret (ev, None)
  | Some (sections, total_size) =>
      let '(ev, memfd) := on_kernel memfd_create ev in
      if decide (memfd < 0) then Ret (ev, None)
      else
        let '(ev, _) := on_kernel (ftruncate memfd total_size) ev in
        k <-! copy_sections pe_fd memfd sections (kernel ev) ;;
        Ret (ev <| kernel := k |>, Some memfd)
  end.

(** ** Data shared with all processes *)

(** The page, after the descriptor is made, sized and mapped. *)
Definition usd_page : gmap Z Z :=
  let stores := [Memory.write32 0x004 0x0FA00000; Memory.write_bytes 0x02C (le_bytes 2 0x014C); Memory.write_bytes 0x02E (le_bytes 2 0x8664);
                 Memory.write32 0x260 (Z.lor 0xF000 19044); Memory.write32 0x264 1; Memory.write_bytes 0x268 [1]; Memory.write32 0x26C 10;
                 Memory.write32 0x270 0; Memory.write32 0x2E8 (1024 * 1024); Memory.write_bytes 0x33A (le_bytes 2 9)] in
  fold_left (fun m f => f m) stores ∅.

Definition create_usd_memfd ev : EventLoop K * option Z :=
  let '(ev, f) := on_kernel memfd_create ev in
  if decide (f < 0) then (ev, None)
  else
    let '(ev, sized) := on_kernel (ftruncate f 0x1000) ev in
    if negb sized then (ev <| kernel ::= close_fd f |>, None)
    else
      let '(ev, mapped) := on_kernel (mmap_shared f) ev in
      if negb mapped then (ev <| kernel ::= close_fd f |>, None)
      else (ev, Some f).

(** ** Opening a section *)
Definition USD_NAME : str := lit "__wine_user_shared_data".

Definition reopen (client_fd : Z) (named : Z * Z) ev : EventLoop K * Reply :=
  let '(ev, f) := on_kernel (dup_fd named.2) ev in
  let '(ev, handle) := section_handle client_fd named.1 f 0x000F001F ev in
  (ev, fixed (OpenMappingReply (hdr 0) handle)).

Definition open_usd (mono : Z * Z) (client_fd usd_fd : Z) ev : EventLoop K * Reply :=
  let ev := Session.update_usd_time mono (ev <| usd := usd_page |> <| usd_mapped := true |>) in
  let '(ev, oid) := alloc_object_id ev in
  let '(ev, f) := on_kernel (dup_fd usd_fd) ev in
  let ev := on_files (fun u => u <| named_objects ::= <[USD_NAME := (oid, usd_fd)]> |>
                                 <| mappings ::= <[oid := mkMappingInfo usd_fd 0x1000 SEC_COMMIT None None None]> |>) ev in
  let '(ev, handle) := section_handle client_fd oid f 0x000F001F ev in
  (ev, fixed (OpenMappingReply (hdr 0) handle)).

Definition handle_open_mapping (mono : Z * Z) (client_fd : Z) buf ev : EventLoop K * Reply :=
  match open_mapping_request buf with
  | None => (ev, status_reply 0xC000000D)
  | Some _ =>
      let name_lower := to_lowercase (utf16le_to_string (Atoms.vararg_of buf)) in
      let short_name := Sync.basename name_lower in
      let names := named_objects (user_state ev) in
      match names !! short_name with
      | Some named => reopen client_fd named ev
      | None =>
          match names !! name_lower with
          | Some named => reopen client_fd named ev
          | None =>
              let '(ev, usd_fd) := if RegFile.contains USD_NAME short_name then create_usd_memfd ev else (ev, None) in
              match usd_fd with
              | Some f => open_usd mono client_fd f ev
              | None => (ev, status_reply 0xC0000034)
              end
          end
      end
  end.

(** ** Creating a section *)

(** [char::from_u32], unit by unit; a surrogate becomes a zero. *)
Definition unit_char (u : Z) : Z := if decide (is_scalar u) then u else 0.

Definition section_name (vararg : list Z) : option str :=
  if decide (length vararg < 16)%nat then None
  else
    let sd_len := from_le (slice 8 4 vararg) in
    let name_len := from_le (slice 12 4 vararg) in
    let name_off := 16 + sd_len in
    if decide (0 < name_len /\ name_off + name_len <= blen vararg) then
      Some (Sync.basename (to_lowercase (map unit_char (vararg_to_u16 (slice (Z.to_nat name_off) (Z.to_nat name_len) vararg)))))
    else None.

(** The backing of a section: a duplicate of the file's descriptor when the handle
    has one, else memory of the size. *)
Definition backing (client_fd : Z) (req : CreateMappingRequest) ev : EventLoop K * Z :=
  let file := if decide (cm_file_handle req <> 0)
              then nonzero_pid ev client_fd ≫= fun pid => handle_entry ev pid (cm_file_handle req) ≫= HandleTable.fd else None in
  match file with
  | Some f => on_kernel (dup_fd f) ev
  | None =>
      let '(ev, f) := on_kernel memfd_create ev in
      (if decide (0 <= f /\ 0 < cm_size req) then (on_kernel (ftruncate f (i64 (cm_size req))) ev).1 else ev, f)
  end.

Definition size_of_file (f size : Z) ev : Z :=
  if decide (size = 0) then match fstat f (kernel ev) with Some st => u64 (st_size st) | None => size end else size.

(** The size of the section, and what the loader wants to know of an image. *)
Definition section_info (f : Z) (req : CreateMappingRequest) ev : outcome (Z * option (list Z)) :=
  if has_flag (cm_flags req) SEC_IMAGE then
    r <-! Image.read_pe_image_info (fun n o => pread f n o (kernel ev)) (st_size <$> fstat f (kernel ev)) ;;
    Ret match r with
        | Some (info, image_size) => (image_size, Some (Image.info_bytes info))
        | None => (size_of_file f (cm_size req) ev, None)
        end
  else Ret (size_of_file f (cm_size req) ev, None).

Definition name_section (oid f : Z) (name : option str) ev : EventLoop K :=
  match name with
  | Some short =>
      let '(ev, d) := on_kernel (dup_fd f) ev in
      if decide (0 <= d) then on_files (fun u => u <| named_objects ::= <[short := (oid, d)]> |>) ev else ev
  | None => ev
  end.

Definition handle_create_mapping (client_fd : Z) buf ev : outcome (EventLoop K * Reply) :=
  match create_mapping_request buf with
  | None => Ret (ev, status_reply 0xC000000D)
  | Some req =>
      let '(ev, oid) := alloc_object_id ev in
      let '(ev, mapping_fd) := backing client_fd req ev in
      if decide (mapping_fd < 0) then Ret (ev, status_reply 0xC0000017)
      else
        info <-! section_info mapping_fd req ev ;;
        let image := has_flag (cm_flags req) SEC_IMAGE in
        let nt_name := if image then fd_to_nt_name mapping_fd ev else None in
        shared <-! (if image then create_shared_section_fd mapping_fd ev else Ret (ev, None)) ;;
        let ev := shared.1 in
        let ev := on_files (fun u => u <| mappings ::= <[oid := mkMappingInfo mapping_fd info.1 (cm_flags req) info.2 nt_name shared.2]> |>) ev in
        let ev := name_section oid mapping_fd (section_name (Atoms.vararg_of buf)) ev in
        let '(ev, handle_fd) := on_kernel (dup_fd mapping_fd) ev in
        let access := if decide (cm_file_access req <> 0) then cm_file_access req else cm_access req in
        let '(ev, handle) := section_handle client_fd oid handle_fd access ev in
        Ret (if decide (handle = 0) then (ev <| kernel ::= close_fd handle_fd |>, status_reply 0xC0000008)
             else (ev, fixed (CreateMappingReply (hdr 0) handle)))
  end.

(** ** What is mapped *)

(** [&name_preview[name_preview.len()-80..]] in a log message: a panic when the cut
    is inside a character. *)
Definition preview_ok (name : option (list Z)) : bool :=
  match name with
  | Some bytes =>
      let s := utf16le_to_string bytes in
      if decide (80 < Registry.str_len s) then Registry.is_char_boundary s (Registry.str_len s - 80) else true
  | None => true
  end.

(** A handle for the shared copy, when there is one. *)
Definition shared_handle (client_fd : Z) (shared : option Z) ev : EventLoop K * Z :=
  match shared with
  | None => (ev, 0)
  | Some sfd =>
      let '(ev, d) := on_kernel (dup_min sfd 256) ev in
      if decide (0 <= d) then
        let '(ev, h) := section_handle client_fd 0 d 0x12019F ev in
        (if decide (h = 0) then ev <| kernel ::= close_fd d |> else ev, h)
      else (ev, 0)
  end.

(** The image information, then as much of the name as fits. *)
Definition mapping_reply_of (buf : list Z) (m : MappingInfo) (shared_file : Z) : Reply :=
  match pe_image_info m with
  | Some pe_info =>
      let name := default [] (nt_name m) in
      let total := blen pe_info + blen name in
      let available := Z.min total (max_reply_vararg buf) in
      let pe_len := Z.min (blen pe_info) available in
      let name_len := if decide (pe_len < available) then Z.min (blen name) (available - pe_len) else 0 in
      let vararg := take (Z.to_nat pe_len) pe_info ++ take (Z.to_nat name_len) name in
      reply_vararg (layout (GetMappingInfoReply (mkReplyHeader 0 (u32 (blen vararg))) (map_size m) (map_flags m) shared_file (u32 name_len) 0 (u32 total))) vararg
  | None => fixed (GetMappingInfoReply (hdr 0) (map_size m) (map_flags m) shared_file 0 0 0)
  end.

Definition handle_get_mapping_info (client_fd : Z) buf ev : outcome (EventLoop K * Reply) :=
  match get_mapping_info_request buf with
  | None => Ret (ev, status_reply 0xC000000D)
  | Some handle =>
      let entry := nonzero_pid ev client_fd ≫= fun pid => handle_entry ev pid handle in
      match entry ≫= fun e => mappings (user_state ev) !! object_id e with
      | Some m =>
          if preview_ok (nt_name m) then
            let '(ev, shared_file) := shared_handle client_fd (shared_fd m) ev in
            Ret (ev, mapping_reply_of buf m shared_file)
          else Panic
      | None =>
          Ret (ev, match entry ≫= HandleTable.fd with
                   | Some f =>
                       let size := match fstat f (kernel ev) with Some st => u64 (st_size st) | None => 0x1000 end in
                       fixed (GetMappingInfoReply (hdr 0) size SEC_COMMIT 0 0 0 0)
                   | None => status_reply 0xC0000008
                   end)
      end
  end.

(** The object behind a handle of the client, 0 when there is none. *)
Definition object_behind (client_fd handle : Z) ev : Z * Z :=
  let pid := default 0 (nonzero_pid ev client_fd) in (pid, default 0 (object_id <$> handle_entry ev pid handle)).

(** The first image of a process that is mapped describes its executable. *)
Definition remember_exe (pid oid : Z) ev : EventLoop K :=
  ev <| state ::= fun st => st <| processes ::= alter (fun p =>
          match exe_image_info p with
          | Some _ => p
          | None => match mappings (user_state ev) !! oid ≫= pe_image_info with
                    | Some info => p <| exe_image_info := Some info |>
                    | None => p
                    end
          end) pid |> |>.

Definition handle_map_image_view (client_fd : Z) buf ev : EventLoop K * Reply :=
  match map_image_view_request buf with
  | None => (ev, status_reply 0xC000000D)
  | Some (mapping, base) =>
      let '(pid, oid) := object_behind client_fd mapping ev in
      (if decide (oid <> 0) then remember_exe pid oid (ev <| image_views ::= <[(pid, oid) := base]> |>) else ev,
       fixed (MapImageViewReply (hdr 0)))
  end.

Definition handle_get_image_map_address (client_fd : Z) buf ev : EventLoop K * Reply :=
  match get_image_map_address_request buf with
  | None => (ev, status_reply 0xC000000D)
  | Some handle =>
      (ev, fixed (GetImageMapAddressReply (hdr 0) (default 0 (image_views ev !! object_behind client_fd handle ev))))
  end.

Definition handle_map_view (client_fd : Z) buf ev : EventLoop K * Reply :=
  (ev, match map_view_request buf with None => status_reply 0xC000000D | Some _ => fixed (MapViewReply (hdr 0)) end).
Definition handle_unmap_view (client_fd : Z) buf ev : EventLoop K * Reply :=
  (ev, match unmap_view_request buf with None => status_reply 0xC000000D | Some _ => fixed (UnmapViewReply (hdr 0)) end).

(** Everything from the offset on is committed. *)
Definition handle_get_mapping_committed_range (client_fd : Z) buf ev : EventLoop K * Reply :=
  (ev, match get_mapping_committed_range_request buf with
       | None => status_reply 0xC000000D
       | Some offset => fixed (GetMappingCommittedRangeReply (hdr 0) (Z.max 0 (0x7FFFFFFFFFFF - offset)) 1)
       end).
Definition handle_add_mapping_committed_range (client_fd : Z) buf ev : EventLoop K * Reply := (ev, status_reply 0).
Definition handle_is_same_mapping (client_fd : Z) buf ev : EventLoop K * Reply := (ev, status_reply 0).

(** ** Names of sections *)

(** The object attributes as a client packs them. *)
Definition objattr (rootdir attributes : Z) (sd name : list Z) : list Z :=
  le_bytes 4 rootdir ++ le_bytes 4 attributes ++ le_bytes 4 (blen sd) ++ le_bytes 4 (blen name) ++ sd ++ name.

Definition bmp (c : Z) : Prop := is_scalar c /\ c < 0x10000.

Lemma encode_bmp s : Forall bmp s -> encode_utf16 s = s.
Proof.
  unfold encode_utf16. induction 1 as [|c s [_ Hc] _ IH]; [done|]. cbn. rewrite IH. unfold encode_char. by rewrite decide_True.
Qed.

Lemma section_name_objattr rootdir attributes sd s : Forall bmp s -> s <> [] -> blen sd < 2 ^ 32 -> blen (utf16le s) < 2 ^ 32 ->
  section_name (objattr rootdir attributes sd (utf16le s)) = Some (Sync.basename (to_lowercase s)).
Proof.
  intros Hs Hne Hsd Hlen. unfold section_name, objattr.
  assert (forall a b c d : list Z, length a = 4%nat -> length b = 4%nat -> length c = 4%nat -> length d = 4%nat -> forall r,
    slice 8 4 (a ++ b ++ c ++ d ++ r) = c /\ slice 12 4 (a ++ b ++ c ++ d ++ r) = d) as Hsl.
  { intros a b c d Ha Hb Hc Hd r. split.
    - rewrite (app_assoc a). apply Image.slice_between; [rewrite length_app; lia|lia].
    - rewrite (app_assoc a), (app_assoc (a ++ b)). apply Image.slice_between; [rewrite !length_app; lia|lia]. }
  destruct (Hsl (le_bytes 4 rootdir) (le_bytes 4 attributes) (le_bytes 4 (blen sd)) (le_bytes 4 (blen (utf16le s)))
    ltac:(by rewrite length_le_bytes) ltac:(by rewrite length_le_bytes) ltac:(by rewrite length_le_bytes) ltac:(by rewrite length_le_bytes)
    (sd ++ utf16le s)) as [-> ->]. clear Hsl.
  rewrite !length_app, !length_le_bytes. rewrite decide_False by lia.
  assert (in_u32 (blen sd) /\ in_u32 (blen (utf16le s))) as [H1' H2'] by (unfold in_u32, blen in *; lia).
  rewrite !from_le_u32 by done.
  assert (0 < blen (utf16le s)) as Hpos.
  { unfold utf16le. rewrite encode_bmp by done. destruct s as [|c s]; [done|]. unfold blen. cbn. lia. }
  rewrite decide_True by (split; [done|]; unfold blen in *; rewrite !length_app, !length_le_bytes; lia). do 3 f_equal.
  assert (forall a b c d : list Z, a ++ b ++ c ++ d ++ sd ++ utf16le s = (a ++ b ++ c ++ d ++ sd) ++ utf16le s ++ []) as ->.
  { intros. by rewrite <- !app_assoc, app_nil_r. }
  rewrite Image.slice_between.
  - unfold utf16le. rewrite vararg_to_u16_bytes by (apply encode_utf16_u16; eapply Forall_impl; [exact Hs|]; by intros ? []).
    rewrite encode_bmp by done. clear -Hs. induction Hs as [|c s [Hc _] _ IH]; [done|]. cbn. rewrite IH. unfold unit_char. by rewrite decide_True.
  - rewrite !length_app, !length_le_bytes. unfold blen. lia.
  - unfold blen. lia.
Qed.

(** ** A section shared by name *)
Lemma section_handle_spec c oid f access ev pid p :
  nonzero_pid ev c = Some pid -> processes (state ev) !! pid = Some p -> HandleTable.wf (handles p) -> has_room p ->
  exists t h, section_handle c oid f access ev = (with_handles pid t ev, h) /\ h <> 0 /\
    HandleTable.get t h = Some (with_fd oid f FD_TYPE_FILE access 0).
Proof.
  intros Hc Hp Hwf Hr. unfold section_handle. rewrite Hc.
  destruct (allocate_in_spec pid (with_fd oid f FD_TYPE_FILE access 0) ev p Hp Hwf Hr) as (t & h & -> & Hh & _ & _ & _ & Hg).
  exists t, h. split_and!; [done..|]. by rewrite Hg, decide_True.
Qed.

(** What a step on the kernel alone keeps. *)
Definition kernel_only ev ev' : Prop := exists k, ev' = ev <| kernel := k |>.
Lemma kernel_only_on {A} (f : K -> K * A) ev : kernel_only ev (on_kernel f ev).1.
Proof. unfold on_kernel. destruct (f (kernel ev)) as [k a]. by exists k. Qed.
Lemma kernel_only_trans ev1 ev2 ev3 : kernel_only ev1 ev2 -> kernel_only ev2 ev3 -> kernel_only ev1 ev3.
Proof. intros [k ->] [k' ->]. exists k'. by destruct ev1. Qed.
Lemma kernel_only_refl ev : kernel_only ev ev.
Proof. exists (kernel ev). by destruct ev. Qed.

Lemma backing_kernel c req ev : kernel_only ev (backing c req ev).1.
Proof.
  unfold backing. set (file := if decide _ then _ else None). destruct file as [f|]; [apply kernel_only_on|].
  pose proof (kernel_only_on memfd_create ev) as Hk. destruct (on_kernel memfd_create ev) as [ev1 f]. cbn [fst] in *.
  case_decide; [|done]. eapply kernel_only_trans; [exact Hk|]. apply kernel_only_on.
Qed.

(** The loop after a section that is no image has been created. *)
Lemma create_mapping_data c buf ev pid p req name :
  nonzero_pid ev c = Some pid -> processes (state ev) !! pid = Some p -> HandleTable.wf (handles p) -> has_room p ->
  create_mapping_request buf = Some req -> has_flag (cm_flags req) SEC_IMAGE = false ->
  section_name (Atoms.vararg_of buf) = Some name ->
  let '(ev0, oid) := alloc_object_id ev in
  let '(ev1, f) := backing c req ev0 in
  0 <= f -> 0 <= (dup_fd f (kernel ev1)).2 ->
  exists ev' h t d, handle_create_mapping c buf ev = Ret (ev', fixed (CreateMappingReply (hdr 0) h)) /\ h <> 0 /\
    clients ev' = clients ev /\ processes (state ev') = alter (fun p => p <| handles := t |>) pid (processes (state ev)) /\
    object_id <$> HandleTable.get t h = Some oid /\
    named_objects (user_state ev') !! name = Some (oid, d) /\
    mappings (user_state ev') !! oid = Some (mkMappingInfo f (size_of_file f (cm_size req) ev1) (cm_flags req) None None None).
Proof.
  intros Hc Hp Hwf Hr Hreq Hfl Hname. destruct (alloc_object_id ev) as [ev0 oid] eqn:Ha.
  pose proof (backing_kernel c req ev0) as [k Hk]. destruct (backing c req ev0) as [ev1 f] eqn:Hb. cbn [fst] in Hk. intros Hf Hd.
  unfold handle_create_mapping. rewrite Hreq, Ha, Hb. rewrite decide_False by lia.
  unfold section_info. rewrite Hfl. cbn [obind fst snd]. rewrite Hname. unfold name_section, on_kernel.
  set (sz := size_of_file _ _ _). set (ev2 := on_files _ ev1). change (kernel ev2) with (kernel ev1).
  destruct (dup_fd f (kernel ev1)) as [k1 d]. cbn [snd] in Hd. rewrite decide_True by done.
  set (ev3 := on_files _ (ev2 <| kernel := k1 |>)). destruct (dup_fd f (kernel ev3)) as [k2 d2].
  set (ev4 := ev3 <| kernel := k2 |>). set (acc := if decide (cm_file_access req <> 0) then _ else _).
  assert (clients ev4 = clients ev /\ processes (state ev4) = processes (state ev)) as [Hcl Hps].
  { unfold ev4, ev3, ev2, on_files. rewrite Hk. injection Ha as <- _. done. }
  destruct (section_handle_spec c oid d2 acc ev4 pid p) as (t & h & -> & Hh & Hg); [unfold nonzero_pid in *; by rewrite Hcl|by rewrite Hps|done..|].
  rewrite decide_False by done. exists (with_handles pid t ev4), h, t, d. split_and!; [done|done|done| | | |].
  - change (processes (state (with_handles pid t ev4))) with (alter (fun p => p <| handles := t |>) pid (processes (state ev4))). by rewrite Hps.
  - by rewrite Hg.
  - unfold with_handles, ev4, ev3, on_files. recs. by rewrite lookup_insert_eq.
  - unfold with_handles, ev4, ev3, ev2, on_files. recs. by rewrite lookup_insert_eq.
Qed.

(** A section is shared by its name.  After one process has created a named
    section, another that opens it, under any directory and in any case, gets a
    handle for the same object, and is told the size and the flags of the
    section. *)
Theorem named_section_shared mono cA cB bufc bufo bufq ev pA pB procA procB req rootdir attributes sd s s' :
  nonzero_pid ev cA = Some pA -> processes (state ev) !! pA = Some procA -> HandleTable.wf (handles procA) -> has_room procA ->
  nonzero_pid ev cB = Some pB -> processes (state ev) !! pB = Some procB -> HandleTable.wf (handles procB) -> has_room procB ->
  pA <> pB -> create_mapping_request bufc = Some req -> has_flag (cm_flags req) SEC_IMAGE = false -> open_mapping_request bufo = Some tt ->
  Atoms.vararg_of bufc = objattr rootdir attributes sd (utf16le s) -> Forall bmp s -> s <> [] -> blen sd < 2 ^ 32 -> blen (utf16le s) < 2 ^ 32 ->
  Atoms.vararg_of bufo = utf16le s' -> Forall is_scalar s' -> Sync.basename (to_lowercase s') = Sync.basename (to_lowercase s) ->
  let '(ev0, oid) := alloc_object_id ev in
  let '(evb, f) := backing cA req ev0 in
  0 <= f -> 0 <= (dup_fd f (kernel evb)).2 ->
  exists ev1 hA ev2 hB, handle_create_mapping cA bufc ev = Ret (ev1, fixed (CreateMappingReply (hdr 0) hA)) /\ hA <> 0 /\
    handle_open_mapping mono cB bufo ev1 = (ev2, fixed (OpenMappingReply (hdr 0) hB)) /\ hB <> 0 /\
    object_id <$> handle_entry ev2 pA hA = Some oid /\ object_id <$> handle_entry ev2 pB hB = Some oid /\
    (get_mapping_info_request bufq = Some hB ->
     handle_get_mapping_info cB bufq ev2 =
       Ret (ev2, fixed (GetMappingInfoReply (hdr 0) (size_of_file f (cm_size req) evb) (cm_flags req) 0 0 0 0))).
Proof.
  intros HcA HpA HwA HrA HcB HpB HwB HrB Hne Hreq Hfl Ho Hvc Hs Hsn Hsd Hsl Hvo Hs' Hsame.
  pose proof (create_mapping_data cA bufc ev pA procA req (Sync.basename (to_lowercase s)) HcA HpA HwA HrA Hreq Hfl) as Hcm.
  destruct (alloc_object_id ev) as [ev0 oid]. destruct (backing cA req ev0) as [evb f]. intros Hf Hd.
  destruct Hcm as (ev1 & hA & t & d & -> & HhA & Hcl & Hps & Hg & Hno & Hmp); [rewrite Hvc; by apply section_name_objattr|done|done|].
  assert (nonzero_pid ev1 cB = Some pB) as HcB1 by (unfold nonzero_pid in *; by rewrite Hcl).
  exists ev1, hA. unfold handle_open_mapping. rewrite Ho, Hvo, utf16le_roundtrip by done. cbn zeta. rewrite Hsame, Hno. unfold reopen, on_kernel. cbn [fst snd].
  destruct (dup_fd d (kernel ev1)) as [k2 d2]. set (evk := ev1 <| kernel := k2 |>).
  assert (processes (state evk) !! pB = Some procB) as HpB1 by (unfold evk; recs; rewrite Hps; by rewrite lookup_alter_ne).
  destruct (section_handle_spec cB oid d2 0x000F001F evk pB procB) as (tB & hB & -> & HhB & HgB); [done..|].
  exists (with_handles pB tB evk), hB. split_and!; [done|done|done|done| | |].
  - rewrite handle_entry_with_handles by by rewrite HpB1. rewrite decide_False by done. unfold handle_entry, evk. recs.
    rewrite Hps, lookup_alter_eq, HpA. cbn. done.
  - rewrite handle_entry_with_handles, decide_True by (by rewrite HpB1 || done). by rewrite HgB.
  - intros Hq. unfold handle_get_mapping_info. rewrite Hq.
    change (nonzero_pid (with_handles pB tB evk) cB) with (nonzero_pid ev1 cB). rewrite HcB1. cbn [mbind option_bind].
    rewrite handle_entry_with_handles, decide_True, HgB by (by rewrite HpB1 || done). cbn [mbind option_bind with_fd object_id].
    change (user_state (with_handles pB tB evk)) with (user_state ev1). rewrite Hmp. done.
Qed.

(** ** The copy of the shared sections *)
Lemma copy_section_total src dst n rp wp k : exists k', copy_section (S n) src dst n rp wp k = Ret k'.
Proof.
  assert (forall fuel n rp wp k, (n < fuel)%nat -> exists k', copy_section fuel src dst n rp wp k = Ret k') as Hf; [|by apply Hf; lia].
  clear. induction fuel as [|fuel IH]; intros n rp wp k Hlt; [lia|]. cbn [copy_section]. case_decide; [eauto|].
  destruct (pread _ _ _ _) as [[|b bs]|]; [eauto| |eauto]. apply IH. cbn. lia.
Qed.

Lemma write_app {A} o (d e buf : list A) : (o + length d + length e <= length buf)%nat ->
  write (o + length d) e (write o d buf) = write o (d ++ e) buf.
Proof.
  intros Hle. apply list_eq. intros i. rewrite !write_lookup by (rewrite ?length_write, ?length_app; lia). rewrite length_app.
  repeat case_decide; try lia; try done.
  - rewrite lookup_app_r by lia. f_equal. lia.
  - by rewrite lookup_app_l by lia.
Qed.

Lemma slice_split {A} o r (bs : list A) (l : list A) : (length bs <= r)%nat -> bs `prefix_of` slice o r l ->
  slice o r l = bs ++ slice (o + length bs) (r - length bs) l.
Proof.
  intros Hc [d Hd]. rewrite Hd at 1. f_equal. unfold slice in *. rewrite <- drop_drop. set (x := drop o l) in *.
  rewrite <- skipn_firstn_comm, Hd. by rewrite drop_app_length.
Qed.

Section Copy.
Context `{!FileLaws K} (src dst : Z) (i j : Z).
Hypothesis Hij : i <> j.

(** The two descriptors refer to two files. *)
Definition opened (k : K) : Prop := inode src k = Some i /\ inode dst k = Some j.

(** Reading before the end of the source gives at least a byte, and no write to the
    destination fails or is cut short. *)
Definition reads_on : Prop := forall n o k, inode src k = Some i -> n <> 0%nat -> 0 <= o < blen (data i k) -> exists b bs, pread src n o k = Some (b :: bs).
Definition writes_through : Prop := forall bs o k, inode dst k = Some j -> 0 <= o -> o + blen bs <= blen (data j k) -> (pwrite dst bs o k).2 = blen bs.
Hypothesis (Hreads : reads_on) (Hwrites : writes_through).

Lemma copy_section_data fuel n rp wp k : opened k -> (n < fuel)%nat -> 0 <= rp -> 0 <= wp -> wp + Z.of_nat n <= blen (data j k) ->
  exists k', copy_section fuel src dst n rp wp k = Ret k' /\ opened k' /\ data i k' = data i k /\
    data j k' = write (Z.to_nat wp) (slice (Z.to_nat rp) n (data i k)) (data j k).
Proof.
  revert n rp wp k; induction fuel as [|fuel IH]; intros n rp wp k Ho Hlt Hr Hw Hfit; [lia|]. cbn [copy_section]. pose proof Ho as [Hi Hj].
  case_decide as Hz; [subst n; by exists k|].
  set (c := Nat.min n 65536). assert (c <> 0%nat /\ (c <= n)%nat) as [Hc Hcn].
  { unfold c. split; [|apply Nat.le_min_l]. destruct (Nat.min_dec n 65536) as [->| ->]; [done|discriminate]. }
  destruct (decide (blen (data i k) <= rp)) as [Hend|Hend].
  - assert (slice (Z.to_nat rp) n (data i k) = []) as He by (unfold slice; rewrite drop_ge, take_nil by (unfold blen in *; lia); done).
    exists k. rewrite He. split; [|done]. destruct (pread src c rp k) as [[|b bs]|] eqn:Hp; [done| |done].
    apply (pread_data _ _ _ _ _ _ Hi Hr) in Hp. unfold slice in Hp. rewrite drop_ge, take_nil in Hp by (unfold blen in *; lia).
    by apply prefix_nil_inv in Hp.
  - destruct (Hreads c rp k Hi Hc ltac:(lia)) as (b & bs & Hp). rewrite Hp. set (d := b :: bs) in *. set (k1 := (pwrite dst d wp k).1).
    apply (pread_data _ _ _ _ _ _ Hi Hr) in Hp. pose proof (prefix_length _ _ Hp) as Hlc.
    assert (length d <= c)%nat as Hdc by (unfold slice in Hlc; rewrite length_take in Hlc; lia).
    assert (d `prefix_of` slice (Z.to_nat rp) n (data i k)) as Hpn.
    { etrans; [exact Hp|]. unfold slice. exists (drop c (take n (drop (Z.to_nat rp) (data i k)))).
      rewrite <- (Nat.min_l c n) at 1 by done. rewrite <- take_take. by rewrite take_drop. }
    pose proof (slice_split (Z.to_nat rp) n d (data i k) ltac:(lia) Hpn) as Hsp.
    assert (wp + blen d <= blen (data j k)) as Hfd by (unfold blen in *; lia).
    assert (opened k1) as Ho1 by (unfold opened, k1; by rewrite !pwrite_inode).
    assert (data i k1 = data i k) as Hik by (by apply (pwrite_other _ j)).
    assert (data j k1 = write (Z.to_nat wp) d (data j k)) as Hjk.
    { unfold k1. rewrite (pwrite_data _ j) by done. rewrite Hwrites by done. unfold blen. by rewrite Nat2Z.id, take_ge by lia. }
    destruct (IH (n - length d)%nat (rp + Z.of_nat (length d)) (wp + Z.of_nat (length d)) k1) as (k' & -> & Ho' & E1 & E2); try lia; try done.
    { cbn. lia. }
    { rewrite Hjk. unfold blen. rewrite length_write. unfold blen in *. lia. }
    exists k'. split_and!; [done|done|congruence|]. rewrite E2, Hik, Hjk. rewrite !Z2Nat.inj_add, !Nat2Z.id by lia.
    rewrite write_app; [by rewrite <- Hsp|]. unfold slice. rewrite length_take. unfold blen in *. lia.
Qed.

(** A range that no section of the list touches. *)
Definition apart (a n : Z) (l : list (Z * Z * Z)) : Prop := forall s, s ∈ l -> a + n <= s.1.1 \/ s.1.1 + s.2 <= a.

Lemma copy_sections_data l total k : opened k -> Image.plan_ok l total -> blen (data j k) = total ->
  exists k', copy_sections src dst l k = Ret k' /\ opened k' /\ data i k' = data i k /\ blen (data j k') = total /\
    (forall s, s ∈ l -> s.1.2 <> 0 -> let d := slice (Z.to_nat s.1.2) (Z.to_nat s.2) (data i k) in
       slice (Z.to_nat s.1.1) (length d) (data j k') = d) /\
    (forall a n, 0 <= a -> 0 <= n -> apart a n l -> slice (Z.to_nat a) (Z.to_nat n) (data j k') = slice (Z.to_nat a) (Z.to_nat n) (data j k)).
Proof.
  revert k; induction l as [|[[wo ptr] sz] l IH]; intros k Ho [Hall Hord] Hlen; cbn [copy_sections].
  { exists k. split_and!; try done. by intros s Hs%elem_of_nil. }
  apply Forall_cons in Hall as [(Hwo & Hptr & Hsz & Hin) Hall]. cbn [fst snd] in *.
  assert (Image.plan_ok l total) as Hl. { split; [done|]. intros x y a b Ha Hb Hxy. apply (Hord (S x) (S y)); [done|done|lia]. }
  assert (apart wo sz l) as Hap.
  { intros s (x & Hx)%list_elem_of_lookup. left. apply (Hord 0%nat (S x) (wo, ptr, sz) s); [done|done|lia]. }
  assert (exists k1, opened k1 /\ data i k1 = data i k /\ blen (data j k1) = total /\
    (ptr <> 0 -> slice (Z.to_nat wo) (length (slice (Z.to_nat ptr) (Z.to_nat sz) (data i k))) (data j k1) = slice (Z.to_nat ptr) (Z.to_nat sz) (data i k)) /\
    (forall a n, 0 <= a -> 0 <= n -> a + n <= wo \/ wo + sz <= a -> slice (Z.to_nat a) (Z.to_nat n) (data j k1) = slice (Z.to_nat a) (Z.to_nat n) (data j k)) /\
    (if decide (ptr = 0 \/ sz = 0) then copy_sections src dst l k
     else k <-! copy_section (S (Z.to_nat sz)) src dst (Z.to_nat sz) ptr wo k ;; copy_sections src dst l k) = copy_sections src dst l k1)
    as (k1 & Ho1 & Hi1 & Hl1 & Hd1 & Hk1 & ->).
  { case_decide as Hz.
    - exists k. split_and!; try done. intros Hp. destruct Hz as [Hz| ->]; [done|]. done.
    - destruct (copy_section_data (S (Z.to_nat sz)) (Z.to_nat sz) ptr wo k Ho) as (k1 & -> & Ho1 & Hi1 & Hj1); [lia..|]. cbn [obind].
      set (d := slice (Z.to_nat ptr) (Z.to_nat sz) (data i k)) in *.
      assert (length d <= Z.to_nat sz)%nat as Hd by (unfold d, slice; rewrite length_take; lia).
      assert (Z.to_nat wo + length d <= length (data j k))%nat as Hfit by (unfold blen in *; lia).
      exists k1. split_and!; [done|done|by rewrite Hj1; unfold blen in *; rewrite length_write| | |done].
      + intros _. rewrite Hj1. by apply slice_write_same.
      + intros a n Ha Hn Hdis. rewrite Hj1. apply slice_write_disjoint; [done|]. lia. }
  destruct (IH k1 Ho1 Hl Hl1) as (k' & -> & Ho' & Hi' & Hl' & Hs' & Hk'). exists k'. split_and!; [done|done|congruence|done| |].
  - intros s [->|Hs]%elem_of_cons Hp; cbn [fst snd] in *.
    + set (d := slice (Z.to_nat ptr) (Z.to_nat sz) (data i k)) in *. cbn zeta.
      assert (length d <= Z.to_nat sz)%nat as Hd by (unfold d, slice; rewrite length_take; lia).
      rewrite <- (Nat2Z.id (length d)). rewrite Hk'; [rewrite Nat2Z.id; by apply Hd1|done|lia|].
      intros s Hs. destruct (Hap s Hs); lia.
    + cbn zeta. rewrite <- Hi1. by apply Hs'.
  - intros a n Ha Hn Hap'. rewrite Hk'; [apply Hk1; [done|done|]|done|done|].
    + destruct (Hap' (wo, ptr, sz)) as [?|?]; [by left|by left|by right].
    + intros s Hs. apply Hap'. by right.
Qed.

End Copy.

(** C29: the shared sections of an image are copied exactly.  The image is as a
    linker writes it: headers with an alignment that is a power of two, a section
    table of as many entries as they announce, sizes below 4 GiB, headers and table
    within the first 4096 bytes (entries beyond are ignored by the code), and it has
    a shared writable section that is not empty.  The first read gets all it asks
    for, later reads may be short but fail only at the end, and no write to the new
    file fails or is cut short: the code does not look at what [pwrite] returns, see
    [failed_writes_unnoticed].  Then the daemon makes one file whose size is the sum
    of the sizes of the sections with both flags, each rounded up to the alignment;
    each of them stands in it behind the ones before it, with the bytes that the
    image has at its raw pointer, as many as its raw size and its size in memory
    allow; and the image itself is unchanged. *)
Theorem shared_sections_copied `{!FileLaws K} pe_fd ev i stub p hs rest al :
  let file := data i (kernel ev) in let total := Image.copied_size al hs in
  inode pe_fd (kernel ev) = Some i -> Forall in_u8 file -> file = Image.headers stub p ++ Image.section_table hs ++ rest ->
  Image.well_formed p -> Forall (Image.section_ok al) hs -> Image.p_sections p = Z.of_nat (length hs) -> Image.p_align p = 2 ^ al -> 0 <= al < 32 ->
  (length (Image.headers stub p ++ Image.section_table hs) <= Image.HEADER_BUFFER)%nat -> 0 < total ->
  pread pe_fd Image.HEADER_BUFFER 0 (kernel ev) = Some (take Image.HEADER_BUFFER file) -> reads_on pe_fd i ->
  let '(k1, m) := memfd_create (kernel ev) in
  0 <= m -> (ftruncate m total k1).2 = true -> (forall j, writes_through m j) ->
  exists ev' j, create_shared_section_fd pe_fd ev = Ret (ev', Some m) /\ kernel_only ev ev' /\
    inode m (kernel ev') = Some j /\ j <> i /\ blen (data j (kernel ev')) = total /\ data i (kernel ev') = file /\
    forall off x, (off, x) ∈ Image.placed al 0 hs -> Image.s_raw_ptr x <> 0 ->
      let d := slice (Z.to_nat (Image.s_raw_ptr x)) (Z.to_nat (Z.min (Image.s_raw_size x) (Image.mapped_size al x))) file in
      slice (Z.to_nat off) (length d) (data j (kernel ev')) = d.
Proof.
  cbn zeta. intros Hi Hb Hfile Hwf Hok Hcount Hal Hk Hle Hpos Hread Hrd. set (total := Image.copied_size al hs) in *.
  set (l := map (Image.copy_of al) (Image.placed al 0 hs)).
  assert (Image.plan_shared (fun n o => pread pe_fd n o (kernel ev)) = Ret (Some (l, total))) as Hplan.
  { rewrite Hfile in Hread. by apply (Image.plan_shared_exact _ stub p hs rest al). }
  destruct (memfd_create (kernel ev)) as [k1 m] eqn:Hm. intros Hm0 Ht Hwt.
  assert (Image.plan_ok l total /\ 0 < total < 2 ^ 64) as [Hplok Htot].
  { eapply (Image.plan_shared_fits (fun n o => pread pe_fd n o (kernel ev))); [exact Hread| | |exact Hplan].
    - by apply Forall_take.
    - rewrite length_take. lia. }
  destruct (memfd_inode _ _ _ Hm Hm0) as (j & Hj & Hold). destruct (Hold pe_fd i Hi) as (Hi1 & Hne & Hd1).
  unfold create_shared_section_fd. rewrite Hplan. cbn [obind]. unfold on_kernel at 1. rewrite Hm. rewrite decide_False by lia.
  unfold on_kernel. change (kernel (ev <| kernel := k1 |>)) with k1. destruct (ftruncate m total k1) as [k2 b] eqn:Hf. cbn [snd] in Ht. subst b.
  set (ev2 := _ <| kernel := k2 |>). change (kernel ev2) with k2.
  assert (k2 = (ftruncate m total k1).1) as Hk2 by by rewrite Hf.
  destruct (copy_sections_data pe_fd m i j ltac:(done) Hrd (Hwt j) l total k2) as (k' & -> & [Ho1 Ho2] & Hdi & Hlen & Hs & _).
  - unfold opened. by rewrite Hk2, !ftruncate_inode.
  - done.
  - rewrite Hk2. apply ftruncate_data; [done|lia|by rewrite Hf].
  - cbn [obind]. assert (data i k2 = data i (kernel ev)) as Hd2 by (rewrite Hk2, (ftruncate_other _ j) by done; done).
    exists (ev2 <| kernel := k' |>), j. split_and!; [done| |done|done|done|recs; congruence|].
    + exists k'. by destruct ev.
    + intros off x Hin Hp. rewrite <- Hd2. apply (Hs (Image.copy_of al (off, x))); [|done]. by apply list_elem_of_fmap_2.
Qed.

(** Whatever [pread] and [pwrite] report, the copy is made and announced. *)
Lemma copy_sections_total src dst l (k : K) : exists k', copy_sections src dst l k = Ret k'.
Proof.
  revert k; induction l as [|[[wo ptr] sz] l IH]; intros k; cbn [copy_sections]; [eauto|]. case_decide; [apply IH|].
  destruct (copy_section_total src dst (Z.to_nat sz) ptr wo k) as [k' ->]. apply IH.
Qed.

(** No result of a read or write of the copy is looked at: on every kernel, with
    every write failing as with none, the copy of an image is handed out. *)
Theorem failed_writes_unnoticed pe_fd ev l total :
  Image.plan_shared (fun n o => pread pe_fd n o (kernel ev)) = Ret (Some (l, total)) -> 0 <= (memfd_create (kernel ev)).2 ->
  exists ev', create_shared_section_fd pe_fd ev = Ret (ev', Some (memfd_create (kernel ev)).2).
Proof.
  intros Hp Hm. unfold create_shared_section_fd. rewrite Hp. cbn [obind]. unfold on_kernel. destruct (memfd_create (kernel ev)) as [k1 m]. cbn [snd] in *.
  rewrite decide_False by lia. destruct (ftruncate m total _) as [k2 b]. match goal with |- context [copy_sections _ _ _ ?k] => destruct (copy_sections_total pe_fd m l k) as [k' ->] end.
  cbn [obind]. eauto.
Qed.

End handlers.
End Mappings.

(** ** Files of the concrete kernel *)
Section ModelLaws.
Import Ntsync ModelKernel Mappings.

Definition model_inode (f : Z) (k : MK) : option Z := files k !! f ≫= fun o => (fun _ => o) <$> contents k !! o.
Definition model_data (o : Z) (k : MK) : list Z := default [] (contents k !! o).

Lemma model_inode_Some f o k : model_inode f k = Some o <-> files k !! f = Some o /\ contents k !! o = Some (model_data o k).
Proof.
  unfold model_inode, model_data. destruct (files k !! f) as [o'|]; cbn; [|naive_solver].
  destruct (contents k !! o') as [c|] eqn:Hc; cbn; [|naive_solver congruence]. split; [by intros [= <-]; rewrite Hc|by intros [[= <-] _]].
Qed.

Lemma content_inode f k : content f k = (fun o => model_data o k) <$> model_inode f k.
Proof.
  unfold content, model_inode, model_data. destruct (files k !! f) as [o|]; cbn; [|done]. destruct (contents k !! o) as [c|] eqn:Hc; cbn; [|done].
  by rewrite Hc.
Qed.

Lemma put_content_inode f c k g : is_Some (content f k) -> model_inode g (put_content f c k) = model_inode g k.
Proof.
  unfold content, put_content, model_inode. intros [c' Hc]. destruct (files k !! f) as [o|]; [|done]. cbn in *.
  destruct (files k !! g) as [o'|]; [|done]. cbn. destruct (decide (o = o')) as [<-|Hne]; [|by rewrite lookup_insert_ne].
  by rewrite lookup_insert_eq, Hc.
Qed.

Lemma put_content_data f o c k : model_inode f k = Some o -> model_data o (put_content f c k) = c /\
  forall j, o <> j -> model_data j (put_content f c k) = model_data j k.
Proof.
  intros [Hf _]%model_inode_Some. unfold put_content, model_data. rewrite Hf. cbn. rewrite lookup_insert_eq. split; [done|].
  intros j Hj. by rewrite lookup_insert_ne.
Qed.

Lemma splice_write o bs c : (o + length bs <= length c)%nat -> splice o bs c = write o bs c.
Proof.
  intros Hle. unfold splice. replace (o - length c)%nat with 0%nat by lia. rewrite app_nil_r.
  apply list_eq. intros i. rewrite write_lookup by done. case_decide as Hd.
  - rewrite lookup_app_r, length_take by (rewrite length_take; lia). rewrite lookup_app_l by lia. f_equal. lia.
  - destruct (decide (i < o)%nat) as [Hi|Hi].
    + rewrite lookup_app_l by (rewrite length_take; lia). by rewrite lookup_take_lt by lia.
    + rewrite lookup_app_r, length_take by (rewrite length_take; lia). rewrite lookup_app_r by lia. rewrite lookup_drop. f_equal. lia.
Qed.

#[export] Instance model_file_laws : FileLaws MK.
Proof.
  refine {| inode := model_inode; data := model_data |}.
  - intros f i n o k bs Hi Ho. cbn. rewrite content_inode, Hi. cbn. by intros [= <-].
  - intros f bs o k g. cbn. destruct (content f k) eqn:Hc; [|done]. apply put_content_inode. by rewrite Hc.
  - intros f i bs o k Hi Ho Hle. cbn. rewrite content_inode, Hi. cbn. destruct (put_content_data f i (splice (Z.to_nat o) bs (model_data i k)) k Hi) as [-> _].
    rewrite Nat2Z.id, take_ge by done. apply splice_write. unfold blen in *. lia.
  - intros f i j bs o k Hi Hj. cbn. rewrite content_inode, Hi. cbn. exact (proj2 (put_content_data f i _ k Hi) j Hj).
  - intros k k' f [= <- <-] _. destruct (slot_fresh k) as [Hf _]. set (o := above (contents k) (slot k)). exists o. split.
    + unfold model_inode. cbn. rewrite lookup_insert_eq. cbn. by rewrite lookup_insert_eq.
    + intros g h [Hg Hh]%model_inode_Some. assert (h <> o) as Hne.
      { intros ->. pose proof (proj2 (above_spec (contents k) (slot k)) o ltac:(by rewrite Hh)). unfold o in *. lia. }
      assert (slot k <> g) as Hsg by congruence.
      unfold model_inode, model_data. cbn. rewrite lookup_insert_ne by done. rewrite Hg. cbn. rewrite !lookup_insert_ne by done. by rewrite Hh.
  - intros f n k g. cbn. destruct (content f k) eqn:Hc; [|done]. apply put_content_inode. by rewrite Hc.
  - intros f i n k Hi Hn. cbn. rewrite content_inode, Hi. cbn. intros _.
    rewrite (proj1 (put_content_data f i _ k Hi)). unfold blen. rewrite length_take, length_app, length_replicate. lia.
  - intros f i j n k Hi Hj. cbn. rewrite content_inode, Hi. cbn. exact (proj2 (put_content_data f i _ k Hi) j Hj).
Defined.

End ModelLaws.

(** ** Concrete sections *)
Module MappingsDemo.
Import Text Replies Ntsync ModelKernel HandleTable ServerState Loop LoopDemo CompletionDemo HandlesDemo Sync SyncDemo Mappings.
Local Notation lit := Registry.lit.

#[export] Instance demo_protocol : Mappings.Protocol := {
  layout := fun r => match r with GetMappingInfoReply _ size _ _ _ _ _ => [size] | _ => [] end;
  open_mapping_request := fields 0 (fun _ => ());
  create_mapping_request := fields 5 (fun b => mkCreateMapping (word_at 0 b) (word_at 1 b) (word_at 2 b) (word_at 3 b) (word_at 4 b));
  get_mapping_info_request := w1;
  map_image_view_request := w2;
  get_image_map_address_request := w1;
  map_view_request := fields 0 (fun _ => ());
  unmap_view_request := fields 0 (fun _ => ());
  get_mapping_committed_range_request := w1;
}.

Definition create_req : list Z := named_request [0xF001F; SEC_COMMIT; 0; 5000; 0] (lit "\Sessions\1\Shared").
Definition open_req (name : str) : list Z := request_var [] (utf16le name).

Lemma named_section_shared_witness :
  exists ev1 hA ev2 hB, handle_create_mapping 7 create_req demo_loop = Ret (ev1, fixed (CreateMappingReply (Completion.hdr 0) hA)) /\
    handle_open_mapping (0, 0) 9 (open_req (lit "SHARED")) ev1 = (ev2, fixed (OpenMappingReply (Completion.hdr 0) hB)) /\
    object_id <$> handle_entry ev2 32 hA = object_id <$> handle_entry ev2 40 hB /\
    (hB = 4 -> handle_get_mapping_info 9 (request [4]) ev2 = Ret (ev2, fixed (GetMappingInfoReply (Completion.hdr 0) 5000 SEC_COMMIT 0 0 0 0))).
Proof.
  pose proof (named_section_shared (0, 0) 7 9 create_req (open_req (lit "SHARED")) (request [4]) demo_loop 32 40
    (demo_process 32 36) (demo_process 40 44) (mkCreateMapping 0xF001F SEC_COMMIT 0 5000 0) 0 0 []
    (lit "\Sessions\1\Shared") (lit "SHARED")) as Ht.
  specialize (Ht ltac:(vm_compute; reflexivity) (proj1 demo_process_eq) table_new_wf ltac:(vm_compute; split; congruence)).
  specialize (Ht ltac:(vm_compute; reflexivity) (proj2 demo_process_eq) table_new_wf ltac:(vm_compute; split; congruence)).
  specialize (Ht ltac:(lia) ltac:(vm_compute; reflexivity) ltac:(vm_compute; reflexivity) ltac:(vm_compute; reflexivity) ltac:(vm_compute; reflexivity)).
  specialize (Ht ltac:(apply (bool_decide_unpack _); vm_compute; exact I) ltac:(discriminate) ltac:(vm_compute; reflexivity) ltac:(vm_compute; reflexivity)).
  specialize (Ht ltac:(vm_compute; reflexivity) ltac:(apply (bool_decide_unpack _); vm_compute; exact I) ltac:(vm_compute; reflexivity)).
  assert (snd (backing 7 (mkCreateMapping 0xF001F SEC_COMMIT 0 5000 0) (alloc_object_id demo_loop).1) = 3) as Hf by (vm_compute; reflexivity).
  assert (size_of_file 3 5000 (backing 7 (mkCreateMapping 0xF001F SEC_COMMIT 0 5000 0) (alloc_object_id demo_loop).1).1 = 5000) as Hs by reflexivity.
  assert (0 <= (dup_fd 3 (kernel (backing 7 (mkCreateMapping 0xF001F SEC_COMMIT 0 5000 0) (alloc_object_id demo_loop).1).1)).2) as Hd by (vm_compute; congruence).
  destruct (alloc_object_id demo_loop) as [ev0 oid]. cbn [fst] in *. destruct (backing 7 _ ev0) as [evb f]. cbn [fst snd] in *. subst f.
  destruct (Ht ltac:(lia) Hd) as (ev1 & hA & ev2 & hB & H1 & _ & H2 & _ & HA & HB & Hq). cbn [cm_size cm_flags] in Hq. rewrite Hs in Hq.
  exists ev1, hA, ev2, hB. split; [exact H1|]. split; [exact H2|]. split; [congruence|]. intros ->. apply Hq. reflexivity.
Defined.

Lemma model_reads_on f i : reads_on f i.
Proof.
  intros n o k Hi Hn [Ho Hlt]. cbn. change (inode f k) with (model_inode f k) in Hi. rewrite content_inode, Hi. cbn. change (data i k) with (model_data i k) in Hlt.
  unfold slice, blen in *. destruct (drop (Z.to_nat o) (model_data i k)) as [|b l] eqn:E.
  - apply (f_equal length) in E. rewrite length_drop in E. cbn in E. lia.
  - destruct n; [done|]. cbn. eauto.
Qed.
Lemma model_writes_through f j : writes_through f j.
Proof. intros bs o k Hj _ _. cbn. change (inode f k) with (model_inode f k) in Hj. by rewrite content_inode, Hj. Qed.

(** An image with one shared writable section of eight bytes, and two that are not
    copied. *)
Definition image_headers : list Z := Image.headers ImageDemo.demo_stub ImageDemo.demo_pe.
Definition image_sections : list Image.SectionHeader :=
  [Image.mkSection 1 9 0x1000 8 4 0 0 0 0x60000020; Image.mkSection 2 5 0x2000 8 (blen image_headers + 120) 0 0 0 0xD0000000;
   Image.mkSection 3 9 0x3000 8 4 0 0 0 0x50000000].
Definition shared_image : list Z := image_headers ++ Image.section_table image_sections ++ [1; 2; 3; 4; 5; 6; 7; 8].
Definition image_loop : EventLoop MK := demo_loop <| kernel := (new_file shared_image boot).1 |>.

Lemma image_sections_ok : Forall (Image.section_ok 12) image_sections.
Proof. unfold Image.section_ok, Image.fields_ok. apply (bool_decide_unpack _). vm_compute. exact I. Qed.

Lemma shared_sections_copied_witness :
  exists ev' m j, create_shared_section_fd 3 image_loop = Ret (ev', Some m) /\ inode m (kernel ev') = Some j /\
    blen (data j (kernel ev')) = 0x1000 /\ slice 0 8 (data j (kernel ev')) = [1; 2; 3; 4; 5; 6; 7; 8].
Proof.
  pose proof (shared_sections_copied 3 image_loop 3 ImageDemo.demo_stub ImageDemo.demo_pe image_sections [1; 2; 3; 4; 5; 6; 7; 8] 12) as Ht. cbv zeta in Ht.
  specialize (Ht ltac:(vm_compute; reflexivity)).
  specialize (Ht ltac:(apply (bool_decide_unpack _); vm_compute; exact I) ltac:(vm_compute; reflexivity)).
  specialize (Ht ltac:(unfold Image.well_formed, Image.fields_ok; vm_compute; repeat (split || constructor); congruence)).
  specialize (Ht image_sections_ok).
  specialize (Ht ltac:(vm_compute; reflexivity) ltac:(vm_compute; reflexivity) ltac:(lia) ltac:(apply (bool_decide_unpack _); vm_compute; exact I)).
  specialize (Ht ltac:(vm_compute; reflexivity) ltac:(vm_compute; reflexivity) (model_reads_on 3 3)).
  change (Image.copied_size 12 image_sections) with 0x1000 in Ht.
  assert (snd (memfd_create (kernel image_loop)) = 4 /\ (ftruncate 4 0x1000 (memfd_create (kernel image_loop)).1).2 = true) as [Hm Hf] by (vm_compute; done).
  destruct (memfd_create (kernel image_loop)) as [k1 m]. cbn [fst snd] in *. subst m.
  destruct (Ht ltac:(lia) Hf (model_writes_through 4)) as (ev' & j & He & _ & Hj & _ & Hl & _ & Hs). exists ev', 4, j. split; [exact He|]. split; [exact Hj|]. split; [exact Hl|].
  specialize (Hs 0 (Image.mkSection 2 5 0x2000 8 (blen image_headers + 120) 0 0 0 0xD0000000) ltac:(vm_compute; by left) ltac:(vm_compute; congruence)). cbn zeta in Hs.
  assert (slice (Z.to_nat (blen image_headers + 120)) (Z.to_nat 8) (data 3 (kernel image_loop)) = [1; 2; 3; 4; 5; 6; 7; 8]) as Hd by (vm_compute; reflexivity).
  change (Z.min _ _) with 8 in Hs. cbn [Image.s_raw_ptr] in Hs. rewrite Hd in Hs. exact Hs.
Defined.

(** ** Where the code departs from what it means to do *)

(** The name of a new section is read unit by unit and the name of one to open as
    UTF-16: a section whose name has a character beyond the basic plane is never
    found again. *)
Definition wide_name : str := [0x1F600].
Theorem wide_section_name_not_found :
  exists ev1 h, handle_create_mapping 7 (named_request [0xF001F; SEC_COMMIT; 0; 5000; 0] wide_name) demo_loop = Ret (ev1, fixed (CreateMappingReply (Completion.hdr 0) h)) /\
    handle_open_mapping (0, 0) 9 (open_req wide_name) ev1 = (ev1, status_reply 0xC0000034) /\
    named_objects (user_state ev1) !! [0; 0] <> None.
Proof. eexists _, 4. split; [vm_compute; reflexivity|]. split; vm_compute; [reflexivity|congruence]. Qed.

(** A section on a handle that does not exist is made of fresh memory. *)
Theorem section_on_bad_handle :
  exists ev1, handle_create_mapping 7 (request [0xF001F; SEC_COMMIT; 0; 5000; 0x7000]) demo_loop = Ret (ev1, fixed (CreateMappingReply (Completion.hdr 0) 4)) /\
    handle_entry demo_loop 32 0x7000 = None.
Proof. eexists. split; vm_compute; reflexivity. Qed.

(** The log line of a query cuts the path of the image eighty bytes before its
    end: inside a character the daemon panics. *)
Definition cyrillic_path : str := lit "/" ++ replicate 50 0x434 ++ lit "a.dll".
Definition named_image_loop : EventLoop MK :=
  let k := (new_file image_headers boot).1 in
  (allocate_in 32 (with_fd 90 3 FD_TYPE_FILE 0 0)
    (demo_loop <| kernel := k <| paths := {[ concat (map Pe.encode_utf8_char cyrillic_path) := 3 ]} |> |>)).1.
Theorem mapping_query_panics :
  (r <-! handle_create_mapping 7 (request [0xF001F; SEC_IMAGE; 0; 0; 4]) named_image_loop ;;
   if decide (is_Some (mappings (user_state r.1) !! 4096)) then handle_get_mapping_info 7 (request [8]) r.1 else Ret r) = Panic.
Proof. vm_compute. reflexivity. Qed.

(** A mapping outlives the last handle on it, with its descriptor. *)
Theorem mapping_never_freed :
  (r <-! handle_create_mapping 7 (request [0xF001F; SEC_COMMIT; 0; 5000; 0]) demo_loop ;;
   r <-! Handles.handle_close_handle 7 (request [4]) r.1 ;;
   Ret (handle_entry r.1 32 4, map_fd <$> mappings (user_state r.1) !! 4096, files (kernel r.1) !! 3)) = Ret (None, Some 3, Some 3).
Proof. vm_compute. reflexivity. Qed.

End MappingsDemo.
