(* ===== verification/Files.v ===== *)
(** * Files and the data of pipes ([src/rust/src/triskelion/event_loop/file_io.rs])

    Opening files, reading and writing through a handle, what a file handle is
    asked about, and reads of pipes that wait for data.  A read that finds no data
    is kept in two tables: by the user's pointer for [get_async_result], and in the
    list that is checked after each write to a pipe. *)

From stdpp Require Import base list gmap strings.
From coqutil Require Import Datatypes.RecordSettersUsingExistingGetters.
From S2P Require Import Prelude Objects SideTables Dispatch Text Registry RegFile RegHandlers Atoms Loop Completion Handles Session Sync Pipes Threads Pe Mappings.
Local Open Scope Z_scope.
Local Open Scope outcome_scope.

Module FileIo.
Import Replies Text Ntsync Ipc HandleTable ServerState Loop Completion.
Local Notation lit := Registry.lit.

(** ** Generated structs *)
Inductive file_reply : Type :=
| AllocFileHandleReply (h : ReplyHeader) (handle : Z)
| ReadReply (h : ReplyHeader) (wait options : Z)
| WriteReply (h : ReplyHeader) (wait options size : Z)
| FlushReply (h : ReplyHeader) (event : Z)
| LockFileReply (h : ReplyHeader) (handle overlapped : Z)
| GetFileInfoReply (h : ReplyHeader)
| GetVolumeInfoReply (h : ReplyHeader) (wait : Z)
| OpenFileObjectReply (h : ReplyHeader) (handle : Z).

Record CreateFileRequest : Type := mkCreateFile { cf_access : Z; cf_options : Z; cf_create : Z }.

(** [read_request] and [write_request] give the 40 bytes of the async data. *)
Class Protocol : Type := {
  layout : file_reply -> list Z;
  alloc_file_handle_request : list Z -> option (Z * Z);
  create_file_request : list Z -> option CreateFileRequest;
  read_request : list Z -> option (list Z);
  write_request : list Z -> option (list Z);
  get_file_info_request : list Z -> option (Z * Z);
  open_file_object_request : list Z -> option (Z * Z);
  set_fd_eof_info_request : list Z -> option (Z * Z);
}.

Definition FD_TYPE_PIPE : Z := 5.
Definition EAGAIN : Z := 11.
Definition O_RDONLY : Z := 0.
Definition O_RDWR : Z := 2.
Definition O_CREAT : Z := 0x40.
Definition O_DIRECTORY : Z := 0x10000.
Definition O_CLOEXEC : Z := 0x80000.

(** [st_mode & S_IFMT] *)
Definition kind_of (mode : Z) : Handles.file_kind :=
  let m := Z.land mode 0xF000 in
  if decide (m = 0x4000) then Handles.S_IFDIR else if decide (m = 0x8000) then Handles.S_IFREG
  else if decide (m = 0xC000) then Handles.S_IFSOCK else if decide (m = 0x2000) then Handles.S_IFCHR
  else if decide (m = 0x1000) then Handles.S_IFIFO else Handles.S_OTHER.
Definition is_dir (st : FileStat) : bool := bool_decide (Z.land (st_mode st) 0xF000 = 0x4000).

(** ** Paths *)
Definition utf8 (s : str) : list Z := concat (map Pe.encode_utf8_char s).

(** Without the zeros in front and at the end. *)
Fixpoint trim_start (l : list Z) : list Z := match l with 0 :: l => trim_start l | _ => l end.
Definition trim_end (s : str) : str := reverse (trim_start (reverse s)).

Definition filename_start (vararg : list Z) : Z :=
  if decide (16 <= length vararg)%nat then
    let sd_len := from_le (slice 8 4 vararg) in
    let name_len := from_le (slice 12 4 vararg) in
    let even x := Z.ldiff x 1 in
    Z.ldiff (16 + even sd_len + even name_len + 3) 3
  else 0.

(** The Unix path behind the object attributes. *)
Definition unix_filename (vararg : list Z) : str :=
  let bytes := trim_start (drop (Z.to_nat (filename_start vararg)) vararg) in
  trim_end (default [] (Pe.from_utf8 bytes)).

(** [CString::new(..).unwrap_or_default()]: empty when there is a zero inside. *)
Definition c_path (filename : str) : list Z := if decide (0 ∈ filename) then [] else utf8 filename.

(** The components of a path, as [std::path] sees it: without empty ones and
    without [.], except a leading one. *)
Definition SLASH : Z := 47.
Definition DOT : Z := 46.
Fixpoint split_slash (s : str) : list str :=
  match s with
  | [] => [[]]
  | c :: s =>
      match split_slash s with
      | w :: ws => if decide (c = SLASH) then [] :: w :: ws else (c :: w) :: ws
      | [] => [[c]]
      end
  end.
Definition is_absolute (s : str) : bool := bool_decide (head s = Some SLASH).
Definition components (s : str) : list str :=
  let parts := split_slash s in
  let first := if decide (head parts = Some [DOT]) then [[DOT]] else [] in
  first ++ filter (fun w => w <> [] /\ w <> [DOT]) parts.
Fixpoint join_slash (ws : list str) : str :=
  match ws with [] => [] | [w] => w | w :: ws => w ++ SLASH :: join_slash ws end.

(** [Path::parent], up to the equality of paths. *)
Definition path_parent (s : str) : option str :=
  match components s with
  | [] => None
  | ws => Some ((if is_absolute s then [SLASH] else []) ++ join_slash (take (length ws - 1) ws))
  end.

(** Sockets: [socket] is the socket a descriptor refers to, [peer] its other end,
    [queue] the bytes waiting at it and [room] the number of bytes it still takes. *)
Class PipeView (K : Type) : Type := {
  socket : Z -> K -> option Z;
  peer : Z -> K -> option Z;
  queue : Z -> K -> list Z;
  room : Z -> K -> nat;
}.
Definition same_pipes {K} `{PipeView K} (k k' : K) : Prop :=
  (forall f, socket f k' = socket f k) /\ forall i, peer i k' = peer i k /\ queue i k' = queue i k /\ room i k' = room i k.

Class PipeLaws (K : Type) `{Ntsync K, Sockets K, Files K, PipeView K} : Prop := {
  poll_same : forall f ms k, same_pipes k (wait_readable f ms k).1;
  poll_ready : forall f i ms k, socket f k = Some i -> queue i k <> [] -> (wait_readable f ms k).2 = true;
  recv_data : forall f i n k, socket f k = Some i -> queue i k <> [] -> 0 < n ->
    exists k', recv_nb f n k = (k', inl (take (Z.to_nat n) (queue i k))) /\ queue i k' = drop (Z.to_nat n) (queue i k);
  recv_other : forall f i n k, socket f k <> Some i -> queue i (recv_nb f n k).1 = queue i k;
  recv_socket : forall f n k g, socket g (recv_nb f n k).1 = socket g k;
  write_data : forall f i j bs k, socket f k = Some i -> peer i k = Some j -> bs <> [] -> (0 < room j k)%nat ->
    exists k' n, write_file f bs k = (k', inl n) /\ 0 < n <= blen bs /\ queue j k' = queue j k ++ take (Z.to_nat n) bs /\
      (room j k - Z.to_nat n <= room j k')%nat /\ peer i k' = Some j /\ forall g, socket g k' = socket g k;
  create_same : forall m s k, same_pipes k (create_event m s k).1;
  set_same : forall f k, same_pipes k (event_set f k).1;
}.

Section handlers.
Context {K : Type} `{Ntsync K, Sockets K, Files K, Protocol, !Handles.Protocol, !Pipes.Protocol, Lowercase}.
Implicit Types (ev : EventLoop K) (buf : list Z).

Definition fixed (r : file_reply) : Reply := reply_fixed (layout r).

(** [std::fs::create_dir_all]; a path with a zero is refused. *)
Definition create_dirs (path : str) (k : K) : K := if decide (0 ∈ path) then k else create_dir_all (utf8 path) k.

(** ** Handles for open files *)
Definition handle_alloc_file_handle (client_fd : Z) buf ev : EventLoop K * Reply :=
  match alloc_file_handle_request buf with
  | None => (ev, status_reply 0xC000000D)
  | Some (fd_num, access) =>
      match Threads.take_inflight_fd client_fd fd_num ev with
      | (ev, Some f) =>
          let '(ev, oid) := alloc_object_id ev in
          let '(ev, handle) :=
            match nonzero_pid ev client_fd with
            | Some pid => let '(ev, h) := allocate_in pid (with_fd oid f FD_TYPE_FILE (Handles.map_file_access access) 0) ev in (ev, default 0 h)
            | None => (ev, 0)
            end in
          (ev, if decide (handle = 0) then status_reply 0xC0000008 else fixed (AllocFileHandleReply (hdr 0) handle))
      | (ev, None) => (ev, status_reply 0xC0000008)
      end
  end.

Definition open_handle (client_fd f : Z) (req : CreateFileRequest) ev : EventLoop K * Reply :=
  Handles.create_file_handle (fun f => (fun st => kind_of (st_mode st)) <$> fstat f (kernel ev)) client_fd f (cf_access req) (cf_options req) ev.

(** SUPERSEDE, CREATE, OPEN_IF and OVERWRITE_IF *)
Definition can_create (disposition : Z) : bool := bool_decide (disposition ∈ [0; 2; 3; 5]).

Definition open_directory (client_fd : Z) (filename : str) (req : CreateFileRequest) ev : EventLoop K * Reply :=
  let exists_dir := match stat_path (c_path filename) (kernel ev) with Some st => is_dir st | None => false end in
  let ev := if decide (exists_dir = false /\ can_create (cf_create req) = true) then ev <| kernel ::= create_dirs filename |> else ev in
  let '(ev, f) := on_kernel (open_file (c_path filename) (Z.lor O_RDONLY (Z.lor O_DIRECTORY O_CLOEXEC))) ev in
  if decide (f < 0) then (ev, status_reply 0xC0000034) else open_handle client_fd f req ev.

(** The read-only attempt, the last one. *)
Definition open_read_only (client_fd : Z) (filename : str) (req : CreateFileRequest) ev : EventLoop K * Reply :=
  let '(ev, f) := on_kernel (open_file (c_path filename) (Z.lor O_RDONLY O_CLOEXEC)) ev in
  if decide (f < 0) then (ev, status_reply 0xC0000034) else open_handle client_fd f req ev.

Definition open_regular (client_fd : Z) (filename : str) (req : CreateFileRequest) ev : EventLoop K * Reply :=
  let flags := if decide (Z.land (cf_access req) 0x40000000 <> 0) then O_RDWR else O_RDONLY in
  let '(ev, f) := on_kernel (open_file (c_path filename) (Z.lor flags O_CLOEXEC)) ev in
  if decide (f < 0) then
    if can_create (cf_create req) then
      let ev := match path_parent filename with Some parent => ev <| kernel ::= create_dirs parent |> | None => ev end in
      let '(ev, f) := on_kernel (open_file (c_path filename) (Z.lor O_RDWR (Z.lor O_CREAT O_CLOEXEC))) ev in
      if decide (0 <= f) then open_handle client_fd f req ev else open_read_only client_fd filename req ev
    else open_read_only client_fd filename req ev
  else open_handle client_fd f req ev.

Definition handle_create_file (client_fd : Z) buf ev : EventLoop K * Reply :=
  match create_file_request buf with
  | None => (ev, status_reply 0xC000000D)
  | Some req =>
      let vararg := Atoms.vararg_of buf in
      let filename := unix_filename vararg in
      if decide (filename = []) then
        let name := Sync.basename (to_lowercase (utf16le_to_string (RegHandlers.parse_objattr_name vararg).2)) in
        let '(ev, connected) := if decide (name <> []) then Pipes.try_connect_named_pipe client_fd name (cf_access req) (cf_options req) ev else (ev, None) in
        (ev, default (status_reply 0xC0000034) connected)
      else if decide (Z.land (cf_options req) 0x1 <> 0) then open_directory client_fd filename req ev
      else open_regular client_fd filename req ev
  end.

(** ** Pipe reads that wait *)
Definition signal_pipe_wait (pid wait_handle : Z) ev : EventLoop K := set_event (pid, wait_handle) ev.

(** The places of the reads whose pipe has data, or is closed. *)
Fixpoint ready_reads (i : nat) (l : list AsyncPipeRead) ev : EventLoop K * list nat :=
  match l with
  | [] => (ev, [])
  | pr :: l =>
      let '(ev, ready) := on_kernel (wait_readable (pipe_fd pr) 0) ev in
      let '(ev, rest) := ready_reads (S i) l ev in
      (ev, if ready : bool then i :: rest else rest)
  end.

(** A read that is ready; nothing is kept of it when the pipe has no data after all. *)
Definition complete_read (pr : AsyncPipeRead) ev : EventLoop K :=
  match on_kernel (recv_nb (pipe_fd pr) (apr_max_bytes pr)) ev with
  | (ev, inl data) =>
      (signal_pipe_wait (apr_pid pr) (apr_wait_handle pr) ev)
        <| completed_pipe_reads ::= fun l => l ++ [mkCompletedPipeRead (apr_client_fd pr) data (apr_pid pr)] |>
  | (ev, inr _) => ev
  end.

(** [Vec::remove], one place after the other. *)
Fixpoint complete_reads (places : list nat) ev : outcome (EventLoop K) :=
  match places with
  | [] => Ret ev
  | i :: places =>
      match pending_pipe_reads ev !! i with
      | Some pr => complete_reads places (complete_read pr (ev <| pending_pipe_reads ::= delete i |>))
      | None => Panic
      end
  end.

Definition check_pending_pipe_reads ev : outcome (EventLoop K) :=
  match pending_pipe_reads ev with
  | [] => Ret ev
  | l => let '(ev, completed) := ready_reads 0 l ev in complete_reads (reverse completed) ev
  end.

(** ** Reading *)
Definition is_pipe (obj_type : Z) : bool := bool_decide (obj_type = FD_TYPE_PIPE \/ obj_type = Pipes.FD_TYPE_DEVICE).
Definition is_stream (obj_type : Z) : bool := is_pipe obj_type || bool_decide (obj_type = FD_TYPE_SOCKET).

Definition open_entry (client_fd handle : Z) ev : option (Z * Z * Z) :=
  handle_entry ev (client_pid ev client_fd) handle ≫= fun e => (fun f => (f, obj_type e, options e)) <$> HandleTable.fd e.

(** The signalled wait handle of a pipe, 0 for anything else. *)
Definition pipe_done (obj_type pid handle : Z) ev : EventLoop K * Z :=
  if is_pipe obj_type then
    let '(ev, wh) := Pipes.get_pipe_wait_handle pid handle ev in
    (if decide (wh <> 0) then signal_pipe_wait pid wh ev else ev, wh)
  else (ev, 0).

(** No data yet: the read is remembered. *)
Definition read_later (client_fd pid handle user_arg f obj_type options max_size : Z) ev : EventLoop K * Reply :=
  let ev := ev <| pending_reads ::= <[(pid, user_arg) := mkPendingRead f max_size]> |> in
  let '(ev, wait) := if is_stream obj_type then Pipes.get_pipe_wait_handle pid handle ev else (ev, 0) in
  (if decide (wait <> 0) then ev <| pending_pipe_reads ::= fun l => l ++ [mkAsyncPipeRead f max_size pid wait client_fd] |> else ev,
   fixed (ReadReply (hdr 0x103) wait options)).

Definition handle_read (client_fd : Z) buf ev : EventLoop K * Reply :=
  match read_request buf with
  | None => (ev, status_reply 0xC000000D)
  | Some async =>
      let handle := get_u32 async 0 in
      let user_arg := from_le (slice 16 8 async) in
      let pid := client_pid ev client_fd in
      match open_entry client_fd handle ev with
      | None => (ev, fixed (ReadReply (hdr 0xC0000008) 0 0))
      | Some (f, obj_type, options) =>
          let max_reply := max_reply_vararg buf in
          let max_size := if decide (max_reply = 0) then 65536 else max_reply in
          match on_kernel (if is_stream obj_type then recv_nb f max_size else read_file f (Z.to_nat max_size)) ev with
          | (ev, inl []) => (ev, fixed (ReadReply (hdr 0xC000014B) 0 options))
          | (ev, inl data) =>
              let '(ev, wait) := pipe_done obj_type pid handle ev in
              (ev, reply_vararg (layout (ReadReply (mkReplyHeader 0 (u32 (blen data))) wait options)) data)
          | (ev, inr errno) =>
              if decide (errno = EAGAIN) then read_later client_fd pid handle user_arg f obj_type options max_size ev
              else (ev, fixed (ReadReply (hdr 0xC0000185) 0 options))
          end
      end
  end.

(** ** Writing *)

(** Until everything is written: the bytes written, and whether it was an error
    that ended it.  A full pipe is tried again. *)
Fixpoint write_loop (fuel : nat) (f : Z) (data : list Z) (total : Z) (k : K) : outcome (K * (Z * bool)) :=
  match fuel with
  | O => OutOfFuel
  | S fuel =>
      match data with
      | [] => Ret (k, (total, true))
      | _ =>
          match write_file f data k with
          | (k, inl n) => if decide (0 < n) then write_loop fuel f (drop (Z.to_nat n) data) (total + n) k else Ret (k, (total, true))
          | (k, inr errno) => if decide (errno = EAGAIN) then write_loop fuel f data total k else Ret (k, (total, false))
          end
      end
  end.

Definition handle_write (fuel : nat) (client_fd : Z) buf ev : outcome (EventLoop K * Reply) :=
  match write_request buf with
  | None => Ret (ev, status_reply 0xC000000D)
  | Some async =>
      let handle := get_u32 async 0 in
      let pid := client_pid ev client_fd in
      match open_entry client_fd handle ev with
      | None => Ret (ev, fixed (WriteReply (hdr 0xC0000008) 0 0 0))
      | Some (f, obj_type, options) =>
          let data := Atoms.vararg_of buf in
          if decide (data = []) then Ret (ev, fixed (WriteReply (hdr 0) 0 options 0))
          else
            r <-! write_loop fuel f data 0 (kernel ev) ;;
            let '(k, (total, ok)) := r in
            let ev := ev <| kernel := k |> in
            if negb ok then Ret (ev, fixed (WriteReply (hdr 0xC0000185) 0 options (u32 total)))
            else
              let '(ev, wait) := pipe_done obj_type pid handle ev in
              ev <-! (if decide (0 < total /\ is_stream obj_type = true) then check_pending_pipe_reads ev else Ret ev) ;;
              Ret (ev, fixed (WriteReply (hdr 0) wait options (u32 total)))
      end
  end.

Definition handle_flush (client_fd : Z) buf ev : EventLoop K * Reply := (ev, fixed (FlushReply (hdr 0) 0)).
Definition handle_lock_file (client_fd : Z) buf ev : EventLoop K * Reply := (ev, fixed (LockFileReply (hdr 0) 0 0)).
Definition handle_unlock_file (client_fd : Z) buf ev : EventLoop K * Reply := (ev, status_reply 0).

(** A pipe that stays full keeps the loop going. *)
Lemma write_loop_full fuel f data total k : data <> [] -> write_file f data k = (k, inr EAGAIN) -> write_loop fuel f data total k = OutOfFuel.
Proof.
  intros Hd Hw. induction fuel as [|fuel IH]; [done|]. cbn [write_loop]. destruct data; [done|]. rewrite Hw, decide_True by done. exact IH.
Qed.

(** ** Questions about a file *)
Definition FileStandardInformation : Z := 5.
Definition FileAccessInformation : Z := 8.
Definition FilePositionInformation : Z := 14.
Definition FileModeInformation : Z := 16.
Definition FileIoCompletionNotificationInformation : Z := 41.
Definition WineFileUnixNameInformation : Z := 1000.

(** The 24 bytes of the standard information: allocation, size, links, directory. *)
Definition standard_info (st : option FileStat) : list Z :=
  match st with
  | Some st => le_bytes 8 (i64 (st_blocks st * 512)) ++ le_bytes 8 (st_size st) ++ le_bytes 4 (u32 (st_nlink st)) ++ [0; b2z (is_dir st); 0; 0]
  | None => replicate 24 0
  end.

(** As much of the data as the client takes, or all of it or an error. *)
Definition info_reply (data : list Z) : Reply :=
  reply_vararg (layout (GetFileInfoReply (mkReplyHeader 0 (u32 (blen data))))) data.
Definition info_prefix (buf data : list Z) : Reply := info_reply (take (Z.to_nat (Z.min (blen data) (max_reply_vararg buf))) data).
Definition info_whole (buf data : list Z) : Reply :=
  if decide (max_reply_vararg buf < 4) then status_reply 0xC0000004 else info_reply data.

(** The path behind a descriptor, when it is text. *)
Definition link_path (f : Z) ev : option (list Z) :=
  path ← read_link f (kernel ev); if decide (Pe.from_utf8 path = None) then None else Some path.

Definition handle_get_file_info (client_fd : Z) buf ev : EventLoop K * Reply :=
  match get_file_info_request buf with
  | None => (ev, status_reply 0xC000000D)
  | Some (handle, info_class) =>
      let entry := handle_entry ev (client_pid ev client_fd) handle in
      let f := entry ≫= HandleTable.fd in
      (ev,
       if decide (info_class = FileStandardInformation) then info_prefix buf (standard_info (f ≫= fun f => fstat f (kernel ev)))
       else if decide (info_class = FileAccessInformation) then info_whole buf (le_bytes 4 (default 0x001F01FF (access <$> entry)))
       else if decide (info_class = FilePositionInformation) then
         info_prefix buf (le_bytes 8 (match f with Some f => lseek_cur f (kernel ev) | None => 0 end))
       else if decide (info_class = FileModeInformation) then info_whole buf (le_bytes 4 (Z.land (default 0x20 (options <$> entry)) 0x3E))
       else if decide (info_class = FileIoCompletionNotificationInformation) then info_whole buf (le_bytes 4 0)
       else if decide (info_class = WineFileUnixNameInformation) then
         match f ≫= fun f => link_path f ev with
         | Some path => info_prefix buf (le_bytes 4 (u32 (blen path)) ++ path)
         | None => status_reply 0xC0000024
         end
       else status_reply 0xC0000002)
  end.

Definition handle_get_volume_info (client_fd : Z) buf ev : EventLoop K * Reply := (ev, fixed (GetVolumeInfoReply (hdr 0) 0)).

(** Opening by name alone: a pipe, or the directory of the pipes. *)
Definition open_pipe_root (client_fd access options : Z) ev : EventLoop K * Reply :=
  let '(ev, oid) := alloc_object_id ev in
  let '(ev, f) := on_kernel eventfd ev in
  let '(ev, handle) := allocate_in (client_pid ev client_fd) (with_fd oid f FD_TYPE_FILE access options) ev in
  (ev, if decide (default 0 handle <> 0) then fixed (OpenFileObjectReply (hdr 0) (default 0 handle))
       else fixed (OpenFileObjectReply (hdr 0xc0000034) 0)).

Definition handle_open_file_object (client_fd : Z) buf ev : EventLoop K * Reply :=
  match open_file_object_request buf with
  | None => (ev, status_reply 0xC000000D)
  | Some (access, options) =>
      let not_found := fixed (OpenFileObjectReply (hdr 0xc0000034) 0) in
      if decide (VARARG_OFF < length buf)%nat then
        let name := utf16le_to_string (drop VARARG_OFF buf) in
        let basename := to_lowercase (Sync.basename name) in
        if decide (basename <> []) then
          let '(ev, connected) := Pipes.try_connect_named_pipe client_fd basename access options ev in (ev, default not_found connected)
        else if RegFile.contains (lit "pipe") (to_lowercase name) then open_pipe_root client_fd access options ev
        else (ev, not_found)
      else (ev, not_found)
  end.

Definition handle_read_directory_changes (client_fd : Z) buf ev : EventLoop K * Reply := (ev, status_reply 0).
Definition handle_read_change (client_fd : Z) buf ev : EventLoop K * Reply := (ev, status_reply 0).
Definition handle_set_fd_completion_mode (client_fd : Z) buf ev : EventLoop K * Reply := (ev, status_reply 0).
Definition handle_set_fd_disp_info (client_fd : Z) buf ev : EventLoop K * Reply := (ev, status_reply 0).
Definition handle_set_fd_name_info (client_fd : Z) buf ev : EventLoop K * Reply := (ev, status_reply 0).

Definition handle_set_fd_eof_info (client_fd : Z) buf ev : EventLoop K * Reply :=
  match set_fd_eof_info_request buf with
  | None => (ev, status_reply 0xC000000D)
  | Some (handle, eof) =>
      (match handle_entry ev (client_pid ev client_fd) handle ≫= HandleTable.fd with
       | Some f => (on_kernel (ftruncate f (i64 eof)) ev).1
       | None => ev
       end, status_reply 0)
  end.

(** ** Pending reads, all of them at once *)

(** The reads with the flag, in order. *)
Fixpoint select (b : bool) (flags : list bool) (l : list AsyncPipeRead) : list AsyncPipeRead :=
  match flags, l with
  | f :: flags, r :: l => if eqb f b then r :: select b flags l else select b flags l
  | _, _ => []
  end.
Fixpoint places (i : nat) (flags : list bool) : list nat :=
  match flags with [] => [] | f :: flags => if f : bool then i :: places (S i) flags else places (S i) flags end.

(** The pipes polled one after the other. *)
Fixpoint poll_all (l : list AsyncPipeRead) (k : K) : K * list bool :=
  match l with
  | [] => (k, [])
  | r :: l => let '(k, b) := wait_readable (pipe_fd r) 0 k in let '(k, bs) := poll_all l k in (k, b :: bs)
  end.

Definition finish (rs : list AsyncPipeRead) ev : EventLoop K := fold_left (fun ev r => complete_read r ev) rs ev.

Lemma ready_reads_poll i l ev :
  ready_reads i l ev = (ev <| kernel := (poll_all l (kernel ev)).1 |>, places i (poll_all l (kernel ev)).2).
Proof.
  revert i ev; induction l as [|r l IH]; intros i ev; cbn [ready_reads poll_all places fst snd]; [by destruct ev|].
  unfold on_kernel. destruct (wait_readable (pipe_fd r) 0 (kernel ev)) as [k b]. rewrite IH. change (kernel (ev <| kernel := k |>)) with k.
  destruct (poll_all l k) as [k' bs]. cbn [fst snd places]. by destruct b, ev.
Qed.

Lemma poll_all_length l k : length (poll_all l k).2 = length l.
Proof.
  revert k; induction l as [|r l IH]; intros k; [done|]. cbn. destruct (wait_readable _ _ _) as [k' b]. specialize (IH k').
  destruct (poll_all l k'). cbn in *. by rewrite IH.
Qed.

Lemma complete_read_pending r l ev : complete_read r (ev <| pending_pipe_reads := l |>) = (complete_read r ev) <| pending_pipe_reads := l |>.
Proof.
  unfold complete_read, on_kernel. change (kernel (ev <| pending_pipe_reads := l |>)) with (kernel ev).
  destruct (recv_nb _ _ _) as [k [d|e]]; [|by destruct ev]. unfold signal_pipe_wait, set_event.
  change (ntsync_objects (ev <| pending_pipe_reads := l |> <| kernel := k |>)) with (ntsync_objects ev).
  change (ntsync_objects (ev <| kernel := k |>)) with (ntsync_objects ev). destruct (ntsync_objects ev !! (apr_pid r, apr_wait_handle r)) as [[o t]|]; by destruct ev.
Qed.

Lemma complete_reads_app is1 is2 ev : complete_reads (is1 ++ is2) ev = (ev <-! complete_reads is1 ev ;; complete_reads is2 ev).
Proof. revert ev; induction is1 as [|i is1 IH]; intros ev; [done|]. cbn. destruct (pending_pipe_reads ev !! i); [apply IH|done]. Qed.

Lemma complete_reads_places flags l : length flags = length l -> forall pre ev, pending_pipe_reads ev = pre ++ l ->
  complete_reads (reverse (places (length pre) flags)) ev =
    Ret ((finish (reverse (select true flags l)) ev) <| pending_pipe_reads := pre ++ select false flags l |>).
Proof.
  revert l; induction flags as [|b flags IH]; intros [|r l] Hlen pre ev Hp; try done; cbn [places select].
  { rewrite app_nil_r in *. cbn. rewrite <- Hp. by destruct ev. }
  assert (complete_reads (reverse (places (S (length pre)) flags)) ev =
    Ret ((finish (reverse (select true flags l)) ev) <| pending_pipe_reads := pre ++ r :: select false flags l |>)) as Hrest.
  { specialize (IH l ltac:(by injection Hlen) (pre ++ [r]) ev). rewrite length_app, Nat.add_1_r in IH. rewrite IH by by rewrite <- app_assoc.
    by rewrite <- app_assoc. }
  destruct b; cbn [eqb]; [|done]. rewrite !reverse_cons, complete_reads_app, Hrest. cbn [obind complete_reads].
  set (ev1 := finish (reverse (select true flags l)) ev).
  change (pending_pipe_reads (ev1 <| pending_pipe_reads := pre ++ r :: select false flags l |>)) with (pre ++ r :: select false flags l).
  rewrite list_lookup_middle by done. f_equal.
  assert (ev1 <| pending_pipe_reads := pre ++ r :: select false flags l |> <| pending_pipe_reads ::= delete (length pre) |> =
    ev1 <| pending_pipe_reads := pre ++ select false flags l |>) as ->.
  { rewrite <- (delete_middle pre (select false flags l) r). by destruct ev1. }
  rewrite complete_read_pending. unfold finish. by rewrite fold_left_app.
Qed.

(** Removing by index is removing all at once: the check polls every pipe, keeps
    the reads whose pipe is not ready, in order, and completes the others, the
    last one first; it never indexes outside the list. *)
Theorem check_pending_exact ev :
  let l := pending_pipe_reads ev in
  let '(k, flags) := poll_all l (kernel ev) in
  check_pending_pipe_reads ev = Ret ((finish (reverse (select true flags l)) (ev <| kernel := k |>)) <| pending_pipe_reads := select false flags l |>).
Proof.
  cbn zeta. pose proof (poll_all_length (pending_pipe_reads ev) (kernel ev)) as Hlen. unfold check_pending_pipe_reads.
  destruct (poll_all (pending_pipe_reads ev) (kernel ev)) as [k flags] eqn:Hp. cbn [snd] in Hlen.
  destruct (pending_pipe_reads ev) as [|r l] eqn:Hl.
  - destruct flags; [|done]. cbn in Hp. injection Hp as <-. cbn. destruct ev. recs. by rewrite <- Hl.
  - rewrite <- Hl in *. rewrite ready_reads_poll, Hp. cbn [fst snd].
    by apply (complete_reads_places flags (pending_pipe_reads ev) Hlen [] (ev <| kernel := k |>)).
Qed.

(** ** A write reaches the read that waits for it *)
Section Delivery.
Context `{PV : !PipeView K, !PipeLaws K}.

Lemma same_pipes_refl k : same_pipes k k.
Proof. done. Qed.
Lemma same_pipes_trans k1 k2 k3 : same_pipes k1 k2 -> same_pipes k2 k3 -> same_pipes k1 k3.
Proof.
  intros [Hs Hi] [Hs' Hi']. split; [intros f; by rewrite Hs', Hs|]. intros i. destruct (Hi i) as (?&?&?), (Hi' i) as (?&?&?). split_and!; congruence.
Qed.

(** Every write makes progress while there is room, so the loop ends with all of
    the data at the other end, within one round per byte and one more. *)
Lemma write_loop_done fuel f i j data total k : (length data < fuel)%nat -> socket f k = Some i -> peer i k = Some j ->
  (length data <= room j k)%nat ->
  exists k', write_loop fuel f data total k = Ret (k', (total + blen data, true)) /\ (forall g, socket g k' = socket g k) /\
    queue j k' = queue j k ++ data.
Proof.
  revert data total k; induction fuel as [|fuel IH]; intros data total k Hlt Hf Hp Hr; [lia|]. cbn [write_loop].
  destruct data as [|b data].
  { exists k. unfold blen. cbn. rewrite Z.add_0_r, app_nil_r. done. }
  destruct (write_data f i j (b :: data) k Hf Hp) as (k1 & n & -> & Hn & Hq & Hroom & Hp1 & Hs1); [done|cbn in *; lia|].
  rewrite decide_True by lia. unfold blen in *.
  destruct (IH (drop (Z.to_nat n) (b :: data)) (total + n) k1) as (k' & -> & Hs' & Hq').
  - rewrite length_drop. lia.
  - by rewrite Hs1.
  - done.
  - rewrite length_drop. lia.
  - exists k'. split_and!.
    + rewrite length_drop. do 3 f_equal. lia.
    + intros g. by rewrite Hs', Hs1.
    + by rewrite Hq', Hq, <- app_assoc, take_drop.
Qed.

(** Steps that leave the pipes and the tables of the reads alone. *)
Definition quiet ev ev' : Prop :=
  same_pipes (kernel ev) (kernel ev') /\ clients ev' = clients ev /\ completed_ioctls ev' = completed_ioctls ev /\
  pending_pipe_reads ev' = pending_pipe_reads ev /\ completed_pipe_reads ev' = completed_pipe_reads ev.

Lemma quiet_trans ev1 ev2 ev3 : quiet ev1 ev2 -> quiet ev2 ev3 -> quiet ev1 ev3.
Proof. intros (? & ? & ? & ? & ?) (? & ? & ? & ? & ?). split_and!; [by eapply same_pipes_trans|congruence..]. Qed.

Lemma quiet_signal pid h ev : quiet ev (signal_pipe_wait pid h ev).
Proof. unfold signal_pipe_wait, set_event. destruct (ntsync_objects ev !! (pid, h)) as [[o t]|]; [|done]. split_and!; try done. apply set_same. Qed.

Lemma quiet_wait_handle pid h ev p : processes (state ev) !! pid = Some p -> HandleTable.wf (handles p) -> has_room p ->
  quiet ev (Pipes.get_pipe_wait_handle pid h ev).1.
Proof.
  intros Hp Hwf Hroom. unfold Pipes.get_pipe_wait_handle, Pipes.new_wait_handle, get_or_create_event, on_kernel.
  destruct (SideTables.io_wait_handles (side_tables ev) !! (pid, h)); [done|]. destruct (ntsync ev); [|done].
  pose proof (create_same false false (kernel ev)) as Hk. destruct (create_event false false (kernel ev)) as [k [evt|]]; [|done]. cbn [fst] in Hk.
  destruct (alloc_object_id (ev <| kernel := k |>)) as [ev1 oid] eqn:Ha. injection Ha as Ha Ho. cbn beta iota zeta.
  destruct (allocate_in_spec pid (with_fd oid (-1) FD_TYPE_FILE 0x001F0003 0x20) ev1 p) as (t & hh & -> & Hh & _); [by rewrite <- Ha|done|done|].
  rewrite <- Ha.
  rewrite !decide_True by done. done.
Qed.

Lemma quiet_pipe_done ty pid h ev p : processes (state ev) !! pid = Some p -> HandleTable.wf (handles p) -> has_room p ->
  quiet ev (pipe_done ty pid h ev).1.
Proof.
  intros Hp Hwf Hr. unfold pipe_done. destruct (is_pipe ty); [|done]. pose proof (quiet_wait_handle pid h ev p Hp Hwf Hr) as Hq.
  destruct (Pipes.get_pipe_wait_handle pid h ev) as [ev1 wh]. cbn [fst] in *. case_decide; [|done]. by eapply quiet_trans, quiet_signal.
Qed.

Lemma poll_all_same l k : same_pipes k (poll_all l k).1.
Proof.
  revert k; induction l as [|r l IH]; intros k; [done|]. cbn. pose proof (poll_same (pipe_fd r) 0 k) as Hk.
  destruct (wait_readable (pipe_fd r) 0 k) as [k1 b]. specialize (IH k1). destruct (poll_all l k1) as [k2 bs]. cbn in *. by eapply same_pipes_trans.
Qed.

(** The reads before and after a ready one that the check completes with it. *)
Lemma poll_all_ready pre r post k i : socket (pipe_fd r) k = Some i -> queue i k <> [] ->
  exists pre' post', select true (poll_all (pre ++ r :: post) k).2 (pre ++ r :: post) = pre' ++ r :: post' /\
    pre' ⊆ pre /\ post' ⊆ post.
Proof.
  assert (forall l (k : K), select true (poll_all l k).2 l ⊆ l) as Hsub.
  { induction l as [|x l IH]; intros k1; [done|]. cbn. destruct (wait_readable (pipe_fd x) 0 k1) as [k2 b]. specialize (IH k2).
    destruct (poll_all l k2). cbn in *. destruct b; cbn; set_solver. }
  revert k; induction pre as [|x pre IH]; intros k Hs Hq; cbn [app poll_all].
  - pose proof (poll_ready (pipe_fd r) i 0 k Hs Hq) as Hb. destruct (wait_readable (pipe_fd r) 0 k) as [k1 b]. cbn [snd] in Hb. subst b.
    pose proof (Hsub post k1) as Hp. destruct (poll_all post k1) as [k2 bs]. cbn. exists [], (select true bs post). by split_and!.
  - pose proof (poll_same (pipe_fd x) 0 k) as [Hs1 Hi1]. destruct (wait_readable (pipe_fd x) 0 k) as [k1 b]. cbn [fst] in *.
    destruct (IH k1) as (pre' & post' & E & Hpre & Hpost); [by rewrite Hs1|by rewrite (proj1 (proj2 (Hi1 i)))|].
    destruct (poll_all (pre ++ r :: post) k1) as [k2 bs]. cbn in *. destruct b; cbn; rewrite E; [exists (x :: pre'), post'|exists pre', post']; split_and!; [done|set_solver..|done|set_solver|done].
Qed.

(** What completing other reads leaves alone. *)
Definition only_others (j : Z) (rs : list AsyncPipeRead) ev ev' : Prop :=
  (forall g, socket g (kernel ev') = socket g (kernel ev)) /\ queue j (kernel ev') = queue j (kernel ev) /\
  clients ev' = clients ev /\ completed_ioctls ev' = completed_ioctls ev /\
  exists l, completed_pipe_reads ev' = completed_pipe_reads ev ++ l /\
    forall c, c ∈ l -> exists r, r ∈ rs /\ cpr_pid c = apr_pid r /\ cpr_client_fd c = apr_client_fd r.

Lemma complete_read_done r ev k (d : list Z) : recv_nb (pipe_fd r) (apr_max_bytes r) (kernel ev) = (k, inl d) ->
  let ev' := complete_read r ev in
  same_pipes k (kernel ev') /\ clients ev' = clients ev /\ completed_ioctls ev' = completed_ioctls ev /\
  completed_pipe_reads ev' = completed_pipe_reads ev ++ [mkCompletedPipeRead (apr_client_fd r) d (apr_pid r)].
Proof.
  intros Hr. cbn zeta. unfold complete_read, on_kernel. rewrite Hr.
  destruct (quiet_signal (apr_pid r) (apr_wait_handle r) (ev <| kernel := k |>)) as (Hk & Hc & Hi & _ & Hd).
  split_and!; [exact Hk|exact Hc|exact Hi|]. exact (f_equal (fun l => l ++ [mkCompletedPipeRead (apr_client_fd r) d (apr_pid r)]) Hd).
Qed.

Lemma finish_others j rs ev : (forall r, r ∈ rs -> socket (pipe_fd r) (kernel ev) <> Some j) -> only_others j rs ev (finish rs ev).
Proof.
  revert ev; induction rs as [|r rs IH]; intros ev Hrs.
  { split_and!; try done. exists []. split; [by rewrite app_nil_r|]. by intros c Hc%elem_of_nil. }
  assert (only_others j [r] ev (complete_read r ev)) as H1'.
  { pose proof (recv_other (pipe_fd r) j (apr_max_bytes r) (kernel ev) (Hrs r ltac:(by left))) as Hq.
    pose proof (recv_socket (pipe_fd r) (apr_max_bytes r) (kernel ev)) as Hs.
    destruct (recv_nb (pipe_fd r) (apr_max_bytes r) (kernel ev)) as [k [d|e]] eqn:Hr; cbn [fst] in *.
    - destruct (complete_read_done r ev k d Hr) as ([Hs1 Hi1] & Hc & Hi & Hd). split_and!; [|by rewrite (proj1 (proj2 (Hi1 j)))|done|done|].
      + intros g. by rewrite Hs1.
      + eexists. split; [exact Hd|]. intros c ->%list_elem_of_singleton. exists r. split_and!; [by left|done|done].
    - unfold complete_read, on_kernel. rewrite Hr. split_and!; try done. exists []. split; [by rewrite app_nil_r|]. by intros c Hc%elem_of_nil. }
  destruct H1' as (Hs & Hq & Hc & Hi & l1 & Hl1 & Hin1).
  destruct (IH (complete_read r ev)) as (Hs2 & Hq2 & Hc2 & Hi2 & l2 & Hl2 & Hin2).
  { intros r' Hr'. rewrite Hs. apply Hrs. by right. }
  cbn [finish fold_left]. fold (finish rs (complete_read r ev)). split_and!; [|congruence..|].
  - intros g. by rewrite Hs2.
  - exists (l1 ++ l2). split; [by rewrite Hl2, Hl1, app_assoc|]. intros c [Hc'|Hc']%elem_of_app.
    + destruct (Hin1 c Hc') as (r' & ->%list_elem_of_singleton & Hr'). exists r. split; [by left|done].
    + destruct (Hin2 c Hc') as (r' & Hr' & E). exists r'. split; [by right|done].
Qed.

(** What completing a read does to the kernel: the bytes are taken and, when there
    were any, the event of the reader is set. *)
Definition served (objs : gmap (Z * Z) (Z * Z)) (k : K) (r : AsyncPipeRead) : K :=
  match recv_nb (pipe_fd r) (apr_max_bytes r) k with
  | (k, inl _) => set_all (option_list (fst <$> objs !! (apr_pid r, apr_wait_handle r))) k
  | (k, inr _) => k
  end.

Lemma complete_read_kernel r ev : kernel (complete_read r ev) = served (ntsync_objects ev) (kernel ev) r /\
  ntsync_objects (complete_read r ev) = ntsync_objects ev.
Proof.
  unfold complete_read, served, on_kernel. destruct (recv_nb (pipe_fd r) (apr_max_bytes r) (kernel ev)) as [k [d|e]]; [|done].
  unfold signal_pipe_wait. by rewrite Completion.set_event_eq.
Qed.

Lemma finish_kernel rs ev : kernel (finish rs ev) = fold_left (served (ntsync_objects ev)) rs (kernel ev) /\ ntsync_objects (finish rs ev) = ntsync_objects ev.
Proof.
  revert ev; induction rs as [|r rs IH]; intros ev; [done|]. cbn [finish fold_left]. fold (finish rs (complete_read r ev)).
  destruct (complete_read_kernel r ev) as [Hk Ho]. destruct (IH (complete_read r ev)) as [-> ->]. by rewrite Hk, Ho.
Qed.

Lemma take_completed_first pid c l1 r l2 : (forall x, x ∈ l1 -> ~ (cpr_pid x = pid /\ cpr_client_fd x = c)) ->
  cpr_pid r = pid -> cpr_client_fd r = c -> Sync.take_completed pid c (l1 ++ r :: l2) = Some (r, l1 ++ l2).
Proof.
  intros Hl Hp Hc. induction l1 as [|x l1 IH]; cbn [app Sync.take_completed]; [by rewrite decide_True|].
  rewrite decide_False by (apply Hl; by left). by rewrite IH by (intros y Hy; apply Hl; by right).
Qed.

(** The check after bytes have arrived at one pending read: it is among the
    completed ones, with as much as it asked for, and the rest waits in the pipe. *)
Lemma check_delivers ev pre r post j data : pending_pipe_reads ev = pre ++ r :: post ->
  socket (pipe_fd r) (kernel ev) = Some j -> queue j (kernel ev) = data -> data <> [] -> 0 < apr_max_bytes r ->
  (forall r', r' ∈ pre ++ post -> socket (pipe_fd r') (kernel ev) <> Some j) ->
  exists ev' l1 l2, check_pending_pipe_reads ev = Ret ev' /\ clients ev' = clients ev /\ completed_ioctls ev' = completed_ioctls ev /\
    queue j (kernel ev') = drop (Z.to_nat (apr_max_bytes r)) data /\
    (exists kr others, (forall r', r' ∈ others -> r' ∈ pre ++ post) /\ kernel ev' = fold_left (served (ntsync_objects ev')) others
       (set_all (option_list (fst <$> ntsync_objects ev' !! (apr_pid r, apr_wait_handle r))) kr)) /\
    completed_pipe_reads ev' = completed_pipe_reads ev ++ l1 ++ mkCompletedPipeRead (apr_client_fd r) (take (Z.to_nat (apr_max_bytes r)) data) (apr_pid r) :: l2 /\
    forall c, c ∈ l1 -> exists r', r' ∈ pre ++ post /\ cpr_pid c = apr_pid r' /\ cpr_client_fd c = apr_client_fd r'.
Proof.
  intros Hl Hs Hq Hne Hmax Hoth. pose proof (check_pending_exact ev) as Hchk. cbn zeta in Hchk. rewrite Hl in Hchk.
  destruct (poll_all_ready pre r post (kernel ev) j Hs) as (pre' & post' & Hsel & Hpre & Hpost); [by rewrite Hq|].
  pose proof (poll_all_same (pre ++ r :: post) (kernel ev)) as [Hs1 Hi1]. destruct (poll_all (pre ++ r :: post) (kernel ev)) as [k flags].
  cbn [fst snd] in *. rewrite Hsel, reverse_app, reverse_cons, <- app_assoc in Hchk. unfold finish in Hchk. rewrite !fold_left_app in Hchk.
  set (ev1 := ev <| kernel := k |>) in *.
  destruct (finish_others j (reverse post') ev1) as (Hs2 & Hq2 & Hc2 & Hi2 & la & Hla & Hina).
  { intros r' Hr'%elem_of_reverse. change (kernel ev1) with k. rewrite Hs1. apply Hoth. set_solver. }
  fold (finish (reverse post') ev1) in Hchk. set (ev2 := finish (reverse post') ev1) in *. cbn [fold_left] in Hchk.
  assert (queue j (kernel ev2) = data) as Hd2 by (rewrite Hq2, <- Hq; apply Hi1).
  destruct (recv_data (pipe_fd r) j (apr_max_bytes r) (kernel ev2)) as (k3 & Hrecv & Hrest); [rewrite Hs2; change (kernel ev1) with k; by rewrite Hs1|by rewrite Hd2|done|].
  pose proof (recv_socket (pipe_fd r) (apr_max_bytes r) (kernel ev2)) as Hsk. rewrite Hrecv in Hsk. cbn [fst] in Hsk. rewrite Hd2 in Hrecv, Hrest.
  destruct (complete_read_done r ev2 k3 _ Hrecv) as ([Hs3 Hi3] & Hc3 & Hio3 & Hd3). set (ev3 := complete_read r ev2) in *.
  destruct (finish_others j (reverse pre') ev3) as (Hs4 & Hq4 & Hc4 & Hi4 & lb & Hlb & Hinb).
  { intros r' Hr'%elem_of_reverse. rewrite Hs3, Hsk, Hs2. change (kernel ev1) with k. rewrite Hs1. apply Hoth. set_solver. }
  fold (finish (reverse pre') ev3) in Hchk. eexists _, la, lb. split; [exact Hchk|]. split_and!; [by transitivity (clients ev3); [|rewrite Hc3, Hc2]|by transitivity (completed_ioctls ev3); [|rewrite Hio3, Hi2]| | | |].
  - transitivity (queue j (kernel ev3)); [done|]. rewrite (proj1 (proj2 (Hi3 j))). done.
  - destruct (finish_kernel (reverse pre') ev3) as [K4 O4]. destruct (complete_read_kernel r ev2) as [K3 O3]. fold ev3 in K3, O3.
    exists k3, (reverse pre'). split; [intros r' Hr'%elem_of_reverse; set_solver|]. cbn. rewrite K4, O4, K3, O3. unfold served at 2. by rewrite Hrecv.
  - transitivity (completed_pipe_reads (finish (reverse pre') ev3)); [done|]. rewrite Hlb, Hd3, Hla. change (completed_pipe_reads ev1) with (completed_pipe_reads ev). by rewrite <- !app_assoc.
  - intros c Hc. destruct (Hina c Hc) as (r' & Hr'%elem_of_reverse & E). exists r'. split; [set_solver|done].
Qed.


End Delivery.
End handlers.
End FileIo.

(** ** Sockets of the concrete kernel *)
Section ModelPipes.
Import Ntsync ModelKernel FileIo.

Definition plain (o : Z) (k : MK) : bool := match objects k !! o with Some KPlain => true | _ => false end.
#[export] Instance model_pipes : PipeView MK := {
  socket := fun f k => files k !! f ≫= fun o => if plain o k then Some o else None;
  peer := fun o k => peers k !! o ≫= fun p => if plain p k then Some p else None;
  queue := fun o k => if plain o k then default [] (streams k !! o) else [];
  room := fun o k => (CAPACITY - length (default [] (streams k !! o)))%nat;
}.

Lemma socket_file f i k : socket f k = Some i -> files k !! f = Some i /\ plain i k = true.
Proof. cbn. destruct (files k !! f) as [o|]; cbn; [|done]. destruct (plain o k) eqn:Hp; [|done]. by intros [= <-]. Qed.

Lemma same_pipes_objects k (k' : MK) : peers k' = peers k -> streams k' = streams k ->
  (forall o, plain o k' = plain o k) -> (forall f, socket f k' = socket f k) -> same_pipes k k'.
Proof. intros Hp Hs Hpl Hso. split; [done|]. intros i. cbn. rewrite Hp, Hs. split_and!; [|by rewrite Hpl|done]. destruct (peers k !! i); [|done]. cbn. by rewrite Hpl. Qed.

Lemma put_event_plain f m s m' s' k o : obj f k = Some (KEvent m s) -> plain o (put f (KEvent m' s') k) = plain o k.
Proof.
  unfold obj, put, plain. destruct (files k !! f) as [i|]; [|done]. cbn. intros Hi. destruct (decide (i = o)) as [->|Hne].
  - by rewrite lookup_insert_eq, Hi.
  - by rewrite lookup_insert_ne.
Qed.

#[export] Instance model_pipe_laws : PipeLaws MK.
Proof.
  split.
  - done.
  - intros f i ms k [Hf Hp]%socket_file Hq. cbn in *. rewrite Hf. cbn. rewrite Hp in Hq. apply bool_decide_eq_true. destruct (streams k !! i) as [[|b l]|]; set_solver.
  - intros f i n k [Hf Hp]%socket_file Hq Hn. cbn in *. rewrite Hf, Hp in *. destruct (default [] (streams k !! i)) as [|b l] eqn:Hd; [done|].
    eexists. split; [done|]. unfold plain in *. cbn. rewrite Hp. by rewrite lookup_insert_eq.
  - intros f i n k Hf. cbn. destruct (files k !! f) as [o|] eqn:Ho; [|done]. destruct (default [] (streams k !! o)) as [|b l]; [done|]. cbn.
    unfold plain. cbn. destruct (decide (o = i)) as [->|Hne]; [|by rewrite lookup_insert_ne].
    cbn in Hf. rewrite Ho in Hf. unfold plain in Hf. cbn in Hf. destruct (objects k !! i) as [[]|]; done.
  - intros f n k g. cbn. destruct (files k !! f) as [o|]; [|done]. by destruct (default [] (streams k !! o)).
  - intros f i j bs k [Hf Hp]%socket_file Hj Hbs Hroom. cbn in Hj, Hroom |- *. rewrite Hf. cbn. destruct (peers k !! i) as [p|] eqn:Hpi; [|done]. cbn in Hj.
    destruct (plain p k) eqn:Hpp; [|done]. injection Hj as ->. rewrite decide_False by lia.
    eexists _, _. split; [done|].
    assert (0 < length bs)%nat by (destruct bs; cbn; [done|lia]). unfold blen. rewrite length_take. cbn. rewrite Hpi. unfold plain in *. cbn. rewrite Hpp, lookup_insert_eq. cbn.
    rewrite length_app, length_take. split_and!; [lia|lia| |lia|done|done].
    rewrite Nat2Z.id. f_equal. symmetry. rewrite <- take_take. f_equal. by apply take_ge.
  - intros m s k. destruct (slot_fresh k) as [Hf Ho]. set (n := slot k) in *.
    assert (forall o, plain o (create_event m s k).1 = plain o k) as Hpl.
    { intros o. cbn. fold n. unfold plain. cbn. destruct (decide (n = o)) as [<-|Hne]; [by rewrite lookup_insert_eq, Ho|by rewrite lookup_insert_ne]. }
    apply same_pipes_objects; [done|done|done|]. intros f. cbn -[slot]. fold n. destruct (decide (n = f)) as [<-|Hne].
    + rewrite lookup_insert_eq, Hf. cbn. unfold plain. cbn. by rewrite lookup_insert_eq.
    + rewrite lookup_insert_ne by done. destruct (files k !! f) as [o|]; [|done]. cbn. specialize (Hpl o). cbn in Hpl. fold n in Hpl. by rewrite Hpl.
  - intros f k. cbn. unfold update_event. destruct (obj f k) as [[m s| | |]|] eqn:Hobj; try done. cbn [fst].
    assert (files (put f (KEvent m 1) k) = files k /\ peers (put f (KEvent m 1) k) = peers k /\ streams (put f (KEvent m 1) k) = streams k) as (E1 & E2 & E3).
    { unfold put. by destruct (files k !! f). }
    apply same_pipes_objects; [done|done| |].
    + intros o. exact (put_event_plain f m s m 1 k o Hobj).
    + intros g. cbn. rewrite E1. destruct (files k !! g) as [o|]; [|done]. cbn. by rewrite (put_event_plain f m s m 1 k o Hobj).
Qed.

End ModelPipes.

(** ** Concrete pipes *)
Module FilesDemo.
Import Text Replies Ntsync ModelKernel HandleTable ServerState Loop LoopDemo CompletionDemo HandlesDemo Sync SyncDemo PipesDemo FileIo.
Local Notation lit := Registry.lit.

#[export] Instance demo_protocol : FileIo.Protocol := {
  layout := fun r => match r with ReadReply h wait _ => [error h; wait] | WriteReply h _ _ size => [error h; size] | _ => [] end;
  alloc_file_handle_request := w2;
  create_file_request := fields 3 (fun b => mkCreateFile (word_at 0 b) (word_at 1 b) (word_at 2 b));
  read_request := fields 10 (fun b => slice 12 40 b);
  write_request := fields 10 (fun b => slice 12 40 b);
  get_file_info_request := w2;
  open_file_object_request := w2;
  set_fd_eof_info_request := w2;
}.

(** A read or a write: the handle and the user's pointer, then the data. *)
Definition io (handle user : Z) (data : list Z) : list Z := request_var [handle; 0; 0; 0; user; 0; 0; 0; 0; 0] data.

(** Process 40 is connected to the pipe of process 32, which waits for data. *)
Definition connected_loop : EventLoop MK := (Pipes.try_connect_named_pipe 9 (lit "svc") 0xC0000000 0 served_loop).1.
Definition reading_loop : EventLoop MK := (handle_read 7 (io 8 0x900 []) connected_loop).1.
Definition writer : Process := default process_new (processes (state reading_loop) !! 40).

Lemma writer_wf : HandleTable.wf (handles writer) /\ has_room writer.
Proof.
  split; [|vm_compute; split; congruence].
  destruct (allocate_full_spec HandleTable.new (with_fd 4098 7 Pipes.FD_TYPE_DEVICE 1180063 32) table_new_wf) as (t & Ht & Hwf & _ & _); [vm_compute; reflexivity|].
  assert (t = handles writer) as <-; [|exact Hwf]. apply (f_equal fst) in Ht. cbn [fst] in Ht. rewrite <- Ht. vm_compute. reflexivity.
Qed.

Definition waiting : AsyncPipeRead := mkAsyncPipeRead 5 65536 32 12 7.

(** ** Where the code departs from what it means to do *)

(** A write to a full pipe is tried again for ever: the daemon, which alone could
    read the other end for a client, never returns. *)
Theorem full_pipe_write_hangs fuel : handle_write fuel 9 (io 4 0 (replicate 65 1)) connected_loop = OutOfFuel.
Proof.
  set (buf := io 4 0 (replicate 65 1)).
  assert (write_request buf = Some (slice 12 40 buf) /\ open_entry 9 (get_u32 (slice 12 40 buf) 0) connected_loop = Some (7, 8, 32) /\
    Atoms.vararg_of buf = 1 :: replicate 64 1) as (Hr & He & Hd) by (vm_compute; done).
  assert (exists k, write_file 7 (1 :: replicate 64 1) (kernel connected_loop) = (k, inl 64) /\ write_file 7 [1] k = (k, inr EAGAIN)) as (k & H1 & H2).
  { eexists. split; vm_compute; reflexivity. }
  unfold handle_write. clearbody buf. rewrite Hr. cbn zeta. rewrite He, Hd, decide_False by discriminate.
  destruct fuel as [|fuel]; [reflexivity|]. cbn [write_loop]. rewrite H1, decide_True by lia.
  change (drop (Z.to_nat 64) (1 :: replicate 64 1)) with [1]. by rewrite write_loop_full.
Qed.

(** What a run leaves in the tables of the reads. *)
Definition tables (o : outcome (EventLoop MK * Reply)) : option (list AsyncPipeRead * list CompletedPipeRead * option PendingRead) :=
  match o with Ret (ev, _) => Some (pending_pipe_reads ev, completed_pipe_reads ev, pending_reads ev !! (32, 0x900)) | _ => None end.

(** Of two reads that wait on one pipe, the later one gets the data; the earlier
    one is forgotten. *)
Theorem earlier_read_lost :
  let ev := (handle_read 7 (io 8 0xA00 []) reading_loop).1 in
  pending_pipe_reads ev = [waiting; waiting] /\
  (fun t => (t.1.1, length t.1.2)) <$> tables (handle_write 10 9 (io 4 0 [1; 2; 3]) ev) = Some ([], 1%nat).
Proof. vm_compute. done. Qed.

(** A read that has been completed stays in the table of [get_async_result]. *)
Theorem completed_read_kept :
  snd <$> tables (handle_write 10 9 (io 4 0 [1; 2; 3]) reading_loop) = Some (Some (mkPendingRead 5 65536)).
Proof. vm_compute. done. Qed.

(** Results are kept by client and not by read: of two pipes, the one that got data
    first answers the question about the other. *)
Definition two_reads : EventLoop MK :=
  let ev := (Pipes.try_connect_named_pipe 9 (lit "a") 0 0 two_pipes).1 in
  let ev := (Pipes.try_connect_named_pipe 9 (lit "b") 0 0 ev).1 in
  let ev := (handle_read 7 (io 8 0x900 []) ev).1 in
  (handle_read 7 (io 12 0xA00 []) ev).1.
Theorem results_crossed :
  (w <-! handle_write 10 9 (io 4 0 [1; 1; 1]) two_reads ;;
   w <-! handle_write 10 9 (io 8 0 [2; 2; 2]) w.1 ;;
   Ret (handle_get_async_result 7 (request [0xA00]) w.1).2) = Ret (reply_vararg [] [1; 1; 1]).
Proof. vm_compute. done. Qed.

End FilesDemo.
