(* ===== verification/Daemon.v ===== *)
(** * The two threads of the daemon ([src/rust/src/triskelion/csp_loop.rs])

    The authority owns the state of the event loop: it takes messages off a
    channel, dispatches requests and sends replies with effects back, and keeps
    house every fifty milliseconds.  The I/O thread owns the descriptors: it waits
    for events, forwards requests ([Csp]) and carries out replies.  What system
    calls return is an input of the I/O thread's steps, except for the calls on
    descriptors, which are the interfaces of [Loop] and [Threads]. *)

From stdpp Require Import base list gmap strings.
From coqutil Require Import Datatypes.RecordSettersUsingExistingGetters.
From S2P Require Import Prelude Shm SentMessages Objects SideTables Dispatch Csp Registry Loop Completion Session Client Sync Threads Messages Files.
Local Open Scope Z_scope.
Local Open Scope outcome_scope.

Module Daemon.
Import Replies Ntsync Ipc ServerState Loop Session Memory Seqlock.

(** ** Messages between the threads *)
Inductive Effect : Type :=
| RegisterClient (request_fd msg_fd : Z) (is_msg_primary : bool)
| SendFd (target_fd fd_to_send protocol_version : Z)
| WatchPipeFd (pipe_fd ntsync_fd : Z)
| WatchQueueFd (queue_fd : Z) (shm_ptr : option Z) (queue_handle ntsync_event_fd : Z)
| RearmQueueFd (queue_fd : Z).

Record ReplyMsg : Type := mkReplyMsg {
  rm_client_fd : Z; rm_reply : list Z; rm_reply_fd : option Z; rm_effects : list Effect }.

Definition TICK_MS : Z := 50.
Definition NS_PER_MS : Z := 1000000.
Definition NS_PER_S : Z := 1000000000.
Definition QS_DRIVER : Z := 0x80000000.

(** ** The authority *)

(** [loop] is the state of the event loop with the fields of the dispatcher. *)
Record Authority {K : Type} : Type := mkAuthority {
  loop : Dispatch.EventLoop (EventLoop K);
  known_io_fds : gset Z;
  tick_count : Z;
  last_housekeep : Z;
  shutdown : bool;
}.
Arguments Authority : clear implicits.

(** The clock readings of one housekeeping. *)
Record Clocks : Type := mkClocks { at_waits : Z; at_win_timers : Z; at_nt_timers : Z; at_usd : Z * Z; at_linger : Z }.

Section authority.
Context {K : Type} `{Ntsync K, Sockets K}.
Context (OPCODE_META : list Dispatch.OpcodeMeta) (from_i32 : Z -> option nat).
Context (dispatch_request : nat -> Dispatch.EventLoop (EventLoop K) -> Z -> list Z -> Dispatch.EventLoop (EventLoop K) * option Reply).
Implicit Types (ev : EventLoop K) (a : Authority K) (d : Dispatch.EventLoop (EventLoop K)).

Definition with_rest (f : EventLoop K -> EventLoop K) d : Dispatch.EventLoop (EventLoop K) :=
  Dispatch.mkLoop (Dispatch.protocol_remap d) (Dispatch.opcode_counts d) (Dispatch.opcode_time_ns d) (Dispatch.total_dispatch_ns d)
    (Dispatch.total_requests d) (Dispatch.intel d) (f (Dispatch.rest d)).
Definition state_of a : EventLoop K := Dispatch.rest (loop a).
Definition with_loop d a : Authority K := mkAuthority _ d (known_io_fds a) (tick_count a) (last_housekeep a) (shutdown a).
Definition with_known s a : Authority K := mkAuthority _ (loop a) s (tick_count a) (last_housekeep a) (shutdown a).

(** A connection the I/O thread has accepted. *)
Definition register (fd msg_fd : Z) a : Authority K :=
  match clients (state_of a) !! fd with
  | Some _ => a
  | None =>
      with_known (known_io_fds a ∪ {[fd]})
        (with_loop (with_rest (fun ev => Threads.track_peak (ev <| clients ::= <[fd := Ipc.new fd msg_fd]> |>)) (loop a)) a)
  end.

(** A connection that has ended; without clients the daemon lingers. *)
Definition start_linger (now linger_secs total_requests : Z) ev : EventLoop K :=
  if decide (clients ev = ∅) then
    if decide (linger_deadline ev = None /\ 0 < total_requests) then ev <| linger_deadline := Some (now + linger_secs * NS_PER_S) |> else ev
  else ev <| linger_deadline := None |>.

Definition disconnect (now linger_secs fd : Z) a : outcome (Authority K) :=
  r <-! Client.disconnect_client now fd (state_of a) ;;
  Ret (with_known (known_io_fds a ∖ {[fd]})
         (with_loop (with_rest (fun _ => start_linger now linger_secs (Dispatch.total_requests (loop a)) r.1) (loop a)) a)).

(** Descriptors that came with the request, kept for the handlers. *)
Definition entry_of (i : Csp.Inflight) : Z * Z * Z := (Csp.if_tid i, Csp.if_num i, Csp.if_fd i).
Definition deposit (fd : Z) (l : list Csp.Inflight) ev : EventLoop K :=
  match l with
  | [] => ev
  | _ =>
      let pid := client_pid ev fd in
      if decide (pid <> 0) then ev <| process_inflight_fds ::= fun m => <[pid := default [] (m !! pid) ++ map entry_of l]> m |>
      else ev <| clients ::= alter (fun c => c <| Ipc.inflight_fds ::= fun q => q ++ map entry_of l |>) fd |>
  end.

(** Clients that the handlers made and the I/O thread does not know. *)
Definition new_clients (known : gset Z) ev : list (Z * Client) :=
  filter (fun fc => is_phantom fc.2 = false /\ fc.1 ∉ known) (map_to_list (clients ev)).
Definition register_effect (fc : Z * Client) : Effect := RegisterClient fc.1 (msg_fd fc.2) (is_msg_primary fc.2).

(** A descriptor for the client goes over its socket. *)
Definition take_pending_fd (fd : Z) ev : EventLoop K * list Effect :=
  match clients ev !! fd with
  | Some c =>
      match pending_fd c with
      | Some (f, version) =>
          let ev := ev <| clients ::= <[fd := c <| pending_fd := None |>]> |> in
          if decide (0 <= msg_fd c) then (ev, [SendFd (msg_fd c) f version]) else (ev <| kernel ::= close_fd f |>, [])
      | None => (ev, [])
      end
  | None => (ev, [])
  end.

Definition drain_watches ev : EventLoop K * list Effect :=
  let u := user_state ev in
  (ev <| pending_pipe_watches := [] |> <| user_state ::= fun u => u <| pending_queue_fd_watches := [] |> <| pending_queue_fd_rearms := [] |> |>,
   map (fun '(p, n) => WatchPipeFd p n) (pending_pipe_watches ev) ++
   map (fun '(q, ptr, h, n) => WatchQueueFd q ptr h n) (pending_queue_fd_watches u) ++
   map RearmQueueFd (pending_queue_fd_rearms u)).

Definition process_dispatch (t0 t1 : Z) (msg : Csp.RequestMsg) a : outcome (Authority K * ReplyMsg) :=
  let fd := Csp.client_fd msg in
  let d := with_rest (deposit fd (Csp.inflight_fds msg)) (loop a) in
  let clients_before := size (clients (Dispatch.rest d)) in
  r <-! Dispatch.dispatch OPCODE_META from_i32 dispatch_request fd (Csp.req (Csp.header msg)) (Csp.msg_buf msg) t0 t1 d ;;
  let '(d, reply) := r in
  let ev := Dispatch.rest d in
  let fresh := if decide (clients_before < size (clients ev))%nat then new_clients (known_io_fds a) ev else [] in
  let '(ev, send) := take_pending_fd fd ev in
  let '(ev, watches) := drain_watches ev in
  Ret (with_known (known_io_fds a ∪ list_to_set fresh.*1) (with_loop (with_rest (fun _ => ev) d) a),
       mkReplyMsg fd (serialize reply) (clients ev !! fd ≫= reply_fd) (map register_effect fresh ++ send ++ watches)).

Definition process_request (now linger_secs t0 t1 : Z) (msg : Csp.RequestMsg) a : outcome (Authority K * option ReplyMsg) :=
  match Csp.route msg with
  | Csp.RRegister => Ret (register (Csp.client_fd msg) (Csp.new_msg_fd msg) a, None)
  | Csp.RDisconnect => a <-! disconnect now linger_secs (Csp.client_fd msg) a ;; Ret (a, None)
  | Csp.RDispatch => r <-! process_dispatch t0 t1 msg a ;; Ret (r.1, Some r.2)
  end.

(** ** Housekeeping *)
Definition or_stuck {A} (o : option A) : outcome A := match o with Some x => Ret x | None => OutOfFuel end.

Definition housekeep (now : Z) (c : Clocks) a : outcome (Authority K) :=
  ev <-! Sync.check_pending_waits (at_waits c) (state_of a) ;;
  ev <-! FileIo.check_pending_pipe_reads ev ;;
  ev <-! or_stuck (Messages.check_win_timers (at_win_timers c) ev) ;;
  ev <-! Completion.check_nt_timers (at_nt_timers c) ev ;;
  let ev := update_usd_time (at_usd c) ev in
  let expired := match linger_deadline ev with Some deadline => bool_decide (deadline <= at_linger c) | None => false end in
  Ret (mkAuthority _ (with_rest (fun _ => ev) (loop a)) (known_io_fds a) (u64 (tick_count a + 1)) now (shutdown a || expired)).

(** The end of a round: nothing before the interval is over. *)
Definition after_requests (now : Z) (c : Clocks) a : outcome (Authority K) :=
  if decide (now - last_housekeep a < TICK_MS * NS_PER_MS) then Ret a else housekeep now c a.

(** *** What it does *)

(** What none of the checks changes. *)
Definition same_core ev ev' : Prop := clients ev' = clients ev /\ state ev' = state ev /\ linger_deadline ev' = linger_deadline ev.
Lemma same_core_trans ev1 ev2 ev3 : same_core ev1 ev2 -> same_core ev2 ev3 -> same_core ev1 ev3.
Proof. intros (?&?&?) (?&?&?). split_and!; congruence. Qed.

Lemma waits_checked now ev : exists ev', Sync.check_pending_waits now ev = Ret ev' /\ same_core ev ev' /\
  Forall (fun w => now < deadline w) (pending_waits ev').
Proof.
  unfold Sync.check_pending_waits. case_decide as Hw; [exists ev; rewrite Hw; by split_and!|].
  destruct (Sync.wake_loop_spec (length (pending_waits ev)) now ev) as (pp & rest & -> & _ & _ & _ & Hrest); [done|]. cbn [obind].
  eexists. split; [done|]. by split_and!.
Qed.

Lemma finish_keeps rs ev : same_core ev (FileIo.finish rs ev) /\ pending_waits (FileIo.finish rs ev) = pending_waits ev.
Proof.
  revert ev; induction rs as [|r rs IH]; intros ev; [done|]. cbn [FileIo.finish fold_left]. fold (FileIo.finish rs (FileIo.complete_read r ev)).
  destruct (IH (FileIo.complete_read r ev)) as [Hc Hw].
  assert (same_core ev (FileIo.complete_read r ev) /\ pending_waits (FileIo.complete_read r ev) = pending_waits ev) as [Hc' Hw'].
  { unfold FileIo.complete_read, on_kernel. destruct (recv_nb _ _ _) as [k [d|e]]; [|done].
    unfold FileIo.signal_pipe_wait, set_event. destruct (ntsync_objects _ !! _) as [[o t]|]; done. }
  split; [by eapply same_core_trans|congruence].
Qed.

Lemma pipe_reads_checked ev : exists ev', FileIo.check_pending_pipe_reads ev = Ret ev' /\ same_core ev ev' /\ pending_waits ev' = pending_waits ev.
Proof.
  pose proof (FileIo.check_pending_exact ev) as Hc. cbn zeta in Hc. destruct (FileIo.poll_all (pending_pipe_reads ev) (kernel ev)) as [k flags].
  eexists. split; [exact Hc|]. pose proof (finish_keeps (reverse (FileIo.select true flags (pending_pipe_reads ev))) (ev <| kernel := k |>)) as [(H1' & H2' & H3') H4'].
  by split_and!.
Qed.

Lemma expire_keeps now l ev ev' : Messages.expire_threads now l ev = Some ev' -> same_core ev ev' /\ pending_waits ev' = pending_waits ev.
Proof.
  revert ev; induction l as [|[tid timers] l IH]; intros ev; cbn [Messages.expire_threads]; [by intros [= <-]|].
  unfold Messages.expire_thread. destruct (Messages.expire_loop _ _ _ _ _) as [[rest fired]|]; [|done]. cbn [mbind option_bind].
  intros [Hc Hw]%IH. destruct fired; [done|]. done.
Qed.

Lemma wake_keeps l ev : let ev' := fold_left (fun ev tid => Messages.wake_timer_thread tid ev) l ev in
  same_core ev ev' /\ pending_waits ev' = pending_waits ev.
Proof.
  revert ev; induction l as [|tid l IH]; intros ev; [done|]. cbn [fold_left]. destruct (IH (Messages.wake_timer_thread tid ev)) as [Hc Hw].
  assert (same_core ev (Messages.wake_timer_thread tid ev) /\ pending_waits (Messages.wake_timer_thread tid ev) = pending_waits ev) as [Hc' Hw'].
  { unfold Messages.wake_timer_thread. destruct (find_client tid ev) as [[? c]|]; [|done]. case_decide; [|done].
    unfold set_event. destruct (ntsync_objects ev !! _) as [[o t]|]; done. }
  cbn zeta in *. split; [by eapply same_core_trans|congruence].
Qed.

Lemma win_timers_checked now ev : exists ev', Messages.check_win_timers now ev = Some ev' /\ same_core ev ev' /\ pending_waits ev' = pending_waits ev /\
  forall tid, Forall (fun t => ~ Messages.due now t) (Messages.timers_at (win_timers_pending ev') tid).
Proof.
  unfold Messages.check_win_timers. set (all := map_to_list (win_timers_pending ev)). cbn zeta.
  destruct (Messages.expire_all now all ev) as (ev1 & He & Ht); [apply NoDup_fst_map_to_list|intros k ts Hx; by apply elem_of_map_to_list|].
  rewrite He. cbn [mbind option_bind]. eexists. split; [done|]. destruct (expire_keeps _ _ _ _ He) as [Hc Hw].
  match goal with |- context [fold_left _ ?w ev1] => destruct (wake_keeps w ev1) as [Hc' Hw']; destruct (Messages.wake_timers_keep w ev1) as [Hp _] end.
  cbn zeta in *. split_and!; [by eapply same_core_trans|congruence|]. intros tid. rewrite Hp. destruct (Ht tid) as [-> _].
  case_decide as Hin; [apply Forall_forall; by intros t [Hd _]%list_elem_of_filter|].
  assert (win_timers_pending ev !! tid = None) as Hn.
  { apply eq_None_not_Some. intros [ts Hts]. apply Hin, list_elem_of_fmap. exists (tid, ts). split; [done|]. by apply elem_of_map_to_list. }
  unfold Messages.timers_at. by rewrite Hn.
Qed.

Lemma nt_timers_checked now ev : exists ev', Completion.check_nt_timers now ev = Ret ev' /\ same_core ev ev' /\ pending_waits ev' = pending_waits ev /\
  win_timers_pending ev' = win_timers_pending ev /\ Forall (fun t => ~ Completion.expired now t) (nt_timers ev').
Proof.
  unfold Completion.check_nt_timers. destruct (Completion.check_loop_spec (length (nt_timers ev)) now 0 ev) as (l & fds & -> & Hl & _); [lia|].
  eexists. split; [done|]. split_and!; try done. rewrite take_0, drop_0 in Hl. cbn [app] in Hl.
  change (Forall (fun t => ~ Completion.expired now t) l). apply Forall_forall. intros t Ht. rewrite Hl in Ht. apply list_elem_of_omap in Ht as (t0 & _ & Ht0).
  apply Completion.tick_not_expired in Ht0. unfold Completion.expired. lia.
Qed.

Lemma housekeep_run now c a :
  exists ev', same_core (state_of a) ev' /\ Forall (fun w => at_waits c < deadline w) (pending_waits ev') /\
    (forall tid, Forall (fun t => ~ Messages.due (at_win_timers c) t) (Messages.timers_at (win_timers_pending ev') tid)) /\
    Forall (fun t => ~ Completion.expired (at_nt_timers c) t) (nt_timers ev') /\
    let expired := match linger_deadline (state_of a) with Some deadline => bool_decide (deadline <= at_linger c) | None => false end in
    housekeep now c a = Ret (mkAuthority _ (with_rest (fun _ => ev') (loop a)) (known_io_fds a) (u64 (tick_count a + 1)) now (shutdown a || expired)).
Proof.
  unfold housekeep. destruct (waits_checked (at_waits c) (state_of a)) as (ev1 & -> & C1 & W1). cbn [obind].
  destruct (pipe_reads_checked ev1) as (ev2 & -> & C2 & W2). cbn [obind].
  destruct (win_timers_checked (at_win_timers c) ev2) as (ev3 & -> & C3 & W3 & T3). cbn [or_stuck obind].
  destruct (nt_timers_checked (at_nt_timers c) ev3) as (ev4 & -> & C4 & W4 & P4 & N4). cbn [obind].
  set (ev5 := update_usd_time (at_usd c) ev4).
  assert (same_core ev4 ev5 /\ pending_waits ev5 = pending_waits ev4 /\ win_timers_pending ev5 = win_timers_pending ev4 /\ nt_timers ev5 = nt_timers ev4) as (C5 & W5 & P5 & N5).
  { unfold ev5, update_usd_time. by destruct (usd_mapped ev4). }
  assert (same_core (state_of a) ev5) as Hcore by (eauto using same_core_trans). pose proof Hcore as (_ & _ & Hli).
  exists ev5. split_and!; [done|by rewrite W5, W4, W3, W2| |by rewrite N5|by rewrite <- Hli]. intros tid. rewrite P5, P4. apply T3.
Qed.

(** C9: housekeeping ends and leaves nothing undone.  Whatever is pending, one
    round of checks returns; after it no timed wait is overdue, no timer of a
    thread or of a handle is due, the clients and the objects are as before, and
    the daemon is told to stop exactly when it was before or the linger deadline
    has passed. *)
Theorem housekeeping_complete now c a :
  exists a', housekeep now c a = Ret a' /\ let ev := state_of a in let ev' := state_of a' in
    clients ev' = clients ev /\ state ev' = state ev /\ known_io_fds a' = known_io_fds a /\
    Forall (fun w => at_waits c < deadline w) (pending_waits ev') /\
    (forall tid, Forall (fun t => ~ Messages.due (at_win_timers c) t) (Messages.timers_at (win_timers_pending ev') tid)) /\
    Forall (fun t => ~ Completion.expired (at_nt_timers c) t) (nt_timers ev') /\
    (shutdown a' = true <-> shutdown a = true \/ exists deadline, linger_deadline ev = Some deadline /\ deadline <= at_linger c).
Proof.
  destruct (housekeep_run now c a) as (ev' & (Hc & Hs & _) & Hw & Ht & Hn & Hr). eexists. split; [exact Hr|].
  cbn [state_of loop with_rest Dispatch.rest known_io_fds shutdown]. split_and!; [done..|].
  rewrite orb_true_iff. destruct (linger_deadline (state_of a)) as [d|].
  - rewrite bool_decide_eq_true. split; [intros [?|?]; eauto|]. intros [?|(d' & [= <-] & ?)]; auto.
  - split; [intros [?|?]; [auto|done]|]. intros [?|(d' & ? & _)]; [auto|done].
Qed.

End authority.

(** ** The I/O thread *)

(** The tables of [Csp] and those of the watchers; [armed] are the descriptors
    that [epoll_wait] reports. *)
Record IoThread : Type := mkIoThread {
  io : Csp.Io; armed : gset Z; pipe_watchers : gmap Z Z; queue_fd_watchers : gmap Z (option Z * Z) }.
Definition with_io (i : Csp.Io) (s : gset Z) (st : IoThread) : IoThread := mkIoThread i s (pipe_watchers st) (queue_fd_watchers st).

(** The descriptors the thread starts with. *)
Record StaticFds : Type := mkStaticFds { listener_fd : Z; sigfd : Z; shutdown_read : Z; wake_read : Z; death_fd : Z }.
Definition io_start (fds : StaticFds) : IoThread :=
  mkIoThread Csp.io_new ({[listener_fd fds; sigfd fds; shutdown_read fds; wake_read fds]} ∪ (if decide (0 <= death_fd fds) then {[death_fd fds]} else ∅)) ∅ ∅.

(** What the system calls of one event return: [accept4], the [read] of the
    signal and of the client, and the [recvmsg] loops. *)
Record Input : Type := mkInput { in_accepted : Z; in_signal : Z; in_data : list Z; in_env : list (list Csp.Datagram) }.

(** The driver bit of a queue object, under its sequence lock; a null pointer is
    not checked for. *)
Definition on_driver_bit (f : Z -> Z) (ptr : option Z) (m : mem) : outcome mem :=
  match ptr with
  | Some off => Ret (write_end off [fun m => write32 (off + 16 + 24) (f (read32 (off + 16 + 24) m)) m] m)
  | None => Panic
  end.
Definition set_driver (bits : Z) : Z := Z.lor bits QS_DRIVER.
Definition clear_driver (bits : Z) : Z := Z.land bits (Z.lxor (2 ^ 32 - 1) QS_DRIVER).

Section io_thread.
Context {K : Type} `{Ntsync K, Channels K, Files K}.
Implicit Types (st : IoThread) (k : K) (m : mem).

Definition handle_accept (version accepted : Z) st k : IoThread * K * list Csp.RequestMsg :=
  if decide (accepted < 0) then (st, k, [])
  else
    match pipe2 k with
    | (k, None) => (st, close_fd accepted k, [])
    | (k, Some (rd, wr)) =>
        let '(k, n) := send_fd accepted wr version k in
        if decide (n < 0) then (st, close_all [accepted; rd; wr] k, [])
        else
          let '(k, request_fd) := dup_fd rd (close_fd wr k) in
          let k := close_fd rd k in
          if decide (request_fd < 0) then (st, close_fd accepted k, [])
          else
            let '(msgs, i) := Csp.accept_client request_fd accepted (io st) in
            (with_io i (armed st ∪ {[request_fd; accepted]}) st, k, msgs)
    end.

(** A client's request pipe is readable, or closed: then the descriptors of the
    client leave the tables and are closed. *)
Definition client_readable (fd : Z) (inp : Input) st k : IoThread * K * list Csp.RequestMsg :=
  let '(msgs, i, _) := Csp.handle_client_read fd (in_data inp) (in_env inp) (io st) in
  let gone := drop (length (Csp.closed (io st))) (Csp.closed i) in
  (with_io i (armed st ∖ list_to_set gone) st, close_all gone k, msgs).

(** One event of [epoll_wait]; the flag says that the daemon is to stop. *)
Definition io_event (fds : StaticFds) (version : Z) (fd : Z) (inp : Input) st k m : outcome (IoThread * K * mem * list Csp.RequestMsg * bool) :=
  if decide (fd = listener_fd fds) then let '(st, k, msgs) := handle_accept version (in_accepted inp) st k in Ret (st, k, m, msgs, false)
  else if decide (fd = sigfd fds) then Ret (st, k, m, [], bool_decide (0 < in_signal inp))
  else if decide (fd = shutdown_read fds \/ fd = wake_read fds) then Ret (st, k, m, [], false)
  else if decide (0 <= death_fd fds /\ fd = death_fd fds) then Ret (st, k, m, [], true)
  else if decide (is_Some (Csp.msg_fd_clients (io st) !! fd)) then
    Ret (with_io (Csp.with_pending (Csp.drain_msg_fd fd (default [] (head (in_env inp))) (Csp.pending_fds (io st))) (io st)) (armed st) st, k, m, [], false)
  else if decide (is_Some (Csp.io_clients (io st) !! fd)) then
    let '(st, k, msgs) := client_readable fd inp st k in Ret (st, k, m, msgs, false)
  else
    match queue_fd_watchers st !! fd with
    | Some (ptr, event) =>
        m <-! on_driver_bit set_driver ptr m ;;
        Ret (with_io (io st) (armed st ∖ {[fd]}) st, if decide (0 <= event) then (event_set event k).1 else k, m, [], false)
    | None =>
        match pipe_watchers st !! fd with
        | Some event => Ret (st, (event_set event k).1, m, [], false)
        | None => Ret (st, k, m, [], false)
        end
    end.

(** ** Carrying out replies *)
Definition execute_effect (e : Effect) st k m : outcome (IoThread * K * mem) :=
  match e with
  | RegisterClient request_fd mfd primary =>
      match Csp.io_clients (io st) !! request_fd with
      | Some _ => Ret (st, k, m)
      | None =>
          let sock := if decide (primary = true /\ Csp.msg_fd_clients (io st) !! mfd = None) then {[mfd]} else ∅ in
          Ret (with_io (Csp.register_client request_fd mfd (io st)) (armed st ∪ {[request_fd]} ∪ sock) st, k, m)
      end
  | SendFd target_fd f version => Ret (st, close_fd f (send_fd target_fd f version k).1, m)
  | WatchPipeFd p event =>
      match pipe_watchers st !! p with
      | None => Ret (mkIoThread (io st) (armed st ∪ {[p]}) (<[p := event]> (pipe_watchers st)) (queue_fd_watchers st), k, m)
      | Some old =>
          Ret (mkIoThread (io st) (armed st) (<[p := event]> (pipe_watchers st)) (queue_fd_watchers st),
               if decide (old <> event) then close_fd old k else k, m)
      end
  | WatchQueueFd q ptr _ event =>
      match queue_fd_watchers st !! q with
      | None => Ret (mkIoThread (io st) (armed st ∪ {[q]}) (pipe_watchers st) (<[q := (ptr, event)]> (queue_fd_watchers st)), k, m)
      | Some _ => Ret (st, k, m)
      end
  | RearmQueueFd q =>
      match queue_fd_watchers st !! q with
      | Some (ptr, _) => m <-! on_driver_bit clear_driver ptr m ;; Ret (with_io (io st) (armed st ∪ {[q]}) st, k, m)
      | None => Ret (st, k, m)
      end
  end.

Fixpoint execute_effects (es : list Effect) st k m : outcome (IoThread * K * mem) :=
  match es with
  | [] => Ret (st, k, m)
  | e :: es => r <-! execute_effect e st k m ;; let '(st, k, m) := r in execute_effects es st k m
  end.

(** The loop over partial writes; an error ends it. *)
Fixpoint write_reply (fuel : nat) (target : Z) (data : list Z) k : outcome K :=
  match fuel with
  | O => OutOfFuel
  | S fuel =>
      match data with
      | [] => Ret k
      | _ =>
          match write_file target data k with
          | (k, inl n) => if decide (0 < n) then write_reply fuel target (drop (Z.to_nat n) data) k else Ret k
          | (k, inr _) => Ret k
          end
      end
  end.

Definition execute_reply (msg : ReplyMsg) st k m : outcome (IoThread * K * mem) :=
  r <-! execute_effects (rm_effects msg) st k m ;;
  let '(st, k, m) := r in
  let '(i, target) := Csp.reply_target (rm_client_fd msg) (rm_reply_fd msg) (io st) in
  k <-! write_reply (S (length (rm_reply msg))) target (rm_reply msg) k ;;
  Ret (with_io i (armed st) st, k, m).

(** The end of the thread. *)
Definition owned_fds st : list Z :=
  (map_to_list (Csp.io_clients (io st))).*1 ++ (map_to_list (Csp.msg_fd_clients (io st))).*1 ++ (map_to_list (pipe_watchers st)).*1 ++
  ((map_to_list (queue_fd_watchers st)) ≫= fun '(q, (_, event)) => q :: (if decide (0 <= event) then [event] else [])).

End io_thread.

(** ** Both threads *)

(** The clients there will be once the authority has worked off the messages about
    connections. *)
Definition settle (c : gset Z) (msg : Csp.RequestMsg) : gset Z :=
  match Csp.route msg with
  | Csp.RRegister => c ∪ {[Csp.client_fd msg]}
  | Csp.RDisconnect => c ∖ {[Csp.client_fd msg]}
  | Csp.RDispatch => c
  end.
Definition settled (c : gset Z) (msgs : list Csp.RequestMsg) : gset Z := fold_left settle msgs c.

(** The clients the I/O thread has been told to register. *)
Definition registered_by (e : Effect) : option Z := match e with RegisterClient fd _ _ => Some fd | _ => None end.
Definition registrations (replies : list ReplyMsg) : list Z := replies ≫= fun r => omap registered_by (rm_effects r).

Definition about (fd : Z) (msg : Csp.RequestMsg) : Prop := Csp.client_fd msg = fd /\ Csp.route msg <> Csp.RDispatch.

Lemma settled_app c l1 l2 : settled c (l1 ++ l2) = settled (settled c l1) l2.
Proof. apply fold_left_app. Qed.

Lemma settled_requests c msgs : Forall (fun msg => Csp.route msg = Csp.RDispatch) msgs -> settled c msgs = c.
Proof. induction 1 as [|msg msgs Hm _ IH]; [done|]. cbn. unfold settle at 2. by rewrite Hm. Qed.

(** Clients nobody writes about are just carried along. *)
Lemma settled_union c n msgs : (forall fd msg, fd ∈ n -> msg ∈ msgs -> ~ about fd msg) -> settled (c ∪ n) msgs = settled c msgs ∪ n.
Proof.
  revert c; induction msgs as [|msg msgs IH]; intros c Hn; [done|]. cbn [settled fold_left]. fold (settled (settle (c ∪ n) msg) msgs).
  assert (settle (c ∪ n) msg = settle c msg ∪ n) as ->.
  { unfold settle. destruct (Csp.route msg) eqn:Hr; [set_solver| |done].
    assert (Csp.client_fd msg ∉ n) as Hout; [|set_solver]. intros Hin. apply (Hn _ msg Hin); [by left|]. split; [done|congruence]. }
  apply IH. intros fd msg' Hfd Hmsg. apply Hn; [done|by right].
Qed.

Section disconnecting.
Context {K : Type} `{Ntsync K}.

Lemma wake_senders_dom tid (ev : EventLoop K) : dom (clients (Client.wake_senders tid ev)) = dom (clients ev).
Proof.
  unfold Client.wake_senders. case_decide; [|done]. destruct (SentMessages.drain_all_for_receiver (sent_messages ev) tid) as [sm senders].
  destruct (Client.wake_all_woken senders (ev <| sent_messages := sm |>)) as (s & c & k & st & -> & _ & Hc).
  apply set_eq. intros f. rewrite !elem_of_dom, <- !not_eq_None_Some. cbn. by rewrite (Hc f).
Qed.

Lemma thread_gone_dom fd pid tid (ev ev' : EventLoop K) : Client.thread_gone fd pid tid ev = Ret ev' -> dom (clients ev') = dom (clients ev) ∖ {[fd]}.
Proof.
  unfold Client.thread_gone. set (ev0 := Client.remove_client fd _).
  assert (clients ev0 = delete fd (clients ev)) as Hc0 by (unfold ev0, Client.remove_client, Client.abandon_mutexes; by case_decide).
  destruct (Client.free_queue tid ev0) as [ev1| |] eqn:Hq; [|done..]. cbn [obind]. intros [= <-].
  assert (clients ev1 = clients ev0) as Hc1.
  { unfold Client.free_queue in Hq. case_decide; [|by injection Hq as <-]. destruct (Shm.free_slot (shm ev0) tid); [|done..]. by injection Hq as <-. }
  set (ev2 := Client.leave_process pid tid _). assert (clients ev2 = clients ev1) as Hc2.
  { unfold ev2, Client.leave_process. by repeat case_decide. }
  transitivity (dom (clients (Client.wake_senders tid ev2))).
  { unfold Client.signal_thread_exit, Client.forget_thread. by case_decide. }
  rewrite wake_senders_dom, Hc2, Hc1, Hc0. apply dom_delete_L.
Qed.

Lemma disconnect_dom now fd (ev ev' : EventLoop K) b : Client.disconnect_client now fd ev = Ret (ev', b) -> dom (clients ev') = dom (clients ev) ∖ {[fd]}.
Proof.
  unfold Client.disconnect_client. destruct (match clients ev !! fd with Some c => _ | None => _ end) as [[pid tid] m].
  destruct (Client.thread_gone fd pid tid ev) as [ev1| |] eqn:Ht; [|done..]. cbn [obind]. rewrite <- (thread_gone_dom _ _ _ _ _ Ht).
  assert (forall A (x y : A), Ret x = Ret y -> x = y) as Hinj by congruence.
  case_decide; intros Hr%Hinj; [|by injection Hr as <- _]. destruct (Client.process_gone_fields now pid m ev1) as (_ & (_ & _ & _ & _ & _ & _ & _ & _ & Hc & _) & _).
  rewrite Hr in Hc. cbn [fst] in Hc. by rewrite Hc.
Qed.
End disconnecting.

Section system.
Context {K : Type} `{Ntsync K, Sockets K, Channels K, Files K}.
Context (OPCODE_META : list Dispatch.OpcodeMeta) (from_i32 : Z -> option nat).
Context (dispatch_request : nat -> Dispatch.EventLoop (EventLoop K) -> Z -> list Z -> Dispatch.EventLoop (EventLoop K) * option Reply).
Context (fds : StaticFds) (version linger_secs : Z).

(** [requests] and [replies] are the two channels, the oldest message first. *)
Record System : Type := mkSystem { authority : Authority K; io_side : IoThread; requests : list Csp.RequestMsg; replies : list ReplyMsg }.
Implicit Types (s : System) (a : Authority K) (st : IoThread).

Definition served st : gset Z := dom (Csp.io_clients (io st)).
Definition connected a : gset Z := dom (clients (state_of a)).

(** The kernel and the session memory are shared. *)
Definition share (k : K) (m : mem) a : Authority K := with_loop (with_rest (fun ev => ev <| kernel := k |> <| session := m |>) (loop a)) a.

(** What an event may bring: a client does not send the codes the threads use
    between themselves, and [dup] returns a number that is not in use. *)
Definition event_fair s (msgs : list Csp.RequestMsg) (fd : Z) : Prop :=
  (fd = listener_fd fds -> Forall (fun msg => Csp.client_fd msg ∉ served (io_side s) /\ Csp.client_fd msg ∉ registrations (replies s)) msgs) /\
  (fd <> listener_fd fds -> Forall (fun msg => Csp.route msg = Csp.RDispatch \/ (Csp.route msg = Csp.RDisconnect /\ Csp.msg_buf msg = [])) msgs).

(** What a handler may do to the clients: it adds some, under numbers that are not
    in use and that no message on its way is about. *)
Definition handlers_fair (s : System) (rest : list Csp.RequestMsg) a' : Prop :=
  connected (authority s) ⊆ connected a' /\ map_Forall (fun _ c => is_phantom c = false) (clients (state_of a')) /\
  forall fd, fd ∈ connected a' -> fd ∉ connected (authority s) ->
    fd ∉ served (io_side s) /\ fd ∉ registrations (replies s) /\ forall msg, msg ∈ rest -> ~ about fd msg.

(** The steps of the two threads, in any order. *)
Inductive step : System -> System -> Prop :=
| step_event s fd inp st' k' m' msgs stop :
    let ev := state_of (authority s) in
    io_event fds version fd inp (io_side s) (kernel ev) (session ev) = Ret (st', k', m', msgs, stop) -> event_fair s msgs fd ->
    step s (mkSystem (share k' m' (authority s)) st' (requests s ++ msgs) (replies s))
| step_reply s msg rest st' k' m' :
    let ev := state_of (authority s) in
    replies s = msg :: rest -> execute_reply msg (io_side s) (kernel ev) (session ev) = Ret (st', k', m') ->
    step s (mkSystem (share k' m' (authority s)) st' (requests s) rest)
| step_process s now t0 t1 msg rest a' o :
    requests s = msg :: rest -> process_request OPCODE_META from_i32 dispatch_request now linger_secs t0 t1 msg (authority s) = Ret (a', o) ->
    (Csp.route msg = Csp.RDispatch -> handlers_fair s rest a') ->
    step s (mkSystem a' (io_side s) rest (replies s ++ option_list o))
| step_tick s now c a' :
    after_requests now c (authority s) = Ret a' -> step s (mkSystem a' (io_side s) (requests s) (replies s)).

(** ** The tables of the two threads agree *)

(** Besides the channels nothing separates what the authority and the I/O thread
    know: the clients the I/O thread serves or has been told to serve are those the
    authority will have when it has read its messages. *)
Record agree (s : System) : Prop := {
  ag_known : known_io_fds (authority s) = connected (authority s);
  ag_tables : served (io_side s) ∪ list_to_set (registrations (replies s)) = settled (connected (authority s)) (requests s);
  ag_once : NoDup (registrations (replies s));
  ag_apart : forall fd, fd ∈ registrations (replies s) -> fd ∉ served (io_side s);
}.

Lemma dom_insert_same {A} (m : gmap Z A) i x : is_Some (m !! i) -> dom (<[i := x]> m) = dom m.
Proof. intros Hi%elem_of_dom. rewrite dom_insert_L. set_solver. Qed.

(** *** Events *)
Lemma accept_served accepted st k : let '(st', _, msgs) := handle_accept version accepted st k in
  served st' = settled (served st) msgs.
Proof.
  unfold handle_accept. case_decide; [done|]. destruct (pipe2 k) as [k1 [[rd wr]|]]; [|done].
  destruct (send_fd accepted wr version k1) as [k2 n]. case_decide; [done|]. destruct (dup_fd rd (close_fd wr k2)) as [k3 r].
  case_decide; [done|]. unfold served, settled. cbn. rewrite dom_insert_L. unfold settle. cbn. set_solver.
Qed.

Lemma complete_bufs fuel fd m buf p env msgs buf' p' env' : Csp.process_complete fuel fd m buf p env = (msgs, buf', p', env') ->
  Forall (fun msg => Csp.msg_buf msg <> []) msgs.
Proof.
  revert buf p env msgs buf' p' env'; induction fuel as [|fuel IH]; intros buf p env msgs buf' p' env'; cbn [Csp.process_complete]; [by intros [= <- _ _ _]|].
  destruct (Csp.next_request buf) as [[r rest]|] eqn:Hr; [|by intros [= <- _ _ _]].
  destruct (Csp.take_pending m _) as [q p1]. destruct (Csp.process_complete fuel fd m rest p1 (tail env)) as [[[msgs2 b2] p2] e2] eqn:Hp.
  intros [= <- <- <- <-]. constructor; [|by eapply IH]. cbn. apply Csp.next_request_some in Hr as [_ Hr%Csp.request_wf_length]. intros Hn. rewrite Hn in Hr. cbn in Hr. lia.
Qed.

Lemma read_served fd inp st k : is_Some (Csp.io_clients (io st) !! fd) ->
  let '(st', _, msgs) := client_readable fd inp st k in
  Forall (fun msg => Csp.route msg = Csp.RDispatch \/ (Csp.route msg = Csp.RDisconnect /\ Csp.msg_buf msg = [])) msgs ->
  served st' = settled (served st) msgs /\ Forall (fun msg => Csp.route msg <> Csp.RDispatch -> Csp.client_fd msg ∈ served st) msgs.
Proof.
  intros [c Hc]. unfold client_readable, Csp.handle_client_read. destruct (in_data inp) as [|b data].
  - intros _. unfold served, with_io. cbn [io]. split; [|by repeat constructor; intros; apply elem_of_dom].
    unfold settled. cbn. unfold settle. cbn. unfold Csp.disconnect_io_client. rewrite Hc.
    destruct (Csp.msg_fd_clients (io st) !! Csp.msg_fd c) as [l|]; [destruct (filter _ l)|]; cbn; apply dom_delete_L.
  - rewrite Hc. destruct (Csp.process_complete _ _ _ _ _ _) as [[[msgs buf'] p'] env'] eqn:Hp. intros Hf.
    assert (Forall (fun msg => Csp.route msg = Csp.RDispatch) msgs) as Hd.
    { pose proof (complete_bufs _ _ _ _ _ _ _ _ _ _ Hp) as Hb. rewrite Forall_forall in *. intros msg Hm. destruct (Hf msg Hm) as [?|[_ He]]; [done|]. by destruct (Hb msg Hm). }
    rewrite settled_requests by done. split.
    + unfold served, with_io. cbn. apply dom_insert_same. by rewrite Hc.
    + eapply Forall_impl; [exact Hd|]. intros msg Hm Hn. by destruct Hn.
Qed.

Lemma event_served s fd inp st' k' m' msgs stop :
  let ev := state_of (authority s) in
  io_event fds version fd inp (io_side s) (kernel ev) (session ev) = Ret (st', k', m', msgs, stop) -> event_fair s msgs fd -> agree s ->
  served st' = settled (served (io_side s)) msgs /\ forall msg, msg ∈ msgs -> Csp.client_fd msg ∈ registrations (replies s) -> Csp.route msg = Csp.RDispatch.
Proof.
  cbn zeta. unfold io_event. intros Hev [Hl Hr] Hag. set (st := io_side s) in *.
  assert (forall st1 : IoThread, served st1 = served st -> served st1 = settled (served st) [] /\
    forall msg, msg ∈ [] -> Csp.client_fd msg ∈ registrations (replies s) -> Csp.route msg = Csp.RDispatch) as Hnone.
  { intros st1 Hs. split; [done|]. by intros msg ?%elem_of_nil. }
  destruct (decide (fd = listener_fd fds)) as [->|Hne].
  { pose proof (accept_served (in_accepted inp) st (kernel (state_of (authority s)))) as Ha.
    destruct (handle_accept _ _ _ _) as [[st1 k1] msgs1]. injection Hev as <- <- <- <- <-. split; [done|].
    intros msg Hm Hreg. specialize (Hl eq_refl). rewrite Forall_forall in Hl. by destruct (Hl msg Hm). }
  specialize (Hr Hne).
  repeat match type of Hev with (if decide ?P then Ret _ else _) = _ => destruct (decide P); [injection Hev as <- <- <- <- <-; by apply Hnone|] end.
  destruct (decide (is_Some (Csp.io_clients (io st) !! fd))) as [Hin|Hout].
  { pose proof (read_served fd inp st (kernel (state_of (authority s))) Hin) as Hrd.
    destruct (client_readable _ _ _ _) as [[st1 k1] msgs1]. injection Hev as <- <- <- <- <-. destruct (Hrd Hr) as [Hs Hc]. split; [done|].
    intros msg Hm Hreg. rewrite Forall_forall in Hc. destruct (Csp.route msg) eqn:Hro; [..|done]; exfalso; (apply (ag_apart s Hag _ Hreg), Hc; [done|by rewrite Hro]). }
  destruct (queue_fd_watchers st !! fd) as [[ptr event]|].
  - destruct (on_driver_bit set_driver ptr _) as [m1| |]; [|done..]. cbn [obind] in Hev. injection Hev as <- <- <- <- <-. by apply Hnone.
  - destruct (pipe_watchers st !! fd) as [event|]; injection Hev as <- <- <- <- <-; by apply Hnone.
Qed.

(** *** Replies *)
Lemma effect_served e st k m st' k' m' : execute_effect e st k m = Ret (st', k', m') ->
  served st' = served st ∪ list_to_set (option_list (registered_by e)).
Proof.
  destruct e as [r mfd primary|t f v|p n|q ptr h n|q]; cbn [execute_effect registered_by option_list].
  - unfold served. destruct (Csp.io_clients (io st) !! r) as [c|] eqn:Hc.
    + intros [= <- _ _]. assert (r ∈ dom (Csp.io_clients (io st))) by (apply elem_of_dom; by rewrite Hc). set_solver.
    + intros [= <- _ _]. unfold Csp.register_client. cbn. rewrite Hc. cbn. rewrite dom_insert_L. set_solver.
  - intros [= <- _ _]. set_solver.
  - destruct (pipe_watchers st !! p); intros [= <- _ _]; unfold served; cbn; set_solver.
  - destruct (queue_fd_watchers st !! q); intros [= <- _ _]; unfold served; cbn; set_solver.
  - destruct (queue_fd_watchers st !! q) as [[ptr ?]|]; [|intros [= <- _ _]; set_solver].
    destruct (on_driver_bit clear_driver ptr m); [|done..]. intros [= <- _ _]. unfold served. cbn. set_solver.
Qed.

Lemma effects_served es st k m st' k' m' : execute_effects es st k m = Ret (st', k', m') ->
  served st' = served st ∪ list_to_set (omap registered_by es).
Proof.
  revert st k m; induction es as [|e es IH]; intros st k m; cbn [execute_effects].
  { intros [= <- _ _]. set_solver. }
  destruct (execute_effect e st k m) as [[[st1 k1] m1]| |] eqn:He; [|done..]. cbn [obind]. intros Hes.
  rewrite (IH _ _ _ Hes), (effect_served _ _ _ _ _ _ _ He). cbn [omap list_omap]. destruct (registered_by e); cbn [option_list]; set_solver.
Qed.

Lemma reply_served msg st k m st' k' m' : execute_reply msg st k m = Ret (st', k', m') ->
  served st' = served st ∪ list_to_set (omap registered_by (rm_effects msg)).
Proof.
  unfold execute_reply. destruct (execute_effects _ _ _ _) as [[[st1 k1] m1]| |] eqn:He; [|done..]. cbn [obind].
  destruct (Csp.reply_target _ _ _) as [i target] eqn:Ht. destruct (write_reply _ _ _ _) as [k2| |]; [|done..]. cbn [obind]. intros [= <- _ _].
  rewrite <- (effects_served _ _ _ _ _ _ _ He). unfold Csp.reply_target in Ht. injection Ht as <- _. done.
Qed.

(** *** Requests *)
Lemma disconnect_connected now fd a a' : disconnect now linger_secs fd a = Ret a' ->
  connected a' = connected a ∖ {[fd]} /\ known_io_fds a' = known_io_fds a ∖ {[fd]}.
Proof.
  unfold disconnect. destruct (Client.disconnect_client now fd (state_of a)) as [[ev b]| |] eqn:Hd; [|done..]. cbn [obind]. intros [= <-]. split; [|done].
  unfold connected. cbn. assert (clients (start_linger now linger_secs (Dispatch.total_requests (loop a)) ev) = clients ev) as ->.
  { unfold start_linger. repeat case_decide; done. }
  rewrite (disconnect_dom _ _ _ _ _ Hd). done.
Qed.

Lemma register_connected fd mfd a : known_io_fds a = connected a ->
  connected (register fd mfd a) = connected a ∪ {[fd]} /\ known_io_fds (register fd mfd a) = known_io_fds a ∪ {[fd]}.
Proof.
  intros Hk. unfold register. destruct (clients (state_of a) !! fd) as [c|] eqn:Hc.
  - assert (fd ∈ connected a) by (apply elem_of_dom; by rewrite Hc). rewrite Hk. set_solver.
  - split; [|done]. unfold connected. cbn. rewrite dom_insert_L. set_solver.
Qed.

Lemma pending_fd_clients fd (ev : EventLoop K) f : is_phantom <$> clients (take_pending_fd fd ev).1 !! f = is_phantom <$> clients ev !! f.
Proof.
  unfold take_pending_fd. destruct (clients ev !! fd) as [c|] eqn:Hc; [|done]. destruct (pending_fd c) as [[p v]|]; [|done].
  assert (is_phantom <$> <[fd := c <| pending_fd := None |>]> (clients ev) !! f = is_phantom <$> clients ev !! f) as Hf; [|by case_decide].
  destruct (decide (fd = f)) as [<-|Hne]; [by rewrite lookup_insert_eq, Hc|by rewrite lookup_insert_ne].
Qed.

Lemma same_flags_dom (c c' : gmap Z Client) : (forall f, is_phantom <$> c' !! f = is_phantom <$> c !! f) -> dom c' = dom c.
Proof. intros Hf. apply set_eq. intros f. rewrite !elem_of_dom, <- !(fmap_is_Some is_phantom), (Hf f). done. Qed.

Lemma deposit_connected fd l (ev : EventLoop K) : dom (clients (deposit fd l ev)) = dom (clients ev).
Proof. unfold deposit. destruct l; [done|]. case_decide; [done|]. apply dom_alter_L. Qed.

(** The clients that a request adds are registered, each once. *)
Lemma dispatch_registers t0 t1 msg a a' r :
  process_dispatch OPCODE_META from_i32 dispatch_request t0 t1 msg a = Ret (a', r) -> known_io_fds a = connected a ->
  connected a ⊆ connected a' -> map_Forall (fun _ c => is_phantom c = false) (clients (state_of a')) ->
  let n := omap registered_by (rm_effects r) in
  known_io_fds a' = connected a' /\ connected a' = connected a ∪ list_to_set n /\ NoDup n /\ forall fd, fd ∈ n -> fd ∉ connected a.
Proof.
  unfold process_dispatch. set (d0 := with_rest _ (loop a)). destruct (Dispatch.dispatch _ _ _ _ _ _ _ _ d0) as [[d reply]| |]; [|done..]. cbn [obind].
  set (ev := Dispatch.rest d). set (fresh := if decide _ then _ else []).
  pose proof (pending_fd_clients (Csp.client_fd msg) ev) as Hflags. destruct (take_pending_fd (Csp.client_fd msg) ev) as [ev1 send] eqn:Hsend. cbn [fst] in Hflags.
  destruct (drain_watches ev1) as [ev2 watches] eqn:Hw. assert (clients ev2 = clients ev1) as Hc2 by (unfold drain_watches in Hw; by injection Hw as <- _).
  intros [= <- <-] Hk Hsub Hph. cbn [rm_effects]. unfold connected in *. cbn [state_of loop with_loop with_known with_rest Dispatch.rest known_io_fds] in *.
  rewrite Hc2 in *. rewrite (same_flags_dom _ _ Hflags) in *.
  assert (forall es : list Effect, Forall (fun e => registered_by e = None) es -> omap registered_by es = []) as Hno.
  { induction 1 as [|e es He _ IH]; [done|]. cbn. by rewrite He. }
  assert (omap registered_by (send ++ watches) = []) as Hrest.
  { apply Hno, Forall_app. split.
    - unfold take_pending_fd in Hsend. destruct (clients ev !! _); [|by injection Hsend as <- <-]. destruct (pending_fd c) as [[p v]|]; [|by injection Hsend as <- <-].
      case_decide; injection Hsend as <- <-; by repeat constructor.
    - unfold drain_watches in Hw. injection Hw as _ <-. rewrite !Forall_app, !Forall_map. split_and!; apply Forall_forall; [by intros []|by intros [[[]]]|done]. }
  assert (omap registered_by (map register_effect fresh ++ send ++ watches) = fresh.*1) as ->.
  { rewrite omap_app, Hrest, app_nil_r. clear. induction fresh as [|[f c] l IH]; [done|]. cbn. by rewrite IH. }
  assert (dom (clients ev) = dom (clients (state_of a)) ∪ list_to_set fresh.*1 /\ NoDup fresh.*1 /\
    forall fd, fd ∈ fresh.*1 -> fd ∉ dom (clients (state_of a))) as (Hdom & Hnd & Hout); [|by rewrite Hk, Hdom].
  assert (size (clients (Dispatch.rest d0)) = size (dom (clients (state_of a)))) as Hsz.
  { unfold d0. cbn. rewrite <- size_dom. by rewrite deposit_connected. }
  unfold fresh. rewrite Hsz, <- size_dom. case_decide as Hlt.
  - unfold new_clients. rewrite Hk. set (P := fun fc : Z * Client => _).
    assert (forall fd, fd ∈ (filter P (map_to_list (clients ev))).*1 <-> fd ∈ dom (clients ev) /\ fd ∉ dom (clients (state_of a))) as Hiff.
    { intros fd. rewrite list_elem_of_fmap. split.
      - intros ([f c] & -> & [[_ Hn] Hin%elem_of_map_to_list]%list_elem_of_filter). split; [apply elem_of_dom; by exists c|done].
      - intros [[c Hc]%elem_of_dom Hn]. exists (fd, c). split; [done|]. apply list_elem_of_filter. split; [|by apply elem_of_map_to_list]. split; [|done].
        specialize (Hflags fd). rewrite Hc in Hflags. cbn in Hflags. destruct (clients ev1 !! fd) as [c1|] eqn:Hc1; [|done].
        cbn in Hflags. injection Hflags as Hfl. cbn. rewrite <- Hfl. by apply (Hph fd). }
    split_and!.
    + apply set_eq. intros fd. rewrite elem_of_union, elem_of_list_to_set, Hiff. destruct (decide (fd ∈ dom (clients (state_of a)))); set_solver.
    + assert (sublist (filter P (map_to_list (clients ev))) (map_to_list (clients ev))) as Hsubl by apply sublist_filter.
      eapply sublist_NoDup; [|exact (fmap_sublist fst _ _ Hsubl)]. apply NoDup_fst_map_to_list.
    + intros fd [_ Hn]%Hiff. done.
  - split_and!; [|constructor|by intros fd ?%elem_of_nil]. cbn [fmap list_fmap list_to_set]. rewrite union_empty_r_L. symmetry.
    apply set_subseteq_size_eq; [done|lia].
Qed.

(** *** Steps *)
Lemma tick_connected now c a a' : after_requests now c a = Ret a' -> connected a' = connected a /\ known_io_fds a' = known_io_fds a.
Proof.
  unfold after_requests. case_decide; [by intros [= <-]|]. intros Hh.
  destruct (housekeep_run now c a) as (ev' & (Hc & _) & _ & _ & _ & Hr). rewrite Hr in Hh. injection Hh as <-. split; [|done]. unfold connected. cbn. by rewrite Hc.
Qed.

Lemma registrations_app l1 l2 : registrations (l1 ++ l2) = registrations l1 ++ registrations l2.
Proof. unfold registrations. apply bind_app. Qed.

Lemma agree_event s fd inp st' k' m' msgs stop :
  let ev := state_of (authority s) in
  io_event fds version fd inp (io_side s) (kernel ev) (session ev) = Ret (st', k', m', msgs, stop) -> event_fair s msgs fd -> agree s ->
  agree (mkSystem (share k' m' (authority s)) st' (requests s ++ msgs) (replies s)).
Proof.
  cbn zeta. intros Hev Hf Hag. destruct (event_served s fd inp st' k' m' msgs stop Hev Hf Hag) as [Hs Hreg]. destruct Hag as [Hk Ht Hn Ha].
  assert (forall f msg, f ∈ registrations (replies s) -> msg ∈ msgs -> ~ about f msg) as Hno.
  { intros f msg Hf1 Hmsg [<- Hr]. apply Hr. by apply Hreg. }
  split; [exact Hk| |exact Hn|].
  - cbn [io_side replies requests authority]. change (connected (share k' m' (authority s))) with (connected (authority s)).
    rewrite settled_app, <- Ht, Hs. symmetry. apply settled_union. intros f msg Hf1. apply Hno. by apply elem_of_list_to_set in Hf1.
  - cbn [io_side replies]. intros f Hf1. rewrite Hs. specialize (Ha f Hf1).
    assert (forall c ms, f ∉ c -> (forall msg, msg ∈ ms -> ~ about f msg) -> f ∉ settled c ms) as Hkeep; [|apply Hkeep; [done|]; intros msg; by apply Hno].
    clear. intros c ms. revert c. induction ms as [|msg ms IH]; intros c Hc Hab; [done|]. cbn [settled fold_left]. apply IH; [|intros msg' Hm; apply Hab; by right].
    unfold settle. destruct (Csp.route msg) eqn:Hr; [|set_solver..]. intros [Hin|Hin]%elem_of_union; [done|]. apply elem_of_singleton in Hin.
    apply (Hab msg); [by left|]. split; [done|congruence].
Qed.

Lemma agree_process s now t0 t1 msg rest a' o : requests s = msg :: rest ->
  process_request OPCODE_META from_i32 dispatch_request now linger_secs t0 t1 msg (authority s) = Ret (a', o) ->
  (Csp.route msg = Csp.RDispatch -> handlers_fair s rest a') -> agree s -> agree (mkSystem a' (io_side s) rest (replies s ++ option_list o)).
Proof.
  intros Hq Hp Hfair [Hk Ht Hn Ha]. rewrite Hq in Ht. cbn [settled fold_left] in Ht. fold (settled (settle (connected (authority s)) msg) rest) in Ht.
  unfold process_request in Hp. unfold settle in Ht. destruct (Csp.route msg).
  - injection Hp as <- <-. destruct (register_connected (Csp.client_fd msg) (Csp.new_msg_fd msg) (authority s) Hk) as [Hc Hkn].
    cbn [option_list]. split; cbn [authority io_side requests replies]; rewrite ?app_nil_r; [congruence|by rewrite Hc|done|done].
  - destruct (disconnect now linger_secs (Csp.client_fd msg) (authority s)) as [a1| |] eqn:Hd; [|done..]. injection Hp as <- <-.
    destruct (disconnect_connected _ _ _ _ Hd) as [Hc Hkn]. cbn [option_list].
    split; cbn [authority io_side requests replies]; rewrite ?app_nil_r; [congruence|by rewrite Hc|done|done].
  - destruct (process_dispatch _ _ _ t0 t1 msg (authority s)) as [[a1 r]| |] eqn:Hd; [|done..]. injection Hp as <- <-.
    destruct (Hfair eq_refl) as (Hsub & Hph & Hnew). destruct (dispatch_registers _ _ _ _ _ _ Hd Hk Hsub Hph) as (Hk1 & Hc1 & Hnd & Hout).
    set (n := omap registered_by (rm_effects r)) in *. cbn [option_list].
    assert (forall fd, fd ∈ n -> fd ∈ connected a1 /\ fd ∉ connected (authority s)) as Hin by (intros fd Hfd; split; [rewrite Hc1; set_solver|by apply Hout]).
    assert (registrations (replies s ++ option_list (Some r)) = registrations (replies s) ++ n) as Hreg by (rewrite registrations_app; unfold registrations at 2; cbn; by rewrite app_nil_r).
    split; cbn [authority io_side requests replies]; rewrite ?Hreg.
    + done.
    + rewrite Hc1, settled_union, <- Ht, list_to_set_app_L; [set_solver|]. intros fd msg' Hfd%elem_of_list_to_set. destruct (Hin fd Hfd). by apply Hnew.
    + apply NoDup_app. split_and!; [done| |done]. intros fd Hfd Hfd'. destruct (Hin fd Hfd'). by destruct (Hnew fd) as (_ & ? & _).
    + intros fd [Hfd|Hfd]%elem_of_app; [by apply Ha|]. destruct (Hin fd Hfd). by destruct (Hnew fd).
Qed.

Lemma step_agree s s' : step s s' -> agree s -> agree s'.
Proof.
  intros Hs. destruct Hs as [s fd inp st' k' m' msgs stop ev Hev Hf|s msg rest st' k' m' ev Hr He|s now t0 t1 msg rest a' o Hq Hp Hf|s now c a' Ht]; intros Hag.
  - by eapply agree_event.
  - destruct Hag as [Hk Ht Hn Ha]. rewrite Hr in *. pose proof (reply_served _ _ _ _ _ _ _ He) as Hs.
    change (registrations (msg :: rest)) with (omap registered_by (rm_effects msg) ++ registrations rest) in *. apply NoDup_app in Hn as (Hn1 & Hn2 & Hn3).
    split; cbn [authority io_side requests replies]; [done| |done|].
    + change (connected (share k' m' (authority s))) with (connected (authority s)). rewrite <- Ht, Hs, list_to_set_app_L. set_solver.
    + intros fd Hfd. rewrite Hs. intros [Hx|Hx%elem_of_list_to_set]%elem_of_union; [by apply (Ha fd); [apply elem_of_app; right|]|]. by apply (Hn2 fd).
  - by eapply agree_process.
  - destruct (tick_connected _ _ _ _ Ht) as [Hc Hk']. destruct Hag as [Hk Hta Hn Ha]. split; cbn [authority io_side requests replies]; [congruence|by rewrite Hc|done|done].
Qed.

(** The daemon as it starts: no clients, empty channels. *)
Definition started s : Prop := clients (state_of (authority s)) = ∅ /\ known_io_fds (authority s) = ∅ /\
  io_side s = io_start fds /\ requests s = [] /\ replies s = [].

Lemma started_agree s : started s -> agree s.
Proof.
  intros (Hc & Hk & Hi & Hr & Hp). split; unfold connected, served; rewrite ?Hc, ?Hk, ?Hi, ?Hr, ?Hp; cbn.
  - by rewrite dom_empty_L.
  - set_solver.
  - constructor.
  - by intros fd ?%elem_of_nil.
Qed.

(** C7: the two threads agree on who is connected.  The steps are those in which
    no client sends the codes -1 and -2 that the threads use between themselves and
    every new connection has a descriptor not in use ([event_fair],
    [handlers_fair]); without the first, [client_forges_disconnect] shows them
    disagree.  However such steps interleave, in every state the daemon can reach
    the clients the I/O thread serves or has been told to serve are exactly those
    the authority will know when it has read its messages; when both channels are
    empty, the I/O thread serves exactly the clients of the authority. *)
Theorem threads_agree s s' : started s -> rtc step s s' ->
  served (io_side s') ∪ list_to_set (registrations (replies s')) = settled (connected (authority s')) (requests s') /\
  (requests s' = [] -> replies s' = [] -> served (io_side s') = connected (authority s')).
Proof.
  intros Hs Hr. assert (agree s') as [_ Ht _ _].
  { apply started_agree in Hs. induction Hr as [s|s1 s2 s3 Hst _ IH]; [done|]. by apply IH, (step_agree s1). }
  split; [done|]. intros Hq Hp. rewrite Hq, Hp in Ht. cbn in Ht. set_solver.
Qed.

End system.

(** ** A reply reaches its client *)

(** Sending a descriptor leaves the pipes alone, and so does closing one of
    another pipe. *)
Class SendLaws (K : Type) `{Ntsync K, Channels K, FileIo.PipeView K} : Prop := {
  send_same : forall t f v k, FileIo.same_pipes k (send_fd t f v k).1;
  close_socket : forall f g i k, FileIo.socket f (close_fd g k) = Some i -> FileIo.socket f k = Some i;
  close_same : forall f g i j k, FileIo.socket f k = Some i -> FileIo.peer i k = Some j -> FileIo.socket g k <> Some i -> FileIo.socket g k <> Some j ->
    FileIo.socket f (close_fd g k) = Some i /\ FileIo.peer i (close_fd g k) = Some j /\
    FileIo.queue j (close_fd g k) = FileIo.queue j k /\ FileIo.room j (close_fd g k) = FileIo.room j k;
}.

Section reply.
Context {K : Type} `{Ntsync K, Sockets K, Channels K, Files K, PV : !FileIo.PipeView K, !FileIo.PipeLaws K, !SendLaws K}.
Context (target i j : Z).
Implicit Types (st : IoThread) (k : K) (m : mem).

(** The pipe from the descriptor [target] to the client, with its contents. *)
Definition pipe_at (q : list Z) (room : nat) k : Prop :=
  FileIo.socket target k = Some i /\ FileIo.peer i k = Some j /\ FileIo.queue j k = q /\ FileIo.room j k = room.

(** A descriptor of something else than this pipe. *)
Definition elsewhere k (f : Z) : Prop := FileIo.socket f k <> Some i /\ FileIo.socket f k <> Some j.

Definition harmless k (e : Effect) : Prop :=
  match e with
  | SendFd _ f _ => elsewhere k f
  | WatchPipeFd _ event => elsewhere k event
  | WatchQueueFd _ ptr _ _ => is_Some ptr
  | _ => True
  end.
Definition watchers_ok k st : Prop :=
  (forall q ptr event, queue_fd_watchers st !! q = Some (ptr, event) -> is_Some ptr) /\
  (forall p event, pipe_watchers st !! p = Some event -> elsewhere k event).

Lemma write_reply_done fuel data k : (length data < fuel)%nat -> FileIo.socket target k = Some i -> FileIo.peer i k = Some j ->
  (length data <= FileIo.room j k)%nat -> exists k', write_reply fuel target data k = Ret k' /\ FileIo.queue j k' = FileIo.queue j k ++ data.
Proof.
  revert data k; induction fuel as [|fuel IH]; intros data k Hlt Hf Hp Hr; [lia|]. cbn [write_reply].
  destruct data as [|b data]; [exists k; by rewrite app_nil_r|].
  destruct (FileIo.write_data target i j (b :: data) k Hf Hp) as (k1 & n & -> & Hn & Hq & Hroom & Hp1 & Hs1); [done|cbn in *; lia|].
  rewrite decide_True by lia. unfold blen in *. destruct (IH (drop (Z.to_nat n) (b :: data)) k1) as (k' & -> & Hq').
  - rewrite length_drop. lia.
  - by rewrite Hs1.
  - done.
  - rewrite length_drop. lia.
  - exists k'. split; [done|]. by rewrite Hq', Hq, <- app_assoc, take_drop.
Qed.

Lemma closed_elsewhere q r k f g : pipe_at q r k -> elsewhere k g -> pipe_at q r (close_fd g k) /\ (elsewhere k f -> elsewhere (close_fd g k) f).
Proof.
  intros (Hs & Hp & Hq & Hr) [Hi Hj]. destruct (close_same target g i j k Hs Hp Hi Hj) as (? & ? & ? & ?). split; [split_and!; congruence|].
  intros [H1' H2']. split; intros Hx%close_socket; done.
Qed.

Lemma same_elsewhere q r k k' : FileIo.same_pipes k k' -> pipe_at q r k -> pipe_at q r k' /\ (forall f, elsewhere k f -> elsewhere k' f).
Proof. intros [Hs Hi] (? & ? & ? & ?). destruct (Hi i) as (? & _), (Hi j) as (_ & ? & ?). split; [split_and!; congruence|]. intros f [? ?]. split; by rewrite Hs. Qed.

Lemma harmless_mono k k' e : (forall f, elsewhere k f -> elsewhere k' f) -> harmless k e -> harmless k' e.
Proof. intros Hk. destruct e; cbn; auto. Qed.

Lemma effect_harmless q r e st k m : pipe_at q r k -> watchers_ok k st -> harmless k e ->
  exists st' k' m', execute_effect e st k m = Ret (st', k', m') /\ pipe_at q r k' /\ watchers_ok k' st' /\
    (forall f, elsewhere k f -> elsewhere k' f) /\ Csp.client_reply_fds (io st') = Csp.client_reply_fds (io st).
Proof.
  intros Hpipe Hw He. destruct Hw as [Hwq Hwp]. destruct e as [rf mfd primary|t f v|p event|wq ptr h event|rq]; cbn [execute_effect].
  - destruct (Csp.io_clients (io st) !! rf) eqn:Hc; eexists _, _, _; (split; [done|]); split_and!; try done. cbn. unfold Csp.register_client. by rewrite Hc.
  - destruct (same_elsewhere q r k (send_fd t f v k).1 (send_same t f v k) Hpipe) as [Hp1 He1]. destruct (closed_elsewhere q r _ 0 f Hp1 (He1 f He)) as [Hp2 _].
    assert (forall g, elsewhere k g -> elsewhere (close_fd f (send_fd t f v k).1) g) as Hmono.
    { intros g Hg. by apply (closed_elsewhere q r _ g f Hp1 (He1 f He)), He1. }
    eexists _, _, _. split; [done|]. split_and!; [done| |done|done]. split; [done|]. intros p ev Hp. apply Hmono. by eapply Hwp.
  - destruct (pipe_watchers st !! p) as [old|] eqn:Hold.
    + assert (pipe_at q r (if decide (old <> event) then close_fd old k else k) /\
        forall g, elsewhere k g -> elsewhere (if decide (old <> event) then close_fd old k else k) g) as [Hp1 Hmono].
      { case_decide; [|done]. split; [by apply (closed_elsewhere q r k 0 old Hpipe), (Hwp p)|]. intros g. by apply (closed_elsewhere q r k g old Hpipe), (Hwp p). }
      eexists _, _, _. split; [done|]. split_and!; [done| |done|done]. split; [done|]. cbn. intros p' e' [[<- <-]|[Hne Hp']]%lookup_insert_Some; apply Hmono; [done|by eapply Hwp].
    + eexists _, _, _. split; [done|]. split_and!; try done. split; [done|]. cbn. intros p' e' [[<- <-]|[Hne Hp']]%lookup_insert_Some; [done|by eapply Hwp].
  - destruct (queue_fd_watchers st !! wq) eqn:Hq; eexists _, _, _; (split; [done|]); split_and!; try done.
    split; [|done]. cbn. intros q' p' e' [[<- [= <- <-]]|[Hne Hq']]%lookup_insert_Some; [done|by eapply Hwq].
  - destruct (queue_fd_watchers st !! rq) as [[ptr event]|] eqn:Hq; [|eexists _, _, _; (split; [done|]); by split_and!].
    destruct (Hwq _ _ _ Hq) as [off ->]. cbn. eexists _, _, _. (split; [done|]). by split_and!.
Qed.

Lemma effects_harmless q r es st k m : pipe_at q r k -> watchers_ok k st -> Forall (harmless k) es ->
  exists st' k' m', execute_effects es st k m = Ret (st', k', m') /\ pipe_at q r k' /\ Csp.client_reply_fds (io st') = Csp.client_reply_fds (io st).
Proof.
  revert st k m; induction es as [|e es IH]; intros st k m Hp Hw Hes; [by exists st, k, m|]. apply Forall_cons in Hes as [He Hes].
  destruct (effect_harmless q r e st k m Hp Hw He) as (st1 & k1 & m1 & Hr & Hp1 & Hw1 & Hmono & Hc1). cbn [execute_effects]. rewrite Hr. cbn [obind].
  destruct (IH st1 k1 m1 Hp1 Hw1) as (st' & k' & m' & -> & Hp' & Hc').
  { eapply Forall_impl; [exact Hes|]. intros e'. by apply harmless_mono. }
  exists st', k', m'. by rewrite Hc'.
Qed.

(** C8: the reply of a request reaches the client that asked.  When a request is
    dispatched without a panic, the authority makes one message of it, for the
    client it came from, with exactly the bytes of the reply [dispatch] returned.
    When the I/O thread carries the message out, the client has a reply descriptor,
    its pipe has room for the whole reply, and neither the effects of the message
    nor the watched descriptors touch that pipe or lack the pointer of their queue
    ([harmless], [watchers_ok]), then those bytes are appended, whole and once, to
    what the pipe holds, and the descriptor is remembered for later replies. *)
Theorem reply_reaches_client OPCODE_META from_i32 dispatch_request t0 t1 msg (a a' : Authority K) r st q :
  process_dispatch OPCODE_META from_i32 dispatch_request t0 t1 msg a = Ret (a', r) ->
  clients (state_of a') !! Csp.client_fd msg ≫= reply_fd = Some target ->
  let ev := state_of a' in
  pipe_at q (FileIo.room j (kernel ev)) (kernel ev) -> (length (rm_reply r) <= FileIo.room j (kernel ev))%nat ->
  watchers_ok (kernel ev) st -> Forall (harmless (kernel ev)) (rm_effects r) ->
  rm_client_fd r = Csp.client_fd msg /\
  exists d reply st' k' m',
    Dispatch.dispatch OPCODE_META from_i32 dispatch_request (Csp.client_fd msg) (Csp.req (Csp.header msg)) (Csp.msg_buf msg) t0 t1
      (with_rest (deposit (Csp.client_fd msg) (Csp.inflight_fds msg)) (loop a)) = Ret (d, reply) /\
    execute_reply r st (kernel ev) (session ev) = Ret (st', k', m') /\
    FileIo.queue j k' = q ++ serialize reply /\ Csp.client_reply_fds (io st') !! Csp.client_fd msg = Some target.
Proof.
  intros Hd Hrf. cbn zeta. intros Hp Hroom Hw He.
  unfold process_dispatch in Hd. destruct (Dispatch.dispatch _ _ _ _ _ _ _ _ _) as [[d reply]| |] eqn:Hdis; [|done..]. cbn [obind] in Hd.
  assert (rm_client_fd r = Csp.client_fd msg /\ rm_reply_fd r = Some target /\ rm_reply r = serialize reply) as (Hc & Ht & Hrep).
  { destruct (take_pending_fd _ _) as [ev1 send]. destruct (drain_watches ev1) as [ev2 watches]. by injection Hd as <- <-. }
  clear Hd. split; [done|]. exists d, reply. rewrite <- Hrep. unfold execute_reply. destruct (effects_harmless q _ (rm_effects r) st _ (session (state_of a')) Hp Hw He) as (st1 & k1 & m1 & -> & Hp1 & _).
  cbn [obind]. rewrite Hc, Ht. unfold Csp.reply_target. rewrite lookup_insert_eq. cbn [default from_option id].
  destruct Hp1 as (Hs1 & Hpe1 & Hq1 & Hr1). destruct (write_reply_done (S (length (rm_reply r))) (rm_reply r) k1) as (k' & Hwr & Hq'); [lia|done|done|lia|].
  rewrite Hwr. cbn [obind]. eexists _, _, _. split; [done|]. split; [done|]. split; [by rewrite Hq', Hq1|]. cbn. apply lookup_insert_eq.
Qed.

End reply.
End Daemon.

(** ** A concrete run *)
Module DaemonDemo.
Import Replies Ntsync ModelKernel Ipc ServerState Loop LoopDemo Session ThreadsDemo Daemon.

#[export] Instance model_sends : SendLaws MK.
Proof.
  split.
  - intros t f v k. split; [done|]. by intros i.
  - intros f g i k. cbn. destruct (decide (g = f)) as [->|Hne]; [by rewrite lookup_delete_eq|by rewrite lookup_delete_ne].
  - intros f g i j k Hf Hp Hi Hj. split_and!; [|done..]. cbn in *. destruct (decide (g = f)) as [->|Hne]; [done|by rewrite lookup_delete_ne].
Qed.

Definition demo_fds : StaticFds := mkStaticFds 3 4 5 6 (-1).
Definition authority_of (ev : EventLoop MK) : Authority MK :=
  mkAuthority _ (Dispatch.mkLoop (Dispatch.detect_and_remap Dispatch.demo_meta 930 Dispatch.demo_from_i32)
    (replicate Dispatch.MAX_OPCODES 0) (replicate Dispatch.MAX_OPCODES 0) 0 0 (Intel.Intel.fresh false) ev) (dom (clients ev)) 0 0 false.
Definition demo_start : System :=
  mkSystem (authority_of (empty_loop true (boot <| next := 10 |>) Shm.demo_shm)) (io_start demo_fds) [] [].

(** A handler that makes a client for a new thread, as [new_thread] does. *)
Definition thread_handler (n : nat) (d : Dispatch.EventLoop (EventLoop MK)) (fd : Z) (buf : list Z)
    : Dispatch.EventLoop (EventLoop MK) * option Reply :=
  (with_rest (fun ev => ev <| clients ::= <[40 := Ipc.new 40 20]> |>) d, Some (reply_fixed [])).

Definition event_run (fd : Z) (inp : Input) (s : System) : outcome (System * list Csp.RequestMsg) :=
  let ev := state_of (authority s) in
  r <-! io_event demo_fds 930 fd inp (io_side s) (kernel ev) (session ev) ;;
  let '(st, k, m, msgs, _) := r in Ret (mkSystem (share k m (authority s)) st (requests s ++ msgs) (replies s), msgs).
Definition process_run (s : System) : outcome System :=
  match requests s with
  | [] => Panic
  | msg :: rest =>
      r <-! process_request Dispatch.demo_meta Dispatch.demo_from_i32 thread_handler 0 5 0 1 msg (authority s) ;;
      Ret (mkSystem r.1 (io_side s) rest (replies s ++ option_list r.2))
  end.
Definition reply_run (s : System) : outcome System :=
  match replies s with
  | [] => Panic
  | msg :: rest =>
      let ev := state_of (authority s) in
      r <-! execute_reply msg (io_side s) (kernel ev) (session ev) ;;
      let '(st, k, m) := r in Ret (mkSystem (share k m (authority s)) st (requests s) rest)
  end.
Definition got {A} (d : A) (o : outcome A) : A := match o with Ret x => x | _ => d end.
Definition returns {A} (o : outcome A) : bool := match o with Ret _ => true | _ => false end.
Lemma got_returns {A} (d : A) o : returns o = true -> o = Ret (got d o).
Proof. by destruct o. Qed.

(** A connection, its first request, and the new thread's client. *)
Definition s1 := got (demo_start, []) (event_run 3 (mkInput 20 0 [] []) demo_start).
Definition s2 := got demo_start (process_run s1.1).
Definition s3 := got (demo_start, []) (event_run 12 (mkInput 0 0 (replicate 64 0) []) s2).
Definition s4 := got demo_start (process_run s3.1).
Definition s5 := got demo_start (reply_run s4).

Local Notation demo_step := (step Dispatch.demo_meta Dispatch.demo_from_i32 thread_handler demo_fds 930 5).

Lemma event_step fd inp (s : System) p : event_run fd inp s = Ret p -> event_fair demo_fds s p.2 fd -> demo_step s p.1.
Proof.
  unfold event_run. destruct (io_event _ _ _ _ _ _ _) as [[[[[st k] m] msgs] b]| |] eqn:He; [|done..]. cbn [obind]. intros [= <-] Hf. by eapply step_event.
Qed.

Lemma process_step s s' : process_run s = Ret s' ->
  (match requests s with msg :: rest => Csp.route msg = Csp.RDispatch -> handlers_fair s rest (authority s') | [] => True end) -> demo_step s s'.
Proof.
  unfold process_run. destruct (requests s) as [|msg rest] eqn:Hq; [done|].
  destruct (process_request _ _ _ _ _ _ _ _ _) as [[a o]| |] eqn:Hp; [|done..]. cbn [obind]. intros [= <-] Hf. by eapply step_process.
Qed.

Lemma reply_step s s' : reply_run s = Ret s' -> demo_step s s'.
Proof.
  unfold reply_run. destruct (replies s) as [|msg rest] eqn:Hq; [done|]. destruct (execute_reply _ _ _ _) as [[[st k] m]| |] eqn:Hp; [|done..]. cbn [obind].
  intros [= <-]. by eapply step_reply.
Qed.

Lemma request_routed msgs : Csp.route <$> msgs = [Csp.RDispatch] ->
  Forall (fun msg => Csp.route msg = Csp.RDispatch \/ (Csp.route msg = Csp.RDisconnect /\ Csp.msg_buf msg = [])) msgs.
Proof. destruct msgs as [|msg [|]]; cbn; [done| |done]. intros [= Hr]. constructor; [by left|constructor]. Qed.
Lemma register_routed (s : System (K := MK)) (P : Csp.RequestMsg -> list Csp.RequestMsg -> Prop) : Csp.route <$> requests s = [Csp.RRegister] ->
  match requests s with msg :: rest => Csp.route msg = Csp.RDispatch -> P msg rest | [] => True end.
Proof. destruct (requests s) as [|msg l]; [done|]. cbn. by intros [= -> _]. Qed.

Lemma daemon_demo_run : rtc demo_step demo_start s5.
Proof.
  assert (event_run 3 (mkInput 20 0 [] []) demo_start = Ret s1) as E1 by (apply got_returns; vm_compute; reflexivity).
  assert (process_run s1.1 = Ret s2) as E2 by (apply got_returns; vm_compute; reflexivity).
  assert (event_run 12 (mkInput 0 0 (replicate 64 0) []) s2 = Ret s3) as E3 by (apply got_returns; vm_compute; reflexivity).
  assert (process_run s3.1 = Ret s4) as E4 by (apply got_returns; vm_compute; reflexivity).
  assert (reply_run s4 = Ret s5) as E5 by (apply got_returns; vm_compute; reflexivity).
  eapply rtc_l; [apply (event_step _ _ _ _ E1)|eapply rtc_l; [apply (process_step _ _ E2)|eapply rtc_l; [apply (event_step _ _ _ _ E3)|]]].
  - split; [|intros Hne; destruct (Hne eq_refl)]. intros _. apply (bool_decide_eq_true_1 _). vm_compute. reflexivity.
  - apply (register_routed _ (fun _ rest => handlers_fair s1.1 rest (authority s2))). vm_compute. reflexivity.
  - split; [discriminate|]. intros _. apply request_routed. vm_compute. reflexivity.
  - eapply rtc_l; [apply (process_step _ _ E4)|apply rtc_once, (reply_step _ _ E5)].
    assert (connected (authority s3.1) = {[12]} /\ connected (authority s4) = {[12; 40]} /\ served (io_side s3.1) = {[12]} /\
      registrations (replies s3.1) = [] /\ length (requests s3.1) = 1%nat) as (C3 & C4 & I3 & R3 & L3) by (vm_compute; split_and!; reflexivity).
    destruct (requests s3.1) as [|msg [|]]; [discriminate| |discriminate]. intros _. unfold handlers_fair. rewrite C3, C4, I3, R3.
    split; [clear; set_solver|]. split; [apply (bool_decide_eq_true_1 _); vm_compute; reflexivity|]. clear. intros fd Hfd Hn. split; [done|]. split; [by intros ?%elem_of_nil|].
    intros msg' Hm. by apply elem_of_nil in Hm.
Qed.

Lemma threads_agree_witness : served (io_side s5) = connected (authority s5) /\ connected (authority s5) = {[12; 40]}.
Proof.
  split; [|vm_compute; reflexivity].
  assert (started demo_fds demo_start) as Hs by (split_and!; vm_compute; reflexivity).
  apply (threads_agree Dispatch.demo_meta Dispatch.demo_from_i32 thread_handler demo_fds 930 5 demo_start s5 Hs daemon_demo_run); vm_compute; reflexivity.
Defined.

(** A client whose replies go to one end of a pair of sockets. *)
Definition replying_loop : EventLoop MK :=
  let '(k, _) := socketpair boot in
  (connect 7 32 36 (empty_loop true k Shm.demo_shm)) <| clients ::= alter (fun c => c <| reply_fd := Some 3 |>) 7 |>.
Definition first_request : Csp.RequestMsg := Csp.mkMsg 7 (Csp.mkRequestHeader 0 0 0) (replicate 64 0) [] (-1).
Definition answered : Authority MK * ReplyMsg :=
  got (authority_of replying_loop, mkReplyMsg 0 [] None [])
    (process_dispatch Dispatch.demo_meta Dispatch.demo_from_i32 thread_handler 0 1 first_request (authority_of replying_loop)).

Lemma reply_reaches_client_witness :
  exists reply st' k' m', execute_reply answered.2 (io_start demo_fds) (kernel (state_of answered.1)) (session (state_of answered.1)) = Ret (st', k', m') /\
    FileIo.queue 4 k' = serialize reply.
Proof.
  assert (process_dispatch Dispatch.demo_meta Dispatch.demo_from_i32 thread_handler 0 1 first_request (authority_of replying_loop) = Ret (answered.1, answered.2)) as Hd.
  { rewrite <- surjective_pairing. apply got_returns. vm_compute. reflexivity. }
  destruct (reply_reaches_client 3 3 4 Dispatch.demo_meta Dispatch.demo_from_i32 thread_handler 0 1 first_request _ _ _ (io_start demo_fds) [] Hd)
    as (_ & d & reply & st' & k' & m' & _ & Hx & Hq & _).
  - vm_compute. reflexivity.
  - split_and!; vm_compute; reflexivity.
  - assert (length (rm_reply answered.2) = 64%nat /\ FileIo.room 4 (kernel (state_of answered.1)) = 64%nat) as [-> ->] by (vm_compute; done). lia.
  - split; [intros q ptr e|intros p e]; intros Hl; cbn in Hl; by rewrite lookup_empty in Hl.
  - assert (rm_effects answered.2 = [RegisterClient 40 20 true]) as -> by (vm_compute; reflexivity). by repeat constructor.
  - exists reply, st', k', m'. split; [exact Hx|]. etransitivity; [exact Hq|apply app_nil_l].
Defined.

(** ** Where the code departs from what it means to do *)

(** The clients do not share the codes of the threads: a request with the code of
    a disconnection takes the client away from the authority, while the I/O thread
    goes on serving it. *)
Definition forged : list Z := le_bytes 4 (u32 (-2)) ++ replicate 60 0.
Theorem client_forges_disconnect :
  match event_run 12 (mkInput 0 0 forged []) s2 with
  | Ret (s, msgs) =>
      map Csp.client_fd msgs = [12] /\ match process_run s with Ret s' => connected (authority s') = ∅ /\ served (io_side s') = {[12]} /\ replies s' = [] | _ => False end
  | _ => False
  end.
Proof. vm_compute. split_and!; reflexivity. Qed.

(** The pointer to the queue of a client without one is null, and the I/O thread
    writes through it. *)
Theorem null_queue_written q event st (k : MK) m : queue_fd_watchers st !! q = None ->
  match execute_effects [WatchQueueFd q None 0 event; RearmQueueFd q] st k m with Panic => True | _ => False end.
Proof. intros Hq. cbn. rewrite Hq. cbn. by rewrite lookup_insert_eq. Qed.

(** The deadline after which the daemon stops is set when the last user process
    leaves.  A process that connects in the meantime does not put it off: the
    daemon stops with the client connected. *)
Theorem linger_ignores_new_clients fd mfd deadline now c (a : Authority MK) :
  clients (state_of a) !! fd = None -> linger_deadline (state_of a) = Some deadline -> deadline <= at_linger c ->
  exists a', housekeep now c (register fd mfd a) = Ret a' /\ shutdown a' = true /\ fd ∈ connected a'.
Proof.
  intros Hfd Hd Hle. destruct (housekeep_run now c (register fd mfd a)) as (ev' & (Hc & _) & _ & _ & _ & Hr).
  assert (linger_deadline (state_of (register fd mfd a)) = Some deadline /\ fd ∈ dom (clients (state_of (register fd mfd a)))) as [Hd' Hin].
  { unfold register. rewrite Hfd. split; [exact Hd|]. apply elem_of_dom. cbn. by rewrite lookup_insert_eq. }
  eexists. split; [exact Hr|]. cbn [shutdown]. rewrite Hd', bool_decide_true, orb_true_r by done. split; [done|]. unfold connected. cbn. by rewrite Hc.
Qed.

(** And when a system process is still connected, the deadline that the handler of
    the disconnection sets is taken back at once: the daemon never stops by itself. *)
Theorem linger_cancelled :
  let ev := demo_loop <| system_pids := {[40]} |> in
  match Client.disconnect_client 0 7 ev, disconnect 0 5 7 (authority_of ev) with
  | Ret (ev', _), Ret a' => linger_deadline ev' = Some Client.LINGER_NS /\ linger_deadline (state_of a') = None
  | _, _ => False
  end.
Proof. vm_compute. split; reflexivity. Qed.

End DaemonDemo.
