(* ===== verification/Fs.v ===== *)
(** * The file system ([std::fs] and [std::path] as quark uses them)

    Names map to directories, symbolic links and inodes; the contents belong to
    the inodes, so that hard links share them.  A path is a list of bytes, as in
    [PathBuf]; the kernel follows it component by component, at most forty
    symbolic links deep.  Every call can fail for the reasons that the tree has
    (something is missing, or is not a directory); permissions, quotas and device
    limits are not part of the model. *)

From stdpp Require Import base list gmap strings.
From coqutil Require Import Datatypes.RecordSettersUsingExistingGetters.
From S2P Require Import Prelude Text Registry RegFile Pe.
Local Open Scope Z_scope.

Module Fs.
Import Text.
Local Notation lit := Registry.lit.

(** ** Paths *)
Definition PathBuf : Type := str.
Definition SLASH : Z := 0x2F.
Definition DOT : Z := 0x2E.

Inductive comp : Type := Up | Name (n : str).
Definition comp_of (s : str) : option comp :=
  if decide (s = [] \/ s = [DOT]) then None else if decide (s = [DOT; DOT]) then Some Up else Some (Name s).
Definition comps (p : PathBuf) : list comp := omap comp_of (RegFile.split_char SLASH p []).
Definition is_absolute (p : PathBuf) : bool := bool_decide (head p = Some SLASH).

(** [Path::join] *)
Definition join (p q : PathBuf) : PathBuf :=
  if is_absolute q then q else if decide (p = [] \/ last p = Some SLASH) then p ++ q else p ++ SLASH :: q.
Fixpoint drop_slashes (r : str) : str := match r with c :: r' => if decide (c = SLASH) then drop_slashes r' else r | [] => [] end.
Fixpoint drop_name (r : str) : str := match r with c :: r' => if decide (c = SLASH) then r else drop_name r' | [] => [] end.
Fixpoint take_name (r : str) : str := match r with c :: r' => if decide (c = SLASH) then [] else c :: take_name r' | [] => [] end.
(** [Path::parent] and [Path::file_name], from the end of the text. *)
Definition parent (p : PathBuf) : option PathBuf :=
  match drop_slashes (reverse p) with
  | [] => None
  | r => Some (match drop_slashes (drop_name r) with [] => if is_absolute p then [SLASH] else [] | r' => reverse r' end)
  end.
Definition file_name (p : PathBuf) : option str :=
  let n := reverse (take_name (drop_slashes (reverse p))) in if decide (n = [] \/ n = [DOT; DOT]) then None else Some n.
(** The name at its last dot, which is not the first character. *)
Fixpoint cut_dot (r acc : str) : option (str * str) :=
  match r with [] => None | c :: r' => if decide (c = DOT) then Some (reverse r', acc) else cut_dot r' (c :: acc) end.
Definition extension (p : PathBuf) : option str :=
  match file_name p ≫= fun n => cut_dot (reverse n) [] with Some (_ :: _, e) => Some e | _ => None end.
Definition file_stem (p : PathBuf) : option str :=
  n ← file_name p; match cut_dot (reverse n) [] with Some (_ :: _ as s, _) => Some s | _ => Some n end.

(** ** The tree *)

(** Where something is, the last component first; the root is the empty list. *)
Definition place : Type := list str.
Inductive entry : Type := EDir | EFile (ino : Z) | ELink (absolute : bool) (target : list comp).
Record inode : Type := mkInode { data : list Z; modified : Z }.
Record Fs : Type := mkFs { names : gmap place entry; inodes : gmap Z inode; next_ino : Z; cwd : place; clock : Z }.
#[export] Instance set_names : Setter names := _.
#[export] Instance set_inodes : Setter inodes := _.
#[export] Instance set_next_ino : Setter next_ino := _.

Implicit Types (f : Fs) (p q : PathBuf) (k d : place) (n : str).

Definition entry_at k f : option entry := if decide (k = []) then Some EDir else names f !! k.

(** What a path leads to: something, a free name in a directory, or nothing. *)
Inductive found : Type := Found (k : place) (e : entry) | Free (d : place) (n : str) | Nowhere.

Fixpoint walk (links : nat) (follow : bool) (cur : place) (rest : list comp) f {struct links} : found :=
  (fix go (cur : place) (rest : list comp) {struct rest} : found :=
     match rest with
     | [] => Found cur EDir
     | Up :: rest => go (tail cur) rest
     | Name n :: rest =>
         match names f !! (n :: cur) with
         | None => if decide (rest = []) then Free cur n else Nowhere
         | Some EDir => go (n :: cur) rest
         | Some (EFile i) => if decide (rest = []) then Found (n :: cur) (EFile i) else Nowhere
         | Some (ELink absolute target) =>
             if decide (rest = [] /\ follow = false) then Found (n :: cur) (ELink absolute target)
             else match links with
                  | O => Nowhere
                  | S links => walk links follow (if absolute then [] else cur) (target ++ rest) f
                  end
         end
     end) cur rest.
Definition MAX_LINKS : nat := 40.
Definition lookup (follow : bool) p f : found := if decide (p = []) then Nowhere else walk MAX_LINKS follow (if is_absolute p then [] else cwd f) (comps p) f.

(** ** Questions *)
Definition stat p f : option (place * entry) := match lookup true p f with Found k e => Some (k, e) | _ => None end.
Definition exists_ p f : bool := bool_decide (is_Some (stat p f)).
Definition is_dir p f : bool := match stat p f with Some (_, EDir) => true | _ => false end.
Definition file_at p f : option inode := match stat p f with Some (_, EFile i) => inodes f !! i | _ => None end.
Definition read p f : option (list Z) := data <$> file_at p f.
(** [metadata().len()] and [modified()]; a directory has some size and time that
    the code does not look at. *)
Definition len p f : option Z := match stat p f with Some (_, EFile i) => Z.of_nat ∘ length ∘ data <$> inodes f !! i | Some _ => Some 4096 | None => None end.
Definition mtime p f : option Z := match stat p f with Some (_, EFile i) => modified <$> inodes f !! i | Some _ => Some 0 | None => None end.
Definition symlink_metadata p f : option entry := match lookup false p f with Found _ e => Some e | _ => None end.
Definition children k f : list str :=
  omap (fun ke => match ke.1 with n :: k' => if decide (k' = k) then Some n else None | [] => None end) (map_to_list (names f)).
Definition read_dir p f : option (list str) := match stat p f with Some (k, EDir) => Some (children k f) | _ => None end.
Definition canonicalize p f : option place := fst <$> stat p f.
(** A place as an absolute path. *)
Definition path_of k : PathBuf := match k with [] => [SLASH] | _ => concat (map (fun n => SLASH :: n) (reverse k)) end.

(** ** Changes; the flag says whether the call succeeded *)
Definition put k (e : entry) f : Fs := f <| names ::= <[k := e]> |>.
Definition add_file k (bs : list Z) f : Fs :=
  f <| names ::= <[k := EFile (next_ino f)]> |> <| inodes ::= <[next_ino f := mkInode bs (clock f)]> |> <| next_ino ::= Z.add 1 |>.
Definition set_data (i : Z) (bs : list Z) f : Fs := f <| inodes ::= <[i := mkInode bs (clock f)]> |>.

Definition mkdir p f : Fs * bool := match lookup false p f with Free d n => (put (n :: d) EDir f, true) | _ => (f, false) end.
(** [create_dir_all]: every directory on the way that is missing. *)
Fixpoint make_dirs (cs : list comp) (done : list comp) (start : place) f : Fs * bool :=
  match cs with
  | [] => (f, true)
  | c :: cs =>
      let done := done ++ [c] in
      match walk MAX_LINKS true start done f with
      | Found _ EDir => make_dirs cs done start f
      | _ =>
          match walk MAX_LINKS false start done f with
          | Free d n => make_dirs cs done start (put (n :: d) EDir f)
          | _ => (f, false)
          end
      end
  end.
Definition create_dir_all p f : Fs * bool := make_dirs (comps p) [] (if is_absolute p then [] else cwd f) f.

(** [write]: a new file, or the new contents of the old one. *)
Definition write p (bs : list Z) f : Fs * bool :=
  match lookup true p f with
  | Found _ (EFile i) => (set_data i bs f, true)
  | Free d n => (add_file (n :: d) bs f, true)
  | _ => (f, false)
  end.
Definition append p (bs : list Z) f : Fs * bool :=
  match stat p f with
  | Some (_, EFile i) => match inodes f !! i with Some x => (set_data i (data x ++ bs) f, true) | None => (f, false) end
  | _ => (f, false)
  end.
Definition copy p q f : Fs * bool := match read p f with Some bs => write q bs f | None => (f, false) end.
Definition remove_file p f : Fs * bool :=
  match lookup false p f with Found _ EDir => (f, false) | Found k _ => (f <| names ::= delete k |>, true) | _ => (f, false) end.
Definition below (k k' : place) : bool := bool_decide (k `suffix_of` k').
Definition remove_dir_all p f : Fs * bool :=
  match lookup false p f with
  | Found k EDir => (f <| names ::= filter (fun ke => below k ke.1 = false) |>, true)
  | Found k (ELink _ _) => (f <| names ::= delete k |>, true)
  | _ => (f, false)
  end.
Definition hard_link p q f : Fs * bool :=
  match lookup false p f, lookup false q f with
  | Found _ (EFile i), Free d n => (put (n :: d) (EFile i) f, true)
  | _, _ => (f, false)
  end.
Definition symlink (absolute : bool) (target : list comp) q f : Fs * bool :=
  match lookup false q f with Free d n => (put (n :: d) (ELink absolute target) f, true) | _ => (f, false) end.

(** ** Text files *)
Definition encode_utf8 (s : str) : list Z := concat (map Pe.encode_utf8_char s).
(** [read_to_string] fails on bytes that are not UTF-8. *)
Definition read_to_string p f : option str := read p f ≫= Pe.from_utf8.

(** ** Paths and places *)

(** What a directory can list. *)
Definition name_ok n : Prop := n <> [] /\ SLASH ∉ n /\ n <> [DOT] /\ n <> [DOT; DOT].
#[export] Instance name_ok_dec n : Decision (name_ok n).
Proof. unfold name_ok. apply _. Defined.

(** The text [p] names the place [k], without detours. *)
Definition loc p k : Prop := is_absolute p = true /\ comps p = map Name (reverse k).

Lemma split_char_snoc c a s acc : RegFile.split_char c (a ++ c :: s) acc = RegFile.split_char c a acc ++ RegFile.split_char c s [].
Proof. revert acc; induction a as [|x a IH]; intros acc; cbn [app RegFile.split_char]; [by rewrite decide_True|]. case_decide; [by rewrite IH|apply IH]. Qed.

Lemma comps_join p q : is_absolute q = false -> comps (join p q) = comps p ++ comps q.
Proof.
  intros Hq. unfold join. rewrite Hq. case_decide as Hp.
  - destruct Hp as [->|Hl]; [done|]. destruct p as [|x p _] using rev_ind; [done|]. rewrite last_snoc in Hl. injection Hl as ->.
    rewrite <- app_assoc. cbn [app]. unfold comps. rewrite !split_char_snoc, !omap_app. by rewrite app_nil_r.
  - unfold comps. by rewrite split_char_snoc, omap_app.
Qed.

Lemma absolute_join p q : is_absolute p = true -> is_absolute q = false -> is_absolute (join p q) = true.
Proof. intros Hp Hq. unfold join. rewrite Hq. destruct p as [|c p]; [done|]. by case_decide. Qed.

Lemma loc_join p q k r : loc p k -> is_absolute q = false -> comps q = map Name (reverse r) -> loc (join p q) (r ++ k).
Proof. intros [Ha Hc] Hq Hr. split; [by apply absolute_join|]. by rewrite comps_join, Hc, Hr, reverse_app, map_app. Qed.

Lemma name_comps n : name_ok n -> is_absolute n = false /\ comps n = [Name n].
Proof.
  intros (Hn & Hs & H1 & H2). split.
  - unfold is_absolute. apply bool_decide_eq_false. intros Hh. destruct n as [|c n]; [done|]. injection Hh as ->. apply Hs. by left.
  - unfold comps. rewrite RegFile.split_char_end by done. cbn. unfold comp_of. rewrite !decide_False by naive_solver. done.
Qed.

Lemma loc_name p k n : loc p k -> name_ok n -> loc (join p n) (n :: k).
Proof. intros Hp [Ha Hc]%name_comps. apply (loc_join p n k [n]); done. Qed.

(** ** Plain places *)

(** A tree: what has a name is in a directory, and the inodes are there. *)
Record wf (f : Fs) : Prop := {
  wf_root : names f !! [] = None;
  wf_parent : forall n k e, names f !! (n :: k) = Some e -> entry_at k f = Some EDir /\ name_ok n;
  wf_inode : forall k i, names f !! k = Some (EFile i) -> is_Some (inodes f !! i);
  wf_next : forall i, is_Some (inodes f !! i) -> i < next_ino f;
}.

Inductive view : Type := VDir | VFile (bs : list Z) | VLink.
#[export] Instance view_eq_dec : EqDecision view.
Proof. solve_decision. Defined.
Definition view_of (f : Fs) (e : entry) : option view :=
  match e with EDir => Some VDir | EFile i => VFile ∘ data <$> inodes f !! i | ELink _ _ => Some VLink end.
(** What is at a place. *)
Definition look f k : option view := entry_at k f ≫= view_of f.

Lemma entry_cons n k f : entry_at (n :: k) f = names f !! (n :: k).
Proof. unfold entry_at. by rewrite decide_False. Qed.
Lemma look_cons n k f : look f (n :: k) = names f !! (n :: k) ≫= view_of f.
Proof. unfold look. by rewrite entry_cons. Qed.

Lemma look_root f : look f [] = Some VDir.
Proof. done. Qed.

Lemma look_none f k : wf f -> look f k = None <-> entry_at k f = None.
Proof.
  intros Hwf. unfold look. destruct (entry_at k f) as [e|] eqn:He; [|done]. cbn. split; [|done]. destruct e as [|i|]; cbn; [done| |done].
  unfold entry_at in He. case_decide; [done|]. destruct (wf_inode f Hwf _ _ He) as [x ->]. done.
Qed.

Lemma look_dir f k : look f k = Some VDir <-> entry_at k f = Some EDir.
Proof. unfold look. destruct (entry_at k f) as [[|i|]|]; cbn; [done| |done..]. destruct (inodes f !! i); done. Qed.

Lemma look_parent f n k : wf f -> look f (n :: k) <> None -> look f k = Some VDir /\ name_ok n.
Proof.
  intros Hwf Hl. rewrite look_none, entry_cons in Hl by done. destruct (names f !! (n :: k)) as [e|] eqn:He; [|done].
  destruct (wf_parent f Hwf _ _ _ He) as [Hd Hn]. split; [by apply look_dir|done].
Qed.

Lemma dir_above f k r : wf f -> look f (r ++ k) <> None -> r <> [] -> look f k = Some VDir.
Proof.
  intros Hwf. induction r as [|n r IH]; intros Hl Hr; [done|]. cbn in Hl.
  destruct (look_parent f n (r ++ k) Hwf Hl) as [Hd _]. destruct r as [|m r]; [done|]. apply IH; [congruence|done].
Qed.

(** No symbolic link on the way. *)
Definition plain f k : Prop := forall k', k' `suffix_of` k -> look f k' <> Some VLink.

Lemma plain_tail f n k : plain f (n :: k) -> plain f k.
Proof. intros Hp k' Hs. apply Hp. by apply suffix_cons_r. Qed.

Lemma plain_dir f k : wf f -> look f k = Some VDir -> plain f k.
Proof.
  intros Hwf Hd k' [r ->]. destruct r as [|n r]; [by rewrite app_nil_l in Hd; rewrite Hd|]. rewrite (dir_above f k' (n :: r)); [done|done|congruence|done].
Qed.

Lemma walk_eq links follow cur rest f : walk links follow cur rest f =
  match rest with
  | [] => Found cur EDir
  | Up :: rest => walk links follow (tail cur) rest f
  | Name n :: rest =>
      match names f !! (n :: cur) with
      | None => if decide (rest = []) then Free cur n else Nowhere
      | Some EDir => walk links follow (n :: cur) rest f
      | Some (EFile i) => if decide (rest = []) then Found (n :: cur) (EFile i) else Nowhere
      | Some (ELink absolute target) =>
          if decide (rest = [] /\ follow = false) then Found (n :: cur) (ELink absolute target)
          else match links with O => Nowhere | S links => walk links follow (if absolute then [] else cur) (target ++ rest) f end
      end
  end.
Proof. by destruct links, rest as [|[|n] rest]. Qed.

Lemma walk_dirs links follow k rest f : wf f -> look f k = Some VDir ->
  walk links follow [] (map Name (reverse k) ++ rest) f = walk links follow k rest f.
Proof.
  intros Hwf. revert rest; induction k as [|n k IH]; intros rest Hd; [done|].
  rewrite reverse_cons, map_app, <- app_assoc. cbn [map app]. destruct (look_parent f n k Hwf) as [Hk _]; [congruence|].
  rewrite IH by done. rewrite walk_eq. apply look_dir in Hd. rewrite entry_cons in Hd. by rewrite Hd.
Qed.

(** Below something that is no directory there is nothing. *)
Lemma walk_missing links follow k rest f : wf f -> plain f k -> look f k <> Some VDir -> k <> [] -> rest <> [] ->
  walk links follow [] (map Name (reverse k) ++ rest) f = Nowhere.
Proof.
  intros Hwf. revert rest; induction k as [|n k IH]; intros rest Hp Hd _ Hr; [done|].
  rewrite reverse_cons, map_app, <- app_assoc. cbn [map app].
  destruct (decide (look f k = Some VDir)) as [Hk|Hk].
  - rewrite walk_dirs by done. rewrite walk_eq. assert (look f (n :: k) <> Some VLink) as Hnl by (by apply Hp).
    rewrite look_cons in Hd, Hnl. destruct (names f !! (n :: k)) as [[|i|a t]|]; cbn in Hd, Hnl; [done|..]; rewrite ?decide_False by done; done.
  - apply IH; [by eapply plain_tail|done| |done]. intros ->. done.
Qed.

Definition found_at k f : found :=
  match entry_at k f with
  | Some e => Found k e
  | None => match k with n :: d => if decide (look f d = Some VDir) then Free d n else Nowhere | [] => Nowhere end
  end.

Lemma lookup_plain follow p k f : wf f -> loc p k -> plain f k -> lookup follow p f = found_at k f.
Proof.
  intros Hwf [Ha Hc] Hp. unfold lookup. rewrite decide_False by (by intros ->). rewrite Ha, Hc. destruct k as [|n k]; [done|]. rewrite reverse_cons, map_app. cbn [map].
  unfold found_at. destruct (decide (look f k = Some VDir)) as [Hk|Hk].
  - rewrite walk_dirs by done. rewrite walk_eq, entry_cons.
    assert (look f (n :: k) <> Some VLink) as Hnl by (by apply Hp). rewrite look_cons in Hnl.
    destruct (names f !! (n :: k)) as [[|i|a t]|]; cbn in Hnl; [by rewrite walk_eq|by rewrite decide_True|done|by rewrite !decide_True].
  - rewrite walk_missing; [|done|by eapply plain_tail|done|intros ->; done|done].
    assert (entry_at (n :: k) f = None) as ->; [|done]. apply look_none; [done|]. destruct (look f (n :: k)) eqn:Hl; [|done].
    destruct (look_parent f n k Hwf) as [? _]; congruence.
Qed.

Section plain_place.
Context (f : Fs) (Hwf : wf f) (p : PathBuf) (k : place) (Hloc : loc p k) (Hplain : plain f k).

Lemma stat_plain : stat p f = (fun e => (k, e)) <$> entry_at k f.
Proof.
  unfold stat. rewrite (lookup_plain true p k f) by done. unfold found_at. destruct (entry_at k f); [done|]. destruct k; [done|]. by case_decide.
Qed.

Lemma exists_plain : exists_ p f = bool_decide (look f k <> None).
Proof.
  unfold exists_. rewrite stat_plain. apply bool_decide_ext. rewrite fmap_is_Some, look_none by done. rewrite <- not_eq_None_Some. done.
Qed.

Lemma is_dir_plain : is_dir p f = bool_decide (look f k = Some VDir).
Proof.
  unfold is_dir. rewrite stat_plain. destruct (entry_at k f) as [[|i|]|] eqn:He; cbn; symmetry.
  - apply bool_decide_eq_true. by apply look_dir.
  - apply bool_decide_eq_false. rewrite look_dir. congruence.
  - apply bool_decide_eq_false. rewrite look_dir. congruence.
  - apply bool_decide_eq_false. rewrite look_dir. congruence.
Qed.

Lemma read_plain : read p f = match look f k with Some (VFile bs) => Some bs | _ => None end.
Proof.
  unfold read, file_at. rewrite stat_plain. unfold look. destruct (entry_at k f) as [[|i|]|]; cbn; try done. destruct (inodes f !! i); done.
Qed.

Lemma read_dir_plain : read_dir p f = if decide (look f k = Some VDir) then Some (children k f) else None.
Proof.
  unfold read_dir. rewrite stat_plain. case_decide as Hd.
  - apply look_dir in Hd. by rewrite Hd.
  - rewrite look_dir in Hd. destruct (entry_at k f) as [[|i|]|]; done.
Qed.
End plain_place.

Lemma elem_of_listing f k n : wf f -> n ∈ children k f <-> look f (n :: k) <> None.
Proof.
  intros Hwf. rewrite look_none, entry_cons by done. unfold children. rewrite list_elem_of_omap. split.
  - intros ([k' e] & Hin%elem_of_map_to_list & Hk). cbn in Hk. destruct k' as [|n' k']; [done|]. case_decide; [|done]. simplify_eq. congruence.
  - intros He. destruct (names f !! (n :: k)) as [e|] eqn:Hn; [|done]. exists (n :: k, e). split; [by apply elem_of_map_to_list|]. cbn. by rewrite decide_True.
Qed.

Lemma NoDup_listing f k : NoDup (children k f).
Proof.
  unfold children. assert (NoDup (map_to_list (names f)).*1) as Hnd by apply NoDup_fst_map_to_list. induction (map_to_list (names f)) as [|[k' e] l IH]; [constructor|].
  cbn in Hnd |- *. apply NoDup_cons in Hnd as [Hni Hnd]. destruct k' as [|n k']; [auto|]. case_decide; [subst|auto]. constructor; [|auto].
  intros ([k' e'] & Hin & Hk)%list_elem_of_omap. cbn in Hk. destruct k' as [|n' k']; [done|]. case_decide; [|done]. simplify_eq.
  apply Hni, list_elem_of_fmap. by exists (n :: k, e').
Qed.

(** ** What the changes do to plain places *)

Lemma split_no_char c s acc : c ∉ acc -> Forall (fun x => c ∉ x) (RegFile.split_char c s acc).
Proof.
  revert acc; induction s as [|x s IH]; intros acc Hacc; cbn [RegFile.split_char].
  - repeat constructor. by rewrite elem_of_reverse.
  - case_decide; [constructor; [by rewrite elem_of_reverse|]; apply IH; by intros ?%elem_of_nil|]. apply IH. intros [->|?]%elem_of_cons; done.
Qed.

Lemma loc_names p k : loc p k -> Forall name_ok k.
Proof.
  intros [_ Hc]. unfold comps in Hc. pose proof (split_no_char SLASH p [] ltac:(by intros ?%elem_of_nil)) as Hs.
  apply Forall_forall. intros n Hn. assert (Name n ∈ map Name (reverse k)) as Hin by (apply list_elem_of_fmap; exists n; by rewrite elem_of_reverse).
  rewrite <- Hc in Hin. apply list_elem_of_omap in Hin as (x & Hx & Hcx). rewrite Forall_forall in Hs. specialize (Hs x Hx).
  unfold comp_of in Hcx. repeat case_decide; simplify_eq. unfold name_ok. naive_solver.
Qed.

(** [f'] is [f] with [v] at the place [k]. *)
Definition adds k (v : view) f f' : Prop := wf f' /\ forall k', look f' k' = if decide (k' = k) then Some v else look f k'.

Section adding.
Context (f : Fs) (Hwf : wf f) (d : place) (n : str) (Hd : look f d = Some VDir) (Hn : name_ok n) (Hfree : look f (n :: d) = None).

Lemma free_name : names f !! (n :: d) = None.
Proof. apply look_none in Hfree; [|done]. by rewrite entry_cons in Hfree. Qed.

Lemma put_dir_adds : adds (n :: d) VDir f (put (n :: d) EDir f).
Proof.
  pose proof free_name as Hf. assert (forall k, entry_at k (put (n :: d) EDir f) = if decide (k = n :: d) then Some EDir else entry_at k f) as He.
  { intros k. unfold entry_at. cbn. destruct (decide (k = [])) as [->|]; [by rewrite decide_False|]. case_decide as Hk; [subst; by rewrite lookup_insert_eq|by rewrite lookup_insert_ne]. }
  split.
  - destruct Hwf as [Hr Hp Hi Hx]. split; [|..].
    + cbn. by rewrite lookup_insert_ne.
    + intros m k e Hm. rewrite He. cbn in Hm. apply lookup_insert_Some in Hm as [[[= <- <-] <-]|[Hne Hm]].
      * split; [|done]. case_decide; [done|]. by apply look_dir.
      * destruct (Hp _ _ _ Hm) as [Hk ?]. split; [|done]. by case_decide.
    + intros k i Hk. cbn in Hk |- *. apply lookup_insert_Some in Hk as [[_ ?]|[_ Hk]]; [done|]. by eapply Hi.
    + exact Hx.
  - intros k. unfold look. rewrite He. by case_decide.
Qed.

Lemma add_file_adds bs : adds (n :: d) (VFile bs) f (add_file (n :: d) bs f).
Proof.
  pose proof free_name as Hf. assert (inodes f !! next_ino f = None) as Hfr.
  { apply eq_None_not_Some. intros Hs%(wf_next f Hwf). lia. }
  assert (forall k, entry_at k (add_file (n :: d) bs f) = if decide (k = n :: d) then Some (EFile (next_ino f)) else entry_at k f) as He.
  { intros k. unfold entry_at. cbn. destruct (decide (k = [])) as [->|]; [by rewrite decide_False|]. case_decide as Hk; [subst; by rewrite lookup_insert_eq|by rewrite lookup_insert_ne]. }
  split.
  - destruct Hwf as [Hr Hp Hi Hx]. split.
    + cbn. by rewrite lookup_insert_ne.
    + intros m k e Hm. rewrite He. cbn in Hm. apply lookup_insert_Some in Hm as [[[= <- <-] <-]|[Hne Hm]].
      * split; [|done]. case_decide as Hk; [|by apply look_dir]. exfalso. by apply (f_equal length) in Hk; cbn in Hk; lia.
      * destruct (Hp _ _ _ Hm) as [Hk ?]. split; [|done]. case_decide as Hk'; [|done]. subst. rewrite entry_cons in Hk. congruence.
    + intros k i Hk. cbn in Hk |- *. apply lookup_insert_Some in Hk as [[_ [= <-]]|[_ Hk]]; [by rewrite lookup_insert_eq|].
      destruct (Hi _ _ Hk) as [x Hxi]. rewrite lookup_insert_ne; [by exists x|]. intros <-. congruence.
    + intros i [x Hxi]. cbn in Hxi |- *. apply lookup_insert_Some in Hxi as [[<- _]|[_ Hxi]]; [lia|]. assert (i < next_ino f) by (apply Hx; by exists x). lia.
  - intros k. unfold look. rewrite He. case_decide as Hk; [cbn; by rewrite lookup_insert_eq|].
    destruct (entry_at k f) as [[|i|]|] eqn:Hek; cbn; try done. destruct (decide (next_ino f = i)) as [<-|]; [|by rewrite lookup_insert_ne].
    rewrite Hfr. exfalso. unfold entry_at in Hek. case_decide; [done|]. destruct (wf_inode f Hwf _ _ Hek). congruence.
Qed.
End adding.

(** What is left of a place, or fresh. *)
Definition open_place f k : Prop := forall k', k' `suffix_of` k -> look f k' = None \/ look f k' = Some VDir.

Lemma open_plain f k : open_place f k -> plain f k.
Proof. intros Ho k' Hs. destruct (Ho k' Hs); congruence. Qed.

(** [f'] has the directories down to [k] besides what [f] has. *)
Definition adds_dirs k f f' : Prop := wf f' /\ forall k', look f' k' = if decide (k' `suffix_of` k) then Some VDir else look f k'.

Lemma make_dirs_plain l d f : wf f -> look f d = Some VDir -> Forall name_ok l -> open_place f (reverse l ++ d) ->
  exists f', make_dirs (map Name l) (map Name (reverse d)) [] f = (f', true) /\ wf f' /\
    forall k', look f' k' = if decide (d `suffix_of` k' /\ k' `suffix_of` (reverse l ++ d)) then Some VDir else look f k'.
Proof.
  revert d f; induction l as [|n l IH]; intros d f Hwf Hd Hl Ho.
  { exists f. split; [done|]. split; [done|]. intros k'. cbn. case_decide as Hk; [|done]. destruct Hk as [H1 H2].
    assert (k' = d) as ->; [|done]. destruct H1 as [r1 ->], H2 as [r2 H2]. apply (f_equal length) in H2 as Hlen. rewrite !length_app in Hlen. destruct r1; [done|cbn in Hlen; lia]. }
  apply Forall_cons in Hl as [Hn Hl]. cbn [map make_dirs]. rewrite reverse_cons, <- app_assoc in Ho. cbn [app] in Ho.
  assert (map Name (reverse d) ++ [Name n] = map Name (reverse (n :: d))) as Hdone by (by rewrite reverse_cons, map_app).
  assert (forall follow, walk MAX_LINKS follow [] (map Name (reverse d) ++ [Name n]) f = walk MAX_LINKS follow d [Name n] f) as Hw by (intros; by apply walk_dirs).
  rewrite !Hw, Hdone, (walk_eq MAX_LINKS true), (walk_eq MAX_LINKS false). cbn [entry_at].
  assert (forall f1, wf f1 -> look f1 (n :: d) = Some VDir -> (forall k', look f1 k' = if decide (k' = n :: d) then Some VDir else look f k') ->
    exists f', make_dirs (map Name l) (map Name (reverse (n :: d))) [] f1 = (f', true) /\ wf f' /\
      forall k', look f' k' = if decide (d `suffix_of` k' /\ k' `suffix_of` (reverse (n :: l) ++ d)) then Some VDir else look f k') as Hgo.
  { intros f1 Hwf1 Hnd1 H1. destruct (IH (n :: d) f1 Hwf1 Hnd1 Hl) as (f' & Hm & Hwf' & Hlook).
    { intros k' Hs. rewrite H1. case_decide; [by right|by apply Ho]. }
    exists f'. split; [done|]. split; [done|]. intros k'. rewrite Hlook, H1, reverse_cons, <- app_assoc. cbn [app].
    destruct (decide (k' `suffix_of` (reverse l ++ n :: d))) as [Hs|Hs].
    2:{ assert (k' <> n :: d) by (intros ->; apply Hs; by apply suffix_app_r). by rewrite !decide_False by tauto. }
    destruct (decide (d `suffix_of` k')) as [Hds|Hds].
    - rewrite (decide_True (P := d `suffix_of` k' /\ _)) by done. case_decide as Hns; [done|]. case_decide; [done|].
      destruct Hs as [r Hr], Hds as [r' ->]. destruct r' as [|m r' _] using rev_ind; [by cbn; rewrite Hd|]. exfalso. apply Hns. split; [|by exists r].
      rewrite <- app_assoc in Hr |- *. cbn [app] in Hr |- *. rewrite app_assoc in Hr.
      assert (m = n) as ->; [|by apply suffix_app_r]. apply (f_equal reverse) in Hr. rewrite !reverse_app, !reverse_cons, <- !app_assoc in Hr.
      apply app_inv_head in Hr. by injection Hr.
    - assert (k' <> n :: d) by (intros ->; apply Hds; by apply suffix_cons_r).
      assert (~ (n :: d) `suffix_of` k') by (intros Hc; apply Hds; etrans; [|exact Hc]; by apply suffix_cons_r).
      by rewrite !decide_False by tauto. }
  destruct (Ho (n :: d)) as [Hnone|Hdir]; [by apply suffix_app_r| |].
  - apply look_none in Hnone as He; [|done]. rewrite entry_cons in He. rewrite He. cbn. destruct (put_dir_adds f Hwf d n Hd Hn Hnone) as [Hwf1 H1].
    apply Hgo; [done| |done]. by rewrite H1, decide_True.
  - apply look_dir in Hdir as He. rewrite entry_cons in He. rewrite He. rewrite (walk_eq MAX_LINKS true). apply Hgo; [done|done|].
    intros k'. case_decide; [by subst|done].
Qed.

Lemma create_dir_all_plain p k f : wf f -> loc p k -> open_place f k -> exists f', create_dir_all p f = (f', true) /\ adds_dirs k f f'.
Proof.
  intros Hwf Hl Ho. pose proof (loc_names p k Hl) as Hn. destruct Hl as [Ha Hc]. unfold create_dir_all. rewrite Ha, Hc.
  destruct (make_dirs_plain (reverse k) [] f Hwf) as (f' & Hm & Hwf' & H1); [done|by apply Forall_reverse|by rewrite reverse_involutive, app_nil_r|].
  exists f'. split; [exact Hm|]. split; [done|]. intros k'. rewrite H1, reverse_involutive, app_nil_r. destruct (decide (k' `suffix_of` k)).
  - rewrite decide_True; [done|]. split; [apply suffix_nil|done].
  - rewrite decide_False; [done|tauto].
Qed.

(** A copy to a free name. *)
Lemma copy_free p q k d n bs f : wf f -> loc p k -> plain f k -> look f k = Some (VFile bs) ->
  loc q (n :: d) -> plain f (n :: d) -> look f d = Some VDir -> look f (n :: d) = None ->
  exists f', copy p q f = (f', true) /\ adds (n :: d) (VFile bs) f f'.
Proof.
  intros Hwf Hp Hpp Hk Hq Hqp Hd Hf. unfold copy. rewrite (read_plain f Hwf p k Hp Hpp), Hk. unfold write.
  rewrite (lookup_plain true q (n :: d) f) by done. unfold found_at. apply look_none in Hf as He; [|done]. rewrite He, decide_True by done.
  eexists. split; [done|]. apply add_file_adds; [done..| |done]. apply loc_names in Hq. by apply Forall_cons in Hq as [? _].
Qed.

Lemma remove_dir_all_plain p k f : wf f -> loc p k -> k <> [] -> look f k = Some VDir ->
  exists f', remove_dir_all p f = (f', true) /\ wf f' /\ forall k', look f' k' = if decide (k `suffix_of` k') then None else look f k'.
Proof.
  intros Hwf Hl Hk Hd. unfold remove_dir_all. rewrite (lookup_plain false p k f) by (auto using plain_dir). unfold found_at.
  apply look_dir in Hd as He. rewrite He. eexists. split; [done|]. set (f' := f <| names ::= _ |>).
  assert (forall k' e, names f' !! k' = Some e <-> names f !! k' = Some e /\ ~ k `suffix_of` k') as Hn.
  { intros k' e. cbn. rewrite map_lookup_filter_Some. cbn. unfold below. by rewrite bool_decide_eq_false. }
  assert (forall k', entry_at k' f' = if decide (k `suffix_of` k') then None else entry_at k' f) as He'.
  { intros k'. unfold entry_at. destruct (decide (k' = [])) as [->|Hne].
    - rewrite decide_False; [done|]. by intros ?%suffix_nil_inv.
    - destruct (names f' !! k') as [e|] eqn:Hf'; [apply Hn in Hf' as [-> ?]; by rewrite decide_False|].
      case_decide; [done|]. destruct (names f !! k') as [e|] eqn:Hf; [|done]. assert (names f' !! k' = Some e) by (apply Hn; done). congruence. }
  split.
  - destruct Hwf as [Hr Hp Hi Hx]. split.
    + destruct (names f' !! []) as [e|] eqn:Hf'; [|done]. apply Hn in Hf' as [Hf0 _]. exact (eq_trans (eq_sym Hf0) Hr).
    + intros n k' e [Hf Hs]%Hn. destruct (Hp _ _ _ Hf) as [Hd' ?]. split; [|done]. rewrite He', decide_False; [done|]. intros Hs'. apply Hs. by apply suffix_cons_r.
    + intros k' i [Hf _]%Hn. by eapply Hi.
    + exact Hx.
  - intros k'. unfold look. rewrite He'. by case_decide.
Qed.

(** Removing what is no directory. *)
Lemma remove_file_plain p k f : wf f -> loc p k -> plain f k -> look f k <> Some VDir ->
  let f' := (remove_file p f).1 in wf f' /\ forall x, look f' x = if decide (x = k) then None else look f x.
Proof.
  intros Hwf Hl Hp Hd. unfold remove_file. rewrite (lookup_plain false p k f) by done. unfold found_at. rewrite look_dir in Hd.
  destruct (entry_at k f) as [e|] eqn:He.
  2:{ assert (look f k = None) as Hn by (by apply look_none). destruct k as [|n d]; [done|]. case_decide; cbn [fst]; (split; [done|]); intros x; case_decide; by subst. }
  assert (forall x, entry_at x (f <| names ::= delete k |>) = if decide (x = k) then None else entry_at x f) as Hx.
  { intros x. unfold entry_at. cbn. destruct (decide (x = [])) as [->|].
    - rewrite decide_False; [done|]. intros <-. by destruct Hd.
    - case_decide; [subst; by rewrite lookup_delete_eq|by rewrite lookup_delete_ne]. }
  assert (wf (f <| names ::= delete k |>) /\ forall x, look (f <| names ::= delete k |>) x = if decide (x = k) then None else look f x) as Hres.
  { split.
    - destruct Hwf as [Hr Hpa Hi Hn]. split.
      + cbn. apply lookup_delete_None. by right.
      + intros n x e' Hn'. rewrite Hx. cbn in Hn'. apply lookup_delete_Some in Hn' as [_ Hn']. destruct (Hpa _ _ _ Hn') as [Hxd ?]. split; [|done].
        case_decide; [subst; congruence|done].
      + intros x i Hxi. cbn in Hxi |- *. apply lookup_delete_Some in Hxi as [_ Hxi]. by eapply Hi.
      + exact Hn.
    - intros x. unfold look. rewrite Hx. by case_decide. }
  destruct e; [done|exact Hres|exact Hres].
Qed.

Lemma len_plain p k f : wf f -> loc p k -> plain f k -> look f k <> Some VDir ->
  len p f = match look f k with Some (VFile bs) => Some (Z.of_nat (length bs)) | _ => None end.
Proof.
  intros Hwf Hl Hp Hd. unfold len. rewrite (stat_plain f Hwf p k Hl Hp). pose proof (Hp k (reflexivity k)) as Hnl. unfold look in *.
  destruct (entry_at k f) as [[|i|]|]; cbn in *; try done. destruct (inodes f !! i); done.
Qed.

(** ** The parent of a path *)
Lemma drop_slashes_app n r : n <> [] -> SLASH ∉ n -> drop_slashes (n ++ r) = n ++ r.
Proof. destruct n as [|c n]; [done|]. intros _ Hn. cbn. rewrite decide_False; [done|]. intros ->. apply Hn. by left. Qed.
Lemma drop_name_app n r : SLASH ∉ n -> drop_name (n ++ SLASH :: r) = SLASH :: r.
Proof. induction n as [|c n IH]; intros Hn; cbn; [done|]. rewrite decide_False by (intros ->; apply Hn; by left). apply IH. intros ?. apply Hn. by right. Qed.

Lemma comps_trim p : comps (reverse (drop_slashes (reverse p))) = comps p.
Proof.
  induction p as [|c p IH] using rev_ind; [done|]. rewrite reverse_snoc. cbn [drop_slashes]. case_decide as Hc; [|by rewrite reverse_cons, reverse_involutive].
  rewrite IH. subst. unfold comps. rewrite split_char_snoc, omap_app. cbn. by rewrite app_nil_r.
Qed.

Lemma absolute_trim p : is_absolute p = true -> drop_slashes (reverse p) <> [] -> is_absolute (reverse (drop_slashes (reverse p))) = true.
Proof.
  induction p as [|c p IH] using rev_ind; [done|]. rewrite reverse_snoc. cbn [drop_slashes]. case_decide as Hc; [|by rewrite reverse_cons, reverse_involutive].
  intros Ha Hn. apply IH; [|done]. destruct p; [done|]. done.
Qed.

Lemma parent_join p k n : loc p k -> name_ok n -> exists p', parent (join p n) = Some p' /\ loc p' k.
Proof.
  intros [Ha Hc] Hn. pose proof Hn as (Hne & Hs & _). destruct (name_comps n Hn) as [Hna _]. pose proof (absolute_join p n Ha Hna) as Habs.
  assert (exists q, join p n = q ++ SLASH :: n /\ drop_slashes (reverse q) = drop_slashes (reverse p)) as (q & Hj & Hq).
  { unfold join. rewrite Hna. case_decide as Hd; [|by exists p]. destruct Hd as [->|Hl]; [done|]. destruct p as [|x p _] using rev_ind; [done|].
    rewrite last_snoc in Hl. injection Hl as ->. exists p. split; [by rewrite <- app_assoc|]. rewrite reverse_snoc. cbn [drop_slashes]. by rewrite decide_True. }
  unfold parent. rewrite Habs, Hj, reverse_app, reverse_cons, <- app_assoc. cbn [app].
  assert (reverse n <> [] /\ SLASH ∉ reverse n) as [Hrn Hrs]. { split; [|by rewrite elem_of_reverse]. intros He. apply (f_equal reverse) in He. by rewrite reverse_involutive in He. }
  rewrite drop_slashes_app by done. destruct (reverse n ++ SLASH :: reverse q) as [|c l] eqn:Hl; [by destruct (reverse n)|]. rewrite <- Hl. clear c l Hl.
  rewrite drop_name_app by done. cbn [drop_slashes]. rewrite decide_True by done. rewrite Hq. destruct (drop_slashes (reverse p)) as [|c l] eqn:Hd.
  - exists [SLASH]. split; [done|]. split; [done|]. pose proof (comps_trim p) as Ht. rewrite Hd in Ht. rewrite <- Hc, <- Ht. done.
  - exists (reverse (c :: l)). split; [done|]. rewrite <- Hd. split; [apply absolute_trim; [done|congruence]|]. by rewrite comps_trim.
Qed.

End Fs.
