(* ===== verification/Saves.v ===== *)
(** * Protection of save data ([src/rust/src/quark/launcher.rs], lines 2044-2313)

    Before a game starts the launcher copies the save directories of the prefix;
    after it has ended, files that have gone missing are put back.  Crash dumps
    are removed before the start.  The recursions over directories take the depth
    as fuel. *)

From stdpp Require Import base list gmap sets strings.
From S2P Require Import Prelude Text Registry RegFile Fs.
Local Open Scope Z_scope.
Local Open Scope outcome_scope.

Module Saves.
Import Text Fs.
Local Notation lit := Registry.lit.
Implicit Types (f : Fs) (p q : PathBuf) (k d r : place) (n : str).

Definition SAVE_SCAN_DIRS : list PathBuf := Eval vm_compute in map lit ["AppData/Roaming"; "AppData/Local"; "AppData/LocalLow"; "Documents"]%string.
Definition SAVE_SKIP_DIRS : list str := Eval vm_compute in map lit ["Microsoft"; "Temp"]%string.
Definition USER_DIR : PathBuf := Eval vm_compute in lit "drive_c/users/steamuser".
Definition BACKUP : str := Eval vm_compute in lit "save_backup".
Definition MANIFEST : str := Eval vm_compute in lit "manifest.txt".

Definition eq_ignore_ascii_case (a b : str) : bool := bool_decide (map lower_ascii a = map lower_ascii b).
Definition skipped (l : list str) n : bool := existsb (eq_ignore_ascii_case n) l.

(** A loop whose body can run out of fuel. *)
Fixpoint ofold {A B} (g : A -> B -> outcome A) (l : list B) (a : A) : outcome A :=
  match l with [] => Ret a | x :: l => a <-! g a x ;; ofold g l a end.

(** [entry.metadata()] does not follow links. *)
Definition comp_len (c : comp) : nat := match c with Up => 2 | Name n => length n end.
Definition entry_len p f : Z :=
  match symlink_metadata p f with
  | Some (EFile i) => match inodes f !! i with Some x => Z.of_nat (length (data x)) | None => 0 end
  | Some (ELink absolute target) => Z.of_nat (foldr (fun c l => comp_len c + 1 + l)%nat (if absolute then 1 else 0)%nat target - 1)
  | Some EDir => 4096
  | None => 0
  end.

(** ** Copying *)
Fixpoint count_files_recursive (fuel : nat) (dir : PathBuf) f : outcome (Z * Z) :=
  match fuel with
  | O => OutOfFuel
  | S fuel =>
      match read_dir dir f with
      | None => Ret (0, 0)
      | Some ns =>
          ofold (fun acc n =>
            let path := join dir n in
            if is_dir path f then c <-! count_files_recursive fuel path f ;; Ret (u32 (acc.1 + c.1), u64 (acc.2 + c.2))
            else Ret (u32 (acc.1 + 1), u64 (acc.2 + entry_len path f))) ns (0, 0)
      end
  end.

Fixpoint copy_save_recursive (fuel : nat) (src dst : PathBuf) f : outcome Fs :=
  match fuel with
  | O => OutOfFuel
  | S fuel =>
      match create_dir_all dst f with
      | (f, false) => Ret f
      | (f, true) =>
          match read_dir src f with
          | None => Ret f
          | Some ns =>
              ofold (fun f n =>
                let src_path := join src n in
                let dst_path := join dst n in
                if is_dir src_path f then copy_save_recursive fuel src_path dst_path f else Ret (copy src_path dst_path f).1) ns f
          end
      end
  end.

(** One directory of a game. *)
Definition snapshot_entry (fuel : nat) (backup_dir scan_dir src : PathBuf) (st : Fs * Z * Z) n : outcome (Fs * Z * Z) :=
  let '(f, total_files, total_bytes) := st in
  let entry_path := join src n in
  if skipped SAVE_SKIP_DIRS n then Ret st
  else if negb (is_dir entry_path f) then Ret st
  else
    c <-! count_files_recursive fuel entry_path f ;;
    if decide (c.1 = 0) then Ret st
    else
      f <-! copy_save_recursive fuel entry_path (join (join backup_dir scan_dir) n) f ;;
      Ret (f, u32 (total_files + c.1), u64 (total_bytes + c.2)).

Definition snapshot_scan (fuel : nat) (backup_dir user_dir : PathBuf) (st : Fs * Z * Z) (scan_dir : PathBuf) : outcome (Fs * Z * Z) :=
  let src := join user_dir scan_dir in
  if negb (is_dir src st.1.1) then Ret st
  else match read_dir src st.1.1 with None => Ret st | Some ns => ofold (snapshot_entry fuel backup_dir scan_dir src) ns st end.

(** [decimal] is how [format!] prints a number. *)
Definition snapshot_save_data (decimal : Z -> str) (fuel : nat) (pfx : PathBuf) f : outcome (Fs * option PathBuf) :=
  let user_dir := join pfx USER_DIR in
  if negb (exists_ user_dir f) then Ret (f, None)
  else
    match parent pfx with
    | None => Ret (f, None)
    | Some up =>
        let backup_dir := join up BACKUP in
        let f := if exists_ backup_dir f then (remove_dir_all backup_dir f).1 else f in
        st <-! ofold (snapshot_scan fuel backup_dir user_dir) SAVE_SCAN_DIRS (f, 0, 0) ;;
        let '(f, total_files, total_bytes) := st in
        if decide (total_files = 0) then Ret (f, None)
        else
          let manifest := decimal total_files ++ lit " files, " ++ decimal total_bytes ++ lit " bytes" ++ [10] in
          Ret ((write (join backup_dir MANIFEST) (encode_utf8 manifest) f).1, Some backup_dir)
    end.

(** ** Restoring *)
Definition restore_file (backup_file original_file : PathBuf) (st : Fs * (Z * Z)) : Fs * (Z * Z) :=
  let '(f, (restored, unchanged)) := st in
  if exists_ original_file f then (f, (restored, u32 (unchanged + 1)))
  else
    let f := match parent original_file with Some dir => (create_dir_all dir f).1 | None => f end in
    match copy backup_file original_file f with
    | (f, true) => (f, (u32 (restored + 1), unchanged))
    | (f, false) => (f, (restored, unchanged))
    end.

Fixpoint restore_missing_files (fuel : nat) (backup original : PathBuf) f : outcome (Fs * (Z * Z)) :=
  match fuel with
  | O => OutOfFuel
  | S fuel =>
      match read_dir backup f with
      | None => Ret (f, (0, 0))
      | Some ns =>
          ofold (fun st n =>
            let backup_file := join backup n in
            let original_file := join original n in
            if is_dir backup_file st.1 then
              c <-! restore_missing_files fuel backup_file original_file st.1 ;;
              Ret (c.1, (u32 (st.2.1 + c.2.1), u32 (st.2.2 + c.2.2)))
            else Ret (restore_file backup_file original_file st)) ns (f, (0, 0))
      end
  end.

Definition restore_entry (fuel : nat) (user_dir scan_dir backup_scan : PathBuf) (st : Fs * (Z * Z)) n : outcome (Fs * (Z * Z)) :=
  let backup_path := join backup_scan n in
  if negb (is_dir backup_path st.1) then Ret st
  else
    c <-! restore_missing_files fuel backup_path (join (join user_dir scan_dir) n) st.1 ;;
    Ret (c.1, (u32 (st.2.1 + c.2.1), u32 (st.2.2 + c.2.2))).

Definition restore_scan (fuel : nat) (user_dir backup_dir : PathBuf) (st : Fs * (Z * Z)) (scan_dir : PathBuf) : outcome (Fs * (Z * Z)) :=
  let backup_scan := join backup_dir scan_dir in
  if negb (is_dir backup_scan st.1) then Ret st
  else match read_dir backup_scan st.1 with None => Ret st | Some ns => ofold (restore_entry fuel user_dir scan_dir backup_scan) ns st end.

Definition restore_save_data (fuel : nat) (pfx backup_dir : PathBuf) f : outcome Fs :=
  if negb (exists_ backup_dir f) then Ret f
  else
    let user_dir := join pfx USER_DIR in
    st <-! ofold (restore_scan fuel user_dir backup_dir) SAVE_SCAN_DIRS (f, (0, 0)) ;;
    if decide (0 < st.2.1) then Ret st.1 else Ret (remove_dir_all backup_dir st.1).1.

(** ** Crash dumps *)
Definition is_dump p : bool :=
  match extension p with Some e => eq_ignore_ascii_case e (lit "dmp") || eq_ignore_ascii_case e (lit "mdmp") | None => false end.

Fixpoint remove_dumps_recursive (fuel : nat) (dir : PathBuf) f : outcome (Fs * Z) :=
  match fuel with
  | O => OutOfFuel
  | S fuel =>
      match read_dir dir f with
      | None => Ret (f, 0)
      | Some ns =>
          ofold (fun st n =>
            let path := join dir n in
            if is_dir path st.1 then c <-! remove_dumps_recursive fuel path st.1 ;; Ret (c.1, u32 (st.2 + c.2))
            else if is_dump path then
              match remove_file path st.1 with (f, true) => Ret (f, u32 (st.2 + 1)) | (f, false) => Ret (f, st.2) end
            else Ret st) ns (f, 0)
      end
  end.

Definition clean_crash_dumps (fuel : nat) (pfx : PathBuf) f : outcome Fs :=
  let user_dir := join pfx USER_DIR in
  if negb (exists_ user_dir f) then Ret f
  else
    ofold (fun f scan_dir =>
      let dir := join user_dir scan_dir in
      if is_dir dir f then c <-! remove_dumps_recursive fuel dir f ;; Ret c.1 else Ret f) SAVE_SCAN_DIRS f.

(** ** Places in two subtrees *)

Definition apart k d : Prop := ~ k `suffix_of` d /\ ~ d `suffix_of` k.

Lemma apart_sym k d : apart k d -> apart d k.
Proof. unfold apart. tauto. Qed.

Lemma suffix_comparable k d x : k `suffix_of` x -> d `suffix_of` x -> k `suffix_of` d \/ d `suffix_of` k.
Proof.
  intros [r ->] [r' Hx]. destruct (app_eq_inv _ _ _ _ Hx) as [(l & _ & ->)|(l & _ & ->)]; [left|right]; by exists l.
Qed.

Lemma apart_below k d r r' : apart k d -> apart (r ++ k) (r' ++ d).
Proof.
  intros [H1 H2]. split; intros Hs.
  - destruct (suffix_comparable k d (r' ++ d)); [etrans; [|exact Hs]; by apply suffix_app_r|by apply suffix_app_r|done|done].
  - destruct (suffix_comparable d k (r ++ k)); [etrans; [|exact Hs]; by apply suffix_app_r|by apply suffix_app_r|done|done].
Qed.

Lemma apart_ne k d r : apart k d -> r ++ k <> d.
Proof. intros [H1 _] <-. apply H1. by apply suffix_app_r. Qed.

(** The way from [d] down to [k]. *)
Definition rel d k : option place := if decide (d `suffix_of` k) then Some (take (length k - length d) k) else None.

Lemma rel_app d r : rel d (r ++ d) = Some r.
Proof. unfold rel. rewrite decide_True by (by apply suffix_app_r). rewrite length_app. replace (_ - _)%nat with (length r) by lia. by rewrite take_app_length. Qed.

Lemma rel_Some d k r : rel d k = Some r -> k = r ++ d.
Proof.
  intros Hr. assert (d `suffix_of` k) as [r' ->] by (unfold rel in Hr; by case_decide). rewrite rel_app in Hr. by injection Hr as ->.
Qed.

Lemma rel_None d k : rel d k = None <-> ~ d `suffix_of` k.
Proof. unfold rel. by case_decide. Qed.

Lemma rel_apart d k r : apart k d -> rel d (r ++ k) = None.
Proof. intros Ha. apply rel_None. by apply (apart_below k d r [] Ha). Qed.

Lemma suffix_cons_cases n k k' : k' `suffix_of` (n :: k) -> k' = n :: k \/ k' `suffix_of` k.
Proof. intros [[|m r] Hr]; [by left|]. right. injection Hr as _ ->. by exists r. Qed.

(** The names of a directory are names. *)
Lemma child_name f k n : wf f -> n ∈ children k f -> name_ok n.
Proof. intros Hwf Hn%elem_of_listing; [|done]. by apply (look_parent f n k Hwf). Qed.

(** No links at or below a place, and not deeper than the fuel. *)
Definition linkless f k : Prop := forall r, look f (r ++ k) <> Some VLink.
Definition shallow (fuel : nat) f k : Prop := forall r, look f (r ++ k) <> None -> (length r < fuel)%nat.

Lemma linkless_child f n k : linkless f k -> linkless f (n :: k).
Proof. intros Hl r. specialize (Hl (r ++ [n])). by rewrite <- app_assoc in Hl. Qed.
Lemma shallow_child fuel f n k : shallow (S fuel) f k -> shallow fuel f (n :: k).
Proof. intros Hs r Hr. specialize (Hs (r ++ [n])). rewrite <- app_assoc in Hs. specialize (Hs Hr). rewrite length_app in Hs. cbn in Hs. lia. Qed.

Lemma linkless_plain f k n : wf f -> look f k = Some VDir -> linkless f k -> plain f (n :: k).
Proof.
  intros Hwf Hd Hl k' Hs. apply suffix_cons_cases in Hs as [->|Hs]; [apply (Hl [n])|]. by apply (plain_dir f k Hwf Hd).
Qed.

Lemma dirs_in_dir f p k n : wf f -> loc p k -> look f k = Some VDir -> linkless f k -> name_ok n ->
  is_dir (join p n) f = bool_decide (look f (n :: k) = Some VDir).
Proof. intros Hwf Hp Hd Hl Hn. apply is_dir_plain; [done|by apply loc_name|by apply linkless_plain]. Qed.

(** ** Counting *)

(** The names at and below a place. *)
Definition names_below k f : gset place := filter (fun k' => k `suffix_of` k') (dom (names f)).
Definition has_file f k : Prop := exists r bs, look f (r ++ k) = Some (VFile bs).

Lemma has_file_step f k : wf f -> look f k = Some VDir -> has_file f k <-> exists n, n ∈ children k f /\ has_file f (n :: k).
Proof.
  intros Hwf Hd. split.
  - intros (r & bs & Hr). destruct r as [|n r _] using rev_ind; [cbn in Hr; congruence|]. rewrite <- app_assoc in Hr. cbn in Hr. exists n. split; [|by exists r, bs].
    apply elem_of_listing; [done|]. destruct r as [|m r]; [cbn in Hr; by rewrite Hr|]. rewrite (dir_above f (n :: k) (m :: r)); [done|done|congruence|done].
  - intros (n & _ & r & bs & Hr). exists (r ++ [n]), bs. by rewrite <- app_assoc.
Qed.

Definition below_any k (ns : list str) f : gset place := filter (fun k' => Exists (fun m => (m :: k) `suffix_of` k') ns) (dom (names f)).

Lemma size_below_cons f k n (ns : list str) : n ∉ ns -> size (below_any k (n :: ns) f) = (size (below_any k ns f) + size (names_below (n :: k) f))%nat.
Proof.
  intros Hn. rewrite <- size_union.
  - apply set_size_proper. intros k'. unfold below_any, names_below. rewrite elem_of_union, !elem_of_filter, Exists_cons. tauto.
  - intros k'. unfold below_any, names_below. rewrite !elem_of_filter, Exists_exists. intros [(m & Hm & Hs) _] [Hs' _].
    destruct (suffix_comparable _ _ _ Hs Hs') as [[r Hr]|[r Hr]]; (destruct r; [|apply (f_equal length) in Hr; rewrite length_app in Hr; cbn in Hr; lia]); by injection Hr as ->.
Qed.

Lemma size_below_any f k ns : (size (below_any k ns f) <= size (names_below k f))%nat.
Proof.
  apply subseteq_size. intros k'. unfold below_any, names_below. rewrite !elem_of_filter, Exists_exists. intros [(m & _ & Hs) ?]. split; [|done].
  etrans; [|exact Hs]. by apply suffix_cons_r.
Qed.

Lemma elem_of_names f k : wf f -> k ∈ dom (names f) <-> k <> [] /\ look f k <> None.
Proof.
  intros Hwf. rewrite elem_of_dom, look_none by done. unfold entry_at. destruct (decide (k = [])) as [->|Hk].
  - split; [|tauto]. intros [e He]. assert (None = Some e) by exact (eq_trans (eq_sym (wf_root f Hwf)) He). done.
  - rewrite <- not_eq_None_Some. tauto.
Qed.

Lemma names_below_same f g k : wf f -> wf g -> (forall r, look g (r ++ k) = look f (r ++ k)) -> names_below k g = names_below k f.
Proof.
  intros Hf Hg Hs. apply set_eq. intros x. unfold names_below. rewrite !elem_of_filter, !elem_of_names by done.
  split; intros [[r ->] Hx]; (split; [by exists r|]); [by rewrite <- Hs|by rewrite Hs].
Qed.

(** The count of a directory; fewer names than 2^32 do not wrap it. *)
Lemma count_spec fuel p k f : wf f -> loc p k -> look f k = Some VDir -> linkless f k -> shallow fuel f k ->
  Z.of_nat (size (names_below k f)) < 2 ^ 32 ->
  exists c b, count_files_recursive fuel p f = Ret (c, b) /\ 0 <= c <= Z.of_nat (size (names_below k f)) /\ (0 < c <-> has_file f k).
Proof.
  intros Hwf. revert p k; induction fuel as [|fuel IH]; intros p k Hp Hd Hl Hs Hsz.
  { specialize (Hs [] ltac:(cbn; congruence)). cbn in Hs. lia. }
  cbn [count_files_recursive]. rewrite (read_dir_plain f Hwf p k Hp) by (by apply plain_dir). rewrite decide_True by done.
  set (body := fun (acc : Z * Z) n => _).
  assert (forall ns acc (done : list str), NoDup (done ++ ns) -> (forall n, n ∈ done ++ ns -> n ∈ children k f) ->
    0 <= acc.1 <= Z.of_nat (size (below_any k done f)) -> (0 < acc.1 <-> exists n, n ∈ done /\ has_file f (n :: k)) ->
    exists c b, ofold body ns acc = Ret (c, b) /\ 0 <= c <= Z.of_nat (size (names_below k f)) /\
      (0 < c <-> exists n, n ∈ done ++ ns /\ has_file f (n :: k))) as Hloop.
  { induction ns as [|n ns IHns]; intros [c b] done Hnd Hch Hc Hf; cbn [fst] in *.
    { exists c, b. rewrite app_nil_r. split; [done|]. split; [|done]. pose proof (size_below_any f k done). lia. }
    assert (n ∈ children k f) as Hn by (apply Hch, elem_of_app; right; by left).
    assert (n ∉ done) as Hnd'. { intros Hin. apply NoDup_app in Hnd as (_ & Hx & _). apply (Hx n Hin). by left. }
    assert (name_ok n) as Hok by (by eapply child_name). apply elem_of_listing in Hn as Hln; [|done].
    assert (exists c' b', body (c, b) n = Ret (c', b') /\ 0 <= c' <= Z.of_nat (size (below_any k (n :: done) f)) /\
      (0 < c' <-> 0 < c \/ has_file f (n :: k))) as (c' & b' & Hb & Hc' & Hf').
    { unfold body. cbn [fst snd]. rewrite (dirs_in_dir f p k n) by done. pose proof (size_below_any f k (n :: done)) as Hle.
      rewrite size_below_cons in Hle |- * by done. case_bool_decide as Hdn.
      - destruct (IH (join p n) (n :: k)) as (c1 & b1 & -> & Hc1 & Hf1); [by apply loc_name|done|by apply linkless_child|by apply shallow_child|lia|].
        cbn [obind]. eexists _, _. split; [done|]. cbn [fst]. unfold u32. rewrite wrap_small by lia. split; [lia|]. rewrite <- Hf1. lia.
      - eexists _, _. split; [done|]. assert (1 <= size (names_below (n :: k) f))%nat.
        { assert ({[n :: k]} ⊆ names_below (n :: k) f) as Hsub%subseteq_size; [|by rewrite size_singleton in Hsub].
          intros x ->%elem_of_singleton. unfold names_below. rewrite elem_of_filter. split; [done|]. apply elem_of_dom. rewrite look_none, entry_cons in Hln by done. by apply not_eq_None_Some. }
        unfold u32. rewrite wrap_small by lia. split; [lia|]. split; [|lia]. intros _. right. exists [].
        specialize (Hl [n]). cbn in Hl |- *. destruct (look f (n :: k)) as [[|bs|]|]; try done. by exists bs. }
    cbn [ofold]. rewrite Hb. cbn [obind]. destruct (IHns (c', b') (done ++ [n])) as (c2 & b2 & -> & Hc2 & Hf2).
    - by rewrite <- app_assoc.
    - intros m. rewrite <- app_assoc. apply Hch.
    - cbn [fst]. assert (below_any k (done ++ [n]) f = below_any k (n :: done) f) as ->; [|done].
      apply set_eq. intros k'. unfold below_any. rewrite !elem_of_filter, !Exists_exists. setoid_rewrite elem_of_app. set_solver.
    - cbn [fst]. rewrite Hf', Hf. setoid_rewrite elem_of_app. set_solver.
    - exists c2, b2. split; [done|]. split; [done|]. by rewrite Hf2, <- app_assoc. }
  destruct (Hloop (children k f) (0, 0) []) as (c & b & -> & Hc & Hf).
  - apply NoDup_listing.
  - done.
  - cbn. lia.
  - cbn. split; [lia|]. by intros (n & ?%elem_of_nil & _).
  - exists c, b. split; [done|]. split; [done|]. by rewrite Hf, (has_file_step f k Hwf Hd).
Qed.

(** ** Copies of subtrees *)

(** [f'] is [f] with the subtree of [k] repeated at [d]. *)
Definition grafted k d f f' : Prop :=
  wf f' /\ forall x, look f' x = match rel d x with Some r => look f (r ++ k) | None => if decide (x `suffix_of` d) then Some VDir else look f x end.

(** The same for those of the names in the directory that have been copied. *)
Definition partly k d f (ns : list str) f' : Prop :=
  wf f' /\ forall x, look f' x =
    match rel d x with
    | Some r => match last r with None => Some VDir | Some n => if decide (n ∈ ns) then look f (r ++ k) else None end
    | None => if decide (x `suffix_of` d) then Some VDir else look f x
    end.

Section copying.
Context (k d : place) (Hap : apart k d) (f : Fs) (Hwf : wf f) (Hk : look f k = Some VDir) (Hl : linkless f k).
Context (src dst : PathBuf) (Hsrc : loc src k) (Hdst : loc dst d).

Lemma partly_source ns g r : partly k d f ns g -> look g (r ++ k) = look f (r ++ k).
Proof.
  intros [_ Hg]. rewrite Hg, rel_apart by done. rewrite decide_False; [done|]. by apply (apart_below k d r [] Hap).
Qed.

Lemma partly_dest ns g r : partly k d f ns g ->
  look g (r ++ d) = match last r with None => Some VDir | Some n => if decide (n ∈ ns) then look f (r ++ k) else None end.
Proof. intros [_ Hg]. by rewrite Hg, rel_app. Qed.

Lemma partly_grafted g : partly k d f (children k f) g -> grafted k d f g.
Proof.
  intros [Hwg Hg]. split; [done|]. intros x. rewrite Hg. destruct (rel d x) as [r|] eqn:Hr; [|done].
  destruct r as [|m r _] using rev_ind; [done|]. rewrite last_snoc. case_decide as Hm; [done|]. symmetry. rewrite <- app_assoc. cbn.
  rewrite elem_of_listing in Hm by done. destruct (look f (r ++ m :: k)) eqn:Hx; [|done]. exfalso. apply Hm.
  destruct r as [|m' r]; [cbn in Hx; congruence|]. rewrite (dir_above f (m :: k) (m' :: r)); [done|done|congruence|done].
Qed.

(** A directory below has been copied. *)
Lemma partly_dir ns n g g' : n ∉ ns -> partly k d f ns g -> grafted (n :: k) (n :: d) g g' -> partly k d f (n :: ns) g'.
Proof.
  intros Hn Hg [Hw' Hg']. split; [done|]. intros x. rewrite Hg'. destruct (rel (n :: d) x) as [r|] eqn:Hr.
  - apply rel_Some in Hr as ->. assert (r ++ n :: d = (r ++ [n]) ++ d) as -> by (by rewrite <- app_assoc).
    rewrite rel_app, last_snoc, decide_True by (by left). rewrite <- app_assoc. cbn.
    rewrite (app_assoc r [n] k : r ++ n :: k = _). by rewrite (partly_source ns g).
  - apply rel_None in Hr. case_decide as Hs.
    + apply suffix_cons_cases in Hs as [->|Hs]; [by destruct Hr|]. destruct (rel d x) as [r|] eqn:Hrd; [|by rewrite decide_True].
      apply rel_Some in Hrd as ->. destruct r; [done|]. destruct Hs as [r' Hs]. apply (f_equal length) in Hs. rewrite !length_app in Hs. cbn in Hs. lia.
    + destruct Hg as [_ Hg]. rewrite Hg. destruct (rel d x) as [r|] eqn:Hrd; [|by rewrite decide_False by (intros Hx; apply Hs; by apply suffix_cons_r)].
      apply rel_Some in Hrd as ->. destruct r as [|m r _] using rev_ind; [done|]. rewrite last_snoc.
      assert (m <> n) as Hmn. { intros ->. apply Hr. rewrite <- app_assoc. by apply suffix_app_r. }
      destruct (decide (m ∈ ns)) as [Hm|Hm]; [rewrite decide_True by (by right)|rewrite decide_False by (by intros [?|?]%elem_of_cons)]; [|done].
      done.
Qed.

(** A file has been copied. *)
Lemma partly_file ns n bs g g' : n ∉ ns -> partly k d f ns g -> look f (n :: k) = Some (VFile bs) -> adds (n :: d) (VFile bs) g g' -> partly k d f (n :: ns) g'.
Proof.
  intros Hn [_ Hg] Hf [Hw' Hg']. split; [done|]. intros x. rewrite Hg'. case_decide as Hx.
  - subst. rewrite (rel_app d [n] : rel d (n :: d) = _). cbn. by rewrite decide_True by (by left).
  - rewrite Hg. destruct (rel d x) as [r|] eqn:Hrd; [|done]. apply rel_Some in Hrd as ->. destruct r as [|m r _] using rev_ind; [done|]. rewrite last_snoc.
    destruct (decide (m = n)) as [->|Hmn].
    + rewrite decide_False by done. rewrite decide_True by (by left). rewrite <- app_assoc in Hx |- *. cbn in Hx |- *. symmetry.
      destruct (look f (r ++ n :: k)) eqn:Hy; [|done]. exfalso. destruct r as [|m' r]; [done|].
      rewrite (dir_above f (n :: k) (m' :: r)) in Hf; [done|done|congruence|done].
    + destruct (decide (m ∈ ns)) as [Hm|Hm]; [rewrite decide_True by (by right)|rewrite decide_False by (by intros [?|?]%elem_of_cons)]; done.
Qed.

(** The next name is still free. *)
Lemma partly_open ns n g : n ∉ ns -> partly k d f ns g -> open_place g (n :: d).
Proof.
  intros Hn Hg x [->|Hx]%suffix_cons_cases.
  - left. rewrite (partly_dest ns g [n] Hg : look g (n :: d) = _). cbn. by rewrite decide_False.
  - right. destruct Hg as [_ Hg]. rewrite Hg. destruct (rel d x) as [r|] eqn:Hr; [|by rewrite decide_True]. apply rel_Some in Hr as ->.
    destruct r; [done|]. destruct Hx as [r' Hx]. apply (f_equal length) in Hx. rewrite !length_app in Hx. cbn in Hx. lia.
Qed.

Lemma partly_copy ns n bs g : n ∉ ns -> partly k d f ns g -> name_ok n -> look f (n :: k) = Some (VFile bs) ->
  exists g', copy (join src n) (join dst n) g = (g', true) /\ adds (n :: d) (VFile bs) g g'.
Proof.
  intros Hn Hg Hok Hf. assert (forall r, look g (r ++ k) = look f (r ++ k)) as Hsame by (intros r; by apply (partly_source ns g)).
  assert (look g (n :: k) = Some (VFile bs)) as Hgf by (by rewrite (Hsame [n] : look g (n :: k) = _)).
  apply (copy_free (join src n) (join dst n) (n :: k) d n bs g); [exact (proj1 Hg)|by apply loc_name| |done|by apply loc_name|by eapply open_plain, partly_open|..].
  - apply linkless_plain; [exact (proj1 Hg)|eapply look_parent; [exact (proj1 Hg)|by rewrite Hgf]|]. intros r. rewrite Hsame. apply Hl.
  - by rewrite (partly_dest ns g [] Hg : look g d = _).
  - rewrite (partly_dest ns g [n] Hg : look g (n :: d) = _). cbn. by rewrite decide_False.
Qed.

Lemma partly_start g : adds_dirs d f g -> (forall r, r <> [] -> look f (r ++ d) = None) -> partly k d f [] g.
Proof.
  intros [Hw Hg] Hfresh. split; [done|]. intros x. rewrite Hg. destruct (rel d x) as [r|] eqn:Hr; [|done]. apply rel_Some in Hr as ->.
  destruct r as [|m r _] using rev_ind; [by rewrite decide_True|]. rewrite last_snoc. rewrite (decide_False (P := m ∈ [])) by (by intros ?%elem_of_nil).
  rewrite decide_False; [apply Hfresh; by destruct r|]. intros [r' Hx]. apply (f_equal length) in Hx. rewrite !length_app in Hx. cbn in Hx. lia.
Qed.
End copying.

Lemma copy_save_spec fuel src dst k d f : wf f -> apart k d -> loc src k -> loc dst d -> look f k = Some VDir -> linkless f k -> shallow fuel f k ->
  open_place f d -> (forall r, r <> [] -> look f (r ++ d) = None) -> exists f', copy_save_recursive fuel src dst f = Ret f' /\ grafted k d f f'.
Proof.
  revert src dst k d f; induction fuel as [|fuel IH]; intros src dst k d f Hwf Hap Hsrc Hdst Hk Hl Hs Ho Hfresh.
  { specialize (Hs [] ltac:(cbn; congruence)). cbn in Hs. lia. }
  cbn [copy_save_recursive]. destruct (create_dir_all_plain dst d f Hwf Hdst Ho) as (f1 & -> & Hf1).
  pose proof (partly_start k d f f1 Hf1 Hfresh) as Hp1.
  assert (look f1 k = Some VDir) as Hk1 by (pose proof (partly_source k d Hap f [] f1 [] Hp1) as He; cbn in He; congruence).
  rewrite (read_dir_plain f1 (proj1 Hp1) src k Hsrc) by (apply plain_dir; [exact (proj1 Hp1)|done]). rewrite decide_True by done.
  assert (forall n, n ∈ children k f1 <-> n ∈ children k f) as Hch.
  { intros n. rewrite !elem_of_listing by (done || exact (proj1 Hp1)). pose proof (partly_source k d Hap f [] f1 [n] Hp1) as He. cbn in He. by rewrite He. }
  set (body := fun f n => _).
  assert (forall ns done g, NoDup (done ++ ns) -> (forall n, n ∈ ns -> n ∈ children k f) -> partly k d f done g ->
    exists g', ofold body ns g = Ret g' /\ partly k d f (reverse ns ++ done) g') as Hloop.
  { induction ns as [|n ns IHns]; intros done g Hnd Hin Hg; [by exists g|].
    assert (n ∈ children k f) as Hn by (apply Hin; by left). assert (name_ok n) as Hok by (by eapply child_name).
    assert (n ∉ done) as Hnd'. { intros Hx. apply NoDup_app in Hnd as (_ & Hy & _). apply (Hy n Hx). by left. }
    assert (forall r, look g (r ++ k) = look f (r ++ k)) as Hsame by (intros r; by apply (partly_source k d Hap f done g)).
    assert (look g k = Some VDir) as Hgk by (specialize (Hsame []); cbn in Hsame; congruence).
    assert (linkless g k) as Hgl by (intros r; by rewrite Hsame).
    assert (exists g1, body g n = Ret g1 /\ partly k d f (n :: done) g1) as (g1 & Hb & Hg1).
    { unfold body. rewrite (dirs_in_dir g src k n) by (done || exact (proj1 Hg)). rewrite (Hsame [n] : look g (n :: k) = _).
      assert (open_place g (n :: d)) as Hopen by (by eapply partly_open).
      case_bool_decide as Hdir.
      - destruct (IH (join src n) (join dst n) (n :: k) (n :: d) g) as (g1 & Hc & Hgr).
        + exact (proj1 Hg).
        + exact (apart_below k d [n] [n] Hap).
        + by apply loc_name.
        + by apply loc_name.
        + by rewrite (Hsame [n] : look g (n :: k) = _).
        + by apply linkless_child.
        + apply shallow_child. intros r. rewrite Hsame. apply Hs.
        + done.
        + intros r Hr. rewrite (app_assoc r [n] d : r ++ n :: d = _). rewrite (partly_dest k d f done g _ Hg), last_snoc. by rewrite decide_False.
        + exists g1. split; [done|]. by eapply partly_dir.
      - apply elem_of_listing in Hn as Hln; [|done]. destruct (look f (n :: k)) as [[|bs|]|] eqn:Hln'; [done| |by destruct (Hl [n])|done].
        destruct (partly_copy k d Hap f Hl src dst Hsrc Hdst done n bs g Hnd' Hg Hok Hln') as (g1 & -> & Ha). exists g1. split; [done|]. by eapply partly_file. }
    cbn [ofold]. rewrite Hb. cbn [obind]. destruct (IHns (n :: done) g1) as (g' & -> & Hg'); [|intros m Hm; apply Hin; by right|done|].
    - rewrite <- Permutation_middle in Hnd. done.
    - exists g'. split; [done|]. by rewrite reverse_cons, <- app_assoc. }
  destruct (Hloop (children k f1) [] f1) as (g' & -> & Hg'); [apply NoDup_listing|intros n; apply Hch|done|].
  exists g'. split; [done|]. apply partly_grafted; [done..|]. destruct Hg' as [Hw Hg']. split; [done|]. intros x. rewrite Hg'.
  destruct (rel d x) as [r|]; [|done]. destruct (last r) as [n|]; [|done]. apply decide_ext. rewrite app_nil_r, elem_of_reverse. apply Hch.
Qed.

(** ** The snapshot *)

(** The place of a relative path. *)
Definition place_of p : place := reverse (omap (fun c => match c with Name n => Some n | Up => None end) (comps p)).

(** No scanned directory is inside another, and their names are plain. *)
Lemma scan_dirs_ok : Forall (fun s => is_absolute s = false /\ comps s = map Name (reverse (place_of s))) SAVE_SCAN_DIRS /\
  forall s s', s ∈ SAVE_SCAN_DIRS -> s' ∈ SAVE_SCAN_DIRS -> s <> s' -> apart (place_of s) (place_of s').
Proof.
  split.
  - repeat constructor; vm_compute; reflexivity.
  - assert (forall s s', s ∈ SAVE_SCAN_DIRS -> s' ∈ SAVE_SCAN_DIRS ->
      bool_decide (s = s' \/ (~ place_of s `suffix_of` place_of s' /\ ~ place_of s' `suffix_of` place_of s)) = true) as H.
    { intros s s' Hs Hs'. unfold SAVE_SCAN_DIRS in *. cbn [map] in *.
      repeat (apply elem_of_cons in Hs as [->|Hs]; [repeat (apply elem_of_cons in Hs' as [->|Hs']; [vm_compute; reflexivity|]); by apply elem_of_nil in Hs'|]).
      by apply elem_of_nil in Hs. }
    intros s s' Hs Hs' Hne. specialize (H s s' Hs Hs'). apply bool_decide_eq_true in H as [?|?]; [done|]. done.
Qed.

(** A directory of a game below one of the scanned ones. *)
Definition game_dir (y : place) : Prop := exists n s, s ∈ SAVE_SCAN_DIRS /\ y = n :: place_of s /\ skipped SAVE_SKIP_DIRS n = false.

Lemma game_dirs_apart y y' : game_dir y -> game_dir y' -> y <> y' -> apart y y'.
Proof.
  intros (n & s & Hs & -> & _) (n' & s' & Hs' & -> & _) Hne. destruct (decide (s = s')) as [->|Hss].
  - assert (n <> n') by (intros ->; done). split; intros [r Hr]; (destruct r; [by injection Hr|apply (f_equal length) in Hr; rewrite length_app in Hr; cbn in Hr; lia]).
  - by apply (apart_below _ _ [n] [n']), scan_dirs_ok.
Qed.

Section snapshot.
Context (u b : place) (Hap : apart u b) (f : Fs) (Hwf : wf f) (Hu : look f u = Some VDir) (Hl : linkless f u).
Context (bn : str) (bu : place) (Hb : b = bn :: bu) (Hbu : look f bu = Some VDir).
Context (user_dir backup_dir : PathBuf) (Huser : loc user_dir u) (Hbackup : loc backup_dir b).
Context (fuel : nat) (Hfuel : shallow fuel f u) (Hsize : Z.of_nat (size (names_below u f)) < 2 ^ 32).

(** What has been saved so far: the directories [ys], whole, and nothing else. *)
Record saved (ys : list place) (g : Fs) : Prop := {
  sv_wf : wf g;
  sv_outside : forall x, rel b x = None -> look g x = look f x;
  sv_copies : forall y r, y ∈ ys -> look g (r ++ y ++ b) = look f (r ++ y ++ u);
  sv_only : forall r, look g (r ++ b) <> None -> exists y, y ∈ ys /\ (r `suffix_of` y /\ look g (r ++ b) = Some VDir \/ y `suffix_of` r);
}.

Lemma saved_user ys g r : saved ys g -> look g (r ++ u) = look f (r ++ u).
Proof. intros Hg. apply (sv_outside ys g Hg). by apply rel_apart. Qed.

Lemma suffix_app_cancel (r y x : place) : (r ++ x) `suffix_of` (y ++ x) -> r `suffix_of` y.
Proof. intros [l Hl']. exists l. rewrite app_assoc in Hl'. by apply app_inv_tail in Hl'. Qed.

Lemma above_backup x : x `suffix_of` b -> rel b x = None -> look f x = Some VDir.
Proof.
  intros Hs Hr. subst b. apply suffix_cons_cases in Hs as [->|Hs]; [apply rel_None in Hr; by destruct Hr|]. destruct Hs as [r ->].
  destruct r as [|m r]; [done|]. apply (dir_above f x (m :: r)); [done| |done]. cbn in *. congruence.
Qed.

Lemma saved_open ys g y : saved ys g -> (forall y', y' ∈ ys -> apart y y') -> open_place g (y ++ b).
Proof.
  intros Hg Hys x Hx. destruct (rel b x) as [r|] eqn:Hr.
  - apply rel_Some in Hr as ->. apply suffix_app_cancel in Hx. destruct (look g (r ++ b)) eqn:He; [|by left]. right.
    destruct (sv_only ys g Hg r) as (y' & Hy' & [[_ Hd]|Hs]); [congruence|congruence|]. exfalso. apply (Hys y' Hy'). by etrans.
  - right. rewrite (sv_outside ys g Hg) by done. apply above_backup; [|done].
    destruct (suffix_comparable x b (y ++ b)) as [?|Hc]; [done|by apply suffix_app_r|done|]. apply rel_None in Hr. done.
Qed.

Lemma saved_fresh ys g y r : saved ys g -> (forall y', y' ∈ ys -> apart y y') -> look g (r ++ y ++ b) = None.
Proof.
  intros Hg Hys. destruct (look g (r ++ y ++ b)) eqn:He; [|done]. exfalso. rewrite app_assoc in He.
  destruct (sv_only ys g Hg (r ++ y)) as (y' & Hy' & [[Hs _]|Hs]); [congruence|..]; destruct (Hys y' Hy') as [H1 H2].
  - apply H1. etrans; [|exact Hs]. by apply suffix_app_r.
  - destruct (suffix_comparable y y' (r ++ y)); [by apply suffix_app_r|done|done|done].
Qed.

Lemma saved_step ys g y g' : saved ys g -> (forall y', y' ∈ ys -> apart y y') -> grafted (y ++ u) (y ++ b) g g' -> saved (y :: ys) g'.
Proof.
  intros Hg Hys [Hw Hg']. assert (forall x, rel b x = None -> rel (y ++ b) x = None) as Hrel.
  { intros x. rewrite !rel_None. intros Hn Hs. apply Hn. etrans; [|exact Hs]. by apply suffix_app_r. }
  split; [done|..].
  - intros x Hx. rewrite Hg', Hrel by done. case_decide as Hs; [|by apply (sv_outside ys g Hg)]. symmetry. apply above_backup; [|done].
    destruct (suffix_comparable x b (y ++ b)) as [?|Hc]; [done|by apply suffix_app_r|done|]. apply rel_None in Hx. done.
  - intros y' r [->|Hy']%elem_of_cons.
    + rewrite Hg', rel_app. rewrite app_assoc. rewrite (saved_user ys g) by done. by rewrite <- app_assoc.
    + specialize (Hys y' Hy'). assert (apart (r ++ y' ++ b) (y ++ b)) as [H1 H2].
      { rewrite app_assoc. destruct (apart_below y y' [] r Hys) as [H1 H2]. cbn in H1, H2.
        split; intros Hs%suffix_app_cancel; done. }
      rewrite Hg', (proj2 (rel_None _ _)), decide_False by done. by apply (sv_copies ys g Hg).
  - intros r Hr. rewrite Hg' in Hr |- *. destruct (rel (y ++ b) (r ++ b)) as [r'|] eqn:Hrel'.
    + apply rel_Some in Hrel'. rewrite app_assoc in Hrel'. apply app_inv_tail in Hrel' as ->. exists y. split; [by left|]. right. by apply suffix_app_r.
    + case_decide as Hs.
      * exists y. split; [by left|]. left. split; [by eapply suffix_app_cancel|done].
      * destruct (sv_only ys g Hg r Hr) as (y' & Hy' & Hcase). exists y'. split; [by right|done].
Qed.

(** Which directories have something to save. *)
Definition eligible (y : place) : Prop := game_dir y /\ look f (y ++ u) = Some VDir /\ has_file f (y ++ u).

Lemma eligible_apart ys y : Forall eligible ys -> game_dir y -> y ∉ ys -> forall y', y' ∈ ys -> apart y y'.
Proof.
  intros Hys Hy Hn y' Hy'. rewrite Forall_forall in Hys. destruct (Hys y' Hy') as [Hg _]. apply game_dirs_apart; [done|done|]. by intros ->.
Qed.

Lemma game_loc p x s n : loc p x -> s ∈ SAVE_SCAN_DIRS -> name_ok n -> loc (join (join p s) n) ((n :: place_of s) ++ x).
Proof.
  intros Hp Hs Hn. cbn. apply loc_name; [|done]. pose proof (proj1 scan_dirs_ok) as Hok. rewrite Forall_forall in Hok. destruct (Hok s Hs). by apply loc_join.
Qed.

Lemma snapshot_entry_spec ys g s n c1 c2 : s ∈ SAVE_SCAN_DIRS -> saved ys g -> Forall eligible ys -> n :: place_of s ∉ ys ->
  look f (place_of s ++ u) = Some VDir -> look f (n :: place_of s ++ u) <> None ->
  exists g' z1 z2 ys', snapshot_entry fuel backup_dir s (join user_dir s) (g, c1, c2) n = Ret (g', z1, z2) /\ saved ys' g' /\ Forall eligible ys' /\
    ((eligible (n :: place_of s) /\ ys' = (n :: place_of s) :: ys) \/ (~ eligible (n :: place_of s) /\ ys' = ys)).
Proof.
  intros Hs Hg Hys Hny Hsd Hn. set (y := n :: place_of s) in *. assert (name_ok n) as Hok by (by apply (look_parent f n (place_of s ++ u) Hwf)).
  pose proof (game_loc user_dir u s n Huser Hs Hok) as Hloc. fold y in Hloc.
  assert (forall r, look g (r ++ y ++ u) = look f (r ++ y ++ u)) as Hsame by (intros r; rewrite app_assoc; by apply (saved_user ys)).
  assert (linkless f (y ++ u)) as Hly by (intros r; rewrite app_assoc; apply Hl). assert (linkless g (y ++ u)) as Hlg by (intros r; by rewrite Hsame).
  assert (plain g (y ++ u)) as Hpl.
  { unfold y. cbn. apply linkless_plain; [exact (sv_wf ys g Hg)| |].
    - by rewrite (saved_user ys).
    - intros r. rewrite app_assoc, (saved_user ys) by done. apply Hl. }
  assert (forall g', saved ys g' -> ~ eligible y -> forall z1 z2 : Z, exists g'' (z1' z2' : Z) ys', Ret (g', z1, z2) = Ret (g'', z1', z2') /\ saved ys' g'' /\ Forall eligible ys' /\
    ((eligible y /\ ys' = y :: ys) \/ (~ eligible y /\ ys' = ys))) as Hnot by (intros g' Hg' Hne z1 z2; exists g', z1, z2, ys; split_and!; [done|done|done|by right]).
  unfold snapshot_entry. cbv beta iota zeta. destruct (skipped SAVE_SKIP_DIRS n) eqn:Hskip.
  { apply (Hnot g); [done|]. intros ((n' & s' & _ & [= <- _] & Hsk) & _). congruence. }
  assert (game_dir y) as Hgy by (by exists n, s).
  rewrite (is_dir_plain g (sv_wf ys g Hg) _ _ Hloc Hpl). rewrite (Hsame [] : look g (y ++ u) = _). case_bool_decide as Hd; cbn [negb].
  2:{ apply (Hnot g); [done|]. intros (_ & ? & _). done. }
  assert (shallow fuel g (y ++ u)) as Hsh.
  { intros r. rewrite Hsame. intros Hr. rewrite app_assoc in Hr. apply Hfuel in Hr. rewrite length_app in Hr. lia. }
  destruct (count_spec fuel _ (y ++ u) g (sv_wf ys g Hg) Hloc) as (c & bytes & -> & Hc & Hf); [by rewrite (Hsame [] : look g (y ++ u) = _)|done|done| |].
  { rewrite (names_below_same f g) by (done || exact (sv_wf ys g Hg)). assert (size (names_below (y ++ u) f) <= size (names_below u f))%nat; [|lia].
    apply subseteq_size. intros x. unfold names_below. rewrite !elem_of_filter. intros [Hx ?]. split; [|done]. etrans; [|exact Hx]. by apply suffix_app_r. }
  assert (has_file g (y ++ u) <-> has_file f (y ++ u)) as Hff by (unfold has_file; by setoid_rewrite Hsame).
  cbn [obind fst snd]. case_decide as Hc0.
  { apply (Hnot g); [done|]. intros (_ & _ & He). rewrite <- Hff, <- Hf in He. lia. }
  assert (eligible y) as Hel by (split_and!; [done|done|]; rewrite <- Hff, <- Hf; lia).
  pose proof (eligible_apart ys y Hys Hgy Hny) as Hya.
  destruct (copy_save_spec fuel (join (join user_dir s) n) (join (join backup_dir s) n) (y ++ u) (y ++ b) g) as (g' & -> & Hgr).
  - exact (sv_wf ys g Hg).
  - by apply apart_below.
  - done.
  - by apply game_loc.
  - by rewrite (Hsame [] : look g (y ++ u) = _).
  - done.
  - done.
  - by apply (saved_open ys).
  - intros r _. by apply (saved_fresh ys).
  - cbn [obind]. eexists g', _, _, (y :: ys). split; [done|]. split; [by eapply saved_step|]. split; [by constructor|]. by left.
Qed.

(** One scanned directory: the entries are those it had at the start. *)
Lemma snapshot_scan_spec ys g s c1 c2 : s ∈ SAVE_SCAN_DIRS -> saved ys g -> Forall eligible ys -> (forall n, n :: place_of s ∉ ys) ->
  exists g' z1 z2 ys', snapshot_scan fuel backup_dir user_dir (g, c1, c2) s = Ret (g', z1, z2) /\ saved ys' g' /\ Forall eligible ys' /\
    forall y, y ∈ ys' <-> y ∈ ys \/ (eligible y /\ exists n, y = n :: place_of s).
Proof.
  intros Hs Hg Hys Hnew. pose proof (proj1 scan_dirs_ok) as Hok. rewrite Forall_forall in Hok. destruct (Hok s Hs) as [Ha Hc].
  pose proof (loc_join user_dir s u (place_of s) Huser Ha Hc) as Hloc.
  assert (plain g (place_of s ++ u)) as Hpl.
  { intros x Hx. destruct (suffix_comparable x u (place_of s ++ u)) as [Hxu|[r ->]]; [done|by apply suffix_app_r| |].
    - apply (plain_dir g u (sv_wf ys g Hg)); [|done]. by rewrite (saved_user ys g [] Hg : look g u = _).
    - rewrite (saved_user ys g r) by done. apply Hl. }
  unfold snapshot_scan. cbn [fst]. rewrite (is_dir_plain g (sv_wf ys g Hg) _ _ Hloc Hpl), (read_dir_plain g (sv_wf ys g Hg) _ _ Hloc Hpl).
  rewrite (saved_user ys g) by done. case_bool_decide as Hd; cbn [negb].
  2:{ exists g, c1, c2, ys. split; [done|]. split; [done|]. split; [done|]. intros y. split; [by left|]. intros [?|[(Hgd & He & _) [n ->]]]; [done|].
      exfalso. apply Hd. cbn in He. apply (look_parent f n (place_of s ++ u) Hwf). congruence. }
  rewrite decide_True by done. set (dir := place_of s ++ u) in *.
  assert (forall ns done g c1 c2 ys', NoDup (done ++ ns) -> (forall n, n ∈ ns -> look f (n :: dir) <> None) -> saved ys' g -> Forall eligible ys' ->
    (forall y, y ∈ ys' <-> y ∈ ys \/ (eligible y /\ exists n, n ∈ done /\ y = n :: place_of s)) ->
    exists g' z1 z2 ys'', ofold (snapshot_entry fuel backup_dir s (join user_dir s)) ns (g, c1, c2) = Ret (g', z1, z2) /\ saved ys'' g' /\ Forall eligible ys'' /\
      forall y, y ∈ ys'' <-> y ∈ ys \/ (eligible y /\ exists n, n ∈ done ++ ns /\ y = n :: place_of s)) as Hloop.
  { induction ns as [|n ns IH]; intros done g1 a1 a2 ys1 Hnd Hin Hg1 Hys1 Hiff.
    { exists g1, a1, a2, ys1. rewrite app_nil_r. done. }
    assert (n ∉ done) as Hnd'. { intros Hx. apply NoDup_app in Hnd as (_ & Hy & _). apply (Hy n Hx). by left. }
    destruct (snapshot_entry_spec ys1 g1 s n a1 a2) as (g2 & b1 & b2 & ys2 & He & Hg2 & Hys2 & Hcase); [done|done|done| |done|apply Hin; by left|].
    { rewrite Hiff. intros [Hx|(_ & m & Hm & Heq)]; [by apply (Hnew n)|]. injection Heq as ->. done. }
    cbn [ofold]. rewrite He. cbn [obind]. destruct (IH (done ++ [n]) g2 b1 b2 ys2) as (g' & z1 & z2 & ys'' & Hr & Hg' & Hys'' & Hiff'); [by rewrite <- app_assoc|intros m Hm; apply Hin; by right|done|done| |].
    - intros y. setoid_rewrite elem_of_app. setoid_rewrite list_elem_of_singleton. destruct Hcase as [[Hel ->]|[Hel ->]].
      + rewrite elem_of_cons, Hiff. split; [intros [->|[?|(? & m & ? & ->)]]; eauto 10|]. intros [?|(Hel' & m & [?| ->] & ->)]; eauto 10.
      + rewrite Hiff. split; [intros [?|(? & m & ? & ->)]; eauto 10|]. intros [?|(Hel' & m & [?| ->] & ->)]; eauto 10. done.
    - exists g', z1, z2, ys''. split; [done|]. split; [done|]. split; [done|]. intros y. rewrite Hiff'. by rewrite <- app_assoc. }
  assert (forall n, n ∈ children dir g <-> look f (n :: dir) <> None) as Hch.
  { intros n. rewrite elem_of_listing by exact (sv_wf ys g Hg). unfold dir. pose proof (saved_user ys g (n :: place_of s) Hg) as He. cbn in He. by rewrite He. }
  destruct (Hloop (children dir g) [] g c1 c2 ys) as (g' & z1 & z2 & ys'' & Hr & Hg' & Hys'' & Hiff').
  - apply NoDup_listing.
  - intros n. apply Hch.
  - done.
  - done.
  - intros y. split; [by left|]. intros [?|(_ & m & ?%elem_of_nil & _)]; done.
  - exists g', z1, z2, ys''. split; [done|]. split; [done|]. split; [done|]. intros y. rewrite Hiff'. cbn [app]. split.
    + intros [?|(? & m & _ & ->)]; eauto.
    + intros [?|(Hel & m & ->)]; [by left|]. right. split; [done|]. exists m. split; [|done]. apply Hch. destruct Hel as (_ & He & _). cbn in He. unfold dir. congruence.
Qed.

(** All of them. *)
Lemma snapshot_scans_spec g : saved [] g ->
  exists g' z1 z2 ys, ofold (snapshot_scan fuel backup_dir user_dir) SAVE_SCAN_DIRS (g, 0, 0) = Ret (g', z1, z2) /\ saved ys g' /\ forall y, y ∈ ys <-> eligible y.
Proof.
  intros Hg. assert (NoDup SAVE_SCAN_DIRS) as Hnd by (apply (bool_decide_eq_true_1 _); vm_compute; reflexivity).
  assert (forall ss done g c1 c2 ys, done ++ ss = SAVE_SCAN_DIRS -> saved ys g -> Forall eligible ys ->
    (forall y, y ∈ ys <-> eligible y /\ exists n s, s ∈ done /\ y = n :: place_of s) ->
    exists g' z1 z2 ys', ofold (snapshot_scan fuel backup_dir user_dir) ss (g, c1, c2) = Ret (g', z1, z2) /\ saved ys' g' /\
      forall y, y ∈ ys' <-> eligible y /\ exists n s, s ∈ done ++ ss /\ y = n :: place_of s) as Hloop.
  { induction ss as [|s ss IH]; intros done g1 a1 a2 ys1 Hd Hg1 Hys1 Hiff.
    { exists g1, a1, a2, ys1. rewrite app_nil_r. done. }
    assert (s ∈ SAVE_SCAN_DIRS) as Hs by (rewrite <- Hd; apply elem_of_app; right; by left).
    assert (s ∉ done) as Hsd. { intros Hx. rewrite <- Hd in Hnd. apply NoDup_app in Hnd as (_ & Hy & _). apply (Hy s Hx). by left. }
    destruct (snapshot_scan_spec ys1 g1 s a1 a2) as (g2 & b1 & b2 & ys2 & He & Hg2 & Hys2 & Hiff2); [done|done|done| |].
    { intros n. rewrite Hiff. intros (_ & m & s' & Hs' & [= _ Hp]). assert (s' ∈ SAVE_SCAN_DIRS) as Hs2 by (rewrite <- Hd; apply elem_of_app; by left).
      destruct (decide (s = s')) as [->|Hne]; [done|]. destruct (proj2 scan_dirs_ok s s' Hs Hs2 Hne) as [Hx _]. apply Hx. by rewrite Hp. }
    cbn [ofold]. rewrite He. cbn [obind]. destruct (IH (done ++ [s]) g2 b1 b2 ys2) as (g' & z1 & z2 & ys'' & Hr & Hg' & Hiff'); [by rewrite <- app_assoc|done|done| |].
    - intros y. rewrite Hiff2, Hiff. setoid_rewrite elem_of_app. setoid_rewrite list_elem_of_singleton. split.
      + intros [(? & n & s' & ? & ->)|(? & n & ->)]; eauto 10.
      + intros (Hel & n & s' & [?| ->] & ->); eauto 10.
    - exists g', z1, z2, ys''. split; [done|]. split; [done|]. intros y. rewrite Hiff'. by rewrite <- app_assoc. }
  destruct (Hloop SAVE_SCAN_DIRS [] g 0 0 []) as (g' & z1 & z2 & ys & Hr & Hg' & Hiff); [done|done|done| |].
  - intros y. split; [by intros ?%elem_of_nil|]. intros (_ & n & s & ?%elem_of_nil & _). done.
  - exists g', z1, z2, ys. split; [done|]. split; [done|]. intros y. rewrite Hiff. split; [tauto|]. intros Hel. split; [done|].
    destruct Hel as ((n & s & Hs & -> & _) & _). by exists n, s.
Qed.
End snapshot.

(** ** The restoration *)
Section restore.
Context (u b : place) (Hap : apart u b).

(** [f'] has what [f] has, and besides at most directories above the user's and
    what the backup has, at the same place. *)
Definition filled f f' : Prop :=
  wf f' /\ (forall x, look f x <> None -> look f' x = look f x) /\
  forall x, look f' x <> look f x -> (x `suffix_of` u /\ look f' x = Some VDir) \/ exists r, x = r ++ u /\ look f' x = look f (r ++ b).

Lemma filled_backup f f' r : filled f f' -> look f' (r ++ b) = look f (r ++ b).
Proof.
  intros (_ & _ & Hf). destruct (decide (look f' (r ++ b) = look f (r ++ b))) as [|Hne]; [done|]. exfalso.
  destruct (Hf _ Hne) as [[Hs _]|(r' & Hr & _)].
  - apply (proj2 (apart_below u b [] r Hap)). done.
  - apply (proj1 (apart_below u b r' r Hap)). by rewrite Hr.
Qed.

Lemma filled_refl f : wf f -> filled f f.
Proof. intros Hwf. split_and!; [done|done|]. intros x Hx. done. Qed.

Lemma filled_trans f1 f2 f3 : filled f1 f2 -> filled f2 f3 -> filled f1 f3.
Proof.
  intros H12 H23. pose proof H12 as (_ & M12 & N12). pose proof H23 as (Hw & M23 & N23). split; [done|]. split.
  - intros x Hx. rewrite M23; [by apply M12|]. by rewrite M12.
  - intros x Hx. destruct (decide (look f3 x = look f2 x)) as [He|Hne].
    + rewrite He in Hx |- *. by apply N12.
    + destruct (N23 x Hne) as [?|(r & -> & Hr)]; [by left|]. right. exists r. split; [done|]. by rewrite Hr, (filled_backup f1 f2).
Qed.

(** The state in which files are put back: where the backup has a directory there
    is one or nothing. *)
Record ready f : Prop := {
  rd_wf : wf f;
  rd_user : linkless f u;
  rd_backup : linkless f b;
  rd_dir : look f b = Some VDir;
  rd_open : open_place f u;
  rd_dirs : forall r, look f (r ++ b) = Some VDir -> look f (r ++ u) = None \/ look f (r ++ u) = Some VDir;
}.

Lemma filled_ready f f' : ready f -> filled f f' -> ready f'.
Proof.
  intros [Hw Hu Hb Hd Ho Hr] Hf. pose proof Hf as (Hw' & Hm & Hn). split.
  - done.
  - intros r He. destruct (decide (look f' (r ++ u) = look f (r ++ u))) as [Hs|Hne]; [rewrite Hs in He; by apply (Hu r)|].
    destruct (Hn _ Hne) as [[_ ?]|(r' & Hr' & He')]; [congruence|]. apply app_inv_tail in Hr' as <-. apply (Hb r). congruence.
  - intros r. rewrite (filled_backup f f') by done. apply Hb.
  - by rewrite (filled_backup f f' [] Hf : look f' b = _).
  - intros x Hx. destruct (decide (look f' x = look f x)) as [->|Hne]; [by apply Ho|].
    destruct (Hn _ Hne) as [[_ ?]|(r & -> & He)]; [by right|]. destruct r as [|m r]; [|destruct Hx as [l Hx]; apply (f_equal length) in Hx; rewrite !length_app in Hx; cbn in Hx; lia].
    right. cbn in He |- *. congruence.
  - intros r He. rewrite (filled_backup f f') in He by done. destruct (decide (look f' (r ++ u) = look f (r ++ u))) as [->|Hne]; [by apply Hr|].
    destruct (Hn _ Hne) as [[_ ?]|(r' & Hr' & He')]; [by right|]. apply app_inv_tail in Hr' as <-. right. congruence.
Qed.

Lemma ready_open f x : ready f -> look f (x ++ b) = Some VDir -> open_place f (x ++ u).
Proof.
  intros Hf Hx y Hy. destruct (suffix_comparable y u (x ++ u)) as [Hyu|[r ->]]; [done|by apply suffix_app_r|by apply (rd_open f Hf)|].
  apply suffix_app_cancel in Hy as [l ->]. apply (rd_dirs f Hf). destruct l as [|m l]; [done|]. rewrite <- app_assoc in Hx.
  apply (dir_above f (r ++ b) (m :: l)); [exact (rd_wf f Hf)|congruence|done].
Qed.

(** Directories on the way are in the backup as well. *)
Lemma dirs_filled f x f' : ready f -> look f (x ++ b) = Some VDir -> adds_dirs (x ++ u) f f' -> filled f f'.
Proof.
  intros Hf Hx [Hw Hl]. pose proof (ready_open f x Hf Hx) as Ho. split; [done|]. split.
  - intros y Hy. rewrite Hl. case_decide as Hs; [|done]. by destruct (Ho y Hs).
  - intros y Hy. rewrite Hl in Hy |- *. case_decide as Hs; [|done].
    destruct (suffix_comparable y u (x ++ u)) as [Hyu|[r ->]]; [done|by apply suffix_app_r|by left|]. right. exists r. split; [done|]. symmetry.
    apply suffix_app_cancel in Hs as [l ->]. destruct l as [|m l]; [done|]. rewrite <- app_assoc in Hx. apply (dir_above f (r ++ b) (m :: l)); [exact (rd_wf f Hf)|congruence|done].
Qed.

Lemma restore_file_spec f x n bs c p q : ready f -> look f (x ++ b) = Some VDir -> look f (n :: x ++ b) = Some (VFile bs) ->
  loc p (x ++ b) -> loc q (x ++ u) ->
  exists f' c', restore_file (join p n) (join q n) (f, c) = (f', c') /\ filled f f' /\ look f' (n :: x ++ u) <> None.
Proof.
  intros Hf Hx Hn Hp Hq. destruct c as [rs un]. unfold restore_file.
  assert (name_ok n) as Hok by (apply (look_parent f n (x ++ b) (rd_wf f Hf)); congruence).
  pose proof (ready_open f x Hf Hx) as Ho.
  assert (forall g, filled f g -> plain g (n :: x ++ u)) as Hpl.
  { intros g Hg y [->|Hy]%suffix_cons_cases; [exact (rd_user g (filled_ready f g Hf Hg) (n :: x))|].
    apply (open_plain g (x ++ u)); [|done]. apply ready_open; [by eapply filled_ready|]. by rewrite (filled_backup f g). }
  rewrite (exists_plain f (rd_wf f Hf) (join q n) (n :: x ++ u)); [|by apply loc_name|by apply Hpl, filled_refl, rd_wf].
  case_bool_decide as He; [eexists _, _; split; [done|]; split; [by apply filled_refl, rd_wf|done]|].
  destruct (parent_join q (x ++ u) n Hq Hok) as (q' & -> & Hq').
  destruct (create_dir_all_plain q' (x ++ u) f (rd_wf f Hf) Hq' Ho) as (f1 & -> & Ha). cbn [fst].
  pose proof (dirs_filled f x f1 Hf Hx Ha) as Hf1. destruct Ha as [Hw1 Hl1].
  assert (look f1 (n :: x ++ u) = None) as Hn1.
  { rewrite Hl1, decide_False. - destruct (look f (n :: x ++ u)); [|done]. by destruct He. - intros [l Hs]. apply (f_equal length) in Hs. rewrite !length_app in Hs. cbn in Hs. rewrite length_app in Hs. lia. }
  destruct (copy_free (join p n) (join q n) (n :: x ++ b) (x ++ u) n bs f1) as (f2 & -> & Hw2 & Hl2).
  - done.
  - by apply loc_name.
  - apply linkless_plain; [done| |]; [by rewrite (filled_backup f f1)|]. intros r. rewrite app_assoc, (filled_backup f f1) by done. apply (rd_backup f Hf).
  - by rewrite (filled_backup f f1 (n :: x) Hf1 : look f1 (n :: x ++ b) = _).
  - by apply loc_name.
  - by apply Hpl.
  - by rewrite Hl1, decide_True.
  - done.
  - eexists _, _. split; [done|]. split; [|by rewrite Hl2, decide_True]. eapply filled_trans; [exact Hf1|]. split; [done|]. split.
    + intros y Hy. rewrite Hl2. case_decide; [by subst|done].
    + intros y Hy. rewrite Hl2 in Hy |- *. case_decide as Hyn; [|done]. right. exists (n :: x). split; [done|]. cbn.
      by rewrite (filled_backup f f1 (n :: x) Hf1 : look f1 (n :: x ++ b) = _).
Qed.

(** What was in the backup below [x] is there. *)
Definition complete f x f' : Prop := forall r bs, look f (r ++ x ++ b) = Some (VFile bs) -> look f' (r ++ x ++ u) <> None.

Lemma complete_mono f x f1 f2 : complete f x f1 -> filled f1 f2 -> complete f x f2.
Proof. intros Hc (_ & Hm & _) r bs Hr. specialize (Hc r bs Hr). by rewrite Hm. Qed.

(** A loop whose body fills in something for each element. *)
Lemma restore_loop {B} (body : Fs * (Z * Z) -> B -> outcome (Fs * (Z * Z))) (Q : B -> Fs -> Prop) f (l : list B) c : ready f ->
  (forall y g g', Q y g -> filled g g' -> Q y g') ->
  (forall g y c, y ∈ l -> filled f g -> exists g' c', body (g, c) y = Ret (g', c') /\ filled g g' /\ Q y g') ->
  exists f' c', ofold body l (f, c) = Ret (f', c') /\ filled f f' /\ forall y, y ∈ l -> Q y f'.
Proof.
  intros Hf Hmono Hbody. assert (forall l' g c, (forall y, y ∈ l' -> y ∈ l) -> filled f g ->
    exists g' c', ofold body l' (g, c) = Ret (g', c') /\ filled g g' /\ forall y, y ∈ l' -> Q y g') as Hloop.
  { induction l' as [|y l' IH]; intros g c' Hin Hg.
    { exists g, c'. split; [done|]. split; [apply filled_refl, Hg|]. by intros y ?%elem_of_nil. }
    destruct (Hbody g y c') as (g1 & c1 & Hb & Hg1 & Hc1); [apply Hin; by left|done|]. cbn [ofold]. rewrite Hb. cbn [obind].
    destruct (IH g1 c1) as (g2 & c2 & -> & Hg2 & Hc2); [intros m Hm; apply Hin; by right|by eapply filled_trans|].
    exists g2, c2. split; [done|]. split; [by eapply filled_trans|]. intros m [->|Hm]%elem_of_cons; [by eapply Hmono|by apply Hc2]. }
  apply Hloop; [done|]. by apply filled_refl, rd_wf.
Qed.

Lemma complete_dir f x f' : wf f -> look f (x ++ b) = Some VDir -> (forall n, n ∈ children (x ++ b) f -> complete f (n :: x) f') -> complete f x f'.
Proof.
  intros Hwf Hd Hc r bs Hr. destruct r as [|n r _] using rev_ind; [cbn in Hr; congruence|]. rewrite <- app_assoc in Hr |- *.
  apply (Hc n) with (bs := bs); [|done]. apply elem_of_listing; [done|]. destruct r as [|m r]; [cbn in Hr |- *; congruence|].
  rewrite (dir_above f (n :: x ++ b) (m :: r)); [done|done| |done]. cbn in *. congruence.
Qed.

Lemma restore_missing_spec fuel p q x f : ready f -> loc p (x ++ b) -> loc q (x ++ u) -> look f (x ++ b) = Some VDir -> shallow fuel f (x ++ b) ->
  exists f' c, restore_missing_files fuel p q f = Ret (f', c) /\ filled f f' /\ complete f x f'.
Proof.
  revert p q x f; induction fuel as [|fuel IH]; intros p q x f Hf Hp Hq Hd Hs.
  { specialize (Hs [] ltac:(cbn; congruence)). cbn in Hs. lia. }
  pose proof (rd_wf f Hf) as Hwf. cbn [restore_missing_files]. rewrite (read_dir_plain f Hwf p (x ++ b) Hp) by (by apply plain_dir). rewrite decide_True by done.
  match goal with |- context [ofold ?g _ _] => set (body := g) end.
  destruct (restore_loop body (fun n => complete f (n :: x)) f (children (x ++ b) f) (0, 0) Hf) as (f' & c & -> & Hf' & Hc).
  - intros n g g'. apply complete_mono.
  - intros g n c Hn Hg. pose proof (filled_ready f g Hf Hg) as Hrg. assert (name_ok n) as Hok by (by eapply child_name).
    assert (forall r, look g (r ++ x ++ b) = look f (r ++ x ++ b)) as Hsame by (intros r; rewrite app_assoc; by apply filled_backup).
    assert (forall r, look g (r ++ (n :: x) ++ b) = look f (r ++ (n :: x) ++ b)) as Hsame' by (intros r; rewrite app_assoc; by apply filled_backup).
    unfold body. cbn [fst snd]. rewrite (dirs_in_dir g p (x ++ b) n); [|exact (rd_wf g Hrg)|done|by rewrite (Hsame [] : look g (x ++ b) = _)| |done].
    2:{ intros r. rewrite Hsame, app_assoc. apply (rd_backup f Hf). }
    case_bool_decide as Hdn.
    + destruct (IH (join p n) (join q n) (n :: x) g Hrg) as (g' & c' & -> & Hg' & Hc'); [by apply loc_name|by apply loc_name|done| |].
      { intros r. rewrite Hsame'. cbn. apply (shallow_child fuel f n (x ++ b) Hs). }
      cbn [obind]. eexists _, _. split; [done|]. split; [done|]. intros r bs Hr. apply (Hc' r bs). by rewrite Hsame'.
    + apply elem_of_listing in Hn as Hln; [|done]. pose proof (Hsame' [] : look g (n :: x ++ b) = _) as Hgn. rewrite Hgn in Hdn. cbn [app] in Hdn.
      destruct (look f (n :: x ++ b)) as [[|bs|]|] eqn:Hfn; [done| |by destruct (rd_backup f Hf (n :: x))|done].
      destruct (restore_file_spec g x n bs c p q Hrg) as (g' & c' & -> & Hg' & Hex); [by rewrite (Hsame [] : look g (x ++ b) = _)|by rewrite Hgn|done|done|].
      eexists _, _. split; [done|]. split; [done|]. intros r bs' Hr. destruct r as [|m r]; [done|].
      exfalso. rewrite (dir_above f (n :: x ++ b) (m :: r)) in Hfn; [done|done| |done]. cbn in *. congruence.
  - exists f', c. split; [done|]. split; [done|]. by apply complete_dir.
Qed.

(** Every directory of a game in the backup. *)
Definition game_complete f (s : PathBuf) n f' : Prop := look f (n :: place_of s ++ b) = Some VDir -> complete f (n :: place_of s) f'.

Lemma restore_scan_spec fuel user_dir backup_dir s f g c : ready f -> filled f g -> loc user_dir u -> loc backup_dir b -> s ∈ SAVE_SCAN_DIRS -> shallow fuel f b ->
  exists g' c', restore_scan fuel user_dir backup_dir (g, c) s = Ret (g', c') /\ filled g g' /\ forall n, game_complete f s n g'.
Proof.
  intros Hf Hg Hu Hb Hs Hsh. pose proof (proj1 scan_dirs_ok) as Hok. rewrite Forall_forall in Hok. destruct (Hok s Hs) as [Ha Hc].
  pose proof (filled_ready f g Hf Hg) as Hrg. pose proof (rd_wf g Hrg) as Hwg. pose proof (loc_join backup_dir s b (place_of s) Hb Ha Hc) as Hloc.
  assert (forall r, look g (r ++ b) = look f (r ++ b)) as Hsame by (intros r; by apply filled_backup).
  assert (forall r, plain g (r ++ b)) as Hpl.
  { intros r y Hy. destruct (suffix_comparable y b (r ++ b)) as [Hyb|[l ->]]; [done|by apply suffix_app_r| |apply (rd_backup g Hrg)].
    apply (plain_dir g b Hwg); [exact (rd_dir g Hrg)|done]. }
  unfold restore_scan. cbn [fst]. rewrite (is_dir_plain g Hwg _ _ Hloc) by apply Hpl. rewrite (read_dir_plain g Hwg _ _ Hloc) by apply Hpl. rewrite Hsame.
  case_bool_decide as Hd; cbn [negb].
  2:{ exists g, c. split; [done|]. split; [by apply filled_refl|]. intros n Hn. exfalso. apply Hd, (look_parent f n (place_of s ++ b) (rd_wf f Hf)). congruence. }
  rewrite decide_True by done.
  destruct (restore_loop (restore_entry fuel user_dir s (join backup_dir s)) (fun n => game_complete f s n) g (children (place_of s ++ b) g) c Hrg) as (g' & c' & Hr & Hg' & Hq).
  - intros n g1 g2 H1 H2 Hn. eapply complete_mono; [by apply H1|done].
  - intros g1 n c1 Hn Hg1. assert (name_ok n) as Hnok by (by eapply child_name). pose proof (filled_ready g g1 Hrg Hg1) as Hrg1.
    assert (filled f g1) as Hfg1 by (by eapply filled_trans). assert (forall r, look g1 (r ++ b) = look f (r ++ b)) as Hs1 by (intros r; by apply filled_backup).
    pose proof (game_loc backup_dir b s n Hb Hs Hnok) as Hlb. pose proof (game_loc user_dir u s n Hu Hs Hnok) as Hlu.
    unfold restore_entry. cbn [fst snd]. rewrite (is_dir_plain g1 (rd_wf g1 Hrg1) _ _ Hlb).
    2:{ cbn. apply linkless_plain; [exact (rd_wf g1 Hrg1)|by rewrite Hs1|]. intros r. rewrite app_assoc. apply (rd_backup g1 Hrg1). }
    rewrite Hs1. case_bool_decide as Hdn; cbn [negb].
    + destruct (restore_missing_spec fuel _ _ (n :: place_of s) g1 Hrg1 Hlb Hlu) as (g' & c' & -> & Hg' & Hcm); [by rewrite Hs1| |].
      { intros r Hr. rewrite app_assoc, Hs1 in Hr. apply Hsh in Hr. rewrite length_app in Hr. lia. }
      cbn [obind]. eexists _, _. split; [done|]. split; [done|]. intros _ r bs Hr. apply (Hcm r bs). rewrite app_assoc, Hs1, <- app_assoc. exact Hr.
    + exists g1, c1. split; [done|]. split; [by apply filled_refl, rd_wf|]. intros Hn'. done.
  - exists g', c'. split; [done|]. split; [done|]. intros n Hn. apply Hq; [|done]. apply elem_of_listing; [done|].
    rewrite (Hsame (n :: place_of s) : look g (n :: place_of s ++ b) = _). cbn. congruence.
Qed.

Lemma restore_data_spec fuel pfx backup_dir f : ready f -> loc (join pfx USER_DIR) u -> loc backup_dir b -> b <> [] -> shallow fuel f b ->
  exists f' f'', restore_save_data fuel pfx backup_dir f = Ret f'' /\ filled f f' /\ (forall x, ~ b `suffix_of` x -> look f'' x = look f' x) /\
    forall s n, s ∈ SAVE_SCAN_DIRS -> game_complete f s n f'.
Proof.
  intros Hf Hu Hb Hne Hsh. unfold restore_save_data.
  rewrite (exists_plain f (rd_wf f Hf) backup_dir b Hb) by (apply plain_dir; [exact (rd_wf f Hf)|exact (rd_dir f Hf)]). rewrite bool_decide_true by (by rewrite (rd_dir f Hf)). cbn [negb].
  destruct (restore_loop (restore_scan fuel (join pfx USER_DIR) backup_dir) (fun s g => forall n, game_complete f s n g) f SAVE_SCAN_DIRS (0, 0) Hf) as (f' & c & -> & Hf' & Hq).
  - intros s g1 g2 H1 H2 n Hn. eapply complete_mono; [by apply H1|done].
  - intros g s c Hs Hg. by apply restore_scan_spec.
  - cbn [obind fst snd]. exists f'. case_decide.
    + exists f'. split; [done|]. split; [done|]. split; [done|]. intros s n Hs. by apply Hq.
    + destruct (remove_dir_all_plain backup_dir b f') as (f'' & -> & Hw & Hl); [exact (rd_wf f' (filled_ready f f' Hf Hf'))|done|done|exact (rd_dir f' (filled_ready f f' Hf Hf'))|].
      exists f''. cbn [fst]. split; [done|]. split; [done|]. split; [|intros s n Hs; by apply Hq]. intros x Hx. rewrite Hl. by rewrite decide_False.
Qed.
End restore.

(** ** Both together *)
Definition PFX : str := Eval vm_compute in lit "pfx".
(** The user's directory and the backup of the prefix below a place. *)
Definition user_place (c : place) : place := place_of USER_DIR ++ PFX :: c.
Definition backup_place (c : place) : place := BACKUP :: c.

Lemma places_apart c : apart (user_place c) (backup_place c).
Proof.
  apply (apart_below (PFX :: c) (BACKUP :: c) (place_of USER_DIR) []).
  split; intros [[|m r] Hr]; [done|apply (f_equal length) in Hr; cbn in Hr; rewrite length_app in Hr; cbn in Hr; lia| |apply (f_equal length) in Hr; cbn in Hr; rewrite length_app in Hr; cbn in Hr; lia].
  done.
Qed.

Lemma names_ok : name_ok PFX /\ name_ok BACKUP /\ name_ok MANIFEST.
Proof. split_and!; apply (bool_decide_eq_true_1 _); vm_compute; reflexivity. Qed.

Lemma user_loc compat c : loc compat c -> loc (join (join compat PFX) USER_DIR) (user_place c).
Proof.
  intros Hc. unfold user_place. apply loc_join; [by apply loc_name, names_ok|vm_compute; reflexivity..].
Qed.

Lemma manifest_no_game y : game_dir y -> ~ [MANIFEST] `suffix_of` y /\ ~ y `suffix_of` [MANIFEST].
Proof.
  intros (n & s & Hs & -> & _). assert (~ [MANIFEST] `suffix_of` place_of s /\ place_of s <> []) as [H1 H2].
  { assert (Forall (fun s => ~ [MANIFEST] `suffix_of` place_of s /\ place_of s <> []) SAVE_SCAN_DIRS) as Hall.
    { apply (bool_decide_eq_true_1 _). vm_compute. reflexivity. }
    rewrite Forall_forall in Hall. by apply Hall. }
  split.
  - intros [Hx|Hx]%suffix_cons_cases; [|done]. injection Hx as _ Hx. done.
  - intros [r Hr]. apply (f_equal length) in Hr. rewrite length_app in Hr. cbn in Hr. destruct (place_of s); [done|cbn in Hr; lia].
Qed.

Lemma write_new p n d bs f : wf f -> loc p (n :: d) -> plain f (n :: d) -> look f (n :: d) = None ->
  let f' := (write p bs f).1 in
  wf f' /\ (forall x, x <> n :: d -> look f' x = look f x) /\ (look f' (n :: d) = None \/ look f' (n :: d) = Some (VFile bs)).
Proof.
  intros Hwf Hp Hpl Hn. unfold write. rewrite (lookup_plain true p (n :: d) f) by done. unfold found_at.
  apply look_none in Hn as He; [|done]. rewrite He. case_decide as Hd; [|cbn; by split_and!; [| |left]].
  destruct (add_file_adds f Hwf d n Hd) with (bs := bs) as [Hw Hl]; [apply loc_names in Hp; by apply Forall_cons in Hp as [? _]|done|]. cbn [fst].
  split; [done|]. split; [intros x Hx; by rewrite Hl, decide_False|]. right. by rewrite Hl, decide_True.
Qed.

#[local] Opaque PFX MANIFEST BACKUP USER_DIR SAVE_SCAN_DIRS place_of.

Section snapshot_data.
Context (compat : PathBuf) (c : place) (Hcompat : loc compat c).
Let u := user_place c.
Let b := backup_place c.
Context (decimal : Z -> str) (fuel : nat) (f : Fs) (Hwf : wf f) (Hu : look f u = Some VDir) (Hl : linkless f u).
Context (Hfuel : shallow fuel f u) (Hsize : Z.of_nat (size (names_below u f)) < 2 ^ 32) (Hb : look f b = None \/ look f b = Some VDir).

Lemma compat_dir : look f c = Some VDir.
Proof. apply (dir_above f c (place_of USER_DIR ++ [PFX])); [done| |done]. rewrite <- app_assoc. cbn [app]. fold (user_place c). fold u. congruence. Qed.

Lemma old_backup_gone backup_dir : loc backup_dir b ->
  saved u b f [] (if exists_ backup_dir f then (remove_dir_all backup_dir f).1 else f).
Proof.
  intros Hbd. assert (plain f b) as Hpl.
  { intros x [->|Hx]%suffix_cons_cases; [fold (backup_place c); fold b; destruct Hb; congruence|]. by apply (plain_dir f c Hwf compat_dir). }
  rewrite (exists_plain f Hwf backup_dir b Hbd Hpl). case_bool_decide as He.
  - destruct Hb as [?|Hd]; [done|]. destruct (remove_dir_all_plain backup_dir b f Hwf Hbd) as (f' & -> & Hw & Hlook); [done|done|]. cbn [fst]. split; [done|..].
    + intros x Hx%rel_None. by rewrite Hlook, decide_False.
    + by intros y r ?%elem_of_nil.
    + intros r Hr. exfalso. apply Hr. rewrite Hlook, decide_True; [done|]. by apply suffix_app_r.
  - assert (look f b = None) as Hn by (destruct (look f b); [by destruct He|done]). split; [done|done|by intros y r ?%elem_of_nil|].
    intros r Hr. exfalso. destruct r as [|m r]; [done|]. rewrite (dir_above f b (m :: r)) in Hn; done.
Qed.

Lemma snapshot_spec : exists f1 o, snapshot_save_data decimal fuel (join compat PFX) f = Ret (f1, o) /\ wf f1 /\
  (forall x, ~ b `suffix_of` x -> look f1 x = look f x) /\
  (forall y r, eligible u f y -> look f1 (r ++ y ++ b) = look f (r ++ y ++ u)) /\
  linkless f1 b /\ (look f1 b = None \/ look f1 b = Some VDir) /\ (forall p, o = Some p -> loc p b).
Proof.
  unfold snapshot_save_data. pose proof (user_loc compat c Hcompat) as Huser. fold u in Huser.
  rewrite (exists_plain f Hwf _ u Huser) by (by apply plain_dir). rewrite bool_decide_true by congruence. cbn [negb].
  destruct (parent_join compat c PFX Hcompat (proj1 names_ok)) as (up & -> & Hup).
  assert (loc (join up BACKUP) b) as Hbd by (apply loc_name; [done|apply names_ok]).
  pose proof (old_backup_gone _ Hbd) as Hs0. set (f0 := if exists_ (join up BACKUP) f then _ else f) in *.
  destruct (snapshot_scans_spec u b (places_apart c) f Hwf Hu Hl BACKUP c eq_refl compat_dir _ _ Huser Hbd fuel Hfuel Hsize f0 Hs0) as (g & z1 & z2 & ys & Hr & Hg & Hys).
  rewrite Hr. cbn [obind].
  assert (forall r, look g (r ++ b) <> Some VLink) as Hlb.
  { intros r He. destruct (sv_only u b f ys g Hg r) as (y & Hy & [[_ ?]|[l ->]]); [congruence|congruence|].
    rewrite <- app_assoc, (sv_copies u b f ys g Hg y l Hy), app_assoc in He. by apply (Hl (l ++ y)). }
  assert (forall y, y ∈ ys -> game_dir y) as Hgd by (intros y Hy; by apply Hys).
  assert (look g b = None \/ look g b = Some VDir) as Hgb.
  { destruct (look g b) eqn:He; [|by left]. right. destruct (sv_only u b f ys g Hg []) as (y & Hy & [[_ Hd]|Hs]); [rewrite app_nil_l; congruence|rewrite app_nil_l in Hd; congruence|].
    destruct (Hgd y Hy) as (n & s & _ & -> & _). apply suffix_nil_inv in Hs. done. }
  assert (forall x, ~ b `suffix_of` x -> look g x = look f x) as Hout by (intros x Hx; by apply (sv_outside u b f ys g Hg), rel_None).
  case_decide as Hz.
  { exists g, None. split; [done|]. split; [exact (sv_wf u b f ys g Hg)|]. split; [done|]. split; [intros y r Hy; apply (sv_copies u b f ys g Hg); by apply Hys|]. done. }
  assert (look g (MANIFEST :: b) = None) as Hman.
  { destruct (look g (MANIFEST :: b)) eqn:He; [|done]. exfalso. destruct (sv_only u b f ys g Hg [MANIFEST]) as (y & Hy & [[Hs _]|Hs]); [change (look g (MANIFEST :: b) <> None); congruence|..].
    - exact (proj1 (manifest_no_game y (Hgd y Hy)) Hs).
    - exact (proj2 (manifest_no_game y (Hgd y Hy)) Hs). }
  set (text := encode_utf8 _).
  destruct (write_new (join (join up BACKUP) MANIFEST) MANIFEST b text g) as (Hw & Hsame & Hat); [exact (sv_wf u b f ys g Hg)|apply loc_name; [done|apply names_ok]| |done|].
  { intros x [->|Hx]%suffix_cons_cases; [congruence|]. destruct (decide (b `suffix_of` x)) as [[r ->]|Hn]; [apply Hlb|]. rewrite Hout by done.
    apply suffix_cons_cases in Hx as [->|Hx]; [by destruct Hn|]. by apply (plain_dir f c Hwf compat_dir). }
  cbn zeta in Hw, Hsame, Hat. set (f1 := (write _ text g).1) in *. exists f1, (Some (join up BACKUP)). split; [done|]. split; [done|].
  split; [|split; [|split; [|split]]].
  - intros x Hx. rewrite Hsame; [by apply Hout|]. intros ->. apply Hx. by apply suffix_cons_r.
  - intros y r Hy. assert (y ∈ ys) as Hin by (by apply Hys). rewrite Hsame; [by apply (sv_copies u b f ys g Hg)|]. intros He.
    rewrite app_assoc in He. assert (r ++ y = [MANIFEST]) as He' by (by apply (app_inv_tail b)). apply (proj2 (manifest_no_game y (Hgd y Hin))). by exists r.
  - intros r. destruct (decide (r ++ b = MANIFEST :: b)) as [->|Hne]; [destruct Hat as [->| ->]; done|]. rewrite Hsame by done. apply Hlb.
  - rewrite Hsame; [done|]. intros He. apply (f_equal length) in He. cbn in He. lia.
  - by intros p [= <-].
Qed.
End snapshot_data.

(** C16: save directories survive a game that loses them.  The directory of the
    user steamuser has no links; of it the launcher copies, before the game starts,
    the directories it considers save data ([eligible]: directories right below the
    scanned places, that are not skipped).  The game then may do anything to the
    file system that leaves the copy alone, puts no link in the user's directory
    or on the way to it and no file where a saved directory was.  After the
    restoration every file of an eligible directory is there: as the game left it
    when the game left anything there, and else as it was before; and nothing that
    the game left is changed.  Loose files and the files of other users are not
    covered ([loose_saves_not_kept], [other_user_not_kept]). *)
Theorem saves_restored decimal fuel compat c f f1 backup f2 :
  let pfx := join compat PFX in let u := user_place c in let b := backup_place c in
  loc compat c -> wf f -> look f u = Some VDir -> linkless f u -> shallow fuel f u -> Z.of_nat (size (names_below u f)) < 2 ^ 32 ->
  look f b = None \/ look f b = Some VDir ->
  snapshot_save_data decimal fuel pfx f = Ret (f1, Some backup) ->
  wf f2 -> (forall r, look f2 (r ++ b) = look f1 (r ++ b)) -> linkless f2 u -> open_place f2 u -> shallow fuel f2 b ->
  (forall r, look f1 (r ++ b) = Some VDir -> look f2 (r ++ u) = None \/ look f2 (r ++ u) = Some VDir) ->
  exists f3, restore_save_data fuel pfx backup f2 = Ret f3 /\
    (forall x, ~ b `suffix_of` x -> look f2 x <> None -> look f3 x = look f2 x) /\
    (forall y r bs, eligible u f y -> look f (r ++ y ++ u) = Some (VFile bs) -> look f3 (r ++ y ++ u) = Some (default (VFile bs) (look f2 (r ++ y ++ u)))).
Proof.
  cbn zeta. intros Hc Hwf Hu Hl Hfu Hsz Hb Hsnap Hwf2 Hsame Hl2 Ho2 Hsh2 Hdirs. set (u := user_place c) in *. set (b := backup_place c) in *.
  destruct (snapshot_spec compat c Hc decimal fuel f Hwf Hu Hl Hfu Hsz Hb) as (f1' & o & Hr & Hw1 & Hout & Hcopy & Hlb & Hbd & Hloc).
  rewrite Hr in Hsnap. injection Hsnap as -> ->. fold u b in Hout, Hcopy, Hlb, Hbd, Hloc. specialize (Hloc backup eq_refl).
  assert (forall y, eligible u f y -> look f1 b = Some VDir) as Hex.
  { intros y Hy. pose proof Hy as ((n & s & _ & -> & _) & Hd & _). pose proof (Hcopy _ [] Hy) as He. cbn [app] in He.
    apply (dir_above f1 b (n :: place_of s)); [done| |done]. cbn [app] in *. congruence. }
  destruct Hbd as [Hn|Hd].
  { unfold restore_save_data. assert (look f2 b = None) as Hn2 by (by rewrite (Hsame [] : look f2 b = _)).
    rewrite (exists_plain f2 Hwf2 backup b Hloc).
    - rewrite bool_decide_false by (rewrite Hn2; tauto). cbn [negb]. exists f2. split; [done|]. split; [done|]. intros y r bs Hy. apply Hex in Hy. congruence.
    - intros x [->|Hx]%suffix_cons_cases; [by rewrite (Hn2 : look f2 (BACKUP :: c) = _)|]. apply (open_plain f2 u Ho2). etrans; [exact Hx|]. unfold u, user_place.
      exists (place_of USER_DIR ++ [PFX]). by rewrite <- app_assoc. }
  assert (ready u b f2) as Hready.
  { split; [done|done|by intros r; rewrite Hsame|by rewrite (Hsame [] : look f2 b = _)|done|]. intros r. rewrite Hsame. apply Hdirs. }
  destruct (restore_data_spec u b (places_apart c) fuel (join compat PFX) backup f2 Hready) as (f' & f3 & Hres & Hfill & Hx & Hcomp); [by apply user_loc|done|done|done|].
  exists f3. split; [done|]. destruct Hfill as (Hw' & Hmono & Hnew). split.
  - intros x Hbx Hn. rewrite Hx by done. by apply Hmono.
  - intros y r bs Hy Hf. assert (~ b `suffix_of` (r ++ y ++ u)) as Hnb.
    { rewrite app_assoc. by apply (apart_below u b (r ++ y) [] (places_apart c)). }
    rewrite Hx by done. destruct (look f2 (r ++ y ++ u)) as [v|] eqn:Hv; [rewrite Hmono by congruence; by rewrite Hv|]. cbn [default from_option id].
    pose proof Hy as ((n & s & Hs & -> & _) & Hyd & _). assert (look f2 (r ++ (n :: place_of s) ++ b) = Some (VFile bs)) as Hbf by (rewrite app_assoc, Hsame, <- app_assoc, Hcopy; done).
    assert (look f' (r ++ (n :: place_of s) ++ u) <> None) as Hnn.
    { apply (Hcomp s n Hs) with (bs := bs); [|done]. exact (eq_trans (Hsame (n :: place_of s)) (eq_trans (Hcopy _ [] Hy) Hyd)). }
    destruct (Hnew (r ++ (n :: place_of s) ++ u)) as [[Hs' _]|(r' & Hr' & He)]; [congruence|..].
    + exfalso. destruct Hs' as [l Hl']. apply (f_equal length) in Hl'. rewrite !length_app in Hl'. cbn in Hl'. lia.
    + rewrite app_assoc in Hr'. apply app_inv_tail in Hr' as <-. rewrite He, <- app_assoc. done.
Qed.

End Saves.

(** ** A prefix with saves *)
Module SavesDemo.
Import Text Fs Saves.
Local Notation lit := Registry.lit.

#[export] Instance comp_eq_dec : EqDecision comp.
Proof. solve_decision. Defined.
#[export] Instance entry_eq_dec : EqDecision entry.
Proof. solve_decision. Defined.

(** A tree without links, not deeper than [fuel]; it can be checked name by name. *)
Definition fine (fuel : nat) (f : Fs) (ke : place * entry) : Prop :=
  match ke.1 with
  | [] => False
  | n :: k => entry_at k f = Some EDir /\ name_ok n /\ (length ke.1 < fuel)%nat /\ match ke.2 with EFile i => inodes f !! i <> None | ELink _ _ => False | EDir => True end
  end.
#[export] Instance fine_dec fuel f ke : Decision (fine fuel f ke).
Proof. unfold fine. destruct ke as [[|n k] [|i|a t]]; cbn; apply _. Defined.
Definition small (fuel : nat) (f : Fs) : bool :=
  bool_decide (Forall (fine fuel f) (map_to_list (names f))) && bool_decide (map_Forall (fun i _ => i < next_ino f) (inodes f)).

Lemma small_fs fuel f : small fuel f = true -> wf f /\ (forall k, linkless f k) /\ (forall k, (0 < fuel)%nat -> shallow fuel f k).
Proof.
  intros [H1%bool_decide_eq_true H2%bool_decide_eq_true]%andb_true_iff. rewrite Forall_forall in H1.
  assert (forall k e, names f !! k = Some e -> fine fuel f (k, e)) as Hf by (intros k e Hk; by apply H1, elem_of_map_to_list).
  assert (wf f) as Hwf.
  { split.
    - destruct (names f !! []) as [e|] eqn:He; [|done]. by apply Hf in He.
    - intros n k e He. apply Hf in He as (? & ? & _). done.
    - intros k i He. apply Hf in He. unfold fine in He. cbn in He. destruct k; [done|]. apply not_eq_None_Some. tauto.
    - intros i [x Hx]. by apply (H2 i x). }
  split; [done|]. split.
  - intros k r Hx. destruct (r ++ k) as [|n x]; [done|]. rewrite look_cons in Hx. destruct (names f !! (n :: x)) as [[|i|a t]|] eqn:He; cbn in Hx; [done| | |done].
    + destruct (inodes f !! i); done.
    + apply Hf in He. unfold fine in He. cbn in He. tauto.
  - intros k H0 r Hr. destruct (r ++ k) as [|n x] eqn:Hx.
    + destruct r; [done|]. done.
    + rewrite look_none, entry_cons in Hr by done. destruct (names f !! (n :: x)) as [e|] eqn:He; [|done]. apply Hf in He. destruct He as (_ & _ & Hlt & _).
      cbn [fst] in Hlt. rewrite <- Hx, length_app in Hlt. lia.
Qed.

Definition root_fs : Fs := mkFs ∅ ∅ 1 [] 0.
Definition make (p : string) (f : Fs) : Fs := (create_dir_all (lit p) f).1.
Definition file (p : string) (bs : list Z) (f : Fs) : Fs := (write (lit p) bs f).1.
Definition COMPAT : PathBuf := Eval vm_compute in lit "/c".
Definition digits (z : Z) : str := lit "1".

Definition before : Fs :=
  file "/c/pfx/drive_c/users/steamuser/AppData/Roaming/Game/slot1" [1; 2; 3]
    (file "/c/pfx/drive_c/users/steamuser/AppData/Roaming/Game/slot2" [4]
      (make "/c/pfx/drive_c/users/steamuser/AppData/Roaming/Game" root_fs)).
Definition GAME : place := Eval vm_compute in map lit ["Game"; "Roaming"; "AppData"]%string.
Definition kept (o : outcome (Fs * option PathBuf)) : option PathBuf := match o with Ret (_, b) => b | _ => None end.
Definition state_after (f : Fs) (o : outcome (Fs * option PathBuf)) : Fs := match o with Ret (f', _) => f' | _ => f end.
Lemma kept_some f o p : kept o = Some p -> o = Ret (state_after f o, Some p).
Proof. destruct o as [[f' b]| |]; cbn; [|done..]. by intros ->. Qed.

Definition at_start : Fs := state_after before (snapshot_save_data digits 20 (join COMPAT PFX) before).
Definition SLOT1 : place := Eval vm_compute in lit "slot1" :: GAME ++ user_place [lit "c"].
(** The game loses the first slot and plays on in the second. *)
Definition after : Fs :=
  file "/c/pfx/drive_c/users/steamuser/AppData/Roaming/Game/slot2" [5; 6]
    (remove_file (lit "/c/pfx/drive_c/users/steamuser/AppData/Roaming/Game/slot1") at_start).1.

(** A property of everything below a place is checked at the names there are. *)
Lemma check_below (P : place -> Prop) `{forall x, Decision (P x)} (fs : list Fs) b : b <> [] -> Forall wf fs ->
  (forall r, Forall (fun f => look f (r ++ b) = None) fs -> P r) ->
  forallb (fun k => match rel b k with Some r => bool_decide (P r) | None => true end) (concat (map (fun f => (map_to_list (names f)).*1) fs)) = true ->
  forall r, P r.
Proof.
  intros Hb Hwf Hnone Hall r. destruct (decide (Forall (fun f => look f (r ++ b) = None) fs)) as [Hn|Hn]; [by apply Hnone|].
  apply not_Forall_Exists, Exists_exists in Hn as (f & Hf & Hl); [|apply _]. rewrite Forall_forall in Hwf.
  change (look f (r ++ b) <> None) in Hl. rewrite look_none in Hl by (by apply Hwf). destruct (r ++ b) as [|n x] eqn:Hx; [by destruct r|]. rewrite entry_cons in Hl.
  destruct (names f !! (n :: x)) as [e|] eqn:He; [|done]. rewrite forallb_forall in Hall.
  specialize (Hall (n :: x)). assert (match rel b (n :: x) with Some r => bool_decide (P r) | None => true end = true) as Hp.
  { apply Hall, in_concat. exists ((map_to_list (names f)).*1). split; apply list_elem_of_In; [apply list_elem_of_fmap; by exists f|].
    apply list_elem_of_fmap. exists (n :: x, e). split; [done|]. by apply elem_of_map_to_list. }
  rewrite <- Hx, rel_app in Hp. by apply bool_decide_eq_true in Hp.
Qed.

Lemma saves_restored_witness :
  exists f3, restore_save_data 20 (join COMPAT PFX) (lit "/c/save_backup") after = Ret f3 /\ look f3 SLOT1 = Some (VFile [1; 2; 3]) /\
    look f3 (lit "slot2" :: GAME ++ user_place [lit "c"]) = Some (VFile [5; 6]).
Proof.
  assert (small 20 before = true /\ small 20 at_start = true /\ small 20 after = true) as (B1 & B2 & B3) by (vm_compute; done).
  apply small_fs in B1 as (W1 & L1 & S1). apply small_fs in B2 as (W2 & L2 & S2). apply small_fs in B3 as (W3 & L3 & S3).
  assert (snapshot_save_data digits 20 (join COMPAT PFX) before = Ret (at_start, Some (lit "/c/save_backup"))) as Hsnap by (apply kept_some; vm_compute; reflexivity).
  destruct (saves_restored digits 20 COMPAT [lit "c"] before at_start (lit "/c/save_backup") after) as (f3 & Hr & Hkeep & Hback).
  - split; vm_compute; reflexivity.
  - exact W1.
  - vm_compute. reflexivity.
  - apply L1.
  - apply S1. lia.
  - vm_compute. reflexivity.
  - left. vm_compute. reflexivity.
  - exact Hsnap.
  - exact W3.
  - apply (check_below (fun r => look after (r ++ backup_place [lit "c"]) = look at_start (r ++ backup_place [lit "c"])) [at_start; after] (backup_place [lit "c"]));
      [discriminate|exact (Forall_cons_2 _ _ _ W2 (Forall_cons_2 _ _ _ W3 (Forall_nil_2 _)))| |vm_compute; reflexivity].
    intros r Hn. apply Forall_cons in Hn as [Hn1 Hn]. apply Forall_cons in Hn as [Hn2 _]. exact (eq_trans Hn2 (eq_sym Hn1)).
  - apply L3.
  - intros x Hx. right. destruct Hx as [[|m l] Hx].
    + cbn [app] in Hx. subst x. vm_compute. reflexivity.
    + apply (dir_above after x (m :: l) W3); [|done]. rewrite <- Hx. vm_compute. discriminate.
  - apply S3. lia.
  - apply (check_below (fun r => look at_start (r ++ backup_place [lit "c"]) = Some VDir ->
      look after (r ++ user_place [lit "c"]) = None \/ look after (r ++ user_place [lit "c"]) = Some VDir) [at_start] (backup_place [lit "c"]));
      [discriminate|exact (Forall_cons_2 _ _ _ W2 (Forall_nil_2 _))| |vm_compute; reflexivity].
    intros r Hn Hd. apply Forall_cons in Hn as [Hn _]. rewrite Hn in Hd. discriminate.
  - exists f3. split; [exact Hr|].
    assert (eligible (user_place [lit "c"]) before GAME) as Hel.
    { split; [|split].
      - exists (lit "Game"), (lit "AppData/Roaming"). split; [by left|]. split; vm_compute; reflexivity.
      - vm_compute. reflexivity.
      - exists [lit "slot1"], [1; 2; 3]. vm_compute. reflexivity. }
    split.
    + etransitivity; [apply (Hback GAME [lit "slot1"] [1; 2; 3] Hel)|]; vm_compute; reflexivity.
    + etransitivity; [apply (Hback GAME [lit "slot2"] [4] Hel)|]; vm_compute; reflexivity.
Defined.

(** ** Where the code departs from what it means to do *)

(** A save that lies in a scanned directory itself is not copied, and is lost. *)
Definition loose : Fs := file "/c/pfx/drive_c/users/steamuser/Documents/save" [1] (make "/c/pfx/drive_c/users/steamuser/Documents" root_fs).
Theorem loose_saves_not_kept : kept (snapshot_save_data digits 20 (join COMPAT PFX) loose) = None /\
  exists_ (lit "/c/pfx/drive_c/users/steamuser/Documents/save") loose = true.
Proof. vm_compute. split; reflexivity. Qed.

(** The profile the launcher sets up is that of the user who runs it; the saves in
    it are not looked at. *)
Definition other_user : Fs := file "/c/pfx/drive_c/users/ann/AppData/Roaming/Game/save" [1] (make "/c/pfx/drive_c/users/ann/AppData/Roaming/Game" root_fs).
Theorem other_user_not_kept : kept (snapshot_save_data digits 20 (join COMPAT PFX) other_user) = None /\
  exists_ (lit "/c/pfx/drive_c/users/ann/AppData/Roaming/Game/save") other_user = true.
Proof. vm_compute. split; reflexivity. Qed.

End SavesDemo.
