(* ===== verification/Environ.v ===== *)
(** * The environment of a game ([src/rust/src/quark/launcher.rs])

    Where the launcher finds Wine, Proton and Steam, the command line under
    [bwrap], the environment variables it sets, and the file with the user's own
    variables.  The process's environment and the path of the executable are
    arguments; strings are lists of bytes. *)

From stdpp Require Import base list gmap strings.
From coqutil Require Import Datatypes.RecordSettersUsingExistingGetters.
From S2P Require Import Prelude Text Registry RegFile Fs.
Local Open Scope Z_scope.
Local Open Scope outcome_scope.

Module Environ.
Import Text Fs.
Local Notation lit := Registry.lit.
Implicit Types (f : Fs) (p : PathBuf).

Definition Env : Type := gmap str str.
Implicit Types (env : Env).
(** [p / "a/b"] is [p.join("a/b")]. *)
Local Notation "p / s" := (join p (lit s)).
Definition var env (k : string) : option str := env !! lit k.
Definition var_or env (k : string) (d : str) : str := default d (var env k).
Definition COLON : Z := 58.
Definition SEMICOLON : Z := 59.
(** A path in the notation of Windows. *)
Definition backslashes (s : str) : str := map (fun c => if decide (c = SLASH) then 0x5C else c) s.

(** ** The installation *)
Definition has_wine_bin p f : bool := exists_ (p / "lib/wine/x86_64-unix/wine") f || exists_ (p / "bin/wine64") f || exists_ (p / "bin/wine") f.
Definition wine_binary p f : PathBuf :=
  if exists_ (p / "lib/wine/x86_64-unix/wine") f then p / "lib/wine/x86_64-unix/wine"
  else if exists_ (p / "bin/wine64") f then p / "bin/wine64" else p / "bin/wine".

(** The first directory of a Proton version that will do. *)
Definition first_proton (ok : PathBuf -> bool) (common : PathBuf) f : option PathBuf :=
  match read_dir common f with
  | Some ns => head (filter (fun files => ok files = true) (map (fun n => join common n / "files") (filter (fun n => RegFile.has_prefix (lit "Proton") (from_utf8_lossy n) = true) ns)))
  | None => None
  end.

Definition find_wine env (exe : option PathBuf) f : PathBuf :=
  let home := var_or env "HOME" [] in
  let explicit := dir ← var env "TRISKELION_WINE_DIR"; if has_wine_bin dir f then Some dir else None in
  let staged := dir ← exe ≫= parent; if has_wine_bin dir f && exists_ (dir / "lib/wine/x86_64-unix/ntdll.so") f then Some dir else None in
  match explicit, staged with
  | Some dir, _ => dir
  | None, Some dir => dir
  | None, None =>
      let proton_exp := home / ".steam/root/steamapps/common/Proton - Experimental/files" in
      if has_wine_bin (lit "/usr") f then lit "/usr"
      else if has_wine_bin proton_exp f then proton_exp
      else default (lit "/nonexistent/wine") (first_proton (fun files => has_wine_bin files f) (home / ".steam/root/steamapps/common") f)
  end.

Definition find_proton_files env f : option PathBuf :=
  let home := var_or env "HOME" [] in
  let proton_exp := home / ".steam/root/steamapps/common/Proton - Experimental/files" in
  if exists_ (proton_exp / "lib/wine") f then Some proton_exp
  else first_proton (fun files => exists_ (files / "lib/wine") f) (home / ".steam/root/steamapps/common") f.

Definition is_steam p f : bool := exists_ (p / "linux64/steamclient.so") f.
Definition find_steam_dir env f : PathBuf :=
  let home := var_or env "HOME" [] in
  match (dir ← var env "STEAM_COMPAT_CLIENT_INSTALL_PATH"; if is_steam dir f then Some dir else None) with
  | Some dir => dir
  | None =>
      if is_steam (home / ".steam/root") f then home / ".steam/root"
      else if is_steam (home / ".local/share/Steam") f then home / ".local/share/Steam"
      else home / ".steam/root"
  end.

(** ** Commands *)

(** [std::process::Command]; a variable is set or removed, the last time counts.
    The standard streams can go to files. *)
Record Command : Type := mkCommand { program : PathBuf; args : list str; envs : list (str * option str); current_dir : option PathBuf; stdout : option PathBuf; stderr : option PathBuf }.
#[export] Instance set_args : Setter args := _.
#[export] Instance set_envs : Setter envs := _.
#[export] Instance set_current_dir : Setter current_dir := _.
#[export] Instance set_stdout : Setter stdout := _.
#[export] Instance set_stderr : Setter stderr := _.
Implicit Types (cmd : Command).
Definition command p : Command := mkCommand p [] [] None None None.
Definition with_args (l : list str) cmd : Command := cmd <| args ::= fun a => a ++ l |>.
Definition with_env (k v : str) cmd : Command := cmd <| envs ::= fun a => a ++ [(k, Some v)] |>.
Definition without_env (k : str) cmd : Command := cmd <| envs ::= fun a => a ++ [(k, None)] |>.
Definition with_envs (l : list (str * str)) cmd : Command := cmd <| envs ::= fun a => a ++ map (fun kv => (kv.1, Some kv.2)) l |>.
(** What the child sees. *)
Fixpoint last_setting (k : str) (l : list (str * option str)) : option (option str) :=
  match l with
  | [] => None
  | (k', v) :: l => match last_setting k l with Some r => Some r | None => if decide (k' = k) then Some v else None end
  end.
Definition child_var env cmd (k : str) : option str := match last_setting k (envs cmd) with Some v => v | None => env !! k end.

Definition build_wine_command (wine_bin wine_dir : PathBuf) f : Command :=
  let bwrap := lit "/usr/bin/bwrap" in
  let quark_lib_wine := wine_dir / "lib/wine" in
  let quark_share_wine := wine_dir / "share/wine" in
  if negb (exists_ bwrap f) then command wine_bin
  else if negb (exists_ quark_lib_wine f) || negb (exists_ quark_share_wine f) then command wine_bin
  else with_args ([lit "--dev-bind"; lit "/"; lit "/"; lit "--bind"; quark_lib_wine; lit "/usr/lib/wine"; lit "--bind"; quark_share_wine; lit "/usr/share/wine";
                   lit "--die-with-parent"; lit "--"; wine_bin]) (command bwrap).

(** The overlay of Steam is taken out of the preloaded libraries. *)
Definition is_overlay (s : str) : bool := RegFile.contains (lit "gameoverlayrenderer") s.
Definition preload_parts (existing : str) : list str := filter (fun s => s <> [] /\ is_overlay s = false) (RegFile.split_char COLON existing []).
Definition colons (l : list str) : str := RegFile.join [COLON] l.
Definition set_preload env (extra : list str) cmd : Command :=
  match preload_parts (var_or env "LD_PRELOAD" []) ++ extra with
  | [] => without_env (lit "LD_PRELOAD") cmd
  | l => with_env (lit "LD_PRELOAD") (colons l) cmd
  end.

(** Those of the paths that exist. *)
Definition existing (l : list PathBuf) f : list PathBuf := filter (fun p => exists_ p f = true) l.

(** ** The variables of a game *)
Definition BASE_OVERRIDES : list (str * str) := Eval vm_compute in
  map (fun kv => (lit kv.1, lit kv.2))
  [("lsteamclient", "b"); ("steam.exe", "b"); ("dotnetfx35.exe", "b"); ("dotnetfx35setup.exe", "b"); ("beclient.dll", "b,n");
   ("beclient_x64.dll", "b,n"); ("xinput1_1.dll", "b"); ("xinput1_2.dll", "b"); ("xinput1_3.dll", "b"); ("xinput1_4.dll", "b");
   ("xinput9_1_0.dll", "b"); ("xinputuap.dll", "b"); ("easyanticheat", "b"); ("easyanticheat_x64", "b"); ("easyanticheat_x86", "b");
   ("winebth.sys", "d"); ("vrclient_x64", "d"); ("opencl", "n,d"); ("gameinput", "d")]%string.

Definition override (kv : str * str) : str := kv.1 ++ lit "=" ++ kv.2.
Definition native (n : str) : str := n ++ lit "=n".
Definition dll_overrides (dxvk vkd3d nvapi dlss : list str) : list str :=
  map override BASE_OVERRIDES ++ map native dxvk ++ map native vkd3d ++ map native nvapi ++ map native dlss ++
  (if decide (nvapi = []) then [] else [lit "nvcuda=b"]).

Definition dll_parts env (wine_dir : PathBuf) (proton_dir : option PathBuf) (self_exe : PathBuf) f : list PathBuf :=
  let home := var_or env "HOME" [] in
  let wine_dll := wine_dir / "lib/wine" in
  existing [home / ".local/share/Steam/compatibilitytools.d/quark/lib/wine/proton"] f ++
  existing (option_list ((fun d => d / "lib/wine") <$> parent self_exe)) f ++
  existing [wine_dir / "lib/vkd3d"] f ++ [wine_dll] ++
  match proton_dir with
  | Some proton => existing [proton / "lib/vkd3d"] f ++ filter (fun p => p <> wine_dll) (existing [proton / "lib/wine"] f)
  | None => []
  end.

Definition ld_parts env (wine_dir : PathBuf) (proton_dir : option PathBuf) (steam_dir self_exe : PathBuf) f : list str :=
  let wine_lib := wine_dir / "lib" in
  existing (option_list ((fun d => d / "lib/x86_64-linux-gnu") <$> proton_dir)) f ++
  existing [wine_dir / "lib/x86_64-linux-gnu"] f ++ existing [steam_dir / "linux64"] f ++ [wine_lib] ++
  existing (option_list ((fun d => (d / "lib/wine") / "x86_64-unix") <$> parent self_exe)) f ++
  existing [wine_dir / "lib/wine/x86_64-unix"] f ++
  match proton_dir with Some proton => filter (fun p => p <> wine_lib) (existing [proton / "lib"] f) | None => [] end ++
  (let cur := var_or env "LD_LIBRARY_PATH" [] in if decide (cur = []) then [] else [cur]).

Definition NVIDIA : PathBuf := Eval vm_compute in lit "/proc/driver/nvidia/version".
Definition NVIDIA_EGL : PathBuf := Eval vm_compute in lit "/usr/share/glvnd/egl_vendor.d/10_nvidia.json".
Definition egl_var f : list (str * str) := if exists_ NVIDIA_EGL f then [(lit "__EGL_VENDOR_LIBRARY_FILENAMES", NVIDIA_EGL)] else [].

Definition triskelion_exe (self_exe : PathBuf) : outcome PathBuf := match parent self_exe with Some d => Ret (d / "triskelion") | None => Panic end.

Definition profile_vars (username : str) : list (str * str) :=
  let profile := lit "C:\users\" ++ username in
  [(lit "USERPROFILE", profile); (lit "APPDATA", profile ++ lit "\AppData\Roaming"); (lit "LOCALAPPDATA", profile ++ lit "\AppData\Local");
   (lit "TEMP", profile ++ lit "\Temp"); (lit "TMP", profile ++ lit "\Temp"); (lit "HOMEDRIVE", lit "C:"); (lit "HOMEPATH", lit "\users\" ++ username);
   (lit "ALLUSERSPROFILE", lit "C:\ProgramData"); (lit "ProgramData", lit "C:\ProgramData"); (lit "DXVK_ASYNC", lit "1"); (lit "VKD3D_CONFIG", lit "shader_cache")].

(** The locale of the host replaces the one Steam sets, unless it is empty. *)
Definition locale_vars env : list (str * str) :=
  match var env "HOST_LC_ALL" with Some [] => [] | Some lc => [(lit "LC_ALL", lc)] | None => [(lit "LC_ALL", [])] end.

Definition cache_vars (shader_cache : str) f : list (str * str) :=
  [(lit "DXVK_SHADER_CACHE_PATH", shader_cache); (lit "VKD3D_SHADER_CACHE_PATH", shader_cache)] ++
  if exists_ NVIDIA f then
    [(lit "__GL_SHADER_DISK_CACHE", lit "1"); (lit "__GL_SHADER_DISK_CACHE_PATH", shader_cache); (lit "__GL_SHADER_DISK_CACHE_SIZE", lit "10737418240");
     (lit "__GL_SHADER_DISK_CACHE_SKIP_CLEANUP", lit "1")] ++ egl_var f
  else [(lit "MESA_SHADER_CACHE_DIR", shader_cache); (lit "MESA_SHADER_CACHE_MAX_SIZE", lit "10G"); (lit "MESA_DISK_CACHE_SINGLE_FILE", lit "1"); (lit "RADV_PERFTEST", lit "gpl")].

(** The libraries that decode videos come first, when Steam has them. *)
Definition ffmpeg_first (steam_dir : PathBuf) f (l : list (str * str)) : list (str * str) :=
  if exists_ (steam_dir ++ lit "/ubuntu12_64/video/") f then
    match list_find (fun kv => kv.1 = lit "LD_LIBRARY_PATH") l with
    | Some (i, (k, v)) => <[i := (k, steam_dir ++ lit "/ubuntu12_64/video/:" ++ steam_dir ++ lit "/ubuntu12_32/video/" ++ lit ":" ++ v)]> l
    | None => l
    end
  else l.

Section vars.
Context (env : Env) (wine_dir : PathBuf) (proton_dir : option PathBuf) (steam_dir pfx self_exe : PathBuf).
Context (dxvk vkd3d nvapi dlss : list str) (shader_cache_enabled : bool) (version : str).

Definition nt_path (s : str) : str := lit "\??\Z:" ++ backslashes s.

Definition wine_vars (triskelion : PathBuf) f : list (str * str) :=
  [(lit "WINEPREFIX", pfx); (lit "WINESERVER", triskelion); (lit "WINELOADER", wine_binary wine_dir f);
   (lit "WINEDLLPATH", colons (dll_parts env wine_dir proton_dir self_exe f)); (lit "WINEDATADIR", nt_path (wine_dir / "share/wine"));
   (lit "WINEDLLDIR0", nt_path (wine_dir / "lib/wine")); (lit "WINEDLLDIR1", nt_path (wine_dir / "lib/wine")); (lit "WINECONFIGDIR", nt_path pfx);
   (lit "WINEHOMEDIR", nt_path (var_or env "HOME" (lit "/home/user"))); (lit "WINEUSERNAME", var_or env "USER" (lit "user"));
   (lit "PATH", wine_dir / "bin" ++ lit ":" ++ var_or env "PATH" []); (lit "LD_LIBRARY_PATH", colons (ld_parts env wine_dir proton_dir steam_dir self_exe f));
   (lit "WINEDLLOVERRIDES", RegFile.join [SEMICOLON] (dll_overrides dxvk vkd3d nvapi dlss)); (lit "DXVK_LOG_LEVEL", var_or env "DXVK_LOG_LEVEL" (lit "none"));
   (lit "VKD3D_DEBUG", lit "none"); (lit "WINE_LARGE_ADDRESS_AWARE", lit "1"); (lit "QUARK_FAST_BOOT", lit "1"); (lit "PROTON_VERSION", lit "quark " ++ version)].

Definition build_env_vars f : outcome (Fs * list (str * str)) :=
  triskelion <-! triskelion_exe self_exe ;;
  let home := var_or env "HOME" (lit "/home/user") in
  let eac_runtime := home / ".local/share/Steam/steamapps/common/Proton EasyAntiCheat Runtime" in
  let vars := wine_vars triskelion f ++
    (if exists_ eac_runtime f then [(lit "PROTON_EAC_RUNTIME", eac_runtime)] else []) ++
    profile_vars (var_or env "USER" (lit "user")) ++
    (if exists_ (lit "/dev/ntsync") f then [(lit "WINE_NTSYNC", lit "1")] else []) ++
    [(lit "WINEESYNC", lit "0"); (lit "WINEFSYNC", lit "0")] ++
    (if exists_ NVIDIA f then [(lit "DXVK_ENABLE_NVAPI", lit "1")] ++ egl_var f ++ [(lit "__GLX_VENDOR_LIBRARY_NAME", lit "nvidia")] else []) ++
    locale_vars env ++
    (match var env "ORIG_LD_LIBRARY_PATH" with Some _ => [] | None => [(lit "ORIG_LD_LIBRARY_PATH", var_or env "LD_LIBRARY_PATH" [])] end) in
  let vars := ffmpeg_first steam_dir f vars in
  let vars := vars ++ match var env "SteamVirtualGamepadInfo_Proton" with Some info => [(lit "SteamVirtualGamepadInfo", info)] | None => [] end in
  if shader_cache_enabled then
    let shader_cache := pfx / "shader_cache" in
    let f := (create_dir_all shader_cache f).1 in Ret (f, vars ++ cache_vars shader_cache f)
  else Ret (f, vars).
End vars.

(** ** The user's own variables *)
Definition HASH : Z := 35.
Definition EQUALS : Z := 61.
Definition parse_line (raw_line : str) : option (str * str) :=
  let line := RegFile.trim raw_line in
  if decide (line = [] \/ head line = Some HASH) then None
  else match RegFile.split_at_pat [EQUALS] line with
       | None => None
       | Some (k, v) => let key := RegFile.trim k in if decide (key = []) then None else Some (key, RegFile.trim v)
       end.
Definition parse_config (contents : str) : list (str * str) := omap parse_line (RegFile.lines contents).
Definition parse_env_config (self_exe : PathBuf) f : list (str * str) :=
  match parent self_exe with
  | Some dir => match read_to_string (dir / "env_config") f with Some s => map (fun kv => (encode_utf8 kv.1, encode_utf8 kv.2)) (parse_config s) | None => [] end
  | None => []
  end.

Definition resolve_winedebug env (verbose trace : bool) : str :=
  match var env "WINEDEBUG" with
  | Some v => v
  | None => if trace then lit "+server,+timestamp" else if verbose then lit "+process,err" else lit "-all"
  end.

End Environ.
