(* ===== verification/Deploy.v ===== *)
(** * Setting up a prefix ([src/rust/src/quark/launcher.rs], lines 42-131 and 766-1440)

    The deployment cache, the copy of the prefix template, the DLLs, and the
    files of the Steam client.  What [stat] says about a directory, the hash of
    the standard library and the effect of running [wineboot] are arguments. *)

From stdpp Require Import base list gmap strings.
From S2P Require Import Prelude Text Registry RegFile RegInit Build Pe Fs Saves Environ.
Local Open Scope Z_scope.
Local Open Scope outcome_scope.

Module Deploy.
Import Text Fs Saves Environ.
Local Notation lit := Registry.lit.
Local Notation "p / s" := (join p (lit s)).
Implicit Types (f : Fs) (p src dst pfx : PathBuf) (env : Env).

Definition lits (l : list string) : list str := map lit l.
Definition DXVK_DLLS : list str := Eval vm_compute in lits ["d3d11"; "d3d10core"; "d3d9"; "dxgi"]%string.
Definition VKD3D_DLLS : list str := Eval vm_compute in lits ["d3d12"; "d3d12core"]%string.
Definition NVAPI_DLLS : list str := Eval vm_compute in lits ["nvapi64"; "nvofapi64"]%string.
Definition DLSS_DLLS : list str := Eval vm_compute in lits ["nvngx"; "_nvngx"; "nvngx_dlssg"]%string.
Definition STEAM_CLIENT_FILES : list (str * str) := Eval vm_compute in
  map (fun kv => (lit kv.1, lit kv.2))
  [("steamclient64.dll", "steamclient64.dll"); ("steamclient.dll", "steamclient.dll"); ("GameOverlayRenderer64.dll", "GameOverlayRenderer64.dll");
   ("SteamService.exe", "steam.exe"); ("Steam.dll", "Steam.dll")]%string.
Definition CACHE_FILE : str := Eval vm_compute in lit ".triskelion_deployed".
Definition SYSTEM32 : PathBuf := Eval vm_compute in lit "drive_c/windows/system32".
Definition SYSWOW64 : PathBuf := Eval vm_compute in lit "drive_c/windows/syswow64".

(** ** The plan *)
Record DeployPlan : Type := mkPlan { needs_dxvk : bool; needs_vkd3d : bool; needs_nvapi : bool; needs_dlss : bool; scan_hash : Z }.
Definition from_scan (hash : Pe.RenderApi -> list str -> Z) (scan : option Pe.PeScanResult) f : DeployPlan :=
  match scan with
  | None => mkPlan true true false false 0
  | Some scan =>
      let is_nvidia := exists_ NVIDIA f in
      mkPlan true true (is_nvidia && Pe.needs_nvapi scan) (is_nvidia && existsb (RegFile.contains (lit "nvngx")) (Pe.imports scan))
        (hash (Pe.render_api scan) (Pe.imports scan))
  end.

(** ** The cache *)
Record DeployCache : Type := mkCache { wine_hash : Z; dxvk_hash : Z; vkd3d_hash : Z; steam_hash : Z; cache_scan_hash : Z }.
Definition decimal (v : Z) : str := RegInit.dec_digits 20 v.
Definition parse_u64 (s : str) : option Z := Build.parse_uint 64 s.
Definition print_cache (c : DeployCache) : str :=
  lit "v4:" ++ RegFile.join [RegFile.COMMA] (map decimal [wine_hash c; dxvk_hash c; vkd3d_hash c; steam_hash c; cache_scan_hash c]).
Definition parse_cache (s : str) : option DeployCache :=
  match RegFile.strip_prefix (lit "v4:") s with
  | Some rest =>
      match RegFile.split_char RegFile.COMMA (RegFile.trim rest) [] with
      | [a; b; c; d; e] => a ← parse_u64 a; b ← parse_u64 b; c ← parse_u64 c; d ← parse_u64 d; e ← parse_u64 e; Some (mkCache a b c d e)
      | _ => None
      end
  | None => None
  end.
Definition load pfx f : option DeployCache := read_to_string (join pfx CACHE_FILE) f ≫= parse_cache.
Definition save (c : DeployCache) pfx f : Fs := (write (join pfx CACHE_FILE) (encode_utf8 (print_cache c)) f).1.

(** [metadata] has the device, the inode and the time of a path. *)
Definition dir_hash (metadata : PathBuf -> option (Z * Z * Z)) p : Z :=
  match metadata p with
  | None => 0
  | Some (dev, ino, mtime) => Z.lxor (Z.lxor (u64 (dev * 6364136223846793005)) (u64 (ino * 1442695040888963407))) (u64 mtime)
  end.

(** ** The entries of a directory, as the kernel writes them *)
Definition DT_UNKNOWN : Z := 0.
Definition DT_DIR : Z := 4.
Definition DT_REG : Z := 8.
Definition DT_LNK : Z := 10.
Definition reclen (n : str) : nat := ((20 + length n + 7) `div` 8 * 8)%nat.
Definition encode_dirent (ne : str * Z) : list Z :=
  replicate 16 0 ++ le_bytes 2 (Z.of_nat (reclen ne.1)) ++ [ne.2] ++ ne.1 ++ replicate (reclen ne.1 - 19 - length ne.1) 0.
Definition until_nul (bs : list Z) : list Z := match list_find (fun b => b = 0) bs with Some (i, _) => take i bs | None => bs end.
(** The loop over a buffer; [fuel] is the number of bytes. *)
Fixpoint parse_dirents (fuel : nat) (buf : list Z) : outcome (list (str * Z)) :=
  match buf with
  | [] => Ret []
  | _ =>
      match fuel with
      | O => OutOfFuel
      | S fuel =>
          let d_reclen := Z.to_nat (from_le (slice 16 2 buf)) in
          let d_type := buf !!! 18%nat in
          rest <-! parse_dirents fuel (drop d_reclen buf) ;;
          Ret ((until_nul (slice 19 (d_reclen - 19) buf), d_type) :: rest)
      end
  end.
Definition type_of (typed : bool) (e : entry) : Z := if typed then match e with EDir => DT_DIR | EFile _ => DT_REG | ELink _ _ => DT_LNK end else DT_UNKNOWN.
(** [typed]: whether the file system reports types. *)
Definition getdents (typed : bool) p f : list Z :=
  match stat p f with
  | Some (k, EDir) =>
      concat (map encode_dirent ([(lit ".", type_of typed EDir); (lit "..", type_of typed EDir)] ++
        omap (fun n => (fun e => (n, type_of typed e)) <$> names f !! (n :: k)) (children k f)))
  | _ => []
  end.

(** ** The template *)
Section template.
Context (typed can_link : bool).

Definition resolved_type (src_path : PathBuf) (d_type : Z) f : option Z :=
  if decide (d_type = DT_UNKNOWN) then
    match symlink_metadata src_path f with Some EDir => Some DT_DIR | Some (ELink _ _) => Some DT_LNK | Some (EFile _) => Some DT_REG | None => None end
  else Some d_type.

(** A link of the template becomes an absolute one to the real file. *)
Definition copy_link (src_path dst_path : PathBuf) f : Fs * Z :=
  let needs_fix := match symlink_metadata dst_path f with Some (ELink _ _) => negb (exists_ dst_path f) | _ => true end in
  if needs_fix then
    let f := (remove_file dst_path f).1 in
    let f :=
      match canonicalize src_path f with
      | Some k => (symlink true (map Name (reverse k)) dst_path f).1
      | None => match symlink_metadata src_path f with Some (ELink absolute target) => (symlink absolute target dst_path f).1 | _ => f end
      end in
    (f, 1)
  else (f, 0).

Definition copy_regular (src_path dst_path : PathBuf) f : Fs * Z :=
  if exists_ dst_path f then (f, 0)
  else
    match (if can_link then hard_link src_path dst_path f else (f, false)) with
    | (f, true) => (f, 1)
    | (f, false) => match copy src_path dst_path f with (f, true) => (f, 1) | (f, false) => (f, 0) end
    end.

Fixpoint copy_dir_fast (fuel : nat) src dst f : outcome (Fs * Z) :=
  match fuel with
  | O => OutOfFuel
  | S fuel =>
      if decide (0 ∈ src) then Ret (f, 0)
      else if negb (is_dir src f) then Ret (f, 0)
      else
        match create_dir_all dst f with
        | (f, false) => Ret (f, 0)
        | (f, true) =>
            let buf := getdents typed src f in
            es <-! parse_dirents (length buf) buf ;;
            ofold (fun st (e : str * Z) =>
              let '(f, count) := st in
              let '(name, d_type) := e in
              if decide (name = [DOT] \/ name = [DOT; DOT]) then Ret st
              else
                match resolved_type (join src name) d_type f with
                | None => Ret st
                | Some t =>
                    if decide (t = DT_DIR) then c <-! copy_dir_fast fuel (join src name) (join dst name) f ;; Ret (c.1, u32 (count + c.2))
                    else let c := (if decide (t = DT_LNK) then copy_link else copy_regular) (join src name) (join dst name) f in Ret (c.1, u32 (count + c.2))
                end) es (f, 0)
        end
  end.
End template.

(** ** DLLs *)
Definition file_matches src dst f : bool :=
  match len src f, len dst f, mtime src f, mtime dst f with
  | Some a, Some b, Some t, Some t' => bool_decide (a = b) && bool_decide (t <= t')
  | _, _, _, _ => false
  end.
Definition dll (n : str) : str := n ++ lit ".dll".

Definition deploy_dll (src_dir dst_dir : PathBuf) (st : Fs * list str) (n : str) : Fs * list str :=
  let '(f, deployed) := st in
  let src := join src_dir (dll n) in
  let dst := join dst_dir (dll n) in
  if negb (exists_ src f) then st
  else if file_matches src dst f then (f, deployed ++ [n])
  else
    let f := (remove_file dst f).1 in
    match copy src dst f with (f, true) => (f, deployed ++ [n]) | (f, false) => (f, deployed) end.
Definition deploy_dlls (src_dir dst_dir : PathBuf) (dlls : list str) f : Fs * list str :=
  if negb (exists_ src_dir f) then (f, [])
  else match create_dir_all dst_dir f with (f, false) => (f, []) | (f, true) => fold_left (deploy_dll src_dir dst_dir) dlls (f, []) end.

(** Both widths; what was deployed is what the 64-bit side has. *)
Definition deploy_pair (sub : string) (dlls : list str) (dir pfx : PathBuf) f : Fs * list str :=
  let '(f, deployed) := deploy_dlls ((dir / "lib/wine") / sub / "x86_64-windows") (join pfx SYSTEM32) dlls f in
  ((deploy_dlls ((dir / "lib/wine") / sub / "i386-windows") (join pfx SYSWOW64) dlls f).1, deployed).
Definition deploy_dxvk : PathBuf -> PathBuf -> Fs -> Fs * list str := deploy_pair "dxvk" DXVK_DLLS.
Definition deploy_vkd3d : PathBuf -> PathBuf -> Fs -> Fs * list str := deploy_pair "vkd3d-proton" VKD3D_DLLS.
Definition deploy_nvapi (proton_dir pfx : PathBuf) f : Fs * list str := deploy_dlls (proton_dir / "lib/wine/nvapi/x86_64-windows") (join pfx SYSTEM32) NVAPI_DLLS f.
Definition deploy_dlss pfx f : Fs * list str := deploy_dlls (lit "/usr/lib/nvidia/wine") (join pfx SYSTEM32) DLSS_DLLS f.

(** ** The Steam client *)
Definition deploy_client_file (legacy steam_pfx : PathBuf) f (names : str * str) : Fs :=
  let src := join legacy names.1 in
  let dst := join steam_pfx names.2 in
  if negb (exists_ src f) then f
  else if file_matches src dst f then f
  else (copy src dst (remove_file dst f).1).1.
Definition deploy_steam_client (steam_dir pfx : PathBuf) f : Fs :=
  let legacy := steam_dir / "legacycompat" in
  if negb (exists_ legacy f) then f
  else
    let steam_pfx := pfx / "drive_c/Program Files (x86)/Steam" in
    match create_dir_all steam_pfx f with (f, false) => f | (f, true) => fold_left (deploy_client_file legacy steam_pfx) STEAM_CLIENT_FILES f end.

Definition steam_install env : str := match var env "STEAM_COMPAT_CLIENT_INSTALL_PATH" with Some p => p | None => var_or env "HOME" [] ++ lit "/.local/share/Steam" end.
Definition repair_steamclient64 env pfx f : Fs :=
  let real := steam_install env / "steamclient64.dll" in
  if negb (exists_ real f) then f
  else
    let real_size := default 0 (len real f) in
    if decide (real_size = 0) then f
    else fold_left (fun f loc =>
      let dst := join pfx loc / "steamclient64.dll" in
      match len dst f with Some l => if decide (l <> real_size) then (copy real dst f).1 else f | None => f end)
      [lit "drive_c/Program Files (x86)/Steam"; SYSTEM32] f.

Definition deploy_steam_exe (self_exe pfx : PathBuf) f : Fs :=
  match (fun d => d / "lib/wine/x86_64-windows/steam.exe") <$> parent self_exe with
  | Some src =>
      if exists_ src f then
        fold_left (fun f dst_dir =>
          let dst := dst_dir / "steam.exe" in
          let f := match symlink_metadata dst f with Some _ => if exists_ dst f then f else (remove_file dst f).1 | None => f end in
          (copy src dst (create_dir_all dst_dir f).1).1) [join pfx SYSTEM32; join pfx SYSWOW64] f
      else f
  | None => f
  end.

Definition deploy_lsteamclient_to_prefix (self_exe pfx : PathBuf) f : Fs :=
  match (fun d => d / "lib/wine/x86_64-windows/lsteamclient.dll") <$> parent self_exe with
  | Some src => if exists_ src f then (copy src (join pfx SYSTEM32 / "lsteamclient.dll") (create_dir_all (join pfx SYSTEM32) f).1).1 else f
  | None => f
  end.

(** ** The registry files *)
Definition is_stub p f : bool := match len p f with Some l => bool_decide (l < 1024) | None => true end.
Definition copy_stock (stock pfx : PathBuf) (file : string) f : Fs :=
  if exists_ (stock / file) f && is_stub (pfx / file) f then (copy (stock / file) (pfx / file) f).1 else f.

Definition QUOTED (s : string) : str := [34] ++ lit s ++ [34].
Definition value_line (k v : string) : str := QUOTED k ++ lit "=" ++ QUOTED v ++ [10].
Definition key_lines (k : string) : str := lit "[" ++ lit k ++ lit "] 1772204972" ++ [10] ++ lit "#time=1dca7fb13d11a48" ++ [10].
Definition STEAM_PATH : string := "C:\\Program Files (x86)\\Steam".
Definition machine_keys : str := Eval vm_compute in
  [10] ++ key_lines "Software\\Valve\\Steam" ++ value_line "InstallPath" STEAM_PATH ++ value_line "SteamPath" STEAM_PATH ++ [10].
Definition user_keys : str := Eval vm_compute in
  [10] ++ key_lines "Software\\Valve\\Steam" ++ value_line "language" "english" ++ value_line "SteamExe" "C:\\Program Files (x86)\\Steam\\Steam.exe" ++
  value_line "SteamPath" STEAM_PATH ++ [10] ++ key_lines "Software\\Valve\\Steam\\ActiveProcess" ++ QUOTED "PID" ++ lit "=dword:0000fffe" ++ [10] ++
  value_line "SteamClientDll" "C:\\Program Files (x86)\\Steam\\steamclient.dll" ++ value_line "SteamClientDll64" "C:\\Program Files (x86)\\Steam\\steamclient64.dll" ++
  value_line "SteamPath" STEAM_PATH ++ [10].
(** Unless the mark is there, the keys are added at the end. *)
Definition inject (p : PathBuf) (mark : string) (keys : str) f : Fs :=
  if RegFile.contains (lit mark) (default [] (read_to_string p f)) then f else (append p keys f).1.

Definition inject_registry_keys env pfx f : Fs :=
  let stock := var_or env "HOME" (lit "/root") / ".wine" in
  let f := copy_stock stock pfx "system.reg" f in
  let f := copy_stock stock pfx "user.reg" f in
  let f := copy_stock stock pfx "userdef.reg" f in
  let f := inject (pfx / "system.reg") "[Software\\Valve\\Steam]" machine_keys f in
  inject (pfx / "user.reg") "Valve\\Steam\\ActiveProcess" user_keys f.

(** ** The prefix *)
Definition make_all (base : PathBuf) (subs : list string) f : Fs := fold_left (fun f s => (create_dir_all (base / s) f).1) subs f.
Definition PROFILE_DIRS : list string :=
  [""; "AppData"; "AppData/Roaming"; "AppData/Local"; "AppData/Local/Microsoft"; "AppData/Local/Microsoft/Windows";
   "AppData/Local/Microsoft/Windows/INetCache"; "AppData/Local/Microsoft/Windows/History"; "AppData/Local/Microsoft/Windows/INetCookies";
   "AppData/LocalLow"; "Desktop"; "Documents"; "Downloads"; "Music"; "Pictures"; "Videos"; "Temp"].
Definition make_profile env pfx f : Fs :=
  make_all (pfx / "drive_c/users/Public") ["Desktop"; "Documents"]%string
    (make_all (join (pfx / "drive_c/users") (var_or env "USER" (lit "user"))) PROFILE_DIRS f).
Definition make_drives pfx f : Fs :=
  let dosdevices := pfx / "dosdevices" in
  let f := (create_dir_all dosdevices f).1 in
  let f := if exists_ (dosdevices / "c:") f then f else (symlink false [Up; Name (lit "drive_c")] (dosdevices / "c:") f).1 in
  if exists_ (dosdevices / "z:") f then f else (symlink true [] (dosdevices / "z:") f).1.

Definition ld_path env (dirs : list PathBuf) f : list str := existing dirs f ++ option_list (var env "LD_LIBRARY_PATH").

Definition wineboot env (wine_dir pfx wine64 self_exe triskelion : PathBuf) (verbose : bool) f : Command :=
  let wine_dll := wine_dir / "lib/wine" in
  let proton_override := wine_dir / "lib/wine/proton" in
  let installed := var_or env "HOME" [] / ".local/share/Steam/compatibilitytools.d/quark/lib/noassert.so" in
  let noassert := if exists_ installed f then installed else default (lit ".") (parent self_exe) / "lib/noassert.so" in
  let ld := ld_path env [wine_dir / "lib/wine/x86_64-unix"; wine_dir / "lib"] f in
  let cmd := with_args [lit "wineboot"; lit "--init"] (build_wine_command wine64 wine_dir f) in
  let cmd := with_envs [(lit "WINEPREFIX", pfx); (lit "WINESERVER", triskelion); (lit "QUARK_FAST_BOOT", lit "1")] cmd in
  let cmd := if decide (colons ld = []) then cmd else with_env (lit "LD_LIBRARY_PATH") (colons ld) cmd in
  let cmd := with_envs [(lit "WINELOADER", wine64); (lit "WINEDLLPATH", colons (existing [proton_override] f ++ [wine_dll]));
    (lit "WINEDLLDIR0", lit "\??\Z:" ++ wine_dll); (lit "WINEDEBUG", resolve_winedebug env verbose false); (lit "WINEESYNC", lit "0")] cmd in
  set_preload env (existing [noassert] f) cmd.

(** [inf_time]: when [wine.inf] was modified, in seconds, if that can be told. *)
Definition setup_prefix (typed can_link : bool) (fuel : nat) (run_wine : Command -> Fs -> Fs) (inf_time : option Z) (verbose : bool)
    env (wine_dir pfx wine64 self_exe : PathBuf) f : outcome Fs :=
  let default_pfx := wine_dir / "share" / "default_pfx" in
  f <-! (if exists_ default_pfx f then
      c <-! copy_dir_fast typed can_link fuel default_pfx pfx f ;;
      let f := make_drives pfx c.1 in
      Ret (match inf_time with Some secs => if exists_ (wine_dir / "share/wine/wine.inf") f then (write (pfx / ".update-timestamp") (decimal secs) f).1 else f | None => f end)
    else
      let f := make_drives pfx (make_profile env pfx f) in
      let f := make_all pfx ["drive_c/windows/system32"; "drive_c/windows/syswow64"; "drive_c/Program Files"; "drive_c/Program Files (x86)"]%string f in
      let f :=
        match parent self_exe with
        | Some d =>
            let tpl := d / "default_pfx" in
            if exists_ (tpl / "system.reg") f then
              fold_left (fun f reg => if exists_ (tpl / reg) f && negb (exists_ (pfx / reg) f) then (copy (tpl / reg) (pfx / reg) f).1 else f)
                ["system.reg"; "user.reg"; "userdef.reg"]%string f
            else f
        | None => f
        end in
      if exists_ (pfx / "drive_c/windows/Fonts") f then Ret f
      else triskelion <-! triskelion_exe self_exe ;; Ret (run_wine (wineboot env wine_dir pfx wine64 self_exe triskelion verbose f) f)) ;;
  Ret (write (pfx / ".update-timestamp") (lit "disable" ++ [10]) f).1.

(** ** Directory entries are read as written *)
Definition dirent_ok (ne : str * Z) : Prop := 0 ∉ ne.1 /\ (length ne.1 < 256)%nat.

Lemma reclen_bounds n : (20 + length n <= reclen n /\ reclen n < 20 + length n + 8)%nat.
Proof. unfold reclen. pose proof (Nat.div_mod_eq (20 + length n + 7) 8). pose proof (Nat.mod_upper_bound (20 + length n + 7) 8). lia. Qed.

Lemma length_encode_dirent ne : length (encode_dirent ne) = reclen ne.1.
Proof.
  pose proof (reclen_bounds ne.1). unfold encode_dirent. rewrite !length_app, !length_replicate, length_le_bytes. cbn [length]. lia.
Qed.

Lemma until_nul_app n m : 0 ∉ n -> (0 < m)%nat -> until_nul (n ++ replicate m 0) = n.
Proof.
  intros Hn Hm. unfold until_nul. destruct m as [|m]; [lia|]. cbn [replicate].
  assert (list_find (fun b => b = 0) (n ++ 0 :: replicate m 0) = Some (length n, 0)) as ->.
  { apply list_find_app_Some. right. split_and!; [lia| |].
    - apply list_find_None, Forall_forall. intros x Hx ->. done.
    - rewrite Nat.sub_diag. cbn. done. }
  by rewrite take_app_length.
Qed.

Lemma parse_dirent ne rest : dirent_ok ne ->
  let buf := encode_dirent ne ++ rest in
  Z.to_nat (from_le (slice 16 2 buf)) = reclen ne.1 /\ buf !!! 18%nat = ne.2 /\ until_nul (slice 19 (reclen ne.1 - 19) buf) = ne.1 /\ drop (reclen ne.1) buf = rest.
Proof.
  destruct ne as [n t]. intros [Hn Hl]. pose proof (reclen_bounds n) as Hb. cbn [fst snd] in *. cbn zeta. split_and!.
  - unfold encode_dirent. cbn [fst snd]. unfold slice. rewrite <- !app_assoc. rewrite drop_app_ge by (rewrite length_replicate; lia). rewrite length_replicate.
    cbn [Nat.sub]. rewrite drop_0, take_app_le by (rewrite length_le_bytes; lia). rewrite take_ge by (rewrite length_le_bytes; lia). rewrite from_le_bytes.
    change (256 ^ Z.of_nat 2) with 65536. rewrite Z.mod_small by lia. lia.
  - apply list_lookup_total_correct. unfold encode_dirent. cbn [fst snd]. rewrite <- !app_assoc. rewrite lookup_app_r by (rewrite length_replicate; lia). rewrite length_replicate.
    rewrite lookup_app_r by (rewrite length_le_bytes; lia). rewrite length_le_bytes. done.
  - unfold encode_dirent. cbn [fst snd]. unfold slice. rewrite <- !app_assoc. rewrite drop_app_ge by (rewrite length_replicate; lia). rewrite length_replicate.
    rewrite drop_app_ge by (rewrite length_le_bytes; lia). rewrite length_le_bytes. cbn [Nat.sub]. rewrite drop_app_ge by (cbn; lia). cbn [length Nat.sub]. rewrite drop_0.
    rewrite app_assoc, take_app_le by (rewrite length_app, length_replicate; lia). rewrite take_ge by (rewrite length_app, length_replicate; lia). apply until_nul_app; [done|lia].
  - rewrite drop_app_ge by (rewrite length_encode_dirent; cbn [fst]; lia). rewrite length_encode_dirent. cbn [fst]. by rewrite Nat.sub_diag.
Qed.

Lemma dirents_roundtrip es fuel : Forall dirent_ok es -> (length (concat (map encode_dirent es)) <= fuel)%nat ->
  parse_dirents fuel (concat (map encode_dirent es)) = Ret es.
Proof.
  revert fuel; induction es as [|ne es IH]; intros fuel Hes Hf; [by destruct fuel|]. apply Forall_cons in Hes as [Hne Hes]. cbn [map concat] in *.
  rewrite length_app, length_encode_dirent in Hf. pose proof (reclen_bounds ne.1) as Hb. destruct fuel as [|fuel]; [lia|].
  destruct (parse_dirent ne (concat (map encode_dirent es)) Hne) as (H1 & H2 & H3 & H4).
  cbn [parse_dirents]. destruct (encode_dirent ne ++ concat (map encode_dirent es)) as [|b l] eqn:Hbuf.
  { apply (f_equal length) in Hbuf. rewrite length_app, length_encode_dirent in Hbuf. cbn [length] in Hbuf. lia. }
  rewrite H1, H2, H3, H4, (IH fuel) by (done || lia). cbn [obind]. by destruct ne.
Qed.

(** ** The cache is read as written *)
Definition in_u64_range (v : Z) : Prop := 0 <= v < 2 ^ 64.
Definition is_digit (c : Z) : Prop := 0x30 <= c <= 0x39.

Lemma dec_digits_digits fuel v : 0 <= v -> Forall is_digit (RegInit.dec_digits fuel v).
Proof.
  revert v; induction fuel as [|fuel IH]; intros v Hv; [constructor|]. cbn [RegInit.dec_digits]. apply Forall_app. split.
  - case_decide; [constructor|]. apply IH. by apply Z.div_pos.
  - repeat constructor; unfold is_digit; pose proof (Z.mod_pos_bound v 10); lia.
Qed.

Lemma dec_acc_app w s t acc v : Build.dec_acc w s acc = Some v -> Build.dec_acc w (s ++ t) acc = Build.dec_acc w t v.
Proof.
  revert acc; induction s as [|c s IH]; intros acc; cbn; [by intros [= ->]|]. repeat case_decide; [|done..]. apply IH.
Qed.

Lemma dec_acc_digits w fuel v : 0 <= v < 2 ^ w -> v < 10 ^ Z.of_nat fuel -> (0 < fuel)%nat -> Build.dec_acc w (RegInit.dec_digits fuel v) 0 = Some v.
Proof.
  revert v; induction fuel as [|fuel IH]; intros v Hv Hf Hp; [lia|]. cbn [RegInit.dec_digits]. pose proof (Z.mod_pos_bound v 10 ltac:(lia)) as Hm.
  pose proof (Z.div_mod v 10 ltac:(lia)) as Hdm.
  assert (forall a, 0 <= a -> a * 10 + v mod 10 = v -> Build.dec_acc w [0x30 + v mod 10] a = Some v) as Hlast.
  { intros a Ha He. cbn [Build.dec_acc]. rewrite decide_True by lia. replace (a * 10 + (48 + v mod 10 - 48)) with v by lia. by rewrite decide_True by lia. }
  case_decide as Hs.
  - apply Hlast; [lia|]. rewrite Z.mod_small by lia. lia.
  - assert (0 < fuel)%nat. { destruct fuel; [|lia]. change (10 ^ Z.of_nat 1) with 10 in Hf. lia. }
    assert (v / 10 < 10 ^ Z.of_nat fuel). { apply Z.div_lt_upper_bound; [lia|]. rewrite Nat2Z.inj_succ, Z.pow_succ_r in Hf by lia. lia. }
    assert (0 <= v / 10 < 2 ^ w) by (split; [apply Z.div_pos; lia|apply Z.div_lt_upper_bound; lia]).
    rewrite (dec_acc_app w _ _ 0 (v / 10)) by (apply IH; lia). apply Hlast; lia.
Qed.

Lemma parse_uint_plain w c s : c <> 43 -> Build.parse_uint w (c :: s) = Build.dec_acc w (c :: s) 0.
Proof. intros Hc. unfold Build.parse_uint. destruct c as [|p|p]; try reflexivity. repeat (destruct p as [p|p|]; try reflexivity). done. Qed.

Lemma decimal_digits v : 0 <= v -> Forall is_digit (decimal v) /\ decimal v <> [].
Proof.
  intros Hv. split; [by apply dec_digits_digits|]. unfold decimal; cbn [RegInit.dec_digits]; by destruct (if decide (v < 10) then _ else _).
Qed.

Lemma decimal_parse w v : w <= 64 -> 0 <= v < 2 ^ w -> Build.parse_uint w (decimal v) = Some v.
Proof.
  intros Hw Hv. destruct (decimal_digits v ltac:(lia)) as [Hd Hne]. destruct (decimal v) as [|c s] eqn:He; [done|]. rewrite parse_uint_plain.
  - rewrite <- He. apply dec_acc_digits; [done| |lia]. pose proof (Z.pow_le_mono_r 2 w 64 ltac:(lia) Hw). assert (2 ^ 64 < 10 ^ Z.of_nat 20) by (vm_compute; reflexivity). lia.
  - apply Forall_cons in Hd as [Hc _]. unfold is_digit in Hc. lia.
Qed.

Lemma decimal_ok v : in_u64_range v -> parse_u64 (decimal v) = Some v /\ Forall is_digit (decimal v) /\ decimal v <> [].
Proof. unfold in_u64_range. intros Hv. split; [apply decimal_parse; lia|]. apply decimal_digits. lia. Qed.

Lemma digit_facts c : is_digit c -> c <> RegFile.COMMA /\ RegFile.is_whitespace c = false.
Proof. unfold is_digit, RegFile.COMMA. intros Hc. split; [lia|]. unfold RegFile.is_whitespace. apply bool_decide_eq_false. lia. Qed.

(** What is saved is what is loaded. *)
Lemma cache_roundtrip c : Forall in_u64_range [wine_hash c; dxvk_hash c; vkd3d_hash c; steam_hash c; cache_scan_hash c] -> parse_cache (print_cache c) = Some c.
Proof.
  intros Hc. unfold parse_cache, print_cache. rewrite RegFile.strip_prefix_app. set (l := map decimal _).
  assert (Forall (fun s => Forall is_digit s /\ s <> []) l) as Hl. { apply Forall_map. eapply Forall_impl; [exact Hc|]. intros v Hv. by apply decimal_ok. }
  assert (RegFile.trim (RegFile.join [RegFile.COMMA] l) = RegFile.join [RegFile.COMMA] l) as ->.
  { unfold l in *. cbn [map RegFile.join] in *. rewrite !Forall_cons in Hl. destruct Hl as ([D1 N1] & _ & _ & _ & [D5 N5] & _). apply RegFile.trim_id; intros x Hx.
    - apply digit_facts. destruct (decimal (wine_hash c)) as [|y s]; [done|]. cbn in Hx. injection Hx as <-. by apply Forall_cons in D1 as [? _].
    - apply digit_facts. destruct (decimal (cache_scan_hash c)) as [|y s _] using rev_ind; [done|]. rewrite !app_assoc, last_snoc in Hx. injection Hx as <-.
      apply Forall_app in D5 as [_ D5]. by apply Forall_cons in D5 as [? _]. }
  rewrite RegFile.split_char_join; [|done|].
  - unfold l. cbn [map]. rewrite !Forall_cons in Hc. destruct Hc as (H1 & H2 & H3 & H4 & H5 & _).
    rewrite (proj1 (decimal_ok _ H1)), (proj1 (decimal_ok _ H2)), (proj1 (decimal_ok _ H3)), (proj1 (decimal_ok _ H4)), (proj1 (decimal_ok _ H5)). by destruct c.
  - eapply Forall_impl; [exact Hl|]. intros s [Hs _] Hin. rewrite Forall_forall in Hs. destruct (digit_facts _ (Hs _ Hin)). done.
Qed.

(** ** DLLs *)
Section dlls.
Context (s d : place) (src_dir dst_dir : PathBuf) (Hsrc : loc src_dir s) (Hdst : loc dst_dir d) (Hap : apart s d).
Implicit Types (g : Fs) (ns : list str) (n : str).

Definition target n : place := dll n :: d.
Definition source n : place := dll n :: s.

(** The sources are files, and no link or directory is where they go. *)
Record deployable ns f : Prop := {
  dp_wf : wf f;
  dp_source : look f s = Some VDir;
  dp_dest : look f d = Some VDir;
  dp_names : forall n, n ∈ ns -> name_ok (dll n);
  dp_from : forall n, n ∈ ns -> look f (source n) = None \/ exists bs, look f (source n) = Some (VFile bs);
  dp_to : forall n, n ∈ ns -> look f (target n) = None \/ exists bs, look f (target n) = Some (VFile bs);
}.

(** The files are as the sources, or as they were with the size of the source;
    nothing else is touched. *)
Record deployed ns f f' : Prop := {
  de_wf : wf f';
  de_frame : forall x, (forall n, n ∈ ns -> look f (source n) <> None -> x <> target n) -> look f' x = look f x;
  de_files : forall n bs, n ∈ ns -> look f (source n) = Some (VFile bs) ->
    look f' (target n) = Some (VFile bs) \/ exists bs', look f (target n) = Some (VFile bs') /\ look f' (target n) = Some (VFile bs') /\ length bs' = length bs;
}.

Lemma source_not_target n m : source n <> target m.
Proof. intros He. injection He as _ He. subst. by destruct Hap as [[] _]. Qed.

Lemma target_inj n m : target n = target m -> n = m.
Proof. intros He. injection He as He. unfold dll in He. by apply app_inv_tail in He. Qed.

Lemma not_above_target n : d <> target n /\ s <> target n.
Proof.
  split; intros He.
  - apply (f_equal length) in He. cbn in He. lia.
  - subst s. destruct Hap as [_ H]. apply H. by apply suffix_cons_r.
Qed.

Lemma file_plain f k n : wf f -> look f k = Some VDir -> look f (n :: k) <> Some VLink -> plain f (n :: k).
Proof. intros Hwf Hd Hn x [->|Hx]%suffix_cons_cases; [done|]. by apply (plain_dir f k Hwf Hd). Qed.

Lemma deploy_dll_spec n g acc : deployable [n] g ->
  exists g', deploy_dll src_dir dst_dir (g, acc) n = (g', acc ++ if decide (look g (source n) = None) then [] else [n]) /\ deployed [n] g g'.
Proof.
  intros [Hwf Hs Hd Hn Hf Ht]. specialize (Hn n ltac:(by left)). specialize (Hf n ltac:(by left)). specialize (Ht n ltac:(by left)).
  assert (plain g (source n)) as Hps by (apply file_plain; [done..|]; destruct Hf as [?|[bs ?]]; unfold source in *; congruence).
  assert (plain g (target n)) as Hpt by (apply file_plain; [done..|]; destruct Ht as [?|[bs ?]]; unfold target in *; congruence).
  assert (loc (join src_dir (dll n)) (source n)) as Hls by (by apply loc_name). assert (loc (join dst_dir (dll n)) (target n)) as Hlt by (by apply loc_name).
  unfold deploy_dll. rewrite (exists_plain g Hwf _ _ Hls Hps). destruct Hf as [Hf|[bs Hf]]; rewrite Hf.
  { rewrite bool_decide_false by tauto. rewrite decide_True by done. cbn [negb]. exists g. rewrite app_nil_r. split; [done|]. split; [done|done|].
    intros m bs [->|?%elem_of_nil]%elem_of_cons; [congruence|done]. }
  rewrite bool_decide_true by done. rewrite decide_False by done. cbn [negb].
  destruct (file_matches (join src_dir (dll n)) (join dst_dir (dll n)) g) eqn:Hm.
  - exists g. split; [done|]. split; [done|done|]. intros m bs' [->|?%elem_of_nil]%elem_of_cons Hbs'; [|done]. assert (bs' = bs) as -> by congruence. right.
    assert (look g (target n) <> Some VDir) as Hnd by (destruct Ht as [?|[? ?]]; congruence).
    unfold file_matches in Hm. rewrite (len_plain _ _ g Hwf Hls Hps), Hf, (len_plain _ _ g Hwf Hlt Hpt Hnd) in Hm by (rewrite Hf; discriminate).
    destruct Ht as [Ht|[b Ht]]; rewrite Ht in Hm; [done|]. exists b. split; [done|]. split; [done|]. destruct (mtime (join src_dir (dll n)) g), (mtime (join dst_dir (dll n)) g); try discriminate Hm.
    apply andb_true_iff in Hm as [Hm _]. apply bool_decide_eq_true in Hm. lia.
  - destruct (remove_file_plain _ _ g Hwf Hlt Hpt) as [Hw1 Hl1]; [destruct Ht as [->|[? ->]]; congruence|]. set (g1 := (remove_file _ g).1) in *.
    assert (forall x, x <> target n -> look g1 x = look g x) as Hsame by (intros x Hx; by rewrite Hl1, decide_False).
    assert (look g1 (source n) = Some (VFile bs)) as Hs1 by (rewrite Hsame by apply source_not_target; done).
    assert (look g1 (target n) = None) as Ht1 by (by rewrite Hl1, decide_True).
    assert (look g1 d = Some VDir) as Hd1 by (rewrite Hsame by apply not_above_target; done).
    assert (look g1 s = Some VDir) as Hss1 by (rewrite Hsame by apply not_above_target; done).
    destruct (copy_free (join src_dir (dll n)) (join dst_dir (dll n)) (source n) d (dll n) bs g1 Hw1 Hls) as (g2 & -> & Hw2 & Hl2).
    + apply file_plain; [done..|]. unfold source in *. congruence.
    + done.
    + done.
    + apply file_plain; [done..|]. unfold target in *. congruence.
    + done.
    + done.
    + exists g2. split; [done|]. split; [done|..].
      * intros x Hx. specialize (Hx n ltac:(by left) ltac:(by rewrite Hf)). rewrite Hl2, decide_False by done. by apply Hsame.
      * intros m bs' [->|?%elem_of_nil]%elem_of_cons Hbs'; [|done]. left. rewrite Hl2, decide_True by done. congruence.
Qed.

Lemma deployable_step n ns f f' : NoDup (n :: ns) -> deployable (n :: ns) f -> deployed [n] f f' -> deployable ns f'.
Proof.
  intros [Hni _]%NoDup_cons [Hwf Hs Hd Hn Hf Ht] [Hw' Hfr _].
  assert (forall x, x <> target n -> look f' x = look f x) as Hsame by (intros x Hx; apply Hfr; by intros m ->%list_elem_of_singleton).
  split; [done|rewrite Hsame by apply not_above_target; done|rewrite Hsame by apply not_above_target; done|..].
  - intros m Hm. apply Hn. by right.
  - intros m Hm. rewrite Hsame by apply source_not_target. apply Hf. by right.
  - intros m Hm. rewrite Hsame by (intros He%target_inj; congruence). apply Ht. by right.
Qed.

Lemma deploy_fold ns f acc : NoDup ns -> deployable ns f ->
  exists f', fold_left (deploy_dll src_dir dst_dir) ns (f, acc) = (f', acc ++ filter (fun n => look f (source n) <> None) ns) /\ deployed ns f f'.
Proof.
  revert f acc; induction ns as [|n ns IH]; intros f acc Hnd Hf.
  { exists f. cbn. rewrite app_nil_r. split; [done|]. split; [exact (dp_wf _ _ Hf)|done|by intros n bs ?%elem_of_nil]. }
  destruct (deploy_dll_spec n f acc) as (f1 & H1 & Hd1).
  { destruct Hf as [Hwf Hs Hd Hn Hf Ht]. split; [done..| | |]; intros m ->%list_elem_of_singleton; [apply Hn|apply Hf|apply Ht]; by left. }
  pose proof (deployable_step n ns f f1 Hnd Hf Hd1) as Hf1. pose proof Hnd as [Hni Hnd']%NoDup_cons.
  destruct (IH f1 (acc ++ if decide (look f (source n) = None) then [] else [n]) Hnd' Hf1) as (f2 & H2 & Hd2).
  cbn [fold_left]. rewrite H1, H2. exists f2. destruct Hd1 as [W1 Fr1 Fi1], Hd2 as [W2 Fr2 Fi2].
  assert (forall x, x <> target n -> look f1 x = look f x) as Hsame by (intros x Hx; apply Fr1; by intros m ->%list_elem_of_singleton).
  split.
  - f_equal. rewrite filter_cons, <- app_assoc. f_equal.
    assert (filter (fun m => look f1 (source m) <> None) ns = filter (fun m => look f (source m) <> None) ns) as ->.
    { apply list_filter_iff. intros m. by rewrite Hsame by apply source_not_target. }
    repeat case_decide; done || (exfalso; tauto).
  - split; [done|..].
    + intros x Hx. rewrite Fr2.
      * apply Fr1. intros m ->%list_elem_of_singleton Hm. apply Hx; [by left|done].
      * intros m Hm Hsm. apply Hx; [by right|]. by rewrite <- Hsame by apply source_not_target.
    + intros m bs [->|Hm]%elem_of_cons Hbs.
      * rewrite Fr2 by (intros m Hm _ He%target_inj; congruence). apply Fi1; [by left|done].
      * destruct (Fi2 m bs Hm) as [?|(b & Hb & Hb2 & Hl)]; [rewrite Hsame by apply source_not_target; done|by left|]. right. exists b.
        rewrite Hsame in Hb by (intros He%target_inj; congruence). done.
Qed.
End dlls.

(** C18: deployed libraries are there and nothing else has changed.  The source
    directory exists and lies apart from the destination, which can be made; no
    source and no place of a library in the destination is a link or a directory.
    Then the names reported are those the source has; each of them is a copy of the
    source, or the file that was there with the size of the source.  No other file
    changes, not even the files of the destination with the name of a library the
    source lacks, and although files of the prefix can be hard links to those of
    the template; only missing directories on the way to the destination are made. *)
Theorem deploy_dlls_exact (s d : place) src_dir dst_dir dlls f :
  loc src_dir s -> loc dst_dir d -> apart s d -> wf f -> look f s = Some VDir -> open_place f d -> NoDup dlls ->
  Forall (fun n => name_ok (dll n)) dlls ->
  Forall (fun n => (look f (source s n) = None \/ exists bs, look f (source s n) = Some (VFile bs)) /\
                   (look f (target d n) = None \/ exists bs, look f (target d n) = Some (VFile bs))) dlls ->
  exists f', deploy_dlls src_dir dst_dir dlls f = (f', filter (fun n => look f (source s n) <> None) dlls) /\ wf f' /\
    (forall x, ~ x `suffix_of` d -> (forall n, n ∈ dlls -> look f (source s n) <> None -> x <> target d n) -> look f' x = look f x) /\
    (forall n bs, n ∈ dlls -> look f (source s n) = Some (VFile bs) -> exists bs', look f' (target d n) = Some (VFile bs') /\
       (bs' = bs \/ (look f (target d n) = Some (VFile bs') /\ length bs' = length bs))).
Proof.
  intros Hs Hd Hap Hwf Hsd Ho Hnd Hn Hall. unfold deploy_dlls.
  rewrite (exists_plain f Hwf src_dir s Hs) by (by apply plain_dir). rewrite bool_decide_true by congruence. cbn [negb].
  destruct (create_dir_all_plain dst_dir d f Hwf Hd Ho) as (f1 & -> & Hw1 & Hl1).
  assert (forall n, look f1 (source s n) = look f (source s n)) as Hsrc.
  { intros n. rewrite Hl1, decide_False; [done|]. by apply (apart_below s d [dll n] [] Hap). }
  assert (forall n, look f1 (target d n) = look f (target d n)) as Htgt.
  { intros n. rewrite Hl1, decide_False; [done|]. intros [r Hr]. apply (f_equal length) in Hr. rewrite length_app in Hr. cbn in Hr. lia. }
  rewrite Forall_forall in Hn, Hall. destruct (deploy_fold s d src_dir dst_dir Hs Hd Hap dlls f1 [] Hnd) as (f' & -> & [Hw' Hfr Hfi]).
  { split; [done| | |done|..].
    - rewrite Hl1, decide_False; [done|]. by apply Hap.
    - by rewrite Hl1, decide_True.
    - intros n Hx. rewrite Hsrc. by apply Hall.
    - intros n Hx. rewrite Htgt. by apply Hall. }
  exists f'. cbn [app]. split; [|split; [done|split]].
  - f_equal. apply list_filter_iff. intros n. by rewrite Hsrc.
  - intros x Hx Hxn. rewrite Hfr; [by rewrite Hl1, decide_False|]. intros n Hin. rewrite Hsrc. by apply Hxn.
  - intros n bs Hin Hbs. destruct (Hfi n bs Hin) as [He|(b & Hb & Hb2 & Hl)]; [by rewrite Hsrc|eauto|]. exists b. rewrite Htgt in Hb. eauto.
Qed.

End Deploy.


Module DeployDemo.
Import Text Fs Saves SavesDemo Environ Deploy.
Local Notation lit := Registry.lit.

(** The prefix has a link to the template's [d3d11.dll]; DXVK has its own, and no [d3d9.dll]. *)
Definition D3D11 : str := Eval vm_compute in lit "d3d11".
Definition D3D9 : str := Eval vm_compute in lit "d3d9".
Definition linked : Fs :=
  (hard_link (lit "/t/d3d11.dll") (lit "/p/sys/d3d11.dll")
    (file "/s/d3d11.dll" [1; 2; 3] (file "/t/d3d11.dll" [9] (make "/p/sys" (make "/s" (make "/t" root_fs)))))).1.
Definition SRC : place := Eval vm_compute in [lit "s"].
Definition SYS : place := Eval vm_compute in [lit "sys"; lit "p"].
Definition TEMPLATE : place := Eval vm_compute in [lit "d3d11.dll"; lit "t"].

Lemma deploy_dlls_exact_witness :
  exists f', deploy_dlls (lit "/s") (lit "/p/sys") [D3D11; D3D9] linked = (f', [D3D11]) /\
    look f' (target SYS D3D11) = Some (VFile [1; 2; 3]) /\ look f' TEMPLATE = Some (VFile [9]).
Proof.
  assert (small 20 linked = true) as B by (vm_compute; reflexivity). apply small_fs in B as (W & L & _).
  destruct (deploy_dlls_exact SRC SYS (lit "/s") (lit "/p/sys") [D3D11; D3D9] linked) as (f' & Hd & _ & Hframe & Hfiles).
  - split; vm_compute; reflexivity.
  - split; vm_compute; reflexivity.
  - split; apply (bool_decide_eq_true_1 (~ _)); vm_compute; reflexivity.
  - exact W.
  - vm_compute. reflexivity.
  - intros x Hx. right. apply suffix_cons_cases in Hx as [->|Hx]; [vm_compute; reflexivity|]. apply suffix_cons_cases in Hx as [->|Hx]; [vm_compute; reflexivity|].
    apply suffix_nil_inv in Hx. subst x. reflexivity.
  - apply (bool_decide_eq_true_1 _). vm_compute. reflexivity.
  - apply (bool_decide_eq_true_1 _). vm_compute. reflexivity.
  - apply Forall_cons. split; [|apply Forall_cons; split; [|apply Forall_nil; exact I]].
    + split; right; eexists; vm_compute; reflexivity.
    + split; left; vm_compute; reflexivity.
  - exists f'. split; [|split].
    + etransitivity; [exact Hd|]. reflexivity.
    + destruct (Hfiles D3D11 [1; 2; 3]) as (bs & Hbs & [->|[Hold Hlen]]); [by left|vm_compute; reflexivity|exact Hbs|].
      exfalso. vm_compute in Hold. injection Hold as <-. vm_compute in Hlen. discriminate.
    + etransitivity; [apply Hframe|vm_compute; reflexivity].
      * apply (bool_decide_eq_true_1 (~ _)). vm_compute. reflexivity.
      * intros n _ He. vm_compute in He. discriminate.
Defined.

(** ** Where the code departs from what it means to do *)

(** [steam.exe] is written without removing what is there: where the prefix has a
    link to the file of the template, as [copy_dir_fast] makes it, the template's
    file is overwritten. *)
Definition template : Fs :=
  file "/q/lib/wine/x86_64-windows/steam.exe" [7] (file "/t/drive_c/windows/system32/steam.exe" [9]
    (make "/q/lib/wine/x86_64-windows" (make "/t/drive_c/windows/system32" root_fs))).
Theorem template_overwritten :
  match copy_dir_fast true true 20 (lit "/t") (lit "/pfx") template with
  | Ret (f, _) => (read (lit "/t/drive_c/windows/system32/steam.exe") f, read (lit "/t/drive_c/windows/system32/steam.exe") (deploy_steam_exe (lit "/q/quark") (lit "/pfx") f))
  | _ => (None, None)
  end = (Some [9], Some [7]).
Proof. vm_compute. reflexivity. Qed.

End DeployDemo.
