(* ===== verification/Launcher.v ===== *)
(** * Launching a game ([src/rust/src/quark/launcher.rs], [run]; [src/rust/src/log.rs])

    The verbs Steam calls the launcher with: the prefix is prepared, the libraries
    the game needs are deployed, the environment is built, and the game runs
    between the snapshot and the restoration of its saves.

    The programs that are started are arguments: [run_wine] and [parallax] are what
    [wineboot] and the display program do to the file system, [spawn] is what the
    game does until its session has been killed, and how it ended.  The variables
    of the environment are valid UTF-8.  What is logged, the time it takes, the
    signals that are ignored and the pause at the end are left out. *)

From stdpp Require Import base list gmap strings.
From coqutil Require Import Datatypes.RecordSettersUsingExistingGetters.
From S2P Require Import Prelude Text Registry RegFile Pe Fs Saves Environ Deploy.
Local Open Scope Z_scope.
Local Open Scope outcome_scope.

Module Launcher.
Import Text Fs Saves Environ Deploy.
Local Notation lit := Registry.lit.
Local Notation "p / s" := (join p (lit s)).
Implicit Types (f : Fs) (p pfx : PathBuf) (env : Env).

(** ** Descriptors *)

(** [open] takes the lowest free descriptor. *)
Definition lowest_free (fds : gset nat) : nat := default 0%nat (head (filter (fun n => n ∉ fds) (seq 0 (S (size fds))))).
Definition ensure_stdio_fds (fds : gset nat) : gset nat :=
  fold_left (fun fds fd => if decide (fd ∈ fds) then fds else {[lowest_free fds]} ∪ fds) (seq 0 3) fds.

(** ** Logging *)

(** Found out once, when it is first asked for. *)
Definition is_verbose env (exe : option PathBuf) f : bool :=
  bool_decide (is_Some (var env "QUARK_VERBOSE")) ||
  match var env "HOME" with Some home => exists_ (((home / ".cache") / "quark") / "verbose_enabled") f | None => false end ||
  match exe ≫= parent with Some dir => exists_ (dir / "verbose_enabled") f | None => false end.
Definition log_dir env : PathBuf := (var_or env "HOME" (lit "/tmp") / ".cache") / "quark".

(** ** What the launcher has found *)
Record Install : Type := mkInstall { wine_dir : PathBuf; wine64 : PathBuf; proton_dir : option PathBuf; steam_dir : PathBuf; dxvk_src_dir : PathBuf }.

Definition D3D11_DLL : string := "lib/wine/dxvk/x86_64-windows/d3d11.dll".
Definition dxvk_source env (wine_dir : PathBuf) (proton_dir : option PathBuf) f : PathBuf :=
  let compat_tool_dir := var_or env "HOME" [] / ".local/share/Steam/compatibilitytools.d/quark" in
  if exists_ (compat_tool_dir / D3D11_DLL) f then compat_tool_dir
  else if exists_ (wine_dir / D3D11_DLL) f then wine_dir
  else match proton_dir with Some proton => if exists_ (proton / D3D11_DLL) f then proton else wine_dir | None => wine_dir end.

Definition NEWLINE : str := [10].
Definition env_dump env (verb : str) : str :=
  lit "compat_data=" ++ var_or env "STEAM_COMPAT_DATA_PATH" [] ++ NEWLINE ++ lit "steam_appid=" ++ var_or env "SteamAppId" [] ++ NEWLINE ++
  lit "verb=" ++ verb ++ NEWLINE ++ NEWLINE ++ concat (map (fun kv => kv.1 ++ lit "=" ++ kv.2 ++ NEWLINE) (map_to_list env)).

Definition ends_with (suffix s : str) : bool := RegFile.has_prefix (reverse suffix) (reverse s).
Definition is_probe (compat_data verb : str) : bool :=
  (ends_with (lit "/0") compat_data || ends_with (lit "/0/") compat_data) && bool_decide (verb = lit "run").
Definition runs_game (verb : str) : bool := bool_decide (verb = lit "waitforexitandrun" \/ verb = lit "run").

(** ** The prefix *)
Definition WINDOWS_DIRS : list string :=
  ["syswow64"; "Fonts"; "temp"; "system"; "inf"; "help"; "logs"; "winsxs"; "resources"; "security"; "tasks"; "performance";
   "Microsoft.NET"; "Installer"; "Globalization"; "twain_32"; "twain_64"].
Definition make_windows pfx f : Fs :=
  make_all pfx ["drive_c/ProgramData"; "drive_c/Program Files/Common Files"; "drive_c/Program Files (x86)/Common Files"]
    (make_all (pfx / "drive_c/windows") WINDOWS_DIRS (create_dir_all (join pfx SYSTEM32) f).1).

Definition SYSTEM_DLLS : PathBuf := Eval vm_compute in lit "/usr/lib/wine/x86_64-windows".
Definition PE_EXTENSIONS : list str := Eval vm_compute in lits ["dll"; "exe"; "drv"; "sys"; "ocx"; "cpl"; "acm"; "ax"].
Definition sync_system_dlls pfx f : Fs :=
  let sys32 := join pfx SYSTEM32 in
  if negb (exists_ (SYSTEM_DLLS / "ntdll.dll") f) then f
  else if decide (default 0 (len (SYSTEM_DLLS / "ntdll.dll") f) = default 0 (len (sys32 / "ntdll.dll") f)) then f
  else
    match read_dir SYSTEM_DLLS f with
    | None => f
    | Some ns =>
        fold_left (fun f n => if decide (default [] (extension (join SYSTEM_DLLS n)) ∈ PE_EXTENSIONS) then (copy (join SYSTEM_DLLS n) (join sys32 n) f).1 else f) ns f
    end.

Definition reg_header (relative : string) : str :=
  lit "WINE REGISTRY Version 2" ++ NEWLINE ++ lit ";; All keys relative to REGISTRY\" ++ lit relative ++ NEWLINE ++ NEWLINE ++ lit "#arch=win64" ++ NEWLINE.
Definition write_stubs pfx f : Fs :=
  fold_left (fun f (reg : string) =>
    if exists_ (pfx / reg) f then f
    else (write (pfx / reg) (reg_header (if RegFile.has_prefix (lit "user") (lit reg) then "User" else "Machine")) f).1)
    ["system.reg"; "user.reg"; "userdef.reg"] f.

Definition deploy_bridge (self_exe pfx : PathBuf) f : Fs := deploy_lsteamclient_to_prefix self_exe pfx (deploy_steam_exe self_exe pfx f).

(** ** What the game imports *)
Definition scan_file p f : outcome (option Pe.PeScanResult) := match read p f with Some bs => Pe.scan_pe (Pe.file_pread bs) | None => Ret None end.
Definition valid_or_empty (s : option str) : str := match s with Some s => match Pe.from_utf8 s with Some _ => s | None => [] end | None => [] end.
(** The first file with the name that can be scanned. *)
Fixpoint first_scan (dir : PathBuf) (pattern : str) (ns : list str) f : outcome (option Pe.PeScanResult) :=
  match ns with
  | [] => Ret None
  | n :: ns =>
      if eq_ignore_ascii_case n pattern then
        r <-! scan_file (join dir n) f ;; match r with Some _ => Ret r | None => first_scan dir pattern ns f end
      else first_scan dir pattern ns f
  end.
Definition scan_game p f : outcome (option Pe.PeScanResult) :=
  primary <-! (if exists_ p f then scan_file p f else Ret None) ;;
  let dominated := match primary with Some s => negb (existsb (RegFile.contains (lit "d3d")) (Pe.imports s)) | None => false end in
  if negb dominated then Ret primary
  else
    match parent p with
    | None => Ret primary
    | Some dir =>
        let stem := valid_or_empty (file_stem p) in
        let ue_bin := join dir stem / "Binaries/Win64" in
        if negb (exists_ ue_bin f) then Ret primary
        else
          match read_dir ue_bin f with
          | None => Ret primary
          | Some ns => child <-! first_scan ue_bin (stem ++ lit "-Win64-Shipping.exe") ns f ;; match child with Some _ => Ret child | None => Ret primary end
          end
    end.

(** ** The libraries *)
Record Deployed : Type := mkDeployed { dxvk_deployed : list str; vkd3d_deployed : list str; nvapi_deployed : list str; dlss_deployed : list str }.
Definition same (get : DeployCache -> Z) (cache : option DeployCache) (now : DeployCache) : bool :=
  match cache with Some c => bool_decide (get c = get now) | None => false end.

(** [cache] is what was deployed last time, [now] what there is. *)
Definition deploy_libraries (i : Install) (cache : option DeployCache) (now : DeployCache) (plan : DeployPlan) pfx f : Fs * Deployed :=
  let scan_valid := same cache_scan_hash cache now in
  let '(f, dxvk) := if needs_dxvk plan then if same dxvk_hash cache now && scan_valid then (f, DXVK_DLLS) else deploy_dxvk (dxvk_src_dir i) pfx f else (f, []) in
  let '(f, vkd3d) := if needs_vkd3d plan then if same vkd3d_hash cache now && scan_valid then (f, VKD3D_DLLS) else deploy_vkd3d (dxvk_src_dir i) pfx f else (f, []) in
  let '(f, nvapi) := if needs_nvapi plan then match proton_dir i with Some proton => deploy_nvapi proton pfx f | None => (f, []) end else (f, []) in
  let '(f, dlss) := if needs_dlss plan then deploy_dlss pfx f else (f, []) in
  (f, mkDeployed dxvk vkd3d nvapi dlss).

Definition deploy_client env (i : Install) (self_exe : PathBuf) (cache : option DeployCache) (now : DeployCache) pfx f : Fs :=
  let f := if same steam_hash cache now then f else deploy_steam_client (steam_dir i) pfx f in
  deploy_bridge self_exe pfx (repair_steamclient64 env pfx f).
Definition cache_valid (cache : option DeployCache) (now : DeployCache) : bool :=
  same wine_hash cache now && same dxvk_hash cache now && same vkd3d_hash cache now && same steam_hash cache now && same cache_scan_hash cache now.

(** ** The environment *)
Fixpoint set_vars (l : list (str * str)) env : outcome Env :=
  match l with
  | [] => Ret env
  | (k, v) :: l => if decide (k = [] \/ EQUALS ∈ k \/ 0 ∈ k \/ 0 ∈ v) then Panic else set_vars l (<[k := v]> env)
  end.
Definition traces env f : bool := bool_decide (is_Some (var env "QUARK_TRACE_OPCODES")) || exists_ (lit "/tmp/quark/TRACE_OPCODES") f.
Definition shader_cache_enabled (self_exe : PathBuf) f : bool := match parent self_exe with Some dir => exists_ (dir / "shader_cache_enabled") f | None => false end.
Definition steam_app_id env : str :=
  match var env "SteamGameId" with
  | Some v => v
  | None => match var env "SteamAppId" with Some v => v | None => var_or env "STEAM_COMPAT_APP_ID" [] end
  end.

(** The command of the game; the environment is that of the process when the
    user's variables have been set in it. *)
Definition game_command env (i : Install) (self_exe pfx : PathBuf) (vars custom : list (str * str)) (winedebug : str) (game_exe : str) (rest : list str) f : outcome Command :=
  triskelion <-! triskelion_exe self_exe ;;
  let cmd := with_args ([lit "C:\windows\system32\steam.exe"; game_exe] ++ rest) (build_wine_command (wine64 i) (wine_dir i) f) in
  let cmd := match parent game_exe with Some d => if exists_ d f then cmd <| current_dir := Some d |> else cmd | None => cmd end in
  let cmd := with_envs custom (with_envs vars cmd) in
  let cmd := with_envs [(lit "WINEPREFIX", pfx); (lit "WINESERVER", triskelion); (lit "WINE_NTSYNC", lit "1")] cmd in
  let cmd := match decimal <$> len game_exe f with Some n => with_env (lit "QUARK_LINGER_HINT") n cmd | None => cmd end in
  let cmd := with_envs [(lit "SteamAppId", steam_app_id env); (lit "SteamGameId", steam_app_id env);
    (lit "STEAM_COMPAT_CLIENT_INSTALL_PATH", steam_install env); (lit "WINEDEBUG", winedebug)] cmd in
  let dlls := existing [wine_dir i / "lib/wine/x86_64-unix"; wine_dir i / "lib/wine/x86_64-windows"; lit "/usr/lib/wine/x86_64-unix"; lit "/usr/lib/wine/x86_64-windows"] f in
  let cmd := if decide (dlls = []) then cmd else with_env (lit "WINEDLLPATH") (colons dlls) cmd in
  let ld := ld_path env [wine_dir i / "lib/wine/x86_64-unix"; wine_dir i / "lib"] f in
  let cmd := if decide (ld = []) then cmd else with_env (lit "LD_LIBRARY_PATH") (colons ld) cmd in
  Ret (set_preload env [] cmd).

(** ** The game *)
Inductive Status : Type := Exited (code : Z) | Signalled (sig : Z) | Unknown.
Inductive Played : Type := SpawnFailed | WaitFailed (f : Fs) | Finished (st : Status) (f : Fs).
Definition exit_code (st : Status) : Z := match st with Exited code => code | _ => 1 end.
Definition exit_info (st : Status) : str :=
  match st with
  | Exited code => if decide (code = 0) then lit "exit: 0 (clean)" else lit "exit: " ++ decimal code ++ lit " (error)"
  | Signalled sig => lit "killed by signal " ++ decimal sig
  | Unknown => lit "unknown exit"
  end.

Definition STDERR_LOG : PathBuf := Eval vm_compute in lit "/tmp/quark/wine_stderr.log".
Definition STDOUT_LOG : PathBuf := Eval vm_compute in lit "/tmp/quark/wine_stdout.log".
(** The streams go to files, if these can be made. *)
Definition redirect (cmd : Command) f : Fs * Command * option PathBuf :=
  match write STDERR_LOG [] (create_dir_all (lit "/tmp/quark") f).1 with
  | (f, true) =>
      let cmd := cmd <| stderr := Some STDERR_LOG |> in
      match write STDOUT_LOG [] f with (f, true) => (f, cmd <| stdout := Some STDOUT_LOG |>, Some STDERR_LOG) | (f, false) => (f, cmd, Some STDERR_LOG) end
  | (f, false) => (f, cmd, None)
  end.
Definition finish_log env (log_path : PathBuf) (st : Status) f : Fs :=
  let link := log_dir env / "stderr-latest.log" in
  let f := (remove_file link f).1 in
  let f := match file_name log_path with Some fname => (symlink false [Name fname] link f).1 | None => f end in
  (append log_path (NEWLINE ++ lit "[quark] " ++ exit_info st ++ NEWLINE) f).1.

(** ** What earlier sessions left *)
Definition remove_stale_servers (connects : PathBuf -> Fs -> bool) (uid : Z) f : Fs :=
  let wine_tmp := lit "/tmp/.wine-" ++ decimal uid in
  match read_dir wine_tmp f with
  | None => f
  | Some ns => fold_left (fun f n => if exists_ (join wine_tmp n / "socket") f && negb (connects (join wine_tmp n / "socket") f) then (remove_dir_all (join wine_tmp n) f).1 else f) ns f
  end.
Definition DEV_SHM : PathBuf := Eval vm_compute in lit "/dev/shm".
Definition remove_stale_memory f : Fs :=
  match read_dir DEV_SHM f with
  | None => f
  | Some ns => fold_left (fun f n => if RegFile.has_prefix (lit "triskelion-") (from_utf8_lossy n) then (remove_file (join DEV_SHM n) f).1 else f) ns f
  end.

(** ** The launcher *)
Record World : Type := mkWorld { fs : Fs; environ : Env; fds : gset nat; printed : list str }.
#[export] Instance set_fs : Setter fs := _.
#[export] Instance set_environ : Setter environ := _.
#[export] Instance set_fds : Setter fds := _.
#[export] Instance set_printed : Setter printed := _.

Section launcher.
Context (exe : option PathBuf) (uid : Z) (version : str).
Context (typed can_link : bool) (fuel : nat) (inf_time : option Z).
Context (metadata : Fs -> PathBuf -> option (Z * Z * Z)) (hash : Pe.RenderApi -> list str -> Z).
Context (run_wine parallax : Command -> Fs -> Fs) (connects : PathBuf -> Fs -> bool) (spawn : Command -> Fs -> Played).

Definition locate env f : Install :=
  let wine_dir := find_wine env exe f in
  let proton_dir := find_proton_files env f in
  mkInstall wine_dir (wine_binary wine_dir f) proton_dir (find_steam_dir env f) (dxvk_source env wine_dir proton_dir f).

Definition prepare_prefix env (i : Install) (self_exe pfx : PathBuf) (verbose wine_valid : bool) f : outcome Fs :=
  let f := (create_dir_all pfx (sync_system_dlls pfx (make_windows pfx f))).1 in
  let f := inject_registry_keys env pfx (write_stubs pfx f) in
  let f := deploy_bridge self_exe pfx f in
  f <-! (if wine_valid then Ret f else setup_prefix typed can_link fuel run_wine inf_time verbose env (wine_dir i) pfx (wine64 i) self_exe f) ;;
  Ret (make_profile env pfx (deploy_bridge self_exe pfx f)).

(** The prefix and everything that goes into it. *)
Definition deploy_all env (i : Install) (self_exe pfx : PathBuf) (verbose : bool) (verb : str) (args : list str) f : outcome (Fs * Deployed) :=
  let cache := load pfx f in
  let hash_of p := dir_hash (metadata f) p in
  let wine := hash_of (wine_dir i) in
  let dxvk := hash_of (dxvk_src_dir i / "lib/wine/dxvk") in
  let vkd3d := hash_of (dxvk_src_dir i / "lib/wine/vkd3d-proton") in
  let steam := hash_of (steam_dir i / "legacycompat") in
  f <-! prepare_prefix env i self_exe pfx verbose (same wine_hash cache (mkCache wine dxvk vkd3d steam 0)) f ;;
  scan <-! (match args with game_exe :: _ => if runs_game verb then scan_game game_exe f else Ret None | [] => Ret None end) ;;
  let plan := from_scan hash scan f in
  let now := mkCache wine dxvk vkd3d steam (scan_hash plan) in
  let '(f, deployed) := deploy_libraries i cache now plan pfx f in
  let f := deploy_client env i self_exe cache now pfx f in
  Ret (if cache_valid cache now then f else save now pfx f, deployed).

(** From the snapshot of the saves to their restoration. *)
Definition play env (pfx self_exe : PathBuf) (cmd : Command) (save_backup : option PathBuf) f : outcome (Fs * Z) :=
  match parent self_exe with
  | None => Panic
  | Some dir =>
      let '(f, cmd, log) := redirect cmd f in
      let f := if exists_ (dir / "parallax") f then parallax (with_env (lit "WINEPREFIX") pfx (command (dir / "parallax"))) f else f in
      match spawn cmd f with
      | SpawnFailed => Ret (f, 1)
      | WaitFailed f => Ret (f, 1)
      | Finished st f =>
          let f := match log with Some log_path => finish_log env log_path st f | None => f end in
          f <-! (match save_backup with Some backup_dir => restore_save_data fuel pfx backup_dir f | None => Ret f end) ;;
          Ret (f, exit_code st)
      end
  end.

Definition UTILITIES : list str := Eval vm_compute in lits ["iscriptevaluator"; "d3ddriverquery"].
Definition is_utility (game_exe : str) : bool := existsb (fun pat => RegFile.contains pat (map lower_ascii game_exe)) UTILITIES.

Definition launch_game env (i : Install) (self_exe pfx : PathBuf) (vars custom : list (str * str)) (winedebug : str) (args : list str) f : outcome (Fs * Z) :=
  match args with
  | [] => Ret (f, 1)
  | game_exe :: rest =>
      if is_utility game_exe then Ret (f, 0)
      else
        f <-! clean_crash_dumps fuel pfx f ;;
        s <-! snapshot_save_data decimal fuel pfx f ;;
        cmd <-! game_command env i self_exe pfx vars custom winedebug game_exe rest s.1 ;;
        play env pfx self_exe cmd s.2 s.1
  end.

Definition launch (verb : str) (args : list str) env f : outcome (Fs * Env * Z) :=
  let verbose := is_verbose env exe f in
  let i := locate env f in
  if negb (exists_ (wine64 i) f) then Ret (f, env, 1)
  else
    let compat_data := var_or env "STEAM_COMPAT_DATA_PATH" [] in
    let f := (write (lit "/tmp/quark/launcher_env.txt") (env_dump env verb) f).1 in
    if decide (compat_data = []) then Ret (f, env, 1)
    else if is_probe compat_data verb then Ret (f, env, 0)
    else
      let pfx := compat_data / "pfx" in
      match create_dir_all pfx f, exe with
      | (f, false), _ => Ret (f, env, 1)
      | (f, true), None => Ret (f, env, 1)
      | (f, true), Some self_exe =>
          d <-! deploy_all env i self_exe pfx verbose verb args f ;;
          let '(f, deployed) := d in
          let trace := traces env f in
          v <-! build_env_vars env (wine_dir i) (proton_dir i) (steam_dir i) pfx self_exe (dxvk_deployed deployed) (vkd3d_deployed deployed)
                  (nvapi_deployed deployed) (dlss_deployed deployed) (shader_cache_enabled self_exe f) version f ;;
          let '(f, vars) := v in
          let custom := parse_env_config self_exe f in
          env <-! set_vars custom env ;;
          let winedebug := resolve_winedebug env verbose trace in
          let f := remove_stale_memory (remove_stale_servers connects uid f) in
          if runs_game verb then r <-! launch_game env i self_exe pfx vars custom winedebug args f ;; Ret (r.1, env, r.2)
          else Ret (f, env, 1)
      end.

Definition run (verb : str) (args : list str) (w : World) : outcome (World * Z) :=
  let w := w <| fds ::= ensure_stdio_fds |> in
  if decide (verb ∈ lits ["getcompatpath"; "getnativepath"]) then
    Ret (match args with p :: _ => w <| printed ::= fun l => l ++ [p] |> | [] => w end, 0)
  else if decide (verb ∈ lits ["installscript"; "runinprefix"]) then Ret (w, 0)
  else
    r <-! launch verb args (environ w) (fs w) ;;
    let '(f, env, code) := r in
    Ret (w <| fs := f |> <| environ := env |>, code).
End launcher.

(** ** The standard descriptors are open *)
Lemma lowest_free_spec (fds : gset nat) n : n ∉ fds -> (forall m, (m < n)%nat -> m ∈ fds) -> lowest_free fds = n.
Proof.
  intros Hn Hlt. assert (n <= size fds)%nat.
  { rewrite <- (length_seq n 0), <- (size_list_to_set (C:=gset nat) (seq 0 n)) by apply NoDup_seq. apply subseteq_size.
    intros m Hm%elem_of_list_to_set%elem_of_seq. apply Hlt. lia. }
  unfold lowest_free. replace (S (size fds)) with (n + S (size fds - n))%nat by lia. rewrite seq_app, filter_app.
  assert (filter (fun n => n ∉ fds) (seq 0 n) = []) as ->.
  { apply elem_of_nil_inv. intros m [Hm Hs]%list_elem_of_filter. apply elem_of_seq in Hs. apply Hm, Hlt. lia. }
  cbn [seq app]. rewrite Nat.add_0_l, filter_cons_True by done. done.
Qed.

(** Whatever was open, 0, 1 and 2 are open afterwards, and only these were opened. *)
Lemma ensure_stdio_fds_spec fds : ensure_stdio_fds fds = {[0; 1; 2]}%nat ∪ fds.
Proof.
  unfold ensure_stdio_fds. cbn [fold_left seq].
  assert (forall (s : gset nat) fd, (forall m, (m < fd)%nat -> m ∈ s) -> (if decide (fd ∈ s) then s else {[lowest_free s]} ∪ s) = {[fd]} ∪ s) as Hstep.
  { intros s fd Hs. case_decide as Hfd; [set_solver|]. by rewrite (lowest_free_spec s fd). }
  rewrite (Hstep fds 0%nat) by lia. rewrite (Hstep _ 1%nat) by (intros m Hm; replace m with 0%nat by lia; set_solver).
  rewrite (Hstep _ 2%nat); [set_solver|]. intros [|[|m]] Hm; [set_solver..|lia].
Qed.

(** ** What a child sees of its environment *)
Lemma last_setting_app k a b : last_setting k (a ++ b) = match last_setting k b with Some v => Some v | None => last_setting k a end.
Proof.
  induction a as [|[k' v] a IH]; cbn [app last_setting]; [by destruct (last_setting k b)|]. rewrite IH. by destruct (last_setting k b).
Qed.

Lemma child_with_env env k k' v cmd : child_var env (with_env k v cmd) k' = if decide (k = k') then Some v else child_var env cmd k'.
Proof. unfold child_var. cbn. rewrite last_setting_app. cbn. by case_decide. Qed.

Lemma child_without_env env k k' cmd : child_var env (without_env k cmd) k' = if decide (k = k') then None else child_var env cmd k'.
Proof. unfold child_var. cbn. rewrite last_setting_app. cbn. by case_decide. Qed.

Definition settings (l : list (str * str)) : list (str * option str) := map (fun kv => (kv.1, Some kv.2)) l.
Lemma child_with_envs env l k cmd : child_var env (with_envs l cmd) k = match last_setting k (settings l) with Some v => v | None => child_var env cmd k end.
Proof. unfold child_var. cbn. rewrite last_setting_app. fold (settings l). by destruct (last_setting k (settings l)). Qed.

Lemma child_with_args env l k cmd : child_var env (with_args l cmd) k = child_var env cmd k.
Proof. done. Qed.

Lemma child_wine env bin dir k f : child_var env (build_wine_command bin dir f) k = env !! k.
Proof. unfold build_wine_command. cbv zeta. destruct (negb (exists_ (lit "/usr/bin/bwrap") f)); [reflexivity|]. by destruct (_ || _). Qed.

(** ** The overlay is not preloaded *)
Lemma split_char_free c s acc : c ∉ acc -> Forall (fun part => c ∉ part) (RegFile.split_char c s acc).
Proof.
  revert acc; induction s as [|x s IH]; intros acc Ha; cbn [RegFile.split_char].
  - apply Forall_singleton. by rewrite elem_of_reverse.
  - case_decide; [constructor; [by rewrite elem_of_reverse|apply IH, not_elem_of_nil]|]. apply IH. rewrite not_elem_of_cons. done.
Qed.

Lemma preload_parts_spec s part : part ∈ preload_parts s -> part <> [] /\ COLON ∉ part /\ is_overlay part = false /\ part ∈ RegFile.split_char COLON s [].
Proof.
  intros [[Hne Ho] Hin]%list_elem_of_filter. pose proof (split_char_free COLON s [] (not_elem_of_nil _)) as Hc. rewrite Forall_forall in Hc. auto.
Qed.

Lemma child_preload env cmd : let kept := preload_parts (var_or env "LD_PRELOAD" []) in
  match child_var env (set_preload env [] cmd) (lit "LD_PRELOAD") with
  | Some s => kept <> [] /\ RegFile.split_char COLON s [] = kept
  | None => kept = []
  end.
Proof.
  cbn zeta. unfold set_preload. rewrite app_nil_r. pose proof (preload_parts_spec (var_or env "LD_PRELOAD" [])) as Hp.
  destruct (preload_parts _) as [|q l]; [by rewrite child_without_env, decide_True|]. rewrite child_with_env, decide_True by done.
  split; [done|]. apply RegFile.split_char_join; [done|]. apply Forall_forall. intros part Hin. by apply Hp in Hin as (_ & ? & _).
Qed.

Lemma child_set_preload env cmd k : k <> lit "LD_PRELOAD" -> child_var env (set_preload env [] cmd) k = child_var env cmd k.
Proof. intros Hk. unfold set_preload. destruct (_ ++ _); rewrite ?child_without_env, ?child_with_env; by rewrite decide_False. Qed.

(** The steps that may set a variable do not concern the others. *)
Lemma child_optional env k k' (o : option str) cmd : k <> k' -> child_var env (match o with Some v => with_env k v cmd | None => cmd end) k' = child_var env cmd k'.
Proof. intros Hk. destruct o; [|done]. by rewrite child_with_env, decide_False. Qed.
Lemma child_unless env k k' v (P : Prop) `{Decision P} cmd : k <> k' -> child_var env (if decide P then cmd else with_env k v cmd) k' = child_var env cmd k'.
Proof. intros Hk. case_decide; [done|]. by rewrite child_with_env, decide_False. Qed.

(** The variables the launcher sets itself, whatever the user or the profile says. *)
Definition RESERVED : list str := Eval vm_compute in
  lits ["WINEPREFIX"; "WINESERVER"; "WINE_NTSYNC"; "QUARK_LINGER_HINT"; "SteamAppId"; "SteamGameId"; "STEAM_COMPAT_CLIENT_INSTALL_PATH"; "WINEDEBUG";
        "WINEDLLPATH"; "LD_LIBRARY_PATH"; "LD_PRELOAD"].


End Launcher.

Module LauncherDemo.
Import Text Fs Saves SavesDemo Environ Deploy Launcher.
Local Notation lit := Registry.lit.

Definition ENV : Env := Eval vm_compute in
  list_to_map [(lit "HOME", lit "/h"); (lit "USER", lit "u"); (lit "LD_PRELOAD", lit "/s/gameoverlayrenderer.so:/a.so"); (lit "SteamAppId", lit "7")].
Definition WINE : Install := Eval vm_compute in mkInstall (lit "/w") (lit "/w/bin/wine") None (lit "/s") (lit "/w").
Definition CUSTOM : list (str * str) := Eval vm_compute in [(lit "WINEPREFIX", lit "/elsewhere"); (lit "MY_VAR", lit "1")].
Definition QUARK : PathBuf := Eval vm_compute in lit "/q/quark".


Example overlay_stripped :
  match game_command ENV WINE QUARK (lit "/c/pfx") [] CUSTOM (lit "-all") (lit "/g/game.exe") [] root_fs with
  | Ret cmd => child_var ENV cmd (lit "LD_PRELOAD") | _ => None end = Some (lit "/a.so").
Proof. vm_compute. reflexivity. Qed.

(** ** Where the code departs from what it means to do *)
Definition prepared (run_wine : Command -> Fs -> Fs) (f : Fs) : option Fs :=
  match prepare_prefix true true 20 None run_wine ENV WINE QUARK (lit "/c/pfx") false false f with Ret f => Some f | _ => None end.

(** [wineboot --init] is skipped when the prefix has a [Fonts] directory; [run] has
    made that directory just before, so that it is never run on a new prefix. *)
Definition wineboot_marks (cmd : Command) (f : Fs) : Fs := file "/booted" [1] f.
Theorem wineboot_never_runs : exists_ (lit "/booted") <$> prepared wineboot_marks (make "/c" root_fs) = Some false.
Proof. vm_compute. reflexivity. Qed.

(** The registry of the template is copied where the prefix has none; [run] has
    written stubs just before, so that it is never copied. *)
Definition baked : Fs := file "/q/default_pfx/system.reg" [66; 65; 75; 69; 68] (make "/q/default_pfx" (make "/c" root_fs)).
Theorem baked_registry_ignored :
  (fun f => (read (lit "/q/default_pfx/system.reg") f, firstn 4 <$> read (lit "/c/pfx/system.reg") f)) <$> prepared (fun _ f => f) baked =
  Some (Some [66; 65; 75; 69; 68], Some (lit "WINE")).
Proof. vm_compute. reflexivity. Qed.

(** The link to the latest log names the log as if it were in the same directory. *)
Definition logged : Fs := file "/tmp/quark/wine_stderr.log" [] (make "/tmp/quark" (make "/h/.cache/quark" root_fs)).
Theorem latest_log_dangles :
  let f := finish_log ENV STDERR_LOG (Exited 0) logged in
  bool_decide (is_Some (symlink_metadata (lit "/h/.cache/quark/stderr-latest.log") f)) = true /\ exists_ (lit "/h/.cache/quark/stderr-latest.log") f = false /\
  exists_ STDERR_LOG f = true.
Proof. vm_compute. split; [|split]; reflexivity. Qed.

(** Where no DXVK is found, nothing is deployed and nothing is overridden; at the
    next start the cache is valid, and its libraries are overridden all the same. *)
Definition NOTHING : DeployCache := mkCache 0 0 0 0 0.
Definition PLAN : DeployPlan := mkPlan true true false false 0.
Theorem cached_overrides_differ :
  dxvk_deployed (deploy_libraries WINE None NOTHING PLAN (lit "/c/pfx") (make "/c/pfx" root_fs)).2 = [] /\
  dxvk_deployed (deploy_libraries WINE (Some NOTHING) NOTHING PLAN (lit "/c/pfx") (make "/c/pfx" root_fs)).2 = DXVK_DLLS /\
  exists_ (lit "/c/pfx/drive_c/windows/system32/d3d11.dll") (deploy_libraries WINE (Some NOTHING) NOTHING PLAN (lit "/c/pfx") (make "/c/pfx" root_fs)).1 = false.
Proof. vm_compute. split; [|split]; reflexivity. Qed.

End LauncherDemo.
