(* ===== verification/Profile.v ===== *)
(** * Profiles ([src/rust/src/quark/profile.rs])

    The summary of an [strace] log with the file of its counts, and the profile of
    the opcodes in a trace of the server.  The commands that capture a log and the
    output on the terminal are left out; [percent] prints a share with one decimal,
    as [{:>5.1}] prints the quotient of two numbers.  Where the code goes through a
    hash table, the order is that of the map here.  Counters are of 64 bits and
    count the lines of a file, so they do not wrap. *)

From stdpp Require Import base list gmap strings sorting.
From S2P Require Import Prelude Text Registry RegFile Pe Fs Build Deploy.
Local Open Scope Z_scope.
Local Open Scope outcome_scope.

Module Profile.
Import Text Fs Deploy.
Local Notation lit := Registry.lit.
Local Notation "p / s" := (join p (lit s)).
Implicit Types (f : Fs) (m : gmap str Z).

(** ** Text *)
Definition NEWLINE : Z := 10.
Definition SPACE : Z := 32.
Definition PAREN : Z := 40.
Definition CLOSE : Z := 41.
Definition STAR : Z := 42.

Fixpoint words_acc (s acc : str) : list str :=
  match s with
  | [] => match acc with [] => [] | _ => [reverse acc] end
  | c :: s => if RegFile.is_whitespace c then match acc with [] => words_acc s [] | _ => reverse acc :: words_acc s [] end else words_acc s (c :: acc)
  end.
Definition split_whitespace (s : str) : list str := words_acc s [].

(** [read_line] until the end, or until a line that is not UTF-8. *)
Fixpoint split_lines (bs acc : list Z) : list (list Z) :=
  match bs with
  | [] => match acc with [] => [] | _ => [reverse acc] end
  | b :: bs => if decide (b = NEWLINE) then reverse (b :: acc) :: split_lines bs [] else split_lines bs (b :: acc)
  end.
Fixpoint decode_lines (l : list (list Z)) : list str :=
  match l with [] => [] | b :: l => match Pe.from_utf8 b with Some s => s :: decode_lines l | None => [] end end.
Definition read_lines (bs : list Z) : list str := decode_lines (split_lines bs []).

Definition is_alphanumeric (c : Z) : bool := bool_decide (0x30 <= c <= 0x39 \/ 0x41 <= c <= 0x5A \/ 0x61 <= c <= 0x7A).
Definition is_identifier (s : str) : bool := bool_decide (s <> []) && forallb (fun c => is_alphanumeric c || bool_decide (c = 95)) s.
Definition is_hexdigit (c : Z) : bool := bool_decide (0x30 <= c <= 0x39 \/ 0x41 <= c <= 0x46 \/ 0x61 <= c <= 0x66).

(** [{n:>w}] *)
Definition pad (w : nat) (s : str) : str := replicate (w - length s) SPACE ++ s.

(** Digits in groups of three. *)
Fixpoint commas (i : nat) (r : str) : str :=
  match r with [] => [] | c :: r => (if decide ((0 < i)%nat /\ (i `mod` 3 = 0)%nat) then [RegFile.COMMA; c] else [c]) ++ commas (S i) r end.
Definition format_with_commas (n : Z) : str := reverse (commas 0 (reverse (decimal n))).

(** ** Counting *)
Definition bump (k : str) m : gmap str Z := <[k := default 0 (m !! k) + 1]> m.
Definition sum_values m : Z := map_fold (fun _ v acc => v + acc) 0 m.
Definition by_count : relation (str * Z) := fun a b => b.2 <= a.2.
#[export] Instance by_count_dec : RelDecision by_count.
Proof. intros a b. unfold by_count. apply _. Defined.
Definition sorted m : list (str * Z) := merge_sort by_count (map_to_list m).

(** ** The summary of an [strace] log *)
Record Strace : Type := mkStrace { syscall_counts : gmap str Z; futex_count : Z; socket_count : Z; recvmsg_count : Z; sendmsg_count : Z }.
Definition syscall_of (line : str) : option str :=
  match list_find (fun part => PAREN ∈ part) (drop 1 (split_whitespace line)) with
  | Some (_, part) =>
      match RegFile.split_at_pat [PAREN] part with Some (syscall, _) => if is_identifier syscall then Some syscall else None | None => None end
  | None => None
  end.
Definition one (b : bool) : Z := if b then 1 else 0.
Definition strace_line (st : Strace) (line : str) : Strace :=
  mkStrace (match syscall_of line with Some s => bump s (syscall_counts st) | None => syscall_counts st end)
    (futex_count st + one (RegFile.contains (lit "futex") line))
    (socket_count st + one (RegFile.contains (lit "AF_UNIX") line || RegFile.contains (lit "/tmp/.wine") line))
    (recvmsg_count st + one (RegFile.contains (lit "recvmsg(") line))
    (sendmsg_count st + one (RegFile.contains (lit "sendmsg(") line)).
Definition strace_summary (lines : list str) : Strace := fold_left strace_line lines (mkStrace ∅ 0 0 0 0).

Definition count_line (kv : str * Z) : str := pad 8 (decimal kv.2) ++ [SPACE; SPACE] ++ kv.1 ++ [NEWLINE].
Definition counts_text (l : list (str * Z)) : str := concat (map count_line l).
Definition generate_strace_summary (log_file out_dir : PathBuf) (prefix : str) f : Fs :=
  match read log_file f with
  | None => f
  | Some bs => (write (join out_dir (prefix ++ lit "_syscall_counts.txt")) (encode_utf8 (counts_text (sorted (syscall_counts (strace_summary (read_lines bs)))))) f).1
  end.

Definition load_count m (line : str) : gmap str Z :=
  match split_whitespace line with
  | [count; syscall] => match parse_u64 count with Some n => <[syscall := n]> m | None => m end
  | _ => m
  end.
Definition parse_counts (content : str) : gmap str Z := fold_left load_count (RegFile.lines content) ∅.
Definition load_syscall_counts (p : PathBuf) f : gmap str Z := match read_to_string p f with Some content => parse_counts content | None => ∅ end.

(** ** Traces of the server *)

(** The thread of a line, if it has one, with the opcode and the text behind the
    opening parenthesis, if it has these. *)
Definition call_of (after_tid : str) : option (str * str) :=
  if decide (head after_tid = Some STAR) then None
  else
    match RegFile.split_at_pat [PAREN] after_tid with
    | None => None
    | Some (name, after_paren) => let opcode := RegFile.trim name in if is_identifier opcode then Some (opcode, after_paren) else None
    end.
Definition trace_line (line : str) : option (str * option (str * str)) :=
  match RegFile.split_at_pat (lit ": ") line with
  | None => None
  | Some (tid, after_tid) => if bool_decide (tid <> []) && forallb is_hexdigit tid then Some (tid, call_of after_tid) else None
  end.
Definition is_reply (after_paren : str) : bool := bool_decide (head after_paren = Some CLOSE).
Fixpoint until_space (s : str) : str := match s with c :: s => if decide (c = SPACE \/ c = 123) then [] else c :: until_space s | [] => [] end.
Definition status_of (after_paren : str) : option str :=
  match RegFile.split_at_pat (lit "= ") after_paren with
  | None => None
  | Some (_, s) => let name := RegFile.trim (until_space (RegFile.trim s)) in if decide (name = lit "0" \/ name = []) then None else Some name
  end.

Record Trace : Type := mkTrace { opcode_counts : gmap str Z; error_counts : gmap str (gmap str Z); total_calls : Z; total_errors : Z; line_number : Z; thread_ids : gset str }.
Definition count_call (tr : Trace) (c : str * str) : Trace :=
  let '(opcode, after_paren) := c in
  if is_reply after_paren then
    match status_of after_paren with
    | Some status => mkTrace (opcode_counts tr) (<[opcode := bump status (default ∅ (error_counts tr !! opcode))]> (error_counts tr)) (total_calls tr) (total_errors tr + 1) (line_number tr) (thread_ids tr)
    | None => tr
    end
  else mkTrace (bump opcode (opcode_counts tr)) (error_counts tr) (total_calls tr + 1) (total_errors tr) (line_number tr) (thread_ids tr).
Definition first_line (tr : Trace) (line : str) : Trace :=
  let tr := mkTrace (opcode_counts tr) (error_counts tr) (total_calls tr) (total_errors tr) (line_number tr + 1) (thread_ids tr) in
  match trace_line line with
  | None => tr
  | Some (tid, call) =>
      let tr := mkTrace (opcode_counts tr) (error_counts tr) (total_calls tr) (total_errors tr) (line_number tr) ({[tid]} ∪ thread_ids tr) in
      match call with Some c => count_call tr c | None => tr end
  end.
Definition first_pass (lines : list str) : Trace := fold_left first_line lines (mkTrace ∅ ∅ 0 0 0 ∅).

(** The second reading of the file divides the requests. *)
Definition STARTUP_CALLS : Z := 20000.
Definition second_line (st : Z * gmap str Z * gmap str Z) (line : str) : Z * gmap str Z * gmap str Z :=
  let '(call_idx, startup, steady) := st in
  match trace_line line with
  | Some (_, Some (opcode, after_paren)) =>
      if is_reply after_paren then st
      else
        let call_idx := call_idx + 1 in
        if decide (call_idx <= STARTUP_CALLS) then (call_idx, bump opcode startup, steady) else (call_idx, startup, bump opcode steady)
  | _ => st
  end.
Definition second_pass (lines : list str) : Z * gmap str Z * gmap str Z := fold_left second_line lines (0, ∅, ∅).

Section report.
Context (percent : Z -> Z -> str).

Definition line (s : str) : str := s ++ [NEWLINE].
Definition opcode_line (tr : Trace) (startup steady : gmap str Z) (kv : str * Z) : str :=
  line (pad 8 (decimal kv.2) ++ lit "  " ++ percent kv.2 (total_calls tr) ++ lit "%  " ++ pad 8 (decimal (default 0 (startup !! kv.1))) ++ lit "  " ++
        pad 8 (decimal (default 0 (steady !! kv.1))) ++ lit "  " ++ kv.1).
Definition by_errors : relation (str * gmap str Z) := fun a b => sum_values b.2 <= sum_values a.2.
#[export] Instance by_errors_dec : RelDecision by_errors.
Proof. intros a b. unfold by_errors. apply _. Defined.
Definition errors_text (tr : Trace) : str :=
  if decide (error_counts tr = ∅) then []
  else line [] ++ line (lit "Errors (non-zero return codes):") ++
    concat (map (fun oe => concat (map (fun ec => line (lit "  " ++ oe.1 ++ lit ": " ++ ec.1 ++ lit " x" ++ decimal ec.2)) (map_to_list oe.2)))
      (merge_sort by_errors (map_to_list (error_counts tr)))).
Definition report_text (trace_file : str) (tr : Trace) (startup steady : gmap str Z) : str :=
  line (lit "Wineserver Opcode Profile") ++ line (lit "Trace: " ++ trace_file) ++ line (lit "Total requests: " ++ decimal (total_calls tr)) ++
  line (lit "Total errors: " ++ decimal (total_errors tr)) ++ line (lit "Unique opcodes: " ++ decimal (Z.of_nat (size (opcode_counts tr)))) ++
  line (lit "Threads: " ++ decimal (Z.of_nat (size (thread_ids tr)))) ++ line [] ++ line (lit "   count     pct   startup    steady  opcode") ++
  concat (map (opcode_line tr startup steady) (sorted (opcode_counts tr))) ++ errors_text tr.

Definition LOG_DIR : PathBuf := Eval vm_compute in lit "/tmp/quark".
Definition run_profile_opcodes (trace_file : PathBuf) f : Fs * Z :=
  if negb (exists_ trace_file f) then (f, 1)
  else
    match read trace_file f with
    | None => (f, 1)
    | Some bs =>
        let tr := first_pass (read_lines bs) in
        let '(_, startup, steady) := second_pass (read_lines bs) in
        if decide (total_calls tr = 0) then (f, 1)
        else
          let f := (create_dir_all LOG_DIR f).1 in
          let f := (write (LOG_DIR / "opcode_profile.txt") (encode_utf8 (report_text (from_utf8_lossy trace_file) tr startup steady)) f).1 in
          ((remove_file (lit "/tmp/quark/TRACE_OPCODES") f).1, 0)
    end.
End report.

(** ** Words and lines *)
Definition solid (s : str) : Prop := Forall (fun c => RegFile.is_whitespace c = false) s.

Lemma words_solid w s acc : solid w -> words_acc (w ++ s) acc = words_acc s (reverse w ++ acc).
Proof.
  revert acc; induction w as [|c w IH]; intros acc Hw; [done|]. apply Forall_cons in Hw as [Hc Hw]. cbn [app words_acc]. rewrite Hc, IH by done.
  by rewrite reverse_cons, <- app_assoc.
Qed.

Lemma words_spaces n s : words_acc (replicate n SPACE ++ s) [] = words_acc s [].
Proof. induction n as [|n IH]; [done|]. exact IH. Qed.

Lemma words_two n a b : solid a -> solid b -> a <> [] -> b <> [] -> split_whitespace (replicate n SPACE ++ a ++ [SPACE; SPACE] ++ b) = [a; b].
Proof.
  intros Ha Hb Hna Hnb. unfold split_whitespace. rewrite words_spaces, words_solid by done. rewrite app_nil_r. cbn [app words_acc RegFile.is_whitespace].
  change (RegFile.is_whitespace SPACE) with true. cbv iota. destruct (reverse a) as [|x r] eqn:Hr; [by apply (f_equal reverse) in Hr; rewrite reverse_involutive in Hr|].
  rewrite <- Hr, reverse_involutive. f_equal. rewrite <- (app_nil_r b) at 1. rewrite words_solid by done. cbn [words_acc]. rewrite app_nil_r.
  destruct (reverse b) as [|y t] eqn:Ht; [by apply (f_equal reverse) in Ht; rewrite reverse_involutive in Ht|]. by rewrite <- Ht, reverse_involutive.
Qed.

Lemma identifier_plain s : is_identifier s = true -> s <> [] /\ Forall RegFile.plain s.
Proof.
  intros [Hn%bool_decide_eq_true Hf]%andb_true_iff. split; [done|]. rewrite forallb_forall in Hf. apply Forall_forall. intros c Hc%list_elem_of_In%Hf.
  unfold RegFile.plain, RegFile.is_whitespace, RegFile.NEWLINE, Registry.BACKSLASH.
  apply orb_true_iff in Hc as [Hc%bool_decide_eq_true|Hc%bool_decide_eq_true]; (split; [apply bool_decide_eq_false; lia|lia]).
Qed.

Lemma plain_solid s : Forall RegFile.plain s -> solid s.
Proof. intros Hs. eapply Forall_impl; [exact Hs|]. by intros c [? _]. Qed.

Lemma digits_solid s : Forall is_digit s -> solid s /\ NEWLINE ∉ s.
Proof.
  intros Hs. split.
  - eapply Forall_impl; [exact Hs|]. intros c Hc. by apply digit_facts.
  - intros Hi. rewrite Forall_forall in Hs. apply Hs in Hi. unfold is_digit, NEWLINE in Hi. lia.
Qed.

(** ** The counts are read as written *)
Definition countable (kv : str * Z) : Prop := is_identifier kv.1 = true /\ in_u64_range kv.2.

Lemma load_count_line m kv : countable kv -> load_count m (pad 8 (decimal kv.2) ++ [SPACE; SPACE] ++ kv.1) = <[kv.1 := kv.2]> m.
Proof.
  intros [Hi Hu]. destruct (decimal_ok _ Hu) as (Hp & Hd & Hne). apply identifier_plain in Hi as [Hn Hs%plain_solid].
  unfold load_count, pad. rewrite <- app_assoc, words_two by (done || by apply digits_solid). by rewrite Hp.
Qed.

Lemma parse_counts_text l m : Forall countable l -> fold_left load_count (RegFile.lines (counts_text l)) m = fold_left (fun m kv => <[kv.1 := kv.2]> m) l m.
Proof.
  revert m; induction l as [|kv l IH]; intros m Hl; [done|]. apply Forall_cons in Hl as [Hk Hl]. unfold counts_text. cbn [map concat]. fold (counts_text l).
  unfold count_line. rewrite !app_assoc, <- (app_assoc _ [NEWLINE]). cbn [app]. rewrite RegFile.lines_cons.
  - cbn [fold_left]. rewrite <- !app_assoc, load_count_line by done. by apply IH.
  - destruct Hk as [Hi Hu]. destruct (decimal_ok _ Hu) as (_ & Hd & _). apply identifier_plain in Hi as [Hn Hi]. apply digits_solid in Hd as [_ Hd].
    apply RegFile.line_end_app; [|by apply RegFile.plain_line]. rewrite not_elem_of_app. split.
    + unfold pad. rewrite not_elem_of_app. split; [|done]. by intros [? _]%elem_of_replicate.
    + rewrite !not_elem_of_cons. split_and!; [done|done|apply not_elem_of_nil].
Qed.

Lemma fold_inserts (l : list (str * Z)) m : NoDup l.*1 -> fold_left (fun m kv => <[kv.1 := kv.2]> m) l m = list_to_map l ∪ m.
Proof.
  revert m; induction l as [|[k v] l IH]; intros m Hnd; cbn [fold_left fmap list_fmap fst snd] in *; [symmetry; apply map_empty_union|].
  apply NoDup_cons in Hnd as [Hk Hnd]. rewrite IH by done. rewrite list_to_map_cons.
  apply map_eq. intros k'. rewrite !lookup_union. destruct (decide (k' = k)) as [->|Hne].
  - rewrite !lookup_insert_eq, not_elem_of_list_to_map_1 by done. by destruct (m !! k).
  - by rewrite !lookup_insert_ne by done.
Qed.

Lemma parse_counts_ok m l : l ≡ₚ map_to_list m -> Forall countable l -> parse_counts (counts_text l) = m.
Proof.
  intros Hl Hc. unfold parse_counts. rewrite parse_counts_text by done. assert (NoDup l.*1) as Hnd by (rewrite Hl; apply NoDup_fst_map_to_list).
  rewrite fold_inserts, map_union_empty by done. rewrite (list_to_map_proper l (map_to_list m)) by done. apply list_to_map_to_list.
Qed.

Lemma sorted_permutation m : sorted m ≡ₚ map_to_list m.
Proof. apply merge_sort_Permutation. Qed.

(** What the summary counts are system calls, each at most once in a line. *)
Lemma syscall_of_identifier line s : syscall_of line = Some s -> is_identifier s = true.
Proof.
  unfold syscall_of. destruct (list_find _ _) as [[? part]|]; [|done]. destruct (RegFile.split_at_pat _ part) as [[a ?]|]; [|done].
  destruct (is_identifier a) eqn:Ha; [|done]. by intros [= <-].
Qed.

Lemma strace_counts_ok lines k v : syscall_counts (strace_summary lines) !! k = Some v -> is_identifier k = true /\ 0 < v <= Z.of_nat (length lines).
Proof.
  unfold strace_summary. revert k v. induction lines as [|line lines IH] using rev_ind; intros k v; [done|].
  rewrite fold_left_app, length_app. cbn [fold_left strace_line syscall_counts length].
  destruct (syscall_of line) as [s|] eqn:Hs; [|intros [? ?]%IH; split; [done|lia]].
  unfold bump. destruct (decide (s = k)) as [->|Hne].
  - rewrite lookup_insert_eq. intros [= <-]. split; [by eapply syscall_of_identifier|].
    destruct (syscall_counts _ !! k) as [w|] eqn:Hw; cbn [default from_option id]; [apply IH in Hw as [_ Hw]|]; lia.
  - rewrite lookup_insert_ne by done. intros [? ?]%IH. split; [done|lia].
Qed.

(** The counts of system calls survive their file.  The file written for any
    log, sorted by count and aligned, is read back as the very table it was
    written from. *)
Theorem strace_counts_roundtrip lines : Z.of_nat (length lines) < 2 ^ 64 ->
  parse_counts (counts_text (sorted (syscall_counts (strace_summary lines)))) = syscall_counts (strace_summary lines).
Proof.
  intros Hlen. apply parse_counts_ok; [apply sorted_permutation|]. apply Forall_forall. intros [k v] Hkv.
  rewrite sorted_permutation in Hkv. apply elem_of_map_to_list, strace_counts_ok in Hkv as [Hk Hv]. split; [done|]. unfold in_u64_range. cbn [snd]. lia.
Qed.

(** ** Both readings of a trace agree *)
Definition count_of m (k : str) : Z := default 0 (m !! k).

Lemma count_bump k k' m : count_of (bump k m) k' = count_of m k' + if decide (k = k') then 1 else 0.
Proof. unfold count_of, bump. case_decide as He; [subst; by rewrite lookup_insert_eq|]. rewrite lookup_insert_ne by done. lia. Qed.

Lemma sum_insert k v m : m !! k = None -> sum_values (<[k := v]> m) = v + sum_values m.
Proof. intros Hk. unfold sum_values. rewrite map_fold_insert_L; [done|intros; lia|done]. Qed.

Lemma sum_bump k m : sum_values (bump k m) = sum_values m + 1.
Proof.
  unfold bump. destruct (m !! k) as [v|] eqn:Hk; cbn [default from_option id].
  - rewrite <- (insert_delete_id m k v) at 2 by done. rewrite <- insert_delete_eq, !sum_insert by apply lookup_delete_eq. lia.
  - rewrite sum_insert by done. lia.
Qed.

(** The phases of a trace divide its requests.  The second reading counts the
    same requests as the first: for every opcode the calls at the start and the
    later ones add up to its count, the start has the first 20000 calls, and the
    counts of all opcodes add up to the total. *)
Theorem phases_divide_calls lines :
  let tr := first_pass lines in
  let '(calls, startup, steady) := second_pass lines in
  calls = total_calls tr /\ sum_values (opcode_counts tr) = total_calls tr /\ sum_values startup = Z.min (total_calls tr) STARTUP_CALLS /\
  forall opcode, count_of startup opcode + count_of steady opcode = count_of (opcode_counts tr) opcode.
Proof.
  cbn zeta. unfold first_pass, second_pass. induction lines as [|line lines IH] using rev_ind; [by split_and!|].
  rewrite !fold_left_app. cbn [fold_left]. set (tr := fold_left first_line lines _) in *. destruct (fold_left second_line lines _) as [[n a] b].
  unfold first_line, second_line. destruct (trace_line line) as [[tid [[opcode rest]|]]|]; [|exact IH..]. unfold count_call.
  destruct (is_reply rest); [by destruct (status_of rest)|]. cbn [total_calls opcode_counts]. destruct IH as (-> & Hs & Ha & Hc).
  case_decide; (split_and!; [done|rewrite sum_bump; lia|rewrite ?sum_bump; lia|]); intros k; specialize (Hc k); rewrite !count_bump; case_decide; lia.
Qed.

End Profile.

Module ProfileDemo.
Import Text Profile.
Local Notation lit := Registry.lit.

Definition LOG : list str := Eval vm_compute in
  map lit ["12 10:00:00.1 futex(0x1, FUTEX_WAIT) = 0"; "12 10:00:00.2 read(3, 0x2, 4) = 4"; "13 10:00:00.3 futex(0x1, FUTEX_WAKE) = 1"].
Lemma strace_counts_roundtrip_witness : parse_counts (lit "       2  futex" ++ [10] ++ lit "       1  read" ++ [10]) = syscall_counts (strace_summary LOG).
Proof.
  etransitivity; [|apply (strace_counts_roundtrip LOG); vm_compute; reflexivity]. f_equal.
Defined.

Definition TRACE : list str := Eval vm_compute in
  map lit ["0024: init_first_thread( unix_pid=7 )"; "0024: init_first_thread() = 0 { pid=0020 }"; "0024: *fd* 0004 -> 25"; "0028: select( flags=2 )"; "0028: select() = TIMEOUT { }"].
Example trace_counted : let tr := first_pass TRACE in
  (total_calls tr, total_errors tr, line_number tr, size (thread_ids tr), opcode_counts tr !! lit "select", error_counts tr !! lit "select" ≫= fun e => e !! lit "TIMEOUT") =
  (2, 1, 5, 2%nat, Some 1, Some 1).
Proof. vm_compute. reflexivity. Qed.

Example commas_grouped : format_with_commas 1234567 = lit "1,234,567".
Proof. vm_compute. reflexivity. Qed.

End ProfileDemo.
