(* ===== verification/Startup.v ===== *)
(** * The start and the end of the daemon
      ([src/rust/src/triskelion/main.rs] and [event_loop/mod.rs], [EventLoop::new],
      [apply_display_data] and [Drop])

    Where the socket is, the user's security identifier, the first contents of the
    event loop, and what the display data change in it.  Forking, signals and the
    panic log are left out; what [stat] says about the prefix, the descriptor of the
    session memory and whether it could be mapped are arguments. *)

From stdpp Require Import base list gmap strings.
From coqutil Require Import Datatypes.RecordSettersUsingExistingGetters.
From S2P Require Import Prelude Shm Objects SentMessages Text Display Registry RegFile RegInit Atoms Loop Session WinTree Windows Build Fs Environ Deploy.
Local Open Scope Z_scope.
Local Open Scope outcome_scope.

Module Prefix.
Import Text Fs Environ Deploy.
Local Notation lit := Registry.lit.
Local Notation "p / s" := (join p (lit s)).
Implicit Types (f : Fs) (env : Env).

(** ** The prefix *)
Definition wine_prefix env : outcome PathBuf :=
  match var env "WINEPREFIX" with
  | Some p => Ret p
  | None => match var env "HOME" with Some home => Ret (home ++ lit "/.wine") | None => Panic end
  end.
Definition hex (v : Z) : str := RegFile.hex_pad (RegFile.hex_width 15 v) v.

(** [stat] has the device and the inode of a path; without a path the daemon exits. *)
Definition resolve_socket_path env (uid : Z) (stat : PathBuf -> option (Z * Z)) f : outcome (Fs * option PathBuf) :=
  prefix <-! wine_prefix env ;;
  match stat prefix with
  | None => Panic
  | Some (dev, ino) =>
      let server_dir := join (lit "/tmp/.wine-" ++ decimal uid) (lit "server-" ++ hex dev ++ lit "-" ++ hex ino) in
      match create_dir_all server_dir f with (f, true) => Ret (f, Some (server_dir / "socket")) | (f, false) => Ret (f, None) end
  end.
Definition compute_prefix_hash env (stat : PathBuf -> option (Z * Z)) : outcome str :=
  prefix <-! wine_prefix env ;; match stat prefix with Some (dev, ino) => Ret (hex dev ++ hex ino) | None => Panic end.

(** ** The security identifier *)
Definition be_bytes (n : nat) (v : Z) : list Z := reverse (le_bytes n v).
Definition DASH : Z := 45.
Definition sid_string_to_bytes (sid : str) : option (list Z) :=
  match RegFile.split_char DASH sid [] with
  | s :: rev :: auth :: sub :: subs =>
      if decide (s = lit "S") then
        revision ← Build.parse_uint 8 rev;
        authority ← Build.parse_uint 64 auth;
        sub_authorities ← mapM (Build.parse_uint 32) (sub :: subs);
        Some ([revision; u8 (Z.of_nat (length sub_authorities))] ++ drop 2 (be_bytes 8 authority) ++ concat (map (le_bytes 4) sub_authorities))
      else None
  | _ => None
  end.
Definition FALLBACK_SID : str := Eval vm_compute in lit "S-1-5-21-0-0-0-1000".
(** The first of the leading lines with the mark. *)
Fixpoint first_sid (ls : list str) : option str :=
  match ls with [] => None | l :: ls => match RegFile.split_at_pat (lit "\\User\\") l with Some (_, s) => Some (RegFile.trim s) | None => first_sid ls end end.
Definition sid_of_file (content : str) : option str := first_sid (take 5 (RegFile.lines content)).
Definition parse_prefix_sid env f : outcome (str * list Z) :=
  prefix <-! wine_prefix env ;;
  match (content ← read_to_string (prefix / "user.reg") f; sid ← sid_of_file content; bytes ← sid_string_to_bytes sid; Some (sid, bytes)) with
  | Some r => Ret r
  | None => match sid_string_to_bytes FALLBACK_SID with Some bytes => Ret (FALLBACK_SID, bytes) | None => Panic end
  end.

(** *** An identifier is read as it is printed *)
Definition sid_text (revision authority : Z) (subs : list Z) : str := RegFile.join [DASH] (lit "S" :: map decimal (revision :: authority :: subs)).
Definition sid_binary (revision authority : Z) (subs : list Z) : list Z :=
  [revision; Z.of_nat (length subs)] ++ be_bytes 6 authority ++ concat (map (le_bytes 4) subs).

Lemma mapM_parse l : Forall (fun v => 0 <= v < 2 ^ 32) l -> mapM (Build.parse_uint 32) (map decimal l) = Some l.
Proof. intros Hl. apply mapM_Some. induction Hl as [|v l Hv _ IH]; constructor; [|done]. by apply decimal_parse. Qed.

Lemma be_bytes_low v : 0 <= v < 2 ^ 48 -> drop 2 (be_bytes 8 v) = be_bytes 6 v.
Proof.
  intros Hv. unfold be_bytes. replace (le_bytes 8 v) with (le_bytes 6 v ++ le_bytes 2 (v / 2 ^ 48)).
  - rewrite reverse_app, drop_app_length'; [done|]. by rewrite length_reverse, length_le_bytes.
  - cbn [le_bytes app]. rewrite !Z.div_div by lia. reflexivity.
Qed.

Lemma sid_roundtrip revision authority subs : 0 <= revision < 2 ^ 8 -> 0 <= authority < 2 ^ 48 -> subs <> [] -> (length subs < 256)%nat ->
  Forall (fun v => 0 <= v < 2 ^ 32) subs -> sid_string_to_bytes (sid_text revision authority subs) = Some (sid_binary revision authority subs).
Proof.
  intros Hr Ha Hne Hlen Hs. unfold sid_string_to_bytes, sid_text. rewrite RegFile.split_char_join; [|done|].
  - destruct subs as [|v subs]; [done|]. cbn [map]. rewrite decide_True by done. rewrite !decimal_parse by lia. cbn [mbind option_bind].
    change (decimal v :: map decimal subs) with (map decimal (v :: subs)). rewrite mapM_parse by done. cbn [mbind option_bind].
    rewrite be_bytes_low by done. unfold sid_binary. do 3 f_equal. unfold u8, wrap. rewrite Z.mod_small; [done|]. lia.
  - apply Forall_cons. split; [apply (bool_decide_eq_true_1 (~ _)); vm_compute; reflexivity|]. apply Forall_map, Forall_forall. intros v Hv Hin.
    assert (0 <= v) as Hv0 by (rewrite Forall_forall in Hs; apply elem_of_cons in Hv as [->|[->|Hv]%elem_of_cons]; [lia|lia|apply Hs in Hv; lia]).
    apply decimal_digits in Hv0 as [Hd _]. rewrite Forall_forall in Hd. apply Hd in Hin. unfold is_digit, DASH in Hin. lia.
Qed.

End Prefix.

Module Startup.
Import Text Registry RegInit Ntsync Ipc Loop Memory Session WinTree Windows.
Local Notation lit := Registry.lit.

Section startup.
Context {K : Type} `{Ntsync K}.
Implicit Types (ev : EventLoop K).

(** ** [EventLoop::new] *)
Definition SESSION_SIZE : Z := 32 * 32744 + 4 * 1024 * 1024.
Definition DESKTOP_OFFSET : Z := 32 * 32744.
Definition DESKTOP_ID : Z := 0x100.
Definition default_resolution : Z * Z := (1920, 1080).

(** The desktop's object in the session memory. *)
Definition desktop_object (m : mem) : mem :=
  let shm := DESKTOP_OFFSET + 16 in
  let m := write32 shm 0 (write64 (DESKTOP_OFFSET + 8) DESKTOP_ID (write64 DESKTOP_OFFSET 0 m)) in
  write64 (shm + 288) 1 (write32 (shm + 28) (snd default_resolution) (write32 (shm + 24) (fst default_resolution) m)).
Definition create_session (fd : Z) (mapped : bool) ev : EventLoop K :=
  let ev := ev <| session_fd := fd |> <| session_size := SESSION_SIZE |> <| session_mapped := bool_decide (0 <= fd) && mapped |> in
  if decide (0 <= fd) then
    let '(ev, oid) := alloc_object_id ev in
    let ev := on_user (fun u => u <| named_objects ::= <[lit "__wine_session" := (oid, fd)]> |>
      <| mappings ::= <[oid := ServerState.mkMappingInfo fd SESSION_SIZE 0x800000 None None None]> |>) ev in
    if mapped then ev <| session ::= desktop_object |> else ev
  else ev.

Definition create_winstation ev : EventLoop K :=
  let '(ev, oid) := alloc_object_id ev in
  on_user (fun u => u <| winstation_names ::= <[u32 oid := utf16le (lit "WinSta0")]> |> <| default_winstation_handle := u32 oid |>) ev.

Definition new_atom (name : str) ev : EventLoop K * Z :=
  let t := atom_table (user_state ev) in
  let atom := Atoms.next_atom t in
  (on_user (fun u => u <| atom_table := Atoms.mkAtoms (<[atom := (utf16le name, 1)]> (Atoms.atoms t))
     (<[encode_utf16 name := atom]> (Atoms.atom_names t)) (u32 (atom + 1)) |>) ev, atom).
Definition GUID_PROPERTY : str := Eval vm_compute in lit "__wine_display_device_guid".
Definition NULL_GUID : str := Eval vm_compute in lit "00000000-0000-0000-0000-000000000000".
Definition display_property ev : EventLoop K :=
  let '(ev, guid_atom) := new_atom NULL_GUID ev in
  let '(ev, prop_atom) := new_atom GUID_PROPERTY ev in
  ev <| window_properties ::= <[(desktop_top_window ev, prop_atom) := guid_atom]> |>.

Definition make_ready ev : EventLoop K := (on_user (fun u => u <| desktop_ready := true |>) ev) <| shm ::= Shm.set_desktop_ready |>.

(** The duplicate stays open, the original is dropped. *)
Definition named_mutex (name : string) ev : EventLoop K :=
  if ntsync ev then
    let '(ev, o) := on_kernel (create_mutex 0 0) ev in
    match o with
    | Some obj =>
        let '(ev, d) := on_kernel (dup_fd obj) ev in
        let ev := if decide (0 <= d) then ev <| named_sync ::= <[lit name := (d, 3)]> |> else ev in
        ev <| kernel ::= close_fd obj |>
    | None => ev
    end
  else ev.
Definition seed_profiles (ps : list (Z * SentMessages.MsgProfile)) ev : EventLoop K := if decide (ps = []) then ev else ev <| sent_messages ::= fun s => SentMessages.load_profiles s ps |>.

Definition new_event_loop (dev : bool) (k : K) (sm : Shm.ShmManager) (reg : Registry) (sid : list Z) (fd : Z) (mapped : bool) (ps : list (Z * SentMessages.MsgProfile)) : outcome (EventLoop K) :=
  let ev := (empty_loop dev k sm) <| registry := reg |> <| user_state := user_new sid (fst default_resolution) (snd default_resolution) |> in
  let ev := create_winstation (create_session fd mapped ev) in
  ev <-! precreate_desktop (fst default_resolution) (snd default_resolution) ev ;;
  let ev := make_ready (display_property ev) in
  let ev := named_mutex "__wine_font_mutex__" (named_mutex "display_device_init" ev) in
  Ret (seed_profiles ps ev).

(** ** The display data *)
Definition set_rects (rect : list Z) (w : WindowState) : WindowState := w <| window_rect := rect |> <| client_rect := rect |> <| visible_rect := rect |> <| surface_rect := rect |>.
Definition resize_desktop (w h : Z) ev : EventLoop K := on_window (desktop_top_window ev) (set_rects (desktop_rect w h)) ev.
Definition name_guid (guid : str) ev : EventLoop K :=
  let '(ev, guid_atom) := new_atom guid ev in
  match Atoms.atom_names (atom_table (user_state ev)) !! encode_utf16 GUID_PROPERTY with
  | Some prop_atom => ev <| window_properties ::= <[(desktop_top_window ev, prop_atom) := guid_atom]> |>
  | None => ev
  end.
Definition write_display (dd : Display.DisplayData) (guid : str) ev : EventLoop K :=
  ev <| registry ::= fun r => with_root (apply_display_registry dd (Registry.user_sid r) (update_display_guid guid (lit (Display.display_driver dd).2) (root r))) r |>.
Definition apply_display_data (dd : Display.DisplayData) ev : EventLoop K :=
  let '(w, h) := Display.primary_resolution dd in
  let guid := gpu_guid (Display.gpu dd) in
  write_display dd guid (name_guid guid (resize_desktop w h ev)).

(** ** The end *)

(** The processes that are killed, and the descriptors that are closed. *)
Definition shutdown ev : EventLoop K * list Z :=
  let pids := remove_dups (filter (fun p => 0 < p) (unix_pid ∘ snd <$> map_to_list (clients ev))) in
  (ev <| kernel ::= fun k => fold_left (fun k nf => close_fd nf.2.1 k) (map_to_list (named_sync ev)) k |>, pids).
End startup.

(** ** The driver in the registry *)
Lemma split_nonempty_one s acc : BACKSLASH ∉ s -> split_nonempty BACKSLASH s acc = match reverse acc ++ s with [] => [] | x => [x] end.
Proof.
  revert acc; induction s as [|c s IH]; intros acc Hs.
  - cbn [split_nonempty]. rewrite app_nil_r. destruct acc as [|x acc]; [done|]. rewrite reverse_cons. by destruct (reverse acc ++ [x]) eqn:He; [destruct (reverse acc)|].
  - rewrite not_elem_of_cons in Hs. destruct Hs as [Hc Hs]. cbn [split_nonempty]. rewrite decide_False by done. rewrite IH by done.
    by rewrite reverse_cons, <- app_assoc.
Qed.
Lemma segs_one s : BACKSLASH ∉ s -> s <> [] -> segs s = [reg_name s].
Proof. intros Hs Hn. unfold segs. rewrite split_nonempty_one by done. by destruct s. Qed.

Definition VIDEO : list RegName := Eval vm_compute in segs (lit "Registry\Machine\System\ControlSet001\Control\Video").
Definition guid_name (guid : str) : RegName := reg_name (lit "{" ++ guid ++ lit "}").
Definition driver_key (guid : str) : list RegName := VIDEO ++ [guid_name guid; reg_name (lit "0000")].

Lemma segs_below_video guid t : BACKSLASH ∉ guid ->
  segs (lit "Registry\Machine\System\ControlSet001\Control\Video\{" ++ guid ++ lit "}" ++ BACKSLASH :: t) = VIDEO ++ guid_name guid :: segs t.
Proof.
  intros Hg. change (lit "Registry\Machine\System\ControlSet001\Control\Video\{") with (lit "Registry\Machine\System\ControlSet001\Control\Video" ++ BACKSLASH :: lit "{").
  rewrite <- app_assoc. cbn [app]. rewrite segs_app. f_equal. rewrite !app_assoc, segs_app, segs_one; [by rewrite <- app_assoc| |done].
  rewrite !not_elem_of_app. split; [split; [|done]|]; apply (bool_decide_eq_true_1 (~ _)); vm_compute; reflexivity.
Qed.

Lemma value_at_update f k p x : value_at (update_at f k p) p x = snd <$> values (f (reach k p)) !! x.
Proof. unfold value_at. by rewrite node_at_update. Qed.

Lemma value_at_apart f k P c a p b q x : lower a <> lower b -> P = c ++ a :: p -> value_at (update_at f k P) (c ++ b :: q) x = value_at k (c ++ b :: q) x.
Proof. intros Hab ->. unfold value_at. by rewrite node_at_update_div. Qed.

(** An update of a key whose path leaves that of the drivers at [a]. *)
Lemma value_at_beside (pre : string) t f k c a p b q q' x : lower a <> lower b -> segs (lit pre) = c ++ a :: p -> VIDEO = c ++ b :: q ->
  value_at (at_path (lit pre ++ BACKSLASH :: t) f k) (VIDEO ++ q') x = value_at k (VIDEO ++ q') x.
Proof.
  intros Hab Hp ->. unfold at_path. rewrite segs_app, Hp, <- !app_assoc. cbn [app]. by eapply value_at_apart.
Qed.

Section driver.
Context (guid : str) (Hguid : BACKSLASH ∉ guid).
Local Notation DRIVER := (lower (reg_name (lit "GraphicsDriver"))).

Lemma guid_key f k s : segs s = driver_key guid -> value_at (at_path s f k) (driver_key guid) DRIVER = snd <$> values (f (reach k (driver_key guid))) !! DRIVER.
Proof. intros Hs. unfold at_path. rewrite Hs. apply value_at_update. Qed.

Lemma enum_beside (t : str) f k : value_at (at_path (lit "Registry\Machine\System\ControlSet001\Enum" ++ BACKSLASH :: t) f k) (driver_key guid) DRIVER = value_at k (driver_key guid) DRIVER.
Proof.
  apply (value_at_beside "Registry\Machine\System\ControlSet001\Enum" t f k (take 4 VIDEO) (reg_name (lit "Enum")) [] (reg_name (lit "Control")) (drop 5 VIDEO));
    vm_compute; [discriminate|reflexivity|reflexivity].
Qed.
Lemma class_beside (t : str) f k : value_at (at_path (lit "Registry\Machine\System\ControlSet001\Control\Class" ++ BACKSLASH :: t) f k) (driver_key guid) DRIVER = value_at k (driver_key guid) DRIVER.
Proof.
  apply (value_at_beside "Registry\Machine\System\ControlSet001\Control\Class" t f k (take 5 VIDEO) (reg_name (lit "Class")) [] (reg_name (lit "Video")) []);
    vm_compute; [discriminate|reflexivity|reflexivity].
Qed.
Lemma hardware_beside (t : str) f k : value_at (at_path (lit "Registry\Machine\Hardware" ++ BACKSLASH :: t) f k) (driver_key guid) DRIVER = value_at k (driver_key guid) DRIVER.
Proof.
  apply (value_at_beside "Registry\Machine\Hardware" t f k (take 2 VIDEO) (reg_name (lit "Hardware")) [] (reg_name (lit "System")) (drop 3 VIDEO));
    vm_compute; [discriminate|reflexivity|reflexivity].
Qed.
Lemma current_beside (t : str) f k : value_at (at_path (lit "Registry\Machine\System\CurrentControlSet" ++ BACKSLASH :: t) f k) (driver_key guid) DRIVER = value_at k (driver_key guid) DRIVER.
Proof.
  apply (value_at_beside "Registry\Machine\System\CurrentControlSet" t f k (take 3 VIDEO) (reg_name (lit "CurrentControlSet")) [] (reg_name (lit "ControlSet001")) (drop 4 VIDEO));
    vm_compute; [discriminate|reflexivity|reflexivity].
Qed.
Lemma user_beside (t : str) f k : value_at (at_path (lit "Registry\User" ++ BACKSLASH :: t) f k) (driver_key guid) DRIVER = value_at k (driver_key guid) DRIVER.
Proof.
  apply (value_at_beside "Registry\User" t f k (take 1 VIDEO) (reg_name (lit "User")) [] (reg_name (lit "Machine")) (drop 2 VIDEO));
    vm_compute; [discriminate|reflexivity|reflexivity].
Qed.
Lemma source_beside name f k : value_at (at_path (source_path guid name) f k) (driver_key guid) DRIVER = value_at k (driver_key guid) DRIVER.
Proof.
  unfold at_path, source_path. change (lit "}\Sources\" ++ name) with (lit "}" ++ BACKSLASH :: (lit "Sources" ++ BACKSLASH :: name)).
  rewrite segs_below_video by done. rewrite segs_app. unfold driver_key.
  rewrite !cons_middle, !app_assoc. apply (value_at_apart f k _ (VIDEO ++ [guid_name guid]) (reg_name (lit "Sources")) (segs name) (reg_name (lit "0000")) []).
  - vm_compute. discriminate.
  - reflexivity.
Qed.

Lemma connector_beside g i c k : gpu_guid g = guid -> value_at (apply_connector g i c k) (driver_key guid) DRIVER = value_at k (driver_key guid) DRIVER.
Proof.
  intros Hg. unfold apply_connector. cbv zeta. rewrite Hg.
  match goal with |- value_at (if decide _ then at_path _ _ ?k' else _) _ _ = _ => set (k1 := k') end.
  transitivity (value_at k1 (driver_key guid) DRIVER); [case_decide; [apply hardware_beside|done]|]. unfold k1.
  etransitivity; [apply enum_beside|]. etransitivity; [apply current_beside|]. apply source_beside.
Qed.
Lemma connectors_beside g l k : gpu_guid g = guid ->
  value_at (fold_left (fun k '(i, c) => apply_connector g i c k) l k) (driver_key guid) DRIVER = value_at k (driver_key guid) DRIVER.
Proof. intros Hg. revert k; induction l as [|[i c] l IH]; intros k; [done|]. cbn [fold_left]. rewrite IH. by apply connector_beside. Qed.

Lemma list_value_lookup n v k : snd <$> values (list_value n v k) !! lower n = Some v.
Proof. unfold list_value, put_value, push_value, map_put. case_decide; cbn [values]; by rewrite lookup_insert_eq. Qed.

Lemma null_driver_key s : s = lit NULL_GUID_VIDEO -> segs s = driver_key NULL_GUID.
Proof. intros ->. vm_compute. reflexivity. Qed.

(** The driver of the card, unless the card has the null identifier: then the
    driver that is written there anyway. *)
Lemma display_driver_written sid short dll k : value_at k (driver_key guid) DRIVER = Some (sz dll) ->
  value_at (apply_display_driver sid short dll k) (driver_key guid) DRIVER = Some (sz dll).
Proof.
  intros Hk. unfold apply_display_driver. cbv zeta. set (k1 := at_path _ _ k).
  assert (value_at k1 (driver_key guid) DRIVER = Some (sz dll)) as Hk1 by (etransitivity; [apply user_beside|exact Hk]). clearbody k1.
  unfold at_path. rewrite (null_driver_key _ eq_refl). destruct (decide (lower (guid_name NULL_GUID) = lower (guid_name guid))) as [He|He].
  - unfold value_at. rewrite (node_at_lower _ _ (driver_key NULL_GUID)) by (unfold driver_key; rewrite !map_app; cbn [map]; by rewrite He).
    rewrite node_at_update. cbn [mbind option_bind]. apply list_value_lookup.
  - etransitivity; [|exact Hk1]. unfold driver_key at 1 2. eapply value_at_apart; [exact He|reflexivity].
Qed.

Lemma driver_written dd sid k : gpu_guid (Display.gpu dd) = guid -> let dll := lit (Display.display_driver dd).2 in
  value_at (apply_display_registry dd sid (update_display_guid guid dll k)) (driver_key guid) DRIVER = Some (sz dll).
Proof.
  intros Hg dll. unfold apply_display_registry. cbv zeta. destruct (Display.display_driver dd) as [short d]. cbn [snd] in dll. apply display_driver_written.
  rewrite connectors_beside by done. etransitivity; [apply class_beside|]. etransitivity; [apply enum_beside|]. unfold update_display_guid. cbv zeta.
  etransitivity; [apply hardware_beside|]. rewrite guid_key.
  - rewrite insert_value_lookup. by rewrite decide_True.
  - apply (segs_below_video guid (lit "0000") Hguid).
Qed.
End driver.

Lemma guid_plain g : BACKSLASH ∉ gpu_guid g /\ exists c t, gpu_guid g = c :: t /\ RegFile.is_hex c.
Proof.
  unfold gpu_guid, fmt_x. set (w := (4 `max` RegFile.hex_width 7 (Display.g_pci_vendor g))%nat).
  assert (forall n v, BACKSLASH ∉ RegFile.hex_pad n v) as Hno.
  { intros n v Hin. pose proof (RegFile.hex_pad_hex n v) as Hh. rewrite Forall_forall in Hh. apply Hh, RegFile.hex_not_special in Hin. tauto. }
  split.
  - rewrite !not_elem_of_app. split; [apply Hno|split; [apply Hno|]]. apply (bool_decide_eq_true_1 (~ _)). vm_compute. reflexivity.
  - pose proof (RegFile.hex_pad_hex w (Display.g_pci_vendor g)) as Hh. destruct w as [|n] eqn:Hw; [lia|].
    destruct (RegFile.hex_pad (S n) _) as [|c t] eqn:He; [by apply app_eq_nil in He as [_ ?]|]. apply Forall_cons in Hh as [Hc _]. by eexists c, _.
Qed.

Section applied.
Context {K : Type} `{Ntsync K}.
Implicit Types (ev : EventLoop K).

(** What the display data rely on: the windows, the desktop among them, and the
    atom of the property. *)
Record prepared ev : Prop := {
  p_tree : tree_ok ev;
  p_desktop : is_Some (window_states ev !! desktop_top_window ev);
  p_atom : is_Some (Atoms.atom_names (atom_table (user_state ev)) !! encode_utf16 GUID_PROPERTY);
}.

Lemma prepared_view ev ev' : wview ev' = wview ev -> atom_table (user_state ev') = atom_table (user_state ev) -> prepared ev -> prepared ev'.
Proof.
  intros Hv Hu [Ht Hd Ha]. split; [by apply (tree_ok_view ev)| |by rewrite Hu]. unfold wview in Hv. injection Hv as -> _ _ -> _. done.
Qed.

Lemma named_mutex_prepared name ev : prepared ev -> prepared (named_mutex name ev).
Proof.
  apply prepared_view; unfold named_mutex, on_kernel; destruct (ntsync ev); [|done| |done]; destruct (create_mutex 0 0 (kernel ev)) as [k [obj|]]; [|done| |done];
    destruct (dup_fd obj _) as [k' d]; by case_decide.
Qed.

Lemma display_property_prepared ev : tree_ok ev -> is_Some (window_states ev !! desktop_top_window ev) -> prepared (display_property ev).
Proof.
  intros Ht Hd. split; [by apply (tree_ok_view ev)|done|]. cbn. rewrite lookup_insert_eq. eauto.
Qed.

Lemma new_event_loop_prepared dev k sm reg sid fd mapped ps ev : new_event_loop dev k sm reg sid fd mapped ps = Ret ev -> prepared ev.
Proof.
  unfold new_event_loop. cbv zeta. set (ev0 := create_winstation _). assert (no_windows ev0) as Hno.
  { unfold ev0, create_winstation, create_session. case_decide; [by destruct mapped|done]. }
  destruct (precreate_desktop _ _ ev0) as [ev1| |] eqn:Hp; [|done..]. destruct (tree_ok_start _ _ _ _ Hno Hp) as [Ht Hd]. cbn [obind]. intros [= <-].
  set (ev2 := named_mutex _ _). assert (prepared ev2) as Hp2.
  { do 2 apply named_mutex_prepared. apply (prepared_view (display_property ev1)); [done|done|by apply display_property_prepared]. }
  clearbody ev2. unfold seed_profiles. case_decide; [done|]. by apply (prepared_view ev2).
Qed.

Lemma guid_not_property g : encode_utf16 (gpu_guid g) <> encode_utf16 GUID_PROPERTY.
Proof.
  destruct (guid_plain g) as [_ (c & t & -> & Hx)]. intros He. apply (f_equal head) in He. unfold RegFile.is_hex in Hx.
  unfold encode_utf16 in He. cbn [map concat] in He. unfold encode_char in He at 1. rewrite decide_True in He by lia. injection He as ->. lia.
Qed.

Lemma name_guid_spec guid ev prop : encode_utf16 guid <> encode_utf16 GUID_PROPERTY -> Atoms.atom_names (atom_table (user_state ev)) !! encode_utf16 GUID_PROPERTY = Some prop ->
  exists ev' atom, name_guid guid ev = ev' /\ Atoms.atom_names (atom_table (user_state ev')) !! encode_utf16 GUID_PROPERTY = Some prop /\
    window_properties ev' !! (desktop_top_window ev, prop) = Some atom /\ Atoms.atoms (atom_table (user_state ev')) !! atom = Some (utf16le guid, 1) /\ wview ev' = wview ev /\ registry ev' = registry ev.
Proof.
  intros Hne Hp. eexists _, (Atoms.next_atom (atom_table (user_state ev))). split; [reflexivity|]. unfold name_guid, new_atom. cbv beta iota zeta.
  generalize dependent (encode_utf16 guid). generalize (utf16le guid). generalize dependent (encode_utf16 GUID_PROPERTY). intros pn Hp bs gn Hne.
  unfold on_user. recs. rewrite lookup_insert_ne by done. rewrite Hp. recs. by rewrite lookup_insert_ne, !lookup_insert_eq by done.
Qed.

Lemma write_display_root dd guid ev : BACKSLASH ∉ guid -> gpu_guid (Display.gpu dd) = guid ->
  value_at (root (registry (write_display dd guid ev))) (driver_key guid) (lower (reg_name (lit "GraphicsDriver"))) = Some (sz (lit (Display.display_driver dd).2)).
Proof. intros Hb Hg. exact (driver_written guid Hb dd _ _ Hg). Qed.

(** C19: the desktop names the driver of the card.  After the daemon has started and
    applied the display data, the property of the desktop window that Wine looks
    up is an atom whose text is the identifier of the graphics card; the registry
    key of that identifier has the driver chosen for the session; the desktop has
    the size of the first screen; and the windows are still a forest. *)
Theorem desktop_names_driver dev k sm reg sid fd mapped ps ev dd : new_event_loop dev k sm reg sid fd mapped ps = Ret ev ->
  let ev' := apply_display_data dd ev in
  let guid := gpu_guid (Display.gpu dd) in
  let '(w, h) := Display.primary_resolution dd in
  (exists prop atom, Atoms.atom_names (atom_table (user_state ev')) !! encode_utf16 GUID_PROPERTY = Some prop /\
     window_properties ev' !! (desktop_top_window ev', prop) = Some atom /\ Atoms.atoms (atom_table (user_state ev')) !! atom = Some (utf16le guid, 1)) /\
  value_at (root (registry ev')) (driver_key guid) (lower (reg_name (lit "GraphicsDriver"))) = Some (sz (lit (Display.display_driver dd).2)) /\
  (exists ws, window_states ev' !! desktop_top_window ev' = Some ws /\ window_rect ws = desktop_rect w h /\ client_rect ws = desktop_rect w h) /\
  tree_ok ev'.
Proof.
  intros Hnew. apply new_event_loop_prepared in Hnew as [Ht [ws Hd] [prop Ha]]. cbv zeta. destruct (guid_plain (Display.gpu dd)) as [Hg _].
  pose proof (guid_not_property (Display.gpu dd)) as Hne. unfold apply_display_data. destruct (Display.primary_resolution dd) as [w h]. cbv zeta.
  set (ev1 := resize_desktop w h ev). assert (tree_ok ev1) as Ht1 by (by apply tree_ok_window).
  assert (window_states ev1 !! desktop_top_window ev1 = Some (set_rects (desktop_rect w h) ws)) as Hd1.
  { transitivity (alter (set_rects (desktop_rect w h)) (desktop_top_window ev) (window_states ev) !! desktop_top_window ev); [reflexivity|]. by rewrite lookup_alter_eq, Hd. }
  assert (Atoms.atom_names (atom_table (user_state ev1)) !! encode_utf16 GUID_PROPERTY = Some prop) as Ha1 by exact Ha. clearbody ev1.
  destruct (name_guid_spec _ ev1 prop Hne Ha1) as (ev2 & atom & -> & Hn & Hw & Hat & Hv & _).
  pose proof (write_display_root dd _ ev2 Hg eq_refl) as Hr. set (ev3 := write_display dd _ ev2) in *.
  assert (wview ev3 = wview ev2 /\ user_state ev3 = user_state ev2 /\ window_properties ev3 = window_properties ev2) as (Hv3 & -> & ->) by done. clearbody ev3.
  rewrite Hv in Hv3. pose proof (tree_ok_view _ _ Hv3 Ht1) as Ht3. unfold wview in Hv3. injection Hv3 as -> _ _ -> _.
  split_and!; [by exists prop, atom|done|by eexists|done].
Qed.
End applied.

End Startup.

Module StartupDemo.
Import Text Registry RegInit Ntsync ModelKernel Ipc Loop LoopDemo Memory Session WinTree Windows Prefix Startup.
Local Notation lit := Registry.lit.

Local Notation start := (new_event_loop (K := MK) true boot Shm.demo_shm (with_tree demo_root) [] 3 true []).
Definition started : EventLoop MK := match start with Ret ev => ev | _ => demo_loop end.
Definition starts : bool := match start with Ret _ => true | _ => false end.
Lemma start_returns : start = Ret started.
Proof. assert (starts = true) as Hs by (vm_compute; reflexivity). revert Hs. unfold starts, started. by destruct start. Qed.

Definition CARD : str := Eval vm_compute in lit "10de2482-0000-0000-0000-000000000000".
Definition DRIVER : str := Eval vm_compute in lit "winex11.drv".
Lemma desktop_names_driver_witness :
  value_at (root (registry (apply_display_data demo_display started))) (driver_key CARD) (lower (reg_name (lit "GraphicsDriver"))) = Some (sz DRIVER) /\
  tree_ok (apply_display_data demo_display started).
Proof.
  assert (gpu_guid (Display.gpu demo_display) = CARD) as Hg by (vm_compute; reflexivity).
  assert (lit (Display.display_driver demo_display).2 = DRIVER) as Hd by (vm_compute; reflexivity).
  pose proof (desktop_names_driver true boot Shm.demo_shm (with_tree demo_root) [] 3 true [] started demo_display start_returns) as Hall.
  cbv zeta in Hall. destruct (Display.primary_resolution demo_display) as [w h]. destruct Hall as (_ & Hr & _ & Ht). rewrite Hg, Hd in Hr. exact (conj Hr Ht).
Defined.

(** ** Where the code departs from what it means to do *)

(** Wine's own file names the user; the one the daemon saves does not, so that
    the next start falls back to the default identifier. *)
Definition USER_SID : str := Eval vm_compute in lit "S-1-5-21-1-2-3-1001".
Definition wine_file : str := Eval vm_compute in lit "WINE REGISTRY Version 2" ++ [10] ++ lit ";; All keys relative to \\User\\S-1-5-21-1-2-3-1001" ++ [10].
Definition saved_file : option str :=
  RegFile.save_file 20 (at_path (lit "Registry\User\" ++ USER_SID ++ lit "\Software") (fun n => n) key_new) (lit "Registry\User\" ++ USER_SID).
Theorem saved_sid_lost : sid_of_file wine_file = Some USER_SID /\ (sid_of_file <$> saved_file) = Some None.
Proof. vm_compute. split; reflexivity. Qed.

(** The name of the shared memory is the device and the inode without a
    separator: two prefixes can share one. *)
Theorem prefix_hash_collides : compute_prefix_hash {[lit "WINEPREFIX" := lit "/a"]} (fun _ => Some (0x1, 0x23)) = compute_prefix_hash {[lit "WINEPREFIX" := lit "/b"]} (fun _ => Some (0x12, 0x3)).
Proof. vm_compute. reflexivity. Qed.

End StartupDemo.
