(* ===== verification/ComClasses.v ===== *)
(** * The COM classes ([src/rust/src/triskelion/com_classes.rs])

    The table the daemon registers at its start: the identifier of a class, the
    library that implements it and its threading model; and that each of them can
    be read back. *)

From stdpp Require Import base list gmap strings.
From S2P Require Import Prelude Text Registry RegInit Startup.
Local Open Scope Z_scope.

Module ComClasses.
Import Text Registry RegInit Startup.
Local Notation lit := Registry.lit.

Definition COM_CLASSES : list (string * string * string) :=
  [("{0000002f-0000-0000-c000-000000000046}", "C:\windows\system32\oleaut32.dll", "Both");
   ("{00000300-0000-0000-c000-000000000046}", "C:\windows\system32\ole32.dll", "Both");
   ("{00000301-a8f2-4877-ba0a-fd2b6645fb94}", "C:\windows\system32\windowscodecs.dll", "Both");
   ("{00000303-0000-0000-c000-000000000046}", "C:\windows\system32\ole32.dll", "Both");
   ("{00000304-0000-0000-c000-000000000046}", "C:\windows\system32\ole32.dll", "Both");
   ("{00000305-0000-0000-c000-000000000046}", "C:\windows\system32\ole32.dll", "Both");
   ("{00000306-0000-0000-c000-000000000046}", "C:\windows\system32\ole32.dll", "Both");
   ("{00000308-0000-0000-c000-000000000046}", "C:\windows\system32\ole32.dll", "Both");
   ("{00000309-0000-0000-c000-000000000046}", "C:\windows\system32\ole32.dll", "Both");
   ("{0000030b-0000-0000-c000-000000000046}", "C:\windows\system32\ole32.dll", "Both");
   ("{00000315-0000-0000-c000-000000000046}", "C:\windows\system32\ole32.dll", "Both");
   ("{00000316-0000-0000-c000-000000000046}", "C:\windows\system32\ole32.dll", "Both");
   ("{0000031a-0000-0000-c000-000000000046}", "C:\windows\system32\ole32.dll", "Both");
   ("{00000320-0000-0000-c000-000000000046}", "C:\windows\system32\ole32.dll", "Both");
   ("{00000327-0000-0000-c000-000000000046}", "C:\windows\system32\ole32.dll", "Both");
   ("{00020000-0000-0000-c000-000000000046}", "C:\windows\system32\avifil32.dll", "Both");
   ("{00020001-0000-0000-c000-000000000046}", "C:\windows\system32\avifil32.dll", "Both");
   ("{00020003-0000-0000-c000-000000000046}", "C:\windows\system32\avifil32.dll", "Both");
   ("{0002000d-0000-0000-c000-000000000046}", "C:\windows\system32\avifil32.dll", "Both");
   ("{0002000f-0000-0000-c000-000000000046}", "C:\windows\system32\avifil32.dll", "Both");
   ("{00020420-0000-0000-c000-000000000046}", "C:\windows\system32\oleaut32.dll", "Both");
   ("{00020421-0000-0000-c000-000000000046}", "C:\windows\system32\oleaut32.dll", "Both");
   ("{00020422-0000-0000-c000-000000000046}", "C:\windows\system32\oleaut32.dll", "Both");
   ("{00020423-0000-0000-c000-000000000046}", "C:\windows\system32\oleaut32.dll", "Both");
   ("{00020424-0000-0000-c000-000000000046}", "C:\windows\system32\oleaut32.dll", "Both");
   ("{00020425-0000-0000-c000-000000000046}", "C:\windows\system32\oleaut32.dll", "Both");
   ("{00021400-0000-0000-c000-000000000046}", "C:\windows\system32\shell32.dll", "Apartment");
   ("{00021401-0000-0000-c000-000000000046}", "C:\windows\system32\shell32.dll", "Both");
   ("{0002e005-0000-0000-c000-000000000046}", "C:\windows\system32\ole32.dll", "Both");
   ("{000c103e-0000-0000-c000-000000000046}", "C:\windows\system32\msi.dll", "Both");
   ("{000c1090-0000-0000-c000-000000000046}", "C:\windows\system32\msi.dll", "Apartment");
   ("{000c1094-0000-0000-c000-000000000046}", "C:\windows\system32\msi.dll", "Apartment");
   ("{00bb2763-6a77-11d0-a535-00c04fd7d062}", "C:\windows\system32\shell32.dll", "Apartment");
   ("{00bb2765-6a77-11d0-a535-00c04fd7d062}", "C:\windows\system32\browseui.dll", "Apartment");
   ("{0131be10-2001-4c5f-a9b0-cc88fab64ce8}", "C:\windows\system32\windowscodecs.dll", "Both");
   ("{01c20f2b-3dd2-400f-949f-ad00bdab1d41}", "C:\windows\system32\ia2comproxy.dll", "Both");
   ("{01f36ce2-0907-4d8b-979d-f151be91c883}", "C:\windows\system32\msvdsp.dll", "Both");
   ("{03022430-abc4-11d0-bde2-00aa001a1953}", "C:\windows\system32\oleacc.dll", "Both");
   ("{03219e78-5bc3-44d1-b92e-f63d89cc6526}", "C:\windows\system32\xaudio2_4.dll", "Both");
   ("{03c036f1-a186-11d0-824a-00aa005b4383}", "C:\windows\system32\browseui.dll", "Apartment");
   ("{05300401-bcbc-11d0-85e3-00c04fd85ab4}", "C:\windows\system32\inetcomm.dll", "Both");
   ("{05f6fe1a-ecef-11d0-aae7-00c04fc9b304}", "C:\windows\system32\mshtml.dll", "Apartment");
   ("{060af76c-68dd-11d0-8fc1-00c04fd9189d}", "C:\windows\system32\quartz.dll", "Both");
   ("{06290bd5-48aa-11d2-8432-006008c3fbfc}", "C:\windows\system32\scrobj.dll", "Apartment");
   ("{074b110f-7f58-4743-aea5-12f15b5074ed}", "C:\windows\system32\xactengine3_5.dll", "Both");
   ("{079aa557-4a18-424a-8eee-e39f0a8d41b9}", "C:\windows\system32\msxml3.dll", "Both");
   ("{080d0d78-f421-11d0-a36e-00c04fb950dc}", "C:\windows\system32\activeds.dll", "Both");
   ("{083863f1-70de-11d0-bd40-00a0c911ce86}", "C:\windows\system32\devenum.dll", "Both");
   ("{08fed191-be19-11d3-a28b-00104bd35090}", "C:\windows\system32\wshom.ocx", "Apartment");
   ("{093ff999-1ea0-4079-9525-9614c3504b74}", "C:\windows\system32\wshom.ocx", "Apartment");
   ("{0977d092-2d95-4e43-8d42-9ddcc2545ed5}", "C:\windows\system32\xactengine3_4.dll", "Both");
   ("{0aa000aa-f404-11d9-bd7a-0010dc4f8f81}", "C:\windows\system32\xactengine2_0.dll", "Both");
   ("{0afaced1-e828-11d1-9187-b532f1e9575d}", "C:\windows\system32\shell32.dll", "Apartment");
   ("{0be35203-8f91-11ce-9de3-00aa004bb851}", "C:\windows\system32\oleaut32.dll", "Both");
   ("{0be35204-8f91-11ce-9de3-00aa004bb851}", "C:\windows\system32\oleaut32.dll", "Apartment");
   ("{0ca545c6-37ad-4a6c-bf92-9f7610067ef5}", "C:\windows\system32\hnetcfg.dll", "Both");
   ("{0d43fe01-f093-11cf-8940-00a0c9054228}", "C:\windows\system32\scrrun.dll", "Both");
   ("{0df2c7ec-3435-11d0-81d0-00c04fd85ab4}", "C:\windows\system32\inetcomm.dll", "Both");
   ("{0e59f1d5-1fbe-11d0-8ff2-00a0d10038bc}", "C:\windows\system32\msscript.ocx", "Apartment");
   ("{0f0f094b-b01c-4091-a14d-dd0cd807711a}", "C:\windows\system32\dpvoice.dll", "Both");
   ("{0f7434b6-59b6-4250-999e-d168d6ae4293}", "C:\windows\system32\uiribbon.dll", "Apartment");
   ("{0f87369f-a4e5-4cfc-bd3e-73e6154572dd}", "C:\windows\system32\taskschd.dll", "Both");
   ("{10e2414a-ec59-49d2-bc51-5add2c36febc}", "C:\windows\system32\dispex.dll", "Both");
   ("{11275a82-5e5a-47fd-a01c-3683c12fb196}", "C:\windows\system32\mfmp4srcsnk.dll", "Both");
   ("{114f5598-0b22-40a0-86a1-c83ea495adbd}", "C:\windows\system32\windowscodecs.dll", "Both");
   ("{120ced89-3bf4-4173-a132-3cb406cf3231}", "C:\windows\system32\dsdmo.dll", "Both");
   ("{13709620-c279-11ce-a49e-444553540000}", "C:\windows\system32\shell32.dll", "Apartment");
   ("{148bd520-a2ab-11ce-b11f-00aa00530503}", "C:\windows\system32\mstask.dll", "Both");
   ("{148bd52a-a2ab-11ce-b11f-00aa00530503}", "C:\windows\system32\mstask.dll", "Both");
   ("{172bddf8-ceea-11d1-8b05-00600806d9b6}", "C:\windows\system32\wbem\wbemdisp.dll", "Apartment");
   ("{1767b93a-b021-44ea-920f-863c11f4f768}", "C:\windows\system32\windowscodecs.dll", "Both");
   ("{17d6ccd8-3b7b-11d2-b9e0-00c04fd8dbf7}", "C:\windows\system32\objsel.dll", "Both");
   ("{187463a0-5bb7-11d3-acbe-0080c75e246e}", "C:\windows\system32\qasf.dll", "Both");
   ("{18845040-0fa5-11d1-ba19-00c04fd912d0}", "C:\windows\system32\mshtml.dll", "Apartment");
   ("{1a34f5c1-4a5a-46dc-b644-1f4567e7a676}", "C:\windows\system32\windowscodecs.dll", "Both");
   ("{1a3f11dc-b514-4b17-8c5f-2154513852f1}", "C:\windows\system32\windowscodecs.dll", "Both");
   ("{1ab4a8c0-6a0b-11d2-ad49-00c04fa31a86}", "C:\windows\system32\dsuiext.dll", "Apartment");
   ("{1b544c20-fd0b-11ce-8c63-00aa0044b51e}", "C:\windows\system32\quartz.dll", "Both");
   ("{1b544c22-fd0b-11ce-8c63-00aa0044b51e}", "C:\windows\system32\qcap.dll", "Both");
   ("{1cebde3e-6b91-484a-af48-5e4f4ed6b1e1}", "C:\windows\system32\dmscript.dll", "Both");
   ("{1d6322ad-aa85-4ef5-a828-86d71067d145}", "C:\windows\system32\uianimation.dll", "Both");
   ("{1e651cc0-b199-11d0-8212-00c04fc32c45}", "C:\windows\system32\quartz.dll", "Both");
   ("{1ea1ea14-48f4-4054-ad1a-e8aee10ac805}", "C:\windows\system32\vidreszr.dll", "Both");
   ("{1ec2de53-75cc-11d2-9775-00a0c9b4d50c}", "C:\windows\system32\mscoree.dll", "Both");
   ("{1f1e273d-12c0-4b3a-8e9b-1933c2498aea}", "C:\windows\system32\winegstreamer.dll", "Both");
   ("{1f302877-aaab-40a3-b9e0-9f48daf35bc8}", "C:\windows\system32\winegstreamer.dll", "Both");
   ("{2087c2f4-2cef-4953-a8ab-66779b670495}", "C:\windows\system32\winhttp.dll", "Apartment");
   ("{208d2c60-3aea-1069-a2d7-08002b30309d}", "C:\windows\system32\shell32.dll", "Apartment");
   ("{20d04fe0-3aea-1069-a2d8-08002b30309d}", "C:\windows\system32\shell32.dll", "Apartment");
   ("{2139e6da-c341-4774-9ac3-b4e026347f64}", "C:\windows\system32\xaudio2_5.dll", "Both");
   ("{21ec2020-3aea-1069-a2dd-08002b30309d}", "C:\windows\system32\shell32.dll", "Apartment");
   ("{2227a280-3aea-1069-a2de-08002b30309d}", "C:\windows\system32\shell32.dll", "Apartment");
   ("{228d9a81-c302-11cf-9aa4-00aa004a5691}", "C:\windows\system32\adsldp.dll", "Both");
   ("{228d9a82-c302-11cf-9aa4-00aa004a5691}", "C:\windows\system32\adsldp.dll", "Both");
   ("{248d8a3b-6256-44d3-a018-2ac96c459f47}", "C:\windows\system32\xactengine3_6.dll", "Both");
   ("{25336920-03f9-11cf-8fd0-00aa00686f13}", "C:\windows\system32\mshtml.dll", "Apartment");
   ("{25336921-03f9-11cf-8fd0-00aa00686f13}", "C:\windows\system32\mshtml.dll", "Apartment");
   ("{25e609e0-b259-11cf-bfc7-444553540000}", "C:\windows\system32\dinput.dll", "Both");
   ("{25e609e1-b259-11cf-bfc7-444553540000}", "C:\windows\system32\dinput.dll", "Both");
   ("{25e609e4-b259-11cf-bfc7-444553540000}", "C:\windows\system32\dinput8.dll", "Both");
   ("{25e609e5-b259-11cf-bfc7-444553540000}", "C:\windows\system32\dinput8.dll", "Both");
   ("{271c3902-6095-4c45-a22f-20091816ee9e}", "C:\windows\system32\mfmp4srcsnk.dll", "Both");
   ("{272bfbfb-50d0-4078-b600-1e959c301337}", "C:\windows\system32\winegstreamer.dll", "Both");
   ("{275c23e2-3747-11d0-9fea-00aa003f8646}", "C:\windows\system32\mlang.dll", "Both");
   ("{27949969-876a-41d7-9447-568f6a35a4dc}", "C:\windows\system32\windowscodecs.dll", "Both");
   ("{286f484d-375e-4458-a272-b138e2f80a6a}", "C:\windows\system32\dpnet.dll", "Both");
   ("{2933bf90-7b36-11d2-b20e-00c04f983e60}", "C:\windows\system32\msxml.dll", "Both");
   ("{2933bf91-7b36-11d2-b20e-00c04f983e60}", "C:\windows\system32\msxml.dll", "Both");
   ("{2933bf94-7b36-11d2-b20e-00c04f983e60}", "C:\windows\system32\msxml3.dll", "Both");
   ("{2a005c11-a5de-11cf-9e66-00aa00a3f464}", "C:\windows\system32\comsvcs.dll", "Both");
   ("{2c5bc43e-3369-4c33-ab0c-be9469677af4}", "C:\windows\system32\hnetcfg.dll", "Both");
   ("{2c5f9b72-7148-4d97-bfc9-68a0e076bebd}", "C:\windows\system32\dmscript.dll", "Both");
   ("{2d360200-fff5-11d1-8d03-00a0c959bc0a}", "C:\windows\system32\dhtmled.ocx", "Apartment");
   ("{2d360201-fff5-11d1-8d03-00a0c959bc0a}", "C:\windows\system32\dhtmled.ocx", "Apartment");
   ("{2e71fd0f-aab1-42c0-9146-6d2c4edcf07d}", "C:\windows\system32\ieframe.dll", "Apartment");
   ("{2eeb4adf-4578-4d10-bca7-bb955f56320a}", "C:\windows\system32\wmadmod.dll", "Both");
   ("{2f2f1f96-2bc1-4b1c-be28-ea3774f4676a}", "C:\windows\system32\ieframe.dll", "Apartment");
   ("{2fe8f810-b2a5-11d0-a787-0000f803abfc}", "C:\windows\system32\dplayx.dll", "Both");
   ("{304ce942-6e39-40d8-943a-b913c40c9cd4}", "C:\windows\system32\hnetcfg.dll", "Both");
   ("{3050f163-98b5-11cf-bb82-00aa00bdce0b}", "C:\windows\system32\mshtml.dll", "Apartment");
   ("{3050f17f-98b5-11cf-bb82-00aa00bdce0b}", "C:\windows\system32\mshtml.dll", "Apartment");
   ("{3050f1fc-98b5-11cf-bb82-00aa00bdce0b}", "C:\windows\system32\mshtml.dll", "Apartment");
   ("{3050f232-98b5-11cf-bb82-00aa00bdce0b}", "C:\windows\system32\mshtml.dll", "Apartment");
   ("{3050f296-98b5-11cf-bb82-00aa00bdce0b}", "C:\windows\system32\mshtml.dll", "Apartment");
   ("{3050f391-98b5-11cf-bb82-00aa00bdce0b}", "C:\windows\system32\mshtml.dll", "Apartment");
   ("{3050f3b2-98b5-11cf-bb82-00aa00bdce0b}", "C:\windows\system32\mshtml.dll", "Apartment");
   ("{3050f3b3-98b5-11cf-bb82-00aa00bdce0b}", "C:\windows\system32\mshtml.dll", "Apartment");
   ("{3050f3b4-98b5-11cf-bb82-00aa00bdce0b}", "C:\windows\system32\mshtml.dll", "Apartment");
   ("{3050f3bb-98b5-11cf-bb82-00aa00bdce0b}", "C:\windows\system32\mshtml.dll", "Apartment");
   ("{3050f3bc-98b5-11cf-bb82-00aa00bdce0b}", "C:\windows\system32\mshtml.dll", "Apartment");
   ("{3050f3c2-98b5-11cf-bb82-00aa00bdce0b}", "C:\windows\system32\mshtml.dll", "Apartment");
   ("{3050f3d6-98b5-11cf-bb82-00aa00bdce0b}", "C:\windows\system32\mshtml.dll", "Apartment");
   ("{3050f3d9-98b5-11cf-bb82-00aa00bdce0b}", "C:\windows\system32\mshtml.dll", "Apartment");
   ("{3050f3da-98b5-11cf-bb82-00aa00bdce0b}", "C:\windows\system32\mshtml.dll", "Apartment");
   ("{3050f406-98b5-11cf-bb82-00aa00bdce0b}", "C:\windows\system32\mshtml.dll", "Apartment");
   ("{3050f499-98b5-11cf-bb82-00aa00bdce0b}", "C:\windows\system32\mshtml.dll", "Apartment");
   ("{3050f4e7-98b5-11cf-bb82-00aa00bdce0b}", "C:\windows\system32\mshtml.dll", "Apartment");
   ("{3050f4f0-98b5-11cf-bb82-00aa00bdce0b}", "C:\windows\system32\mshtml.dll", "Apartment");
   ("{3050f4f8-98b5-11cf-bb82-00aa00bdce0b}", "C:\windows\system32\mshtml.dll", "Apartment");
   ("{3050f5c8-98b5-11cf-bb82-00aa00bdce0b}", "C:\windows\system32\mshtml.dll", "Apartment");
   ("{3050f667-98b5-11cf-bb82-00aa00bdce0b}", "C:\windows\system32\mshtml.dll", "Apartment");
   ("{3050f67d-98b5-11cf-bb82-00aa00bdce0b}", "C:\windows\system32\mshtml.dll", "Apartment");
   ("{30590066-98b5-11cf-bb82-00aa00bdce0b}", "C:\windows\system32\mshtml.dll", "Apartment");
   ("{30590067-98b5-11cf-bb82-00aa00bdce0b}", "C:\windows\system32\mshtml.dll", "Apartment");
   ("{3124c396-fb13-4836-a6ad-1317f1713688}", "C:\windows\system32\msxml3.dll", "Both");
   ("{317d06e8-5f24-433d-bdf7-79ce68d8abc2}", "C:\windows\system32\windowscodecs.dll", "Both");
   ("{317df618-5e5a-468a-9f15-d827a9a08162}", "C:\windows\system32\winegstreamer.dll", "Both");
   ("{32557d3b-69dc-4f95-836e-f5972b2f6159}", "C:\windows\system32\windowscodecs.dll", "Both");
   ("{32d186a7-218f-4c75-8876-dd77273a8999}", "C:\windows\system32\msauddecmft.dll", "Both");
   ("{32da2b15-cfed-11d1-b747-00c04fc2b085}", "C:\windows\system32\scrrun.dll", "Apartment");
   ("{336475d0-942a-11ce-a870-00aa002feab5}", "C:\windows\system32\quartz.dll", "Both");
   ("{33c53a50-f456-4884-b049-85fd643ecfed}", "C:\windows\system32\msctf.dll", "Apartment");
   ("{33d9a760-90c8-11d0-bd43-00a0c911ce86}", "C:\windows\system32\devenum.dll", "Both");
   ("{33d9a761-90c8-11d0-bd43-00a0c911ce86}", "C:\windows\system32\devenum.dll", "Both");
   ("{33d9a762-90c8-11d0-bd43-00a0c911ce86}", "C:\windows\system32\devenum.dll", "Both");
   ("{343e68e6-8f82-4a8d-a2da-6e9a944b378c}", "C:\windows\system32\xactengine2_9.dll", "Both");
   ("{3692ca39-e082-4350-9e1f-3704cb083cd5}", "C:\windows\system32\windowscodecs.dll", "Both");
   ("{369647e0-17b0-11ce-9950-00aa004bbb1f}", "C:\windows\system32\infosoft.dll", "Both");
   ("{36f99745-23c9-4c9c-8dd5-cc31ce964390}", "C:\windows\system32\mfsrcsnk.dll", "Both");
   ("{373984c9-b845-449b-91e7-45ac83036ade}", "C:\windows\system32\msxml3.dll", "Both");
   ("{381dda3c-9ce9-4834-a23e-1f98f8fc52be}", "C:\windows\system32\windowscodecs.dll", "Both");
   ("{389ea17b-5078-4cde-b6ef-25c15175c751}", "C:\windows\system32\windowscodecs.dll", "Both");
   ("{38be3000-dbf4-11d0-860e-00a024cfef6d}", "C:\windows\system32\l3codecx.ax", "Both");
   ("{3901cc3f-84b5-4fa4-ba35-aa8172b8a09b}", "C:\windows\system32\dsound.dll", "Both");
   ("{3918d75f-0acb-41f2-b733-92aa15bcecf6}", "C:\windows\system32\Speech\Common\sapi.dll", "Both");
   ("{3ad05575-8857-4850-9277-11b85bdb8e09}", "C:\windows\system32\shell32.dll", "Apartment");
   ("{3b2b6775-70b6-45af-8dea-a209c69559f3}", "C:\windows\system32\dpnet.dll", "Both");
   ("{3b80ee2a-b0f5-4780-9e30-90cb39685b03}", "C:\windows\system32\xactengine3_0.dll", "Both");
   ("{3c305196-50db-11d3-9cfe-00c04fd930c5}", "C:\windows\system32\ddraw.dll", "Both");
   ("{3c374a40-bae4-11cf-bf7d-00aa006946ee}", "C:\windows\system32\ieframe.dll", "Apartment");
   ("{3ce74de4-53d3-4d74-8b83-431b3828ba53}", "C:\windows\system32\msctf.dll", "Apartment");
   ("{3d813dfe-6c91-4a4e-8f41-04346a841d9c}", "C:\windows\system32\msxml3.dll", "Both");
   ("{3dd53d40-7b8b-11d0-b013-00aa0059ce02}", "C:\windows\system32\urlmon.dll", "Apartment");
   ("{3e784a01-f3ae-4dc0-9354-9526b9370eba}", "C:\windows\system32\msxml3.dll", "Both");
   ("{3eda9b49-2085-498b-9bb2-39a6778493de}", "C:\windows\system32\xaudio2_6.dll", "Both");
   ("{3f037241-414e-11d1-a7ce-00a0c913f73c}", "C:\windows\system32\dmstyle.dll", "Both");
   ("{3f4daca4-160d-11d2-a8e9-00104b365c9f}", "C:\windows\system32\vbscript.dll", "Apartment");
   ("{3f839ec7-5ea6-49e1-80c2-1ea300f8b0e0}", "C:\windows\system32\winegstreamer.dll", "Both");
   ("{4062c116-0270-11d3-8bcb-00600893b1b6}", "C:\windows\system32\dmscript.dll", "Both");
   ("{41070793-59e4-479a-a1f7-954adc2ef5fc}", "C:\windows\system32\windowscodecs.dll", "Both");
   ("{4108fa85-3586-11d3-8bd7-00600893b1b6}", "C:\windows\system32\dmscript.dll", "Both");
   ("{41457294-644c-4298-a28a-bd69f2c0cf3b}", "C:\windows\system32\mfasfsrcsnk.dll", "Both");
   ("{41b23c28-488e-4e5c-ace2-bb0bbabe99e8}", "C:\windows\system32\hhctrl.ocx", "Apartment");
   ("{429af92c-a51f-11d2-861e-00c04fa35c89}", "C:\windows\system32\mshtml.dll", "Apartment");
   ("{42c9b9f5-16fc-47ef-af22-da05f7c842e3}", "C:\windows\system32\mfsrcsnk.dll", "Both");
   ("{4315d437-5b8c-11d0-bd3b-00a0c911ce86}", "C:\windows\system32\devenum.dll", "Both");
   ("{44ec053a-400f-11d0-9dcd-00a0c90391d3}", "C:\windows\system32\atl.dll", "Both");
   ("{450d8fba-ad25-11d0-98a8-0800361b1103}", "C:\windows\system32\shell32.dll", "Apartment");
   ("{4516ec43-8f20-11d0-9b6d-0000c0781bc3}", "C:\windows\system32\d3dxof.dll", "Both");
   ("{4590f811-1d3a-11d0-891f-00aa004b2e24}", "C:\windows\system32\wbem\wbemprox.dll", "Both");
   ("{4657278a-411b-11d2-839a-00c04fd918d0}", "C:\windows\system32\shell32.dll", "Apartment");
   ("{46763ee0-cab2-11ce-8c20-00aa0051e5d4}", "C:\windows\system32\oleaut32.dll", "Both");
   ("{477ec299-1421-4bdd-971f-7ccb933f21ad}", "C:\windows\system32\mf.dll", "Both");
   ("{47d4d946-62e8-11cf-93bc-444553540000}", "C:\windows\system32\dsound.dll", "Both");
   ("{480b1517-c8e9-4eae-b006-e6300718d85d}", "C:\windows\system32\winegstreamer.dll", "Both");
   ("{480b1517-c8e9-4eaf-b006-e6300718d85d}", "C:\windows\system32\msauddecmft.dll", "Both");
   ("{480ff4b0-28b2-11d1-bef7-00c04fbf8fef}", "C:\windows\system32\dmusic.dll", "Both");
   ("{48123bc4-99d9-11d1-a6b3-00c04fd91555}", "C:\windows\system32\msxml3.dll", "Apartment");
   ("{48e2ed0f-98c2-4a37-bed5-166312ddd83f}", "C:\windows\system32\mfreadwrite.dll", "Both");
   ("{4955dd33-b159-11d0-8fcf-00aa006bcc59}", "C:\windows\system32\msimtf.dll", "Apartment");
   ("{49c47ce0-9ba4-11d0-8212-00c04fc32c45}", "C:\windows\system32\amstream.dll", "Both");
   ("{49c47ce4-9ba4-11d0-8212-00c04fc32c45}", "C:\windows\system32\amstream.dll", "Both");
   ("{49c47ce5-9ba4-11d0-8212-00c04fc32c45}", "C:\windows\system32\amstream.dll", "Both");
   ("{4a2286e0-7bef-11ce-9bd9-0000e202599c}", "C:\windows\system32\quartz.dll", "Both");
   ("{4b59afcc-b8c3-408a-b670-89e5fab6fda7}", "C:\windows\system32\windowscodecs.dll", "Both");
   ("{4be0537b-5c19-11d3-8bdc-00600893b1b6}", "C:\windows\system32\dmime.dll", "Both");
   ("{4c1fc63a-695c-47e8-a339-1a194be3d0b8}", "C:\windows\system32\uianimation.dll", "Both");
   ("{4c5e637a-16c7-4de3-9c46-5ed22181962d}", "C:\windows\system32\xaudio2_3.dll", "Both");
   ("{4c9b6dde-6809-46e6-a278-9b6a97588670}", "C:\windows\system32\xaudio2_5.dll", "Both");
   ("{4cb43d7f-7eee-4906-8698-60da1c38f2fe}", "C:\windows\system32\wuapi.dll", "Both");
   ("{4db1ad10-3391-11d2-9a33-00c04fa36145}", "C:\windows\system32\sti.dll", "Both");
   ("{4dd441ad-526d-4a77-9f1b-9841ed802fb0}", "C:\windows\system32\msxml3.dll", "Both");
   ("{4df0c730-df9d-4ae3-9153-aa6b82e9795a}", "C:\windows\system32\shell32.dll", "Both");
   ("{4ee17959-931e-49e4-a2c6-977ecf3628f3}", "C:\windows\system32\dmscript.dll", "Both");
   ("{4efe2452-168a-11d1-bc76-00c04fb9453b}", "C:\windows\system32\devenum.dll", "Both");
   ("{4fd2a832-86c8-11d0-8fca-00c04fd9189d}", "C:\windows\system32\ddrawex.dll", "Both");
   ("{50b6327f-afd1-11d2-9cb9-0000f87a369e}", "C:\windows\system32\adsldp.dll", "Both");
   ("{50d5107a-d278-4871-8989-f4ceaaf59cfc}", "C:\windows\system32\msimtf.dll", "Apartment");
   ("{51b4abf3-748f-4e3b-a276-c828330e926a}", "C:\windows\system32\quartz.dll", "Both");
   ("{52808ae1-d977-4cd8-92d2-feacb92fe276}", "C:\windows\system32\protontts.dll", "Both");
   ("{529a9e6b-6587-4f23-ab9e-9c7d683e3c50}", "C:\windows\system32\msctf.dll", "Apartment");
   ("{52a2aaae-085d-4187-97ea-8c30db990436}", "C:\windows\system32\hhctrl.ocx", "Apartment");
   ("{53bd6b4e-3780-4693-afc3-7161c2f3ee9c}", "C:\windows\system32\shell32.dll", "Apartment");
   ("{54e211b6-3650-4f75-8334-fa359598e1c5}", "C:\windows\system32\directmanipulation.dll", "Both");
   ("{550dda30-0541-11d2-9ca9-0060b0ec3d39}", "C:\windows\system32\msxml.dll", "Apartment");
   ("{55136805-b2de-11d1-b9f2-00a0c98bc547}", "C:\windows\system32\ieframe.dll", "Apartment");
   ("{55a8fd00-4288-11d3-9bd1-8a0d61c88835}", "C:\windows\system32\dmime.dll", "Both");
   ("{56fdf344-fd6d-11d0-958a-006097c9a090}", "C:\windows\system32\explorerframe.dll", "Apartment");
   ("{58356c5d-0bfd-48ed-93c5-f4520b6233de}", "C:\windows\system32\dx8vb.dll", "Both");
   ("{587eeb6a-7336-4ebd-a4f2-91c948de622c}", "C:\windows\system32\winegstreamer.dll", "Both");
   ("{58c2b4d0-46e7-11d1-89ac-00a0c9054129}", "C:\windows\system32\dmsynth.dll", "Both");
   ("{591209c7-767b-42b2-9fba-44ee4615f2c7}", "C:\windows\system32\shell32.dll", "Apartment");
   ("{593817a0-7db3-11cf-a2de-00aa00b93356}", "C:\windows\system32\ddraw.dll", "Both");
   ("{5a508685-a254-4fba-9b82-9a24b00306af}", "C:\windows\system32\xaudio2_7.dll", "Both");
   ("{5a580c11-e5eb-11d1-a86e-0000f8084f96}", "C:\windows\system32\inetcomm.dll", "Both");
   ("{5aaf51b2-b1f0-11d1-b6ab-00a0c90833e9}", "C:\windows\system32\mshtml.dll", "Apartment");
   ("{5aaf51b3-b1f0-11d1-b6ab-00a0c90833e9}", "C:\windows\system32\mshtml.dll", "Apartment");
   ("{5b035261-40f9-11d1-aaec-00805fc1270e}", "C:\windows\system32\netcfgx.dll", "Both");
   ("{5b4d4e54-0620-4cf9-94ae-7823965c28b6}", "C:\windows\system32\winegstreamer.dll", "Both");
   ("{5ce34c0d-0dc9-4c1f-897c-daa1b78cee7c}", "C:\windows\system32\qmgrprxy.dll", "Both");
   ("{5d02926a-212e-11d0-9df9-00a0c922e6ec}", "C:\windows\system32\itss.dll", "Both");
   ("{5d5407d9-c6ca-4770-a7cc-27c0cb8a7627}", "C:\windows\system32\winegstreamer.dll", "Both");
   ("{5ed2e5f6-bf3e-4180-83a4-4847cc5b4ea3}", "C:\windows\system32\winegstreamer.dll", "Both");
   ("{607fd4e8-0a03-11d1-ab1d-00c04fc9b304}", "C:\windows\system32\mshtml.dll", "Apartment");
   ("{629cf0de-3ecc-41e7-9926-f7e43eebec51}", "C:\windows\system32\xaudio2_2.dll", "Both");
   ("{62be5d10-60eb-11d0-bd3b-00a0c911ce86}", "C:\windows\system32\devenum.dll", "Both");
   ("{62ce7e72-4c71-4d20-b15d-452831a87d9d}", "C:\windows\system32\msmpeg2vdec.dll", "Both");
   ("{62ee5ddb-4f52-48e2-8928-787b0253a0bc}", "C:\windows\system32\winegstreamer.dll", "Both");
   ("{636b9f10-0c7d-11d1-95b2-0020afdc7421}", "C:\windows\system32\dmusic.dll", "Both");
   ("{645ff040-5081-101b-9f08-00aa002f954e}", "C:\windows\system32\shell32.dll", "Apartment");
   ("{64ab4bb7-111e-11d1-8f79-00c04fc2fbe1}", "C:\windows\system32\ieframe.dll", "Apartment");
   ("{65014010-9f62-11d1-a651-00600811d5ce}", "C:\windows\system32\mshtml.dll", "Apartment");
   ("{65bd0711-24d2-4ff7-9324-ed2e5d3abafa}", "C:\windows\system32\qedit.dll", "Both");
   ("{667955ad-6b3b-43ca-b949-bc69b5baff7f}", "C:\windows\system32\dpnet.dll", "Both");
   ("{66e4e4fb-f385-4dd0-8d74-a2efd1bc6178}", "C:\windows\system32\shell32.dll", "Apartment");
   ("{670d1d20-a068-11d0-b3f0-00aa003761c5}", "C:\windows\system32\quartz.dll", "Both");
   ("{674b6698-ee92-11d0-ad71-00c04fd8fdff}", "C:\windows\system32\wbem\wbemprox.dll", "Both");
   ("{699745c2-5066-4b82-a8e3-d40478dbec8c}", "C:\windows\system32\windowscodecs.dll", "Both");
   ("{69be8bb4-d66d-47c8-865a-ed1589433782}", "C:\windows\system32\windowscodecs.dll", "Apartment");
   ("{6a08cf80-0e18-11cf-a24d-0020afd79767}", "C:\windows\system32\quartz.dll", "Both");
   ("{6a93130e-1d53-41d1-a9cf-e758800bb179}", "C:\windows\system32\xaudio2_7.dll", "Both");
   ("{6b2d6ba0-9f3e-4f27-920b-313cc426a39e}", "C:\windows\system32\opcservices.dll", "Both");
   ("{6b462062-7cbf-400d-9fdb-813dd10f2778}", "C:\windows\system32\windowscodecs.dll", "Both");
   ("{6bc1cffa-8fc1-4261-ac22-cfb4cc38db50}", "C:\windows\system32\quartz.dll", "Both");
   ("{6bf52a52-394a-11d3-b153-00c04f79faa6}", "C:\windows\system32\wmp.dll", "Apartment");
   ("{6c34de69-4670-46cd-8cb4-1f2fa1dffb65}", "C:\windows\system32\winegstreamer.dll", "Both");
   ("{6ca50344-051a-4ded-9779-a43305165e35}", "C:\windows\system32\mfh264enc.dll", "Both");
   ("{6e29fabf-9977-42d1-8d0e-ca7e61ad87e6}", "C:\windows\system32\uiautomationcore.dll", "Both");
   ("{6e449686-c509-11cf-aafa-00aa00b6015c}", "C:\windows\system32\inseng.dll", "Apartment");
   ("{6f6ea3a9-2cf5-41cf-91c1-2170b1540063}", "C:\windows\system32\xaudio2_0.dll", "Both");
   ("{70e102b0-5556-11ce-97c0-00aa0055595a}", "C:\windows\system32\quartz.dll", "Both");
   ("{715d9c59-4442-11d2-9605-00c04f8ee628}", "C:\windows\system32\Speech\Common\sapi.dll", "Both");
   ("{71f96385-ddd6-48d3-a0c1-ae06e8b055fb}", "C:\windows\system32\shell32.dll", "Apartment");
   ("{72c24dd5-d70a-438b-8a42-98424b88afb8}", "C:\windows\system32\wshom.ocx", "Apartment");
   ("{743f1dc6-5aba-429f-8bdf-c54d03253dc2}", "C:\windows\system32\dpnet.dll", "Both");
   ("{7447a267-0015-42c8-a8f1-fb3b94c68361}", "C:\windows\system32\windowscodecs.dll", "Both");
   ("{75048700-ef1f-11d0-9888-006097deacf9}", "C:\windows\system32\shell32.dll", "Apartment");
   ("{76a64158-cb41-11d1-8b02-00600806d9b6}", "C:\windows\system32\wbem\wbemdisp.dll", "Apartment");
   ("{76e67a63-06e9-11d2-a840-006008059382}", "C:\windows\system32\mshtml.dll", "Apartment");
   ("{77f10cf0-3db5-4966-b520-b7c54fd35ed6}", "C:\windows\system32\shell32.dll", "Apartment");
   ("{78530b75-61f9-11d2-8cad-00a024580902}", "C:\windows\system32\qedit.dll", "Both");
   ("{79376820-07d0-11cf-a24d-0020afd79767}", "C:\windows\system32\quartz.dll", "Both");
   ("{798059f0-89ca-4160-b325-aeb48efe4f9a}", "C:\windows\system32\msvdsp.dll", "Both");
   ("{79ba9e00-b6ee-11d1-86be-00c04fbf8fef}", "C:\windows\system32\dmband.dll", "Both");
   ("{79dea627-a08a-43ac-8ef5-6900b9299126}", "C:\windows\system32\directmanipulation.dll", "Both");
   ("{79eac9d0-baf9-11ce-8c82-00aa004ba90b}", "C:\windows\system32\hlink.dll", "Apartment");
   ("{79eac9d1-baf9-11ce-8c82-00aa004ba90b}", "C:\windows\system32\hlink.dll", "Apartment");
   ("{79eac9e0-baf9-11ce-8c82-00aa004ba90b}", "C:\windows\system32\urlmon.dll", "Apartment");
   ("{79eac9e2-baf9-11ce-8c82-00aa004ba90b}", "C:\windows\system32\urlmon.dll", "Apartment");
   ("{79eac9e3-baf9-11ce-8c82-00aa004ba90b}", "C:\windows\system32\urlmon.dll", "Apartment");
   ("{79eac9e4-baf9-11ce-8c82-00aa004ba90b}", "C:\windows\system32\urlmon.dll", "Apartment");
   ("{79eac9e5-baf9-11ce-8c82-00aa004ba90b}", "C:\windows\system32\urlmon.dll", "Apartment");
   ("{79eac9e6-baf9-11ce-8c82-00aa004ba90b}", "C:\windows\system32\urlmon.dll", "Apartment");
   ("{79eac9e7-baf9-11ce-8c82-00aa004ba90b}", "C:\windows\system32\urlmon.dll", "Apartment");
   ("{79eac9f1-baf9-11ce-8c82-00aa004ba90b}", "C:\windows\system32\urlmon.dll", "Apartment");
   ("{7afa253e-f823-42f6-a5d9-714bde467412}", "C:\windows\system32\mfsrcsnk.dll", "Both");
   ("{7b8a2d94-0ac9-11d1-896c-00c04fb6bfc4}", "C:\windows\system32\urlmon.dll", "Both");
   ("{7b8a2d95-0ac9-11d1-896c-00c04fb6bfc4}", "C:\windows\system32\urlmon.dll", "Both");
   ("{7c6e29bc-8b8b-4c3d-859e-af6cd158be0f}", "C:\windows\system32\msxml4.dll", "Both");
   ("{810b5013-e88d-11d2-8bc1-00600893b1b6}", "C:\windows\system32\dmscript.dll", "Both");
   ("{82d353df-90bd-4382-8bc2-3f6192b76e34}", "C:\windows\system32\wmvdecod.dll", "Both");
   ("{83bc5ec0-6f2a-11d0-a1c4-00aa00c16e65}", "C:\windows\system32\dsquery.dll", "Apartment");
   ("{8496e040-af4c-11d0-8212-00c04fc32c45}", "C:\windows\system32\amstream.dll", "Both");
   ("{84cd8e3e-b221-434a-8882-9d6c8df490e1}", "C:\windows\system32\winegstreamer.dll", "Both");
   ("{8596e5f0-0da5-11d0-bd21-00a0c911ce86}", "C:\windows\system32\qcap.dll", "Both");
   ("{860bb310-5d01-11d0-bd3b-00a0c911ce86}", "C:\windows\system32\devenum.dll", "Both");
   ("{86bec222-30f2-47e0-9f25-60d11cd75c28}", "C:\windows\system32\shell32.dll", "Apartment");
   ("{86c14003-4d6b-4ef3-a7b4-0506663b2e68}", "C:\windows\system32\shell32.dll", "Apartment");
   ("{871c5380-42a0-1069-a2ea-08002b30309d}", "C:\windows\system32\ieframe.dll", "Apartment");
   ("{877a0bb7-a313-4491-87b5-2e6d0594f520}", "C:\windows\system32\windowscodecs.dll", "Both");
   ("{87fc0268-9a55-4360-95aa-004a1d9de26c}", "C:\windows\system32\dsdmo.dll", "Both");
   ("{8856f961-340a-11d0-a96b-00c04fd705a2}", "C:\windows\system32\ieframe.dll", "Apartment");
   ("{88753b26-5b24-49bd-b2e7-0c445c78c982}", "C:\windows\system32\msvproc.dll", "Both");
   ("{88d969c0-f192-11d4-a65f-0040963251e5}", "C:\windows\system32\msxml4.dll", "Both");
   ("{88d969c1-f192-11d4-a65f-0040963251e5}", "C:\windows\system32\msxml4.dll", "Both");
   ("{88d969c2-f192-11d4-a65f-0040963251e5}", "C:\windows\system32\msxml4.dll", "Both");
   ("{88d969c3-f192-11d4-a65f-0040963251e5}", "C:\windows\system32\msxml4.dll", "Both");
   ("{88d969c5-f192-11d4-a65f-0040963251e5}", "C:\windows\system32\msxml4.dll", "Apartment");
   ("{88d969c6-f192-11d4-a65f-0040963251e5}", "C:\windows\system32\msxml4.dll", "Apartment");
   ("{88d969c8-f192-11d4-a65f-0040963251e5}", "C:\windows\system32\msxml4.dll", "Both");
   ("{88d969c9-f192-11d4-a65f-0040963251e5}", "C:\windows\system32\msxml4.dll", "Both");
   ("{88d969ca-f192-11d4-a65f-0040963251e5}", "C:\windows\system32\msxml4.dll", "Both");
   ("{88d969d6-f192-11d4-a65f-0040963251e5}", "C:\windows\system32\msxml4.dll", "Both");
   ("{88d96a05-f192-11d4-a65f-0040963251e5}", "C:\windows\system32\msxml6.dll", "Both");
   ("{88d96a06-f192-11d4-a65f-0040963251e5}", "C:\windows\system32\msxml6.dll", "Both");
   ("{88d96a07-f192-11d4-a65f-0040963251e5}", "C:\windows\system32\msxml6.dll", "Both");
   ("{88d96a08-f192-11d4-a65f-0040963251e5}", "C:\windows\system32\msxml6.dll", "Both");
   ("{88d96a09-f192-11d4-a65f-0040963251e5}", "C:\windows\system32\msxml6.dll", "Both");
   ("{88d96a0a-f192-11d4-a65f-0040963251e5}", "C:\windows\system32\msxml6.dll", "Apartment");
   ("{88d96a0b-f192-11d4-a65f-0040963251e5}", "C:\windows\system32\msxml6.dll", "Apartment");
   ("{88d96a0c-f192-11d4-a65f-0040963251e5}", "C:\windows\system32\msxml6.dll", "Both");
   ("{88d96a0e-f192-11d4-a65f-0040963251e5}", "C:\windows\system32\msxml6.dll", "Both");
   ("{88d96a0f-f192-11d4-a65f-0040963251e5}", "C:\windows\system32\msxml6.dll", "Both");
   ("{88d96a10-f192-11d4-a65f-0040963251e5}", "C:\windows\system32\msxml6.dll", "Both");
   ("{88d96a11-f192-11d4-a65f-0040963251e5}", "C:\windows\system32\msxml6.dll", "Both");
   ("{8a667154-f9cb-11d2-ad8a-0060b0575abc}", "C:\windows\system32\dswave.dll", "Both");
   ("{8a9b1cdd-fcd7-419c-8b44-42fd17db1887}", "C:\windows\system32\uianimation.dll", "Both");
   ("{8bb7778b-645b-4475-9a73-1de3170bd3af}", "C:\windows\system32\xaudio2_4.dll", "Both");
   ("{8c7461ef-2b13-11d2-be35-3078302c2030}", "C:\windows\system32\browseui.dll", "Apartment");
   ("{8f6b0360-b80d-11d0-a9b3-006097942311}", "C:\windows\system32\urlmon.dll", "Apartment");
   ("{8f914656-9d0a-4eb2-9019-0bf96d8a9ee6}", "C:\windows\system32\windowscodecs.dll", "Both");
   ("{9053699f-a341-429d-9e90-ee437cf80c73}", "C:\windows\system32\windowscodecs.dll", "Both");
   ("{90f1a06e-7712-4762-86b5-7a5eba6bdb01}", "C:\windows\system32\mscoree.dll", "Both");
   ("{90f1a06e-7712-4762-86b5-7a5eba6bdb02}", "C:\windows\system32\mscoree.dll", "Both");
   ("{926749fa-2615-4987-8845-c33e65f2b957}", "C:\windows\system32\uiribbon.dll", "Apartment");
   ("{92f35e78-15a5-486b-888e-575f99651ce2}", "C:\windows\system32\winegstreamer.dll", "Both");
   ("{9301e380-1f22-11d3-8226-d2fa76255d47}", "C:\windows\system32\dmloader.dll", "Both");
   ("{934a9523-a3ca-4bc5-ada0-d6d95d979421}", "C:\windows\system32\dpnet.dll", "Both");
   ("{94297043-bd82-4dfd-b0de-8177739c6d20}", "C:\windows\system32\qasf.dll", "Both");
   ("{9456a480-e88b-43ea-9e73-0b2d9b71b1ca}", "C:\windows\system32\windowscodecs.dll", "Both");
   ("{947812b3-2ae1-4644-ba86-9e90ded7ec91}", "C:\windows\system32\Speech\Common\sapi.dll", "Both");
   ("{94c1affa-66e7-4961-9521-cfdef3128d4f}", "C:\windows\system32\xactengine3_3.dll", "Both");
   ("{962f5027-99be-4692-a468-85802cf8de61}", "C:\windows\system32\xactengine3_1.dll", "Both");
   ("{96749373-3391-11d2-9ee3-00c04f797396}", "C:\windows\system32\Speech\Common\sapi.dll", "Both");
   ("{96749377-3391-11d2-9ee3-00c04f797396}", "C:\windows\system32\Speech\Common\sapi.dll", "Both");
   ("{98230571-0087-4204-b020-3282538e57d3}", "C:\windows\system32\colorcnv.dll", "Both");
   ("{98455561-5136-4d28-ab08-4cee40ea2781}", "C:\windows\system32\evr.dll", "Both");
   ("{995c1cf5-54ff-11d3-8bda-00600893b1b6}", "C:\windows\system32\dmime.dll", "Both");
   ("{99793286-77cc-4b57-96db-3b354f6f9fb5}", "C:\windows\system32\directmanipulation.dll", "Both");
   ("{99d54f63-1a69-41ae-aa4d-c976eb3f0713}", "C:\windows\system32\quartz.dll", "Both");
   ("{9a02e012-6303-4e1e-b9a1-630f802592c5}", "C:\windows\system32\propsys.dll", "Both");
   ("{9a5ea990-3034-4d6f-9128-01f3c61022bc}", "C:\windows\system32\gameux.dll", "Both");
   ("{9ac9fbe1-e0a2-4ad6-b4ee-e212013ea917}", "C:\windows\system32\shell32.dll", "Apartment");
   ("{9aed384e-ce8b-11d1-8b05-00600806d9b6}", "C:\windows\system32\wbem\wbemdisp.dll", "Apartment");
   ("{9b8c4620-2c1a-11d0-8493-00a02438ad48}", "C:\windows\system32\qdvd.dll", "Both");
   ("{9ba05971-f6a8-11cf-a442-00a0c90a8f39}", "C:\windows\system32\shell32.dll", "Apartment");
   ("{9ba05972-f6a8-11cf-a442-00a0c90a8f39}", "C:\windows\system32\ieframe.dll", "Apartment");
   ("{9cab402c-1d37-44b4-886d-fa4f36170a4c}", "C:\windows\system32\xaudio2_3.dll", "Both");
   ("{9d148290-b9c8-11d0-a4cc-0000f80149f6}", "C:\windows\system32\itss.dll", "Both");
   ("{9d148291-b9c8-11d0-a4cc-0000f80149f6}", "C:\windows\system32\itss.dll", "Both");
   ("{9d20aae8-0625-44b0-9ca7-71889c2254d9}", "C:\windows\system32\shell32.dll", "Apartment");
   ("{9d745ed8-c514-4d1d-bf42-751fed2d5ac7}", "C:\windows\system32\hnetcfg.dll", "Both");
   ("{9ec4b4f9-3029-45ad-947b-344de2a249e2}", "C:\windows\system32\mf.dll", "Both");
   ("{a07034fd-6caa-4954-ac3f-97a27216f98a}", "C:\windows\system32\shell32.dll", "Apartment");
   ("{a16f1761-b6d8-42eb-8d57-4a44fedd3bd2}", "C:\windows\system32\dmscript.dll", "Both");
   ("{a22c4fc7-6e91-4e1d-89e9-53b2667b72ba}", "C:\windows\system32\mfmp4srcsnk.dll", "Both");
   ("{a26cec36-234c-4950-ae16-e34aace71d0d}", "C:\windows\system32\wmphoto.dll", "Both");
   ("{a4a1a128-768f-41e0-bf75-e4fddd701cba}", "C:\windows\system32\ieproxy.dll", "Both");
   ("{a4b544a1-438d-4b41-9325-869523e2d6c7}", "C:\windows\system32\msctf.dll", "Apartment");
   ("{a61dde94-66ce-4ac1-881b-71680588895e}", "C:\windows\system32\windowscodecs.dll", "Both");
   ("{a65b8071-3bfe-4213-9a5b-491da4461ca7}", "C:\windows\system32\dxdiagn.dll", "Apartment");
   ("{a82e50ba-8e92-41eb-9df2-433f50ec2993}", "C:\windows\system32\mfsrcsnk.dll", "Both");
   ("{a861c6e2-fcfc-11d2-8bc9-00600893b1b6}", "C:\windows\system32\dmscript.dll", "Both");
   ("{a8c680eb-3d32-11d2-9ee7-00c04f797396}", "C:\windows\system32\Speech\Common\sapi.dll", "Both");
   ("{a8edbf98-2442-42c5-85a1-ab05a580df53}", "C:\windows\system32\winegstreamer.dll", "Both");
   ("{a910187f-0c7a-45ac-92cc-59edafb77b53}", "C:\windows\system32\Speech\Common\sapi.dll", "Both");
   ("{a9ae6c91-1d1b-11d2-b21a-00c04fa357fa}", "C:\windows\system32\msident.dll", "Both");
   ("{ac4ce3cb-e1c1-44cd-8215-5a1665509ec2}", "C:\windows\system32\wmphoto.dll", "Both");
   ("{adb880a6-d8ff-11cf-9377-00aa003b7a11}", "C:\windows\system32\hhctrl.ocx", "Apartment");
   ("{ae054212-3535-4430-83ed-d501aa6680e6}", "C:\windows\system32\explorerframe.dll", "Apartment");
   ("{ae1e00aa-3fd5-403c-8a27-2bbdc30cd0e1}", "C:\windows\system32\hnetcfg.dll", "Apartment");
   ("{ae24fdae-03c6-11d1-8b76-0080c744f389}", "C:\windows\system32\mshtml.dll", "Apartment");
   ("{aec17ce3-a514-11d1-afa6-00aa0024d8b6}", "C:\windows\system32\dmsynth.dll", "Both");
   ("{aed5f0a5-d972-483d-a384-649dfeb9c181}", "C:\windows\system32\dmime.dll", "Both");
   ("{afb40ffd-b609-40a3-9828-f88bbe11e4e3}", "C:\windows\system32\msxml3.dll", "Apartment");
   ("{afba6b42-5692-48ea-8141-dc517dcf0ef1}", "C:\windows\system32\msxml3.dll", "Apartment");
   ("{b0210780-89cd-11d0-af08-00a0c925cd16}", "C:\windows\system32\dsound.dll", "Both");
   ("{b0684266-b57f-11d2-97f9-00c04fa36e58}", "C:\windows\system32\dmstyle.dll", "Both");
   ("{b11fc79a-67cc-43e6-a9ce-e3d54945d304}", "C:\windows\system32\windowscodecs.dll", "Both");
   ("{b196b286-bab4-101a-b69c-00aa00341d07}", "C:\windows\system32\oleaut32.dll", "Both");
   ("{b2f586d4-5558-49d1-a07b-3249dbbb33c2}", "C:\windows\system32\dsound.dll", "Both");
   ("{b323f8e0-2e68-11d0-90ea-00aa0060f86c}", "C:\windows\system32\sti.dll", "Both");
   ("{b44392da-499b-446b-a4cb-005fead0e6d5}", "C:\windows\system32\mfmediaengine.dll", "Both");
   ("{b45ff030-4447-11d2-85de-00c04fa35c89}", "C:\windows\system32\ieframe.dll", "Apartment");
   ("{b54e85d9-fe23-499f-8b88-6acea713752b}", "C:\windows\system32\windowscodecs.dll", "Both");
   ("{b54f3741-5b07-11cf-a4b0-00aa004a55e8}", "C:\windows\system32\vbscript.dll", "Both");
   ("{b54f3742-5b07-11cf-a4b0-00aa004a55e8}", "C:\windows\system32\vbscript.dll", "Both");
   ("{b54f3743-5b07-11cf-a4b0-00aa004a55e8}", "C:\windows\system32\vbscript.dll", "Both");
   ("{b5f8350b-0548-48b1-a6ee-88bd00b4a5e7}", "C:\windows\system32\oleacc.dll", "Apartment");
   ("{b5f8fb3b-393f-4f7c-84cb-504924c2705a}", "C:\windows\system32\msctfp.dll", "Both");
   ("{b802058a-464a-42db-bc10-b650d6f2586a}", "C:\windows\system32\xaudio2_2.dll", "Both");
   ("{b87beb7b-8d29-423f-ae4d-6582c10175ac}", "C:\windows\system32\quartz.dll", "Both");
   ("{b8da6310-e19b-11d0-933c-00a0c90dcaa9}", "C:\windows\system32\actxprxy.dll", "Both");
   ("{b92e345d-f52d-41f3-b562-081bc772e3b9}", "C:\windows\system32\windowscodecs.dll", "Both");
   ("{b9f3eb85-b781-4ac1-8d90-93a05ee37d7d}", "C:\windows\system32\dpvoice.dll", "Both");
   ("{bae4d665-4ea1-11d3-8bda-00600893b1b6}", "C:\windows\system32\dmime.dll", "Both");
   ("{bb847b8a-054a-11d2-a894-0000f8084f96}", "C:\windows\system32\inetcomm.dll", "Both");
   ("{bbeea841-0a63-4f52-a7ab-a9b3a84ed38a}", "C:\windows\system32\mp3dmod.dll", "Both");
   ("{bc3e0fc6-2e0d-4c45-bc61-d9c328319bd8}", "C:\windows\system32\xactengine2_4.dll", "Both");
   ("{bcc782bc-6492-4c22-8c35-f5d72fe73c6e}", "C:\windows\system32\xactengine3_7.dll", "Both");
   ("{bcde0395-e52f-467c-8e3d-c4579291692e}", "C:\windows\system32\mmdevapi.dll", "Both");
   ("{bf87b6e0-8c27-11d0-b3f0-00aa003761c5}", "C:\windows\system32\qcap.dll", "Both");
   ("{bf87b6e1-8c27-11d0-b3f0-00aa003761c5}", "C:\windows\system32\qcap.dll", "Both");
   ("{bfc880f1-7484-11d0-8309-00aa00b6015c}", "C:\windows\system32\inseng.dll", "Apartment");
   ("{bfcd4a0c-06b6-4384-b768-0daa792c380e}", "C:\windows\system32\uianimation.dll", "Both");
   ("{bfe18e9c-6d87-4450-b37c-e02f0b373803}", "C:\windows\system32\wuapi.dll", "Both");
   ("{c01b9ba0-bea7-41ba-b604-d0a36f469133}", "C:\windows\system32\wuapi.dll", "Both");
   ("{c04d65cf-b70d-11d0-b188-00aa0038c969}", "C:\windows\system32\mlang.dll", "Both");
   ("{c0b4e2f3-ba21-4773-8dba-335ec946eb8b}", "C:\windows\system32\comdlg32.dll", "Apartment");
   ("{c0c56f46-29b1-44e9-9939-a32ce86867e2}", "C:\windows\system32\xaudio2_0.dll", "Both");
   ("{c1e3f122-a2ea-442c-854f-20d98f8357a1}", "C:\windows\system32\xaudio2_1.dll", "Both");
   ("{c1ee01f2-b3b6-4a6a-9ddd-e988c088ec82}", "C:\windows\system32\msimtf.dll", "Apartment");
   ("{c1f400a0-3f08-11d3-9f0b-006008039e37}", "C:\windows\system32\qedit.dll", "Both");
   ("{c1f400a4-3f08-11d3-9f0b-006008039e37}", "C:\windows\system32\qedit.dll", "Both");
   ("{c2e88c2f-6f5b-4aaa-894b-55c847ad3a2d}", "C:\windows\system32\wuapi.dll", "Both");
   ("{c61bfcdf-2e0f-4aad-a8d7-e06bafebcdfe}", "C:\windows\system32\windowscodecs.dll", "Both");
   ("{c64501f6-e6e6-451f-a150-25d0839bc510}", "C:\windows\system32\Speech\Engines\TTS\msttsengine.dll", "Both");
   ("{c70eb77f-efd4-4678-a27b-bf1648f30d04}", "C:\windows\system32\dmscript.dll", "Both");
   ("{c7338b95-52b8-4542-aa79-42eb016c8c1c}", "C:\windows\system32\xaudio2_4.dll", "Both");
   ("{c9f285f8-4380-4121-971f-49a95316c27b}", "C:\windows\system32\winegstreamer.dll", "Both");
   ("{cac1105f-619b-4d04-831a-44e1cbf12d57}", "C:\windows\system32\xaudio2_7.dll", "Both");
   ("{cacaf262-9370-4615-a13b-9f5539da4c0a}", "C:\windows\system32\windowscodecs.dll", "Both");
   ("{cb2f6723-ab3a-11d2-9c40-00c04fa30a3e}", "C:\windows\system32\mscoree.dll", "Both");
   ("{cb8555cc-9128-11d1-ad9b-00c04fd8fdff}", "C:\windows\system32\wbem\wbemprox.dll", "Both");
   ("{cc19079b-8272-4d73-bb70-cdb533527b61}", "C:\windows\system32\hnetcfg.dll", "Both");
   ("{cc58e280-8aa1-11d1-b3f1-00aa003761c5}", "C:\windows\system32\qcap.dll", "Both");
   ("{cc702eb2-7dc5-11d9-c687-0004238a01cd}", "C:\windows\system32\shell32.dll", "Apartment");
   ("{cd0d66ec-8057-43f5-acbd-66dfb36fd78c}", "C:\windows\system32\xactengine2_7.dll", "Both");
   ("{cda42200-bd88-11d0-bd4e-00a0c911ce86}", "C:\windows\system32\quartz.dll", "Both");
   ("{cecec95a-d894-491a-bee3-5e106fb59f2d}", "C:\windows\system32\xaudio2_6.dll", "Both");
   ("{cf49d4e0-1115-11ce-b03a-0020af0ba770}", "C:\windows\system32\quartz.dll", "Both");
   ("{cf4cc405-e2c5-4ddd-b3ce-5e7582d8c9fa}", "C:\windows\system32\wbem\wmiutils.dll", "Both");
   ("{cfc399af-d876-11d0-9c10-00c04fc99c8e}", "C:\windows\system32\msxml.dll", "Both");
   ("{d06df0d0-8518-441e-822f-5451d5c595b8}", "C:\windows\system32\xaudio2_5.dll", "Both");
   ("{d1eb6d20-8923-11d0-9d97-00a0c90a43cb}", "C:\windows\system32\dplayx.dll", "Both");
   ("{d2ac2881-b39b-11d1-8704-00600893b1bd}", "C:\windows\system32\dmime.dll", "Both");
   ("{d2ac2882-b39b-11d1-8704-00600893b1bd}", "C:\windows\system32\dmime.dll", "Both");
   ("{d2ac2883-b39b-11d1-8704-00600893b1bd}", "C:\windows\system32\dmime.dll", "Both");
   ("{d2ac2884-b39b-11d1-8704-00600893b1bd}", "C:\windows\system32\dmime.dll", "Both");
   ("{d2ac2885-b39b-11d1-8704-00600893b1bd}", "C:\windows\system32\dmime.dll", "Both");
   ("{d2ac2886-b39b-11d1-8704-00600893b1bd}", "C:\windows\system32\dmime.dll", "Both");
   ("{d2ac2887-b39b-11d1-8704-00600893b1bd}", "C:\windows\system32\dmime.dll", "Both");
   ("{d2ac2888-b39b-11d1-8704-00600893b1bd}", "C:\windows\system32\dmime.dll", "Both");
   ("{d2ac288a-b39b-11d1-8704-00600893b1bd}", "C:\windows\system32\dmstyle.dll", "Both");
   ("{d2ac288b-b39b-11d1-8704-00600893b1bd}", "C:\windows\system32\dmstyle.dll", "Both");
   ("{d2ac288c-b39b-11d1-8704-00600893b1bd}", "C:\windows\system32\dmstyle.dll", "Both");
   ("{d2ac288d-b39b-11d1-8704-00600893b1bd}", "C:\windows\system32\dmstyle.dll", "Both");
   ("{d2ac288e-b39b-11d1-8704-00600893b1bd}", "C:\windows\system32\dmstyle.dll", "Both");
   ("{d2ac288f-b39b-11d1-8704-00600893b1bd}", "C:\windows\system32\dmcompos.dll", "Both");
   ("{d2ac2890-b39b-11d1-8704-00600893b1bd}", "C:\windows\system32\dmcompos.dll", "Both");
   ("{d2ac2892-b39b-11d1-8704-00600893b1bd}", "C:\windows\system32\dmloader.dll", "Both");
   ("{d2ac2894-b39b-11d1-8704-00600893b1bd}", "C:\windows\system32\dmband.dll", "Both");
   ("{d2ac2896-b39b-11d1-8704-00600893b1bd}", "C:\windows\system32\dmcompos.dll", "Both");
   ("{d2ac2897-b39b-11d1-8704-00600893b1bd}", "C:\windows\system32\dmstyle.dll", "Both");
   ("{d2ac2898-b39b-11d1-8704-00600893b1bd}", "C:\windows\system32\dmstyle.dll", "Both");
   ("{d2e0fe7f-d23e-48e1-93c0-6fa8cc346474}", "C:\windows\system32\wuapi.dll", "Both");
   ("{d30bcc65-60e8-11d1-a7ce-00a0c913f73c}", "C:\windows\system32\dmcompos.dll", "Both");
   ("{d3332f02-3dd0-4de9-9aec-20d85c4111b6}", "C:\windows\system32\xactengine3_2.dll", "Both");
   ("{d3f5b8e6-9b78-4a4c-94ea-ca2397b663d3}", "C:\windows\system32\dpvoice.dll", "Both");
   ("{d51bd5a1-7548-11cf-a520-0080c77ef58a}", "C:\windows\system32\quartz.dll", "Both");
   ("{d527607f-89cb-4e94-9571-bcfe62175613}", "C:\windows\system32\winegstreamer.dll", "Both");
   ("{d54eee56-aaab-11d0-9e1d-00a0c922e6ec}", "C:\windows\system32\itss.dll", "Both");
   ("{d66d6f99-cdaa-11d0-b822-00c04fc9b31f}", "C:\windows\system32\mlang.dll", "Both");
   ("{d6fedb1d-cf21-4bd9-af3b-c5468e9c6684}", "C:\windows\system32\mmcndmgr.dll", "Apartment");
   ("{d76e2820-1563-11cf-ac98-00aa004c0fa9}", "C:\windows\system32\qcap.dll", "Both");
   ("{d7b70ee0-4340-11cf-b063-0020afc2cd35}", "C:\windows\system32\ddraw.dll", "Both");
   ("{d94edf02-efe5-4f0d-85c8-f5a68b3000b1}", "C:\windows\system32\windowscodecs.dll", "Both");
   ("{d969a300-e7ff-11d0-a93b-00a0c90f2719}", "C:\windows\system32\shell32.dll", "Apartment");
   ("{d9f6ee60-58c9-458b-88e1-2f908fd7f87c}", "C:\windows\system32\Speech\Common\sapi.dll", "Both");
   ("{da4e3da0-d07d-11d0-bd50-00a0c911ce86}", "C:\windows\system32\devenum.dll", "Both");
   ("{da825e1b-6830-43d7-835d-0b5ad82956a2}", "C:\windows\system32\dpnet.dll", "Both");
   ("{dafd8210-5711-4b91-9fe3-f75b7ae279bf}", "C:\windows\system32\dsdmo.dll", "Both");
   ("{dbc85a2c-c0dc-4961-b6e2-d28b62c11ad4}", "C:\windows\system32\gameux.dll", "Apartment");
   ("{dc1c5a9c-e88a-4dde-a5a1-60f82a20aef7}", "C:\windows\system32\comdlg32.dll", "Apartment");
   ("{dcb00c01-570f-4a9b-8d69-199fdba5723b}", "C:\windows\system32\netprofm.dll", "Both");
   ("{df0b3d60-548f-101b-8e65-08002b2bd119}", "C:\windows\system32\oleaut32.dll", "Both");
   ("{df2fce13-25ec-45bb-9d4c-cecd47c2430c}", "C:\windows\system32\urlmon.dll", "Apartment");
   ("{e0f158e1-cb04-11d0-bd4e-00a0c911ce86}", "C:\windows\system32\devenum.dll", "Both");
   ("{e180344b-ac83-4483-959e-18a5c56a5e19}", "C:\windows\system32\xaudio2_3.dll", "Both");
   ("{e21a7345-eb21-468e-be50-804db97cf708}", "C:\windows\system32\xaudio2_1.dll", "Both");
   ("{e22ad333-b25f-460c-83d0-0581107395c9}", "C:\windows\system32\uiautomationcore.dll", "Both");
   ("{e2510970-f137-11ce-8b67-00aa00a3f1a6}", "C:\windows\system32\qcap.dll", "Both");
   ("{e2b3c97f-6ae1-41ac-817a-f6f92166d7dd}", "C:\windows\system32\hnetcfg.dll", "Both");
   ("{e30629d1-27e5-11ce-875d-00608cb78066}", "C:\windows\system32\quartz.dll", "Both");
   ("{e30629d2-27e5-11ce-875d-00608cb78066}", "C:\windows\system32\qcap.dll", "Both");
   ("{e436ebb1-524f-11ce-9f53-0020af0ba770}", "C:\windows\system32\quartz.dll", "Both");
   ("{e436ebb2-524f-11ce-9f53-0020af0ba770}", "C:\windows\system32\quartz.dll", "Both");
   ("{e436ebb3-524f-11ce-9f53-0020af0ba770}", "C:\windows\system32\quartz.dll", "Both");
   ("{e436ebb5-524f-11ce-9f53-0020af0ba770}", "C:\windows\system32\quartz.dll", "Both");
   ("{e436ebb8-524f-11ce-9f53-0020af0ba770}", "C:\windows\system32\quartz.dll", "Both");
   ("{e474e05a-ab65-4f6a-827c-218b1baaf31f}", "C:\windows\system32\evr.dll", "Both");
   ("{e48c5a3f-93ef-43bb-a092-2c7ceb946f27}", "C:\windows\system32\xaudio2_6.dll", "Both");
   ("{e4bcac13-7f99-4908-9a8e-74e3bf24b6e1}", "C:\windows\system32\dsound.dll", "Both");
   ("{e5cb7a31-7512-11d2-89ce-0080c792e5d8}", "C:\windows\system32\mscoree.dll", "Both");
   ("{e77cc89b-7401-4c04-8ced-149db35add04}", "C:\windows\system32\wpc.dll", "Both");
   ("{e7889a8a-2083-4844-8370-5ee349b14503}", "C:\windows\system32\winegstreamer.dll", "Both");
   ("{e7ff1300-96a5-11d3-ac85-00c04fc2c602}", "C:\windows\system32\dx8vb.dll", "Both");
   ("{ea678830-235d-11d2-a8b6-0000f8084f96}", "C:\windows\system32\inetcomm.dll", "Both");
   ("{eab22ac3-30c1-11cf-a7eb-0000c05bae0b}", "C:\windows\system32\ieframe.dll", "Apartment");
   ("{eb87e1bd-3233-11d2-aec9-00c04fb68820}", "C:\windows\system32\wbem\wmiutils.dll", "Both");
   ("{ebb08c45-6c4a-4fdc-ae53-4eb8c4c7db8e}", "C:\windows\system32\msctf.dll", "Apartment");
   ("{ebf2320a-2502-11d3-8bd1-00600893b1b6}", "C:\windows\system32\dmscript.dll", "Both");
   ("{ec9846b3-2762-4a6b-a214-6acb603462d2}", "C:\windows\system32\hnetcfg.dll", "Both");
   ("{ecabafc6-7f19-11d2-978e-0000f8757e2a}", "C:\windows\system32\comsvcs.dll", "Both");
   ("{ecabb0c0-7f19-11d2-978e-0000f8757e2a}", "C:\windows\system32\comsvcs.dll", "Both");
   ("{ed8c108e-4349-11d2-91a4-00c04f7969e8}", "C:\windows\system32\msxml.dll", "Apartment");
   ("{ee09b103-97e0-11cf-978f-00a02463e06f}", "C:\windows\system32\scrrun.dll", "Apartment");
   ("{ee0b9ca0-a81e-11d3-9bd1-0080c7150a74}", "C:\windows\system32\dmime.dll", "Both");
   ("{eed36461-9ea5-11d3-9bd1-0080c7150a74}", "C:\windows\system32\dmime.dll", "Both");
   ("{ef011f79-4000-406d-87af-bffb3fc39d57}", "C:\windows\system32\dsdmo.dll", "Both");
   ("{ef114c90-cd1d-484e-96e5-09cfaf912a21}", "C:\windows\system32\dsdmo.dll", "Both");
   ("{ef3e932c-d40b-4f51-8ccf-3f98f1b29d5d}", "C:\windows\system32\dsdmo.dll", "Both");
   ("{ef411752-3736-4cb4-9c8c-8ef4ccb58efe}", "C:\windows\system32\Speech\Common\sapi.dll", "Both");
   ("{ef985e71-d5c7-42d4-ba4d-2d073e2e96f4}", "C:\windows\system32\dsdmo.dll", "Both");
   ("{efca3d92-dfd8-4672-a603-7420894bad98}", "C:\windows\system32\dsdmo.dll", "Both");
   ("{efe6629c-81f7-4281-bd91-c9d604a95af6}", "C:\windows\system32\dsdmo.dll", "Both");
   ("{f17e8672-c3b4-11d1-870b-00600893b1bd}", "C:\windows\system32\dmcompos.dll", "Both");
   ("{f20da720-c02f-11ce-927b-0800095ae340}", "C:\windows\system32\packager.dll", "Apartment");
   ("{f2468580-af8a-11d0-8212-00c04fc32c45}", "C:\windows\system32\amstream.dll", "Both");
   ("{f3364ba0-65b9-11ce-a9ba-00aa004ae837}", "C:\windows\system32\shell32.dll", "Apartment");
   ("{f414c260-6ac0-11cf-b6d1-00aa00bbbb58}", "C:\windows\system32\jscript.dll", "Both");
   ("{f414c261-6ac0-11cf-b6d1-00aa00bbbb58}", "C:\windows\system32\jscript.dll", "Both");
   ("{f414c262-6ac0-11cf-b6d1-00aa00bbbb58}", "C:\windows\system32\jscript.dll", "Both");
   ("{f447b69e-1884-4a7e-8055-346f74d6edb3}", "C:\windows\system32\resampledmo.dll", "Both");
   ("{f4769300-b949-4df9-b333-00d33932e9a6}", "C:\windows\system32\xaudio2_1.dll", "Both");
   ("{f47e2da5-e370-47b7-903a-078ddd45a5cc}", "C:\windows\system32\winegstreamer.dll", "Both");
   ("{f5078f19-c551-11d3-89b9-0000f81fe221}", "C:\windows\system32\msxml3.dll", "Both");
   ("{f5078f1b-c551-11d3-89b9-0000f81fe221}", "C:\windows\system32\msxml2.dll", "Both");
   ("{f5078f1c-c551-11d3-89b9-0000f81fe221}", "C:\windows\system32\msxml2.dll", "Both");
   ("{f5078f1d-c551-11d3-89b9-0000f81fe221}", "C:\windows\system32\msxml2.dll", "Both");
   ("{f5078f1e-c551-11d3-89b9-0000f81fe221}", "C:\windows\system32\msxml2.dll", "Apartment");
   ("{f5078f20-c551-11d3-89b9-0000f81fe221}", "C:\windows\system32\msxml3.dll", "Both");
   ("{f5078f21-c551-11d3-89b9-0000f81fe221}", "C:\windows\system32\msxml2.dll", "Both");
   ("{f5078f31-c551-11d3-89b9-0000f81fe221}", "C:\windows\system32\msxml3.dll", "Both");
   ("{f5078f32-c551-11d3-89b9-0000f81fe221}", "C:\windows\system32\msxml3.dll", "Both");
   ("{f5078f33-c551-11d3-89b9-0000f81fe221}", "C:\windows\system32\msxml3.dll", "Both");
   ("{f5078f34-c551-11d3-89b9-0000f81fe221}", "C:\windows\system32\msxml3.dll", "Both");
   ("{f5078f35-c551-11d3-89b9-0000f81fe221}", "C:\windows\system32\msxml3.dll", "Apartment");
   ("{f5078f36-c551-11d3-89b9-0000f81fe221}", "C:\windows\system32\msxml3.dll", "Both");
   ("{f5ca7b34-8055-42c0-b836-216129eb7e30}", "C:\windows\system32\xaudio2_2.dll", "Both");
   ("{f6d90f11-9c73-11d3-b32e-00c04f990bb4}", "C:\windows\system32\msxml3.dll", "Both");
   ("{f6d90f12-9c73-11d3-b32e-00c04f990bb4}", "C:\windows\system32\msxml3.dll", "Both");
   ("{f6d90f16-9c73-11d3-b32e-00c04f990bb4}", "C:\windows\system32\msxml3.dll", "Apartment");
   ("{f8383852-fcd3-11d1-a6b9-006097df5bd4}", "C:\windows\system32\browseui.dll", "Both");
   ("{f8388a40-d5bb-11d0-be5a-0080c706568e}", "C:\windows\system32\qcap.dll", "Both");
   ("{f90b5f36-367b-402a-9dd1-bc0fd59d8f62}", "C:\windows\system32\windowscodecs.dll", "Both");
   ("{f935dc22-1cf0-11d0-adb9-00c04fd58a0b}", "C:\windows\system32\wshom.ocx", "Apartment");
   ("{f935dc26-1cf0-11d0-adb9-00c04fd58a0b}", "C:\windows\system32\wshom.ocx", "Apartment");
   ("{f9d8d64e-a144-47dc-8ee0-f53498372c29}", "C:\windows\system32\winegstreamer.dll", "Both");
   ("{fa10746c-9b63-4b6c-bc49-fc300ea5f256}", "C:\windows\system32\evr.dll", "Both");
   ("{fac23f48-31f5-45a8-b49b-5225d61401aa}", "C:\windows\system32\xaudio2_0.dll", "Both");
   ("{fbf23b40-e3f0-101b-8488-00aa003e56f8}", "C:\windows\system32\ieframe.dll", "Apartment");
   ("{fc220ad8-a72a-4ee8-926e-0b7ad152a020}", "C:\windows\system32\msxml3.dll", "Both");
   ("{fc47060e-6153-4b34-b975-8e4121eb7f3c}", "C:\windows\system32\dpnet.dll", "Both");
   ("{fcc152b7-f372-11d0-8e00-00c04fd7c08b}", "C:\windows\system32\qdvd.dll", "Both");
   ("{fd853cdb-7f86-11d0-8252-00c04fd85ab4}", "C:\windows\system32\inetcomm.dll", "Both");
   ("{fd853cdd-7f86-11d0-8252-00c04fd85ab4}", "C:\windows\system32\inetcomm.dll", "Both");
   ("{fd853cde-7f86-11d0-8252-00c04fd85ab4}", "C:\windows\system32\inetcomm.dll", "Both");
   ("{fd853cdf-7f86-11d0-8252-00c04fd85ab4}", "C:\windows\system32\inetcomm.dll", "Both");
   ("{fd853ce3-7f86-11d0-8252-00c04fd85ab4}", "C:\windows\system32\inetcomm.dll", "Both");
   ("{fd853ce6-7f86-11d0-8252-00c04fd85ab4}", "C:\windows\system32\inetcomm.dll", "Both");
   ("{fd853ce7-7f86-11d0-8252-00c04fd85ab4}", "C:\windows\system32\inetcomm.dll", "Both");
   ("{fd853ce8-7f86-11d0-8252-00c04fd85ab4}", "C:\windows\system32\inetcomm.dll", "Both");
   ("{fd853ce9-7f86-11d0-8252-00c04fd85ab4}", "C:\windows\system32\inetcomm.dll", "Both");
   ("{fd853cea-7f86-11d0-8252-00c04fd85ab4}", "C:\windows\system32\inetcomm.dll", "Both");
   ("{fd853ceb-7f86-11d0-8252-00c04fd85ab4}", "C:\windows\system32\inetcomm.dll", "Both");
   ("{fea4300c-7959-4147-b26a-2377b9e7a91d}", "C:\windows\system32\dsound.dll", "Both");
   ("{feb50740-7bef-11ce-9bd9-0000e202599c}", "C:\windows\system32\quartz.dll", "Both");
   ("{ff48dba4-60ef-4201-aa87-54103eef594e}", "C:\windows\system32\uiautomationcore.dll", "Both")]%string.
Definition com_classes : list (str * str * str) := map (fun e => (lit e.1.1, lit e.1.2, lit e.2)) COM_CLASSES.

(** ** A registered class is found *)
Definition CLSID : list RegName := Eval vm_compute in segs (lit "Registry\Machine\Software\Classes\CLSID").
Definition class_key (clsid : str) : list RegName := CLSID ++ [reg_name clsid; reg_name (lit "InprocServer32")].
Definition clsid_ok (clsid : str) : Prop := BACKSLASH ∉ clsid /\ clsid <> [].
#[export] Instance clsid_ok_dec clsid : Decision (clsid_ok clsid).
Proof. unfold clsid_ok. apply _. Defined.

Lemma init_com_class_eq k clsid dll thr : clsid_ok clsid ->
  init_com_class k (clsid, dll, thr) = update_at (fun n => set_reg_sz "ThreadingModel" thr (set_reg_sz "" dll n)) k (class_key clsid).
Proof.
  intros [Hb Hn]. unfold init_com_class, at_path. f_equal. rewrite segs_join. change (lit "\InprocServer32") with (BACKSLASH :: lit "InprocServer32").
  rewrite segs_app, (segs_one clsid) by done. reflexivity.
Qed.

Lemma com_class_beside k e clsid x : clsid_ok e.1.1 -> lower (reg_name e.1.1) <> lower (reg_name clsid) ->
  value_at (init_com_class k e) (class_key clsid) x = value_at k (class_key clsid) x.
Proof.
  destruct e as [[c dll] thr]. cbn [fst]. intros Hc Hne. rewrite init_com_class_eq by done. unfold class_key.
  by eapply value_at_apart; [exact Hne|].
Qed.

Lemma classes_beside com k clsid x : Forall (fun e => clsid_ok e.1.1 /\ lower (reg_name e.1.1) <> lower (reg_name clsid)) com ->
  value_at (init_com com k) (class_key clsid) x = value_at k (class_key clsid) x.
Proof.
  intros Hc. unfold init_com. revert k; induction Hc as [|e com [He Hn] _ IH]; intros k; [done|]. cbn [fold_left]. rewrite IH. by apply com_class_beside.
Qed.

Lemma init_com_split l1 e l2 k : init_com (l1 ++ e :: l2) k = init_com l2 (init_com_class (init_com l1 k) e).
Proof. exact (fold_left_app init_com_class l1 (e :: l2) k). Qed.

Lemma init_com_found com k clsid dll thr : Forall (fun e => clsid_ok e.1.1) com -> NoDup (map (fun e => lower (reg_name e.1.1)) com) -> (clsid, dll, thr) ∈ com ->
  value_at (init_com com k) (class_key clsid) (lower (reg_name (lit ""))) = Some (sz dll) /\
  value_at (init_com com k) (class_key clsid) (lower (reg_name (lit "ThreadingModel"))) = Some (sz thr).
Proof.
  intros Hok Hnd (l1 & l2 & ->)%list_elem_of_split. apply Forall_app in Hok as [_ [Hc Hok]%Forall_cons]. cbn [fst] in Hc.
  change map with (@fmap list list_fmap) in Hnd. rewrite fmap_app, fmap_cons in Hnd. apply NoDup_app in Hnd as (_ & _ & [Hni _]%NoDup_cons).
  rewrite init_com_split.
  assert (Forall (fun e => clsid_ok e.1.1 /\ lower (reg_name e.1.1) <> lower (reg_name clsid)) l2) as Hl2.
  { apply Forall_forall. intros e He. rewrite Forall_forall in Hok. split; [by apply Hok|]. intros Heq. apply Hni. apply list_elem_of_fmap.
    exists e. split; [exact (eq_sym Heq)|exact He]. }
  rewrite !classes_beside by exact Hl2. rewrite init_com_class_eq by done. rewrite !value_at_update. unfold set_reg_sz. rewrite !insert_value_lookup.
  split; [rewrite decide_False by (vm_compute; discriminate)|]; by rewrite decide_True.
Qed.

(** The table has no class twice, whatever the case of its letters. *)
Lemma table_ok : Forall (fun e => clsid_ok e.1.1) com_classes /\ NoDup (map (fun e => lower (reg_name e.1.1)) com_classes).
Proof. split; apply (bool_decide_eq_true_1 _); vm_compute; reflexivity. Qed.

(** The classes of the table are registered.  After the daemon has written its
    runtime keys, each of the 589 classes has its library and its threading model
    in the registry, none hidden by another. *)
Theorem com_classes_registered sid clsid dll thr : (clsid, dll, thr) ∈ com_classes ->
  value_at (init_runtime_keys com_classes sid key_new) (class_key clsid) (lower (reg_name (lit ""))) = Some (sz dll) /\
  value_at (init_runtime_keys com_classes sid key_new) (class_key clsid) (lower (reg_name (lit "ThreadingModel"))) = Some (sz thr).
Proof. intros Hin. destruct table_ok as [Hok Hnd]. unfold init_runtime_keys. by apply init_com_found. Qed.

End ComClasses.

Module ComClassesDemo.
Import Text Registry RegInit ComClasses.
Local Notation lit := Registry.lit.

Definition BUILDER : str := Eval vm_compute in lit "{0000002f-0000-0000-c000-000000000046}".
Definition OLEAUT : str := Eval vm_compute in lit "C:\windows\system32\oleaut32.dll".
Lemma com_classes_registered_witness :
  value_at (init_runtime_keys com_classes demo_sid key_new) (class_key BUILDER) (lower (reg_name (lit ""))) = Some (sz OLEAUT).
Proof. apply (com_classes_registered demo_sid BUILDER OLEAUT (lit "Both")). left. Defined.

End ComClassesDemo.
