(* ===== verification/Parallax.v ===== *)
(** * PARALLAX ([src/rust/src/parallax/output.rs], [config.rs], [main.rs]) and the
      daemon's side of its segment ([src/rust/src/triskelion/display.rs])

    The enumeration of cards and connectors, the identification of monitors, the
    configuration, the program, and the segment the daemon takes over.  The device
    is an interface: [Drm] has the calls on a card, which can change between two of
    them, and [DrmLaws] says how a card that does not change answers.  Rust strings
    that go into the segment are their bytes.  The output of [lspci] and
    [nvidia-smi], what [stat] says about the prefix and the reader of TOML are
    arguments; messages on the terminal are left out. *)

From stdpp Require Import base list gmap strings sorting.
From S2P Require Import Prelude Text Display Registry RegFile RegInit Pe Fs Saves Build Environ Deploy Profile Startup.
Local Open Scope Z_scope.
Local Open Scope outcome_scope.

Module Output.
Import Text Display Fs Environ Deploy.
Local Notation lit := Registry.lit.
Local Notation "p / s" := (join p (lit s)).
Implicit Types (f : Fs) (p : PathBuf).

(** ** The calls on a card *)
Record DrmModeModeInfo : Type := mkDrmMode {
  clock : Z; hdisplay : Z; hsync_start : Z; hsync_end : Z; htotal : Z; hskew : Z; vdisplay : Z; vsync_start : Z; vsync_end : Z; vtotal : Z; vscan : Z;
  vrefresh : Z; dflags : Z; dtype : Z; mname : list Z }.
Definition default_mode : DrmModeModeInfo := mkDrmMode 0 0 0 0 0 0 0 0 0 0 0 0 0 0 (replicate 32 0).
Record DrmModeResources : Type := mkResources { count_fbs : Z; count_crtcs : Z; count_connectors : Z; count_encoders : Z }.
Record DrmModeGetConnector : Type := mkGetConnector {
  count_modes : Z; count_props : Z; c_count_encoders : Z; encoder_id : Z; c_type : Z; c_type_id : Z; connection : Z; c_mm_width : Z; c_mm_height : Z }.

(** A call gets the counts in its structure, which say how long the arrays are,
    and answers with the structure and what it wrote at the start of the array of
    connectors or modes. *)
Class Drm (D : Type) : Type := {
  open_card : D -> PathBuf -> bool -> D * option Z;
  close_card : D -> Z -> D;
  getresources : D -> Z -> DrmModeResources -> D * option (DrmModeResources * list Z);
  getconnector : D -> Z -> Z -> DrmModeGetConnector -> D * option (DrmModeGetConnector * list DrmModeModeInfo);
  getencoder : D -> Z -> Z -> D * option Z;
  getcrtc : D -> Z -> Z -> D * option (Z * DrmModeModeInfo);
}.

Definition calculate_refresh (m : DrmModeModeInfo) : Z :=
  if decide (htotal m = 0 \/ vtotal m = 0) then 0
  else
    let num := clock m * 1000 in
    let den := htotal m * vtotal m in
    u32 ((num + den `div` 2) `div` den).
Definition mode_info (m : DrmModeModeInfo) : ModeInfo :=
  mkMode (hdisplay m) (vdisplay m) (if decide (vrefresh m <> 0) then vrefresh m else calculate_refresh m) (dflags m) (dtype m).
Definition DRM_MODE_TYPE_PREFERRED : Z := 8.
Definition is_preferred (m : ModeInfo) : bool := bool_decide (Z.land (mode_type m) DRM_MODE_TYPE_PREFERRED <> 0).

Definition connector_type_str (t : Z) : str :=
  lit (nth (Z.to_nat t)
    ["Unknown"; "VGA"; "DVI-I"; "DVI-D"; "DVI-A"; "Composite"; "SVIDEO"; "LVDS"; "Component"; "9PinDIN"; "DP"; "HDMI-A"; "HDMI-B"; "TV"; "eDP"; "VIRTUAL"; "DSI"; "DPI"; "WRITEBACK"; "SPI"; "USB"]
    "Unknown")%string.
Definition connector_type_sysfs (t : Z) : str := connector_type_str t.

(** [file_name().to_str()], as bytes. *)
Definition card_name p : option str := n ← file_name p; if Pe.from_utf8 n then Some n else None.
Definition read_edid p (type type_id : Z) f : list Z :=
  match card_name p with
  | None => []
  | Some n => default [] (read (lit "/sys/class/drm/" ++ n ++ lit "-" ++ connector_type_sysfs type ++ lit "-" ++ decimal type_id ++ lit "/edid") f)
  end.

Section device.
Context {D : Type} `{Drm D}.
Implicit Types d : D.

Definition open_drm_device d p : D * option Z :=
  if decide (is_Some (Pe.from_utf8 p) /\ 0 ∉ p) then
    match open_card d p true with (d, Some fd) => (d, Some fd) | (d, None) => open_card d p false end
  else (d, None).

Definition get_drm_resources d (fd : Z) : D * option (list Z) :=
  match getresources d fd (mkResources 0 0 0 0) with
  | (d, None) => (d, None)
  | (d, Some (res, _)) =>
      match getresources d fd res with
      | (d, None) => (d, None)
      | (d, Some (_, ids)) => (d, Some (resize (Z.to_nat (count_connectors res)) 0 ids))
      end
  end.

Definition find_current_mode d (fd encoder : Z) : D * option ModeInfo :=
  match getencoder d fd encoder with
  | (d, None) => (d, None)
  | (d, Some crtc) =>
      if decide (crtc = 0) then (d, None)
      else
        match getcrtc d fd crtc with
        | (d, None) => (d, None)
        | (d, Some (valid, m)) => (d, if decide (valid = 0) then None else Some (mode_info m))
        end
  end.

Definition get_connector_info d (fd id : Z) p f : D * option ConnectorInfo :=
  match getconnector d fd id (mkGetConnector 0 0 0 0 0 0 0 0 0) with
  | (d, None) => (d, None)
  | (d, Some (conn, _)) =>
      let is_connected := bool_decide (connection conn = 1) in
      match getconnector d fd id conn with
      | (d, None) => (d, None)
      | (d, Some (conn', ms)) =>
          let ms := map mode_info (resize (Z.to_nat (count_modes conn)) default_mode ms) in
          let name := connector_type_str (c_type conn') ++ lit "-" ++ decimal (c_type_id conn') in
          let e := read_edid p (c_type conn') (c_type_id conn') f in
          let '(d, cur) := if is_connected && bool_decide (encoder_id conn' <> 0) then find_current_mode d fd (encoder_id conn') else (d, None) in
          (d, Some (mkConn name id is_connected (c_type conn') (c_type_id conn') (c_mm_width conn') (c_mm_height conn') e ms cur))
      end
  end.

(** ** Cards *)
Definition DRI : PathBuf := Eval vm_compute in lit "/dev/dri".
Definition path_le (a b : str) : Prop := Registry.str_leb a b = true.
#[export] Instance path_le_dec : RelDecision path_le.
Proof. intros a b. unfold path_le. apply _. Defined.
Definition is_card (n : str) : bool := RegFile.has_prefix (lit "card") (from_utf8_lossy n) && negb (RegFile.contains (lit "render") (from_utf8_lossy n)).
Definition find_drm_cards f : list PathBuf :=
  map (join DRI) (merge_sort path_le (filter (fun n => is_card n = true) (default [] (read_dir DRI f)))).

(** [trim_start_matches] with a text takes every copy of it. *)
Fixpoint trim_start_matches (fuel : nat) (pat s : str) : str :=
  match fuel with
  | O => s
  | S fuel => match RegFile.strip_prefix pat s with Some t => trim_start_matches fuel pat t | None => s end
  end.
Definition read_sysfs_hex p f : Z :=
  default 0 (s ← read_to_string p f; let s := RegFile.trim s in RegFile.from_str_radix_16 U32_MAX (trim_start_matches (length s) (lit "0x") s)).
(** The name a link leads to; [None] if there is no link. *)
Definition read_link p f : option (list comp) := match symlink_metadata p f with Some (ELink _ target) => Some target | _ => None end.
Definition link_name p f : option str := t ← read_link p f; match last t with Some (Name n) => Some n | _ => None end.

Fixpoint first_some {A B} (g : A -> option B) (l : list A) : option B := match l with [] => None | x :: l => match g x with Some y => Some y | None => first_some g l end end.
Definition model_line (line : str) : option str :=
  if RegFile.has_prefix (lit "Model:") line then Some (RegFile.trim (trim_start_matches (length line) (lit "Model:") line)) else None.
Definition model_of p f : option str := info ← read_to_string p f; first_some model_line (RegFile.lines info).
Definition vga_line (line : str) : option str :=
  if RegFile.contains (lit "VGA") line || RegFile.contains (lit "3D controller") line then
    '(_, rest) ← RegFile.split_at_pat (lit ": ") line;
    Some (match RegFile.split_at_pat (lit ": ") rest with Some (desc, _) => desc | None => rest end)
  else None.
Definition NVIDIA_GPUS : PathBuf := Eval vm_compute in lit "/proc/driver/nvidia/gpus/".

(** [lspci] is the output of the program, if it could be started. *)
Definition detect_gpu_name (lspci : option (list Z)) (pci_bus_id : str) f : str :=
  let own := if decide (pci_bus_id = []) then None else model_of (NVIDIA_GPUS ++ encode_utf8 pci_bus_id ++ lit "/information") f in
  let any := first_some (fun n => model_of (join NVIDIA_GPUS n / "information") f) (default [] (read_dir NVIDIA_GPUS f)) in
  let listed := out ← lspci; first_some vga_line (RegFile.lines (from_utf8_lossy out)) in
  match own, any, listed with
  | Some n, _, _ => n
  | None, Some n, _ => n
  | None, None, Some n => n
  | None, None, None => lit "Wine Display Adapter"
  end.

(** [nvidia_smi] says whether the program succeeded, with its output. *)
Definition detect_vram (nvidia_smi : option (bool * list Z)) p f : Z :=
  match (s ← read_to_string (p / "device/mem_info_vram_total") f; parse_u64 (RegFile.trim s)) with
  | Some bytes => bytes
  | None =>
      match nvidia_smi with
      | Some (true, out) => match (s ← Pe.from_utf8 out; parse_u64 (RegFile.trim s)) with Some mb => u64 (mb * 1024 * 1024) | None => 0 end
      | _ => 0
      end
  end.

Section cards.
Context (lspci : option (list Z)) (nvidia_smi : option (bool * list Z)).

Definition slot_name p f : option str :=
  _ ← read_link (p / "driver") f;
  uevent ← read_to_string (p / "uevent") f;
  first_some (RegFile.strip_prefix (lit "PCI_SLOT_NAME=")) (RegFile.lines uevent).
Definition read_gpu_info p f : option GpuInfo :=
  n ← card_name p;
  let sys_path := lit "/sys/class/drm/" ++ n ++ lit "/device" in
  let pci_bus_id := default [] (slot_name sys_path f) in
  Some (mkGpu (encode_utf8 (from_utf8_lossy (default [] (link_name (sys_path / "driver") f))))
          (read_sysfs_hex (sys_path / "vendor") f) (read_sysfs_hex (sys_path / "device") f)
          (read_sysfs_hex (sys_path / "subsystem_vendor") f) (read_sysfs_hex (sys_path / "subsystem_device") f)
          (read_sysfs_hex (sys_path / "revision") f) (encode_utf8 pci_bus_id)
          (encode_utf8 (detect_gpu_name lspci pci_bus_id f)) (detect_vram nvidia_smi p f)).

(** One connector after the other, and one card after the other. *)
Fixpoint connectors_of d (fd : Z) p f (ids : list Z) : D * list ConnectorInfo :=
  match ids with
  | [] => (d, [])
  | id :: ids =>
      let '(d, c) := get_connector_info d fd id p f in
      let '(d, cs) := connectors_of d fd p f ids in
      (d, option_list c ++ cs)
  end.
Definition card_connectors d p f : D * list ConnectorInfo :=
  match open_drm_device d p with
  | (d, None) => (d, [])
  | (d, Some fd) =>
      let '(d, cs) := match get_drm_resources d fd with (d, Some ids) => connectors_of d fd p f ids | (d, None) => (d, []) end in
      (close_card d fd, cs)
  end.
Fixpoint enumerate_cards d f (cards : list PathBuf) : D * DisplayHardware :=
  match cards with
  | [] => (d, mkHw [] [])
  | p :: cards =>
      let '(d, cs) := card_connectors d p f in
      let '(d, hw) := enumerate_cards d f cards in
      (d, mkHw (option_list (read_gpu_info p f) ++ gpus hw) (cs ++ connectors hw))
  end.
Definition enumerate d f : D * DisplayHardware := enumerate_cards d f (find_drm_cards f).
End cards.
End device.

(** ** Monitors *)
Fixpoint take_name (bs : list Z) : list Z := match bs with b :: bs => if decide (b = 0x0A \/ b = 0) then [] else b :: take_name bs | [] => [] end.
Definition name_block (e : list Z) (i : nat) : option str :=
  let block := slice (54 + i * 18) 18 e in
  if decide (take 4 block = [0; 0; 0; 0xFC]) then Some (RegFile.trim (take_name (drop 5 block))) else None.
(** The characters of a name are its bytes; the blocks lie in the first 128 bytes. *)
Definition edid_monitor_name (e : list Z) : option str := if decide (length e < 128)%nat then None else first_some (name_block e) (seq 0 4).

Definition is_uppercase (c : Z) : bool := bool_decide (0x41 <= c <= 0x5A).
Definition edid_manufacturer (e : list Z) : option str :=
  if decide (length e < 10)%nat then None
  else
    let combined := Z.lor (Z.shiftl (default 0 (e !! 8%nat)) 8) (default 0 (e !! 9%nat)) in
    let letter n := u8 (u8 (Z.land (Z.shiftr combined n) 0x1F + 0x41) - 1) in
    let s := [letter 10; letter 5; letter 0] in
    if forallb is_uppercase s then Some s else None.

End Output.

Module Config.
Import Text Fs Environ.
Local Notation lit := Registry.lit.

(** The multipliers are floating point; they are only printed. *)
Section config.
Context {F : Type} (ONE : F).
Record OutputOverride : Type := mkOverride { match_ : str; o_multiplier : F }.
Record Config : Type := mkConfig { multiplier : F; child : option str; output : list OutputOverride }.
Definition default_config : Config := mkConfig ONE None [].

Fixpoint after_flag (args : list str) : option str :=
  match args with [] => None | a :: args => if decide (a = lit "--config") then head args else after_flag args end.
Definition config_path (args : list str) (env : Env) : PathBuf :=
  match after_flag args with
  | Some p => p
  | None => match var env "PARALLAX_CONFIG" with Some p => p | None => var_or env "HOME" [] ++ lit "/.config/parallax/parallax.toml" end
  end.
Definition load (from_str : str -> option Config) (args : list str) (env : Env) (f : Fs) : Config :=
  match read_to_string (config_path args env) f with
  | Some contents => default default_config (from_str contents)
  | None => default_config
  end.

Definition matches (connector_name : str) (monitor_name : option str) (ov : OutputOverride) : bool :=
  RegFile.contains (match_ ov) connector_name || match monitor_name with Some n => RegFile.contains (match_ ov) n | None => false end.
Fixpoint first_override (connector_name : str) (monitor_name : option str) (l : list OutputOverride) : option F :=
  match l with [] => None | ov :: l => if matches connector_name monitor_name ov then Some (o_multiplier ov) else first_override connector_name monitor_name l end.
Definition multiplier_for (connector_name : str) (monitor_name : option str) (c : Config) : F :=
  default (multiplier c) (first_override connector_name monitor_name (output c)).
End config.
#[global] Arguments OutputOverride : clear implicits.
#[global] Arguments Config : clear implicits.
End Config.

Module Parallax.
Import Text Display Fs Environ Deploy Output Config.
Local Notation lit := Registry.lit.
Implicit Types (f : Fs) (env : Env).

(** ** The segment by its name *)
Definition Segments : Type := gmap str (list Z).
Implicit Types segs : Segments.
Definition shm_name (prefix_hash : str) : str := lit "/parallax-" ++ prefix_hash.
(** [usable] says whether the segment could be made. *)
Definition create (usable : bool) (prefix_hash : str) segs : Segments * bool :=
  let name := shm_name prefix_hash in
  if decide (0 ∈ name) then (segs, false)
  else
    let segs := delete name segs in
    if usable then (<[name := fresh_segment]> segs, true) else (segs, false).
Definition KNOWN_DRIVERS : list string := ["winex11.drv"; "x11"; "winewayland.drv"; "wayland"]%string.
Definition display_env env : DisplayEnv :=
  mkEnv (bool_decide (is_Some (var env "WAYLAND_DISPLAY"))) (bool_decide (is_Some (var env "DISPLAY")))
    (s ← var env "QUARK_DISPLAY_DRIVER"; snd <$> list_find (fun d => lit d = s) KNOWN_DRIVERS).

(** ** The program *)
Definition prefix_of env : PathBuf := match var env "WINEPREFIX" with Some p => p | None => var_or env "HOME" [] ++ lit "/.wine" end.
Definition compute_prefix_hash env (stat : PathBuf -> option (Z * Z)) : str :=
  match stat (prefix_of env) with Some (dev, ino) => Prefix.hex dev ++ Prefix.hex ino | None => [] end.

Fixpoint after_dashes (args : list str) : option (list str) :=
  match args with [] => None | a :: args => if decide (a = lit "--") then Some args else after_dashes args end.
Definition get_child_command {F} (c : Config F) (args : list str) : option str :=
  match after_dashes args with Some (a :: l) => Some (RegFile.join [Profile.SPACE] (a :: l)) | _ => child c end.
(** The program to run and its arguments. *)
Definition run_child (cmd : str) : option (str * list str) := match Profile.split_whitespace cmd with p :: l => Some (p, l) | [] => None end.

Section program.
Context {D F : Type} `{Drm D} (ONE : F) (from_str : str -> option (Config F)).
Context (lspci : option (list Z)) (nvidia_smi : option (bool * list Z)) (stat : PathBuf -> option (Z * Z)).

(** The device, the segments, the exit status, and the child that was run. *)
Definition main (usable : bool) env (args : list str) f (d : D) segs : D * Segments * Z * option (str * list str) :=
  let config := load ONE from_str args env f in
  let '(d, hw) := enumerate lspci nvidia_smi d f in
  let prefix_hash := compute_prefix_hash env stat in
  match create usable prefix_hash segs with
  | (segs, true) => (d, alter (write_hardware (display_env env) hw) (shm_name prefix_hash) segs, 0, get_child_command config args ≫= run_child)
  | (segs, false) => (d, segs, 1, None)
  end.
End program.

(** ** The daemon's side *)
Definition read_parallax_shm (mapped : bool) (prefix_hash : str) segs : Segments * option DisplayData :=
  let name := shm_name prefix_hash in
  if decide (0 ∈ name) then (segs, None)
  else
    match segs !! name with
    | None => (segs, None)
    | Some buf => if mapped then (delete name segs, parse_shm buf) else (segs, None)
    end.

End Parallax.

(** ** Cards that do not change *)
Module Cards.
Import Text Display Fs Environ Deploy Output Config Parallax.
Local Notation lit := Registry.lit.

(** A connector of a card, with its modes and the mode its screen is in. *)
Record Panel : Type := mkPanel { p_id : Z; p_conn : DrmModeGetConnector; p_modes : list DrmModeModeInfo; p_active : option DrmModeModeInfo }.
Record Card : Type := mkCard { card_counts : DrmModeResources; panels : list Panel }.
Implicit Types (pn : Panel) (c : Card) (f : Fs).

Record drm_mode_ok (m : DrmModeModeInfo) : Prop := { ok_h : 0 <= hdisplay m < 2 ^ 16; ok_v : 0 <= vdisplay m < 2 ^ 16; ok_r : in_u32 (vrefresh m) }.
Record panel_ok pn : Prop := {
  panel_ids : in_u32 (c_type (p_conn pn)) /\ in_u32 (c_type_id (p_conn pn)) /\ in_u32 (c_mm_width (p_conn pn)) /\ in_u32 (c_mm_height (p_conn pn));
  panel_count : count_modes (p_conn pn) = Z.of_nat (length (p_modes pn));
  panel_modes : Forall drm_mode_ok (p_modes pn);
}.
Record card_ok c : Prop := { card_count : count_connectors (card_counts c) = Z.of_nat (length (panels c)); card_panels : Forall panel_ok (panels c) }.

Section laws.
Context {D : Type} `{Drm D}.
Implicit Types d : D.

(** How an open card answers: with all its counts, and with the identifiers and
    modes for which there is room. *)
Record answers d (fd : Z) c : Prop := {
  ans_resources res : getresources d fd res = (d, Some (card_counts c, take (Z.to_nat (count_connectors res)) (map p_id (panels c))));
  ans_connector pn conn : pn ∈ panels c ->
    getconnector d fd (p_id pn) conn = (d, Some (p_conn pn, if decide (count_modes (p_conn pn) <= count_modes conn) then p_modes pn else []));
  ans_mode pn : pn ∈ panels c -> encoder_id (p_conn pn) <> 0 ->
    exists crtc, getencoder d fd (encoder_id (p_conn pn)) = (d, Some crtc) /\
      match p_active pn with
      | Some m => crtc <> 0 /\ exists valid, valid <> 0 /\ getcrtc d fd crtc = (d, Some (valid, m))
      | None => crtc = 0
      end;
}.

Class DrmLaws : Type := {
  hardware : D -> PathBuf -> option Card;
  drm_open d p c : hardware d p = Some c -> exists d' fd, open_card d p true = (d', Some fd) /\ answers d' fd c /\ close_card d' fd = d;
  drm_absent d p rw : hardware d p = None -> open_card d p rw = (d, None);
}.
End laws.

(** What PARALLAX knows of a connector. *)
Definition active_mode pn : option ModeInfo :=
  if bool_decide (connection (p_conn pn) = 1) && bool_decide (encoder_id (p_conn pn) <> 0) then mode_info <$> p_active pn else None.
Definition view_panel f (p : PathBuf) pn : ConnectorInfo :=
  let conn := p_conn pn in
  mkConn (connector_type_str (c_type conn) ++ lit "-" ++ decimal (c_type_id conn)) (p_id pn) (bool_decide (connection conn = 1)) (c_type conn) (c_type_id conn)
    (c_mm_width conn) (c_mm_height conn) (read_edid p (c_type conn) (c_type_id conn) f) (map mode_info (p_modes pn)) (active_mode pn).

(** ** The enumeration is exact *)
Section enumeration.
Context {D : Type} `{Drm D} `{!DrmLaws (D := D)}.
Context (lspci : option (list Z)) (nvidia_smi : option (bool * list Z)).
Implicit Types d : D.

Definition card_of d (p : PathBuf) : list Panel := match hardware d p with Some c => panels c | None => [] end.

Lemma connector_exact d fd c pn p f : answers d fd c -> pn ∈ panels c -> panel_ok pn -> get_connector_info d fd (p_id pn) p f = (d, Some (view_panel f p pn)).
Proof.
  intros Ha Hpn Hok. unfold get_connector_info. rewrite (ans_connector _ _ _ Ha) by done. rewrite (ans_connector _ _ _ Ha) by done. rewrite decide_True by done.
  rewrite (panel_count _ Hok), Nat2Z.id, resize_all. unfold view_panel, active_mode.
  destruct (bool_decide (connection _ = 1)); [|done]. cbn [andb]. destruct (bool_decide _) eqn:He; [|done]. apply bool_decide_eq_true in He.
  destruct (ans_mode _ _ _ Ha pn Hpn He) as (crtc & Hc & Hm). unfold find_current_mode. rewrite Hc. destruct (p_active pn) as [m|]; [|by rewrite decide_True].
  destruct Hm as (Hz & v & Hv & ->). by rewrite !decide_False.
Qed.

Lemma connectors_exact d fd c p f l : answers d fd c -> l ⊆ panels c -> Forall panel_ok l -> connectors_of d fd p f (map p_id l) = (d, map (view_panel f p) l).
Proof.
  intros Ha. induction l as [|pn l IH]; intros Hl Hok; [done|]. apply Forall_cons in Hok as [Hpn Hok]. cbn [map connectors_of].
  rewrite (connector_exact _ _ c) by (done || set_solver). rewrite IH by (done || set_solver). done.
Qed.

Lemma card_exact d p f : is_Some (Pe.from_utf8 p) -> 0 ∉ p -> (forall c, hardware d p = Some c -> card_ok c) ->
  card_connectors d p f = (d, map (view_panel f p) (card_of d p)).
Proof.
  intros Hu Hz Hok. unfold card_connectors, open_drm_device, card_of. rewrite decide_True by done. destruct (hardware d p) as [c|] eqn:Hh.
  - destruct (drm_open _ _ _ Hh) as (d' & fd & -> & Ha & Hc). destruct (Hok c eq_refl) as [Hn Hp]. unfold get_drm_resources. rewrite !(ans_resources _ _ _ Ha).
    rewrite Hn, Nat2Z.id. rewrite (take_ge (map _ _)) by (rewrite length_map; lia). rewrite <- (length_map p_id), resize_all, (connectors_exact _ _ c) by done.
    by rewrite Hc.
  - rewrite !(drm_absent d) by done. done.
Qed.

Lemma enumerate_exact d f cards : Forall (fun p => is_Some (Pe.from_utf8 p) /\ 0 ∉ p /\ forall c, hardware d p = Some c -> card_ok c) cards ->
  enumerate_cards lspci nvidia_smi d f cards =
    (d, mkHw (omap (fun p => read_gpu_info lspci nvidia_smi p f) cards) (concat (map (fun p => map (view_panel f p) (card_of d p)) cards))).
Proof.
  induction 1 as [|p cards (Hu & Hz & Hok) _ IH]; [done|]. cbn [enumerate_cards omap list_omap map concat]. rewrite card_exact, IH by done. cbn [gpus connectors].
  by destruct (read_gpu_info _ _ p f).
Qed.
End enumeration.

(** ** What is enumerated fits the segment *)
Lemma length_dec_digits fuel v n : v < 10 ^ Z.of_nat n -> 0 <= v -> (0 < n)%nat -> (length (RegInit.dec_digits fuel v) <= n)%nat.
Proof.
  revert v n; induction fuel as [|fuel IH]; intros v n Hv H0 Hn; cbn [RegInit.dec_digits]; [cbn; lia|]. rewrite length_app. case_decide; [cbn; lia|].
  destruct n as [|[|n]]; [lia|cbn in *; lia|]. cbn [length]. rewrite Nat2Z.inj_succ, Z.pow_succ_r in Hv by lia.
  assert (length (RegInit.dec_digits fuel (v / 10)) <= S n)%nat; [|lia].
  apply IH; [apply Z.div_lt_upper_bound; lia|apply Z.div_pos; lia|lia].
Qed.

Lemma type_name_ok t : Forall (fun x : Z => 0 < x < 0x80) (connector_type_str t) /\ (length (connector_type_str t) <= 9)%nat.
Proof.
  unfold connector_type_str. set (l := [_; _; _; _; _; _; _; _; _; _; _; _; _; _; _; _; _; _; _; _; _]).
  set (good := fun s : string => forallb (fun x : Z => bool_decide (0 < x < 0x80)) (lit s) && bool_decide (length (lit s) <= 9)%nat).
  assert (good (nth (Z.to_nat t) l "Unknown"%string) = true) as Hg.
  { destruct (nth_in_or_default (Z.to_nat t) l "Unknown"%string) as [Hin| ->]; [|vm_compute; reflexivity].
    assert (forallb good l = true) as Hl by (vm_compute; reflexivity). rewrite forallb_forall in Hl. by apply Hl. }
  subst good. cbv beta in Hg. apply andb_true_iff in Hg as [Hf Hlen%bool_decide_eq_true]. split; [|done]. rewrite forallb_forall in Hf.
  apply Forall_forall. intros c Hc%list_elem_of_In%Hf. by apply bool_decide_eq_true in Hc.
Qed.

Lemma calculate_refresh_ok m : in_u32 (calculate_refresh m).
Proof. unfold calculate_refresh. case_decide; [unfold in_u32; lia|]. unfold in_u32, u32. apply Z.mod_pos_bound. lia. Qed.

Lemma mode_info_ok m : drm_mode_ok m -> mode_ok (mode_info m).
Proof.
  intros [Hh Hv Hr]. unfold mode_ok, mode_info. cbn [width height refresh]. split_and!; [unfold in_u32; lia..|]. case_decide; [done|apply calculate_refresh_ok].
Qed.

Lemma view_panel_ok f p pn : panel_ok pn -> conn_ok (view_panel f p pn).
Proof.
  intros [(Ht & Hi & Hw & Hh) _ Hm]. constructor; cbn [view_panel cname connector_type mm_width mm_height modes].
  - unfold in_u32 in *. destruct (type_name_ok (c_type (p_conn pn))) as [Hs Hl]. destruct (decimal_digits (c_type_id (p_conn pn))) as [Hd _]; [lia|]. split.
    + apply Forall_app; split; [done|]. apply Forall_app; split; [repeat constructor; lia|]. eapply Forall_impl; [exact Hd|]. unfold is_digit. intros; lia.
    + rewrite !length_app. pose proof (length_dec_digits 20 (c_type_id (p_conn pn)) 10). unfold decimal. cbn [length lit String.list_ascii_of_string map] in *.
      change (length (lit "-")) with 1%nat. lia.
  - done.
  - apply Forall_fmap. eapply Forall_impl; [exact Hm|]. apply mode_info_ok.
Qed.

Lemma hex_value_range x n : RegFile.hex_value x = Some n -> 0 <= n < 16.
Proof. unfold RegFile.hex_value. intros Hx. repeat case_decide; simplify_eq; lia. Qed.

Lemma hex_acc_range max s acc v : 0 <= acc <= max -> RegFile.hex_acc max s acc = Some v -> 0 <= v <= max.
Proof.
  revert acc; induction s as [|x s IH]; intros acc Ha; cbn [RegFile.hex_acc]; [by intros [= <-]|].
  destruct (RegFile.hex_value x) as [n|] eqn:Hx; [|done]. case_decide; [|done]. apply IH. split; [|done].
  apply hex_value_range in Hx. lia.
Qed.

Lemma sysfs_hex_range p f : in_u32 (read_sysfs_hex p f).
Proof.
  unfold read_sysfs_hex. destruct (s ← read_to_string p f; _) as [v|] eqn:Hv; [|unfold in_u32; cbn; lia]. cbn [default from_option id].
  apply bind_Some in Hv as (s & _ & Hv). unfold RegFile.from_str_radix_16 in Hv.
  assert (0 <= v <= U32_MAX); [|unfold in_u32, U32_MAX in *; lia]. assert (0 <= 0 <= U32_MAX) as H0 by (unfold U32_MAX; lia).
  destruct (trim_start_matches _ _ _) as [|x [|y t]]; [done| |case_decide; by eapply hex_acc_range].
  apply hex_value_range in Hv. unfold U32_MAX. lia.
Qed.

Lemma dec_acc_range w s acc v : 0 <= acc < 2 ^ w -> Build.dec_acc w s acc = Some v -> 0 <= v < 2 ^ w.
Proof.
  revert acc; induction s as [|x s IH]; intros acc Ha; cbn [Build.dec_acc]; [by intros [= <-]|]. case_decide; [|done]. case_decide; [|done]. apply IH. lia.
Qed.

Lemma vram_range smi p f : in_u64 (detect_vram smi p f).
Proof.
  assert (forall s v, parse_u64 s = Some v -> in_u64 v) as Hp.
  { intros s v Hv. unfold parse_u64, Build.parse_uint in Hv. cbv zeta in Hv. case_decide; [done|]. apply (dec_acc_range 64) in Hv; [exact Hv|lia]. }
  unfold detect_vram. destruct (s ← _; _) as [v|] eqn:Hv; [apply bind_Some in Hv as (? & _ & Hv); by eapply Hp|].
  destruct smi as [[[] out]|]; [|done|done]. case_match; [|done]. unfold in_u64, u64. apply Z.mod_pos_bound. done.
Qed.

Lemma read_gpu_ok lspci smi p f g : read_gpu_info lspci smi p f = Some g -> Forall (cstr_ok 63) [driver g; pci_bus_id g; gpu_name g] -> gpu_ok g.
Proof.
  intros Hg Hn. repeat (apply Forall_cons in Hn as [? Hn]). constructor; [|done]. unfold read_gpu_info in Hg. apply bind_Some in Hg as (n & _ & [= <-]).
  cbn [pci_vendor pci_device pci_subsys_vendor pci_subsys_device pci_revision vram_bytes]. split_and!; apply sysfs_hex_range || apply vram_range.
Qed.

Lemma small_i32 z : 0 <= z < 2 ^ 16 -> i32 z = z.
Proof. intros Hz. unfold i32, u32, wrap. cbv zeta. rewrite Z.mod_small by lia. destruct (Z.ltb_spec z (2 ^ 31)); lia. Qed.

Lemma position_take {A} (q : A -> bool) l n x : x ∈ take n l -> q x = true -> exists k, position q l = Some k /\ (k < n)%nat.
Proof.
  revert n; induction l as [|y l IH]; intros [|n] Hx Hq; cbn [take] in Hx; try by apply not_elem_of_nil in Hx. cbn [position].
  destruct (q y) eqn:Hy; [exists 0%nat; split; [done|lia]|]. apply elem_of_cons in Hx as [->|Hx]; [congruence|].
  destruct (IH n Hx Hq) as (k & -> & ?). exists (S k). split; [done|lia].
Qed.

(** The daemon looks for the segment PARALLAX made. *)
Lemma hash_agrees env stat hash : Prefix.compute_prefix_hash env stat = Ret hash -> compute_prefix_hash env stat = hash /\ 0 ∉ shm_name hash.
Proof.
  unfold Prefix.compute_prefix_hash, Prefix.wine_prefix, compute_prefix_hash, prefix_of, var_or. intros Hh.
  assert (exists dev ino, stat (prefix_of env) = Some (dev, ino) /\ hash = Prefix.hex dev ++ Prefix.hex ino) as (dev & ino & Hs & ->).
  { unfold prefix_of, var_or. destruct (var env "WINEPREFIX") as [q|]; [|destruct (var env "HOME") as [q|]; [|done]]; cbn [default from_option id] in *;
      simpl in Hh; destruct (stat _) as [[dev ino]|]; try done; injection Hh as <-; eauto. }
  unfold prefix_of, var_or in Hs. rewrite Hs. split; [done|]. unfold shm_name. rewrite !not_elem_of_app.
  assert (forall v, 0 ∉ Prefix.hex v) as Hx.
  { intros v Hv. pose proof (RegFile.hex_pad_hex (RegFile.hex_width 15 v) v) as Hf. rewrite Forall_forall in Hf. apply Hf in Hv. unfold RegFile.is_hex in Hv. lia. }
  split_and!; [|apply Hx..]. intros Hv. assert (forallb (fun x : Z => bool_decide (x <> 0)) (lit "/parallax-") = true) as Hf by (vm_compute; reflexivity).
  rewrite forallb_forall in Hf. apply list_elem_of_In, Hf, bool_decide_eq_true in Hv. done.
Qed.

Lemma read_written (hash : str) (g : list Z -> list Z) (buf : list Z) (segs : gmap str (list Z)) : 0 ∉ shm_name hash ->
  read_parallax_shm true hash (alter g (shm_name hash) (<[shm_name hash := buf]> (delete (shm_name hash) segs))) = (delete (shm_name hash) segs, parse_shm (g buf)).
Proof.
  intros Hn. unfold read_parallax_shm. rewrite decide_False by done.
  assert ((alter g (shm_name hash) (<[shm_name hash := buf]> (delete (shm_name hash) segs)) : gmap str (list Z)) !! shm_name hash = Some (g buf)) as Hl
    by (rewrite lookup_alter_eq, lookup_insert_eq; done).
  unfold Segments. cbv zeta. rewrite Hl. by rewrite delete_alter_eq, delete_insert_eq, delete_delete_eq.
Qed.

(** ** From the card to the daemon *)
Section end_to_end.
Context {D F : Type} `{Drm D} `{!DrmLaws (D := D)} (ONE : F) (from_str : str -> option (Config F)).
Context (lspci : option (list Z)) (nvidia_smi : option (bool * list Z)) (stat : PathBuf -> option (Z * Z)).
Implicit Types (d : D) (env : Env) (segs : Segments).

Definition readable d (p : PathBuf) : Prop := is_Some (Pe.from_utf8 p) /\ 0 ∉ p /\ forall c, hardware d p = Some c -> card_ok c.
Definition all_gpus f : list GpuInfo := omap (fun p => read_gpu_info lspci nvidia_smi p f) (find_drm_cards f).
Definition all_connectors d f : list ConnectorInfo := concat (map (fun p => map (view_panel f p) (card_of d p)) (find_drm_cards f)).
(** The connectors with a screen, in order, at most eight. *)
Definition shown d f : list ConnectorInfo := live_connectors (mkHw (all_gpus f) (all_connectors d f)).

Lemma shown_panel d f (c : ConnectorInfo) : Forall (readable d) (find_drm_cards f) -> c ∈ shown d f -> exists p pn, c = view_panel f p pn /\ panel_ok pn.
Proof.
  intros Hr Hc. unfold shown, live_connectors in Hc. apply elem_of_take in Hc as (i & Hc%list_elem_of_lookup_2 & _). apply list_elem_of_filter in Hc as [_ Hc].
  cbn [connectors] in Hc. unfold all_connectors in Hc. apply list_elem_of_In, in_concat in Hc as (l & Hl & Hc). apply in_map_iff in Hl as (p & <- & Hp).
  apply in_map_iff in Hc as (pn & <- & Hpn). exists p, pn. split; [done|]. rewrite Forall_forall in Hr. apply list_elem_of_In in Hp. destruct (Hr p Hp) as (_ & _ & Hok).
  unfold card_of in Hpn. destruct (hardware d p) as [cd|]; [|done]. destruct (Hok cd eq_refl) as [_ Hps]. rewrite Forall_forall in Hps. by apply Hps, list_elem_of_In.
Qed.

Lemma primary_seen d f (c : ConnectorInfo) dc dd cur : Forall (readable d) (find_drm_cards f) -> head (shown d f) = Some c -> d_connectors dd !! 0%nat = Some dc ->
  connector_seen c dc -> current_mode c = Some cur -> cur ∈ take 64 (modes c) -> primary_resolution dd = (width cur, height cur).
Proof.
  intros Hr Hc Hdc (_ & _ & _ & _ & _ & Hcur & _) Hm Hin. unfold primary_resolution. destruct (d_connectors dd) as [|dc' l]; [done|]. injection Hdc as ->.
  destruct (position_take (fun m => same_mode m cur) (modes c) 64 cur Hin) as (k & Hk & Hk64); [by apply bool_decide_eq_true|].
  specialize (Hcur cur k Hm Hk Hk64). injection Hcur as -> -> _. destruct (shown_panel d f c) as (p & pn & -> & [_ _ Hmo]); [done|by apply head_Some_elem_of|].
  apply elem_of_take in Hin as (i & Hi%list_elem_of_lookup_2 & _). cbn [view_panel modes] in Hi. apply list_elem_of_In, in_map_iff in Hi as (m & <- & Hi).
  rewrite Forall_forall in Hmo. apply list_elem_of_In, Hmo in Hi as [Hh Hv _]. cbn [mode_info width height]. rewrite !small_i32 by lia. done.
Qed.


End end_to_end.

(** ** Monitors and memory *)

(** The three letters of a manufacturer, as a monitor has them. *)
Definition vendor_id (x y z : Z) : list Z := let w := Z.lor (Z.lor (Z.shiftl (x - 0x40) 10) (Z.shiftl (y - 0x40) 5)) (z - 0x40) in [Z.shiftr w 8; Z.land w 0xFF].
Definition LETTERS : list Z := seqZ 0x41 26.
Lemma manufacturer_table : forallb (fun x => forallb (fun y => forallb (fun z => bool_decide (edid_manufacturer (replicate 8 0 ++ vendor_id x y z) = Some [x; y; z])) LETTERS) LETTERS) LETTERS = true.
Proof. vm_compute. reflexivity. Qed.

Lemma manufacturer_roundtrip e x y z : is_uppercase x = true -> is_uppercase y = true -> is_uppercase z = true -> length e = 8%nat ->
  edid_manufacturer (e ++ vendor_id x y z) = Some [x; y; z].
Proof.
  intros Ha Hb Hc He. assert (forall w, is_uppercase w = true -> w ∈ LETTERS) as Hin by (intros w Hw%bool_decide_eq_true; apply elem_of_seqZ; lia).
  assert (edid_manufacturer (e ++ vendor_id x y z) = edid_manufacturer (replicate 8 0 ++ vendor_id x y z)) as ->.
  { unfold edid_manufacturer. rewrite !length_app, length_replicate, He. rewrite !lookup_app_r by (rewrite ?length_replicate; lia). by rewrite He, length_replicate. }
  pose proof manufacturer_table as Ht. rewrite forallb_forall in Ht. specialize (Ht x (proj1 (list_elem_of_In _ _) (Hin x Ha))). rewrite forallb_forall in Ht.
  specialize (Ht y (proj1 (list_elem_of_In _ _) (Hin y Hb))). rewrite forallb_forall in Ht. specialize (Ht z (proj1 (list_elem_of_In _ _) (Hin z Hc))).
  by apply bool_decide_eq_true in Ht.
Qed.

Definition DRI_PLACE : place := Eval vm_compute in [lit "dri"; lit "dev"].
(** The memory of a card without [nvidia-smi] is never found: the file of the
    amdgpu driver is looked for below the device node, not below [/sys]. *)
Theorem amd_memory_unknown f n bs : wf f -> name_ok n -> look f (n :: DRI_PLACE) = Some (VFile bs) -> detect_vram None (join DRI n) f = 0.
Proof.
  intros Hwf Hn Hf. unfold detect_vram. set (p := join (join DRI n) _).
  assert (loc p (lit "mem_info_vram_total" :: lit "device" :: n :: DRI_PLACE)) as Hloc.
  { apply (loc_join _ _ (n :: DRI_PLACE) [lit "mem_info_vram_total"; lit "device"]); [|done..]. apply loc_name; [done|done]. }
  assert (look f (lit "device" :: n :: DRI_PLACE) = None) as Hd.
  { destruct (look f (lit "device" :: n :: DRI_PLACE)) eqn:E; [|done]. destruct (look_parent f (lit "device") (n :: DRI_PLACE)) as [Hv _]; [done|by rewrite E|]. congruence. }
  assert (look f (lit "mem_info_vram_total" :: lit "device" :: n :: DRI_PLACE) = None) as Hm.
  { destruct (look f (lit "mem_info_vram_total" :: _)) eqn:E; [|done]. destruct (look_parent f (lit "mem_info_vram_total") (lit "device" :: n :: DRI_PLACE)) as [Hv _]; [done|by rewrite E|]. congruence. }
  unfold read_to_string. rewrite (read_plain f Hwf p _ Hloc), Hm; [done|].
  assert (look f DRI_PLACE = Some VDir) as Hdri by (eapply look_parent; [done|by rewrite Hf]).
  intros k Hk. apply Saves.suffix_cons_cases in Hk as [->|Hk]; [by rewrite Hm|]. apply Saves.suffix_cons_cases in Hk as [->|Hk]; [by rewrite Hd|].
  apply Saves.suffix_cons_cases in Hk as [->|Hk]; [by rewrite Hf|]. by apply (plain_dir f DRI_PLACE).
Qed.
End Cards.

Module ParallaxDemo.
Import Text Display Fs SavesDemo Environ Output Config Parallax Cards.
Local Notation lit := Registry.lit.

(** One card with a screen and a free connector. *)
Definition MODE : DrmModeModeInfo := mkDrmMode 241500 2560 2608 2640 2720 0 1440 1443 1448 1481 0 0 5 0x48 (replicate 32 0).
Definition SMALL : DrmModeModeInfo := mkDrmMode 148500 1920 2008 2052 2200 0 1080 1084 1089 1125 0 60 5 0x40 (replicate 32 0).
Definition SCREEN : Panel := mkPanel 77 (mkGetConnector 2 0 1 5 10 1 1 600 340) [SMALL; MODE] (Some MODE).
Definition UNUSED : Panel := mkPanel 78 (mkGetConnector 0 0 1 0 11 1 2 0 0) [] None.
Definition CARD : Card := mkCard (mkResources 0 1 2 2) [SCREEN; UNUSED].
Definition CARD0 : PathBuf := Eval vm_compute in lit "/dev/dri/card0".

#[export] Instance ModelDrm : Drm unit := {
  open_card d p _ := (d, if decide (p = CARD0) then Some 3 else None);
  close_card d _ := d;
  getresources d _ res := (d, Some (card_counts CARD, take (Z.to_nat (count_connectors res)) (map p_id (panels CARD))));
  getconnector d _ id conn :=
    (d, '(_, pn) ← list_find (fun pn => p_id pn = id) (panels CARD);
        Some (p_conn pn, if decide (count_modes (p_conn pn) <= count_modes conn) then p_modes pn else []));
  getencoder d _ e := (d, if decide (e = 5) then Some 9 else None);
  getcrtc d _ c := (d, if decide (c = 9) then Some (1, MODE) else None);
}.

Lemma card_answers (d : unit) : answers d 3 CARD.
Proof.
  split.
  - done.
  - intros pn conn [->|[->|[]%not_elem_of_nil]%elem_of_cons]%elem_of_cons; reflexivity.
  - intros pn [->|[->|[]%not_elem_of_nil]%elem_of_cons]%elem_of_cons He; [|by destruct He]. exists 9. split; [reflexivity|]. split; [done|]. by exists 1.
Qed.

#[export] Instance ModelDrmLaws : DrmLaws (D := unit).
Proof.
  refine (@Build_DrmLaws unit _ (fun _ p => if decide (p = CARD0) then Some CARD else None) _ _).
  - intros d p c Hc. case_decide as Hp; [|done]. injection Hc as <-. subst p. exists d, 3. split_and!; [reflexivity|apply card_answers|reflexivity].
  - intros d p rw Hc. case_decide as Hp; [done|]. cbn [open_card ModelDrm]. by rewrite decide_False.
Defined.

Lemma card_is_ok : card_ok CARD.
Proof. split; [done|]. repeat constructor; vm_compute; done. Qed.

(** The files of the card, among them the memory size of an amdgpu card. *)
Definition files : Fs :=
  let f := make "/sys/class/drm/card0/device" (make "/dev/dri" root_fs) in
  let f := file "/dev/dri/card0" [] (file "/dev/dri/renderD128" [] f) in
  let f := (symlink false [Up; Name (lit "drivers"); Name (lit "amdgpu")] (lit "/sys/class/drm/card0/device/driver") f).1 in
  let f := file "/sys/class/drm/card0/device/vendor" (lit "0x1002" ++ [10]) (file "/sys/class/drm/card0/device/device" (lit "0x73df" ++ [10]) f) in
  let f := file "/sys/class/drm/card0/device/uevent" (lit "DRIVER=amdgpu" ++ [10] ++ lit "PCI_SLOT_NAME=0000:0a:00.0" ++ [10]) f in
  file "/sys/class/drm/card0/device/mem_info_vram_total" (lit "12868124672" ++ [10]) f.
Definition LSPCI : list Z := Eval vm_compute in lit "0a:00.0 VGA compatible controller: Navi 22" ++ [10].
Definition env : Env := {[lit "WINEPREFIX" := lit "/p"]}.
Definition stat (p : PathBuf) : option (Z * Z) := Some (0x1f, 0x2a).
Definition GPU : GpuInfo := Eval vm_compute in mkGpu (lit "amdgpu") 0x1002 0x73df 0 0 0 (lit "0000:0a:00.0") (lit "Navi 22") 0.

Example card_found : find_drm_cards files = [CARD0] /\ all_gpus (Some LSPCI) None files = [GPU].
Proof. split; vm_compute; reflexivity. Qed.


(** The size is in the file system and is not found. *)
Example memory_not_found : Fs.read (lit "/sys/class/drm/card0/device/mem_info_vram_total") files = Some (lit "12868124672" ++ [10]) /\ detect_vram None CARD0 files = 0.
Proof. split; vm_compute; reflexivity. Qed.

Example child_run : get_child_command (default_config tt) [lit "parallax"; lit "--"; lit "sway"; lit "-d"] ≫= run_child = Some (lit "sway", [lit "-d"]).
Proof. vm_compute. reflexivity. Qed.

End ParallaxDemo.
