(* ===== verification/Packager.v ===== *)
(** * The packager ([src/rust/src/quark/packager.rs])

    How a built Wine tree becomes a compatibility tool of Steam: which files are
    copied where, the descriptions written beside them, and the launcher.  Files
    have no permissions in [Fs], so making a file executable changes nothing; the
    messages on the terminal are left out. *)

From stdpp Require Import base list gmap strings.
From S2P Require Import Prelude Text Registry RegFile Pe Fs Saves Environ Deploy Launcher.
Local Open Scope Z_scope.
Local Open Scope outcome_scope.

Module Packager.
Import Text Fs Environ Deploy.
Local Notation lit := Registry.lit.
Local Notation "p / s" := (join p (lit s)).
Implicit Types (f : Fs) (env : Env) (p : PathBuf).

(** ** The descriptions *)
Definition LINE : str := [10].
Definition compatibilitytool_vdf (version : str) : str :=
  QUOTED "compatibilitytools" ++ LINE ++ lit "{" ++ LINE ++ lit "  " ++ QUOTED "compat_tools" ++ LINE ++ lit "  {" ++ LINE ++
  lit "    " ++ QUOTED "quark" ++ LINE ++ lit "    {" ++ LINE ++
  lit "      " ++ QUOTED "install_path" ++ lit " " ++ QUOTED "." ++ LINE ++
  lit "      " ++ QUOTED "display_name" ++ lit " " ++ [34] ++ lit "quark " ++ version ++ [34] ++ LINE ++
  lit "      " ++ QUOTED "from_oslist" ++ lit "  " ++ QUOTED "windows" ++ LINE ++
  lit "      " ++ QUOTED "to_oslist" ++ lit "    " ++ QUOTED "linux" ++ LINE ++
  lit "    }" ++ LINE ++ lit "  }" ++ LINE ++ lit "}" ++ LINE.
Definition TOOLMANIFEST_VDF : str := Eval vm_compute in
  QUOTED "manifest" ++ LINE ++ lit "{" ++ LINE ++ lit "  " ++ QUOTED "commandline" ++ lit " " ++ QUOTED "/proton %verb%" ++ LINE ++
  lit "  " ++ QUOTED "version" ++ lit " " ++ QUOTED "2" ++ LINE ++ lit "  " ++ QUOTED "use_sessions" ++ lit " " ++ QUOTED "1" ++ LINE ++ lit "}" ++ LINE.
Definition PE_SUFFIXES : list str := Eval vm_compute in lits [".dll"; ".exe"; ".sys"; ".drv"; ".tlb"; ".cpl"; ".acm"; ".ax"; ".ocx"; ".ds"]%string.
Definition has_suffix (l : list str) (n : str) : bool := existsb (fun s => Launcher.ends_with s (from_utf8_lossy n)) l.

(** ** Copying *)
Definition copy_to p q f : Fs := (copy p q f).1.

Definition copy_binaries (wine_path bin_dir : PathBuf) f : Fs * Z :=
  let src := wine_path / "server" / "wineserver" in
  let '(f, count) := if exists_ src f then (copy_to src (bin_dir / "wineserver") f, 1) else (f, 0) in
  let wine64 := wine_path / "loader" / "wine64" in
  let wine_fallback := wine_path / "wine" in
  match (if exists_ wine64 f then Some wine64 else if exists_ wine_fallback f then Some wine_fallback else None) with
  | None => (f, count)
  | Some src =>
      let f := copy_to src (bin_dir / "wine64") f in
      let preloader := wine_path / "loader" / "wine64-preloader" in
      if exists_ preloader f then (copy_to preloader (bin_dir / "wine64-preloader") f, count + 2) else (f, count + 1)
  end.

(** The entries of a directory whose names are right; all of them are counted. *)
Definition copy_entry (ok : str -> bool) (src dst : PathBuf) (st : Fs * Z) (n : str) : Fs * Z :=
  let '(f, count) := st in if ok n then (copy_to (join src n) (join dst n) f, u32 (count + 1)) else st.
Definition copy_matching (ok : str -> bool) (src dst : PathBuf) (st : Fs * Z) : Fs * Z :=
  match read_dir src st.1 with Some ns => fold_left (copy_entry ok src dst) ns st | None => st end.
(** [file_type().is_dir()] of an entry: a link is none. *)
Definition entry_is_dir p f : bool := match symlink_metadata p f with Some EDir => true | _ => false end.

Definition copy_module_pe (parent lib_win : PathBuf) (st : Fs * Z) (m : str) : Fs * Z :=
  if negb (entry_is_dir (join parent m) st.1) then st
  else let win_dir := join parent m / "x86_64-windows" in if negb (is_dir win_dir st.1) then st else copy_matching (has_suffix PE_SUFFIXES) win_dir lib_win st.
Definition copy_parent (parent lib_win : PathBuf) f : Fs * Z :=
  if negb (is_dir parent f) then (f, 0) else match read_dir parent f with Some ms => fold_left (copy_module_pe parent lib_win) ms (f, 0) | None => (f, 0) end.
Definition copy_pe_files (wine_path lib_win : PathBuf) f : Fs * (Z * Z) :=
  let '(f, dlls) := copy_parent (wine_path / "dlls") lib_win f in
  let '(f, programs) := copy_parent (wine_path / "programs") lib_win f in
  (f, (dlls, programs)).

Definition copy_module_so (dlls lib_unix : PathBuf) (st : Fs * Z) (m : str) : Fs * Z :=
  if negb (entry_is_dir (join dlls m) st.1) then st else copy_matching (has_suffix [lit ".so"]) (join dlls m) lib_unix st.
Definition copy_unix_drivers (wine_path lib_unix : PathBuf) f : Fs * Z :=
  let dlls := wine_path / "dlls" in
  if negb (is_dir dlls f) then (f, 0) else match read_dir dlls f with Some ms => fold_left (copy_module_so dlls lib_unix) ms (f, 0) | None => (f, 0) end.

Definition copy_nls (wine_path share_wine : PathBuf) f : Fs * Z :=
  let nls_src := wine_path / "nls" in
  if negb (is_dir nls_src f) then (f, 0)
  else
    let nls_dest := share_wine / "nls" in
    copy_matching (has_suffix [lit ".nls"]) nls_src nls_dest ((create_dir_all nls_dest f).1, 0).
Definition copy_wine_inf (wine_path share_wine : PathBuf) f : Fs :=
  match list_find (fun src => exists_ src f = true) [wine_path / "loader" / "wine.inf"; wine_path / "wine.inf"] with
  | Some (_, src) => copy_to src (share_wine / "wine.inf") f
  | None => f
  end.

(** The patched sections of the copied executables. *)
Definition entry_of (dir : PathBuf) f (n : str) : Pe.DirEntry :=
  match symlink_metadata (join dir n) f with
  | Some (EFile i) => Pe.Regular (from_utf8_lossy n) (default [] (data <$> inodes f !! i))
  | _ => Pe.Other
  end.
Definition put_entry (dir : PathBuf) f (ne : str * Pe.DirEntry) : Fs := match ne.2 with Pe.Regular _ bs => (write (join dir ne.1) bs f).1 | _ => f end.
Definition patch_dir (dir : PathBuf) f : outcome Fs :=
  match read_dir dir f with
  | None => Ret f
  | Some ns => r <-! Pe.fix_idata_sections (map (entry_of dir f) ns) ;; Ret (fold_left (put_entry dir) (zip ns r.1) f)
  end.

Definition install_launcher (exe dest : PathBuf) f : outcome Fs :=
  match canonicalize exe f with
  | None => Panic
  | Some k => match copy (path_of k) (dest / "proton") f with (f, true) => Ret f | (_, false) => Panic end
  end.

Fixpoint make_all_dirs (ds : list PathBuf) f : outcome Fs :=
  match ds with [] => Ret f | d :: ds => match create_dir_all d f with (f, true) => make_all_dirs ds f | (_, false) => Panic end end.
Definition write_text p (s : str) f : outcome Fs := match write p (encode_utf8 s) f with (f, true) => Ret f | (_, false) => Panic end.

(** The whole pipeline; [exe] is this program. *)
Definition run env (version : str) (exe wine_dir : PathBuf) f : outcome (Fs * Z) :=
  match canonicalize wine_dir f with
  | None => Ret (f, 1)
  | Some k =>
      let wine_path := path_of k in
      if negb (exists_ (wine_path / "server" / "wineserver") f) then Ret (f, 1)
      else
        match var env "HOME" with
        | None => Panic
        | Some home =>
            let dest := home / ".steam" / "root" / "compatibilitytools.d" / "quark" in
            let files := dest / "files" in
            let f := if exists_ dest f then (remove_dir_all dest f).1 else f in
            let bin_dir := files / "bin" in
            let lib_wine := files / "lib" / "wine" in
            let lib_unix := lib_wine / "x86_64-unix" in
            let lib_win := lib_wine / "x86_64-windows" in
            let share_wine := files / "share" / "wine" in
            f <-! make_all_dirs [bin_dir; lib_unix; lib_win; share_wine] f ;;
            let f := (copy_binaries wine_path bin_dir f).1 in
            let f := (copy_pe_files wine_path lib_win f).1 in
            f <-! patch_dir lib_win f ;;
            let f := (copy_unix_drivers wine_path lib_unix f).1 in
            let f := (copy_nls wine_path share_wine f).1 in
            let f := copy_wine_inf wine_path share_wine f in
            f <-! write_text (dest / "compatibilitytool.vdf") (compatibilitytool_vdf version) f ;;
            f <-! write_text (dest / "toolmanifest.vdf") TOOLMANIFEST_VDF f ;;
            f <-! install_launcher exe dest f ;;
            Ret (f, 0)
        end
  end.

(** ** What the loops copy *)
Section copies.
Context (ok : str -> bool) (dst : PathBuf) (d : place) (Hdst : loc dst d).
Implicit Types (x k s : place) (n m : str).

(** No directory of [dirs] is in the destination; what is to be copied are files
    with names of their own, and these names are free. *)
Record ready (dirs : list place) f : Prop := {
  rd_wf : wf f;
  rd_dst : look f d = Some VDir;
  rd_apart : forall k, k ∈ dirs -> ~ d `suffix_of` k;
  rd_plain : forall k, k ∈ dirs -> plain f k;
  rd_links : forall k n, k ∈ dirs -> ok n = true -> look f (n :: k) <> Some VLink;
  rd_free : forall k n bs, k ∈ dirs -> ok n = true -> look f (n :: k) = Some (VFile bs) -> look f (n :: d) = None;
  rd_once : forall k k' n bs bs', k ∈ dirs -> k' ∈ dirs -> ok n = true -> look f (n :: k) = Some (VFile bs) -> look f (n :: k') = Some (VFile bs') -> k = k';
}.
(** The files with the right names are in the destination, which has changed in
    nothing else. *)
Record packed (dirs : list place) f f' : Prop := {
  pk_wf : wf f';
  pk_frame : forall x, (forall k n bs, k ∈ dirs -> ok n = true -> look f (n :: k) = Some (VFile bs) -> x <> n :: d) -> look f' x = look f x;
  pk_files : forall k n bs, k ∈ dirs -> ok n = true -> look f (n :: k) = Some (VFile bs) -> look f' (n :: d) = Some (VFile bs);
}.

Lemma ready_sub dirs dirs' f : dirs ⊆ dirs' -> ready dirs' f -> ready dirs f.
Proof. intros Hs [W D A P L F O]. split; [done|done|intros; eauto..]. Qed.

Lemma packed_none dirs f : wf f -> (forall k n bs, k ∈ dirs -> ok n = true -> look f (n :: k) <> Some (VFile bs)) -> packed dirs f f.
Proof. intros Hwf Hn. split; [done|done|]. intros k n bs Hk Ho Hf. by apply Hn in Hf. Qed.

(** A place outside of the destination is as before. *)
Lemma packed_outside dirs f f' x : packed dirs f f' -> ~ d `suffix_of` x -> look f' x = look f x.
Proof. intros Hp Hx. apply (pk_frame _ _ _ Hp). intros k n bs _ _ _ ->. apply Hx. by apply suffix_cons_r. Qed.

Lemma apart_entry k n : ~ d `suffix_of` k -> n :: k <> n :: d.
Proof. intros Hk [= ->]. by apply Hk. Qed.

Lemma entry_outside dirs f f' k n : packed dirs f f' -> ~ d `suffix_of` k -> look f' (n :: k) = look f (n :: k).
Proof. intros Hp Hk. apply (pk_frame _ _ _ Hp). intros k' n' bs _ _ _ [= -> ->]. by apply Hk. Qed.

Lemma packed_app dirs dirs' f f1 f2 : dirs ## dirs' -> ready (dirs ++ dirs') f -> packed dirs f f1 -> packed dirs' f1 f2 -> packed (dirs ++ dirs') f f2.
Proof.
  intros Hdis [W D A P L F O] H1 H2. assert (forall k n, k ∈ dirs' -> look f1 (n :: k) = look f (n :: k)) as Hsame.
  { intros k n Hk. apply (entry_outside _ _ _ _ _ H1). apply A, elem_of_app. by right. }
  split; [exact (pk_wf _ _ _ H2)|..].
  - intros x Hx. rewrite (pk_frame _ _ _ H2), (pk_frame _ _ _ H1); [done|..].
    + intros k n bs Hk Ho Hf. eapply Hx; [apply elem_of_app; by left|done..].
    + intros k n bs Hk Ho Hf. rewrite Hsame in Hf by done. eapply Hx; [apply elem_of_app; by right|done..].
  - intros k n bs Hk Ho Hf. apply elem_of_app in Hk as [Hk|Hk].
    + rewrite (pk_frame _ _ _ H2); [by apply (pk_files _ _ _ H1 k)|]. intros k' n' bs' Hk' _ Hf' [= <-]. rewrite Hsame in Hf' by done.
      assert (k = k') as <- by (eapply O; [apply elem_of_app; by left|apply elem_of_app; by right|done..]). by apply (Hdis k).
    + apply (pk_files _ _ _ H2 k); [done..|by rewrite Hsame].
Qed.

Lemma ready_rest dirs dirs' f f1 : dirs ## dirs' -> ready (dirs ++ dirs') f -> packed dirs f f1 -> ready dirs' f1.
Proof.
  intros Hdis [W D A P L F O] H1. assert (forall k, k ∈ dirs' -> k ∈ dirs ++ dirs') as Hr by (intros; apply elem_of_app; by right).
  assert (forall k n, k ∈ dirs' -> look f1 (n :: k) = look f (n :: k)) as Hsame by (intros k n Hk; apply (entry_outside _ _ _ _ _ H1); by apply A, Hr).
  split; [exact (pk_wf _ _ _ H1)|..].
  - rewrite (pk_frame _ _ _ H1); [done|]. intros k n bs _ _ _ He. apply (f_equal length) in He. cbn in He. lia.
  - intros k Hk. by apply A, Hr.
  - intros k Hk x Hx. rewrite (packed_outside _ _ _ _ H1); [by apply (P k); [apply Hr|]|]. intros Hd. apply (A k); [by apply Hr|]. by transitivity x.
  - intros k n Hk Ho. rewrite Hsame by done. apply L; [by apply Hr|done].
  - intros k n bs Hk Ho Hf. rewrite Hsame in Hf by done. rewrite (pk_frame _ _ _ H1); [by apply (F k n bs); [apply Hr|..]|].
    intros k' n' bs' Hk' _ Hf' [= <-]. assert (k' = k) as -> by (eapply O; [apply elem_of_app; by left|by apply Hr|done..]). by apply (Hdis k).
  - intros k k' n bs bs' Hk Hk' Ho Hf Hf'. rewrite Hsame in Hf by done. rewrite Hsame in Hf' by done. eapply O; [by apply Hr|by apply Hr|done..].
Qed.

(** *** One directory *)
Record pending (l : list str) s f : Prop := {
  pd_wf : wf f;
  pd_dst : look f d = Some VDir;
  pd_src : look f s = Some VDir;
  pd_there : forall n, n ∈ l -> look f (n :: s) <> None /\ (ok n = true -> look f (n :: s) <> Some VLink);
  pd_free : forall n bs, n ∈ l -> ok n = true -> look f (n :: s) = Some (VFile bs) -> look f (n :: d) = None;
}.

Lemma copy_entry_spec src s f c n l : loc src s -> pending (n :: l) s f -> ok n = true ->
  exists f' c', copy_entry ok src dst (f, c) n = (f', c') /\ wf f' /\
    ((exists bs, look f (n :: s) = Some (VFile bs) /\ look f (n :: d) = None /\ forall x, look f' x = if decide (x = n :: d) then Some (VFile bs) else look f x) \/
     ((forall bs, look f (n :: s) <> Some (VFile bs)) /\ f' = f)).
Proof.
  intros Hsrc [W D Hs T F] Ho. destruct (T n ltac:(by left)) as [Hn L]. specialize (L Ho). destruct (look_parent f n s W Hn) as [_ Hno].
  unfold copy_entry. rewrite Ho. unfold copy_to.
  assert (plain f (n :: s)) as Hps by (by apply file_plain). assert (loc (join src n) (n :: s)) as Hls by (by apply loc_name).
  destruct (look f (n :: s)) as [[|bs|]|] eqn:Hf; [| |done..].
  - eexists _, _. split; [done|]. unfold copy. rewrite (read_plain f W _ _ Hls Hps), Hf. split; [done|]. by right.
  - pose proof (F n bs ltac:(by left) Ho Hf) as Hfree. assert (loc (join dst n) (n :: d)) as Hld by (by apply loc_name).
    assert (plain f (n :: d)) as Hpd by (apply file_plain; [done..|by rewrite Hfree]).
    destruct (copy_free (join src n) (join dst n) (n :: s) d n bs f) as (f' & -> & Hw & Hl); [done..|].
    eexists _, _. split; [done|]. split; [done|]. left. by exists bs.
Qed.

Lemma pending_step n l s f f' : ~ d `suffix_of` s -> n ∉ l -> pending (n :: l) s f -> wf f' -> (forall x, x <> n :: d -> look f' x = look f x) ->
  look f' s = Some VDir -> pending l s f'.
Proof.
  intros Hap Hn [W D Hs T F] Hw Hsame Hs'. assert (forall m, look f' (m :: s) = look f (m :: s)) as Hse by (intros m; apply Hsame; intros [= -> ->]; by apply Hap).
  split; [done| |done|..].
  - rewrite Hsame; [done|]. intros He. apply (f_equal length) in He. cbn in He. lia.
  - intros m Hm. rewrite Hse. apply T. by right.
  - intros m bs Hm Ho Hf. rewrite Hse in Hf. rewrite Hsame by congruence. eapply F; [by right|done..].
Qed.

Lemma copy_entries src s l f c : loc src s -> ~ d `suffix_of` s -> NoDup l -> pending l s f ->
  exists f' c', fold_left (copy_entry ok src dst) l (f, c) = (f', c') /\ wf f' /\
    (forall x, (forall n bs, n ∈ l -> ok n = true -> look f (n :: s) = Some (VFile bs) -> x <> n :: d) -> look f' x = look f x) /\
    (forall n bs, n ∈ l -> ok n = true -> look f (n :: s) = Some (VFile bs) -> look f' (n :: d) = Some (VFile bs)).
Proof.
  intros Hsrc Hap. revert f c; induction l as [|n l IH]; intros f c Hnd Hp.
  { exists f, c. split; [done|]. split; [exact (pd_wf _ _ _ Hp)|]. split; [done|]. by intros n bs ?%elem_of_nil. }
  apply NoDup_cons in Hnd as [Hn Hnd]. cbn [fold_left].
  assert (exists f1 c1, copy_entry ok src dst (f, c) n = (f1, c1) /\ wf f1 /\ (forall x, (forall bs, ok n = true -> look f (n :: s) = Some (VFile bs) -> x <> n :: d) -> look f1 x = look f x) /\
    (forall bs, ok n = true -> look f (n :: s) = Some (VFile bs) -> look f (n :: d) = None /\ look f1 (n :: d) = Some (VFile bs))) as (f1 & c1 & -> & Hw1 & Hfr1 & Hfi1).
  { destruct (ok n) eqn:Ho; [|unfold copy_entry; rewrite Ho; exists f, c; split_and!; [done|exact (pd_wf _ _ _ Hp)|done|done]].
    destruct (copy_entry_spec src s f c n l Hsrc Hp Ho) as (f1 & c1 & -> & Hw1 & [(bs & Hf & Hfree & Hl)|[Hno ->]]); eexists _, _; (split_and!; [done|done|..]).
    - intros x Hx. rewrite Hl, decide_False; [done|]. by eapply Hx.
    - intros bs' _ Hf'. rewrite Hl, decide_True by done. split; [done|congruence].
    - done.
    - intros bs _ Hf. by apply Hno in Hf. }
  assert (forall x, x <> n :: d -> look f1 x = look f x) as Hsame by (intros x Hx; by apply Hfr1).
  assert (look f1 s = Some VDir) as Hs1.
  { rewrite Hfr1; [exact (pd_src _ _ _ Hp)|]. intros bs Ho Hf ->. destruct (Hfi1 bs Ho Hf) as [Hnone _]. pose proof (pd_src _ _ _ Hp). congruence. }
  destruct (IH f1 c1 Hnd) as (f2 & c2 & -> & Hw2 & Hfr2 & Hfi2); [by eapply pending_step|].
  assert (forall m, look f1 (m :: s) = look f (m :: s)) as Hse by (intros m; apply Hsame; intros [= -> ->]; by apply Hap).
  eexists _, _. split; [done|]. split; [done|]. split.
  - intros x Hx. rewrite Hfr2, Hfr1; [done|intros bs; by apply Hx; left|]. intros m bs Hm Ho Hf. rewrite Hse in Hf. eapply Hx; [by right|done..].
  - intros m bs [->|Hm]%elem_of_cons Ho Hf.
    + rewrite Hfr2; [by apply Hfi1|]. intros m' bs' Hm' _ _ [= <-]. done.
    + apply Hfi2; [done..|]. by rewrite Hse.
Qed.

Lemma no_entries f k n : wf f -> look f k <> Some VDir -> look f (n :: k) = None.
Proof. intros W Hk. destruct (look f (n :: k)) eqn:Hl; [|done]. destruct (look_parent f n k W) as [? _]; congruence. Qed.

Lemma copy_matching_packed src s f c : loc src s -> ready [s] f -> exists f' c', copy_matching ok src dst (f, c) = (f', c') /\ packed [s] f f'.
Proof.
  intros Hsrc [W D A P L F O]. assert (s ∈ [s]) as Hin by (by left). unfold copy_matching. cbn [fst]. rewrite (read_dir_plain f W src s Hsrc) by (by apply P).
  case_decide as Hs.
  - destruct (copy_entries src s (children s f) f c Hsrc) as (f' & c' & -> & Hw & Hfr & Hfi); [by apply A|apply NoDup_listing|..].
    + split; [done..| |].
      * intros n Hn. split; [by apply elem_of_listing|by apply L].
      * intros n bs _. by apply F.
    + eexists _, _. split; [done|]. split; [done|..].
      * intros x Hx. apply Hfr. intros n bs _. by apply Hx.
      * intros k n bs ->%list_elem_of_singleton Ho Hf. apply Hfi; [|done..]. apply elem_of_listing; [done|]. by rewrite Hf.
  - eexists _, _. split; [done|]. apply packed_none; [done|]. intros k n bs ->%list_elem_of_singleton _. by rewrite no_entries.
Qed.

(** *** One directory after the other *)
Lemma fold_packed (step : Fs * Z -> str -> Fs * Z) (dir_of : str -> place) ms f c :
  (forall m g c, m ∈ ms -> ready [dir_of m] g -> (forall x, ~ d `suffix_of` x -> look g x = look f x) -> exists g' c', step (g, c) m = (g', c') /\ packed [dir_of m] g g') ->
  NoDup (map dir_of ms) -> ready (map dir_of ms) f -> exists f' c', fold_left step ms (f, c) = (f', c') /\ packed (map dir_of ms) f f'.
Proof.
  intros Hstep. assert (forall x, ~ d `suffix_of` x -> look f x = look f x) as Hf0 by done. revert Hf0. generalize f at 1 3 4 5 as g. revert c. induction ms as [|m ms IH]; intros c g Hg Hnd Hr.
  { exists g, c. split; [done|]. apply packed_none; [exact (rd_wf _ _ Hr)|]. by intros k n bs ?%elem_of_nil. }
  cbn [map fold_left] in *. apply NoDup_cons in Hnd as [Hm Hnd]. change (dir_of m :: map dir_of ms) with ([dir_of m] ++ map dir_of ms) in *.
  assert ([dir_of m] ## map dir_of ms) as Hdis by (intros k ->%list_elem_of_singleton; done).
  destruct (Hstep m g c) as (g1 & c1 & -> & H1); [by left|eapply ready_sub; [|exact Hr]; intros k Hk; apply elem_of_app; by left|done|].
  destruct (IH) with (c := c1) (g := g1) as (f2 & c2 & -> & H2); [intros; apply Hstep; [by right|done..]| |done|by eapply ready_rest|].
  - intros x Hx. rewrite (packed_outside _ _ _ _ H1) by done. by apply Hg.
  - eexists _, _. split; [done|]. by eapply packed_app.
Qed.

Lemma ready_set dirs dirs' f : (forall k, k ∈ dirs <-> k ∈ dirs') -> ready dirs f -> ready dirs' f.
Proof. intros He. apply ready_sub. intros k. apply He. Qed.
Lemma packed_set dirs dirs' f f' : (forall k, k ∈ dirs <-> k ∈ dirs') -> packed dirs f f' -> packed dirs' f f'.
Proof.
  intros He [W Fr Fi]. split; [done|..].
  - intros x Hx. apply Fr. intros k n bs Hk. apply Hx. by apply He.
  - intros k n bs Hk. apply Fi. by apply He.
Qed.
End copies.

(** ** The executables of all modules *)
Definition X86 : str := Eval vm_compute in lit "x86_64-windows".
Definition DLLS : str := Eval vm_compute in lit "dlls".
Definition PROGRAMS : str := Eval vm_compute in lit "programs".
Lemma tree_names : name_ok X86 /\ name_ok DLLS /\ name_ok PROGRAMS.
Proof. apply (bool_decide_eq_true_1 _). vm_compute. reflexivity. Qed.
Definition module_dir (s : place) (m : str) : place := X86 :: m :: s.
Definition module_dirs (s : place) f : list place := map (module_dir s) (children s f).
Local Notation IS_PE := (has_suffix PE_SUFFIXES).

Lemma entry_is_dir_plain p (k : place) f : wf f -> loc p k -> plain f k -> entry_is_dir p f = bool_decide (look f k = Some VDir).
Proof.
  intros W Hl Hp. unfold entry_is_dir, symlink_metadata. rewrite (lookup_plain false p k f) by done. unfold found_at. destruct (entry_at k f) as [[|i|]|] eqn:He; symmetry.
  - apply bool_decide_eq_true. by apply look_dir.
  - apply bool_decide_eq_false. rewrite look_dir. congruence.
  - apply bool_decide_eq_false. rewrite look_dir. congruence.
  - transitivity false; [apply bool_decide_eq_false; rewrite look_dir; congruence|]. destruct k; [done|]. by case_decide.
Qed.

Section modules.
Context (lib_win : PathBuf) (d : place) (Hlib : loc lib_win d).

Lemma module_packed parent (s : place) m f c : loc parent s -> name_ok m -> ready IS_PE d [module_dir s m] f ->
  exists f' c', copy_module_pe parent lib_win (f, c) m = (f', c') /\ packed IS_PE d [module_dir s m] f f'.
Proof.
  intros Hl Hm Hr. pose proof (rd_wf _ _ _ _ Hr) as W. pose proof (rd_plain _ _ _ _ Hr _ (list_elem_of_here _ _)) as Hp.
  assert (loc (join parent m) (m :: s)) as Hlm by (by apply loc_name). assert (loc (join parent m / "x86_64-windows") (module_dir s m)) as Hlx by (apply (loc_name _ _ X86); [done|apply tree_names]).
  assert (look f (module_dir s m) <> Some VDir -> packed IS_PE d [module_dir s m] f f) as Hnone.
  { intros Hd. apply packed_none; [done|]. intros k n bs ->%list_elem_of_singleton _. by rewrite no_entries. }
  unfold copy_module_pe. cbn [fst]. rewrite (entry_is_dir_plain _ (m :: s)) by (done || by eapply plain_tail). case_bool_decide as Hd; cbn [negb].
  - rewrite (is_dir_plain f W _ _ Hlx Hp). case_bool_decide as Hx; cbn [negb]; [by apply copy_matching_packed|]. eexists _, _. split; [done|]. by apply Hnone.
  - eexists _, _. split; [done|]. apply Hnone. unfold module_dir. by rewrite no_entries.
Qed.

Lemma parent_packed parent (s : place) f : loc parent s -> plain f s -> ready IS_PE d (module_dirs s f) f ->
  exists f' c', copy_parent parent lib_win f = (f', c') /\ packed IS_PE d (module_dirs s f) f f'.
Proof.
  intros Hl Hp Hr. pose proof (rd_wf _ _ _ _ Hr) as W. unfold copy_parent. rewrite (is_dir_plain f W _ _ Hl Hp), (read_dir_plain f W _ _ Hl Hp).
  case_bool_decide as Hs; cbn [negb].
  - rewrite decide_True by done. apply fold_packed; [|apply NoDup_fmap_2; [by intros ? ? [= ->]|apply NoDup_listing]|done].
    intros m g c Hm Hrm _. apply module_packed; [done| |done]. apply elem_of_listing in Hm; [|done]. by eapply look_parent.
  - eexists _, _. split; [done|]. apply packed_none; [done|]. intros k n bs Hk _. unfold module_dirs in Hk. apply list_elem_of_In, in_map_iff in Hk as (m & _ & Hm%list_elem_of_In).
    apply elem_of_listing in Hm; [|done]. by rewrite no_entries in Hm.
Qed.
End modules.

(** The executables of a Wine tree are packaged.  When the tree has no links on the
    way to them, their names are distinct and the package is elsewhere, copying them
    puts every file with the suffix of an executable that a module has for Windows,
    with its contents, into the directory of the package, and changes nothing else. *)
Theorem executables_packaged wine_path lib_win (w d : place) f :
  loc wine_path w -> loc lib_win d -> Saves.apart w d -> plain f (DLLS :: w) -> plain f (PROGRAMS :: w) ->
  ready IS_PE d (module_dirs (DLLS :: w) f ++ module_dirs (PROGRAMS :: w) f) f ->
  exists f' counts, copy_pe_files wine_path lib_win f = (f', counts) /\ wf f' /\
    (forall s m n bs, s ∈ [DLLS; PROGRAMS] -> IS_PE n = true -> look f (n :: X86 :: m :: s :: w) = Some (VFile bs) -> look f' (n :: d) = Some (VFile bs)) /\
    (forall x, (forall n, IS_PE n = true -> x <> n :: d) -> look f' x = look f x).
Proof.
  intros Hw Hd Hap Hp1 Hp2 Hr. set (d1 := module_dirs (DLLS :: w) f) in *. set (d2 := module_dirs (PROGRAMS :: w) f) in *.
  assert (forall s s' f f', s <> s' -> module_dirs (s :: w) f ## module_dirs (s' :: w) f') as Hdis.
  { intros s s' g g' Hs k Hk Hk'. unfold module_dirs in *. apply list_elem_of_In, in_map_iff in Hk as (m & <- & _). apply list_elem_of_In, in_map_iff in Hk' as (m' & He & _).
    injection He as _ He. congruence. }
  pose proof (rd_wf _ _ _ _ Hr) as W. unfold copy_pe_files.
  destruct (parent_packed lib_win d Hd (wine_path / "dlls") (DLLS :: w) f) as (f1 & c1 & -> & H1); [apply (loc_name _ _ DLLS); [done|apply tree_names]|done|eapply ready_sub; [|exact Hr]; by apply list_subseteq_app_l|].
  assert (forall r, look f1 (r ++ w) = look f (r ++ w)) as Hsame.
  { intros r. apply (packed_outside _ _ _ _ _ _ H1). exact (proj2 (Saves.apart_below w d r [] Hap)). }
  pose proof (pk_wf _ _ _ _ _ H1) as W1.
  assert (forall k, k ∈ module_dirs (PROGRAMS :: w) f1 <-> k ∈ d2) as Hset.
  { intros k. unfold d2, module_dirs. rewrite !list_elem_of_In, !in_map_iff. setoid_rewrite <- list_elem_of_In. setoid_rewrite elem_of_listing; [|done..].
    by setoid_rewrite (Hsame [_; PROGRAMS]). }
  assert (ready IS_PE d d2 f1) as Hr1 by (eapply ready_rest; [exact (Hdis DLLS PROGRAMS f f ltac:(done))|done|done]).
  destruct (parent_packed lib_win d Hd (wine_path / "programs") (PROGRAMS :: w) f1) as (f2 & c2 & -> & H2); [apply (loc_name _ _ PROGRAMS); [done|apply tree_names]| |by eapply ready_set; [intros k; symmetry; apply Hset|]|].
  { intros x Hx. rewrite (packed_outside _ _ _ _ _ _ H1); [by apply Hp2|]. intros Hdx. apply (proj2 (Saves.apart_below w d [PROGRAMS] [] Hap)). by transitivity x. }
  apply (packed_set _ _ _ d2) in H2; [|done]. pose proof (packed_app _ _ _ _ _ _ _ (Hdis DLLS PROGRAMS f f ltac:(done)) Hr H1 H2) as [W2 Fr Fi].
  eexists _, _. split; [done|]. split; [done|]. split.
  - intros s m n bs Hs Hn Hf. apply (Fi (module_dir (s :: w) m)); [|done..]. apply elem_of_app.
    assert (m ∈ children (s :: w) f) as Hm.
    { apply elem_of_listing; [done|]. pose proof (look_parent f n (X86 :: m :: s :: w) W ltac:(by rewrite Hf)) as [Hx _].
      pose proof (look_parent f X86 (m :: s :: w) W ltac:(by rewrite Hx)) as [Hy _]. by rewrite Hy. }
    apply (list_elem_of_fmap_2 (module_dir (s :: w))) in Hm. apply elem_of_cons in Hs as [->|Hs%list_elem_of_singleton]; [by left|subst s; by right].
  - intros x Hx. apply Fr. intros k n bs _ Hn _. by apply Hx.
Qed.

End Packager.

Module PackagerDemo.
Import Text Fs SavesDemo Environ Packager.
Local Notation lit := Registry.lit.

Definition tree : Fs :=
  let f := make "/home" (make "/q" (make "/w/nls" (make "/w/loader" (make "/w/server" root_fs)))) in
  let f := make "/w/dlls/ntdll/x86_64-windows" (make "/w/programs/cmd/x86_64-windows" f) in
  let f := file "/w/server/wineserver" [1] (file "/w/loader/wine64" [2] (file "/w/loader/wine.inf" [3] f)) in
  let f := file "/w/dlls/ntdll/x86_64-windows/ntdll.dll" [4] (file "/w/dlls/ntdll/ntdll.so" [5] (file "/w/dlls/ntdll/ntdll.o" [6] f)) in
  file "/w/programs/cmd/x86_64-windows/cmd.exe" [7] (file "/w/nls/c_1252.nls" [8] (file "/q/quark" [9] f)).
Definition home : Env := {[lit "HOME" := lit "/home"]}.
Definition packaged (p : string) : option (list Z) :=
  match run home (lit "1") (lit "/q/quark") (lit "/w") tree with Ret (f, 0) => read (lit "/home/.steam/root/compatibilitytools.d/quark/" ++ lit p) f | _ => None end.
Example package_made :
  map packaged ["files/bin/wineserver"; "files/bin/wine64"; "files/lib/wine/x86_64-windows/ntdll.dll"; "files/lib/wine/x86_64-windows/cmd.exe"; "files/lib/wine/x86_64-unix/ntdll.so";
                "files/lib/wine/x86_64-unix/ntdll.o"; "files/share/wine/nls/c_1252.nls"; "files/share/wine/wine.inf"; "proton"]%string =
  [Some [1]; Some [2]; Some [4]; Some [7]; Some [5]; None; Some [8]; Some [3]; Some [9]].
Proof. vm_compute. reflexivity. Qed.

(** The tree with an empty package. *)
Definition before : Fs := Eval vm_compute in make "/p" tree.
Definition W : place := Eval vm_compute in [lit "w"].
Definition P : place := Eval vm_compute in [lit "p"].
Definition CMD : str := Eval vm_compute in lit "cmd.exe".
Definition sources : list place := Eval vm_compute in module_dirs (DLLS :: W) before ++ module_dirs (PROGRAMS :: W) before.
Definition is_file (k : place) : bool := match look before k with Some (VFile _) => true | _ => false end.
Definition entry_ready (k : place) (n : str) : bool :=
  negb (has_suffix PE_SUFFIXES n) ||
  (bool_decide (look before (n :: P) = None) && forallb (fun k' => negb (is_file (n :: k')) || bool_decide (k = k')) sources).

Lemma sources_ready : wf before /\ (forall k, Saves.linkless before k) -> ready (has_suffix PE_SUFFIXES) P sources before.
Proof.
  intros [Hw Hl]. assert (forallb (fun k => forallb (entry_ready k) (children k before)) sources = true) as B by (vm_compute; reflexivity).
  assert (forall k n, k ∈ sources -> has_suffix PE_SUFFIXES n = true -> look before (n :: k) <> None ->
    look before (n :: P) = None /\ forall k', k' ∈ sources -> is_file (n :: k') = true -> k = k') as Hb.
  { intros k n Hk Hn Hin. rewrite forallb_forall in B. apply list_elem_of_In, B in Hk. rewrite forallb_forall in Hk.
    apply (elem_of_listing before k n Hw), list_elem_of_In, Hk in Hin. unfold entry_ready in Hin. rewrite Hn in Hin. cbn [negb orb] in Hin.
    apply andb_true_iff in Hin as [H1%bool_decide_eq_true H2]. split; [done|]. intros k' Hk' Hf. rewrite forallb_forall in H2. apply list_elem_of_In, H2 in Hk'.
    rewrite Hf in Hk'. by apply bool_decide_eq_true in Hk'. }
  split; [done|vm_compute; reflexivity|..].
  - intros k Hk. revert k Hk. apply Forall_forall. apply (bool_decide_eq_true_1 _). vm_compute. reflexivity.
  - intros k _ x Hx. apply (Hl x []).
  - intros k n _ _. apply (Hl (n :: k) []).
  - intros k n bs Hk Hn Hf. apply (Hb k n Hk Hn). by rewrite Hf.
  - intros k k' n bs bs' Hk Hk' Hn Hf Hf'. apply (Hb k n Hk Hn); [by rewrite Hf|done|]. unfold is_file. by rewrite Hf'.
Qed.

Lemma executables_packaged_witness :
  exists f' counts, copy_pe_files (lit "/w") (lit "/p") before = (f', counts) /\ look f' (CMD :: P) = Some (VFile [7]) /\ look f' (CMD :: X86 :: lit "cmd" :: PROGRAMS :: W) = Some (VFile [7]).
Proof.
  assert (small 20 before = true) as B by (vm_compute; reflexivity). apply small_fs in B as (Hw & Hl & _).
  destruct (executables_packaged (lit "/w") (lit "/p") W P before) as (f' & counts & Hc & _ & Hfiles & Hframe).
  - split; vm_compute; reflexivity.
  - split; vm_compute; reflexivity.
  - split; apply (bool_decide_eq_true_1 (~ _)); vm_compute; reflexivity.
  - intros x _. apply (Hl x []).
  - intros x _. apply (Hl x []).
  - apply sources_ready. split; [exact Hw|exact Hl].
  - exists f', counts. split; [exact Hc|]. split.
    + apply (Hfiles PROGRAMS (lit "cmd")); [right; left|vm_compute; reflexivity..].
    + etransitivity; [apply Hframe|vm_compute; reflexivity]. intros n _ He. vm_compute in He. discriminate.
Defined.
End PackagerDemo.
